(* ===== verification/_CoqProject ===== *)
-Q . S2P
Prelude.v
Gvotable.v
GvotableRegistry.v
GvotableElection.v
GvotableLocks.v
SysmmuPt.v
SysmmuFacts.v
SysmmuMap.v
SysmmuUnmap.v
SysmmuRange.v
SysmmuSync.v
SysmmuAttach.v
SysmmuDevices.v
PmQos.v
PmQosFacts.v
PmQosHistory.v
Acpm.v
AcpmFacts.v
AcpmIpc.v
S2mpu.v
S2mpuTables.v
S2mpuFacts.v
S2mpuGranule.v
S2mpuSplit.v
S2mpuWindow.v
S2mpuSetup.v
S2mpuSpec.v
S2mpuDriver.v
Dm.v
DmGraph.v
DmPlan.v
DmCall.v
DmSpec.v
DmReg.v
DmDevice.v
Pt.v
PtOwner.v
PtClient.v
SlcDummy.v
PtResize.v
PtRegister.v
PtModule.v
SlcAcpm.v
PtSpec.v
PtCases.v
Eh.v
EhFifo.v
EhRun.v
EhSpec.v
EhInit.v
EhMemory.v
EhProbe.v
EhDecompress.v
EhCases.v
Ect.v
EctFormat.v
EctBlocks.v
EctSpec.v
EctLookup.v
EctCases.v
Cpupm.v
CpupmIp.v
CpupmView.v
CpupmRun.v
CpupmSpec.v
CpupmBoot.v
CpupmPower.v
CpupmCases.v
Cpuhp.v
CpuhpSpec.v
CpuhpCases.v
CpuhpPower.v
PixelEm.v
PixelEmText.v
PixelEmSpec.v
PixelEmFile.v
PixelEmProbe.v
PixelEmCases.v
Logbuf.v
LogbufSpec.v
