(* ===== verification/Prelude.v ===== *)
(** * Verification of the gs101 device kernel drivers

    The repository holds the device-specific Linux drivers of the gs101 (Pixel 6)
    platform. This library models, definition by definition, the drivers whose
    own logic other drivers depend on, and proves what makes them correct. Paths
    are relative to the repository's root.

    ** The parts and the files

    - [Prelude]: record update, fixed-width integers, C strings, the kernel heap,
      and the monad [M S A] of stateful operations. An operation is [Done] with a
      result and a state, [Blocked] for ever (a lock nobody releases, an endless
      wait), or a [Fault] (an invalid access, [BUG()], a panic). [wp] is total
      correctness: the operation completes and its result satisfies the condition.

    - [Gvotable], [GvotableRegistry]: the election library
      ([drivers/misc/gvotable.c]). Drivers share a resource (a charging current)
      by voting; an election keeps its ballots in the order of a comparator and
      elects the first enabled one. The state [est] of one election is the C
      struct with its two mutexes, the heap, and the log of callback calls;
      [gstate] is the list of registered elections. One definition per C
      function, with its name. [GvotableElection]: an election refines a finite
      map from reasons to votes ([cast_vote_refines], [bool_vote_result]); the
      comparators that order votes by a key are the class [KeyCmp] the
      refinement is proved against. [GvotableLocks]: the lock discipline, and
      what the code does outside the conditions of the refinement.

    - [SysmmuPt]: the page tables of the IOMMU ([drivers/iommu/samsung-iommu.c] and
      [.h]): entry formats, map, unmap, ranged unmap, translation, domain
      allocation and release. [SysmmuFacts], [SysmmuMap], [SysmmuUnmap],
      [SysmmuRange]: each operation changes the translation of a domain exactly as
      it should, keeps the tables well formed and their entry counters exact, and
      so any history of requests translates as an abstract map does
      ([reachable_translates]). [SysmmuSync]: synchronising a mapped range cleans
      exactly its entries.

    - [SysmmuAttach]: attaching devices to domains, programming the hardware's
      registers, invalidating TLBs, suspend and resume (same source).
      [SysmmuDevices]: attachment counts, lists and page tables stay consistent on
      every path; invalidation reaches exactly the running SysMMUs of a group; a
      resumed SysMMU walks the page tables the driver recorded.

    - [PmQos]: quality-of-service classes ([drivers/soc/google/exynos_pm_qos.c]):
      the priority list with its ring, the classes, requests with timeouts, flags.
      [PmQosFacts]: an update keeps the list sorted and publishes the aggregate.
      [PmQosHistory]: so does any history of calls and timeouts.

    - [Acpm]: the mailbox to the power-management firmware
      ([drivers/soc/google/acpm/acpm_ipc.c]): channels with two queues in shared
      memory, sequence numbers, polled and interrupt-driven requests, the
      firmware's log. [AcpmFacts], [AcpmIpc]: queues as lists of pending commands;
      a send appends one command under a free number; a response reaches the
      request it answers; what happens when none comes.

    - [S2mpu], [S2mpuDriver]: the stage-2 memory protection unit
      ([drivers/soc/google/s2mpu/], library and platform driver). Windows are
      opened and closed per gigabyte, or per granule through second-level tables
      that are split when a finer granule is needed. The state
      [s2mpu_info] is the instance with its copy of the first level, its
      registers, and the buffers of the tables. [S2mpuTables], [S2mpuFacts], [S2mpuGranule],
      [S2mpuSplit], [S2mpuWindow], [S2mpuSetup]: what the hardware permits
      ([hw_perm]) before and after each step. [S2mpuSpec]: any history of windows
      and power losses permits exactly what it says ([requests_refine]), with
      stale cache entries dropped and buffers neither leaked nor shared.

    - [Dm]: the DVFS dependency manager ([drivers/soc/google/exynos-dm.c]): domains
      and constraints between them, the topological sort, policies and [DM_CALL].
      [DmGraph]: the sort on a consistent graph. [DmPlan]: a call as an operation
      on valuations, which the code refines. [DmCall], [DmSpec]: the targets of a
      call ([targets_settle]) and that no frequency change on the way violates a
      constraint ([calls_respect_constraints]). [DmReg]: registration keeps the
      graph consistent and ordered. [DmDevice]: a device set up by the code, and
      what withdrawing a constraint, a failing scaler or a lifted ceiling do to it.

    - [Pt]: the cache partition driver ([drivers/soc/google/pt/pt.c]): drivers of the
      system cache, clients with their partitions, the queue of resize callbacks
      and the control file. A driver is a record of operations; [PtOwner] states
      what [pt.h] promises of one (class [PtDriverSpec]), which [SlcDummy]
      ([slc_dummy.c]) is proved to keep. [SlcAcpm] is the driver over the firmware
      mailbox ([slc_acpm.c]). [PtClient], [PtRegister], [PtModule]: each call against
      that interface. [PtResize]: driver callbacks, clients and the thread,
      interleaved at the sections under the spin lock. [PtSpec]: the module refines
      the life of a partition ([partitions_follow_spec]), no ptid is shared, a
      disabled partition stays quiet, sizes reach the clients. [PtCases]: runs that
      go wrong.

    - [Eh]: the compression engine ([drivers/soc/google/eh/eh_main.c]): pages to
      compress go into a ring of descriptors, or a queue behind it, and a thread
      reports the results. [EhFifo]: the ring in terms of absolute numbers of
      requests, results and reports, and the engine itself as a step. [EhRun],
      [EhSpec]: clients, engine and thread in any order; every report answers one
      submitted request, in the order in which the engine took them, and nothing
      is left unanswered or indexed out of bounds. [EhInit], [EhMemory], [EhProbe]:
      set-up and release with every block and resource they hold, suspend and
      resume. [EhDecompress]: the encoding of buffers, the decompression command
      and the wait for it. [EhCases]: concrete runs, and those that go wrong.

    - [Ect]: the table of chip characteristics the boot loader leaves in memory
      ([drivers/soc/google/ect_parser.c]): the file, its thirteen kinds of block
      and the lookups. A parser is a function of its cursor; the structures it
      makes point into the file. [EctFormat]: encoders, what the primitive parsers
      do on their output, and the interface [Format] between the parser of a block
      and the parser of its entries, with the theorem about blocks proved against
      it; [EctBlocks]: the instances, one per kind. [EctSpec]: whole files, blocks
      with unknown names among them. [EctLookup]: parsing inverts encoding
      ([parse_represents_file]), lookups find the first entry with a name
      ([dvfs_domain_found]), and other files are refused. [EctCases]: a concrete
      file, and what short files, failing allocations and similar names lead to.

    - [Cpupm] holds the cpu power modes ([drivers/soc/google/exynos-cpupm.c]): the
      states of cpus and of the modes of clusters and of the system, the idle-IPs in
      their linked list, disabling, hotplug, statistics and the set-up. What others
      answer (time, mailbox, notifiers, memory) is an oracle, asked in turn; what
      the power controller is told is a log. [CpupmIp]: the list of idle-IPs as a
      list. [CpupmView]: the invariant that ties cpus, modes and the log together,
      on a view of the state; [CpupmRun]: the operations on that view;
      [CpupmSpec]: histories of events, each of which keeps it; [CpupmBoot]: the
      probe establishes it. [CpupmPower] states what follows for every history
      ([pmu_follows_modes], [histories_complete]; [modes_follow_cpus] where cpus
      come up beside a running one) and when a cluster is entered
      ([cluster_entered_iff]); [CpupmCases]: a machine of three
      cpus, and what the driver does not handle.

    - [Cpuhp]: hotplug on request ([drivers/soc/google/exynos-cpuhp.c]): users with
      the cpus they allow, the run that takes cpus down and up, its file and switch.
      Bringing a cpu up or down is the kernel's: class [Hotplug], its promises
      [HotplugLaws]. [CpuhpSpec]: each operation against the list of users, and
      histories, in which the driver may be switched off and on. [CpuhpCases]: while
      the driver's mask is the cpus online, events that look at the requests leave
      online those that all users allow ([requests_served]), and what a failing
      kernel leaves ([failed_hotplug_resyncs]); the mask is exact unless the driver
      was switched off. [CpuhpPower]: the interface implemented by the
      power modes' hotplug callbacks, so that the requests decide what is switched
      off ([requests_switch_power]).

    - [PixelEm]: the energy model that profiles change at run time
      ([drivers/soc/google/pixel_em/pixel_em.c]): clones of the kernel's performance
      domains in a heap of blocks, the text of a profile, the file, the probe with
      every failure, removal. [PixelEmText]: numbers and lines printed and read
      back, and the parser's loop as a loop over what the lines say.
      [PixelEmSpec]: the heap as a list of blocks up to permutation ([owns]) and the
      memory operations on it; tables as lists and what a text does to them
      ([apply_lines]); the state ([holds]). [PixelEmFile]: the operations on that
      state; a text is applied exactly, refused or leaves the tables
      ([store_applies_text]), a profile that was read restores the powers
      ([saved_profile_restores]), the default restores everything
      ([default_restores]). [PixelEmProbe]: all or nothing
      ([probe_clones_or_nothing]), and removal keeps what is shared
      ([remove_keeps_shared]). [PixelEmCases]: a machine, and texts that go wrong.

    - [Logbuf]: the log buffers of the charging drivers
      ([drivers/misc/logbuffer.c]): rings of 1024 lines in a heap of blocks, with
      time stamps, registration and a file that shows them. The clocks and the
      formatted texts are inputs. [LogbufSpec]: a ring as the list of all lines
      ever written; after any history each shows the last 1023
      ([shows_last_lines]), a message is the last line ([message_is_last_line]),
      and memory is owned by what is registered ([registered_own_memory]).

    ** How the models correspond to the code

    Integers are [Z] with the width of their C type written where it can matter
    ([u32], [s32], [u64]). Pointers are addresses in a heap of blocks, or indices
    in a list. Each operation of a lock-protected component is one step; where
    the locking itself is at stake ([GvotableLocks]) the locks are part of the
    state, and where work is done after the lock is released (the notifier chain
    of [exynos_pm_qos_update_target]) that part is a separate step. The other
    side of the mailbox is an explicit sequence of firmware steps between the
    driver's reads. Code outside the repository is a parameter: the kernel's
    allocator and string hash of the elections, the election's callback, the
    platform operations registered for a timeout, the DMA allocator of the
    protection tables (class [DmaAlloc], its promises [DmaReady]), the frequency
    scalers and the policy mailbox of the dependency manager, the firmware behind
    [slc_acpm.c], which resize callbacks take the mutex of their handle, and what
    the kernel and the engine answer while the compression engine is probed. The
    table of characteristics is a list of bytes at an address, with nothing
    readable outside it. An interrupt sent to a cpu that the power modes have put
    to sleep ([awake_cpus]) is its way out through [CPU_PM_EXIT], and the sections
    under [cpupm_lock] are one step each. The
    ring of the compression engine is shared with its clients without a lock
    between producers and the thread: a step is a section under the producer's
    lock, one descriptor of the thread, or one completion of the engine.

    ** Bounds and fuel

    Loops that walk a table or a queue take the number of entries as their
    measure, so they never run out; the loops that wait for the firmware take
    one element of their environment per iteration and are [Blocked] when it is
    exhausted, and the theorems say how many iterations are enough (10008 polls
    of a silent firmware). The search for a sequence number takes 64 steps, after
    which every number has been seen. Opening a granule calls itself once after a
    split: depth 2 is enough when memory is available, and without memory no
    depth is ([no_memory_never_returns]). The topological sort takes each domain
    at most once: the number of domains is enough fuel, which [sort_gives_order]
    proves along with the bounds of its arrays. [slc_acpm_check] loops as long as
    the firmware reports; the number of reports is enough ([check_reports_all]).
    Aborting the ring takes at most a turn of it; the polls for a reset or for a
    decompression take their number as fuel, and the theorems assume only that the
    engine ends its reset, or that time passes, within it. The loops over the cpus
    of the energy model take a domain's cpus away each turn, so the number of cpus
    is enough; the parser of a profile takes one line per turn, of which there are
    no more than characters. Numbers are printed with at most twenty digits, which
    hold every [unsigned long].

    ** What is not modelled

    Probing and device-tree parsing, debugfs text output, notifier registration,
    and the other drivers of the tree: bus, sensor, codec and modem drivers are
    register I/O over kernel frameworks, [cal-if] is generated tables, [vl53l1] and
    [zram] are copies of third-party code. Of the dependency manager the sysfs
    files are left out; the propagation of policies is modelled, and only its
    missed case is proved; of the compression engine the statistics, the register
    dumps and the stop request of its thread; of the characteristics table the
    dump files and the probe that maps the memory; of the power modes the text of
    the statistics files, and profiling is defined but no part of the histories;
    of hotplug the files that only print. The secure address allocator
    ([drivers/iommu/samsung-secure-iova.c]) hands its arguments to the kernel's
    [gen_pool], and the fault handler of the IOMMU prints registers: neither has
    logic of its own to state. *)

From stdpp Require Export base option list gmap strings.
From Stdlib Require Export ZArith Lia.
#[export] Set Default Goal Selector "!".
Open Scope Z_scope.

(** ** Record update

    [r <| f := v |>] is the C assignment [r.f = v]. A record type declares its
    eta expansion once; the setter of a field replaces that field's projection
    in it. *)

Class Eta (R : Type) := mk_eta { eta : R -> R }.
Class Setter {R T : Type} (p : R -> T) := mk_setter { setter : T -> R -> R }.
Arguments mk_eta {R} _.
Arguments mk_setter {R T p} _.

Ltac solve_setter :=
  match goal with
  | |- @Setter ?R ?T ?p =>
      let i := constr:(_ : Eta R) in
      let b := eval red in i in
      match b with
      | mk_eta ?f =>
          match eval pattern p in f with
          | ?g _ => let t := eval cbv beta in (fun v : T => g (fun _ : R => v)) in exact (mk_setter t)
          end
      end
  end.
#[export] Hint Extern 0 (Setter _) => solve_setter : typeclass_instances.

Notation "r <| p := v |>" := (setter (p := p) v r)
  (at level 1, left associativity, p at level 9, v at level 200,
   format "r  <| p  :=  v |>").
Arguments setter / _ _ _ _ _ _.

(** ** C integers, at their width *)

Definition u8 (x : Z) : Z := x mod 2 ^ 8.
Definition u32 (x : Z) : Z := x mod 2 ^ 32.
Definition u64 (x : Z) : Z := x mod 2 ^ 64.

(** Two's-complement reading of the low 32 (64) bits. *)
Definition s32 (x : Z) : Z := (x + 2 ^ 31) mod 2 ^ 32 - 2 ^ 31.
Definition s64 (x : Z) : Z := (x + 2 ^ 63) mod 2 ^ 64 - 2 ^ 63.

(** Bit [n], and the mask of bits [h..l], as the kernel's macros. *)
Definition BIT (n : Z) : Z := Z.shiftl 1 n.

(** [lia] with quotients and remainders by constants. *)
Ltac dlia := Z.to_euclidean_division_equations; lia.

(** Masks and flags as arithmetic. *)
Lemma land_low x n : 0 <= n -> Z.land x (2 ^ n - 1) = x mod 2 ^ n.
Proof. intros. rewrite <- Z.land_ones by lia. by rewrite Z.ones_equiv, Z.sub_1_r. Qed.

Lemma land_high x n : 0 <= n -> Z.land x (Z.lnot (2 ^ n - 1)) = x / 2 ^ n * 2 ^ n.
Proof.
  intros. rewrite <- Z.ldiff_land, Z.sub_1_r, <- Z.ones_equiv, Z.ldiff_ones_r by lia.
  by rewrite Z.shiftr_div_pow2, Z.shiftl_mul_pow2 by lia.
Qed.

Lemma ldiff_low x n : 0 <= n -> Z.ldiff x (2 ^ n - 1) = x / 2 ^ n * 2 ^ n.
Proof. intros. rewrite Z.ldiff_land. by apply land_high. Qed.

Lemma lor_low a b n : 0 <= n -> a mod 2 ^ n = 0 -> 0 <= b < 2 ^ n -> Z.lor a b = a + b.
Proof.
  intros Hn Ha Hb. rewrite <- Z.add_lor_land.
  replace b with (Z.land b (2 ^ n - 1)) at 3 by (rewrite land_low by lia; by apply Z.mod_small).
  rewrite (Z.land_comm b), Z.land_assoc, land_low, Ha by lia. by rewrite Z.land_0_l, Z.add_0_r.
Qed.

Lemma s32_small x : - 2 ^ 31 <= x < 2 ^ 31 -> s32 x = x.
Proof. intros. unfold s32. rewrite Z.mod_small by lia. lia. Qed.

Lemma u32_small x : 0 <= x < 2 ^ 32 -> u32 x = x.
Proof. apply Z.mod_small. Qed.

Lemma u64_small x : 0 <= x < 2 ^ 64 -> u64 x = x.
Proof. apply Z.mod_small. Qed.

Lemma u32_bit x k : 0 <= k < 32 -> Z.testbit (u32 x) k = Z.testbit x k.
Proof. intros Hk. unfold u32. apply Z.mod_pow2_bits_low. lia. Qed.

(** ** Files of words

    Registers and tables of words by offset or index; absent means zero. *)

Definition rd (t : gmap Z Z) (i : Z) : Z := default 0 (t !! i).

Lemma rd_insert_eq t i v : rd (<[i := v]> t) i = v.
Proof. unfold rd. by rewrite lookup_insert_eq. Qed.
Lemma rd_insert_ne t i j v : i <> j -> rd (<[i := v]> t) j = rd t j.
Proof. intros H. unfold rd. by rewrite lookup_insert_ne. Qed.

(** ** errno values (positive, returned negated) *)

Definition EPERM : Z := 1.
Definition ENOENT : Z := 2.
Definition EIO : Z := 5.
Definition ENXIO : Z := 6.
Definition EAGAIN : Z := 11.
Definition ENOMEM : Z := 12.
Definition EFAULT : Z := 14.
Definition EBUSY : Z := 16.
Definition EEXIST : Z := 17.
Definition ENODEV : Z := 19.
Definition EINVAL : Z := 22.
Definition ERANGE : Z := 34.
Definition EOVERFLOW : Z := 75.
Definition EADDRINUSE : Z := 98.
Definition ETIMEDOUT : Z := 110.

(** ** C strings

    A NUL-terminated buffer is the string before its terminator. *)

Fixpoint str_take (n : nat) (s : string) : string :=
  match n, s with
  | S n', String c s' => String c (str_take n' s')
  | _, _ => EmptyString
  end.

(** [strlcpy(dst, src, size)]: what [dst] holds afterwards. *)
Definition strlcpy (src : string) (size : nat) : string :=
  str_take (pred size) src.

(** [strncmp(a, b, n) == 0]. *)
Definition strncmp0 (a b : string) (n : nat) : bool :=
  bool_decide (str_take n a = str_take n b).

Lemma str_take_length n s : (String.length (str_take n s) = n `min` String.length s)%nat.
Proof. revert s; induction n; intros [|c s]; simpl; [done..|]. by rewrite IHn. Qed.

Lemma str_take_ge n s : (String.length s <= n)%nat -> str_take n s = s.
Proof.
  revert s; induction n; intros [|c s]; simpl; intros; [done|lia|done|].
  f_equal. apply IHn. lia.
Qed.

Lemma str_take_take n m s : str_take n (str_take m s) = str_take (n `min` m) s.
Proof. revert m s; induction n; intros [|m] [|c s]; simpl; [done..|]. by rewrite IHn. Qed.

Lemma strncmp0_refl a n : strncmp0 a a n = true.
Proof. by apply bool_decide_eq_true. Qed.

Lemma strncmp0_short a b n :
  (String.length a < n)%nat -> (String.length b < n)%nat ->
  strncmp0 a b n = bool_decide (a = b).
Proof. intros. unfold strncmp0. by rewrite !str_take_ge by lia. Qed.

(** A string cut by [strlcpy] differs from its source, within the buffer size,
    as soon as the source does not fit. *)
Lemma strncmp0_strlcpy_long s n :
  (0 < n)%nat -> (n <= String.length s)%nat -> strncmp0 (strlcpy s n) s n = false.
Proof.
  intros Hn Hl. apply bool_decide_eq_false. intros E.
  apply (f_equal String.length) in E. unfold strlcpy in E.
  rewrite !str_take_length in E. lia.
Qed.

(** A string that fits in the buffer is never equal, within its size, to one
    that does not. *)
Lemma strncmp0_long a b n :
  (String.length a < n)%nat -> (n <= String.length b)%nat -> strncmp0 a b n = false.
Proof.
  intros Ha Hb. apply bool_decide_eq_false. intros E.
  apply (f_equal String.length) in E. rewrite !str_take_length in E. lia.
Qed.

Lemma strlcpy_length s n : (0 < n)%nat -> (String.length (strlcpy s n) < n)%nat.
Proof. intros. unfold strlcpy. rewrite str_take_length. lia. Qed.

Lemma strlcpy_short s n : (String.length s < n)%nat -> strlcpy s n = s.
Proof. intros. apply str_take_ge. lia. Qed.

(** The kernel's [isspace], with the no-break space, and [skip_spaces]. *)
Definition is_space (c : Ascii.ascii) : bool :=
  match Ascii.nat_of_ascii c with 9 | 10 | 11 | 12 | 13 | 32 | 160 => true | _ => false end%nat.
Fixpoint skip_spaces (s : string) : string :=
  match s with String c s' => if is_space c then skip_spaces s' else s | EmptyString => EmptyString end.

(** Numbers in base ten: [%lu], of at most twenty digits, and [%d]. *)
Definition newline : Ascii.ascii := Ascii.ascii_of_nat 10.
Definition digit_of (d : Z) : Ascii.ascii := Ascii.ascii_of_nat (48 + Z.to_nat d).
Fixpoint put_dec (fuel : nat) (n : Z) (acc : string) : string :=
  match fuel with
  | O => acc
  | S fuel => if n <? 10 then String (digit_of n) acc else put_dec fuel (n / 10) (String (digit_of (n mod 10)) acc)
  end.
Definition print_lu (n : Z) : string := put_dec 20 n "".
Definition print_d (n : Z) : string := if n <? 0 then String (Ascii.ascii_of_nat 45) (print_lu (- n)) else print_lu n.

(** What a C string holds: up to the first zero. *)
Fixpoint c_string (s : string) : string :=
  match s with String c s' => if (Ascii.nat_of_ascii c =? 0)%nat then EmptyString else String c (c_string s') | EmptyString => EmptyString end.

(** ** Lists *)

Lemma list_find_ext_in {A} (P Q : A -> Prop) `{!forall x, Decision (P x), !forall x, Decision (Q x)} l :
  (forall x, x ∈ l -> P x <-> Q x) -> list_find P l = list_find Q l.
Proof.
  induction l as [|x l IH]; intros Hin; simpl; [done|].
  rewrite IH by (intros y Hy; apply Hin; by right).
  pose proof (Hin x ltac:(by left)). repeat case_decide; tauto.
Qed.

(** ** Memory blocks

    A heap maps the address of each live block to its bytes; only whole blocks
    are addressed by the code modelled on it. *)

Abbreviation heap := (gmap Z (list Z)).

Definition zeros (n : Z) : list Z := replicate (Z.to_nat n) 0.

(** [memcpy(dst, src, n)]; [None] when a block is missing or too small. *)
Definition heap_memcpy (h : heap) (dst src n : Z) : option heap :=
  match h !! src, h !! dst with
  | Some sb, Some db =>
      if bool_decide (n <= Z.of_nat (length sb) /\ n <= Z.of_nat (length db))
      then Some (<[dst := take (Z.to_nat n) sb ++ drop (Z.to_nat n) db]> h)
      else None
  | _, _ => None
  end.

(** Freeing a list of blocks. *)
Definition heap_free (ps : list Z) (h : heap) : heap := foldl (fun h p => delete p h) h ps.

Lemma heap_free_lookup ps h q :
  heap_free ps h !! q = if decide (q ∈ ps) then None else h !! q.
Proof.
  unfold heap_free; revert h; induction ps as [|p ps IH]; intros h; simpl; [done|].
  rewrite IH. destruct (decide (p = q)) as [->|Hne].
  - rewrite lookup_delete_eq. repeat case_decide; set_solver.
  - rewrite lookup_delete_ne by done. repeat case_decide; set_solver.
Qed.

Lemma heap_free_app ps qs h : heap_free (ps ++ qs) h = heap_free qs (heap_free ps h).
Proof. unfold heap_free. apply foldl_app. Qed.

(** What the development asks of an allocator, and one that has it: it hands
    out the address after the highest live one. *)
Class Allocator (kzalloc : heap -> Z -> option Z) : Prop :=
  kzalloc_fresh : forall h n p, kzalloc h n = Some p -> 0 < p /\ h !! p = None.

Definition bump_alloc (h : heap) (n : Z) : option Z :=
  Some (1 + foldr Z.max 0 (elements (dom h))).

Lemma foldr_max_ge l x : x ∈ l -> x <= foldr Z.max 0 l.
Proof. induction 1; simpl; lia. Qed.

Lemma foldr_max_nonneg l : 0 <= foldr Z.max 0 l.
Proof. induction l; simpl; lia. Qed.

#[export] Instance bump_alloc_allocator : Allocator bump_alloc.
Proof.
  intros h n p [= <-]. split; [pose proof (foldr_max_nonneg (elements (dom h))); lia|].
  apply not_elem_of_dom. intros Hin%elem_of_elements%foldr_max_ge. lia.
Qed.

(** ** Effectful code

    An operation either completes with a result and a new state, blocks for
    ever on a lock its own task can no longer release, or performs an access
    that C leaves undefined (or reaches [BUG()]). *)

Inductive outcome (S A : Type) : Type :=
| Done (a : A) (s : S)
| Blocked
| Fault.
Arguments Done {S A} _ _.
Arguments Blocked {S A}.
Arguments Fault {S A}.

Definition M (S A : Type) : Type := S -> outcome S A.

Definition kret {S A} (a : A) : M S A := fun s => Done a s.
Definition kbind {S A B} (m : M S A) (k : A -> M S B) : M S B := fun s =>
  match m s with
  | Done a s' => k a s'
  | Blocked => Blocked
  | Fault => Fault
  end.
Definition kget {S} : M S S := fun s => Done s s.
Definition kput {S} (s : S) : M S unit := fun _ => Done tt s.
Definition kmod {S} (f : S -> S) : M S unit := fun s => Done tt (f s).
Definition kblock {S A} : M S A := fun _ => Blocked.
Definition kfault {S A} : M S A := fun _ => Fault.

Declare Scope km_scope.
Delimit Scope km_scope with km.
Notation "'let!' x ':=' c 'in' k" := (kbind c (fun x => k))
  (at level 10, x name, c at level 100, k at level 200) : km_scope.
Notation "'do!' c 'in' k" := (kbind c (fun _ => k))
  (at level 10, c at level 100, k at level 200) : km_scope.
Open Scope km_scope.

(** Total correctness: the operation completes, and its result satisfies [Q]. *)
Definition wp {S A} (m : M S A) (Q : A -> S -> Prop) (s : S) : Prop :=
  match m s with Done a s' => Q a s' | _ => False end.

Section Wp.
Context {S : Type}.
Implicit Types s : S.

Lemma wp_ret {A} (a : A) Q s : Q a s -> wp (kret a) Q s.
Proof. done. Qed.

Lemma wp_bind {A B} (m : M S A) (k : A -> M S B) Q s :
  wp m (fun a s' => wp (k a) Q s') s -> wp (kbind m k) Q s.
Proof. unfold wp, kbind. by destruct (m s). Qed.

Lemma wp_get Q s : Q s s -> wp kget Q s.
Proof. done. Qed.

Lemma wp_mod f Q s : Q tt (f s) -> wp (kmod f) Q s.
Proof. done. Qed.

Lemma wp_mono {A} (m : M S A) (P Q : A -> S -> Prop) s :
  wp m P s -> (forall a s', P a s' -> Q a s') -> wp m Q s.
Proof. unfold wp. destruct (m s); naive_solver. Qed.

Lemma wp_conj {A} (m : M S A) (P Q : A -> S -> Prop) s :
  wp m P s -> wp m Q s -> wp m (fun a s' => P a s' /\ Q a s') s.
Proof. unfold wp. destruct (m s); naive_solver. Qed.

Lemma wp_done {A} (m : M S A) (Q : A -> S -> Prop) s a s' :
  wp m Q s -> m s = Done a s' -> Q a s'.
Proof. unfold wp. intros H E. by rewrite E in H. Qed.

Lemma wp_run {A} (m : M S A) (Q : A -> S -> Prop) s :
  wp m Q s -> exists a s', m s = Done a s' /\ Q a s'.
Proof. unfold wp. destruct (m s); naive_solver. Qed.

Lemma wp_eq {A} (m : M S A) (Q : A -> S -> Prop) s a s' : m s = Done a s' -> Q a s' -> wp m Q s.
Proof. intros E H. unfold wp. by rewrite E. Qed.

Lemma wp_assoc {A B C} (m : M S A) (f : A -> M S B) (k : B -> M S C) Q s :
  wp (kbind (kbind m f) k) Q s -> wp (kbind m (fun x => kbind (f x) k)) Q s.
Proof. unfold wp, kbind. by destruct (m s). Qed.
End Wp.

(** Symbolic execution of straight-line monadic code. *)
Create HintDb km.
#[export] Hint Resolve wp_ret wp_get wp_mod : km.

Ltac wp_step :=
  match goal with
  | |- wp (kbind _ _) _ _ => apply wp_bind
  | |- wp (kret _) _ _ => apply wp_ret
  | |- wp kget _ _ => apply wp_get
  | |- wp (kmod _) _ _ => apply wp_mod
  | |- wp (if ?b then _ else _) _ _ => let E := fresh "E" in destruct b eqn:E
  end.
Ltac wp_steps := repeat (wp_step; simpl).
