(* ===== verification/Gvotable.v ===== *)
(** * The election library ([drivers/misc/gvotable.c])

    Drivers share a resource by voting on it: each voter (a "reason") owns a
    ballot in the list of an election, the list is kept in the order of the
    election's comparator, and the first enabled ballot gives the result.

    Votes are the C code's [void *]: the 64-bit value itself when the vote fits
    in a pointer, the address of a private copy of [vote_size] bytes otherwise
    ([use_alloc]). An election runs on a state made of the election, the heap
    blocks and the log of callback calls; the election registry holds many. *)

From S2P Require Import Prelude.

Definition VOTES_HISTORY_DEPTH : nat := 1.
Definition MAX_NAME_LEN : nat := 16.
Definition GVOTABLE_MAX_REASON_LEN : nat := 32.
Definition DEBUGFS_CAST_VOTE_REASON : string := "DEBUGFS".
Definition DEBUGFS_FORCE_VOTE_REASON : string := "DEBUGFS_FORCE".
Definition default_reason : string := "Default".
Definition GVOTABLE_BOOL_TRUE_VALUE : Z := 1.
Definition GVOTABLE_BOOL_FALSE_VALUE : Z := 0.

(** ** Data *)

(** The comparators the library offers, and a caller's own, which may read the
    blocks the two votes point to. *)
Inductive comparator :=
| CmpUintMax | CmpUintMin | CmpInt | CmpIntMax | CmpIntMin
| CmpMostRecent | CmpLeastRecent | CmpBool | CmpNone
| CmpUser (f : heap -> Z -> Z -> Z).

(** What a result callback does: the code it returns, and the
    [gvotable_election_set_result] call it may make (the only entry point that
    takes no lock and so the only one it can use on its own election). *)
Record callback_outcome := MkCb {
  cb_ret : Z;
  cb_set_result : option (string * Z)
}.

(** A callback, applied to the reason ([None] for [NULL]) and the vote. *)
Definition callback_fn : Type := option string -> Z -> callback_outcome.

Record ballot := MkBallot {
  b_addr : Z;
  b_enabled : bool;
  b_reason_hash : Z;
  b_reason : string;
  b_idx : nat;
  b_vote : list Z;
  b_vote_size : Z;
  b_num_votes : Z
}.

(** [vote2str], which only formats debugfs text, is left out. *)
Record gvotable_election := MkElection {
  el_hash : Z;
  el_vote_size : Z;
  el_use_alloc : bool;
  el_name : string;
  el_has_name : bool;
  el_cb_lock : bool;
  el_re_lock : bool;
  el_owner : Z;
  el_result : Z;
  el_reason : string;
  el_result_is_valid : bool;
  el_data : Z;
  el_callback : option callback_fn;
  el_cmp : comparator;
  el_auto_callback : bool;
  el_default_vote : Z;
  el_has_default_vote : Z;
  el_force_result : Z;
  el_force_result_is_enabled : bool;
  el_votes : list ballot;
  el_num_voters : Z;
  el_num_votes : Z;
  el_is_int_type : bool;
  el_is_bool_type : bool;
  el_disable_force_int_entry : bool
}.

(** The state an election operation runs on. *)
Record est := MkEst {
  s_el : gvotable_election;
  s_heap : heap;
  s_log : list (option string * Z)
}.

#[export] Instance eta_ballot : Eta ballot := mk_eta (fun b =>
  MkBallot (b_addr b) (b_enabled b) (b_reason_hash b) (b_reason b) (b_idx b) (b_vote b)
    (b_vote_size b) (b_num_votes b)).
#[export] Instance eta_election : Eta gvotable_election := mk_eta (fun e =>
  MkElection (el_hash e) (el_vote_size e) (el_use_alloc e) (el_name e) (el_has_name e)
    (el_cb_lock e) (el_re_lock e) (el_owner e) (el_result e) (el_reason e)
    (el_result_is_valid e) (el_data e) (el_callback e) (el_cmp e) (el_auto_callback e)
    (el_default_vote e) (el_has_default_vote e) (el_force_result e)
    (el_force_result_is_enabled e) (el_votes e) (el_num_voters e) (el_num_votes e)
    (el_is_int_type e) (el_is_bool_type e) (el_disable_force_int_entry e)).
#[export] Instance eta_est : Eta est := mk_eta (fun s => MkEst (s_el s) (s_heap s) (s_log s)).

Definition get_el : M est gvotable_election := fun s => Done (s_el s) s.
Definition mod_el (f : gvotable_election -> gvotable_election) : M est unit :=
  kmod (fun s => s <| s_el := f (s_el s) |>).

Lemma wp_get_el Q s : Q (s_el s) s -> wp get_el Q s.
Proof. done. Qed.

Lemma wp_mod_el f Q s : Q tt (s <| s_el := f (s_el s) |>) -> wp (mod_el f) Q s.
Proof. done. Qed.

(** ** Comparators *)

Definition gvotable_comparator_uint_max (l r : Z) : Z :=
  let a := u32 l in let b := u32 r in
  if a >? b then 1 else if a <? b then -1 else 0.

Definition gvotable_comparator_int (l r : Z) : Z :=
  let a := s32 l in let b := s32 r in
  if a >? b then 1 else if a <? b then -1 else 0.

Definition gvotable_comparator_int_max (a b : Z) : Z := - gvotable_comparator_int a b.
Definition gvotable_comparator_int_min (a b : Z) : Z := gvotable_comparator_int a b.
Definition gvotable_comparator_uint_min (a b : Z) : Z := - gvotable_comparator_uint_max a b.
Definition gvotable_comparator_most_recent (a b : Z) : Z := -1.
Definition gvotable_comparator_least_recent (a b : Z) : Z := 1.
Definition gvotable_comparator_bool (a b : Z) : Z := gvotable_comparator_most_recent a b.
Definition gvotable_comparator_none (a b : Z) : Z := gvotable_comparator_most_recent a b.

(** [el->cmp(a, b)]. *)
Definition run_cmp (c : comparator) (h : heap) (a b : Z) : Z :=
  match c with
  | CmpUintMax => gvotable_comparator_uint_max a b
  | CmpUintMin => gvotable_comparator_uint_min a b
  | CmpInt => gvotable_comparator_int a b
  | CmpIntMax => gvotable_comparator_int_max a b
  | CmpIntMin => gvotable_comparator_int_min a b
  | CmpMostRecent => gvotable_comparator_most_recent a b
  | CmpLeastRecent => gvotable_comparator_least_recent a b
  | CmpBool => gvotable_comparator_bool a b
  | CmpNone => gvotable_comparator_none a b
  | CmpUser f => f h a b
  end.

Definition is_cmp_none (c : comparator) : bool :=
  match c with CmpNone => true | _ => false end.

(** [ballot->vote[ballot->idx]]. *)
Definition ballot_vote (b : ballot) : Z := nth (b_idx b) (b_vote b) 0.

(** ** Locks *)

Definition gvotable_lock_result : M est unit :=
  let! el := get_el in
  if el_re_lock el then kblock else mod_el (fun el => el <| el_re_lock := true |>).

Definition gvotable_unlock_result : M est unit :=
  mod_el (fun el => el <| el_re_lock := false |>).

Definition gvotable_unlock_callback : M est unit :=
  mod_el (fun el => el <| el_cb_lock := false |>).

(** [cur] is the running task, [get_current()]. The [mutex_lock] below is
    reached only by the task that holds the mutex, and blocks it. *)
Definition gvotable_lock_election (cur : Z) : M est unit :=
  let! el := get_el in
  let ret := negb (el_cb_lock el) in
  do! mod_el (fun el => el <| el_cb_lock := true |>) in
  if negb ret && (el_owner el =? cur) then kblock
  else
    do! mod_el (fun el => el <| el_owner := cur |>) in
    gvotable_lock_result.

Definition gvotable_unlock_election : M est unit :=
  do! gvotable_unlock_result in gvotable_unlock_callback.

(** ** Results *)

Definition gvotable_internal_update_reason (new_reason : string) : M est unit :=
  mod_el (fun el => el <| el_reason := strlcpy new_reason GVOTABLE_MAX_REASON_LEN |>).

Definition km_memcpy (dst src n : Z) : M est unit := fun s =>
  match heap_memcpy (s_heap s) dst src n with
  | Some h => Done tt (s <| s_heap := h |>)
  | None => Fault
  end.

(** [gvotable_internal_copy_result(el, &slot, new_result)]: the value the slot
    holds afterwards. *)
Definition gvotable_internal_copy_result (slot new_result : Z) : M est Z :=
  let! el := get_el in
  if el_use_alloc el
  then do! km_memcpy slot new_result (el_vote_size el) in kret slot
  else kret new_result.

Definition gvotable_internal_update_result (new_result : Z) : M est unit :=
  let! el := get_el in
  let! r := gvotable_internal_copy_result (el_result el) new_result in
  mod_el (fun el => el <| el_result := r |> <| el_result_is_valid := true |>).

(** The part of the election shared by a ballot and by the default vote:
    refresh the reason, then the result when the reason changed or the values
    differ. [vote] is compared, [new_result] stored. *)
Definition run_election_set (reason : string) (vote new_result : Z) : M est bool :=
  let! el := get_el in
  let new_reason := negb (el_result_is_valid el)
    || negb (strncmp0 (el_reason el) reason GVOTABLE_MAX_REASON_LEN) in
  do! (if new_reason then gvotable_internal_update_reason reason else kret tt) in
  let callback_required := new_reason && el_auto_callback el in
  let! s := kget in
  let upd := callback_required
    || negb (run_cmp (el_cmp (s_el s)) (s_heap s) (el_result (s_el s)) vote =? 0) in
  do! (if upd then gvotable_internal_update_result new_result else kret tt) in
  do! mod_el (fun el => el <| el_result_is_valid := true |>) in
  kret (if upd then el_auto_callback el else callback_required).

Definition gvotable_internal_run_election : M est bool :=
  let! el := get_el in
  let finish (callback_required : bool) : M est bool :=
    kret (callback_required && bool_decide (is_Some (el_callback el))) in
  if el_force_result_is_enabled el then kret false
  else match list_find (fun b => b_enabled b = true) (el_votes el) with
  | Some (_, b) =>
      let! cr := run_election_set (b_reason b) (ballot_vote b)
        (if el_is_bool_type el then GVOTABLE_BOOL_TRUE_VALUE else ballot_vote b) in
      finish cr
  | None =>
      if el_has_default_vote el =? 1 then
        let! cr := run_election_set default_reason (el_default_vote el) (el_default_vote el) in
        finish cr
      else
        let cr := el_result_is_valid el && el_auto_callback el in
        do! mod_el (fun el => el <| el_result_is_valid := false |> <| el_reason := "" |>) in
        finish cr
  end.

(** Reason and result set from a callback of a "none" election. *)
Definition gvotable_election_set_result (reason : option string) (result : Z) : M est Z :=
  let! el := get_el in
  match reason with
  | None => kret (- EINVAL)
  | Some r =>
      if bool_decide (r = "") then kret (- EINVAL)
      else if el_use_alloc el && (result =? 0) then kret (- EINVAL)
      else if negb (is_cmp_none (el_cmp el)) then kret (- EINVAL)
      else
        do! gvotable_internal_update_reason r in
        do! gvotable_internal_update_result result in
        kret 0
  end.

(** [el->callback(el, reason, vote)]. *)
Definition call_callback (reason : option string) (vote : Z) : M est Z :=
  let! el := get_el in
  match el_callback el with
  | None => kfault
  | Some f =>
      do! kmod (fun s => s <| s_log := s_log s ++ [(reason, vote)] |>) in
      let o := f reason vote in
      do! (match cb_set_result o with
           | Some (r, v) => do! gvotable_election_set_result (Some r) v in kret tt
           | None => kret tt
           end) in
      kret (cb_ret o)
  end.

Definition gvotable_run_callback : M est Z :=
  let! el := get_el in
  if el_result_is_valid el then call_callback (Some (el_reason el)) (el_result el)
  else call_callback None 0.

(** ** Default vote *)

(** When [changed] holds and the election needs no callback, the result lock
    taken by [gvotable_lock_election] is not released on this path. *)
Definition gvotable_set_default (cur : Z) (default_val : Z) : M est Z :=
  let! el := get_el in
  if el_is_bool_type el then kret (- EINVAL)
  else
    do! gvotable_lock_election cur in
    let changed := (el_has_default_vote el =? 1) && negb (el_default_vote el =? default_val) in
    do! mod_el (fun el => el <| el_default_vote := default_val |>) in
    let! ret := (if changed then
        let! run := gvotable_internal_run_election in
        if run then do! gvotable_unlock_result in gvotable_run_callback else kret 0
      else do! gvotable_unlock_result in kret 0) in
    do! mod_el (fun el => el <| el_has_default_vote := 1 |>) in
    do! gvotable_unlock_callback in
    kret ret.

(** The second component is what [*result] holds afterwards. *)
Definition gvotable_get_default (cur : Z) (result : Z) : M est (Z * Z) :=
  let! el := get_el in
  if el_has_default_vote el =? 0 then kret (- EINVAL, result)
  else
    do! gvotable_lock_election cur in
    let! r := gvotable_internal_copy_result result (el_default_vote el) in
    do! gvotable_unlock_election in
    kret (0, r).

(** The tail shared by every operation that reruns the election. *)
Definition run_and_notify (ret : Z) : M est Z :=
  let! run := gvotable_internal_run_election in
  let! ret := (if run then do! gvotable_unlock_result in gvotable_run_callback
               else do! gvotable_unlock_result in kret ret) in
  do! gvotable_unlock_callback in
  kret ret.

Definition gvotable_use_default (cur : Z) (default_is_enabled : bool) : M est Z :=
  let! el := get_el in
  if el_is_bool_type el then kret (- EINVAL)
  else
    do! gvotable_lock_election cur in
    do! mod_el (fun el => el <| el_has_default_vote := Z.b2z default_is_enabled |>) in
    run_and_notify 0.

(** ** Reading the result

    A pair of a return code and the value stored through the out pointer. *)

Definition gvotable_get_current_result_unlocked (el : gvotable_election) : Z * option Z :=
  if el_force_result_is_enabled el then (0, Some (el_force_result el))
  else if el_result_is_valid el then (0, Some (el_result el))
  else (- EAGAIN, None).

Definition gvotable_get_current_vote : M est (Z * option Z) :=
  do! gvotable_lock_result in
  let! el := get_el in
  let r := gvotable_get_current_result_unlocked el in
  do! gvotable_unlock_result in
  kret r.

Definition gvotable_get_current_int_vote : M est Z :=
  let! r := gvotable_get_current_vote in
  kret (match r with
        | (ret, Some v) => if ret =? 0 then s32 v else ret
        | (ret, None) => ret
        end).

Definition gvotable_copy_current_result (vote vote_size : Z) : M est Z :=
  let! el := get_el in
  if vote =? 0 then kret (- EINVAL)
  else if negb (vote_size =? el_vote_size el) then kret (- ERANGE)
  else
    do! gvotable_lock_result in
    let r := gvotable_get_current_result_unlocked el in
    do! (match r with
         | (ret, Some tmp) => if ret =? 0 then km_memcpy vote tmp vote_size else kret tt
         | (_, None) => kret tt
         end) in
    do! gvotable_unlock_result in
    kret (fst r).

(** The length of the reason, or an error; and what the buffer then holds. *)
Definition gvotable_get_current_reason_unlocked (el : gvotable_election) (max_len : nat) :
    Z * option string :=
  let r := if el_force_result_is_enabled el then Some DEBUGFS_FORCE_VOTE_REASON
           else if el_result_is_valid el then Some (el_reason el) else None in
  match r with
  | Some r => (Z.of_nat (String.length r), Some (strlcpy r max_len))
  | None => (- EAGAIN, None)
  end.

Definition gvotable_get_current_reason (max_len : nat) : M est (Z * option string) :=
  do! gvotable_lock_result in
  let! el := get_el in
  do! gvotable_unlock_result in
  kret (gvotable_get_current_reason_unlocked el max_len).

(** ** Ballots *)

Section Ballots.

(** The dentry-cache hash the kernel provides ([full_name_hash]). *)
Context (full_name_hash : string -> Z).

(** The kernel allocator: the address of a fresh zeroed block, or failure. *)
Context (kzalloc : heap -> Z -> option Z).

(** The size of the structures the library allocates. *)
Context (sizeof_ballot sizeof_slot sizeof_election : Z).

(** The running task. *)
Context (cur : Z).

Definition gvotable_internal_hash (str : string) : Z := full_name_hash str.

Definition ballot_matches (reason : string) (b : ballot) : Prop :=
  gvotable_internal_hash reason = b_reason_hash b /\
  strncmp0 (b_reason b) reason GVOTABLE_MAX_REASON_LEN = true.

#[export] Instance ballot_matches_dec reason b : Decision (ballot_matches reason b).
Proof. unfold ballot_matches. apply _. Defined.

(** The position in the list stands for the pointer the C code returns. *)
Definition gvotable_ballot_find_internal (el : gvotable_election) (reason : string) :
    option (nat * ballot) :=
  list_find (ballot_matches reason) (el_votes el).

Definition gvotable_get_vote (reason : option string) : M est (Z * option Z) :=
  match reason with
  | None => kret (- EINVAL, None)
  | Some reason =>
      do! gvotable_lock_result in
      let! el := get_el in
      do! gvotable_unlock_result in
      kret (match gvotable_ballot_find_internal el reason with
            | None => (if el_is_bool_type el then 0 else - ENODEV, Some 0)
            | Some (_, b) =>
                if negb (el_is_bool_type el) && negb (b_enabled b) then (- EINVAL, None)
                else (0, Some (ballot_vote b))
            end)
  end.

Definition gvotable_get_int_vote (reason : option string) : M est Z :=
  let! r := gvotable_get_vote reason in
  kret (match r with
        | (ret, Some v) => if ret =? 0 then s32 v else ret
        | (ret, None) => ret
        end).

Definition gvotable_is_enabled (reason : option string) : M est (Z * option bool) :=
  match reason with
  | None => kret (- EINVAL, None)
  | Some reason =>
      do! gvotable_lock_result in
      let! el := get_el in
      do! gvotable_unlock_result in
      kret (match gvotable_ballot_find_internal el reason with
            | None => (- ENODEV, None)
            | Some (_, b) => (0, Some (b_enabled b))
            end)
  end.

(** The visit stops at the first negative answer; [A] is the caller's data. *)
Fixpoint for_each_ballot {A} (f : A -> string -> Z -> Z * A) (bs : list ballot)
    (ret : Z) (d : A) : Z * A :=
  match bs with
  | [] => (ret, d)
  | b :: bs =>
      if b_enabled b then
        let '(ret, d) := f d (b_reason b) (ballot_vote b) in
        if ret <? 0 then (ret, d) else for_each_ballot f bs ret d
      else for_each_ballot f bs ret d
  end.

Definition gvotable_election_for_each {A} (el : gvotable_election)
    (f : A -> string -> Z -> Z * A) (d : A) : Z * A :=
  if el_force_result_is_enabled el then f d DEBUGFS_FORCE_VOTE_REASON (el_force_result el)
  else for_each_ballot f (el_votes el) 0 d.

(** [kzalloc] and [kfree] on the state's heap. *)
Definition km_kzalloc (size : Z) : M est (option Z) := fun s =>
  match kzalloc (s_heap s) size with
  | Some p => Done (Some p) (s <| s_heap := <[p := zeros size]> (s_heap s) |>)
  | None => Done None s
  end.

Definition km_kfree (p : Z) : M est unit := fun s =>
  if p =? 0 then Done tt s
  else match s_heap s !! p with
       | Some _ => Done tt (s <| s_heap := delete p (s_heap s) |>)
       | None => Fault
       end.

(** The return code and the updated ballot. *)
Definition gvotable_update_ballot (b : ballot) (vote : Z) (enabled : bool) : M est (Z * ballot) :=
  let idx := (S (b_idx b) mod VOTES_HISTORY_DEPTH)%nat in
  let done (b : ballot) : M est (Z * ballot) :=
    kret (0, b <| b_idx := idx |> <| b_num_votes := u32 (b_num_votes b + 1) |>) in
  let b := b <| b_enabled := enabled |> in
  if b_vote_size b =? 0 then done (b <| b_vote := <[idx := vote]> (b_vote b) |>)
  else
    let! p := (if nth idx (b_vote b) 0 =? 0 then km_kzalloc (b_vote_size b)
               else kret (Some (nth idx (b_vote b) 0))) in
    match p with
    | None => kret (- ENOMEM, b)
    | Some p =>
        do! km_memcpy p vote (b_vote_size b) in
        done (b <| b_vote := <[idx := p]> (b_vote b) |>)
    end.

(** Insertion before the first ballot the new vote compares below. *)
Fixpoint insert_before (c : comparator) (h : heap) (b : ballot) (bs : list ballot) :
    option (list ballot) :=
  match bs with
  | [] => None
  | tmp :: bs' =>
      if run_cmp c h (ballot_vote b) (ballot_vote tmp) <? 0 then Some (b :: tmp :: bs')
      else match insert_before c h b bs' with
           | Some l => Some (tmp :: l)
           | None => None
           end
  end.

Definition gvotable_add_ballot (h : heap) (b : ballot) (enabled : bool)
    (el : gvotable_election) : gvotable_election :=
  match el_votes el with
  | [] => el <| el_votes := [b] |>
  | vs =>
      match (if enabled then insert_before (el_cmp el) h b vs else None) with
      | Some l => el <| el_votes := l |>
      | None => el <| el_votes := vs ++ [b] |> <| el_num_votes := u32 (el_num_votes el + 1) |>
      end
  end.

Definition km_add_ballot (b : ballot) (enabled : bool) : M est unit :=
  kmod (fun s => s <| s_el := gvotable_add_ballot (s_heap s) b enabled (s_el s) |>).

Definition gvotable_recast_ballot (reason : string) (enabled : bool) : M est Z :=
  do! gvotable_lock_election cur in
  let! el := get_el in
  match gvotable_ballot_find_internal el reason with
  | None => do! gvotable_unlock_election in kret (- EINVAL)
  | Some (i, b) =>
      do! mod_el (fun el => el <| el_votes := delete i (el_votes el) |>) in
      let! rb := gvotable_update_ballot b (ballot_vote b) enabled in
      if fst rb <? 0 then do! gvotable_unlock_election in kret (fst rb)
      else
        do! km_add_ballot (snd rb) enabled in
        run_and_notify (fst rb)
  end.

Definition gvotable_run_election (force_callback : bool) : M est Z :=
  do! gvotable_lock_election cur in
  let! callback := gvotable_internal_run_election in
  do! gvotable_unlock_result in
  let! el := get_el in
  let! ret := (if negb (bool_decide (is_Some (el_callback el))) then kret 0
    else if el_force_result_is_enabled el
         then call_callback (Some DEBUGFS_FORCE_VOTE_REASON) (el_force_result el)
    else if callback || force_callback then gvotable_run_callback
    else kret 0) in
  do! gvotable_unlock_callback in
  kret ret.

(** A ballot as [kzalloc] leaves it. *)
Definition ballot_zero (addr : Z) : ballot :=
  MkBallot addr false 0 "" 0 (replicate VOTES_HISTORY_DEPTH 0) 0 0.

Definition new_ballot (el : gvotable_election) (addr : Z) (reason : string) : ballot :=
  (ballot_zero addr) <| b_reason_hash := gvotable_internal_hash reason |>
    <| b_reason := strlcpy reason GVOTABLE_MAX_REASON_LEN |>
    <| b_vote_size := if el_use_alloc el then el_vote_size el else 0 |>.

(** The part of [gvotable_cast_vote] after the ballot is found or allocated:
    [slot] is its position when it is still linked (an existing ballot that is
    disabled in place), [allocated] tells a new one. *)
Definition cast_on_ballot (b : ballot) (slot : option nat) (allocated : bool)
    (vote : Z) (enabled : bool) : M est Z :=
  let! el := get_el in
  let vote := if el_is_bool_type el then Z.b2z enabled else vote in
  let! rb := gvotable_update_ballot b vote enabled in
  do! (match slot with
       | Some i => mod_el (fun el => el <| el_votes := <[i := snd rb]> (el_votes el) |>)
       | None => kret tt
       end) in
  if fst rb <? 0 then
    do! (if allocated then km_kfree (b_addr b) else kret tt) in
    do! gvotable_unlock_election in
    kret (fst rb)
  else
    do! (if allocated || enabled then km_add_ballot (snd rb) enabled else kret tt) in
    run_and_notify (fst rb).

Definition gvotable_cast_vote (reason : option string) (vote : Z) (enabled : bool) : M est Z :=
  let! el := get_el in
  match reason with
  | None => kret (- EINVAL)
  | Some reason =>
      if bool_decide (reason = "") then kret (- EINVAL)
      else if el_use_alloc el && (vote =? 0) then kret (- EINVAL)
      else
        do! gvotable_lock_election cur in
        match gvotable_ballot_find_internal el reason with
        | None =>
            let! p := km_kzalloc sizeof_ballot in
            match p with
            | None => do! gvotable_unlock_election in kret (- ENOMEM)
            | Some p =>
                do! mod_el (fun el => el <| el_num_voters := u32 (el_num_voters el + 1) |>) in
                cast_on_ballot (new_ballot el p reason) None true vote enabled
            end
        | Some (i, b) =>
            if enabled then
              do! mod_el (fun el => el <| el_votes := delete i (el_votes el) |>) in
              cast_on_ballot b None false vote enabled
            else cast_on_ballot b (Some i) false vote enabled
        end
  end.

(** ** Forcing a result from debugfs *)

Definition debugfs_cast_int_vote (val : Z) : M est Z :=
  let! r := gvotable_is_enabled (Some DEBUGFS_CAST_VOTE_REASON) in
  let enabled := match snd r with Some e => e | None => false end in
  gvotable_cast_vote (Some DEBUGFS_CAST_VOTE_REASON) val enabled.

Definition debugfs_force_int_value (val : Z) : M est Z :=
  let! el := get_el in
  let pre_val := el_force_result el in
  do! gvotable_lock_election cur in
  do! mod_el (fun el => el <| el_force_result := val |>) in
  do! gvotable_unlock_result in
  let! ret := (if negb (bool_decide (is_Some (el_callback el))) then kret 0
    else if el_force_result_is_enabled el && negb (pre_val =? val)
         then call_callback (Some DEBUGFS_FORCE_VOTE_REASON) val
    else kret 0) in
  do! gvotable_unlock_callback in
  kret ret.

Definition debugfs_force_int_active (val : Z) : M est Z :=
  do! gvotable_lock_election cur in
  do! mod_el (fun el => el <| el_force_result_is_enabled := negb (val =? 0) |>) in
  do! gvotable_unlock_result in
  let! el := get_el in
  let! ret := (if negb (bool_decide (is_Some (el_callback el))) then kret 0
    else if el_force_result_is_enabled el
         then call_callback (Some DEBUGFS_FORCE_VOTE_REASON) (el_force_result el)
    else gvotable_run_callback) in
  do! gvotable_unlock_callback in
  kret ret.
End Ballots.
