(* ===== verification/GvotableRegistry.v ===== *)
(** * The registry of elections ([drivers/misc/gvotable.c])

    Elections live at heap addresses; the global list [gvotables] holds a slot
    per election, most recent first, and named elections can be looked up. Each
    operation runs under [gvotable_lock], which every path releases, so it is one
    step here. The debugfs directories an election gets are not modelled. *)

From S2P Require Import Prelude Gvotable.

Record election_slot := MkSlot { slot_addr : Z; slot_el : Z }.

Record gstate := MkG {
  g_slots : list election_slot;
  g_els : gmap Z gvotable_election;
  g_heap : heap;
  g_log : list (option string * Z)
}.
#[export] Instance eta_gstate : Eta gstate := mk_eta (fun g =>
  MkG (g_slots g) (g_els g) (g_heap g) (g_log g)).

(** Run an operation of the election at [p]. *)
Definition on_el {A} (p : Z) (m : M est A) : M gstate A := fun g =>
  match g_els g !! p with
  | None => Fault
  | Some el =>
      match m (MkEst el (g_heap g) (g_log g)) with
      | Done a s => Done a (MkG (g_slots g) (<[p := s_el s]> (g_els g)) (s_heap s) (s_log s))
      | Blocked => Blocked
      | Fault => Fault
      end
  end.

(** An API call on a handle that may be [NULL]. *)
Definition api {A} (p : Z) (null : A) (m : M est A) : M gstate A :=
  if p =? 0 then kret null else on_el p m.

Section Registry.
Context (full_name_hash : string -> Z) (kzalloc : heap -> Z -> option Z).
Context (sizeof_ballot sizeof_slot sizeof_election : Z) (cur : Z).

Definition g_kzalloc (size : Z) : M gstate (option Z) := fun g =>
  match kzalloc (g_heap g) size with
  | Some p => Done (Some p) (g <| g_heap := <[p := zeros size]> (g_heap g) |>)
  | None => Done None g
  end.

Definition g_kfree (p : Z) : M gstate unit := fun g =>
  if p =? 0 then Done tt g
  else match g_heap g !! p with
       | Some _ => Done tt (g <| g_heap := delete p (g_heap g) |>)
       | None => Fault
       end.

(** The election a slot points to has this name. *)
Definition slot_named (g : gstate) (name : string) (s : election_slot) : bool :=
  match g_els g !! slot_el s with
  | Some el => (full_name_hash name =? el_hash el) && el_has_name el
      && strncmp0 (el_name el) name MAX_NAME_LEN
  | None => false
  end.

Definition gvotable_find_internal (g : gstate) (name : option string) : option election_slot :=
  match name with
  | None => None
  | Some name => snd <$> list_find (fun s => slot_named g name s = true) (g_slots g)
  end.

Definition gvotable_find_internal_ptr (g : gstate) (p : Z) : option (nat * election_slot) :=
  list_find (fun s => slot_el s = p) (g_slots g).

Definition gvotable_needs_alloc (vote_size : Z) : bool := 8 <? u64 vote_size.

(** The fields [gvotable_create_election] sets on a zeroed election. *)
Definition election_init (name : option string) (vote_size : Z) (cmp_fn : comparator)
    (callback : option callback_fn) (data result : Z) : gvotable_election :=
  MkElection
    (match name with Some n => full_name_hash n | None => 0 end)
    vote_size (gvotable_needs_alloc vote_size)
    (match name with Some n => strlcpy n MAX_NAME_LEN | None => "" end)
    (match name with Some _ => true | None => false end)
    false false 0 result "" false data callback cmp_fn true 0 (-1) 0 false [] 0 0
    false false false.

(** The address of the new election, [0] on failure. *)
Definition gvotable_create_election (name : option string) (vote_size : Z)
    (cmp_fn : option comparator) (callback : option callback_fn) (data : Z) : M gstate Z :=
  let cmp_fn := default CmpNone cmp_fn in
  let! g := kget in
  if bool_decide (is_Some (gvotable_find_internal g name)) then kret 0
  else
    let! slot := g_kzalloc sizeof_slot in
    match slot with
    | None => kret 0
    | Some slot =>
        let! el := g_kzalloc sizeof_election in
        match el with
        | None => do! g_kfree slot in kret 0
        | Some el =>
            let! result := (if gvotable_needs_alloc vote_size then g_kzalloc vote_size
                            else kret (Some 0)) in
            match result with
            | None => do! g_kfree el in do! g_kfree slot in kret 0
            | Some result =>
                do! kmod (fun g =>
                  g <| g_els := <[el := election_init name vote_size cmp_fn callback data result]>
                                  (g_els g) |>
                    <| g_slots := MkSlot slot el :: g_slots g |>) in
                kret el
            end
        end
    end.

Definition gvotable_create_int_election (name : option string) (cmp_fn : option comparator)
    (callback : option callback_fn) (data : Z) : M gstate Z :=
  let! el := gvotable_create_election name 4 cmp_fn callback data in
  if el =? 0 then kret 0
  else
    do! on_el el (mod_el (fun el => el <| el_is_int_type := true |>)) in
    kret el.

Definition gvotable_create_bool_election (name : option string)
    (callback : option callback_fn) (data : Z) : M gstate Z :=
  let! el := gvotable_create_election name 4 (Some CmpBool) callback data in
  if el =? 0 then kret 0
  else
    do! on_el el (gvotable_set_default cur GVOTABLE_BOOL_FALSE_VALUE) in
    do! on_el el gvotable_internal_run_election in
    do! on_el el (mod_el (fun el => el <| el_is_bool_type := true |>)) in
    kret el.

Fixpoint free_all (ps : list Z) : M gstate unit :=
  match ps with
  | [] => kret tt
  | p :: ps => do! g_kfree p in free_all ps
  end.

(** The blocks of a ballot, in the order they are freed. *)
Definition ballot_blocks (b : ballot) : list Z :=
  (if b_vote_size b =? 0 then [] else b_vote b) ++ [b_addr b].

(** Remove and free every slot of [el]; a list has no more than its length. *)
Fixpoint delete_slots (fuel : nat) (el : Z) : M gstate unit :=
  match fuel with
  | O => kret tt
  | S fuel =>
      let! g := kget in
      match gvotable_find_internal_ptr g el with
      | None => kret tt
      | Some (i, s) =>
          do! kmod (fun g => g <| g_slots := delete i (g_slots g) |>) in
          do! g_kfree (slot_addr s) in
          delete_slots fuel el
      end
  end.

Definition gvotable_destroy_election (p : Z) : M gstate Z :=
  if p =? 0 then kret (- EINVAL)
  else
    do! on_el p gvotable_lock_result in
    let! el := on_el p get_el in
    do! free_all (concat (ballot_blocks <$> el_votes el)) in
    do! on_el p gvotable_unlock_result in
    let! g := kget in
    do! delete_slots (length (g_slots g)) p in
    do! (if el_use_alloc el then g_kfree (el_result el) else kret tt) in
    do! kmod (fun g => g <| g_els := delete p (g_els g) |>) in
    do! g_kfree p in
    kret 0.

Definition gvotable_election_get_handle (g : gstate) (name : option string) : Z :=
  match gvotable_find_internal g name with
  | Some s => slot_el s
  | None => 0
  end.

Definition gvotable_disable_force_int_entry (p : Z) : M gstate Z :=
  api p (- EINVAL)
    (let! el := get_el in
     if el_has_name el then kret (- EINVAL)
     else do! mod_el (fun el => el <| el_disable_force_int_entry := true |>) in kret 0).

Definition gvotable_election_set_name (p : Z) (name : option string) : M gstate Z :=
  match name with
  | None => kret (- EINVAL)
  | Some n =>
      if p =? 0 then kret (- EINVAL)
      else
        let! g := kget in
        let! el := on_el p get_el in
        if el_has_name el || bool_decide (is_Some (gvotable_find_internal g (Some n)))
        then kret (- EEXIST)
        else
          do! on_el p (mod_el (fun el => el <| el_has_name := true |>
            <| el_hash := full_name_hash n |> <| el_name := strlcpy n MAX_NAME_LEN |>)) in
          kret 0
  end.

Definition gvotable_get_data (p : Z) : M gstate Z :=
  api p 0 (let! el := get_el in kret (el_data el)).
End Registry.

(** ** Freeing lists of blocks *)

Definition live (h : heap) (p : Z) : Prop := p <> 0 /\ is_Some (h !! p).

Lemma free_all_spec ps g :
  NoDup ps -> Forall (live (g_heap g)) ps ->
  free_all ps g = Done tt (g <| g_heap := heap_free ps (g_heap g) |>).
Proof.
  revert g; induction ps as [|p ps IH]; intros g Hnd Hl; simpl; [by destruct g|].
  apply NoDup_cons in Hnd as [Hp Hnd]. apply Forall_cons in Hl as [[Hp0 [b Hb]] Hl].
  unfold kbind, g_kfree. rewrite (proj2 (Z.eqb_neq _ _) Hp0), Hb.
  rewrite IH; [by destruct g|done|]. simpl.
  apply Forall_forall. intros q Hq. rewrite Forall_forall in Hl. destruct (Hl q Hq) as [? ?].
  split; [done|]. rewrite lookup_delete_ne by set_solver. done.
Qed.

Lemma g_kfree_live p g :
  live (g_heap g) p -> g_kfree p g = Done tt (g <| g_heap := heap_free [p] (g_heap g) |>).
Proof. intros [Hp [b Hb]]. unfold g_kfree. by rewrite (proj2 (Z.eqb_neq _ _) Hp), Hb. Qed.

(** The addresses of the slots of [p], in list order. *)
Definition slots_of (p : Z) (l : list election_slot) : list Z :=
  slot_addr <$> filter (fun s => slot_el s = p) l.

Lemma slots_of_find p l i s :
  list_find (fun s => slot_el s = p) l = Some (i, s) ->
  slots_of p l = slot_addr s :: slots_of p (delete i l) /\
  filter (fun s => slot_el s <> p) (delete i l) = filter (fun s => slot_el s <> p) l /\
  (i < length l)%nat.
Proof.
  unfold slots_of. revert i; induction l as [|x l IH]; simpl; intros i E; [done|].
  destruct (decide (slot_el x = p)) as [Hx|Hx]; simplify_eq.
  - rewrite filter_cons_True, (filter_cons_False _ s) by naive_solver. simpl. split_and!; [done..|lia].
  - apply fmap_Some in E as ([j s'] & E & ?); simplify_eq/=.
    destruct (IH _ E) as (IH1 & IH2 & ?).
    rewrite !(filter_cons_False (fun s => slot_el s = p)) by done.
    rewrite !(filter_cons_True (fun s => slot_el s <> p)) by done. rewrite IH1, IH2.
    split_and!; [done..|lia].
Qed.

Lemma slots_of_none p l :
  list_find (fun s => slot_el s = p) l = None ->
  slots_of p l = [] /\ filter (fun s => slot_el s <> p) l = l.
Proof.
  unfold slots_of. intros H%list_find_None.
  induction H as [|x l Hx Hl [IH1 IH2]]; [done|].
  rewrite filter_cons_False, filter_cons_True by done. by rewrite IH2.
Qed.

Lemma delete_slots_spec fuel p g :
  (length (slots_of p (g_slots g)) <= fuel)%nat ->
  NoDup (slots_of p (g_slots g)) -> Forall (live (g_heap g)) (slots_of p (g_slots g)) ->
  delete_slots fuel p g = Done tt
    (g <| g_slots := filter (fun s => slot_el s <> p) (g_slots g) |>
       <| g_heap := heap_free (slots_of p (g_slots g)) (g_heap g) |>).
Proof.
  revert g; induction fuel as [|fuel IH]; intros g Hfuel Hnd Hl; simpl.
  - destruct (list_find (fun s => slot_el s = p) (g_slots g)) as [[i s]|] eqn:E.
    + apply slots_of_find in E as (E & _). rewrite E in Hfuel. simpl in Hfuel. lia.
    + apply slots_of_none in E as [E1 E2]. rewrite E1, E2. by destruct g.
  - unfold kbind, kget, kmod, gvotable_find_internal_ptr.
    destruct (list_find _ _) as [[i s]|] eqn:E.
    + destruct (slots_of_find _ _ _ _ E) as (E1 & E2 & _). rewrite E1 in Hnd, Hl, Hfuel |- *.
      apply NoDup_cons in Hnd as [Hs Hnd]. apply Forall_cons in Hl as [Hls Hl].
      rewrite g_kfree_live by done. simpl. rewrite IH; simpl.
      * by rewrite E2.
      * simpl in Hfuel. lia.
      * done.
      * apply Forall_forall. intros q Hq. rewrite Forall_forall in Hl.
        destruct (Hl q Hq). split; [done|]. by rewrite lookup_delete_ne by set_solver.
    + apply slots_of_none in E as [E1 E2]. rewrite E1, E2. by destruct g.
Qed.

(** Every block an election owns, in the order they are freed. *)
Definition election_blocks (g : gstate) (p : Z) (el : gvotable_election) : list Z :=
  concat (ballot_blocks <$> el_votes el) ++ slots_of p (g_slots g) ++
  (if el_use_alloc el then [el_result el] else []) ++ [p].

Lemma Forall_live_free ps qs h :
  NoDup (ps ++ qs) -> Forall (live h) qs -> Forall (live (heap_free ps h)) qs.
Proof.
  intros (_ & Hd & _)%NoDup_app Hl. apply Forall_forall. intros q Hq.
  rewrite Forall_forall in Hl. destruct (Hl q Hq) as [? ?]. split; [done|].
  rewrite heap_free_lookup. by rewrite decide_False by (intros ?; by apply (Hd q)).
Qed.

(** Destroying an election that owns distinct live blocks frees each of them
    exactly once and no other block, forgets the election, and drops its slots
    from the registry; it cannot fail. *)
Theorem destroy_frees_all g p el :
  p <> 0 -> g_els g !! p = Some el -> el_re_lock el = false ->
  NoDup (election_blocks g p el) -> Forall (live (g_heap g)) (election_blocks g p el) ->
  exists g', gvotable_destroy_election p g = Done 0 g' /\
    (forall q, g_heap g' !! q =
       if decide (q ∈ election_blocks g p el) then None else g_heap g !! q) /\
    g_els g' = delete p (g_els g) /\ g_slots g' = filter (fun s => slot_el s <> p) (g_slots g).
Proof.
  intros Hp Hel Hre Hnd Hl. unfold gvotable_destroy_election.
  rewrite (proj2 (Z.eqb_neq _ _) Hp). unfold election_blocks in *.
  set (bs := concat (ballot_blocks <$> el_votes el)) in *.
  set (sl := slots_of p (g_slots g)) in *.
  set (rs := if el_use_alloc el then [el_result el] else []) in *.
  pose proof Hnd as Hnd0. pose proof Hl as Hl0.
  apply Forall_app in Hl0 as [Hl1 Hl2]. apply NoDup_app in Hnd0 as (Hn1 & Hd1 & Hn2).
  pose proof (Forall_live_free bs _ _ Hnd Hl2) as Hl2'.
  apply Forall_app in Hl2' as [Hls Hl3]. pose proof (Forall_live_free sl _ _ Hn2 Hl3) as Hl3'.
  apply NoDup_app in Hn2 as (Hns & _ & Hn3).
  apply Forall_app in Hl3' as [Hlr Hlp]. pose proof (Forall_live_free rs _ _ Hn3 Hlp) as Hlp'.
  (* lock, read *)
  unfold kbind at 1. unfold on_el at 1. rewrite Hel.
  unfold gvotable_lock_result at 1, kbind at 1, get_el at 1. simpl. rewrite Hre.
  unfold kbind at 1. unfold on_el at 1. simpl. rewrite lookup_insert_eq.
  unfold kbind at 1. simpl. rewrite free_all_spec by done.
  unfold kbind at 1. unfold on_el at 1. simpl. rewrite lookup_insert_eq. simpl.
  unfold kbind at 1, kget at 1. unfold kbind at 1. rewrite delete_slots_spec; simpl.
  2: { unfold slots_of. rewrite length_fmap. apply length_filter. }
  2: done.
  2: done.
  fold sl. unfold kbind at 1.
  destruct (el_use_alloc el) eqn:Ea; subst rs; simpl in *.
  - rewrite g_kfree_live by (by apply Forall_cons in Hlr as [? _]).
    unfold kbind at 1, kmod at 1, kbind at 1. simpl.
    rewrite g_kfree_live by (by apply Forall_cons in Hlp' as [? _]).
    eexists; split; [done|]. simpl. split_and!; [|by rewrite !insert_insert_eq, delete_insert_eq|done].
    intros q. rewrite <- heap_free_lookup. by rewrite !heap_free_app.
  - unfold kbind at 1, kmod at 1, kbind at 1, kret at 1. simpl.
    rewrite g_kfree_live by (by apply Forall_cons in Hlp' as [? _]).
    eexists; split; [done|]. simpl. split_and!; [|by rewrite !insert_insert_eq, delete_insert_eq|done].
    intros q. rewrite <- heap_free_lookup. by rewrite !heap_free_app.
Qed.

(** ** Names *)

Section Facts.
Context (hash : string -> Z) (kzalloc : heap -> Z -> option Z) `{!Allocator kzalloc}.
Context (sizeof_slot sizeof_election : Z).

(** Stored names fit their buffer, and elections sit at live addresses. *)
Record reg_inv (g : gstate) : Prop := {
  ri_names : forall p el, g_els g !! p = Some el -> (String.length (el_name el) < MAX_NAME_LEN)%nat;
  ri_live : forall p, is_Some (g_els g !! p) -> is_Some (g_heap g !! p);
  ri_slots : forall s, s ∈ g_slots g -> is_Some (g_els g !! slot_el s)
}.

(** A name of [MAX_NAME_LEN] characters or more is never found: the stored
    copy is cut to fit its buffer while the comparison covers one character
    more. *)
Theorem long_name_not_found g name :
  reg_inv g -> (MAX_NAME_LEN <= String.length name)%nat ->
  gvotable_election_get_handle hash g (Some name) = 0.
Proof.
  intros Hinv Hlen. unfold gvotable_election_get_handle, gvotable_find_internal.
  replace (list_find _ _) with (@None (nat * election_slot)); [done|].
  symmetry. apply list_find_None, Forall_forall. intros s _. unfold slot_named.
  destruct (g_els g !! slot_el s) as [el|] eqn:E; [|done].
  rewrite strncmp0_long; [by rewrite andb_false_r|by eapply ri_names|done].
Qed.

Lemma g_kzalloc_total size g :
  (forall h n, is_Some (kzalloc h n)) ->
  exists p, g_kzalloc kzalloc size g = Done (Some p) (g <| g_heap := <[p := zeros size]> (g_heap g) |>)
    /\ 0 < p /\ g_heap g !! p = None.
Proof.
  intros Htot. destruct (Htot (g_heap g) size) as [p Hp]. exists p.
  unfold g_kzalloc. rewrite Hp. split; [done|]. by eapply kzalloc_fresh.
Qed.

Lemma create_election_spec g name vote_size cmp_fn callback data :
  (forall h n, is_Some (kzalloc h n)) ->
  gvotable_find_internal hash g name = None ->
  exists p slot res h', 0 < p /\ (g_heap g !! p = None) /\
    gvotable_create_election hash kzalloc sizeof_slot sizeof_election name vote_size cmp_fn
      callback data g =
    Done p (MkG (MkSlot slot p :: g_slots g)
      (<[p := election_init hash name vote_size (default CmpNone cmp_fn) callback data res]> (g_els g))
      h' (g_log g)) /\ (forall q, is_Some (g_heap g !! q) \/ q = p -> is_Some (h' !! q)).
Proof.
  intros Htot Hf. unfold gvotable_create_election, kbind at 1, kget.
  rewrite Hf, bool_decide_false by by intros [].
  destruct (g_kzalloc_total sizeof_slot g Htot) as (slot & E1 & Hs & Hs').
  unfold kbind at 1. rewrite E1.
  destruct (g_kzalloc_total sizeof_election (g <| g_heap := <[slot := zeros sizeof_slot]> (g_heap g) |>)
    Htot) as (p & E2 & Hp & Hp'). unfold kbind at 1. rewrite E2. clear E1 E2. simpl in *.
  apply lookup_insert_None in Hp' as [Hp' Hne].
  unfold kbind at 1. destruct (gvotable_needs_alloc vote_size).
  - match goal with |- context [g_kzalloc kzalloc vote_size ?g1] =>
      destruct (g_kzalloc_total vote_size g1 Htot) as (r & E3 & _ & _) end.
    rewrite E3. simpl. exists p, slot, r. eexists. split_and!; [done..|].
    intros q Hq. simpl. rewrite !lookup_insert_is_Some'. naive_solver.
  - exists p, slot, 0. eexists. split_and!; [done..|].
    intros q Hq. simpl. rewrite !lookup_insert_is_Some'. naive_solver.
Qed.

(** Creating an election under a short, unused name registers it: the name
    is then found and only that name's lookup changes; a second election under
    the name is refused, with the registry unchanged. *)
Theorem create_then_get_handle g name vote_size cmp_fn callback data :
  reg_inv g -> (forall h n, is_Some (kzalloc h n)) ->
  (String.length name < MAX_NAME_LEN)%nat ->
  gvotable_find_internal hash g (Some name) = None ->
  exists p g', gvotable_create_election hash kzalloc sizeof_slot sizeof_election (Some name)
      vote_size cmp_fn callback data g = Done p g' /\ p <> 0 /\ reg_inv g' /\
    gvotable_election_get_handle hash g' (Some name) = p /\
    (forall other, other <> name -> gvotable_election_get_handle hash g' (Some other)
       = gvotable_election_get_handle hash g (Some other)) /\
    gvotable_create_election hash kzalloc sizeof_slot sizeof_election (Some name)
      vote_size cmp_fn callback data g' = Done 0 g'.
Proof.
  intros Hinv Htot Hlen Hf.
  destruct (create_election_spec g (Some name) vote_size cmp_fn callback data Htot Hf)
    as (p & slot & res & h' & Hp & Hfresh & E & Hh). eexists p, _. split; [exact E|].
  match goal with |- context [reg_inv ?x] => set (g' := x) end.
  assert (forall n s, s ∈ g_slots g -> slot_named hash g' n s = slot_named hash g n s) as Hold.
  { intros n s Hs%(ri_slots _ Hinv). unfold slot_named. simpl.
    rewrite lookup_insert_ne; [done|]. intros ->.
    apply (ri_live _ Hinv) in Hs. rewrite Hfresh in Hs. by destruct Hs. }
  assert (slot_named hash g' name (MkSlot slot p) = true) as Hnew.
  { unfold slot_named. simpl. rewrite lookup_insert_eq. simpl. rewrite strlcpy_short by done.
    by rewrite Z.eqb_refl, strncmp0_refl. }
  assert (gvotable_find_internal hash g' (Some name) = Some (MkSlot slot p)) as Hfind.
  { unfold gvotable_find_internal. simpl. by rewrite decide_True. }
  split_and!; [lia| | | |].
  - split; simpl.
    + intros q el. destruct (decide (p = q)) as [<-|Hq].
      * rewrite lookup_insert_eq. intros [= <-]. simpl. apply strlcpy_length.
        unfold MAX_NAME_LEN. lia.
      * rewrite lookup_insert_ne by done. apply ri_names. done.
    + intros q Hq. apply Hh. rewrite lookup_insert_is_Some' in Hq.
      destruct Hq as [<-|Hq]; [by right|left]. by apply ri_live.
    + intros s. rewrite elem_of_cons, lookup_insert_is_Some'. intros [->|Hs]; [by left|right].
      by apply ri_slots.
  - unfold gvotable_election_get_handle. by rewrite Hfind.
  - intros other Hne. unfold gvotable_election_get_handle, gvotable_find_internal. simpl.
    rewrite decide_False.
    + rewrite (list_find_ext_in (fun s => slot_named hash g' other s = true)
        (fun s => slot_named hash g other s = true)).
      * by destruct (list_find _ (g_slots g)) as [[? ?]|].
      * intros s Hs. by rewrite (Hold other s Hs).
    + unfold slot_named. simpl. rewrite lookup_insert_eq. simpl. rewrite strlcpy_short by done.
      intros [_ Hc]%andb_true_iff. revert Hc.
      destruct (decide (String.length other < MAX_NAME_LEN)%nat).
      * rewrite strncmp0_short by done. rewrite bool_decide_eq_true. congruence.
      * rewrite strncmp0_long by lia. done.
  - unfold gvotable_create_election, kbind at 1, kget.
    by rewrite Hfind, bool_decide_true by eauto.
Qed.
End Facts.

(** ** Witnesses *)

Definition no_elections : gstate := MkG [] ∅ ∅ [].

Lemma no_elections_inv : reg_inv no_elections.
Proof. split; simpl; [by intros p el H; rewrite lookup_empty in H|by intros p []|set_solver]. Qed.

Lemma long_name_not_found_witness :
  gvotable_election_get_handle (fun _ => 0) no_elections (Some "USB_ICL_COMBINED") = 0.
Proof.
  apply long_name_not_found; [exact no_elections_inv|vm_compute; lia].
Defined.

Lemma create_then_get_handle_witness :
  exists p g', gvotable_create_election (fun _ => 0) bump_alloc 32 256 (Some "USB_ICL") 4
      (Some CmpIntMin) None 0 no_elections = Done p g' /\
    gvotable_election_get_handle (fun _ => 0) g' (Some "USB_ICL") = p.
Proof.
  destruct (create_then_get_handle (fun _ => 0) bump_alloc 32 256 no_elections "USB_ICL" 4
    (Some CmpIntMin) None 0) as (p & g' & E & _ & _ & H & _).
  - exact no_elections_inv.
  - by eexists.
  - vm_compute. lia.
  - reflexivity.
  - by exists p, g'.
Defined.

(** An election on 12-byte votes with one ballot. *)
Definition one_ballot : gvotable_election :=
  (election_init (fun _ => 0) None 12 CmpIntMin None 0 3)
    <| el_votes := [MkBallot 4 true 0 "PD" 0 [5] 12 1] |>.
Definition one_election : gstate :=
  MkG [MkSlot 1 2] {[2 := one_ballot]}
    (list_to_map [(1, zeros 32); (2, zeros 256); (3, zeros 12); (4, zeros 80); (5, zeros 12);
                  (6, zeros 8)]) [].

Lemma destroy_frees_all_witness :
  exists g', gvotable_destroy_election 2 one_election = Done 0 g' /\ g_slots g' = [].
Proof.
  destruct (destroy_frees_all one_election 2 one_ballot) as (g' & E & _ & _ & H).
  - done.
  - reflexivity.
  - reflexivity.
  - by apply (bool_decide_unpack _); vm_compute.
  - repeat constructor; simpl; try done.
  - exists g'. split; [exact E|]. by rewrite H.
Defined.
