(* ===== verification/GvotableElection.v ===== *)
(** * Correctness of an election

    An election refines a finite map from reasons to votes: casting a vote is
    an insertion in that map, and the result is the optimum, for the election's
    comparator, of the enabled votes. *)

From stdpp Require Import sorting.
From S2P Require Import Prelude Gvotable GvotableRegistry.

(** ** Comparators that order votes by a key

    The interface the ordering theorems rely on. *)

Class KeyCmp (c : comparator) (key : Z -> Z) : Prop := {
  key_lt : forall h a b, (run_cmp c h a b <? 0) = (key a <? key b);
  key_eq : forall h a b, (run_cmp c h a b =? 0) = (key a =? key b)
}.

Ltac solve_key_cmp :=
  split; intros; cbv [run_cmp gvotable_comparator_int_max gvotable_comparator_int_min
    gvotable_comparator_uint_min gvotable_comparator_uint_max gvotable_comparator_int];
  repeat case_match; lia.

#[export] Instance key_uint_max : KeyCmp CmpUintMax u32.
Proof. solve_key_cmp. Qed.
#[export] Instance key_uint_min : KeyCmp CmpUintMin (fun v => - u32 v).
Proof. solve_key_cmp. Qed.
#[export] Instance key_int : KeyCmp CmpInt s32.
Proof. solve_key_cmp. Qed.
#[export] Instance key_int_max : KeyCmp CmpIntMax (fun v => - s32 v).
Proof. solve_key_cmp. Qed.
#[export] Instance key_int_min : KeyCmp CmpIntMin s32.
Proof. solve_key_cmp. Qed.

(** ** The abstract election *)

Abbreviation votes_map := (gmap string (Z * bool)).

Definition abs_ballot (b : ballot) : string * (Z * bool) :=
  (b_reason b, (ballot_vote b, b_enabled b)).
Definition abs_votes (el : gvotable_election) : votes_map :=
  list_to_map (abs_ballot <$> el_votes el).

(** [r] is the best of the enabled votes of [m]. *)
Definition optimum (key : Z -> Z) (m : votes_map) (reason : string) (r : Z) : Prop :=
  exists v, m !! reason = Some (v, true) /\ key r = key v /\
    forall reason' v', m !! reason' = Some (v', true) -> key v <= key v'.

(** What the fields of an election that is not forced say of its votes. *)
Definition result_spec (key : Z -> Z) (m : votes_map) (el : gvotable_election) : Prop :=
  if el_result_is_valid el then
    optimum key m (el_reason el) (el_result el) \/
    ((forall r v, m !! r <> Some (v, true)) /\ el_has_default_vote el = 1 /\
     el_reason el = default_reason /\ key (el_result el) = key (el_default_vote el))
  else (forall r v, m !! r <> Some (v, true)) /\ el_has_default_vote el <> 1.

(** ** Invariant *)

Section Invariant.
Context (hash : string -> Z).

(** A ballot of an election whose votes are the [void *] values themselves. *)
Record ballot_ok (b : ballot) : Prop := {
  bo_hash : b_reason_hash b = hash (b_reason b);
  bo_len : (String.length (b_reason b) < GVOTABLE_MAX_REASON_LEN)%nat;
  bo_size : b_vote_size b = 0;
  bo_idx : b_idx b = 0%nat;
  bo_vote : length (b_vote b) = VOTES_HISTORY_DEPTH
}.

(** An enabled ballot is not preceded by one with a worse key. *)
Definition ballot_le (key : Z -> Z) (x y : ballot) : Prop :=
  b_enabled y = true -> key (ballot_vote x) <= key (ballot_vote y).

(** An election on values whose result only the library sets. *)
Record el_wf (el : gvotable_election) : Prop := {
  ew_none : is_cmp_none (el_cmp el) = false;
  ew_reason : (String.length (el_reason el) < GVOTABLE_MAX_REASON_LEN)%nat;
  ew_alloc : el_use_alloc el = false;
  ew_ok : Forall ballot_ok (el_votes el);
  ew_nodup : NoDup (b_reason <$> el_votes el)
}.

(** The part of it that running the election needs. *)
Record el_plain (el : gvotable_election) : Prop := {
  ep_none : is_cmp_none (el_cmp el) = false;
  ep_reason : (String.length (el_reason el) < GVOTABLE_MAX_REASON_LEN)%nat;
  ep_alloc : el_use_alloc el = false;
  ep_short : Forall (fun b => String.length (b_reason b) < GVOTABLE_MAX_REASON_LEN)%nat (el_votes el)
}.

Lemma el_wf_plain el : el_wf el -> el_plain el.
Proof. intros []. split; [done..|]. eapply Forall_impl; [done|]. by intros b []. Qed.

Definition ballots_sorted (key : Z -> Z) (el : gvotable_election) : Prop :=
  StronglySorted (ballot_le key) (el_votes el).

Definition unlocked (el : gvotable_election) : Prop :=
  el_cb_lock el = false /\ el_re_lock el = false.
End Invariant.

(** ** List lemmas *)

Lemma StronglySorted_delete {A} (R : A -> A -> Prop) l i :
  StronglySorted R l -> StronglySorted R (delete i l).
Proof.
  intros H; revert i; induction H as [|x l Hs IH Hf]; intros [|i]; simpl; [constructor|constructor|done|].
  constructor; [apply IH|]. by apply Forall_delete.
Qed.

Lemma delete_insert_same {A} (l : list A) i x : delete i (<[i := x]> l) = delete i l.
Proof. revert i; induction l as [|y l IH]; intros [|i]; simpl; [done..|]. by rewrite IH. Qed.

Lemma StronglySorted_snoc {A} (R : A -> A -> Prop) l b :
  StronglySorted R l -> Forall (fun x => R x b) l -> StronglySorted R (l ++ [b]).
Proof.
  induction 1 as [|x l Hs IH Hf]; simpl; intros Hb; [by repeat constructor|].
  apply Forall_cons in Hb as [Hx Hb]. constructor; [by apply IH|].
  apply Forall_app; split; [done|by constructor].
Qed.

Lemma insert_before_perm c h b bs l : insert_before c h b bs = Some l -> l ≡ₚ b :: bs.
Proof.
  revert l; induction bs as [|t bs IH]; simpl; intros l E; [done|].
  case_match; simplify_eq; [done|]. case_match; simplify_eq.
  rewrite (IH _ eq_refl). constructor.
Qed.

Section Order.
Context (c : comparator) (key : Z -> Z) `{!KeyCmp c key}.

Lemma insert_before_None h b bs :
  insert_before c h b bs = None ->
  Forall (fun x => key (ballot_vote x) <= key (ballot_vote b)) bs.
Proof.
  induction bs as [|t bs IH]; simpl; [constructor|].
  rewrite key_lt. destruct (Z.ltb_spec (key (ballot_vote b)) (key (ballot_vote t))); [done|].
  case_match; [done|]. intros _. constructor; auto.
Qed.

Lemma insert_before_sorted h b bs l :
  insert_before c h b bs = Some l ->
  StronglySorted (ballot_le key) bs -> StronglySorted (ballot_le key) l.
Proof.
  revert l; induction bs as [|t bs IH]; simpl; intros l E Hs; [done|].
  apply StronglySorted_inv in Hs as [Hs Ht].
  rewrite key_lt in E.
  destruct (Z.ltb_spec (key (ballot_vote b)) (key (ballot_vote t))); simplify_eq.
  - constructor; [by constructor|]. constructor; [unfold ballot_le; lia|].
    eapply Forall_impl; [exact Ht|]. unfold ballot_le; intros y Hy En. specialize (Hy En). lia.
  - destruct (insert_before c h b bs) as [l'|] eqn:E'; simplify_eq.
    constructor; [by eapply IH|].
    rewrite (insert_before_perm _ _ _ _ _ E'). constructor; [|done].
    intros _. lia.
Qed.

Lemma add_ballot_perm h b en el :
  el_votes (gvotable_add_ballot h b en el) ≡ₚ b :: el_votes el.
Proof.
  unfold gvotable_add_ballot. destruct (el_votes el) as [|t bs] eqn:E; [done|].
  destruct en; [destruct (insert_before _ _ _ _) eqn:I|]; simpl.
  - by apply insert_before_perm in I.
  - by rewrite (Permutation_cons_append (t :: bs) b).
  - by rewrite (Permutation_cons_append (t :: bs) b).
Qed.

Lemma add_ballot_frame h b en el : exists l n,
  gvotable_add_ballot h b en el = (el <| el_votes := l |>) <| el_num_votes := n |>.
Proof.
  unfold gvotable_add_ballot. destruct (el_votes el) as [|t bs]; [|case_match].
  - exists [b], (el_num_votes el). by destruct el.
  - exists l, (el_num_votes el). by destruct el.
  - eauto.
Qed.

Lemma add_ballot_sorted h b en el :
  el_cmp el = c -> b_enabled b = en ->
  StronglySorted (ballot_le key) (el_votes el) ->
  StronglySorted (ballot_le key) (el_votes (gvotable_add_ballot h b en el)).
Proof.
  intros Hc Hen Hs. unfold gvotable_add_ballot. rewrite Hc.
  destruct (el_votes el) as [|t bs]; [by repeat constructor|].
  destruct en.
  - destruct (insert_before _ _ _ _) eqn:I; cbn -[insert_before app].
    + by eapply insert_before_sorted.
    + apply StronglySorted_snoc; [done|].
      eapply Forall_impl; [by eapply insert_before_None|]. by intros ???.
  - cbn -[app]. apply StronglySorted_snoc; [done|].
    apply Forall_true. intros x ?. congruence.
Qed.
End Order.

(** ** The abstract map under list changes *)

Definition abs_list (l : list ballot) : votes_map := list_to_map (abs_ballot <$> l).

Lemma abs_fst l : (abs_ballot <$> l).*1 = b_reason <$> l.
Proof. by rewrite <- list_fmap_compose. Qed.

Lemma abs_list_perm l1 l2 : NoDup (b_reason <$> l1) -> l1 ≡ₚ l2 -> abs_list l1 = abs_list l2.
Proof.
  intros Hn Hp. apply list_to_map_proper; [by rewrite abs_fst|]. by rewrite Hp.
Qed.

Lemma abs_list_lookup l b :
  NoDup (b_reason <$> l) -> b ∈ l -> abs_list l !! b_reason b = Some (ballot_vote b, b_enabled b).
Proof.
  intros Hn Hb. apply elem_of_list_to_map_1; [by rewrite abs_fst|].
  by apply (list_elem_of_fmap_2 abs_ballot).
Qed.

Lemma abs_list_inv l r x : abs_list l !! r = Some x -> exists b, b ∈ l /\ abs_ballot b = (r, x).
Proof. intros H%elem_of_list_to_map_2. apply list_elem_of_fmap in H as (b & ? & ?). eauto. Qed.

(** The first enabled ballot of an ordered list is the best enabled one. *)
Lemma first_enabled_best key l i b :
  StronglySorted (ballot_le key) l ->
  list_find (fun b => b_enabled b = true) l = Some (i, b) ->
  b ∈ l /\ b_enabled b = true /\
  (forall y, y ∈ l -> b_enabled y = true -> key (ballot_vote b) <= key (ballot_vote y)).
Proof.
  intros Hs; revert i; induction Hs as [|x l Hs IH Hf]; simpl; intros i E; [done|].
  destruct (decide (b_enabled x = true)) as [Hx|Hx]; simplify_eq.
  - split_and!; [by left|done|]. intros y Hy En.
    apply elem_of_cons in Hy as [->|Hy]; [lia|].
    rewrite Forall_forall in Hf. by apply Hf.
  - apply fmap_Some in E as ([j b'] & E & ?); simplify_eq/=.
    destruct (IH _ E) as (? & ? & Hbest). split_and!; [by right|done|].
    intros y Hy En. apply elem_of_cons in Hy as [->|Hy]; [done|]. by apply Hbest.
Qed.

Lemma no_enabled_abs l :
  list_find (fun b => b_enabled b = true) l = None ->
  forall r v, abs_list l !! r <> Some (v, true).
Proof.
  intros H%list_find_None r v E. apply abs_list_inv in E as (b & Hb & [= _ _ En]).
  rewrite Forall_forall in H. by apply (H b).
Qed.

(** ** Updating a ballot in place *)

Section Cast.
Context (hash : string -> Z) (kzalloc : heap -> Z -> option Z).
Context (sizeof_ballot : Z) (cur : Z).

Lemma find_internal_Some el reason i b :
  Forall (ballot_ok hash) (el_votes el) ->
  (String.length reason < GVOTABLE_MAX_REASON_LEN)%nat ->
  gvotable_ballot_find_internal hash el reason = Some (i, b) ->
  el_votes el !! i = Some b /\ b_reason b = reason.
Proof.
  intros Hok Hl (Hi & [_ Hm] & _)%list_find_Some. split; [done|].
  eapply Forall_lookup_1 in Hok; [|done]. destruct Hok.
  rewrite strncmp0_short in Hm by done. by apply bool_decide_eq_true in Hm.
Qed.

Lemma find_internal_None el reason :
  Forall (ballot_ok hash) (el_votes el) ->
  gvotable_ballot_find_internal hash el reason = None ->
  reason ∉ b_reason <$> el_votes el.
Proof.
  intros Hok H%list_find_None Hin.
  apply list_elem_of_fmap in Hin as (b & -> & Hb).
  rewrite Forall_forall in H, Hok. apply (H b Hb).
  split; [by rewrite (bo_hash _ _ (Hok b Hb))|apply strncmp0_refl].
Qed.

Lemma update_ballot_value b v en (s : est) :
  ballot_ok hash b ->
  exists b', gvotable_update_ballot kzalloc b v en s = Done (0, b') s /\
    ballot_ok hash b' /\ abs_ballot b' = (b_reason b, (v, en)).
Proof.
  intros []. destruct b as [a e rh r i vs sz nv]; simpl in *; subst.
  destruct vs as [|v0 [|]]; try done.
  eexists; split; [reflexivity|]. by repeat split.
Qed.

Lemma new_ballot_ok el p reason :
  el_use_alloc el = false -> (String.length reason < GVOTABLE_MAX_REASON_LEN)%nat ->
  ballot_ok hash (new_ballot hash el p reason) /\ b_reason (new_ballot hash el p reason) = reason.
Proof.
  intros Ha Hl. unfold new_ballot; simpl. rewrite Ha.
  assert (strlcpy reason GVOTABLE_MAX_REASON_LEN = reason) as Hs by by apply strlcpy_short.
  repeat split; simpl; rewrite ?Hs; done.
Qed.

(** ** Running the election *)

(** The fields an election run may change. *)
Definition with_result (r : string) (res : Z) (v : bool) (el : gvotable_election) :=
  el <| el_reason := r |> <| el_result := res |> <| el_result_is_valid := v |>.

Ltac solve_el_eq :=
  unfold with_result;
  first [reflexivity
  | repeat match goal with
    | s : est |- _ => destruct s
    | el : gvotable_election |- _ => destruct el
    end; by simplify_eq/=].

Lemma update_result_value s v :
  el_use_alloc (s_el s) = false ->
  gvotable_internal_update_result v s =
  Done tt (s <| s_el := (s_el s) <| el_result := v |> <| el_result_is_valid := true |> |>).
Proof.
  intros Ha. unfold gvotable_internal_update_result, gvotable_internal_copy_result, kbind, get_el.
  destruct s as [[] ? ?]; simpl in *; by subst.
Qed.

(** [res] was stored for [vote] or compares equal to it. *)
Definition stands_for (el : gvotable_election) (h : heap) (res vote new_result : Z) : Prop :=
  res = new_result \/ run_cmp (el_cmp el) h res vote = 0.

Lemma run_election_set_value s reason vote new_result :
  el_use_alloc (s_el s) = false ->
  (String.length reason < GVOTABLE_MAX_REASON_LEN)%nat ->
  (String.length (el_reason (s_el s)) < GVOTABLE_MAX_REASON_LEN)%nat ->
  wp (run_election_set reason vote new_result) (fun _ s' => exists res,
    s' = s <| s_el := with_result reason res true (s_el s) |> /\
    stands_for (s_el s) (s_heap s) res vote new_result) s.
Proof.
  intros Ha Hr Hr'.
  assert (exists s1, (if negb (el_result_is_valid (s_el s))
      || negb (strncmp0 (el_reason (s_el s)) reason GVOTABLE_MAX_REASON_LEN)
      then gvotable_internal_update_reason reason else kret tt) s = Done tt s1 /\
      s1 = s <| s_el := (s_el s) <| el_reason := reason |> |>) as (s1 & E1 & Hs1).
  { rewrite strncmp0_short by done.
    unfold gvotable_internal_update_reason, mod_el, kmod, kret.
    case_match eqn:En; eexists; (split; [done|]); rewrite ?strlcpy_short by done; [done|].
    apply orb_false_iff in En as [_ Er%negb_false_iff%bool_decide_eq_true]. solve_el_eq. }
  unfold run_election_set. apply wp_bind, wp_get_el, wp_bind. unfold wp at 1. rewrite E1.
  apply wp_bind, wp_get. subst s1; simpl. apply wp_bind.
  destruct (_ && _ || _) eqn:Eu.
  - unfold wp at 1. rewrite update_result_value by done.
    apply wp_bind, wp_mod_el, wp_ret. exists new_result. split; [solve_el_eq|by left].
  - apply wp_ret, wp_bind, wp_mod_el, wp_ret. exists (el_result (s_el s)).
    apply orb_false_iff in Eu as [_ Eu%negb_false_iff]. split; [solve_el_eq|right; lia].
Qed.

(** The winner by position, before it is read as an optimum. *)
Definition elected (el : gvotable_election) (h : heap) : Prop :=
  match list_find (fun b => b_enabled b = true) (el_votes el) with
  | Some (_, b) => el_result_is_valid el = true /\ el_reason el = b_reason b /\
      stands_for el h (el_result el) (ballot_vote b)
        (if el_is_bool_type el then GVOTABLE_BOOL_TRUE_VALUE else ballot_vote b)
  | None =>
      if el_has_default_vote el =? 1 then el_result_is_valid el = true /\
        el_reason el = default_reason /\
        stands_for el h (el_result el) (el_default_vote el) (el_default_vote el)
      else el_result_is_valid el = false /\ el_reason el = ""
  end.

Lemma internal_run_election_value s :
  el_plain (s_el s) ->
  wp gvotable_internal_run_election (fun run s' => exists r res v,
    s' = s <| s_el := with_result r res v (s_el s) |> /\
    (String.length r < GVOTABLE_MAX_REASON_LEN)%nat /\
    (run = true -> is_Some (el_callback (s_el s))) /\
    (el_force_result_is_enabled (s_el s) = false -> elected (s_el s') (s_heap s'))) s.
Proof.
  intros [Hn Hlen Ha Hok]. unfold gvotable_internal_run_election.
  apply wp_bind, wp_get_el. cbv zeta.
  destruct (el_force_result_is_enabled (s_el s)) eqn:Ef.
  { apply wp_ret. exists (el_reason (s_el s)), (el_result (s_el s)), (el_result_is_valid (s_el s)).
    split_and!; [solve_el_eq|done..]. }
  assert (forall cr, cr && bool_decide (is_Some (el_callback (s_el s))) = true ->
    is_Some (el_callback (s_el s))) as Hcb.
  { intros cr [_ H]%andb_true_iff. by apply bool_decide_eq_true in H. }
  assert (forall r v w k, (String.length r < GVOTABLE_MAX_REASON_LEN)%nat ->
    (forall res, stands_for (s_el s) (s_heap s) res v w -> k (with_result r res true (s_el s)) (s_heap s)) ->
    wp (let! cr := run_election_set r v w in
        kret (cr && bool_decide (is_Some (el_callback (s_el s)))))
      (fun run s' => exists r res v', s' = s <| s_el := with_result r res v' (s_el s) |> /\
        (String.length r < GVOTABLE_MAX_REASON_LEN)%nat /\
        (run = true -> is_Some (el_callback (s_el s))) /\ (false = false -> k (s_el s') (s_heap s'))) s) as Hset.
  { intros r v w k Hr Hk. apply wp_bind.
    eapply wp_mono; [by apply run_election_set_value|]. intros cr s' (res & -> & Hst).
    apply wp_ret. exists r, res, true. split_and!; [done..|apply Hcb|]. intros _. by apply Hk. }
  destruct (list_find _ _) as [[i b]|] eqn:E; [|destruct (_ =? 1) eqn:Ed].
  - pose proof E as (Hi & _ & _)%list_find_Some. eapply Forall_lookup_1 in Hok; [|done].
    apply (Hset _ _ _ elected); [apply Hok|].
    intros res Hst. unfold elected; simpl. by rewrite E.
  - apply (Hset _ _ _ elected); [simpl; unfold GVOTABLE_MAX_REASON_LEN; lia|].
    intros res Hst. unfold elected; simpl. by rewrite E, Ed.
  - apply wp_bind, wp_mod_el, wp_ret.
    exists "", (el_result (s_el s)), false. split_and!; [done|simpl; unfold GVOTABLE_MAX_REASON_LEN; lia|apply Hcb|].
    intros _. unfold elected; simpl. by rewrite E, Ed.
Qed.

(** ** Locks and callback *)

Lemma lock_election_free s :
  unlocked (s_el s) ->
  gvotable_lock_election cur s = Done tt (s <| s_el := (s_el s) <| el_cb_lock := true |>
    <| el_owner := cur |> <| el_re_lock := true |> |>).
Proof. intros [Hc Hr]. destruct s as [[] h log]; simpl in *; by subst. Qed.

Lemma call_callback_value s reason v :
  is_cmp_none (el_cmp (s_el s)) = false -> is_Some (el_callback (s_el s)) ->
  wp (call_callback reason v) (fun _ s' => exists log, s' = s <| s_log := log |>) s.
Proof.
  intros Hc [f Hf]. unfold call_callback. apply wp_bind, wp_get_el. rewrite Hf.
  apply wp_bind, wp_mod, wp_bind. destruct (cb_set_result _) as [[r w]|].
  - unfold gvotable_election_set_result. apply wp_bind, wp_bind, wp_get_el. simpl.
    rewrite Hc. simpl.
    repeat case_match; apply wp_ret, wp_ret, wp_ret; eexists; solve_el_eq.
  - apply wp_ret, wp_ret. eexists; solve_el_eq.
Qed.

Lemma run_and_notify_value s ret :
  el_plain (s_el s) ->
  wp (run_and_notify ret) (fun _ s' => exists r res v log,
    s' = MkEst ((with_result r res v (s_el s)) <| el_re_lock := false |>
      <| el_cb_lock := false |>) (s_heap s) log /\
    (String.length r < GVOTABLE_MAX_REASON_LEN)%nat /\
    (el_force_result_is_enabled (s_el s) = false -> elected (s_el s') (s_heap s'))) s.
Proof.
  intros Hwf. unfold run_and_notify. apply wp_bind.
  eapply wp_mono; [by apply internal_run_election_value|].
  intros run s' (r & res & v & -> & Hl & Hcb & Hel). apply wp_bind.
  eapply (wp_mono _ (fun _ s' => exists log, s' = MkEst ((with_result r res v (s_el s))
    <| el_re_lock := false |>) (s_heap s) log)).
  - destruct run; apply wp_bind, wp_mod_el.
    + unfold gvotable_run_callback. apply wp_bind, wp_get_el. case_match;
        (eapply wp_mono; [apply call_callback_value; [apply Hwf|by apply Hcb]|]);
        intros ? s' [log ->]; exists log; solve_el_eq.
    + apply wp_ret. eexists; solve_el_eq.
  - intros ret' s' [log ->]. apply wp_bind, wp_mod_el, wp_ret.
    exists r, res, v, log. split_and!; [done..|]. intros Hf. by apply Hel in Hf.
Qed.

(** ** Casting a vote *)

Lemma el_wf_ext el el' :
  el_wf hash el -> el_cmp el' = el_cmp el -> el_use_alloc el' = el_use_alloc el ->
  el_votes el' = el_votes el ->
  (String.length (el_reason el') < GVOTABLE_MAX_REASON_LEN)%nat -> el_wf hash el'.
Proof. intros [] E1 E2 E4 Hl. split; rewrite ?E1, ?E2, ?E4; done. Qed.

(** The fields no vote changes. *)
Definition same_config (el el' : gvotable_election) : Prop :=
  el_cmp el' = el_cmp el /\ el_is_bool_type el' = el_is_bool_type el /\
  el_has_default_vote el' = el_has_default_vote el /\
  el_default_vote el' = el_default_vote el /\
  el_force_result_is_enabled el' = el_force_result_is_enabled el.

(** What a completed vote guarantees: well-formedness, free locks, the intended
    abstract votes and, unless the result is forced, the right winner. [ord] is
    an order of the list the vote keeps. *)
Definition cast_post (ord : list ballot -> Prop) (s : est) (m : votes_map) (s' : est) : Prop :=
  el_wf hash (s_el s') /\ unlocked (s_el s') /\ abs_votes (s_el s') = m /\
  same_config (s_el s) (s_el s') /\ ord (el_votes (s_el s')) /\
  (el_force_result_is_enabled (s_el s) = false -> elected (s_el s') (s_heap s')).

Lemma run_and_notify_post (ord : list ballot -> Prop) s ret m :
  el_wf hash (s_el s) -> abs_votes (s_el s) = m -> ord (el_votes (s_el s)) ->
  wp (run_and_notify ret) (fun _ s' => cast_post ord s m s') s.
Proof.
  intros Hwf Hm Hord. eapply wp_mono; [by eapply run_and_notify_value, el_wf_plain|].
  intros ? s' (r & res & v & log & -> & Hl & Hel).
  split_and!; [by eapply el_wf_ext|done..].
Qed.

(** The list of votes once the ballot of [reason] is replaced by [b']. *)
Lemma replace_ballot l rest b' reason vote enabled :
  NoDup (b_reason <$> rest) -> Forall (ballot_ok hash) rest -> ballot_ok hash b' ->
  abs_ballot b' = (reason, (vote, enabled)) -> reason ∉ b_reason <$> rest ->
  l ≡ₚ b' :: rest ->
  NoDup (b_reason <$> l) /\ Forall (ballot_ok hash) l /\
  abs_list l = <[reason := (vote, enabled)]> (abs_list rest).
Proof.
  intros Hnd Hok Hb' Habs Hnin Hp.
  assert (NoDup (b_reason <$> l)) as Hnd'.
  { rewrite Hp. simpl. apply NoDup_cons. split; [|done]. by inversion Habs; subst. }
  split_and!; [done|by rewrite Hp; constructor|].
  rewrite (abs_list_perm _ _ Hnd' Hp). unfold abs_list. by rewrite fmap_cons, Habs.
Qed.

Lemma delete_ballot l i b :
  NoDup (b_reason <$> l) -> l !! i = Some b ->
  NoDup (b_reason <$> delete i l) /\ (b_reason b ∉ b_reason <$> delete i l) /\
  abs_list l = <[b_reason b := (ballot_vote b, b_enabled b)]> (abs_list (delete i l)).
Proof.
  intros Hnd Hi. pose proof (delete_Permutation _ _ _ Hi) as Hp.
  pose proof Hnd as Hnd'. rewrite Hp in Hnd'. apply NoDup_cons in Hnd' as [Hn Hnd'].
  split_and!; [done..|]. by rewrite (abs_list_perm _ _ Hnd Hp).
Qed.

(** What an election stores for a vote. *)
Definition stored_vote (el : gvotable_election) (vote : Z) (enabled : bool) : Z :=
  if el_is_bool_type el then Z.b2z enabled else vote.

(** The order is kept by removal, by insertion of a ballot that is enabled or
    last, and by disabling [b] in place with [vote]. *)
Record keeps_order (c : comparator) (ord : list ballot -> Prop) : Prop := {
  ko_delete : forall l i, ord l -> ord (delete i l);
  ko_add : forall h b en el, el_cmp el = c -> b_enabled b = en ->
    ord (el_votes el) -> ord (el_votes (gvotable_add_ballot h b en el))
}.

Definition keeps_disabled (ord : list ballot -> Prop) (l : list ballot) (reason : string)
    (vote : Z) : Prop :=
  forall i b b', l !! i = Some b -> b_reason b = reason ->
    ballot_vote b' = vote -> b_enabled b' = false -> ord (<[i := b']> l).

Lemma cast_on_ballot_link c ord s b vote enabled (allocated : bool) :
  keeps_order c ord -> el_cmp (s_el s) = c -> ord (el_votes (s_el s)) ->
  el_wf hash (s_el s) -> ballot_ok hash b ->
  b_reason b ∉ b_reason <$> el_votes (s_el s) -> allocated || enabled = true ->
  wp (cast_on_ballot kzalloc b None allocated vote enabled)
    (fun _ s' => cast_post ord s (<[b_reason b := (stored_vote (s_el s) vote enabled, enabled)]>
       (abs_votes (s_el s))) s') s.
Proof.
  intros Hko Hc Hord Hwf Hb Hnin Hlink. pose proof Hwf as [Hn Hr Ha Hok Hnd].
  unfold cast_on_ballot. apply wp_bind, wp_get_el, wp_bind.
  change (if el_is_bool_type (s_el s) then Z.b2z enabled else vote)
    with (stored_vote (s_el s) vote enabled).
  destruct (update_ballot_value b (stored_vote (s_el s) vote enabled) enabled s Hb)
    as (b' & Eu & Hb' & Habs).
  unfold wp at 1. rewrite Eu. apply wp_bind, wp_ret. simpl. rewrite Hlink.
  apply wp_bind, wp_mod.
  assert (b_enabled b' = enabled) as Hen by by inversion Habs.
  destruct (replace_ballot (el_votes (gvotable_add_ballot (s_heap s) b' enabled (s_el s)))
    (el_votes (s_el s)) b' (b_reason b) (stored_vote (s_el s) vote enabled) enabled)
    as (Hnd' & Hok' & Habs'); [done..|apply add_ballot_perm|].
  pose proof (ko_add _ _ Hko (s_heap s) b' enabled (s_el s) Hc Hen Hord) as Hord'.
  destruct (add_ballot_frame (s_heap s) b' enabled (s_el s)) as (l & n & E).
  rewrite E in *. simpl in *.
  eapply wp_mono; [by apply (run_and_notify_post ord)|done].
Qed.

Lemma cast_on_ballot_disable ord s i b vote :
  keeps_disabled ord (el_votes (s_el s)) (b_reason b) (stored_vote (s_el s) vote false) ->
  el_wf hash (s_el s) -> el_votes (s_el s) !! i = Some b ->
  wp (cast_on_ballot kzalloc b (Some i) false vote false)
    (fun _ s' => cast_post ord s (<[b_reason b := (stored_vote (s_el s) vote false, false)]>
       (abs_votes (s_el s))) s') s.
Proof.
  intros Hord Hwf Hi. pose proof Hwf as [Hn Hr Ha Hok Hnd].
  pose proof (Forall_lookup_1 _ _ _ _ Hok Hi) as Hb.
  unfold cast_on_ballot. apply wp_bind, wp_get_el, wp_bind.
  change (if el_is_bool_type (s_el s) then Z.b2z false else vote)
    with (stored_vote (s_el s) vote false).
  destruct (update_ballot_value b (stored_vote (s_el s) vote false) false s Hb)
    as (b' & Eu & Hb' & Habs).
  unfold wp at 1. rewrite Eu. apply wp_bind, wp_mod_el. simpl. apply wp_bind, wp_ret.
  injection Habs as Hreason Hvote Hen.
  destruct (delete_ballot _ _ _ Hnd Hi) as (Hnd' & Hnin & Hold).
  assert (<[i := b']> (el_votes (s_el s)) ≡ₚ b' :: delete i (el_votes (s_el s))) as Hp.
  { rewrite (delete_Permutation (<[i := b']> (el_votes (s_el s))) i b').
    - by rewrite delete_insert_same.
    - apply list_lookup_insert_eq. by eapply lookup_lt_Some. }
  destruct (replace_ballot _ _ b' (b_reason b) (stored_vote (s_el s) vote false) false Hnd'
    (Forall_delete _ _ _ Hok) Hb' ltac:(unfold abs_ballot; by rewrite Hreason, Hvote, Hen) Hnin Hp)
    as (Hnd2 & Hok2 & Hnew).
  eapply wp_mono; [apply (run_and_notify_post ord)|].
  - by split.
  - exact Hnew.
  - by eapply Hord.
  - intros ? s' (? & ? & Habs & ?). refine (conj _ (conj _ (conj _ _))); [done..| |done].
    change (abs_votes (s_el s)) with (abs_list (el_votes (s_el s))).
    rewrite Habs, Hold. by rewrite insert_insert_eq.
Qed.

Lemma cast_vote_general c ord s reason vote enabled :
  keeps_order c ord -> el_cmp (s_el s) = c -> ord (el_votes (s_el s)) ->
  (enabled = false ->
   keeps_disabled ord (el_votes (s_el s)) reason (stored_vote (s_el s) vote false)) ->
  el_wf hash (s_el s) -> unlocked (s_el s) ->
  reason <> "" -> (String.length reason < GVOTABLE_MAX_REASON_LEN)%nat ->
  (abs_votes (s_el s) !! reason = None -> is_Some (kzalloc (s_heap s) sizeof_ballot)) ->
  wp (gvotable_cast_vote hash kzalloc sizeof_ballot cur (Some reason) vote enabled)
    (fun _ s' => cast_post ord s
       (<[reason := (stored_vote (s_el s) vote enabled, enabled)]> (abs_votes (s_el s))) s') s.
Proof.
  intros Hko Hc Hord Hdis Hwf Hun Hne Hlen Halloc. pose proof Hwf as [Hn Hr Ha Hok Hnd].
  unfold gvotable_cast_vote. apply wp_bind, wp_get_el.
  rewrite bool_decide_false, Ha by done. simpl. apply wp_bind.
  unfold wp at 1. rewrite lock_election_free by done.
  match goal with |- wp _ _ ?x => set (s1 := x) end.
  assert (el_wf hash (s_el s1)) as Hwf1 by done.
  assert (forall m s', cast_post ord s1 m s' -> cast_post ord s m s') as Hpost by done.
  destruct (gvotable_ballot_find_internal hash (s_el s) reason) as [[i b]|] eqn:Ef.
  - destruct (find_internal_Some _ _ _ _ Hok Hlen Ef) as [Hi <-].
    destruct (delete_ballot _ _ _ Hnd Hi) as (Hnd' & Hnin & Hold).
    change (abs_list (el_votes (s_el s))) with (abs_votes (s_el s)) in Hold.
    assert (ballot_ok hash b) as Hb by by eapply Forall_lookup_1 in Hok.
    destruct enabled.
    + apply wp_bind, wp_mod_el.
      eapply wp_mono; [eapply (cast_on_ballot_link c ord); [done|done| | |done|done|done]|].
      * by apply (ko_delete _ _ Hko).
      * split; try done; simpl. by apply Forall_delete.
      * intros ? s' H. apply Hpost. rewrite Hold, insert_insert_eq. exact H.
    + eapply wp_mono; [apply (cast_on_ballot_disable ord s1 i b vote); [by apply Hdis|done|done]|].
      intros ? s'. apply Hpost.
  - pose proof (find_internal_None _ _ Hok Ef) as Hnin.
    destruct Halloc as [p Hp].
    { apply not_elem_of_list_to_map. by rewrite abs_fst. }
    apply wp_bind. unfold wp at 1, km_kzalloc. simpl. rewrite Hp. apply wp_bind, wp_mod_el.
    destruct (new_ballot_ok (s_el s) p reason Ha Hlen) as [Hb Hbr].
    eapply wp_mono; [eapply (cast_on_ballot_link c ord _ (new_ballot hash (s_el s) p reason));
      [done|done|done|by eapply el_wf_ext|done|by rewrite Hbr|done]|].
    intros ? s' H. apply Hpost. rewrite <- Hbr at 1. exact H.
Qed.
End Cast.

(** ** Ordered elections *)

Section Ordered.
Context (hash : string -> Z) (kzalloc : heap -> Z -> option Z).
Context (sizeof_ballot : Z) (cur : Z).
Context (c : comparator) (key : Z -> Z) `{!KeyCmp c key}.

Lemma key_cmp_not_none : is_cmp_none c = false.
Proof.
  destruct c eqn:E; try done. pose proof (key_eq (key := key) ∅ 0 0) as H.
  rewrite Z.eqb_refl in H. done.
Qed.

Lemma keeps_order_sorted : keeps_order c (StronglySorted (ballot_le key)).
Proof.
  split; [intros; by apply StronglySorted_delete|]. intros. by eapply add_ballot_sorted.
Qed.

Lemma sorted_disable_in_place l i b b' :
  StronglySorted (ballot_le key) l -> l !! i = Some b ->
  b_enabled b' = false -> key (ballot_vote b') <= key (ballot_vote b) ->
  StronglySorted (ballot_le key) (<[i := b']> l).
Proof.
  intros Hs; revert i; induction Hs as [|x l Hs IH Hf]; intros [|i] Hi Hen Hk; simplify_eq/=.
  - constructor; [done|]. eapply Forall_impl; [exact Hf|].
    intros y Hy En. specialize (Hy En). lia.
  - constructor; [by apply IH|]. apply Forall_insert; [done|]. intros En. congruence.
Qed.

Lemma stands_for_key el h res vote :
  el_cmp el = c -> stands_for el h res vote vote -> key res = key vote.
Proof.
  intros Hc [->|H]; [done|]. rewrite Hc in H.
  pose proof (key_eq (c := c) h res vote) as K. rewrite H in K. simpl in K. lia.
Qed.

Lemma elected_result_spec el h :
  el_wf hash el -> el_cmp el = c -> el_is_bool_type el = false -> ballots_sorted key el ->
  elected el h -> result_spec key (abs_votes el) el.
Proof.
  intros Hwf Hc Hb Hs H. unfold elected in H. unfold result_spec. rewrite Hb in H.
  destruct (list_find _ _) as [[i b]|] eqn:E.
  - destruct H as (-> & -> & Hk%stands_for_key); [|done]. left.
    destruct (first_enabled_best key _ _ _ Hs E) as (Hin & Hen & Hbest).
    exists (ballot_vote b). split_and!; [|done|].
    + rewrite <- Hen. apply abs_list_lookup; [apply Hwf|done].
    + intros r' v' (y & Hy & [= <- <- Hey])%abs_list_inv. by apply Hbest.
  - destruct (Z.eqb_spec (el_has_default_vote el) 1).
    + destruct H as (-> & -> & Hk%stands_for_key); [|done].
      right. split; [by apply no_enabled_abs|done].
    + destruct H as (-> & _). split; [by apply no_enabled_abs|done].
Qed.

(** The invariant of an election ordered by [key]. *)
Definition ordered_inv (el : gvotable_election) : Prop :=
  el_wf hash el /\ unlocked el /\ el_cmp el = c /\ el_is_bool_type el = false /\
  ballots_sorted key el.

(** C1. Casting a vote in an ordered election is an insertion in the abstract map
    of votes; it completes, leaves the election well formed, ordered and
    unlocked and, unless the result is forced, with the optimum of the enabled
    votes (or the default vote, or no result) as its result. The allocator may
    fail only when the reason has a ballot; a vote cast disabled must not rank
    after the vote it replaces. *)
Theorem cast_vote_refines s reason vote enabled :
  ordered_inv (s_el s) -> reason <> "" ->
  (String.length reason < GVOTABLE_MAX_REASON_LEN)%nat ->
  (abs_votes (s_el s) !! reason = None -> is_Some (kzalloc (s_heap s) sizeof_ballot)) ->
  (forall v e, enabled = false -> abs_votes (s_el s) !! reason = Some (v, e) -> key vote <= key v) ->
  wp (gvotable_cast_vote hash kzalloc sizeof_ballot cur (Some reason) vote enabled)
    (fun _ s' => ordered_inv (s_el s') /\
       abs_votes (s_el s') = <[reason := (vote, enabled)]> (abs_votes (s_el s)) /\
       (el_force_result_is_enabled (s_el s) = false ->
        result_spec key (abs_votes (s_el s')) (s_el s'))) s.
Proof.
  intros (Hwf & Hun & Hc & Hb & Hs) Hne Hlen Halloc Hdis.
  eapply wp_mono; [apply (cast_vote_general hash kzalloc sizeof_ballot cur c
    (StronglySorted (ballot_le key))); try done; [apply keeps_order_sorted|]|].
  - intros -> i b b' Hi <- Hv Hen. eapply sorted_disable_in_place; [done..|].
    rewrite Hv. unfold stored_vote. rewrite Hb. apply (Hdis _ (b_enabled b)); [done|].
    apply abs_list_lookup; [apply Hwf|by eapply list_elem_of_lookup_2].
  - intros ? s' (Hwf' & Hun' & Habs & (Ec & Eb & _) & Hs' & Hel).
    unfold stored_vote in Habs. rewrite Hb in Habs.
    assert (ordered_inv (s_el s')) as Hinv' by (split_and!; [done..|congruence|congruence|done]).
    split_and!; [done..|]. intros Hf. eapply elected_result_spec; [done|congruence..|done|by apply Hel].
Qed.
End Ordered.

(** ** Bool elections *)

(** In a bool election the result is 1 exactly when some vote is enabled,
    and 0, with the default reason, otherwise; casting a vote records the
    voter's state whatever value it passes. *)
Theorem bool_vote_result hash kzalloc sizeof_ballot cur s reason vote enabled :
  el_wf hash (s_el s) -> unlocked (s_el s) -> el_cmp (s_el s) = CmpBool ->
  el_is_bool_type (s_el s) = true -> el_has_default_vote (s_el s) = 1 ->
  el_default_vote (s_el s) = GVOTABLE_BOOL_FALSE_VALUE ->
  el_force_result_is_enabled (s_el s) = false ->
  reason <> "" -> (String.length reason < GVOTABLE_MAX_REASON_LEN)%nat ->
  (abs_votes (s_el s) !! reason = None -> is_Some (kzalloc (s_heap s) sizeof_ballot)) ->
  wp (gvotable_cast_vote hash kzalloc sizeof_ballot cur (Some reason) vote enabled)
    (fun _ s' => el_wf hash (s_el s') /\ unlocked (s_el s') /\
       abs_votes (s_el s') = <[reason := (Z.b2z enabled, enabled)]> (abs_votes (s_el s)) /\
       el_result_is_valid (s_el s') = true /\
       (el_result (s_el s') = GVOTABLE_BOOL_TRUE_VALUE <->
        exists r v, abs_votes (s_el s') !! r = Some (v, true)) /\
       (el_result (s_el s') = GVOTABLE_BOOL_TRUE_VALUE \/
        el_result (s_el s') = GVOTABLE_BOOL_FALSE_VALUE /\ el_reason (s_el s') = default_reason)) s.
Proof.
  intros Hwf Hun Hc Hb Hd Hdv Hf Hne Hlen Halloc.
  eapply wp_mono; [by apply (cast_vote_general hash kzalloc sizeof_ballot cur CmpBool (fun _ => True))|].
  intros ? s' (Hwf' & Hun' & Habs & (Ec & Eb & Ed & Edv & _) & _ & Hel).
  unfold stored_vote in Habs. rewrite Hb in Habs. specialize (Hel Hf). unfold elected in Hel.
  assert (forall res v w, stands_for (s_el s') (s_heap s') res v w -> res = w) as Hst.
  { intros res v w [->|H]; [done|]. by rewrite Ec, Hc in H. }
  rewrite Eb, Hb, Ed, Hd, Edv, Hdv in Hel. simpl in Hel.
  destruct (list_find _ _) as [[i b]|] eqn:E.
  - destruct Hel as (Hv & Hr & ->%Hst). split_and!; [done..| |by left]. split; [|done]. intros _.
    pose proof E as (Hi & Hen & _)%list_find_Some. exists (b_reason b), (ballot_vote b).
    rewrite <- Hen. apply abs_list_lookup; [apply Hwf'|by eapply list_elem_of_lookup_2].
  - destruct Hel as (Hv & Hr & ->%Hst). split_and!; [done..| |by right]. split; [done|].
    intros (r & v & H). by destruct (no_enabled_abs _ E r v).
Qed.

(** ** Witnesses *)

Definition len_hash (s : string) : Z := Z.of_nat (String.length s).

(** A minimum election with one enabled vote of 700. *)
Definition min_state : est :=
  MkEst ((election_init len_hash None 4 CmpIntMin None 0 700) <| el_reason := "USER" |>
    <| el_result_is_valid := true |> <| el_votes := [MkBallot 1 true 4 "USER" 0 [700] 0 1] |>
    <| el_num_voters := 1 |>) {[1 := zeros 80]} [].

Lemma cast_vote_refines_witness :
  ordered_inv len_hash CmpIntMin s32 (s_el min_state) /\
  wp (gvotable_cast_vote len_hash bump_alloc 80 1 (Some "THERMAL") 500 true)
    (fun _ s' => abs_votes (s_el s') = <["THERMAL" := (500, true)]> {["USER" := (700, true)]} /\
       result_spec s32 (abs_votes (s_el s')) (s_el s')) min_state.
Proof.
  assert (ordered_inv len_hash CmpIntMin s32 (s_el min_state)) as H.
  { split_and!; [|done..|by repeat constructor].
    split; simpl; [done|unfold GVOTABLE_MAX_REASON_LEN; lia|done| |].
    - repeat constructor; simpl; unfold GVOTABLE_MAX_REASON_LEN; lia.
    - apply NoDup_singleton. }
  split; [exact H|].
  eapply wp_mono; [apply (cast_vote_refines len_hash bump_alloc 80 1 CmpIntMin s32)|].
  - exact H.
  - done.
  - simpl; unfold GVOTABLE_MAX_REASON_LEN; lia.
  - by eexists.
  - done.
  - intros r s' (_ & Ha & Hr). split; [exact Ha|by apply Hr].
Defined.

(** A bool election as [gvotable_create_bool_election] leaves it. *)
Definition bool_state : est :=
  MkEst ((election_init len_hash None 4 CmpBool None 0 0) <| el_reason := default_reason |>
    <| el_result_is_valid := true |> <| el_has_default_vote := 1 |> <| el_is_bool_type := true |>)
    ∅ [].

Lemma bool_vote_result_witness :
  wp (gvotable_cast_vote len_hash bump_alloc 80 1 (Some "USER_VOTE") 0 true)
    (fun _ s' => el_result (s_el s') = GVOTABLE_BOOL_TRUE_VALUE) bool_state.
Proof.
  eapply wp_mono; [apply (bool_vote_result len_hash bump_alloc 80 1)|].
  - split; simpl; [done|unfold GVOTABLE_MAX_REASON_LEN; lia|done|constructor|constructor].
  - done.
  - done.
  - done.
  - done.
  - done.
  - done.
  - done.
  - simpl; unfold GVOTABLE_MAX_REASON_LEN; lia.
  - by eexists.
  - intros r s' (_ & _ & Ha & _ & Hr & _). apply Hr. exists "USER_VOTE", 1. by rewrite Ha.
Defined.
