(* ===== verification/GvotableLocks.v ===== *)
(** * Locking discipline and limits of an election

    Every operation takes the callback lock, then the result lock, and releases
    the result lock before it calls back. A Hoare-style judgement on the two
    lock bits carries this through the operations; two places break it. Then what
    happens outside the conditions the election theorems ask for: reasons
    that do not fit a ballot, votes whose value changes while they are disabled,
    the naming of the unsigned comparators, and copying a result that is a value. *)

From stdpp Require Import sorting.
From S2P Require Import Prelude Gvotable GvotableRegistry GvotableElection.

(** ** The judgement *)

Definition locks (s : est) : bool * bool := (el_cb_lock (s_el s), el_re_lock (s_el s)).

(** From locks [l1] the operation does not block, and ends with locks [l2]. *)
Definition lockt {A} (l1 : bool * bool) (m : M est A) (l2 : bool * bool) : Prop :=
  forall s, locks s = l1 ->
    match m s with Done _ s' => locks s' = l2 | Blocked => False | Fault => True end.

Lemma lockt_ret {A} l (a : A) : lockt l (kret a) l.
Proof. by intros s. Qed.

Lemma lockt_fault {A} l l' : lockt l (kfault (A := A)) l'.
Proof. by intros s. Qed.

Lemma lockt_bind {A B} l1 l2 l3 (m : M est A) (k : A -> M est B) :
  lockt l1 m l2 -> (forall a, lockt l2 (k a) l3) -> lockt l1 (kbind m k) l3.
Proof.
  intros Hm Hk s Hs. specialize (Hm s Hs). unfold kbind. destruct (m s); [|done..].
  by apply Hk.
Qed.

(** Reading the election also tells the continuation its locks. *)
Lemma lockt_get_bind {B} l1 l3 (k : gvotable_election -> M est B) :
  (forall el, (el_cb_lock el, el_re_lock el) = l1 -> lockt l1 (k el) l3) ->
  lockt l1 (kbind get_el k) l3.
Proof. intros H s Hs. by apply (H (s_el s)). Qed.

Lemma lockt_kget l : lockt l kget l.
Proof. by intros s. Qed.

Lemma lockt_mod_el l l' f :
  (forall el, (el_cb_lock el, el_re_lock el) = l -> (el_cb_lock (f el), el_re_lock (f el)) = l') ->
  lockt l (mod_el f) l'.
Proof. intros H s Hs. by apply H. Qed.

Lemma lockt_kmod l f : (forall s, locks (f s) = locks s) -> lockt l (kmod f) l.
Proof. intros H s <-. apply H. Qed.

Lemma lockt_memcpy l d s n : lockt l (km_memcpy d s n) l.
Proof. intros st <-. unfold km_memcpy. by destruct (heap_memcpy _ _ _ _). Qed.

Lemma lockt_kzalloc alloc l n : lockt l (km_kzalloc alloc n) l.
Proof. intros st <-. unfold km_kzalloc. by destruct (alloc _ _). Qed.

Lemma lockt_kfree l p : lockt l (km_kfree p) l.
Proof. intros st <-. unfold km_kfree. destruct (_ =? _); [done|]. by destruct (_ !! _). Qed.

Create HintDb locks.
#[export] Hint Resolve lockt_ret lockt_fault lockt_kget lockt_memcpy lockt_kzalloc lockt_kfree : locks.

(** One syntactic step: bind, case split, primitive. *)
Ltac lockt_step :=
  match goal with
  | |- lockt _ (if ?b then _ else _) _ => destruct b
  | |- lockt _ (match ?x with _ => _ end) _ => destruct x
  | |- lockt _ (kbind get_el _) _ => apply lockt_get_bind; intros ? _
  | |- lockt _ (kbind _ _) _ => eapply lockt_bind; [|intros ?]
  | |- lockt _ (mod_el _) _ => apply lockt_mod_el; intros ?; simpl; intros; simplify_eq; done
  | |- lockt _ (kmod _) _ => apply lockt_kmod; intros []; done
  | |- _ => solve [eauto with locks]
  end.
Ltac lockt_steps := repeat lockt_step.

Lemma lockt_update_reason l r : lockt l (gvotable_internal_update_reason r) l.
Proof. apply lockt_mod_el. by intros. Qed.

Lemma lockt_copy_result l r n : lockt l (gvotable_internal_copy_result r n) l.
Proof. unfold gvotable_internal_copy_result. lockt_steps. Qed.
#[export] Hint Resolve lockt_update_reason lockt_copy_result : locks.

Lemma lockt_update_result l n : lockt l (gvotable_internal_update_result n) l.
Proof.
  unfold gvotable_internal_update_result. apply lockt_get_bind; intros el _.
  eapply lockt_bind; [auto with locks|intros r]. apply lockt_mod_el. by intros.
Qed.
#[export] Hint Resolve lockt_update_result : locks.

Lemma lockt_run_election_set l r v n : lockt l (run_election_set r v n) l.
Proof.
  unfold run_election_set. apply lockt_get_bind; intros el _.
  eapply lockt_bind; [case_match; auto with locks|intros _].
  eapply lockt_bind; [auto with locks|intros s].
  eapply lockt_bind; [case_match; auto with locks|intros _].
  eapply lockt_bind; [apply lockt_mod_el; by intros|auto with locks].
Qed.
#[export] Hint Resolve lockt_run_election_set : locks.

Lemma lockt_internal_run_election l : lockt l gvotable_internal_run_election l.
Proof.
  unfold gvotable_internal_run_election. apply lockt_get_bind; intros el _.
  case_match; [auto with locks|]. repeat case_match;
    (eapply lockt_bind; [first [apply lockt_mod_el; by intros | auto with locks]|auto with locks]).
Qed.

Lemma lockt_set_result l r n : lockt l (gvotable_election_set_result r n) l.
Proof. unfold gvotable_election_set_result. lockt_steps. Qed.
#[export] Hint Resolve lockt_internal_run_election lockt_set_result : locks.

Lemma lockt_call_callback l r v : lockt l (call_callback r v) l.
Proof. unfold call_callback. lockt_steps. Qed.
#[export] Hint Resolve lockt_call_callback : locks.

Lemma lockt_run_callback l : lockt l gvotable_run_callback l.
Proof. unfold gvotable_run_callback. lockt_steps. Qed.
#[export] Hint Resolve lockt_run_callback : locks.

Lemma lockt_unlock_result cb re : lockt (cb, re) gvotable_unlock_result (cb, false).
Proof. apply lockt_mod_el. intros el H; by simplify_eq/=. Qed.

Lemma lockt_unlock_callback cb re : lockt (cb, re) gvotable_unlock_callback (false, re).
Proof. apply lockt_mod_el. intros el H; by simplify_eq/=. Qed.

Lemma lockt_lock_result cb : lockt (cb, false) gvotable_lock_result (cb, true).
Proof.
  unfold gvotable_lock_result. apply lockt_get_bind; intros el H. injection H as _ ->.
  apply lockt_mod_el. intros el' H; by simplify_eq/=.
Qed.

Lemma lockt_lock_election cur : lockt (false, false) (gvotable_lock_election cur) (true, true).
Proof. intros s Hs. rewrite lock_election_free; [done|]. unfold locks in Hs. by injection Hs. Qed.
#[export] Hint Resolve lockt_unlock_result lockt_unlock_callback lockt_lock_result
  lockt_lock_election : locks.

Lemma lockt_unlock_election cb re : lockt (cb, re) gvotable_unlock_election (false, false).
Proof. unfold gvotable_unlock_election. lockt_steps. Qed.

Lemma lockt_run_and_notify ret : lockt (true, true) (run_and_notify ret) (false, false).
Proof.
  unfold run_and_notify. eapply lockt_bind; [auto with locks|intros run].
  apply (lockt_bind _ (true, false)); [|intros ?; lockt_steps]. lockt_steps.
Qed.

Lemma lockt_update_ballot alloc l b v en : lockt l (gvotable_update_ballot alloc b v en) l.
Proof. unfold gvotable_update_ballot. lockt_steps. Qed.

Lemma lockt_km_add_ballot l b en : lockt l (km_add_ballot b en) l.
Proof.
  apply lockt_kmod. intros [el h log]. unfold locks. simpl.
  destruct (add_ballot_frame h b en el) as (vs & n & ->). done.
Qed.
#[export] Hint Resolve lockt_unlock_election lockt_run_and_notify lockt_update_ballot
  lockt_km_add_ballot : locks.

(** ** The operations *)

(** The state [gvotable_set_default] reruns the election on. *)
Definition default_changed (cur d : Z) (s : est) : est :=
  s <| s_el := (s_el s) <| el_cb_lock := true |> <| el_owner := cur |> <| el_re_lock := true |>
    <| el_default_vote := d |> |>.

(** The calls that change the default of an election whose result then needs no
    callback. *)
Definition changes_silently (cur d : Z) (s : est) : Prop :=
  el_is_bool_type (s_el s) = false /\ el_has_default_vote (s_el s) = 1 /\ el_default_vote (s_el s) <> d /\
  exists s', gvotable_internal_run_election (default_changed cur d s) = Done false s'.

Lemma set_default_locks cur d s : unlocked (s_el s) ->
  match gvotable_set_default cur d s with Done _ s' => unlocked (s_el s') \/ changes_silently cur d s | Blocked => False | Fault => True end.
Proof.
  intros Hun. unfold gvotable_set_default, kbind at 1, get_el. destruct (el_is_bool_type (s_el s)) eqn:Eb; [by left|].
  unfold kbind at 1. rewrite lock_election_free by done. unfold changes_silently. rewrite Eb.
  destruct (Z.eqb_spec (el_has_default_vote (s_el s)) 1) as [Eh|Eh], (Z.eqb_spec (el_default_vote (s_el s)) d) as [Ed|Ed];
    cbn -[gvotable_internal_run_election gvotable_run_callback]; try (left; by destruct s as [[] ? ?]).
  unfold kbind at 1. unfold kbind at 1. unfold kbind at 1. match goal with |- context [gvotable_internal_run_election ?x] => change x with (default_changed cur d s) end.
  pose proof (lockt_internal_run_election (true, true) (default_changed cur d s) eq_refl) as Hl. destruct (gvotable_internal_run_election (default_changed cur d s)) as [[|] s1| |] eqn:Er; [|by right; eauto 6|done..].
  set (rest := let! ret := (do! gvotable_unlock_result in gvotable_run_callback) in do! mod_el (fun el => el <| el_has_default_vote := 1 |>) in do! gvotable_unlock_callback in kret ret).
  assert (Hr : lockt (true, true) rest (false, false)).
  { eapply lockt_bind; [eapply lockt_bind; [apply lockt_unlock_result|intros; apply lockt_run_callback]|intros ret].
    eapply lockt_bind; [apply (lockt_mod_el (true, false) (true, false)); by intros|intros _]. eapply lockt_bind; [apply lockt_unlock_callback|intros; apply lockt_ret]. }
  specialize (Hr s1 Hl). enough (Hg : forall X : Prop, match rest s1 with Done _ s' => unlocked (s_el s') \/ X | Blocked => False | Fault => True end) by exact (Hg _).
  intros X. destruct (rest s1) as [r s'| |]; [|done..]. left. unfold locks in Hr. by injection Hr.
Qed.

(** The calls of the library on one election, a getter's result dropped. *)
Inductive op :=
| OpCastVote (reason : option string) (vote : Z) (enabled : bool)
| OpRecastBallot (reason : string) (enabled : bool)
| OpUseDefault (default_is_enabled : bool)
| OpRunElection (force_callback : bool)
| OpGetDefault (result : Z)
| OpGetCurrentVote
| OpCopyCurrentResult (vote vote_size : Z)
| OpGetCurrentReason (max_len : nat)
| OpGetVote (reason : option string)
| OpIsEnabled (reason : option string)
| OpCastIntVote (val : Z)
| OpForceIntValue (val : Z)
| OpForceIntActive (val : Z)
| OpSetDefault (default_val : Z).

Section Ops.
Context (hash : string -> Z) (kzalloc : heap -> Z -> option Z) (sizeof_ballot : Z).

Definition ignore {A} (m : M est A) : M est unit := let! _ := m in kret tt.

Definition exec (cur : Z) (o : op) : M est unit :=
  match o with
  | OpCastVote r v e => ignore (gvotable_cast_vote hash kzalloc sizeof_ballot cur r v e)
  | OpRecastBallot r e => ignore (gvotable_recast_ballot hash kzalloc cur r e)
  | OpUseDefault b => ignore (gvotable_use_default cur b)
  | OpRunElection f => ignore (gvotable_run_election cur f)
  | OpGetDefault r => ignore (gvotable_get_default cur r)
  | OpGetCurrentVote => ignore gvotable_get_current_vote
  | OpCopyCurrentResult v n => ignore (gvotable_copy_current_result v n)
  | OpGetCurrentReason n => ignore (gvotable_get_current_reason n)
  | OpGetVote r => ignore (gvotable_get_vote hash r)
  | OpIsEnabled r => ignore (gvotable_is_enabled hash r)
  | OpCastIntVote v => ignore (debugfs_cast_int_vote hash kzalloc sizeof_ballot cur v)
  | OpForceIntValue v => ignore (debugfs_force_int_value cur v)
  | OpForceIntActive v => ignore (debugfs_force_int_active cur v)
  | OpSetDefault d => ignore (gvotable_set_default cur d)
  end.

(** Calls made one after the other, each by its task. *)
Fixpoint exec_all (os : list (Z * op)) : M est unit :=
  match os with
  | [] => kret tt
  | (cur, o) :: os => do! exec cur o in exec_all os
  end.

Lemma lockt_cast_on_ballot b slot al v en :
  lockt (true, true) (cast_on_ballot kzalloc b slot al v en) (false, false).
Proof.
  unfold cast_on_ballot. apply lockt_get_bind; intros el _.
  eapply lockt_bind; [auto with locks|intros [ret b']].
  eapply lockt_bind; [destruct slot; [apply lockt_mod_el; by intros|auto with locks]|intros _].
  case_match; (eapply lockt_bind; [case_match; auto with locks|intros _]); lockt_steps.
Qed.

Lemma lockt_cast_vote cur r v en :
  lockt (false, false) (gvotable_cast_vote hash kzalloc sizeof_ballot cur r v en) (false, false).
Proof.
  unfold gvotable_cast_vote. apply lockt_get_bind; intros el _.
  destruct r as [r|]; [|auto with locks]. do 2 (case_match; [auto with locks|]).
  eapply lockt_bind; [auto with locks|intros _].
  destruct (gvotable_ballot_find_internal _ _ _) as [[i b]|].
  - case_match; [|apply lockt_cast_on_ballot].
    eapply lockt_bind; [apply lockt_mod_el; by intros|intros _; apply lockt_cast_on_ballot].
  - eapply lockt_bind; [auto with locks|intros [p|]]; [|lockt_steps].
    eapply lockt_bind; [apply lockt_mod_el; by intros|intros _; apply lockt_cast_on_ballot].
Qed.

Lemma lockt_recast cur r en :
  lockt (false, false) (gvotable_recast_ballot hash kzalloc cur r en) (false, false).
Proof.
  unfold gvotable_recast_ballot. eapply lockt_bind; [auto with locks|intros _].
  apply lockt_get_bind; intros el _.
  destruct (gvotable_ballot_find_internal _ _ _) as [[i b]|]; [|lockt_steps].
  eapply lockt_bind; [apply lockt_mod_el; by intros|intros _].
  eapply lockt_bind; [auto with locks|intros [ret b']]. case_match; lockt_steps.
Qed.

(** Getters: the result lock is taken and released around a read. *)
Lemma lockt_is_enabled r : lockt (false, false) (gvotable_is_enabled hash r) (false, false).
Proof. unfold gvotable_is_enabled. destruct r; lockt_steps. Qed.

(** The tail of the operations that call back after releasing the result lock. *)
Lemma lockt_callback_tail (m : M est Z) :
  lockt (true, false) m (true, false) ->
  lockt (true, false) (let! ret := m in do! gvotable_unlock_callback in kret ret) (false, false).
Proof. intros Hm. eapply lockt_bind; [exact Hm|intros ret]. lockt_steps. Qed.

Lemma lockt_exec cur o : (forall d, o <> OpSetDefault d) -> lockt (false, false) (exec cur o) (false, false).
Proof.
  intros Ho. destruct o; [..|by destruct (Ho default_val)]; simpl; unfold ignore; clear Ho; (eapply lockt_bind; [|intros ?; apply lockt_ret]).
  - apply lockt_cast_vote.
  - apply lockt_recast.
  - unfold gvotable_use_default. apply lockt_get_bind; intros el _. case_match; [auto with locks|].
    eapply lockt_bind; [auto with locks|intros _].
    eapply lockt_bind; [apply lockt_mod_el; by intros|auto with locks].
  - unfold gvotable_run_election. eapply lockt_bind; [auto with locks|intros _].
    eapply lockt_bind; [auto with locks|intros cb]. eapply lockt_bind; [auto with locks|intros _].
    apply lockt_get_bind; intros el _. apply lockt_callback_tail.
    repeat case_match; auto with locks.
  - unfold gvotable_get_default. lockt_steps.
  - unfold gvotable_get_current_vote. lockt_steps.
  - unfold gvotable_copy_current_result. apply lockt_get_bind; intros el _.
    do 2 (case_match; [auto with locks|]). eapply lockt_bind; [auto with locks|intros _].
    eapply lockt_bind; [destruct (gvotable_get_current_result_unlocked el) as [? [?|]];
      [case_match|]; auto with locks|intros _]. lockt_steps.
  - unfold gvotable_get_current_reason. lockt_steps.
  - unfold gvotable_get_vote. destruct reason; lockt_steps.
  - apply lockt_is_enabled.
  - unfold debugfs_cast_int_vote. eapply lockt_bind; [apply lockt_is_enabled|intros ?].
    apply lockt_cast_vote.
  - unfold debugfs_force_int_value. apply lockt_get_bind; intros el _.
    eapply lockt_bind; [auto with locks|intros _].
    eapply lockt_bind; [apply lockt_mod_el; by intros|intros _].
    eapply lockt_bind; [auto with locks|intros _]. apply lockt_callback_tail.
    repeat case_match; auto with locks.
  - unfold debugfs_force_int_active. eapply lockt_bind; [auto with locks|intros _].
    eapply lockt_bind; [apply lockt_mod_el; by intros|intros _].
    eapply lockt_bind; [auto with locks|intros _]. apply lockt_get_bind; intros el _.
    apply lockt_callback_tail. repeat case_match; auto with locks.
Qed.

Lemma exec_locks cur o s : unlocked (s_el s) ->
  match exec cur o s with Done _ s' => unlocked (s_el s') \/ exists d, o = OpSetDefault d /\ changes_silently cur d s | Blocked => False | Fault => True end.
Proof.
  intros Hun. assert (Hs : locks s = (false, false)) by (destruct Hun as [Hc Hr]; unfold locks; by rewrite Hc, Hr).
  assert (Ho : (exists d, o = OpSetDefault d) \/ forall d, o <> OpSetDefault d) by (destruct o; first [by left; eexists | by right]).
  destruct Ho as [[d ->]|Ho]; [|specialize (lockt_exec cur o Ho s Hs) as H; destruct (exec cur o s) as [[] s'| |]; [|done..]; left; unfold locks in H; by injection H].
  pose proof (set_default_locks cur d s Hun) as H. cbn [exec]. unfold ignore, kbind. destruct (gvotable_set_default cur d s) as [r s'| |]; [|done..]. destruct H as [H|H]; [by left|right; by exists d].
Qed.

(** C39. Calls made one after the other, by whatever tasks, never block on a lock of
    the election and leave both locks free, whatever the votes, comparator and
    callback, unless one of them changes the default by [gvotable_set_default]
    where the election then needs no callback; up to that call both locks are free. *)
Theorem operations_release_locks os s :
  unlocked (s_el s) ->
  (exec_all os s <> Blocked /\ forall s', exec_all os s = Done tt s' -> unlocked (s_el s')) \/
  exists os1 cur d os2 s1, os = os1 ++ (cur, OpSetDefault d) :: os2 /\ exec_all os1 s = Done tt s1 /\ unlocked (s_el s1) /\ changes_silently cur d s1.
Proof.
  revert s. induction os as [|[cur o] os IH]; intros s Hun; [left; split; [done|]; by intros s' [= <-]|].
  pose proof (exec_locks cur o s Hun) as H. cbn [exec_all]. unfold kbind. destruct (exec cur o s) as [[] s1| |] eqn:E; [|done|by left].
  destruct H as [H|(d & -> & Hd)]; [|right; by exists [], cur, d, os, s].
  destruct (IH s1 H) as [IH1|(os1 & cur' & d & os2 & s2 & -> & E2 & Hs2 & Hd)]; [by left|right]. exists ((cur, o) :: os1), cur', d, os2, s2. split; [done|]. split; [|done]. cbn [exec_all]. unfold kbind. by rewrite E.
Qed.
End Ops.

(** ** Where the discipline breaks *)

Lemma cast_vote_blocked hash kzalloc sizeof_ballot cur s reason vote enabled :
  el_cb_lock (s_el s) = false -> el_re_lock (s_el s) = true -> reason <> "" -> vote <> 0 ->
  gvotable_cast_vote hash kzalloc sizeof_ballot cur (Some reason) vote enabled s = Blocked.
Proof.
  intros Hc Hr Hne Hv. unfold gvotable_cast_vote, kbind at 1, get_el.
  rewrite bool_decide_false, (proj2 (Z.eqb_neq _ _) Hv), andb_false_r by done.
  destruct s as [[] h log]; simpl in *; by subst.
Qed.

(** When the default vote is changed and the election needs no callback (its
    result does not change, or it has none), [gvotable_set_default] returns with
    the result lock still held: every later vote and every later read of the
    result blocks. *)
Theorem set_default_keeps_result_lock s cur d s1 :
  unlocked (s_el s) -> el_is_bool_type (s_el s) = false ->
  el_has_default_vote (s_el s) = 1 -> el_default_vote (s_el s) <> d ->
  gvotable_internal_run_election (default_changed cur d s) = Done false s1 ->
  exists s', gvotable_set_default cur d s = Done 0 s' /\ el_re_lock (s_el s') = true /\
    gvotable_get_current_vote s' = Blocked /\
    (forall hash kzalloc sizeof_ballot cur' reason vote enabled, reason <> "" -> vote <> 0 ->
     gvotable_cast_vote hash kzalloc sizeof_ballot cur' (Some reason) vote enabled s' = Blocked).
Proof.
  intros Hun Hb Hd Hne Hrun.
  pose proof (lockt_internal_run_election (true, true) (default_changed cur d s) eq_refl) as Hl.
  rewrite Hrun in Hl. unfold locks in Hl. injection Hl as Hcb Hre.
  unfold gvotable_set_default, kbind at 1, get_el. rewrite Hb.
  unfold kbind at 1. rewrite lock_election_free by done. rewrite Hd, (proj2 (Z.eqb_neq _ _) Hne).
  cbn -[gvotable_internal_run_election gvotable_cast_vote gvotable_get_current_vote].
  unfold kbind at 1. unfold kbind at 1. unfold kbind at 1.
  match goal with |- context [gvotable_internal_run_election ?x] =>
    change x with (default_changed cur d s) end.
  rewrite Hrun. eexists; split; [reflexivity|]. split_and!; [done| |].
  - destruct s1 as [[] ? ?]; simpl in *; by subst.
  - intros. apply cast_vote_blocked; done.
Qed.

(** The lock that should keep a second task out while a callback runs does
    not: the task that fails to take it proceeds without it, and only the task
    that already holds it is stopped. *)
Theorem callback_lock_does_not_exclude s t1 t2 :
  unlocked (s_el s) -> t1 <> t2 ->
  exists s1, (do! gvotable_lock_election t1 in gvotable_unlock_result) s = Done tt s1 /\
    el_cb_lock (s_el s1) = true /\ el_owner (s_el s1) = t1 /\
    (exists s2, (do! gvotable_lock_election t2 in gvotable_unlock_result) s1 = Done tt s2 /\
       el_owner (s_el s2) = t2) /\
    gvotable_lock_election t1 s1 = Blocked.
Proof.
  intros [Hc Hr] Hne. destruct s as [[] h log]; simpl in *; subst.
  eexists; split; [reflexivity|]. simpl. split_and!; [done..| |].
  - unfold kbind, gvotable_lock_election, get_el, mod_el, kmod; simpl.
    unfold kbind; simpl. rewrite (proj2 (Z.eqb_neq _ _) Hne). by eexists.
  - unfold gvotable_lock_election, kbind, get_el, mod_el, kmod; simpl.
    by rewrite Z.eqb_refl.
Qed.

(** ** Witnesses *)

(** A minimum election with a callback, a default of 100 and one enabled vote. *)
Definition demo_ballot : ballot := MkBallot 1 true 1 "A" 0 [40] 0 1.
Definition demo_election : gvotable_election :=
  (election_init (fun _ => 0) None 4 CmpIntMin (Some (fun _ _ => MkCb 0 None)) 0 40)
    <| el_reason := "A" |> <| el_result_is_valid := true |> <| el_default_vote := 100 |>
    <| el_has_default_vote := 1 |> <| el_votes := [demo_ballot] |> <| el_num_voters := 1 |>.
Definition demo_state : est := MkEst demo_election ∅ [].

(** A history in which the default changes with a callback. *)
Definition demo_calls : list (Z * op) := [(1, OpCastVote (Some "B") 30 true); (1, OpCastVote (Some "A") 0 false); (1, OpCastVote (Some "B") 0 false); (2, OpSetDefault 60)].
Lemma operations_release_locks_witness :
  unlocked (s_el demo_state) /\ exec_all (fun s => Z.of_nat (String.length s)) bump_alloc 80 (demo_calls) demo_state <> Blocked.
Proof.
  assert (Hun : unlocked (s_el demo_state)) by (split; vm_compute; reflexivity). split; [done|].
  destruct (operations_release_locks (fun s => Z.of_nat (String.length s)) bump_alloc 80 (demo_calls) demo_state Hun) as [[H _]|(os1 & cur & d & os2 & s1 & E & E1 & _ & _)]; [exact H|].
  intros Hb. vm_compute in Hb. discriminate.
Defined.

Lemma set_default_keeps_result_lock_witness :
  exists s', gvotable_set_default 7 200 demo_state = Done 0 s' /\ el_re_lock (s_el s') = true.
Proof.
  destruct (set_default_keeps_result_lock demo_state 7 200 (default_changed 7 200 demo_state))
    as (s' & E & H & _); [split; vm_compute; reflexivity|vm_compute; reflexivity..|vm_compute; congruence| |].
  { vm_compute. reflexivity. }
  exists s'. split; [exact E|exact H].
Defined.

Lemma callback_lock_does_not_exclude_witness :
  exists s1, (do! gvotable_lock_election 1 in gvotable_unlock_result) demo_state = Done tt s1 /\
    el_cb_lock (s_el s1) = true.
Proof.
  destruct (callback_lock_does_not_exclude demo_state 1 2) as (s1 & E & H & _);
    [split; vm_compute; reflexivity|done|].
  exists s1. split; [exact E|exact H].
Defined.

(** * Limits *)

Section Limits.
Context (hash : string -> Z) (kzalloc : heap -> Z -> option Z) (sizeof_ballot cur : Z).

(** A reason of [GVOTABLE_MAX_REASON_LEN] characters or more never finds its
    ballot: casting under it, even to disable it, adds a ballot and keeps every
    previous one as it was. *)
Theorem long_reason_accumulates s reason vote enabled :
  el_plain (s_el s) -> unlocked (s_el s) -> el_is_bool_type (s_el s) = false ->
  (GVOTABLE_MAX_REASON_LEN <= String.length reason)%nat ->
  is_Some (kzalloc (s_heap s) sizeof_ballot) ->
  wp (gvotable_cast_vote hash kzalloc sizeof_ballot cur (Some reason) vote enabled)
    (fun _ s' => exists b, el_votes (s_el s') ≡ₚ b :: el_votes (s_el s) /\
       ballot_vote b = vote /\ b_enabled b = enabled /\
       gvotable_ballot_find_internal hash (s_el s') reason = None) s.
Proof.
  intros Hwf Hun Hb Hlen [p Hp]. pose proof Hwf as [Hn Hr Ha Hok].
  assert (forall el, el_plain el -> gvotable_ballot_find_internal hash el reason = None) as Hf.
  { intros el Hel. apply list_find_None. eapply Forall_impl; [apply Hel|]. intros b Hb' [_ Hm].
    by rewrite strncmp0_long in Hm. }
  assert (reason <> "") as Hne by (intros ->; simpl in Hlen; unfold GVOTABLE_MAX_REASON_LEN in *; lia).
  unfold gvotable_cast_vote. apply wp_bind, wp_get_el.
  rewrite bool_decide_false, Ha by done. simpl. apply wp_bind.
  unfold wp at 1. rewrite lock_election_free by done. rewrite (Hf _ Hwf).
  apply wp_bind. unfold wp at 1, km_kzalloc. simpl. rewrite Hp. apply wp_bind, wp_mod_el.
  unfold cast_on_ballot. apply wp_bind, wp_get_el, wp_bind. simpl. rewrite Hb.
  unfold gvotable_update_ballot. simpl. rewrite Ha. simpl.
  apply wp_ret, wp_bind, wp_ret. simpl. apply wp_bind, wp_mod. simpl.
  match goal with |- context [gvotable_add_ballot ?h ?b ?e ?el] =>
    set (nb := b); pose proof (add_ballot_perm h nb e el) as Hperm;
    destruct (add_ballot_frame h nb e el) as (l & n & E) end.
  rewrite E in *. simpl in *.
  assert (String.length (b_reason nb) < GVOTABLE_MAX_REASON_LEN)%nat as Hnb.
  { apply strlcpy_length. unfold GVOTABLE_MAX_REASON_LEN. lia. }
  assert (Forall (fun b => String.length (b_reason b) < GVOTABLE_MAX_REASON_LEN)%nat l) as Hl.
  { rewrite Hperm. by constructor. }
  eapply wp_mono; [by eapply run_and_notify_value; split|].
  intros ? s' (r & res & v & log & -> & Hlr & _). exists nb. split_and!; [done..|].
  apply Hf. by split.
Qed.
End Limits.

(** Disabling a vote while changing its value can hide the true optimum: here
    5 is enabled and larger than 3, yet the maximum election answers 3. *)
Theorem disabled_vote_hides_maximum :
  let hash := fun s => Z.of_nat (String.length s) in
  let cast r v e := gvotable_cast_vote hash bump_alloc 80 1 (Some r) v e in
  let el := election_init hash None 4 CmpIntMax None 0 0 in
  exists s, (do! cast "A" 10 true in do! cast "BB" 5 true in do! cast "A" 0 false in
             cast "CCC" 3 true) (MkEst el ∅ []) = Done 0 s /\
    el_result (s_el s) = 3 /\ abs_votes (s_el s) !! "BB" = Some (5, true).
Proof. eexists. vm_compute. split; [reflexivity|]. split; reflexivity. Qed.

(** The comparator named [uint_max] elects the smallest vote and the one
    named [uint_min] the largest, where the signed pair does what it says. *)
Theorem unsigned_comparators_swapped :
  let run c :=
    let el := election_init (fun _ => 0) None 4 c None 0 0 in
    let cast r v := gvotable_cast_vote (fun _ => 0) bump_alloc 80 1 (Some r) v true in
    match (do! cast "A" 9 in do! cast "BB" 5 in kret tt) (MkEst el ∅ []) with
    | Done _ s => Some (el_result (s_el s))
    | _ => None
    end in
  run CmpUintMax = Some 5 /\ run CmpUintMin = Some 9 /\
  run CmpIntMax = Some 9 /\ run CmpIntMin = Some 5.
Proof. vm_compute. split_and!; reflexivity. Qed.

(** [gvotable_copy_current_result] treats the result of an election on values
    as an address: unless that value happens to be a live block, the copy is an
    invalid access. *)
Theorem copy_value_result_faults s vote :
  el_use_alloc (s_el s) = false -> el_result_is_valid (s_el s) = true ->
  el_force_result_is_enabled (s_el s) = false -> el_re_lock (s_el s) = false ->
  vote <> 0 -> s_heap s !! el_result (s_el s) = None ->
  gvotable_copy_current_result vote (el_vote_size (s_el s)) s = Fault.
Proof.
  intros Ha Hv Hf Hr Hvote Hh. unfold gvotable_copy_current_result, kbind at 1, get_el.
  rewrite (proj2 (Z.eqb_neq _ _) Hvote), Z.eqb_refl. simpl.
  unfold gvotable_get_current_result_unlocked. rewrite Hf, Hv. simpl.
  unfold kbind, gvotable_lock_result, kbind, get_el. rewrite Hr. simpl.
  unfold km_memcpy, heap_memcpy. simpl. by rewrite Hh.
Qed.

(** ** Witnesses *)

Definition long_reason : string := "A_VOTER_NAME_OF_THIRTY_TWO_CHARS".
Definition limits_election (result : Z) (valid : bool) : gvotable_election :=
  (election_init (fun _ => 0) None 4 CmpIntMin None 0 result) <| el_result_is_valid := valid |>.

Lemma long_reason_accumulates_witness :
  wp (gvotable_cast_vote (fun _ => 0) bump_alloc 80 1 (Some long_reason) 5 true)
    (fun _ s' => exists b, el_votes (s_el s') ≡ₚ [b] /\ ballot_vote b = 5 /\ b_enabled b = true /\
       gvotable_ballot_find_internal (fun _ => 0) (s_el s') long_reason = None)
    (MkEst (limits_election 0 false) ∅ []).
Proof.
  apply (long_reason_accumulates (fun _ => 0) bump_alloc 80 1
    (MkEst (limits_election 0 false) ∅ []) long_reason 5 true).
  - split; simpl; [done|unfold GVOTABLE_MAX_REASON_LEN; lia|done|constructor].
  - done.
  - done.
  - vm_compute. lia.
  - by eexists.
Defined.

Lemma copy_value_result_faults_witness :
  gvotable_copy_current_result 64 4 (MkEst (limits_election 500 true) {[64 := zeros 8]} []) = Fault.
Proof.
  apply (copy_value_result_faults (MkEst (limits_election 500 true) {[64 := zeros 8]} []) 64);
    reflexivity || (vm_compute; congruence).
Defined.
