(* ===== verification/SysmmuPt.v ===== *)
(** * SysMMU page tables ([drivers/iommu/samsung-iommu.c])

    A domain translates 32-bit device addresses through a first-level table of
    4096 entries (1 MB sections or second-level tables) and second-level tables
    of 256 entries (4 KB small pages, 64 KB large pages held in 16 entries).
    Tables are maps of words in which a zero word is an absent key; second-level
    tables are keyed by their physical address, so that an access to a table
    that is not allocated, or past its end, is a fault. *)

From S2P Require Import Prelude.

(** ** Constants and entry formats ([samsung-iommu.h]) *)

Definition SECT_ORDER : Z := 20.
Definition LPAGE_ORDER : Z := 16.
Definition SPAGE_ORDER : Z := 12.
Definition SECT_SIZE : Z := 2 ^ 20.
Definition LPAGE_SIZE : Z := 2 ^ 16.
Definition SPAGE_SIZE : Z := 2 ^ 12.
Definition SPAGES_PER_LPAGE : Z := LPAGE_SIZE / SPAGE_SIZE.
Definition NUM_LV1ENTRIES : Z := 4096.
Definition NUM_LV2ENTRIES : Z := SECT_SIZE / SPAGE_SIZE.
Definition PG_ENT_SHIFT : Z := 4.
Definition FLPD_SHAREABLE_FLAG : Z := BIT 6.
Definition SLPD_SHAREABLE_FLAG : Z := BIT 4.
Definition SECT_FLAG : Z := 2.
Definition SLPD_FLAG : Z := 1.
Definition LPAGE_FLAG : Z := 1.
Definition SPAGE_FLAG : Z := 2.
Definition IOMMU_CACHE : Z := BIT 2.
Definition IOMMU_PRIV : Z := BIT 5.

Definition lv1ent_offset (iova : Z) : Z := Z.shiftr iova SECT_ORDER.
Definition lv2ent_offset (iova : Z) : Z := Z.shiftr (Z.land iova (SECT_SIZE - 1)) SPAGE_ORDER.
Definition lv1ent_unmapped (sent : Z) : bool := Z.land sent 7 =? 0.
Definition lv1ent_page (sent : Z) : bool := Z.land sent 7 =? 1.
Definition lv1ent_section (sent : Z) : bool := Z.land sent 7 =? SECT_FLAG.
Definition lv2table_base (sent : Z) : Z := Z.shiftl (Z.land sent (u32 (Z.lnot 63))) PG_ENT_SHIFT.
Definition lv2ent_unmapped (pent : Z) : bool := Z.land pent 3 =? 0.
Definition lv2ent_small (pent : Z) : bool := Z.land pent 3 =? SPAGE_FLAG.
Definition lv2ent_large (pent : Z) : bool := Z.land pent 3 =? LPAGE_FLAG.

Definition PGBASE_TO_PHYS (pgent : Z) : Z := Z.shiftl pgent PG_ENT_SHIFT.
Definition ENT_MASK (size : Z) : Z := Z.lnot (Z.shiftr size PG_ENT_SHIFT - 1).
Definition section_phys (sent : Z) : Z := PGBASE_TO_PHYS (Z.land sent (ENT_MASK SECT_SIZE)).
Definition section_offs (iova : Z) : Z := Z.land iova (SECT_SIZE - 1).
Definition lpage_phys (pent : Z) : Z := PGBASE_TO_PHYS (Z.land pent (ENT_MASK LPAGE_SIZE)).
Definition lpage_offs (iova : Z) : Z := Z.land iova (LPAGE_SIZE - 1).
Definition spage_phys (pent : Z) : Z := PGBASE_TO_PHYS (Z.land pent (ENT_MASK SPAGE_SIZE)).
Definition spage_offs (iova : Z) : Z := Z.land iova (SPAGE_SIZE - 1).

Definition make_sysmmu_pte (paddr pgsize attr : Z) : Z :=
  Z.lor (Z.lor (u32 (Z.shiftr paddr PG_ENT_SHIFT)) pgsize) attr.

(** ** State *)

(** A table of words: absent means zero. *)
Definition wr (t : gmap Z Z) (i v : Z) : gmap Z Z := if v =? 0 then delete i t else <[i := v]> t.

(** The hardware-visible effects, in order: cache cleans of table entries, TLB
    invalidations (immediate and gathered), and releases of tables. *)
Inductive event :=
| EvFlushLv1 (idx count : Z)
| EvFlushLv2 (base idx count : Z)
| EvTlbSync (iova_start iova_end : Z)
| EvGather (iova size : Z)
| EvFreeTable (base : Z).

Record domain := MkDomain {
  d_page_table : gmap Z Z;
  d_lv2entcnt : gmap Z Z;
  d_slpt : gmap Z (gmap Z Z);
  d_log : list event
}.
#[export] Instance eta_domain : Eta domain := mk_eta (fun d =>
  MkDomain (d_page_table d) (d_lv2entcnt d) (d_slpt d) (d_log d)).

Definition emit (e : event) : M domain unit := kmod (fun d => d <| d_log := d_log d ++ [e] |>).

Definition get_sent (i : Z) : M domain Z := fun d => Done (rd (d_page_table d) i) d.
Definition set_sent (i v : Z) : M domain unit :=
  kmod (fun d => d <| d_page_table := wr (d_page_table d) i v |>).
Definition get_cnt (i : Z) : M domain Z := fun d => Done (rd (d_lv2entcnt d) i) d.
Definition set_cnt (i v : Z) : M domain unit :=
  kmod (fun d => d <| d_lv2entcnt := wr (d_lv2entcnt d) i v |>).

(** An entry of the second-level table at [base]. *)
Definition get_pent (base j : Z) : M domain Z := fun d =>
  match d_slpt d !! base with
  | Some t => if (0 <=? j) && (j <? NUM_LV2ENTRIES) then Done (rd t j) d else Fault
  | None => Fault
  end.
Definition set_pent (base j v : Z) : M domain unit := fun d =>
  match d_slpt d !! base with
  | Some t => if (0 <=? j) && (j <? NUM_LV2ENTRIES)
              then Done tt (d <| d_slpt := <[base := wr t j v]> (d_slpt d) |>) else Fault
  | None => Fault
  end.

(** [kmem_cache_free(slpt_cache, table)]. *)
Definition free_table (base : Z) : M domain unit := fun d =>
  match d_slpt d !! base with
  | Some _ => Done tt (d <| d_slpt := delete base (d_slpt d) |>
                         <| d_log := d_log d ++ [EvFreeTable base] |>)
  | None => Fault
  end.

(** [clear_page_table(pent, n)] on a second-level table. *)
Fixpoint clear_page_table (base j : Z) (n : nat) : M domain unit :=
  match n with
  | O => kret tt
  | S n => do! set_pent base j 0 in clear_page_table base (j + 1) n
  end.

(** The same on the first-level table. *)
Fixpoint clear_lv1_table (i : Z) (n : nat) : M domain unit :=
  match n with
  | O => kret tt
  | S n => do! set_sent i 0 in clear_lv1_table (i + 1) n
  end.

(** ** Operations *)

(** A domain with zeroed tables, flushed. *)
Definition new_domain : domain := MkDomain ∅ ∅ ∅ [EvFlushLv1 0 NUM_LV1ENTRIES].

Inductive domain_type := IOMMU_DOMAIN_UNMANAGED | IOMMU_DOMAIN_DMA | IOMMU_DOMAIN_IDENTITY | IOMMU_DOMAIN_OTHER.

(** The addresses are what the three allocations answer; besides the domain, the
    blocks an error path gives back. *)
Definition samsung_sysmmu_domain_alloc (type : domain_type) (domain_ page_table lv2entcnt : option Z) :
    option domain * list Z :=
  match type with
  | IOMMU_DOMAIN_OTHER => (None, [])
  | _ =>
      match domain_, page_table, lv2entcnt with
      | None, _, _ => (None, [])
      | Some p, None, _ => (None, [p])
      | Some p, Some t, None => (None, [t; p])
      | Some _, Some _, Some _ => (Some new_domain, [])
      end
  end.

(** The locked half: install the new table unless another task did. *)
Definition alloc_lv2entry_locked (i table : Z) : M domain unit :=
  let! sent := get_sent i in
  if lv1ent_unmapped sent then
    do! set_sent i (make_sysmmu_pte table SLPD_FLAG 0) in
    do! kmod (fun d => d <| d_slpt := <[table := ∅]> (d_slpt d) |>) in
    do! set_cnt i 0 in
    do! emit (EvFlushLv2 table 0 NUM_LV2ENTRIES) in
    emit (EvFlushLv1 i 1)
  else emit (EvFreeTable table).

(** [table] is what [kmem_cache_zalloc] answers: the physical address of a fresh
    zeroed table. The result is an error or the address of the entry. *)
Definition alloc_lv2entry (i iova : Z) (table : option Z) : M domain (Z + Z * Z) :=
  let! sent := get_sent i in
  if lv1ent_section sent then kret (inl (- EADDRINUSE))
  else if negb (lv1ent_page sent || (sent =? 0)) then kfault
  else
    let! ok := (if lv1ent_unmapped sent then
                  match table with
                  | None => kret false
                  | Some table => do! alloc_lv2entry_locked i table in kret true
                  end
                else kret true) in
    if ok : bool then
      let! sent := get_sent i in
      kret (inr (lv2table_base sent, lv2ent_offset iova))
    else kret (inl (- ENOMEM)).

Definition lv1set_section (i iova paddr prot : Z) : M domain Z :=
  let attr := if Z.land prot IOMMU_CACHE =? 0 then 0 else FLPD_SHAREABLE_FLAG in
  let! sent := get_sent i in
  if lv1ent_section sent then kret (- EADDRINUSE)
  else
    let! cnt := get_cnt i in
    if lv1ent_page sent && negb (cnt =? 0) then kret (- EADDRINUSE)
    else
      do! (if lv1ent_page sent then set_cnt i NUM_LV2ENTRIES else kret tt) in
      do! set_sent i (make_sysmmu_pte paddr SECT_FLAG attr) in
      do! emit (EvFlushLv1 i 1) in
      do! (if lv1ent_page sent then
             do! emit (EvTlbSync iova (iova + SECT_SIZE - 1)) in
             free_table (lv2table_base sent)
           else kret tt) in
      kret 0.

(** The large-page loop: [n] entries still to write, [i] already written. *)
Fixpoint set_lpage (base j pte : Z) (i : Z) (n : nat) : M domain Z :=
  match n with
  | O => kret 0
  | S n =>
      let! pent := get_pent base (j + i) in
      if negb (lv2ent_unmapped pent) then
        do! clear_page_table base j (Z.to_nat i) in kret (- EADDRINUSE)
      else
        do! set_pent base (j + i) pte in
        set_lpage base j pte (i + 1) n
  end.

(** [i] indexes the counter of the table. *)
Definition lv2set_page (base j paddr size prot i : Z) : M domain Z :=
  let attr := if Z.land prot IOMMU_CACHE =? 0 then 0 else SLPD_SHAREABLE_FLAG in
  if size =? SPAGE_SIZE then
    let! pent := get_pent base j in
    if negb (lv2ent_unmapped pent) then kret (- EADDRINUSE)
    else
      do! set_pent base j (make_sysmmu_pte paddr SPAGE_FLAG attr) in
      let! cnt := get_cnt i in
      do! set_cnt i (s32 (cnt + 1)) in
      kret 0
  else
    let! r := set_lpage base j (make_sysmmu_pte paddr LPAGE_FLAG attr) 0
                (Z.to_nat SPAGES_PER_LPAGE) in
    if r =? 0 then
      let! cnt := get_cnt i in
      do! set_cnt i (s32 (cnt + SPAGES_PER_LPAGE)) in
      kret 0
    else kret r.

Definition samsung_sysmmu_map (l_iova paddr size prot : Z) (table : option Z) : M domain Z :=
  let iova := u32 l_iova in
  let i := lv1ent_offset iova in
  let prot := if Z.land prot IOMMU_PRIV =? 0 then prot else Z.ldiff prot IOMMU_CACHE in
  if size =? SECT_SIZE then lv1set_section i iova paddr prot
  else
    let! pent := alloc_lv2entry i iova table in
    match pent with
    | inl err => kret err
    | inr (base, j) => lv2set_page base j paddr size prot i
    end.

(** The size unmapped, [0] on error. *)
Definition samsung_sysmmu_unmap (l_iova size : Z) : M domain Z :=
  let iova := u32 l_iova in
  let i := lv1ent_offset iova in
  let done (size : Z) : M domain Z := do! emit (EvGather iova size) in kret size in
  let! sent := get_sent i in
  if lv1ent_section sent then
    if size <? SECT_SIZE then kret 0
    else
      do! set_sent i 0 in
      do! emit (EvFlushLv1 i 1) in
      done SECT_SIZE
  else if lv1ent_unmapped sent then done (if size >? SECT_SIZE then SECT_SIZE else size)
  else
    let base := lv2table_base sent in
    let j := lv2ent_offset iova in
    let! pent := get_pent base j in
    if lv2ent_unmapped pent then done SPAGE_SIZE
    else if lv2ent_small pent then
      do! set_pent base j 0 in
      do! emit (EvFlushLv2 base j 1) in
      let! cnt := get_cnt i in
      do! set_cnt i (s32 (cnt - 1)) in
      done SPAGE_SIZE
    else if size <? LPAGE_SIZE then kret 0
    else
      do! clear_page_table base j (Z.to_nat SPAGES_PER_LPAGE) in
      do! emit (EvFlushLv2 base j SPAGES_PER_LPAGE) in
      let! cnt := get_cnt i in
      do! set_cnt i (s32 (cnt - SPAGES_PER_LPAGE)) in
      done LPAGE_SIZE.

(** [clear_and_flush_pgtable] on second-level entries, with their counter. *)
Definition clear_and_flush_lv2 (base j count i : Z) : M domain unit :=
  do! clear_page_table base j (Z.to_nat count) in
  do! emit (EvFlushLv2 base j count) in
  let! cnt := get_cnt i in
  set_cnt i (s32 (cnt - count)).

(** The same on first-level entries, which have no counter. *)
Definition clear_and_flush_lv1 (i count : Z) : M domain unit :=
  do! clear_lv1_table i (Z.to_nat count) in
  emit (EvFlushLv1 i count).

(** [i] is the index of [sent]; [fuel] bounds the sections of the range. *)
Fixpoint unmap_slpt_loop (fuel : nat) (i iova iend : Z) : M domain unit :=
  match fuel with
  | O => kfault
  | S fuel =>
      if iova <? iend then
        let section_end := Z.ldiff (iova + SECT_SIZE) (SECT_SIZE - 1) in
        let section_end := if iend <? section_end then iend else section_end in
        let! sent := get_sent i in
        do! (if lv1ent_page sent
             then clear_and_flush_lv2 (lv2table_base sent) (lv2ent_offset (u32 iova))
                    (Z.shiftr (section_end - iova) SPAGE_ORDER) (lv1ent_offset iova)
             else kret tt) in
        unmap_slpt_loop fuel (i + 1) section_end iend
      else kret tt
  end.

Definition unmap_slpt (iova size : Z) : M domain unit :=
  unmap_slpt_loop (Z.to_nat (size / SECT_SIZE + 3)) (lv1ent_offset (u32 iova)) iova (iova + size).

(** The section loop of [samsung_sysmmu_unmap_pages]: [n] sections left, a run of
    [flush_count] entries from [flush_start] still to clear. *)
Fixpoint unmap_sections (n : nat) (i iova flush_start flush_count : Z) : M domain unit :=
  match n with
  | O => if flush_count =? 0 then kret tt else clear_and_flush_lv1 flush_start flush_count
  | S n =>
      let! sent := get_sent i in
      if lv1ent_page sent then
        do! (if flush_count =? 0 then kret tt else clear_and_flush_lv1 flush_start flush_count) in
        do! unmap_slpt iova SECT_SIZE in
        unmap_sections n (i + 1) (iova + SECT_SIZE) (i + 1) 0
      else unmap_sections n (i + 1) (iova + SECT_SIZE) flush_start (flush_count + 1)
  end.

Definition samsung_sysmmu_unmap_pages (iova_org pgsize pgcount : Z) : M domain Z :=
  let size := u64 (pgsize * pgcount) in
  do! (if pgsize =? SECT_SIZE
       then let i := lv1ent_offset (u32 iova_org) in
            unmap_sections (Z.to_nat pgcount) i iova_org i 0
       else unmap_slpt iova_org size) in
  do! emit (EvGather iova_org size) in
  kret size.

(** The entries written since the last synchronisation reach memory: the range
    is flushed section by section. *)
Fixpoint sync_map_loop (fuel : nat) (i iova iend : Z) : M domain unit :=
  match fuel with
  | O => kfault
  | S fuel =>
      if iova <? iend then
        let section_end := Z.ldiff (iova + SECT_SIZE) (SECT_SIZE - 1) in
        let section_end := if iend <? section_end then iend else section_end in
        let! sent := get_sent i in
        do! (if lv1ent_section sent then kret tt
             else emit (EvFlushLv2 (lv2table_base sent) (lv2ent_offset (u32 iova))
                          (Z.shiftr (section_end - iova) SPAGE_ORDER))) in
        sync_map_loop fuel (i + 1) section_end iend
      else kret tt
  end.

Definition samsung_sysmmu_iotlb_sync_map (iova size : Z) : M domain unit :=
  sync_map_loop (Z.to_nat (size / SECT_SIZE + 3)) (lv1ent_offset (u32 iova)) iova (iova + size).

Definition samsung_sysmmu_iova_to_phys (d_iova : Z) : M domain Z :=
  let iova := u32 d_iova in
  let! entry := get_sent (lv1ent_offset iova) in
  if lv1ent_section entry then kret (section_phys entry + section_offs iova)
  else if lv1ent_page entry then
    let! pent := get_pent (lv2table_base entry) (lv2ent_offset iova) in
    kret (if lv2ent_large pent then lpage_phys pent + lpage_offs iova
          else if lv2ent_small pent then spage_phys pent + spage_offs iova
          else 0)
  else kret 0.

(** [samsung_sysmmu_domain_free], from entry [i] on. *)
Fixpoint domain_free_loop (n : nat) (i : Z) : M domain unit :=
  match n with
  | O => kret tt
  | S n =>
      let! sent := get_sent i in
      do! (if lv1ent_page sent then free_table (lv2table_base sent) else kret tt) in
      domain_free_loop n (i + 1)
  end.
Definition samsung_sysmmu_domain_free : M domain unit :=
  domain_free_loop (Z.to_nat NUM_LV1ENTRIES) 0.
