(* ===== verification/SysmmuFacts.v ===== *)
(** * Correctness of the SysMMU page tables

    The abstract view of a domain is the translation its tables give each device
    address; mapping and unmapping change it exactly on the page concerned. *)

From S2P Require Import Prelude SysmmuPt.

(** ** Entries as arithmetic *)

Lemma lv1ent_offset_div a : lv1ent_offset a = a / 2 ^ 20.
Proof. unfold lv1ent_offset. by rewrite Z.shiftr_div_pow2. Qed.

Lemma lv2ent_offset_div a : lv2ent_offset a = a mod 2 ^ 20 / 2 ^ 12.
Proof. unfold lv2ent_offset, SECT_SIZE. by rewrite land_low, Z.shiftr_div_pow2. Qed.

Lemma lv1flags e : Z.land e 7 = e mod 8.
Proof. exact (land_low e 3 ltac:(lia)). Qed.

Lemma lv2flags e : Z.land e 3 = e mod 4.
Proof. exact (land_low e 2 ltac:(lia)). Qed.

Lemma ent_phys e n : 4 <= n -> PGBASE_TO_PHYS (Z.land e (ENT_MASK (2 ^ n))) = e / 2 ^ (n - 4) * 2 ^ n.
Proof.
  intros Hn. unfold PGBASE_TO_PHYS, ENT_MASK, PG_ENT_SHIFT.
  rewrite Z.shiftr_div_pow2 by lia.
  replace (2 ^ n / 2 ^ 4) with (2 ^ (n - 4)) by (by rewrite Z.pow_sub_r by lia).
  rewrite land_high, Z.shiftl_mul_pow2 by lia. rewrite <- Z.mul_assoc. f_equal.
  rewrite <- Z.pow_add_r by lia. f_equal; lia.
Qed.

Lemma table_base_arith e : 0 <= e < 2 ^ 32 -> lv2table_base e = e / 2 ^ 6 * 2 ^ 10.
Proof.
  intros He. unfold lv2table_base, PG_ENT_SHIFT. rewrite Z.shiftl_mul_pow2 by lia.
  replace (Z.land e (u32 (Z.lnot 63))) with (e / 2 ^ 6 * 2 ^ 6); [lia|].
  rewrite <- (land_high e 6) by lia. change (2 ^ 6 - 1) with 63.
  unfold u32. rewrite <- (Z.land_ones _ 32) by lia.
  rewrite (Z.land_comm (Z.lnot 63)), Z.land_assoc. f_equal.
  rewrite Z.land_ones by lia. by rewrite Z.mod_small.
Qed.

(** An entry that holds a [2^n]-aligned address and flags below its alignment. *)
Lemma make_pte_arith paddr n pgsize attr f :
  4 <= n -> 0 <= paddr < 2 ^ 36 -> paddr mod 2 ^ n = 0 ->
  Z.lor pgsize attr = f -> 0 <= f < 2 ^ (n - 4) ->
  make_sysmmu_pte paddr pgsize attr = paddr / 16 + f.
Proof.
  intros Hn Hp Ha <- Hf. unfold make_sysmmu_pte, PG_ENT_SHIFT.
  rewrite Z.shiftr_div_pow2 by lia. change (2 ^ 4) with 16.
  rewrite u32_small by dlia. rewrite <- Z.lor_assoc.
  apply (lor_low _ _ (n - 4)); [lia| |done].
  apply Z.div_exact in Ha; [|lia]. rewrite Ha.
  replace (2 ^ n) with (2 ^ (n - 4) * 16).
  - rewrite <- Z.mul_assoc, (Z.mul_comm 16), Z.mul_assoc, Z.div_mul by lia.
    rewrite Z.mul_comm. apply Z.mod_mul. lia.
  - change 16 with (2 ^ 4) at 1. rewrite <- Z.pow_add_r by lia. f_equal; lia.
Qed.

(** ** Tables as finite maps *)

Fixpoint fill (t : gmap Z Z) (j : Z) (n : nat) (v : Z) : gmap Z Z :=
  match n with O => t | S n => fill (<[j := v]> t) (j + 1) n v end.
Fixpoint clear (t : gmap Z Z) (j : Z) (n : nat) : gmap Z Z :=
  match n with O => t | S n => clear (delete j t) (j + 1) n end.

Lemma fill_lookup t j n v k :
  fill t j n v !! k = if decide (j <= k < j + Z.of_nat n) then Some v else t !! k.
Proof.
  revert t j; induction n as [|n IH]; intros t j; simpl; [by rewrite decide_False by lia|].
  rewrite IH. destruct (decide (j = k)) as [->|Hne].
  - rewrite lookup_insert_eq. repeat case_decide; done || lia.
  - rewrite lookup_insert_ne by done. repeat case_decide; done || lia.
Qed.

Lemma clear_lookup t j n k :
  clear t j n !! k = if decide (j <= k < j + Z.of_nat n) then None else t !! k.
Proof.
  revert t j; induction n as [|n IH]; intros t j; simpl; [by rewrite decide_False by lia|].
  rewrite IH. destruct (decide (j = k)) as [->|Hne].
  - rewrite lookup_delete_eq. repeat case_decide; done || lia.
  - rewrite lookup_delete_ne by done. repeat case_decide; done || lia.
Qed.

Lemma fill_size t j n v :
  (forall k, j <= k < j + Z.of_nat n -> t !! k = None) -> size (fill t j n v) = (size t + n)%nat.
Proof.
  revert t j; induction n as [|n IH]; intros t j H; simpl; [lia|].
  rewrite IH.
  - rewrite map_size_insert_None by (apply H; lia). lia.
  - intros k Hk. rewrite lookup_insert_ne by lia. apply H. lia.
Qed.

Lemma clear_size t j n :
  (forall k, j <= k < j + Z.of_nat n -> is_Some (t !! k)) ->
  (size (clear t j n) + n = size t)%nat.
Proof.
  revert t j; induction n as [|n IH]; intros t j H; simpl; [lia|].
  specialize (IH (delete j t) (j + 1)). rewrite <- Nat.add_succ_comm, Nat.add_succ_l, IH.
  - destruct (H j) as [v Hv]; [lia|]. rewrite map_size_delete_Some by eauto.
    assert (size t <> 0)%nat; [|lia]. intros E%map_size_empty_inv. by rewrite E in Hv.
  - intros k Hk. rewrite lookup_delete_ne by lia. apply H. lia.
Qed.

(** ** The kinds of entries *)

Definition sect_ent (e pa : Z) : Prop :=
  0 <= pa < 2 ^ 36 /\ pa mod 2 ^ 20 = 0 /\ (e = pa / 16 + 2 \/ e = pa / 16 + 66).
Definition table_ent (e base : Z) : Prop :=
  0 <= base < 2 ^ 36 /\ base mod 2 ^ 10 = 0 /\ e = base / 16 + 1.
Definition small_ent (e pa : Z) : Prop :=
  0 <= pa < 2 ^ 36 /\ pa mod 2 ^ 12 = 0 /\ (e = pa / 16 + 2 \/ e = pa / 16 + 18).
Definition large_ent (e pa : Z) : Prop :=
  0 <= pa < 2 ^ 36 /\ pa mod 2 ^ 16 = 0 /\ (e = pa / 16 + 1 \/ e = pa / 16 + 17).

Ltac solve_ent :=
  unfold sect_ent, table_ent, small_ent, large_ent in *;
  unfold lv1ent_section, lv1ent_page, lv1ent_unmapped, lv2ent_unmapped, lv2ent_small,
    lv2ent_large, SECT_FLAG, SPAGE_FLAG, LPAGE_FLAG;
  rewrite ?lv1flags, ?lv2flags;
  first [apply Z.eqb_eq | apply Z.eqb_neq | idtac]; dlia.

Lemma zero_ent : lv1ent_section 0 = false /\ lv1ent_page 0 = false /\ lv1ent_unmapped 0 = true /\
  lv2ent_unmapped 0 = true /\ lv2ent_small 0 = false /\ lv2ent_large 0 = false.
Proof. done. Qed.

Lemma sect_ent_flags e pa : sect_ent e pa ->
  lv1ent_section e = true /\ lv1ent_page e = false /\ lv1ent_unmapped e = false /\
  section_phys e = pa /\ 0 < e < 2 ^ 32.
Proof.
  intros H. split_and!; try solve_ent. unfold section_phys, SECT_SIZE. rewrite ent_phys by lia.
  change (20 - 4) with 16. solve_ent.
Qed.

Lemma table_ent_flags e base : table_ent e base ->
  lv1ent_section e = false /\ lv1ent_page e = true /\ lv1ent_unmapped e = false /\
  lv2table_base e = base /\ 0 < e < 2 ^ 32.
Proof.
  intros H. split_and!; try solve_ent. rewrite table_base_arith; [|solve_ent].
  change (2 ^ 10) with 1024. change (2 ^ 6) with 64. solve_ent.
Qed.

Lemma small_ent_flags e pa : small_ent e pa ->
  lv2ent_small e = true /\ lv2ent_large e = false /\ lv2ent_unmapped e = false /\
  spage_phys e = pa /\ 0 < e < 2 ^ 32.
Proof.
  intros H. split_and!; try solve_ent. unfold spage_phys, SPAGE_SIZE. rewrite ent_phys by lia.
  change (12 - 4) with 8. solve_ent.
Qed.

Lemma large_ent_flags e pa : large_ent e pa ->
  lv2ent_small e = false /\ lv2ent_large e = true /\ lv2ent_unmapped e = false /\
  lpage_phys e = pa /\ 0 < e < 2 ^ 32.
Proof.
  intros H. split_and!; try solve_ent. unfold lpage_phys, LPAGE_SIZE. rewrite ent_phys by lia.
  change (16 - 4) with 12. solve_ent.
Qed.

Lemma table_ent_inj e b b' : table_ent e b -> table_ent e b' -> b = b'.
Proof.
  intros (_ & _ & _ & <- & _)%table_ent_flags (_ & _ & _ & <- & _)%table_ent_flags. done.
Qed.

(** What the driver writes. *)
Lemma make_sect_ent pa attr :
  0 <= pa < 2 ^ 36 -> pa mod 2 ^ 20 = 0 -> attr = 0 \/ attr = FLPD_SHAREABLE_FLAG ->
  sect_ent (make_sysmmu_pte pa SECT_FLAG attr) pa.
Proof.
  intros Hr Ha Hf. split_and!; [lia..|done|].
  destruct Hf as [-> | ->]; [left|right]; (eapply (make_pte_arith _ 20); [lia|done..|lia]).
Qed.

Lemma make_table_ent base :
  0 <= base < 2 ^ 36 -> base mod 2 ^ 10 = 0 -> table_ent (make_sysmmu_pte base SLPD_FLAG 0) base.
Proof.
  intros Hr Ha. split_and!; [lia..|done|]. eapply (make_pte_arith _ 10); [lia|done..|lia].
Qed.

Lemma make_small_ent pa attr :
  0 <= pa < 2 ^ 36 -> pa mod 2 ^ 12 = 0 -> attr = 0 \/ attr = SLPD_SHAREABLE_FLAG ->
  small_ent (make_sysmmu_pte pa SPAGE_FLAG attr) pa.
Proof.
  intros Hr Ha Hf. split_and!; [lia..|done|].
  destruct Hf as [-> | ->]; [left|right]; (eapply (make_pte_arith _ 12); [lia|done..|lia]).
Qed.

Lemma make_large_ent pa attr :
  0 <= pa < 2 ^ 36 -> pa mod 2 ^ 16 = 0 -> attr = 0 \/ attr = SLPD_SHAREABLE_FLAG ->
  large_ent (make_sysmmu_pte pa LPAGE_FLAG attr) pa.
Proof.
  intros Hr Ha Hf. split_and!; [lia..|done|].
  destruct Hf as [-> | ->]; [left|right]; (eapply (make_pte_arith _ 16); [lia|done..|lia]).
Qed.

(** ** The translation a domain gives *)

Definition walk2 (t : gmap Z Z) (a : Z) : option Z :=
  let e := rd t (lv2ent_offset a) in
  if lv2ent_large e then Some (lpage_phys e + lpage_offs a)
  else if lv2ent_small e then Some (spage_phys e + spage_offs a)
  else None.

Definition walk (d : domain) (a : Z) : option Z :=
  let e := rd (d_page_table d) (lv1ent_offset a) in
  if lv1ent_section e then Some (section_phys e + section_offs a)
  else if lv1ent_page e then
    match d_slpt d !! lv2table_base e with Some t => walk2 t a | None => None end
  else None.

(** ** Well-formed tables *)

(** The entries of a large page: the 16 slots around [j] hold it. *)
Definition lpage_group (j k : Z) : Prop := j / 16 = k / 16.

Record table_ok (t : gmap Z Z) : Prop := {
  tk_range : forall j e, t !! j = Some e -> 0 <= j < 256;
  tk_ent : forall j e, t !! j = Some e ->
    (exists pa, small_ent e pa) \/
    (exists pa, large_ent e pa /\ forall k, lpage_group j k -> t !! k = Some e)
}.

(** The entry [i] of the first level. *)
Inductive sent_ok (d : domain) (i : Z) : Prop :=
| SentZero : d_page_table d !! i = None -> sent_ok d i
| SentSection e pa : d_page_table d !! i = Some e -> sect_ent e pa -> sent_ok d i
| SentTable e base t : d_page_table d !! i = Some e -> table_ent e base ->
    d_slpt d !! base = Some t -> table_ok t -> rd (d_lv2entcnt d) i = Z.of_nat (size t) ->
    sent_ok d i.

Record wf (d : domain) : Prop := {
  wf_sent : forall i, sent_ok d i;
  wf_range : forall i, is_Some (d_page_table d !! i) -> 0 <= i < NUM_LV1ENTRIES;
  wf_inj : forall i j e e' base, d_page_table d !! i = Some e -> d_page_table d !! j = Some e' ->
    table_ent e base -> table_ent e' base -> i = j;
  wf_used : forall base, is_Some (d_slpt d !! base) ->
    exists i e, d_page_table d !! i = Some e /\ table_ent e base
}.

Lemma rd_Some t i e : t !! i = Some e -> rd t i = e.
Proof. unfold rd. by intros ->. Qed.
Lemma rd_None t i : t !! i = None -> rd t i = 0.
Proof. unfold rd. by intros ->. Qed.

Lemma rd_wr t i v : rd (wr t i v) i = v.
Proof.
  unfold rd, wr. destruct (Z.eqb_spec v 0) as [->|]; [by rewrite lookup_delete_eq|].
  by rewrite lookup_insert_eq.
Qed.
Lemma rd_wr_ne t i j v : i <> j -> rd (wr t i v) j = rd t j.
Proof.
  intros. unfold rd, wr. case_match; [by rewrite lookup_delete_ne|by rewrite lookup_insert_ne].
Qed.
Lemma wr_nonzero t i v : v <> 0 -> wr t i v = <[i := v]> t.
Proof. intros. unfold wr. by rewrite (proj2 (Z.eqb_neq _ _)). Qed.

(** A word of an allocated table, unmapped exactly when absent. *)
Lemma table_ok_unmapped t j : table_ok t -> lv2ent_unmapped (rd t j) = true <-> t !! j = None.
Proof.
  intros Ht. unfold rd. destruct (t !! j) as [e|] eqn:E; simpl; [|done]. split; [|done].
  destruct (tk_ent _ Ht _ _ E) as [[pa H]|(pa & H & _)];
    [apply small_ent_flags in H as (_ & _ & -> & _)|apply large_ent_flags in H as (_ & _ & -> & _)];
    done.
Qed.

Lemma walk2_None t a : table_ok t -> walk2 t a = None <-> t !! lv2ent_offset a = None.
Proof.
  intros Ht. unfold walk2, rd. destruct (t !! lv2ent_offset a) as [e|] eqn:E; simpl; [|done].
  destruct (tk_ent _ Ht _ _ E) as [[pa H]|(pa & H & _)];
    [apply small_ent_flags in H as (-> & -> & _)|apply large_ent_flags in H as (-> & -> & _)]; done.
Qed.

Lemma iova_to_phys_walk d a :
  wf d -> 0 <= a < 2 ^ 32 ->
  samsung_sysmmu_iova_to_phys a d = Done (default 0 (walk d a)) d.
Proof.
  intros Hwf Ha. unfold samsung_sysmmu_iova_to_phys, walk, kbind, get_sent.
  rewrite u32_small by done.
  destruct (wf_sent _ Hwf (lv1ent_offset a)) as [E|e pa E H|e base t E H Hs Ht _].
  - rewrite (rd_None _ _ E). done.
  - rewrite (rd_Some _ _ _ E). by destruct (sect_ent_flags _ _ H) as (-> & _).
  - rewrite (rd_Some _ _ _ E). destruct (table_ent_flags _ _ H) as (-> & -> & _ & -> & _).
    unfold get_pent. rewrite Hs.
    rewrite (proj2 (Z.leb_le _ _)), (proj2 (Z.ltb_lt _ _)); simpl.
    + unfold walk2. repeat case_match; done.
    + rewrite lv2ent_offset_div. change NUM_LV2ENTRIES with 256. dlia.
    + rewrite lv2ent_offset_div. dlia.
Qed.

(** ** Changing one first-level slot *)

(** [d'] differs from [d] only at slot [i] and in the table that slot uses. *)
Definition agree_off (i : Z) (d d' : domain) : Prop :=
  (forall k, k <> i -> d_page_table d' !! k = d_page_table d !! k /\
     rd (d_lv2entcnt d') k = rd (d_lv2entcnt d) k) /\
  (forall k e base, k <> i -> d_page_table d !! k = Some e -> table_ent e base ->
     d_slpt d' !! base = d_slpt d !! base).

Lemma sent_ok_off i d d' k : wf d -> agree_off i d d' -> k <> i -> sent_ok d' k.
Proof.
  intros Hwf [H1 H2] Hk. destruct (H1 k Hk) as [Hp Hc].
  destruct (wf_sent _ Hwf k) as [E|e pa E H|e base t E H Hs Ht Hn].
  - apply SentZero. congruence.
  - apply (SentSection _ _ e pa); [congruence|done].
  - eapply SentTable; [by rewrite Hp|done|by rewrite (H2 k e base)|done|congruence].
Qed.

Lemma walk_off i d d' a : wf d -> agree_off i d d' -> lv1ent_offset a <> i -> walk d' a = walk d a.
Proof.
  intros Hwf [H1 H2] Hk. destruct (H1 _ Hk) as [Hp _]. unfold walk.
  destruct (wf_sent _ Hwf (lv1ent_offset a)) as [E|e pa E H|e base t E H Hs Ht Hn].
  - rewrite !rd_None by congruence. done.
  - rewrite !(rd_Some _ _ e) by congruence. by destruct (sect_ent_flags _ _ H) as (-> & _).
  - rewrite !(rd_Some _ _ e) by congruence.
    destruct (table_ent_flags _ _ H) as (-> & -> & _ & -> & _). by rewrite (H2 (lv1ent_offset a) e base).
Qed.

Lemma wf_intro_off i d d' :
  wf d -> agree_off i d d' -> sent_ok d' i ->
  (is_Some (d_page_table d' !! i) -> 0 <= i < NUM_LV1ENTRIES) ->
  (forall k e e' base, k <> i -> d_page_table d !! k = Some e -> d_page_table d' !! i = Some e' ->
     table_ent e base -> table_ent e' base -> False) ->
  (forall base, is_Some (d_slpt d' !! base) ->
     (exists k e, k <> i /\ d_page_table d !! k = Some e /\ table_ent e base) \/
     (exists e, d_page_table d' !! i = Some e /\ table_ent e base)) ->
  wf d'.
Proof.
  intros Hwf Hag Hi Hr Hinj Hused. pose proof Hag as [H1 H2]. split.
  - intros k. destruct (decide (k = i)) as [->|Hk]; [done|]. by eapply sent_ok_off.
  - intros k Hk. destruct (decide (k = i)) as [->|Hne]; [by apply Hr|].
    apply (wf_range _ Hwf). by rewrite <- (proj1 (H1 k Hne)).
  - intros k l e e' base Ek El Hk Hl.
    destruct (decide (k = i)) as [->|Hki], (decide (l = i)) as [->|Hli]; [done|..].
    + rewrite (proj1 (H1 l Hli)) in El. by destruct (Hinj l e' e base).
    + rewrite (proj1 (H1 k Hki)) in Ek. by destruct (Hinj k e e' base).
    + rewrite (proj1 (H1 k Hki)) in Ek. rewrite (proj1 (H1 l Hli)) in El. by eapply (wf_inj _ Hwf).
  - intros base Hb. destruct (Hused base Hb) as [(k & e & Hk & E & H)|(e & E & H)].
    + exists k, e. by rewrite (proj1 (H1 k Hk)).
    + by exists i, e.
Qed.

Lemma walk_table d i e base t a :
  d_page_table d !! i = Some e -> table_ent e base -> d_slpt d !! base = Some t ->
  lv1ent_offset a = i -> walk d a = walk2 t a.
Proof.
  intros E H Hs <-. unfold walk. rewrite (rd_Some _ _ _ E).
  destruct (table_ent_flags _ _ H) as (-> & -> & _ & -> & _). by rewrite Hs.
Qed.

(** Slot [i] holds table [base] before and after; its contents become [t']. *)
Lemma table_update d d' i e base t' :
  wf d -> d_page_table d !! i = Some e -> table_ent e base -> table_ok t' ->
  d_page_table d' = d_page_table d -> d_slpt d' = <[base := t']> (d_slpt d) ->
  d_lv2entcnt d' = wr (d_lv2entcnt d) i (Z.of_nat (size t')) ->
  wf d' /\ (forall a, walk d' a = if decide (lv1ent_offset a = i) then walk2 t' a else walk d a).
Proof.
  intros Hwf E H Ht' Hp Hs Hc.
  assert (agree_off i d d') as Hag.
  { split.
    - intros k Hk. by rewrite Hp, Hc, rd_wr_ne.
    - intros k e' b Hk E' H'. rewrite Hs. apply lookup_insert_ne. intros ->.
      apply Hk. by eapply (wf_inj _ Hwf k i). }
  assert (d_slpt d' !! base = Some t') as Hb by (by rewrite Hs, lookup_insert_eq).
  split.
  - apply (wf_intro_off i d); [done..| | | |].
    + eapply SentTable; [by rewrite Hp|done|done|done|]. by rewrite Hc, rd_wr.
    + rewrite Hp. apply (wf_range _ Hwf).
    + intros k e1 e2 b Hk E1 E2 H1 H2. rewrite Hp in E2. apply Hk. by eapply (wf_inj _ Hwf k i).
    + intros b Hsome. destruct (decide (b = base)) as [->|Hne]; [right; exists e; by rewrite Hp|].
      rewrite Hs, lookup_insert_ne in Hsome by done.
      destruct (wf_used _ Hwf b Hsome) as (k & ek & Ek & Hk).
      destruct (decide (k = i)) as [->|]; [|left; by exists k, ek].
      simplify_eq. exfalso. apply Hne. by eapply table_ent_inj.
  - intros a. case_decide as Ha; [|by eapply walk_off]. eapply walk_table; [by rewrite Hp|done..].
Qed.

(** Slot [i] receives a section; a table it held goes away. *)
Lemma section_update d d' i e pa :
  wf d -> 0 <= i < NUM_LV1ENTRIES -> sect_ent e pa ->
  d_page_table d' = <[i := e]> (d_page_table d) ->
  (forall k, k <> i -> rd (d_lv2entcnt d') k = rd (d_lv2entcnt d) k) ->
  (d_page_table d !! i = None /\ d_slpt d' = d_slpt d \/
   exists e0 base, d_page_table d !! i = Some e0 /\ table_ent e0 base /\
     d_slpt d' = delete base (d_slpt d)) ->
  wf d' /\ (forall a, walk d' a = if decide (lv1ent_offset a = i)
     then Some (pa + section_offs a) else walk d a).
Proof.
  intros Hwf Hi H Hp Hc Hold.
  assert (agree_off i d d') as Hag.
  { split.
    - intros k Hk. rewrite Hp, lookup_insert_ne by done. by split; [|apply Hc].
    - intros k e' b Hk E' H'. destruct Hold as [[_ ->]|(e0 & base & E0 & H0 & ->)]; [done|].
      apply lookup_delete_ne. intros ->. apply Hk. by eapply (wf_inj _ Hwf k i). }
  assert (d_page_table d' !! i = Some e) as Ei by (by rewrite Hp, lookup_insert_eq).
  destruct (sect_ent_flags _ _ H) as (Hsec & Hpg & _ & Hphys & _). split.
  - apply (wf_intro_off i d); [done..| | | |].
    + by eapply SentSection.
    + by intros _.
    + intros k e1 e2 b Hk E1 E2 H1 H2. simplify_eq.
      apply table_ent_flags in H2 as (? & _). congruence.
    + intros b Hsome. left.
      assert (is_Some (d_slpt d !! b)) as Hb.
      { destruct Hold as [[_ Es]|(e0 & base & E0 & H0 & Es)]; rewrite Es in Hsome; [done|].
        by apply lookup_delete_is_Some in Hsome as [_ ?]. }
      destruct (wf_used _ Hwf b Hb) as (k & ek & Ek & Hk). exists k, ek. split_and!; [|done..].
      intros ->. destruct Hold as [[En _]|(e0 & base & E0 & H0 & Es)]; [congruence|]. simplify_eq.
      rewrite Es, (table_ent_inj _ _ _ H0 Hk), lookup_delete_eq in Hsome. by destruct Hsome.
  - intros a. case_decide as Ha; [|by eapply walk_off]. unfold walk.
    rewrite Ha, (rd_Some _ _ _ Ei), Hsec. by rewrite Hphys.
Qed.

(** Slot [i], which held no table, becomes empty. *)
Lemma section_clear d d' i :
  wf d -> (forall e base, d_page_table d !! i = Some e -> ~ table_ent e base) ->
  d_page_table d' = delete i (d_page_table d) -> d_slpt d' = d_slpt d ->
  d_lv2entcnt d' = d_lv2entcnt d ->
  wf d' /\ (forall a, walk d' a = if decide (lv1ent_offset a = i) then None else walk d a).
Proof.
  intros Hwf Hnt Hp Hs Hc.
  assert (agree_off i d d') as Hag.
  { split.
    - intros k Hk. by rewrite Hp, Hc, lookup_delete_ne.
    - by intros; rewrite Hs. }
  assert (d_page_table d' !! i = None) as Ei by (by rewrite Hp, lookup_delete_eq). split.
  - apply (wf_intro_off i d); [done..| | | |].
    + by apply SentZero.
    + rewrite Ei. by intros [].
    + intros. congruence.
    + intros b Hsome. left. rewrite Hs in Hsome.
      destruct (wf_used _ Hwf b Hsome) as (k & ek & Ek & Hk). exists k, ek. split_and!; [|done..].
      intros ->. by eapply Hnt.
  - intros a. case_decide as Ha; [|by eapply walk_off]. unfold walk. by rewrite Ha, (rd_None _ _ Ei).
Qed.

(** Slot [i], empty, receives an empty table at a fresh address. *)
Lemma table_install d d' i e base :
  wf d -> 0 <= i < NUM_LV1ENTRIES -> d_page_table d !! i = None -> d_slpt d !! base = None ->
  table_ent e base -> d_page_table d' = <[i := e]> (d_page_table d) ->
  d_slpt d' = <[base := ∅]> (d_slpt d) -> d_lv2entcnt d' = wr (d_lv2entcnt d) i 0 ->
  wf d' /\ (forall a, walk d' a = walk d a).
Proof.
  intros Hwf Hi En Hf H Hp Hs Hc.
  assert (agree_off i d d') as Hag.
  { split.
    - intros k Hk. by rewrite Hp, Hc, lookup_insert_ne, rd_wr_ne.
    - intros k e' b Hk E' H'. rewrite Hs. apply lookup_insert_ne. intros ->.
      destruct (wf_sent _ Hwf k) as [?|? ? ? Hx|? ? ? ? Hx]; simplify_eq.
      + apply sect_ent_flags in Hx as (? & _). apply table_ent_flags in H' as (? & _). congruence.
      + by rewrite (table_ent_inj _ _ _ H' Hx) in Hf; simplify_eq. }
  assert (d_page_table d' !! i = Some e) as Ei by (by rewrite Hp, lookup_insert_eq).
  assert (d_slpt d' !! base = Some ∅) as Hb by (by rewrite Hs, lookup_insert_eq). split.
  - apply (wf_intro_off i d); [done..| | | |].
    + eapply SentTable; [done..| |by rewrite Hc, rd_wr]. split; by intros j x; rewrite lookup_empty.
    + by intros _.
    + intros k e1 e2 b Hk E1 E2 H1 H2. simplify_eq.
      rewrite <- (table_ent_inj _ _ _ H H2) in *. destruct Hag as [_ H3].
      rewrite <- (H3 k e1 base Hk E1 H1) in Hf. congruence.
    + intros b Hsome. destruct (decide (b = base)) as [->|Hne]; [right; by exists e|left].
      rewrite Hs, lookup_insert_ne in Hsome by done.
      destruct (wf_used _ Hwf b Hsome) as (k & ek & Ek & Hk). exists k, ek. split_and!; [|done..].
      intros ->. congruence.
  - intros a. destruct (decide (lv1ent_offset a = i)) as [Ha|Ha]; [|by eapply walk_off].
    rewrite (walk_table d' i e base ∅ a) by done.
    unfold walk. rewrite Ha, (rd_None _ _ En). done.
Qed.
