(* ===== verification/SysmmuMap.v ===== *)
(** * Mapping and unmapping pages

    The effect of [samsung_sysmmu_map], [samsung_sysmmu_unmap] and
    [samsung_sysmmu_unmap_pages] on the translation of a domain. *)

From S2P Require Import Prelude SysmmuPt SysmmuFacts.

(** ** Running the table loops *)

Lemma in_table j : 0 <= j < 256 -> (0 <=? j) && (j <? NUM_LV2ENTRIES) = true.
Proof. change NUM_LV2ENTRIES with 256. lia. Qed.

Lemma get_pent_run d base t j :
  d_slpt d !! base = Some t -> 0 <= j < 256 -> get_pent base j d = Done (rd t j) d.
Proof. intros Hs Hj. unfold get_pent. by rewrite Hs, in_table. Qed.

Lemma set_pent_run d base t j v :
  d_slpt d !! base = Some t -> 0 <= j < 256 ->
  set_pent base j v d = Done tt (d <| d_slpt := <[base := wr t j v]> (d_slpt d) |>).
Proof. intros Hs Hj. unfold set_pent. by rewrite Hs, in_table. Qed.

Lemma clear_page_table_run n d base t j :
  d_slpt d !! base = Some t -> 0 <= j -> j + Z.of_nat n <= 256 ->
  clear_page_table base j n d = Done tt (d <| d_slpt := <[base := clear t j n]> (d_slpt d) |>).
Proof.
  revert d t j; induction n as [|n IH]; intros d t j Hs Hj Hn; simpl.
  - rewrite insert_id by done. by destruct d.
  - unfold kbind. rewrite (set_pent_run _ _ t) by (done || lia).
    rewrite (IH _ (delete j t)); simpl; [|by rewrite lookup_insert_eq|lia..].
    by rewrite insert_insert_eq.
Qed.

Lemma clear_fill t j n v :
  (forall k, j <= k < j + Z.of_nat n -> t !! k = None) -> clear (fill t j n v) j n = t.
Proof.
  intros H. apply map_eq. intros k. rewrite clear_lookup, fill_lookup.
  case_decide; [by rewrite H|done].
Qed.

Lemma fill_snoc t j n v : <[j + Z.of_nat n := v]> (fill t j n v) = fill t j (S n) v.
Proof.
  apply map_eq. intros k. rewrite lookup_insert, !fill_lookup. repeat case_decide; done || lia.
Qed.

(** The large-page loop either fills its 16 entries or finds one in use and
    leaves the table as it was. *)
Lemma set_lpage_run n m d base t0 j pte :
  table_ok t0 -> pte <> 0 -> 0 <= j -> j + Z.of_nat m + Z.of_nat n <= 256 ->
  (forall k, j <= k < j + Z.of_nat m -> t0 !! k = None) ->
  d_slpt d !! base = Some (fill t0 j m pte) ->
  (forall k, j + Z.of_nat m <= k < j + Z.of_nat m + Z.of_nat n -> t0 !! k = None) /\
    set_lpage base j pte (Z.of_nat m) n d
    = Done 0 (d <| d_slpt := <[base := fill t0 j (m + n) pte]> (d_slpt d) |>) \/
  (exists k, j + Z.of_nat m <= k < j + Z.of_nat m + Z.of_nat n /\ is_Some (t0 !! k)) /\
    set_lpage base j pte (Z.of_nat m) n d
    = Done (- EADDRINUSE) (d <| d_slpt := <[base := t0]> (d_slpt d) |>).
Proof.
  intros Hok Hpte Hj. revert m d; induction n as [|n IH]; intros m d Hr Hm Hs; simpl.
  - left. split; [lia|]. rewrite Nat.add_0_r, insert_id by done. by destruct d.
  - unfold kbind at 1 4. rewrite (get_pent_run _ _ (fill t0 j m pte)) by (done || lia).
    assert (rd (fill t0 j m pte) (j + Z.of_nat m) = rd t0 (j + Z.of_nat m)) as ->.
    { unfold rd. by rewrite fill_lookup, decide_False by lia. }
    destruct (lv2ent_unmapped (rd t0 (j + Z.of_nat m))) eqn:Eu; simpl.
    + apply (table_ok_unmapped t0) in Eu; [|done]. unfold kbind.
      rewrite (set_pent_run _ _ (fill t0 j m pte)) by (done || lia).
      rewrite wr_nonzero, fill_snoc by done.
      replace (Z.of_nat m + 1) with (Z.of_nat (S m)) by lia.
      destruct (IH (S m) (d <| d_slpt := <[base := fill t0 j (S m) pte]> (d_slpt d) |>))
        as [[H E]|[H E]]; [lia| |by simpl; rewrite lookup_insert_eq|..].
      * intros k Hk. destruct (decide (k = j + Z.of_nat m)) as [->|]; [done|apply Hm; lia].
      * left. rewrite E. simpl. rewrite insert_insert_eq, Nat.add_succ_r. split; [|done].
        intros k Hk. destruct (decide (k = j + Z.of_nat m)) as [->|]; [done|apply H; lia].
      * right. rewrite E. simpl. rewrite insert_insert_eq. split; [|done].
        destruct H as (k & Hk & ?). exists k. split; [lia|done].
    + right. split.
      * exists (j + Z.of_nat m). split; [lia|]. apply not_eq_None_Some. intros En.
        apply (table_ok_unmapped t0) in En; [congruence|done].
      * unfold kbind. rewrite Nat2Z.id.
        rewrite (clear_page_table_run _ _ _ (fill t0 j m pte)) by (done || lia).
        by rewrite clear_fill.
Qed.

(** ** Second-level pages as translations *)

Lemma table_ok_insert t j e pa :
  table_ok t -> 0 <= j < 256 -> t !! j = None -> small_ent e pa -> table_ok (<[j := e]> t).
Proof.
  intros Ht Hj Hn He. split.
  - intros k x [[<- <-]|[? ?]]%lookup_insert_Some; [done|by eapply tk_range].
  - intros k x [[<- <-]|[Hk Hx]]%lookup_insert_Some; [by left; exists pa|].
    destruct (tk_ent _ Ht _ _ Hx) as [?|(p & Hp & Hg)]; [by left|right]. exists p. split; [done|].
    intros l Hl. rewrite lookup_insert_ne; [by apply Hg|]. intros ->.
    rewrite (Hg _ Hl) in Hn. done.
Qed.

Lemma table_ok_fill t j e pa :
  table_ok t -> 0 <= j -> j + 16 <= 256 -> j mod 16 = 0 ->
  (forall k, j <= k < j + 16 -> t !! k = None) -> large_ent e pa -> table_ok (fill t j 16 e).
Proof.
  intros Ht Hj Hj' Ha Hn He. split; intros k x; rewrite fill_lookup; case_decide as Hd.
  - intros [= <-]. lia.
  - by intros; eapply tk_range.
  - intros [= <-]. right. exists pa. split; [done|]. intros l Hl. rewrite fill_lookup.
    unfold lpage_group in Hl. rewrite decide_True by dlia. done.
  - intros Hx. destruct (tk_ent _ Ht _ _ Hx) as [?|(p & Hp & Hg)]; [by left|right].
    exists p. split; [done|]. intros l Hl. rewrite fill_lookup, decide_False; [by apply Hg|].
    intros Hc. unfold lpage_group in Hl. apply Hd. dlia.
Qed.

Lemma table_ok_clear_small t j e pa :
  table_ok t -> t !! j = Some e -> small_ent e pa -> table_ok (delete j t).
Proof.
  intros Ht He Hs. split.
  - intros k x [_ Hx]%lookup_delete_Some. by eapply tk_range.
  - intros k x [Hk Hx]%lookup_delete_Some.
    destruct (tk_ent _ Ht _ _ Hx) as [?|(p & Hp & Hg)]; [by left|right]. exists p. split; [done|].
    intros l Hl. rewrite lookup_delete_ne; [by apply Hg|]. intros ->.
    rewrite (Hg _ Hl) in He. simplify_eq.
    apply small_ent_flags in Hs as (? & _). apply large_ent_flags in Hp as (? & _). congruence.
Qed.

(** Clearing a range that cuts no large page. *)
Lemma table_ok_clear t j n :
  table_ok t ->
  (forall k l e pa, t !! k = Some e -> large_ent e pa -> lpage_group k l ->
     j <= k < j + Z.of_nat n -> j <= l < j + Z.of_nat n) ->
  table_ok (clear t j n).
Proof.
  intros Ht Hcut. split; intros k x; rewrite clear_lookup; case_decide as Hd; try done.
  - by intros; eapply tk_range.
  - intros Hx. destruct (tk_ent _ Ht _ _ Hx) as [?|(p & Hp & Hg)]; [by left|right].
    exists p. split; [done|]. intros l Hl. rewrite clear_lookup, decide_False; [by apply Hg|].
    intros Hc. apply Hd. eapply (Hcut l k); [by apply Hg|done|by unfold lpage_group in *|done].
Qed.

Lemma walk2_insert t j e pa a :
  small_ent e pa -> walk2 (<[j := e]> t) a =
    if decide (lv2ent_offset a = j) then Some (pa + spage_offs a) else walk2 t a.
Proof.
  intros He. unfold walk2, rd. rewrite lookup_insert.
  destruct (decide (j = lv2ent_offset a)) as [<-|Hne].
  - rewrite decide_True by done. simpl. by destruct (small_ent_flags _ _ He) as (-> & -> & _ & -> & _).
  - by rewrite decide_False by congruence.
Qed.

Lemma walk2_fill t j n e pa a :
  large_ent e pa -> walk2 (fill t j n e) a =
    if decide (j <= lv2ent_offset a < j + Z.of_nat n) then Some (pa + lpage_offs a) else walk2 t a.
Proof.
  intros He. unfold walk2, rd. rewrite fill_lookup. case_decide; [|done]. simpl.
  by destruct (large_ent_flags _ _ He) as (-> & -> & _ & -> & _).
Qed.

Lemma walk2_clear t j n a :
  walk2 (clear t j n) a =
    if decide (j <= lv2ent_offset a < j + Z.of_nat n) then None else walk2 t a.
Proof. unfold walk2, rd. rewrite clear_lookup. by case_decide. Qed.

(** ** Mapping a page *)

Definition page_size (size : Z) : Prop := size = SPAGE_SIZE \/ size = LPAGE_SIZE \/ size = SECT_SIZE.

(** What the driver relies on from its slab cache: a table that is fresh,
    aligned to its size and below the 36-bit limit of the entries. *)
Definition table_avail (d : domain) (table : option Z) : Prop :=
  forall b, table = Some b -> 0 <= b < 2 ^ 36 /\ b mod 2 ^ 10 = 0 /\ d_slpt d !! b = None.

Lemma lv1_index a : 0 <= a < 2 ^ 32 -> 0 <= lv1ent_offset a < NUM_LV1ENTRIES.
Proof. intros. rewrite lv1ent_offset_div. unfold NUM_LV1ENTRIES. dlia. Qed.

Lemma lv2_index a : 0 <= lv2ent_offset a < 256.
Proof. rewrite lv2ent_offset_div. dlia. Qed.

(** The address of the first byte behind entry [j] of slot [i]. *)
Lemma page_at i j :
  0 <= i < NUM_LV1ENTRIES -> 0 <= j < 256 ->
  0 <= i * 2 ^ 20 + j * 2 ^ 12 < 2 ^ 32 /\
  lv1ent_offset (i * 2 ^ 20 + j * 2 ^ 12) = i /\ lv2ent_offset (i * 2 ^ 20 + j * 2 ^ 12) = j.
Proof.
  unfold NUM_LV1ENTRIES. intros Hi Hj. rewrite lv1ent_offset_div, lv2ent_offset_div. dlia.
Qed.

(** A table has at most its 256 entries. *)
Lemma table_ok_size t : table_ok t -> (size t <= 256)%nat.
Proof.
  intros Ht. rewrite <- (size_dom (D := gset Z)).
  assert (dom t ⊆ list_to_set (Z.of_nat <$> seq 0 256)) as Hsub.
  { intros j [e He]%elem_of_dom. apply elem_of_list_to_set, list_elem_of_fmap.
    pose proof (tk_range _ Ht _ _ He). exists (Z.to_nat j). split; [lia|]. apply elem_of_seq. lia. }
  apply subseteq_size in Hsub. etrans; [exact Hsub|]. rewrite size_list_to_set.
  - by rewrite length_fmap, length_seq.
  - apply NoDup_fmap_2; [apply _|apply NoDup_seq].
Qed.

Lemma wp_get_sent i Q d : Q (rd (d_page_table d) i) d -> wp (get_sent i) Q d.
Proof. done. Qed.

(** The outcome of looking for the second-level entry of [iova]. *)
Definition lv2entry_post (d : domain) (i iova : Z) (table : option Z) (r : Z + Z * Z) (d' : domain) :
    Prop :=
  match r with
  | inr (base, j) => j = lv2ent_offset iova /\ wf d' /\ (forall a, walk d' a = walk d a) /\
      exists e t, d_page_table d' !! i = Some e /\ table_ent e base /\
        d_slpt d' !! base = Some t /\ table_ok t /\ rd (d_lv2entcnt d') i = Z.of_nat (size t)
  | inl err => d' = d /\
      ((err = - EADDRINUSE /\ exists e pa, d_page_table d !! i = Some e /\ sect_ent e pa) \/
       (err = - ENOMEM /\ table = None))
  end.

Lemma alloc_lv2entry_spec d i iova table :
  wf d -> 0 <= i < NUM_LV1ENTRIES -> table_avail d table ->
  wp (alloc_lv2entry i iova table) (lv2entry_post d i iova table) d.
Proof.
  intros Hwf Hi Hav. unfold alloc_lv2entry. apply wp_bind, wp_get_sent.
  destruct (wf_sent _ Hwf i) as [E|e pa E H|e base t E H Hs Ht Hn].
  - rewrite (rd_None _ _ E). simpl. destruct table as [b|]; [|by apply wp_ret; split; [|right]].
    destruct (Hav b eq_refl) as (Hb & Ha & Hf).
    pose proof (make_table_ent b Hb Ha) as He.
    destruct (table_ent_flags _ _ He) as (_ & _ & _ & Hbase & Hpos).
    do 2 apply wp_bind. unfold alloc_lv2entry_locked. apply wp_bind, wp_get_sent.
    rewrite (rd_None _ _ E). simpl.
    do 4 (apply wp_bind, wp_mod). apply wp_mod, wp_ret. apply wp_bind, wp_get_sent, wp_ret. simpl.
    rewrite rd_wr, Hbase. rewrite wr_nonzero by lia.
    match goal with |- _ /\ wf ?x /\ _ =>
      destruct (table_install d x i _ b Hwf Hi E Hf He) as [Hw1 Hw2] end; [done|done|done|].
    split_and!; [done..|]. eexists _, ∅.
    split_and!; [by rewrite lookup_insert_eq|done|by rewrite lookup_insert_eq| |by rewrite rd_wr].
    split; by intros j x; rewrite lookup_empty.
  - rewrite (rd_Some _ _ _ E). destruct (sect_ent_flags _ _ H) as (-> & _). apply wp_ret.
    split; [done|left]. eauto.
  - rewrite (rd_Some _ _ _ E). destruct (table_ent_flags _ _ H) as (-> & -> & -> & Hb & _).
    simpl. apply wp_bind, wp_ret, wp_bind, wp_get_sent, wp_ret.
    rewrite (rd_Some _ _ _ E), Hb. split_and!; [done..|]. by exists e, t.
Qed.

(** What an attempt to map [size] bytes at [iova] leaves behind. *)
Definition map_post (d : domain) (iova paddr size : Z) (table : option Z) (r : Z) (d' : domain) : Prop :=
  wf d' /\
  ((r = 0 /\ (forall a, iova <= a < iova + size -> walk d a = None) /\
    (forall a, 0 <= a < 2 ^ 32 -> walk d' a =
       if decide (iova <= a < iova + size) then Some (paddr + (a - iova)) else walk d a)) \/
   (r = - EADDRINUSE /\ (forall a, walk d' a = walk d a) /\
    exists a, iova <= a < iova + size /\ is_Some (walk d a)) \/
   (r = - ENOMEM /\ (forall a, walk d' a = walk d a) /\ table = None)).

Lemma map_small d i e base t iova paddr prot table :
  wf d -> i = lv1ent_offset iova -> d_page_table d !! i = Some e -> table_ent e base ->
  d_slpt d !! base = Some t -> table_ok t -> rd (d_lv2entcnt d) i = Z.of_nat (size t) ->
  0 <= iova < 2 ^ 32 -> iova mod SPAGE_SIZE = 0 -> 0 <= paddr < 2 ^ 36 -> paddr mod SPAGE_SIZE = 0 ->
  wp (lv2set_page base (lv2ent_offset iova) paddr SPAGE_SIZE prot i)
    (map_post d iova paddr SPAGE_SIZE table) d.
Proof.
  intros Hwf -> E H Hs Ht Hc Hi Hia Hp Hpa. unfold SPAGE_SIZE in *.
  pose proof (lv2_index iova) as Hj.
  unfold lv2set_page. change (2 ^ 12 =? SPAGE_SIZE) with true. simpl. apply wp_bind.
  eapply wp_eq; [by apply get_pent_run|].
  destruct (lv2ent_unmapped (rd t (lv2ent_offset iova))) eqn:Eu; simpl.
  - apply (table_ok_unmapped t) in Eu; [|done].
    match goal with |- context [make_sysmmu_pte _ _ ?attr] =>
      assert (small_ent (make_sysmmu_pte paddr SPAGE_FLAG attr) paddr) as He
        by (apply make_small_ent; [done..|case_match; [by left|by right]]);
      set (pte := make_sysmmu_pte paddr SPAGE_FLAG attr) in * end.
    destruct (small_ent_flags _ _ He) as (_ & _ & _ & _ & Hpos).
    apply wp_bind. eapply wp_eq; [by apply (set_pent_run d base t)|].
    apply wp_bind. eapply wp_eq; [reflexivity|]. apply wp_bind, wp_mod, wp_ret.
    rewrite (wr_nonzero t) by lia.
    assert (size (<[lv2ent_offset iova := pte]> t) = S (size t)) as Hsz by by apply map_size_insert_None.
    assert (size t <= 256)%nat as Hle by by apply table_ok_size.
    match goal with |- map_post _ _ _ _ _ _ ?x =>
      destruct (table_update d x _ e base (<[lv2ent_offset iova := pte]> t) Hwf E H) as [Hw1 Hw2] end;
      [by eapply table_ok_insert|done|done| |].
    { simpl. rewrite Hc, Hsz, s32_small by lia. f_equal. lia. }
    split; [done|left]. split_and!; [done| |].
    + intros a Ha. rewrite (walk_table d (lv1ent_offset iova) e base t); [|done..|].
      * apply walk2_None; [done|]. rewrite <- Eu. f_equal. rewrite !lv2ent_offset_div. dlia.
      * rewrite !lv1ent_offset_div. dlia.
    + intros a Ha. rewrite Hw2. case_decide as H1.
      * rewrite (walk2_insert _ _ _ paddr) by done. unfold spage_offs, SPAGE_SIZE. rewrite land_low by lia.
        rewrite (walk_table d _ e base t a) by done.
        rewrite !lv1ent_offset_div in *. rewrite !lv2ent_offset_div in *.
        repeat case_decide; first [done | f_equal; dlia | exfalso; dlia].
      * rewrite decide_False; [done|]. intros Hc'. apply H1. rewrite !lv1ent_offset_div. dlia.
  - apply wp_ret. split; [done|right; left]. split_and!; [done..|].
    exists iova. split; [lia|]. rewrite (walk_table d (lv1ent_offset iova) e base t) by done.
    apply not_eq_None_Some. intros Hn. apply walk2_None, (table_ok_unmapped t) in Hn; [|done..].
    congruence.
Qed.

Lemma map_large d i e base t iova paddr prot table :
  wf d -> i = lv1ent_offset iova -> d_page_table d !! i = Some e -> table_ent e base ->
  d_slpt d !! base = Some t -> table_ok t -> rd (d_lv2entcnt d) i = Z.of_nat (size t) ->
  0 <= iova < 2 ^ 32 -> iova mod LPAGE_SIZE = 0 -> 0 <= paddr < 2 ^ 36 -> paddr mod LPAGE_SIZE = 0 ->
  wp (lv2set_page base (lv2ent_offset iova) paddr LPAGE_SIZE prot i)
    (map_post d iova paddr LPAGE_SIZE table) d.
Proof.
  intros Hwf -> E H Hs Ht Hc Hi Hia Hp Hpa. unfold LPAGE_SIZE in *.
  assert (lv2ent_offset iova mod 16 = 0 /\ 0 <= lv2ent_offset iova /\ lv2ent_offset iova + 16 <= 256)
    as (Hja & Hj & Hj') by (rewrite lv2ent_offset_div; dlia).
  unfold lv2set_page. change (2 ^ 16 =? SPAGE_SIZE) with false. change (Z.to_nat SPAGES_PER_LPAGE) with 16%nat.
  match goal with |- context [make_sysmmu_pte _ _ ?attr] =>
    assert (large_ent (make_sysmmu_pte paddr LPAGE_FLAG attr) paddr) as He
      by (apply make_large_ent; [done..|case_match; [by left|by right]]);
    set (pte := make_sysmmu_pte paddr LPAGE_FLAG attr) in * end.
  destruct (large_ent_flags _ _ He) as (_ & _ & _ & _ & Hpos).
  apply wp_bind. set (j := lv2ent_offset iova) in *.
  destruct (set_lpage_run 16 0 d base t j pte) as [[Hfree Er]|[Hused Er]];
    [done|lia|done|lia|simpl; lia|done|..].
  - eapply wp_eq; [exact Er|]. simpl Z.eqb. cbv iota. apply wp_bind. eapply wp_eq; [reflexivity|].
    apply wp_bind, wp_mod, wp_ret. change (0 + 16)%nat with 16%nat.
    assert (forall k, j <= k < j + 16 -> t !! k = None) as Hf by (intros; apply Hfree; simpl; lia).
    assert (size (fill t j 16 pte) = (size t + 16)%nat) as Hsz by by apply fill_size.
    pose proof (table_ok_size t Ht) as Hle.
    match goal with |- map_post _ _ _ _ _ _ ?x =>
      destruct (table_update d x _ e base (fill t j 16 pte) Hwf E H) as [Hw1 Hw2] end;
      [by eapply table_ok_fill|done|done| |].
    { cbn -[fill]. rewrite Hc, Hsz. change SPAGES_PER_LPAGE with 16.
      rewrite s32_small by lia. f_equal. lia. }
    split; [done|left]. split_and!; [done| |].
    + intros a Ha. rewrite (walk_table d (lv1ent_offset iova) e base t); [|done..|].
      * apply walk2_None; [done|]. apply Hf. subst j. rewrite !lv2ent_offset_div in *. dlia.
      * rewrite !lv1ent_offset_div. dlia.
    + intros a Ha. rewrite Hw2. case_decide as H1.
      * rewrite (walk2_fill _ _ _ _ paddr) by done. unfold lpage_offs, LPAGE_SIZE. rewrite land_low by lia.
        rewrite (walk_table d _ e base t a) by done. subst j.
        rewrite !lv1ent_offset_div in *. rewrite !lv2ent_offset_div in *.
        repeat case_decide; first [done | f_equal; dlia | exfalso; dlia].
      * rewrite decide_False; [done|]. intros Hc'. apply H1. rewrite !lv1ent_offset_div. dlia.
  - eapply wp_eq; [exact Er|]. simpl. apply wp_ret. rewrite insert_id by done.
    split; [|right; left]; [by destruct d|]. split_and!; [done|by destruct d|].
    destruct Hused as (k & Hk & Hsome). simpl in Hk.
    destruct (page_at (lv1ent_offset iova) k) as (Ha & H1 & H2); [by apply lv1_index|lia|].
    exists (lv1ent_offset iova * 2 ^ 20 + k * 2 ^ 12). split.
    + subst j. rewrite lv1ent_offset_div, lv2ent_offset_div in *. dlia.
    + rewrite (walk_table d (lv1ent_offset iova) e base t) by done.
      apply not_eq_None_Some. intros Hn. apply walk2_None in Hn; [|done]. rewrite H2 in Hn.
      rewrite Hn in Hsome. by destruct Hsome.
Qed.

Lemma map_section d iova paddr prot table :
  wf d -> 0 <= iova < 2 ^ 32 -> iova mod SECT_SIZE = 0 ->
  0 <= paddr < 2 ^ 36 -> paddr mod SECT_SIZE = 0 ->
  wp (lv1set_section (lv1ent_offset iova) iova paddr prot) (map_post d iova paddr SECT_SIZE table) d.
Proof.
  intros Hwf Hi Hia Hp Hpa. unfold SECT_SIZE in *. pose proof (lv1_index _ Hi) as Hidx.
  unfold lv1set_section.
  match goal with |- context [make_sysmmu_pte _ _ ?attr] =>
    assert (sect_ent (make_sysmmu_pte paddr SECT_FLAG attr) paddr) as He
      by (apply make_sect_ent; [done..|case_match; [by left|by right]]);
    set (pte := make_sysmmu_pte paddr SECT_FLAG attr) in * end.
  destruct (sect_ent_flags _ _ He) as (_ & _ & _ & _ & Hpos).
  assert (forall a, iova <= a < iova + 2 ^ 20 -> lv1ent_offset a = lv1ent_offset iova) as Hslot
    by (intros; rewrite !lv1ent_offset_div; dlia).
  assert (forall d', wf d' /\ (forall a, walk d' a = if decide (lv1ent_offset a = lv1ent_offset iova)
     then Some (paddr + section_offs a) else walk d a) ->
    (forall a, iova <= a < iova + 2 ^ 20 -> walk d a = None) ->
    map_post d iova paddr (2 ^ 20) table 0 d') as Hdone.
  { intros d' [Hw1 Hw2] Hfree. split; [done|left]. split_and!; [done..|].
    intros a Ha. rewrite Hw2. unfold section_offs, SECT_SIZE. rewrite land_low by lia.
    rewrite !lv1ent_offset_div. repeat case_decide; first [done | f_equal; dlia | exfalso; dlia]. }
  apply wp_bind, wp_get_sent.
  destruct (wf_sent _ Hwf (lv1ent_offset iova)) as [E|e pa E H|e base t E H Hs Ht Hn].
  - rewrite (rd_None _ _ E). simpl. apply wp_bind. eapply wp_eq; [reflexivity|].
    apply wp_bind, wp_ret. apply wp_bind, wp_mod, wp_bind, wp_mod. simpl.
    apply wp_bind, wp_ret, wp_ret. apply Hdone.
    + eapply (section_update d _ _ pte); [done..| |done|by left]. simpl. by rewrite wr_nonzero by lia.
    + intros a Ha. unfold walk. by rewrite (Hslot a Ha), (rd_None _ _ E).
  - rewrite (rd_Some _ _ _ E). destruct (sect_ent_flags _ _ H) as (Hsec & _). rewrite Hsec.
    apply wp_ret. split; [done|right; left]. split_and!; [done..|]. exists iova. split; [lia|].
    unfold walk. rewrite (rd_Some _ _ _ E), Hsec. by eexists.
  - rewrite (rd_Some _ _ _ E). destruct (table_ent_flags _ _ H) as (-> & -> & _ & -> & _).
    apply wp_bind. eapply wp_eq; [reflexivity|]. rewrite Hn.
    destruct (Z.eqb_spec (Z.of_nat (size t)) 0) as [Hz|Hz]; simpl.
    + assert (t = ∅) as -> by (apply map_size_empty_inv; lia).
      apply wp_bind, wp_mod, wp_bind, wp_mod, wp_bind, wp_mod, wp_bind, wp_bind, wp_mod.
      eapply wp_eq; [unfold free_table; simpl; rewrite Hs; reflexivity|]. apply wp_ret. apply Hdone.
      * eapply (section_update d _ _ pte); [done..| | |].
        -- simpl. by rewrite (wr_nonzero (d_page_table d)) by lia.
        -- intros k Hk. simpl. by rewrite rd_wr_ne by done.
        -- right. by exists e, base.
      * intros a Ha. rewrite (walk_table d (lv1ent_offset iova) e base ∅) by auto.
        by apply walk2_None.
    + apply wp_ret. split; [done|right; left]. split_and!; [done..|].
      destruct (map_choose t) as (k & x & Hx); [intros ->; by rewrite map_size_empty in Hz|].
      pose proof (tk_range _ Ht _ _ Hx) as Hk.
      destruct (page_at (lv1ent_offset iova) k) as (Ha & H1 & H2); [done|done|].
      exists (lv1ent_offset iova * 2 ^ 20 + k * 2 ^ 12). split.
      * rewrite lv1ent_offset_div. dlia.
      * rewrite (walk_table d (lv1ent_offset iova) e base t) by done.
        apply not_eq_None_Some. intros Hn'. apply walk2_None in Hn'; [|done]. congruence.
Qed.

(** The three page sizes together. *)
Lemma map_spec d iova paddr size prot table :
  wf d -> page_size size -> 0 <= iova < 2 ^ 32 -> iova mod size = 0 ->
  0 <= paddr < 2 ^ 36 -> paddr mod size = 0 -> table_avail d table ->
  wp (samsung_sysmmu_map iova paddr size prot table) (map_post d iova paddr size table) d.
Proof.
  intros Hwf Hsz Hi Hia Hp Hpa Hav. unfold samsung_sysmmu_map. rewrite u32_small by done.
  match goal with |- context [lv1set_section _ _ _ ?p] => generalize p; intros prot' end.
  assert (forall sz, sz <> SECT_SIZE ->
    (forall d1 e base t, wf d1 -> d_page_table d1 !! lv1ent_offset iova = Some e ->
       table_ent e base -> d_slpt d1 !! base = Some t -> table_ok t ->
       rd (d_lv2entcnt d1) (lv1ent_offset iova) = Z.of_nat (base.size t) ->
       wp (lv2set_page base (lv2ent_offset iova) paddr sz prot' (lv1ent_offset iova))
         (map_post d1 iova paddr sz table) d1) -> sz = size ->
    wp (let! pent := alloc_lv2entry (lv1ent_offset iova) iova table in
        match pent with
        | inl err => kret err
        | inr (base, j) => lv2set_page base j paddr sz prot' (lv1ent_offset iova)
        end) (map_post d iova paddr size table) d) as Hlv2.
  { intros sz Hne Hset <-. apply wp_bind.
    eapply wp_mono; [apply alloc_lv2entry_spec; [done|by apply lv1_index|done]|].
    intros [err|[base j]] d'; simpl.
    - intros [-> Hr]. apply wp_ret. split; [done|right].
      destruct Hr as [(-> & e & pa & E & H)|[-> ->]]; [left|right]; (split_and!; [done..|]); [|done].
      exists iova. split; [destruct Hsz as [-> | [-> | ->]]; unfold SPAGE_SIZE, LPAGE_SIZE, SECT_SIZE; lia|].
      unfold walk. rewrite (rd_Some _ _ _ E). destruct (sect_ent_flags _ _ H) as (-> & _). by eexists.
    - intros (-> & Hw' & Hsame & e & t & E & H & Hs & Ht & Hn).
      eapply wp_mono; [by eapply (Hset d')|]. intros r d2 [Hw2 Hcases].
      split; [done|]. destruct Hcases as [(-> & Hfree & Hnew)|[(-> & Hold & a & Ha & Hm)|(-> & Hold & Ht')]].
      + left. split_and!; [done|intros; rewrite <- Hsame; by apply Hfree|].
        intros a Ha. rewrite Hnew by done. by rewrite Hsame.
      + right; left. split_and!; [done|intros; by rewrite Hold, Hsame|].
        exists a. by rewrite <- Hsame.
      + right; right. split_and!; [done|intros; by rewrite Hold, Hsame|done]. }
  destruct Hsz as [-> | [-> | ->]].
  - change (SPAGE_SIZE =? SECT_SIZE) with false. cbv iota. apply Hlv2; [done| |done].
    intros. by eapply map_small.
  - change (LPAGE_SIZE =? SECT_SIZE) with false. cbv iota. apply Hlv2; [done| |done].
    intros. by eapply map_large.
  - change (SECT_SIZE =? SECT_SIZE) with true. cbv iota. by apply map_section.
Qed.

(** C10. Mapping a page whose addresses are aligned to its size either succeeds,
    and then its range, which was free, translates to the given physical range
    and no other address changes; or reports that part of the range is in use,
    or that no table could be allocated, and changes no translation. The tables
    stay well formed and their counters exact. *)
Theorem map_translation d iova paddr size prot table :
  wf d -> page_size size -> 0 <= iova < 2 ^ 32 -> iova mod size = 0 ->
  0 <= paddr < 2 ^ 36 -> paddr mod size = 0 -> table_avail d table ->
  wp (samsung_sysmmu_map iova paddr size prot table) (map_post d iova paddr size table) d.
Proof. apply map_spec. Qed.

Lemma wf_alloc : wf new_domain.
Proof. split; simpl; [intros; by apply SentZero|by intros i []|done|by intros i []]. Qed.

Lemma table_avail_alloc b :
  0 <= b < 2 ^ 36 -> b mod 2 ^ 10 = 0 -> table_avail new_domain (Some b).
Proof. intros H1 H2 b' [= <-]. done. Qed.

Lemma map_translation_witness :
  wp (samsung_sysmmu_map 0x12345000 0x80000000 SPAGE_SIZE 0 (Some 0x40000))
    (map_post new_domain 0x12345000 0x80000000 SPAGE_SIZE (Some 0x40000))
    new_domain.
Proof.
  apply map_translation; [apply wf_alloc|by left|lia|vm_compute; reflexivity|lia|vm_compute; reflexivity|].
  apply table_avail_alloc; [lia|vm_compute; reflexivity].
Defined.
