(* ===== verification/SysmmuUnmap.v ===== *)
(** * Unmapping pages and releasing a domain *)

From S2P Require Import Prelude SysmmuPt SysmmuFacts SysmmuMap.

(** The range [iova, iova + r) loses its translation and nothing else does. *)
Definition unmapped_range (d d' : domain) (iova r : Z) : Prop :=
  forall a, 0 <= a < 2 ^ 32 -> walk d' a = if decide (iova <= a < iova + r) then None else walk d a.

Lemma wp_get_cnt i Q d : Q (rd (d_lv2entcnt d) i) d -> wp (get_cnt i) Q d.
Proof. done. Qed.

(** Clearing [n] present entries of the table of slot [i], with its counter. *)
Lemma clear_entries d d' i e base t j n iova r :
  wf d -> 0 <= iova < 2 ^ 32 -> i = lv1ent_offset iova -> j = lv2ent_offset iova ->
  d_page_table d !! i = Some e -> table_ent e base -> d_slpt d !! base = Some t ->
  table_ok (clear t j n) ->
  d_page_table d' = d_page_table d -> d_slpt d' = <[base := clear t j n]> (d_slpt d) ->
  d_lv2entcnt d' = wr (d_lv2entcnt d) i (Z.of_nat (size (clear t j n))) ->
  iova mod 2 ^ 12 = 0 -> r = Z.of_nat n * 2 ^ 12 -> j + Z.of_nat n <= 256 ->
  wf d' /\ unmapped_range d d' iova r.
Proof.
  intros Hwf Hi -> -> E H Hs Ht Hp Hs' Hc Ha -> Hn.
  destruct (table_update d d' _ e base (clear t (lv2ent_offset iova) n) Hwf E H) as [Hw1 Hw2];
    [done..|]. split; [done|]. intros a Har. rewrite Hw2. case_decide as H1.
  - rewrite walk2_clear, (walk_table d _ e base t a) by done.
    rewrite !lv1ent_offset_div, !lv2ent_offset_div in *.
    repeat case_decide; first [done | exfalso; dlia].
  - rewrite decide_False; [done|]. intros Hx. apply H1.
    rewrite !lv1ent_offset_div, !lv2ent_offset_div in *. dlia.
Qed.

(** The entries of the log are not part of the tables. *)
Lemma wf_log d l : wf d -> wf (d <| d_log := l |>).
Proof.
  intros Hwf. split; simpl; [|apply Hwf..].
  intros i. destruct (wf_sent _ Hwf i); [by apply SentZero|by eapply SentSection|by eapply SentTable].
Qed.

(** What an attempt to unmap [size] bytes at [iova] leaves behind. *)
Definition unmap_post (d : domain) (iova size r : Z) (d' : domain) : Prop :=
  wf d' /\ (0 <= r <= size) /\ unmapped_range d d' iova r /\
  (r = 0 -> is_Some (walk d iova) /\ d' = d).

Lemma unmap_refused d iova size :
  wf d -> 0 <= size -> is_Some (walk d iova) -> unmap_post d iova size 0 d.
Proof.
  intros Hwf Hs Hw. refine (conj Hwf (conj _ (conj _ _))); [lia| |done].
  intros a Ha. by rewrite decide_False by lia.
Qed.

Lemma unmap_done d d' iova size r :
  0 < r <= size -> wf d' /\ unmapped_range d d' iova r -> unmap_post d iova size r d'.
Proof. intros Hr [Hw Hu]. refine (conj Hw (conj _ (conj Hu _))); lia. Qed.

(** Nothing was mapped in the range. *)
Lemma unmap_absent d l iova size r :
  wf d -> 0 < r <= size -> (forall a, 0 <= a < 2 ^ 32 -> iova <= a < iova + r -> walk d a = None) ->
  unmap_post d iova size r (d <| d_log := l |>).
Proof.
  intros Hwf Hr Hn. apply unmap_done; [done|]. split; [by apply wf_log|].
  intros a Ha. case_decide; [|done]. exact (Hn a Ha ltac:(done)).
Qed.

(** The part of [samsung_sysmmu_unmap] that clears [n] entries of a table. *)
Lemma unmap_entries d i e base t iova n size lg :
  wf d -> 0 <= iova < 2 ^ 32 -> i = lv1ent_offset iova -> iova mod 2 ^ 12 = 0 ->
  d_page_table d !! i = Some e -> table_ent e base -> d_slpt d !! base = Some t ->
  table_ok t -> rd (d_lv2entcnt d) i = Z.of_nat (base.size t) ->
  table_ok (clear t (lv2ent_offset iova) n) -> lv2ent_offset iova + Z.of_nat n <= 256 ->
  (forall k, lv2ent_offset iova <= k < lv2ent_offset iova + Z.of_nat n -> is_Some (t !! k)) ->
  0 < Z.of_nat n * 2 ^ 12 <= size ->
  unmap_post d iova size (Z.of_nat n * 2 ^ 12)
    (MkDomain (d_page_table d)
       (wr (d_lv2entcnt d) i (s32 (rd (d_lv2entcnt d) i - Z.of_nat n)))
       (<[base := clear t (lv2ent_offset iova) n]> (d_slpt d)) lg).
Proof.
  intros Hwf Hi Hidx Hal E H Hs Ht Hn Hok Hb Hall Hr. apply unmap_done; [done|].
  pose proof (table_ok_size t Ht). pose proof (clear_size t (lv2ent_offset iova) n Hall).
  eapply (clear_entries d _ i e base t (lv2ent_offset iova) n); try done; simpl.
  rewrite Hn, s32_small by lia. f_equal. lia.
Qed.

Ltac sizes := unfold SPAGE_SIZE, LPAGE_SIZE, SECT_SIZE in *.

(** The slot holds a second-level table. *)
Lemma unmap_in_table d e base t iova size :
  wf d -> page_size size -> 0 <= iova < 2 ^ 32 -> iova mod size = 0 ->
  d_page_table d !! lv1ent_offset iova = Some e -> table_ent e base ->
  d_slpt d !! base = Some t -> table_ok t ->
  rd (d_lv2entcnt d) (lv1ent_offset iova) = Z.of_nat (base.size t) ->
  wp (samsung_sysmmu_unmap iova size) (unmap_post d iova size) d.
Proof.
  intros Hwf Hsz Hi Hia E H Hs Ht Hn. unfold samsung_sysmmu_unmap. rewrite u32_small by done.
  assert (SPAGE_SIZE <= size /\ iova mod 2 ^ 12 = 0) as [Hle Hal]
    by (destruct Hsz as [-> | [-> | ->]]; sizes; dlia).
  pose proof (lv2_index iova) as Hj. apply wp_bind, wp_get_sent. rewrite (rd_Some _ _ _ E).
  destruct (table_ent_flags _ _ H) as (-> & _ & -> & -> & _).
  apply wp_bind. eapply wp_eq; [by apply (get_pent_run d base t)|].
  destruct (t !! lv2ent_offset iova) as [x|] eqn:Ex.
  2: { rewrite (rd_None _ _ Ex). apply wp_bind, wp_mod, wp_ret.
       apply unmap_absent; [done|sizes; lia|]. intros a Ha Hr.
       rewrite (walk_table d (lv1ent_offset iova) e base t); [|done..|rewrite !lv1ent_offset_div; sizes; dlia].
       apply walk2_None; [done|]. rewrite <- Ex. f_equal. rewrite !lv2ent_offset_div. sizes. dlia. }
  rewrite (rd_Some _ _ _ Ex). destruct (tk_ent _ Ht _ _ Ex) as [[p Hp]|(p & Hp & Hg)].
  - destruct (small_ent_flags _ _ Hp) as (-> & _ & -> & _).
    apply wp_bind. eapply wp_eq; [by apply (set_pent_run d base t)|].
    apply wp_bind, wp_mod, wp_bind, wp_get_cnt, wp_bind, wp_mod, wp_bind, wp_mod, wp_ret.
    eapply (unmap_entries d _ e base t iova 1); try done; [by eapply table_ok_clear_small|lia|].
    intros k Hk. replace k with (lv2ent_offset iova) by lia. by eexists.
  - destruct (large_ent_flags _ _ Hp) as (-> & _ & -> & _). destruct (Z.ltb_spec size LPAGE_SIZE).
    + apply wp_ret, unmap_refused; [done|sizes; lia|].
      rewrite (walk_table d (lv1ent_offset iova) e base t) by done.
      apply not_eq_None_Some. intros Hx. apply walk2_None in Hx; [|done]. congruence.
    + assert (iova mod 2 ^ 16 = 0) as Hal16 by (destruct Hsz as [-> | [-> | ->]]; sizes; dlia).
      assert (lv2ent_offset iova mod 16 = 0 /\ lv2ent_offset iova + 16 <= 256) as [Hm16 Hb16]
        by (rewrite lv2ent_offset_div; dlia).
      change (Z.to_nat SPAGES_PER_LPAGE) with 16%nat.
      apply wp_bind. eapply wp_eq; [apply (clear_page_table_run 16 d base t); [done|lia|lia]|].
      apply wp_bind, wp_mod, wp_bind, wp_get_cnt, wp_bind, wp_mod, wp_bind, wp_mod, wp_ret.
      eapply (unmap_entries d _ e base t iova 16); try done.
      * apply table_ok_clear; [done|]. unfold lpage_group. clear Hia. intros. dlia.
      * intros k Hk. exists x. apply Hg. unfold lpage_group. dlia.
Qed.

(** Every kind of slot together. *)
Lemma unmap_spec d iova size :
  wf d -> page_size size -> 0 <= iova < 2 ^ 32 -> iova mod size = 0 ->
  wp (samsung_sysmmu_unmap iova size) (unmap_post d iova size) d.
Proof.
  intros Hwf Hsz Hi Hia.
  assert (SPAGE_SIZE <= size <= SECT_SIZE) as Hle by (destruct Hsz as [-> | [-> | ->]]; sizes; lia).
  destruct (wf_sent _ Hwf (lv1ent_offset iova)) as [E|e pa E H|e base t E H Hs Ht Hn];
    [..|by eapply unmap_in_table]; unfold samsung_sysmmu_unmap; rewrite u32_small by done;
    apply wp_bind, wp_get_sent.
  - rewrite (rd_None _ _ E). simpl. rewrite Z.gtb_ltb, (proj2 (Z.ltb_ge _ _)) by lia.
    apply wp_bind, wp_mod, wp_ret, unmap_absent; [done|sizes; lia|]. intros a Ha Hr.
    unfold walk. replace (lv1ent_offset a) with (lv1ent_offset iova); [by rewrite (rd_None _ _ E)|].
    rewrite !lv1ent_offset_div. destruct Hsz as [-> | [-> | ->]]; sizes; dlia.
  - rewrite (rd_Some _ _ _ E). destruct (sect_ent_flags _ _ H) as (Hsec & Hnp & _). rewrite Hsec.
    destruct (Z.ltb_spec size SECT_SIZE).
    + apply wp_ret, unmap_refused; [done|sizes; lia|].
      unfold walk. rewrite (rd_Some _ _ _ E), Hsec. by eexists.
    + assert (size = SECT_SIZE) as -> by lia.
      apply wp_bind, wp_mod, wp_bind, wp_mod, wp_bind, wp_mod, wp_ret. apply unmap_done; [done|].
      match goal with |- wf ?x /\ _ => destruct (section_clear d x (lv1ent_offset iova) Hwf) as [Hw1 Hw2] end;
        [|done..|].
      { intros e' b E' Hb. simplify_eq. apply table_ent_flags in Hb as (? & _). congruence. }
      split; [done|]. intros a Ha. rewrite Hw2. rewrite !lv1ent_offset_div. sizes.
      repeat case_decide; first [done | exfalso; dlia].
Qed.


(** A domain with one small page at 0x12345000. *)
Definition small_demo : domain :=
  match samsung_sysmmu_map 0x12345000 0x80000000 SPAGE_SIZE 0 (Some 0x40000)
          new_domain with
  | Done _ d => d
  | _ => new_domain
  end.

Lemma wf_small_demo : wf small_demo.
Proof.
  assert (wp (samsung_sysmmu_map 0x12345000 0x80000000 SPAGE_SIZE 0 (Some 0x40000))
    (map_post new_domain 0x12345000 0x80000000 SPAGE_SIZE (Some 0x40000))
    new_domain) as H.
  { apply map_spec; [apply wf_alloc|by left|lia|vm_compute; reflexivity|lia|vm_compute; reflexivity|].
    apply table_avail_alloc; [lia|vm_compute; reflexivity]. }
  unfold wp in H. unfold small_demo. destruct (samsung_sysmmu_map _ _ _ _ _ _); [apply H|apply wf_alloc..].
Qed.

