(* ===== verification/SysmmuRange.v ===== *)
(** * Unmapping ranges and releasing a domain

    [samsung_sysmmu_unmap_pages] clears whole runs of entries at once, trusting
    its caller that the range is mapped; [samsung_sysmmu_domain_free] walks the
    first level and releases the tables it finds. *)

From S2P Require Import Prelude SysmmuPt SysmmuFacts SysmmuMap SysmmuUnmap.

(** The second-level entry behind an address, where there is one. *)
Definition pent_of (d : domain) (a : Z) : option Z :=
  let e := rd (d_page_table d) (lv1ent_offset a) in
  if lv1ent_page e then d_slpt d !! lv2table_base e ≫= fun t => t !! lv2ent_offset a else None.

(** Every page of [iova, iend) is held in second-level tables, and no large page
    lies across an end of the range. *)
Record paged (d : domain) (iova iend : Z) : Prop := {
  pg_present : forall a, iova <= a < iend -> is_Some (pent_of d a);
  pg_uncut : forall a b e pa, iova <= a < iend -> pent_of d a = Some e -> large_ent e pa ->
    a / 2 ^ 16 = b / 2 ^ 16 -> iova <= b < iend
}.

Lemma pent_of_table d i e base t a :
  d_page_table d !! i = Some e -> table_ent e base -> d_slpt d !! base = Some t ->
  lv1ent_offset a = i -> pent_of d a = t !! lv2ent_offset a.
Proof.
  intros E H Hs <-. unfold pent_of. rewrite (rd_Some _ _ _ E).
  destruct (table_ent_flags _ _ H) as (_ & -> & _ & -> & _). by rewrite Hs.
Qed.

Lemma pent_of_inv d a x :
  wf d -> pent_of d a = Some x -> exists e base t, d_page_table d !! lv1ent_offset a = Some e /\
    table_ent e base /\ d_slpt d !! base = Some t /\ table_ok t /\
    rd (d_lv2entcnt d) (lv1ent_offset a) = Z.of_nat (size t) /\ t !! lv2ent_offset a = Some x.
Proof.
  intros Hwf Hx. destruct (wf_sent _ Hwf (lv1ent_offset a)) as [E|e pa E H|e base t E H Hs Ht Hn];
    unfold pent_of in Hx.
  - by rewrite (rd_None _ _ E) in Hx.
  - rewrite (rd_Some _ _ _ E) in Hx. by destruct (sect_ent_flags _ _ H) as (_ & Hp & _); rewrite Hp in Hx.
  - rewrite (rd_Some _ _ _ E) in Hx. destruct (table_ent_flags _ _ H) as (_ & Hp & _ & Hb & _).
    rewrite Hp, Hb, Hs in Hx. by exists e, base, t.
Qed.

(** What a step that works on slots below [k] leaves of the slots from [k] on. *)
Definition same_from (k : Z) (d d' : domain) : Prop :=
  (forall j, k <= j -> d_page_table d' !! j = d_page_table d !! j) /\
  (forall a, k <= lv1ent_offset a -> pent_of d' a = pent_of d a).

Lemma same_from_trans k d1 d2 d3 : same_from k d1 d2 -> same_from k d2 d3 -> same_from k d1 d3.
Proof. intros [H1 H2] [H3 H4]. split; intros; [rewrite H3, H1|rewrite H4, H2]; done. Qed.

Lemma same_from_le k l d d' : k <= l -> same_from k d d' -> same_from l d d'.
Proof. intros Hl [H1 H2]. split; intros; [apply H1|apply H2]; lia. Qed.

Lemma same_from_table d d' i e base t' :
  wf d -> d_page_table d !! i = Some e -> table_ent e base ->
  d_page_table d' = d_page_table d -> d_slpt d' = <[base := t']> (d_slpt d) ->
  same_from (i + 1) d d'.
Proof.
  intros Hwf E H Hp Hs. split; [by intros; rewrite Hp|]. intros a Ha. unfold pent_of. rewrite Hp.
  destruct (lv1ent_page (rd (d_page_table d) (lv1ent_offset a))) eqn:Epg; [|done].
  rewrite Hs, lookup_insert_ne; [done|]. intros ->.
  destruct (wf_sent _ Hwf (lv1ent_offset a)) as [E'|e' pa E' H'|e' b t E' H' _ _ _].
  - by rewrite (rd_None _ _ E') in Epg.
  - rewrite (rd_Some _ _ _ E') in Epg. destruct (sect_ent_flags _ _ H') as (_ & ? & _). congruence.
  - rewrite (rd_Some _ _ _ E') in H.
    destruct (table_ent_flags _ _ H') as (_ & _ & _ & Hb & _). rewrite Hb in H.
    assert (lv1ent_offset a = i) by (by eapply (wf_inj _ Hwf)). lia.
Qed.

(** One section's share of [unmap_slpt]. *)
Lemma clear_and_flush_lv2_spec d iova send :
  wf d -> 0 <= iova < send -> send <= 2 ^ 32 -> iova mod 2 ^ 12 = 0 -> send mod 2 ^ 12 = 0 ->
  send <= (iova / 2 ^ 20 + 1) * 2 ^ 20 -> paged d iova send ->
  wp (let! sent := get_sent (lv1ent_offset iova) in
      if lv1ent_page sent
      then clear_and_flush_lv2 (lv2table_base sent) (lv2ent_offset (u32 iova))
             (Z.shiftr (send - iova) SPAGE_ORDER) (lv1ent_offset iova)
      else kret tt)
    (fun _ d' => wf d' /\ unmapped_range d d' iova (send - iova) /\
       same_from (lv1ent_offset iova + 1) d d') d.
Proof.
  intros Hwf Hi Hsend Ha1 Ha2 Hsec [Hpres Huncut].
  destruct (Hpres iova ltac:(lia)) as [x Hx].
  destruct (pent_of_inv d iova x Hwf Hx) as (e & base & t & E & H & Hs & Ht & Hn & Htx).
  apply wp_bind, wp_get_sent. rewrite (rd_Some _ _ _ E).
  destruct (table_ent_flags _ _ H) as (_ & -> & _ & -> & _). rewrite u32_small by lia.
  change SPAGE_ORDER with 12. rewrite Z.shiftr_div_pow2 by lia.
  set (n := Z.to_nat ((send - iova) / 2 ^ 12)).
  assert (Z.of_nat n * 2 ^ 12 = send - iova) as Hnn by (unfold n; dlia).
  assert (lv2ent_offset iova + Z.of_nat n <= 256) as Hend by (rewrite lv2ent_offset_div; dlia).
  assert (forall k, lv2ent_offset iova <= k < lv2ent_offset iova + Z.of_nat n ->
    let a := iova + (k - lv2ent_offset iova) * 2 ^ 12 in
    iova <= a < send /\ lv2ent_offset a = k /\ lv1ent_offset a = lv1ent_offset iova) as Haddr.
  { intros k Hk. simpl. rewrite lv2ent_offset_div, !lv1ent_offset_div in *. rewrite lv2ent_offset_div. dlia. }
  assert (forall k, lv2ent_offset iova <= k < lv2ent_offset iova + Z.of_nat n -> is_Some (t !! k)) as Hall.
  { intros k Hk. destruct (Haddr k Hk) as (H1 & H2 & H3). rewrite <- H2.
    rewrite <- (pent_of_table d (lv1ent_offset iova) e base t) by done. by apply Hpres. }
  assert (table_ok (clear t (lv2ent_offset iova) n)) as Hok.
  { apply table_ok_clear; [done|]. intros k l y pa Hy Hl Hg Hk.
    destruct (Haddr k Hk) as (H1 & H2 & H3). set (a := iova + _) in *.
    assert (pent_of d a = Some y) as Hya.
    { rewrite (pent_of_table d (lv1ent_offset iova) e base t) by done. by rewrite H2. }
    assert (iova <= a + (l - k) * 2 ^ 12 < send) as Hl'.
    { eapply Huncut; [exact H1|exact Hya|done|]. unfold lpage_group in Hg.
      rewrite lv2ent_offset_div in H2. subst a. dlia. }
    subst a. lia. }
  pose proof (clear_size t (lv2ent_offset iova) n Hall) as Hcs. pose proof (table_ok_size t Ht) as Hcap.
  pose proof (lv2_index iova) as Hj.
  unfold clear_and_flush_lv2. apply wp_bind. fold n.
  eapply wp_eq; [apply (clear_page_table_run n d base t); [done|lia|lia]|].
  apply wp_bind, wp_mod, wp_bind, wp_get_cnt. simpl.
  apply wp_mod. match goal with |- wf ?x /\ _ => set (d' := x) end.
  destruct (clear_entries d d' (lv1ent_offset iova) e base t (lv2ent_offset iova) n iova (send - iova))
    as [Hw1 Hw2]; try done; [lia| |].
  - simpl. rewrite Hn, s32_small by lia. f_equal. lia.
  - split_and!; [done..|]. by eapply same_from_table.
Qed.

Lemma unmapped_range_app d1 d2 d3 a m n :
  0 <= m -> 0 <= n -> unmapped_range d1 d2 a m -> unmapped_range d2 d3 (a + m) n ->
  unmapped_range d1 d3 a (m + n).
Proof.
  intros Hm Hn H1 H2 x Hx. rewrite H2, H1 by done. repeat case_decide; done || lia.
Qed.

Lemma unmapped_range_refl d a : unmapped_range d d a 0.
Proof. intros x Hx. by rewrite decide_False by lia. Qed.

Lemma paged_same d d' k iova iend :
  same_from k d d' -> k * 2 ^ 20 <= iova -> paged d iova iend -> paged d' iova iend.
Proof.
  intros [_ Hs] Hk [H1 H2].
  assert (forall a, iova <= a -> pent_of d' a = pent_of d a) as He.
  { intros a Ha. apply Hs. rewrite lv1ent_offset_div. dlia. }
  split.
  - intros a Ha. rewrite He by lia. by apply H1.
  - intros a b e pa Ha E. rewrite He in E by lia. by apply (H2 a b e pa).
Qed.

(** A range split at a section boundary. *)
Lemma paged_split d iova m iend :
  paged d iova iend -> iova <= m <= iend -> m = iend \/ m mod 2 ^ 16 = 0 ->
  paged d iova m /\ paged d m iend.
Proof.
  intros [H1 H2] Hm Hal. split; split.
  - intros. apply H1. lia.
  - intros a b e pa Ha E Hl Hab. specialize (H2 a b e pa ltac:(lia) E Hl Hab). destruct Hal; [lia|dlia].
  - intros. apply H1. lia.
  - intros a b e pa Ha E Hl Hab. specialize (H2 a b e pa ltac:(lia) E Hl Hab). destruct Hal; [lia|dlia].
Qed.

(** The sections a range touches. *)
Definition sections (iova iend : Z) : Z :=
  if iova <? iend then (iend - 1) / 2 ^ 20 - iova / 2 ^ 20 + 1 else 0.

Lemma unmap_slpt_loop_spec fuel d iova iend :
  wf d -> 0 <= iova <= iend -> iend <= 2 ^ 32 -> iova mod 2 ^ 12 = 0 -> iend mod 2 ^ 12 = 0 ->
  paged d iova iend -> sections iova iend < Z.of_nat fuel ->
  wp (unmap_slpt_loop fuel (lv1ent_offset iova) iova iend)
    (fun _ d' => wf d' /\ unmapped_range d d' iova (iend - iova) /\
       same_from ((iend + 2 ^ 20 - 1) / 2 ^ 20) d d') d.
Proof.
  revert d iova; induction fuel as [|fuel IH]; intros d iova Hwf Hi He Ha1 Ha2 Hp Hf.
  { unfold sections in Hf. destruct (Z.ltb_spec iova iend); [dlia|lia]. }
  simpl. unfold sections in Hf. destruct (Z.ltb_spec iova iend) as [Hlt|Hge].
  2: { apply wp_ret. replace iend with iova by lia. rewrite Z.sub_diag.
       split_and!; [done|apply unmapped_range_refl|by split]. }
  change (SECT_SIZE - 1) with (2 ^ 20 - 1). rewrite ldiff_low by lia. change SECT_SIZE with (2 ^ 20).
  set (send := if iend <? (iova + 2 ^ 20) / 2 ^ 20 * 2 ^ 20 then iend else (iova + 2 ^ 20) / 2 ^ 20 * 2 ^ 20).
  assert (iova < send <= iend /\ send <= (iova / 2 ^ 20 + 1) * 2 ^ 20 /\ send mod 2 ^ 12 = 0 /\
    (send = iend \/ send = (iova / 2 ^ 20 + 1) * 2 ^ 20)) as (Hs1 & Hs2 & Hs3 & Hs4).
  { unfold send. destruct (Z.ltb_spec iend ((iova + 2 ^ 20) / 2 ^ 20 * 2 ^ 20)); dlia. }
  destruct (paged_split d iova send iend Hp) as [Hp1 Hp2]; [lia|destruct Hs4; [by left|right; dlia]|].
  apply (wp_assoc _ _ (fun _ => _)), wp_bind. eapply wp_mono.
  { apply (clear_and_flush_lv2_spec d iova send); try done; lia. }
  intros [] d1 (Hw1 & Hu1 & Hsame). destruct Hs4 as [Hend | Hbd].
  - replace send with iend in * by done.
    assert (unmap_slpt_loop fuel (lv1ent_offset iova + 1) iend iend d1 = Done tt d1) as Hstop.
    { destruct fuel; [dlia|]. simpl. by rewrite Z.ltb_irrefl. }
    eapply wp_eq; [exact Hstop|]. split_and!; [done..|]. eapply same_from_le; [|done].
    rewrite lv1ent_offset_div. dlia.
  - replace (lv1ent_offset iova + 1) with (lv1ent_offset send) in *
      by (rewrite !lv1ent_offset_div, Hbd; dlia).
    eapply wp_mono; [apply (IH d1 send); try done; [lia| |]|].
    + eapply paged_same; [done|rewrite lv1ent_offset_div; dlia|done].
    + unfold sections. destruct (Z.ltb_spec send iend); dlia.
    + intros [] d2 (Hw2 & Hu2 & Hsame2). split; [done|]. split.
      * replace (iend - iova) with ((send - iova) + (iend - send)) by lia.
        eapply unmapped_range_app; [lia..|done|]. by replace (iova + (send - iova)) with send by lia.
      * eapply same_from_trans; [|done]. eapply same_from_le; [|done]. rewrite lv1ent_offset_div. dlia.
Qed.

(** Slot [i] holds no table: it is empty or a section. *)
Definition no_table (d : domain) (i : Z) : Prop := lv1ent_page (rd (d_page_table d) i) = false.

Lemma no_table_ent d i e base : no_table d i -> d_page_table d !! i = Some e -> ~ table_ent e base.
Proof.
  unfold no_table. intros Hn E (_ & Hp & _)%table_ent_flags. rewrite (rd_Some _ _ _ E) in Hn. congruence.
Qed.

Lemma clear_lv1_table_spec n d i :
  wf d -> 0 <= i -> i + Z.of_nat n <= NUM_LV1ENTRIES ->
  (forall k, i <= k < i + Z.of_nat n -> no_table d k) ->
  wp (clear_lv1_table i n) (fun _ d' => wf d' /\ unmapped_range d d' (i * 2 ^ 20) (Z.of_nat n * 2 ^ 20) /\
    same_from (i + Z.of_nat n) d d') d.
Proof.
  revert d i; induction n as [|n IH]; intros d i Hwf Hi Hb Hnt; simpl.
  - apply wp_ret. split_and!; [done|apply unmapped_range_refl|by split].
  - apply wp_bind, wp_mod. set (d1 := d <| d_page_table := wr (d_page_table d) i 0 |>).
    destruct (section_clear d d1 i) as [Hw1 Hu1]; [done| |done..|].
    { intros e base. apply no_table_ent, Hnt. lia. }
    assert (forall k, k <> i -> rd (d_page_table d1) k = rd (d_page_table d) k) as Hrd
      by (intros; by apply rd_wr_ne).
    eapply wp_mono; [apply (IH d1 (i + 1)); [done|lia|lia|]|].
    + intros k Hk. unfold no_table. rewrite Hrd by lia. apply Hnt. lia.
    + intros [] d2 (Hw2 & Hu2 & Hs2). split; [done|]. split.
      * replace (Z.of_nat (S n) * 2 ^ 20) with (2 ^ 20 + Z.of_nat n * 2 ^ 20) by lia.
        eapply (unmapped_range_app d d1); [lia|lia| |by replace (i * 2 ^ 20 + 2 ^ 20) with ((i + 1) * 2 ^ 20) by lia].
        intros a Ha. rewrite Hu1, lv1ent_offset_div. repeat case_decide; first [done|exfalso; dlia].
      * replace (i + Z.of_nat (S n)) with (i + 1 + Z.of_nat n) by lia.
        eapply same_from_trans; [|done]. split.
        -- intros j Hj. change (delete i (d_page_table d) !! j = d_page_table d !! j).
           by rewrite lookup_delete_ne by lia.
        -- intros a Ha. unfold pent_of. by rewrite Hrd by lia.
Qed.

(** What the section loop may meet in slot [i]. *)
Definition sect_slot (d : domain) (i : Z) : Prop :=
  no_table d i \/ paged d (i * 2 ^ 20) ((i + 1) * 2 ^ 20).

Lemma no_table_same k d d' i : same_from k d d' -> k <= i -> no_table d i -> no_table d' i.
Proof. intros [H _] Hk. unfold no_table, rd. by rewrite H. Qed.

Lemma sect_slot_same k d d' i : same_from k d d' -> k <= i -> sect_slot d i -> sect_slot d' i.
Proof.
  intros Hs Hk [H|H]; [left; by eapply no_table_same|right].
  eapply paged_same; [done|lia|done].
Qed.

Lemma flush_pending d fs fc :
  wf d -> 0 <= fs -> 0 <= fc -> fs + fc <= NUM_LV1ENTRIES -> (forall k, fs <= k < fs + fc -> no_table d k) ->
  wp (if fc =? 0 then kret tt else clear_and_flush_lv1 fs fc)
    (fun _ d' => wf d' /\ unmapped_range d d' (fs * 2 ^ 20) (fc * 2 ^ 20) /\ same_from (fs + fc) d d') d.
Proof.
  intros Hwf Hs Hc Hb Hn. destruct (Z.eqb_spec fc 0) as [->|Hne].
  - apply wp_ret. split_and!; [done|apply unmapped_range_refl|by split].
  - unfold clear_and_flush_lv1. apply wp_bind. eapply wp_mono.
    { apply clear_lv1_table_spec; [done|done|lia|]. intros; apply Hn; lia. }
    intros [] d1 (Hw & Hu & Hsm). apply wp_mod.
    rewrite Z2Nat.id in * by lia. split_and!; [by apply wf_log|done..].
Qed.

Lemma unmap_slpt_section d i :
  wf d -> 0 <= i < NUM_LV1ENTRIES -> paged d (i * 2 ^ 20) ((i + 1) * 2 ^ 20) ->
  wp (unmap_slpt (i * 2 ^ 20) SECT_SIZE) (fun _ d' => wf d' /\
    unmapped_range d d' (i * 2 ^ 20) (2 ^ 20) /\ same_from (i + 1) d d') d.
Proof.
  intros Hwf Hi Hp. unfold unmap_slpt, NUM_LV1ENTRIES in *. rewrite u32_small by lia.
  change SECT_SIZE with (2 ^ 20). replace (i * 2 ^ 20 + 2 ^ 20) with ((i + 1) * 2 ^ 20) by lia.
  eapply wp_mono; [apply unmap_slpt_loop_spec; try done; [lia|lia|dlia|dlia|]|].
  - unfold sections. case_match; [|done]. change (2 ^ 20 / 2 ^ 20 + 3) with 4. dlia.
  - intros [] d' (? & Hu & Hs). replace ((i + 1) * 2 ^ 20 - i * 2 ^ 20) with (2 ^ 20) in Hu by lia.
    split_and!; [done..|]. replace (i + 1) with (((i + 1) * 2 ^ 20 + 2 ^ 20 - 1) / 2 ^ 20) by dlia. done.
Qed.

Lemma unmap_sections_spec n d i fs fc :
  wf d -> 0 <= fs -> 0 <= fc -> fs + fc = i -> i + Z.of_nat n <= NUM_LV1ENTRIES ->
  (forall k, fs <= k < i -> no_table d k) -> (forall k, i <= k < i + Z.of_nat n -> sect_slot d k) ->
  wp (unmap_sections n i (i * 2 ^ 20) fs fc) (fun _ d' => wf d' /\
    unmapped_range d d' (fs * 2 ^ 20) ((fc + Z.of_nat n) * 2 ^ 20)) d.
Proof.
  revert d i fs fc; induction n as [|n IH]; intros d i fs fc Hwf Hfs Hfc <- Hb Hpend Hrest.
  - simpl. rewrite Z.add_0_r. eapply wp_mono; [apply flush_pending; try done; lia|].
    by intros [] d' (? & ? & _).
  - simpl. apply wp_bind, wp_get_sent.
    change SECT_SIZE with (2 ^ 20). replace ((fs + fc) * 2 ^ 20 + 2 ^ 20) with ((fs + fc + 1) * 2 ^ 20) by lia.
    destruct (lv1ent_page (rd (d_page_table d) (fs + fc))) eqn:Epg.
    + destruct (Hrest (fs + fc) ltac:(lia)) as [?|Hp]; [unfold no_table in *; congruence|].
      apply wp_bind. eapply wp_mono; [apply flush_pending; try done; lia|].
      intros [] d1 (Hw1 & Hu1 & Hs1). apply wp_bind.
      eapply wp_mono; [apply unmap_slpt_section; [done|lia|]|].
      { eapply paged_same; [done|lia|done]. }
      intros [] d2 (Hw2 & Hu2 & Hs2).
      eapply wp_mono; [apply (IH d2 (fs + fc + 1) (fs + fc + 1) 0); [done|lia|lia|lia|lia|lia|]|].
      * intros k Hk. eapply (sect_slot_same (fs + fc + 1) d1 d2); [done|lia|].
        eapply (sect_slot_same (fs + fc) d d1); [done|lia|]. apply Hrest. lia.
      * intros [] d3 [Hw3 Hu3]. split; [done|].
        replace ((fc + Z.of_nat (S n)) * 2 ^ 20) with (fc * 2 ^ 20 + (2 ^ 20 + Z.of_nat n * 2 ^ 20)) by lia.
        eapply (unmapped_range_app d d1); [lia..|done|].
        replace (fs * 2 ^ 20 + fc * 2 ^ 20) with ((fs + fc) * 2 ^ 20) by lia.
        eapply (unmapped_range_app d1 d2); [lia..|done|].
        by replace ((fs + fc) * 2 ^ 20 + 2 ^ 20) with ((fs + fc + 1) * 2 ^ 20) by lia.
    + eapply wp_mono; [apply (IH d (fs + fc + 1) fs (fc + 1)); [done|lia|lia|lia|lia| |]|].
      * intros k Hk. destruct (decide (k = fs + fc)) as [->|]; [done|apply Hpend; lia].
      * intros k Hk. apply Hrest. lia.
      * intros [] d' [Hw Hu]. split; [done|]. by replace (fc + Z.of_nat (S n)) with (fc + 1 + Z.of_nat n) by lia.
Qed.

(** What the IOMMU core may ask to unmap as a run of pages: each page of the run
    is mapped, and the run does not cut one. *)
Definition range_mapped (d : domain) (iova pgsize pgcount : Z) : Prop :=
  if pgsize =? SECT_SIZE
  then forall i, iova <= i * 2 ^ 20 < iova + pgsize * pgcount -> sect_slot d i
  else paged d iova (iova + pgsize * pgcount).

Lemma unmap_pages_spec d iova pgsize pgcount :
  wf d -> page_size pgsize -> 0 <= pgcount -> 0 <= iova -> iova + pgsize * pgcount <= 2 ^ 32 ->
  iova < 2 ^ 32 -> iova mod pgsize = 0 -> range_mapped d iova pgsize pgcount ->
  wp (samsung_sysmmu_unmap_pages iova pgsize pgcount) (fun r d' =>
    r = pgsize * pgcount /\ wf d' /\ unmapped_range d d' iova (pgsize * pgcount)) d.
Proof.
  unfold range_mapped. intros Hwf Hsz Hc Hi Hend Hi2 Hal Hr. unfold samsung_sysmmu_unmap_pages.
  assert (0 <= pgsize * pgcount) as Hnn by (destruct Hsz as [-> | [-> | ->]]; sizes; lia).
  rewrite u64_small by lia. apply wp_bind.
  eapply (wp_mono _ (fun _ d' => wf d' /\ unmapped_range d d' iova (pgsize * pgcount))).
  - destruct (Z.eqb_spec pgsize SECT_SIZE) as [->|Hne].
    + change SECT_SIZE with (2 ^ 20) in *. cbv zeta. rewrite u32_small, lv1ent_offset_div by lia.
      assert (exists i, iova = i * 2 ^ 20) as [i ->] by (exists (iova / 2 ^ 20); dlia).
      rewrite Z.div_mul by lia.
      eapply wp_mono; [apply unmap_sections_spec; try done; unfold NUM_LV1ENTRIES in *; try lia|].
      * intros k Hk. apply Hr. lia.
      * intros [] d' [? Hu]. split; [done|].
        by replace (2 ^ 20 * pgcount) with ((0 + Z.of_nat (Z.to_nat pgcount)) * 2 ^ 20) by lia.
    + unfold unmap_slpt. rewrite u32_small by lia.
      assert (iova mod 2 ^ 12 = 0 /\ (pgsize * pgcount) mod 2 ^ 12 = 0) as [Ha1 Ha2].
      { destruct Hsz as [-> | [-> | ->]]; sizes; split; dlia. }
      eapply wp_mono; [apply unmap_slpt_loop_spec; try done; [lia|clear Hal; dlia|]|].
      * unfold sections, SECT_SIZE. clear Hal. case_match; dlia.
      * intros [] d' (? & Hu & _). split; [done|].
        by replace (iova + pgsize * pgcount - iova) with (pgsize * pgcount) in Hu by lia.
  - intros [] d' [Hw Hu]. apply wp_bind, wp_mod, wp_ret. split_and!; [done|by apply wf_log|done].
Qed.

(** Unmapping a run of pages the way the IOMMU core asks for it (a range that
    is mapped, by pages it does not cut) removes the translation of exactly that
    range, reports its size, and keeps the tables and their counters exact. *)
Theorem unmap_pages_range d iova pgsize pgcount :
  wf d -> page_size pgsize -> 0 <= pgcount -> 0 <= iova -> iova + pgsize * pgcount <= 2 ^ 32 ->
  iova < 2 ^ 32 -> iova mod pgsize = 0 -> range_mapped d iova pgsize pgcount ->
  wp (samsung_sysmmu_unmap_pages iova pgsize pgcount) (fun r d' =>
    r = pgsize * pgcount /\ wf d' /\ unmapped_range d d' iova (pgsize * pgcount)) d.
Proof. apply unmap_pages_spec. Qed.

(** ** Releasing a domain *)

(** The tables left are those of the slots from [i] on. *)
Definition tables_from (d d' : domain) (i : Z) : Prop :=
  d_page_table d' = d_page_table d /\
  forall base, is_Some (d_slpt d' !! base) <->
    exists j e, i <= j /\ d_page_table d !! j = Some e /\ table_ent e base.

Lemma wf_table_live d j e base :
  wf d -> d_page_table d !! j = Some e -> table_ent e base -> is_Some (d_slpt d !! base).
Proof.
  intros Hwf E H. destruct (wf_sent _ Hwf j) as [E'|e' pa E' H'|e' b t E' H' Hs _ _]; simplify_eq.
  - apply sect_ent_flags in H' as (? & _). apply table_ent_flags in H as (? & _). congruence.
  - by rewrite (table_ent_inj _ _ _ H H'), Hs.
Qed.

Lemma domain_free_loop_spec n d d0 i :
  wf d -> tables_from d d0 i -> i + Z.of_nat n = NUM_LV1ENTRIES ->
  wp (domain_free_loop n i) (fun _ d' => d_slpt d' = ∅) d0.
Proof.
  intros Hwf. revert d0 i; induction n as [|n IH]; intros d0 i [Hp Ht] Hn; simpl.
  - apply wp_ret. apply map_empty. intros base. apply eq_None_not_Some. rewrite Ht.
    intros (j & e & Hj & E & _). assert (0 <= j < NUM_LV1ENTRIES) by (apply (wf_range _ Hwf); by eexists). lia.
  - apply wp_bind, wp_get_sent. rewrite Hp.
    destruct (lv1ent_page (rd (d_page_table d) i)) eqn:Epg.
    + destruct (wf_sent _ Hwf i) as [E|e pa E H|e base t E H Hs _ _].
      * by rewrite (rd_None _ _ E) in Epg.
      * rewrite (rd_Some _ _ _ E) in Epg. apply sect_ent_flags in H as (_ & ? & _). congruence.
      * rewrite (rd_Some _ _ _ E). pose proof (table_ent_flags _ _ H) as (_ & _ & _ & -> & _).
        destruct (proj2 (Ht base)) as [t0 Ht0]; [by exists i, e|].
        apply wp_bind. unfold free_table. eapply wp_eq; [by rewrite Ht0|]. apply IH; [|lia].
        split; [done|]. intros b. simpl. rewrite lookup_delete_is_Some, Ht. split.
        -- intros (Hne & j & e' & Hj & E' & H'). exists j, e'. split_and!; [|done..].
           destruct (decide (j = i)) as [->|]; [|lia]. simplify_eq. by destruct Hne; eapply table_ent_inj.
        -- intros (j & e' & Hj & E' & H'). split; [|exists j, e'; split_and!; [lia|done..]].
           intros ->. assert (i = j) by (by eapply (wf_inj _ Hwf)). lia.
    + apply wp_bind, wp_ret, IH; [|lia]. split; [done|]. intros b. rewrite Ht. split.
      * intros (j & e' & Hj & E' & H'). exists j, e'. split_and!; [|done..].
        destruct (decide (j = i)) as [->|]; [|lia]. by destruct (no_table_ent d i e' b Epg E').
      * intros (j & e' & Hj & E' & H'). exists j, e'. split_and!; [lia|done..].
Qed.

(** Releasing a well-formed domain releases each of its second-level tables
    exactly once: none is left, and none is released twice (a second release of
    the same table is a fault of the model). *)
Theorem domain_free_releases d :
  wf d -> wp samsung_sysmmu_domain_free (fun _ d' => d_slpt d' = ∅) d.
Proof.
  intros Hwf. apply (domain_free_loop_spec _ d); [done| |done]. split; [done|].
  intros base. split.
  - intros Hb. destruct (wf_used _ Hwf base Hb) as (j & e & E & H). exists j, e.
    split_and!; [|done..]. apply (wf_range _ Hwf). by eexists.
  - intros (j & e & _ & E & H). by eapply wf_table_live.
Qed.

Lemma small_demo_paged : paged small_demo 0x12345000 (0x12345000 + SPAGE_SIZE * 1).
Proof.
  assert (forall a, 0x12345000 <= a < 0x12345000 + SPAGE_SIZE * 1 -> pent_of small_demo a = Some 0x8000002) as Hp.
  { intros a Ha. unfold pent_of.
    assert (lv1ent_offset a = 0x123 /\ lv2ent_offset a = 0x45) as [-> ->]
      by (rewrite lv1ent_offset_div, lv2ent_offset_div; sizes; dlia).
    vm_compute; reflexivity. }
  split; [intros a Ha; rewrite Hp by done; by eexists|].
  intros a b e pa Ha E Hl _. rewrite Hp in E by done. simplify_eq.
  apply large_ent_flags in Hl as (Hl & _). by vm_compute in Hl.
Qed.

Lemma unmap_pages_range_witness :
  walk small_demo 0x12345678 = Some 0x80000678 /\
  wp (samsung_sysmmu_unmap_pages 0x12345000 SPAGE_SIZE 1) (fun r d' =>
    r = SPAGE_SIZE * 1 /\ wf d' /\ unmapped_range small_demo d' 0x12345000 (SPAGE_SIZE * 1)) small_demo.
Proof.
  split; [vm_compute; reflexivity|].
  apply unmap_pages_range; [apply wf_small_demo|by left|lia|lia|sizes; lia|lia|vm_compute; reflexivity|].
  apply small_demo_paged.
Defined.

Lemma domain_free_releases_witness :
  d_slpt small_demo <> ∅ /\ wp samsung_sysmmu_domain_free (fun _ d' => d_slpt d' = ∅) small_demo.
Proof. split; [by vm_compute|]. apply domain_free_releases. apply wf_small_demo. Defined.

(** ** Histories of a domain *)

(** The abstract domain: the physical address behind each device address. *)
Definition translation : Type := Z -> option Z.
Definition tr_map (m : translation) (iova paddr size : Z) : translation :=
  fun a => if decide (iova <= a < iova + size) then Some (paddr + (a - iova)) else m a.
Definition tr_unmap (m : translation) (iova size : Z) : translation :=
  fun a => if decide (iova <= a < iova + size) then None else m a.

(** The domains the IOMMU core can bring about, each with the abstract domain
    the answers of the driver so far describe. *)
Inductive reach : domain -> translation -> Prop :=
| reach_alloc type p t c freed d :
    samsung_sysmmu_domain_alloc type p t c = (Some d, freed) -> reach d (fun _ => None)
| reach_map d m iova paddr size prot table r d' :
    reach d m -> page_size size -> 0 <= iova < 2 ^ 32 -> iova mod size = 0 ->
    0 <= paddr < 2 ^ 36 -> paddr mod size = 0 -> table_avail d table ->
    samsung_sysmmu_map iova paddr size prot table d = Done r d' ->
    reach d' (if r =? 0 then tr_map m iova paddr size else m)
| reach_unmap d m iova size r d' :
    reach d m -> page_size size -> 0 <= iova < 2 ^ 32 -> iova mod size = 0 ->
    samsung_sysmmu_unmap iova size d = Done r d' -> reach d' (tr_unmap m iova r)
| reach_unmap_pages d m iova pgsize pgcount r d' :
    reach d m -> page_size pgsize -> 0 <= pgcount -> 0 <= iova -> iova + pgsize * pgcount <= 2 ^ 32 ->
    iova < 2 ^ 32 -> iova mod pgsize = 0 -> range_mapped d iova pgsize pgcount ->
    samsung_sysmmu_unmap_pages iova pgsize pgcount d = Done r d' -> reach d' (tr_unmap m iova r).

Lemma reach_inv d m : reach d m -> wf d /\ forall a, 0 <= a < 2 ^ 32 -> walk d a = m a.
Proof.
  induction 1 as [type p t c freed d E|d m iova paddr size prot table r d' _ [Hwf IH] Hsz Hi Hia Hp Hpa Hav E
                  |d m iova size r d' _ [Hwf IH] Hsz Hi Hia E
                  |d m iova pgsize pgcount r d' _ [Hwf IH] Hsz Hc Hi0 Hend Hi Hia Hr E].
  - assert (d = new_domain) as -> by (destruct type, p, t, c; simpl in E; congruence). by split; [apply wf_alloc|].
  - pose proof (map_spec d iova paddr size prot table Hwf Hsz Hi Hia Hp Hpa Hav) as H.
    unfold wp in H. rewrite E in H. destruct H as [Hw [(-> & _ & H)|[(-> & H & _)|(-> & H & _)]]];
      split; try done; intros a Ha; rewrite H by done; [|by apply IH..].
    simpl. unfold tr_map. case_decide; [done|by apply IH].
  - pose proof (unmap_spec d iova size Hwf Hsz Hi Hia) as H. unfold wp in H. rewrite E in H.
    destruct H as (Hw & _ & H & _). split; [done|]. intros a Ha. rewrite H by done.
    unfold tr_unmap. case_decide; [done|by apply IH].
  - pose proof (unmap_pages_spec d iova pgsize pgcount Hwf Hsz Hc Hi0 Hend Hi Hia Hr) as H. unfold wp in H.
    rewrite E in H. destruct H as (-> & Hw & H). split; [done|]. intros a Ha. rewrite H by done.
    unfold tr_unmap. case_decide; [done|by apply IH].
Qed.


(** A small page and a section are mapped and the small page unmapped again. *)
Definition demo_history : M domain Z :=
  do! samsung_sysmmu_map 0x12345000 0x80000000 SPAGE_SIZE 0 (Some 0x40000) in
  do! samsung_sysmmu_map 0x20000000 0x90000000 SECT_SIZE 0 None in
  samsung_sysmmu_unmap 0x12345000 SPAGE_SIZE.

