(* ===== verification/SysmmuSync.v ===== *)
(** * Synchronising new mappings with the hardware

    Mapping writes second-level entries through the cache; the hardware walks
    memory. [samsung_sysmmu_iotlb_sync_map] cleans the entries of a mapped range. *)

From S2P Require Import Prelude SysmmuPt SysmmuFacts SysmmuMap SysmmuUnmap SysmmuRange.

(** Entry [j] of the table at [base] is cleaned by one of the events. *)
Definition flushed (evs : list event) (base j : Z) : Prop :=
  exists idx n, EvFlushLv2 base idx n ∈ evs /\ idx <= j < idx + n.

Lemma flushed_app evs evs' base j : flushed (evs ++ evs') base j <-> flushed evs base j \/ flushed evs' base j.
Proof. unfold flushed. setoid_rewrite elem_of_app. naive_solver. Qed.

Lemma flushed_nil base j : ~ flushed [] base j.
Proof. by intros (idx & n & ?%elem_of_nil & _). Qed.

Lemma flushed_one base' idx n base j : flushed [EvFlushLv2 base' idx n] base j <-> base = base' /\ idx <= j < idx + n.
Proof.
  unfold flushed. setoid_rewrite list_elem_of_singleton. split.
  - intros (i & k & E & H). by simplify_eq.
  - intros [-> H]. by exists idx, n.
Qed.

(** The second-level entry behind an address of [lo, hi). *)
Definition entry_of_range (d : domain) (lo hi base j : Z) : Prop :=
  exists a, lo <= a < hi /\ lv1ent_section (rd (d_page_table d) (lv1ent_offset a)) = false /\
    base = lv2table_base (rd (d_page_table d) (lv1ent_offset a)) /\ j = lv2ent_offset a.

Lemma entry_of_range_split d lo mid hi base j :
  lo <= mid <= hi -> entry_of_range d lo hi base j <-> entry_of_range d lo mid base j \/ entry_of_range d mid hi base j.
Proof.
  intros H. unfold entry_of_range. split.
  - intros (a & Ha & H1). destruct (Z.lt_ge_cases a mid); [left|right]; exists a; (split; [lia|done]).
  - intros [(a & Ha & H1)|(a & Ha & H1)]; exists a; (split; [lia|done]).
Qed.

(** Within one section the entries of a range are consecutive. *)
Lemma entry_of_section d lo hi base j :
  0 <= lo < hi -> hi <= (lo / 2 ^ 20 + 1) * 2 ^ 20 -> lo mod 2 ^ 12 = 0 -> hi mod 2 ^ 12 = 0 ->
  let sent := rd (d_page_table d) (lv1ent_offset lo) in
  entry_of_range d lo hi base j <->
  lv1ent_section sent = false /\ base = lv2table_base sent /\
  lv2ent_offset lo <= j < lv2ent_offset lo + (hi - lo) / 2 ^ 12.
Proof.
  intros Hlo Hhi Ha1 Ha2 sent. unfold entry_of_range, sent. split.
  - intros (a & Ha & H1 & H2 & ->).
    assert (lv1ent_offset a = lv1ent_offset lo) as E by (rewrite !lv1ent_offset_div; dlia).
    rewrite E in H1, H2. split_and!; [done..| |]; rewrite !lv2ent_offset_div; dlia.
  - intros (H1 & H2 & H3). exists (lo + (j - lv2ent_offset lo) * 2 ^ 12).
    rewrite lv2ent_offset_div in *.
    assert (lv1ent_offset (lo + (j - lo mod 2 ^ 20 / 2 ^ 12) * 2 ^ 12) = lv1ent_offset lo) as E
      by (rewrite !lv1ent_offset_div; dlia).
    rewrite E. split_and!; [dlia|dlia|done|done|]. rewrite lv2ent_offset_div. dlia.
Qed.

(** The operation changes nothing but the log, to which it adds [evs]. *)
Definition flush_post (d : domain) (lo hi : Z) (d' : domain) : Prop :=
  exists evs, d' = d <| d_log := d_log d ++ evs |> /\
    forall base j, flushed evs base j <-> entry_of_range d lo hi base j.

Lemma flush_post_nil d x : flush_post d x x d.
Proof.
  exists []. split; [rewrite app_nil_r; by destruct d|]. intros base j. split; [by intros ?%flushed_nil|].
  intros (a & ? & _). lia.
Qed.

Lemma flush_post_app d lo mid hi d1 d2 :
  lo <= mid <= hi -> flush_post d lo mid d1 -> flush_post d1 mid hi d2 -> flush_post d lo hi d2.
Proof.
  intros H (evs1 & -> & H1) (evs2 & -> & H2). exists (evs1 ++ evs2). split.
  - destruct d. simpl. by rewrite app_assoc.
  - intros base j. rewrite flushed_app, H1, H2, (entry_of_range_split d lo mid hi) by done. done.
Qed.

(** The step of one section. *)
Lemma sync_section d lo hi :
  0 <= lo < hi -> hi <= 2 ^ 32 -> hi <= (lo / 2 ^ 20 + 1) * 2 ^ 20 -> lo mod 2 ^ 12 = 0 -> hi mod 2 ^ 12 = 0 ->
  wp (let! sent := get_sent (lv1ent_offset lo) in
      if lv1ent_section sent then kret tt
      else emit (EvFlushLv2 (lv2table_base sent) (lv2ent_offset (u32 lo)) (Z.shiftr (hi - lo) SPAGE_ORDER)))
    (fun _ d' => flush_post d lo hi d') d.
Proof.
  intros Hlo Hhi Hsec Ha1 Ha2. apply wp_bind, wp_get_sent. rewrite u32_small by lia.
  destruct (lv1ent_section _) eqn:Es.
  - apply wp_ret. exists []. split; [rewrite app_nil_r; by destruct d|]. intros base j.
    rewrite entry_of_section, Es by done. split; [by intros ?%flushed_nil|by intros [? _]].
  - apply wp_mod. eexists. split; [reflexivity|]. intros base j.
    rewrite entry_of_section, flushed_one, Es by done.
    unfold SPAGE_ORDER. rewrite Z.shiftr_div_pow2 by lia. naive_solver.
Qed.

Lemma sync_map_loop_spec fuel d iova iend :
  0 <= iova <= iend -> iend <= 2 ^ 32 -> iova mod 2 ^ 12 = 0 -> iend mod 2 ^ 12 = 0 ->
  sections iova iend < Z.of_nat fuel ->
  wp (sync_map_loop fuel (lv1ent_offset iova) iova iend) (fun _ d' => flush_post d iova iend d') d.
Proof.
  revert d iova; induction fuel as [|fuel IH]; intros d iova Hi He Ha1 Ha2 Hf; unfold sections in Hf.
  { destruct (Z.ltb_spec iova iend); [dlia|lia]. }
  simpl. destruct (Z.ltb_spec iova iend) as [Hlt|Hge].
  2: { apply wp_ret. replace iend with iova by lia. apply flush_post_nil. }
  change (SECT_SIZE - 1) with (2 ^ 20 - 1). rewrite ldiff_low by lia. change SECT_SIZE with (2 ^ 20).
  set (send := if iend <? (iova + 2 ^ 20) / 2 ^ 20 * 2 ^ 20 then iend else (iova + 2 ^ 20) / 2 ^ 20 * 2 ^ 20).
  assert (iova < send <= iend /\ send <= (iova / 2 ^ 20 + 1) * 2 ^ 20 /\ send mod 2 ^ 12 = 0 /\
    (send = iend \/ send = (iova / 2 ^ 20 + 1) * 2 ^ 20)) as (Hs1 & Hs2 & Hs3 & Hs4).
  { unfold send. destruct (Z.ltb_spec iend ((iova + 2 ^ 20) / 2 ^ 20 * 2 ^ 20)); dlia. }
  clearbody send. apply (wp_assoc _ _ (fun _ => _)), wp_bind.
  eapply wp_mono; [apply sync_section; done || lia|].
  intros [] d1 H1. destruct Hs4 as [-> | Hbd].
  - assert (sync_map_loop fuel (lv1ent_offset iova + 1) iend iend d1 = Done tt d1) as Hstop.
    { destruct fuel; [dlia|]. simpl. by rewrite Z.ltb_irrefl. }
    by eapply wp_eq.
  - replace (lv1ent_offset iova + 1) with (lv1ent_offset send) by (rewrite !lv1ent_offset_div, Hbd; dlia).
    eapply wp_mono; [apply (IH d1 send); try done; [lia|]|].
    + unfold sections. destruct (Z.ltb_spec send iend); dlia.
    + intros [] d2 H2. eapply flush_post_app; [|done|done]. lia.
Qed.

(** Synchronising a mapped range cleans the second-level entry behind every
    address of the range and no other entry, section by section, and changes
    no table. *)
Theorem sync_map_cleans_range d iova size :
  0 <= iova -> 0 <= size -> iova + size <= 2 ^ 32 -> iova < 2 ^ 32 -> iova mod 2 ^ 12 = 0 -> size mod 2 ^ 12 = 0 ->
  wp (samsung_sysmmu_iotlb_sync_map iova size) (fun _ d' => exists evs,
    d' = d <| d_log := d_log d ++ evs |> /\
    forall base j, flushed evs base j <-> entry_of_range d iova (iova + size) base j) d.
Proof.
  intros Hi Hs He Hlt Ha1 Ha2. unfold samsung_sysmmu_iotlb_sync_map. rewrite u32_small by lia.
  apply sync_map_loop_spec; [lia|lia|done|dlia|]. unfold sections. change SECT_SIZE with (2 ^ 20).
  destruct (Z.ltb_spec iova (iova + size)); dlia.
Qed.

Lemma sync_map_cleans_range_witness :
  flushed [EvFlushLv2 0x40000 0x45 1] 0x40000 0x45 /\
  wp (samsung_sysmmu_iotlb_sync_map 0x12345000 SPAGE_SIZE) (fun _ d' => exists evs,
    d' = small_demo <| d_log := d_log small_demo ++ evs |> /\
    forall base j, flushed evs base j <-> entry_of_range small_demo 0x12345000 (0x12345000 + SPAGE_SIZE) base j) small_demo.
Proof.
  split; [apply flushed_one; lia|].
  apply sync_map_cleans_range; [lia|unfold SPAGE_SIZE; lia|unfold SPAGE_SIZE; lia|lia|vm_compute; reflexivity..].
Defined.
