(* ===== verification/SysmmuAttach.v ===== *)
(** * Attaching devices to SysMMUs ([drivers/iommu/samsung-iommu.c])

    A client device sits behind one or more SysMMUs; a SysMMU may serve several
    devices, which must then share one domain. Each SysMMU counts its attached
    devices and holds the page table its hardware walks. *)

From S2P Require Import Prelude SysmmuPt.

(** ** Hardware registers *)

Definition REG_MMU_CTRL : Z := 0x000.
Definition REG_MMU_CFG : Z := 0x004.
Definition REG_MMU_S2PF_ENABLE : Z := 0x7000.
Definition MMU_S2PF_ENABLE : Z := BIT 0.
Definition CTRL_VID_ENABLE : Z := BIT 0.
Definition CTRL_MMU_ENABLE : Z := BIT 0.
Definition CTRL_MMU_BLOCK : Z := BIT 1.
Definition CTRL_FAULT_STALL_MODE : Z := BIT 3.
Definition CFG_QOS_OVRRIDE : Z := BIT 11.
Definition CFG_QOS (n : Z) : Z := Z.shiftl (Z.land n 15) 7.
Definition DEFAULT_QOS_VALUE : Z := -1.
Definition UNUSED_TLB_INDEX : Z := 2 ^ 32 - 1.
Definition DEFAULT_TLB_NONE : Z := 2 ^ 32 - 1.
Definition MAX_VIDS : Z := 8.

Definition REG_MMU_TLB_CFG (n : Z) : Z := 0x2000 + n * 0x20 + 0x4.
Definition REG_MMU_TLB_MATCH_CFG (n : Z) : Z := 0x2000 + n * 0x20 + 0x8.
Definition REG_MMU_TLB_MATCH_ID (n : Z) : Z := 0x2000 + n * 0x20 + 0x14.
Definition MMU_TLB_CFG_MASK (reg : Z) : Z := Z.land reg 0xEE.
Definition MMU_TLB_MATCH_CFG_MASK (reg : Z) : Z := Z.land reg 0xFFFF0300.

(** The registers whose place depends on the hardware's VM support. *)
Inductive reg_idx :=
| IDX_CTRL_VM | IDX_CFG_VM | IDX_FLPT_BASE | IDX_ALL_INV | IDX_VPN_INV | IDX_RANGE_INV
| IDX_RANGE_INV_START | IDX_RANGE_INV_END | IDX_FAULT_VA | IDX_FAULT_TRANS_INFO
| IDX_TLB_READ | IDX_TLB_VPN | IDX_TLB_PPN | IDX_TLB_ATTR
| IDX_SBB_READ | IDX_SBB_VPN | IDX_SBB_LINK | IDX_SBB_ATTR | IDX_SEC_FLPT_BASE.

(** The offset without and with VM support. *)
Definition sysmmu_reg_set (vm : bool) (idx : reg_idx) : Z :=
  let pick default_ vm_ := if vm then vm_ else default_ in
  match idx with
  | IDX_CTRL_VM => pick 0x1 0x8000
  | IDX_CFG_VM => pick 0x1 0x8004
  | IDX_FLPT_BASE => pick 0x000C 0x800C
  | IDX_ALL_INV => pick 0x0010 0x8010
  | IDX_VPN_INV => pick 0x0014 0x8014
  | IDX_RANGE_INV => pick 0x0018 0x8018
  | IDX_RANGE_INV_START => pick 0x0020 0x8020
  | IDX_RANGE_INV_END => pick 0x0024 0x8024
  | IDX_FAULT_VA => pick 0x0070 0x1000
  | IDX_FAULT_TRANS_INFO => pick 0x0078 0x1004
  | IDX_TLB_READ => pick 0x8000 0x3000
  | IDX_TLB_VPN => pick 0x8004 0x3004
  | IDX_TLB_PPN => pick 0x8008 0x3008
  | IDX_TLB_ATTR => pick 0x800C 0x300C
  | IDX_SBB_READ => pick 0x8020 0x3020
  | IDX_SBB_VPN => pick 0x8024 0x3024
  | IDX_SBB_LINK => pick 0x8028 0x3028
  | IDX_SBB_ATTR => pick 0x802C 0x302C
  | IDX_SEC_FLPT_BASE => pick 0x000C 0x000C
  end.

Definition MMU_VM_REG_MULT (idx : reg_idx) : Z :=
  match idx with IDX_FAULT_VA | IDX_FAULT_TRANS_INFO => 0x10 | _ => 0x1000 end.

(** ** State *)

Record tlb_config := TlbConfig { tc_index : Z; tc_cfg : Z; tc_match_cfg : Z; tc_match_id : Z }.

(** [struct sysmmu_drvdata]; [dd_regs] is its register file, [dd_active] what
    [pm_runtime_active] answers for its device, [dd_inv] the invalidations
    requested: the whole TLB of a VM, or a range. *)
Inductive inval := InvAll (vid : Z) | InvRange (vid start end_ : Z).

Record drvdata := MkDrv {
  dd_regs : gmap Z Z;
  dd_inv : list inval;
  dd_pgtable : gmap Z Z;
  dd_group : option Z;
  dd_attached_count : Z;
  dd_qos : Z;
  dd_default_cfg : Z;
  dd_tlb : list tlb_config;
  dd_no_block_mode : bool;
  dd_has_vcr : bool;
  dd_no_s2pf : bool;
  dd_rpm_resume : bool;
  dd_async_fault_mode : bool;
  dd_active : bool
}.
#[export] Instance eta_drvdata : Eta drvdata := mk_eta (fun d =>
  MkDrv (dd_regs d) (dd_inv d) (dd_pgtable d) (dd_group d) (dd_attached_count d) (dd_qos d)
    (dd_default_cfg d) (dd_tlb d) (dd_no_block_mode d) (dd_has_vcr d) (dd_no_s2pf d)
    (dd_rpm_resume d) (dd_async_fault_mode d) (dd_active d)).

(** [struct samsung_sysmmu_domain], as far as attaching sees it. *)
Record sdomain := MkSdom {
  sd_page_table : Z;
  sd_group : option Z;
  sd_vm_sysmmu : option Z;
  sd_vid : Z;
  sd_force_aperture : bool;
  sd_aperture_start : Z;
  sd_aperture_end : Z
}.
#[export] Instance eta_sdomain : Eta sdomain := mk_eta (fun d =>
  MkSdom (sd_page_table d) (sd_group d) (sd_vm_sysmmu d) (sd_vid d) (sd_force_aperture d)
    (sd_aperture_start d) (sd_aperture_end d)).

(** A client device: its group, whether its IOMMU instance data names this
    driver, its SysMMUs and the device-tree properties of its DMA window. *)
Record device := MkDev {
  dev_iommu_group : Z;
  dev_fwspec : option bool;
  dev_client : option (list Z);
  dev_dma_window : option (list Z);
  dev_dma_address_cells : option Z;
  dev_n_addr_cells : Z;
  dev_dma_size_cells : option Z;
  dev_n_size_cells : Z
}.

Record world := MkWorld {
  w_drv : gmap Z drvdata;
  w_dom : gmap Z sdomain;
  w_groups : gmap Z (list Z)
}.
#[export] Instance eta_world : Eta world := mk_eta (fun w => MkWorld (w_drv w) (w_dom w) (w_groups w)).

(** ** Register access *)

(** A word access to an unaligned device address is an exception. *)
Definition readl (off : Z) : M drvdata Z := fun d =>
  if off mod 4 =? 0 then Done (rd (dd_regs d) off) d else Fault.
Definition writel (v off : Z) : M drvdata unit := fun d =>
  if off mod 4 =? 0 then Done tt (d <| dd_regs := <[off := u32 v]> (dd_regs d) |>) else Fault.

Definition MMU_VM_REG (d : drvdata) (idx : reg_idx) (vid : Z) : Z :=
  sysmmu_reg_set (dd_has_vcr d) idx + vid * MMU_VM_REG_MULT idx.
Definition vm_read (idx : reg_idx) (vid : Z) : M drvdata Z :=
  let! d := kget in readl (MMU_VM_REG d idx vid).
Definition vm_write (v : Z) (idx : reg_idx) (vid : Z) : M drvdata unit :=
  let! d := kget in writel v (MMU_VM_REG d idx vid).

Definition max_vids (d : drvdata) : Z := if dd_has_vcr d then MAX_VIDS else 1.

(** ** TLB and enabling *)

Definition sysmmu_tlb_invalidate_all (vid : Z) : M drvdata unit :=
  do! vm_write 1 IDX_ALL_INV vid in
  kmod (fun d => d <| dd_inv := dd_inv d ++ [InvAll vid] |>).

Definition sysmmu_tlb_invalidate (vid start end_ : Z) : M drvdata unit :=
  let lo := Z.ldiff start (SPAGE_SIZE - 1) in
  let hi := Z.ldiff end_ (SPAGE_SIZE - 1) in
  do! vm_write lo IDX_RANGE_INV_START vid in
  do! vm_write hi IDX_RANGE_INV_END vid in
  do! vm_write 1 IDX_RANGE_INV vid in
  kmod (fun d => d <| dd_inv := dd_inv d ++ [InvRange vid (u32 lo) (u32 hi)] |>).

Definition sysmmu_disable : M drvdata unit :=
  let! data := kget in
  if dd_no_block_mode data then sysmmu_tlb_invalidate_all 0
  else
    let! ctrl_val := readl REG_MMU_CTRL in
    let ctrl_val := Z.ldiff ctrl_val CTRL_MMU_ENABLE in
    writel (Z.lor ctrl_val CTRL_MMU_BLOCK) REG_MMU_CTRL.

Fixpoint set_tlb_loop (cfg : list tlb_config) : M drvdata unit :=
  match cfg with
  | [] => kret tt
  | c :: cfg =>
      do! (if tc_index c =? UNUSED_TLB_INDEX then kret tt
           else
             do! writel (MMU_TLB_CFG_MASK (tc_cfg c)) (REG_MMU_TLB_CFG (tc_index c)) in
             do! writel (MMU_TLB_MATCH_CFG_MASK (tc_match_cfg c)) (REG_MMU_TLB_MATCH_CFG (tc_index c)) in
             writel (tc_match_id c) (REG_MMU_TLB_MATCH_ID (tc_index c))) in
      set_tlb_loop cfg
  end.

Definition sysmmu_set_tlb : M drvdata unit :=
  let! data := kget in
  do! (if dd_default_cfg data =? DEFAULT_TLB_NONE then kret tt
       else writel (MMU_TLB_CFG_MASK (dd_default_cfg data)) (REG_MMU_TLB_CFG 0)) in
  set_tlb_loop (dd_tlb data).

Definition sysmmu_init_config : M drvdata unit :=
  let! data := kget in
  let! cfg := readl REG_MMU_CFG in
  let cfg := if dd_qos data =? DEFAULT_QOS_VALUE then cfg
             else Z.lor (Z.ldiff cfg (CFG_QOS 0xF)) (Z.lor CFG_QOS_OVRRIDE (CFG_QOS (u32 (dd_qos data)))) in
  do! (if dd_no_s2pf data then
         let! val := readl REG_MMU_S2PF_ENABLE in
         writel (Z.ldiff val MMU_S2PF_ENABLE) REG_MMU_S2PF_ENABLE
       else kret tt) in
  do! sysmmu_set_tlb in
  writel cfg REG_MMU_CFG.

Definition sysmmu_enable_vid (vid : Z) : M drvdata unit :=
  let! data := kget in
  do! vm_write (rd (dd_pgtable data) vid / SPAGE_SIZE) IDX_FLPT_BASE vid in
  do! sysmmu_tlb_invalidate_all vid in
  let! ctrl_val := vm_read IDX_CTRL_VM vid in
  let ctrl_val := if dd_async_fault_mode data then Z.ldiff ctrl_val CTRL_FAULT_STALL_MODE
                  else Z.lor ctrl_val CTRL_FAULT_STALL_MODE in
  vm_write (Z.lor ctrl_val CTRL_VID_ENABLE) IDX_CTRL_VM vid.

Fixpoint enable_vids (n : nat) (vid : Z) : M drvdata unit :=
  match n with
  | O => kret tt
  | S n =>
      let! data := kget in
      do! (if rd (dd_pgtable data) vid =? 0 then kret tt else sysmmu_enable_vid vid) in
      enable_vids n (vid + 1)
  end.

Definition sysmmu_enable : M drvdata unit :=
  let! data := kget in
  let! ctrl_val := readl REG_MMU_CTRL in
  do! (if dd_no_block_mode data then kret tt
       else writel (Z.lor ctrl_val CTRL_MMU_BLOCK) REG_MMU_CTRL) in
  do! sysmmu_init_config in
  do! enable_vids (Z.to_nat (max_vids data)) 0 in
  writel (Z.lor ctrl_val CTRL_MMU_ENABLE) REG_MMU_CTRL.

(** ** Attach and detach *)

(** Work on one SysMMU, under its lock. *)
Definition on_drv {A} (i : Z) (c : M drvdata A) : M world A := fun w =>
  match w_drv w !! i with
  | None => Fault
  | Some d =>
      match c d with
      | Done a d' => Done a (w <| w_drv := <[i := d']> (w_drv w) |>)
      | Blocked => Blocked
      | Fault => Fault
      end
  end.

Definition list_add (i g : Z) : M world unit := fun w =>
  match w_groups w !! g with
  | None => Fault
  | Some l => Done tt (w <| w_groups := <[g := i :: l]> (w_groups w) |>)
  end.
Definition unlink (i : Z) (l : list Z) : list Z := filter (fun j => j <> i) l.
Definition list_del (i : Z) : M world unit :=
  kmod (fun w => w <| w_groups := unlink i <$> w_groups w |>).

Definition samsung_sysmmu_detach_drvdata (i : Z) : M world unit :=
  let! last := on_drv i (
    do! kmod (fun d => d <| dd_attached_count := s32 (dd_attached_count d - 1) |>) in
    let! d := kget in
    if dd_attached_count d =? 0 then
      do! (if dd_active d then sysmmu_disable else kret tt) in kret true
    else kret false) in
  if last : bool then
    do! list_del i in
    on_drv i (kmod (fun d => d <| dd_pgtable := wr (dd_pgtable d) 0 0 |> <| dd_group := None |>))
  else kret tt.

(** One turn of the loop of [samsung_sysmmu_attach_dev]: [false] leaves it. *)
Definition attach_drvdata (group page_table i : Z) : M world bool :=
  let! w := kget in
  match w_drv w !! i with
  | None => kfault
  | Some d =>
      do! on_drv i (kmod (fun d => d <| dd_attached_count := s32 (dd_attached_count d + 1) |>)) in
      if dd_attached_count d =? 0 then
        do! list_add i group in
        do! on_drv i (
          do! kmod (fun d => d <| dd_group := Some group |>
                               <| dd_pgtable := wr (dd_pgtable d) 0 page_table |>) in
          if dd_active d then sysmmu_enable else kret tt) in
        kret true
      else kret (rd (dd_pgtable d) 0 =? page_table)
  end.

(** The loop: [done] are the SysMMUs already attached, most recent first. *)
Fixpoint attach_loop (group page_table : Z) (done todo : list Z) : M world (bool * list Z) :=
  match todo with
  | [] => kret (true, done)
  | i :: todo =>
      let! ok := attach_drvdata group page_table i in
      if ok : bool then attach_loop group page_table (i :: done) todo
      else kret (false, done)
  end.

Fixpoint detach_loop (l : list Z) : M world unit :=
  match l with
  | [] => kret tt
  | i :: l => do! samsung_sysmmu_detach_drvdata i in detach_loop l
  end.

(** [of_read_number(cell, n)]. *)
Fixpoint of_read_number (n : nat) (r : Z) (cells : list Z) : Z :=
  match n, cells with
  | S n, c :: cells => of_read_number n (u64 (Z.lor (Z.shiftl r 32) c)) cells
  | _, _ => r
  end.

Definition samsung_sysmmu_get_dma_window (dev : device) : Z + Z * Z :=
  match dev_dma_window dev with
  | None => inl (- ENODEV)
  | Some window =>
      let cells := default (dev_n_addr_cells dev) (dev_dma_address_cells dev) in
      if cells =? 0 then inl (- EINVAL)
      else
        let addr := of_read_number (Z.to_nat cells) 0 window in
        let window := drop (Z.to_nat cells) window in
        let cells := default (dev_n_size_cells dev) (dev_dma_size_cells dev) in
        if cells =? 0 then inl (- EINVAL)
        else inr (addr, of_read_number (Z.to_nat cells) 0 window)
  end.

Definition DMA_BIT_MASK (n : Z) : Z := 2 ^ n - 1.

Definition samsung_sysmmu_set_domain_range (dom : Z) (dev : device) : M world Z := fun w =>
  match w_dom w !! dom with
  | None => Fault
  | Some geom =>
      match samsung_sysmmu_get_dma_window dev with
      | inl _ => Done 0 w
      | inr (start, size) =>
          let end_ := u64 (start + size) in
          let end_ := if end_ >? DMA_BIT_MASK 32 then DMA_BIT_MASK 32 else end_ in
          if sd_force_aperture geom then
            let d_start := Z.max start (sd_aperture_start geom) in
            let d_end := Z.min end_ (sd_aperture_end geom) in
            if d_start >=? d_end then Done (- ERANGE) w
            else Done 0 (w <| w_dom := <[dom := geom <| sd_aperture_start := d_start |>
                                                     <| sd_aperture_end := d_end |>]> (w_dom w) |>)
          else Done 0 (w <| w_dom := <[dom := geom <| sd_aperture_start := start |>
                                                   <| sd_aperture_end := end_ |>
                                                   <| sd_force_aperture := true |>]> (w_dom w) |>)
      end
  end.

Definition attach_helper (d : sdomain) (dev : device) : Z + list Z :=
  match dev_fwspec dev with
  | None | Some false => inl (- ENXIO)
  | Some true =>
      match dev_client dev with
      | None => inl (- ENODEV)
      | Some client => match sd_vm_sysmmu d with Some _ => inl (- EBUSY) | None => inr client end
      end
  end.

Definition samsung_sysmmu_attach_dev (dom : Z) (dev : device) : M world Z :=
  let! w := kget in
  match w_dom w !! dom with
  | None => kfault
  | Some d =>
      match attach_helper d dev with
      | inl err => kret err
      | inr client =>
          let group := dev_iommu_group dev in
          do! kmod (fun w => w <| w_dom := <[dom := d <| sd_group := Some group |>]> (w_dom w) |>) in
          let! res := attach_loop group (sd_page_table d) [] client in
          if fst res then
            let! ret := samsung_sysmmu_set_domain_range dom dev in
            if ret =? 0 then kret 0
            else do! detach_loop (snd res) in kret ret
          else
            do! detach_loop (snd res) in kret (- EINVAL)
      end
  end.

Definition samsung_sysmmu_detach_dev (dev : device) : M world unit :=
  match dev_client dev with
  | None => kfault
  | Some client => detach_loop client
  end.

(** ** TLB maintenance and power management *)

Definition if_running (c : M drvdata unit) : M drvdata unit :=
  let! d := kget in
  if negb (dd_attached_count d =? 0) && dd_rpm_resume d then c else kret tt.

Fixpoint for_group (l : list Z) (c : M drvdata unit) : M world unit :=
  match l with
  | [] => kret tt
  | i :: l => do! on_drv i c in for_group l c
  end.

(** The SysMMUs of a domain: the one of an auxiliary domain, else its group's. *)
Definition on_domain (dom : Z) (c : Z -> M drvdata unit) : M world unit :=
  let! w := kget in
  match w_dom w !! dom with
  | None => kfault
  | Some d =>
      match sd_vm_sysmmu d, sd_group d with
      | Some i, _ => on_drv i (if_running (c (sd_vid d)))
      | None, Some g =>
          match w_groups w !! g with
          | Some l => for_group l (if_running (c 0))
          | None => kfault
          end
      | None, None => kret tt
      end
  end.

Definition samsung_sysmmu_flush_iotlb_all (dom : Z) : M world unit :=
  on_domain dom sysmmu_tlb_invalidate_all.

Definition samsung_sysmmu_iotlb_sync (dom gather_start gather_end : Z) : M world unit :=
  on_domain dom (fun vid => sysmmu_tlb_invalidate vid gather_start gather_end).

Definition samsung_sysmmu_runtime_suspend : M drvdata unit :=
  do! kmod (fun d => d <| dd_rpm_resume := false |>) in
  let! d := kget in
  if dd_attached_count d >? 0 then sysmmu_disable else kret tt.

Definition samsung_sysmmu_runtime_resume : M drvdata unit :=
  do! kmod (fun d => d <| dd_rpm_resume := true |>) in
  let! d := kget in
  if dd_attached_count d >? 0 then sysmmu_enable else kret tt.

(** System sleep: a device that is already suspended is left alone; otherwise the
    answer tells that it must be resumed. *)
Definition samsung_sysmmu_suspend (status_suspended : bool) : M drvdata bool :=
  if status_suspended then kret false
  else do! samsung_sysmmu_runtime_suspend in kret true.

Definition samsung_sysmmu_resume (status_suspended : bool) : M drvdata unit :=
  if status_suspended then kret tt else samsung_sysmmu_runtime_resume.

(** ** Describing a device to the IOMMU core *)

(** [ids] is what [iommu_fwspec_add_ids] answers, [alloc] and [realloc] whether
    memory is found; SysMMU [i] is added to the device's list. *)
Definition samsung_sysmmu_of_xlate (dev : device) (i : Z) (ids : Z) (alloc realloc : bool) : Z * device :=
  if negb (ids =? 0) then (ids, dev)
  else
    let with_client c := MkDev (dev_iommu_group dev) (dev_fwspec dev) (Some c) (dev_dma_window dev)
      (dev_dma_address_cells dev) (dev_n_addr_cells dev) (dev_dma_size_cells dev) (dev_n_size_cells dev) in
    match dev_client dev, alloc with
    | None, false => (- ENOMEM, dev)
    | _, _ =>
        let client := default [] (dev_client dev) in
        if realloc then (ids, with_client (client ++ [i])) else (- ENOMEM, with_client client)
    end.

Definition samsung_sysmmu_dev_has_feat (dev : device) : M world bool := fun w =>
  match dev_fwspec dev, dev_client dev with
  | Some true, Some [i] =>
      match w_drv w !! i with Some d => Done (dd_has_vcr d) w | None => Fault end
  | _, _ => Done false w
  end.

Definition samsung_sysmmu_dev_enable_feat (dev : device) : M world Z :=
  let! feat := samsung_sysmmu_dev_has_feat dev in
  kret (if feat : bool then 0 else - EINVAL).

Definition samsung_sysmmu_dev_disable_feat (dev : device) : Z := - EINVAL.
