(* ===== verification/SysmmuDevices.v ===== *)
(** * Correctness of attaching and detaching, and of power management

    Each SysMMU's count is the number of attachments it serves; a SysMMU that
    serves none is off every list and holds no page table. The registers are lost
    while a SysMMU is off; [samsung_sysmmu_runtime_resume] programs them again from
    the driver's own record of the page tables. *)

From S2P Require Import Prelude SysmmuPt SysmmuFacts SysmmuMap SysmmuRange SysmmuAttach.

(** ** Hardware programming touches only the hardware *)

(** On a SysMMU with ([vcr]) or without VM support the operation completes and
    changes nothing but registers and the record of invalidations. *)
Definition hw (vcr : bool) {A} (c : M drvdata A) : Prop := forall d, dd_has_vcr d = vcr ->
  exists a rg iv, c d = Done a (d <| dd_regs := rg |> <| dd_inv := iv |>).

Section Hw.
Context (vcr : bool).

Lemma hw_bind {A B} (c : M drvdata A) (k : A -> M drvdata B) :
  hw vcr c -> (forall a, hw vcr (k a)) -> hw vcr (kbind c k).
Proof.
  intros Hc Hk d Hd. destruct (Hc d Hd) as (a & rg & iv & E).
  pose proof (Hk a (d <| dd_regs := rg |> <| dd_inv := iv |>)) as Hk'.
  destruct (Hk' Hd) as (b & rg' & iv' & E').
  exists b, rg', iv'. unfold kbind. rewrite E, E'. reflexivity.
Qed.

Lemma hw_ret {A} (a : A) : hw vcr (kret a).
Proof. intros d _. exists a, (dd_regs d), (dd_inv d). by destruct d. Qed.
Lemma hw_get : hw vcr kget.
Proof. intros d _. exists d, (dd_regs d), (dd_inv d). by destruct d. Qed.
Lemma hw_inv i : hw vcr (kmod (fun d => d <| dd_inv := dd_inv d ++ [i] |>)).
Proof. intros d _. exists tt, (dd_regs d), (dd_inv d ++ [i]). by destruct d. Qed.
Lemma hw_readl off : off mod 4 = 0 -> hw vcr (readl off).
Proof.
  intros Ho d _. eexists _, (dd_regs d), (dd_inv d). unfold readl. rewrite Ho. simpl. by destruct d.
Qed.
Lemma hw_writel v off : off mod 4 = 0 -> hw vcr (writel v off).
Proof.
  intros Ho d _. eexists tt, _, (dd_inv d). unfold writel. rewrite Ho. simpl. by destruct d.
Qed.
End Hw.

(** All the VM registers are there with VM support; without it, all but the
    control register. *)
Lemma vm_reg_aligned d idx vid :
  dd_has_vcr d = true \/ (idx <> IDX_CTRL_VM /\ idx <> IDX_CFG_VM) -> MMU_VM_REG d idx vid mod 4 = 0.
Proof. intros H. unfold MMU_VM_REG. destruct (dd_has_vcr d), idx; simpl; try (dlia); naive_solver. Qed.

Lemma hw_vm_read idx vid : hw true (vm_read idx vid).
Proof. intros d Hd. by apply (hw_readl true _ (vm_reg_aligned d idx vid (or_introl Hd))). Qed.
Lemma hw_vm_write v idx vid : hw true (vm_write v idx vid).
Proof. intros d Hd. by apply (hw_writel true v _ (vm_reg_aligned d idx vid (or_introl Hd))). Qed.
Lemma hw_vm_write_any vcr v idx vid : idx <> IDX_CTRL_VM /\ idx <> IDX_CFG_VM -> hw vcr (vm_write v idx vid).
Proof. intros Hi d Hd. by apply (hw_writel vcr v _ (vm_reg_aligned d idx vid (or_intror Hi))). Qed.

Create HintDb hw.
#[export] Hint Resolve hw_ret hw_get hw_inv hw_vm_read hw_vm_write : hw.

Ltac hw_auto := repeat first [solve [auto with hw]
  | match goal with |- hw _ (kbind _ _) => apply hw_bind; [|intros ?] end
  | apply hw_vm_write_any; done
  | apply hw_readl; solve [done | unfold REG_MMU_TLB_CFG; dlia]
  | apply hw_writel;
    solve [done | unfold REG_MMU_TLB_CFG, REG_MMU_TLB_MATCH_CFG, REG_MMU_TLB_MATCH_ID; dlia]
  | case_match].

Lemma hw_invalidate_all vcr vid : hw vcr (sysmmu_tlb_invalidate_all vid).
Proof. unfold sysmmu_tlb_invalidate_all. hw_auto. Qed.
#[export] Hint Resolve hw_invalidate_all : hw.
Lemma hw_disable vcr : hw vcr sysmmu_disable.
Proof. unfold sysmmu_disable. hw_auto. Qed.
Lemma hw_set_tlb_loop vcr l : hw vcr (set_tlb_loop l).
Proof. induction l; simpl; hw_auto; done. Qed.
#[export] Hint Resolve hw_disable hw_set_tlb_loop : hw.
Lemma hw_init_config vcr : hw vcr sysmmu_init_config.
Proof. unfold sysmmu_init_config, sysmmu_set_tlb. hw_auto. Qed.
Lemma hw_enable_vid vid : hw true (sysmmu_enable_vid vid).
Proof. unfold sysmmu_enable_vid. hw_auto. Qed.
#[export] Hint Resolve hw_init_config hw_enable_vid : hw.
Lemma hw_enable_vids n vid : hw true (enable_vids n vid).
Proof. revert vid; induction n; intros vid; simpl; hw_auto; done. Qed.
#[export] Hint Resolve hw_enable_vids : hw.
Lemma hw_enable : hw true sysmmu_enable.
Proof. unfold sysmmu_enable. hw_auto. Qed.
#[export] Hint Resolve hw_enable : hw.

(** ** The invariant *)

Definition cnt (w : world) (i : Z) : Z := from_option dd_attached_count 0 (w_drv w !! i).
Definition pgt (w : world) (i : Z) : Z := from_option (fun d => rd (dd_pgtable d) 0) 0 (w_drv w !! i).

Record drv_inv (w : world) (i : Z) (d : drvdata) : Prop := {
  di_vcr : dd_has_vcr d = true;
  di_count : 0 <= dd_attached_count d < 2 ^ 31;
  di_idle : dd_attached_count d = 0 -> dd_group d = None /\ rd (dd_pgtable d) 0 = 0;
  di_busy : 0 < dd_attached_count d -> exists g l, dd_group d = Some g /\ w_groups w !! g = Some l /\ i ∈ l
}.

Record attach_inv (w : world) : Prop := {
  ai_drv : forall i d, w_drv w !! i = Some d -> drv_inv w i d;
  ai_list : forall g l i, w_groups w !! g = Some l -> i ∈ l -> exists d, w_drv w !! i = Some d /\
    0 < dd_attached_count d /\ dd_group d = Some g;
  ai_nodup : forall g l, w_groups w !! g = Some l -> NoDup l
}.

Lemma cnt_insert w i d j :
  cnt (w <| w_drv := <[i := d]> (w_drv w) |>) j = if decide (i = j) then dd_attached_count d else cnt w j.
Proof. unfold cnt. simpl. rewrite lookup_insert. by case_decide. Qed.
Lemma pgt_insert w i d j :
  pgt (w <| w_drv := <[i := d]> (w_drv w) |>) j = if decide (i = j) then rd (dd_pgtable d) 0 else pgt w j.
Proof. unfold pgt. simpl. rewrite lookup_insert. by case_decide. Qed.

(** ** One SysMMU *)

Section OneSysmmu.
Context (w : world) (i : Z) (d : drvdata).
Hypothesis Hinv : attach_inv w.
Hypothesis Hd : w_drv w !! i = Some d.

(** The count changes but stays positive. *)
Lemma inv_recount d' :
  0 < dd_attached_count d -> 0 < dd_attached_count d' < 2 ^ 31 ->
  dd_has_vcr d' = dd_has_vcr d -> dd_group d' = dd_group d ->
  attach_inv (w <| w_drv := <[i := d']> (w_drv w) |>).
Proof.
  intros Hc Hc' Hv Hg. split; simpl.
  - intros j x [[<- <-]|[Hne Hx]]%lookup_insert_Some.
    + destruct (ai_drv _ Hinv _ _ Hd) as [H1 _ _ H4].
      split; [congruence|lia|lia|]. intros _. rewrite Hg. by apply H4.
    + destruct (ai_drv _ Hinv _ _ Hx) as [H1 H2 H3 H4]. by split.
  - intros g l j Hl Hj. destruct (ai_list _ Hinv g l j Hl Hj) as (x & Hx & H1 & H2).
    destruct (decide (i = j)) as [->|Hne].
    + exists d'. rewrite lookup_insert_eq. split_and!; [done|lia|]. congruence.
    + exists x. by rewrite lookup_insert_ne.
  - apply Hinv.
Qed.

(** The first attachment. *)
Lemma inv_first d' g l :
  dd_attached_count d = 0 -> w_groups w !! g = Some l -> dd_attached_count d' = 1 ->
  dd_has_vcr d' = dd_has_vcr d -> dd_group d' = Some g ->
  attach_inv (MkWorld (<[i := d']> (w_drv w)) (w_dom w) (<[g := i :: l]> (w_groups w))).
Proof.
  intros Hc Hl Hc' Hv Hg.
  assert (forall g' l', w_groups w !! g' = Some l' -> i ∉ l') as Hout.
  { intros g' l' Hl' Hi. destruct (ai_list _ Hinv _ _ _ Hl' Hi) as (x & Hx & ? & _). simplify_eq. lia. }
  split; simpl.
  - intros j x [[<- <-]|[Hne Hx]]%lookup_insert_Some.
    + destruct (ai_drv _ Hinv _ _ Hd) as [H1 _ _ _]. split; [congruence|lia|lia|].
      intros _. exists g, (i :: l). simpl. rewrite lookup_insert_eq. split_and!; [done|done|]. left.
    + destruct (ai_drv _ Hinv _ _ Hx) as [H1 H2 H3 H4]. split; [done..|].
      intros Hp. destruct (H4 Hp) as (g' & l' & Hg' & Hl' & Hj). simpl. destruct (decide (g = g')) as [->|Hne'].
      * exists g', (i :: l). rewrite lookup_insert_eq. simplify_eq. split_and!; [done..|by right].
      * exists g', l'. by rewrite lookup_insert_ne.
  - intros g' l' j [[<- <-]|[Hne Hl']]%lookup_insert_Some Hj.
    + apply elem_of_cons in Hj as [->|Hj].
      * exists d'. rewrite lookup_insert_eq. split_and!; [done|lia|done].
      * destruct (ai_list _ Hinv _ _ _ Hl Hj) as (x & Hx & ? & ?). exists x.
        rewrite lookup_insert_ne; [done|]. intros <-. simplify_eq. lia.
    + destruct (ai_list _ Hinv _ _ _ Hl' Hj) as (x & Hx & ? & ?). exists x.
      rewrite lookup_insert_ne; [done|]. intros <-. simplify_eq. lia.
  - intros g' l' [[<- <-]|[Hne Hl']]%lookup_insert_Some; [|by eapply ai_nodup].
    constructor; [by eapply Hout|by eapply ai_nodup].
Qed.

(** The last detachment. *)
Lemma inv_last d' :
  dd_attached_count d' = 0 -> dd_has_vcr d' = dd_has_vcr d -> dd_group d' = None ->
  rd (dd_pgtable d') 0 = 0 ->
  attach_inv (MkWorld (<[i := d']> (w_drv w)) (w_dom w) (unlink i <$> w_groups w)).
Proof.
  intros Hc' Hv Hg Hp. split; simpl.
  - intros j x [[<- <-]|[Hne Hx]]%lookup_insert_Some.
    + destruct (ai_drv _ Hinv _ _ Hd) as [H1 _ _ _]. split; [congruence|lia|done|lia].
    + destruct (ai_drv _ Hinv _ _ Hx) as [H1 H2 H3 H4]. split; [done..|].
      intros Hq. destruct (H4 Hq) as (g & l & ? & Hl & Hj). exists g, (unlink i l). simpl.
      rewrite lookup_fmap, Hl. split_and!; [done..|]. unfold unlink. by apply list_elem_of_filter.
  - intros g l' j Hl Hj. rewrite lookup_fmap in Hl.
    destruct (w_groups w !! g) as [l|] eqn:E; [|done]. simplify_eq/=.
    apply list_elem_of_filter in Hj as [Hne Hj].
    destruct (ai_list _ Hinv _ _ _ E Hj) as (x & ? & ? & ?). exists x. by rewrite lookup_insert_ne.
  - intros g l' Hl. rewrite lookup_fmap in Hl.
    destruct (w_groups w !! g) as [l|] eqn:E; [|done]. simplify_eq/=.
    apply NoDup_filter. by eapply ai_nodup.
Qed.
End OneSysmmu.

(** The same SysMMUs, groups and domains. *)
Record same_shape (w w' : world) : Prop := {
  ss_drv : forall i, is_Some (w_drv w' !! i) <-> is_Some (w_drv w !! i);
  ss_groups : forall g, is_Some (w_groups w' !! g) <-> is_Some (w_groups w !! g);
  ss_dom : w_dom w' = w_dom w
}.
#[export] Instance same_shape_preorder : PreOrder same_shape.
Proof.
  split; [by split|]. intros w1 w2 w3 [A1 A2 A3] [B1 B2 B3].
  split; intros; [rewrite B1; apply A1|rewrite B2; apply A2|congruence].
Qed.

Lemma is_Some_insert {K A} `{Countable K} (m : gmap K A) k v j :
  is_Some (m !! k) -> is_Some (<[k := v]> m !! j) <-> is_Some (m !! j).
Proof.
  intros Hk. rewrite lookup_insert_is_Some. split; [by intros [<-|[_ ?]]|].
  intros Hj. destruct (decide (k = j)); [by left|by right].
Qed.

(** What attaching SysMMU [i] to [pt] does to the counts and page tables. *)
Lemma attach_drvdata_spec w g pt i :
  attach_inv w -> is_Some (w_drv w !! i) -> is_Some (w_groups w !! g) -> cnt w i + 1 < 2 ^ 31 ->
  wp (attach_drvdata g pt i) (fun ok w' => attach_inv w' /\ same_shape w w' /\
    (forall j, cnt w' j = cnt w j + if decide (i = j) then 1 else 0) /\
    (forall j, pgt w' j = if decide (i = j /\ cnt w i = 0) then pt else pgt w j) /\
    ok = bool_decide (pgt w' i = pt)) w.
Proof.
  intros Hinv [d Hd] [l Hl] Hc. assert (cnt w i = dd_attached_count d) as Hcd by (unfold cnt; by rewrite Hd).
  assert (pgt w i = rd (dd_pgtable d) 0) as Hpd by (unfold pgt; by rewrite Hd).
  destruct (ai_drv _ Hinv _ _ Hd) as [Hv Hr _ _]. unfold attach_drvdata.
  apply wp_bind, wp_get. rewrite Hd. apply wp_bind.
  eapply wp_eq; [unfold on_drv; rewrite Hd; reflexivity|]. cbv beta. rewrite s32_small by lia.
  destruct (Z.eqb_spec (dd_attached_count d) 0) as [Hz|Hnz].
  - rewrite Hz. apply wp_bind. eapply wp_eq; [unfold list_add; simpl; rewrite Hl; reflexivity|].
    match goal with |- wp (kbind (on_drv _ ?c) _) _ _ => assert (exists rg iv,
      c (d <| dd_attached_count := 0 + 1 |>) = Done tt (d <| dd_attached_count := 0 + 1 |>
        <| dd_group := Some g |> <| dd_pgtable := wr (dd_pgtable d) 0 pt |>
        <| dd_regs := rg |> <| dd_inv := iv |>)) as (rg & iv & E) end.
    { unfold kbind, kmod. destruct (dd_active d).
      - match goal with |- context [sysmmu_enable ?x] => destruct (hw_enable x Hv) as ([] & rg & iv & E) end.
        by exists rg, iv.
      - exists (dd_regs d), (dd_inv d). by destruct d. }
    apply wp_bind. eapply wp_eq.
    { unfold on_drv. simpl. rewrite lookup_insert_eq. simpl in E. rewrite E. reflexivity. }
    apply wp_ret. rewrite insert_insert_eq.
    match goal with |- attach_inv (?x) /\ _ => set (w' := x) end.
    assert (forall j, pgt w' j = if decide (i = j /\ cnt w i = 0) then pt else pgt w j) as Hpg.
    { intros j. unfold w', pgt. simpl. rewrite lookup_insert, Hcd. repeat case_decide; simpl; try done; [apply rd_wr|naive_solver..]. }
    split_and!; [by eapply (inv_first w i d) | | |exact Hpg|].
    + split; simpl; [|intros; apply is_Some_insert; by eexists|done].
      intros; apply is_Some_insert; by eexists.
    + intros j. unfold w', cnt. simpl. rewrite lookup_insert.
      destruct (decide (i = j)) as [<-|]; [rewrite Hd; simpl; lia|lia].
    + rewrite Hpg, decide_True by (split; [done|lia]). by rewrite bool_decide_true.
  - apply wp_ret. rewrite <- Hcd in Hnz.
    split_and!; [eapply (inv_recount w i d); simpl; done || lia| | | |].
    + split; simpl; [|done|done]. intros; apply is_Some_insert; by eexists.
    + intros j. rewrite cnt_insert. destruct (decide (i = j)) as [<-|]; simpl; lia.
    + intros j. rewrite pgt_insert. rewrite (decide_False (P := i = j /\ cnt w i = 0)) by naive_solver.
      case_decide; subst; simpl; congruence.
    + rewrite pgt_insert, decide_True by done. simpl.
      destruct (Z.eqb_spec (rd (dd_pgtable d) 0) pt); [by rewrite bool_decide_true|by rewrite bool_decide_false].
Qed.

Lemma detach_drvdata_spec w i :
  attach_inv w -> 0 < cnt w i ->
  wp (samsung_sysmmu_detach_drvdata i) (fun _ w' => attach_inv w' /\ same_shape w w' /\
    (forall j, cnt w' j = cnt w j - if decide (i = j) then 1 else 0) /\
    (forall j, pgt w' j = if decide (i = j /\ cnt w i = 1) then 0 else pgt w j)) w.
Proof.
  intros Hinv Hc. unfold cnt in Hc. destruct (w_drv w !! i) as [d|] eqn:Hd; [|simpl in Hc; lia]. simpl in Hc.
  assert (cnt w i = dd_attached_count d) as Hcd by (unfold cnt; by rewrite Hd).
  assert (pgt w i = rd (dd_pgtable d) 0) as Hpd by (unfold pgt; by rewrite Hd).
  destruct (ai_drv _ Hinv _ _ Hd) as [Hv Hr _ _]. unfold samsung_sysmmu_detach_drvdata.
  set (d1 := d <| dd_attached_count := s32 (dd_attached_count d - 1) |>).
  assert (dd_attached_count d1 = dd_attached_count d - 1) as Hc1 by (simpl; rewrite s32_small; lia).
  destruct (decide (dd_attached_count d = 1)) as [H1|H1].
  - assert (exists rg iv, on_drv i (
      do! kmod (fun d => d <| dd_attached_count := s32 (dd_attached_count d - 1) |>) in
      let! d := kget in
      if dd_attached_count d =? 0 then
        do! (if dd_active d then sysmmu_disable else kret tt) in kret true
      else kret false) w = Done true (w <| w_drv :=
        <[i := d1 <| dd_regs := rg |> <| dd_inv := iv |>]> (w_drv w) |>)) as (rg & iv & E).
    { unfold on_drv. rewrite Hd. unfold kbind, kmod, kget. fold d1.
      rewrite Hc1, H1. change (1 - 1 =? 0) with true. cbv iota. change (dd_active d1) with (dd_active d).
      destruct (dd_active d).
      - destruct (hw_disable true d1 Hv) as ([] & rg & iv & E). exists rg, iv. by rewrite E.
      - exists (dd_regs d1), (dd_inv d1). by destruct d. }
    apply wp_bind. eapply wp_eq; [exact E|]. cbv iota. apply wp_bind, wp_mod.
    eapply wp_eq; [unfold on_drv; simpl; rewrite lookup_insert_eq; reflexivity|].
    simpl. rewrite insert_insert_eq. match goal with |- attach_inv ?x /\ _ => set (w' := x) end.
    split_and!.
    + eapply (inv_last w i d); try done; [by simpl in *; lia|]. apply rd_wr.
    + split; simpl; [|intros; by rewrite lookup_fmap, fmap_is_Some|done].
      intros; apply is_Some_insert; by eexists.
    + intros j. unfold w', cnt. simpl. rewrite lookup_insert.
      destruct (decide (i = j)) as [<-|]; [rewrite Hd; simpl in *; lia|lia].
    + intros j. unfold w', pgt. simpl. rewrite lookup_insert.
      destruct (decide (i = j)) as [<-|Hne]; simpl.
      * rewrite decide_True by (split; [done|congruence]). apply rd_wr.
      * rewrite decide_False by naive_solver. done.
  - apply wp_bind. eapply wp_eq.
    { unfold on_drv. rewrite Hd. unfold kbind, kmod, kget. fold d1.
      rewrite Hc1, (proj2 (Z.eqb_neq _ _)) by lia. reflexivity. }
    apply wp_ret. split_and!.
    + eapply (inv_recount w i d); try done. lia.
    + split; simpl; [|done|done]. intros; apply is_Some_insert; by eexists.
    + intros j. rewrite cnt_insert. destruct (decide (i = j)) as [<-|]; lia.
    + intros j. rewrite pgt_insert, (decide_False (P := i = j /\ cnt w i = 1)) by (intros [_ ?]; congruence).
      destruct (decide (i = j)) as [<-|]; [simpl; congruence|done].
Qed.

(** ** Whole devices *)

(** How often [i] occurs among the SysMMUs of a client. *)
Fixpoint occ (i : Z) (l : list Z) : Z :=
  match l with
  | [] => 0
  | j :: l => (if decide (j = i) then 1 else 0) + occ i l
  end.

Lemma occ_nonneg i l : 0 <= occ i l.
Proof. induction l as [|j l IH]; simpl; [lia|case_decide; lia]. Qed.
Lemma occ_length i l : occ i l <= Z.of_nat (length l).
Proof. induction l as [|j l IH]; simpl; [lia|case_decide; lia]. Qed.
Lemma occ_app i l k : occ i (l ++ k) = occ i l + occ i k.
Proof. induction l as [|j l IH]; simpl; [done|lia]. Qed.
Lemma occ_rev i l : occ i (rev l) = occ i l.
Proof. induction l as [|j l IH]; simpl; [done|]. rewrite occ_app. simpl. lia. Qed.
Lemma occ_pos i l : i ∈ l -> 0 < occ i l.
Proof.
  induction l as [|j l IH]; [by intros ?%elem_of_nil|]. pose proof (occ_nonneg i l).
  intros [->|Hi]%elem_of_cons; simpl; [rewrite decide_True by done; lia|]. specialize (IH Hi). case_decide; lia.
Qed.

Lemma detach_loop_spec l w :
  attach_inv w -> (forall j, occ j l <= cnt w j) ->
  wp (detach_loop l) (fun _ w' => attach_inv w' /\ same_shape w w' /\
    (forall j, cnt w' j = cnt w j - occ j l) /\
    (forall j, pgt w' j = if decide (0 < occ j l /\ cnt w j = occ j l) then 0 else pgt w j)) w.
Proof.
  revert w; induction l as [|i l IH]; intros w Hinv Hle; simpl.
  - apply wp_ret. split_and!; [done|done|intros; lia|done].
  - apply wp_bind. eapply wp_mono; [apply detach_drvdata_spec; [done|]|].
    { specialize (Hle i). simpl in Hle. rewrite decide_True in Hle by done. pose proof (occ_nonneg i l). lia. }
    intros [] w1 (Hi1 & Hs1 & Hc1 & Hp1). eapply wp_mono; [apply IH; [done|]|].
    { intros j. rewrite Hc1. specialize (Hle j). simpl in Hle. destruct (decide (i = j)); lia. }
    intros [] w2 (Hi2 & Hs2 & Hc2 & Hp2). split_and!; [done|by etrans| |].
    + intros j. rewrite Hc2, Hc1. lia.
    + intros j. rewrite Hp2, Hp1, Hc1. pose proof (occ_nonneg j l). specialize (Hle j). simpl in Hle.
      destruct (decide (i = j)) as [<-|]; repeat case_decide; try done; lia.
Qed.

(** The outcome of the attach loop over [todo]: [p] was attached, and then
    either nothing was left or SysMMU [i] turned out to belong elsewhere. *)
Definition attach_loop_post (w : world) (pt : Z) (done todo : list Z) (r : bool * list Z) (w' : world) : Prop :=
  attach_inv w' /\ same_shape w w' /\ exists p, snd r = rev p ++ done /\
    (forall j, pgt w' j = if decide (0 < occ j p) then pt else pgt w j) /\
    (forall j, 0 < occ j p -> 0 < cnt w j -> pgt w j = pt) /\
    if fst r then p = todo /\ (forall j, cnt w' j = cnt w j + occ j p)
    else exists i rest, todo = p ++ i :: rest /\ 0 < cnt w i /\ pgt w i <> pt /\
      (forall j, cnt w' j = cnt w j + occ j p + if decide (i = j) then 1 else 0).

Lemma attach_loop_spec todo g pt done w :
  attach_inv w -> (forall i, i ∈ todo -> is_Some (w_drv w !! i)) -> is_Some (w_groups w !! g) ->
  (forall i, cnt w i + Z.of_nat (length todo) < 2 ^ 31) ->
  wp (attach_loop g pt done todo) (attach_loop_post w pt done todo) w.
Proof.
  revert done w; induction todo as [|i todo IH]; intros done w Hinv Hex Hg Hb; simpl.
  - apply wp_ret. split_and!; [done|done|]. exists []. simpl. split_and!; [done|done|lia|done|intros; lia].
  - simpl in Hb. apply wp_bind.
    eapply wp_mono; [apply attach_drvdata_spec; [done|apply Hex; left|done|specialize (Hb i); lia]|].
    intros ok w1 (Hi1 & Hs1 & Hc1 & Hp1 & ->).
    assert (forall j, 0 <= cnt w j) as Hnn.
    { intros j. unfold cnt. destruct (w_drv w !! j) as [d|] eqn:E; [|done]. apply (ai_drv _ Hinv _ _ E). }
    destruct (decide (pgt w1 i = pt)) as [Hpt|Hpt].
    + rewrite bool_decide_true by done. eapply wp_mono; [apply (IH _ w1); [done| | |]|].
      * intros j Hj. apply Hs1, Hex. by right.
      * by apply Hs1.
      * intros j. rewrite Hc1. specialize (Hb j). destruct (decide (i = j)); lia.
      * intros [r l'] w2 (Hi2 & Hs2 & p & Hl & Hp2 & Hold & Hrest).
        split_and!; [done|by etrans|]. exists (i :: p). simpl in *. split_and!.
        -- rewrite Hl, <- app_assoc; done.
        -- intros j. pose proof (occ_nonneg j p). rewrite Hp2, Hp1. rewrite Hp1 in Hpt.
           destruct (decide (i = j)) as [<-|]; repeat case_decide; try done; try lia; naive_solver.
        -- intros j Hj Hcj. destruct (decide (i = j)) as [<-|Hij].
           ++ rewrite Hp1, decide_False in Hpt by (intros [_ ?]; lia). done.
           ++ specialize (Hold j). rewrite Hc1, Hp1, decide_False, decide_False in Hold by naive_solver.
              apply Hold; lia.
        -- destruct r.
           ++ destruct Hrest as (-> & Hc2). split; [done|]. intros j; rewrite Hc2, Hc1; lia.
           ++ destruct Hrest as (k & rest & -> & Hk & Hne & Hc2). exists k, rest.
              assert (i <> k) as Hik by (intros ->; congruence).
              rewrite Hc1, (decide_False (P := i = k)) in Hk by done.
              rewrite Hp1, (decide_False (P := i = k /\ _)) in Hne by naive_solver.
              split_and!; [done|lia|done|intros j; rewrite Hc2, Hc1; lia].
    + rewrite bool_decide_false by done. apply wp_ret. split_and!; [done|done|]. exists [].
      rewrite Hp1 in Hpt. destruct (decide (cnt w i = 0)) as [Hz|Hz]; [by rewrite decide_True in Hpt|].
      rewrite decide_False in Hpt by naive_solver. simpl. split_and!; [done| |lia|].
      * intros j. rewrite Hp1, decide_False by naive_solver. done.
      * exists i, todo. specialize (Hnn i). split_and!; [done|lia|done|]. intros j. rewrite Hc1. lia.
Qed.

(** ** Attaching a device *)

(** A device whose SysMMUs and group are known, with room in the counters. *)
Record attachable (w : world) (dev : device) (client : list Z) : Prop := {
  at_client : dev_client dev = Some client;
  at_drv : forall i, i ∈ client -> is_Some (w_drv w !! i);
  at_group : is_Some (w_groups w !! dev_iommu_group dev);
  at_room : forall i, cnt w i + Z.of_nat (length client) < 2 ^ 31
}.

Lemma rollback w w1 client pt p leak :
  attach_inv w -> attach_inv w1 -> same_shape w w1 ->
  (forall j, 0 < leak j -> 0 < cnt w j) -> (forall j, 0 <= leak j) ->
  (forall j, cnt w1 j = cnt w j + occ j p + leak j) ->
  (forall j, pgt w1 j = if decide (0 < occ j p) then pt else pgt w j) ->
  (forall j, 0 < occ j p -> 0 < cnt w j -> pgt w j = pt) ->
  client = rev p ++ [] ->
  wp (detach_loop client) (fun _ w' => attach_inv w' /\ same_shape w w' /\
    (forall j, cnt w' j = cnt w j + leak j) /\ (forall j, pgt w' j = pgt w j)) w1.
Proof.
  intros Hinv Hi1 Hs1 Hlk Hl0 Hc1 Hp1 Hold ->.
  assert (forall j, 0 <= cnt w j /\ (cnt w j = 0 -> pgt w j = 0)) as Hidle.
  { intros j. unfold cnt, pgt. destruct (w_drv w !! j) as [d|] eqn:E; [|done]. simpl.
    destruct (ai_drv _ Hinv _ _ E) as [_ Hr Hi _]. split; [apply Hr|intros Hz; by apply Hi]. }
  rewrite app_nil_r. eapply wp_mono; [apply detach_loop_spec; [done|]|].
  - intros j. rewrite occ_rev, Hc1. specialize (Hl0 j). destruct (Hidle j). lia.
  - intros [] w2 (Hi2 & Hs2 & Hc2 & Hp2). split_and!; [done|by etrans| |].
    + intros j. rewrite Hc2, Hc1, occ_rev. lia.
    + intros j. rewrite Hp2, Hp1, Hc1, occ_rev. destruct (Hidle j) as [H0 Hz].
      specialize (Hl0 j). specialize (Hlk j). specialize (Hold j).
      repeat case_decide; try done; [symmetry; apply Hz; lia|]. symmetry. apply Hold; [done|].
      destruct (decide (leak j = 0)); [|apply Hlk; lia]. destruct (decide (cnt w j = 0)); lia.
Qed.

Lemma attach_inv_dom w x : attach_inv w -> attach_inv (w <| w_dom := x |>).
Proof.
  intros [H1 H2 H3]. split; simpl; [|done..]. intros i d Hd. destruct (H1 i d Hd) as [? ? ? ?]. by split.
Qed.

(** The domain range never touches a SysMMU. *)
Lemma set_domain_range_spec dom dev w :
  attach_inv w -> is_Some (w_dom w !! dom) ->
  wp (samsung_sysmmu_set_domain_range dom dev) (fun r w' => attach_inv w' /\ (r = 0 \/ r = - ERANGE /\ w' = w) /\
    w_drv w' = w_drv w /\ w_groups w' = w_groups w) w.
Proof.
  intros Hinv [d Hd]. unfold wp, samsung_sysmmu_set_domain_range. rewrite Hd.
  destruct (samsung_sysmmu_get_dma_window dev) as [|[start size]]; [by auto|].
  destruct (sd_force_aperture d); [destruct (_ >=? _)|]; simpl; split_and!; auto; by apply attach_inv_dom.
Qed.

(** What attaching [dev] to the domain [d] leaves of counts and page tables:
    on success every SysMMU of the device is counted once more and walks the
    page table of the domain; a refused range undoes everything; a SysMMU that
    belongs to another domain stays counted once too often. *)
Definition attach_post (w : world) (d : sdomain) (client : list Z) (r : Z) (w' : world) : Prop :=
  attach_inv w' /\
  ((r = 0 /\ (forall j, cnt w' j = cnt w j + occ j client) /\
    (forall j, pgt w' j = if decide (0 < occ j client) then sd_page_table d else pgt w j) /\
    (forall j, 0 < occ j client -> 0 < cnt w j -> pgt w j = sd_page_table d)) \/
   (r = - ERANGE \/ r = - ENXIO \/ r = - EBUSY) /\
     (forall j, cnt w' j = cnt w j) /\ (forall j, pgt w' j = pgt w j) \/
   r = - EINVAL /\ (exists i, i ∈ client /\ 0 < cnt w i /\ pgt w i <> sd_page_table d /\
     (forall j, cnt w' j = cnt w j + if decide (i = j) then 1 else 0)) /\
     (forall j, pgt w' j = pgt w j)).

Lemma attach_dev_spec w dom d dev client :
  attach_inv w -> w_dom w !! dom = Some d -> attachable w dev client ->
  wp (samsung_sysmmu_attach_dev dom dev) (attach_post w d client) w.
Proof.
  intros Hinv Hd [Hcl Hdrv Hgrp Hroom]. unfold samsung_sysmmu_attach_dev. apply wp_bind, wp_get. rewrite Hd.
  destruct (attach_helper d dev) as [err|client'] eqn:Eh; unfold attach_helper in Eh; rewrite Hcl in Eh.
  { apply wp_ret. split; [done|right; left]. repeat case_match; simplify_eq; auto. }
  assert (client' = client) as -> by (repeat case_match; simplify_eq; done).
  apply wp_bind, wp_mod. set (w0 := w <| w_dom := _ |>).
  assert (attach_inv w0) as Hi0 by by apply attach_inv_dom. apply wp_bind.
  eapply wp_mono; [by apply (attach_loop_spec client _ (sd_page_table d) [] w0)|].
  intros [ok l] w1 (Hi1 & Hs1 & p & Hl & Hp1 & Hold & Hrest). simpl in *. destruct ok.
  - destruct Hrest as [-> Hc1]. apply wp_bind. eapply wp_mono.
    { apply set_domain_range_spec; [done|]. rewrite (ss_dom _ _ Hs1). simpl. rewrite lookup_insert_eq. by eexists. }
    intros r w2 (Hi2 & Hr & Hdrv2 & Hgrp2).
    destruct (Z.eqb_spec r 0) as [->|Hne].
    + apply wp_ret. split; [done|left]. unfold cnt, pgt in *. rewrite !Hdrv2.
      split_and!; [done|exact Hc1|exact Hp1|exact Hold].
    + destruct Hr as [?|[-> ->]]; [done|]. apply wp_bind. eapply wp_mono.
      { apply (rollback w0 w1 l (sd_page_table d) client (fun _ => 0)); try done. intros j. rewrite Hc1. lia. }
      intros [] w3 (Hi3 & _ & Hc3 & Hp3). apply wp_ret. split; [done|right; left].
      split_and!; [by left|intros j; rewrite Hc3; apply Z.add_0_r|exact Hp3].
  - destruct Hrest as (i & rest & -> & Hci & Hpi & Hc1). apply wp_bind. eapply wp_mono.
    { apply (rollback w0 w1 l (sd_page_table d) p (fun j => if decide (i = j) then 1 else 0)); try done;
        intros j; case_decide; by subst. }
    intros [] w3 (Hi3 & _ & Hc3 & Hp3). apply wp_ret. split; [done|right; right].
    split_and!; [done| |exact Hp3]. exists i. split_and!; [set_solver|done..].
Qed.

(** Attaching a device keeps every SysMMU's count, list membership and page
    table consistent, on success and on every error, and changes the counts
    exactly as [attach_post] says. *)
Theorem attach_accounts w dom d dev client :
  attach_inv w -> w_dom w !! dom = Some d -> attachable w dev client ->
  wp (samsung_sysmmu_attach_dev dom dev) (attach_post w d client) w.
Proof. apply attach_dev_spec. Qed.

(** Detaching a device that was attached returns every SysMMU to the count
    and page table it had before. *)
Theorem attach_detach_restores w dom d dev client :
  attach_inv w -> w_dom w !! dom = Some d -> attachable w dev client ->
  wp (let! r := samsung_sysmmu_attach_dev dom dev in
      do! (if r =? 0 then samsung_sysmmu_detach_dev dev else kret tt) in kret r)
    (fun r w' => attach_inv w' /\ (r = 0 ->
       (forall j, cnt w' j = cnt w j) /\ (forall j, pgt w' j = pgt w j))) w.
Proof.
  intros Hinv Hd Ha. apply wp_bind. eapply wp_mono; [by eapply attach_dev_spec|].
  assert (forall j, 0 <= cnt w j /\ (cnt w j = 0 -> pgt w j = 0)) as Hidle.
  { intros j. unfold cnt, pgt. destruct (w_drv w !! j) as [x|] eqn:E; [|done]. simpl.
    destruct (ai_drv _ Hinv _ _ E) as [_ Hr Hi _]. split; [apply Hr|intros Hz; by apply Hi]. }
  intros r w1 (Hi1 & [(-> & Hc1 & Hp1 & Hold)|[(Hr & _)|(Hr & _)]]).
  - apply wp_bind. change (0 =? 0) with true. unfold samsung_sysmmu_detach_dev. rewrite (at_client _ _ _ Ha).
    eapply wp_mono; [apply detach_loop_spec; [done|]|].
    + intros j. rewrite Hc1. destruct (Hidle j). lia.
    + intros [] w2 (Hi2 & _ & Hc2 & Hp2). apply wp_ret. split; [done|]. intros _. split.
      * intros j. rewrite Hc2, Hc1. lia.
      * intros j. rewrite Hp2, Hp1, Hc1. destruct (Hidle j). specialize (Hold j).
        repeat case_decide; try done; symmetry; auto with lia.
  - assert (r <> 0) by (destruct Hr as [->|[->| ->]]; done).
    rewrite (proj2 (Z.eqb_neq _ _)) by done. apply wp_bind, wp_ret, wp_ret. by split.
  - rewrite Hr. apply wp_bind, wp_ret, wp_ret. by split.
Qed.

(** ** Invalidations *)

(** The invalidations SysMMU [i] has been asked for. *)
Definition inv_of (w : world) (i : Z) : list inval := from_option dd_inv [] (w_drv w !! i).
Definition running (w : world) (i : Z) : bool :=
  from_option (fun d => negb (dd_attached_count d =? 0) && dd_rpm_resume d) false (w_drv w !! i).

Lemma for_group_spec l (c : M drvdata unit) ev w :
  (forall d, dd_has_vcr d = true -> exists rg, c d = Done tt (d <| dd_regs := rg |> <| dd_inv := dd_inv d ++ [ev] |>)) ->
  NoDup l -> (forall i, i ∈ l -> exists d, w_drv w !! i = Some d /\ dd_has_vcr d = true) ->
  wp (for_group l (if_running c)) (fun _ w' => forall i,
    inv_of w' i = inv_of w i ++ (if decide (i ∈ l) then if running w i then [ev] else [] else [])) w.
Proof.
  intros Hc. revert w; induction l as [|j l IH]; intros w Hnd Hex; simpl.
  - apply wp_ret. intros i. by rewrite app_nil_r.
  - apply NoDup_cons in Hnd as [Hj Hnd]. apply wp_bind.
    destruct (Hex j) as (d & Hd & Hv); [left|]. destruct (Hc d Hv) as [rg E].
    set (d' := if negb (dd_attached_count d =? 0) && dd_rpm_resume d
               then d <| dd_regs := rg |> <| dd_inv := dd_inv d ++ [ev] |> else d).
    eapply (wp_eq _ _ _ tt (w <| w_drv := <[j := d']> (w_drv w) |>)).
    { unfold on_drv, if_running, kbind, kget. rewrite Hd. unfold d'. destruct (_ && _); [by rewrite E|done]. }
    assert (forall i, i <> j -> (w_drv (w <| w_drv := <[j := d']> (w_drv w) |>)) !! i = w_drv w !! i) as Hoff
      by (intros; simpl; by rewrite lookup_insert_ne).
    eapply wp_mono; [apply IH; [done|]|].
    + intros i Hi. rewrite Hoff by (intros ->; done). apply Hex. by right.
    + intros [] w2 H i. rewrite H. destruct (decide (i = j)) as [->|Hne].
      * rewrite (decide_False (P := j ∈ l)), decide_True, app_nil_r by (done || left).
        unfold inv_of, running. simpl. rewrite lookup_insert_eq, Hd. simpl. unfold d'.
        destruct (_ && _); simpl; [done|by rewrite app_nil_r].
      * unfold inv_of, running. rewrite Hoff by done. f_equal.
        destruct (decide (i ∈ l)); [rewrite decide_True by (by right)|rewrite decide_False by set_solver]; done.
Qed.

Lemma invalidate_run vid s e d :
  dd_has_vcr d = true -> exists rg, sysmmu_tlb_invalidate vid s e d
    = Done tt (d <| dd_regs := rg |> <| dd_inv := dd_inv d ++
        [InvRange vid (u32 (Z.ldiff s (SPAGE_SIZE - 1))) (u32 (Z.ldiff e (SPAGE_SIZE - 1)))] |>).
Proof.
  intros Hv. unfold sysmmu_tlb_invalidate, vm_write, kbind, kget, writel. cbv beta zeta.
  repeat (rewrite vm_reg_aligned by (by left); change (0 =? 0) with true; cbv iota). by eexists.
Qed.

(** Synchronising the TLBs after an unmap asks every running SysMMU of the
    domain's group, and no other, for exactly one invalidation of the gathered
    range, rounded down to pages. *)
Theorem iotlb_sync_reaches_group w dom d g l s e :
  attach_inv w -> w_dom w !! dom = Some d -> sd_vm_sysmmu d = None -> sd_group d = Some g ->
  w_groups w !! g = Some l ->
  wp (samsung_sysmmu_iotlb_sync dom s e) (fun _ w' => forall i, inv_of w' i = inv_of w i ++
    (if decide (i ∈ l) then
       if running w i then [InvRange 0 (u32 (s / 2 ^ 12 * 2 ^ 12)) (u32 (e / 2 ^ 12 * 2 ^ 12))] else []
     else [])) w.
Proof.
  intros Hinv Hd Hvm Hg Hl. unfold samsung_sysmmu_iotlb_sync, on_domain.
  apply wp_bind, wp_get. rewrite Hd, Hvm, Hg, Hl.
  eapply for_group_spec.
  - intros x Hx. destruct (invalidate_run 0 s e x Hx) as [rg E]. exists rg. rewrite E.
    unfold SPAGE_SIZE. by rewrite !ldiff_low by lia.
  - by eapply ai_nodup.
  - intros i Hi. destruct (ai_list _ Hinv _ _ _ Hl Hi) as (x & Hx & _). exists x. split; [done|].
    apply (ai_drv _ Hinv _ _ Hx).
Qed.

(** ** Hardware without VM support *)

(** Enabling a SysMMU without VM support that has a page table makes an
    access to a register it does not have, at an unaligned address: the access
    is an exception, whatever its configuration. *)
Theorem enable_without_vm_faults d :
  dd_has_vcr d = false -> rd (dd_pgtable d) 0 <> 0 -> sysmmu_enable d = Fault.
Proof.
  intros Hv Hp. unfold sysmmu_enable, kbind at 1, kget.
  assert (forall (c : M drvdata unit) (k : M drvdata unit), hw false c ->
    (forall x, dd_has_vcr x = false -> dd_pgtable x = dd_pgtable d -> k x = Fault) ->
    forall x, dd_has_vcr x = false -> dd_pgtable x = dd_pgtable d -> kbind c (fun _ => k) x = Fault) as Hstep.
  { intros c k Hc Hk x Hx Hpx. destruct (Hc x Hx) as ([] & rg & iv & E). unfold kbind. rewrite E. by apply Hk. }
  unfold kbind at 1, readl. change (REG_MMU_CTRL mod 4 =? 0) with true. cbv iota.
  apply Hstep; [hw_auto| |done|done]. apply Hstep; [hw_auto|].
  intros x Hx Hpx. unfold max_vids. rewrite Hv. change (Z.to_nat 1) with 1%nat. simpl.
  unfold kbind at 1 2, kget. rewrite Hpx, (proj2 (Z.eqb_neq _ _)) by done.
  enough (sysmmu_enable_vid 0 x = Fault) as E by (unfold kbind; by rewrite E).
  unfold sysmmu_enable_vid, kbind at 1, kget.
  apply Hstep; [by apply hw_vm_write_any| |done|done]. apply Hstep; [hw_auto|].
  intros y Hy _. destruct y. simpl in Hy. by subst.
Qed.

(** ** Concrete devices *)

Definition demo_drv (active : bool) : drvdata :=
  MkDrv ∅ [] ∅ None 0 DEFAULT_QOS_VALUE DEFAULT_TLB_NONE [] false true false active false active.
Definition demo_dom (pt : Z) : sdomain := MkSdom pt None None 0 false 0 0.
Definition demo_dev (client : list Z) : device := MkDev 1 (Some true) (Some client) None None 2 None 2.
(** Two SysMMUs, one powered, in a system with one group and two domains. *)
Definition demo_world : world :=
  MkWorld (<[7 := demo_drv true]> (<[8 := demo_drv false]> ∅))
    (<[1 := demo_dom 0x100000]> (<[2 := demo_dom 0x200000]> ∅)) (<[1 := []]> ∅).

Lemma demo_world_inv : attach_inv demo_world.
Proof.
  split; unfold demo_world; simpl.
  - intros i d [[<- <-]|[_ [[<- <-]|[_ Hx]]%lookup_insert_Some]]%lookup_insert_Some; [by split..|].
    by rewrite lookup_empty in Hx.
  - intros g l i [[<- <-]|[_ Hx]]%lookup_insert_Some Hi; [by apply elem_of_nil in Hi|].
    by rewrite lookup_empty in Hx.
  - intros g l [[<- <-]|[_ Hx]]%lookup_insert_Some; [constructor|]. by rewrite lookup_empty in Hx.
Qed.

Lemma demo_attachable : attachable demo_world (demo_dev [7; 8]) [7; 8].
Proof.
  split; [done| |by eexists|].
  - intros i Hi. apply elem_of_cons in Hi as [->|Hi]; [by eexists|].
    apply list_elem_of_singleton in Hi as ->. by eexists.
  - intros i. unfold cnt, demo_world. simpl. rewrite !lookup_insert, lookup_empty.
    repeat case_decide; simpl; lia.
Qed.

Lemma attach_accounts_witness :
  wp (samsung_sysmmu_attach_dev 1 (demo_dev [7; 8])) (attach_post demo_world (demo_dom 0x100000) [7; 8]) demo_world.
Proof. apply attach_accounts; [apply demo_world_inv|vm_compute; reflexivity|apply demo_attachable]. Defined.

Lemma attach_detach_restores_witness :
  wp (let! r := samsung_sysmmu_attach_dev 1 (demo_dev [7; 8]) in
      do! (if r =? 0 then samsung_sysmmu_detach_dev (demo_dev [7; 8]) else kret tt) in kret r)
    (fun r w' => attach_inv w' /\ (r = 0 ->
       (forall j, cnt w' j = cnt demo_world j) /\ (forall j, pgt w' j = pgt demo_world j))) demo_world.
Proof.
  eapply attach_detach_restores; [apply demo_world_inv|vm_compute; reflexivity|apply demo_attachable].
Defined.

(** The world after a device behind SysMMU 7 is attached to domain 1. *)
Definition demo_attached : world :=
  match samsung_sysmmu_attach_dev 1 (demo_dev [7; 8]) demo_world with Done _ w => w | _ => demo_world end.

Lemma demo_attached_inv : attach_inv demo_attached.
Proof.
  pose proof (attach_dev_spec demo_world 1 (demo_dom 0x100000) (demo_dev [7; 8]) [7; 8]
    demo_world_inv eq_refl demo_attachable) as H.
  unfold wp in H. unfold demo_attached. destruct (samsung_sysmmu_attach_dev _ _ _); [apply H|done..].
Qed.

Lemma iotlb_sync_reaches_group_witness :
  wp (samsung_sysmmu_iotlb_sync 1 0x12345678 0x12346fff) (fun _ w' => forall i, inv_of w' i = inv_of demo_attached i ++
    (if decide (i ∈ [8; 7]) then
       if running demo_attached i
       then [InvRange 0 (u32 (0x12345678 / 2 ^ 12 * 2 ^ 12)) (u32 (0x12346fff / 2 ^ 12 * 2 ^ 12))] else []
     else [])) demo_attached.
Proof.
  eapply iotlb_sync_reaches_group; [apply demo_attached_inv|vm_compute; reflexivity..].
Defined.

Lemma enable_without_vm_faults_witness :
  sysmmu_enable ((demo_drv true) <| dd_has_vcr := false |> <| dd_pgtable := <[0 := 0x100000]> ∅ |>) = Fault.
Proof. apply enable_without_vm_faults; vm_compute; [reflexivity|discriminate]. Defined.

(** The count a refused attachment leaks outlives its cause: a device on
    SysMMU 7 is attached to domain 1, a second device behind the same SysMMU is
    refused domain 2, and once the first device is detached the SysMMU still
    counts an attachment and still walks the page table of domain 1. *)
Theorem refused_attach_keeps_page_table :
  wp (let! r1 := samsung_sysmmu_attach_dev 1 (demo_dev [7]) in
      let! r2 := samsung_sysmmu_attach_dev 2 (demo_dev [7]) in
      do! samsung_sysmmu_detach_dev (demo_dev [7]) in kret (r1, r2))
    (fun r w' => r = (0, - EINVAL) /\ cnt w' 7 = 1 /\ pgt w' 7 = 0x100000) demo_world.
Proof. vm_compute. by repeat split. Qed.

(** * Power management *)

#[local] Arguments u32 : simpl never.
#[local] Arguments Z.lor : simpl never.
#[local] Arguments Z.testbit : simpl never.

(** ** Programming one VM *)

(** The registers of VM [vid] hold the page table's base and an enabled control,
    and its TLB has been invalidated. *)
Definition vm_programmed (d : drvdata) (vid : Z) : Prop :=
  rd (dd_regs d) (MMU_VM_REG d IDX_FLPT_BASE vid) = u32 (rd (dd_pgtable d) vid / SPAGE_SIZE) /\
  Z.testbit (rd (dd_regs d) (MMU_VM_REG d IDX_CTRL_VM vid)) 0 = true /\
  InvAll vid ∈ dd_inv d.

(** The state that programming [vid] leaves, for some control word. *)
Definition programmed (d : drvdata) (vid ctrl : Z) : drvdata :=
  d <| dd_regs := <[MMU_VM_REG d IDX_CTRL_VM vid := u32 (Z.lor ctrl CTRL_VID_ENABLE)]>
      (<[MMU_VM_REG d IDX_ALL_INV vid := 1]>
      (<[MMU_VM_REG d IDX_FLPT_BASE vid := u32 (rd (dd_pgtable d) vid / SPAGE_SIZE)]> (dd_regs d))) |>
    <| dd_inv := dd_inv d ++ [InvAll vid] |>.

Lemma vm_read_run d idx vid : dd_has_vcr d = true -> vm_read idx vid d = Done (rd (dd_regs d) (MMU_VM_REG d idx vid)) d.
Proof. intros Hv. unfold vm_read, kbind, kget, readl. by rewrite vm_reg_aligned, Z.eqb_refl by auto. Qed.

Lemma vm_write_run d v idx vid : dd_has_vcr d = true ->
  vm_write v idx vid d = Done tt (d <| dd_regs := <[MMU_VM_REG d idx vid := u32 v]> (dd_regs d) |>).
Proof. intros Hv. unfold vm_write, kbind, kget, writel. by rewrite vm_reg_aligned, Z.eqb_refl by auto. Qed.

Lemma enable_vid_run d vid : dd_has_vcr d = true -> exists ctrl, sysmmu_enable_vid vid d = Done tt (programmed d vid ctrl).
Proof.
  intros Hv. unfold sysmmu_enable_vid. unfold kbind at 1, kget. unfold kbind at 1. rewrite vm_write_run by done.
  set (d1 := d <| dd_regs := _ |>). unfold kbind at 1, sysmmu_tlb_invalidate_all, kbind at 1.
  rewrite vm_write_run by done. unfold kmod at 1. set (d2 := _ <| dd_inv := _ |>).
  unfold kbind at 1. rewrite (vm_read_run d2) by done. rewrite (vm_write_run d2) by done. by eexists.
Qed.

(** Registers of different VMs are different. *)
Lemma vm_reg_other d idx idx' vid vid' :
  dd_has_vcr d = true -> idx ∈ [IDX_CTRL_VM; IDX_ALL_INV; IDX_FLPT_BASE] ->
  idx' ∈ [IDX_CTRL_VM; IDX_FLPT_BASE] -> vid <> vid' -> MMU_VM_REG d idx vid <> MMU_VM_REG d idx' vid'.
Proof.
  intros Hv Hi Hi' Hne. unfold MMU_VM_REG. rewrite Hv.
  set_unfold in Hi. set_unfold in Hi'. destruct_or?; subst; simpl; lia.
Qed.

Lemma programmed_self d vid ctrl : dd_has_vcr d = true -> vm_programmed (programmed d vid ctrl) vid.
Proof.
  intros Hv. unfold vm_programmed. change (MMU_VM_REG (programmed d vid ctrl)) with (MMU_VM_REG d).
  simpl. split_and!.
  - assert (MMU_VM_REG d IDX_CTRL_VM vid <> MMU_VM_REG d IDX_FLPT_BASE vid) as H1
      by (unfold MMU_VM_REG; rewrite Hv; simpl; lia).
    assert (MMU_VM_REG d IDX_ALL_INV vid <> MMU_VM_REG d IDX_FLPT_BASE vid) as H2
      by (unfold MMU_VM_REG; rewrite Hv; simpl; lia).
    rewrite rd_insert_ne, rd_insert_ne by done. apply rd_insert_eq.
  - rewrite rd_insert_eq. rewrite u32_bit, Z.lor_spec by lia. apply orb_true_r.
  - apply elem_of_app. right. by apply list_elem_of_singleton.
Qed.

Lemma programmed_other d vid vid' ctrl :
  dd_has_vcr d = true -> vid <> vid' -> vm_programmed d vid' -> vm_programmed (programmed d vid ctrl) vid'.
Proof.
  intros Hv Hne (H1 & H2 & H3). unfold vm_programmed. change (MMU_VM_REG (programmed d vid ctrl)) with (MMU_VM_REG d).
  simpl. rewrite !rd_insert_ne by (apply vm_reg_other; [done|set_solver|set_solver|done]).
  split_and!; [done..|]. apply elem_of_app. by left.
Qed.

(** ** Programming all VMs *)

Lemma enable_vids_programs n vid d :
  dd_has_vcr d = true ->
  wp (enable_vids n vid) (fun _ d' =>
    (dd_has_vcr d' = true /\ dd_rpm_resume d' = dd_rpm_resume d) /\ dd_pgtable d' = dd_pgtable d /\
    (forall v, vm_programmed d v -> vm_programmed d' v) /\
    (forall v, vid <= v < vid + Z.of_nat n -> rd (dd_pgtable d) v <> 0 -> vm_programmed d' v)) d.
Proof.
  revert vid d; induction n as [|n IH]; intros vid d Hv; simpl.
  - apply wp_ret. split_and!; [done..|auto|lia].
  - apply wp_bind, wp_get, wp_bind. destruct (Z.eqb_spec (rd (dd_pgtable d) vid) 0) as [E|E].
    + apply wp_ret. eapply wp_mono; [by apply IH|]. intros [] d' ([A1 A2] & B & C & D). split_and!; [done|done|done|done|].
      intros v Hr Hp. apply D; [|done]. assert (v <> vid) by congruence. lia.
    + destruct (enable_vid_run d vid Hv) as [ctrl Er]. eapply wp_eq; [exact Er|].
      eapply wp_mono; [by apply IH|]. intros [] d' ([A1 A2] & B & C & D). split_and!; [done|done|done| |].
      * intros v Hp. apply C. destruct (decide (vid = v)) as [<-|]; [by apply programmed_self|by apply programmed_other].
      * intros v Hr Hp. destruct (decide (vid = v)) as [<-|]; [apply C; by apply programmed_self|].
        apply D; [lia|done].
Qed.

Lemma ctrl_reg_frame d v vid : dd_has_vcr d = true -> 0 <= vid -> vm_programmed d vid ->
  vm_programmed (d <| dd_regs := <[REG_MMU_CTRL := v]> (dd_regs d) |>) vid.
Proof.
  intros Hv Hvid (H1 & H2 & H3). unfold vm_programmed.
  change (MMU_VM_REG (d <| dd_regs := _ |>)) with (MMU_VM_REG d). simpl.
  rewrite !rd_insert_ne by (unfold MMU_VM_REG, REG_MMU_CTRL; rewrite Hv; simpl; lia). done.
Qed.

(** A SysMMU that resumes while devices are attached is enabled, and every
    VM with a page table walks that table, from an empty TLB. *)
Theorem resume_programs_page_tables d :
  dd_has_vcr d = true -> 0 < dd_attached_count d ->
  wp samsung_sysmmu_runtime_resume (fun _ d' =>
    dd_rpm_resume d' = true /\ dd_pgtable d' = dd_pgtable d /\
    Z.testbit (rd (dd_regs d') REG_MMU_CTRL) 0 = true /\
    (forall vid, 0 <= vid < MAX_VIDS -> rd (dd_pgtable d) vid <> 0 -> vm_programmed d' vid)) d.
Proof.
  intros Hv Hc. unfold samsung_sysmmu_runtime_resume. apply wp_bind, wp_mod, wp_bind, wp_get.
  set (d0 := d <| dd_rpm_resume := true |>). change (dd_attached_count d0) with (dd_attached_count d).
  rewrite Z.gtb_ltb, (proj2 (Z.ltb_lt _ _)) by done. unfold sysmmu_enable.
  apply wp_bind, wp_get, wp_bind. eapply wp_eq; [reflexivity|].
  set (ctrl := rd (dd_regs d0) REG_MMU_CTRL). set (setup := if dd_no_block_mode d0 then _ else _).
  assert (hw true (do! setup in sysmmu_init_config)) as Hhw.
  { apply hw_bind; [unfold setup; hw_auto|]. intros _. apply hw_init_config. }
  destruct (Hhw d0 Hv) as ([] & rg & iv & E). apply (wp_assoc _ (fun _ => _)), wp_bind. eapply wp_eq; [exact E|].
  set (d1 := d0 <| dd_regs := rg |> <| dd_inv := iv |>).
  assert (max_vids d0 = 8) as -> by (unfold max_vids; change (dd_has_vcr d0) with (dd_has_vcr d); by rewrite Hv).
  apply wp_bind. eapply wp_mono; [apply (enable_vids_programs _ 0 d1 Hv)|].
  intros [] d2 ((Hv2 & Hr2) & Hp2 & _ & H2).
  eapply wp_eq; [reflexivity|]. split_and!; [by simpl; rewrite Hr2|done| |].
  - simpl. rewrite rd_insert_eq. rewrite u32_bit, Z.lor_spec by lia. apply orb_true_r.
  - intros vid Hvid Hne. apply ctrl_reg_frame; [done|lia|]. apply H2; [exact Hvid|done].
Qed.

(** ** Suspending *)

(** A suspended SysMMU with block mode blocks its traffic and no longer
    translates; the page tables the driver will program again are kept. *)
Theorem suspend_blocks_traffic d :
  dd_no_block_mode d = false -> 0 < dd_attached_count d ->
  wp samsung_sysmmu_runtime_suspend (fun _ d' =>
    dd_rpm_resume d' = false /\ dd_pgtable d' = dd_pgtable d /\ dd_attached_count d' = dd_attached_count d /\
    Z.testbit (rd (dd_regs d') REG_MMU_CTRL) 0 = false /\ Z.testbit (rd (dd_regs d') REG_MMU_CTRL) 1 = true) d.
Proof.
  intros Hb Hc. unfold samsung_sysmmu_runtime_suspend. apply wp_bind, wp_mod, wp_bind, wp_get. simpl.
  rewrite Z.gtb_ltb, (proj2 (Z.ltb_lt _ _)) by done. unfold sysmmu_disable. apply wp_bind, wp_get. simpl. rewrite Hb.
  apply wp_bind. eapply wp_eq; [reflexivity|]. eapply wp_eq; [reflexivity|]. simpl. split_and!; [done..| |];
    rewrite rd_insert_eq, u32_bit, Z.lor_spec, Z.ldiff_spec by lia;
    [by rewrite andb_false_r|apply orb_true_r].
Qed.

Definition power_drv : drvdata :=
  MkDrv ∅ [] {[0 := 0x100000; 3 := 0x200000]} (Some 1) 2 DEFAULT_QOS_VALUE DEFAULT_TLB_NONE [] false true false
    false false true.

Lemma resume_programs_page_tables_witness :
  wp samsung_sysmmu_runtime_resume (fun _ d' =>
    Z.testbit (rd (dd_regs d') REG_MMU_CTRL) 0 = true /\ vm_programmed d' 3) power_drv.
Proof.
  eapply wp_mono; [apply resume_programs_page_tables; vm_compute; reflexivity|].
  intros [] d' (_ & _ & H & Hv). split; [exact H|]. apply Hv; vm_compute; [by split|discriminate].
Defined.

Lemma suspend_blocks_traffic_witness :
  wp samsung_sysmmu_runtime_suspend (fun _ d' => Z.testbit (rd (dd_regs d') REG_MMU_CTRL) 1 = true) power_drv.
Proof.
  eapply wp_mono; [apply suspend_blocks_traffic; vm_compute; reflexivity|]. by intros [] d' (_ & _ & _ & _ & H).
Defined.
