(* ===== verification/PmQos.v ===== *)
(** * Quality-of-service requests ([drivers/soc/google/exynos_pm_qos.c])

    Drivers file requests for a class of service (a frequency floor or cap, a
    throughput); the class keeps them in a priority list and publishes their
    minimum, maximum or sum as its target value. *)

From S2P Require Import Prelude.

(** ** Priority lists

    A [plist] threads its nodes on two circular lists: [node_list], all nodes in
    order, and [prio_list], the ring through the first node of each priority,
    which an insertion walks to skip equal priorities. [pl_ring] is the ring of
    the list's first node, read from that node; a node off it, or alone on it,
    has an empty [prio_list]. *)
Record plist := MkPlist { pl_nodes : list (Z * Z); pl_ring : list Z }.

Definition plist_head_init : plist := MkPlist [] [].

(** [node->prio]. *)
Fixpoint node_prio (nodes : list (Z * Z)) (n : Z) : Z :=
  match nodes with
  | [] => 0
  | x :: nodes => if fst x =? n then snd x else node_prio nodes n
  end.

(** [list_add_tail(node, iter)]: just before [iter]; [None] is the list head. *)
Fixpoint add_before_node (x : Z * Z) (iter : Z) (l : list (Z * Z)) : list (Z * Z) :=
  match l with
  | [] => [x]
  | y :: l => if fst y =? iter then x :: y :: l else y :: add_before_node x iter l
  end.
Fixpoint add_before (n iter : Z) (l : list Z) : list Z :=
  match l with
  | [] => [n]
  | y :: l => if y =? iter then n :: y :: l else y :: add_before n iter l
  end.
(** [list_add(next, node)]: just after [node]. *)
Fixpoint add_after (n node : Z) (l : list Z) : list Z :=
  match l with
  | [] => []
  | y :: l => if y =? node then y :: n :: l else y :: add_after n node l
  end.

(** The [do ... while (iter != first)] loop over the ring: the iterator it
    stops at ([None] when it comes round to the first node) and [prev]. *)
Fixpoint plist_scan (nodes : list (Z * Z)) (prio : Z) (ring : list Z) (prev : option Z) : option Z * option Z :=
  match ring with
  | [] => (None, prev)
  | iter :: ring =>
      if prio <? node_prio nodes iter then (Some iter, prev)
      else plist_scan nodes prio ring (Some iter)
  end.

Definition exynos_plist_add (node prio : Z) (head : plist) : plist :=
  match pl_nodes head with
  | [] => MkPlist [(node, prio)] [node]
  | _ =>
      let '(iter, prev) := plist_scan (pl_nodes head) prio (pl_ring head) None in
      let new_prio := match prev with
                      | None => true
                      | Some p => negb (node_prio (pl_nodes head) p =? prio)
                      end in
      match iter with
      | Some it =>
          MkPlist (add_before_node (node, prio) it (pl_nodes head))
            (if new_prio then add_before node it (pl_ring head) else pl_ring head)
      | None =>
          MkPlist (pl_nodes head ++ [(node, prio)])
            (if new_prio then pl_ring head ++ [node] else pl_ring head)
      end
  end.

(** The node after [node] on [node_list]. *)
Fixpoint node_next (node : Z) (l : list (Z * Z)) : option Z :=
  match l with
  | [] => None
  | x :: l => if fst x =? node then fst <$> head l else node_next node l
  end.

Definition list_del_node (node : Z) (l : list (Z * Z)) : list (Z * Z) := filter (fun x => fst x <> node) l.
Definition ring_del (node : Z) (l : list Z) : list Z := filter (fun x => x <> node) l.

(** [list_empty(&node->prio_list)]. *)
Definition prio_list_empty (node : Z) (ring : list Z) : bool :=
  negb (bool_decide (node ∈ ring)) || bool_decide (ring = [node]).

Definition exynos_plist_del (node : Z) (head : plist) : plist :=
  let nodes := list_del_node node (pl_nodes head) in
  if prio_list_empty node (pl_ring head) then
    MkPlist nodes
      (if bool_decide (node ∈ pl_ring head)
       then match nodes with [] => [] | x :: _ => [fst x] end
       else pl_ring head)
  else
    let ring := match node_next node (pl_nodes head) with
                | None => pl_ring head
                | Some next => if prio_list_empty next (pl_ring head)
                               then add_after next node (pl_ring head) else pl_ring head
                end in
    MkPlist nodes (ring_del node ring).

(** ** Constraints *)

Inductive exynos_pm_qos_type :=
| EXYNOS_PM_QOS_UNINITIALIZED | EXYNOS_PM_QOS_MAX | EXYNOS_PM_QOS_MIN | EXYNOS_PM_QOS_SUM.

Inductive exynos_pm_qos_req_action :=
| EXYNOS_PM_QOS_ADD_REQ | EXYNOS_PM_QOS_UPDATE_REQ | EXYNOS_PM_QOS_REMOVE_REQ.

Definition EXYNOS_PM_QOS_DEFAULT_VALUE : Z := -1.
Definition INT_MAX : Z := 2 ^ 31 - 1.

(** [c_notified] records the values the notifier chain was called with. *)
Record constraints := MkConstraints {
  c_list : plist;
  c_target_value : Z;
  c_default_value : Z;
  c_no_constraint_value : Z;
  c_type : exynos_pm_qos_type;
  c_notified : list Z
}.
#[export] Instance eta_constraints : Eta constraints := mk_eta (fun c =>
  MkConstraints (c_list c) (c_target_value c) (c_default_value c) (c_no_constraint_value c)
    (c_type c) (c_notified c)).

Definition sum_prio (l : list (Z * Z)) : Z := foldl (fun total x => s32 (total + snd x)) 0 l.

Definition exynos_pm_qos_get_value (c : constraints) : Z :=
  match pl_nodes (c_list c) with
  | [] => c_no_constraint_value c
  | x :: l =>
      match c_type c with
      | EXYNOS_PM_QOS_MIN => snd x
      | EXYNOS_PM_QOS_MAX => snd (List.last (x :: l) x)
      | EXYNOS_PM_QOS_SUM => sum_prio (x :: l)
      | EXYNOS_PM_QOS_UNINITIALIZED => EXYNOS_PM_QOS_DEFAULT_VALUE
      end
  end.

Definition exynos_pm_qos_read_value (c : constraints) : Z := c_target_value c.
Definition exynos_pm_qos_set_value (c : constraints) (value : Z) : constraints :=
  c <| c_target_value := value |>.

(** The part of [exynos_pm_qos_update_target] under the locks: the new
    constraints with the previous and the current value. *)
Definition update_target_locked (c : constraints) (node : Z) (action : exynos_pm_qos_req_action)
    (value : Z) : constraints * Z * Z :=
  let prev_value := exynos_pm_qos_get_value c in
  let new_value := if value =? EXYNOS_PM_QOS_DEFAULT_VALUE then c_default_value c else value in
  let c := match action with
           | EXYNOS_PM_QOS_REMOVE_REQ => c <| c_list := exynos_plist_del node (c_list c) |>
           | EXYNOS_PM_QOS_UPDATE_REQ =>
               c <| c_list := exynos_plist_add node new_value (exynos_plist_del node (c_list c)) |>
           | EXYNOS_PM_QOS_ADD_REQ => c <| c_list := exynos_plist_add node new_value (c_list c) |>
           end in
  let curr_value := exynos_pm_qos_get_value c in
  (exynos_pm_qos_set_value c curr_value, prev_value, curr_value).

Definition notify (c : constraints) (v : Z) : constraints := c <| c_notified := c_notified c ++ [v] |>.

Definition exynos_pm_qos_update_target (c : constraints) (node : Z) (action : exynos_pm_qos_req_action)
    (value : Z) : constraints * Z :=
  let '(c, prev_value, curr_value) := update_target_locked c node action value in
  if prev_value =? curr_value then (c, 0) else (notify c curr_value, 1).

(** ** Flags *)

Record qos_flags := MkFlags { pqf_list : list (Z * Z); pqf_effective_flags : Z }.

Definition exynos_pm_qos_flags_remove_req (pqf : qos_flags) (req : Z) : qos_flags :=
  let l := filter (fun x => fst x <> req) (pqf_list pqf) in
  MkFlags l (foldl (fun val x => Z.lor val (snd x)) 0 l).

Definition flags_add (pqf : qos_flags) (req val : Z) : qos_flags :=
  MkFlags (pqf_list pqf ++ [(req, val)]) (Z.lor (pqf_effective_flags pqf) val).

Definition flags_value (pqf : qos_flags) : Z :=
  match pqf_list pqf with [] => 0 | _ => pqf_effective_flags pqf end.

Definition exynos_pm_qos_update_flags (pqf : qos_flags) (req : Z) (action : exynos_pm_qos_req_action)
    (val : Z) : qos_flags * bool :=
  let prev_value := flags_value pqf in
  let pqf := match action with
             | EXYNOS_PM_QOS_REMOVE_REQ => exynos_pm_qos_flags_remove_req pqf req
             | EXYNOS_PM_QOS_UPDATE_REQ => flags_add (exynos_pm_qos_flags_remove_req pqf req) req val
             | EXYNOS_PM_QOS_ADD_REQ => flags_add pqf req val
             end in
  (pqf, negb (prev_value =? flags_value pqf)).

(** ** Classes *)

(** A constraints table as its static initialiser leaves it: the fields it does
    not name are zero. *)
Definition constraints_init (default_value : Z) (type : exynos_pm_qos_type) : constraints :=
  MkConstraints plist_head_init default_value default_value 0 type [].

Definition device_tput_constraints := constraints_init 0 EXYNOS_PM_QOS_MAX.
Definition device_tput_max_constraints := constraints_init INT_MAX EXYNOS_PM_QOS_MIN.
Definition intcam_tput_constraints := constraints_init 0 EXYNOS_PM_QOS_MAX.
Definition intcam_tput_max_constraints := constraints_init INT_MAX EXYNOS_PM_QOS_MIN.
Definition bus_tput_constraints := constraints_init 0 EXYNOS_PM_QOS_MAX.
Definition bus_tput_max_constraints := constraints_init INT_MAX EXYNOS_PM_QOS_MIN.
Definition cluster2_freq_min_constraints := constraints_init 0 EXYNOS_PM_QOS_MAX.
Definition cluster2_freq_max_constraints := constraints_init INT_MAX EXYNOS_PM_QOS_MIN.
Definition cluster1_freq_min_constraints := constraints_init 0 EXYNOS_PM_QOS_MAX.
Definition cluster1_freq_max_constraints := constraints_init INT_MAX EXYNOS_PM_QOS_MIN.
Definition cluster0_freq_min_constraints := constraints_init 0 EXYNOS_PM_QOS_MAX.
Definition cluster0_freq_max_constraints := constraints_init INT_MAX EXYNOS_PM_QOS_MIN.
Definition display_tput_constraints := constraints_init 0 EXYNOS_PM_QOS_MAX.
Definition display_tput_max_constraints := constraints_init INT_MAX EXYNOS_PM_QOS_MIN.
Definition cam_tput_constraints := constraints_init 0 EXYNOS_PM_QOS_MAX.
Definition cam_tput_max_constraints := constraints_init INT_MAX EXYNOS_PM_QOS_MIN.
Definition mfc_tput_constraints := constraints_init 0 EXYNOS_PM_QOS_MAX.
Definition mfc_tput_max_constraints := constraints_init INT_MAX EXYNOS_PM_QOS_MIN.
Definition tnr_tput_constraints := constraints_init 0 EXYNOS_PM_QOS_MAX.
Definition tnr_tput_max_constraints := constraints_init INT_MAX EXYNOS_PM_QOS_MIN.
Definition bo_tput_constraints := constraints_init 0 EXYNOS_PM_QOS_MAX.
Definition bo_tput_max_constraints := constraints_init INT_MAX EXYNOS_PM_QOS_MIN.
Definition gpu_freq_min_constraints := constraints_init 0 EXYNOS_PM_QOS_MAX.
Definition gpu_freq_max_constraints := constraints_init INT_MAX EXYNOS_PM_QOS_MIN.

(** The class at each index; index 0 is the null object, without constraints. *)
Definition exynos_pm_qos_array : list (option constraints) :=
  [ None;
    Some cluster0_freq_min_constraints; Some cluster0_freq_max_constraints;
    Some cluster1_freq_min_constraints; Some cluster1_freq_max_constraints;
    Some cluster2_freq_min_constraints; Some cluster2_freq_max_constraints;
    Some device_tput_constraints; Some intcam_tput_constraints;
    Some device_tput_max_constraints; Some intcam_tput_max_constraints;
    Some bus_tput_constraints; Some bus_tput_max_constraints;
    Some display_tput_constraints; Some display_tput_max_constraints;
    Some cam_tput_constraints; Some cam_tput_max_constraints;
    Some mfc_tput_constraints; Some mfc_tput_max_constraints;
    Some tnr_tput_constraints; Some tnr_tput_max_constraints;
    Some bo_tput_constraints; Some bo_tput_max_constraints;
    Some gpu_freq_min_constraints; Some gpu_freq_max_constraints ].

(** ** Requests *)

(** [struct exynos_pm_qos_request]; its node's value is the one it is queued
    with, [rq_work] tells whether its timeout is scheduled. A zeroed request is
    inactive. *)
Record request := MkReq { rq_class : Z; rq_work : bool }.
#[export] Instance eta_request : Eta request := mk_eta (fun r => MkReq (rq_class r) (rq_work r)).
Definition request_zero : request := MkReq 0 false.

Record qos := MkQos { q_classes : list (option constraints); q_reqs : gmap Z request }.
#[export] Instance eta_qos : Eta qos := mk_eta (fun q => MkQos (q_classes q) (q_reqs q)).

Definition qos_init : qos := MkQos exynos_pm_qos_array ∅.

(** [exynos_pm_qos_array[class]->constraints]. *)
Definition class_of (q : qos) (class : Z) : option constraints :=
  if class <? 0 then None else mjoin (q_classes q !! Z.to_nat class).
Definition on_class {A} (class : Z) (f : constraints -> constraints * A) : M qos A := fun q =>
  match class_of q class with
  | None => Fault
  | Some c => let '(c, a) := f c in
              Done a (q <| q_classes := <[Z.to_nat class := Some c]> (q_classes q) |>)
  end.

Definition get_req (r : Z) : M qos request := fun q => Done (default request_zero (q_reqs q !! r)) q.
Definition mod_req (r : Z) (f : request -> request) : M qos unit :=
  kmod (fun q => q <| q_reqs := <[r := f (default request_zero (q_reqs q !! r))]> (q_reqs q) |>).

Definition exynos_pm_qos_request (class : Z) : M qos Z :=
  on_class class (fun c => (c, exynos_pm_qos_read_value c)).

Definition exynos_pm_qos_request_active (req : request) : bool := negb (rq_class req =? 0).

Definition update_target (class r : Z) (action : exynos_pm_qos_req_action) (value : Z) : M qos Z :=
  on_class class (fun c => exynos_pm_qos_update_target c r action value).

(** The value request [r] is queued with. *)
Definition req_prio (class r : Z) : M qos Z :=
  on_class class (fun c => (c, node_prio (pl_nodes (c_list c)) r)).

(** [exynos_pm_qos_read_req_value]: the queued value, or [-ENODATA]. *)
Definition ENODATA : Z := 61.
Definition exynos_pm_qos_read_req_value (class r : Z) : M qos Z :=
  on_class class (fun c => (c, match list_find (fun x => fst x = r) (pl_nodes (c_list c)) with
                               | Some (_, x) => snd x
                               | None => - ENODATA
                               end)).

Definition update_if_changed (class r new_value : Z) : M qos unit :=
  let! prio := req_prio class r in
  if new_value =? prio then kret tt
  else do! update_target class r EXYNOS_PM_QOS_UPDATE_REQ new_value in kret tt.

(** [__exynos_pm_qos_update_request]; [None] is a null pointer. *)
Definition exynos_pm_qos_update_request_ (req : option Z) (new_value : Z) : M qos unit :=
  match req with
  | None => kret tt
  | Some r => let! rq := get_req r in update_if_changed (rq_class rq) r new_value
  end.

(** The timeout handler, run when the scheduled work of [r] is due. *)
Definition exynos_pm_qos_work_fn (r : Z) : M qos unit :=
  let! rq := get_req r in
  if rq_work rq then
    do! mod_req r (fun rq => rq <| rq_work := false |>) in
    exynos_pm_qos_update_request_ (Some r) EXYNOS_PM_QOS_DEFAULT_VALUE
  else kret tt.

Definition exynos_pm_qos_add_request_trace (req : option Z) (class value : Z) : M qos unit :=
  match req with
  | None => kret tt
  | Some r =>
      let! rq := get_req r in
      if exynos_pm_qos_request_active rq then kret tt
      else
        do! mod_req r (fun _ => MkReq class false) in
        do! update_target class r EXYNOS_PM_QOS_ADD_REQ value in
        kret tt
  end.

Definition cancel_delayed_work_sync (r : Z) : M qos unit := mod_req r (fun rq => rq <| rq_work := false |>).

Definition exynos_pm_qos_update_request (req : option Z) (new_value : Z) : M qos unit :=
  match req with
  | None => kret tt
  | Some r =>
      let! rq := get_req r in
      if exynos_pm_qos_request_active rq then
        do! cancel_delayed_work_sync r in
        exynos_pm_qos_update_request_ (Some r) new_value
      else kret tt
  end.

Definition exynos_pm_qos_update_request_timeout (req : option Z) (new_value : Z) : M qos unit :=
  match req with
  | None => kret tt
  | Some r =>
      let! rq := get_req r in
      if exynos_pm_qos_request_active rq then
        do! cancel_delayed_work_sync r in
        do! update_if_changed (rq_class rq) r new_value in
        mod_req r (fun rq => rq <| rq_work := true |>)
      else kret tt
  end.

Definition exynos_pm_qos_remove_request (req : option Z) : M qos unit :=
  match req with
  | None => kret tt
  | Some r =>
      let! rq := get_req r in
      if exynos_pm_qos_request_active rq then
        do! cancel_delayed_work_sync r in
        do! update_target (rq_class rq) r EXYNOS_PM_QOS_REMOVE_REQ EXYNOS_PM_QOS_DEFAULT_VALUE in
        mod_req r (fun _ => request_zero)
      else kret tt
  end.

(** ** The debug view

    What [exynos_pm_qos_debug_show] prints of a class, line by line; the place in
    the code that filed a request is not kept. *)
Inductive debug_line :=
| DbgEmpty
| DbgRequest (n prio : Z) (active : bool)
| DbgTotal (type : exynos_pm_qos_type) (value active_reqs tot_reqs : Z).

Fixpoint debug_requests (default_value : Z) (l : list (Z * Z)) (active_reqs tot_reqs : Z) :
    list debug_line * Z * Z :=
  match l with
  | [] => ([], active_reqs, tot_reqs)
  | req :: l =>
      let active := negb (snd req =? default_value) in
      let active_reqs := if active then active_reqs + 1 else active_reqs in
      let tot_reqs := tot_reqs + 1 in
      let '(ls, a, t) := debug_requests default_value l active_reqs tot_reqs in
      (DbgRequest tot_reqs (snd req) active :: ls, a, t)
  end.

Definition exynos_pm_qos_debug_show (qos : option constraints) : Z * list debug_line :=
  match qos with
  | None => (- EINVAL, [])
  | Some c =>
      match pl_nodes (c_list c) with
      | [] => (0, [DbgEmpty])
      | l =>
          let '(ls, active_reqs, tot_reqs) := debug_requests (c_default_value c) l 0 0 in
          (0, ls ++ [DbgTotal (c_type c) (exynos_pm_qos_get_value c) active_reqs tot_reqs])
      end
  end.
