(* ===== verification/PmQosFacts.v ===== *)
(** * Correctness of the quality-of-service classes

    The priority list is a stable sorted list whose ring passes through the
    first node of each priority; a class publishes the aggregate of the requests
    filed with it. *)

From Stdlib Require Import Sorted.
From S2P Require Import Prelude PmQos.

(** ** Priority lists *)

Definition prio_le (x y : Z * Z) : Prop := snd x <= snd y.

(** The first node of each priority, given the priority before the list. *)
Fixpoint reps_from (pv : option Z) (l : list (Z * Z)) : list Z :=
  match l with
  | [] => []
  | x :: l => if decide (pv = Some (snd x)) then reps_from pv l else fst x :: reps_from (Some (snd x)) l
  end.

Record plist_ok (p : plist) : Prop := {
  po_sorted : StronglySorted prio_le (pl_nodes p);
  po_nodup : NoDup (fst <$> pl_nodes p);
  po_ring : pl_ring p = reps_from None (pl_nodes p)
}.

(** The reference: behind all nodes of a priority not above its own. *)
Fixpoint plist_insert (x : Z * Z) (l : list (Z * Z)) : list (Z * Z) :=
  match l with
  | [] => [x]
  | y :: l => if snd x <? snd y then x :: y :: l else y :: plist_insert x l
  end.

Lemma plist_insert_perm x l : plist_insert x l ≡ₚ x :: l.
Proof.
  induction l as [|y l IH]; simpl; [done|]. destruct (snd x <? snd y); [done|]. rewrite IH. constructor.
Qed.

Lemma plist_insert_sorted x l : StronglySorted prio_le l -> StronglySorted prio_le (plist_insert x l).
Proof.
  induction 1 as [|y l Hs IH Hf]; simpl; [repeat constructor|].
  destruct (Z.ltb_spec (snd x) (snd y)).
  - constructor; [by constructor|]. constructor; [unfold prio_le; lia|].
    eapply Forall_impl; [exact Hf|]. unfold prio_le. intros; simpl in *; lia.
  - constructor; [done|]. rewrite plist_insert_perm. constructor; [done|]. done.
Qed.

Lemma node_prio_in l x : NoDup (fst <$> l) -> x ∈ l -> node_prio l (fst x) = snd x.
Proof.
  induction l as [|y l IH]; [by intros _ ?%elem_of_nil|]. csimpl. intros [Hy Hn]%NoDup_cons Hx.
  apply elem_of_cons in Hx as [->|Hx]; [by rewrite Z.eqb_refl|].
  rewrite (proj2 (Z.eqb_neq _ _)); [by apply IH|]. intros E. apply Hy. rewrite E. by apply list_elem_of_fmap_2.
Qed.

(** The first node above [prio], and the last priority before it. *)
Fixpoint above (prio : Z) (l : list (Z * Z)) : option Z :=
  match l with
  | [] => None
  | x :: l => if prio <? snd x then Some (fst x) else above prio l
  end.
Fixpoint upto (prio : Z) (pv : option Z) (l : list (Z * Z)) : option Z :=
  match l with
  | [] => pv
  | x :: l => if prio <? snd x then pv else upto prio (Some (snd x)) l
  end.

(** [v] is the priority of the node [n], where there is one. *)
Definition prio_of (nodes : list (Z * Z)) (n v : option Z) : Prop := (node_prio nodes <$> n) = v.

(** The loop of [exynos_plist_add] on the part of the ring behind [l]. *)
Lemma plist_scan_spec nodes prio l pv prev :
  NoDup (fst <$> nodes) -> (forall x, x ∈ l -> x ∈ nodes) -> prio_of nodes prev pv ->
  (forall v, pv = Some v -> v <= prio) ->
  fst (plist_scan nodes prio (reps_from pv l) prev) = above prio l /\
  prio_of nodes (snd (plist_scan nodes prio (reps_from pv l) prev)) (upto prio pv l).
Proof.
  intros Hnd. revert pv prev; induction l as [|y l IH]; intros pv prev Hin Hprev Hle; simpl; [done|].
  assert (node_prio nodes (fst y) = snd y) as Hy by (apply node_prio_in; [done|apply Hin; left]).
  destruct (decide (pv = Some (snd y))) as [Hpv|Hpv].
  - specialize (Hle _ Hpv). rewrite (proj2 (Z.ltb_ge _ _)) by lia. rewrite <- Hpv.
    apply IH; [intros; apply Hin; by right|done|]. intros v Hv. rewrite Hpv in Hv. simplify_eq. lia.
  - simpl. rewrite Hy. destruct (Z.ltb_spec prio (snd y)); [done|].
    apply IH; [intros; apply Hin; by right| |intros v [= <-]; lia]. unfold prio_of. simpl. by rewrite Hy.
Qed.

Lemma add_before_node_insert x l :
  NoDup (fst <$> l) ->
  match above (snd x) l with Some it => add_before_node x it l | None => l ++ [x] end = plist_insert x l.
Proof.
  induction l as [|y l IH]; [done|]. csimpl. intros [Hy Hn]%NoDup_cons.
  destruct (Z.ltb_spec (snd x) (snd y)); [by rewrite Z.eqb_refl|].
  specialize (IH Hn). rewrite <- IH. destruct (above (snd x) l) as [it|] eqn:E; [|done].
  rewrite (proj2 (Z.eqb_neq _ _)); [done|]. intros <-. apply Hy. clear -E. revert E.
  induction l as [|z l IH]; simpl; [done|]. destruct (_ <? _); intros; simplify_eq; set_solver.
Qed.

Lemma above_in prio l it : above prio l = Some it -> it ∈ (fst <$> l).
Proof.
  induction l as [|z l IH]; simpl; [done|]. destruct (_ <? _); intros; simplify_eq; set_solver.
Qed.

(** The ring of the list with [x] inserted. *)
Lemma reps_insert x l pv :
  NoDup (fst <$> l) -> (forall v, pv = Some v -> v <= snd x) ->
  reps_from pv (plist_insert x l)
  = if decide (upto (snd x) pv l = Some (snd x)) then reps_from pv l
    else match above (snd x) l with
         | Some it => add_before (fst x) it (reps_from pv l)
         | None => reps_from pv l ++ [fst x]
         end.
Proof.
  revert pv; induction l as [|y l IH]; intros pv Hnd Hle; csimpl; [done|].
  rewrite fmap_cons in Hnd. apply NoDup_cons in Hnd as [Hy Hnd]. destruct (Z.ltb_spec (snd x) (snd y)) as [Hlt|Hge]; simpl.
  - assert (pv <> Some (snd y)) as Hpv by (intros E; specialize (Hle _ E); lia).
    rewrite (decide_False (P := pv = Some (snd y))) by done.
    destruct (decide (pv = Some (snd x))) as [Hx|Hx]; simpl.
    + done.
    + rewrite decide_False by (intros [= ?]; lia). by rewrite Z.eqb_refl.
  - destruct (decide (pv = Some (snd y))) as [->|Hpv].
    + apply IH; [done|]. intros v [= <-]. lia.
    + rewrite IH; [|done|intros v [= <-]; lia].
      destruct (decide (upto _ _ _ = _)); [done|]. destruct (above (snd x) l) as [it|] eqn:E; [|done].
      simpl. rewrite (proj2 (Z.eqb_neq _ _)); [done|]. intros <-. apply Hy. by eapply above_in.
Qed.

(** Adding a node is the reference insertion. *)
Lemma plist_add_ok p n prio :
  plist_ok p -> n ∉ (fst <$> pl_nodes p) ->
  plist_ok (exynos_plist_add n prio p) /\
  pl_nodes (exynos_plist_add n prio p) = plist_insert (n, prio) (pl_nodes p).
Proof.
  intros [Hs Hn Hr] Hnew.
  assert (NoDup (fst <$> plist_insert (n, prio) (pl_nodes p))) as Hnd.
  { rewrite (fmap_Permutation _ _ _ (plist_insert_perm _ _)). by constructor. }
  assert (pl_nodes (exynos_plist_add n prio p) = plist_insert (n, prio) (pl_nodes p) /\
    pl_ring (exynos_plist_add n prio p) = reps_from None (plist_insert (n, prio) (pl_nodes p))) as [E1 E2].
  { unfold exynos_plist_add. destruct (pl_nodes p) as [|x0 l0] eqn:El; [done|]. rewrite <- El in *. clear El.
    rewrite Hr. pose proof (plist_scan_spec (pl_nodes p) prio (pl_nodes p) None None Hn
      (fun x H => H) eq_refl ltac:(done)) as [Hf Hp].
    destruct (plist_scan _ _ _ _) as [it prev]. simpl in Hf, Hp. subst it.
    rewrite reps_insert by done. simpl. rewrite <- (add_before_node_insert (n, prio)) by done. simpl.
    assert ((match prev with None => true | Some q => negb (node_prio (pl_nodes p) q =? prio) end)
      = negb (bool_decide (upto prio None (pl_nodes p) = Some prio))) as ->.
    { rewrite <- Hp. destruct prev as [q|]; simpl; [|done]. f_equal.
      destruct (Z.eqb_spec (node_prio (pl_nodes p) q) prio); [by rewrite bool_decide_true by congruence|].
      rewrite bool_decide_false by congruence. done. }
    destruct (decide (upto prio None (pl_nodes p) = Some prio)) as [Hu|Hu];
      [rewrite (bool_decide_true _ Hu)|rewrite (bool_decide_false _ Hu)];
      by destruct (above prio (pl_nodes p)). }
  split; [|done]. split; rewrite ?E1; [by apply plist_insert_sorted|done|done].
Qed.

(** ** Removal *)

Definition last_prio (pv : option Z) (l : list (Z * Z)) : option Z := foldl (fun _ x => Some (snd x)) pv l.

Lemma reps_app pv l k : reps_from pv (l ++ k) = reps_from pv l ++ reps_from (last_prio pv l) k.
Proof.
  revert pv; induction l as [|x l IH]; intros pv; simpl; [done|].
  case_decide as H; [rewrite IH; simpl; by rewrite <- H|]. simpl. by rewrite IH.
Qed.

Lemma reps_in pv l n : n ∈ reps_from pv l -> n ∈ (fst <$> l).
Proof.
  revert pv; induction l as [|x l IH]; intros pv; csimpl; [by intros ?%elem_of_nil|].
  case_decide; [intros Hn; right; by eapply IH|].
  intros [->|Hn]%elem_of_cons; [left|right; by eapply IH].
Qed.

Lemma reps_nodup pv l : NoDup (fst <$> l) -> NoDup (reps_from pv l).
Proof.
  revert pv; induction l as [|x l IH]; intros pv; csimpl; [by constructor|].
  intros [Hx Hn]%NoDup_cons. case_decide; [by apply IH|]. constructor; [|by apply IH].
  intros Hin. apply Hx. by eapply reps_in.
Qed.

Lemma list_del_split n l :
  n ∈ (fst <$> l) -> NoDup (fst <$> l) -> exists l1 x l2, l = l1 ++ x :: l2 /\ fst x = n /\
    list_del_node n l = l1 ++ l2 /\ (n ∉ (fst <$> l1)) /\ (n ∉ (fst <$> l2)) /\ node_next n l = (fst <$> head l2).
Proof.
  intros (x & -> & Hx)%list_elem_of_fmap Hnd. apply list_elem_of_split in Hx as (l1 & l2 & ->).
  rewrite fmap_app, fmap_cons in Hnd. apply NoDup_app in Hnd as (H1 & H2 & H3).
  apply NoDup_cons in H3 as [H3 H4]. exists l1, x, l2.
  assert (fst x ∉ (fst <$> l1)) as H5 by (intros ?; apply (H2 (fst x)); [done|left]).
  assert (forall l, fst x ∉ (fst <$> l) -> list_del_node (fst x) l = l) as Hdel.
  { intros l Hl. unfold list_del_node. induction l as [|y l IH]; [done|].
    rewrite fmap_cons, not_elem_of_cons in Hl. destruct Hl as [Hy Hl].
    rewrite filter_cons_True by congruence. by rewrite IH. }
  split_and!; [done|done| |done|done|].
  - unfold list_del_node in *. rewrite filter_app, filter_cons_False by naive_solver. by rewrite !Hdel.
  - clear -H5. induction l1 as [|y l1 IH]; simpl; [by rewrite Z.eqb_refl|].
    rewrite fmap_cons, not_elem_of_cons in H5. destruct H5 as [Hy Hl].
    rewrite (proj2 (Z.eqb_neq _ _)) by congruence. by apply IH.
Qed.

Lemma ring_del_notin n l : n ∉ l -> ring_del n l = l.
Proof.
  intros Hn. unfold ring_del. induction l as [|y l IH]; [done|]. apply not_elem_of_cons in Hn as [Hy Hl].
  rewrite filter_cons_True by congruence. by rewrite IH.
Qed.

Lemma ring_del_mid n l k : n ∉ l -> n ∉ k -> ring_del n (l ++ n :: k) = l ++ k.
Proof.
  intros Hl Hk. unfold ring_del. rewrite filter_app, filter_cons_False by naive_solver.
  f_equal; by apply ring_del_notin.
Qed.

Lemma add_after_mid y n l k : n ∉ l -> add_after y n (l ++ n :: k) = l ++ n :: y :: k.
Proof.
  induction l as [|z l IH]; simpl; [by rewrite Z.eqb_refl|]. intros [Hz Hl]%not_elem_of_cons.
  rewrite (proj2 (Z.eqb_neq _ _)) by congruence. by rewrite IH.
Qed.

Lemma last_prio_some pv l v : last_prio pv l = Some v -> (l = [] /\ pv = Some v) \/ exists x, x ∈ l /\ snd x = v.
Proof.
  revert pv; induction l as [|x l IH]; intros pv; simpl; [by left|].
  intros [[-> E]|(y & Hy & E)]%IH; right; [exists x; split; [left|congruence]|exists y; split; [by right|done]].
Qed.

Lemma list_del_sorted n l : StronglySorted prio_le l -> StronglySorted prio_le (list_del_node n l).
Proof.
  unfold list_del_node. induction 1 as [|y l Hs IH Hf]; [constructor|]. rewrite filter_cons. case_decide; [|done].
  constructor; [done|]. apply Forall_forall. intros z [_ Hz]%list_elem_of_filter.
  by apply (proj1 (Forall_forall _ _) Hf).
Qed.

Lemma list_del_nodup n l : NoDup (fst <$> l) -> NoDup (fst <$> list_del_node n l).
Proof.
  unfold list_del_node. induction l as [|y l IH]; [done|]. csimpl. intros [Hy Hn]%NoDup_cons.
  rewrite filter_cons. case_decide; [|by apply IH]. csimpl. constructor; [|by apply IH].
  intros (z & E & [_ Hz]%list_elem_of_filter)%list_elem_of_fmap. apply Hy. rewrite E. by apply list_elem_of_fmap_2.
Qed.

(** The ring around a node of priority other than the one before it. *)
Lemma ring_del_rep v x l2 :
  StronglySorted prio_le (x :: l2) -> (forall u, v = Some u -> u <= snd x) -> v <> Some (snd x) ->
  match l2 with
  | y :: _ => if decide (snd y = snd x)
              then reps_from v l2 = fst y :: reps_from (Some (snd x)) l2
              else reps_from v l2 = reps_from (Some (snd x)) l2 /\ fst y ∈ reps_from (Some (snd x)) l2
  | [] => True
  end.
Proof.
  intros Hs Hv Hne. destruct l2 as [|y l2]; [done|]. simpl.
  inversion_clear Hs as [|? ? Hs' Hf]. inversion_clear Hf as [|? ? Hxy _]. unfold prio_le in Hxy.
  case_decide as E.
  - rewrite !E. by rewrite !decide_False, decide_True by congruence.
  - assert (v <> Some (snd y)) by (intros Hy; specialize (Hv _ Hy); lia).
    rewrite !decide_False by congruence. split; [done|left].
Qed.

(** Removing a node: the list without it, and the ring of what is left. *)
Lemma plist_del_ok p n :
  plist_ok p -> n ∈ (fst <$> pl_nodes p) ->
  plist_ok (exynos_plist_del n p) /\ pl_nodes (exynos_plist_del n p) = list_del_node n (pl_nodes p).
Proof.
  intros [Hs Hnd Hr] Hin.
  assert (pl_nodes (exynos_plist_del n p) = list_del_node n (pl_nodes p)) as En
    by (unfold exynos_plist_del; by destruct (prio_list_empty n (pl_ring p))).
  split; [|done]. split; rewrite En; [by apply list_del_sorted|by apply list_del_nodup|].
  destruct (list_del_split n (pl_nodes p) Hin Hnd) as (l1 & x & l2 & El & <- & Ed & H1 & H2 & Hnext).
  unfold exynos_plist_del. rewrite Ed, Hnext, Hr, El.
  pose proof (reps_nodup None _ Hnd) as Hrn. rewrite El in Hs, Hrn. rewrite !reps_app in *. simpl in *.
  set (v := last_prio None l1) in *. set (R1 := reps_from None l1) in *.
  assert (fst x ∉ R1) as HR1 by (intros ?; apply H1; by eapply reps_in).
  assert (forall u, v = Some u -> u <= snd x) as Hv.
  { intros u Hu. apply last_prio_some in Hu as [[_ ?]|(z & Hz & <-)]; [done|]. clear -Hs Hz.
    induction l1 as [|a l1 IH]; [by apply elem_of_nil in Hz|]. inversion_clear Hs as [|? ? Hs' Hf].
    apply elem_of_cons in Hz as [->|Hz]; [|by apply IH].
    apply (proj1 (Forall_forall _ _) Hf). apply elem_of_app. right. left. }
  assert (StronglySorted prio_le (x :: l2)) as Hs2.
  { clear -Hs. induction l1 as [|a l1 IH]; [done|]. inversion_clear Hs as [|? ? Hs' Hf]. by apply IH. }
  destruct (decide (v = Some (snd x))) as [Ev|Ev].
  - assert (fst x ∉ R1 ++ reps_from v l2) as Hout.
    { rewrite elem_of_app. intros [?|Hx]; [done|]. apply H2. by eapply reps_in. }
    unfold prio_list_empty. rewrite !(bool_decide_false (fst x ∈ R1 ++ _)) by done. done.
  - assert (fst x ∉ reps_from (Some (snd x)) l2) as HR2 by (intros ?; apply H2; by eapply reps_in).
    assert (fst x ∈ R1 ++ fst x :: reps_from (Some (snd x)) l2) as Hx by set_solver.
    pose proof (ring_del_rep v x l2 Hs2 Hv Ev) as Hrep. unfold prio_list_empty at 1.
    rewrite !(bool_decide_true _ Hx). simpl negb. rewrite orb_false_l.
    destruct (decide (R1 ++ fst x :: reps_from (Some (snd x)) l2 = [fst x])) as [Eone|Eone].
    + rewrite (bool_decide_true _ Eone). simpl.
      assert (R1 = [] /\ reps_from (Some (snd x)) l2 = []) as [E1 E2].
      { destruct R1 as [|? [|]]; simpl in Eone; by simplify_eq. }
      assert (l1 = []) as -> by (subst R1; destruct l1; [done|by simpl in E1]).
      rewrite E1. destruct l2 as [|y l2]; [done|]. simpl app. case_decide as Ey.
      * simpl in E2. rewrite decide_True in E2 by congruence. by rewrite Ey, E2.
      * destruct Hrep as [_ Hy]. rewrite E2 in Hy. by apply elem_of_nil in Hy.
    + rewrite (bool_decide_false _ Eone). simpl. destruct l2 as [|y l2]; simpl head; simpl fmap.
      { simpl. by rewrite ring_del_mid. }
      assert ((fst y ∉ (fst <$> l1)) /\ fst y <> fst x /\ (fst y ∉ (fst <$> l2))) as (N1 & N2 & N3).
      { rewrite El, fmap_app, !fmap_cons in Hnd. apply NoDup_app in Hnd as (_ & Hd & [Hd1 [Hd2 _]%NoDup_cons]%NoDup_cons).
        split_and!; [intros Hy; apply (Hd _ Hy); set_solver|set_solver|done]. }
      case_decide as Ey.
      * assert (fst y ∉ R1 ++ fst x :: reps_from (Some (snd x)) (y :: l2)) as Hy.
        { rewrite elem_of_app, elem_of_cons. simpl. rewrite decide_True by congruence.
          intros [?|[?|?]]; [apply N1; by eapply reps_in|done|apply N3; by eapply reps_in]. }
        unfold prio_list_empty. rewrite (bool_decide_false _ Hy). simpl orb. cbv iota.
        rewrite add_after_mid by done. rewrite ring_del_mid; [by rewrite Hrep|done|].
        rewrite elem_of_cons. intros [?|?]; congruence.
      * destruct Hrep as [Hrep Hy].
        assert (prio_list_empty (fst y) (R1 ++ fst x :: reps_from (Some (snd x)) (y :: l2)) = false) as ->.
        { unfold prio_list_empty. rewrite bool_decide_true by set_solver. simpl.
          apply bool_decide_false. intros E. apply N2. symmetry. apply list_elem_of_singleton.
          rewrite <- E. apply elem_of_app. right. left. }
        rewrite ring_del_mid by done. by rewrite Hrep.
Qed.

(** ** The aggregate *)

Definition requests (l : list (Z * Z)) : gmap Z Z := list_to_map l.

Definition zsum (l : list Z) : Z := foldr Z.add 0 l.
Definition sum_values (m : gmap Z Z) : Z := zsum (snd <$> map_to_list m).

(** [v] is what a class of type [ty] should publish for the requests [m]. *)
Definition aggregate (ty : exynos_pm_qos_type) (m : gmap Z Z) (v : Z) : Prop :=
  match ty with
  | EXYNOS_PM_QOS_MIN => (exists r, m !! r = Some v) /\ forall r x, m !! r = Some x -> v <= x
  | EXYNOS_PM_QOS_MAX => (exists r, m !! r = Some v) /\ forall r x, m !! r = Some x -> x <= v
  | EXYNOS_PM_QOS_SUM => v = s32 (sum_values m)
  | EXYNOS_PM_QOS_UNINITIALIZED => v = EXYNOS_PM_QOS_DEFAULT_VALUE
  end.

Lemma zsum_perm l k : l ≡ₚ k -> zsum l = zsum k.
Proof. induction 1; simpl in *; lia. Qed.

Lemma s32_add_l a b : s32 (s32 a + b) = s32 (a + b).
Proof. unfold s32. dlia. Qed.

Lemma s32_idem a : s32 (s32 a) = s32 a.
Proof. unfold s32. dlia. Qed.

Lemma sum_prio_zsum l : sum_prio l = s32 (zsum (snd <$> l)).
Proof.
  unfold sum_prio. cut (forall t, s32 t = t -> foldl (fun total x => s32 (total + snd x)) t l = s32 (t + zsum (snd <$> l))).
  { intros H. by rewrite H. }
  induction l as [|x l IH]; intros t Ht; csimpl; [by rewrite Z.add_0_r|].
  rewrite IH by apply s32_idem.
  rewrite s32_add_l. f_equal. lia.
Qed.

Lemma requests_in l r v : NoDup (fst <$> l) -> (r, v) ∈ l <-> requests l !! r = Some v.
Proof. intros Hn. unfold requests. by rewrite <- elem_of_list_to_map. Qed.

Lemma sorted_last x l :
  StronglySorted prio_le (x :: l) -> List.last (x :: l) x ∈ x :: l /\ forall y, y ∈ x :: l -> snd y <= snd (List.last (x :: l) x).
Proof.
  cut (forall d, StronglySorted prio_le (x :: l) ->
    List.last (x :: l) d ∈ x :: l /\ forall y, y ∈ x :: l -> snd y <= snd (List.last (x :: l) d)); [auto|].
  revert x; induction l as [|z l IH]; intros x d Hs.
  - simpl. split; [left|]. by intros y ->%list_elem_of_singleton.
  - inversion_clear Hs as [|? ? Hs' Hf]. destruct (IH z d Hs') as [H1 H2].
    change (List.last (x :: z :: l) d) with (List.last (z :: l) d). split; [by right|].
    intros y [->|Hy]%elem_of_cons; [|by apply H2]. by apply (proj1 (Forall_forall _ _) Hf).
Qed.

Lemma get_value_aggregate c :
  plist_ok (c_list c) -> pl_nodes (c_list c) <> [] ->
  aggregate (c_type c) (requests (pl_nodes (c_list c))) (exynos_pm_qos_get_value c).
Proof.
  intros [Hs Hn _] Hne. unfold exynos_pm_qos_get_value.
  destruct (pl_nodes (c_list c)) as [|x l] eqn:El; [done|]. destruct (c_type c); unfold aggregate.
  - done.
  - destruct (sorted_last x l Hs) as [H1 H2]. split.
    + exists (fst (List.last (x :: l) x)). apply requests_in; [done|]. by destruct (List.last (x :: l) x).
    + intros r v Hv. apply requests_in in Hv; [|done]. by apply (H2 _ Hv).
  - split.
    + exists (fst x). apply requests_in; [done|]. destruct x. left.
    + intros r v Hv. apply requests_in in Hv; [|done]. inversion_clear Hs as [|? ? _ Hf].
      apply elem_of_cons in Hv as [<-|Hv]; [simpl; lia|]. apply (proj1 (Forall_forall _ _) Hf (r, v) Hv).
  - rewrite sum_prio_zsum. f_equal. unfold sum_values, requests. apply zsum_perm, fmap_Permutation.
    symmetry. by apply map_to_list_to_map.
Qed.

(** ** Changing a request *)

(** What an action makes of the requests of a class. *)
Definition apply_action (m : gmap Z Z) (node : Z) (action : exynos_pm_qos_req_action) (v : Z) : gmap Z Z :=
  match action with
  | EXYNOS_PM_QOS_REMOVE_REQ => delete node m
  | _ => <[node := v]> m
  end.

Definition action_legal (m : gmap Z Z) (node : Z) (action : exynos_pm_qos_req_action) : Prop :=
  match action with EXYNOS_PM_QOS_ADD_REQ => m !! node = None | _ => is_Some (m !! node) end.

Definition normal (default_value v : Z) : Z := if v =? EXYNOS_PM_QOS_DEFAULT_VALUE then default_value else v.

Lemma requests_dom l n : n ∈ (fst <$> l) <-> is_Some (requests l !! n).
Proof.
  unfold requests. split.
  - intros Hn. apply not_eq_None_Some. intros E. by apply not_elem_of_list_to_map in E.
  - intros Hs. destruct (decide (n ∈ (fst <$> l))) as [|Hn]; [done|].
    apply not_elem_of_list_to_map in Hn. rewrite Hn in Hs. by destruct Hs.
Qed.

Lemma requests_insert l n v :
  NoDup (fst <$> l) -> n ∉ (fst <$> l) -> requests (plist_insert (n, v) l) = <[n := v]> (requests l).
Proof.
  intros Hn Hnew. unfold requests.
  rewrite (list_to_map_proper _ ((n, v) :: l)); [done| |apply plist_insert_perm].
  rewrite (fmap_Permutation _ _ _ (plist_insert_perm _ _)). by constructor.
Qed.

Lemma requests_del l n : NoDup (fst <$> l) -> requests (list_del_node n l) = delete n (requests l).
Proof.
  intros Hn. apply map_eq. intros r. apply option_eq. intros v.
  rewrite <- requests_in by (by apply list_del_nodup). rewrite lookup_delete_Some, <- requests_in by done.
  unfold list_del_node. rewrite list_elem_of_filter. simpl. naive_solver.
Qed.

(** What the same action makes of the priority list. *)
Definition plist_action (p : plist) (n : Z) (action : exynos_pm_qos_req_action) (v : Z) : plist :=
  match action with
  | EXYNOS_PM_QOS_REMOVE_REQ => exynos_plist_del n p
  | EXYNOS_PM_QOS_UPDATE_REQ => exynos_plist_add n v (exynos_plist_del n p)
  | EXYNOS_PM_QOS_ADD_REQ => exynos_plist_add n v p
  end.

Lemma update_target_locked_eq c node action value :
  let c2 := c <| c_list := plist_action (c_list c) node action (normal (c_default_value c) value) |> in
  update_target_locked c node action value
  = (exynos_pm_qos_set_value c2 (exynos_pm_qos_get_value c2), exynos_pm_qos_get_value c, exynos_pm_qos_get_value c2).
Proof. unfold update_target_locked, normal. by destruct action. Qed.

Lemma plist_action_ok p n action v :
  plist_ok p -> action_legal (requests (pl_nodes p)) n action ->
  plist_ok (plist_action p n action v) /\
  requests (pl_nodes (plist_action p n action v)) = apply_action (requests (pl_nodes p)) n action v.
Proof.
  intros Hp Hl. destruct action; simpl in *.
  - assert (n ∉ (fst <$> pl_nodes p)) as Hn by (rewrite requests_dom, Hl; by intros []).
    destruct (plist_add_ok p n v Hp Hn) as [H1 H2]. split; [done|]. rewrite H2. by apply requests_insert; [apply Hp|].
  - rewrite <- requests_dom in Hl. destruct (plist_del_ok p n Hp Hl) as [H1 H2].
    assert (n ∉ (fst <$> pl_nodes (exynos_plist_del n p))) as Hn.
    { rewrite requests_dom, H2, requests_del, lookup_delete_eq by apply Hp. by intros []. }
    destruct (plist_add_ok _ n v H1 Hn) as [H3 H4]. split; [done|].
    rewrite H4, requests_insert by (done || apply H1). rewrite H2, requests_del by apply Hp. by rewrite insert_delete_eq.
  - rewrite <- requests_dom in Hl. destruct (plist_del_ok p n Hp Hl) as [H1 H2]. split; [done|].
    rewrite H2. by apply requests_del, Hp.
Qed.

(** Filing, changing or withdrawing a request keeps the priority list a sorted
    list with its ring, changes that request and no other, publishes the
    aggregate of the requests left (or the value for none), and notifies,
    with the new value, exactly when the aggregate changed. *)
Theorem update_target_publishes c node action value :
  plist_ok (c_list c) -> action_legal (requests (pl_nodes (c_list c))) node action ->
  let c' := fst (exynos_pm_qos_update_target c node action value) in
  let m' := apply_action (requests (pl_nodes (c_list c))) node action (normal (c_default_value c) value) in
  plist_ok (c_list c') /\ requests (pl_nodes (c_list c')) = m' /\
  (if decide (m' = ∅) then c_target_value c' = c_no_constraint_value c
   else aggregate (c_type c) m' (c_target_value c')) /\
  (if decide (exynos_pm_qos_get_value c = c_target_value c')
   then c_notified c' = c_notified c /\ snd (exynos_pm_qos_update_target c node action value) = 0
   else c_notified c' = c_notified c ++ [c_target_value c'] /\
        snd (exynos_pm_qos_update_target c node action value) = 1).
Proof.
  intros Hp Hl. unfold exynos_pm_qos_update_target. rewrite update_target_locked_eq.
  pose proof (plist_action_ok (c_list c) node action (normal (c_default_value c) value) Hp Hl) as [H1 H2].
  set (p' := plist_action _ _ _ _) in *. set (c2 := c <| c_list := p' |>).
  assert (if decide (apply_action (requests (pl_nodes (c_list c))) node action (normal (c_default_value c) value) = ∅)
    then exynos_pm_qos_get_value c2 = c_no_constraint_value c
    else aggregate (c_type c) (apply_action (requests (pl_nodes (c_list c))) node action
           (normal (c_default_value c) value)) (exynos_pm_qos_get_value c2)) as Hagg.
  { rewrite <- H2. case_decide as E.
    - unfold exynos_pm_qos_get_value. simpl. destruct (pl_nodes p') as [|[r v] l]; [done|].
      by destruct (insert_non_empty (requests l) r v).
    - apply (get_value_aggregate c2); [done|]. simpl. intros E'. by rewrite E' in E. }
  destruct (Z.eqb_spec (exynos_pm_qos_get_value c) (exynos_pm_qos_get_value c2)) as [E|E]; simpl;
    (split_and!; [done..|]); [by rewrite decide_True|by rewrite decide_False].
Qed.
