(* ===== verification/PmQosHistory.v ===== *)
(** * Histories of quality-of-service requests

    Whatever sequence of calls drivers make, and whenever timeouts expire, a
    class that has requests publishes exactly their aggregate. *)

From Stdlib Require Import Sorted.
From S2P Require Import Prelude PmQos PmQosFacts.

(** ** The abstract service *)

(** A filed request: its class, its value, and whether it will time out. *)
Record filed := MkFiled { f_class : Z; f_value : Z; f_timer : bool }.

Inductive qos_op :=
| OpAdd (r class value : Z)
| OpUpdate (r value : Z)
| OpUpdateTimeout (r value : Z)
| OpRemove (r : Z)
| OpExpire (r : Z).

Definition class_default (class : Z) : Z := from_option c_default_value 0 (class_of qos_init class).
Definition class_type (class : Z) : exynos_pm_qos_type :=
  from_option c_type EXYNOS_PM_QOS_UNINITIALIZED (class_of qos_init class).

Definition spec_step (m : gmap Z filed) (o : qos_op) : gmap Z filed :=
  match o with
  | OpAdd r class v =>
      match m !! r with
      | None => <[r := MkFiled class (normal (class_default class) v) false]> m
      | Some _ => m
      end
  | OpUpdate r v =>
      match m !! r with
      | Some f => <[r := MkFiled (f_class f) (normal (class_default (f_class f)) v) false]> m
      | None => m
      end
  | OpUpdateTimeout r v =>
      match m !! r with
      | Some f => <[r := MkFiled (f_class f) (normal (class_default (f_class f)) v) true]> m
      | None => m
      end
  | OpRemove r => delete r m
  | OpExpire r =>
      match m !! r with
      | Some f => if f_timer f
                  then <[r := MkFiled (f_class f) (class_default (f_class f)) false]> m else m
      | None => m
      end
  end.

Definition exec_op (o : qos_op) : M qos unit :=
  match o with
  | OpAdd r class v => exynos_pm_qos_add_request_trace (Some r) class v
  | OpUpdate r v => exynos_pm_qos_update_request (Some r) v
  | OpUpdateTimeout r v => exynos_pm_qos_update_request_timeout (Some r) v
  | OpRemove r => exynos_pm_qos_remove_request (Some r)
  | OpExpire r => exynos_pm_qos_work_fn r
  end.

(** Requests are filed with one of the classes that exist. *)
Definition op_legal (o : qos_op) : Prop :=
  match o with OpAdd _ class _ => 0 < class < 25 | _ => True end.

Fixpoint exec_ops (os : list qos_op) : M qos unit :=
  match os with
  | [] => kret tt
  | o :: os => do! exec_op o in exec_ops os
  end.
Definition spec_ops (os : list qos_op) : gmap Z filed := foldl spec_step ∅ os.

(** The requests of one class. *)
Definition in_class (m : gmap Z filed) (class : Z) : gmap Z Z :=
  f_value <$> filter (fun x => f_class (snd x) = class) m.

Lemma in_class_lookup m class r v :
  in_class m class !! r = Some v <-> exists t, m !! r = Some (MkFiled class v t).
Proof.
  unfold in_class. rewrite lookup_fmap_Some. split.
  - intros ([c x t] & <- & [Hm Hc]%map_lookup_filter_Some). simpl in *. subst. by exists t.
  - intros [t Hm]. exists (MkFiled class v t). split; [done|]. by apply map_lookup_filter_Some.
Qed.

(** ** Simulation *)

(** A class implements the requests [m] filed with it. *)
Record class_ok (class : Z) (c : constraints) (m : gmap Z Z) : Prop := {
  ck_list : plist_ok (c_list c);
  ck_reqs : requests (pl_nodes (c_list c)) = m;
  ck_static : c_default_value c = class_default class /\ c_type c = class_type class;
  ck_target : m <> ∅ -> aggregate (class_type class) m (c_target_value c)
}.

Definition req_class (q : qos) (r : Z) : Z := rq_class (default request_zero (q_reqs q !! r)).
Definition req_timer (q : qos) (r : Z) : bool := rq_work (default request_zero (q_reqs q !! r)).

Record simulates (q : qos) (m : gmap Z filed) : Prop := {
  sim_class : forall class, 0 < class < 25 -> exists c, class_of q class = Some c /\ class_ok class c (in_class m class);
  sim_len : length (q_classes q) = 25%nat;
  sim_legal : forall r f, m !! r = Some f -> 0 < f_class f < 25 /\ f_value f <> EXYNOS_PM_QOS_DEFAULT_VALUE;
  sim_req : forall r, req_class q r = from_option f_class 0 (m !! r) /\
    req_timer q r = from_option f_timer false (m !! r)
}.

Lemma class_default_ok class : class_default class <> EXYNOS_PM_QOS_DEFAULT_VALUE.
Proof.
  unfold class_default, class_of. destruct (class <? 0); [done|].
  destruct (q_classes qos_init !! Z.to_nat class) as [[c|]|] eqn:E; [|done..]. simpl.
  apply list_elem_of_lookup_2 in E. simpl in E. unfold exynos_pm_qos_array in E.
  repeat (apply elem_of_cons in E as [E|E]; [by simplify_eq|]). by apply elem_of_nil in E.
Qed.

Lemma normal_ok class v : normal (class_default class) v <> EXYNOS_PM_QOS_DEFAULT_VALUE.
Proof. unfold normal. destruct (Z.eqb_spec v EXYNOS_PM_QOS_DEFAULT_VALUE); [apply class_default_ok|done]. Qed.

Lemma simulates_init : simulates qos_init ∅.
Proof.
  split; [|done|by intros r f ?%lookup_empty_Some|by intros r].
  intros class Hc. unfold class_of. rewrite (proj2 (Z.ltb_ge _ _)) by lia.
  destruct (q_classes qos_init !! Z.to_nat class) as [o|] eqn:E.
  2: { apply lookup_ge_None in E. simpl in E. lia. }
  destruct o as [c|].
  2: { exfalso. destruct (Z.to_nat class) eqn:En; [lia|]. simpl in E.
       apply list_elem_of_lookup_2 in E. repeat (apply elem_of_cons in E as [E|E]; [done|]). by apply elem_of_nil in E. }
  exists c. split; [done|]. assert (exists d ty, c = constraints_init d ty) as (d & ty & Ec).
  { apply list_elem_of_lookup_2 in E. simpl in E. unfold exynos_pm_qos_array in E.
    repeat (apply elem_of_cons in E as [E|E]; [simplify_eq; by eexists _, _|]). by apply elem_of_nil in E. }
  split.
  - subst c. by split; [constructor|constructor|].
  - subst c. simpl. apply map_eq. intros r. symmetry. unfold in_class. by rewrite lookup_fmap, map_lookup_filter.
  - unfold class_default, class_type, class_of. rewrite (proj2 (Z.ltb_ge _ _)) by lia. by rewrite E.
  - intros Hne. destruct Hne. apply map_eq. intros r. unfold in_class. by rewrite lookup_fmap, map_lookup_filter.
Qed.

(** ** How one request moves its class *)

(** Request [r] is not filed, or filed with [class]. *)
Definition of_class (m : gmap Z filed) (r class : Z) : Prop := forall f, m !! r = Some f -> f_class f = class.

Lemma in_class_insert m r class v t :
  in_class (<[r := MkFiled class v t]> m) class = <[r := v]> (in_class m class).
Proof.
  apply map_eq. intros k. apply option_eq. intros x. rewrite in_class_lookup, !lookup_insert.
  case_decide; [naive_solver|]. by rewrite in_class_lookup.
Qed.

Lemma in_class_insert_ne m r class v t k :
  of_class m r class -> k <> class -> in_class (<[r := MkFiled class v t]> m) k = in_class m k.
Proof.
  intros Hr Hk. apply map_eq. intros j. apply option_eq. intros x. rewrite !in_class_lookup, !lookup_insert.
  case_decide; [subst j|done]. split; [naive_solver|]. intros [t' E]. apply Hr in E. simpl in E. congruence.
Qed.

Lemma in_class_delete m r k :
  in_class (delete r m) k = delete r (in_class m k).
Proof.
  apply map_eq. intros j. apply option_eq. intros x.
  rewrite in_class_lookup, lookup_delete_Some, in_class_lookup. setoid_rewrite lookup_delete_Some. naive_solver.
Qed.

Lemma in_class_none m r k : of_class m r k -> forall j, j <> k -> in_class m j !! r = None.
Proof.
  intros Hr j Hj. apply eq_None_not_Some. intros [v Hv]. apply in_class_lookup in Hv as [t Hv].
  apply Hr in Hv. simpl in Hv. congruence.
Qed.

Lemma class_of_insert q class c k :
  length (q_classes q) = 25%nat -> 0 < class < 25 -> 0 < k < 25 ->
  class_of (q <| q_classes := <[Z.to_nat class := Some c]> (q_classes q) |>) k
  = if decide (class = k) then Some c else class_of q k.
Proof.
  intros Hl Hc Hk. unfold class_of. rewrite (proj2 (Z.ltb_ge _ _)) by lia. simpl. case_decide as E.
  - subst. rewrite list_lookup_insert_eq by lia. done.
  - by rewrite list_lookup_insert_ne by lia.
Qed.

(** The locked update of one class. *)
Lemma update_target_class class c mc r action v :
  class_ok class c mc -> action_legal mc r action ->
  class_ok class (fst (exynos_pm_qos_update_target c r action v))
    (apply_action mc r action (normal (class_default class) v)).
Proof.
  intros [Hp Hr [Hd Ht] _] Hl. rewrite <- Hr in Hl. subst mc. rewrite <- Hd.
  assert (exists n, fst (exynos_pm_qos_update_target c r action v) = let c2 :=
    c <| c_list := plist_action (c_list c) r action (normal (c_default_value c) v) |> in
    (exynos_pm_qos_set_value c2 (exynos_pm_qos_get_value c2)) <| c_notified := n |>) as [n ->].
  { unfold exynos_pm_qos_update_target. rewrite update_target_locked_eq. cbv zeta beta iota.
    destruct (_ =? _); simpl; [exists (c_notified c)|eexists]; by destruct c. }
  destruct (plist_action_ok (c_list c) r action (normal (c_default_value c) v) Hp Hl) as [H1 H2].
  set (p' := plist_action _ _ _ _) in *. clearbody p'. split; simpl; [done|done|done|]. rewrite <- H2. intros Hne. rewrite <- Ht.
  apply (get_value_aggregate (MkConstraints _ _ _ _ _ _)); [done|]. cbn [c_list]. intros E. by rewrite E in Hne.
Qed.

(** One request of one class changes, and nothing else does. *)
Lemma simulates_change q m r class c rq m' mc' c' :
  simulates q m -> 0 < class < 25 -> class_of q class = Some c ->
  class_ok class c' mc' -> in_class m' class = mc' -> (forall k, k <> class -> in_class m' k = in_class m k) ->
  (forall j, j <> r -> m' !! j = m !! j) ->
  (forall f, m' !! r = Some f -> 0 < f_class f < 25 /\ f_value f <> EXYNOS_PM_QOS_DEFAULT_VALUE) ->
  rq_class rq = from_option f_class 0 (m' !! r) -> rq_work rq = from_option f_timer false (m' !! r) ->
  simulates (MkQos (<[Z.to_nat class := Some c']> (q_classes q)) (<[r := rq]> (q_reqs q))) m'.
Proof.
  intros [H1 H2 H3 H4] Hc Hq Hok Hm' Hother Hj Hleg Hrc Hrt. split.
  - intros k Hk. change (class_of _ k) with
      (class_of (q <| q_classes := <[Z.to_nat class := Some c']> (q_classes q) |>) k).
    rewrite class_of_insert by done. case_decide as E.
    + subst k. exists c'. by rewrite Hm'.
    + destruct (H1 k Hk) as (ck & Eck & Hck). exists ck. by rewrite Hother.
  - simpl. by rewrite length_insert.
  - intros j f. destruct (decide (j = r)) as [->|Hne]; [apply Hleg|]. rewrite Hj by done. apply H3.
  - intros j. unfold req_class, req_timer. simpl. rewrite lookup_insert. case_decide as E; [by subst|].
    rewrite Hj by done. apply H4.
Qed.

Lemma on_class_run {A} q class c (f : constraints -> constraints * A) :
  class_of q class = Some c ->
  on_class class f q = Done (snd (f c)) (q <| q_classes := <[Z.to_nat class := Some (fst (f c))]> (q_classes q) |>).
Proof. intros E. unfold on_class. rewrite E. by destruct (f c). Qed.

(** Changing request [r] of [class] by [action], with the request's own record
    set to [rq]. *)
Lemma update_target_sim q m r class action v rq m' :
  simulates q m -> 0 < class < 25 -> of_class m r class ->
  action_legal (in_class m class) r action ->
  in_class m' class = apply_action (in_class m class) r action (normal (class_default class) v) ->
  (forall k, k <> class -> in_class m' k = in_class m k) ->
  (forall j, j <> r -> m' !! j = m !! j) ->
  (forall f, m' !! r = Some f -> 0 < f_class f < 25 /\ f_value f <> EXYNOS_PM_QOS_DEFAULT_VALUE) ->
  rq_class rq = from_option f_class 0 (m' !! r) -> rq_work rq = from_option f_timer false (m' !! r) ->
  forall q0, q_classes q0 = q_classes q ->
  exists x q1, update_target class r action v q0 = Done x q1 /\ q_reqs q1 = q_reqs q0 /\
    simulates (MkQos (q_classes q1) (<[r := rq]> (q_reqs q))) m'.
Proof.
  intros Hsim Hc Hr Hl Hm Ho Hj Hleg Hrc Hrt q0 Hq0.
  destruct (sim_class _ _ Hsim class Hc) as (c & Ec & Hok).
  assert (class_of q0 class = Some c) as Ec0 by (unfold class_of in *; by rewrite Hq0).
  unfold update_target. rewrite (on_class_run _ _ _ _ Ec0). eexists _, _. split_and!; [done|done|].
  simpl. rewrite Hq0. eapply simulates_change; [done|done|done|by apply update_target_class|done..].
Qed.

(** The request of a filed [r] in its class's list. *)
Lemma sim_filed q m r f :
  simulates q m -> m !! r = Some f ->
  0 < f_class f < 25 /\ in_class m (f_class f) !! r = Some (f_value f) /\ of_class m r (f_class f) /\
  exists c, class_of q (f_class f) = Some c /\ node_prio (pl_nodes (c_list c)) r = f_value f.
Proof.
  intros Hsim Hf. destruct (sim_legal _ _ Hsim _ _ Hf) as [Hc _].
  assert (in_class m (f_class f) !! r = Some (f_value f)) as Hin.
  { apply in_class_lookup. destruct f as [a b t]. by exists t. }
  split_and!; [lia|lia|done|intros f' Hf'; congruence|].
  destruct (sim_class _ _ Hsim _ Hc) as (c & Ec & [Hp Hr _ _]). exists c. split; [done|].
  rewrite <- Hr in Hin. apply requests_in in Hin; [|apply Hp].
  by rewrite (node_prio_in _ (r, f_value f)) by (done || apply Hp).
Qed.

Lemma class_of_id q class c :
  class_of q class = Some c -> <[Z.to_nat class := Some c]> (q_classes q) = q_classes q.
Proof.
  unfold class_of. destruct (class <? 0); [done|]. intros E. apply list_insert_id.
  destruct (q_classes q !! Z.to_nat class) as [o|]; simpl in E; [congruence|done].
Qed.

(** The change of value shared by the three updating calls. *)
Lemma update_if_changed_sim q m r f v t :
  simulates q m -> m !! r = Some f -> forall q0, q_classes q0 = q_classes q ->
  exists q1, update_if_changed (f_class f) r v q0 = Done tt q1 /\ q_reqs q1 = q_reqs q0 /\
    simulates (MkQos (q_classes q1) (<[r := MkReq (f_class f) t]> (q_reqs q)))
      (<[r := MkFiled (f_class f) (normal (class_default (f_class f)) v) t]> m).
Proof.
  intros Hsim Hf q0 Hq0. destruct (sim_filed q m r f Hsim Hf) as (Hc & Hin & Hof & c & Ec & Hprio).
  assert (class_of q0 (f_class f) = Some c) as Ec0 by (unfold class_of in *; by rewrite Hq0).
  set (m' := <[r := _]> m). assert (m' !! r = Some (MkFiled (f_class f) (normal (class_default (f_class f)) v) t))
    as Hm'r by apply lookup_insert_eq.
  assert (forall j, j <> r -> m' !! j = m !! j) as Hoff by (intros; by apply lookup_insert_ne).
  assert (forall g, m' !! r = Some g -> 0 < f_class g < 25 /\ f_value g <> EXYNOS_PM_QOS_DEFAULT_VALUE) as Hleg.
  { intros g Hg. rewrite Hm'r in Hg. simplify_eq. simpl. split; [done|apply normal_ok]. }
  assert (forall k, k <> f_class f -> in_class m' k = in_class m k) as Ho
    by (intros; by apply in_class_insert_ne).
  unfold update_if_changed, req_prio, kbind. rewrite (on_class_run _ _ _ _ Ec0). cbn [fst snd].
  rewrite Hprio. rewrite (class_of_id _ _ _ Ec0).
  destruct (Z.eqb_spec v (f_value f)) as [->|Hne].
  - eexists. split_and!; [done|done|]. simpl. rewrite Hq0, <- (class_of_id q (f_class f) c Ec).
    destruct (sim_class _ _ Hsim _ Hc) as (c' & Ec' & Hok). rewrite Ec in Ec'. simplify_eq.
    eapply simulates_change; [done..| |done|done|done|by rewrite Hm'r|by rewrite Hm'r].
    unfold m'. rewrite in_class_insert. unfold normal. destruct (sim_legal _ _ Hsim _ _ Hf) as [_ Hnd].
    rewrite (proj2 (Z.eqb_neq _ _)) by done. by apply insert_id.
  - destruct (update_target_sim q m r (f_class f) EXYNOS_PM_QOS_UPDATE_REQ v (MkReq (f_class f) t) m'
      Hsim Hc Hof ltac:(by eexists) ltac:(apply in_class_insert) Ho Hoff Hleg
      ltac:(by rewrite Hm'r) ltac:(by rewrite Hm'r)
      q0 Hq0) as (x & q1 & E & Hr1 & Hs1).
    exists q1. split; [|done]. destruct q0. simpl in *. by rewrite E.
Qed.

Lemma simulates_ext q q' m : q_classes q' = q_classes q ->
  (forall r, default request_zero (q_reqs q' !! r) = default request_zero (q_reqs q !! r)) ->
  simulates q m -> simulates q' m.
Proof.
  intros Hc Hr [H1 H2 H3 H4]. split; [|by rewrite Hc|done|].
  - intros k Hk. unfold class_of. rewrite Hc. by apply H1.
  - intros r. unfold req_class, req_timer. rewrite Hr. apply H4.
Qed.

(** The state after a call whose last word on request [r] is [rq]. *)
Lemma simulates_end q q1 r rq m :
  q_reqs q1 = <[r := rq]> (q_reqs q) ->
  simulates (MkQos (q_classes q1) (<[r := rq]> (q_reqs q))) m -> simulates q1 m.
Proof. intros E. apply simulates_ext; simpl; by rewrite ?E. Qed.

Section Calls.
Context (q : qos) (m : gmap Z filed) (r : Z).
Hypothesis Hsim : simulates q m.
Let rq := default request_zero (q_reqs q !! r).

Lemma inactive_req : m !! r = None -> exynos_pm_qos_request_active rq = false.
Proof.
  intros E. destruct (sim_req _ _ Hsim r) as [Hc _]. unfold req_class in Hc. fold rq in Hc. rewrite E in Hc.
  unfold exynos_pm_qos_request_active. by rewrite Hc.
Qed.

Lemma active_req f : m !! r = Some f -> rq = MkReq (f_class f) (f_timer f) /\ exynos_pm_qos_request_active rq = true.
Proof.
  intros E. destruct (sim_req _ _ Hsim r) as [Hc Ht]. unfold req_class, req_timer in *. fold rq in Hc, Ht.
  rewrite E in *. simpl in *. destruct (sim_legal _ _ Hsim _ _ E) as [Hl _].
  unfold exynos_pm_qos_request_active. rewrite Hc, (proj2 (Z.eqb_neq _ _)) by lia.
  split; [|done]. destruct rq. simpl in *. congruence.
Qed.

(** Once the request's own record is [rq'], the value changes. *)
Lemma set_value_sim f v t :
  m !! r = Some f ->
  exists q1, update_if_changed (f_class f) r v (MkQos (q_classes q) (<[r := MkReq (f_class f) t]> (q_reqs q)))
      = Done tt q1 /\ q_reqs q1 = <[r := MkReq (f_class f) t]> (q_reqs q) /\
    forall t', simulates (MkQos (q_classes q1) (<[r := MkReq (f_class f) t']> (q_reqs q)))
      (<[r := MkFiled (f_class f) (normal (class_default (f_class f)) v) t']> m).
Proof.
  intros Hf. set (q0 := MkQos _ _).
  destruct (update_if_changed_sim q m r f v true Hsim Hf q0 eq_refl) as (q1 & E & Hr & Hs).
  exists q1. split_and!; [done|done|]. intros t'.
  destruct (update_if_changed_sim q m r f v t' Hsim Hf q0 eq_refl) as (q1' & E' & _ & Hs').
  rewrite E in E'. by simplify_eq.
Qed.

Lemma add_sim class v :
  0 < class < 25 -> wp (exynos_pm_qos_add_request_trace (Some r) class v)
    (fun _ q' => simulates q' (spec_step m (OpAdd r class v))) q.
Proof.
  intros Hc. unfold exynos_pm_qos_add_request_trace. apply wp_bind. eapply (wp_eq _ _ _ rq q); [done|].
  simpl. destruct (m !! r) as [f|] eqn:Em.
  { destruct (active_req f Em) as [_ ->]. by apply wp_ret. }
  rewrite inactive_req by done. apply wp_bind, wp_mod, wp_bind.
  set (m' := <[r := MkFiled class (normal (class_default class) v) false]> m).
  assert (of_class m r class) as Hof by (intros f E; congruence).
  assert (m' !! r = Some (MkFiled class (normal (class_default class) v) false)) as Hm'r by apply lookup_insert_eq.
  destruct (update_target_sim q m r class EXYNOS_PM_QOS_ADD_REQ v (MkReq class false) m') with
    (q0 := q <| q_reqs := <[r := MkReq class false]> (q_reqs q) |>) as (x & q1 & E & Hr1 & Hs1); try done.
  - apply eq_None_not_Some. intros [y Hy]. apply in_class_lookup in Hy as [t Hy]. congruence.
  - apply in_class_insert.
  - intros k Hk. by apply in_class_insert_ne.
  - intros j Hj. by apply lookup_insert_ne.
  - intros g Hg. rewrite Hm'r in Hg. simplify_eq. split; [done|apply normal_ok].
  - by rewrite Hm'r.
  - by rewrite Hm'r.
  - eapply wp_eq; [exact E|]. apply wp_ret. eapply (simulates_end q); [exact Hr1|exact Hs1].
Qed.

Lemma cancel_run f : m !! r = Some f ->
  cancel_delayed_work_sync r q = Done tt (MkQos (q_classes q) (<[r := MkReq (f_class f) false]> (q_reqs q))).
Proof.
  intros Em. unfold cancel_delayed_work_sync, mod_req, kmod. fold rq. by rewrite (proj1 (active_req f Em)).
Qed.

Lemma update_sim v :
  wp (exynos_pm_qos_update_request (Some r) v) (fun _ q' => simulates q' (spec_step m (OpUpdate r v))) q.
Proof.
  unfold exynos_pm_qos_update_request. apply wp_bind. eapply (wp_eq _ _ _ rq q); [done|].
  simpl. destruct (m !! r) as [f|] eqn:Em; [|rewrite inactive_req by done; by apply wp_ret].
  destruct (active_req f Em) as [_ ->]. apply wp_bind. eapply wp_eq; [by apply (cancel_run f)|].
  apply wp_bind. eapply wp_eq; [unfold get_req; simpl; rewrite lookup_insert_eq; reflexivity|]. simpl.
  destruct (set_value_sim f v false Em) as (q1 & E & Hr1 & Hs1).
  eapply wp_eq; [exact E|]. by eapply simulates_end.
Qed.

Lemma update_timeout_sim v :
  wp (exynos_pm_qos_update_request_timeout (Some r) v)
    (fun _ q' => simulates q' (spec_step m (OpUpdateTimeout r v))) q.
Proof.
  unfold exynos_pm_qos_update_request_timeout. apply wp_bind. eapply (wp_eq _ _ _ rq q); [done|].
  simpl. destruct (m !! r) as [f|] eqn:Em; [|rewrite inactive_req by done; by apply wp_ret].
  destruct (active_req f Em) as [Erq ->]. apply wp_bind. eapply wp_eq; [by apply (cancel_run f)|].
  rewrite Erq. simpl. destruct (set_value_sim f v false Em) as (q1 & E & Hr1 & Hs1).
  apply wp_bind. eapply wp_eq; [exact E|]. apply wp_mod.
  eapply (simulates_end q _ r (MkReq (f_class f) true)); [|apply Hs1].
  simpl. rewrite Hr1, lookup_insert_eq, insert_insert_eq. done.
Qed.

Lemma expire_sim : wp (exynos_pm_qos_work_fn r) (fun _ q' => simulates q' (spec_step m (OpExpire r))) q.
Proof.
  unfold exynos_pm_qos_work_fn. apply wp_bind. eapply (wp_eq _ _ _ rq q); [done|].
  simpl. destruct (m !! r) as [f|] eqn:Em.
  2: { destruct (sim_req _ _ Hsim r) as [_ Ht]. unfold req_timer in Ht. fold rq in Ht. rewrite Em in Ht.
       simpl in Ht. rewrite Ht. by apply wp_ret. }
  destruct (active_req f Em) as [Erq _]. rewrite Erq. simpl. destruct (f_timer f); [|by apply wp_ret].
  apply wp_bind. eapply wp_eq; [by apply (cancel_run f)|].
  apply wp_bind. eapply wp_eq; [unfold get_req; simpl; rewrite lookup_insert_eq; reflexivity|]. simpl.
  destruct (set_value_sim f EXYNOS_PM_QOS_DEFAULT_VALUE false Em) as (q1 & E & Hr1 & Hs1).
  eapply wp_eq; [exact E|]. by eapply simulates_end; [|apply Hs1].
Qed.

Lemma remove_sim : wp (exynos_pm_qos_remove_request (Some r)) (fun _ q' => simulates q' (spec_step m (OpRemove r))) q.
Proof.
  unfold exynos_pm_qos_remove_request. apply wp_bind. eapply (wp_eq _ _ _ rq q); [done|].
  simpl. destruct (m !! r) as [f|] eqn:Em.
  2: { rewrite inactive_req by done. apply wp_ret. by rewrite delete_id. }
  destruct (active_req f Em) as [Erq ->]. rewrite Erq. simpl.
  apply wp_bind. eapply wp_eq; [by apply (cancel_run f)|]. apply wp_bind.
  destruct (sim_filed q m r f Hsim Em) as (Hc & Hin & Hof & _).
  destruct (update_target_sim q m r (f_class f) EXYNOS_PM_QOS_REMOVE_REQ EXYNOS_PM_QOS_DEFAULT_VALUE request_zero
    (delete r m)) with (q0 := MkQos (q_classes q) (<[r := MkReq (f_class f) false]> (q_reqs q)))
    as (x & q1 & E & Hr1 & Hs1); try done; [by eexists|by apply in_class_delete|..].
  - intros k Hk. rewrite in_class_delete. apply delete_id. by eapply in_class_none.
  - intros j Hj. by apply lookup_delete_ne.
  - intros g Hg. by rewrite lookup_delete_eq in Hg.
  - by rewrite lookup_delete_eq.
  - by rewrite lookup_delete_eq.
  - eapply wp_eq; [exact E|]. apply wp_mod. eapply (simulates_end q _ r request_zero); [|exact Hs1].
    simpl in *. by rewrite Hr1, insert_insert_eq.
Qed.
End Calls.

Lemma exec_op_sim q m o :
  op_legal o -> simulates q m -> wp (exec_op o) (fun _ q' => simulates q' (spec_step m o)) q.
Proof.
  intros Hl Hs. destruct o; [by apply add_sim|by apply update_sim|by apply update_timeout_sim|
    by apply remove_sim|by apply expire_sim].
Qed.

(** C6. After any sequence of calls and timeouts, a class that has requests
    publishes exactly their aggregate (the smallest for a cap, the largest for
    a floor), each request counting with the value last given to it. *)
Theorem qos_history_publishes os class :
  Forall op_legal os -> 0 < class < 25 -> in_class (spec_ops os) class <> ∅ ->
  wp (do! exec_ops os in exynos_pm_qos_request class)
    (fun v _ => aggregate (class_type class) (in_class (spec_ops os) class) v) qos_init.
Proof.
  intros Hos Hc. unfold spec_ops.
  cut (forall m q, simulates q m -> in_class (foldl spec_step m os) class <> ∅ ->
    wp (do! exec_ops os in exynos_pm_qos_request class)
      (fun v _ => aggregate (class_type class) (in_class (foldl spec_step m os) class) v) q).
  { intros H. apply H, simulates_init. }
  induction Hos as [|o os Ho Hos IH]; intros m q Hs Hne; apply wp_bind; simpl in *.
  - apply wp_ret. destruct (sim_class _ _ Hs class Hc) as (c & Ec & Hok).
    unfold exynos_pm_qos_request. eapply wp_eq; [by apply on_class_run|]. by apply Hok.
  - apply wp_bind. eapply wp_mono; [by apply exec_op_sim|]. intros [] q1 Hs1.
    specialize (IH _ _ Hs1 Hne). unfold wp, kbind in *. by destruct (exec_ops os q1).
Qed.

(** A floor of 500 and one of 900 are filed, and the second one times out. *)
Definition demo_ops : list qos_op :=
  [OpAdd 1 1 500; OpAdd 2 1 700; OpUpdateTimeout 2 900; OpAdd 3 2 1200; OpExpire 2; OpUpdate 1 600].

Lemma qos_history_publishes_witness :
  in_class (spec_ops demo_ops) 1 <> ∅ /\
  wp (do! exec_ops demo_ops in exynos_pm_qos_request 1)
    (fun v _ => aggregate (class_type 1) (in_class (spec_ops demo_ops) 1) v) qos_init.
Proof.
  assert (in_class (spec_ops demo_ops) 1 <> ∅) as Hne by (vm_compute; discriminate).
  split; [exact Hne|]. apply qos_history_publishes; [|lia|exact Hne].
  repeat constructor; simpl; lia.
Defined.

Lemma update_target_publishes_witness :
  let c := fst (exynos_pm_qos_update_target cluster0_freq_max_constraints 7 EXYNOS_PM_QOS_ADD_REQ 1500) in
  c_target_value c = 1500 /\ c_notified c = [1500].
Proof.
  split; [vm_compute; reflexivity|].
  pose proof (update_target_publishes cluster0_freq_max_constraints 7 EXYNOS_PM_QOS_ADD_REQ 1500) as H.
  destruct H as (_ & _ & _ & H); [by split; [constructor|constructor|]|done|].
  rewrite decide_False in H by (vm_compute; discriminate). destruct H as [H _]. rewrite H. vm_compute; reflexivity.
Defined.

(** ** Limits *)

Lemma update_target_fields c n action v :
  let c' := fst (exynos_pm_qos_update_target c n action v) in
  let p := plist_action (c_list c) n action (normal (c_default_value c) v) in
  c_list c' = p /\ c_target_value c' = exynos_pm_qos_get_value (c <| c_list := p |>) /\
  c_no_constraint_value c' = c_no_constraint_value c.
Proof.
  unfold exynos_pm_qos_update_target. rewrite update_target_locked_eq. cbv zeta beta iota.
  by destruct (_ =? _).
Qed.

(** Every class starts at its default value, but once its last request is
    withdrawn it publishes 0: a cap that nobody asks for any more becomes a cap
    at zero instead of no cap. *)
Theorem last_withdrawal_publishes_zero c r v :
  Some c ∈ exynos_pm_qos_array ->
  let c1 := fst (exynos_pm_qos_update_target c r EXYNOS_PM_QOS_ADD_REQ v) in
  let c2 := fst (exynos_pm_qos_update_target c1 r EXYNOS_PM_QOS_REMOVE_REQ EXYNOS_PM_QOS_DEFAULT_VALUE) in
  c_target_value c = c_default_value c /\ c_target_value c2 = 0.
Proof.
  intros Hin. assert (exists d ty, c = constraints_init d ty) as (d & ty & ->).
  { unfold exynos_pm_qos_array in Hin.
    repeat (apply elem_of_cons in Hin as [E|Hin]; [simplify_eq; by eexists _, _|]). by apply elem_of_nil in Hin. }
  intros c1 c2. split; [done|].
  assert (plist_ok (c_list (constraints_init d ty))) as Hok by by split; [constructor|constructor|].
  destruct (update_target_fields (constraints_init d ty) r EXYNOS_PM_QOS_ADD_REQ v) as (L1 & _ & N1).
  destruct (update_target_fields c1 r EXYNOS_PM_QOS_REMOVE_REQ EXYNOS_PM_QOS_DEFAULT_VALUE) as (L2 & T2 & _).
  fold c1 in L1, N1. fold c2 in L2, T2.
  destruct (plist_action_ok _ r EXYNOS_PM_QOS_ADD_REQ
    (normal (c_default_value (constraints_init d ty)) v) Hok eq_refl) as [H1 H2].
  rewrite <- L1 in H1, H2.
  destruct (plist_action_ok _ r EXYNOS_PM_QOS_REMOVE_REQ
    (normal (c_default_value c1) EXYNOS_PM_QOS_DEFAULT_VALUE) H1) as [_ H4].
  { rewrite H2. simpl. rewrite lookup_insert_eq. by eexists. }
  set (p := plist_action (c_list c1) _ _ _) in *. clearbody p. rewrite H2 in H4. simpl in H4.
  rewrite delete_insert_id in H4 by done. rewrite T2. unfold exynos_pm_qos_get_value. simpl.
  destruct (pl_nodes p) as [|[a b] l]; [exact N1|]. exfalso. exact (insert_non_empty (requests l) a b H4).
Qed.

Lemma last_withdrawal_publishes_zero_witness :
  c_default_value gpu_freq_max_constraints = INT_MAX /\
  let c1 := fst (exynos_pm_qos_update_target gpu_freq_max_constraints 7 EXYNOS_PM_QOS_ADD_REQ 900) in
  c_target_value (fst (exynos_pm_qos_update_target c1 7 EXYNOS_PM_QOS_REMOVE_REQ EXYNOS_PM_QOS_DEFAULT_VALUE)) = 0.
Proof.
  split; [done|].
  destruct (last_withdrawal_publishes_zero gpu_freq_max_constraints 7 900) as [_ H]; [|exact H].
  by apply (list_elem_of_lookup_2 _ 24).
Defined.

(** The notifier chain is called after the locks are released, so two tasks
    may deliver their values in the other order: two floors are filed, the
    published value is the higher one, and the last value notified is the lower. *)
Theorem notifications_can_arrive_late :
  let '(c1, _, v1) := update_target_locked gpu_freq_min_constraints 1 EXYNOS_PM_QOS_ADD_REQ 500 in
  let '(c2, _, v2) := update_target_locked c1 2 EXYNOS_PM_QOS_ADD_REQ 900 in
  let c := notify (notify c2 v2) v1 in
  c_target_value c = 900 /\ last (c_notified c) = Some 500.
Proof. vm_compute. done. Qed.

(** ** Flags *)

Definition flags_union (l : list (Z * Z)) : Z := foldl (fun val x => Z.lor val (snd x)) 0 l.

Lemma flags_union_snoc l r v : flags_union (l ++ [(r, v)]) = Z.lor (flags_union l) v.
Proof. unfold flags_union. by rewrite foldl_snoc. Qed.

(** The effective flags of a set are the union of the flags requested, after
    any request is filed, changed or withdrawn, and the caller is told exactly
    when that union changed. *)
Theorem update_flags_effective pqf req action val :
  pqf_effective_flags pqf = flags_union (pqf_list pqf) ->
  let pqf' := fst (exynos_pm_qos_update_flags pqf req action val) in
  let kept := filter (fun x => fst x <> req) (pqf_list pqf) in
  pqf_list pqf' = match action with
                  | EXYNOS_PM_QOS_ADD_REQ => pqf_list pqf ++ [(req, val)]
                  | EXYNOS_PM_QOS_UPDATE_REQ => kept ++ [(req, val)]
                  | EXYNOS_PM_QOS_REMOVE_REQ => kept
                  end /\
  pqf_effective_flags pqf' = flags_union (pqf_list pqf') /\
  snd (exynos_pm_qos_update_flags pqf req action val)
    = negb (flags_union (pqf_list pqf) =? flags_union (pqf_list pqf')).
Proof.
  intros H. assert (forall p, pqf_effective_flags p = flags_union (pqf_list p) -> flags_value p = flags_union (pqf_list p))
    as Hv by (intros p Hp; unfold flags_value; rewrite Hp; by destruct (pqf_list p)).
  assert (forall p r v, pqf_effective_flags p = flags_union (pqf_list p) ->
    pqf_effective_flags (flags_add p r v) = flags_union (pqf_list (flags_add p r v))) as Ha
    by (intros p r v Hp; simpl; by rewrite flags_union_snoc, Hp).
  unfold exynos_pm_qos_update_flags. cbn [fst snd]. rewrite (Hv _ H).
  destruct action; (split; [done|]); [split; [by apply Ha|by rewrite Hv by (by apply Ha)]
    |split; [by apply Ha|by rewrite Hv by (by apply Ha)]|split; [done|by rewrite Hv]].
Qed.

Lemma update_flags_effective_witness :
  pqf_effective_flags (fst (exynos_pm_qos_update_flags (MkFlags [(1, 4); (2, 1)] 5) 1 EXYNOS_PM_QOS_UPDATE_REQ 2)) = 3.
Proof.
  destruct (update_flags_effective (MkFlags [(1, 4); (2, 1)] 5) 1 EXYNOS_PM_QOS_UPDATE_REQ 2) as (_ & H & _);
    [done|]. rewrite H. vm_compute; reflexivity.
Defined.
