(* ===== verification/Acpm.v ===== *)
(** * The ACPM mailbox ([drivers/soc/google/acpm/acpm_ipc.c])

    The application processor and the power-management firmware share, per
    channel, two queues of fixed-size commands in SRAM: [tx] towards the
    firmware and [rx] back. Every command carries a 6-bit sequence number, by
    which its response is recognised. *)

From S2P Require Import Prelude.

Definition ACPM_IPC_PROTOCOL_SEQ_NUM : Z := 16.
Definition SEQ_NUM_MAX : Z := 64.
Definition IPC_TIMEOUT : Z := 10000000.
Definition SW_CNT_TIMEOUT_100MS : Z := 10000.
Definition IPC_NB_RETRIES : Z := 5.
Definition IPC_TIMEOUT_COUNT_US : Z := 500 * 1000.
Definition IPC_BUSY_CHK_CNT : Z := 500.

(** ** State *)

(** A queue: its slots, each the words of a command, and the two indices the
    sides advance. The producer writes at [rg_front], the consumer reads at
    [rg_rear]. *)
Record ring := MkRing { rg_slots : list (list Z); rg_front : Z; rg_rear : Z }.
#[export] Instance eta_ring : Eta ring := mk_eta (fun r => MkRing (rg_slots r) (rg_front r) (rg_rear r)).
Definition rg_len (r : ring) : Z := Z.of_nat (length (rg_slots r)).

(** The producer's step. *)
Definition ring_push (r : ring) (m : list Z) : ring :=
  MkRing (<[Z.to_nat (rg_front r) := m]> (rg_slots r)) ((rg_front r + 1) mod rg_len r) (rg_rear r).

(** [struct ipc_config]: the command buffer, which may be absent. *)
Record ipc_config := MkCfg { cfg_cmd : option (list Z); cfg_response : bool }.

Inductive ch_type := TYPE_QUEUE | TYPE_BUFFER.

(** [ch_words] is the size of a command in words; [ch_wait] counts completions
    nobody has waited for; [ch_irq] is the channel's bit of the interrupt status
    register; [ch_delivered] records the commands handed to each callback and
    [ch_doorbells] counts the interrupts raised at the firmware. *)
Record channel := MkChannel {
  ch_rx : ring;
  ch_tx : ring;
  ch_words : nat;
  ch_callbacks : list (Z * Z);
  ch_id : Z;
  ch_type_ : ch_type;
  ch_seq_num : Z;
  ch_cmd : list Z;
  ch_wait : Z;
  ch_polling : bool;
  ch_bitmap : Z;
  ch_cfg : list (list Z * bool);
  ch_irq : bool;
  ch_delivered : list (Z * list Z);
  ch_doorbells : nat
}.
#[export] Instance eta_channel : Eta channel := mk_eta (fun c =>
  MkChannel (ch_rx c) (ch_tx c) (ch_words c) (ch_callbacks c) (ch_id c) (ch_type_ c) (ch_seq_num c)
    (ch_cmd c) (ch_wait c) (ch_polling c) (ch_bitmap c) (ch_cfg c) (ch_irq c) (ch_delivered c) (ch_doorbells c)).

(** ** The firmware's side of a channel *)

Inductive fw_act :=
| FwTake                   (* consume the command at the rear of [tx] *)
| FwPush (msg : list Z)    (* produce a response at the front of [rx] *)
| FwRaise.                 (* raise the channel's interrupt *)

Definition fw_step (c : channel) (a : fw_act) : channel :=
  match a with
  | FwTake => c <| ch_tx := (ch_tx c) <| rg_rear := (rg_rear (ch_tx c) + 1) mod rg_len (ch_tx c) |> |>
  | FwPush msg => c <| ch_rx := ring_push (ch_rx c) msg |>
  | FwRaise => c <| ch_irq := true |>
  end.
Definition fw_run (acts : list fw_act) : M channel unit := kmod (fun c => foldl fw_step c acts).

(** ** Memory access *)

Definition word (l : list Z) (i : nat) : M channel Z := fun c =>
  match l !! i with Some w => Done w c | None => Fault end.
Definition rx_slot (i : Z) : M channel (list Z) := fun c =>
  if i <? 0 then Fault
  else match rg_slots (ch_rx c) !! Z.to_nat i with Some m => Done m c | None => Fault end.
(** [ch_cfg[i]]. *)
Definition get_cfg (i : Z) : M channel (list Z * bool) := fun c =>
  if i <? 0 then Fault
  else match ch_cfg c !! Z.to_nat i with Some x => Done x c | None => Fault end.
Definition set_cfg (i : Z) (x : list Z * bool) : M channel unit :=
  kmod (fun c => c <| ch_cfg := <[Z.to_nat i := x]> (ch_cfg c) |>).
Definition set_bit (i : Z) : M channel unit := kmod (fun c => c <| ch_bitmap := Z.setbit (ch_bitmap c) i |>).
Definition clear_bit (i : Z) : M channel unit := kmod (fun c => c <| ch_bitmap := Z.clearbit (ch_bitmap c) i |>).
Definition test_bit (i : Z) : M channel bool := fun c => Done (Z.testbit (ch_bitmap c) i) c.

(** [memcpy_align_4(dst, src, size)]: the first words of [dst] become [src]. *)
Definition copy_words (dst src : list Z) : list Z := src ++ drop (length src) dst.

(** The sequence number in the first word of a command. *)
Definition seq_of (w : Z) : Z := Z.land (Z.shiftr w ACPM_IPC_PROTOCOL_SEQ_NUM) 0x3f.

(** ** Responses *)

(** The loop of [check_response]: [n] bounds the slots between [i] and
    [rx_front]. *)
Fixpoint check_loop (n : nat) (i rx_front : Z) : M channel unit :=
  if i =? rx_front then kret tt
  else
    match n with
    | O => kblock
    | S n =>
        let! src := rx_slot i in
        let! w := word src 0 in
        let data := seq_of w in
        if (data =? 0) || (data >=? SEQ_NUM_MAX) then kfault
        else
          let! cfg := get_cfg (data - 1) in
          do! (if snd cfg then set_cfg (data - 1) (copy_words (fst cfg) src, snd cfg)
               else clear_bit (data - 1)) in
          let! c := kget in
          check_loop n ((i + 1) mod rg_len (ch_rx c)) rx_front
    end.

Definition check_response (cfg : option (list Z)) : M channel (option (list Z)) :=
  let! c := kget in
  let rx_front := rg_front (ch_rx c) in
  do! check_loop (length (rg_slots (ch_rx c))) (rg_rear (ch_rx c)) rx_front in
  do! kmod (fun c => c <| ch_rx := (ch_rx c) <| rg_rear := rx_front |> |>) in
  do! kmod (fun c => c <| ch_irq := false |>) in
  match cfg with
  | None => kret None
  | Some cmd =>
      let! w := word cmd 0 in
      let cfg_seq := seq_of w in
      let! resp := get_cfg (cfg_seq - 1) in
      let! w := word (fst resp) 0 in
      let data := seq_of w in
      if data =? cfg_seq then
        let! c := kget in
        do! clear_bit (data - 1) in
        kret (Some (copy_words cmd (take (ch_words c) (fst resp))))
      else kret (Some cmd)
  end.

(** ** Interrupts *)

(** Each callback receives the [ch_words] words of the command. *)
Definition run_callbacks : M channel unit :=
  kmod (fun c => c <| ch_delivered :=
    ch_delivered c ++ ((fun cb => (snd cb, take (ch_words c) (ch_cmd c))) <$> ch_callbacks c) |>).

(** The dequeue loop; [env] is what the firmware does before each new reading of
    the front (nothing once it is exhausted), [n] bounds the commands queued. *)
Fixpoint dequeue_loop (n : nat) (env : list (list fw_act)) (rear : Z) : M channel unit :=
  let! c := kget in
  if rear =? rg_front (ch_rx c) then kret tt
  else
    match n with
    | O => kblock
    | S n =>
        let! src := rx_slot rear in
        do! kmod (fun c => c <| ch_cmd := copy_words (ch_cmd c) src |>) in
        do! run_callbacks in
        let rear := if rg_len (ch_rx c) =? rear + 1 then 0 else rear + 1 in
        do! (if ch_polling c then kret tt else kmod (fun c => c <| ch_wait := ch_wait c + 1 |>)) in
        do! kmod (fun c => c <| ch_rx := (ch_rx c) <| rg_rear := rear |> |>) in
        do! fw_run (default [] (hd_error env)) in
        dequeue_loop n (tail env) rear
    end.

Definition dequeue_policy (env : list (list fw_act)) : M channel unit :=
  let! c := kget in
  match ch_type_ c with
  | TYPE_BUFFER =>
      let! src := rx_slot 0 in
      do! kmod (fun c => c <| ch_cmd := copy_words (ch_cmd c) src |>) in
      run_callbacks
  | TYPE_QUEUE => dequeue_loop (length (rg_slots (ch_rx c)) + length (concat env)) env (rg_rear (ch_rx c))
  end.

(** ** Sending *)

(** The wait for space: [env] is what the firmware does before each reading of
    the indices. Beyond the count the driver panics. *)
Fixpoint wait_space (env : list (list fw_act)) (count : Z) : M channel unit :=
  match env with
  | [] => kblock
  | acts :: env =>
      do! fw_run acts in
      let! c := kget in
      if (rg_front (ch_tx c) + 2) mod rg_len (ch_tx c) =? rg_front (ch_rx c)
      then if count >? IPC_TIMEOUT_COUNT_US then kfault else wait_space env (count + 1)
      else kret tt
  end.

(** The search for an unused number: 63 steps visit them all; with none free
    the loop does not end. *)
Fixpoint next_seq (n : nat) : M channel unit :=
  match n with
  | O => kblock
  | S n =>
      do! kmod (fun c => c <| ch_seq_num := if ch_seq_num c + 1 =? SEQ_NUM_MAX then 1 else ch_seq_num c + 1 |>) in
      let! c := kget in
      let! busy := test_bit (ch_seq_num c - 1) in
      if busy : bool then next_seq n else kret tt
  end.

(** The locked half of [__acpm_ipc_send_data]: an error, or the command as the
    caller's buffer holds it afterwards. *)
Definition send_locked (env : list (list fw_act)) (cfg : ipc_config) : M channel (Z + list Z) :=
  do! wait_space env 0 in
  let! c := kget in
  let tx_front := rg_front (ch_tx c) in
  let tmp_index := (tx_front + 1) mod rg_len (ch_tx c) in
  if tmp_index =? rg_rear (ch_tx c) then kfault
  else
    match cfg_cmd cfg with
    | None => kret (inl (- EIO))
    | Some cmd =>
        do! check_response None in
        do! next_seq 64 in
        let! c := kget in
        let i := ch_seq_num c - 1 in
        let! old := get_cfg i in
        do! set_cfg i (replicate (length (fst old)) 0, cfg_response cfg) in
        do! set_bit i in
        let! w := word cmd 0 in
        let cmd := <[0%nat := Z.lor w (Z.shiftl (Z.land (ch_seq_num c) 0x3f) ACPM_IPC_PROTOCOL_SEQ_NUM)]> cmd in
        if (length cmd <? ch_words c)%nat || (length cmd <? 4)%nat then kfault
        else
          do! kmod (fun c => c <| ch_tx := (ch_tx c)
                 <| rg_slots := <[Z.to_nat tx_front := take (ch_words c) cmd]> (rg_slots (ch_tx c)) |>
                 <| rg_front := tmp_index |> |>
               <| ch_doorbells := S (ch_doorbells c) |>) in
          kret (inr (<[3%nat := 0]> (<[2%nat := 0]> (<[1%nat := 0]> cmd))))
    end.

(** One turn of the polling loop: what the firmware does before it, the clock
    read in it, and the clock read should it go to [retry]. *)
Record poll_env := MkPoll { pe_acts : list fw_act; pe_now : Z; pe_retry : Z }.

(** The result tells whether the response came or the retries ran out. *)
Fixpoint poll_loop (env : list poll_env) (w_mode : bool) (seq_num timeout : Z) (retry_cnt cnt_10us : Z)
    (cmd : list Z) : M channel (bool * list Z) :=
  match env with
  | [] => kblock
  | e :: env =>
      do! fw_run (pe_acts e) in
      let! cmd' := check_response (Some cmd) in
      let cmd := default cmd cmd' in
      let! busy := test_bit (seq_num - 1) in
      if busy : bool then
        if (timeout <? pe_now e) || (cnt_10us >? SW_CNT_TIMEOUT_100MS) then
          if retry_cnt >? IPC_NB_RETRIES then kret (false, cmd)
          else if retry_cnt >? 0
          then poll_loop env w_mode seq_num (u64 (pe_retry e + IPC_TIMEOUT)) (retry_cnt + 1) cnt_10us cmd
          else poll_loop env w_mode seq_num timeout (retry_cnt + 1) cnt_10us cmd
        else poll_loop env w_mode seq_num timeout retry_cnt (cnt_10us + (if w_mode then 5 else 1)) cmd
      else kret (true, cmd)
  end.

(** *** When a request times out

    The configured action is taken. A panic is an invalid access of the model; the
    watchdog actions spin until the reset; the dump modes and the halt are
    operations [soc_op] the platform may register. *)
Definition GO_DEFAULT_ID : Z := 0.
Definition GO_PANIC_ID : Z := 1.
Definition GO_WATCHDOG_ID : Z := 2.
Definition GO_S2D_ID : Z := 3.
Definition GO_ARRAYDUMP_ID : Z := 4.
Definition GO_SCANDUMP_ID : Z := 5.
Definition GO_HALT_ID : Z := 6.

Definition dbg_snapshot_do_dpm_policy (soc_op : Z -> M channel unit) (policy : Z) : M channel unit :=
  if policy =? GO_DEFAULT_ID then kret tt
  else if policy =? GO_PANIC_ID then kfault
  else if (policy =? GO_WATCHDOG_ID) || (policy =? GO_S2D_ID) then kblock
  else if (policy =? GO_ARRAYDUMP_ID) || (policy =? GO_SCANDUMP_ID) || (policy =? GO_HALT_ID)
  then soc_op policy
  else kret tt.

(** What a call leaves its caller: the return value and the command buffer;
    [dpm] is the action on a timeout. *)
Definition acpm_ipc_send_data_on (dpm : M channel unit) (env : list (list fw_act)) (penv : list poll_env)
    (t0 : Z) (w_mode : bool) (cfg : ipc_config) : M channel (Z * option (list Z)) :=
  let! c := kget in
  if rg_len (ch_tx c) <? 3 then kret (- EIO, cfg_cmd cfg)
  else
    let! r := send_locked env cfg in
    match r with
    | inl err => kret (err, cfg_cmd cfg)
    | inr cmd =>
        if ch_polling c && cfg_response cfg then
          let! w := word cmd 0 in
          let! r := poll_loop penv w_mode (seq_of w) (u64 (t0 + IPC_TIMEOUT)) 0 0 cmd in
          do! (if fst r then kret tt else dpm) in
          kret (0, Some (snd r))
        else kret (0, Some cmd)
    end.

(** ** The set of channels *)

Record acpm := MkAcpm {
  a_channels : list channel; a_intmr : Z; a_intr_status : Z; a_w_mode : bool; a_panic_action : Z
}.
#[export] Instance eta_acpm : Eta acpm := mk_eta (fun a =>
  MkAcpm (a_channels a) (a_intmr a) (a_intr_status a) (a_w_mode a) (a_panic_action a)).

Definition on_channel {A} (i : Z) (f : M channel A) : M acpm A := fun a =>
  if i <? 0 then Fault
  else match a_channels a !! Z.to_nat i with
       | None => Fault
       | Some c =>
           match f c with
           | Done x c' => Done x (a <| a_channels := <[Z.to_nat i := c']> (a_channels a) |>)
           | Blocked => Blocked
           | Fault => Fault
           end
       end.

(** [__acpm_ipc_send_data]; a null [cfg] is dereferenced unless the guard
    returns. *)
Definition acpm_ipc_send_data_ (soc_op : Z -> M channel unit) (env : list (list fw_act))
    (penv : list poll_env) (t0 : Z) (channel_id : Z) (cfg : option ipc_config) (w_mode : bool) : M acpm (Z * option (list Z)) :=
  let! a := kget in
  match cfg with
  | None => if channel_id >=? Z.of_nat (length (a_channels a)) then kret (- EIO, None) else kfault
  | Some cfg =>
      on_channel channel_id (acpm_ipc_send_data_on
        (dbg_snapshot_do_dpm_policy soc_op (a_panic_action a)) env penv t0 w_mode cfg)
  end.

Definition acpm_ipc_send_data soc_op env penv t0 (channel_id : Z) (cfg : option ipc_config) :=
  acpm_ipc_send_data_ soc_op env penv t0 channel_id cfg false.

(** [rt] is the answer of [is_rt_dl_task_policy]. *)
Definition acpm_ipc_send_data_lazy soc_op env penv t0 (rt : bool) (channel_id : Z) (cfg : option ipc_config) :=
  if rt then acpm_ipc_send_data_ soc_op env penv t0 channel_id cfg true
  else acpm_ipc_send_data_ soc_op env penv t0 channel_id cfg false.


(** [acpm_ipc_send_data_sync]: in interrupt mode it waits for a completion,
    which [came] tells about. *)
Definition acpm_ipc_send_data_sync soc_op env penv t0 (came : bool) (channel_id : Z) (cfg : ipc_config) :
    M acpm (Z * option (list Z)) :=
  let! r := acpm_ipc_send_data soc_op env penv t0 channel_id (Some cfg) in
  if fst r =? 0 then
    on_channel channel_id (
      let! c := kget in
      if negb (ch_polling c) && cfg_response cfg then
        if came then do! kmod (fun c => c <| ch_wait := ch_wait c - 1 |>) in kret (0, snd r)
        else kret (- ETIMEDOUT, snd r)
      else kret (0, snd r))
  else kret r.

(** The first channel with the requested identifier. *)
Definition find_channel (a : acpm) (req_ch_id : Z) : option nat :=
  fst <$> list_find (fun c => ch_id c = req_ch_id) (a_channels a).

(** [np] is the client's node with the channel its property names. *)
Definition acpm_ipc_set_ch_mode (np : option (Z * option Z)) (polling : bool) : M acpm Z :=
  match np with
  | None => kret (- ENODEV)
  | Some (_, None) => kret (- ENOENT)
  | Some (_, Some req_ch_id) =>
      let! a := kget in
      match find_channel a req_ch_id with
      | None => kret (- ENODEV)
      | Some i =>
          do! kmod (fun a => a <| a_intmr :=
            Z.lor (Z.clearbit (a_intmr a) req_ch_id) (Z.shiftl (if polling then 1 else 0) req_ch_id) |>) in
          do! on_channel (Z.of_nat i) (kmod (fun c => c <| ch_polling := polling |>)) in
          kret 0
      end
  end.

Definition acpm_ipc_request_channel (np : option (Z * option Z)) (handler : option Z) (alloc_ok : bool) :
    M acpm (Z * option (Z * nat)) :=
  match np with
  | None => kret (- ENODEV, None)
  | Some (_, None) => kret (- ENOENT, None)
  | Some (client, Some req_ch_id) =>
      let! a := kget in
      match find_channel a req_ch_id with
      | None => kret (- ENODEV, None)
      | Some i =>
          on_channel (Z.of_nat i) (
            let! c := kget in
            match handler with
            | None => kret (0, Some (ch_id c, ch_words c))
            | Some h =>
                if alloc_ok then
                  do! kmod (fun c => c <| ch_callbacks := (client, h) :: ch_callbacks c |>) in
                  kret (0, Some (ch_id c, ch_words c))
                else kret (- ENOMEM, Some (ch_id c, ch_words c))
            end)
      end
  end.

(** The first callback of the client goes. *)
Fixpoint remove_callback (client : Z) (l : list (Z * Z)) : list (Z * Z) :=
  match l with
  | [] => []
  | cb :: l => if fst cb =? client then l else cb :: remove_callback client l
  end.
Definition acpm_ipc_release_channel (client channel_id : Z) : M acpm Z :=
  do! on_channel channel_id (kmod (fun c => c <| ch_callbacks := remove_callback client (ch_callbacks c) |>)) in
  kret 0.

(** The interrupt status register: a bit per channel identifier. *)
Definition AP_INTSR (a : acpm) : Z :=
  foldr (fun c status => if ch_irq c then Z.setbit status (ch_id c) else status) 0 (a_channels a).

(** The interrupt: the pending bits of the interrupt-driven channels are cleared
    and the status is saved for the thread, which serves the interrupt-driven
    channels whose bit is set. *)
Definition acpm_ipc_irq_handler : M acpm unit :=
  kmod (fun a =>
    let status := AP_INTSR a in
    a <| a_channels := (fun c => if negb (ch_polling c) && Z.testbit status (ch_id c)
                                 then c <| ch_irq := false |> else c) <$> a_channels a |>
      <| a_intr_status := status |>).

(** [env i] is what the firmware does while channel [i] is served. *)
Fixpoint irq_thread_loop (env : Z -> list (list fw_act)) (n : nat) (i : Z) : M acpm unit :=
  match n with
  | O => kret tt
  | S n =>
      let! a := kget in
      do! on_channel i (
        let! c := kget in
        if negb (ch_polling c) && Z.testbit (a_intr_status a) i then dequeue_policy (env i) else kret tt) in
      irq_thread_loop env n (i + 1)
  end.
Definition acpm_ipc_irq_handler_thread (env : Z -> list (list fw_act)) : M acpm unit :=
  let! a := kget in irq_thread_loop env (length (a_channels a)) 0.

(** [is_acpm_ipc_flushed]: [env] is the firmware between the readings. *)
Fixpoint flushed_loop (env : list (list fw_act)) (wait_cnt : Z) : M channel bool :=
  if wait_cnt <=? IPC_BUSY_CHK_CNT then
    match env with
    | [] => kblock
    | acts :: env =>
        do! fw_run acts in
        let! c := kget in
        if rg_front (ch_tx c) =? rg_front (ch_rx c) then kret true else flushed_loop env (wait_cnt + 1)
    end
  else kret false.
Definition is_acpm_ipc_flushed (env : list (list fw_act)) : M acpm bool := on_channel 0 (flushed_loop env 0).

(** ** Firmware logs *)

(** The log of one priority is a queue of four-word entries ([rg_rear] is the
    driver's [rear_index]); what the driver prints of an entry. *)
Inductive log_line :=
| LogRaw (id arg0 arg1 arg2 : Z)
| LogText (time_ns id str arg2 : Z).

Definition APM_SYSTICK_PERIOD_US : Z := 20345.

Definition acpm_log_print_helper (debug_log_level head arg0 arg1 arg2 : Z) : list log_line :=
  let is_err := Z.land (Z.shiftr head 26) 1 in
  if (debug_log_level >=? 1) || (is_err =? 0) then
    let id := Z.land (Z.shiftr head 28) 15 in
    if Z.land (Z.shiftr head 27) 1 =? 1 then [LogRaw id arg0 arg1 arg2]
    else
      let time := Z.lor (Z.shiftl arg0 24) (Z.land head 0xffffff) in
      [LogText (u64 (time * APM_SYSTICK_PERIOD_US) / 1000) id (Z.land arg1 0xffffff) arg2]
  else [].

(** [env] is what the firmware logs before each new reading of the front. *)
Fixpoint log_print_loop (n : nat) (env : list (list (list Z))) (level : Z) (b : ring) (out : list log_line) :
    outcome ring (list log_line) :=
  if rg_rear b =? rg_front b then Done out b
  else
    match n with
    | O => Blocked
    | S n =>
        match (if rg_rear b <? 0 then None else rg_slots b !! Z.to_nat (rg_rear b)) with
        | Some (head :: arg0 :: arg1 :: arg2 :: _) =>
            let rear := if rg_len b =? rg_rear b + 1 then 0 else rg_rear b + 1 in
            log_print_loop n (tail env) level
              (foldl ring_push (b <| rg_rear := rear |>) (default [] (hd_error env)))
              (out ++ acpm_log_print_helper level head arg0 arg1 arg2)
        | _ => Fault
        end
    end.

(** [stop] is [is_acpm_stop_log]. *)
Definition acpm_log_print_buff (env : list (list (list Z))) (stop : bool) (level : Z) : M ring (list log_line) :=
  fun b => if stop then Done [] b
           else log_print_loop (length (rg_slots b) + length (concat env)) env level b [].
