(* ===== verification/AcpmFacts.v ===== *)
(** * Correctness of the ACPM mailbox

    Queues as lists of pending commands; sequence numbers identify at most one
    outstanding request; a response reaches the request it answers. *)

From S2P Require Import Prelude Acpm.

(** ** Queues *)

(** The [d] commands from slot [i] on. *)
Fixpoint pend {A} `{Inhabited A} (slots : list A) (i : Z) (d : nat) : list A :=
  match d with
  | O => []
  | S d => slots !!! Z.to_nat i :: pend slots ((i + 1) mod Z.of_nat (length slots)) d
  end.

Lemma pend_length {A} `{Inhabited A} (slots : list A) i d : length (pend slots i d) = d.
Proof. revert i; induction d as [|d IH]; intros i; simpl; [done|]. by rewrite IH. Qed.

(** The number of commands between the indices of a queue of length [len]. *)
Definition count (rear front len : Z) : nat := Z.to_nat ((front - rear) mod len).

Definition pending (r : ring) : list (list Z) := pend (rg_slots r) (rg_rear r) (count (rg_rear r) (rg_front r) (rg_len r)).

Record ring_ok (r : ring) : Prop := {
  rk_front : 0 <= rg_front r < rg_len r;
  rk_rear : 0 <= rg_rear r < rg_len r
}.

Lemma count_eq rear front len :
  0 <= rear < len -> 0 <= front < len ->
  count rear front len = Z.to_nat (if rear <=? front then front - rear else front - rear + len).
Proof.
  intros Hr Hf. unfold count. f_equal. destruct (Z.leb_spec rear front); [apply Z.mod_small; lia|].
  rewrite <- (Z.mod_add _ 1), Z.mul_1_l by lia. apply Z.mod_small. lia.
Qed.

Lemma count_zero rear front len : 0 <= rear < len -> 0 <= front < len -> count rear front len = 0%nat -> rear = front.
Proof. intros Hr Hf. rewrite count_eq by done. destruct (Z.leb_spec rear front); lia. Qed.

Lemma count_succ rear front len d :
  0 <= rear < len -> 0 <= front < len -> count rear front len = S d ->
  rear <> front /\ count ((rear + 1) mod len) front len = d.
Proof.
  unfold count. intros Hr Hf H. split.
  - intros ->. rewrite Z.sub_diag, Z.mod_0_l in H by lia. done.
  - assert ((front - (rear + 1) mod len) mod len = ((front - rear) mod len - 1) mod len) as ->.
    { rewrite Zminus_mod_idemp_r, Zminus_mod_idemp_l. f_equal. lia. }
    rewrite Z.mod_small; pose proof (Z.mod_pos_bound (front - rear) len); lia.
Qed.

Lemma count_le rear front len : 0 < len -> (count rear front len < Z.to_nat len)%nat.
Proof. intros. unfold count. pose proof (Z.mod_pos_bound (front - rear) len). lia. Qed.

Lemma mod_range i len : 0 < len -> 0 <= i mod len < len.
Proof. intros. by apply Z.mod_pos_bound. Qed.

(** ** Absorbing responses *)

(** A response with a sequence number the driver accepts. *)
Definition msg_seq (m : list Z) : Z := from_option seq_of 0 (m !! 0%nat).
Definition msg_ok (m : list Z) : Prop := m <> [] /\ 0 < msg_seq m < SEQ_NUM_MAX.

(** The reference: what one response does to the channel. *)
Definition absorb (c : channel) (m : list Z) : channel :=
  match ch_cfg c !! Z.to_nat (msg_seq m - 1) with
  | Some (buf, true) => c <| ch_cfg := <[Z.to_nat (msg_seq m - 1) := (copy_words buf m, true)]> (ch_cfg c) |>
  | _ => c <| ch_bitmap := Z.clearbit (ch_bitmap c) (msg_seq m - 1) |>
  end.

Lemma absorb_rx c m : ch_rx (absorb c m) = ch_rx c.
Proof. unfold absorb. by destruct (ch_cfg c !! _) as [[? []]|]. Qed.
Lemma absorb_cfg_len c m : length (ch_cfg (absorb c m)) = length (ch_cfg c).
Proof. unfold absorb. destruct (ch_cfg c !! _) as [[? []]|]; simpl; by rewrite ?length_insert. Qed.

Lemma absorb_all_rx c l : ch_rx (foldl absorb c l) = ch_rx c.
Proof. revert c; induction l as [|m l IH]; intros c; simpl; [done|]. by rewrite IH, absorb_rx. Qed.

Lemma rx_slot_run c i :
  0 <= i < rg_len (ch_rx c) -> rx_slot i c = Done (rg_slots (ch_rx c) !!! Z.to_nat i) c.
Proof.
  intros Hi. unfold rx_slot, rg_len in *. rewrite (proj2 (Z.ltb_ge _ _)) by lia.
  destruct (lookup_lt_is_Some_2 (rg_slots (ch_rx c)) (Z.to_nat i)) as [m Hm]; [lia|].
  by rewrite Hm, (list_lookup_total_correct _ _ _ Hm).
Qed.

Lemma get_cfg_run c i x : 0 <= i -> ch_cfg c !! Z.to_nat i = Some x -> get_cfg i c = Done x c.
Proof. intros Hi Hx. unfold get_cfg. by rewrite (proj2 (Z.ltb_ge _ _)), Hx by lia. Qed.

(** The loop of [check_response] is the reference on the pending responses. *)
Lemma check_loop_run d n c i front :
  length (ch_cfg c) = 64%nat -> 0 <= i < rg_len (ch_rx c) -> 0 <= front < rg_len (ch_rx c) ->
  count i front (rg_len (ch_rx c)) = d -> (d <= n)%nat ->
  Forall msg_ok (pend (rg_slots (ch_rx c)) i d) ->
  check_loop n i front c = Done tt (foldl absorb c (pend (rg_slots (ch_rx c)) i d)).
Proof.
  revert n c i; induction d as [|d IH]; intros n c i Hl Hi Hf Hc Hn Hok.
  - apply count_zero in Hc as ->; [|done..]. destruct n; simpl; by rewrite Z.eqb_refl.
  - destruct (count_succ _ _ _ _ Hi Hf Hc) as [Hne Hc']. destruct n as [|n]; [lia|]. simpl.
    rewrite (proj2 (Z.eqb_neq _ _)) by done. inversion_clear Hok as [|? ? [Hnil Hseq] Hok'].
    unfold kbind at 1. rewrite rx_slot_run by done. set (m := rg_slots (ch_rx c) !!! Z.to_nat i) in *.
    destruct m as [|w m'] eqn:Em; [done|]. unfold msg_seq in Hseq. simpl in Hseq.
    unfold kbind at 1. change (word (w :: m') 0 c) with (@Done channel Z w c). cbv iota beta. unfold SEQ_NUM_MAX in *.
    assert ((seq_of w =? 0) || (seq_of w >=? 64) = false) as -> by lia.
    destruct (lookup_lt_is_Some_2 (ch_cfg c) (Z.to_nat (seq_of w - 1))) as [[buf b] Hb]; [lia|].
    unfold kbind at 1. rewrite (get_cfg_run c (seq_of w - 1) (buf, b)) by (done || lia). cbn [fst snd].
    assert ((if b then set_cfg (seq_of w - 1) (copy_words buf (w :: m'), b) else clear_bit (seq_of w - 1)) c
      = Done tt (absorb c (w :: m'))) as E1.
    { unfold absorb, msg_seq. simpl. rewrite Hb. by destruct b. }
    unfold kbind at 1. rewrite E1. unfold kbind, kget.
    rewrite (IH n); rewrite ?absorb_rx, ?absorb_cfg_len; try done; [|lia].
    apply mod_range. unfold rg_len in *. lia.
Qed.

Record channel_ok (c : channel) : Prop := {
  co_rx : ring_ok (ch_rx c);
  co_tx : ring_ok (ch_tx c);
  co_cfg : length (ch_cfg c) = 64%nat;
  co_pending : Forall msg_ok (pending (ch_rx c));
  co_seq : 0 <= ch_seq_num c < SEQ_NUM_MAX
}.

(** All responses read: the reference outcome of [check_response]. *)
Definition drain (c : channel) : channel :=
  (foldl absorb c (pending (ch_rx c))) <| ch_rx := (ch_rx c) <| rg_rear := rg_front (ch_rx c) |> |>
    <| ch_irq := false |>.

Lemma check_response_none c : channel_ok c -> check_response None c = Done None (drain c).
Proof.
  intros [[Hf Hr] _ Hl Hp _]. unfold check_response, kbind at 1, kget. unfold kbind at 1.
  rewrite (check_loop_run (count (rg_rear (ch_rx c)) (rg_front (ch_rx c)) (rg_len (ch_rx c)))); try done.
  - unfold kbind, kmod, drain, pending. by rewrite absorb_all_rx.
  - pose proof (count_le (rg_rear (ch_rx c)) (rg_front (ch_rx c)) (rg_len (ch_rx c))). unfold rg_len in *. lia.
Qed.

(** What absorbing leaves alone. *)
Lemma absorb_frame c m : exists cf bm, absorb c m = c <| ch_cfg := cf |> <| ch_bitmap := bm |> /\
  length cf = length (ch_cfg c) /\ (forall k, Z.testbit bm k = true -> Z.testbit (ch_bitmap c) k = true).
Proof.
  assert (forall i k, Z.testbit (Z.clearbit (ch_bitmap c) i) k = true -> Z.testbit (ch_bitmap c) k = true) as Hclr.
  { intros i k. rewrite Z.clearbit_eqb. by intros [? _]%andb_prop. }
  unfold absorb. destruct (ch_cfg c !! _) as [[buf []]|].
  - eexists (<[_ := _]> (ch_cfg c)), (ch_bitmap c). split; [by destruct c|]. by rewrite length_insert.
  - exists (ch_cfg c), (Z.clearbit (ch_bitmap c) (msg_seq m - 1)). split; [by destruct c|]. eauto.
  - exists (ch_cfg c), (Z.clearbit (ch_bitmap c) (msg_seq m - 1)). split; [by destruct c|]. eauto.
Qed.

Lemma absorb_all_frame c l : exists cf bm, foldl absorb c l = c <| ch_cfg := cf |> <| ch_bitmap := bm |> /\
  length cf = length (ch_cfg c) /\ (forall k, Z.testbit bm k = true -> Z.testbit (ch_bitmap c) k = true).
Proof.
  revert c; induction l as [|m l IH]; intros c; simpl.
  - exists (ch_cfg c), (ch_bitmap c). by destruct c.
  - destruct (absorb_frame c m) as (cf & bm & E & Hl & Hb). rewrite E.
    destruct (IH (c <| ch_cfg := cf |> <| ch_bitmap := bm |>)) as (cf' & bm' & E' & Hl' & Hb').
    exists cf', bm'. split; [rewrite E'; by destruct c|]. simpl in *. split; [congruence|]. auto.
Qed.

Lemma drain_frame c : exists cf bm, drain c = c <| ch_cfg := cf |> <| ch_bitmap := bm |>
    <| ch_rx := (ch_rx c) <| rg_rear := rg_front (ch_rx c) |> |> <| ch_irq := false |> /\
  length cf = length (ch_cfg c) /\ (forall k, Z.testbit bm k = true -> Z.testbit (ch_bitmap c) k = true).
Proof.
  destruct (absorb_all_frame c (pending (ch_rx c))) as (cf & bm & E & Hl & Hb).
  exists cf, bm. unfold drain. by rewrite E.
Qed.

Lemma pending_empty r : 0 < rg_len r -> rg_rear r = rg_front r -> pending r = [].
Proof. intros Hl E. unfold pending, count. by rewrite E, Z.sub_diag, Z.mod_0_l by lia. Qed.

Lemma drain_ok c : channel_ok c -> channel_ok (drain c) /\ pending (ch_rx (drain c)) = [].
Proof.
  intros [[Hf Hr] Ht Hl Hp Hs]. destruct (drain_frame c) as (cf & bm & E & Hlc & _). rewrite E.
  assert (pending ((ch_rx c) <| rg_rear := rg_front (ch_rx c) |>) = []) as Hpe
    by (apply pending_empty; [unfold rg_len in *; simpl; lia|done]).
  simpl in Hpe. split; [|exact Hpe]. split; simpl; [by split|done|congruence|by rewrite Hpe|done].
Qed.

(** ** Sequence numbers *)

Definition next_num (s : Z) : Z := if s + 1 =? SEQ_NUM_MAX then 1 else s + 1.
(** How far the search from [s] is from the number [k]. *)
Definition dist (s k : Z) : Z := if s <? k then k - s else k - s + 63.
Definition unused (c : channel) (k : Z) : Prop := 0 < k < SEQ_NUM_MAX /\ Z.testbit (ch_bitmap c) (k - 1) = false.

Lemma next_seq_finds n c k :
  0 <= ch_seq_num c < SEQ_NUM_MAX -> unused c k -> dist (ch_seq_num c) k <= Z.of_nat n ->
  exists s, next_seq n c = Done tt (c <| ch_seq_num := s |>) /\ unused c s.
Proof.
  revert c; induction n as [|n IH]; intros c Hs [Hk Hb] Hd; unfold SEQ_NUM_MAX in *.
  - unfold dist in Hd. destruct (Z.ltb_spec (ch_seq_num c) k); lia.
  - simpl. unfold kbind, kmod, kget, test_bit. simpl. fold (next_num (ch_seq_num c)).
    destruct (Z.testbit (ch_bitmap c) (next_num (ch_seq_num c) - 1)) eqn:Et.
    + assert (next_num (ch_seq_num c) <> k) as Hne by congruence.
      destruct (IH (c <| ch_seq_num := next_num (ch_seq_num c) |>)) as (s & E & Hu).
      * simpl. unfold next_num, SEQ_NUM_MAX. destruct (Z.eqb_spec (ch_seq_num c + 1) 64); lia.
      * by split.
      * simpl. unfold dist, next_num, SEQ_NUM_MAX in *.
        destruct (Z.eqb_spec (ch_seq_num c + 1) 64), (Z.ltb_spec (ch_seq_num c) k);
          destruct (Z.ltb_spec (if ch_seq_num c + 1 =? 64 then 1 else ch_seq_num c + 1) k);
          repeat case_match; lia.
      * exists s. split; [exact E|exact Hu].
    + exists (next_num (ch_seq_num c)). split; [done|]. split; [|done].
      unfold next_num, SEQ_NUM_MAX. destruct (Z.eqb_spec (ch_seq_num c + 1) 64); lia.
Qed.

Lemma seq_or w s : 0 <= s < 64 -> seq_of w = 0 -> seq_of (Z.lor w (Z.shiftl (Z.land s 0x3f) ACPM_IPC_PROTOCOL_SEQ_NUM)) = s.
Proof.
  intros Hs Hw. unfold seq_of, ACPM_IPC_PROTOCOL_SEQ_NUM in *.
  rewrite Z.shiftr_lor, Z.shiftr_shiftl_l, Z.sub_diag, Z.shiftl_0_r, Z.land_lor_distr_l, Hw, Z.lor_0_l by lia.
  change 0x3f with (Z.ones 6). rewrite !Z.land_ones by lia. rewrite Z.mod_mod by lia. apply Z.mod_small. lia.
Qed.

(** ** Pushing onto a queue *)

Section Push.
Context {A : Type} `{Inhabited A} (slots : list A).


Lemma pend_snoc i d : 0 <= i < Z.of_nat (length slots) ->
  pend slots i (S d) = pend slots i d ++ [slots !!! Z.to_nat ((i + Z.of_nat d) mod Z.of_nat (length slots))].
Proof.
  revert i; induction d as [|d IH]; intros i Hi.
  - simpl. by rewrite Z.add_0_r, Z.mod_small.
  - change (pend slots i (S (S d))) with (slots !!! Z.to_nat i :: pend slots ((i + 1) mod Z.of_nat (length slots)) (S d)).
    rewrite IH by (apply mod_range; lia). rewrite Z.add_mod_idemp_l by lia.
    by replace (i + 1 + Z.of_nat d) with (i + Z.of_nat (S d)) by lia.
Qed.

Lemma pend_insert k m i d : 0 <= i < Z.of_nat (length slots) -> 0 <= k ->
  (forall j, 0 <= j < Z.of_nat d -> (i + j) mod Z.of_nat (length slots) <> k) ->
  pend (<[Z.to_nat k := m]> slots) i d = pend slots i d.
Proof.
  intros Hi Hk. revert i Hi; induction d as [|d IH]; intros i Hi Hj; simpl; [done|].
  rewrite length_insert. f_equal.
  - rewrite list_lookup_total_insert_ne; [done|]. specialize (Hj 0). rewrite Z.add_0_r, Z.mod_small in Hj by lia. lia.
  - apply IH; [apply mod_range; lia|]. intros j Hj' E. apply (Hj (j + 1)); [lia|]. rewrite <- E.
    rewrite Z.add_mod_idemp_l by lia. by replace (i + 1 + j) with (i + (j + 1)) by lia.
Qed.
End Push.

Lemma mod_wrap i len : 0 <= i < len -> (i + 1) mod len = if i + 1 =? len then 0 else i + 1.
Proof.
  intros Hi. destruct (Z.eqb_spec (i + 1) len) as [->|]; [apply Z.mod_same; lia|apply Z.mod_small; lia].
Qed.

Lemma mod_wrap2 i len : 0 <= i < 2 * len -> i mod len = if i <? len then i else i - len.
Proof.
  intros Hi. destruct (Z.ltb_spec i len); [apply Z.mod_small; lia|].
  replace i with (i - len + 1 * len) at 1 by lia. rewrite Z.mod_add by lia. apply Z.mod_small. lia.
Qed.

(** A producer that leaves a slot free appends to the pending commands. *)
Lemma pending_push r m :
  ring_ok r -> (rg_front r + 1) mod rg_len r <> rg_rear r ->
  ring_ok (ring_push r m) /\ pending (ring_push r m) = pending r ++ [m].
Proof.
  intros [Hf Hr] Hne. set (r' := ring_push r m). assert (rg_len r' = rg_len r) as Hlen by (unfold rg_len; simpl; by rewrite length_insert).
  split; [split; rewrite Hlen; [apply mod_range; lia|done]|].
  unfold pending. rewrite Hlen. simpl.
  assert (count (rg_rear r) ((rg_front r + 1) mod rg_len r) (rg_len r)
    = S (count (rg_rear r) (rg_front r) (rg_len r))) as ->.
  { rewrite mod_wrap in * by done.
    rewrite !count_eq by (try done; destruct (Z.eqb_spec (rg_front r + 1) (rg_len r)); lia).
    destruct (Z.eqb_spec (rg_front r + 1) (rg_len r)), (Z.leb_spec (rg_rear r) (rg_front r));
      destruct (Z.leb_spec (rg_rear r) (if rg_front r + 1 =? rg_len r then 0 else rg_front r + 1));
      repeat case_match; lia. }
  set (d := count (rg_rear r) (rg_front r) (rg_len r)).
  assert (Z.of_nat d = if rg_rear r <=? rg_front r then rg_front r - rg_rear r else rg_front r - rg_rear r + rg_len r)
    as Hd by (unfold d; rewrite count_eq by done; destruct (Z.leb_spec (rg_rear r) (rg_front r)); lia).
  unfold rg_len in *. rewrite pend_snoc by (by rewrite length_insert). rewrite length_insert. f_equal.
  - apply pend_insert; [done|lia|]. intros j Hj. rewrite mod_wrap2 by (destruct (Z.leb_spec (rg_rear r) (rg_front r)); lia).
    destruct (Z.leb_spec (rg_rear r) (rg_front r)), (Z.ltb_spec (rg_rear r + j) (Z.of_nat (length (rg_slots r)))); lia.
  - assert ((rg_rear r + Z.of_nat d) mod Z.of_nat (length (rg_slots r)) = rg_front r) as ->.
    { rewrite mod_wrap2 by (destruct (Z.leb_spec (rg_rear r) (rg_front r)); lia).
      destruct (Z.leb_spec (rg_rear r) (rg_front r)), (Z.ltb_spec (rg_rear r + Z.of_nat d) (Z.of_nat (length (rg_slots r)))); lia. }
    by rewrite list_lookup_total_insert_eq by lia.
Qed.

Lemma push_len r m : length (rg_slots (ring_push r m)) = length (rg_slots r).
Proof. simpl. by rewrite length_insert. Qed.

Lemma pending_length r : length (pending r) = count (rg_rear r) (rg_front r) (rg_len r).
Proof. apply pend_length. Qed.

(** A producer that never overruns the queue appends all it produces. *)
Lemma pending_pushes msgs r :
  ring_ok r -> (length (pending r) + length msgs < length (rg_slots r))%nat ->
  let r' := foldl ring_push r msgs in
  ring_ok r' /\ length (rg_slots r') = length (rg_slots r) /\ rg_rear r' = rg_rear r /\
  pending r' = pending r ++ msgs.
Proof.
  revert r; induction msgs as [|m msgs IH]; intros r Hok Hn; simpl in *; [by rewrite app_nil_r|].
  assert ((rg_front r + 1) mod rg_len r <> rg_rear r) as Hne.
  { destruct Hok as [Hf Hr]. rewrite mod_wrap by done. intros E.
    rewrite pending_length, count_eq in Hn by done. unfold rg_len in *.
    destruct (Z.eqb_spec (rg_front r + 1) (Z.of_nat (length (rg_slots r)))),
      (Z.leb_spec (rg_rear r) (rg_front r)); lia. }
  destruct (pending_push r m Hok Hne) as [Hok1 Hp1].
  destruct (IH (ring_push r m)) as (A & B & C & D); [done| |].
  { rewrite Hp1, push_len, length_app. simpl. lia. }
  split_and!; [done|by rewrite B, push_len|done|]. by rewrite D, Hp1, <- app_assoc.
Qed.

(** The consumer's next index. *)
Definition next_rear (r : ring) : Z := if rg_len r =? rg_rear r + 1 then 0 else rg_rear r + 1.

Lemma pending_nil r : ring_ok r -> rg_rear r = rg_front r <-> pending r = [].
Proof.
  intros [Hf Hr]. split; intros H.
  - apply pending_empty; [lia|done].
  - eapply count_zero; [done..|]. by rewrite <- pending_length, H.
Qed.

(** Consuming one command. *)
Lemma pending_pop r :
  ring_ok r -> rg_rear r <> rg_front r ->
  ring_ok (r <| rg_rear := next_rear r |>) /\
  pending r = rg_slots r !!! Z.to_nat (rg_rear r) :: pending (r <| rg_rear := next_rear r |>).
Proof.
  intros [Hf Hr] Hne.
  assert (next_rear r = (rg_rear r + 1) mod rg_len r) as -> by (unfold next_rear; by rewrite mod_wrap, Z.eqb_sym).
  split; [split; [done|simpl; apply mod_range; unfold rg_len in *; simpl; lia]|].
  destruct (count (rg_rear r) (rg_front r) (rg_len r)) as [|d] eqn:Ec; [by apply count_zero in Ec|].
  unfold pending. rewrite Ec. simpl. f_equal. change (rg_len _) with (rg_len r).
  by destruct (count_succ _ _ _ _ Hr Hf Ec) as [_ ->].
Qed.
