(* ===== verification/AcpmIpc.v ===== *)
(** * Sending commands and receiving responses *)

From S2P Require Import Prelude Acpm AcpmFacts.

Arguments drain : simpl never.
Arguments absorb : simpl never.

(** ** Sending *)

(** A request the caller may send: room for a command and the four words the
    driver writes, and no sequence number in it yet. *)
Record sendable (c : channel) (cmd : list Z) (w : Z) : Prop := {
  sd_len : (ch_words c <= length cmd /\ 4 <= length cmd)%nat;
  sd_words : (0 < ch_words c)%nat;
  sd_first : cmd !! 0%nat = Some w;
  sd_seq : seq_of w = 0
}.

(** The queues have room for one more. *)
Definition has_space (c : channel) : Prop :=
  (rg_front (ch_tx c) + 2) mod rg_len (ch_tx c) <> rg_front (ch_rx c) /\
  (rg_front (ch_tx c) + 1) mod rg_len (ch_tx c) <> rg_rear (ch_tx c).

(** What a successful send does to [c], whose responses read leave [d]: [s] is
    the number it chose, [msg] the command it queued. *)
Record sent_from (d c : channel) (cmd : list Z) (response : bool) (s : Z) (msg cmd' : list Z) (c' : channel) :
    Prop := {
  st_fresh : unused d s;
  st_bits : forall k, 0 <= k -> Z.testbit (ch_bitmap c') k = (k =? s - 1) || Z.testbit (ch_bitmap d) k;
  st_queue : pending (ch_tx c') = pending (ch_tx c) ++ [msg];
  st_msg : msg_seq msg = s /\ drop 1 msg = drop 1 (take (ch_words c) cmd);
  st_cfg : exists x, ch_cfg d !! Z.to_nat (s - 1) = Some x /\
    ch_cfg c' !! Z.to_nat (s - 1) = Some (replicate (length (fst x)) 0, response);
  st_cmd : exists w, cmd' = w :: 0 :: 0 :: 0 :: drop 4 cmd /\ seq_of w = s;
  st_ok : channel_ok c' /\ pending (ch_rx c') = [] /\ ch_words c' = ch_words c /\ ch_polling c' = ch_polling c /\
    ch_irq c' = false
}.

Definition sent (c : channel) := sent_from (drain c) c.

Lemma send_locked_sent c env cmd w response k :
  channel_ok c -> has_space c -> sendable c cmd w -> unused (drain c) k ->
  wp (send_locked ([] :: env) (MkCfg (Some cmd) response))
    (fun r c' => exists s msg cmd', r = inr cmd' /\ sent c cmd response s msg cmd' c') c.
Proof.
  intros Hok [Hsp1 Hsp2] [[Hl1 Hl2] Hw0 Hw Hseq] Hk.
  destruct (drain_ok c Hok) as [Hdok Hdp]. destruct (drain_frame c) as (cf & bm & Ed & Hcf & Hbm).
  destruct (next_seq_finds 64 (drain c) k) as (s & En & Hus); [apply Hdok|done| |].
  { unfold dist. pose proof (co_seq _ Hdok). destruct Hk as [Hk _]. unfold SEQ_NUM_MAX in *.
    destruct (Z.ltb_spec (ch_seq_num (drain c)) k); lia. }
  pose proof Hus as [Hs Hsb]. unfold SEQ_NUM_MAX in Hs.
  destruct (lookup_lt_is_Some_2 (ch_cfg (drain c)) (Z.to_nat (s - 1))) as [[buf b] Hb];
    [rewrite (co_cfg _ Hdok); lia|].
  assert (ch_words (drain c) = ch_words c /\ ch_tx (drain c) = ch_tx c /\ ch_polling (drain c) = ch_polling c /\
    ch_irq (drain c) = false) as (Edw & Edt & Edp & Edi) by (by rewrite Ed).
  pose proof (check_response_none c Hok) as Echk. clear Ed Hbm.
  assert (forall s msg cmd' c', sent_from (drain c) c cmd response s msg cmd' c' -> sent c cmd response s msg cmd' c')
    as Hfold by done.
  revert Hdok Hdp En Hus Hsb Hb Edw Edt Edp Edi Echk Hfold. generalize (drain c). intros d ** .
  unfold send_locked. apply wp_bind. simpl wait_space. apply wp_bind, wp_mod, wp_bind, wp_get. simpl foldl.
  rewrite (proj2 (Z.eqb_neq _ _)) by done. apply wp_ret, wp_bind, wp_get.
  rewrite (proj2 (Z.eqb_neq _ _)) by done. simpl cfg_cmd.
  apply wp_bind. eapply wp_eq; [exact Echk|].
  apply wp_bind. eapply wp_eq; [exact En|]. apply wp_bind, wp_get.
  apply wp_bind. eapply wp_eq; [apply (get_cfg_run _ _ (buf, b)); [simpl; lia|done]|].
  apply wp_bind, wp_mod, wp_bind, wp_mod, wp_bind.
  eapply wp_eq; [unfold word; rewrite Hw; reflexivity|].
  destruct cmd as [|w0 [|a1 [|a2 [|a3 rest]]]]; simpl in Hl2; try lia. simpl in Hw. simplify_eq.
  match goal with |- wp (if ?x then _ else _) _ _ => assert (x = false) as -> end.
  { simpl. simpl in Hl1. rewrite Edw. apply orb_false_iff. split; apply Nat.ltb_ge; simpl; lia. }
  apply wp_bind, wp_mod, wp_ret. simpl. rewrite Edt, Edw.
  set (w' := Z.lor w _). assert (seq_of w' = s) as Hw' by (apply seq_or; [lia|done]).
  set (msg := take (ch_words c) (w' :: a1 :: a2 :: a3 :: rest)).
  assert (msg !! 0%nat = Some w') as Hm0 by (unfold msg; by rewrite lookup_take_lt by lia).
  destruct (pending_push (ch_tx c) msg (co_tx _ Hok) Hsp2) as [Hpok Hpush].
  eexists s, msg, _. split; [done|]. apply Hfold. split; simpl.
  - done.
  - intros j Hj. rewrite Z.setbit_eqb by lia. f_equal. lia.
  - exact Hpush.
  - split; [unfold msg_seq; by rewrite Hm0|]. unfold msg. by destruct (ch_words c).
  - exists (buf, b). split; [done|]. rewrite list_lookup_insert_eq; [done|]. rewrite (co_cfg _ Hdok). lia.
  - by exists w'.
  - split_and!; [|by rewrite Hdp|done|done|done]. destruct Hdok as [A B C D E].
    split; simpl; [done|exact Hpok|by rewrite length_insert|done|unfold SEQ_NUM_MAX; lia].
Qed.

(** A send appends exactly one command to the firmware's queue, under a
    sequence number no outstanding request uses, marks that number and no other
    as in use, and prepares an empty buffer for the response. *)
Theorem send_enqueues c env cmd w response k :
  channel_ok c -> has_space c -> sendable c cmd w -> unused (drain c) k ->
  wp (send_locked ([] :: env) (MkCfg (Some cmd) response))
    (fun r c' => exists s msg cmd', r = inr cmd' /\ sent c cmd response s msg cmd' c') c.
Proof. apply send_locked_sent. Qed.

(** ** Polling for the response *)

(** The firmware answers. *)
Lemma fw_push_rx msgs c : foldl fw_step c (FwPush <$> msgs) = c <| ch_rx := foldl ring_push (ch_rx c) msgs |>.
Proof. revert c; induction msgs as [|m msgs IH]; intros c; csimpl; [by destruct c|]. rewrite IH. by destruct c. Qed.

(** Responses to other requests do not touch request [s]. *)
Lemma absorb_other c m s :
  0 < s -> 0 < msg_seq m -> msg_seq m <> s ->
  ch_cfg (absorb c m) !! Z.to_nat (s - 1) = ch_cfg c !! Z.to_nat (s - 1) /\
  Z.testbit (ch_bitmap (absorb c m)) (s - 1) = Z.testbit (ch_bitmap c) (s - 1).
Proof.
  intros Hs Hm Hne. unfold absorb. destruct (ch_cfg c !! Z.to_nat (msg_seq m - 1)) as [[buf []]|]; simpl;
    rewrite ?list_lookup_insert_ne by lia; (split; [done|]); try done;
    rewrite Z.clearbit_eqb, (proj2 (Z.eqb_neq _ _)) by lia; by rewrite andb_true_r.
Qed.

Lemma absorb_others c l s :
  0 < s -> Forall msg_ok l -> (forall m, m ∈ l -> msg_seq m <> s) ->
  ch_cfg (foldl absorb c l) !! Z.to_nat (s - 1) = ch_cfg c !! Z.to_nat (s - 1) /\
  Z.testbit (ch_bitmap (foldl absorb c l)) (s - 1) = Z.testbit (ch_bitmap c) (s - 1).
Proof.
  intros Hs Hok. revert c; induction Hok as [|m l [_ Hm] Hok IH]; intros c Hne; simpl; [done|].
  destruct (absorb_other c m s Hs ltac:(lia) ltac:(apply Hne; left)) as [E1 E2].
  rewrite <- E1, <- E2. apply IH. intros x Hx. apply Hne. by right.
Qed.

(** The one response to request [s] among [l] is stored with it. *)
Lemma absorb_answer c l1 m l2 buf :
  Forall msg_ok (l1 ++ m :: l2) -> length (ch_cfg c) = 64%nat ->
  (forall x, x ∈ l1 ++ l2 -> msg_seq x <> msg_seq m) ->
  ch_cfg c !! Z.to_nat (msg_seq m - 1) = Some (buf, true) ->
  ch_cfg (foldl absorb c (l1 ++ m :: l2)) !! Z.to_nat (msg_seq m - 1) = Some (copy_words buf m, true).
Proof.
  intros Hok Hl Hne Hb. rewrite foldl_app. simpl. apply Forall_app in Hok as [H1 H2].
  inversion_clear H2 as [|? ? [_ Hm] H3].
  destruct (absorb_others c l1 (msg_seq m)) as [E1 _]; [lia|done|intros; apply Hne; set_solver|].
  set (c1 := foldl absorb c l1) in *. rewrite <- E1 in Hb.
  destruct (absorb_others (absorb c1 m) l2 (msg_seq m)) as [E2 _]; [lia|done|intros; apply Hne; set_solver|].
  rewrite E2. unfold absorb. rewrite Hb. simpl. apply list_lookup_insert_eq.
  assert (length (ch_cfg c1) = 64%nat) as -> by (unfold c1; destruct (absorb_all_frame c l1) as (? & ? & -> & ? & _); simpl; congruence).
  unfold SEQ_NUM_MAX in Hm. lia.
Qed.

Lemma Done_inj {S A} (a a' : A) (s s' : S) : Done a s = Done a' s' -> s = s'.
Proof. congruence. Qed.

Lemma check_response_some c cmd w s buf fl wb :
  channel_ok c -> cmd !! 0%nat = Some w -> seq_of w = s -> 0 < s < SEQ_NUM_MAX ->
  ch_cfg (drain c) !! Z.to_nat (s - 1) = Some (buf, fl) -> buf !! 0%nat = Some wb ->
  check_response (Some cmd) c =
    if seq_of wb =? s
    then Done (Some (copy_words cmd (take (ch_words c) buf)))
           ((drain c) <| ch_bitmap := Z.clearbit (ch_bitmap (drain c)) (s - 1) |>)
    else Done (Some cmd) (drain c).
Proof.
  intros Hok Hw Hws Hs Hb Hwb. pose proof (check_response_none c Hok) as E.
  unfold check_response in *. unfold kbind at 1, kget in E. unfold kbind at 1, kget.
  set (loop := check_loop _ _ _) in *. unfold kbind in E |- *.
  destruct (loop c) as [[] c1| |]; [|done..]. unfold kmod, kret in E |- *. apply Done_inj in E. rewrite E. unfold word. rewrite Hw, Hws.
  rewrite (get_cfg_run _ _ (buf, fl)) by (done || lia). simpl. rewrite Hwb.
  destruct (Z.eqb_spec (seq_of wb) s) as [<-|]; [|done].
  destruct (drain_frame c) as (cf & bm & Ed & _). unfold clear_bit, kmod, kret.
  replace (take (ch_words c) buf) with (take (ch_words (drain c)) buf) by (by rewrite Ed). reflexivity.
Qed.

(** ** Every response *)

(** The pending responses to a number, whether its request waits for one, and what
    is in its buffer once they are read. *)
Definition responses (c : channel) (n : Z) : list (list Z) := filter (fun m => msg_seq m = n) (pending (ch_rx c)).
Definition waits (c : channel) (n : Z) : bool := match ch_cfg c !! Z.to_nat (n - 1) with Some (_, fl) => fl | None => false end.
Definition buffer_after (c : channel) (n : Z) : list Z :=
  match ch_cfg c !! Z.to_nat (n - 1) with
  | Some (buf, fl) => if fl : bool then foldl copy_words buf (responses c n) else buf
  | None => []
  end.

Lemma absorb_all_slot c (l : list (list Z)) n (buf : list Z) (fl : bool) :
  Forall msg_ok l -> length (ch_cfg c) = 64%nat -> 0 < n < SEQ_NUM_MAX -> ch_cfg c !! Z.to_nat (n - 1) = Some (buf, fl) ->
  ch_cfg (foldl absorb c l) !! Z.to_nat (n - 1) = Some (if fl : bool then foldl copy_words buf (filter (fun m => msg_seq m = n) l) else buf, fl) /\
  Z.testbit (ch_bitmap (foldl absorb c l)) (n - 1) = Z.testbit (ch_bitmap c) (n - 1) && (fl || bool_decide (filter (fun m => msg_seq m = n) l = [])).
Proof.
  intros Hl. revert c buf. induction Hl as [|m l [_ Hm] Hl IH]; intros c buf Hlen Hn Hb; cbn [foldl].
  { rewrite filter_nil, Hb. split; [by destruct fl|]. by rewrite bool_decide_true, orb_true_r, andb_true_r. }
  assert (Hlen' : length (ch_cfg (absorb c m)) = 64%nat) by (by rewrite absorb_cfg_len). destruct (decide (msg_seq m = n)) as [E|E].
  - rewrite filter_cons_True by done. assert (Hlt : (Z.to_nat (n - 1) < length (ch_cfg c))%nat) by (unfold SEQ_NUM_MAX in *; lia). specialize (IH (absorb c m)). destruct fl.
    + assert (Ea : absorb c m = c <| ch_cfg := <[Z.to_nat (n - 1) := (copy_words buf m, true)]> (ch_cfg c) |>) by (unfold absorb; by rewrite E, Hb).
      destruct (IH (copy_words buf m) Hlen' Hn) as [H1 H2]; [rewrite Ea; by apply list_lookup_insert_eq|]. split; [exact H1|]. by rewrite H2, Ea.
    + assert (Ea : absorb c m = c <| ch_bitmap := Z.clearbit (ch_bitmap c) (n - 1) |>) by (unfold absorb; by rewrite E, Hb).
      destruct (IH buf Hlen' Hn) as [H1 H2]; [by rewrite Ea|]. split; [exact H1|]. rewrite H2, Ea. simpl. by rewrite Z.clearbit_eq, andb_false_r.
  - rewrite filter_cons_False by done. destruct (absorb_other c m n) as [E1 E2]; [lia..|]. rewrite <- E2. apply IH; [done|done|by rewrite E1].
Qed.

(** The caller's request has a valid number and a buffer that is not empty. *)
Definition caller_ok (c : channel) (cmd : option (list Z)) : Prop :=
  forall l, cmd = Some l -> 0 < msg_seq l < SEQ_NUM_MAX /\ buffer_after c (msg_seq l) <> [].
(** The buffer of the caller's request holds its answer. *)
Definition answered (c : channel) (cmd : option (list Z)) (n : Z) : bool :=
  match cmd with None => false | Some l => (msg_seq l =? n) && (msg_seq (buffer_after c n) =? n) end.

(** C40. Reading responses always completes and leaves the queue empty. For every
    sequence number: when its request waits, its buffer then holds all pending
    responses with that number, copied in order; when none waits, its buffer is
    unchanged, and its number is free if there was such a response. The number of
    the caller's request is free if its buffer holds an answer to it, which the
    caller then has, and otherwise the caller's command is unchanged. Nothing else
    of any number changes. *)
Theorem check_response_drains c cmd :
  channel_ok c -> caller_ok c cmd ->
  exists c', check_response cmd c = Done ((fun l => if answered c cmd (msg_seq l) then copy_words l (take (ch_words c) (buffer_after c (msg_seq l))) else l) <$> cmd) c' /\
    channel_ok c' /\ pending (ch_rx c') = [] /\
    forall n, 0 < n < SEQ_NUM_MAX ->
      ch_cfg c' !! Z.to_nat (n - 1) = Some (buffer_after c n, waits c n) /\
      Z.testbit (ch_bitmap c') (n - 1) = Z.testbit (ch_bitmap c) (n - 1) && (waits c n || bool_decide (responses c n = [])) && negb (answered c cmd n).
Proof.
  intros Hok Hc. assert (Hslot : forall n, 0 < n < SEQ_NUM_MAX -> ch_cfg (drain c) !! Z.to_nat (n - 1) = Some (buffer_after c n, waits c n) /\
    Z.testbit (ch_bitmap (drain c)) (n - 1) = Z.testbit (ch_bitmap c) (n - 1) && (waits c n || bool_decide (responses c n = []))).
  { intros n Hn. destruct (lookup_lt_is_Some_2 (ch_cfg c) (Z.to_nat (n - 1))) as [[buf fl] Hb]; [rewrite (co_cfg _ Hok); unfold SEQ_NUM_MAX in *; lia|].
    destruct (absorb_all_slot c _ n buf fl (co_pending _ Hok) (co_cfg _ Hok) Hn Hb) as [H1 H2]. unfold buffer_after, waits. rewrite Hb. exact (conj H1 H2). }
  destruct (drain_ok c Hok) as [Hok' Hp]. destruct cmd as [l|].
  - destruct (Hc l eq_refl) as [Hl Hne]. clear Hc. destruct l as [|w l]; [unfold msg_seq in Hl; simpl in Hl; lia|]. cbn [fmap option_fmap option_map answered]. set (s := msg_seq (w :: l)) in *.
    destruct (Hslot s Hl) as [Hb _]. destruct (buffer_after c s) as [|wb rest] eqn:Eb; [done|].
    pose proof (check_response_some c (w :: l) w s _ _ wb Hok eq_refl eq_refl Hl Hb eq_refl) as E.
    rewrite Z.eqb_refl. change (msg_seq (wb :: rest)) with (seq_of wb). destruct (Z.eqb_spec (seq_of wb) s) as [Es|Es]; rewrite E; eexists; (split; [reflexivity|]).
    + split; [by destruct Hok'|]. split; [done|]. intros n Hn. destruct (Hslot n Hn) as [H1 H2]. split; [exact H1|]. transitivity (Z.testbit (Z.clearbit (ch_bitmap (drain c)) (s - 1)) (n - 1)); [done|]. rewrite Z.clearbit_eqb, H2. f_equal. f_equal. cbn [answered]. fold s.
      destruct (Z.eqb_spec s n) as [<-|Hne']; [rewrite Eb; change (msg_seq (wb :: rest)) with (seq_of wb); by rewrite Es, !Z.eqb_refl|]. by rewrite (proj2 (Z.eqb_neq (s - 1) (n - 1))) by lia.
    + split; [done|]. split; [done|]. intros n Hn. destruct (Hslot n Hn) as [H1 H2]. split; [exact H1|]. rewrite H2. cbn [answered]. fold s. destruct (Z.eqb_spec s n) as [<-|Hne']; [|by rewrite andb_true_r].
      rewrite Eb. change (msg_seq (wb :: rest)) with (seq_of wb). rewrite (proj2 (Z.eqb_neq _ _) Es). by rewrite andb_true_r.
  - exists (drain c). split; [by apply check_response_none|]. split; [done|]. split; [done|]. intros n Hn. destruct (Hslot n Hn) as [H1 H2]. split; [done|]. rewrite H2. by rewrite andb_true_r.
Qed.

(** ** The poll *)

(** C7. As soon as the firmware has answered, the poll returns: the caller's
    buffer holds the answer to its own request, whatever other responses
    arrived with it, and its sequence number is free again. *)
Theorem poll_delivers c cmd w s buf l1 m l2 now rt env w_mode timeout retry_cnt cnt :
  channel_ok c -> pending (ch_rx c) = [] -> cmd !! 0%nat = Some w -> seq_of w = s ->
  ch_cfg c !! Z.to_nat (s - 1) = Some (buf, true) ->
  Forall msg_ok (l1 ++ m :: l2) -> msg_seq m = s -> length m = ch_words c ->
  (forall x, x ∈ l1 ++ l2 -> msg_seq x <> s) ->
  (length (l1 ++ m :: l2) < length (rg_slots (ch_rx c)))%nat ->
  wp (poll_loop (MkPoll (FwPush <$> (l1 ++ m :: l2)) now rt :: env) w_mode s timeout retry_cnt cnt cmd)
    (fun r c' => r = (true, copy_words cmd m) /\ Z.testbit (ch_bitmap c') (s - 1) = false) c.
Proof.
  intros Hok Hpe Hw Hws Hb Hms Hm Hlm Hne Hlen.
  destruct (pending_pushes (l1 ++ m :: l2) (ch_rx c)) as (Hr & _ & _ & Hp); [apply Hok|rewrite Hpe; simpl; lia|].
  rewrite Hpe in Hp. simpl in Hp. simpl. apply wp_bind, wp_mod. rewrite fw_push_rx.
  revert Hr Hp. generalize (foldl ring_push (ch_rx c) (l1 ++ m :: l2)). intros r Hr Hp.
  set (c1 := c <| ch_rx := r |>).
  assert (channel_ok c1) as Hok1.
  { destruct Hok as [A B C D F]. split; simpl; [done|done|done| |done]. by rewrite Hp. }
  assert (0 < s < SEQ_NUM_MAX) as Hs.
  { apply Forall_app in Hms as [_ Hms]. inversion_clear Hms as [|? ? [_ H] _]. by rewrite Hm in H. }
  assert (ch_cfg (drain c1) !! Z.to_nat (s - 1) = Some (copy_words buf m, true)) as Hb1.
  { unfold drain. simpl. rewrite Hp, <- Hm. apply absorb_answer; [done|apply Hok|by rewrite Hm|by rewrite Hm]. }
  destruct m as [|w0 m'] eqn:Em; [apply Forall_app in Hms as [_ Hms]; by inversion_clear Hms as [|? ? [? _] _]|].
  rewrite <- Em in *. assert (m !! 0%nat = Some w0) as Hm0 by by rewrite Em.
  assert (seq_of w0 = s) as Hw0 by (unfold msg_seq in Hm; by rewrite Hm0 in Hm).
  apply wp_bind. eapply wp_eq.
  { rewrite (check_response_some c1 cmd w s (copy_words buf m) true w0); try done.
    - rewrite (proj2 (Z.eqb_eq _ _) Hw0). reflexivity.
    - unfold copy_words. rewrite lookup_app_l; [done|]. rewrite Em. simpl. lia. }
  assert (take (ch_words c1) (copy_words buf m) = m) as ->.
  { change (ch_words c1) with (ch_words c). unfold copy_words. by rewrite <- Hlm, take_app_length. }
  simpl default. apply wp_bind. eapply wp_eq; [reflexivity|].
  assert (Z.testbit (ch_bitmap ((drain c1) <| ch_bitmap := Z.clearbit (ch_bitmap (drain c1)) (s - 1) |>)) (s - 1) = false)
    as Hbit by (simpl; apply Z.clearbit_eq).
  rewrite Hbit. by apply wp_ret.
Qed.

(** ** A silent firmware *)

Lemma drain_id c : channel_ok c -> pending (ch_rx c) = [] -> ch_irq c = false -> drain c = c.
Proof.
  intros Hok Hp Hi. assert (rg_rear (ch_rx c) = rg_front (ch_rx c)) as E.
  { destruct Hok as [[Hf Hr] _ _ _ _]. eapply count_zero; [done..|]. unfold pending in Hp.
    by destruct (count (rg_rear (ch_rx c)) (rg_front (ch_rx c)) (rg_len (ch_rx c))). }
  unfold drain. rewrite Hp. clear Hp Hok. destruct c as [rx]. destruct rx. simpl in *. by subst.
Qed.

(** Nothing arrives for request [s]. *)
Record waiting (c : channel) (cmd : list Z) (s : Z) : Prop := {
  wt_ok : channel_ok c;
  wt_empty : pending (ch_rx c) = [];
  wt_irq : ch_irq c = false;
  wt_seq : 0 < s < SEQ_NUM_MAX;
  wt_cmd : exists w, cmd !! 0%nat = Some w /\ seq_of w = s;
  wt_buf : exists buf fl wb, ch_cfg c !! Z.to_nat (s - 1) = Some (buf, fl) /\ buf !! 0%nat = Some wb /\ seq_of wb <> s;
  wt_bit : Z.testbit (ch_bitmap c) (s - 1) = true
}.

Definition silent (e : poll_env) : Prop := pe_acts e = [].

(** The polls left before the driver gives up. *)
Definition polls_left (retry_cnt cnt : Z) : Z := Z.max 0 (10001 - cnt) + (6 - retry_cnt) + 1.

Lemma poll_silent env w_mode c s timeout retry_cnt cnt cmd :
  waiting c cmd s -> Forall silent env -> 0 <= retry_cnt <= 6 -> polls_left retry_cnt cnt <= Z.of_nat (length env) ->
  poll_loop env w_mode s timeout retry_cnt cnt cmd c = Done (false, cmd) c.
Proof.
  intros [Hok He Hirq Hs (w & Hw & Hws) (buf & fl & wb & Hb & Hwb & Hne) Hbit].
  revert timeout retry_cnt cnt. induction env as [|e env IH]; intros timeout retry cnt Hsil Hr Hlen.
  - unfold polls_left in Hlen. simpl in Hlen. lia.
  - inversion_clear Hsil as [|? ? He0 Hsil']. simpl. unfold kbind at 1, fw_run, kmod. rewrite He0. simpl.
    unfold kbind at 1. rewrite (check_response_some c cmd w s buf fl wb) by (done || by rewrite drain_id).
    rewrite (proj2 (Z.eqb_neq _ _) Hne), drain_id by done. simpl default.
    unfold kbind at 1, test_bit. rewrite Hbit. unfold IPC_NB_RETRIES, SW_CNT_TIMEOUT_100MS.
    unfold polls_left in *. simpl length in Hlen.
    destruct (timeout <? pe_now e); simpl.
    + rewrite Z.gtb_ltb. destruct (Z.ltb_spec 5 retry); [done|]. rewrite Z.gtb_ltb.
      destruct (Z.ltb_spec 0 retry); apply IH; done || lia.
    + rewrite !Z.gtb_ltb. destruct (Z.ltb_spec 10000 cnt).
      * destruct (Z.ltb_spec 5 retry); [done|]. destruct (Z.ltb_spec 0 retry); apply IH; done || lia.
      * destruct w_mode; apply IH; done || lia.
Qed.

(** A polled request to a silent firmware runs out of polls and ends in [dpm]. *)
Lemma send_polled_silent c dpm env penv t0 w_mode cmd w k :
  channel_ok c -> has_space c -> sendable c cmd w -> unused (drain c) k ->
  (forall s x, ch_cfg (drain c) !! s = Some x -> (0 < length (fst x))%nat) ->
  ch_polling c = true -> 3 <= rg_len (ch_tx c) -> Forall silent penv -> 10008 <= Z.of_nat (length penv) ->
  exists w' c', acpm_ipc_send_data_on dpm ([] :: env) penv t0 w_mode (MkCfg (Some cmd) true) c
      = (do! dpm in kret (0, Some (w' :: 0 :: 0 :: 0 :: drop 4 cmd))) c' /\
    Z.testbit (ch_bitmap c') (seq_of w' - 1) = true.
Proof.
  intros Hok Hsp Hsd Hk Hbuf Hpol Hlen Hsil Hn.
  destruct (wp_run _ _ _ (send_locked_sent c env cmd w true k Hok Hsp Hsd Hk))
    as (r & c1 & Hrun & s & msg & cmd' & -> & [[Hs _] Hbits _ _ (x & Hx & Hcfg) (w' & -> & Hw') (Hok1 & Hp1 & _ & _ & Hirq)]).
  exists w', c1. specialize (Hbuf _ _ Hx).
  assert (Z.testbit (ch_bitmap c1) (s - 1) = true) as Hbit by (rewrite Hbits, Z.eqb_refl by lia; done).
  assert (waiting c1 (w' :: 0 :: 0 :: 0 :: drop 4 cmd) s) as Hwait.
  { split; try done; [by exists w'|]. exists (replicate (length (fst x)) 0), true, 0. split_and!; [done| |].
    - by apply lookup_replicate.
    - change (seq_of 0) with 0. lia. }
  split; [|by rewrite Hw'].
  unfold acpm_ipc_send_data_on, kbind at 1, kget. rewrite (proj2 (Z.ltb_ge _ _)) by lia.
  unfold kbind at 1. rewrite Hrun, Hpol. simpl. unfold kbind at 1, word. simpl.
  unfold kbind at 1. rewrite Hw', (poll_silent _ _ _ _ _ _ _ _ Hwait Hsil); [done|lia|unfold polls_left; lia].
Qed.

(** What happens when the polls run out, for each configured action. *)
Definition timeout_outcome (policy : Z) (r : outcome channel (Z * option (list Z))) (ok : list Z -> channel -> Prop) : Prop :=
  if policy =? GO_DEFAULT_ID then exists buf c', r = Done (0, Some buf) c' /\ ok buf c'
  else if policy =? GO_PANIC_ID then r = Fault
  else r = Blocked.

(** With a firmware that never answers, a polled request ends within the
    10008 polls the counters allow, in the configured action: the watchdog
    actions never return, the panic stops the system, and with the action that
    does nothing the caller is told 0, as if it had been answered, and finds its
    own command, less three words, in the buffer. *)
Theorem silent_firmware_times_out c soc_op policy env penv t0 w_mode cmd w k :
  channel_ok c -> has_space c -> sendable c cmd w -> unused (drain c) k ->
  (forall s x, ch_cfg (drain c) !! s = Some x -> (0 < length (fst x))%nat) ->
  ch_polling c = true -> 3 <= rg_len (ch_tx c) -> Forall silent penv -> 10008 <= Z.of_nat (length penv) ->
  0 <= policy <= GO_S2D_ID ->
  timeout_outcome policy
    (acpm_ipc_send_data_on (dbg_snapshot_do_dpm_policy soc_op policy) ([] :: env) penv t0 w_mode
       (MkCfg (Some cmd) true) c)
    (fun buf c' => exists w', buf = w' :: 0 :: 0 :: 0 :: drop 4 cmd /\
       Z.testbit (ch_bitmap c') (seq_of w' - 1) = true).
Proof.
  intros Hok Hsp Hsd Hk Hbuf Hpol Hlen Hsil Hn Hp.
  destruct (send_polled_silent c (dbg_snapshot_do_dpm_policy soc_op policy) env penv t0 w_mode cmd w k)
    as (w' & c1 & -> & Hbit); try done.
  unfold timeout_outcome, dbg_snapshot_do_dpm_policy, GO_DEFAULT_ID, GO_PANIC_ID, GO_WATCHDOG_ID, GO_S2D_ID in *.
  assert (policy = 0 \/ policy = 1 \/ policy = 2 \/ policy = 3) as [-> | [-> | [-> | ->]]] by lia; [|done..].
  eexists _, c1. split; [reflexivity|]. by exists w'.
Qed.

(** ** Interrupt-driven channels *)

(** Every callback, in order, receives every command, in order. *)
Definition deliveries (cbs : list (Z * Z)) (msgs : list (list Z)) : list (Z * list Z) :=
  msgs ≫= fun m => (fun cb => (snd cb, m)) <$> cbs.

(** A firmware that only pushes commands: [pushes], one batch per turn. *)
Definition fw_pushes (pushes : list (list (list Z))) : list (list fw_act) :=
  (fun l : list (list Z) => (FwPush <$> l) : list fw_act) <$> pushes.

(** One turn of the loop: [m] is delivered and consumed, the firmware pushes [new]. *)
Definition served (c : channel) (m : list Z) (new : list (list Z)) : channel :=
  c <| ch_cmd := copy_words (ch_cmd c) m |>
    <| ch_delivered := ch_delivered c ++ ((fun cb => (snd cb, m)) <$> ch_callbacks c) |>
    <| ch_wait := ch_wait c + (if ch_polling c then 0 else 1) |>
    <| ch_rx := foldl ring_push ((ch_rx c) <| rg_rear := next_rear (ch_rx c) |>) new |>.

Lemma dequeue_turn n pushes c m Q :
  0 <= rg_rear (ch_rx c) < rg_len (ch_rx c) -> rg_rear (ch_rx c) <> rg_front (ch_rx c) ->
  rg_slots (ch_rx c) !!! Z.to_nat (rg_rear (ch_rx c)) = m -> length m = ch_words c ->
  wp (dequeue_loop n (fw_pushes (tail pushes)) (next_rear (ch_rx c))) Q
    (served c m (default [] (hd_error pushes))) ->
  wp (dequeue_loop (S n) (fw_pushes pushes) (rg_rear (ch_rx c))) Q c.
Proof.
  intros Hr Hne Hm Hlm H. simpl. apply wp_bind, wp_get. rewrite (proj2 (Z.eqb_neq _ _)) by done.
  apply wp_bind. eapply wp_eq; [by apply rx_slot_run|]. rewrite Hm. fold (next_rear (ch_rx c)).
  assert (take (ch_words c) (copy_words (ch_cmd c) m) = m) as Htk
    by (unfold copy_words; by rewrite <- Hlm, take_app_length).
  assert (default [] (hd_error (fw_pushes pushes))
    = FwPush <$> default [] (hd_error pushes)) as Ehd by (by destruct pushes).
  assert (tail (fw_pushes pushes) = (fw_pushes (tail pushes))) as Etl by (by destruct pushes).
  rewrite Ehd, Etl. apply wp_bind, wp_mod, wp_bind, wp_mod. simpl. rewrite Htk.
  apply wp_bind. eapply (wp_eq _ _ _ tt); [instantiate (1 := c <| ch_cmd := copy_words (ch_cmd c) m |>
    <| ch_delivered := ch_delivered c ++ ((fun cb => (snd cb, m)) <$> ch_callbacks c) |>
    <| ch_wait := ch_wait c + (if ch_polling c then 0 else 1) |>)|].
  { destruct c; simpl. destruct ch_polling; unfold kret, kmod; simpl; by rewrite ?Z.add_0_r. }
  apply wp_bind, wp_mod, wp_bind, wp_mod. rewrite fw_push_rx. exact H.
Qed.

(** Everything that was pending, or is pushed until the loop finds the queue
    empty, is delivered. *)
Lemma dequeue_loop_run n pushes c :
  ring_ok (ch_rx c) -> (length (pending (ch_rx c)) + length (concat pushes) <= n)%nat ->
  (length (pending (ch_rx c)) + length (concat pushes) < length (rg_slots (ch_rx c)))%nat ->
  Forall (fun m => length m = ch_words c) (pending (ch_rx c) ++ concat pushes) ->
  wp (dequeue_loop n (fw_pushes pushes) (rg_rear (ch_rx c))) (fun _ c' => exists k,
    let all := pending (ch_rx c) ++ concat (take k pushes) in
    pending (ch_rx c') = [] /\ ch_delivered c' = ch_delivered c ++ deliveries (ch_callbacks c) all /\
    ch_wait c' = ch_wait c + (if ch_polling c then 0 else Z.of_nat (length all)) /\
    ch_bitmap c' = ch_bitmap c /\ ch_irq c' = ch_irq c) c.
Proof.
  revert pushes c; induction n as [|n IH]; intros pushes c Hok Hn Hlen Hw;
    (destruct (decide (rg_rear (ch_rx c) = rg_front (ch_rx c))) as [E|Hne]).
  1,3: pose proof (proj1 (pending_nil _ Hok) E) as Hp; eapply wp_eq;
    [simpl; unfold kbind, kget; rewrite E, Z.eqb_refl; reflexivity|];
    exists 0%nat; simpl; rewrite Hp; simpl; rewrite app_nil_r; split_and!; try done; destruct (ch_polling c); lia.
  - destruct (pending_pop _ Hok Hne) as [_ Hp]. rewrite Hp in Hn. simpl in Hn. lia.
  - destruct (pending_pop _ Hok Hne) as [Hok1 Hp]. set (m := rg_slots (ch_rx c) !!! _) in Hp.
    rewrite Hp in Hn, Hlen, Hw. simpl in Hn, Hlen. inversion_clear Hw as [|? ? Hm Hw'].
    eapply (dequeue_turn n pushes c m); [apply Hok|done|done|done|].
    set (new := default [] (hd_error pushes)).
    assert (concat pushes = new ++ concat (tail pushes)) as Ec by (by destruct pushes).
    rewrite Ec, length_app in Hn, Hlen. rewrite Ec in Hw'.
    destruct (pending_pushes new ((ch_rx c) <| rg_rear := next_rear (ch_rx c) |>)) as (Hok2 & Hl2 & Hr2 & Hp2);
      [done|simpl; lia|].
    eapply wp_mono.
    { specialize (IH (tail pushes) (served c m new)). change (ch_rx (served c m new))
        with (foldl ring_push ((ch_rx c) <| rg_rear := next_rear (ch_rx c) |>) new) in IH.
      rewrite Hr2 in IH. apply IH; rewrite ?Hp2, ?Hl2, ?length_app; [done|simpl; lia|simpl; lia|].
      by rewrite <- app_assoc. }
    intros [] c' (k & E1 & E2 & E3 & E4 & E5). exists (S k).
    assert (pending (foldl ring_push ((ch_rx c) <| rg_rear := next_rear (ch_rx c) |>) new) ++ concat (take k (tail pushes))
      = pending ((ch_rx c) <| rg_rear := next_rear (ch_rx c) |>) ++ concat (take (S k) pushes)) as Eall.
    { rewrite Hp2, <- app_assoc. f_equal. unfold new. destruct pushes; [by destruct k|done]. }
    rewrite Eall in E2, E3. rewrite Hp. simpl in E2, E3 |- *. split_and!; [done| | |done|done].
    + rewrite E2, <- app_assoc. done.
    + rewrite E3. destruct (ch_polling c); lia.
Qed.

(** Serving a queue channel hands every pending command, and every command
    the firmware adds until the queue is found empty, in order and exactly once,
    to every callback, empties the queue, and completes one wait per command in
    interrupt mode; it does not free any sequence number. *)
Theorem dequeue_delivers c pushes :
  ring_ok (ch_rx c) -> ch_type_ c = TYPE_QUEUE ->
  (length (pending (ch_rx c)) + length (concat pushes) < length (rg_slots (ch_rx c)))%nat ->
  Forall (fun m => length m = ch_words c) (pending (ch_rx c) ++ concat pushes) ->
  wp (dequeue_policy (fw_pushes pushes)) (fun _ c' => exists k,
    let all := pending (ch_rx c) ++ concat (take k pushes) in
    pending (ch_rx c') = [] /\ ch_delivered c' = ch_delivered c ++ deliveries (ch_callbacks c) all /\
    ch_wait c' = ch_wait c + (if ch_polling c then 0 else Z.of_nat (length all)) /\
    ch_bitmap c' = ch_bitmap c /\ ch_irq c' = ch_irq c) c.
Proof.
  intros Hok Ht Hlen Hw. unfold dequeue_policy. apply wp_bind, wp_get. rewrite Ht.
  apply dequeue_loop_run; [done| |done|done].
  assert (length (concat (fw_pushes pushes)) = length (concat pushes)) as ->; [|lia].
  induction pushes as [|p ps IH]; [done|]. csimpl. rewrite !length_app, length_fmap. f_equal. apply IH.
  - rewrite concat_cons, length_app in Hlen. lia.
  - rewrite concat_cons in Hw. apply Forall_app in Hw as [? [_ ?]%Forall_app]. by apply Forall_app.
Qed.

(** *** The interrupt thread *)

(** A queue channel whose commands the interrupt thread can serve. *)
Record servable (c : channel) : Prop := {
  sv_ring : ring_ok (ch_rx c);
  sv_type : ch_type_ c = TYPE_QUEUE;
  sv_words : Forall (fun m => length m = ch_words c) (pending (ch_rx c))
}.

(** All its pending commands have been delivered, one wait completed for each. *)
Definition served_all (c c' : channel) : Prop :=
  pending (ch_rx c') = [] /\
  ch_delivered c' = ch_delivered c ++ deliveries (ch_callbacks c) (pending (ch_rx c)) /\
  ch_wait c' = ch_wait c + Z.of_nat (length (pending (ch_rx c))).

Lemma pending_bound r : ring_ok r -> (length (pending r) < length (rg_slots r))%nat.
Proof.
  intros [Hf _]. rewrite pending_length. pose proof (count_le (rg_rear r) (rg_front r) (rg_len r)).
  unfold rg_len in *. lia.
Qed.

Lemma dequeue_quiet c :
  servable c -> ch_polling c = false ->
  wp (dequeue_policy []) (fun _ c' => served_all c c' /\ ch_irq c' = ch_irq c) c.
Proof.
  intros [Hok Ht Hw] Hpol. pose proof (pending_bound _ Hok) as Hb.
  unfold dequeue_policy. apply wp_bind, wp_get. rewrite Ht. eapply wp_mono; [apply (dequeue_loop_run _ [])|].
  - done.
  - simpl. lia.
  - simpl. lia.
  - simpl. by rewrite app_nil_r.
  - intros [] c' (k & E1 & E2 & E3 & _ & E5). rewrite take_nil in E2, E3. simpl in E2, E3.
    rewrite app_nil_r in E2, E3. rewrite Hpol in E3. done.
Qed.

Lemma on_channel_run {A} i (f : M channel A) a c Q :
  a_channels a !! i = Some c ->
  wp f (fun x c' => Q x (a <| a_channels := <[i := c']> (a_channels a) |>)) c ->
  wp (on_channel (Z.of_nat i) f) Q a.
Proof.
  intros Hc. unfold wp, on_channel. rewrite (proj2 (Z.ltb_ge _ _)), Nat2Z.id, Hc by lia. by destruct (f c).
Qed.

(** What the thread does to channel [j], from channel [i] on. *)
Definition thread_post (status : Z) (i j : nat) (c c' : channel) : Prop :=
  if bool_decide (i <= j)%nat && (negb (ch_polling c) && Z.testbit status (Z.of_nat j))
  then served_all c c' /\ ch_irq c' = ch_irq c else c' = c.

Lemma irq_thread_run n i a :
  (forall j c, (i <= j)%nat -> a_channels a !! j = Some c -> servable c) -> (i + n = length (a_channels a))%nat ->
  wp (irq_thread_loop (fun _ => []) n (Z.of_nat i)) (fun _ a' => forall j c, a_channels a !! j = Some c ->
    exists c', a_channels a' !! j = Some c' /\ thread_post (a_intr_status a) i j c c') a.
Proof.
  revert i a; induction n as [|n IH]; intros i a Hall Hi; simpl.
  - apply wp_ret. intros j c Hj. exists c. split; [done|]. unfold thread_post.
    pose proof (lookup_lt_Some _ _ _ Hj). by rewrite bool_decide_eq_false_2 by lia.
  - apply wp_bind, wp_get, wp_bind.
    destruct (lookup_lt_is_Some_2 (a_channels a) i) as [c Hc]; [lia|].
    assert (servable c) as Hsv by by eapply (Hall i).
    eapply (on_channel_run i _ a c); [done|]. apply wp_bind, wp_get.
    eapply (wp_mono _ (fun _ c' => thread_post (a_intr_status a) i i c c')).
    { unfold thread_post. rewrite bool_decide_eq_true_2 by lia. simpl.
      destruct (ch_polling c) eqn:Hp; simpl; [by apply wp_ret|].
      destruct (Z.testbit (a_intr_status a) (Z.of_nat i)); [|by apply wp_ret]. by apply dequeue_quiet. }
    intros [] c1 Hc1. replace (Z.of_nat i + 1) with (Z.of_nat (S i)) by lia.
    eapply wp_mono; [apply IH|].
    + intros j c2 Hj. simpl. rewrite list_lookup_insert_ne by lia. apply Hall. lia.
    + simpl. rewrite length_insert. lia.
    + intros [] a' H j c2 Hj. unfold thread_post in H |- *. destruct (decide (i = j)) as [<-|Hij].
      * rewrite Hc in Hj. injection Hj as <-. destruct (H i c1) as (c' & E & Hc').
        { simpl. apply list_lookup_insert_eq. lia. }
        rewrite bool_decide_eq_false_2 in Hc' by lia. simpl in Hc'. subst c'. by exists c1.
      * destruct (H j c2) as (c' & E & Hc'); [simpl; by rewrite list_lookup_insert_ne|]. exists c'. split; [done|].
        assert (bool_decide (S i <= j)%nat = bool_decide (i <= j)%nat) as Eb by (apply bool_decide_ext; lia).
        by rewrite Eb in Hc'.
Qed.
(** The status register, bit by bit. *)
Lemma intsr_bit a k :
  Forall (fun c => 0 <= ch_id c) (a_channels a) -> 0 <= k ->
  Z.testbit (AP_INTSR a) k = existsb (fun c => ch_irq c && (ch_id c =? k)) (a_channels a).
Proof.
  unfold AP_INTSR. intros Hid Hk. induction Hid as [|c l Hc Hid IH]; simpl; [apply Z.bits_0|].
  destruct (ch_irq c); simpl; [|done]. by rewrite Z.setbit_eqb, IH by done.
Qed.

(** Channels are numbered by their identifiers, as the firmware numbers them. *)
Definition numbered (a : acpm) : Prop := forall i c, a_channels a !! i = Some c -> ch_id c = Z.of_nat i.

Lemma intsr_channel a i c : numbered a -> a_channels a !! i = Some c -> Z.testbit (AP_INTSR a) (Z.of_nat i) = ch_irq c.
Proof.
  intros Hn Hc. rewrite intsr_bit; [|apply Forall_lookup_2; intros j d Hd; rewrite (Hn _ _ Hd); lia|lia].
  apply Bool.eq_iff_eq_true. rewrite existsb_exists. split.
  - intros (d & Hd & [Hi He%Z.eqb_eq]%andb_prop). apply list_elem_of_In, list_elem_of_lookup_1 in Hd as [j Hj].
    rewrite (Hn _ _ Hj) in He. assert (j = i) as -> by lia. rewrite Hc in Hj. by injection Hj as ->.
  - intros Hi. exists c. split; [by eapply list_elem_of_In, list_elem_of_lookup_2|].
    by rewrite (Hn _ _ Hc), Z.eqb_refl, Hi.
Qed.

(** An interrupt serves every interrupt-driven channel that raised it: its
    bit is cleared, its pending commands are delivered and its waits completed;
    polled channels and channels that did not raise it keep their state. *)
Theorem interrupt_serves_raised a :
  numbered a -> Forall servable (a_channels a) ->
  wp (do! acpm_ipc_irq_handler in acpm_ipc_irq_handler_thread (fun _ => []))
    (fun _ a' => forall i c, a_channels a !! i = Some c ->
       exists c', a_channels a' !! i = Some c' /\
         (if negb (ch_polling c) && ch_irq c then served_all c c' /\ ch_irq c' = false else c' = c)) a.
Proof.
  intros Hn Hsv. apply wp_bind, wp_mod. unfold acpm_ipc_irq_handler_thread. apply wp_bind, wp_get.
  set (ack := fun c => if negb (ch_polling c) && Z.testbit (AP_INTSR a) (ch_id c) then c <| ch_irq := false |> else c).
  set (a1 := (a <| a_channels := ack <$> a_channels a |>) <| a_intr_status := AP_INTSR a |>).
  assert (forall c, servable c -> servable (ack c)) as Hack
    by (intros c [A B C]; unfold ack; destruct (negb _ && _); by split).
  eapply wp_mono; [apply (irq_thread_run _ 0 a1)|].
  - intros j c _. simpl. rewrite list_lookup_fmap. intros (d & Hd & ->)%fmap_Some.
    eapply Hack, Forall_lookup_1; eassumption.
  - done.
  - intros [] a' H i c Hc. destruct (H i (ack c)) as (c' & E & Hp); [simpl; by rewrite list_lookup_fmap, Hc|].
    exists c'. split; [done|]. unfold thread_post in Hp. rewrite bool_decide_eq_true_2 in Hp by lia.
    change (a_intr_status a1) with (AP_INTSR a) in Hp. rewrite (intsr_channel a i c Hn Hc) in Hp.
    unfold ack in Hp. rewrite (Hn _ _ Hc), (intsr_channel a i c Hn Hc) in Hp.
    destruct (ch_polling c) eqn:Epol; simpl in Hp |- *; [by rewrite Epol in Hp|].
    destruct (ch_irq c) eqn:Eirq; simpl in Hp |- *; rewrite Epol in Hp; done.
Qed.

(** ** Limits *)

(** A fresh channel of [len] slots of four words. *)
Definition demo_channel (len : nat) (polling : bool) : channel :=
  MkChannel (MkRing (replicate len [0; 0; 0; 0]) 0 0) (MkRing (replicate len [0; 0; 0; 0]) 0 0) 4 [] 0 TYPE_QUEUE 0
    [0; 0; 0; 0] 0 polling 0 (replicate 64 (replicate 16 0, false)) false [] 0.

(** A channel number past the last channel is not refused when it comes with a
    command: the access is out of bounds. Only a missing command is refused. *)
Theorem invalid_channel_not_refused a soc_op env penv t0 i cfg w_mode :
  Z.of_nat (length (a_channels a)) <= i ->
  acpm_ipc_send_data_ soc_op env penv t0 i (Some cfg) w_mode a = Fault /\
  acpm_ipc_send_data_ soc_op env penv t0 i None w_mode a = Done (- EIO, None) a.
Proof.
  intros Hi. unfold acpm_ipc_send_data_, kbind, kget. split.
  - unfold on_channel. rewrite (proj2 (Z.ltb_ge _ _)) by lia. by rewrite lookup_ge_None_2 by lia.
  - by rewrite Z.geb_leb, (proj2 (Z.leb_le _ _)) by lia.
Qed.

Lemma invalid_channel_not_refused_witness :
  acpm_ipc_send_data_ (fun _ => kret tt) [[]] [] 0 3 (Some (MkCfg (Some [0; 0; 0; 0]) true)) false
    (MkAcpm [demo_channel 8 true; demo_channel 8 true] 0 0 false GO_WATCHDOG_ID) = Fault.
Proof. apply invalid_channel_not_refused. vm_compute. discriminate. Defined.

(** One exchange on an interrupt-driven channel: the command is sent, the
    firmware takes it and answers with the number it carries, and the interrupt
    thread serves the response. *)
Definition exchange : M channel unit :=
  let! r := send_locked [[]] (MkCfg (Some [7; 1; 2; 3]) true) in
  match r with
  | inr (w :: _) =>
      do! fw_run [FwTake; FwPush [w; 9; 9; 9]; FwRaise] in
      dequeue_policy []
  | _ => kfault
  end.
Fixpoint exchanges (n : nat) : M channel unit :=
  match n with
  | O => kret tt
  | S n => do! exchange in exchanges n
  end.

(** On an interrupt-driven channel nothing frees the sequence numbers: after
    63 exchanges, each of them answered and served, the next send searches for
    a number for ever, with the channel's lock held. *)
Theorem interrupt_channel_exhausts_numbers :
  match exchanges 63 (demo_channel 8 false) with
  | Done _ c =>
      pending (ch_rx c) = [] /\ pending (ch_tx c) = [] /\ ch_wait c = 63 /\
      send_locked [[]] (MkCfg (Some [7; 1; 2; 3]) true) c = Blocked
  | _ => False
  end.
Proof. vm_compute. by repeat split. Qed.

(** ** Concrete exchanges *)

Lemma demo_channel_ok polling : channel_ok (demo_channel 8 polling).
Proof. by split; [split|split| | |]; vm_compute. Qed.

Lemma demo_sendable polling : sendable (demo_channel 8 polling) [7; 1; 2; 3] 7.
Proof. split; [vm_compute; lia|vm_compute; lia|done|done]. Qed.

Lemma send_enqueues_witness :
  wp (send_locked [[]] (MkCfg (Some [7; 1; 2; 3]) true)) (fun r c' => exists s msg cmd', r = inr cmd' /\
    sent (demo_channel 8 true) [7; 1; 2; 3] true s msg cmd' c') (demo_channel 8 true).
Proof.
  apply (send_enqueues _ _ _ 7 _ 1); [apply demo_channel_ok|split; vm_compute; discriminate|apply demo_sendable|].
  split; [vm_compute; split; reflexivity|vm_compute; reflexivity].
Defined.

(** The channel with request number 1 sent. *)
Definition demo_sent : channel :=
  match send_locked [[]] (MkCfg (Some [7; 1; 2; 3]) true) (demo_channel 8 true) with
  | Done _ c => c
  | _ => demo_channel 8 true
  end.

(** Request 1 waits; a response to it and two to number 2, which waits for none, are pending. *)
Definition demo_answered : channel := foldl fw_step demo_sent (FwPush <$> [[0x20005; 0; 0; 0]; [0x10007; 42; 43; 44]; [0x20006; 0; 0; 0]]).

Lemma check_response_drains_witness :
  length (pending (ch_rx demo_answered)) = 3%nat /\
  exists c', check_response (Some [0x10007; 0; 0; 0]) demo_answered = Done (Some [0x10007; 42; 43; 44]) c' /\ pending (ch_rx c') = [] /\ Z.testbit (ch_bitmap c') 0 = false /\ Z.testbit (ch_bitmap demo_answered) 0 = true.
Proof.
  split; [by vm_compute|]. destruct (check_response_drains demo_answered (Some [0x10007; 0; 0; 0])) as (c' & E & _ & Hp & Hn).
  - split; [split|split| | |]; vm_compute; try done; repeat constructor; vm_compute; done || by split.
  - intros l [= <-]. by vm_compute.
  - exists c'. split; [rewrite E; by vm_compute|]. split; [done|]. split; [|by vm_compute]. destruct (Hn 1) as [_ H1]; [by vm_compute|]. change (1 - 1) with 0 in H1. rewrite H1. by vm_compute.
Defined.

Lemma poll_delivers_witness :
  wp (poll_loop [MkPoll (FwPush <$> [[0x20005; 0; 0; 0]; [0x10007; 42; 43; 44]]) 0 0] false 1 1000 0 0 [0x10007; 0; 0; 0])
    (fun r c' => r = (true, copy_words [0x10007; 0; 0; 0] [0x10007; 42; 43; 44]) /\
       Z.testbit (ch_bitmap c') (1 - 1) = false) demo_sent.
Proof.
  apply (poll_delivers demo_sent [0x10007; 0; 0; 0] 0x10007 1 (replicate 16 0)
    [[0x20005; 0; 0; 0]] [0x10007; 42; 43; 44] []).
  - split; [split|split| | |]; vm_compute; try done; by split.
  - vm_compute; reflexivity.
  - done.
  - vm_compute; reflexivity.
  - vm_compute; reflexivity.
  - repeat constructor; vm_compute; done || by split.
  - vm_compute; reflexivity.
  - vm_compute; reflexivity.
  - intros x Hx. apply elem_of_cons in Hx as [->|Hx]; [by vm_compute|by apply elem_of_nil in Hx].
  - vm_compute. lia.
Defined.

Lemma silent_firmware_times_out_witness :
  timeout_outcome GO_WATCHDOG_ID
    (acpm_ipc_send_data_on (dbg_snapshot_do_dpm_policy (fun _ => kret tt) GO_WATCHDOG_ID) [[]]
       (replicate (Z.to_nat 10008) (MkPoll [] 0 0)) 0 false (MkCfg (Some [7; 1; 2; 3]) true) (demo_channel 8 true))
    (fun buf c' => exists w', buf = w' :: 0 :: 0 :: 0 :: drop 4 [7; 1; 2; 3] /\
       Z.testbit (ch_bitmap c') (seq_of w' - 1) = true).
Proof.
  apply (silent_firmware_times_out _ _ _ _ _ _ _ _ 7 1); [apply demo_channel_ok|split; vm_compute; discriminate
    |apply demo_sendable|split; [vm_compute; split; reflexivity|vm_compute; reflexivity]| |done|vm_compute; discriminate| | |].
  - intros s x Hx. apply list_elem_of_lookup_2 in Hx. change (drain (demo_channel 8 true)) with (demo_channel 8 true) in Hx.
    apply elem_of_replicate in Hx as [-> _]. vm_compute. lia.
  - by apply Forall_replicate.
  - by rewrite length_replicate.
  - vm_compute; split; discriminate.
Defined.

Lemma dequeue_delivers_witness :
  let c := (foldl fw_step (demo_channel 8 false) [FwPush [1; 2; 3; 4]; FwPush [5; 6; 7; 8]]) <| ch_callbacks := [(0, 100)] |> in
  wp (dequeue_policy (fw_pushes [[[9; 9; 9; 9]]])) (fun _ c' => pending (ch_rx c') = []) c.
Proof.
  intros c. eapply wp_mono; [apply dequeue_delivers|].
  - by split; vm_compute.
  - reflexivity.
  - vm_compute. lia.
  - repeat constructor.
  - intros [] c' (k & E & _). exact E.
Defined.

(** ** Logs *)

Definition log_line_of (level : Z) (e : list Z) : list log_line :=
  match e with
  | head :: arg0 :: arg1 :: arg2 :: _ => acpm_log_print_helper level head arg0 arg1 arg2
  | _ => []
  end.

Lemma log_print_loop_run n env level b out :
  ring_ok b -> (length (pending b) + length (concat env) <= n)%nat ->
  (length (pending b) + length (concat env) < length (rg_slots b))%nat ->
  Forall (fun e => 4 <= length e)%nat (pending b ++ concat env) ->
  exists k b', log_print_loop n env level b out
      = Done (out ++ ((pending b ++ concat (take k env)) ≫= log_line_of level)) b' /\ pending b' = [].
Proof.
  revert env b out; induction n as [|n IH]; intros env b out Hok Hn Hlen Hw;
    (destruct (decide (rg_rear b = rg_front b)) as [E|Hne]).
  1,3: pose proof (proj1 (pending_nil _ Hok) E) as Hp; exists 0%nat, b; simpl; rewrite E, Z.eqb_refl, Hp; simpl;
    by rewrite app_nil_r.
  - destruct (pending_pop _ Hok Hne) as [_ Hp]. rewrite Hp in Hn. simpl in Hn. lia.
  - destruct (pending_pop _ Hok Hne) as [Hok1 Hp]. pose proof Hok as [_ Hr]. unfold rg_len in Hr.
    destruct (lookup_lt_is_Some_2 (rg_slots b) (Z.to_nat (rg_rear b))) as [m Hm]; [lia|].
    rewrite (list_lookup_total_correct _ _ _ Hm) in Hp. rewrite Hp in Hn, Hlen, Hw. simpl in Hn, Hlen.
    inversion_clear Hw as [|? ? Hm4 Hw'].
    set (new := default [] (hd_error env)).
    assert (concat env = new ++ concat (tail env)) as Ec by (by destruct env).
    rewrite Ec, length_app in Hn, Hlen. rewrite Ec in Hw'.
    destruct (pending_pushes new (b <| rg_rear := next_rear b |>)) as (Hok2 & Hl2 & _ & Hp2); [done|simpl; lia|].
    destruct (IH (tail env) (foldl ring_push (b <| rg_rear := next_rear b |>) new) (out ++ log_line_of level m))
      as (k & b' & E & Hb'); rewrite ?Hp2, ?Hl2, ?length_app; [done|simpl; lia|simpl; lia|by rewrite <- app_assoc|].
    exists (S k), b'. split; [|done]. simpl. rewrite (proj2 (Z.eqb_neq _ _)) by done.
    rewrite (proj2 (Z.ltb_ge _ _)) by lia. rewrite Hm. fold (next_rear b).
    destruct m as [|h [|a0 [|a1 [|a2 rest]]]]; simpl in Hm4; try lia. fold new.
    etransitivity; [exact E|]. rewrite Hp, Hp2, <- !app_assoc. do 3 f_equal.
    assert (concat (take (S k) env) = new ++ concat (take k (tail env))) as -> by (unfold new; destruct env; [by destruct k|done]).
    done.
Qed.

(** Printing a log prints each entry the firmware has added since the last
    time, and those it adds until the queue is found empty, in order and once,
    and leaves none. *)
Theorem log_prints_each_entry_once b level env :
  ring_ok b -> (length (pending b) + length (concat env) < length (rg_slots b))%nat ->
  Forall (fun e => 4 <= length e)%nat (pending b ++ concat env) ->
  exists k b', acpm_log_print_buff env false level b
      = Done ((pending b ++ concat (take k env)) ≫= log_line_of level) b' /\ pending b' = [].
Proof. intros Hok Hlen Hw. apply (log_print_loop_run _ _ _ _ []); [done|lia|done|done]. Qed.

Lemma log_prints_each_entry_once_witness :
  let b := MkRing (replicate 4 [0x18000001; 1; 2; 3]) 1 3 in
  exists k b', acpm_log_print_buff [] false 2 b
    = Done ((pending b ++ concat (take k [])) ≫= log_line_of 2) b' /\ pending b' = [].
Proof.
  intros b. apply log_prints_each_entry_once.
  - by split; vm_compute.
  - vm_compute. lia.
  - vm_compute. repeat constructor.
Defined.

Lemma interrupt_serves_raised_witness :
  let c := (foldl fw_step (demo_channel 8 false) [FwPush [1; 2; 3; 4]; FwRaise]) <| ch_callbacks := [(0, 100)] |> in
  wp (do! acpm_ipc_irq_handler in acpm_ipc_irq_handler_thread (fun _ => []))
    (fun _ a' => exists c', a_channels a' !! 0%nat = Some c' /\ served_all c c')
    (MkAcpm [c; (demo_channel 8 true) <| ch_id := 1 |>] 0 0 false GO_WATCHDOG_ID).
Proof.
  intros c. eapply wp_mono; [apply interrupt_serves_raised|].
  - intros [|[|i]] d H; [injection H as <-; reflexivity|injection H as <-; reflexivity|discriminate].
  - repeat constructor; vm_compute; done.
  - intros [] a' H. destruct (H 0%nat c eq_refl) as (c' & E & Hs & _). eauto.
Defined.
