(* ===== verification/S2mpu.v ===== *)
(** * The stage-2 memory protection unit

    [drivers/soc/google/s2mpu/s2mpu-lib.c], [s2mpu-core.c] and [ssmt.c]. An S2MPU
    sits between a device and memory and checks every access against a table of
    permissions: one entry per gigabyte in registers (level 1), and for a
    gigabyte that needs finer permissions a table in memory (level 2, the SMPT)
    with two bits per 2 MB, 64 KB or 4 KB granule. The driver opens and closes
    windows of physical memory to the device; it splits a table when a window is
    finer than the table.

    The state [s2mpu_info] holds the C struct's fields, the registers of the two
    devices, and the coherent memory the tables live in: [i_vmap] maps the CPU
    address of each live buffer to its bus address, [i_phys] the bus address to
    the bytes. [dma_alloc] stands for [kmalloc] and [dma_alloc_coherent]; its
    first argument counts the calls, so that it may fail at one time and succeed
    at another. *)

From S2P Require Import Prelude.

(** ** Registers (s2mpu-regs.h) *)

Definition S2MPU_CTRL0 : Z := 0x0.
Definition S2MPU_CTRL1 : Z := 0x4.
Definition S2MPU_CFG : Z := 0x10.
Definition S2MPU_CFG_MPTW_USER_LOW : Z := 0x14.
Definition S2MPU_CFG_MPTW_USER_HIGH : Z := 0x18.
Definition S2MPU_INTERRUPT_ENABLE_PER_VID_SET : Z := 0x20.
Definition S2MPU_INTERRUPT_CLEAR : Z := 0x2c.
Definition S2MPU_MPC_CTRL : Z := 0x40.
Definition S2MPU_PAGE_AWARE_DECODING_0 : Z := 0x44.
Definition S2MPU_PAGE_AWARE_DECODING_1 : Z := 0x48.
Definition S2MPU_PM_CFG : Z := 0x70.
Definition S2MPU_ALL_INVALIDATION : Z := 0x1000.
Definition S2MPU_RANGE_INVALIDATION : Z := 0x1020.
Definition S2MPU_RANGE_INVALIDATION_START_PPN : Z := 0x1024.
Definition S2MPU_RANGE_INVALIDATION_END_PPN : Z := 0x1028.
Definition S2MPU_L1ENTRY_L2TABLE_ADDR (n m : Z) : Z := 0x4000 + n * 0x200 + m * 0x8.
Definition S2MPU_L1ENTRY_ATTR (n m : Z) : Z := 0x4004 + n * 0x200 + m * 0x8.
Definition S2MPU_FAULT_STATUS : Z := 0x2000.
Definition S2MPU_FAULT_PA_LOW (n : Z) : Z := 0x2004 + n * 0x20.
Definition S2MPU_FAULT_PA_HIGH (n : Z) : Z := 0x2008 + n * 0x20.
Definition S2MPU_FAULT_INFO (n : Z) : Z := 0x2010 + n * 0x20.
Definition S2MPU_FAULT_TYPE (fault_info : Z) : Z := Z.land (Z.shiftr fault_info 21) 3.

Definition S2MPU_CTRL0_ENABLE_SHIFT : Z := 0.
Definition S2MPU_CTRL0_INTERRUPT_ENABLE_SHIFT : Z := 1.
Definition S2MPU_CTRL0_FAULT_RESP_TYPE_SHIFT : Z := 2.
Definition S2MPU_ALL_INVALIDATION_INVALIDATE_SHIFT : Z := 0.
Definition S2MPU_RANGE_INVALIDATION_INVALIDATE_SHIFT : Z := 0.
Definition S2MPU_RANGE_INVALIDATION_VID_SPECIFIC_SHIFT : Z := 1.
Definition S2MPU_RANGE_INVALIDATION_VID_SHIFT : Z := 16.

(** Fields of a level-1 attribute. *)
Definition S2MPU_L1ENTRY_ATTR_L2TABLE_EN_SHIFT : Z := 0.
Definition S2MPU_L1ENTRY_ATTR_RD_ACCESS_SHIFT : Z := 1.
Definition S2MPU_L1ENTRY_ATTR_WR_ACCESS_SHIFT : Z := 2.
Definition S2MPU_L1ENTRY_ATTR_L2TABLE_GRANULE_SHIFT : Z := 4.
Definition S2MPU_L1ENTRY_ATTR_L2TABLE_EN_VALUE (reg : Z) : Z :=
  Z.shiftr (Z.land reg (Z.shiftl 1 S2MPU_L1ENTRY_ATTR_L2TABLE_EN_SHIFT)) S2MPU_L1ENTRY_ATTR_L2TABLE_EN_SHIFT.
Definition S2MPU_L1ENTRY_ATTR_RD_ACCESS_VALUE (reg : Z) : Z :=
  Z.shiftr (Z.land reg (Z.shiftl 1 S2MPU_L1ENTRY_ATTR_RD_ACCESS_SHIFT)) S2MPU_L1ENTRY_ATTR_RD_ACCESS_SHIFT.
Definition S2MPU_L1ENTRY_ATTR_WR_ACCESS_VALUE (reg : Z) : Z :=
  Z.shiftr (Z.land reg (Z.shiftl 1 S2MPU_L1ENTRY_ATTR_WR_ACCESS_SHIFT)) S2MPU_L1ENTRY_ATTR_WR_ACCESS_SHIFT.
Definition S2MPU_L1ENTRY_ATTR_L2TABLE_GRANULE_VALUE (reg : Z) : Z :=
  Z.shiftr (Z.land reg (Z.shiftl 3 S2MPU_L1ENTRY_ATTR_L2TABLE_GRANULE_SHIFT))
    S2MPU_L1ENTRY_ATTR_L2TABLE_GRANULE_SHIFT.

(** The attribute word with these fields. *)
Definition l1_attr (en rdw wrw granule : Z) : Z :=
  Z.lor (Z.lor (Z.lor (Z.shiftl en S2MPU_L1ENTRY_ATTR_L2TABLE_EN_SHIFT)
                      (Z.shiftl rdw S2MPU_L1ENTRY_ATTR_RD_ACCESS_SHIFT))
               (Z.shiftl wrw S2MPU_L1ENTRY_ATTR_WR_ACCESS_SHIFT))
        (Z.shiftl granule S2MPU_L1ENTRY_ATTR_L2TABLE_GRANULE_SHIFT).

(** ** Granularities, directions, tables *)

Definition WHI_PHY_ADDR_MASK : Z := 0xfffffffff.
Definition WHI_RESERVED_START : Z := 0x100000000.
Definition WHI_RESERVED_END : Z := 0x87fffffff.
Definition WHI_MAX_GB_GRANULES : nat := 64.
Definition INT_SHIFT : Z := 32.

(** [S2_GRAN_INVALID] is the [None] of [get_gran]. *)
Inductive s2_gran : Set := S2_GRAN_4KB | S2_GRAN_64KB | S2_GRAN_2MB | S2_GRAN_1GB.
#[export] Instance s2_gran_eq_dec : EqDecision s2_gran.
Proof. solve_decision. Defined.

Definition gran_val (g : s2_gran) : Z :=
  match g with S2_GRAN_4KB => 0 | S2_GRAN_64KB => 1 | S2_GRAN_2MB => 2 | S2_GRAN_1GB => 3 end.

Definition gran_shift (g : s2_gran) : Z :=
  match g with S2_GRAN_4KB => 12 | S2_GRAN_64KB => 16 | S2_GRAN_2MB => 21 | S2_GRAN_1GB => 30 end.

Inductive dma_data_direction : Set := DMA_BIDIRECTIONAL | DMA_TO_DEVICE | DMA_FROM_DEVICE | DMA_NONE.

#[export] Instance dma_data_direction_eq_dec : EqDecision dma_data_direction.
Proof. solve_decision. Defined.

Inductive dir_mask : Set := DIR_NONE | DIR_READ | DIR_WRITE | DIR_BIDRECTIONAL.
Definition dir_mask_val (d : dir_mask) : Z :=
  match d with DIR_NONE => 0 | DIR_READ => 1 | DIR_WRITE => 2 | DIR_BIDRECTIONAL => 3 end.

Definition extend_to_byte (two_bits : Z) : Z :=
  u8 (Z.lor (Z.lor (Z.lor (Z.shiftl two_bits 6) (Z.shiftl two_bits 4)) (Z.shiftl two_bits 2))
            (Z.shiftl two_bits 0)).
Definition s2_table_size (gshift : Z) : Z := Z.shiftr (Z.shiftr (Z.shiftl 1 30) gshift) 2.

(** The macro's name says the opposite: it is true of a value that is not a
    multiple of the granule (or does not fit in 36 bits). *)
Definition is_gran_aligned (val : Z) (g : s2_gran) : bool :=
  negb (Z.land val (Z.land (Z.shiftl WHI_PHY_ADDR_MASK (gran_shift g)) WHI_PHY_ADDR_MASK) =? val).

Record smpt_region := MkRegion { r_va : Z; r_pa : Z; r_len : Z }.

(** What a write to an invalidation register asks of the protection cache. *)
Inductive mptc_inv : Set :=
| InvAllVids
| InvRange (vid start_ppn end_ppn : Z).

(** ** State *)

Record s2mpu_info := MkInfo {
  i_fwnode : Z;
  i_regs : gmap Z Z;
  i_ssmt : gmap Z Z;
  i_l1entry_attrs : list Z;
  i_l2table_addrs : list Z;
  i_smpt_regions : list smpt_region;
  i_sids : list Z;
  i_vid : Z;
  i_vmap : gmap Z Z;
  i_phys : gmap Z (list Z);
  i_allocs : nat;
  i_inv : list mptc_inv
}.
#[export] Instance eta_info : Eta s2mpu_info := mk_eta (fun i =>
  MkInfo (i_fwnode i) (i_regs i) (i_ssmt i) (i_l1entry_attrs i) (i_l2table_addrs i) (i_smpt_regions i)
    (i_sids i) (i_vid i) (i_vmap i) (i_phys i) (i_allocs i) (i_inv i)).

(** ** Memory and register access *)

Definition raw_readl (off : Z) : M s2mpu_info Z := fun i => Done (rd (i_regs i) off) i.

(** The invalidation registers act when they are written. *)
Definition mptc_effect (i : s2mpu_info) (v off : Z) : list mptc_inv :=
  if off =? S2MPU_ALL_INVALIDATION then [InvAllVids]
  else if off =? S2MPU_RANGE_INVALIDATION then
    [InvRange (Z.shiftr v S2MPU_RANGE_INVALIDATION_VID_SHIFT)
       (rd (i_regs i) S2MPU_RANGE_INVALIDATION_START_PPN) (rd (i_regs i) S2MPU_RANGE_INVALIDATION_END_PPN)]
  else [].

Definition raw_writel (v off : Z) : M s2mpu_info unit := fun i =>
  Done tt (i <| i_regs := <[off := u32 v]> (i_regs i) |> <| i_inv := i_inv i ++ mptc_effect i (u32 v) off |>).

Definition ssmt_writel (v off : Z) : M s2mpu_info unit :=
  kmod (fun i => i <| i_ssmt := <[off := u32 v]> (i_ssmt i) |>).

(** The bytes behind a CPU address, and their replacement. *)
Definition buf_load (va : Z) : M s2mpu_info (list Z) := fun i =>
  match i_vmap i !! va with
  | Some pa => match i_phys i !! pa with Some bs => Done bs i | None => Fault end
  | None => Fault
  end.
Definition buf_store (va : Z) (bs : list Z) : M s2mpu_info unit := fun i =>
  match i_vmap i !! va with
  | Some pa => match i_phys i !! pa with
               | Some _ => Done tt (i <| i_phys := <[pa := bs]> (i_phys i) |>)
               | None => Fault
               end
  | None => Fault
  end.

(** [a[k] = b] on a buffer; out of range is a stray access. *)
Definition set_byte (bs : list Z) (k : nat) (b : Z) : option (list Z) :=
  match bs !! k with Some _ => Some (<[k := b]> bs) | None => None end.

Definition pt_read (tbl : s2mpu_info -> list Z) (k : Z) : M s2mpu_info Z := fun i =>
  match tbl i !! Z.to_nat k with Some v => Done v i | None => Fault end.
Definition pt_write_l1 (k v : Z) : M s2mpu_info unit := fun i =>
  match set_byte (i_l1entry_attrs i) (Z.to_nat k) v with
  | Some l => Done tt (i <| i_l1entry_attrs := l |>) | None => Fault end.
Definition pt_write_l2 (k v : Z) : M s2mpu_info unit := fun i =>
  match set_byte (i_l2table_addrs i) (Z.to_nat k) v with
  | Some l => Done tt (i <| i_l2table_addrs := l |>) | None => Fault end.

(** A [for] loop over the given indices. *)
Fixpoint for_each {S : Type} (ks : list Z) (body : Z -> M S unit) : M S unit :=
  match ks with
  | [] => kret tt
  | k :: ks' => do! body k in for_each ks' body
  end.

(** The gigabytes that exist: the hole between 4 GB and 34 GB is skipped. *)
Definition gb_low : list Z := seqZ 0 4.
Definition gb_high : list Z := seqZ 34 30.

(** ** Table memory *)

Section Alloc.
Context (dma_alloc : nat -> gmap Z Z -> gmap Z (list Z) -> Z -> option (Z * Z)).

Definition smpt_region_for_pa (pa : Z) : M s2mpu_info (option smpt_region) := fun i =>
  Done (snd <$> list_find (fun r => r_pa r = pa) (i_smpt_regions i)) i.

Definition alloc_smpt (len : Z) : M s2mpu_info (option smpt_region) := fun i =>
  if negb (len =? 128) && negb (len =? 4096) && negb (len =? 64 * 1024) then Done None i
  else
    let i' := i <| i_allocs := S (i_allocs i) |> in
    match dma_alloc (i_allocs i) (i_vmap i) (i_phys i) len with
    | None => Done None i'
    | Some (va, pa) =>
        let r := MkRegion va pa len in
        Done (Some r)
          (i' <| i_vmap := <[va := pa]> (i_vmap i) |> <| i_phys := <[pa := zeros len]> (i_phys i) |>
              <| i_smpt_regions := r :: i_smpt_regions i |>)
    end.

(** [dma_free_coherent]. *)
Definition dma_free (r : smpt_region) : M s2mpu_info unit :=
  kmod (fun i => i <| i_vmap := delete (r_va r) (i_vmap i) |> <| i_phys := delete (r_pa r) (i_phys i) |>).

Definition free_smpt (buf : Z) : M s2mpu_info unit := fun i =>
  if buf =? 0 then Done tt i
  else
    match list_find (fun r => r_va r = buf) (i_smpt_regions i) with
    | None => Done tt i
    | Some (k, r) =>
        (do! kmod (fun i => i <| i_smpt_regions := delete k (i_smpt_regions i) |>) in dma_free r) i
    end.

(** ** Set-up and release *)

Definition ssmt_set_vid : M s2mpu_info unit :=
  let! i := kget in
  for_each (i_sids i) (fun sid =>
    do! ssmt_writel (i_vid i) (0x1000 + 0x4 * sid) in
    ssmt_writel (i_vid i) (0x1200 + 0x4 * sid)).

Definition block_all : Z := l1_attr 0 0 0 0.
Definition allow_all : Z := l1_attr 0 1 1 0.
Definition invalidate_all : Z := Z.shiftl 1 S2MPU_ALL_INVALIDATION_INVALIDATE_SHIFT.
Definition ctrl0_on : Z :=
  Z.lor (Z.lor (Z.shiftl 1 S2MPU_CTRL0_ENABLE_SHIFT) (Z.shiftl 1 S2MPU_CTRL0_INTERRUPT_ENABLE_SHIFT))
        (Z.shiftl 1 S2MPU_CTRL0_FAULT_RESP_TYPE_SHIFT).

(** The [list_for_each_entry_safe] loop: unlink, free. *)
Fixpoint free_regions (rs : list smpt_region) : M s2mpu_info unit :=
  match rs with
  | [] => kret tt
  | r :: rs' =>
      do! kmod (fun i => i <| i_smpt_regions := rs' |>) in
      do! dma_free r in
      free_regions rs'
  end.

Definition s2mpu_lib_deinit : M s2mpu_info unit :=
  let! i := kget in
  do! for_each gb_low (fun gb => raw_writel block_all (S2MPU_L1ENTRY_ATTR (i_vid i) gb)) in
  do! for_each gb_high (fun gb => raw_writel block_all (S2MPU_L1ENTRY_ATTR (i_vid i) gb)) in
  let! reg := raw_readl S2MPU_CTRL0 in
  do! (if Z.land reg 1 =? 0 then raw_writel (Z.lor reg 1) S2MPU_CTRL0 else kret tt) in
  do! raw_writel invalidate_all S2MPU_ALL_INVALIDATION in
  free_regions (i_smpt_regions i).

(** What the handler prints of a fault, and its acknowledgement. *)
Record fault_report := MkFault {
  f_status : Z; f_pa : Z; f_write : bool; f_type : Z; f_info : Z }.

Definition s2mpu_lib_irq_handler : M s2mpu_info fault_report :=
  let! i := kget in
  let! fault_status := raw_readl S2MPU_FAULT_STATUS in
  let! pa_low := raw_readl (S2MPU_FAULT_PA_LOW (i_vid i)) in
  let! pa_high := raw_readl (S2MPU_FAULT_PA_HIGH (i_vid i)) in
  let! fault_info := raw_readl (S2MPU_FAULT_INFO (i_vid i)) in
  let pa_high := Z.land pa_high 0xf in
  let full_pa := Z.lor (Z.shiftl pa_high INT_SHIFT) pa_low in
  do! raw_writel 0xff S2MPU_INTERRUPT_CLEAR in
  kret (MkFault fault_status full_pa (Z.testbit fault_info 20) (S2MPU_FAULT_TYPE fault_info) fault_info).

(** With virtual machine 1 restricted, machine 0 is opened for the other devices
    behind the unit, and the streams to restrict are assigned to machine 1. *)
Definition open_vm0 : M s2mpu_info unit :=
  do! for_each gb_low (fun gb => raw_writel allow_all (S2MPU_L1ENTRY_ATTR 0 gb)) in
  do! for_each gb_high (fun gb => raw_writel allow_all (S2MPU_L1ENTRY_ATTR 0 gb)) in
  ssmt_set_vid.

(** What [s2mpu_lib_init] returns: [NULL], an error pointer, or the instance. *)
Inductive init_result : Set := InitNull | InitErr (e : Z) | InitOk.

(** The part of the set-up that writes the permissions and enables the unit. *)
Definition init_entries (vid : Z) : M s2mpu_info init_result :=
  do! for_each (seqZ 0 8) (fun count =>
        for_each gb_low (fun gb => raw_writel block_all (S2MPU_L1ENTRY_ATTR count gb))) in
  do! for_each gb_low (fun gb => pt_write_l1 gb block_all) in
  do! for_each (seqZ 0 8) (fun count =>
        for_each gb_high (fun gb => raw_writel block_all (S2MPU_L1ENTRY_ATTR count gb))) in
  do! for_each gb_high (fun gb => pt_write_l1 gb block_all) in
  do! (if vid =? 1 then open_vm0 else kret tt) in
  do! raw_writel 0xff S2MPU_INTERRUPT_CLEAR in
  do! raw_writel ctrl0_on S2MPU_CTRL0 in
  do! raw_writel invalidate_all S2MPU_ALL_INVALIDATION in
  kret InitOk.

(** [mem] tells whether [devm_kmalloc] succeeds; the state the operation starts
    in has whatever the allocated memory held before. *)
Definition s2mpu_lib_init (mem : bool) (fwnode vid : Z) (sids : list Z) : M s2mpu_info init_result :=
  if vid >? 1 then kret InitNull
  else if negb mem then kret (InitErr ENOMEM)
  else
    do! kmod (fun i => i <| i_fwnode := fwnode |> <| i_sids := sids |> <| i_vid := vid |>
                         <| i_smpt_regions := [] |>) in
    do! raw_writel 0 S2MPU_CTRL0 in
    do! raw_writel 0 S2MPU_CTRL1 in
    do! raw_writel 0 S2MPU_CFG in
    do! raw_writel 0 S2MPU_CFG_MPTW_USER_LOW in
    do! raw_writel 0 S2MPU_CFG_MPTW_USER_HIGH in
    do! raw_writel 0xff S2MPU_INTERRUPT_ENABLE_PER_VID_SET in
    do! raw_writel 0 S2MPU_MPC_CTRL in
    do! raw_writel 0x00f200f1 S2MPU_PAGE_AWARE_DECODING_0 in
    do! raw_writel 0x00f200f1 S2MPU_PAGE_AWARE_DECODING_1 in
    do! raw_writel 0 S2MPU_PM_CFG in
    init_entries vid.

(** ** Positions in a table *)

Definition gran_of_val (v : Z) : option s2_gran :=
  if v =? 0 then Some S2_GRAN_4KB else if v =? 1 then Some S2_GRAN_64KB
  else if v =? 2 then Some S2_GRAN_2MB else None.

(** [None] is the [BUG_ON]. *)
Definition l1_existing_granularity (l1_entry : Z) : option s2_gran :=
  if S2MPU_L1ENTRY_ATTR_L2TABLE_EN_VALUE l1_entry =? 0 then Some S2_GRAN_1GB
  else gran_of_val (S2MPU_L1ENTRY_ATTR_L2TABLE_GRANULE_VALUE l1_entry).

Definition get_byte_offset (addr : Z) (g : s2_gran) : Z :=
  let addr := Z.land addr 0x3fffffff in
  let addr := Z.shiftr addr (gran_shift g) in
  Z.shiftr addr 2.

Definition get_bit_offset (addr : Z) (g : s2_gran) : Z :=
  let addr := Z.land addr 0x3fffffff in
  let addr := Z.shiftr addr (gran_shift g) in
  let addr := Z.land addr 3 in
  Z.shiftl addr 1.

Definition range_invalidate_mptc_vid_specific (vmid start : Z) (g : s2_gran) : M s2mpu_info unit :=
  let shift := gran_shift g in
  let mask := Z.land (Z.shiftl WHI_PHY_ADDR_MASK shift) WHI_PHY_ADDR_MASK in
  let start := Z.land start mask in
  do! raw_writel (u32 (Z.shiftr start 12)) S2MPU_RANGE_INVALIDATION_START_PPN in
  let start := start + Z.shiftl 1 shift in
  do! raw_writel (u32 (Z.shiftr start 12)) S2MPU_RANGE_INVALIDATION_END_PPN in
  raw_writel (Z.lor (Z.lor (Z.shiftl vmid S2MPU_RANGE_INVALIDATION_VID_SHIFT)
                           (Z.shiftl 1 S2MPU_RANGE_INVALIDATION_VID_SPECIFIC_SHIFT))
                    (Z.shiftl 1 S2MPU_RANGE_INVALIDATION_INVALIDATE_SHIFT)) S2MPU_RANGE_INVALIDATION.

(** ** Splitting a table

    The copies are functions from the old bytes and the new buffer to the new
    buffer's contents; [None] is an access outside a buffer. *)

(** [for (; j < limit; j++) narr[j] = b], [n] iterations from byte [p]. *)
Fixpoint fill_bytes (tbl : list Z) (p n : nat) (b : Z) : option (list Z) :=
  match n with
  | O => Some tbl
  | S n' => match set_byte tbl p b with
            | Some tbl' => fill_bytes tbl' (S p) n' b
            | None => None
            end
  end.

(** The [while (sh < BITS_PER_BYTE)] loop, [p] being the address of [narr[j]]. *)
Fixpoint copy_entries (shs : list Z) (cb : Z) (per : nat) (tbl : list Z) (p : nat) : option (list Z) :=
  match shs with
  | [] => Some tbl
  | sh :: shs' =>
      let entry := Z.land (Z.shiftr cb sh) 3 in
      match fill_bytes tbl p per (extend_to_byte entry) with
      | Some tbl' => copy_entries shs' cb per tbl' (p + per)
      | None => None
      end
  end.

(** The loop on the bytes [i .. i + n - 1] of the current table. *)
Fixpoint copy_decompose_loop (n i : nat) (curr_gran_shift new_gran_shift : Z) (curr_smpt new_smpt : list Z)
  : option (list Z) :=
  match n with
  | O => Some new_smpt
  | S n' =>
      let new_per_curr := Z.shiftr (Z.shiftl 1 curr_gran_shift) new_gran_shift in
      match curr_smpt !! i with
      | None => None
      | Some cb =>
          let nidx := Z.shiftr (Z.shiftl (Z.shiftl (Z.of_nat i) 2) (curr_gran_shift - new_gran_shift)) 2 in
          match copy_entries [0; 2; 4; 6] cb (Z.to_nat (Z.shiftr new_per_curr 2)) new_smpt (Z.to_nat nidx) with
          | Some tbl => copy_decompose_loop n' (S i) curr_gran_shift new_gran_shift curr_smpt tbl
          | None => None
          end
      end
  end.

Definition copy_decompose (curr_gran_shift : Z) (curr_smpt : list Z) (new_gran_shift : Z) (new_smpt : list Z)
  : option (list Z) :=
  let curr_len := Z.shiftr (Z.shiftr (Z.shiftl 1 30) curr_gran_shift) 2 in
  copy_decompose_loop (Z.to_nat curr_len) 0 curr_gran_shift new_gran_shift curr_smpt new_smpt.

Definition copy_decompose_gb (two_bits : Z) (new_smpt : list Z) (len : Z) : option (list Z) :=
  fill_bytes new_smpt 0 (Z.to_nat len) (extend_to_byte (Z.land two_bits 3)).

Definition get_smpt_region (gb_index : Z) : M s2mpu_info (option smpt_region) :=
  let! addr := pt_read i_l2table_addrs gb_index in
  smpt_region_for_pa (Z.shiftl addr 4).

(** Storing what a copy computed, or the stray access. *)
Definition store_copy (va : Z) (res : option (list Z)) : M s2mpu_info unit :=
  match res with Some bs => buf_store va bs | None => kfault end.

(** The first half of [decompose]: a new table with the permissions of the
    current one, which the hardware does not use yet. The result is the new
    region and the CPU address of the table it replaces. *)
Definition decompose_fill (gb_index : Z) (curr_gran new_gran : s2_gran)
  : M s2mpu_info (option (smpt_region * option Z)) :=
  let! r := alloc_smpt (s2_table_size (gran_shift new_gran)) in
  match r with
  | None => kret None
  | Some r =>
      if negb (gran_val curr_gran =? gran_val S2_GRAN_1GB) then
        let! curr_r := get_smpt_region gb_index in
        match curr_r with
        | None => kret None
        | Some curr_r =>
            let! curr_smpt := buf_load (r_va curr_r) in
            let! new_smpt := buf_load (r_va r) in
            do! store_copy (r_va r) (copy_decompose (gran_shift curr_gran) curr_smpt (gran_shift new_gran) new_smpt) in
            kret (Some (r, Some (r_va curr_r)))
        end
      else
        let! l1_entry := pt_read i_l1entry_attrs gb_index in
        let two_bits := Z.lor (Z.shiftl (S2MPU_L1ENTRY_ATTR_WR_ACCESS_VALUE l1_entry) 1)
                              (Z.shiftl (S2MPU_L1ENTRY_ATTR_RD_ACCESS_VALUE l1_entry) 0) in
        let! new_smpt := buf_load (r_va r) in
        do! store_copy (r_va r) (copy_decompose_gb two_bits new_smpt (s2_table_size (gran_shift new_gran))) in
        kret (Some (r, None))
  end.

Definition l2_addr (pa : Z) : Z := Z.land (Z.shiftr pa 4) 0xffffffff.

(** The second half, in two steps: the table's address, then the attribute that
    makes the hardware read it at the new granularity, the driver's copies, and
    the release of the old table. *)
Definition decompose_addr (gb_index : Z) (r : smpt_region) : M s2mpu_info unit :=
  let! i := kget in
  raw_writel (l2_addr (r_pa r)) (S2MPU_L1ENTRY_L2TABLE_ADDR (i_vid i) gb_index).

Definition decompose_commit (gb_index : Z) (new_gran : s2_gran) (r : smpt_region) (curr_smpt : option Z)
  : M s2mpu_info unit :=
  let! i := kget in
  let new_l1 := l1_attr 1 0 0 (gran_val new_gran) in
  do! raw_writel new_l1 (S2MPU_L1ENTRY_ATTR (i_vid i) gb_index) in
  do! pt_write_l2 gb_index (l2_addr (r_pa r)) in
  do! pt_write_l1 gb_index new_l1 in
  match curr_smpt with
  | Some va => free_smpt va
  | None => kret tt
  end.

Definition decompose (gb_index : Z) (curr_gran new_gran : s2_gran) : M s2mpu_info unit :=
  let! filled := decompose_fill gb_index curr_gran new_gran in
  match filled with
  | None => kret tt
  | Some (r, curr_smpt) =>
      do! decompose_addr gb_index r in
      decompose_commit gb_index new_gran r curr_smpt
  end.

(** ** Opening and closing *)

Definition dir_to_mask (dir : dma_data_direction) : dir_mask :=
  match dir with
  | DMA_BIDIRECTIONAL => DIR_BIDRECTIONAL
  | DMA_TO_DEVICE => DIR_READ
  | DMA_FROM_DEVICE => DIR_WRITE
  | DMA_NONE => DIR_NONE
  end.

(** The granule's own bits in a table of its granularity: the [else] branch of
    [eg == g]. *)
Definition smpt_update (start : Z) (eg : s2_gran) (gb_index : Z) (open : bool) (dm : Z) : M s2mpu_info unit :=
  let! i := kget in
  let! r := get_smpt_region gb_index in
  let byte_offset := get_byte_offset start eg in
  match r with
  | None => kret tt
  | Some r =>
      let bit_offset := get_bit_offset start eg in
      if (8 <=? bit_offset) || negb (Z.land bit_offset 1 =? 0) then kret tt
      else
        let! smpt := buf_load (r_va r) in
        match smpt !! Z.to_nat byte_offset with
        | None => kfault
        | Some b =>
            let b := if open then u8 (Z.lor b (Z.shiftl dm bit_offset))
                     else u8 (Z.land b (Z.lnot (Z.shiftl 3 bit_offset))) in
            do! store_copy (r_va r) (set_byte smpt (Z.to_nat byte_offset) b) in
            range_invalidate_mptc_vid_specific (i_vid i) start eg
        end
  end.

(** The whole gigabyte, in its level-1 entry. *)
Definition l1_update (start gb_index l1_entry : Z) (open : bool) (dm : Z) : M s2mpu_info unit :=
  let! i := kget in
  let one_gb_rw := Z.shiftl dm S2MPU_L1ENTRY_ATTR_RD_ACCESS_SHIFT in
  let l1_entry := if open then Z.lor l1_entry one_gb_rw
                  else Z.land l1_entry (Z.lnot (Z.shiftl 3 S2MPU_L1ENTRY_ATTR_RD_ACCESS_SHIFT)) in
  do! raw_writel l1_entry (S2MPU_L1ENTRY_ATTR (i_vid i) gb_index) in
  do! range_invalidate_mptc_vid_specific (i_vid i) start S2_GRAN_1GB in
  pt_write_l1 gb_index l1_entry.

(** [open_close_granules], over the function that treats one granule. *)
Fixpoint granules (granule : Z -> M s2mpu_info unit) (start : Z) (win_gran : s2_gran) (gcount : nat)
  : M s2mpu_info unit :=
  match gcount with
  | O => kret tt
  | S n => do! granule start in granules granule (start + Z.shiftl 1 (gran_shift win_gran)) win_gran n
  end.

(** The recursion of [open_close_granule] is bounded by [fuel] calls deep;
    [Blocked] when it goes deeper. *)
Fixpoint open_close_granule (fuel : nat) (open : bool) (dir : dma_data_direction) (g : s2_gran) (start : Z)
  : M s2mpu_info unit :=
  match fuel with
  | O => kblock
  | S fuel' =>
      let gb_index := u32 (Z.shiftr start (gran_shift S2_GRAN_1GB)) in
      match dir with
      | DMA_NONE => kret tt
      | _ =>
          let dm := dir_mask_val (dir_to_mask dir) in
          if gb_index >=? 64 then kret tt
          else
            let! l1_entry := pt_read i_l1entry_attrs gb_index in
            match l1_existing_granularity l1_entry with
            | None => kfault
            | Some eg =>
                if gran_val eg =? gran_val g then
                  if gran_val eg =? gran_val S2_GRAN_1GB then l1_update start gb_index l1_entry open dm
                  else smpt_update start eg gb_index open dm
                else if gran_val eg <? gran_val g then
                  let gcount := Z.to_nat (Z.shiftl 1 (gran_shift g - gran_shift eg)) in
                  granules (open_close_granule fuel' open dir eg) start eg gcount
                else
                  do! decompose gb_index eg g in
                  open_close_granule fuel' open dir g start
            end
      end
  end.

Definition open_close_granules (fuel : nat) (start : Z) (win_gran : s2_gran) (gcount : Z) (open : bool)
    (dir : dma_data_direction) : M s2mpu_info unit :=
  granules (open_close_granule fuel open dir win_gran) start win_gran (Z.to_nat gcount).

Definition get_gran (num : Z) : option s2_gran :=
  let aligned g := Z.land num (u64 (Z.shiftl 0xffffffffffffffff (gran_shift g))) =? num in
  if aligned S2_GRAN_1GB then Some S2_GRAN_1GB
  else if aligned S2_GRAN_2MB then Some S2_GRAN_2MB
  else if aligned S2_GRAN_64KB then Some S2_GRAN_64KB
  else if aligned S2_GRAN_4KB then Some S2_GRAN_4KB
  else None.

Definition validate (pa len : Z) : Z :=
  if pa <? WHI_RESERVED_START then
    if u64 (pa + len) >? WHI_RESERVED_START then -1
    else if is_gran_aligned pa S2_GRAN_4KB then -1
    else if is_gran_aligned len S2_GRAN_4KB then -1
    else 0
  else if pa <=? WHI_RESERVED_END then -1
  else if is_gran_aligned pa S2_GRAN_4KB then -1
  else if is_gran_aligned len S2_GRAN_4KB then -1
  else 0.

Definition s2mpu_lib_open_close (fuel : nat) (start len : Z) (open : bool) (dir : dma_data_direction)
  : M s2mpu_info Z :=
  let ret := validate start len in
  if negb (ret =? 0) then kret ret
  else
    match get_gran start, get_gran len with
    | Some ag, Some lg =>
        let winnerg := if gran_val ag <? gran_val lg then ag else lg in
        let gcount := Z.shiftr len (gran_shift winnerg) in
        do! open_close_granules fuel start winnerg gcount open dir in
        kret ret
    | _, _ => kret (- EINVAL)
    end.

Definition s2mpu_lib_restore : M s2mpu_info Z :=
  let! i := kget in
  let restore_gb gb :=
    let! a := pt_read i_l2table_addrs gb in
    do! raw_writel a (S2MPU_L1ENTRY_L2TABLE_ADDR (i_vid i) gb) in
    let! t := pt_read i_l1entry_attrs gb in
    raw_writel t (S2MPU_L1ENTRY_ATTR (i_vid i) gb) in
  do! for_each gb_low restore_gb in
  do! for_each gb_high restore_gb in
  do! (if i_vid i =? 1 then open_vm0 else kret tt) in
  do! raw_writel ctrl0_on S2MPU_CTRL0 in
  do! raw_writel invalidate_all S2MPU_ALL_INVALIDATION in
  kret 0.

End Alloc.
