(* ===== verification/S2mpuTables.v ===== *)
(** * Permission tables

    A table of two-bit entries, what one entry is, and what the driver's byte
    arithmetic does to the entries: setting or clearing one, and splitting a
    table into a finer one. *)

From S2P Require Import Prelude S2mpu.

#[local] Arguments Z.mul : simpl never.
#[local] Arguments Z.pow : simpl never.
#[local] Arguments Z.shiftl : simpl never.
#[local] Arguments Z.shiftr : simpl never.
#[local] Arguments Z.land : simpl never.

(** ** Entries *)

(** Entry [k] of a byte; bit 0 allows reads, bit 1 writes. *)
Definition two_bits (b k : Z) : Z := Z.land (Z.shiftr b (2 * k)) 3.

(** Entry [e] of a table: four entries to a byte. *)
Definition entry_of (bs : list Z) (e : Z) : option Z :=
  (fun b => two_bits b (e mod 4)) <$> bs !! Z.to_nat (e / 4).

Definition is_byte (b : Z) : Prop := 0 <= b < 256.

(** The permission after opening for the directions [dm], or closing. *)
Definition perm_upd (open : bool) (dm p : Z) : Z := if open then Z.lor p dm else 0.

(** Statements about small numbers, decided by trying them all. *)
Lemma small_forall (n : Z) (P : Z -> bool) : forallb P (seqZ 0 n) = true -> forall x, 0 <= x < n -> P x = true.
Proof. rewrite forallb_forall. intros H x Hx. apply H, list_elem_of_In, elem_of_seqZ. lia. Qed.

Lemma two_bits_range b k : 0 <= two_bits b k < 4.
Proof. unfold two_bits. rewrite (land_low _ 2) by lia. by apply Z.mod_pos_bound. Qed.

(** The driver's update of a byte changes the entry at its bit offset and no other. *)
Lemma byte_update (open : bool) b k k' dm :
  is_byte b -> 0 <= k < 4 -> 0 <= k' < 4 -> 0 <= dm < 4 ->
  let b' := if open then u8 (Z.lor b (Z.shiftl dm (2 * k))) else u8 (Z.land b (Z.lnot (Z.shiftl 3 (2 * k)))) in
  is_byte b' /\ two_bits b' k' = if k' =? k then perm_upd open dm (two_bits b k') else two_bits b k'.
Proof.
  intros Hb Hk Hk' Hd b'. split; [destruct open; by apply Z.mod_pos_bound|].
  assert (C : forallb (fun b => forallb (fun k => forallb (fun k' => forallb (fun dm =>
      forallb (fun open : bool =>
      let b' := if open then u8 (Z.lor b (Z.shiftl dm (2 * k))) else u8 (Z.land b (Z.lnot (Z.shiftl 3 (2 * k)))) in
      two_bits b' k' =? if k' =? k then perm_upd open dm (two_bits b k') else two_bits b k') [true; false])
      (seqZ 0 4)) (seqZ 0 4)) (seqZ 0 4)) (seqZ 0 256) = true) by (vm_compute; reflexivity).
  eapply small_forall in C; [|exact Hb]. eapply small_forall in C; [|exact Hk].
  eapply small_forall in C; [|exact Hk']. eapply small_forall in C; [|exact Hd].
  rewrite forallb_forall in C. apply Z.eqb_eq, (C open). destruct open; simpl; auto.
Qed.

(** A byte of four equal entries. *)
Lemma extend_entries p k : 0 <= p < 4 -> 0 <= k < 4 -> two_bits (extend_to_byte p) k = p.
Proof.
  intros Hp Hk.
  assert (C : forallb (fun p => forallb (fun k => two_bits (extend_to_byte p) k =? p) (seqZ 0 4)) (seqZ 0 4) = true)
    by (vm_compute; reflexivity).
  eapply small_forall in C; [|exact Hp]. eapply small_forall in C; [|exact Hk]. by apply Z.eqb_eq.
Qed.

Lemma extend_byte p : is_byte (extend_to_byte p).
Proof. by apply Z.mod_pos_bound. Qed.

(** ** Positions *)

(** The number of entries and bytes of a table. *)
Definition gran_entries (g : s2_gran) : Z := 2 ^ (30 - gran_shift g).

Definition entry_index (a : Z) (g : s2_gran) : Z := a mod 2 ^ 30 / 2 ^ gran_shift g.

Lemma gran_shift_range g : 12 <= gran_shift g <= 30.
Proof. destruct g; simpl; lia. Qed.

Lemma table_size_entries g : 4 * s2_table_size (gran_shift g) = gran_entries g \/ g = S2_GRAN_1GB.
Proof. destruct g; vm_compute; auto. Qed.

Lemma entry_index_range a g : 0 <= entry_index a g < gran_entries g.
Proof.
  unfold entry_index, gran_entries. pose proof (Z.mod_pos_bound a (2 ^ 30) ltac:(lia)).
  destruct g; simpl gran_shift; change (2 ^ (30 - 12)) with 262144; change (2 ^ (30 - 16)) with 16384;
    change (2 ^ (30 - 21)) with 512; change (2 ^ (30 - 30)) with 1; dlia.
Qed.

Lemma byte_offset_index a g : get_byte_offset a g = entry_index a g / 4.
Proof.
  unfold get_byte_offset, entry_index. change 0x3fffffff with (2 ^ 30 - 1). rewrite land_low by lia.
  pose proof (gran_shift_range g). by rewrite !Z.shiftr_div_pow2 by lia.
Qed.

Lemma bit_offset_index a g : get_bit_offset a g = 2 * (entry_index a g mod 4).
Proof.
  unfold get_bit_offset, entry_index. change 0x3fffffff with (2 ^ 30 - 1). rewrite land_low by lia.
  pose proof (gran_shift_range g). rewrite Z.shiftr_div_pow2, (land_low _ 2), Z.shiftl_mul_pow2 by lia. apply Z.mul_comm.
Qed.

(** ** One entry of a table *)

Lemma entry_lookup bs e : 0 <= e < 4 * Z.of_nat (length bs) -> Forall is_byte bs ->
  exists b, bs !! Z.to_nat (e / 4) = Some b /\ is_byte b /\ entry_of bs e = Some (two_bits b (e mod 4)).
Proof.
  intros He Hb. destruct (lookup_lt_is_Some_2 bs (Z.to_nat (e / 4))) as [b E]; [dlia|].
  exists b. unfold entry_of. rewrite E. split_and!; auto.
  by apply (Forall_lookup_1 _ _ _ _ Hb E).
Qed.

(** Replacing the byte of entry [e] by one that differs in that entry only. *)
Lemma entry_update bs e b v e' :
  0 <= e -> 0 <= e' -> bs !! Z.to_nat (e / 4) = Some v ->
  (forall k, 0 <= k < 4 -> k <> e mod 4 -> two_bits b k = two_bits v k) ->
  entry_of (<[Z.to_nat (e / 4) := b]> bs) e' =
  if e' =? e then Some (two_bits b (e mod 4)) else entry_of bs e'.
Proof.
  intros He He' E Hk. unfold entry_of. pose proof (lookup_lt_Some _ _ _ E) as Hl.
  destruct (decide (e' / 4 = e / 4)) as [Heq|Hne].
  - rewrite Heq, list_lookup_insert_eq, E by done. simpl.
    destruct (Z.eqb_spec e' e) as [->|Hne]; [done|]. f_equal. apply Hk; dlia.
  - rewrite list_lookup_insert_ne by dlia.
    destruct (Z.eqb_spec e' e) as [->|]; [done|done].
Qed.

(** ** Splitting *)

Lemma fill_bytes_spec n : forall tbl p b, (p + n <= length tbl)%nat ->
  exists tbl', fill_bytes tbl p n b = Some tbl' /\ length tbl' = length tbl /\
    forall k, tbl' !! k = if decide (p <= k < p + n)%nat then Some b else tbl !! k.
Proof.
  induction n as [|n IH]; intros tbl p b Hl; simpl.
  - exists tbl. split_and!; auto. intros k. case_decide; [lia|done].
  - unfold set_byte. destruct (lookup_lt_is_Some_2 tbl p) as [v ->]; [lia|].
    destruct (IH (<[p := b]> tbl) (S p) b) as (t & Ht & Hlen & Hlk); [rewrite length_insert; lia|].
    exists t. split_and!; auto; [by rewrite Hlen, length_insert|].
    intros k. rewrite Hlk. repeat case_decide; try lia; [done| |].
    + assert (k = p) as -> by lia. apply list_lookup_insert_eq. lia.
    + apply list_lookup_insert_ne. lia.
Qed.

(** The bytes one byte of the current table expands into. *)
Definition expansion (cb : Z) (per k : nat) : Z := extend_to_byte (two_bits cb (Z.of_nat (k / per))).

Lemma copy_entries_spec per cb : (0 < per)%nat -> forall n s tbl p,
  (p + n * per <= length tbl)%nat ->
  exists tbl', copy_entries (map (fun k => 2 * Z.of_nat k) (seq s n)) cb per tbl p = Some tbl' /\
    length tbl' = length tbl /\
    forall k, tbl' !! k = if decide (p <= k < p + n * per)%nat
                          then Some (expansion cb per (s * per + (k - p))) else tbl !! k.
Proof.
  intros Hp. induction n as [|n IH]; intros s tbl p Hl; simpl.
  - exists tbl. split_and!; auto. intros k. case_decide; [lia|done].
  - destruct (fill_bytes_spec per tbl p (extend_to_byte (Z.land (Z.shiftr cb (2 * Z.of_nat s)) 3)))
      as (t1 & -> & Hl1 & Hk1); [lia|].
    destruct (IH (S s) t1 (p + per)%nat) as (t2 & Ht2 & Hl2 & Hk2); [lia|].
    exists t2. split_and!; auto; [lia|]. intros k. rewrite Hk2, Hk1.
    repeat case_decide; try lia; [| |done].
    + do 2 f_equal. simpl. lia.
    + unfold expansion, two_bits. by rewrite Nat.div_add_l, (Nat.div_small (k - p)), Nat.add_0_r by lia.
Qed.

Lemma copy_decompose_loop_spec cs ns per : (0 < per)%nat ->
  (forall i, Z.to_nat (Z.shiftr (Z.shiftl (Z.shiftl (Z.of_nat i) 2) (cs - ns)) 2) = (i * (4 * per))%nat) ->
  Z.to_nat (Z.shiftr (Z.shiftr (Z.shiftl 1 cs) ns) 2) = per ->
  forall n i curr tbl, (i + n <= length curr)%nat -> ((i + n) * (4 * per) <= length tbl)%nat ->
  exists tbl', copy_decompose_loop n i cs ns curr tbl = Some tbl' /\ length tbl' = length tbl /\
    forall k, tbl' !! k = if decide (i * (4 * per) <= k < (i + n) * (4 * per))%nat
                          then (fun cb => expansion cb per (k mod (4 * per))) <$> curr !! (k / (4 * per))%nat
                          else tbl !! k.
Proof.
  intros Hp Hidx Hper. induction n as [|n IH]; intros i curr tbl Hc Ht; cbn [copy_decompose_loop].
  - exists tbl. split_and!; auto. intros k. case_decide; [lia|done].
  - rewrite Hper, Hidx. destruct (lookup_lt_is_Some_2 curr i) as [cb Hcb]; [lia|]. rewrite Hcb.
    destruct (copy_entries_spec per cb Hp 4 0 tbl (i * (4 * per))) as (t1 & Ht1 & Hl1 & Hk1); [nia|].
    change (map _ (seq 0 4)) with [0; 2; 4; 6] in Ht1. rewrite Ht1.
    destruct (IH (S i) curr t1) as (t2 & Ht2 & Hl2 & Hk2); [lia|nia|].
    exists t2. split_and!; auto; [lia|]. intros k. rewrite Hk2, Hk1.
    repeat case_decide; try nia; [done| |done].
    rewrite <- (Nat.div_unique k (4 * per) i (k - i * (4 * per))) by nia.
    rewrite <- (Nat.mod_unique k (4 * per) i (k - i * (4 * per))) by nia. by rewrite Hcb.
Qed.

(** The byte holding an entry of the finer table, and the entry it comes from:
    [n] is the byte, [q] the entry of the coarser table. *)
Lemma entry_expansion (curr : list Z) m (n per : nat) q :
  (0 < per)%nat -> 0 <= m < 4 -> q = Z.of_nat (n / per) ->
  (fun b => two_bits b m) <$> ((fun cb => expansion cb per (n mod (4 * per))) <$> curr !! (n / (4 * per))%nat) =
  (fun b => two_bits b (q mod 4)) <$> curr !! Z.to_nat (q / 4).
Proof.
  intros Hp Hm ->. rewrite !(Nat.mul_comm 4 per).
  replace (Z.to_nat (Z.of_nat (n / per) / 4)) with (n / (per * 4))%nat.
  - destruct (curr !! _) as [cb|]; simpl; [|done]. f_equal. unfold expansion.
    rewrite extend_entries by auto using two_bits_range. f_equal.
    rewrite Nat.Div0.mod_mul_r, (Nat.mul_comm per), Nat.div_add by lia.
    rewrite Nat.div_small by (apply Nat.mod_upper_bound; lia). rewrite Nat.add_0_l. apply Nat2Z.inj_mod.
  - rewrite <- Nat.Div0.div_div. change 4 with (Z.of_nat 4).
    by rewrite <- Nat2Z.inj_div, Nat2Z.id.
Qed.

(** The reference: entry [e] of the finer table is the entry of the coarser one
    whose granule contains it. *)
Definition refines_table (cs ns : Z) (curr new : list Z) : Prop :=
  forall e, 0 <= e < 4 * Z.of_nat (length new) -> entry_of new e = entry_of curr (e / 2 ^ (cs - ns)).

Definition finer (new curr : s2_gran) : Prop := gran_val new < gran_val curr /\ curr <> S2_GRAN_1GB.

Lemma copy_decompose_spec curr_gran new_gran curr new :
  finer new_gran curr_gran ->
  Z.of_nat (length curr) = s2_table_size (gran_shift curr_gran) ->
  Z.of_nat (length new) = s2_table_size (gran_shift new_gran) ->
  exists tbl, copy_decompose (gran_shift curr_gran) curr (gran_shift new_gran) new = Some tbl /\
    length tbl = length new /\ Forall is_byte tbl /\
    refines_table (gran_shift curr_gran) (gran_shift new_gran) curr tbl.
Proof.
  intros [Hf H1] Hc Hn. set (cs := gran_shift curr_gran) in *. set (ns := gran_shift new_gran) in *.
  assert (Hd : 4 <= cs - ns <= 9 /\ s2_table_size ns = s2_table_size cs * 2 ^ (cs - ns) /\ cs <= 30 /\ 12 <= ns).
  { destruct curr_gran, new_gran; simpl in Hf; try lia; subst cs ns; vm_compute; intuition discriminate. }
  destruct Hd as (Hd & Hsz & Hcs & Hns).
  set (per := Z.to_nat (2 ^ (cs - ns - 2))).
  assert (Hper : Z.of_nat (4 * per) = 2 ^ (cs - ns)).
  { unfold per. rewrite Nat2Z.inj_mul, Z2Nat.id by lia. replace (cs - ns) with (2 + (cs - ns - 2)) at 2 by lia.
    by rewrite Z.pow_add_r by lia. }
  assert (0 < per)%nat by (pose proof (Z.pow_pos_nonneg 2 (cs - ns)); lia).
  assert (Hlen : length new = (length curr * (4 * per))%nat) by nia.
  destruct (copy_decompose_loop_spec cs ns per) with (n := length curr) (i := 0%nat) (curr := curr) (tbl := new)
    as (t & Ht & Hl & Hk); try done; try lia.
  - intros i. rewrite Z.shiftr_div_pow2, !Z.shiftl_mul_pow2 by lia. change (2 ^ 2) with 4.
    rewrite <- Hper. rewrite <- Z.mul_assoc, (Z.mul_comm 4), Z.mul_assoc, Z.div_mul by lia. lia.
  - unfold per. f_equal. rewrite !Z.shiftr_div_pow2, Z.shiftl_1_l by lia.
    rewrite <- Z.pow_sub_r by lia. by rewrite <- (Z.pow_sub_r 2 (cs - ns) 2) by lia.
  - unfold copy_decompose. fold (s2_table_size cs). rewrite <- Hc, Nat2Z.id. exists t. split_and!; auto.
    + apply Forall_lookup. intros k b. rewrite Hk. case_decide; intros Hb.
      * apply fmap_Some in Hb as (? & _ & ->). apply extend_byte.
      * apply lookup_lt_Some in Hb. lia.
    + intros e He. rewrite Hl in He. unfold entry_of. rewrite Hk. case_decide; [|dlia].
      apply (entry_expansion _ (e mod 4)); [done|dlia|].
      rewrite <- Hper, Nat2Z.inj_mul, <- Z.div_div by lia. change (Z.of_nat 4) with 4.
      rewrite <- (Z2Nat.id (e / 4)) at 1 by dlia. by rewrite <- Nat2Z.inj_div.
Qed.

Lemma copy_decompose_gb_spec p new :
  exists tbl, copy_decompose_gb p new (Z.of_nat (length new)) = Some tbl /\
    length tbl = length new /\ Forall is_byte tbl /\
    forall e, 0 <= e < 4 * Z.of_nat (length new) -> entry_of tbl e = Some (Z.land p 3).
Proof.
  unfold copy_decompose_gb. rewrite Nat2Z.id.
  destruct (fill_bytes_spec (length new) new 0 (extend_to_byte (Z.land p 3))) as (t & -> & Hl & Hk); [lia|].
  exists t. split_and!; auto.
  - apply Forall_lookup. intros k b. rewrite Hk. case_decide; intros Hb.
    + simplify_eq. apply extend_byte.
    + apply lookup_lt_Some in Hb. lia.
  - intros e He. unfold entry_of. rewrite Hk. case_decide; [|dlia]. simpl. f_equal.
    apply extend_entries; [rewrite (land_low _ 2) by lia; by apply Z.mod_pos_bound|dlia].
Qed.
