(* ===== verification/S2mpuFacts.v ===== *)
(** * What the hardware permits, and the invariant of an S2MPU

    [hw_perm i a] is the permission the unit applies to address [a]: it reads the
    level-1 attribute of the gigabyte and, when that enables a table, the entry
    of the table the address register points to. [inv] says that the driver's
    copies agree with the registers, that each gigabyte with a table owns one
    region of the right size, that no two share one, and that there are no other
    regions. *)

From S2P Require Import Prelude S2mpu S2mpuTables.

#[local] Arguments Z.mul : simpl never.
#[local] Arguments Z.pow : simpl never.
#[local] Arguments Z.shiftl : simpl never.
#[local] Arguments Z.shiftr : simpl never.
#[local] Arguments Z.land : simpl never.
#[local] Arguments Z.lor : simpl never.
#[local] Arguments u32 : simpl never.

(** ** The hardware's view *)

(** What governs one gigabyte: its own two bits, or a table. *)
Inductive gb_view : Type :=
| Whole (p : Z)
| Table (g : s2_gran) (bs : list Z).

Definition view_of (i : s2mpu_info) (gb : Z) : option gb_view :=
  let attr := rd (i_regs i) (S2MPU_L1ENTRY_ATTR (i_vid i) gb) in
  match l1_existing_granularity attr with
  | None => None
  | Some S2_GRAN_1GB => Some (Whole (Z.land (Z.shiftr attr 1) 3))
  | Some g => Table g <$> i_phys i !! Z.shiftl (rd (i_regs i) (S2MPU_L1ENTRY_L2TABLE_ADDR (i_vid i) gb)) 4
  end.

Definition view_perm (v : gb_view) (a : Z) : option Z :=
  match v with
  | Whole p => Some p
  | Table g bs => entry_of bs (entry_index a g)
  end.

Definition view_gran (v : gb_view) : s2_gran := match v with Whole _ => S2_GRAN_1GB | Table g _ => g end.

Definition hw_perm (i : s2mpu_info) (a : Z) : option Z := v ← view_of i (a / 2 ^ 30); view_perm v a.

(** The gigabytes that exist. *)
Definition populated (gb : Z) : Prop := 0 <= gb < 4 \/ 34 <= gb < 64.
#[export] Instance populated_dec gb : Decision (populated gb).
Proof. unfold populated. apply _. Defined.

(** ** The invariant *)

Definition region_ok (i : s2mpu_info) (r : smpt_region) : Prop :=
  r_va r <> 0 /\ i_vmap i !! r_va r = Some (r_pa r) /\ 0 <= r_pa r < 2 ^ 36 /\ r_pa r mod 16 = 0 /\
  exists bs, i_phys i !! r_pa r = Some bs /\ Z.of_nat (length bs) = r_len r /\ Forall is_byte bs.

Definition gb_ok (own : gmap Z smpt_region) (i : s2mpu_info) (gb : Z) : Prop :=
  exists attr, i_l1entry_attrs i !! Z.to_nat gb = Some attr /\ 0 <= attr < 2 ^ 32 /\
    rd (i_regs i) (S2MPU_L1ENTRY_ATTR (i_vid i) gb) = attr /\
    match l1_existing_granularity attr with
    | None => False
    | Some S2_GRAN_1GB => own !! gb = None
    | Some g => exists r, own !! gb = Some r /\
        rd (i_regs i) (S2MPU_L1ENTRY_L2TABLE_ADDR (i_vid i) gb) = l2_addr (r_pa r) /\
        i_l2table_addrs i !! Z.to_nat gb = Some (l2_addr (r_pa r)) /\
        r_len r = s2_table_size (gran_shift g)
    end.

(** [ex] is a gigabyte whose entry is being replaced. *)
Record inv (ex : option Z) (own : gmap Z smpt_region) (i : s2mpu_info) : Prop := MkInv {
  inv_vid : 0 <= i_vid i <= 1;
  inv_l1 : length (i_l1entry_attrs i) = WHI_MAX_GB_GRANULES;
  inv_l2 : length (i_l2table_addrs i) = WHI_MAX_GB_GRANULES;
  inv_gb : forall gb, populated gb -> ex <> Some gb -> gb_ok own i gb;
  inv_own : forall gb r, own !! gb = Some r -> populated gb /\ ex <> Some gb /\ region_ok i r;
  inv_inj : forall gb gb' r r', own !! gb = Some r -> own !! gb' = Some r' ->
    r_pa r = r_pa r' \/ r_va r = r_va r' -> gb = gb';
  inv_list : i_smpt_regions i ≡ₚ (map_to_list own).*2;
  inv_size : size (i_vmap i) = size own;
  inv_psize : size (i_phys i) = size own
}.

Definition s2mpu_wf (i : s2mpu_info) : Prop := exists own, inv None own i.

(** What the driver relies on in [dma_alloc_coherent]: buffers are not null, do
    not overlap live ones, fit the 36-bit mask set by the probe, and are aligned
    to their size. *)
Class DmaAlloc (dma_alloc : nat -> gmap Z Z -> gmap Z (list Z) -> Z -> option (Z * Z)) : Prop :=
  dma_fresh : forall t vm ph len va pa, dma_alloc t vm ph len = Some (va, pa) ->
    va <> 0 /\ vm !! va = None /\ ph !! pa = None /\ 0 <= pa < 2 ^ 36 /\ pa mod len = 0.

(** There is memory for one table per gigabyte, and one more while a table is
    replaced. *)
Class DmaReady (dma_alloc : nat -> gmap Z Z -> gmap Z (list Z) -> Z -> option (Z * Z)) : Prop :=
  dma_ready : forall t vm ph len, len = 128 \/ len = 4096 \/ len = 65536 ->
    (size vm <= 64)%nat -> (size ph <= 64)%nat -> is_Some (dma_alloc t vm ph len).

(** ** Words *)

Lemma lor_bound n x y : 0 <= n -> 0 <= x < 2 ^ n -> 0 <= y < 2 ^ n -> 0 <= Z.lor x y < 2 ^ n.
Proof.
  intros Hn Hx Hy. replace (Z.lor x y) with (Z.lor x y mod 2 ^ n); [apply Z.mod_pos_bound; lia|].
  rewrite <- land_low, Z.land_lor_distr_l, !land_low by lia. by rewrite !Z.mod_small by lia.
Qed.

Lemma land_bound n x y : 0 <= n -> 0 <= x < 2 ^ n -> 0 <= Z.land x y < 2 ^ n.
Proof.
  intros Hn Hx. replace (Z.land x y) with (Z.land x y mod 2 ^ n); [apply Z.mod_pos_bound; lia|].
  rewrite <- land_low, <- Z.land_assoc, (Z.land_comm y), Z.land_assoc, land_low by lia.
  by rewrite Z.mod_small by lia.
Qed.

(** The level-1 address field holds a bus address exactly. *)
Lemma l2_addr_pa pa : 0 <= pa < 2 ^ 36 -> pa mod 16 = 0 -> Z.shiftl (l2_addr pa) 4 = pa.
Proof.
  intros H Ha. unfold l2_addr. change 0xffffffff with (2 ^ 32 - 1).
  rewrite land_low, Z.shiftr_div_pow2, Z.shiftl_mul_pow2 by lia. change (2 ^ 4) with 16. dlia.
Qed.

Lemma l2_addr_range pa : 0 <= l2_addr pa < 2 ^ 32.
Proof. unfold l2_addr. change 0xffffffff with (2 ^ 32 - 1). rewrite land_low by lia. by apply Z.mod_pos_bound. Qed.

(** ** Attributes *)

Lemma gran_whole attr : l1_existing_granularity attr = Some S2_GRAN_1GB <-> Z.land attr 1 = 0.
Proof.
  unfold l1_existing_granularity, S2MPU_L1ENTRY_ATTR_L2TABLE_EN_VALUE. change (Z.shiftl 1 _) with 1.
  change S2MPU_L1ENTRY_ATTR_L2TABLE_EN_SHIFT with 0. rewrite Z.shiftr_0_r.
  destruct (Z.eqb_spec (Z.land attr 1) 0) as [->|Hne]; [done|].
  unfold gran_of_val. repeat case_match; split; congruence.
Qed.

Lemma gran_l1_attr g : g <> S2_GRAN_1GB -> l1_existing_granularity (l1_attr 1 0 0 (gran_val g)) = Some g.
Proof. destruct g; done. Qed.

Lemma l1_attr_range g : 0 <= l1_attr 1 0 0 (gran_val g) < 2 ^ 32.
Proof. destruct g; vm_compute; intuition discriminate. Qed.

(** The driver's update of a whole gigabyte. *)
Definition l1_upd (open : bool) (dm attr : Z) : Z :=
  if open then Z.lor attr (Z.shiftl dm 1) else Z.land attr (Z.lnot (Z.shiftl 3 1)).

Lemma l1_upd_gran open dm attr :
  l1_existing_granularity attr = Some S2_GRAN_1GB -> l1_existing_granularity (l1_upd open dm attr) = Some S2_GRAN_1GB.
Proof.
  rewrite !gran_whole. unfold l1_upd. intros H. destruct open.
  - rewrite Z.land_lor_distr_l, H, Z.lor_0_l, Z.shiftl_mul_pow2, (land_low _ 1) by lia. by apply Z.mod_mul.
  - by rewrite <- Z.land_assoc.
Qed.

Lemma l1_upd_range open dm attr : 0 <= attr < 2 ^ 32 -> 0 <= dm < 4 -> 0 <= l1_upd open dm attr < 2 ^ 32.
Proof.
  intros. destruct open; unfold l1_upd; [|by apply land_bound].
  apply lor_bound; [done..|]. rewrite Z.shiftl_mul_pow2 by lia. change (2 ^ 1) with 2. lia.
Qed.

Lemma l1_upd_perm open dm attr : 0 <= dm < 4 ->
  Z.land (Z.shiftr (l1_upd open dm attr) 1) 3 = perm_upd open dm (Z.land (Z.shiftr attr 1) 3).
Proof.
  intros Hd. destruct open; unfold l1_upd, perm_upd.
  - rewrite Z.shiftr_lor, Z.land_lor_distr_l. f_equal.
    rewrite Z.shiftr_shiftl_l by lia. change (1 - 1) with 0. rewrite Z.shiftl_0_r, (land_low _ 2) by lia.
    by apply Z.mod_small.
  - rewrite Z.shiftr_land, <- Z.land_assoc. change (Z.land (Z.shiftr (Z.lnot (Z.shiftl 3 1)) 1) 3) with 0.
    apply Z.land_0_r.
Qed.

(** A one-bit field. *)
Lemma flag_value x k : 0 <= k -> Z.shiftr (Z.land x (Z.shiftl 1 k)) k = x / 2 ^ k mod 2.
Proof.
  intros Hk. rewrite Z.shiftr_land, Z.shiftr_shiftl_l, Z.sub_diag, Z.shiftl_0_r, (land_low _ 1) by lia.
  by rewrite Z.shiftr_div_pow2 by lia.
Qed.

(** The two bits the level-1 attribute gives the whole gigabyte. *)
Lemma l1_two_bits attr :
  Z.land (Z.lor (Z.shiftl (S2MPU_L1ENTRY_ATTR_WR_ACCESS_VALUE attr) 1)
                (Z.shiftl (S2MPU_L1ENTRY_ATTR_RD_ACCESS_VALUE attr) 0)) 3 = Z.land (Z.shiftr attr 1) 3.
Proof.
  unfold S2MPU_L1ENTRY_ATTR_WR_ACCESS_VALUE, S2MPU_L1ENTRY_ATTR_RD_ACCESS_VALUE.
  rewrite !flag_value, Z.shiftl_0_r by done. change (2 ^ S2MPU_L1ENTRY_ATTR_WR_ACCESS_SHIFT) with 4.
  change (2 ^ S2MPU_L1ENTRY_ATTR_RD_ACCESS_SHIFT) with 2.
  rewrite Z.shiftl_mul_pow2, (lor_low _ _ 1), !(land_low _ 2), Z.shiftr_div_pow2 by dlia.
  change (2 ^ 1) with 2. change (2 ^ 2) with 4. dlia.
Qed.

(** ** Regions and tables *)

Lemma regions_own ex own i r : inv ex own i -> r ∈ i_smpt_regions i <-> exists gb, own !! gb = Some r.
Proof.
  intros H. rewrite (inv_list _ _ _ H), list_elem_of_fmap. split.
  - intros ([gb r'] & -> & Hin). exists gb. by apply elem_of_map_to_list.
  - intros [gb E]. exists (gb, r). split; [done|]. by apply elem_of_map_to_list.
Qed.

Lemma list_find_unique {A} (P : A -> Prop) `{!forall x, Decision (P x)} l r :
  r ∈ l -> P r -> (forall x, x ∈ l -> P x -> x = r) -> exists k, list_find P l = Some (k, r) /\ l !! k = Some r.
Proof.
  intros Hin Hp Hu. destruct (list_find_elem_of P l r Hin Hp) as [[k x] E]. pose proof E as E'.
  apply list_find_Some in E' as (El & Hx & _).
  assert (x = r) as -> by (apply Hu; [by eapply list_elem_of_lookup_2|done]). eauto.
Qed.

(** The lists searches of the driver find the region they look for. *)
Lemma find_pa ex own i gb r : inv ex own i -> own !! gb = Some r ->
  exists k, list_find (fun x => r_pa x = r_pa r) (i_smpt_regions i) = Some (k, r).
Proof.
  intros H E. destruct (list_find_unique (fun x => r_pa x = r_pa r) (i_smpt_regions i) r) as (k & Hk & _); eauto.
  - apply (regions_own _ _ _ _ H). eauto.
  - intros x [gb' E']%(regions_own _ _ _ _ H) Hx.
    assert (gb' = gb) as -> by (eapply (inv_inj _ _ _ H); eauto). congruence.
Qed.

Lemma find_va ex own i gb r : inv ex own i -> own !! gb = Some r ->
  exists k, list_find (fun x => r_va x = r_va r) (i_smpt_regions i) = Some (k, r) /\ i_smpt_regions i !! k = Some r.
Proof.
  intros H E. apply list_find_unique; [apply (regions_own _ _ _ _ H); eauto|done|].
  intros x [gb' E']%(regions_own _ _ _ _ H) Hx.
  assert (gb' = gb) as -> by (eapply (inv_inj _ _ _ H); eauto). congruence.
Qed.

(** A gigabyte without a table, and one with a table. *)
Definition whole_gb (own : gmap Z smpt_region) (i : s2mpu_info) (gb attr : Z) : Prop :=
  i_l1entry_attrs i !! Z.to_nat gb = Some attr /\ 0 <= attr < 2 ^ 32 /\
  l1_existing_granularity attr = Some S2_GRAN_1GB /\ own !! gb = None /\
  view_of i gb = Some (Whole (Z.land (Z.shiftr attr 1) 3)).

Definition table_gb (own : gmap Z smpt_region) (i : s2mpu_info) (gb attr : Z) (g : s2_gran) (r : smpt_region)
    (bs : list Z) : Prop :=
  i_l1entry_attrs i !! Z.to_nat gb = Some attr /\ l1_existing_granularity attr = Some g /\ g <> S2_GRAN_1GB /\
  own !! gb = Some r /\ region_ok i r /\ i_phys i !! r_pa r = Some bs /\
  Z.of_nat (length bs) = s2_table_size (gran_shift g) /\ Forall is_byte bs /\
  view_of i gb = Some (Table g bs) /\ get_smpt_region gb i = Done (Some r) i.

Lemma get_region_run ex own i gb r : inv ex own i -> own !! gb = Some r ->
  i_l2table_addrs i !! Z.to_nat gb = Some (l2_addr (r_pa r)) -> get_smpt_region gb i = Done (Some r) i.
Proof.
  intros H E L. destruct (inv_own _ _ _ H gb r E) as (_ & _ & _ & _ & Hpa & Hal & _).
  unfold get_smpt_region, kbind, pt_read. rewrite L. unfold smpt_region_for_pa.
  rewrite l2_addr_pa by done. by destruct (find_pa _ _ _ _ _ H E) as [k ->].
Qed.

Lemma gb_cases ex own i gb : inv ex own i -> populated gb -> ex <> Some gb ->
  (exists attr, whole_gb own i gb attr) \/ (exists attr g r bs, table_gb own i gb attr g r bs).
Proof.
  intros H Hp Hx. destruct (inv_gb _ _ _ H gb Hp Hx) as (attr & L1 & Hr & Hreg & Hg).
  destruct (l1_existing_granularity attr) as [g|] eqn:Eg; [|done].
  destruct (decide (g = S2_GRAN_1GB)) as [->|Hne].
  - left. exists attr. unfold whole_gb. split_and!; try done; try lia. unfold view_of. by rewrite Hreg, Eg.
  - right. assert (exists r, own !! gb = Some r /\
        rd (i_regs i) (S2MPU_L1ENTRY_L2TABLE_ADDR (i_vid i) gb) = l2_addr (r_pa r) /\
        i_l2table_addrs i !! Z.to_nat gb = Some (l2_addr (r_pa r)) /\
        r_len r = s2_table_size (gran_shift g)) as (r & Ho & Ha & L2 & Hlen) by (destruct g; done).
    destruct (inv_own _ _ _ H gb r Ho) as (_ & _ & Hok). pose proof Hok as (_ & _ & Hpa & Hal & bs & Hbs & Hl & Hby).
    exists attr, g, r, bs. unfold table_gb. split_and!; try done; [lia| |by eapply get_region_run].
    unfold view_of. rewrite Hreg, Eg, Ha, l2_addr_pa, Hbs by done. by destruct g.
Qed.

(** The hardware permits something definite everywhere. *)
Lemma view_populated ex own i gb : inv ex own i -> populated gb -> ex <> Some gb -> is_Some (view_of i gb).
Proof.
  intros H Hp Hx. destruct (gb_cases ex own i gb H Hp Hx) as [(? & Hw)|(? & ? & ? & ? & Ht)].
  - destruct Hw as (_ & _ & _ & _ & ->). done.
  - destruct Ht as (_ & _ & _ & _ & _ & _ & _ & _ & -> & _). done.
Qed.

(** ** Frames *)

(** The level-1 entry and the driver's copy of it are the same in both states. *)
Definition same_entry (i i' : s2mpu_info) (gb : Z) : Prop :=
  i_vid i' = i_vid i /\
  rd (i_regs i') (S2MPU_L1ENTRY_ATTR (i_vid i) gb) = rd (i_regs i) (S2MPU_L1ENTRY_ATTR (i_vid i) gb) /\
  rd (i_regs i') (S2MPU_L1ENTRY_L2TABLE_ADDR (i_vid i) gb) = rd (i_regs i) (S2MPU_L1ENTRY_L2TABLE_ADDR (i_vid i) gb) /\
  i_l1entry_attrs i' !! Z.to_nat gb = i_l1entry_attrs i !! Z.to_nat gb /\
  i_l2table_addrs i' !! Z.to_nat gb = i_l2table_addrs i !! Z.to_nat gb.

Lemma gb_ok_frame own own' i i' gb : gb_ok own i gb -> same_entry i i' gb -> own' !! gb = own !! gb -> gb_ok own' i' gb.
Proof.
  intros (attr & L1 & Hr & Hreg & Hg) (Ev & Ea & Et & E1 & E2) Eo.
  exists attr. rewrite Ev, E1, E2, Ea, Et, Eo. done.
Qed.

Lemma region_ok_frame i i' r : region_ok i r ->
  i_vmap i' !! r_va r = i_vmap i !! r_va r -> i_phys i' !! r_pa r = i_phys i !! r_pa r -> region_ok i' r.
Proof. intros (? & ? & ? & ? & bs & ? & ?) Ev Ep. unfold region_ok. rewrite Ev, Ep. eauto 10. Qed.

Lemma view_frame ex own i i' gb : inv ex own i -> populated gb -> ex <> Some gb -> same_entry i i' gb ->
  (forall r, own !! gb = Some r -> i_phys i' !! r_pa r = i_phys i !! r_pa r) -> view_of i' gb = view_of i gb.
Proof.
  intros H Hp Hx (Ev & Ea & Et & _) Hph. destruct (inv_gb _ _ _ H gb Hp Hx) as (attr & _ & _ & Hreg & Hg).
  unfold view_of. rewrite Ev, Ea, Et, Hreg.
  destruct (l1_existing_granularity attr) as [g|]; [|done].
  destruct g; try done; destruct Hg as (r & Ho & -> & _);
    destruct (inv_own _ _ _ H gb r Ho) as (_ & _ & _ & _ & Hpa & Hal & _); by rewrite l2_addr_pa, Hph by done.
Qed.

(** Writes to other registers leave the level-1 entries alone. *)
Lemma low_reg_entry off v gb : 0 <= v -> 0 <= gb -> off < 0x4000 ->
  off <> S2MPU_L1ENTRY_ATTR v gb /\ off <> S2MPU_L1ENTRY_L2TABLE_ADDR v gb.
Proof. unfold S2MPU_L1ENTRY_ATTR, S2MPU_L1ENTRY_L2TABLE_ADDR. lia. Qed.
