(* ===== verification/S2mpuGranule.v ===== *)
(** * Opening and closing one granule

    What an operation does to the permission of every address ([changes]) and to
    the protection cache ([invalidated]), and the two updates of one granule whose
    gigabyte has the granule's own granularity: in the level-1 entry, and in a
    table. *)

From S2P Require Import Prelude S2mpu S2mpuTables S2mpuFacts.

#[local] Arguments Z.mul : simpl never.
#[local] Arguments Z.pow : simpl never.
#[local] Arguments Z.shiftl : simpl never.
#[local] Arguments Z.shiftr : simpl never.
#[local] Arguments Z.land : simpl never.
#[local] Arguments Z.lor : simpl never.
#[local] Arguments u32 : simpl never.

(** ** What an operation does to the permissions *)

(** The permissions of [lo, hi) are updated, the others kept. *)
Definition changes (open : bool) (dm lo hi : Z) (i i' : s2mpu_info) : Prop :=
  forall a, populated (a / 2 ^ 30) ->
    hw_perm i' a = if decide (lo <= a < hi) then perm_upd open dm <$> hw_perm i a else hw_perm i a.

(** Every existing address of [lo, hi) has been dropped from the protection cache
    of the instance's virtual machine. *)
Definition invalidated (lo hi : Z) (i i' : s2mpu_info) : Prop :=
  exists l, i_inv i' = i_inv i ++ l /\
    forall a, populated (a / 2 ^ 30) -> lo <= a < hi ->
      exists s e, InvRange (i_vid i) s e ∈ l /\ s <= a / 2 ^ 12 < e.

(** The granularity at which a gigabyte is controlled. *)
Definition gran_of (i : s2mpu_info) (gb : Z) : option s2_gran := view_gran <$> view_of i gb.

(** An update of [lo, hi) that leaves the granularity of every gigabyte alone. *)
Record updated (open : bool) (dm lo hi : Z) (i i' : s2mpu_info) : Prop := MkUpdated {
  upd_wf : s2mpu_wf i';
  upd_vid : i_vid i' = i_vid i;
  upd_perm : changes open dm lo hi i i';
  upd_inv : invalidated lo hi i i'
}.

Lemma perm_upd_idem open dm p : perm_upd open dm (perm_upd open dm p) = perm_upd open dm p.
Proof. destruct open; simpl; [|done]. by rewrite <- Z.lor_assoc, Z.lor_diag. Qed.

(** Two adjacent updates are one. *)
Lemma updated_trans open dm lo mid hi i1 i2 i3 : lo <= mid <= hi ->
  updated open dm lo mid i1 i2 -> updated open dm mid hi i2 i3 -> updated open dm lo hi i1 i3.
Proof.
  intros Hm [W1 V1 C1 (l1 & E1 & I1)] [W2 V2 C2 (l2 & E2 & I2)]. split; [done|congruence| |].
  - intros a Ha. rewrite (C2 a Ha), (C1 a Ha). repeat case_decide; try lia; done.
  - exists (l1 ++ l2). rewrite E2, E1, app_assoc. split; [done|]. intros a Ha Hr.
    destruct (decide (a < mid)).
    + destruct (I1 a Ha ltac:(lia)) as (s & e & Hin & ?). exists s, e. split; [set_solver|done].
    + destruct (I2 a Ha ltac:(lia)) as (s & e & Hin & ?). rewrite V1 in Hin. exists s, e. split; [set_solver|done].
Qed.

(** Nothing to do: the range holds no existing address. *)
Lemma updated_nil open dm lo hi i : s2mpu_wf i ->
  (forall a, populated (a / 2 ^ 30) -> ~ (lo <= a < hi)) -> updated open dm lo hi i i.
Proof.
  intros W Hn. split; [done|done| |].
  - intros a Ha. rewrite decide_False by auto. done.
  - exists []. rewrite app_nil_r. split; [done|]. intros a Ha Hr. by destruct (Hn a Ha).
Qed.

(** ** Invalidation *)

Lemma mask_aligned x g : 0 <= x < 2 ^ 36 -> x mod 2 ^ gran_shift g = 0 ->
  Z.land x (Z.land (Z.shiftl WHI_PHY_ADDR_MASK (gran_shift g)) WHI_PHY_ADDR_MASK) = x.
Proof.
  intros Hx Ha. pose proof (gran_shift_range g). set (s := gran_shift g) in *.
  apply Z.bits_inj'. intros n Hn. rewrite !Z.land_spec, Z.shiftl_spec by lia.
  change WHI_PHY_ADDR_MASK with (Z.ones 36).
  destruct (Z.testbit x n) eqn:E; [|done].
  assert (s <= n).
  { destruct (decide (n < s)); [|lia]. rewrite <- (Z.mod_pow2_bits_low x s n), Ha, Z.bits_0 in E by lia. done. }
  assert (n < 36).
  { destruct (decide (n < 36)); [done|]. rewrite <- (Z.mod_small x (2 ^ 36)), Z.mod_pow2_bits_high in E by lia. done. }
  rewrite !Z.ones_spec_low by lia. done.
Qed.

Lemma mptc_invalidate_run i vid start g : 0 <= vid <= 1 -> 0 <= start < 2 ^ 36 -> start mod 2 ^ gran_shift g = 0 ->
  exists regs, range_invalidate_mptc_vid_specific vid start g i =
      Done tt (i <| i_regs := regs |>
                 <| i_inv := i_inv i ++ [InvRange vid (start / 2 ^ 12) ((start + 2 ^ gran_shift g) / 2 ^ 12)] |>) /\
    forall off, 0x4000 <= off -> rd regs off = rd (i_regs i) off.
Proof.
  intros Hv Hs Ha. pose proof (gran_shift_range g). unfold range_invalidate_mptc_vid_specific.
  rewrite mask_aligned by done. unfold kbind, raw_writel; simpl. rewrite !app_nil_r.
  eexists. split.
  - f_equal. unfold setter; simpl. do 2 f_equal. unfold mptc_effect. simpl.
    rewrite rd_insert_eq, rd_insert_ne, rd_insert_eq by done.
    assert (0 < 2 ^ gran_shift g <= 2 ^ 30) by (split; [lia|apply Z.pow_le_mono_r; lia]).
    rewrite (Z.shiftl_1_l (gran_shift g)), !(Z.shiftr_div_pow2 _ 12) by lia. rewrite !(u32_small (_ / 2 ^ 12)) by dlia.
    assert (vid = 0 \/ vid = 1) as [-> | ->] by lia; done.
  - intros off Ho. rewrite !rd_insert_ne; [done|..]; unfold S2MPU_RANGE_INVALIDATION_START_PPN,
      S2MPU_RANGE_INVALIDATION_END_PPN, S2MPU_RANGE_INVALIDATION; lia.
Qed.

(** Level-1 entries are plain registers. *)
Lemma raw_writel_entry v off i : 0x4000 <= off ->
  raw_writel v off i = Done tt (i <| i_regs := <[off := u32 v]> (i_regs i) |>).
Proof.
  intros H. unfold raw_writel, mptc_effect.
  destruct (Z.eqb_spec off S2MPU_ALL_INVALIDATION) as [->|_]; [done|].
  destruct (Z.eqb_spec off S2MPU_RANGE_INVALIDATION) as [->|_]; [done|]. destruct i; simpl. by rewrite app_nil_r.
Qed.

(** An update that touches one gigabyte, given as the change of its view. *)
Lemma updated_view own i i' gb v v' lo hi open dm :
  inv None own i' -> i_vid i' = i_vid i -> populated gb ->
  i_inv i' = i_inv i ++ [InvRange (i_vid i) (lo / 2 ^ 12) (hi / 2 ^ 12)] ->
  lo / 2 ^ 30 = gb -> hi <= (gb + 1) * 2 ^ 30 -> hi mod 2 ^ 12 = 0 ->
  view_of i gb = Some v -> view_of i' gb = Some v' -> view_gran v' = view_gran v ->
  (forall gb', populated gb' -> gb' <> gb -> view_of i' gb' = view_of i gb') ->
  (forall a, a / 2 ^ 30 = gb ->
     view_perm v' a = if decide (lo <= a < hi) then perm_upd open dm <$> view_perm v a else view_perm v a) ->
  updated open dm lo hi i i' /\ forall gb', populated gb' -> gran_of i' gb' = gran_of i gb'.
Proof.
  intros Hi Hv Hp Hinv Hlo Hhi Hal Ev Ev' Hg Hf Hperm. split; [split|].
  - by exists own.
  - done.
  - intros a Ha. unfold hw_perm. destruct (decide (a / 2 ^ 30 = gb)) as [E|Hne].
    + rewrite E, Ev, Ev'. simpl. by apply Hperm.
    + rewrite Hf by done. rewrite decide_False; [done|]. intros [H1 H2]. apply Hne. dlia.
  - eexists. split; [done|]. intros a Ha Hr. do 2 eexists. split; [by apply list_elem_of_singleton|]. dlia.
  - intros gb' Hp'. unfold gran_of. destruct (decide (gb' = gb)) as [->|Hne]; [|by rewrite Hf].
    rewrite Ev, Ev'. simpl. by rewrite Hg.
Qed.

(** ** One granule, in a gigabyte of the same granularity *)

Lemma pop_range gb : populated gb -> 0 <= gb < 64.
Proof. unfold populated. lia. Qed.

Lemma gb_index_small start : 0 <= start < 2 ^ 40 -> u32 (Z.shiftr start (gran_shift S2_GRAN_1GB)) = start / 2 ^ 30.
Proof. intros Hs. rewrite Z.shiftr_div_pow2 by done. change (gran_shift S2_GRAN_1GB) with 30. apply u32_small. dlia. Qed.

Lemma l1_lookup ex own i gb : inv ex own i -> populated gb -> is_Some (i_l1entry_attrs i !! Z.to_nat gb).
Proof. intros H Hp%pop_range. apply lookup_lt_is_Some_2. rewrite (inv_l1 _ _ _ H). unfold WHI_MAX_GB_GRANULES. lia. Qed.

(** What [l1_update] leaves. *)
Definition l1_updated (i : s2mpu_info) (regs : gmap Z Z) (l : list mptc_inv) (gb attr : Z) : s2mpu_info :=
  i <| i_regs := regs |> <| i_inv := i_inv i ++ l |> <| i_l1entry_attrs := <[Z.to_nat gb := attr]> (i_l1entry_attrs i) |>.

Lemma l1_updated_other i regs l gb attr gb' : populated gb -> populated gb' -> gb' <> gb ->
  (forall off, 0x4000 <= off -> off <> S2MPU_L1ENTRY_ATTR (i_vid i) gb -> rd regs off = rd (i_regs i) off) ->
  0 <= i_vid i -> same_entry i (l1_updated i regs l gb attr) gb'.
Proof.
  intros Hp%pop_range Hp'%pop_range Hne Hr Hv. unfold same_entry; simpl. split_and!; try done.
  - apply Hr; unfold S2MPU_L1ENTRY_ATTR; lia.
  - apply Hr; unfold S2MPU_L1ENTRY_ATTR, S2MPU_L1ENTRY_L2TABLE_ADDR; lia.
  - apply list_lookup_insert_ne. lia.
Qed.

Lemma l1_updated_inv own i regs l gb attr : inv None own i -> populated gb -> own !! gb = None ->
  0 <= attr < 2 ^ 32 -> l1_existing_granularity attr = Some S2_GRAN_1GB ->
  rd regs (S2MPU_L1ENTRY_ATTR (i_vid i) gb) = attr ->
  (forall off, 0x4000 <= off -> off <> S2MPU_L1ENTRY_ATTR (i_vid i) gb -> rd regs off = rd (i_regs i) off) ->
  inv None own (l1_updated i regs l gb attr).
Proof.
  intros H Hp Ho Hr Hg Ha Hoff. pose proof (inv_vid _ _ _ H). split; simpl; try by apply H.
  - rewrite length_insert. apply H.
  - intros gb' Hp' _. destruct (decide (gb' = gb)) as [->|Hne].
    + exists attr; simpl. split_and!; try lia.
      * apply list_lookup_insert_eq. rewrite (inv_l1 _ _ _ H). apply pop_range in Hp. unfold WHI_MAX_GB_GRANULES. lia.
      * by rewrite Hg.
    + eapply gb_ok_frame; [by apply (inv_gb _ _ _ H)|apply l1_updated_other; auto; lia|done].
Qed.

Lemma l1_update_run own i start attr open dm : inv None own i -> populated (start / 2 ^ 30) ->
  0 <= start < 2 ^ 36 -> start mod 2 ^ 30 = 0 -> 0 <= dm < 4 -> whole_gb own i (start / 2 ^ 30) attr ->
  exists regs l, let i' := l1_updated i regs l (start / 2 ^ 30) (l1_upd open dm attr) in
    l1_update start (start / 2 ^ 30) attr open dm i = Done tt i' /\
    inv None own i' /\ updated open dm start (start + 2 ^ 30) i i' /\
    forall gb, populated gb -> gran_of i' gb = gran_of i gb.
Proof.
  intros H Hp Hs Hal Hd (L1 & Hr & Hg & Ho & Hv). set (gb := start / 2 ^ 30) in *. pose proof (inv_vid _ _ _ H) as Hvid.
  set (i1 := i <| i_regs := <[S2MPU_L1ENTRY_ATTR (i_vid i) gb := u32 (l1_upd open dm attr)]> (i_regs i) |>).
  assert (Hr' := l1_upd_range open dm attr Hr Hd). assert (Hg' := l1_upd_gran open dm attr Hg).
  pose proof (pop_range _ Hp) as Hgb.
  destruct (mptc_invalidate_run i1 (i_vid i) start S2_GRAN_1GB) as (regs & Hrun & Hoff); [done..|].
  exists regs, [InvRange (i_vid i) (start / 2 ^ 12) ((start + 2 ^ 30) / 2 ^ 12)]. intros i'.
  assert (Hself : rd regs (S2MPU_L1ENTRY_ATTR (i_vid i) gb) = l1_upd open dm attr).
  { rewrite Hoff by (unfold S2MPU_L1ENTRY_ATTR; lia). simpl. rewrite rd_insert_eq. by apply u32_small. }
  assert (Hother : forall off, 0x4000 <= off -> off <> S2MPU_L1ENTRY_ATTR (i_vid i) gb -> rd regs off = rd (i_regs i) off).
  { intros off H1 H2. rewrite Hoff by done. simpl. by apply rd_insert_ne. }
  assert (Hinv : inv None own i') by (by apply l1_updated_inv).
  assert (Hview : view_of i' gb = Some (Whole (perm_upd open dm (Z.land (Z.shiftr attr 1) 3)))).
  { unfold view_of; simpl. by rewrite Hself, Hg', l1_upd_perm. }
  assert (Hframe : forall gb', populated gb' -> gb' <> gb -> view_of i' gb' = view_of i gb').
  { intros gb' Hp' Hne. eapply view_frame; eauto. apply l1_updated_other; auto; lia. }
  split; [|split; [done|]].
  - unfold l1_update, kbind, kget.
    change (if open then _ else _) with (l1_upd open dm attr).
    rewrite raw_writel_entry by (unfold S2MPU_L1ENTRY_ATTR; lia). fold i1. rewrite Hrun.
    unfold pt_write_l1, set_byte; simpl. by rewrite L1.
  - eapply updated_view; eauto; try dlia. intros a Ha. by rewrite decide_True by dlia.
Qed.

(** ** One granule, in a table of its granularity *)

(** The addresses of a granule are those of its entry. *)
Lemma same_granule a start g : start mod 2 ^ gran_shift g = 0 -> a / 2 ^ 30 = start / 2 ^ 30 ->
  entry_index a g = entry_index start g <-> start <= a < start + 2 ^ gran_shift g.
Proof.
  intros Ha E. unfold entry_index. destruct g; simpl gran_shift in *;
    [change (2 ^ 12) with 4096 in *|change (2 ^ 16) with 65536 in *|change (2 ^ 21) with 2097152 in *|];
    change (2 ^ 30) with 1073741824 in *; dlia.
Qed.

Lemma granule_in_gb start g : start mod 2 ^ gran_shift g = 0 ->
  start + 2 ^ gran_shift g <= (start / 2 ^ 30 + 1) * 2 ^ 30 /\ (start + 2 ^ gran_shift g) mod 2 ^ 12 = 0.
Proof.
  intros Ha. destruct g; simpl gran_shift in *;
    [change (2 ^ 12) with 4096 in *|change (2 ^ 16) with 65536 in *|change (2 ^ 21) with 2097152 in *|];
    change (2 ^ 30) with 1073741824 in *; try change (2 ^ 12) with 4096 in *; split; dlia.
Qed.

(** What [smpt_update] leaves. *)
Definition smpt_updated (i : s2mpu_info) (regs : gmap Z Z) (l : list mptc_inv) (pa : Z) (bs : list Z) : s2mpu_info :=
  i <| i_phys := <[pa := bs]> (i_phys i) |> <| i_regs := regs |> <| i_inv := i_inv i ++ l |>.

Lemma smpt_updated_same i regs l pa bs gb : 0 <= i_vid i -> populated gb ->
  (forall off, 0x4000 <= off -> rd regs off = rd (i_regs i) off) -> same_entry i (smpt_updated i regs l pa bs) gb.
Proof.
  intros Hv Hp%pop_range Hr. unfold same_entry; simpl.
  split_and!; try done; apply Hr; unfold S2MPU_L1ENTRY_ATTR, S2MPU_L1ENTRY_L2TABLE_ADDR; lia.
Qed.

Lemma smpt_updated_inv own i regs l gb r bs : inv None own i -> own !! gb = Some r ->
  Z.of_nat (length bs) = r_len r -> Forall is_byte bs ->
  (forall off, 0x4000 <= off -> rd regs off = rd (i_regs i) off) ->
  inv None own (smpt_updated i regs l (r_pa r) bs).
Proof.
  intros H Ho Hl Hb Hr. pose proof (inv_vid _ _ _ H). split; simpl; try by apply H.
  - intros gb' Hp' _. eapply gb_ok_frame; [by apply (inv_gb _ _ _ H)|apply smpt_updated_same; auto; lia|done].
  - intros gb' r' Ho'. destruct (inv_own _ _ _ H gb' r' Ho') as (Hp' & Hx & Hok). split_and!; [done..|].
    destruct (decide (r_pa r' = r_pa r)) as [E|Hne].
    + assert (gb' = gb) as -> by (eapply (inv_inj _ _ _ H); eauto). simplify_eq.
      destruct Hok as (H1 & H2 & H3 & H4 & _). unfold region_ok; simpl. rewrite lookup_insert_eq. eauto 10.
    + eapply region_ok_frame; [done|done|]. simpl. by apply lookup_insert_ne.
  - destruct (inv_own _ _ _ H gb r Ho) as (_ & _ & _ & _ & _ & _ & b & Eb & _).
    rewrite map_size_insert, Eb. apply H.
Qed.

Lemma smpt_updated_view own i regs l gb r bs bs' g : inv None own i -> own !! gb = Some r ->
  i_phys i !! r_pa r = Some bs -> (forall off, 0x4000 <= off -> rd regs off = rd (i_regs i) off) ->
  view_of i gb = Some (Table g bs) -> view_of (smpt_updated i regs l (r_pa r) bs') gb = Some (Table g bs').
Proof.
  intros H Ho Hbs Hr Hv. pose proof (inv_vid _ _ _ H). destruct (inv_own _ _ _ H gb r Ho) as (Hp & Hx & Hok).
  destruct Hok as (_ & _ & Hpa & Hal & _).
  destruct (inv_gb _ _ _ H gb Hp Hx) as (attr & _ & _ & Hreg & Hg).
  destruct (smpt_updated_same i regs l (r_pa r) bs' gb) as (Ev & Ea & Et & _); [lia|done..|].
  revert Hv. unfold view_of. rewrite Ev, Ea, Et, Hreg.
  destruct (l1_existing_granularity attr) as [[]|]; try done;
    destruct Hg as (r' & Ho' & -> & _); simplify_eq; rewrite l2_addr_pa, Hbs by done; simpl;
    intros [= <-]; by rewrite lookup_insert_eq.
Qed.

Lemma smpt_update_run own i start g attr r bs open dm : inv None own i -> populated (start / 2 ^ 30) ->
  0 <= start < 2 ^ 36 -> start mod 2 ^ gran_shift g = 0 -> 0 <= dm < 4 ->
  table_gb own i (start / 2 ^ 30) attr g r bs ->
  exists i', smpt_update start g (start / 2 ^ 30) open dm i = Done tt i' /\
    inv None own i' /\ updated open dm start (start + 2 ^ gran_shift g) i i' /\
    forall gb, populated gb -> gran_of i' gb = gran_of i gb.
Proof.
  intros H Hp Hs Hal Hd (L1 & Hg & Hne & Ho & Hok & Hbs & Hlen & Hby & Hv & Hget).
  set (gb := start / 2 ^ 30) in *. pose proof (inv_vid _ _ _ H) as Hvid.
  set (e := entry_index start g). pose proof (entry_index_range start g) as He. fold e in He.
  assert (Hn : gran_entries g = 4 * Z.of_nat (length bs)) by (destruct (table_size_entries g); [lia|done]).
  destruct (entry_lookup bs e) as (b & Eb & Hb & Hent); [lia|done|].
  set (b' := if open then u8 (Z.lor b (Z.shiftl dm (2 * (e mod 4)))) else u8 (Z.land b (Z.lnot (Z.shiftl 3 (2 * (e mod 4)))))).
  assert (Hupd : forall k, 0 <= k < 4 -> is_byte b' /\ two_bits b' k =
    if k =? e mod 4 then perm_upd open dm (two_bits b k) else two_bits b k) by (intros; apply byte_update; auto; dlia).
  set (bs' := <[Z.to_nat (e / 4) := b']> bs).
  set (i1 := i <| i_phys := <[r_pa r := bs']> (i_phys i) |>).
  destruct (mptc_invalidate_run i1 (i_vid i) start g) as (regs & Hrun & Hoff); [done..|].
  assert (Hbs' : Z.of_nat (length bs') = r_len r).
  { unfold bs'. rewrite length_insert. destruct Hok as (_ & _ & _ & _ & x & Hx & <- & _). congruence. }
  assert (Hby' : Forall is_byte bs') by (apply Forall_insert; [done|by apply (Hupd 0)]).
  eexists. split; [|split].
  - pose proof Hok as (_ & Hva & _). unfold smpt_update, kbind, kget. rewrite Hget, bit_offset_index, byte_offset_index. fold e.
    assert (forallb (fun m => negb ((8 <=? 2 * m) || negb (Z.land (2 * m) 1 =? 0))) (seqZ 0 4) = true) as Hm by done.
    pose proof (small_forall _ _ Hm (e mod 4) ltac:(dlia)) as ->%negb_true_iff.
    unfold buf_load. rewrite Hva, Hbs, Eb. fold b'.
    unfold set_byte. rewrite Eb. fold bs'. unfold store_copy, buf_store. rewrite Hva, Hbs. fold i1. exact Hrun.
  - by apply (smpt_updated_inv own i regs _ gb r bs').
  - destruct (granule_in_gb start g Hal).
    apply (updated_view own) with (gb := gb) (v := Table g bs) (v' := Table g bs'); try done.
    + apply (smpt_updated_inv own i regs _ gb r bs'); auto.
    + apply (smpt_updated_view own i regs _ gb r bs bs'); auto.
    + intros gb' Hp' Hgb'. eapply view_frame; eauto; [apply (smpt_updated_same i regs _ (r_pa r) bs'); auto; lia|].
      intros r' Ho'. simpl. apply lookup_insert_ne. intros E. apply Hgb'. eapply (inv_inj _ _ _ H); eauto.
    + intros a Ha. simpl. unfold bs'. pose proof (entry_index_range a g).
      rewrite (entry_update bs e b' b) by (auto || lia || (intros k Hk Hk'; destruct (Hupd k Hk) as [_ ->];
        destruct (Z.eqb_spec k (e mod 4)); [done|done])).
      pose proof (same_granule a start g Hal Ha) as Hsg. fold e in Hsg.
      destruct (Z.eqb_spec (entry_index a g) e) as [E|E].
      * rewrite decide_True by (by apply Hsg). rewrite E, Hent. destruct (Hupd (e mod 4)) as [_ ->]; [dlia|].
        by rewrite Z.eqb_refl.
      * rewrite decide_False by tauto. done.
Qed.
