(* ===== verification/S2mpuSplit.v ===== *)
(** * Splitting a gigabyte's table

    [decompose] replaces what governs a gigabyte by a table of a finer
    granularity. The theorem: with memory for the table it does so, no
    permission changes, and the replaced table is freed. *)

From S2P Require Import Prelude S2mpu S2mpuTables S2mpuFacts S2mpuGranule.

#[local] Arguments Z.mul : simpl never.
#[local] Arguments Z.pow : simpl never.
#[local] Arguments Z.shiftl : simpl never.
#[local] Arguments Z.shiftr : simpl never.
#[local] Arguments Z.land : simpl never.
#[local] Arguments Z.lor : simpl never.
#[local] Arguments u32 : simpl never.
#[local] Arguments zeros : simpl never.

(** ** Removing a table, installing a table *)

Definition removed (i : s2mpu_info) (k : nat) (r : smpt_region) : s2mpu_info :=
  i <| i_smpt_regions := delete k (i_smpt_regions i) |>
    <| i_vmap := delete (r_va r) (i_vmap i) |> <| i_phys := delete (r_pa r) (i_phys i) |>.

Definition installed (i : s2mpu_info) (gb : Z) (g : s2_gran) (r : smpt_region) (bs : list Z) : s2mpu_info :=
  i <| i_regs := <[S2MPU_L1ENTRY_ATTR (i_vid i) gb := l1_attr 1 0 0 (gran_val g)]>
        (<[S2MPU_L1ENTRY_L2TABLE_ADDR (i_vid i) gb := l2_addr (r_pa r)]> (i_regs i)) |>
    <| i_l1entry_attrs := <[Z.to_nat gb := l1_attr 1 0 0 (gran_val g)]> (i_l1entry_attrs i) |>
    <| i_l2table_addrs := <[Z.to_nat gb := l2_addr (r_pa r)]> (i_l2table_addrs i) |>
    <| i_smpt_regions := r :: i_smpt_regions i |>
    <| i_vmap := <[r_va r := r_pa r]> (i_vmap i) |> <| i_phys := <[r_pa r := bs]> (i_phys i) |>
    <| i_allocs := S (i_allocs i) |>.

(** A region that nothing uses yet. *)
Definition fresh_region (i : s2mpu_info) (r : smpt_region) : Prop :=
  r_va r <> 0 /\ i_vmap i !! r_va r = None /\ i_phys i !! r_pa r = None /\ 0 <= r_pa r < 2 ^ 36 /\ r_pa r mod 16 = 0.

Lemma inv_except own i gb : inv None own i -> own !! gb = None -> inv (Some gb) own i.
Proof.
  intros H Ho. split; try apply H.
  - intros gb' Hp Hx. by apply H.
  - intros gb' r E. destruct (inv_own _ _ _ H gb' r E) as (? & ? & ?). split_and!; auto. congruence.
Qed.

Lemma removed_inv own i gb k r : inv None own i -> own !! gb = Some r -> i_smpt_regions i !! k = Some r ->
  inv (Some gb) (delete gb own) (removed i k r).
Proof.
  intros H Ho Hk. destruct (inv_own _ _ _ H gb r Ho) as (_ & _ & _ & Hva & _ & _ & b & Hph & _).
  split; simpl; try by apply H.
  - intros gb' Hp Hx. eapply gb_ok_frame; [by apply (inv_gb _ _ _ H)|done|]. apply lookup_delete_ne. congruence.
  - intros gb' r' [Hne E]%lookup_delete_Some. destruct (inv_own _ _ _ H gb' r' E) as (? & ? & ?).
    split_and!; [done|congruence|]. eapply region_ok_frame; [done|..]; simpl; apply lookup_delete_ne;
      intros Eq; apply Hne; eapply (inv_inj _ _ _ H); eauto.
  - intros gb1 gb2 r1 r2 [_ E1]%lookup_delete_Some [_ E2]%lookup_delete_Some. by eapply (inv_inj _ _ _ H).
  - apply (Permutation_cons_inv (a := r)). rewrite <- delete_Permutation by done.
    rewrite (inv_list _ _ _ H). rewrite <- (map_to_list_delete own gb r) by done. done.
  - rewrite !map_size_delete, Hva, Ho. by rewrite (inv_size _ _ _ H).
  - rewrite !map_size_delete, Hph, Ho. by rewrite (inv_psize _ _ _ H).
Qed.

Lemma installed_inv own i gb g r bs : inv (Some gb) own i -> populated gb -> g <> S2_GRAN_1GB ->
  fresh_region i r -> r_len r = s2_table_size (gran_shift g) -> Z.of_nat (length bs) = r_len r -> Forall is_byte bs ->
  inv None (<[gb := r]> own) (installed i gb g r bs).
Proof.
  intros H Hp Hg (Hva0 & Hva & Hph & Hpa & Hal) Hlen Hbs Hby. pose proof (inv_vid _ _ _ H). pose proof (pop_range _ Hp).
  assert (Ho : own !! gb = None).
  { destruct (own !! gb) eqn:E; [|done]. by destruct (inv_own _ _ _ H gb _ E) as (_ & ? & _). }
  assert (Hnew : forall gb' r', own !! gb' = Some r' -> r_va r' <> r_va r /\ r_pa r' <> r_pa r).
  { intros gb' r' E. destruct (inv_own _ _ _ H gb' r' E) as (_ & _ & _ & Hv' & _ & _ & ? & Hp' & _).
    split; intros Eq; rewrite Eq in *; congruence. }
  split; simpl; try by apply H.
  - rewrite length_insert. apply H.
  - rewrite length_insert. apply H.
  - intros gb' Hp' _. destruct (decide (gb' = gb)) as [->|Hne].
    + exists (l1_attr 1 0 0 (gran_val g)); simpl. pose proof (l1_attr_range g).
      rewrite !list_lookup_insert_eq by (rewrite ?(inv_l1 _ _ _ H), ?(inv_l2 _ _ _ H); unfold WHI_MAX_GB_GRANULES; lia).
      rewrite rd_insert_eq, rd_insert_ne, rd_insert_eq, lookup_insert_eq, gran_l1_attr
        by (done || unfold S2MPU_L1ENTRY_ATTR, S2MPU_L1ENTRY_L2TABLE_ADDR; lia).
      split_and!; try done; try lia. destruct g; try done; eauto.
    + pose proof (pop_range _ Hp'). eapply gb_ok_frame; [apply (inv_gb _ _ _ H); [done|congruence]| |by apply lookup_insert_ne].
      unfold same_entry; simpl. rewrite !list_lookup_insert_ne by lia.
      rewrite !rd_insert_ne by (unfold S2MPU_L1ENTRY_ATTR, S2MPU_L1ENTRY_L2TABLE_ADDR; lia). done.
  - intros gb' r' [[<- <-]|[Hne E]]%lookup_insert_Some.
    + split_and!; [done|done|]. unfold region_ok; simpl. rewrite !lookup_insert_eq. eauto 10.
    + destruct (inv_own _ _ _ H gb' r' E) as (? & ? & ?). split_and!; [done|done|]. destruct (Hnew _ _ E).
      eapply region_ok_frame; [done|..]; simpl; by apply lookup_insert_ne.
  - intros gb1 gb2 r1 r2 [[<- <-]|[Hn1 E1]]%lookup_insert_Some [[<- <-]|[Hn2 E2]]%lookup_insert_Some Heq; [done|..].
    + destruct (Hnew _ _ E2). destruct Heq; congruence.
    + destruct (Hnew _ _ E1). destruct Heq; congruence.
    + by eapply (inv_inj _ _ _ H).
  - rewrite map_to_list_insert by done. simpl. by rewrite (inv_list _ _ _ H).
  - rewrite !map_size_insert, Hva, Ho. by rewrite (inv_size _ _ _ H).
  - rewrite !map_size_insert, Hph, Ho. by rewrite (inv_psize _ _ _ H).
Qed.

Lemma installed_view i gb g r bs : 0 <= i_vid i -> 0 <= gb -> g <> S2_GRAN_1GB -> 0 <= r_pa r < 2 ^ 36 -> r_pa r mod 16 = 0 ->
  view_of (installed i gb g r bs) gb = Some (Table g bs).
Proof.
  intros Hv Hgb Hg Hpa Hal. unfold view_of; simpl.
  rewrite rd_insert_eq, gran_l1_attr, rd_insert_ne, rd_insert_eq, l2_addr_pa, lookup_insert_eq
    by (done || unfold S2MPU_L1ENTRY_ATTR, S2MPU_L1ENTRY_L2TABLE_ADDR; lia). by destruct g.
Qed.

Lemma installed_other i gb g r bs gb' : 0 <= gb -> 0 <= gb' -> gb' <> gb -> same_entry i (installed i gb g r bs) gb'.
Proof.
  intros Hgb Hgb' Hne. unfold same_entry; simpl. rewrite !list_lookup_insert_ne by lia.
  rewrite !rd_insert_ne by (unfold S2MPU_L1ENTRY_ATTR, S2MPU_L1ENTRY_L2TABLE_ADDR; lia). done.
Qed.

(** At most one table per gigabyte. *)
Lemma own_size ex own i : inv ex own i -> (size (i_vmap i) <= 64)%nat /\ (size (i_phys i) <= 64)%nat.
Proof.
  intros H. rewrite (inv_size _ _ _ H), (inv_psize _ _ _ H), <- size_dom.
  cut (size (dom own) <= 64)%nat; [done|].
  transitivity (size (list_to_set (seqZ 0 64) : gset Z)); [|by vm_compute].
  apply subseteq_size. intros gb [r E]%elem_of_dom. apply elem_of_list_to_set, elem_of_seqZ.
  destruct (inv_own _ _ _ H gb r E) as (Hp%pop_range & _). lia.
Qed.

Section Split.
Context (dma_alloc : nat -> gmap Z Z -> gmap Z (list Z) -> Z -> option (Z * Z)).
Context `{!DmaAlloc dma_alloc, !DmaReady dma_alloc}.

(** The state with a region allocated and zeroed. *)
Definition allocated (i : s2mpu_info) (r : smpt_region) (bs : list Z) : s2mpu_info :=
  i <| i_allocs := S (i_allocs i) |> <| i_vmap := <[r_va r := r_pa r]> (i_vmap i) |>
    <| i_phys := <[r_pa r := bs]> (i_phys i) |> <| i_smpt_regions := r :: i_smpt_regions i |>.

Lemma alloc_run ex own i g : inv ex own i -> g <> S2_GRAN_1GB ->
  exists r, alloc_smpt dma_alloc (s2_table_size (gran_shift g)) i =
      Done (Some r) (allocated i r (zeros (s2_table_size (gran_shift g)))) /\
    fresh_region i r /\ r_len r = s2_table_size (gran_shift g).
Proof.
  intros H Hg. set (len := s2_table_size (gran_shift g)).
  assert (Hlen : len = 128 \/ len = 4096 \/ len = 65536) by (destruct g; try done; vm_compute; auto).
  destruct (own_size _ _ _ H) as [Hs1 Hs2].
  destruct (dma_ready (i_allocs i) (i_vmap i) (i_phys i) len Hlen Hs1 Hs2) as [[va pa] E].
  destruct (dma_fresh _ _ _ _ _ _ E) as (H1 & H2 & H3 & H4 & H5).
  exists (MkRegion va pa len). split; [|split; [|done]].
  - unfold alloc_smpt. rewrite E. by destruct Hlen as [-> | [-> | ->]].
  - unfold fresh_region; simpl. split_and!; try lia; try done. destruct Hlen as [Hl | [Hl | Hl]]; rewrite Hl in H5; dlia.
Qed.

(** What the new table holds, as a table for the permissions of the old view. *)
Definition splits (g : s2_gran) (v : gb_view) (bs : list Z) : Prop :=
  Z.of_nat (length bs) = s2_table_size (gran_shift g) /\ Forall is_byte bs /\
  forall a, view_perm (Table g bs) a = view_perm v a.

Lemma splits_whole g attr : g <> S2_GRAN_1GB -> exists bs,
  copy_decompose_gb (Z.lor (Z.shiftl (S2MPU_L1ENTRY_ATTR_WR_ACCESS_VALUE attr) 1)
                           (Z.shiftl (S2MPU_L1ENTRY_ATTR_RD_ACCESS_VALUE attr) 0))
    (zeros (s2_table_size (gran_shift g))) (s2_table_size (gran_shift g)) = Some bs /\
  splits g (Whole (Z.land (Z.shiftr attr 1) 3)) bs.
Proof.
  intros Hg. set (len := s2_table_size (gran_shift g)).
  assert (Hl : Z.of_nat (length (zeros len)) = len)
    by (unfold zeros; rewrite length_replicate; apply Z2Nat.id; by destruct g).
  destruct (copy_decompose_gb_spec (Z.lor (Z.shiftl (S2MPU_L1ENTRY_ATTR_WR_ACCESS_VALUE attr) 1)
    (Z.shiftl (S2MPU_L1ENTRY_ATTR_RD_ACCESS_VALUE attr) 0)) (zeros len)) as (bs & E & Hlen & Hby & Hent).
  rewrite Hl in E, Hent. exists bs. split; [done|]. split_and!; [by rewrite Hlen|done|].
  intros a. simpl. rewrite Hent; [by rewrite l1_two_bits|].
  pose proof (entry_index_range a g). destruct (table_size_entries g); [lia|done].
Qed.

Lemma finer_shift g cg : finer g cg -> gran_shift g <= gran_shift cg /\ g <> S2_GRAN_1GB.
Proof. intros [Hf _]. destruct g, cg; simpl in *; try lia; done. Qed.

Lemma splits_table g cg curr : finer g cg -> Z.of_nat (length curr) = s2_table_size (gran_shift cg) -> exists bs,
  copy_decompose (gran_shift cg) curr (gran_shift g) (zeros (s2_table_size (gran_shift g))) = Some bs /\
  splits g (Table cg curr) bs.
Proof.
  intros Hf Hc. set (len := s2_table_size (gran_shift g)).
  destruct (finer_shift _ _ Hf) as [Hle Hg].
  assert (Hl : Z.of_nat (length (zeros len)) = len)
    by (unfold zeros; rewrite length_replicate; apply Z2Nat.id; by destruct g).
  destruct (copy_decompose_spec cg g curr (zeros len)) as (bs & E & Hlen & Hby & Hent); [done..|].
  exists bs. split; [done|]. split_and!; [by rewrite Hlen|done|].
  intros a. simpl. rewrite Hent.
  - f_equal. unfold entry_index. pose proof (gran_shift_range g).
    rewrite Z.div_div, <- Z.pow_add_r by (lia || apply Z.pow_pos_nonneg; lia). do 2 f_equal. lia.
  - rewrite Hlen, Hl. pose proof (entry_index_range a g). destruct (table_size_entries g); [subst len; lia|done].
Qed.
(** ** The new table *)

Lemma store_new i r bs bs' : store_copy (r_va r) (Some bs') (allocated i r bs) = Done tt (allocated i r bs').
Proof. unfold store_copy, buf_store; simpl. rewrite !lookup_insert_eq. unfold allocated; simpl. by rewrite insert_insert_eq. Qed.

Lemma load_new i r bs : buf_load (r_va r) (allocated i r bs) = Done bs (allocated i r bs).
Proof. unfold buf_load; simpl. by rewrite !lookup_insert_eq. Qed.

Lemma fill_whole own i gb attr g : inv None own i -> g <> S2_GRAN_1GB -> whole_gb own i gb attr ->
  exists r bs, decompose_fill dma_alloc gb S2_GRAN_1GB g i = Done (Some (r, None)) (allocated i r bs) /\
    fresh_region i r /\ r_len r = s2_table_size (gran_shift g) /\ splits g (Whole (Z.land (Z.shiftr attr 1) 3)) bs.
Proof.
  intros H Hg (L1 & _). destruct (alloc_run None own i g H Hg) as (r & Ha & Hf & Hl).
  destruct (splits_whole g attr Hg) as (bs & Hc & Hs). exists r, bs. split; [|done].
  unfold decompose_fill, kbind. rewrite Ha. simpl. unfold pt_read; simpl. rewrite L1, load_new, Hc. by rewrite store_new.
Qed.

(** The search for the old table skips the new region. *)
Lemma get_region_allocated i gb r bs c : get_smpt_region gb i = Done (Some c) i ->
  i_phys i !! r_pa r = None -> is_Some (i_phys i !! r_pa c) ->
  get_smpt_region gb (allocated i r bs) = Done (Some c) (allocated i r bs).
Proof.
  unfold get_smpt_region, kbind, pt_read, smpt_region_for_pa; simpl. destruct (i_l2table_addrs i !! Z.to_nat gb) as [ad|]; [|done].
  intros [= E] Hn Hs. destruct (list_find _ _) as [[k c']|] eqn:Ef; [|done]. simplify_eq/=.
  apply list_find_Some in Ef as Ef'. destruct Ef' as (_ & Hc & _).
  rewrite decide_False; [by rewrite Ef|]. intros Hr. rewrite Hr, <- Hc in Hn. rewrite Hn in Hs. by destruct Hs.
Qed.

Lemma fill_table own i gb attr cg c curr g : inv None own i -> finer g cg -> table_gb own i gb attr cg c curr ->
  exists r bs, decompose_fill dma_alloc gb cg g i = Done (Some (r, Some (r_va c))) (allocated i r bs) /\
    fresh_region i r /\ r_len r = s2_table_size (gran_shift g) /\ splits g (Table cg curr) bs.
Proof.
  intros H Hf (_ & _ & Hcg & _ & (_ & Hva & _) & Hcurr & Hlen & _ & _ & Hget). destruct (finer_shift _ _ Hf) as [_ Hg].
  destruct (alloc_run None own i g H Hg) as (r & Ha & Hfr & Hl). pose proof Hfr as (_ & Hvn & Hpn & _).
  destruct (splits_table g cg curr Hf Hlen) as (bs & Hc & Hs). exists r, bs. split; [|done].
  unfold decompose_fill, kbind. rewrite Ha.
  assert (negb (gran_val cg =? gran_val S2_GRAN_1GB) = true) as -> by (destruct cg; done).
  rewrite (get_region_allocated _ _ _ _ c) by (done || by rewrite Hcurr).
  assert (buf_load (r_va c) (allocated i r (zeros (s2_table_size (gran_shift g)))) = Done curr (allocated i r (zeros (s2_table_size (gran_shift g))))) as ->.
  { unfold buf_load; simpl. rewrite lookup_insert_ne, Hva by congruence. by rewrite lookup_insert_ne, Hcurr by congruence. }
  rewrite load_new, Hc. by rewrite store_new.
Qed.

(** ** The switch *)

Lemma switch_run i gb g r bs cur : populated gb -> 0 <= i_vid i ->
  length (i_l1entry_attrs i) = WHI_MAX_GB_GRANULES -> length (i_l2table_addrs i) = WHI_MAX_GB_GRANULES ->
  forall cg, decompose_fill dma_alloc gb cg g i = Done (Some (r, cur)) (allocated i r bs) ->
  decompose dma_alloc gb cg g i =
    match cur with Some va => free_smpt va | None => kret tt end (installed i gb g r bs).
Proof.
  intros Hp%pop_range Hv H1 H2 cg Hf. unfold decompose, kbind at 1. rewrite Hf. unfold kbind at 1.
  unfold decompose_addr, kbind at 1, kget. change (i_vid (allocated i r bs)) with (i_vid i).
  rewrite raw_writel_entry by (unfold S2MPU_L1ENTRY_L2TABLE_ADDR; lia).
  unfold decompose_commit, kbind at 1, kget, kbind at 1. simpl i_vid.
  rewrite raw_writel_entry by (unfold S2MPU_L1ENTRY_ATTR; lia).
  destruct (lookup_lt_is_Some_2 (i_l1entry_attrs i) (Z.to_nat gb)) as [x1 E1]; [unfold WHI_MAX_GB_GRANULES in *; lia|].
  destruct (lookup_lt_is_Some_2 (i_l2table_addrs i) (Z.to_nat gb)) as [x2 E2]; [unfold WHI_MAX_GB_GRANULES in *; lia|].
  unfold kbind at 1, pt_write_l2 at 1, set_byte; simpl. rewrite E2.
  unfold kbind at 1, pt_write_l1 at 1, set_byte; simpl. rewrite E1.
  rewrite (u32_small (l1_attr _ _ _ _)) by (destruct g; done).
  by rewrite (u32_small (l2_addr _)) by apply l2_addr_range.
Qed.

Lemma free_run own i gb g r bs c : inv None own i -> own !! gb = Some c -> fresh_region i r ->
  exists k, i_smpt_regions i !! k = Some c /\
    free_smpt (r_va c) (installed i gb g r bs) = Done tt (installed (removed i k c) gb g r bs).
Proof.
  intros H Ho (_ & Hvn & Hpn & _). destruct (inv_own _ _ _ H gb c Ho) as (_ & _ & Hv0 & Hva & _ & _ & b & Hb & _).
  destruct (find_va _ _ _ _ _ H Ho) as (k & Hk & Ek). exists k. split; [done|].
  unfold free_smpt. destruct (Z.eqb_spec (r_va c) 0) as [|_]; [done|]. simpl.
  rewrite decide_False by congruence. rewrite Hk. simpl. unfold dma_free, kbind, kmod, installed, removed; simpl.
  by rewrite !delete_insert_ne by congruence.
Qed.
(** ** The whole operation *)

(** No permission changes, nothing is dropped from the cache, and the gigabyte is
    now controlled at granularity [g]. *)
Definition split (i i' : s2mpu_info) (gb : Z) (g : s2_gran) : Prop :=
  s2mpu_wf i' /\ i_vid i' = i_vid i /\ i_inv i' = i_inv i /\ gran_of i' gb = Some g /\
  forall a, populated (a / 2 ^ 30) -> hw_perm i' a = hw_perm i a.

(** Installing the table of a gigabyte, [i0] being the state the old one is
    already removed from. *)
Lemma installed_split own own0 i i0 gb v g r bs :
  inv None own i -> inv (Some gb) own0 i0 -> populated gb -> g <> S2_GRAN_1GB ->
  (forall gb', gb' <> gb -> own0 !! gb' = own !! gb') -> (forall gb', populated gb' -> same_entry i i0 gb') ->
  (forall pa, pa = r_pa r \/ i_phys i0 !! pa = i_phys i !! pa \/ exists c, own !! gb = Some c /\ pa = r_pa c) ->
  i_inv i0 = i_inv i -> fresh_region i0 r -> r_len r = s2_table_size (gran_shift g) ->
  i_phys i !! r_pa r = None -> view_of i gb = Some v -> splits g v bs ->
  split i (installed i0 gb g r bs) gb g.
Proof.
  intros H H0 Hp Hg Hown Hsame Hph Hinv Hf Hl Hnone Hv (Hlen & Hby & Hperm). pose proof (pop_range _ Hp).
  destruct (Hsame gb Hp) as (Ev & _). pose proof (inv_vid _ _ _ H0). pose proof Hf as (_ & _ & _ & Hpa & Hal).
  assert (Hview : view_of (installed i0 gb g r bs) gb = Some (Table g bs)) by (apply installed_view; auto; lia).
  unfold split. split_and!; [eexists; apply installed_inv; eauto; lia|exact Ev|exact Hinv|unfold gran_of; by rewrite Hview|].
  intros a Ha. unfold hw_perm. destruct (decide (a / 2 ^ 30 = gb)) as [->|Hne].
  - rewrite Hview, Hv. simpl. apply Hperm.
  - rewrite (view_frame None own i); auto.
    + destruct (Hsame _ Ha) as (E1 & E2 & E3 & E4 & E5). pose proof (pop_range _ Ha).
      destruct (installed_other i0 gb g r bs (a / 2 ^ 30)) as (F1 & F2 & F3 & F4 & F5); [lia..|].
      unfold same_entry. rewrite <- E1, F1, F2, F3, F4, F5, E1, E2, E3, E4, E5. done.
    + intros r' E. simpl. destruct (inv_own _ _ _ H _ _ E) as (_ & _ & _ & _ & _ & _ & b & Hb & _).
      rewrite lookup_insert_ne by congruence.
      destruct (Hph (r_pa r')) as [Hx|[Hx|(c & Hc & Hx)]]; [congruence|done|].
      destruct Hne. eapply (inv_inj _ _ _ H); eauto.
Qed.

Lemma decompose_run i gb eg g : s2mpu_wf i -> populated gb -> gran_of i gb = Some eg -> gran_val g < gran_val eg ->
  exists i', decompose dma_alloc gb eg g i = Done tt i' /\ split i i' gb g.
Proof.
  intros [own H] Hp Heg Hlt. pose proof (inv_vid _ _ _ H).
  assert (Hg : g <> S2_GRAN_1GB) by (intros ->; destruct eg; simpl in Hlt; lia).
  destruct (gb_cases None own i gb H Hp) as [(attr & Hw)|(attr & cg & c & curr & Ht)]; [done|..].
  - pose proof Hw as (_ & _ & _ & Ho & Hv). unfold gran_of in Heg. rewrite Hv in Heg. simplify_eq/=.
    destruct (fill_whole own i gb attr g H Hg Hw) as (r & bs & Hrun & Hf & Hl & Hs). eexists. split.
    + rewrite (switch_run i gb g r bs None); [done|done|lia|apply H|apply H|done].
    + eapply (installed_split own own); eauto; [by apply inv_except|done|by destruct Hf as (_ & _ & ? & _)].
  - pose proof Ht as (_ & _ & _ & Ho & _ & Hcurr & _ & _ & Hv & _). unfold gran_of in Heg. rewrite Hv in Heg. simplify_eq/=.
    assert (Hfin : finer g eg) by (split; [done|by destruct Ht as (_ & _ & ? & _)]).
    destruct (fill_table own i gb attr eg c curr g H Hfin Ht) as (r & bs & Hrun & Hf & Hl & Hs).
    destruct (free_run own i gb g r bs c H Ho Hf) as (k & Hk & Hfree). eexists. split.
    + rewrite (switch_run i gb g r bs (Some (r_va c))); [exact Hfree|done|lia|apply H|apply H|done].
    + destruct Hf as (F1 & F2 & F3 & F4).
      eapply (installed_split own (delete gb own) i (removed i k c)); eauto.
      * by apply removed_inv.
      * intros. by apply lookup_delete_ne.
      * done.
      * intros pa. destruct (decide (pa = r_pa c)); [eauto|]. right. left. by apply lookup_delete_ne.
      * split_and!; try done; try lia; simpl; apply lookup_delete_None; by right.
Qed.
End Split.
