(* ===== verification/S2mpuWindow.v ===== *)
(** * Windows

    Opening and closing a run of granules and a window: [s2mpu_lib_open_close]
    updates the permissions of exactly the window. *)

From S2P Require Import Prelude S2mpu S2mpuTables S2mpuFacts S2mpuGranule S2mpuSplit.

#[local] Arguments Z.mul : simpl never.
#[local] Arguments Z.pow : simpl never.
#[local] Arguments Z.shiftl : simpl never.
#[local] Arguments Z.shiftr : simpl never.
#[local] Arguments Z.land : simpl never.
#[local] Arguments Z.lor : simpl never.
#[local] Arguments u32 : simpl never.

(** The bits of a direction. *)
Definition dir_bits (dir : dma_data_direction) : Z := dir_mask_val (dir_to_mask dir).

Lemma dir_bits_range dir : 0 <= dir_bits dir < 4.
Proof. destruct dir; vm_compute; intuition discriminate. Qed.

Lemma gran_pow g : 0 < 2 ^ gran_shift g.
Proof. destruct g; reflexivity. Qed.

Lemma gran_cmp eg g : (gran_val eg =? gran_val g) = bool_decide (eg = g).
Proof. by destruct eg, g. Qed.

Section Window.
Context (dma_alloc : nat -> gmap Z Z -> gmap Z (list Z) -> Z -> option (Z * Z)).

(** [open_close_granule] once the direction, the gigabyte and the level-1 entry
    are known. *)
Definition granule_body (fuel : nat) (open : bool) (dir : dma_data_direction) (g eg : s2_gran) (start attr : Z)
  : M s2mpu_info unit :=
  let gb := start / 2 ^ 30 in
  if gran_val eg =? gran_val g then
    if gran_val eg =? gran_val S2_GRAN_1GB then l1_update start gb attr open (dir_bits dir)
    else smpt_update start eg gb open (dir_bits dir)
  else if gran_val eg <? gran_val g then
    granules (open_close_granule dma_alloc fuel open dir eg) start eg
      (Z.to_nat (Z.shiftl 1 (gran_shift g - gran_shift eg)))
  else do! decompose dma_alloc gb eg g in open_close_granule dma_alloc fuel open dir g start.

Lemma granule_unfold fuel open dir g start i eg attr : dir <> DMA_NONE -> 0 <= start < 2 ^ 36 ->
  i_l1entry_attrs i !! Z.to_nat (start / 2 ^ 30) = Some attr -> l1_existing_granularity attr = Some eg ->
  open_close_granule dma_alloc (S fuel) open dir g start i = granule_body fuel open dir g eg start attr i.
Proof.
  intros Hd Hs L1 Hg. cbn [open_close_granule]. rewrite gb_index_small by lia.
  assert ((start / 2 ^ 30 >=? 64) = false) as -> by (rewrite Z.geb_leb; apply Z.leb_gt; dlia).
  destruct dir; try done; unfold kbind at 1, pt_read; by rewrite L1, Hg.
Qed.

(** Past the last gigabyte nothing is done. *)
Lemma granule_beyond fuel open dir g start i : 2 ^ 36 <= start < 2 ^ 40 ->
  open_close_granule dma_alloc (S fuel) open dir g start i = Done tt i.
Proof.
  intros Hs. cbn [open_close_granule]. rewrite gb_index_small by lia.
  assert ((start / 2 ^ 30 >=? 64) = true) as -> by (rewrite Z.geb_leb; apply Z.leb_le; dlia). by destruct dir.
Qed.

(** The level-1 entry behind a granularity. *)
Lemma gran_of_entry i gb g : s2mpu_wf i -> populated gb -> gran_of i gb = Some g ->
  exists own attr, inv None own i /\ i_l1entry_attrs i !! Z.to_nat gb = Some attr /\ l1_existing_granularity attr = Some g /\
    (g = S2_GRAN_1GB /\ whole_gb own i gb attr \/ exists r bs, g <> S2_GRAN_1GB /\ table_gb own i gb attr g r bs).
Proof.
  intros [own H] Hp Hg. exists own. unfold gran_of in Hg.
  destruct (gb_cases None own i gb H Hp) as [(attr & Hw)|(attr & cg & c & curr & Ht)]; [done|..]; exists attr.
  - pose proof Hw as (? & _ & ? & _ & Hv). rewrite Hv in Hg. simplify_eq/=. eauto 10.
  - pose proof Ht as (? & ? & ? & _ & _ & _ & _ & _ & Hv & _). rewrite Hv in Hg. simplify_eq/=. eauto 10.
Qed.

(** ** A granule whose gigabyte has its granularity *)

Lemma granule_same fuel open dir g start i : dir <> DMA_NONE -> s2mpu_wf i -> populated (start / 2 ^ 30) ->
  0 <= start < 2 ^ 36 -> start mod 2 ^ gran_shift g = 0 -> gran_of i (start / 2 ^ 30) = Some g ->
  exists i', open_close_granule dma_alloc (S fuel) open dir g start i = Done tt i' /\
    updated open (dir_bits dir) start (start + 2 ^ gran_shift g) i i' /\
    forall gb, populated gb -> gran_of i' gb = gran_of i gb.
Proof.
  intros Hd W Hp Hs Hal Hg. pose proof (dir_bits_range dir).
  destruct (gran_of_entry _ _ _ W Hp Hg) as (own & attr & H' & L1 & Eg & Hc).
  rewrite (granule_unfold _ _ _ _ _ _ _ _ Hd Hs L1 Eg). unfold granule_body. rewrite Z.eqb_refl.
  destruct Hc as [[-> Hw]|(r & bs & Hne & Ht)].
  - destruct (l1_update_run own i start attr open (dir_bits dir)) as (regs & l & Hrun & _ & Hu & Hgr); try done.
    eexists. split; [exact Hrun|done].
  - destruct (smpt_update_run own i start g attr r bs open (dir_bits dir)) as (i' & Hrun & _ & Hu & Hgr); try done.
    rewrite gran_cmp, bool_decide_eq_false_2 by done. eauto.
Qed.

Lemma granules_same fuel open dir g n : forall start i, dir <> DMA_NONE -> s2mpu_wf i -> populated (start / 2 ^ 30) ->
  0 <= start -> start + Z.of_nat n * 2 ^ gran_shift g <= (start / 2 ^ 30 + 1) * 2 ^ 30 ->
  start mod 2 ^ gran_shift g = 0 -> gran_of i (start / 2 ^ 30) = Some g ->
  exists i', granules (open_close_granule dma_alloc (S fuel) open dir g) start g n i = Done tt i' /\
    updated open (dir_bits dir) start (start + Z.of_nat n * 2 ^ gran_shift g) i i'.
Proof.
  induction n as [|n IH]; intros start i Hd W Hp Hs He Hal Hg.
  - exists i. split; [done|]. apply updated_nil; [done|lia].
  - pose proof (gran_pow g) as Hpos. pose proof (gran_shift_range g). pose proof (pop_range _ Hp).
    cbn [granules]. unfold kbind at 1.
    destruct (granule_same fuel open dir g start i) as (i1 & Hrun & Hu & Hgr); try done; [dlia|].
    rewrite Hrun, Z.shiftl_1_l.
    destruct (decide (n = 0%nat)) as [->|Hn].
    { exists i1. split; [done|]. by replace (Z.of_nat 1 * _) with (2 ^ gran_shift g) by lia. }
    assert (Hsame : (start + 2 ^ gran_shift g) / 2 ^ 30 = start / 2 ^ 30).
    { symmetry. apply (Z.div_unique _ _ _ (start + 2 ^ gran_shift g - start / 2 ^ 30 * 2 ^ 30)); [|lia]. left. dlia. }
    destruct (IH (start + 2 ^ gran_shift g) i1) as (i2 & Hrun2 & Hu2).
    + done.
    + apply Hu.
    + by rewrite Hsame.
    + lia.
    + rewrite Hsame. lia.
    + rewrite <- (Z.mul_1_l (2 ^ gran_shift g)) at 1. by rewrite Z.mod_add by lia.
    + rewrite Hsame, Hgr by done. done.
    + exists i2. split; [done|].
      replace (start + Z.of_nat (S n) * 2 ^ gran_shift g) with (start + 2 ^ gran_shift g + Z.of_nat n * 2 ^ gran_shift g) by lia.
      eapply updated_trans; eauto. lia.
Qed.
(** ** Any granule, with memory for the tables *)

Context `{!DmaAlloc dma_alloc, !DmaReady dma_alloc}.

(** Splitting first changes nothing about the update that follows. *)
Lemma split_updated open dm lo hi gb g i i1 i2 :
  split i i1 gb g -> updated open dm lo hi i1 i2 -> updated open dm lo hi i i2.
Proof.
  intros (_ & Hv & Hi & _ & Hp) [W V C (l & El & I)]. split; [done|congruence| |].
  - intros a Ha. by rewrite (C a Ha), (Hp a Ha).
  - exists l. rewrite <- Hi, <- Hv. done.
Qed.

Lemma granule_coarser start eg g : gran_val eg < gran_val g -> start mod 2 ^ gran_shift g = 0 ->
  Z.of_nat (Z.to_nat (Z.shiftl 1 (gran_shift g - gran_shift eg))) * 2 ^ gran_shift eg = 2 ^ gran_shift g /\
  start mod 2 ^ gran_shift eg = 0.
Proof.
  intros Hlt Hal. assert (gran_shift eg <= gran_shift g) by (destruct eg, g; simpl in *; lia).
  pose proof (gran_shift_range eg). rewrite Z.shiftl_1_l, Z2Nat.id by lia.
  rewrite <- Z.pow_add_r by lia. split; [f_equal; lia|].
  apply Z.mod_divide in Hal as [q ->]; [|pose proof (gran_pow g); lia].
  replace (gran_shift g) with (gran_shift g - gran_shift eg + gran_shift eg) by lia.
  rewrite Z.pow_add_r, Z.mul_assoc by lia. apply Z.mod_mul. pose proof (gran_pow eg). lia.
Qed.

Lemma granule_any fuel open dir g start i : (2 <= fuel)%nat -> dir <> DMA_NONE -> s2mpu_wf i ->
  populated (start / 2 ^ 30) -> 0 <= start < 2 ^ 36 -> start mod 2 ^ gran_shift g = 0 ->
  exists i', open_close_granule dma_alloc fuel open dir g start i = Done tt i' /\
    updated open (dir_bits dir) start (start + 2 ^ gran_shift g) i i'.
Proof.
  intros Hf Hd W Hp Hs Hal. destruct fuel as [|[|fuel]]; [lia..|]. set (gb := start / 2 ^ 30) in *.
  assert (exists eg, gran_of i gb = Some eg) as [eg Eg].
  { destruct W as [own H]. destruct (view_populated None own i gb H Hp) as [v E]; [done|]. unfold gran_of. rewrite E. by eexists. }
  destruct (decide (eg = g)) as [->|Hne].
  { destruct (granule_same (S fuel) open dir g start i) as (i' & ? & ? & _); eauto. }
  destruct (gran_of_entry _ _ _ W Hp Eg) as (own & attr & _ & L1 & Hg & _).
  rewrite (granule_unfold _ _ _ _ _ _ _ _ Hd Hs L1 Hg). unfold granule_body. fold gb.
  rewrite gran_cmp, bool_decide_eq_false_2 by done. destruct (Z.ltb_spec (gran_val eg) (gran_val g)) as [Hlt|Hge].
  - destruct (granule_coarser start eg g Hlt Hal) as [Hn Hal']. destruct (granule_in_gb start g Hal) as [Hin _].
    destruct (granules_same fuel open dir eg (Z.to_nat (Z.shiftl 1 (gran_shift g - gran_shift eg))) start i)
      as (i' & Hrun & Hu); try done; [lia|rewrite Hn; lia|]. rewrite Hn in Hu. eauto.
  - assert (Hlt : gran_val g < gran_val eg) by (destruct eg, g; simpl in *; try lia; done).
    destruct (decompose_run dma_alloc i gb eg g W Hp Eg Hlt) as (i1 & Hrun & Hsp). unfold kbind. rewrite Hrun.
    pose proof Hsp as (W1 & _ & _ & Hg1 & _).
    destruct (granule_same fuel open dir g start i1) as (i2 & Hrun2 & Hu & _); try done.
    exists i2. split; [done|]. by eapply split_updated.
Qed.

(** A start the window functions accept: an existing gigabyte, or past the end. *)
Definition reachable_gb (a : Z) : Prop := populated (a / 2 ^ 30) \/ 2 ^ 36 <= a < 2 ^ 40.

Lemma granules_any fuel open dir g n : forall start i, (2 <= fuel)%nat -> dir <> DMA_NONE -> s2mpu_wf i -> 0 <= start ->
  (forall a, start <= a < start + Z.of_nat n * 2 ^ gran_shift g -> reachable_gb a) -> start mod 2 ^ gran_shift g = 0 ->
  exists i', granules (open_close_granule dma_alloc fuel open dir g) start g n i = Done tt i' /\
    updated open (dir_bits dir) start (start + Z.of_nat n * 2 ^ gran_shift g) i i'.
Proof.
  induction n as [|n IH]; intros start i Hf Hd W Hs Hr Hal.
  - exists i. split; [done|]. apply updated_nil; [done|lia].
  - pose proof (gran_pow g) as Hpos. cbn [granules]. unfold kbind at 1. rewrite Z.shiftl_1_l.
    assert (exists i1, open_close_granule dma_alloc fuel open dir g start i = Done tt i1 /\
      updated open (dir_bits dir) start (start + 2 ^ gran_shift g) i i1) as (i1 & -> & Hu).
    { destruct (Hr start) as [Hp|Hb]; [lia| |].
      - pose proof (pop_range _ Hp). apply granule_any; auto. dlia.
      - exists i. destruct fuel; [lia|]. split; [by apply granule_beyond|]. apply updated_nil; [done|].
        intros a Ha%pop_range. dlia. }
    destruct (IH (start + 2 ^ gran_shift g) i1) as (i2 & Hrun2 & Hu2); [done|done|apply Hu|lia| | |].
    + intros a Ha. apply Hr. lia.
    + rewrite <- (Z.mul_1_l (2 ^ gran_shift g)) at 1. by rewrite Z.mod_add by lia.
    + exists i2. split; [done|].
      replace (start + Z.of_nat (S n) * 2 ^ gran_shift g) with (start + 2 ^ gran_shift g + Z.of_nat n * 2 ^ gran_shift g) by lia.
      eapply updated_trans; eauto. lia.
Qed.

(** ** A window *)

Lemma aligned_mask num g : 0 <= num < 2 ^ 64 ->
  Z.land num (u64 (Z.shiftl 0xffffffffffffffff (gran_shift g))) = num <-> num mod 2 ^ gran_shift g = 0.
Proof.
  intros Hn. pose proof (gran_shift_range g). set (s := gran_shift g) in *.
  assert (Z.land num (u64 (Z.shiftl 0xffffffffffffffff s)) = num / 2 ^ s * 2 ^ s) as ->.
  { rewrite <- Z.shiftr_div_pow2, <- Z.shiftl_mul_pow2 by lia. apply Z.bits_inj'. intros n Hn'.
    rewrite Z.land_spec. change 0xffffffffffffffff with (Z.ones 64). unfold u64.
    destruct (decide (n < s)).
    - rewrite Z.mod_pow2_bits_low, !Z.shiftl_spec_low by lia. by rewrite andb_false_r.
    - rewrite (Z.shiftl_spec (Z.shiftr num s)), Z.shiftr_spec by lia. replace (n - s + s) with n by lia.
      destruct (decide (n < 64)).
      + rewrite Z.mod_pow2_bits_low, Z.shiftl_spec, Z.ones_spec_low by lia. by rewrite andb_true_r.
      + rewrite Z.mod_pow2_bits_high, andb_false_r by lia.
        rewrite <- (Z.mod_small num (2 ^ 64)) by lia. by rewrite Z.mod_pow2_bits_high by lia. }
  pose proof (gran_pow g). rewrite (Z.div_mod num (2 ^ s)) at 2 by (subst s; lia). lia.
Qed.

Lemma get_gran_spec num : 0 <= num < 2 ^ 64 -> num mod 2 ^ 12 = 0 ->
  exists g, get_gran num = Some g /\ num mod 2 ^ gran_shift g = 0.
Proof.
  intros Hn Ha. unfold get_gran.
  repeat match goal with |- context [if ?x =? ?y then _ else _] => destruct (Z.eqb_spec x y) end;
    [eexists; split; [done|]; by apply aligned_mask..|].
  pose proof (proj2 (aligned_mask num S2_GRAN_4KB Hn) Ha). done.
Qed.

Lemma is_gran_aligned_false val : 0 <= val -> is_gran_aligned val S2_GRAN_4KB = false -> 0 <= val < 2 ^ 36 /\ val mod 2 ^ 12 = 0.
Proof.
  intros Hv. unfold is_gran_aligned. intros E%negb_false_iff%Z.eqb_eq.
  change (Z.land (Z.shiftl WHI_PHY_ADDR_MASK (gran_shift S2_GRAN_4KB)) WHI_PHY_ADDR_MASK) with (Z.shiftl (Z.ones 24) 12) in E.
  rewrite <- E. split.
  - rewrite Z.land_comm. apply land_bound; [lia|]. done.
  - rewrite Z.shiftl_mul_pow2, <- (land_low _ 12), <- Z.land_assoc by lia.
    change (Z.land (Z.ones 24 * 2 ^ 12) (2 ^ 12 - 1)) with 0. by rewrite Z.land_0_r.
Qed.
Lemma is_gran_aligned_true val : 0 <= val < 2 ^ 36 -> val mod 2 ^ 12 = 0 -> is_gran_aligned val S2_GRAN_4KB = false.
Proof. intros Hv Ha. unfold is_gran_aligned. rewrite (mask_aligned val S2_GRAN_4KB) by done. by rewrite Z.eqb_refl. Qed.

(** The windows the driver accepts: page aligned, within 36 bits, and clear of
    the hole between 4 GB and 34 GB. Nothing bounds their end above the hole. *)
Definition good_window (start len : Z) : Prop :=
  0 <= start < 2 ^ 36 /\ 0 <= len < 2 ^ 36 /\ start mod 2 ^ 12 = 0 /\ len mod 2 ^ 12 = 0 /\
  (start < 2 ^ 32 /\ start + len <= 2 ^ 32 \/ 34 * 2 ^ 30 <= start).

#[export] Instance good_window_dec start len : Decision (good_window start len).
Proof. unfold good_window. apply _. Defined.

Lemma validate_iff start len : 0 <= start < 2 ^ 64 -> 0 <= len < 2 ^ 64 ->
  validate start len = (if decide (good_window start len) then 0 else -1).
Proof.
  intros Hs Hl. unfold validate, WHI_RESERVED_START, WHI_RESERVED_END.
  assert (Ha : forall v, 0 <= v -> is_gran_aligned v S2_GRAN_4KB = false <-> 0 <= v < 2 ^ 36 /\ v mod 2 ^ 12 = 0).
  { intros v Hv. split; [by apply is_gran_aligned_false|]. intros []. by apply is_gran_aligned_true. }
  pose proof (Ha start ltac:(lia)) as Hs'. pose proof (Ha len ltac:(lia)) as Hl'. 
  assert (forall b : bool, (if b then -1 else -1) = -1) as Hm by by intros [].
  destruct (is_gran_aligned start S2_GRAN_4KB), (is_gran_aligned len S2_GRAN_4KB); rewrite ?Hm;
    [rewrite decide_False; [done|]; intros (? & ? & ? & ? & _); discriminate (proj2 Hs' ltac:(done))
    |rewrite decide_False; [done|]; intros (? & ? & ? & ? & _); discriminate (proj2 Hs' ltac:(done))
    |rewrite decide_False; [done|]; intros (? & ? & ? & ? & _); discriminate (proj2 Hl' ltac:(done))|].
  destruct (proj1 Hs' eq_refl), (proj1 Hl' eq_refl). rewrite u64_small by lia. unfold good_window.
  destruct (Z.ltb_spec start 4294967296); [destruct (Z.gtb_spec (start + len) 4294967296)|destruct (Z.leb_spec start 36507222015)];
    case_decide; try done; exfalso; change (2 ^ 32) with 4294967296 in *; change (34 * 2 ^ 30) with 36507222016 in *; intuition lia.
Qed.

Lemma good_window_gb start len a : good_window start len -> start <= a < start + len -> reachable_gb a.
Proof.
  intros (Hs & Hl & _ & _ & H) Ha. unfold reachable_gb, populated.
  destruct (decide (2 ^ 36 <= a)); [right; lia|left]. change (2 ^ 36) with 68719476736 in *. change (2 ^ 30) with 1073741824 in *.
  change (2 ^ 32) with 4294967296 in *. dlia.
Qed.

Lemma window_spec fuel start len open dir i : (2 <= fuel)%nat -> dir <> DMA_NONE -> s2mpu_wf i -> good_window start len ->
  exists i', s2mpu_lib_open_close dma_alloc fuel start len open dir i = Done 0 i' /\
    updated open (dir_bits dir) start (start + len) i i'.
Proof.
  intros Hf Hd W Hw. pose proof Hw as (Hs & Hl & Has & Hal & _). unfold s2mpu_lib_open_close.
  rewrite validate_iff by lia. rewrite decide_True by done. change (negb (0 =? 0)) with false. cbv iota.
  destruct (get_gran_spec start) as (ag & -> & Ha); [lia|done|].
  destruct (get_gran_spec len) as (lg & -> & Hb); [lia|done|].
  set (g := if gran_val ag <? gran_val lg then ag else lg).
  assert (Hg : start mod 2 ^ gran_shift g = 0 /\ len mod 2 ^ gran_shift g = 0).
  { unfold g. destruct (Z.ltb_spec (gran_val ag) (gran_val lg)) as [Hlt|Hge].
    - split; [done|]. by destruct (granule_coarser len ag lg Hlt Hb).
    - split; [|done]. destruct (decide (gran_val ag = gran_val lg)) as [E|Hne].
      + assert (lg = ag) as -> by (destruct lg, ag; simpl in *; try lia; done). done.
      + by destruct (granule_coarser start lg ag ltac:(lia) Ha). }
  destruct Hg as [Hg1 Hg2]. pose proof (gran_pow g). pose proof (gran_shift_range g).
  unfold open_close_granules, kbind. set (n := Z.to_nat (Z.shiftr len (gran_shift g))).
  assert (Hn : Z.of_nat n * 2 ^ gran_shift g = len).
  { unfold n. rewrite Z.shiftr_div_pow2, Z2Nat.id by (lia || apply Z.div_pos; lia).
    pose proof (Z.div_mod len (2 ^ gran_shift g)). lia. }
  destruct (granules_any fuel open dir g n start i) as (i' & -> & Hu); try done; [lia| |].
  - rewrite Hn. intros a. by apply good_window_gb.
  - rewrite Hn in Hu. by exists i'.
Qed.
End Window.
