(* ===== verification/S2mpuSetup.v ===== *)
(** * Setting an S2MPU up, resuming it, releasing it

    [s2mpu_lib_init] blocks everything, [s2mpu_lib_restore] gives the hardware the
    permissions the driver recorded, [s2mpu_lib_deinit] blocks everything and
    frees the tables. Their loops write level-1 entries; [wrote] is the relation
    that says which. *)

From S2P Require Import Prelude S2mpu S2mpuTables S2mpuFacts S2mpuGranule.

#[local] Arguments Z.mul : simpl never.
#[local] Arguments Z.pow : simpl never.
#[local] Arguments Z.shiftl : simpl never.
#[local] Arguments Z.shiftr : simpl never.
#[local] Arguments Z.land : simpl never.
#[local] Arguments Z.lor : simpl never.
#[local] Arguments u32 : simpl never.
#[local] Arguments Z.testbit : simpl never.

(** ** Writes to the level-1 entries *)

(** The fields no register write touches. *)
Definition core (i : s2mpu_info) :=
  (i_fwnode i, i_l1entry_attrs i, i_l2table_addrs i, i_smpt_regions i, i_sids i, i_vid i, i_vmap i, i_phys i).

Abbreviation entries := (Z -> Z -> option Z).

(** From [i] to [i'] exactly the attributes [A] and the table addresses [D] of
    the level-1 entries (virtual machine, gigabyte) were written. *)
Record wrote (A D : entries) (i i' : s2mpu_info) : Prop := MkWrote {
  wr_core : core i' = core i;
  wr_attr : forall n gb, 0 <= n -> 0 <= gb < 64 ->
    rd (i_regs i') (S2MPU_L1ENTRY_ATTR n gb) = default (rd (i_regs i) (S2MPU_L1ENTRY_ATTR n gb)) (A n gb);
  wr_addr : forall n gb, 0 <= n -> 0 <= gb < 64 ->
    rd (i_regs i') (S2MPU_L1ENTRY_L2TABLE_ADDR n gb) = default (rd (i_regs i) (S2MPU_L1ENTRY_L2TABLE_ADDR n gb)) (D n gb)
}.

Definition no_entries : entries := fun _ _ => None.
Definition then_entries (A1 A2 : entries) : entries := fun n gb =>
  match A2 n gb with Some v => Some v | None => A1 n gb end.
Definition one_entry (n gb v : Z) : entries := fun n' gb' =>
  if decide (n' = n /\ gb' = gb) then Some v else None.
(** Entries [(n, gb)] with [gb] in the list. *)
Definition some_entries (n : Z) (gbs : list Z) (v : Z -> Z) : entries := fun n' gb' =>
  if decide (n' = n /\ gb' ∈ gbs) then Some (v gb') else None.

Lemma wrote_refl i : wrote no_entries no_entries i i.
Proof. by split. Qed.

Lemma wrote_trans A1 D1 A2 D2 i1 i2 i3 : wrote A1 D1 i1 i2 -> wrote A2 D2 i2 i3 ->
  wrote (then_entries A1 A2) (then_entries D1 D2) i1 i3.
Proof.
  intros [C1 E1 F1] [C2 E2 F2]. split; [congruence|..]; intros n gb Hn Hgb; unfold then_entries.
  - rewrite E2, E1 by done. by destruct (A2 n gb).
  - rewrite F2, F1 by done. by destruct (D2 n gb).
Qed.

Lemma wrote_ext A D A' D' i i' : wrote A D i i' -> (forall n gb, A n gb = A' n gb) -> (forall n gb, D n gb = D' n gb) ->
  wrote A' D' i i'.
Proof. intros [C E F] HA HD. split; [done|..]; intros n gb Hn Hgb; [rewrite <- HA|rewrite <- HD]; auto. Qed.

Lemma wp_low v off Q i : off < 0x4000 -> (forall i', wrote no_entries no_entries i i' -> Q tt i') -> wp (raw_writel v off) Q i.
Proof.
  intros Ho HQ. apply (wp_eq _ _ _ tt (i <| i_regs := <[off := u32 v]> (i_regs i) |>
    <| i_inv := i_inv i ++ mptc_effect i (u32 v) off |>)); [done|]. apply HQ.
  split; [done|..]; intros n gb Hn Hgb; simpl; apply rd_insert_ne; unfold S2MPU_L1ENTRY_ATTR, S2MPU_L1ENTRY_L2TABLE_ADDR; lia.
Qed.

Lemma attr_write v n gb i : 0 <= n -> 0 <= gb < 64 ->
  wp (raw_writel v (S2MPU_L1ENTRY_ATTR n gb)) (fun _ => wrote (one_entry n gb (u32 v)) no_entries i) i.
Proof.
  intros Hn Hgb. unfold wp. rewrite raw_writel_entry by (unfold S2MPU_L1ENTRY_ATTR; lia).
  split; [done|..]; intros n' gb' Hn' Hgb'; simpl; unfold one_entry.
  - case_decide as Hd; [destruct Hd as [-> ->]; apply rd_insert_eq|apply rd_insert_ne]. unfold S2MPU_L1ENTRY_ATTR. lia.
  - apply rd_insert_ne. unfold S2MPU_L1ENTRY_ATTR, S2MPU_L1ENTRY_L2TABLE_ADDR. lia.
Qed.

Lemma addr_write v n gb i : 0 <= n -> 0 <= gb < 64 ->
  wp (raw_writel v (S2MPU_L1ENTRY_L2TABLE_ADDR n gb)) (fun _ => wrote no_entries (one_entry n gb (u32 v)) i) i.
Proof.
  intros Hn Hgb. unfold wp. rewrite raw_writel_entry by (unfold S2MPU_L1ENTRY_L2TABLE_ADDR; lia).
  split; [done|..]; intros n' gb' Hn' Hgb'; simpl; unfold one_entry.
  - apply rd_insert_ne. unfold S2MPU_L1ENTRY_ATTR, S2MPU_L1ENTRY_L2TABLE_ADDR. lia.
  - case_decide as Hd; [destruct Hd as [-> ->]; apply rd_insert_eq|apply rd_insert_ne]. unfold S2MPU_L1ENTRY_L2TABLE_ADDR. lia.
Qed.

(** A loop whose iteration [k] writes entry [(n, k)], with the values [a k] and
    [d k] as the state at the start of the loop determines them. *)
Lemma wp_for_entries (body : Z -> M s2mpu_info unit) (I : s2mpu_info -> Prop) n (a : Z -> Z) (d : option (Z -> Z)) ks :
  (forall i i', I i -> core i' = core i -> I i') ->
  (forall k i, k ∈ ks -> I i ->
     wp (body k) (fun _ => wrote (one_entry n k (a k)) (match d with Some f => one_entry n k (f k) | None => no_entries end) i) i) ->
  forall i, I i ->
  wp (for_each ks body) (fun _ => wrote (some_entries n ks a) (match d with Some f => some_entries n ks f | None => no_entries end) i) i.
Proof.
  intros Hst. induction ks as [|k ks IH]; intros Hb i Hi; simpl.
  - apply wp_ret. eapply wrote_ext; [apply wrote_refl|..]; intros n' gb'; [|destruct d; [|done]];
      unfold some_entries; rewrite decide_False; set_solver.
  - apply wp_bind. eapply wp_mono; [apply Hb; [left|done]|]. simpl. intros _ i1 H1.
    eapply wp_mono; [apply IH; [set_solver|]|]; [eapply Hst; [done|apply H1]|].
    simpl. intros _ i2 H2. eapply wrote_ext; [eapply wrote_trans; [exact H1|exact H2]|..]; intros n' gb'.
    + unfold then_entries, some_entries, one_entry. repeat case_decide; try done; set_solver.
    + destruct d as [f|]; [|done]. unfold then_entries, some_entries, one_entry. repeat case_decide; try done; set_solver.
Qed.

(** The common case: one constant in all attributes of a virtual machine. *)
Lemma wp_for_attr v n ks Q i : 0 <= n -> 0 <= v < 2 ^ 32 -> Forall (fun gb => 0 <= gb < 64) ks ->
  (forall i', wrote (some_entries n ks (fun _ => v)) no_entries i i' -> Q tt i') ->
  wp (for_each ks (fun gb => raw_writel v (S2MPU_L1ENTRY_ATTR n gb))) Q i.
Proof.
  intros Hn Hv Hk HQ. eapply wp_mono.
  - apply (wp_for_entries _ (fun _ => True) n (fun _ => v) None); auto.
    intros k i' Hin _. rewrite Forall_forall in Hk. 
    eapply wp_mono; [by apply attr_write; auto|]. simpl. intros _ i2. by rewrite u32_small.
  - simpl. intros [] i' H. by apply HQ.
Qed.

(** ** Which gigabytes the loops visit *)

Lemma gb_loops gb : populated gb <-> gb ∈ gb_low \/ gb ∈ gb_high.
Proof. unfold gb_low, gb_high. rewrite !elem_of_seqZ. unfold populated. lia. Qed.

Lemma gb_low_range : Forall (fun gb => 0 <= gb < 64) gb_low.
Proof. apply Forall_forall. intros gb H%elem_of_seqZ. lia. Qed.
Lemma gb_high_range : Forall (fun gb => 0 <= gb < 64) gb_high.
Proof. apply Forall_forall. intros gb H%elem_of_seqZ. lia. Qed.

Definition all_gbs (A : entries) (n : Z) (v : Z -> Z) : Prop := forall gb, populated gb -> A n gb = Some (v gb).

(** Both loops together write every existing gigabyte of virtual machine [n]. *)
Lemma both_loops n v : all_gbs (then_entries (some_entries n gb_low v) (some_entries n gb_high v)) n v.
Proof.
  intros gb [H|H]%gb_loops; unfold then_entries, some_entries; repeat case_decide; try done; tauto.
Qed.

Lemma some_entries_other n ks v n' gb : n' <> n -> some_entries n ks v n' gb = None.
Proof. intros. unfold some_entries. by rewrite decide_False by tauto. Qed.

Lemma then_None A1 A2 n gb : A2 n gb = None -> then_entries A1 A2 n gb = A1 n gb.
Proof. unfold then_entries. by intros ->. Qed.

(** ** Resume *)

Lemma core_eq i i' : core i' = core i ->
  i_l1entry_attrs i' = i_l1entry_attrs i /\ i_l2table_addrs i' = i_l2table_addrs i /\ i_smpt_regions i' = i_smpt_regions i /\
  i_sids i' = i_sids i /\ i_vid i' = i_vid i /\ i_vmap i' = i_vmap i /\ i_phys i' = i_phys i /\
  i_fwnode i' = i_fwnode i.
Proof. unfold core. intros [=]. done. Qed.

Lemma wp_ssmt Q i : (forall i', wrote no_entries no_entries i i' -> Q tt i') -> wp ssmt_set_vid Q i.
Proof.
  intros HQ. unfold ssmt_set_vid. apply wp_bind, wp_get.
  cut (forall sids v j, wrote no_entries no_entries i j ->
    wp (for_each sids (fun sid => do! ssmt_writel v (0x1000 + 0x4 * sid) in ssmt_writel v (0x1200 + 0x4 * sid))) Q j).
  { intros H. apply H, wrote_refl. }
  induction sids as [|sid sids IH]; intros v j Hj; simpl; [by apply wp_ret, HQ|].
  apply wp_bind, wp_bind, wp_mod, wp_mod, IH. destruct Hj as [C E F]. by split.
Qed.

#[local] Arguments for_each : simpl never.

(** One iteration of the restoring loops. *)
Lemma restore_gb_wp i0 i gb : length (i_l1entry_attrs i0) = WHI_MAX_GB_GRANULES ->
  length (i_l2table_addrs i0) = WHI_MAX_GB_GRANULES -> 0 <= i_vid i0 -> 0 <= gb < 64 -> core i = core i0 ->
  wp (let! a := pt_read i_l2table_addrs gb in
      do! raw_writel a (S2MPU_L1ENTRY_L2TABLE_ADDR (i_vid i0) gb) in
      let! t := pt_read i_l1entry_attrs gb in
      raw_writel t (S2MPU_L1ENTRY_ATTR (i_vid i0) gb))
    (fun _ => wrote (one_entry (i_vid i0) gb (u32 (default 0 (i_l1entry_attrs i0 !! Z.to_nat gb))))
                    (one_entry (i_vid i0) gb (u32 (default 0 (i_l2table_addrs i0 !! Z.to_nat gb)))) i) i.
Proof.
  intros H1 H2 Hv Hgb Hc. pose proof (core_eq _ _ Hc) as (E1 & E2 & _). unfold WHI_MAX_GB_GRANULES in *.
  destruct (lookup_lt_is_Some_2 (i_l1entry_attrs i0) (Z.to_nat gb)) as [t Et]; [lia|].
  destruct (lookup_lt_is_Some_2 (i_l2table_addrs i0) (Z.to_nat gb)) as [a Ea]; [lia|].
  apply wp_bind, (wp_eq _ _ _ a i); [unfold pt_read; by rewrite E2, Ea|].
  apply wp_bind. eapply wp_mono; [by apply addr_write|]. simpl. intros _ i1 W1.
  pose proof (core_eq _ _ (wr_core _ _ _ _ W1)) as (F1 & _).
  apply wp_bind, (wp_eq _ _ _ t i1); [unfold pt_read; by rewrite F1, E1, Et|].
  eapply wp_mono; [by apply attr_write|]. simpl. intros _ i2 W2. rewrite Et, Ea.
  eapply wrote_ext; [eapply wrote_trans; eassumption|..]; intros n' gb'; unfold then_entries, no_entries; simpl; [|done].
  by destruct (one_entry _ _ _ _ _).
Qed.

(** A restoring loop, in a state whose tables are those of [i]. *)
Lemma restore_loop own i ks j : inv None own i -> Forall (fun gb => 0 <= gb < 64) ks -> core j = core i ->
  wp (for_each ks (fun gb =>
        let! a := pt_read i_l2table_addrs gb in
        do! raw_writel a (S2MPU_L1ENTRY_L2TABLE_ADDR (i_vid i) gb) in
        let! t := pt_read i_l1entry_attrs gb in
        raw_writel t (S2MPU_L1ENTRY_ATTR (i_vid i) gb)))
    (fun _ => wrote (some_entries (i_vid i) ks (fun k => u32 (default 0 (i_l1entry_attrs i !! Z.to_nat k))))
                    (some_entries (i_vid i) ks (fun k => u32 (default 0 (i_l2table_addrs i !! Z.to_nat k)))) j) j.
Proof.
  intros H Hks Hj. pose proof (inv_vid _ _ _ H).
  apply (wp_for_entries _ (fun j => core j = core i) (i_vid i)
    (fun k => u32 (default 0 (i_l1entry_attrs i !! Z.to_nat k)))
    (Some (fun k => u32 (default 0 (i_l2table_addrs i !! Z.to_nat k))))); [congruence| |done].
  intros k j' Hk Hj'. rewrite Forall_forall in Hks. apply restore_gb_wp; auto; [apply H|apply H|lia].
Qed.

(** The registers hold the driver's tables. *)
Definition reflects (i : s2mpu_info) : Prop := forall gb, populated gb ->
  rd (i_regs i) (S2MPU_L1ENTRY_ATTR (i_vid i) gb) = u32 (default 0 (i_l1entry_attrs i !! Z.to_nat gb)) /\
  rd (i_regs i) (S2MPU_L1ENTRY_L2TABLE_ADDR (i_vid i) gb) = u32 (default 0 (i_l2table_addrs i !! Z.to_nat gb)).

Lemma reflects_inv own i i' : inv None own i -> core i' = core i -> reflects i' ->
  inv None own i' /\ forall gb, populated gb -> view_of i' gb = view_of i gb.
Proof.
  intros H (E1 & E2 & E3 & E4 & E5 & E6 & E7 & _)%core_eq Hr.
  assert (Hgb : forall gb, populated gb -> gb_ok own i' gb /\ view_of i' gb = view_of i gb).
  { intros gb Hp. destruct (Hr gb Hp) as [Ra Rd]. rewrite E5, E1, E2 in *.
    destruct (inv_gb _ _ _ H gb Hp) as (attr & L1 & Hb & Hreg & Hg); [done|].
    rewrite L1 in Ra. simpl in Ra. rewrite u32_small in Ra by done.
    unfold gb_ok, view_of. rewrite E1, E2, E5, E7, Ra, Rd, Hreg.
    destruct (l1_existing_granularity attr) as [g|] eqn:Eg; [|done]. destruct g;
      [..|by split; [exists attr; rewrite Eg|]]; destruct Hg as (r & Ho & Hrd & L2 & Hl); rewrite L2; simpl;
      rewrite (u32_small _ (l2_addr_range _)), Hrd; (split; [|done]); exists attr; rewrite Eg; eauto 10. }
  split; [|intros gb Hp; by apply Hgb]. split; rewrite ?E1, ?E2, ?E3, ?E5, ?E6, ?E7; try by apply H.
  - intros gb Hp _. by apply Hgb.
  - intros gb r Ho. destruct (inv_own _ _ _ H gb r Ho) as (? & ? & ?). split_and!; auto.
    eapply region_ok_frame; [done|by rewrite E6|by rewrite E7].
Qed.

(** The unit is enabled and its whole cache has just been dropped. *)
Definition enabled (i : s2mpu_info) : Prop :=
  rd (i_regs i) S2MPU_CTRL0 = ctrl0_on /\ last (i_inv i) = Some InvAllVids.

Lemma wp_enable {A} (x : A) i :
  wp (do! raw_writel ctrl0_on S2MPU_CTRL0 in do! raw_writel invalidate_all S2MPU_ALL_INVALIDATION in kret x)
    (fun r i' => r = x /\ wrote no_entries no_entries i i' /\ enabled i') i.
Proof.
  unfold wp, kbind, raw_writel, kret; simpl. rewrite app_nil_r. split_and!; [done| |].
  - split; [done|..]; intros n gb Hn Hgb; simpl; rewrite !rd_insert_ne; try done;
      unfold S2MPU_ALL_INVALIDATION, S2MPU_CTRL0, S2MPU_L1ENTRY_ATTR, S2MPU_L1ENTRY_L2TABLE_ADDR; lia.
  - split; simpl; [by rewrite rd_insert_ne, rd_insert_eq|]. apply last_snoc.
Qed.

Lemma wp_open_vm0 i : wp open_vm0 (fun _ i' => exists A, wrote A no_entries i i' /\ all_gbs A 0 (fun _ => allow_all) /\
  forall n gb, n <> 0 -> A n gb = None) i.
Proof.
  unfold open_vm0. apply wp_bind, wp_for_attr; [done|done|apply gb_low_range|]. intros i1 W1.
  apply wp_bind, wp_for_attr; [done|done|apply gb_high_range|]. intros i2 W2.
  apply wp_ssmt. intros i3 W3. eexists. split; [|split].
  - eapply wrote_ext; [eapply wrote_trans; [eapply wrote_trans; eassumption|eassumption]| |]; [done|]. by intros.
  - apply both_loops.
  - intros n gb Hn. unfold then_entries, no_entries. by rewrite !some_entries_other.
Qed.

Lemma restore_spec i i0 : s2mpu_wf i -> core i0 = core i ->
  wp s2mpu_lib_restore (fun ret i' => ret = 0 /\ s2mpu_wf i' /\ core i' = core i /\ enabled i' /\
    (forall gb, populated gb -> view_of i' gb = view_of i gb) /\
    (i_vid i = 1 -> forall gb, populated gb -> rd (i_regs i') (S2MPU_L1ENTRY_ATTR 0 gb) = allow_all)) i0.
Proof.
  intros [own H] Hc. pose proof (core_eq _ _ Hc) as (C1 & C2 & _ & _ & C5 & _). pose proof (inv_vid _ _ _ H) as Hv.
  unfold s2mpu_lib_restore. apply wp_bind, wp_get. rewrite C5.
  apply wp_bind. eapply wp_mono; [apply (restore_loop own i); [done|apply gb_low_range|done]|]. simpl. intros _ i1 W1.
  apply wp_bind. eapply wp_mono; [apply (restore_loop own i); [done|apply gb_high_range|]|].
  { by rewrite (wr_core _ _ _ _ W1). }
  simpl. intros _ i2 W2. pose proof (wrote_trans _ _ _ _ _ _ _ W1 W2) as W12.
  apply wp_bind. eapply (wp_mono _ (fun _ i3 => exists A, wrote A no_entries i2 i3 /\ (forall gb, A (i_vid i) gb = None) /\
    (i_vid i = 1 -> all_gbs A 0 (fun _ => allow_all)))).
  { destruct (Z.eqb_spec (i_vid i) 1) as [E|E].
    - eapply wp_mono; [apply wp_open_vm0|]. simpl. intros _ i3 (A & W & Ha & Hn). exists A.
      split_and!; auto. intros gb. apply Hn. lia.
    - apply wp_ret. exists no_entries. split_and!; [apply wrote_refl|done|done]. }
  simpl. intros _ i3 (A & W3 & HA & HA1). pose proof (wrote_trans _ _ _ _ _ _ _ W12 W3) as W13.
  eapply wp_mono; [apply wp_enable|]. simpl. intros ret i4 (-> & W4 & Hen).
  pose proof (wrote_trans _ _ _ _ _ _ _ W13 W4) as [K1 K2 K3]. rewrite Hc in K1. pose proof (core_eq _ _ K1) as (D1 & D2 & _ & _ & D5 & _).
  destruct (reflects_inv own i i4 H K1) as [Hi Hview].
  { intros gb Hp. pose proof (pop_range _ Hp). rewrite D5, D1, D2, K2, K3 by lia. rewrite !(then_None _ no_entries) by done.
    rewrite then_None by apply HA. rewrite !both_loops by done. done. }
  split_and!; [done|by exists own|done|done|done|].
  intros Hv1 gb Hp. pose proof (pop_range _ Hp). rewrite K2, (then_None _ no_entries) by (done || lia).
  unfold then_entries at 1. by rewrite HA1.
Qed.

(** ** Set-up *)

(** The entries of all the virtual machines [ns] for the gigabytes [ks] get [v]. *)
Definition fills (A : entries) (v : Z) (ns ks : list Z) : Prop :=
  (forall n gb, n ∈ ns -> gb ∈ ks -> A n gb = Some v) /\ forall n gb x, A n gb = Some x -> x = v.

Lemma wp_for_vms v ks ns : 0 <= v < 2 ^ 32 -> Forall (fun gb => 0 <= gb < 64) ks -> Forall (fun n => 0 <= n) ns -> forall i,
  wp (for_each ns (fun n => for_each ks (fun gb => raw_writel v (S2MPU_L1ENTRY_ATTR n gb))))
    (fun _ i' => exists A, wrote A no_entries i i' /\ fills A v ns ks) i.
Proof.
  intros Hv Hks. induction 1 as [|n ns Hn Hns IH]; intros i; unfold for_each at 1; fold (@for_each s2mpu_info).
  - apply wp_ret. exists no_entries. split; [apply wrote_refl|]. split; [|done]. intros ?? []%not_elem_of_nil.
  - apply wp_bind, wp_for_attr; auto. intros i1 W1. eapply wp_mono; [apply IH|]. simpl. intros _ i2 (A & W2 & HA & Hv2).
    exists (then_entries (some_entries n ks (fun _ => v)) A). split.
    + eapply wrote_ext; [eapply wrote_trans; eassumption|done|done].
    + unfold then_entries, some_entries. split.
      * intros n' gb Hn' Hgb. destruct (A n' gb) as [x|] eqn:E; [by rewrite (Hv2 _ _ _ E)|].
        apply elem_of_cons in Hn' as [->|Hn']; [by rewrite decide_True|]. by rewrite HA in E.
      * intros n' gb x. destruct (A n' gb) as [y|] eqn:E; [intros [= <-]; by eapply Hv2|].
        case_decide; [by intros [= <-]|done].
Qed.

Lemma wp_for_l1 v ks : Forall (fun gb => 0 <= gb < 64) ks -> forall Q i,
  length (i_l1entry_attrs i) = WHI_MAX_GB_GRANULES ->
  (forall l, length l = WHI_MAX_GB_GRANULES ->
     (forall gb, 0 <= gb -> l !! Z.to_nat gb = if decide (gb ∈ ks) then Some v else i_l1entry_attrs i !! Z.to_nat gb) ->
     Q tt (i <| i_l1entry_attrs := l |>)) ->
  wp (for_each ks (fun gb => pt_write_l1 gb v)) Q i.
Proof.
  induction 1 as [|k ks Hk Hks IH]; intros Q i Hl HQ; unfold for_each; fold (@for_each s2mpu_info).
  - apply wp_ret. specialize (HQ (i_l1entry_attrs i) Hl). destruct i; apply HQ. intros gb _. by rewrite decide_False by set_solver.
  - destruct (lookup_lt_is_Some_2 (i_l1entry_attrs i) (Z.to_nat k)) as [x E]; [unfold WHI_MAX_GB_GRANULES in *; lia|].
    apply wp_bind, (wp_eq _ _ _ tt (i <| i_l1entry_attrs := <[Z.to_nat k := v]> (i_l1entry_attrs i) |>)).
    { unfold pt_write_l1, set_byte. by rewrite E. }
    apply IH; simpl; [by rewrite length_insert|]. intros l Hll Hlk. apply HQ; [done|]. intros gb Hgb. rewrite Hlk by done.
    apply lookup_lt_Some in E. destruct (decide (gb = k)) as [->|Hne].
    + rewrite list_lookup_insert_eq by done. repeat case_decide; set_solver.
    + rewrite list_lookup_insert_ne by lia. repeat case_decide; set_solver.
Qed.

(** Every virtual machine is blocked, except machine 0 when machine 1 is the one
    to restrict. *)
Definition initial_attr (vid n : Z) : Z := if (vid =? 1) && (n =? 0) then allow_all else block_all.

Lemma block_view i gb : rd (i_regs i) (S2MPU_L1ENTRY_ATTR (i_vid i) gb) = block_all -> view_of i gb = Some (Whole 0).
Proof. unfold view_of. by intros ->. Qed.

(** A state with no table in which the driver's copies and the registers block
    everything. *)
Lemma blocked_inv i : 0 <= i_vid i <= 1 -> length (i_l1entry_attrs i) = WHI_MAX_GB_GRANULES ->
  length (i_l2table_addrs i) = WHI_MAX_GB_GRANULES -> i_smpt_regions i = [] -> i_vmap i = ∅ -> i_phys i = ∅ ->
  (forall gb, populated gb -> i_l1entry_attrs i !! Z.to_nat gb = Some block_all /\
     rd (i_regs i) (S2MPU_L1ENTRY_ATTR (i_vid i) gb) = block_all) -> inv None ∅ i.
Proof.
  intros Hv H1 H2 Hr Hm Hph Hb. split; auto.
  - intros gb Hp _. destruct (Hb gb Hp) as [L R]. exists block_all. rewrite L, R. done.
  - intros ??. by rewrite lookup_empty.
  - intros ????. by rewrite lookup_empty.
  - by rewrite Hr, map_to_list_empty.
  - by rewrite Hm, !map_size_empty.
  - by rewrite Hph, !map_size_empty.
Qed.

(** A fresh instance. *)
Definition initialised (fwnode vid : Z) (i : s2mpu_info) : Prop :=
  s2mpu_wf i /\ i_vid i = vid /\ enabled i /\ i_fwnode i = fwnode /\ i_smpt_regions i = [] /\
  (forall gb, populated gb -> view_of i gb = Some (Whole 0)) /\
  forall n gb, 0 <= n < 8 -> populated gb -> rd (i_regs i) (S2MPU_L1ENTRY_ATTR n gb) = initial_attr vid n.

Lemma seq8_range : Forall (fun n => 0 <= n) (seqZ 0 8).
Proof. apply Forall_forall. intros n H%elem_of_seqZ. lia. Qed.

(** What the two blocking loops and machine 0's leave in entry [(n, gb)]. *)
Lemma initial_entry vid A1 A2 A3 n gb x : fills A1 block_all (seqZ 0 8) gb_low -> fills A2 block_all (seqZ 0 8) gb_high ->
  (vid = 1 -> all_gbs A3 0 (fun _ => allow_all)) -> (forall n gb, vid <> 1 \/ n <> 0 -> A3 n gb = None) ->
  0 <= n < 8 -> populated gb -> default (default (default x (A1 n gb)) (A2 n gb)) (A3 n gb) = initial_attr vid n.
Proof.
  intros [F1 G1] [F2 G2] H3 H3' Hn Hp.
  assert (Hb : default (default x (A1 n gb)) (A2 n gb) = block_all).
  { assert (n ∈ seqZ 0 8) by (apply elem_of_seqZ; lia). apply gb_loops in Hp as [Hp|Hp].
    - rewrite F1 by done. destruct (A2 n gb) eqn:E; [by rewrite (G2 _ _ _ E)|done].
    - by rewrite F2. }
  rewrite Hb. unfold initial_attr. destruct (Z.eqb_spec vid 1), (Z.eqb_spec n 0); simpl; [subst; by rewrite H3|..];
    by rewrite H3' by auto.
Qed.

Lemma init_entries_spec vid i : i_vid i = vid -> 0 <= vid <= 1 -> length (i_l1entry_attrs i) = WHI_MAX_GB_GRANULES ->
  length (i_l2table_addrs i) = WHI_MAX_GB_GRANULES -> i_smpt_regions i = [] -> i_vmap i = ∅ -> i_phys i = ∅ ->
  wp (init_entries vid) (fun r i' => r = InitOk /\ initialised (i_fwnode i) vid i') i.
Proof.
  intros Hvid Hv H1 H2 Hr Hm Hph. unfold init_entries.
  apply wp_bind. eapply wp_mono; [apply wp_for_vms; [done|apply gb_low_range|apply seq8_range]|]. simpl. intros _ i2 (A1 & W1 & F1).
  pose proof (core_eq _ _ (wr_core _ _ _ _ W1)) as (B1 & B2 & B3 & _ & B5 & B6 & B7 & B8).
  apply wp_bind, wp_for_l1; [apply gb_low_range|by rewrite B1|]. intros l Hl Hlk.
  apply wp_bind. eapply wp_mono; [apply wp_for_vms; [done|apply gb_high_range|apply seq8_range]|]. simpl. intros _ i3 (A2 & W2 & F2).
  pose proof (core_eq _ _ (wr_core _ _ _ _ W2)) as (C1 & C2 & C3 & _ & C5 & C6 & C7 & C8). simpl in *.
  apply wp_bind, wp_for_l1; [apply gb_high_range|by rewrite C1|]. intros l' Hl' Hlk'.
  apply wp_bind. eapply (wp_mono _ (fun _ i4 => exists A3, wrote A3 no_entries (i3 <| i_l1entry_attrs := l' |>) i4 /\
    (vid = 1 -> all_gbs A3 0 (fun _ => allow_all)) /\ forall n gb, vid <> 1 \/ n <> 0 -> A3 n gb = None)).
  { destruct (Z.eqb_spec vid 1) as [E|E].
    - eapply wp_mono; [apply wp_open_vm0|]. simpl. intros _ i4 (A & W & Ha & Hn). exists A. split_and!; auto. naive_solver.
    - apply wp_ret. exists no_entries. split_and!; [apply wrote_refl|done|done]. }
  simpl. intros _ i4 (A3 & W3 & H3 & H3'). apply wp_bind, wp_low; [done|]. intros i5 W5.
  eapply wp_mono; [apply wp_enable|]. simpl. intros r i6 (-> & W6 & Hen). split; [done|].
  pose proof (core_eq _ _ (wr_core _ _ _ _ (wrote_trans _ _ _ _ _ _ _ (wrote_trans _ _ _ _ _ _ _ W3 W5) W6)))
    as (D1 & D2 & D3 & _ & D5 & D6 & D7 & D8). simpl in *.
  assert (Hattr : forall n gb, 0 <= n < 8 -> populated gb -> rd (i_regs i6) (S2MPU_L1ENTRY_ATTR n gb) = initial_attr vid n).
  { intros n gb Hn Hp. pose proof (pop_range _ Hp).
    rewrite (wr_attr _ _ _ _ W6), (wr_attr _ _ _ _ W5), (wr_attr _ _ _ _ W3) by lia. simpl.
    rewrite (wr_attr _ _ _ _ W2) by lia. simpl. rewrite (wr_attr _ _ _ _ W1) by lia. by apply initial_entry. }
  assert (Hvid6 : i_vid i6 = vid) by congruence.
  assert (Hself : forall gb, populated gb -> rd (i_regs i6) (S2MPU_L1ENTRY_ATTR (i_vid i6) gb) = block_all).
  { intros gb Hp. rewrite Hattr, Hvid6 by (done || lia). unfold initial_attr.
    destruct (Z.eqb_spec vid 1), (Z.eqb_spec vid 0); try done. lia. }
  split_and!; auto; try congruence; [|by intros; apply block_view, Hself].
  exists ∅. apply blocked_inv; rewrite ?D1, ?D2, ?D3, ?D5, ?D6, ?D7, ?C2, ?C3, ?C5, ?C6, ?C7, ?B2, ?B3, ?B5, ?B6, ?B7; auto; [lia|].
  intros gb Hp. pose proof (pop_range _ Hp). split; [|rewrite <- (Hself gb Hp), D5, C5, B5; done].
  rewrite Hlk' by lia. rewrite C1, Hlk by lia. apply gb_loops in Hp as [Hp|Hp]; repeat case_decide; done.
Qed.

Lemma init_spec fwnode vid sids i : 0 <= vid <= 1 ->
  length (i_l1entry_attrs i) = WHI_MAX_GB_GRANULES -> length (i_l2table_addrs i) = WHI_MAX_GB_GRANULES -> i_vmap i = ∅ -> i_phys i = ∅ ->
  wp (s2mpu_lib_init true fwnode vid sids) (fun r i' => r = InitOk /\ initialised fwnode vid i') i.
Proof.
  intros Hv H1 H2 Hm Hph. unfold s2mpu_lib_init.
  assert ((vid >? 1) = false) as -> by (rewrite Z.gtb_ltb; apply Z.ltb_ge; lia). simpl.
  apply wp_bind, wp_mod. match goal with |- wp _ _ ?s => set (i0 := s) end.
  assert (Hlow : forall v off (k : M s2mpu_info init_result) j Q, off < 0x4000 -> core j = core i0 ->
    (forall j', core j' = core i0 -> wp k Q j') -> wp (do! raw_writel v off in k) Q j).
  { intros v off k j Q Ho Hj Hk. apply wp_bind, wp_low; [done|]. intros j' [C _ _]. apply Hk. congruence. }
  apply Hlow; [done|done|]. do 9 (intros ? ?; apply Hlow; [done|assumption|]). intros i1 Hi1.
  pose proof (core_eq _ _ Hi1) as (L1 & L2 & R & _ & V & M & P & F). simpl in *.
  rewrite <- F. apply init_entries_spec; congruence || lia.
Qed.

(** ** Release *)

Lemma free_regions_run rs : forall i, i_smpt_regions i = rs -> NoDup (r_va <$> rs) ->
  (forall r, r ∈ rs -> is_Some (i_vmap i !! r_va r)) ->
  exists i', free_regions rs i = Done tt i' /\ i_regs i' = i_regs i /\ i_vid i' = i_vid i /\ i_inv i' = i_inv i /\
    i_smpt_regions i' = [] /\ size (i_vmap i) = (length rs + size (i_vmap i'))%nat.
Proof.
  induction rs as [|r rs IH]; intros i Hr Hnd Hin; simpl; [by exists i|].
  inversion_clear Hnd as [|?? Hni Hnd']. destruct (Hin r) as [pa E]; [left|].
  unfold kbind, dma_free, kmod; simpl.
  match goal with |- context [free_regions rs ?s] => destruct (IH s) as (i' & -> & R & V & I & S & Z) end; simpl in *; auto.
  - intros r' Hr'. rewrite lookup_delete_ne; [apply Hin; by right|].
    intros Eq. apply Hni. rewrite Eq. by apply list_elem_of_fmap_2.
  - exists i'. split_and!; auto. rewrite map_size_delete, E in Z. pose proof (map_size_non_empty_iff (i_vmap i)).
    assert (size (i_vmap i) <> 0%nat) by (apply map_size_non_empty_iff; intros Em; rewrite Em, lookup_empty in E; done).
    lia.
Qed.

Lemma inv_nodup_va ex own i : inv ex own i -> NoDup (r_va <$> i_smpt_regions i).
Proof.
  intros H. rewrite (inv_list _ _ _ H), <- list_fmap_compose. apply NoDup_fmap_2_strong; [|apply NoDup_map_to_list].
  intros [gb r] [gb' r'] Hin%elem_of_map_to_list Hin'%elem_of_map_to_list Eq. simpl in Eq.
  assert (gb = gb') as -> by (eapply (inv_inj _ _ _ H); eauto). congruence.
Qed.

Lemma inv_regions_size ex own i : inv ex own i -> length (i_smpt_regions i) = size (i_vmap i).
Proof. intros H. rewrite (inv_list _ _ _ H), (inv_size _ _ _ H), length_fmap. apply length_map_to_list. Qed.

Lemma deinit_spec i : s2mpu_wf i ->
  wp s2mpu_lib_deinit (fun _ i' => i_smpt_regions i' = [] /\ i_vmap i' = ∅ /\
    (forall gb, populated gb -> view_of i' gb = Some (Whole 0)) /\
    Z.testbit (rd (i_regs i') S2MPU_CTRL0) 0 = true /\ last (i_inv i') = Some InvAllVids) i.
Proof.
  intros [own H]. pose proof (inv_vid _ _ _ H). unfold s2mpu_lib_deinit. apply wp_bind, wp_get.
  apply wp_bind, wp_for_attr; [lia|done|apply gb_low_range|]. intros i1 W1.
  apply wp_bind, wp_for_attr; [lia|done|apply gb_high_range|]. intros i2 W2.
  pose proof (wrote_trans _ _ _ _ _ _ _ W1 W2) as W12.
  apply wp_bind, (wp_eq _ _ _ (rd (i_regs i2) S2MPU_CTRL0) i2); [done|].
  apply wp_bind. eapply (wp_mono _ (fun _ i3 => wrote no_entries no_entries i2 i3 /\ Z.testbit (rd (i_regs i3) S2MPU_CTRL0) 0 = true)).
  { destruct (Z.eqb_spec (Z.land (rd (i_regs i2) S2MPU_CTRL0) 1) 0) as [E|E].
    - unfold wp, raw_writel; simpl. split; [split; [done|..]; intros n gb Hn Hgb; simpl; apply rd_insert_ne;
        unfold S2MPU_CTRL0, S2MPU_L1ENTRY_ATTR, S2MPU_L1ENTRY_L2TABLE_ADDR; lia|].
      rewrite rd_insert_eq, u32_bit, Z.lor_spec by lia. apply orb_true_r.
    - apply wp_ret. split; [apply wrote_refl|]. apply not_false_is_true. intros F. apply E.
      change 1 with (2 ^ 1 - 1). rewrite land_low by lia. rewrite <- Z.bit0_mod in *. by rewrite F. }
  simpl. intros _ i3 [W3 Hbit]. apply wp_bind. unfold wp at 1, raw_writel. simpl.
  match goal with |- wp _ _ ?s => set (i4 := s) end.
  assert (W4 : wrote no_entries no_entries i3 i4).
  { split; [done|..]; intros n gb Hn Hgb; simpl; apply rd_insert_ne;
      unfold S2MPU_ALL_INVALIDATION, S2MPU_L1ENTRY_ATTR, S2MPU_L1ENTRY_L2TABLE_ADDR; lia. }
  pose proof (wrote_trans _ _ _ _ _ _ _ (wrote_trans _ _ _ _ _ _ _ W12 W3) W4) as [K1 K2 _].
  pose proof (core_eq _ _ K1) as (_ & _ & D3 & _ & D5 & D6 & _).
  destruct (free_regions_run (i_smpt_regions i) i4) as (i' & Hrun & R & V & I & S & Z).
  - done.
  - by eapply inv_nodup_va.
  - intros r [gb Ho]%(regions_own _ _ _ _ H). rewrite D6. destruct (inv_own _ _ _ H gb r Ho) as (_ & _ & _ & -> & _). done.
  - apply (wp_eq _ _ _ tt i' Hrun). split_and!.
    + done.
    + apply map_size_empty_inv. rewrite D6, (inv_regions_size _ _ _ H) in Z. lia.
    + intros gb Hp. pose proof (pop_range _ Hp). apply block_view. rewrite R, V, D5, K2 by lia.
      rewrite !(then_None _ no_entries) by done. by rewrite both_loops.
    + rewrite R. simpl. by rewrite rd_insert_ne.
    + rewrite I. apply last_snoc.
Qed.
