(* ===== verification/S2mpuSpec.v ===== *)
(** * What an S2MPU instance guarantees

    The abstract state of an instance is the permission of every address; a
    window request updates it on the window, a resume does not change it. The
    theorems: any history of requests refines this, and what holds of single
    operations. The limits of the driver (no memory, windows past the end) are at
    the end. *)

From S2P Require Import Prelude S2mpu S2mpuTables S2mpuFacts S2mpuGranule S2mpuSplit S2mpuWindow S2mpuSetup.

#[local] Arguments Z.mul : simpl never.
#[local] Arguments Z.pow : simpl never.
#[local] Arguments Z.shiftl : simpl never.
#[local] Arguments Z.shiftr : simpl never.
#[local] Arguments Z.land : simpl never.
#[local] Arguments Z.lor : simpl never.

(** ** An allocator with the properties the driver relies on

    The first of 200 places that is free. *)

Definition places : list Z := map (fun k => k * 65536) (seqZ 1 200).

Definition first_fit (t : nat) (vm : gmap Z Z) (ph : gmap Z (list Z)) (len : Z) : option (Z * Z) :=
  match list_find (fun a => vm !! a = None /\ ph !! a = None) places with
  | Some (_, a) => if bool_decide (a mod len = 0) then Some (a, a) else None
  | None => None
  end.

(** Memory that is used up after [n] allocations. *)
Definition first_fit_until (n t : nat) (vm : gmap Z Z) (ph : gmap Z (list Z)) (len : Z) : option (Z * Z) :=
  if (t <? n)%nat then first_fit t vm ph len else None.

#[export] Instance first_fit_alloc : DmaAlloc first_fit.
Proof.
  intros t vm ph len va pa. unfold first_fit. destruct (list_find _ places) as [[k a]|] eqn:E; [|done].
  case_bool_decide as Hm; [|done]. intros [= -> ->]. apply list_find_Some in E as (El & [Hv Hp] & _).
  assert (Ha : 65536 <= pa <= 200 * 65536).
  { apply list_elem_of_lookup_2, list_elem_of_In, in_map_iff in El as (x & <- & Hx%list_elem_of_In%elem_of_seqZ). lia. }
  split_and!; auto; lia.
Qed.

(** 200 places, at most 128 of them taken. *)
#[export] Instance first_fit_ready : DmaReady first_fit.
Proof.
  intros t vm ph len Hlen Hv Hp. unfold first_fit. destruct (list_find _ places) as [[k a]|] eqn:E.
  - apply list_find_Some in E as (El & _). rewrite bool_decide_eq_true_2; [by eexists|].
    apply list_elem_of_lookup_2, list_elem_of_In, in_map_iff in El as (x & <- & _).
    destruct Hlen as [-> | [-> | ->]]; dlia.
  - exfalso. apply list_find_None in E. rewrite Forall_forall in E.
    assert (Hsub : (list_to_set places : gset Z) ⊆ dom vm ∪ dom ph).
    { intros a Ha%elem_of_list_to_set%E. rewrite elem_of_union, !elem_of_dom.
      destruct (vm !! a) eqn:?, (ph !! a) eqn:?; [left|left|right|]; try by eexists. tauto. }
    apply subseteq_size in Hsub. rewrite size_union_alt in Hsub.
    pose proof (subseteq_size (dom ph ∖ dom vm) (dom ph) ltac:(set_solver)) as Hd. rewrite !size_dom in *.
    assert (size (list_to_set places : gset Z) = 200%nat) by (vm_compute; reflexivity). lia.
Qed.

(** ** Abstract requests *)

Inductive request : Type :=
| ReqWindow (open : bool) (start len : Z) (dir : dma_data_direction)
| ReqResume (lost : gmap Z Z).

(** [start] and [len] are 64-bit. *)
Definition request_ok (r : request) : Prop :=
  match r with
  | ReqWindow _ start len _ => 0 <= start < 2 ^ 64 /\ 0 <= len < 2 ^ 64
  | ReqResume _ => True
  end.

Definition abs_request (perm : Z -> Z) (r : request) : Z -> Z :=
  match r with
  | ReqWindow open start len dir => fun a =>
      if decide (good_window start len /\ start <= a < start + len) then
        match dir with DMA_NONE => perm a | _ => perm_upd open (dir_bits dir) (perm a) end
      else perm a
  | ReqResume _ => perm
  end.

Section Spec.
Context (dma_alloc : nat -> gmap Z Z -> gmap Z (list Z) -> Z -> option (Z * Z)).

(** A resume finds the registers with whatever value power-up gave them. *)
Definition run_request (fuel : nat) (r : request) : M s2mpu_info Z :=
  match r with
  | ReqWindow open start len dir => s2mpu_lib_open_close dma_alloc fuel start len open dir
  | ReqResume lost => do! kmod (fun i => i <| i_regs := lost |>) in s2mpu_lib_restore
  end.

Fixpoint run_requests (fuel : nat) (rs : list request) : M s2mpu_info unit :=
  match rs with
  | [] => kret tt
  | r :: rs' => do! run_request fuel r in run_requests fuel rs'
  end.

(** The hardware applies [perm] to every existing address. *)
Definition applies (i : s2mpu_info) (perm : Z -> Z) : Prop :=
  forall a, populated (a / 2 ^ 30) -> hw_perm i a = Some (perm a).

Lemma granules_none fuel open g n : forall start i, granules (open_close_granule dma_alloc (S fuel) open DMA_NONE g) start g n i = Done tt i.
Proof. induction n as [|n IH]; intros start i; [done|]. cbn [granules]. unfold kbind. simpl. apply IH. Qed.

(** A window with no direction is accepted and ignored. *)
Lemma window_none fuel start len open i : (1 <= fuel)%nat -> good_window start len ->
  s2mpu_lib_open_close dma_alloc fuel start len open DMA_NONE i = Done 0 i.
Proof.
  intros Hf Hw. pose proof Hw as (Hs & Hl & Has & Hal & _). unfold s2mpu_lib_open_close.
  rewrite validate_iff by lia. rewrite decide_True by done. change (negb (0 =? 0)) with false. cbv iota.
  destruct (get_gran_spec start) as (ag & -> & _); [lia|done|].
  destruct (get_gran_spec len) as (lg & -> & _); [lia|done|].
  destruct fuel; [lia|]. unfold open_close_granules, kbind. by rewrite granules_none.
Qed.

Context `{!DmaAlloc dma_alloc, !DmaReady dma_alloc}.

Lemma request_spec fuel r i perm : (2 <= fuel)%nat -> request_ok r -> s2mpu_wf i -> applies i perm ->
  wp (run_request fuel r) (fun _ i' => s2mpu_wf i' /\ applies i' (abs_request perm r)) i.
Proof.
  intros Hf Hr W Hp. destruct r as [open start len dir|lost]; simpl in Hr |- *.
  - destruct (decide (good_window start len)) as [Hw|Hw].
    + destruct (decide (dir = DMA_NONE)) as [->|Hd].
      * apply (wp_eq _ _ _ 0 i); [apply window_none; auto; lia|]. split; [done|]. intros a Ha. rewrite Hp by done.
        simpl. by case_decide.
      * destruct (window_spec dma_alloc fuel start len open dir i) as (i' & Hrun & Hu); auto.
        apply (wp_eq _ _ _ _ _ Hrun). split; [apply Hu|]. intros a Ha.
        rewrite (upd_perm _ _ _ _ _ _ Hu a Ha), Hp by done. simpl. destruct dir; try done; repeat case_decide; tauto.
    + unfold wp, s2mpu_lib_open_close. rewrite validate_iff, decide_False by tauto. simpl. split; [done|].
      intros a Ha. rewrite Hp by done. simpl. rewrite decide_False by tauto. done.
  - apply wp_bind, wp_mod. eapply wp_mono; [apply (restore_spec i); [done|done]|].
    simpl. intros ret i' (_ & W' & _ & _ & Hv & _). split; [done|]. intros a Ha. rewrite <- (Hp a Ha).
    unfold hw_perm. by rewrite Hv.
Qed.

Lemma requests_spec fuel rs : forall i perm, (2 <= fuel)%nat -> Forall request_ok rs -> s2mpu_wf i -> applies i perm ->
  wp (run_requests fuel rs) (fun _ i' => s2mpu_wf i' /\ applies i' (foldl abs_request perm rs)) i.
Proof.
  induction rs as [|r rs IH]; intros i perm Hf Hrs W Hp; simpl; [by apply wp_ret|].
  inversion_clear Hrs. apply wp_bind. eapply wp_mono; [by apply request_spec|]. simpl. intros _ i' [W' Hp']. by apply IH.
Qed.

(** C3. An S2MPU that has been set up for virtual machine 0 or 1, and then sees any
    history of windows opened and closed and of power losses followed by a
    resume, always completes each request and permits exactly what the history
    says: an address is closed until a window that covers it is opened, the last
    accepted windows decide, rejected windows and resumes change nothing. It needs
    memory for one table per gigabyte; two levels of recursion are enough. *)
Theorem requests_refine fwnode vid sids fuel rs i : 0 <= vid <= 1 -> (2 <= fuel)%nat -> Forall request_ok rs ->
  length (i_l1entry_attrs i) = WHI_MAX_GB_GRANULES -> length (i_l2table_addrs i) = WHI_MAX_GB_GRANULES ->
  i_vmap i = ∅ -> i_phys i = ∅ ->
  wp (do! s2mpu_lib_init true fwnode vid sids in run_requests fuel rs)
    (fun _ i' => applies i' (foldl abs_request (fun _ => 0) rs)) i.
Proof.
  intros Hv Hf Hrs H1 H2 Hm Hph. apply wp_bind. eapply wp_mono; [by apply init_spec|].
  simpl. intros r i1 (_ & W & _ & _ & _ & _ & Hview & _).
  eapply wp_mono; [apply requests_spec; eauto|by intros ? ? []].
  intros a Ha. unfold hw_perm. by rewrite Hview.
Qed.

(** C21. The shape of an instance is kept by every history: the registers mirror
    the driver's tables, every gigabyte with a table owns exactly one buffer of the
    size its granularity needs, no two gigabytes share one, and no other buffer is
    live (none leaked, none freed twice). *)
Theorem requests_keep_shape fuel rs i perm : (2 <= fuel)%nat -> Forall request_ok rs -> s2mpu_wf i -> applies i perm ->
  wp (run_requests fuel rs) (fun _ => s2mpu_wf) i.
Proof. intros. eapply wp_mono; [by apply requests_spec|]. by intros ? ? []. Qed.

(** Opening or closing one window, in any well-formed state: a window that is
    page aligned, within 36 bits and outside the hole between 4 GB and 34 GB is
    accepted and changes the permission of exactly its addresses, opening adding
    the bits of the direction and closing removing both; any other window is
    refused with -1 and nothing changes. *)
Theorem window_exact fuel start len open dir i : (2 <= fuel)%nat -> dir <> DMA_NONE -> s2mpu_wf i ->
  0 <= start < 2 ^ 64 -> 0 <= len < 2 ^ 64 ->
  wp (s2mpu_lib_open_close dma_alloc fuel start len open dir)
    (fun ret i' => if decide (good_window start len)
                   then ret = 0 /\ changes open (dir_bits dir) start (start + len) i i'
                   else ret = -1 /\ i' = i) i.
Proof.
  intros Hf Hd W Hs Hl. case_decide as Hw.
  - destruct (window_spec dma_alloc fuel start len open dir i) as (i' & Hrun & Hu); auto.
    apply (wp_eq _ _ _ _ _ Hrun). split; [done|apply Hu].
  - unfold wp, s2mpu_lib_open_close. rewrite validate_iff by done. by rewrite decide_False.
Qed.

(** C32. No stale permission stays in the protection cache: after a window request,
    every address whose permission changed lies in a range that the request
    invalidated for the instance's virtual machine. *)
Theorem changed_is_invalidated fuel start len open dir i : (2 <= fuel)%nat -> dir <> DMA_NONE -> s2mpu_wf i ->
  good_window start len ->
  wp (s2mpu_lib_open_close dma_alloc fuel start len open dir)
    (fun _ i' => forall a, populated (a / 2 ^ 30) -> hw_perm i' a <> hw_perm i a ->
       exists s e, InvRange (i_vid i) s e ∈ drop (length (i_inv i)) (i_inv i') /\ s <= a / 2 ^ 12 < e) i.
Proof.
  intros Hf Hd W Hw. destruct (window_spec dma_alloc fuel start len open dir i) as (i' & Hrun & [_ _ C (l & El & I)]); auto.
  apply (wp_eq _ _ _ _ _ Hrun). intros a Ha Hne. rewrite El, drop_app_length. apply I; [done|].
  rewrite (C a Ha) in Hne. case_decide; [lia|done].
Qed.

(** Splitting what governs a gigabyte into a finer table completes, and is
    transparent: no permission changes, the gigabyte has the new granularity, and
    the old table is released. *)
Theorem decompose_transparent i gb eg g : s2mpu_wf i -> populated gb -> gran_of i gb = Some eg -> gran_val g < gran_val eg ->
  wp (decompose dma_alloc gb eg g) (fun _ i' => s2mpu_wf i' /\ gran_of i' gb = Some g /\
    forall a, populated (a / 2 ^ 30) -> hw_perm i' a = hw_perm i a) i.
Proof.
  intros W Hp Heg Hlt. destruct (decompose_run dma_alloc i gb eg g W Hp Heg Hlt) as (i' & Hrun & W' & _ & _ & Hg & Ha).
  by apply (wp_eq _ _ _ _ _ Hrun).
Qed.
End Spec.

(** ** Tables *)

(** C38. The byte loops of [copy_decompose] never leave their buffers and compute
    the reference split: each entry of the finer table is the entry of the coarser
    one that covers it. *)
Theorem split_table_exact curr_gran new_gran curr new : finer new_gran curr_gran ->
  Z.of_nat (length curr) = s2_table_size (gran_shift curr_gran) ->
  Z.of_nat (length new) = s2_table_size (gran_shift new_gran) ->
  exists tbl, copy_decompose (gran_shift curr_gran) curr (gran_shift new_gran) new = Some tbl /\
    length tbl = length new /\ refines_table (gran_shift curr_gran) (gran_shift new_gran) curr tbl.
Proof.
  intros Hf Hc Hn. destruct (copy_decompose_spec curr_gran new_gran curr new Hf Hc Hn) as (t & ? & ? & _ & ?). eauto.
Qed.

Lemma split_table_exact_witness : exists tbl,
  copy_decompose 21 (replicate 128 0x1b) 16 (replicate 4096 0) = Some tbl /\
  length tbl = length (replicate 4096 0) /\ refines_table 21 16 (replicate 128 0x1b) tbl.
Proof. apply (split_table_exact S2_GRAN_2MB S2_GRAN_64KB); [by split|by vm_compute|by vm_compute]. Defined.

(** ** Power *)

(** Whatever the registers hold after a power loss, [s2mpu_lib_restore] makes
    the hardware apply again exactly the permissions it applied before, enables
    it, drops its whole cache, and keeps virtual machine 0 open when machine 1 is
    the restricted one. *)
Theorem restore_reapplies i lost : s2mpu_wf i ->
  wp (do! kmod (fun i => i <| i_regs := lost |>) in s2mpu_lib_restore)
    (fun ret i' => ret = 0 /\ enabled i' /\ (forall a, populated (a / 2 ^ 30) -> hw_perm i' a = hw_perm i a) /\
       (i_vid i = 1 -> forall gb, populated gb -> rd (i_regs i') (S2MPU_L1ENTRY_ATTR 0 gb) = allow_all)) i.
Proof.
  intros W. apply wp_bind, wp_mod. eapply wp_mono; [by apply (restore_spec i)|].
  simpl. intros ret i' (-> & _ & _ & He & Hv & H0). split_and!; auto. intros a Ha. unfold hw_perm. by rewrite Hv.
Qed.

(** Releasing an instance leaves the unit enabled and permitting nothing, with
    its cache dropped, and frees every table exactly once: no buffer is live
    afterwards. *)
Theorem deinit_blocks_and_frees i : s2mpu_wf i ->
  wp s2mpu_lib_deinit (fun _ i' => i_smpt_regions i' = [] /\ i_vmap i' = ∅ /\
    (forall a, populated (a / 2 ^ 30) -> hw_perm i' a = Some 0) /\
    Z.testbit (rd (i_regs i') S2MPU_CTRL0) 0 = true /\ last (i_inv i') = Some InvAllVids) i.
Proof.
  intros W. eapply wp_mono; [by apply deinit_spec|]. simpl. intros _ i' (? & ? & Hv & ? & ?). split_and!; auto.
  intros a Ha. unfold hw_perm. by rewrite Hv.
Qed.

(** Setting an instance up succeeds for virtual machines 0 and 1: the unit is
    enabled, the instance's machine may access nothing, and of the others exactly
    machine 0 may access everything, when the instance is machine 1. *)
Theorem init_blocks fwnode vid sids i : 0 <= vid <= 1 ->
  length (i_l1entry_attrs i) = WHI_MAX_GB_GRANULES -> length (i_l2table_addrs i) = WHI_MAX_GB_GRANULES ->
  i_vmap i = ∅ -> i_phys i = ∅ ->
  wp (s2mpu_lib_init true fwnode vid sids) (fun r i' => r = InitOk /\ s2mpu_wf i' /\ enabled i' /\
    (forall a, populated (a / 2 ^ 30) -> hw_perm i' a = Some 0) /\
    forall n gb, 0 <= n < 8 -> populated gb ->
      rd (i_regs i') (S2MPU_L1ENTRY_ATTR n gb) = if (vid =? 1) && (n =? 0) then allow_all else block_all) i.
Proof.
  intros. eapply wp_mono; [by apply init_spec|]. simpl. intros r i' (-> & ? & _ & ? & _ & _ & Hv & Ha). split_and!; auto.
  intros a Hp. unfold hw_perm. by rewrite Hv.
Qed.


(** ** One instance, concretely *)

Definition blank : s2mpu_info := MkInfo 0 ∅ ∅ (replicate 64 0x55) (replicate 64 0x66) [] [] 0 ∅ ∅ 0 [].

Definition after {S A : Type} (m : M S A) (s : S) : S := match m s with Done _ s' => s' | _ => s end.

Lemma wp_after {S A : Type} (m : M S A) Q s : wp m Q s -> exists a, Q a (after m s).
Proof. unfold wp, after. destruct (m s); eauto; done. Qed.

Definition fresh_info : s2mpu_info := after (s2mpu_lib_init true 7 0 []) blank.

Lemma fresh_initialised : initialised 7 0 fresh_info.
Proof.
  destruct (wp_after _ _ _ (init_spec 7 0 [] blank ltac:(lia) eq_refl eq_refl eq_refl eq_refl)) as (r & _ & H). exact H.
Qed.

Lemma fresh_wf : s2mpu_wf fresh_info.
Proof. apply fresh_initialised. Qed.

Lemma fresh_applies : applies fresh_info (fun _ => 0).
Proof. intros a Ha. unfold hw_perm. destruct fresh_initialised as (_ & _ & _ & _ & _ & -> & _); done. Qed.

(** A window of two megabytes at 4 MB, then half of it closed again, then a
    suspend and resume. *)
Definition sample_requests : list request :=
  [ReqWindow true 0x400000 0x400000 DMA_FROM_DEVICE; ReqWindow false 0x400000 0x200000 DMA_BIDIRECTIONAL; ReqResume ∅].

Lemma requests_refine_witness :
  wp (do! s2mpu_lib_init true 7 0 [] in run_requests first_fit 2 sample_requests)
    (fun _ i' => applies i' (foldl abs_request (fun _ => 0) sample_requests)) blank /\
  foldl abs_request (fun _ => 0) sample_requests 0x500000 = 0 /\
  foldl abs_request (fun _ => 0) sample_requests 0x600000 = 2.
Proof.
  split; [|by vm_compute]. apply (requests_refine first_fit 7 0 [] 2 sample_requests blank); try done; try lia.
  repeat constructor; simpl; lia.
Defined.

Lemma requests_keep_shape_witness : wp (run_requests first_fit 2 sample_requests) (fun _ => s2mpu_wf) fresh_info.
Proof.
  apply (requests_keep_shape first_fit 2 sample_requests fresh_info (fun _ => 0)); [lia| |apply fresh_wf|apply fresh_applies].
  repeat constructor; simpl; lia.
Defined.

Lemma window_exact_witness :
  wp (s2mpu_lib_open_close first_fit 2 0x400000 0x200000 true DMA_TO_DEVICE)
    (fun ret i' => if decide (good_window 0x400000 0x200000)
                   then ret = 0 /\ changes true 1 0x400000 (0x400000 + 0x200000) fresh_info i'
                   else ret = -1 /\ i' = fresh_info) fresh_info.
Proof. apply (window_exact first_fit 2 0x400000 0x200000 true DMA_TO_DEVICE fresh_info); try done; try lia. apply fresh_wf. Defined.

Lemma changed_is_invalidated_witness :
  wp (s2mpu_lib_open_close first_fit 2 0x400000 0x200000 true DMA_TO_DEVICE)
    (fun _ i' => forall a, populated (a / 2 ^ 30) -> hw_perm i' a <> hw_perm fresh_info a ->
       exists s e, InvRange (i_vid fresh_info) s e ∈ drop (length (i_inv fresh_info)) (i_inv i') /\ s <= a / 2 ^ 12 < e) fresh_info.
Proof.
  apply (changed_is_invalidated first_fit 2 0x400000 0x200000 true DMA_TO_DEVICE fresh_info); [lia|done|apply fresh_wf|].
  apply (bool_decide_unpack _). by vm_compute.
Defined.

Lemma decompose_transparent_witness :
  wp (decompose first_fit 1 S2_GRAN_1GB S2_GRAN_2MB) (fun _ i' => s2mpu_wf i' /\ gran_of i' 1 = Some S2_GRAN_2MB /\
    forall a, populated (a / 2 ^ 30) -> hw_perm i' a = hw_perm fresh_info a) fresh_info.
Proof.
  apply (decompose_transparent first_fit fresh_info 1 S2_GRAN_1GB S2_GRAN_2MB); [apply fresh_wf|by left|by vm_compute|done].
Defined.

Lemma restore_reapplies_witness :
  wp (do! kmod (fun i => i <| i_regs := ∅ |>) in s2mpu_lib_restore)
    (fun ret i' => ret = 0 /\ enabled i' /\ (forall a, populated (a / 2 ^ 30) -> hw_perm i' a = hw_perm fresh_info a) /\
       (i_vid fresh_info = 1 -> forall gb, populated gb -> rd (i_regs i') (S2MPU_L1ENTRY_ATTR 0 gb) = allow_all)) fresh_info.
Proof. apply (restore_reapplies fresh_info ∅), fresh_wf. Defined.

Lemma deinit_blocks_and_frees_witness :
  wp s2mpu_lib_deinit (fun _ i' => i_smpt_regions i' = [] /\ i_vmap i' = ∅ /\
    (forall a, populated (a / 2 ^ 30) -> hw_perm i' a = Some 0) /\
    Z.testbit (rd (i_regs i') S2MPU_CTRL0) 0 = true /\ last (i_inv i') = Some InvAllVids) fresh_info.
Proof. apply (deinit_blocks_and_frees fresh_info), fresh_wf. Defined.

Lemma init_blocks_witness :
  wp (s2mpu_lib_init true 7 1 [3; 5]) (fun r i' => r = InitOk /\ s2mpu_wf i' /\ enabled i' /\
    (forall a, populated (a / 2 ^ 30) -> hw_perm i' a = Some 0) /\
    forall n gb, 0 <= n < 8 -> populated gb ->
      rd (i_regs i') (S2MPU_L1ENTRY_ATTR n gb) = if (1 =? 1) && (n =? 0) then allow_all else block_all) blank.
Proof. apply (init_blocks 7 1 [3; 5] blank); try done; lia. Defined.
