(* ===== verification/S2mpuDriver.v ===== *)
(** * The S2MPU driver around its instances

    [s2mpu-core.c]: probing and removing devices, the list of instances that
    client drivers search, and the functions they call. [pdev_env] is what the
    platform and the device tree answer. Then the conditions under which the
    driver does not do what it should. *)

From S2P Require Import Prelude S2mpu S2mpuTables S2mpuFacts S2mpuGranule S2mpuSplit S2mpuWindow S2mpuSetup S2mpuSpec.

(** ** Data *)

(** Answers are an error (a positive errno) or a value. *)
Record pdev_env := MkEnv {
  e_fwnode : Z;
  e_s2mpu_res : bool;
  e_s2mpu_map : Z + unit;
  e_ssmt_res : bool;
  e_ssmt_map : Z + unit;
  e_vid : Z + Z;
  e_sidcount : Z;
  e_sids_mem : bool;
  e_sids : Z + list Z;
  e_info_mem : bool
}.

(** [d_infos] holds the instances that are allocated, by address; [d_list] is
    [info_list]; [d_drvdata] what each device's driver data points to. *)
Record s2mpu_driver := MkDriver {
  d_infos : gmap Z s2mpu_info;
  d_list : list Z;
  d_drvdata : gmap Z Z
}.
#[export] Instance eta_driver : Eta s2mpu_driver := mk_eta (fun d => MkDriver (d_infos d) (d_list d) (d_drvdata d)).

(** Running an operation on the instance at an address. *)
Definition with_info {A} (p : Z) (m : M s2mpu_info A) : M s2mpu_driver A := fun d =>
  match d_infos d !! p with
  | None => Fault
  | Some i => match m i with
              | Done a i' => Done a (d <| d_infos := <[p := i']> (d_infos d) |>)
              | Blocked => Blocked
              | Fault => Fault
              end
  end.

(** ** Probe and remove *)

(** [pdev] names the device; [ptr] is the address [devm_kmalloc] returns for the
    instance, and [mem] what is found there and in the device's registers. *)
Definition s2mpu_probe (pdev : Z) (e : pdev_env) (ptr : Z) (mem : s2mpu_info) : M s2mpu_driver Z :=
  if negb (e_s2mpu_res e) then kret (- EINVAL)
  else match e_s2mpu_map e with
  | inl err => kret (- err)
  | inr _ =>
  if negb (e_ssmt_res e) then kret (- EINVAL)
  else match e_ssmt_map e with
  | inl err => kret (- err)
  | inr _ =>
  match e_vid e with
  | inl err => kret (- err)
  | inr vid =>
  if vid >=? 8 then kret (- EINVAL)
  else if e_sidcount e <? 0 then kret (- EINVAL)
  else if negb (e_sids_mem e) then kret (- ENOMEM)
  else match e_sids e with
  | inl err => kret (- err)
  | inr sids =>
      match s2mpu_lib_init (e_info_mem e) (e_fwnode e) (u8 vid) sids mem with
      | Done (InitErr err) _ => kret (- err)
      | Done InitNull _ => kfault
      | Done InitOk info =>
          do! kmod (fun d => d <| d_infos := <[ptr := info]> (d_infos d) |> <| d_list := d_list d ++ [ptr] |>
                               <| d_drvdata := <[pdev := ptr]> (d_drvdata d) |>) in
          kret 0
      | Blocked => kblock
      | Fault => kfault
      end
  end end end end.

Definition s2mpu_remove (pdev : Z) : M s2mpu_driver Z := fun d =>
  match d_drvdata d !! pdev with
  | None => Fault
  | Some p => (do! with_info p s2mpu_lib_deinit in kret 0) d
  end.

(** Detaching the driver: after [remove] the kernel frees what the device
    allocated with [devm_kmalloc]. *)
Definition s2mpu_detach (pdev : Z) : M s2mpu_driver Z :=
  let! d := kget in
  let! ret := s2mpu_remove pdev in
  do! (match d_drvdata d !! pdev with
       | Some p => kmod (fun d => d <| d_infos := delete p (d_infos d) |> <| d_drvdata := delete pdev (d_drvdata d) |>)
       | None => kret tt
       end) in
  kret ret.

(** ** What client drivers call *)

Fixpoint find_info (fwnode : Z) (ps : list Z) : M s2mpu_driver (option Z) :=
  match ps with
  | [] => kret None
  | p :: ps' => fun d =>
      match d_infos d !! p with
      | None => Fault
      | Some i => if i_fwnode i =? fwnode then Done (Some p) d else find_info fwnode ps' d
      end
  end.

Definition s2mpu_fwnode_to_info (fwnode : Z) : M s2mpu_driver (option Z) :=
  let! d := kget in find_info fwnode (d_list d).

Section Clients.
Context (dma_alloc : nat -> gmap Z Z -> gmap Z (list Z) -> Z -> option (Z * Z)).

Definition s2mpu_open (fuel : nat) (info : option Z) (start_pa len : Z) (dir : dma_data_direction) : M s2mpu_driver Z :=
  match info with
  | None => kret (- EINVAL)
  | Some p => with_info p (s2mpu_lib_open_close dma_alloc fuel start_pa len true dir)
  end.

Definition s2mpu_close (fuel : nat) (info : option Z) (start_pa len : Z) (dir : dma_data_direction) : M s2mpu_driver Z :=
  match info with
  | None => kret (- EINVAL)
  | Some p => with_info p (s2mpu_lib_open_close dma_alloc fuel start_pa len false dir)
  end.

Definition s2mpu_restore (info : option Z) : M s2mpu_driver Z :=
  match info with
  | None => kret (- EINVAL)
  | Some p => with_info p s2mpu_lib_restore
  end.

(** ** A client's path *)

Lemma wp_with_info {A} p (m : M s2mpu_info A) Q d i : d_infos d !! p = Some i ->
  wp m (fun a i' => Q a (d <| d_infos := <[p := i']> (d_infos d) |>)) i -> wp (with_info p m) Q d.
Proof. intros E. unfold wp, with_info. rewrite E. by destruct (m i). Qed.

(** A device the driver can serve. *)
Definition good_env (e : pdev_env) (vid : Z) (sids : list Z) : Prop :=
  e_s2mpu_res e = true /\ e_s2mpu_map e = inr tt /\ e_ssmt_res e = true /\ e_ssmt_map e = inr tt /\
  e_vid e = inr vid /\ 0 <= e_sidcount e /\ e_sids_mem e = true /\ e_sids e = inr sids /\ e_info_mem e = true.

(** Memory fresh from the allocator, of a device that has no buffer. *)
Definition fresh_mem (i : s2mpu_info) : Prop :=
  length (i_l1entry_attrs i) = WHI_MAX_GB_GRANULES /\ length (i_l2table_addrs i) = WHI_MAX_GB_GRANULES /\
  i_vmap i = ∅ /\ i_phys i = ∅.

(** Every listed instance is allocated, and none has [fwnode]. *)
Definition listed_live (d : s2mpu_driver) (fwnode : Z) : Prop :=
  forall p, p ∈ d_list d -> exists i, d_infos d !! p = Some i /\ i_fwnode i <> fwnode.

Lemma probe_spec pdev e ptr mem vid sids d : good_env e vid sids -> 0 <= vid <= 1 -> fresh_mem mem ->
  wp (s2mpu_probe pdev e ptr mem) (fun ret d' => ret = 0 /\ exists info, initialised (e_fwnode e) vid info /\
    d' = d <| d_infos := <[ptr := info]> (d_infos d) |> <| d_list := d_list d ++ [ptr] |>
           <| d_drvdata := <[pdev := ptr]> (d_drvdata d) |>) d.
Proof.
  intros (H1 & H2 & H3 & H4 & H5 & H6 & H7 & H8 & H9) Hv (M1 & M2 & M3 & M4).
  unfold s2mpu_probe. rewrite H1, H2, H3, H4, H5, H7, H8, H9. simpl.
  assert ((vid >=? 8) = false) as -> by (rewrite Z.geb_leb; apply Z.leb_gt; lia).
  assert ((e_sidcount e <? 0) = false) as -> by (apply Z.ltb_ge; lia).
  assert (u8 vid = vid) as -> by (apply Z.mod_small; lia).
  destruct (wp_run _ _ _ (init_spec (e_fwnode e) vid sids mem Hv M1 M2 M3 M4)) as (r & info & -> & -> & Hi).
  by apply wp_bind, wp_mod, wp_ret; eauto.
Qed.

(** The search reaches a listed instance behind live ones of other nodes. *)
Lemma find_info_last d fwnode ps ptr info : (forall p, p ∈ ps -> exists i, d_infos d !! p = Some i /\ i_fwnode i <> fwnode) ->
  d_infos d !! ptr = Some info -> i_fwnode info = fwnode -> find_info fwnode (ps ++ [ptr]) d = Done (Some ptr) d.
Proof.
  intros Hps Hp Hf. induction ps as [|p ps IH]; simpl.
  - by rewrite Hp, Hf, Z.eqb_refl.
  - destruct (Hps p) as (i & -> & Hne); [left|]. destruct (Z.eqb_spec (i_fwnode i) fwnode); [done|].
    apply IH. intros q Hq. apply Hps. by right.
Qed.

Context `{!DmaAlloc dma_alloc, !DmaReady dma_alloc}.

(** The path of a client driver, from end to end: after a device has been
    probed, looking its firmware node up gives its instance, and opening a window
    through the exported function makes the hardware permit exactly that window
    in the given direction, and nothing else. *)
Theorem probed_open_permits pdev e ptr mem vid sids d fuel start len dir :
  good_env e vid sids -> 0 <= vid <= 1 -> fresh_mem mem -> listed_live d (e_fwnode e) -> d_infos d !! ptr = None ->
  (2 <= fuel)%nat -> dir <> DMA_NONE -> good_window start len ->
  wp (do! s2mpu_probe pdev e ptr mem in
      let! info := s2mpu_fwnode_to_info (e_fwnode e) in
      s2mpu_open fuel info start len dir)
    (fun ret d' => ret = 0 /\ exists info, d_infos d' !! ptr = Some info /\
       applies info (fun a => if decide (start <= a < start + len) then dir_bits dir else 0)) d.
Proof.
  intros He Hv Hm Hlive Hnew Hf Hd Hw. apply wp_bind. eapply wp_mono; [by eapply probe_spec|].
  simpl. intros ret d1 (_ & info & Hi & ->). apply wp_bind. unfold s2mpu_fwnode_to_info.
  destruct Hi as (W & _ & _ & Hfw & _ & Hview & _).
  apply wp_bind, wp_get. eapply wp_eq.
  { apply (find_info_last _ _ (d_list d) ptr info); [|simpl; apply lookup_insert_eq|done].
    intros p Hp. simpl. destruct (Hlive p Hp) as (i & E & ?). exists i. rewrite lookup_insert_ne by congruence. done. }
  unfold s2mpu_open. apply (wp_with_info _ _ _ _ info); [simpl; apply lookup_insert_eq|].
  destruct (window_spec dma_alloc fuel start len true dir info) as (i' & Hrun & Hu); auto.
  apply (wp_eq _ _ _ _ _ Hrun). split; [done|]. exists i'. split; [simpl; apply lookup_insert_eq|].
  intros a Ha. rewrite (upd_perm _ _ _ _ _ _ Hu a Ha). unfold hw_perm at 1 2. rewrite Hview by done. simpl.
  case_decide; [|done]. simpl. by rewrite Z.lor_0_l.
Qed.
End Clients.

Definition sample_env (vid : Z) : pdev_env := MkEnv 7 true (inr tt) true (inr tt) (inr vid) 0 true (inr []) true.
Definition no_devices : s2mpu_driver := MkDriver ∅ [] ∅.

Lemma probed_open_permits_witness :
  wp (do! s2mpu_probe 1 (sample_env 0) 0x1000 blank in
      let! info := s2mpu_fwnode_to_info 7 in
      s2mpu_open first_fit 2 info 0x400000 0x200000 DMA_TO_DEVICE)
    (fun ret d' => ret = 0 /\ exists info, d_infos d' !! 0x1000 = Some info /\
       applies info (fun a => if decide (0x400000 <= a < 0x400000 + 0x200000) then dir_bits DMA_TO_DEVICE else 0)) no_devices.
Proof.
  apply (probed_open_permits first_fit 1 (sample_env 0) 0x1000 blank 0 [] no_devices 2 0x400000 0x200000 DMA_TO_DEVICE);
    try done; try lia.
  - intros p []%not_elem_of_nil.
  - apply (bool_decide_unpack _). by vm_compute.
Defined.

(** ** Where the driver fails *)

(** A device tree that names a virtual machine the library does not support
    (2 to 7) passes the probe's own check, and the probe then links a null
    instance into the list: it faults instead of returning an error. *)
Theorem probe_unsupported_vid_faults pdev e ptr mem vid sids d : good_env e vid sids -> 2 <= vid < 8 ->
  s2mpu_probe pdev e ptr mem d = Fault.
Proof.
  intros (H1 & H2 & H3 & H4 & H5 & H6 & H7 & H8 & H9) Hv.
  unfold s2mpu_probe. rewrite H1, H2, H3, H4, H5, H7, H8, H9. simpl.
  assert ((vid >=? 8) = false) as -> by (rewrite Z.geb_leb; apply Z.leb_gt; lia).
  assert ((e_sidcount e <? 0) = false) as -> by (apply Z.ltb_ge; lia).
  assert (u8 vid = vid) as -> by (apply Z.mod_small; lia).
  unfold s2mpu_lib_init. by assert ((vid >? 1) = true) as -> by (rewrite Z.gtb_ltb; apply Z.ltb_lt; lia).
Qed.

Lemma probe_unsupported_vid_faults_witness : s2mpu_probe 1 (sample_env 2) 0x1000 blank no_devices = Fault.
Proof. apply (probe_unsupported_vid_faults 1 (sample_env 2) 0x1000 blank 2 [] no_devices); [by vm_compute|lia]. Defined.

Lemma find_info_freed d fwnode ps p qs : d_infos d !! p = None ->
  (forall q, q ∈ ps -> exists j, d_infos d !! q = Some j /\ i_fwnode j <> fwnode) ->
  find_info fwnode (ps ++ p :: qs) d = Fault.
Proof.
  intros Hp. induction ps as [|q ps IH]; intros Hps; simpl; [by rewrite Hp|].
  destruct (Hps q) as (j & -> & Hf); [left|]. destruct (Z.eqb_spec (i_fwnode j) fwnode); [done|].
  apply IH. intros r Hr. apply Hps. by right.
Qed.

(** Removing a device does not take its instance off the list: once the
    driver has been detached, a search for any firmware node that no earlier
    instance has reads freed memory. *)
Theorem detached_lookup_faults pdev p ps qs d i fwnode : d_list d = ps ++ p :: qs -> d_drvdata d !! pdev = Some p ->
  d_infos d !! p = Some i -> s2mpu_wf i ->
  (forall q, q ∈ ps -> q <> p /\ exists j, d_infos d !! q = Some j /\ i_fwnode j <> fwnode) ->
  (do! s2mpu_detach pdev in s2mpu_fwnode_to_info fwnode) d = Fault.
Proof.
  intros Hl Hd Hi W Hps. destruct (wp_run _ _ _ (deinit_spec i W)) as ([] & i' & Hrun & _).
  unfold kbind at 1, s2mpu_detach, kbind at 1, kget. unfold kbind at 1, s2mpu_remove. rewrite Hd.
  unfold kbind at 1, with_info. rewrite Hi, Hrun. unfold kret at 1. unfold kbind at 1, kmod, kret.
  unfold s2mpu_fwnode_to_info, kbind, kget. simpl. rewrite Hl. apply find_info_freed; simpl; [apply lookup_delete_eq|].
  intros q Hq. destruct (Hps q Hq) as (Hne & j & Hj & Hf). exists j. by rewrite lookup_delete_ne, lookup_insert_ne by done.
Qed.

Lemma detached_lookup_faults_witness :
  (do! s2mpu_detach 1 in s2mpu_fwnode_to_info 9) (MkDriver {[0x1000 := fresh_info]} [0x1000] {[1 := 0x1000]}) = Fault.
Proof.
  apply (detached_lookup_faults 1 0x1000 [] [] _ fresh_info 9); [done|done|done|apply fresh_wf|].
  intros q []%not_elem_of_nil.
Defined.

(** ** No memory *)

Section NoMemory.
Context (dma_alloc : nat -> gmap Z Z -> gmap Z (list Z) -> Z -> option (Z * Z)).

Lemma decompose_no_memory i gb eg g : g <> S2_GRAN_1GB ->
  dma_alloc (i_allocs i) (i_vmap i) (i_phys i) (s2_table_size (gran_shift g)) = None ->
  decompose dma_alloc gb eg g i = Done tt (i <| i_allocs := S (i_allocs i) |>).
Proof.
  intros Hg Hn. unfold decompose, decompose_fill, kbind, alloc_smpt. rewrite Hn. by destruct g.
Qed.

Lemma granule_no_memory open dir g start : forall fuel i attr eg, dir <> DMA_NONE -> 0 <= start < 2 ^ 36 ->
  i_l1entry_attrs i !! Z.to_nat (start / 2 ^ 30) = Some attr -> l1_existing_granularity attr = Some eg ->
  gran_val g < gran_val eg ->
  (forall t, (i_allocs i <= t)%nat -> dma_alloc t (i_vmap i) (i_phys i) (s2_table_size (gran_shift g)) = None) ->
  open_close_granule dma_alloc fuel open dir g start i = Blocked.
Proof.
  induction fuel as [|fuel IH]; intros i attr eg Hd Hs L1 Eg Hlt Hn; [done|].
  rewrite (granule_unfold _ _ _ _ _ _ _ _ _ Hd Hs L1 Eg). unfold granule_body.
  assert (g <> S2_GRAN_1GB) by (intros ->; destruct eg; simpl in Hlt; lia).
  destruct (Z.eqb_spec (gran_val eg) (gran_val g)); [lia|]. destruct (Z.ltb_spec (gran_val eg) (gran_val g)); [lia|].
  unfold kbind. rewrite decompose_no_memory by auto. eapply IH; eauto. simpl. intros t Ht. apply Hn. lia.
Qed.

(** When the table that a window needs cannot be allocated, the driver tries
    again from the start of the granule, without bound: if memory stays
    unavailable the request never returns, whatever depth of recursion is
    granted. *)
Theorem no_memory_never_returns fuel start len open dir i ag lg eg : dir <> DMA_NONE -> s2mpu_wf i ->
  good_window start len -> 0 < len -> start < 2 ^ 36 -> get_gran start = Some ag -> get_gran len = Some lg ->
  gran_of i (start / 2 ^ 30) = Some eg -> populated (start / 2 ^ 30) ->
  let g := if gran_val ag <? gran_val lg then ag else lg in
  gran_val g < gran_val eg ->
  (forall t, (i_allocs i <= t)%nat -> dma_alloc t (i_vmap i) (i_phys i) (s2_table_size (gran_shift g)) = None) ->
  s2mpu_lib_open_close dma_alloc fuel start len open dir i = Blocked.
Proof.
  intros Hd W Hw Hlen Hs Ea El Eg Hp g Hlt Hn. pose proof Hw as (H1 & H2 & H3 & H4 & _).
  unfold s2mpu_lib_open_close. rewrite validate_iff by lia. rewrite decide_True by done.
  change (negb (0 =? 0)) with false. cbv iota. rewrite Ea, El. fold g. unfold open_close_granules, kbind.
  destruct (gran_of_entry _ _ _ W Hp Eg) as (own & attr & _ & L1 & Hg & _).
  pose proof (gran_pow g). pose proof (gran_shift_range g).
  assert (Hpos : 0 < len / 2 ^ gran_shift g).
  { apply Z.div_str_pos. split; [done|].
    assert (Hm : len mod 2 ^ gran_shift lg = 0).
    { destruct (get_gran_spec len) as (x & Ex & Hx); [lia|done|]. congruence. }
    pose proof (gran_pow lg). apply Z.mod_divide in Hm; [|lia].
    apply Z.divide_pos_le in Hm; [|lia].
    assert (2 ^ gran_shift g <= 2 ^ gran_shift lg); [|lia]. apply Z.pow_le_mono_r; [lia|].
    subst g. destruct (Z.ltb_spec (gran_val ag) (gran_val lg)); [|done]. destruct ag, lg; simpl in *; lia. }
  rewrite Z.shiftr_div_pow2 by lia. destruct (Z.to_nat (len / 2 ^ gran_shift g)) eqn:En; [lia|]. cbn [granules]. unfold kbind.
  by rewrite (granule_no_memory open dir g start fuel i attr eg) by (auto || lia).
Qed.
End NoMemory.

Lemma no_memory_never_returns_witness :
  s2mpu_lib_open_close (first_fit_until 0) 1000 0x1000 0x1000 true DMA_TO_DEVICE fresh_info = Blocked.
Proof.
  apply (no_memory_never_returns (first_fit_until 0) 1000 0x1000 0x1000 true DMA_TO_DEVICE fresh_info
    S2_GRAN_4KB S2_GRAN_4KB S2_GRAN_1GB); try done; try apply fresh_wf; try (by vm_compute).
  - apply (bool_decide_unpack _). by vm_compute.
  - by left.
Defined.

(** ** Windows past the end, and a split seen half way *)

(** A window may end past the last gigabyte; it is accepted, and the part that
    does not exist is ignored. *)
Lemma past_end_accepted : validate 0xfc0000000 0x80000000 = 0 /\ 0xfc0000000 + 0x80000000 > 2 ^ 36.
Proof. by vm_compute. Qed.

(** The two registers of a level-1 entry are not changed together. Between the
    two writes of a split the hardware reads the new table at the old
    granularity: with two megabytes open at the start of a gigabyte, addresses up
    to 64 MB are permitted for a moment while a table of 2 MB granules is
    replaced by one of 64 KB granules. *)
Definition one_window : s2mpu_info :=
  after (s2mpu_lib_open_close first_fit 2 0 0x200000 true DMA_BIDIRECTIONAL) fresh_info.

Definition half_way (gb : Z) (cg g : s2_gran) : M s2mpu_info unit :=
  let! filled := decompose_fill first_fit gb cg g in
  match filled with Some (r, _) => decompose_addr gb r | None => kret tt end.

Lemma split_half_way_exposes :
  hw_perm one_window 0x3000000 = Some 0 /\
  hw_perm (after (half_way 0 S2_GRAN_2MB S2_GRAN_64KB) one_window) 0x3000000 = Some 3 /\
  hw_perm (after (decompose first_fit 0 S2_GRAN_2MB S2_GRAN_64KB) one_window) 0x3000000 = Some 0.
Proof. by vm_compute. Qed.
