(* ===== verification/Dm.v ===== *)
(** * The DVFS dependency manager

    [drivers/soc/google/exynos-dm.c]. Clock domains depend on each other: a
    minimum constraint says that while the driver domain runs at some frequency
    the constrained domain must run at least at another, given by a table; a
    maximum constraint limits it the same way. Governors ask for frequencies
    ([DM_CALL]) and policies set bounds ([policy_update_call_to_DM]); the manager
    propagates both along the domains in topological order and calls each
    domain's scaler.

    The state is [exynos_dm_device]; constraints live in a store by address, and
    the list heads of the domains hold addresses. The scalers and the mailbox
    call that sends a policy to the firmware are parameters; the calls are
    logged. Every operation runs under the device's mutex and is one step. *)

From S2P Require Import Prelude.

(** ** Data *)

Definition EXYNOS_DM_TYPE_NAME_LEN : nat := 16.
Definition EXYNOS_DM_RELATION_L : Z := 0.
Definition EXYNOS_DM_RELATION_H : Z := 1.
Definition CONSTRAINT_MIN : Z := 0.
Definition CONSTRAINT_MAX : Z := 1.
Definition UINT_MAX : Z := 0xffffffff.
Definition POLICY_REQ : Z := 4.
Definition GET_IDX (id : Z) : Z := Z.land id 0xffff.

Record exynos_dm_freq := MkFreq { driver_freq : Z; constraint_freq : Z }.

(** [c_freq_table] is [None] for a null pointer. *)
Record exynos_dm_constraint := MkCon {
  c_driver : Z;
  c_constraint : Z;
  c_guidance : bool;
  c_table_length : Z;
  c_type : Z;
  c_type_name : string;
  c_freq_table : option (list exynos_dm_freq);
  c_const_freq : Z;
  c_gov_freq : Z;
  c_sub : option Z
}.
#[export] Instance eta_con : Eta exynos_dm_constraint := mk_eta (fun c =>
  MkCon (c_driver c) (c_constraint c) (c_guidance c) (c_table_length c) (c_type c) (c_type_name c) (c_freq_table c)
    (c_const_freq c) (c_gov_freq c) (c_sub c)).

(** [d_listed] tells whether the four list heads have been initialised. *)
Record exynos_dm_data := MkDom {
  d_available : bool;
  d_policy_use : bool;
  d_type : Z;
  d_type_name : string;
  d_my_order : Z;
  d_indegree : Z;
  d_cur_freq : Z;
  d_next_target_freq : Z;
  d_governor_freq : Z;
  d_gov_min : Z;
  d_policy_min : Z;
  d_policy_max : Z;
  d_const_min : Z;
  d_const_max : Z;
  d_freq_scaler : bool;
  d_listed : bool;
  d_min_constraints : list Z;
  d_max_constraints : list Z;
  d_min_drivers : list Z;
  d_max_drivers : list Z;
  d_cal_id : Z
}.
#[export] Instance eta_dom : Eta exynos_dm_data := mk_eta (fun d =>
  MkDom (d_available d) (d_policy_use d) (d_type d) (d_type_name d) (d_my_order d) (d_indegree d) (d_cur_freq d)
    (d_next_target_freq d) (d_governor_freq d) (d_gov_min d) (d_policy_min d) (d_policy_max d) (d_const_min d)
    (d_const_max d) (d_freq_scaler d) (d_listed d) (d_min_constraints d) (d_max_constraints d) (d_min_drivers d)
    (d_max_drivers d) (d_cal_id d)).

(** A call of a scaler: the domain, the frequency, the relation, the result. *)
Record scale_call := MkCall { s_type : Z; s_freq : Z; s_relation : Z; s_ret : Z }.

Record exynos_dm_device := MkDm {
  x_constraint_domain_count : Z;
  x_domain_order : list Z;
  x_dm_data : list exynos_dm_data;
  x_cons : gmap Z exynos_dm_constraint;
  x_calls : list scale_call;
  x_policies : list (list Z)
}.
#[export] Instance eta_dm : Eta exynos_dm_device := mk_eta (fun x =>
  MkDm (x_constraint_domain_count x) (x_domain_order x) (x_dm_data x) (x_cons x) (x_calls x) (x_policies x)).

Definition domain_count (x : exynos_dm_device) : Z := Z.of_nat (length (x_dm_data x)).

Abbreviation DM A := (M exynos_dm_device A).

(** ** Access *)

(** [dm_data[k]]: reading, and updating a field. *)
Definition dom (k : Z) : DM exynos_dm_data := fun x =>
  if k <? 0 then Fault else match x_dm_data x !! Z.to_nat k with Some d => Done d x | None => Fault end.
Definition mod_dom (k : Z) (f : exynos_dm_data -> exynos_dm_data) : DM unit := fun x =>
  if k <? 0 then Fault
  else match x_dm_data x !! Z.to_nat k with
       | Some d => Done tt (x <| x_dm_data := <[Z.to_nat k := f d]> (x_dm_data x) |>)
       | None => Fault
       end.

(** The constraint at an address. *)
Definition con (p : Z) : DM exynos_dm_constraint := fun x =>
  match x_cons x !! p with Some c => Done c x | None => Fault end.
Definition mod_con (p : Z) (f : exynos_dm_constraint -> exynos_dm_constraint) : DM unit := fun x =>
  match x_cons x !! p with Some c => Done tt (x <| x_cons := <[p := f c]> (x_cons x) |>) | None => Fault end.

(** Walking a list whose head was never initialised follows a null pointer;
    [list_empty] only compares it. *)
Definition walk (d : exynos_dm_data) (l : list Z) : DM (list Z) := if d_listed d then kret l else kfault.
Definition list_empty (d : exynos_dm_data) (l : list Z) : bool := d_listed d && bool_decide (l = []).

Definition order_at (i : Z) : DM Z := fun x =>
  match x_domain_order x !! Z.to_nat i with Some v => Done v x | None => Fault end.

Fixpoint dm_each (ks : list Z) (body : Z -> DM unit) : DM unit :=
  match ks with
  | [] => kret tt
  | k :: ks' => do! body k in dm_each ks' body
  end.

Definition table_at (c : exynos_dm_constraint) (i : Z) : DM exynos_dm_freq :=
  match c_freq_table c with
  | Some t => if i <? 0 then kfault else match t !! Z.to_nat i with Some f => kret f | None => kfault end
  | None => kfault
  end.

Definition exynos_dm_index_validate (index : Z) : Z := if index <? 0 then - EINVAL else 0.

(** ** Initialisation *)

(** What the device tree says of one domain; an error where a property is missing. *)
Record dt_domain := MkDt {
  dt_index : option Z;
  dt_available : option string;
  dt_type_name : option string;
  dt_policy_use : option string;
  dt_cal_id : option Z
}.

Definition zero_dom : exynos_dm_data :=
  MkDom false false 0 "" 0 0 0 0 0 0 0 0 0 0 false false [] [] [] [] 0.

(** [strncpy] into the name: no terminator is added when the name fills it. *)
Definition copy_name (s : string) : string := str_take EXYNOS_DM_TYPE_NAME_LEN s.

Fixpoint parse_domains (children : list dt_domain) : DM Z :=
  match children with
  | [] => kret 0
  | ch :: rest =>
      match dt_index ch with
      | None => kret (- ENODEV)
      | Some index =>
          let ret := exynos_dm_index_validate index in
          if negb (ret =? 0) then kret ret
          else match dt_available ch with
          | None => kret (- ENODEV)
          | Some available =>
              do! (if bool_decide (available = "true"%string) then
                     mod_dom index (fun d =>
                       d <| d_type := index |> <| d_available := true |>
                         <| d_type_name := match dt_type_name ch with Some n => copy_name n | None => d_type_name d end |>
                         <| d_listed := true |> <| d_min_constraints := [] |> <| d_max_constraints := [] |>
                         <| d_min_drivers := [] |> <| d_max_drivers := [] |>)
                   else mod_dom index (fun d => d <| d_available := false |>)) in
              do! (match dt_policy_use ch with
                   | Some u => if bool_decide (u = "true"%string)
                               then mod_dom index (fun d => d <| d_policy_use := true |>) else kret tt
                   | None => kret tt
                   end) in
              match dt_cal_id ch with
              | None => kret (- ENODEV)
              | Some id => do! mod_dom index (fun d => d <| d_cal_id := id |>) in parse_domains rest
              end
          end
      end
  end.

(** [mem] tells whether the two arrays can be allocated. *)
Definition exynos_dm_parse_dt (domains : option (list dt_domain)) (mem : bool * bool) : DM Z :=
  match domains with
  | None => kret (- ENODEV)
  | Some children =>
      if bool_decide (children = []) then kret (- ENODEV)
      else if negb (fst mem) then kret (- ENOMEM)
      else
        do! kmod (fun x => x <| x_dm_data := replicate (length children) zero_dom |>) in
        if negb (snd mem) then kret (- ENOMEM)
        else
          do! kmod (fun x => x <| x_domain_order := replicate (length children) 0 |>) in
          parse_domains children
  end.

Definition exynos_dm_data_init (dm_type min_freq max_freq cur_freq : Z) : DM Z :=
  let ret := exynos_dm_index_validate dm_type in
  if negb (ret =? 0) then kret ret
  else
    let! dm := dom dm_type in
    if negb (d_available dm) then kret (- ENODEV)
    else
      do! mod_dom dm_type (fun d =>
        d <| d_policy_max := max_freq |> <| d_const_max := max_freq |> <| d_const_min := min_freq |>
          <| d_policy_min := min_freq |> <| d_gov_min := min_freq |> <| d_cur_freq := cur_freq |>
          <| d_governor_freq := cur_freq |>) in
      kret 0.

(** ** Topological sort

    [indegree] and [search_queue] are freshly allocated: [junk] is what the first
    holds, [cap] the number of entries of the second, and a queue is the list of
    what was pushed. A failed allocation leaves no entry to write: an empty
    [junk], a zero [cap]. *)

(** [a[k] = v] on an [int] array. *)
Definition arr_set (a : list Z) (k v : Z) : DM (list Z) :=
  match a !! Z.to_nat k with Some _ => kret (<[Z.to_nat k := v]> a) | None => kfault end.
Definition arr_get (a : list Z) (k : Z) : DM Z :=
  match a !! Z.to_nat k with Some v => kret v | None => kfault end.

(** [search_queue[s_head++] = v]. *)
Definition push (cap : nat) (queue : list Z) (v : Z) : DM (list Z) :=
  if (length queue <? cap)%nat then kret (queue ++ [v]) else kfault.

(** Is the domain in no constraint at all? *)
Definition unconstrained (d : exynos_dm_data) : bool :=
  list_empty d (d_min_constraints d) && list_empty d (d_max_constraints d) &&
  list_empty d (d_min_drivers d) && list_empty d (d_max_drivers d).

Fixpoint sort_scan (cap : nat) (ks : list Z) (indegree queue : list Z) : DM (list Z * list Z) :=
  match ks with
  | [] => kret (indegree, queue)
  | i :: ks' =>
      let! d := dom i in
      if negb (d_available d) then sort_scan cap ks' indegree queue
      else if unconstrained d then sort_scan cap ks' indegree queue
      else
        let! indegree := arr_set indegree i (d_indegree d) in
        if d_indegree d =? 0 then
          let! queue := push cap queue i in sort_scan cap ks' indegree queue
        else sort_scan cap ks' indegree queue
  end.

(** The constraints of the domain just taken. *)
Fixpoint sort_relax (cap : nat) (ts : list Z) (indegree queue : list Z) : DM (list Z * list Z) :=
  match ts with
  | [] => kret (indegree, queue)
  | t :: ts' =>
      let! c := con t in
      let! n := arr_get indegree (c_constraint c) in
      let n := s32 (n - 1) in
      let! indegree := arr_set indegree (c_constraint c) n in
      if n =? 0 then
        let! queue := push cap queue (c_constraint c) in sort_relax cap ts' indegree queue
      else sort_relax cap ts' indegree queue
  end.

(** The [while] loop; [s_rear] items of the queue have been taken, and as many
    stored in the result. *)
Fixpoint sort_loop (cap fuel s_rear : nat) (indegree queue : list Z) : DM nat :=
  match queue !! s_rear with
  | None => kret s_rear
  | Some poll =>
      match fuel with
      | O => kblock
      | S fuel' =>
          let! x := kget in
          let! order := arr_set (x_domain_order x) (Z.of_nat s_rear) poll in
          do! kmod (fun x => x <| x_domain_order := order |>) in
          do! mod_dom poll (fun d => d <| d_my_order := Z.of_nat s_rear |>) in
          let! d := dom poll in
          let! ts := walk d (d_min_constraints d) in
          let! r := sort_relax cap ts indegree queue in
          sort_loop cap fuel' (S s_rear) (fst r) (snd r)
      end
  end.

Definition exynos_dm_topological_sort (cap : nat) (junk : list Z) : DM unit :=
  let! x := kget in
  let n := length (x_dm_data x) in
  let! r := sort_scan cap (seqZ 0 (Z.of_nat n)) junk [] in
  let! r_head := sort_loop cap n 0 (fst r) (snd r) in
  kmod (fun x => x <| x_constraint_domain_count := Z.of_nat r_head |>).

(** ** Registration *)

(** Memory for a registration: the sort's arrays, and for a sub-constraint its
    address and whether its table can be allocated. *)
Record reg_mem := MkMem { m_cap : nat; m_junk : list Z; m_sub : option Z; m_table : bool }.

(** The lists a constraint is on, by its type. *)
Definition link_con (p : Z) (ty drv cst : Z) : DM unit :=
  if ty =? CONSTRAINT_MIN then
    do! (let! d := dom drv in let! l := walk d (d_min_constraints d) in
         mod_dom drv (fun d => d <| d_min_constraints := p :: l |>)) in
    (let! d := dom cst in let! l := walk d (d_min_drivers d) in
     mod_dom cst (fun d => d <| d_min_drivers := p :: l |>))
  else
    do! (let! d := dom drv in let! l := walk d (d_max_constraints d) in
         mod_dom drv (fun d => d <| d_max_constraints := p :: l |>)) in
    (let! d := dom cst in let! l := walk d (d_max_drivers d) in
     mod_dom cst (fun d => d <| d_max_drivers := p :: l |>)).

Definition without (p : Z) (l : list Z) : list Z := filter (fun q => q <> p) l.

(** [list_del] of a node that is on no list follows null or poisoned links. *)
Definition unlink_at (k p : Z) (get : exynos_dm_data -> list Z) (put : list Z -> exynos_dm_data -> exynos_dm_data) : DM unit :=
  let! d := dom k in
  if bool_decide (p ∈ get d) then mod_dom k (put (without p (get d))) else kfault.

Definition unlink_con (p : Z) (ty drv cst : Z) : DM unit :=
  if ty =? CONSTRAINT_MIN then
    do! unlink_at drv p d_min_constraints (fun l d => d <| d_min_constraints := l |>) in
    unlink_at cst p d_min_drivers (fun l d => d <| d_min_drivers := l |>)
  else
    do! unlink_at drv p d_max_constraints (fun l d => d <| d_max_constraints := l |>) in
    unlink_at cst p d_max_drivers (fun l d => d <| d_max_drivers := l |>).

(** The table of the sub-constraint: columns exchanged, [n] rows. *)
Definition swap_table (n : Z) (t : list exynos_dm_freq) : option (list exynos_dm_freq) :=
  if n <=? Z.of_nat (length t)
  then Some (map (fun f => MkFreq (constraint_freq f) (driver_freq f)) (take (Z.to_nat n) t))
  else None.

(** The constraint itself: its fields, its lists and the in-degree. *)
Definition add_con (p dm_type ty cst : Z) (name : string) : DM unit :=
  do! mod_con p (fun c => c <| c_type_name := name |> <| c_const_freq := 0 |> <| c_gov_freq := 0 |> <| c_driver := dm_type |>) in
  do! link_con p ty dm_type cst in
  (if ty =? CONSTRAINT_MIN then mod_dom cst (fun d => d <| d_indegree := s32 (d_indegree d + 1) |>) else kret tt).

(** The maximum constraint in the other direction that comes with a minimum
    constraint given as guidance. *)
Definition link_sub (p sp dm_type : Z) (cl : exynos_dm_constraint) (stable : list exynos_dm_freq) : DM unit :=
  let! ddom := dom dm_type in
  do! kmod (fun x => x <| x_cons := <[sp :=
        MkCon (c_constraint cl) dm_type true (c_table_length cl) CONSTRAINT_MAX
          (copy_name (d_type_name ddom)) (Some stable) UINT_MAX UINT_MAX None]> (x_cons x) |>) in
  do! link_con sp CONSTRAINT_MAX (c_constraint cl) dm_type in
  mod_con p (fun c => c <| c_sub := Some sp |>).

Definition register_exynos_dm_constraint_table (mem : reg_mem) (dm_type : Z) (constraint_list : option Z) : DM Z :=
  match constraint_list with
  | None => kfault
  | Some p =>
      let! cl := con p in
      let ret := exynos_dm_index_validate dm_type in
      if negb (ret =? 0) then kret ret
      else if (c_type cl <? CONSTRAINT_MIN) || (c_type cl >? CONSTRAINT_MAX) then kret (- EINVAL)
      else
        let ret := exynos_dm_index_validate (c_constraint cl) in
        if negb (ret =? 0) then kret ret
        else match c_freq_table cl with
        | None => kret (- EINVAL)
        | Some table =>
            let! cdom := dom (c_constraint cl) in
            do! add_con p dm_type (c_type cl) (c_constraint cl) (copy_name (d_type_name cdom)) in
            let fail :=
              do! unlink_con p (c_type cl) dm_type (c_constraint cl) in kret (- ENOMEM) in
            let finish :=
              do! exynos_dm_topological_sort (m_cap mem) (m_junk mem) in kret 0 in
            if c_guidance cl && (c_type cl =? CONSTRAINT_MIN) then
              match m_sub mem with
              | None => fail
              | Some sp =>
                  if negb (m_table mem) then fail
                  else match swap_table (c_table_length cl) table with
                  | None => kfault
                  | Some stable => do! link_sub p sp dm_type cl stable in finish
                  end
              end
            else finish
        end
  end.

Definition unregister_exynos_dm_constraint_table (dm_type : Z) (constraint_list : option Z) : DM Z :=
  let ret := exynos_dm_index_validate dm_type in
  if negb (ret =? 0) then kret ret
  else match constraint_list with
  | None => kret (- EINVAL)
  | Some p =>
      let! cl := con p in
      do! (match c_sub cl with
           | Some sp =>
               let! sc := con sp in
               do! unlink_con sp (c_type sc) (c_driver sc) (c_constraint sc) in
               kmod (fun x => x <| x_cons := delete sp (x_cons x) |>)
           | None => kret tt
           end) in
      do! unlink_con p (c_type cl) (c_driver cl) (c_constraint cl) in
      kret 0
  end.

(** The result is 0 also for a domain that is not available. *)
Definition register_exynos_dm_freq_scaler (dm_type : Z) (scaler_func : bool) : DM Z :=
  let ret := exynos_dm_index_validate dm_type in
  if negb (ret =? 0) then kret ret
  else if negb scaler_func then kret (- EINVAL)
  else
    let! d := dom dm_type in
    if negb (d_available d) then kret 0
    else do! mod_dom dm_type (fun d => d <| d_freq_scaler := true |>) in kret 0.

Definition unregister_exynos_dm_freq_scaler (dm_type : Z) : DM Z :=
  let ret := exynos_dm_index_validate dm_type in
  if negb (ret =? 0) then kret ret
  else
    let! d := dom dm_type in
    if negb (d_available d) then kret 0
    else do! mod_dom dm_type (fun d => d <| d_freq_scaler := false |>) in kret 0.

(** ** Propagation *)

(** [for (i = n - 1; i >= 0; i--)] to the first row at or above [freq], 0 if none. *)
Fixpoint find_min_row (c : exynos_dm_constraint) (n : nat) (freq : Z) : DM Z :=
  match n with
  | O => kret 0
  | S n' =>
      let! r := table_at c (Z.of_nat n') in
      if driver_freq r >=? freq then kret (Z.of_nat n') else find_min_row c n' freq
  end.

(** [for (i = 0; i < table_length; i++)] to the first row at or below [freq], the
    last if none; [n] rows from [i] are left. *)
Fixpoint find_max_row (c : exynos_dm_constraint) (i : Z) (n : nat) (freq : Z) : DM Z :=
  match n with
  | O => kret (c_table_length c - 1)
  | S n' =>
      let! r := table_at c i in
      if driver_freq r <=? freq then kret i else find_max_row c (i + 1) n' freq
  end.

(** Folding a field of the constraints on a list. *)
Fixpoint fold_cons (f : Z -> exynos_dm_constraint -> Z) (ts : list Z) (acc : Z) : DM Z :=
  match ts with
  | [] => kret acc
  | t :: ts' => let! c := con t in fold_cons f ts' (f acc c)
  end.

Definition update_constraint_min (p driver_min : Z) : DM unit :=
  let! c := con p in
  let! i := find_min_row c (Z.to_nat (c_table_length c)) driver_min in
  let! r := table_at c i in
  do! mod_con p (fun c => c <| c_const_freq := constraint_freq r |>) in
  let! dm := dom (c_constraint c) in
  let! drivers := walk dm (d_min_drivers dm) in
  let! v := fold_cons (fun acc t => Z.max (c_const_freq t) acc) drivers 0 in
  mod_dom (c_constraint c) (fun d => d <| d_const_min := v |>).

Definition update_constraint_max (p driver_max : Z) : DM unit :=
  let! c := con p in
  let! i := find_max_row c 0 (Z.to_nat (c_table_length c)) driver_max in
  let! r := table_at c i in
  do! mod_con p (fun c => c <| c_const_freq := constraint_freq r |>) in
  let! dm := dom (c_constraint c) in
  let! drivers := walk dm (d_max_drivers dm) in
  let! v := fold_cons (fun acc t => Z.min (c_const_freq t) acc) drivers UINT_MAX in
  mod_dom (c_constraint c) (fun d => d <| d_const_max := v |>).

Definition update_gov_min (p driver_freq : Z) : DM unit :=
  let! c := con p in
  let! i := find_min_row c (Z.to_nat (c_table_length c)) driver_freq in
  let! r := table_at c i in
  do! mod_con p (fun c => c <| c_gov_freq := constraint_freq r |>) in
  let! dm := dom (c_constraint c) in
  let! drivers := walk dm (d_min_drivers dm) in
  let! v := fold_cons (fun acc t => Z.max (c_gov_freq t) acc) drivers 0 in
  mod_dom (c_constraint c) (fun d => d <| d_gov_min := v |>).

Definition new_target (d : exynos_dm_data) : Z :=
  let min_freq := Z.max (Z.max (d_policy_min d) (d_const_min d)) (d_gov_min d) in
  let min_freq := Z.max min_freq (d_governor_freq d) in
  let max_freq := Z.min (d_policy_max d) (d_const_max d) in
  Z.min min_freq max_freq.

Definition update_new_target (dm_type : Z) : DM unit :=
  mod_dom dm_type (fun d => d <| d_next_target_freq := new_target d |>).

Section Environment.
(** [scaler] is the registered scaling functions: the number of the call, the
    domain, the frequency and the relation give the result. [policy_ipc] is the
    request of the mailbox channel and the transfer of the words of a policy. *)
Context (scaler : nat -> Z -> Z -> Z -> Z) (policy_ipc : list Z -> Z).

(** The [int] variables of the two propagation loops. *)
Definition driver_min (d : exynos_dm_data) : Z :=
  let min_freq := s32 (Z.max (d_policy_min d) (d_const_min d)) in
  let max_freq := s32 (Z.min (d_policy_max d) (d_const_max d)) in
  u32 (Z.min min_freq max_freq).
Definition driver_max (d : exynos_dm_data) : Z := u32 (s32 (Z.min (d_policy_max d) (d_const_max d))).

Definition propagate_min (i : Z) : DM unit :=
  let! k := order_at i in
  let! domain := dom k in
  let! ts := walk domain (d_min_constraints domain) in
  dm_each ts (fun t => update_constraint_min t (driver_min domain)).

Definition propagate_max (i : Z) : DM unit :=
  let! k := order_at i in
  let! domain := dom k in
  let! ts := walk domain (d_max_constraints domain) in
  dm_each ts (fun t => update_constraint_max t (driver_max domain)).

Definition send_policy (dm : exynos_dm_data) (max_freq : Z) : DM Z :=
  let cmd := [GET_IDX (d_cal_id dm); max_freq; POLICY_REQ] in
  do! kmod (fun x => x <| x_policies := x_policies x ++ [cmd] |>) in
  kret (policy_ipc cmd).

(** Every path returns 0. *)
Definition policy_update_call_to_DM (dm_type min_freq max_freq : Z) : DM Z :=
  let! dm := dom dm_type in
  if (max_freq =? 0) && (min_freq =? 0) then kret 0
  else
    let prev_min := Z.max (d_policy_min dm) (d_const_min dm) in
    let prev_max := Z.min (d_policy_max dm) (d_const_max dm) in
    if (d_policy_max dm =? max_freq) && (d_policy_min dm =? min_freq) then kret 0
    else
      let max_freq := if max_freq =? 0 then d_policy_max dm else max_freq in
      let min_freq := if min_freq =? 0 then d_policy_min dm else min_freq in
      do! mod_dom dm_type (fun d => d <| d_policy_max := max_freq |> <| d_policy_min := min_freq |>) in
      let! ret := (if d_policy_use dm then send_policy dm max_freq else kret 0) in
      if negb (ret =? 0) then kret 0
      else
        let! dm := dom dm_type in
        if list_empty dm (d_min_constraints dm) && list_empty dm (d_max_constraints dm) then kret 0
        else
          let new_min := Z.max (d_policy_min dm) (d_const_min dm) in
          let new_max := Z.min (d_policy_max dm) (d_const_max dm) in
          let new_min := Z.min new_min new_max in
          let! x := kget in
          do! (if new_min =? prev_min then kret tt
               else dm_each (seqZ (d_my_order dm) (x_constraint_domain_count x - d_my_order dm)) propagate_min) in
          do! (if new_max =? prev_max then kret tt
               else dm_each (rev (seqZ 0 (d_my_order dm + 1))) propagate_max) in
          kret 0.

(** A call of the scaler of the domain at index [k]: the frequency is taken when
    it succeeds. *)
Definition scale (k dm_type freq relation : Z) : DM Z := fun x =>
  let ret := scaler (length (x_calls x)) dm_type freq relation in
  (do! kmod (fun x => x <| x_calls := x_calls x ++ [MkCall dm_type freq relation ret] |>) in
   do! (if ret =? 0 then mod_dom k (fun d => d <| d_cur_freq := d_next_target_freq d |>) else kret tt) in
   kret ret) x.

(** First pass, for one domain: its new target, what it asks of the domains it
    constrains, and scaling down. [ret] is the result so far. *)
Definition call_down (relation : Z) (i ret : Z) : DM Z :=
  let! k := order_at i in
  let! d := dom k in
  do! update_new_target (d_type d) in
  let! d := dom k in
  let! ts := walk d (d_min_constraints d) in
  do! dm_each ts (fun t => update_gov_min t (d_next_target_freq d)) in
  let! d := dom k in
  if (d_cur_freq d >? d_next_target_freq d) && d_freq_scaler d
  then scale k (d_type d) (d_next_target_freq d) relation else kret ret.

(** Second pass: scaling up. *)
Definition call_up (relation : Z) (i ret : Z) : DM Z :=
  let! k := order_at i in
  let! d := dom k in
  if (d_cur_freq d <? d_next_target_freq d) && d_freq_scaler d
  then scale k (d_type d) (d_next_target_freq d) relation else kret ret.

Fixpoint pass (body : Z -> Z -> DM Z) (is_ : list Z) (ret : Z) : DM Z :=
  match is_ with
  | [] => kret ret
  | i :: rest => let! ret := body i ret in pass body rest ret
  end.

(** The request held between the bounds of the domain, and the relation. *)
Definition call_bounds (target_dm : exynos_dm_data) (target_freq : Z) : Z * Z :=
  let max_freq := Z.min (d_const_max target_dm) (d_policy_max target_dm) in
  let min_freq := Z.max (d_const_min target_dm) (d_policy_min target_dm) in
  let target_freq := if target_freq <? min_freq then min_freq else target_freq in
  if target_freq >=? max_freq then (max_freq, EXYNOS_DM_RELATION_H) else (target_freq, EXYNOS_DM_RELATION_L).

(** A domain that constrains no other is scaled on its own. *)
Definition direct (target_dm : exynos_dm_data) : bool :=
  list_empty target_dm (d_max_constraints target_dm) && list_empty target_dm (d_min_constraints target_dm) &&
  d_freq_scaler target_dm.
Definition call_direct (dm_type : Z) (target_dm : exynos_dm_data) (relation : Z) : DM Z :=
  do! update_new_target (d_type target_dm) in
  let! d := dom dm_type in
  scale dm_type (d_type d) (d_next_target_freq d) relation.

Definition call_passes (relation : Z) : DM Z :=
  let! x := kget in
  let n := x_constraint_domain_count x in
  let! ret := pass (call_down relation) (seqZ 0 n) 0 in
  pass (call_up relation) (rev (seqZ 0 n)) ret.

(** The result and the frequency written back to the caller. *)
Definition DM_CALL (dm_type target_freq : Z) : DM (Z * Z) :=
  do! mod_dom dm_type (fun d => d <| d_governor_freq := u32 target_freq |>) in
  let! target_dm := dom dm_type in
  let (target, relation) := call_bounds target_dm target_freq in
  let! ret :=
    (if d_cur_freq target_dm =? target then kret 0
     else if direct target_dm then call_direct dm_type target_dm relation
     else call_passes relation) in
  let! d := dom dm_type in
  kret (ret, d_cur_freq d).

End Environment.
