(* ===== verification/DmGraph.v ===== *)
(** * The graph of the dependency manager and its topological order

    [graph_wf] says that the constraints registered between domains form a
    consistent graph: each is on the list of its driver and on the list of the
    domain it constrains, and the in-degree of a domain counts the latter.
    [exynos_dm_topological_sort] always completes on such a graph, and puts every
    domain after all the domains that drive it; without a cycle no domain is
    left out. *)

From S2P Require Import Prelude Dm.

(** ** Access *)

(** The domain at an index. *)
Definition dat (x : exynos_dm_device) (k : Z) : option exynos_dm_data :=
  if k <? 0 then None else x_dm_data x !! Z.to_nat k.

Definition set_dat (x : exynos_dm_device) (k : Z) (d : exynos_dm_data) : exynos_dm_device :=
  x <| x_dm_data := <[Z.to_nat k := d]> (x_dm_data x) |>.

Lemma dat_range x k d : dat x k = Some d -> 0 <= k < Z.of_nat (length (x_dm_data x)).
Proof. unfold dat. destruct (Z.ltb_spec k 0); [done|]. intros E%lookup_lt_Some. lia. Qed.

Lemma dom_run x k d : dat x k = Some d -> dom k x = Done d x.
Proof. unfold dat, dom. destruct (k <? 0); [done|]. by intros ->. Qed.

Lemma mod_dom_run x k d f : dat x k = Some d -> mod_dom k f x = Done tt (set_dat x k (f d)).
Proof. unfold dat, mod_dom. destruct (k <? 0); [done|]. by intros ->. Qed.

Lemma dat_set x k d d' j : dat x k = Some d -> dat (set_dat x k d') j = if decide (j = k) then Some d' else dat x j.
Proof.
  intros E. pose proof (dat_range _ _ _ E). unfold dat; simpl. destruct (Z.ltb_spec j 0).
  - case_decide; [lia|done].
  - case_decide as Hd; [subst; apply list_lookup_insert_eq; lia|]. apply list_lookup_insert_ne. lia.
Qed.

Lemma con_run x p c : x_cons x !! p = Some c -> con p x = Done c x.
Proof. unfold con. by intros ->. Qed.

Lemma mod_con_run x p c f : x_cons x !! p = Some c -> mod_con p f x = Done tt (x <| x_cons := <[p := f c]> (x_cons x) |>).
Proof. unfold mod_con. by intros ->. Qed.

Lemma walk_run x d l : d_listed d = true -> walk d l x = Done l x.
Proof. unfold walk. by intros ->. Qed.

(** ** Well-formed graphs *)

(** Constraint [t] makes domain [k] drive domain [j]. *)
Definition edge (x : exynos_dm_device) (t k j : Z) : Prop :=
  (exists d, dat x k = Some d /\ t ∈ d_min_constraints d) /\
  exists c, x_cons x !! t = Some c /\ c_constraint c = j.

Record dom_wf (x : exynos_dm_device) (k : Z) (d : exynos_dm_data) : Prop := MkDomWf {
  dw_listed : d_available d = true -> d_listed d = true /\ d_type d = k;
  dw_empty : d_available d = false -> d_min_constraints d = [] /\ d_min_drivers d = [];
  dw_nodup : NoDup (d_min_constraints d) /\ NoDup (d_min_drivers d);
  dw_out : forall t, t ∈ d_min_constraints d ->
    exists c e, x_cons x !! t = Some c /\ c_driver c = k /\ dat x (c_constraint c) = Some e /\ t ∈ d_min_drivers e;
  dw_in : forall t, t ∈ d_min_drivers d ->
    exists c e, x_cons x !! t = Some c /\ c_constraint c = k /\ dat x (c_driver c) = Some e /\ t ∈ d_min_constraints e;
  dw_indegree : d_indegree d = Z.of_nat (length (d_min_drivers d)) /\ d_indegree d < 2 ^ 31
}.

Definition graph_wf (x : exynos_dm_device) : Prop :=
  length (x_domain_order x) = length (x_dm_data x) /\ forall k d, dat x k = Some d -> dom_wf x k d.

(** The domains the sort considers. *)
Definition connected (x : exynos_dm_device) (k : Z) : Prop :=
  exists d, dat x k = Some d /\ d_available d = true /\ unconstrained d = false.

(** A driver or a driven domain is connected. *)
Lemma list_empty_false d l : l <> [] -> list_empty d l = false.
Proof. intros. unfold list_empty. rewrite (bool_decide_eq_false_2 (l = [])) by done. apply andb_false_r. Qed.

Lemma connected_out x k d t : graph_wf x -> dat x k = Some d -> t ∈ d_min_constraints d -> connected x k.
Proof.
  intros [_ H] E Hin. exists d. split; [done|]. split.
  - destruct (d_available d) eqn:Ea; [done|]. destruct (dw_empty _ _ _ (H k d E) Ea) as [El _]. rewrite El in Hin. set_solver.
  - unfold unconstrained. rewrite list_empty_false; [done|]. intros El. rewrite El in Hin. set_solver.
Qed.

Lemma connected_in x j e t : graph_wf x -> dat x j = Some e -> t ∈ d_min_drivers e -> connected x j.
Proof.
  intros [_ H] E Hin. exists e. split; [done|]. split.
  - destruct (d_available e) eqn:Ea; [done|]. destruct (dw_empty _ _ _ (H j e E) Ea) as [_ El]. rewrite El in Hin. set_solver.
  - unfold unconstrained. rewrite (list_empty_false e (d_min_drivers e)); [by rewrite andb_false_r|].
    intros El. rewrite El in Hin. set_solver.
Qed.

(** An edge, seen from the driven domain. *)
Lemma edge_in x t k j : graph_wf x -> edge x t k j <->
  exists e c, dat x j = Some e /\ t ∈ d_min_drivers e /\ x_cons x !! t = Some c /\ c_driver c = k.
Proof.
  intros [_ H]. split.
  - intros [(d & E & Hin) (c & Ec & Hj)]. destruct (dw_out _ _ _ (H k d E) t Hin) as (c' & e & Ec' & Hk & Ee & Hin').
    simplify_eq. eauto 10.
  - intros (e & c & Ee & Hin & Ec & Hk). destruct (dw_in _ _ _ (H j e Ee) t Hin) as (c' & d & Ec' & Hj & Ed & Hin').
    simplify_eq. split; eauto.
Qed.

(** ** The sort's arrays

    [done] is the set of constraints already discounted. *)

Definition pending (done : gset Z) (e : exynos_dm_data) : list Z := filter (fun t => t ∉ done) (d_min_drivers e).

Record sort_inv (x : exynos_dm_device) (done : gset Z) (indegree queue : list Z) : Prop := MkSortInv {
  si_len : length indegree = length (x_dm_data x);
  si_count : forall j e, connected x j -> dat x j = Some e ->
    indegree !! Z.to_nat j = Some (Z.of_nat (length (pending done e)));
  si_queue : forall j, j ∈ queue <-> connected x j /\ exists e, dat x j = Some e /\ pending done e = [];
  si_nodup : NoDup queue
}.

Lemma connected_range x j : connected x j -> 0 <= j < Z.of_nat (length (x_dm_data x)).
Proof. intros (d & E & _). by eapply dat_range. Qed.

(** The queue never overflows. *)
Lemma queue_bound x queue : NoDup queue -> (forall j, j ∈ queue -> connected x j) -> (length queue <= length (x_dm_data x))%nat.
Proof.
  intros Hnd Hc. assert (Hl : length (seqZ 0 (Z.of_nat (length (x_dm_data x)))) = length (x_dm_data x)) by (rewrite length_seqZ; lia).
  rewrite <- Hl. apply submseteq_length, NoDup_submseteq; [done|].
  intros j Hj%Hc%connected_range. apply elem_of_seqZ. lia.
Qed.

Lemma pending_empty_set e : pending ∅ e = d_min_drivers e.
Proof. unfold pending. induction (d_min_drivers e) as [|t l IH]; [done|]. rewrite filter_cons_True by set_solver. by rewrite IH. Qed.

Lemma pending_zero e : Z.of_nat (length (pending ∅ e)) = 0 <-> pending ∅ e = [].
Proof. split; [|by intros ->]. intros H. apply nil_length_inv. lia. Qed.

(** The first loop: the in-degrees, and the queue of those that are 0. [i] domains
    have been seen. *)
Record scan_inv (x : exynos_dm_device) (i : Z) (indegree queue : list Z) : Prop := MkScanInv {
  sc_len : length indegree = length (x_dm_data x);
  sc_count : forall j e, connected x j -> j < i -> dat x j = Some e -> indegree !! Z.to_nat j = Some (d_indegree e);
  sc_queue : forall j, j ∈ queue <-> connected x j /\ j < i /\ exists e, dat x j = Some e /\ d_indegree e = 0;
  sc_nodup : NoDup queue
}.

Lemma scan_room x i indegree queue j : scan_inv x i indegree queue -> connected x j -> i <= j -> (length queue < length (x_dm_data x))%nat.
Proof.
  intros H Hc Hij. apply (queue_bound x (j :: queue)).
  - constructor; [|apply H]. intros Hin. apply (sc_queue _ _ _ _ H) in Hin as (_ & ? & _). lia.
  - intros k [->|Hk]%elem_of_cons; [done|]. by apply (sc_queue _ _ _ _ H) in Hk as (? & _).
Qed.

(** One more domain. *)
Lemma scan_skip x i indegree queue : scan_inv x i indegree queue -> ~ connected x i -> scan_inv x (i + 1) indegree queue.
Proof.
  intros H Hn. split; [apply H| | |apply H].
  - intros j e Hc Hj. apply (sc_count _ _ _ _ H); [done|]. destruct (decide (j = i)); [congruence|lia].
  - intros j. rewrite (sc_queue _ _ _ _ H). split; intros (Hc & Hj & He); split_and!; try done; [lia|].
    destruct (decide (j = i)); [congruence|lia].
Qed.

Lemma scan_take x i indegree queue d : scan_inv x i indegree queue -> connected x i -> dat x i = Some d ->
  scan_inv x (i + 1) (<[Z.to_nat i := d_indegree d]> indegree) (if d_indegree d =? 0 then queue ++ [i] else queue).
Proof.
  intros H Hc E. pose proof (connected_range _ _ Hc). split.
  - rewrite length_insert. apply H.
  - intros j e Hcj Hj Ej. destruct (decide (j = i)) as [->|Hne].
    + simplify_eq. apply list_lookup_insert_eq. rewrite (sc_len _ _ _ _ H). lia.
    + rewrite list_lookup_insert_ne by (apply connected_range in Hcj; lia). apply (sc_count _ _ _ _ H); auto. lia.
  - intros j. destruct (Z.eqb_spec (d_indegree d) 0) as [Ez|Ez].
    + rewrite elem_of_app, list_elem_of_singleton, (sc_queue _ _ _ _ H). split.
      * intros [(? & ? & ?)| ->]; split_and!; eauto; lia.
      * intros (Hcj & Hj & He). destruct (decide (j = i)); [by right|left]. split_and!; auto. lia.
    + rewrite (sc_queue _ _ _ _ H). split; intros (Hcj & Hj & e & Ee & He); split_and!; eauto; [lia|].
      destruct (decide (j = i)); [congruence|lia].
  - destruct (d_indegree d =? 0); [|apply H]. apply NoDup_app. split_and!; [apply H| |apply NoDup_singleton].
    intros j Hj ->%list_elem_of_singleton. apply (sc_queue _ _ _ _ H) in Hj as (_ & ? & _). lia.
Qed.

Lemma sort_scan_run x n : forall i indegree queue, 0 <= i -> i + Z.of_nat n = Z.of_nat (length (x_dm_data x)) ->
  scan_inv x i indegree queue ->
  exists indegree' queue', sort_scan (length (x_dm_data x)) (seqZ i (Z.of_nat n)) indegree queue x = Done (indegree', queue') x /\
    scan_inv x (Z.of_nat (length (x_dm_data x))) indegree' queue'.
Proof.
  induction n as [|n IH]; intros i indegree queue Hi Hn H.
  - exists indegree, queue. split; [done|]. by replace (Z.of_nat (length (x_dm_data x))) with i by lia.
  - rewrite seqZ_cons by lia. replace (Z.pred (Z.of_nat (S n))) with (Z.of_nat n) by lia. replace (Z.succ i) with (i + 1) by lia.
    cbn [sort_scan]. destruct (lookup_lt_is_Some_2 (x_dm_data x) (Z.to_nat i)) as [d Ed]; [lia|].
    assert (E : dat x i = Some d) by (unfold dat; destruct (Z.ltb_spec i 0); [lia|done]).
    unfold kbind at 1. rewrite (dom_run _ _ _ E).
    assert (Hskip : d_available d = false \/ unconstrained d = true -> ~ connected x i).
    { intros Hd (d' & E' & Ha & Hu). simplify_eq. destruct Hd; congruence. }
    destruct (d_available d) eqn:Ea; [|apply IH; [lia|lia|apply scan_skip; auto]]. cbn [negb].
    destruct (unconstrained d) eqn:Eu; [apply IH; [lia|lia|apply scan_skip; auto]|].
    assert (Hc : connected x i) by (exists d; done).
    pose proof (scan_take x i indegree queue d H Hc E) as Ht.
    destruct (lookup_lt_is_Some_2 indegree (Z.to_nat i)) as [v Ev]; [rewrite (sc_len _ _ _ _ H); lia|].
    unfold kbind at 1, arr_set at 1. rewrite Ev. unfold kret at 1. destruct (d_indegree d =? 0).
    + unfold kbind at 1, push at 1. pose proof (scan_room x i indegree queue i H Hc ltac:(lia)) as Hr.
      apply Nat.ltb_lt in Hr. rewrite Hr. unfold kret at 1. apply IH; [lia|lia|done].
    + apply IH; [lia|lia|done].
Qed.

Lemma scan_sort_inv x indegree queue : graph_wf x -> scan_inv x (Z.of_nat (length (x_dm_data x))) indegree queue ->
  sort_inv x ∅ indegree queue.
Proof.
  intros [_ W] H. assert (Hd : forall j e, dat x j = Some e -> d_indegree e = Z.of_nat (length (pending ∅ e))).
  { intros j e E. rewrite pending_empty_set. by destruct (dw_indegree _ _ _ (W j e E)). }
  split; try apply H.
  - intros j e Hc E. rewrite (sc_count _ _ _ _ H j e Hc) by (auto; apply connected_range in Hc; lia). by rewrite (Hd j e E).
  - intros j. rewrite (sc_queue _ _ _ _ H). split.
    + intros (Hc & _ & e & E & He). split; [done|]. exists e. split; [done|]. apply pending_zero. by rewrite <- (Hd j e E).
    + intros (Hc & e & E & He). pose proof (connected_range _ _ Hc). split_and!; auto; [lia|]. exists e. split; [done|].
      rewrite (Hd j e E). by apply pending_zero.
Qed.

(** ** Discounting the constraints of a domain *)

Lemma filter_same_one (done : gset Z) (t : Z) (l : list Z) : t ∉ l -> filter (fun s => s ∉ done ∪ {[t]}) l = filter (fun s => s ∉ done) l.
Proof.
  induction l as [|s l IH]; intros Hn; [done|]. assert (s <> t /\ t ∉ l) as [Hne Hl] by set_solver.
  destruct (decide (s ∈ done)); [rewrite !filter_cons_False by set_solver|rewrite !filter_cons_True by set_solver]; by rewrite IH.
Qed.

Lemma filter_drop_one (done : gset Z) (t : Z) (l : list Z) : NoDup l -> t ∈ l -> t ∉ done ->
  length (filter (fun s => s ∉ done) l) = S (length (filter (fun s => s ∉ done ∪ {[t]}) l)).
Proof.
  induction 1 as [|s l Hs Hl IH]; intros Hin Ht; [by apply not_elem_of_nil in Hin|].
  apply elem_of_cons in Hin as [->|Hin].
  - rewrite filter_cons_True by done. rewrite filter_cons_False by set_solver. simpl.
    by rewrite filter_same_one.
  - assert (s <> t) by set_solver. destruct (decide (s ∈ done)).
    + rewrite !filter_cons_False by set_solver. auto.
    + rewrite !filter_cons_True by set_solver. simpl. by rewrite IH.
Qed.

Lemma s32_count n : 0 < n < 2 ^ 31 -> s32 (n - 1) = n - 1.
Proof. intros. apply s32_small. lia. Qed.

(** One constraint, not yet discounted, from any domain. *)
Lemma relax_one x done indegree queue t k j : graph_wf x -> sort_inv x done indegree queue -> edge x t k j -> t ∉ done ->
  exists n, indegree !! Z.to_nat j = Some n /\ s32 (n - 1) = n - 1 /\
    (n - 1 = 0 -> (length queue < length (x_dm_data x))%nat) /\
    sort_inv x (done ∪ {[t]}) (<[Z.to_nat j := n - 1]> indegree) (if n - 1 =? 0 then queue ++ [j] else queue).
Proof.
  intros W H He Ht. pose proof (proj1 (edge_in x t k j W) He) as (e & c & Ee & Hin & Ec & Hk).
  assert (Hcj : connected x j) by (by eapply connected_in).
  destruct W as [Wl W]. pose proof (W j e Ee) as We. destruct (dw_nodup _ _ _ We) as [_ Hnd]. destruct (dw_indegree _ _ _ We) as [Hdeg Hbig].
  assert (Hlen := filter_drop_one done t _ Hnd Hin Ht). fold (pending done e) in Hlen. fold (pending (done ∪ {[t]}) e) in Hlen.
  assert (Hle : (length (pending done e) <= length (d_min_drivers e))%nat) by apply length_filter.
  assert (Hnew : j ∉ queue).
  { intros Hj%(si_queue _ _ _ _ H). destruct Hj as (_ & e' & Ee' & Hp). simplify_eq. rewrite Hp in Hlen. done. }
  assert (Hoth : forall j' e', j' <> j -> dat x j' = Some e' -> pending (done ∪ {[t]}) e' = pending done e').
  { intros j' e' Hne Ee'. apply filter_same_one. intros Hin'.
    destruct (dw_in _ _ _ (W j' e' Ee') t Hin') as (c' & _ & Ec' & Hc' & _).
    destruct He as [_ (c'' & Ec'' & Hc'')]. congruence. }
  pose proof (connected_range _ _ Hcj) as Hj.
  assert (Hroom : (length queue < length (x_dm_data x))%nat).
  { apply (queue_bound x (j :: queue)); [constructor; [done|apply H]|].
    intros i [->|Hi]%elem_of_cons; [done|]. by apply (si_queue _ _ _ _ H) in Hi as [? _]. }
  exists (Z.of_nat (length (pending done e))). split_and!; [by apply (si_count _ _ _ _ H)|apply s32_count; lia|done|].
  split.
  - rewrite length_insert. apply H.
  - intros j' e' Hc' Ee'. destruct (decide (j' = j)) as [->|Hne].
    + simplify_eq. rewrite list_lookup_insert_eq by (rewrite (si_len _ _ _ _ H); lia). f_equal. lia.
    + rewrite list_lookup_insert_ne by (apply connected_range in Hc'; lia). rewrite (Hoth j' e') by done. by apply (si_count _ _ _ _ H).
  - intros j'. assert (Hj' : j' ∈ queue <-> j' <> j /\ connected x j' /\ exists e', dat x j' = Some e' /\ pending (done ∪ {[t]}) e' = []).
    { rewrite (si_queue _ _ _ _ H). split.
      - intros (Hc' & e' & Ee' & Hp). assert (j' <> j) by (intros ->; simplify_eq; rewrite Hp in Hlen; done).
        split_and!; auto. exists e'. by rewrite (Hoth j' e') by done.
      - intros (Hne & Hc' & e' & Ee' & Hp). split; [done|]. exists e'. by rewrite <- (Hoth j' e') by done. }
    destruct (Z.eqb_spec (Z.of_nat (length (pending done e)) - 1) 0) as [Ez|Ez].
    + rewrite elem_of_app, list_elem_of_singleton, Hj'. split; [intros [(_ & ?)| ->]; [done|]|].
      * split; [done|]. exists e. split; [done|]. apply nil_length_inv. lia.
      * intros Hx. destruct (decide (j' = j)); auto.
    + rewrite Hj'. split; [by intros [_ ?]|]. intros Hx. split; [|done]. intros ->. destruct Hx as (_ & e' & Ee' & Hp).
      simplify_eq. rewrite Hp in Hlen. simpl in Hlen. lia.
  - destruct (_ =? 0); [|apply H]. apply NoDup_app. split_and!; [apply H| |apply NoDup_singleton].
    intros i Hi ->%list_elem_of_singleton. done.
Qed.

Lemma sort_relax_run x x0 k ts : graph_wf x0 -> x_cons x = x_cons x0 -> NoDup ts -> forall done indegree queue,
  (forall t, t ∈ ts -> t ∉ done /\ exists j, edge x0 t k j) -> sort_inv x0 done indegree queue ->
  exists indegree' l, sort_relax (length (x_dm_data x0)) ts indegree queue x = Done (indegree', queue ++ l) x /\
    sort_inv x0 (done ∪ list_to_set ts) indegree' (queue ++ l).
Proof.
  intros W Hx. induction 1 as [|t ts Hnt Hnd IH]; intros done indegree queue Hts H.
  - exists indegree, []. rewrite app_nil_r. split; [done|]. by replace (done ∪ list_to_set []) with done by set_solver.
  - destruct (Hts t) as (Ht & j & He); [left|]. pose proof He as [_ (c & Ec & Hc)].
    destruct (relax_one x0 done indegree queue t k j W H He Ht) as (n & En & Es & Hroom & H').
    cbn [sort_relax]. unfold kbind at 1. rewrite (con_run x t c) by congruence. rewrite Hc.
    unfold kbind at 1, arr_get at 1. rewrite En. unfold kret at 1. rewrite Es.
    unfold kbind at 1, arr_set at 1. rewrite En. unfold kret at 1.
    assert (Hrest : forall s, s ∈ ts -> s ∉ done ∪ {[t]} /\ exists j, edge x0 s k j).
    { intros s Hs. destruct (Hts s) as [Hs' He']; [by right|]. split; [set_solver|done]. }
    replace (done ∪ list_to_set (t :: ts)) with (done ∪ {[t]} ∪ list_to_set ts) by set_solver.
    destruct (Z.eqb_spec (n - 1) 0) as [Ez|Ez].
    + unfold kbind at 1, push at 1. assert ((length queue <? length (x_dm_data x0))%nat = true) as -> by (apply Nat.ltb_lt; auto).
      unfold kret at 1. destruct (IH _ _ _ Hrest H') as (ind' & l & Hrun & Hinv).
      exists ind', (j :: l). rewrite <- app_assoc in Hrun, Hinv. done.
    + destruct (IH _ _ _ Hrest H') as (ind' & l & Hrun & Hinv). eauto.
Qed.

(** ** The main loop *)

(** The sort changes the order array and the positions of the domains, nothing else. *)
Record order_only (x0 x : exynos_dm_device) : Prop := MkOrderOnly {
  oo_cons : x_cons x = x_cons x0;
  oo_len : length (x_dm_data x) = length (x_dm_data x0);
  oo_olen : length (x_domain_order x) = length (x_domain_order x0);
  oo_count : x_constraint_domain_count x = x_constraint_domain_count x0;
  oo_log : x_calls x = x_calls x0 /\ x_policies x = x_policies x0;
  oo_dat : forall k, exists o, dat x k = (fun d => d <| d_my_order := o |>) <$> dat x0 k
}.

Lemma order_only_refl x : order_only x x.
Proof. split; try done. intros k. destruct (dat x k) as [d|] eqn:E; [|exists 0; done]. exists (d_my_order d). by destruct d. Qed.

Lemma order_only_dat x0 x k d : order_only x0 x -> dat x0 k = Some d -> exists o, dat x k = Some (d <| d_my_order := o |>).
Proof. intros H E. destruct (oo_dat _ _ H k) as [o Ho]. exists o. by rewrite Ho, E. Qed.

(** A queue in which every domain comes after all its drivers. *)
Definition drivers_first (x : exynos_dm_device) (queue : list Z) : Prop :=
  forall i j, queue !! i = Some j -> forall t k, edge x t k j -> k ∈ take i queue.

(** The first [r] entries of the order are those of the queue, and each of these
    domains knows its position. *)
Definition placed (x : exynos_dm_device) (queue : list Z) (r : nat) : Prop :=
  forall i k, (i < r)%nat -> queue !! i = Some k ->
    x_domain_order x !! i = Some k /\ exists d, dat x k = Some d /\ d_my_order d = Z.of_nat i.

Lemma take_app_in {A} (i : nat) (l k : list A) (y : A) : y ∈ take i l -> y ∈ take i (l ++ k).
Proof. intros H. rewrite take_app. apply elem_of_app. by left. Qed.

Lemma take_mono {A} (i j : nat) (l : list A) (y : A) : (i <= j)%nat -> y ∈ take i l -> y ∈ take j l.
Proof. intros Hij. rewrite !elem_of_take. intros (n & E & Hn). exists n. split; [done|lia]. Qed.

Section Loop.
Context (x0 : exynos_dm_device) (W : graph_wf x0).
Abbreviation cap := (length (x_dm_data x0)).

Record loop_inv (x : exynos_dm_device) (rear : nat) (done : gset Z) (indegree queue : list Z) : Prop := MkLoopInv {
  li_only : order_only x0 x;
  li_sort : sort_inv x0 done indegree queue;
  li_done : forall t k j, edge x0 t k j -> t ∈ done <-> k ∈ take rear queue;
  li_first : drivers_first x0 queue;
  li_placed : placed x queue rear;
  li_rear : (rear <= length queue)%nat
}.

(** Storing the next domain. *)
Definition stored (x : exynos_dm_device) (rear : nat) (k : Z) (d : exynos_dm_data) : exynos_dm_device :=
  set_dat (x <| x_domain_order := <[rear := k]> (x_domain_order x) |>) k (d <| d_my_order := Z.of_nat rear |>).

Lemma stored_only x rear k d : order_only x0 x -> dat x k = Some d -> order_only x0 (stored x rear k d).
Proof.
  intros H E. split; try apply H.
  - simpl. rewrite length_insert. apply H.
  - simpl. rewrite length_insert. apply H.
  - intros j. unfold stored. rewrite (dat_set _ k d) by done. destruct (oo_dat _ _ H j) as [o Ho]. case_decide as Hd.
    + subst j. exists (Z.of_nat rear). destruct (dat x0 k) as [d0|]; simpl in Ho |- *; [|congruence].
      f_equal. rewrite E in Ho. injection Ho as ->. done.
    + exists o. exact Ho.
Qed.

Lemma stored_placed x rear k d queue : placed x queue rear -> queue !! rear = Some k -> dat x k = Some d -> NoDup queue ->
  (rear < length (x_domain_order x))%nat -> placed (stored x rear k d) queue (S rear).
Proof.
  intros Hp Eq E Hnd Hl i j Hi Ej. unfold stored. rewrite (dat_set _ k d) by done. simpl.
  destruct (decide (i = rear)) as [->|Hne].
  - simplify_eq. rewrite list_lookup_insert_eq by done. rewrite decide_True by done. eauto.
  - rewrite list_lookup_insert_ne by done. destruct (Hp i j) as (Ho & e & Ee & He); [lia|done|]. split; [done|].
    rewrite decide_False; [eauto|]. intros ->. apply Hne. by eapply (NoDup_lookup queue).
Qed.

(** The queue after the constraints of the domain at [rear] are discounted. *)
Lemma loop_step x rear done indegree queue k d : loop_inv x rear done indegree queue -> queue !! rear = Some k ->
  dat x0 k = Some d ->
  exists x' indegree' l, order_only x0 x' /\ placed x' queue (S rear) /\
    (forall K : list Z * list Z -> DM nat,
     (let! y := kget in
      let! order := arr_set (x_domain_order y) (Z.of_nat rear) k in
      do! kmod (fun y => y <| x_domain_order := order |>) in
      do! mod_dom k (fun d => d <| d_my_order := Z.of_nat rear |>) in
      let! d := dom k in
      let! ts := walk d (d_min_constraints d) in
      let! r := sort_relax cap ts indegree queue in K r) x = K (indegree', queue ++ l) x') /\
    sort_inv x0 (done ∪ list_to_set (d_min_constraints d)) indegree' (queue ++ l).
Proof.
  intros H Eq E. destruct W as [Wl Wd]. pose proof (Wd k d E) as Wk.
  assert (Hc : connected x0 k) by (eapply (si_queue _ _ _ _ (li_sort _ _ _ _ _ H)), list_elem_of_lookup_2, Eq).
  destruct (order_only_dat _ _ _ _ (li_only _ _ _ _ _ H) E) as [o Eo].
  assert (Hlen : (rear < length (x_domain_order x))%nat).
  { rewrite (oo_olen _ _ (li_only _ _ _ _ _ H)), Wl. apply lookup_lt_Some in Eq.
    pose proof (queue_bound x0 queue (si_nodup _ _ _ _ (li_sort _ _ _ _ _ H))) as Hq.
    assert ((length queue <= length (x_dm_data x0))%nat); [|lia].
    apply Hq. intros j Hj. by apply (si_queue _ _ _ _ (li_sort _ _ _ _ _ H)) in Hj as [? _]. }
  assert (Hlisted : d_listed d = true).
  { destruct Hc as (d' & E' & Ha & _). simplify_eq. by destruct (dw_listed _ _ _ Wk Ha). }
  set (x' := stored x rear k (d <| d_my_order := o |>)).
  assert (Ho' : order_only x0 x') by (apply stored_only; [apply H|done]).
  destruct (sort_relax_run x' x0 k (d_min_constraints d)) with (done := done) (indegree := indegree) (queue := queue)
    as (ind' & l & Hrun & Hinv).
  - by split.
  - apply Ho'.
  - apply (dw_nodup _ _ _ Wk).
  - intros t Ht. destruct (dw_out _ _ _ Wk t Ht) as (c & e & Ec & _ & Ee & _).
    assert (He : edge x0 t k (c_constraint c)) by (split; eauto). split; [|eauto].
    rewrite (li_done _ _ _ _ _ H t k _ He). intros (i & Ei & Hi)%elem_of_take.
    pose proof (si_nodup _ _ _ _ (li_sort _ _ _ _ _ H)) as Hnd. pose proof (NoDup_lookup queue i rear k Hnd Ei Eq). lia.
  - apply H.
  - exists x', ind', l. split_and!; [done| | |done].
    + apply stored_placed; auto; [apply H|apply (li_sort _ _ _ _ _ H)].
    + intros K. unfold kbind at 1, kget. unfold kbind at 1, arr_set at 1. rewrite Nat2Z.id.
      destruct (lookup_lt_is_Some_2 (x_domain_order x) rear Hlen) as [v ->]. unfold kret at 1. unfold kbind at 1, kmod at 1.
      unfold kbind at 1. rewrite (mod_dom_run _ k (d <| d_my_order := o |>)) by done.
      unfold kbind at 1. rewrite (dom_run _ k (d <| d_my_order := Z.of_nat rear |>)).
      2: { rewrite (dat_set _ k (d <| d_my_order := o |>)) by done. by rewrite decide_True. }
      unfold kbind at 1. rewrite walk_run by done. unfold kbind. simpl d_min_constraints.
      change (sort_relax cap (d_min_constraints d) indegree queue _) with (sort_relax cap (d_min_constraints d) indegree queue x').
      by rewrite Hrun.
Qed.

Lemma loop_inv_step x x' rear done indegree indegree' queue l k d :
  loop_inv x rear done indegree queue -> queue !! rear = Some k -> dat x0 k = Some d ->
  order_only x0 x' -> placed x' queue (S rear) ->
  sort_inv x0 (done ∪ list_to_set (d_min_constraints d)) indegree' (queue ++ l) ->
  loop_inv x' (S rear) (done ∪ list_to_set (d_min_constraints d)) indegree' (queue ++ l).
Proof.
  intros H Eq E Ho Hp Hs. pose proof (lookup_lt_Some _ _ _ Eq) as Hl.
  assert (Htake : take (S rear) (queue ++ l) = take rear queue ++ [k]).
  { rewrite take_app_le by lia. by apply take_S_r. }
  assert (Hdone : forall t k' j, edge x0 t k' j -> t ∈ done ∪ list_to_set (d_min_constraints d) <-> k' ∈ take (S rear) (queue ++ l)).
  { intros t k' j He. rewrite Htake, elem_of_union, elem_of_list_to_set, elem_of_app, list_elem_of_singleton.
    rewrite (li_done _ _ _ _ _ H t k' j He). destruct W as [_ Wd]. destruct He as [(d' & E' & Hin) _]. split.
    - intros [?|Hin']; [by left|right]. destruct (dw_out _ _ _ (Wd k d E) t Hin') as (c & _ & Ec & Hc & _).
      destruct (dw_out _ _ _ (Wd k' d' E') t Hin) as (c' & _ & Ec' & Hc' & _). congruence.
    - intros [?| ->]; [by left|right]. congruence. }
  split; auto.
  - intros i j Ei t k' He. destruct (decide (i < length queue)%nat) as [Hi|Hi].
    + rewrite lookup_app_l in Ei by done. apply take_app_in. by eapply (li_first _ _ _ _ _ H).
    + apply (take_mono (S rear)); [lia|]. rewrite <- (Hdone t k' j He).
      assert (Hj : j ∈ queue ++ l) by by eapply list_elem_of_lookup_2.
      apply (si_queue _ _ _ _ Hs) in Hj as (_ & e & Ee & Hpend).
      apply (edge_in x0 t k' j W) in He as (e' & c & Ee' & Hin & _). simplify_eq.
      destruct (decide (t ∈ done ∪ list_to_set (d_min_constraints d))) as [|Hn]; [done|]. exfalso.
      assert (t ∈ pending (done ∪ list_to_set (d_min_constraints d)) e') by (by apply list_elem_of_filter).
      rewrite Hpend in *. by eapply not_elem_of_nil.
  - intros i j Hi Ej. rewrite lookup_app_l in Ej by lia. by apply Hp.
  - rewrite length_app. lia.
Qed.

Lemma sort_loop_run fuel : forall x rear done indegree queue, loop_inv x rear done indegree queue ->
  (length (x_dm_data x0) <= rear + fuel)%nat ->
  exists x' done' indegree' queue', sort_loop cap fuel rear indegree queue x = Done (length queue') x' /\
    loop_inv x' (length queue') done' indegree' queue'.
Proof.
  induction fuel as [|fuel IH]; intros x rear done indegree queue H Hf.
  - assert (Hq : (length queue <= length (x_dm_data x0))%nat).
    { apply queue_bound; [apply (li_sort _ _ _ _ _ H)|]. intros j Hj. by apply (si_queue _ _ _ _ (li_sort _ _ _ _ _ H)) in Hj as [? _]. }
    pose proof (li_rear _ _ _ _ _ H). assert (rear = length queue) as -> by lia.
    exists x, done, indegree, queue. split; [|done]. cbn [sort_loop]. by rewrite lookup_ge_None_2 by lia.
  - cbn [sort_loop]. destruct (queue !! rear) as [k|] eqn:Eq.
    + assert (Hc : connected x0 k) by (eapply (si_queue _ _ _ _ (li_sort _ _ _ _ _ H)), list_elem_of_lookup_2, Eq).
      destruct Hc as (d & E & _). destruct (loop_step x rear done indegree queue k d H Eq E) as (x' & ind' & l & Ho & Hp & Hrun & Hs).
      rewrite (Hrun (fun r => sort_loop cap fuel (S rear) r.1 r.2)). simpl.
      eapply IH; [by eapply loop_inv_step|lia].
    + apply lookup_ge_None_1 in Eq. pose proof (li_rear _ _ _ _ _ H). assert (rear = length queue) as -> by lia.
      exists x, done, indegree, queue. done.
Qed.
End Loop.

(** ** The theorem *)

(** The domains in order, as the sort leaves them. *)
Definition ordered_domains (x : exynos_dm_device) : list Z := take (Z.to_nat (x_constraint_domain_count x)) (x_domain_order x).

(** No cycle of minimum constraints: domains can be ranked so that drivers come
    before the domains they drive. *)
Definition acyclic (x : exynos_dm_device) : Prop := exists rank : Z -> nat, forall t k j, edge x t k j -> (rank k < rank j)%nat.

Lemma loop_complete x0 x done indegree queue : graph_wf x0 -> acyclic x0 -> loop_inv x0 x (length queue) done indegree queue ->
  forall k, connected x0 k -> k ∈ queue.
Proof.
  intros W [rank Hr] H. assert (Hall : forall n k, (rank k < n)%nat -> connected x0 k -> k ∈ queue).
  { induction n as [|n IH]; intros j Hj Hc; [lia|]. pose proof Hc as (e & Ee & _).
    apply (si_queue _ _ _ _ (li_sort _ _ _ _ _ _ H)). split; [done|]. exists e. split; [done|].
    destruct (pending done e) as [|t l] eqn:Ep; [done|]. exfalso.
    assert (Ht : t ∈ pending done e) by (rewrite Ep; left). apply list_elem_of_filter in Ht as [Hn Hin].
    destruct W as [Wl Wd]. destruct (dw_in _ _ _ (Wd j e Ee) t Hin) as (c & d & Ec & Hcj & Ed & Hin').
    assert (He : edge x0 t (c_driver c) j) by (split; eauto).
    apply Hn. rewrite (li_done _ _ _ _ _ _ H t _ _ He), firstn_all. pose proof (Hr _ _ _ He).
    apply IH; [lia|]. by eapply connected_out; [split|..]. }
  intros k. apply (Hall (S (rank k))). lia.
Qed.

Lemma sort_spec x junk : graph_wf x -> length junk = length (x_dm_data x) ->
  exists x', exynos_dm_topological_sort (length (x_dm_data x)) junk x = Done tt x' /\
    order_only x (x' <| x_constraint_domain_count := x_constraint_domain_count x |>) /\
    exists queue, ordered_domains x' = queue /\ NoDup queue /\ drivers_first x queue /\
      x_constraint_domain_count x' = Z.of_nat (length queue) /\ placed x' queue (length queue) /\
      (forall k, k ∈ queue -> connected x k) /\ (acyclic x -> forall k, connected x k -> k ∈ queue).
Proof.
  intros W Hj. pose proof W as [Wl Wd]. unfold exynos_dm_topological_sort, kbind at 1, kget.
  destruct (sort_scan_run x (length (x_dm_data x)) 0 junk []) as (ind & q & Hscan & Hsc); [lia|lia| |].
  { split; [done|intros; apply connected_range in H; lia| |apply NoDup_nil_2].
    intros j. split; [by intros ?%not_elem_of_nil|]. intros (Hc%connected_range & ? & _). lia. }
  unfold kbind at 1. rewrite Hscan. simpl.
  pose proof (scan_sort_inv x ind q W Hsc) as Hs.
  assert (H0 : loop_inv x x 0 ∅ ind q).
  { split; auto; [apply order_only_refl|set_solver| |intros i k Hi; lia|lia].
    intros i j Ei t k He. assert (Hq : j ∈ q) by by eapply list_elem_of_lookup_2.
    apply (si_queue _ _ _ _ Hs) in Hq as (_ & e & Ee & Hp). rewrite pending_empty_set in Hp.
    apply (edge_in x t k j W) in He as (e' & c & Ee' & Hin & _). simplify_eq. rewrite Hp in Hin. by apply not_elem_of_nil in Hin. }
  destruct (sort_loop_run x W (length (x_dm_data x)) x 0 ∅ ind q H0 ltac:(lia)) as (x' & dn & ind' & q' & Hrun & H).
  unfold kbind. rewrite Hrun. eexists. split; [done|]. split.
  - destruct (li_only _ _ _ _ _ _ H) as [? ? ? ? ? ?]. split; simpl; auto.
  - exists q'. pose proof (li_placed _ _ _ _ _ _ H) as Hp. split_and!.
    + unfold ordered_domains; simpl. rewrite Nat2Z.id. apply list_eq. intros i.
      destruct (decide (i < length q')%nat) as [Hi|Hi].
      * rewrite lookup_take_lt by done. destruct (lookup_lt_is_Some_2 q' i Hi) as [k Ek]. rewrite Ek. by apply (Hp i k).
      * rewrite lookup_take_ge by lia. by rewrite lookup_ge_None_2 by lia.
    + apply (li_sort _ _ _ _ _ _ H).
    + apply H.
    + done.
    + intros i k Hi Ek. destruct (Hp i k Hi Ek) as (? & d & Ed & ?). split; [done|]. exists d. done.
    + intros k Hk. by apply (si_queue _ _ _ _ (li_sort _ _ _ _ _ _ H)) in Hk as [? _].
    + intros Ha k. by eapply loop_complete.
Qed.
