(* ===== verification/DmPlan.v ===== *)
(** * What a call of the dependency manager computes

    [DM_CALL] updates four kinds of values on a fixed graph: the next target, the
    governor minimum and the current frequency of each domain, and the governor
    frequency of each constraint. [plan] is the valuation of these on a device,
    [inst] puts a valuation into a device, and each operation of the call is an
    operation on valuations: [relax], [down_step], [up_step], [walk_down],
    [walk_up]. The lookup of a row in a constraint table is [row_freq]. *)

From S2P Require Import Prelude Dm DmGraph.

(** ** Graphs that differ in frequencies only *)

(** What the graph is made of. *)
Definition shape (d : exynos_dm_data) :=
  (d_available d, d_type d, d_listed d, d_indegree d, (d_min_constraints d, d_max_constraints d, d_min_drivers d, d_max_drivers d)).
Definition con_shape (c : exynos_dm_constraint) := (c_driver c, c_constraint c, c_freq_table c, c_table_length c).

Lemma shape_eq d e : shape e = shape d -> d_available e = d_available d /\ d_type e = d_type d /\ d_listed e = d_listed d /\
  d_indegree e = d_indegree d /\ d_min_constraints e = d_min_constraints d /\ d_max_constraints e = d_max_constraints d /\
  d_min_drivers e = d_min_drivers d /\ d_max_drivers e = d_max_drivers d.
Proof. unfold shape. intros [= ]. done. Qed.

Lemma con_shape_eq b c : con_shape c = con_shape b -> c_driver c = c_driver b /\ c_constraint c = c_constraint b /\
  c_freq_table c = c_freq_table b /\ c_table_length c = c_table_length b.
Proof. unfold con_shape. intros [= ]. done. Qed.

Record same_graph (x y : exynos_dm_device) : Prop := MkSame {
  sg_len : length (x_dm_data y) = length (x_dm_data x);
  sg_olen : length (x_domain_order y) = length (x_domain_order x);
  sg_dat : forall k, shape <$> dat y k = shape <$> dat x k;
  sg_con : forall p, con_shape <$> x_cons y !! p = con_shape <$> x_cons x !! p
}.

#[export] Instance same_graph_equivalence : Equivalence same_graph.
Proof.
  split.
  - intros x. done.
  - intros x y [? ? ? ?]. done.
  - intros x y z [? ? Hd Hc] [? ? Hd' Hc']. split; [congruence|congruence| |].
    + intros k. by rewrite Hd'.
    + intros p. by rewrite Hc'.
Qed.

Lemma same_dat x y k d : same_graph x y -> dat x k = Some d -> exists e, dat y k = Some e /\ shape e = shape d.
Proof. intros H E. pose proof (sg_dat _ _ H k) as Hd. rewrite E in Hd. destruct (dat y k) as [e|]; [|done]. exists e. split; [done|]. by apply (inj Some). Qed.

Lemma same_con x y p c : same_graph x y -> x_cons x !! p = Some c -> exists b, x_cons y !! p = Some b /\ con_shape b = con_shape c.
Proof. intros H E. pose proof (sg_con _ _ H p) as Hc. rewrite E in Hc. destruct (x_cons y !! p) as [b|]; [|done]. exists b. split; [done|]. by apply (inj Some). Qed.

Lemma edge_same x y t k j : same_graph x y -> edge x t k j -> edge y t k j.
Proof.
  intros H [(d & Ed & Hin) (c & Ec & <-)].
  destruct (same_dat _ _ _ _ H Ed) as (e & Ee & He%shape_eq). destruct (same_con _ _ _ _ H Ec) as (b & Eb & Hb%con_shape_eq).
  destruct He as (_ & _ & _ & _ & He & _), Hb as (_ & Hb & _). split; [exists e|exists b]; split; congruence.
Qed.

Lemma dom_wf_same x y k d e : same_graph x y -> shape e = shape d -> dom_wf x k d -> dom_wf y k e.
Proof.
  intros H (Ha & Ht & Hl & Hdeg & Hmc & _ & Hmd & _)%shape_eq [H1 H2 H3 Ho Hi H4].
  split; rewrite ?Ha, ?Ht, ?Hl, ?Hdeg, ?Hmc, ?Hmd; try done.
  - intros t Hin. destruct (Ho t Hin) as (c & f & Ec & Hk & Ef & Hin').
    destruct (same_con _ _ _ _ H Ec) as (b & Eb & (Hbd & Hbc & _)%con_shape_eq).
    destruct (same_dat _ _ _ _ H Ef) as (g & Eg & (_ & _ & _ & _ & _ & _ & Hg & _)%shape_eq). exists b, g. split_and!; congruence.
  - intros t Hin. destruct (Hi t Hin) as (c & f & Ec & Hk & Ef & Hin').
    destruct (same_con _ _ _ _ H Ec) as (b & Eb & (Hbd & Hbc & _)%con_shape_eq).
    destruct (same_dat _ _ _ _ H Ef) as (g & Eg & (_ & _ & _ & _ & Hg & _)%shape_eq). exists b, g. split_and!; congruence.
Qed.

#[export] Instance graph_wf_proper : Proper (same_graph ==> iff) graph_wf.
Proof.
  assert (Hone : forall x y, same_graph x y -> graph_wf x -> graph_wf y).
  { intros x y H [Hl W]. split; [rewrite (sg_len _ _ H), (sg_olen _ _ H); done|].
    intros k e E. destruct (same_dat _ _ _ _ (symmetry H) E) as (d & Ed & Hd). eapply (dom_wf_same x y k d); eauto. }
  intros x y H. split; apply Hone; [done|by symmetry].
Qed.

#[export] Instance edge_proper : Proper (same_graph ==> eq ==> eq ==> eq ==> iff) edge.
Proof. intros x y H t ? <- k ? <- j ? <-. split; apply edge_same; [done|by symmetry]. Qed.

Lemma unconstrained_shape d e : shape d = shape e -> unconstrained d = unconstrained e.
Proof. intros (_ & _ & El & _ & E1 & E2 & E3 & E4)%shape_eq. unfold unconstrained, list_empty. by rewrite El, E1, E2, E3, E4. Qed.

#[export] Instance connected_proper : Proper (same_graph ==> eq ==> iff) connected.
Proof.
  assert (Hone : forall x y k, same_graph x y -> connected x k -> connected y k).
  { intros x y k H (d & Ed & Ha & Hu). destruct (same_dat _ _ _ _ H Ed) as (e & Ee & He). exists e.
    rewrite (unconstrained_shape e d) by done. apply shape_eq in He as [-> _]. done. }
  intros x y H k ? <-. split; apply Hone; [done|by symmetry].
Qed.

Lemma order_only_same x y : order_only x y -> same_graph x y.
Proof.
  intros [Hc Hl Ho _ _ Hd]. split; [done|done| |by rewrite Hc].
  intros k. destruct (Hd k) as [o ->]. by destruct (dat x k).
Qed.

(** ** Rows of a table *)

(** The last row that covers [f], or the first row if none does. *)
Definition row_freq (t : list exynos_dm_freq) (f : Z) : Z :=
  match last (filter (fun r => f <= driver_freq r) t), t with
  | Some r, _ => constraint_freq r
  | None, r :: _ => constraint_freq r
  | None, [] => 0
  end.

Definition con_ok (c : exynos_dm_constraint) : Prop :=
  exists t, c_freq_table c = Some t /\ t <> [] /\ c_table_length c = Z.of_nat (length t).

Lemma table_at_run c t i r : c_freq_table c = Some t -> t !! i = Some r ->
  forall x, table_at c (Z.of_nat i) x = Done r x.
Proof. intros Et Er x. unfold table_at. rewrite Et. destruct (Z.ltb_spec (Z.of_nat i) 0); [lia|]. by rewrite Nat2Z.id, Er. Qed.

(** The search from the end: it finds the last covering row of the first [n]. *)
Lemma find_min_row_run c t f x n : c_freq_table c = Some t -> t <> [] -> (n <= length t)%nat ->
  exists i r, find_min_row c n f x = Done (Z.of_nat i) x /\ t !! i = Some r /\
    constraint_freq r = match last (filter (fun r => f <= driver_freq r) (take n t)), t with
                        | Some r, _ => constraint_freq r | None, r :: _ => constraint_freq r | None, [] => 0 end.
Proof.
  intros Et Hne. induction n as [|n IH]; intros Hn.
  - destruct t as [|r t']; [done|]. exists 0%nat, r. done.
  - destruct (lookup_lt_is_Some_2 t n Hn) as [r Er]. cbn [find_min_row]. unfold kbind at 1.
    rewrite (table_at_run c t n r Et Er). rewrite (take_S_r t n r Er), filter_app.
    destruct (Z.geb_spec (driver_freq r) f) as [Hc|Hc].
    + exists n, r. split; [done|]. split; [done|]. rewrite (filter_cons_True _ r []) by lia. cbn [filter list_filter]. by rewrite last_snoc.
    + rewrite (filter_cons_False _ r []) by lia. cbn [filter list_filter]. rewrite app_nil_r. apply IH. lia.
Qed.

(** The lookup of [update_gov_min] and [update_constraint_min] is [row_freq]. *)
Lemma min_row_run {A} c t f x (k : exynos_dm_freq -> DM A) : c_freq_table c = Some t -> t <> [] ->
  c_table_length c = Z.of_nat (length t) ->
  exists r, (let! i := find_min_row c (Z.to_nat (c_table_length c)) f in let! r := table_at c i in k r) x = k r x /\
    constraint_freq r = row_freq t f.
Proof.
  intros Et Hne Hl. rewrite Hl, Nat2Z.id.
  destruct (find_min_row_run c t f x (length t) Et Hne) as (i & r & Hrun & Er & Hf); [lia|].
  exists r. unfold kbind. rewrite Hrun, (table_at_run c t i r Et Er). split; [done|]. by rewrite Hf, firstn_all.
Qed.

(** Rows in order of decreasing demand. *)
Definition demand_sorted (t : list exynos_dm_freq) : Prop :=
  forall i j r s, (i <= j)%nat -> t !! i = Some r -> t !! j = Some s -> constraint_freq s <= constraint_freq r.

Lemma last_filter_lookup (P : exynos_dm_freq -> Prop) `{forall r, Decision (P r)} t r : last (filter P t) = Some r ->
  exists i, t !! i = Some r /\ P r /\ forall j s, (i < j)%nat -> t !! j = Some s -> ~ P s.
Proof.
  induction t as [|s t IH] using rev_ind; [done|]. rewrite filter_app. destruct (decide (P s)) as [Hp|Hp].
  - rewrite (filter_cons_True _ s []) by done. cbn [filter list_filter]. rewrite last_snoc. intros [= <-].
    exists (length t). split; [by rewrite lookup_app_r, Nat.sub_diag by lia|]. split; [done|].
    intros j u Hj E%lookup_lt_Some. rewrite length_app in E. simpl in E. lia.
  - rewrite (filter_cons_False _ s []) by done. cbn [filter list_filter]. rewrite app_nil_r. intros Hl.
    destruct (IH Hl) as (i & Ei & Hi & Hafter). exists i. split; [by apply lookup_app_l_Some|]. split; [done|].
    intros j u Hj Eu. apply lookup_app_Some in Eu as [Eu|[Hlen Eu]]; [by eapply Hafter|].
    apply list_lookup_singleton_Some in Eu as [_ <-]. done.
Qed.

Lemma last_filter_none (P : exynos_dm_freq -> Prop) `{forall r, Decision (P r)} t : last (filter P t) = None -> forall r, r ∈ t -> ~ P r.
Proof. intros Hl%last_None r Hr Hp. eapply (not_elem_of_nil r). rewrite <- Hl. by apply list_elem_of_filter. Qed.

(** A faster driver never demands less. *)
Lemma row_freq_mono t f g : demand_sorted t -> f <= g -> row_freq t f <= row_freq t g.
Proof.
  intros Hs Hfg. unfold row_freq. destruct t as [|r0 t0]; [done|]. set (t := r0 :: t0) in *.
  destruct (last (filter (fun r => f <= driver_freq r) t)) as [r|] eqn:Ef.
  - apply last_filter_lookup in Ef as (i & Ei & Hi & Hafter).
    destruct (last (filter (fun r => g <= driver_freq r) t)) as [s|] eqn:Eg.
    + apply last_filter_lookup in Eg as (j & Ej & Hj & _). apply (Hs j i s r); try done.
      destruct (decide (i < j)%nat) as [Hij|]; [|lia]. exfalso. apply (Hafter j s Hij Ej). lia.
    + apply (Hs 0%nat i r0 r); [lia|done|done].
  - destruct (last (filter (fun r => g <= driver_freq r) t)) as [s|] eqn:Eg; [|done].
    apply last_filter_lookup in Eg as (j & Ej & Hj & _). exfalso.
    apply (last_filter_none _ _ Ef s); [by eapply list_elem_of_lookup_2|lia].
Qed.

(** ** Valuations *)

Record plan := MkPlan { v_next : Z -> Z; v_gmin : Z -> Z; v_cur : Z -> Z; v_gfreq : Z -> Z }.
#[export] Instance eta_plan : Eta plan := mk_eta (fun v => MkPlan (v_next v) (v_gmin v) (v_cur v) (v_gfreq v)).

Definition upd (f : Z -> Z) (k a : Z) : Z -> Z := fun i => if decide (i = k) then a else f i.

Lemma upd_eq f k a : upd f k a k = a.
Proof. unfold upd. by rewrite decide_True. Qed.
Lemma upd_ne f k a i : i <> k -> upd f k a i = f i.
Proof. intros. unfold upd. by rewrite decide_False. Qed.
Lemma upd_cases f k a i : upd f k a i = a /\ i = k \/ upd f k a i = f i /\ i <> k.
Proof. unfold upd. case_decide; auto. Qed.

Definition put (v : plan) (k : Z) (d : exynos_dm_data) : exynos_dm_data :=
  d <| d_next_target_freq := v_next v k |> <| d_gov_min := v_gmin v k |> <| d_cur_freq := v_cur v k |>.

(** Device [x] with the values of [v] and the log [cs]. *)
Definition inst (x : exynos_dm_device) (v : plan) (cs : list scale_call) : exynos_dm_device :=
  x <| x_dm_data := imap (fun i d => put v (Z.of_nat i) d) (x_dm_data x) |>
    <| x_cons := map_imap (fun p c => Some (c <| c_gov_freq := v_gfreq v p |>)) (x_cons x) |>
    <| x_calls := cs |>.

Definition from_dom (x : exynos_dm_device) (f : exynos_dm_data -> Z) (k : Z) : Z := from_option f 0 (dat x k).
Definition plan_of (x : exynos_dm_device) : plan :=
  MkPlan (from_dom x d_next_target_freq) (from_dom x d_gov_min) (from_dom x d_cur_freq)
    (fun p => from_option c_gov_freq 0 (x_cons x !! p)).

Lemma dat_inst x v cs k : dat (inst x v cs) k = put v k <$> dat x k.
Proof.
  unfold dat; simpl. destruct (Z.ltb_spec k 0); [done|]. rewrite list_lookup_imap. by rewrite Z2Nat.id.
Qed.

Lemma con_inst x v cs p : x_cons (inst x v cs) !! p = (fun c => c <| c_gov_freq := v_gfreq v p |>) <$> x_cons x !! p.
Proof. simpl. rewrite map_lookup_imap. by destruct (x_cons x !! p). Qed.

Lemma inst_plan_of x : inst x (plan_of x) (x_calls x) = x.
Proof.
  destruct x as [n o ds cn ca po]. unfold inst. simpl. f_equal.
  - apply list_eq. intros i. rewrite list_lookup_imap. destruct (ds !! i) as [d|] eqn:E; [|done]. simpl. f_equal.
    unfold put, plan_of, from_dom, dat; simpl. destruct (Z.ltb_spec (Z.of_nat i) 0); [lia|]. rewrite Nat2Z.id, E. by destruct d.
  - apply map_eq. intros p. rewrite map_lookup_imap. destruct (cn !! p) as [c|]; [|done]. by destruct c.
Qed.

Lemma inst_same x v cs : same_graph x (inst x v cs).
Proof.
  split; [simpl; apply length_imap|done| |].
  - intros k. rewrite dat_inst. by destruct (dat x k).
  - intros p. rewrite con_inst. by destruct (x_cons x !! p).
Qed.

(** A changed domain is a changed valuation. *)
Lemma set_dat_inst x v w cs k d : dat x k = Some d ->
  (forall j e, dat x j = Some e -> j <> k -> put w j e = put v j e) -> v_gfreq w = v_gfreq v ->
  set_dat (inst x v cs) k (put w k d) = inst x w cs.
Proof.
  intros E Ho Hg. pose proof (dat_range _ _ _ E) as Hr. unfold set_dat, inst. rewrite Hg. simpl. f_equal.
  apply list_eq. intros i. rewrite list_lookup_imap. destruct (decide (i = Z.to_nat k)) as [->|Hne].
  - rewrite list_lookup_insert_eq by (rewrite length_imap; lia). unfold dat in E. destruct (k <? 0); [done|]. rewrite E.
    simpl. by rewrite Z2Nat.id by lia.
  - rewrite list_lookup_insert_ne by done. rewrite list_lookup_imap. destruct (x_dm_data x !! i) as [e|] eqn:Ee; [|done].
    simpl. f_equal. symmetry. apply Ho; [|lia]. unfold dat. destruct (Z.ltb_spec (Z.of_nat i) 0); [lia|]. by rewrite Nat2Z.id.
Qed.

(** ** The operations on valuations *)

Definition max_over (g : Z -> Z) (ts : list Z) : Z := foldl (fun acc t => Z.max (g t) acc) 0 ts.

Lemma foldl_max_ge (g : Z -> Z) ts : forall acc, acc <= foldl (fun acc t => Z.max (g t) acc) acc ts.
Proof. induction ts as [|t ts IH]; intros acc; [done|]. simpl. specialize (IH (Z.max (g t) acc)). lia. Qed.

Lemma foldl_max_in (g : Z -> Z) t ts : t ∈ ts -> forall acc, g t <= foldl (fun acc t => Z.max (g t) acc) acc ts.
Proof.
  induction ts as [|s ts IH]; intros Hin acc; [by apply not_elem_of_nil in Hin|]. simpl. apply elem_of_cons in Hin as [->|Hin].
  - pose proof (foldl_max_ge g ts (Z.max (g s) acc)). lia.
  - by apply IH.
Qed.

Lemma max_over_in g t ts : t ∈ ts -> g t <= max_over g ts.
Proof. intros. by apply foldl_max_in. Qed.

Lemma max_over_ext g h ts : (forall t, t ∈ ts -> g t = h t) -> max_over g ts = max_over h ts.
Proof.
  unfold max_over. generalize 0. induction ts as [|t ts IH]; intros acc H; [done|]. simpl.
  rewrite (H t) by left. apply IH. intros s Hs. apply H. by right.
Qed.

Section Plan.
Context (scaler : nat -> Z -> Z -> Z -> Z) (x : exynos_dm_device).

Definition outs (k : Z) : list Z := from_option d_min_constraints [] (dat x k).
Definition ins (k : Z) : list Z := from_option d_min_drivers [] (dat x k).
Definition dest (t : Z) : Z := from_option c_constraint 0 (x_cons x !! t).

(** What constraint [t] demands while its driver runs at [f]. *)
Definition need (t f : Z) : Z := from_option (fun c => from_option (fun tab => row_freq tab f) 0 (c_freq_table c)) 0 (x_cons x !! t).
Definition cap (k : Z) : Z := from_dom x (fun d => Z.min (d_policy_max d) (d_const_max d)) k.
Definition target (v : plan) (k : Z) : Z := from_option (fun d => new_target (put v k d)) 0 (dat x k).
Definition scales (k : Z) : bool := from_option d_freq_scaler false (dat x k).

Definition relax (f : Z) (v : plan) (t : Z) : plan :=
  let g := upd (v_gfreq v) t (need t f) in
  v <| v_gfreq := g |> <| v_gmin := upd (v_gmin v) (dest t) (max_over g (ins (dest t))) |>.

(** The valuation, the log of scaler calls and the result of the last of them. *)
Record run := MkRun { r_plan : plan; r_calls : list scale_call; r_ret : Z }.

Definition scale_step (relation : Z) (s : run) (k : Z) : run :=
  let v := r_plan s in
  let ret := scaler (length (r_calls s)) k (v_next v k) relation in
  MkRun (if ret =? 0 then v <| v_cur := upd (v_cur v) k (v_next v k) |> else v)
        (r_calls s ++ [MkCall k (v_next v k) relation ret]) ret.

Definition retarget (v : plan) (k : Z) : plan :=
  let v := v <| v_next := upd (v_next v) k (target v k) |> in
  foldl (relax (v_next v k)) v (outs k).

Definition down_step (relation : Z) (s : run) (k : Z) : run :=
  let v := retarget (r_plan s) k in
  let s := MkRun v (r_calls s) (r_ret s) in
  if (v_cur v k >? v_next v k) && scales k then scale_step relation s k else s.

Definition up_step (relation : Z) (s : run) (k : Z) : run :=
  let v := r_plan s in
  if (v_cur v k <? v_next v k) && scales k then scale_step relation s k else s.

(** ** The code computes them *)

Record ready : Prop := MkReady {
  rd_wf : graph_wf x;
  rd_tables : forall t k j c, edge x t k j -> x_cons x !! t = Some c -> con_ok c
}.
Context (R : ready).

Lemma fold_gov v cs acc ts : (forall t, t ∈ ts -> is_Some (x_cons x !! t)) ->
  fold_cons (fun acc t => Z.max (c_gov_freq t) acc) ts acc (inst x v cs) =
  Done (foldl (fun acc t => Z.max (v_gfreq v t) acc) acc ts) (inst x v cs).
Proof.
  revert acc. induction ts as [|t ts IH]; intros acc Hts; [done|]. cbn [fold_cons foldl].
  destruct (Hts t) as [c Ec]; [left|]. unfold kbind. rewrite (con_run _ t (c <| c_gov_freq := v_gfreq v t |>)).
  - apply IH. intros s Hs. apply Hts. by right.
  - rewrite con_inst, Ec. done.
Qed.

Lemma put_same v w k d : v_next w k = v_next v k -> v_gmin w k = v_gmin v k -> v_cur w k = v_cur v k -> put w k d = put v k d.
Proof. intros E1 E2 E3. unfold put. by rewrite E1, E2, E3. Qed.

(** Storing a constraint's governor frequency. *)
Lemma mod_gov_inst v cs t c a : x_cons x !! t = Some c ->
  mod_con t (fun c => c <| c_gov_freq := a |>) (inst x v cs) = Done tt (inst x (v <| v_gfreq := upd (v_gfreq v) t a |>) cs).
Proof.
  intros Ec. rewrite (mod_con_run _ t (c <| c_gov_freq := v_gfreq v t |>)) by by rewrite con_inst, Ec. f_equal.
  unfold inst; simpl. f_equal. apply map_eq. intros p. rewrite map_lookup_imap. destruct (decide (p = t)) as [->|Hne].
  - rewrite lookup_insert_eq, Ec. simpl. by rewrite upd_eq.
  - rewrite lookup_insert_ne, map_lookup_imap by done. destruct (x_cons x !! p); [|done]. simpl. by rewrite upd_ne.
Qed.

Lemma relax_run v cs t k j f : edge x t k j -> update_gov_min t f (inst x v cs) = Done tt (inst x (relax f v t) cs).
Proof.
  intros He. pose proof He as [(d & Ed & Hin) (c & Ec & Hj)].
  destruct (rd_tables R t k j c He Ec) as (tab & Et & Hne & Hl).
  apply (edge_in x t k j (rd_wf R)) in He as (e & _ & Ee & Hin' & _). subst j.
  unfold update_gov_min, kbind at 1. rewrite (con_run _ t (c <| c_gov_freq := v_gfreq v t |>)) by by rewrite con_inst, Ec.
  change (c_constraint (c <| c_gov_freq := v_gfreq v t |>)) with (c_constraint c).
  match goal with |- context [find_min_row ?b _ _] => destruct (min_row_run b tab f (inst x v cs) (fun r =>
    do! mod_con t (fun c => c <| c_gov_freq := constraint_freq r |>) in
    let! dm := dom (c_constraint c) in
    let! drivers := walk dm (d_min_drivers dm) in
    let! v := fold_cons (fun acc t => Z.max (c_gov_freq t) acc) drivers 0 in
    mod_dom (c_constraint c) (fun d => d <| d_gov_min := v |>))) as (r & -> & Hr); [done..|] end.
  unfold kbind at 1. rewrite (mod_gov_inst v cs t c) by done.
  set (v1 := v <| v_gfreq := _ |>). unfold kbind at 1. rewrite (dom_run _ _ (put v1 (c_constraint c) e)) by by rewrite dat_inst, Ee.
  destruct (rd_wf R) as [_ W]. pose proof (W _ _ Ee) as We. unfold kbind at 1. rewrite walk_run.
  2: { destruct (connected_in x _ e t (rd_wf R) Ee Hin') as (e' & Ee' & Ha & _). simplify_eq. by destruct (dw_listed _ _ _ We Ha). }
  unfold kbind. rewrite fold_gov.
  2: { intros s Hs. destruct (dw_in _ _ _ We s Hs) as (b & _ & -> & _). eauto. }
  rewrite (mod_dom_run _ _ (put v1 (c_constraint c) e)) by by rewrite dat_inst, Ee. f_equal.
  assert (Hn : need t f = constraint_freq r) by (unfold need; rewrite Ec; simpl; by rewrite Et, Hr).
  assert (Hd : dest t = c_constraint c) by (unfold dest; by rewrite Ec).
  assert (Hi : ins (dest t) = d_min_drivers e) by (unfold ins; by rewrite Hd, Ee).
  assert (Hv : v_gfreq v1 = v_gfreq (relax f v t)) by (simpl; by rewrite Hn).
  rewrite <- (set_dat_inst x v1 (relax f v t) cs (c_constraint c) e Ee); [|intros j b _ Hne'; apply put_same; try done|done].
  - f_equal. unfold put; simpl. rewrite Hi, Hn, Hd, upd_eq. done.
  - simpl. rewrite Hd. by apply upd_ne.
Qed.

Lemma relaxes_run cs k f ts : (forall t, t ∈ ts -> exists j, edge x t k j) -> forall v,
  dm_each ts (fun t => update_gov_min t f) (inst x v cs) = Done tt (inst x (foldl (relax f) v ts) cs).
Proof.
  induction ts as [|t ts IH]; intros Hts v; [done|]. destruct (Hts t) as [j He]; [left|].
  cbn [dm_each foldl]. unfold kbind. rewrite (relax_run v cs t k j f He). apply IH. intros s Hs. apply Hts. by right.
Qed.

Lemma outs_edge k d t : dat x k = Some d -> t ∈ d_min_constraints d -> edge x t k (dest t).
Proof.
  intros E Hin. split; [eauto|]. destruct (rd_wf R) as [_ W]. destruct (dw_out _ _ _ (W k d E) t Hin) as (c & _ & Ec & _).
  exists c. split; [done|]. unfold dest. by rewrite Ec.
Qed.

Lemma target_run v cs k d : dat x k = Some d ->
  update_new_target k (inst x v cs) = Done tt (inst x (v <| v_next := upd (v_next v) k (target v k) |>) cs).
Proof.
  intros E. unfold update_new_target. rewrite (mod_dom_run _ k (put v k d)) by by rewrite dat_inst, E. f_equal.
  assert (Ht : target v k = new_target (put v k d)) by (unfold target; by rewrite E).
  set (w := v <| v_next := _ |>). rewrite <- (set_dat_inst x v w cs k d E); [|intros; by apply put_same; simpl; [apply upd_ne|..]|done].
  f_equal. unfold put, w; simpl. rewrite upd_eq, Ht. done.
Qed.

Lemma scale_run relation v cs ret k d : dat x k = Some d ->
  let s := scale_step relation (MkRun v cs ret) k in
  scale scaler k k (v_next v k) relation (inst x v cs) = Done (r_ret s) (inst x (r_plan s) (r_calls s)).
Proof.
  intros E. unfold scale, scale_step. cbn [r_plan r_calls r_ret]. change (x_calls (inst x v cs)) with cs.
  set (r := scaler _ _ _ _). unfold kbind at 1, kmod at 1.
  change ((inst x v cs) <| x_calls := _ |>) with (inst x v (cs ++ [MkCall k (v_next v k) relation r])).
  set (cs' := cs ++ _). destruct (r =? 0); [|done]. unfold kbind.
  rewrite (mod_dom_run _ k (put v k d)) by by rewrite dat_inst, E. unfold kret. f_equal.
  set (w := v <| v_cur := _ |>). rewrite <- (set_dat_inst x v w cs' k d E); [|intros; by apply put_same; simpl; [..|apply upd_ne]|done].
  f_equal. unfold put, w; simpl. by rewrite upd_eq.
Qed.

Definition run_state (s : run) : exynos_dm_device := inst x (r_plan s) (r_calls s).

Lemma order_at_run i k v cs : x_domain_order x !! Z.to_nat i = Some k -> order_at i (inst x v cs) = Done k (inst x v cs).
Proof. intros E. unfold order_at. simpl. by rewrite E. Qed.

Lemma call_down_run relation s i k : x_domain_order x !! Z.to_nat i = Some k -> connected x k ->
  call_down scaler relation i (r_ret s) (run_state s) =
  Done (r_ret (down_step relation s k)) (run_state (down_step relation s k)).
Proof.
  intros Ei (d & E & Ha & _). destruct s as [v cs ret]. unfold run_state. cbn [r_plan r_calls r_ret].
  destruct (rd_wf R) as [_ W]. destruct (dw_listed _ _ _ (W k d E) Ha) as [Hl Ht].
  unfold call_down, kbind at 1. rewrite (order_at_run i k) by done. unfold kbind at 1.
  rewrite (dom_run _ k (put v k d)) by by rewrite dat_inst, E. unfold kbind at 1. change (d_type (put v k d)) with (d_type d).
  rewrite Ht, (target_run v cs k d E). set (v1 := v <| v_next := _ |>).
  unfold kbind at 1. rewrite (dom_run _ k (put v1 k d)) by by rewrite dat_inst, E.
  unfold kbind at 1. rewrite walk_run by done. change (d_min_constraints (put v1 k d)) with (d_min_constraints d).
  change (d_next_target_freq (put v1 k d)) with (v_next v1 k).
  unfold kbind at 1. rewrite (relaxes_run cs k) by (intros t Hin; eexists; by eapply outs_edge).
  assert (Hv : foldl (relax (v_next v1 k)) v1 (d_min_constraints d) = retarget v k).
  { unfold retarget, outs. by rewrite E. }
  rewrite Hv. set (v2 := retarget v k). unfold kbind at 1. rewrite (dom_run _ k (put v2 k d)) by by rewrite dat_inst, E.
  unfold down_step. cbn [r_plan r_calls r_ret]. fold v2.
  assert (Hs : scales k = d_freq_scaler d) by (unfold scales; by rewrite E). rewrite Hs.
  change (d_cur_freq (put v2 k d)) with (v_cur v2 k). change (d_next_target_freq (put v2 k d)) with (v_next v2 k).
  change (d_freq_scaler (put v2 k d)) with (d_freq_scaler d). change (d_type (put v2 k d)) with (d_type d).
  destruct (_ && _); [|done]. rewrite Ht. by apply (scale_run relation v2 cs ret k d E).
Qed.

Lemma call_up_run relation s i k : x_domain_order x !! Z.to_nat i = Some k -> connected x k ->
  call_up scaler relation i (r_ret s) (run_state s) =
  Done (r_ret (up_step relation s k)) (run_state (up_step relation s k)).
Proof.
  intros Ei (d & E & Ha & _). destruct s as [v cs ret]. unfold run_state. cbn [r_plan r_calls r_ret].
  destruct (rd_wf R) as [_ W]. destruct (dw_listed _ _ _ (W k d E) Ha) as [Hl Ht].
  unfold call_up, kbind at 1. rewrite (order_at_run i k) by done. unfold kbind at 1.
  rewrite (dom_run _ k (put v k d)) by by rewrite dat_inst, E. unfold up_step. cbn [r_plan r_calls r_ret].
  assert (Hs : scales k = d_freq_scaler d) by (unfold scales; by rewrite E). rewrite Hs.
  change (d_cur_freq (put v k d)) with (v_cur v k). change (d_next_target_freq (put v k d)) with (v_next v k).
  change (d_freq_scaler (put v k d)) with (d_freq_scaler d). change (d_type (put v k d)) with (d_type d).
  destruct (_ && _); [|done]. rewrite Ht. by apply (scale_run relation v cs ret k d E).
Qed.

(** A pass over the positions of a list of domains. *)
Lemma pass_run (body : Z -> Z -> DM Z) (step : run -> Z -> run) is_ ks :
  (forall s i k, x_domain_order x !! Z.to_nat i = Some k -> connected x k ->
     body i (r_ret s) (run_state s) = Done (r_ret (step s k)) (run_state (step s k))) ->
  Forall2 (fun i k => x_domain_order x !! Z.to_nat i = Some k /\ connected x k) is_ ks -> forall s,
  pass body is_ (r_ret s) (run_state s) = Done (r_ret (foldl step s ks)) (run_state (foldl step s ks)).
Proof.
  intros Hb. induction 1 as [|i k is_ ks [Ei Hc] _ IH]; intros s; [done|]. cbn [pass foldl]. unfold kbind.
  rewrite (Hb s i k Ei Hc). apply IH.
Qed.

End Plan.
