(* ===== verification/DmCall.v ===== *)
(** * The dependency manager's call: targets and safety

    On the domains in topological order, one pass computes targets that satisfy
    every constraint ([settled]): each domain's target covers the governor
    minimum, and that minimum is what the drivers' own targets demand. With
    scalers that succeed, every single frequency change on the way keeps each
    constrained domain at the demand of its drivers' current frequencies, or at
    its own ceiling if that is lower ([safe_at]). *)

From S2P Require Import Prelude Dm DmGraph DmPlan.

(** ** Targets *)

Section Call.
Context (scaler : nat -> Z -> Z -> Z -> Z) (x : exynos_dm_device) (R : ready x).

(** The domains in the order of the calls. *)
Record ordering (q : list Z) : Prop := MkOrdering {
  or_nodup : NoDup q;
  or_first : drivers_first x q;
  or_sound : forall k, k ∈ q -> connected x k;
  or_complete : forall k, connected x k -> k ∈ q
}.

Lemma edge_dest t k j : edge x t k j -> dest x t = j.
Proof. intros [_ (c & Ec & <-)]. unfold dest. by rewrite Ec. Qed.

Lemma edge_outs t k : t ∈ outs x k <-> edge x t k (dest x t).
Proof.
  unfold outs. split.
  - destruct (dat x k) as [d|] eqn:E; [|by intros ?%not_elem_of_nil]. intros Hin. by eapply outs_edge.
  - intros [(d & E & Hin) _]. by rewrite E.
Qed.

Lemma edge_ins t j : t ∈ ins x j <-> exists k, edge x t k j.
Proof.
  unfold ins. split.
  - destruct (dat x j) as [e|] eqn:E; [|by intros ?%not_elem_of_nil]. intros Hin.
    destruct (rd_wf _ R) as [Wl W]. destruct (dw_in _ _ _ (W j e E) t Hin) as (c & d & Ec & _).
    exists (c_driver c). apply (edge_in x); [done|]. eauto 10.
  - intros [k He]. apply (edge_in x _ _ _ (rd_wf _ R)) in He as (e & c & E & Hin & _). by rewrite E.
Qed.

(** A constraint has one driver and one destination. *)
Lemma edge_fun t k j k' j' : edge x t k j -> edge x t k' j' -> k = k' /\ j = j'.
Proof.
  intros He He'. split; [|rewrite <- (edge_dest _ _ _ He); by eapply edge_dest].
  apply (edge_in x _ _ _ (rd_wf _ R)) in He as (e & c & _ & _ & Ec & <-).
  apply (edge_in x _ _ _ (rd_wf _ R)) in He' as (e' & c' & _ & _ & Ec' & <-). congruence.
Qed.

(** The constraints of one domain, relaxed. *)
Lemma relaxes_frame f ts : forall v, v_next (foldl (relax x f) v ts) = v_next v /\ v_cur (foldl (relax x f) v ts) = v_cur v.
Proof. induction ts as [|t ts IH]; intros v; [done|]. simpl. by destruct (IH (relax x f v t)) as [-> ->]. Qed.

Lemma relaxes_gfreq f ts v t : v_gfreq (foldl (relax x f) v ts) t = if decide (t ∈ ts) then need x t f else v_gfreq v t.
Proof.
  induction ts as [|s ts IH] using rev_ind; [by rewrite decide_False by apply not_elem_of_nil|].
  rewrite foldl_snoc. simpl. destruct (upd_cases (v_gfreq (foldl (relax x f) v ts)) s (need x s f) t) as [[-> ->]|[-> Hne]].
  - rewrite decide_True; [done|]. apply elem_of_app. right. by apply list_elem_of_singleton.
  - rewrite IH. destruct (decide (t ∈ ts)) as [Hin|Hn].
    + rewrite decide_True; [done|]. apply elem_of_app. by left.
    + rewrite decide_False; [done|]. rewrite elem_of_app, list_elem_of_singleton. tauto.
Qed.

Lemma relaxes_gmin f ts v j :
  ((exists t, t ∈ ts /\ dest x t = j) -> v_gmin (foldl (relax x f) v ts) j = max_over (v_gfreq (foldl (relax x f) v ts)) (ins x j)) /\
  ((forall t, t ∈ ts -> dest x t <> j) -> v_gmin (foldl (relax x f) v ts) j = v_gmin v j).
Proof.
  induction ts as [|s ts [IH1 IH2]] using rev_ind; [split; [intros (t & Ht%not_elem_of_nil & _); done|done]|].
  rewrite foldl_snoc. set (w := foldl (relax x f) v ts) in *. split.
  - intros (t & Ht & Hj). simpl. destruct (decide (j = dest x s)) as [->|Hne]; [by rewrite upd_eq|]. rewrite upd_ne by done.
    rewrite IH1.
    + apply max_over_ext. intros r (k & Hr%edge_dest)%edge_ins. rewrite upd_ne; [done|]. intros ->. done.
    + exists t. split; [|done]. apply elem_of_app in Ht as [?|Ht]; [done|]. apply list_elem_of_singleton in Ht. congruence.
  - intros Hn. simpl. rewrite upd_ne; [apply IH2|].
    + intros t Ht. apply Hn, elem_of_app. by left.
    + intros ->. eapply Hn; [|done]. apply elem_of_app. right. by apply list_elem_of_singleton.
Qed.

(** Targets and governor minima after the domains of [p] have been visited. *)
Record settled (v0 v : plan) (p : list Z) : Prop := MkSettled {
  se_next : forall k, k ∈ p -> v_next v k = target x v k;
  se_edge : forall t k j, edge x t k j -> k ∈ p -> v_gfreq v t = need x t (v_next v k) /\ v_gmin v j = max_over (v_gfreq v) (ins x j);
  se_gmin : forall j, (forall t k, edge x t k j -> k ∉ p) -> v_gmin v j = v_gmin v0 j
}.

(** Every driver of a visited domain was visited. *)
Definition closed (p : list Z) : Prop := forall t k j, edge x t k j -> j ∈ p -> k ∈ p.

Lemma target_gmin v w k : v_gmin v k = v_gmin w k -> target x v k = target x w k.
Proof. unfold target. destruct (dat x k) as [d|]; [|done]. unfold new_target, put. simpl. by intros ->. Qed.

Lemma retarget_settled v0 v p k : settled v0 v p -> closed p -> k ∉ p -> (forall t k', edge x t k' k -> k' ∈ p) ->
  settled v0 (retarget x v k) (p ++ [k]).
Proof.
  intros [Hn He Hg] Hcl Hk Hin. unfold retarget. set (f := v_next (v <| v_next := _ |>) k). set (v1 := v <| v_next := _ |>) in *.
  destruct (relaxes_frame f (outs x k) v1) as [Hnext _]. pose proof (relaxes_gfreq f (outs x k) v1) as Hgf.
  pose proof (relaxes_gmin f (outs x k) v1) as Hgm. set (w := foldl _ _ _) in *.
  assert (Hf : v_next w k = f) by by rewrite Hnext.
  assert (Hold : forall j, j ∈ p -> v_next w j = v_next v j) by (intros j Hj; rewrite Hnext; apply upd_ne; congruence).
  assert (Hsame : forall j, j ∈ p \/ j = k -> v_gmin w j = v_gmin v j).
  { intros j Hj. rewrite (proj2 (Hgm j)); [done|]. intros t Ht%edge_outs <-.
    apply Hk. destruct Hj as [Hj|Hj]; [by eapply Hcl|]. eapply Hin. by rewrite Hj in Ht. }
  split.
  - intros j Hj. apply elem_of_app in Hj as [Hj|Hj%list_elem_of_singleton].
    + rewrite Hold, Hn by done. apply target_gmin. symmetry. auto.
    + subst j. rewrite Hf. unfold f. simpl. rewrite upd_eq. apply target_gmin. symmetry. auto.
  - intros t k' j Hedge Hk'. apply elem_of_app in Hk' as [Hk'|Hk'%list_elem_of_singleton].
    + assert (Hnt : t ∉ outs x k).
      { intros Ht%edge_outs. destruct (edge_fun _ _ _ _ _ Ht Hedge) as [-> _]. done. }
      rewrite Hgf, decide_False, Hold by done. destruct (He t k' j Hedge Hk') as [Hgt Hgj]. split; [done|].
      destruct (decide (Exists (fun s => dest x s = j) (outs x k))) as [Hs|Hs]; [by apply Hgm, Exists_exists|].
      rewrite (proj2 (Hgm j)) by (intros s Hs1 Hs2; apply Hs, Exists_exists; eauto). transitivity (v_gmin v j); [done|]. rewrite Hgj.
      apply max_over_ext. intros s Hsin. rewrite Hgf, decide_False; [done|]. intros Ho. apply Hs, Exists_exists. exists s. split; [done|].
      apply edge_ins in Hsin as [k'' Hs']. by eapply edge_dest.
    + subst k'. pose proof (edge_dest _ _ _ Hedge) as Hd. assert (Ht : t ∈ outs x k) by (apply edge_outs; by rewrite Hd).
      rewrite Hgf, decide_True, Hf by done. split; [done|]. apply Hgm. eauto.
  - intros j Hj. rewrite (proj2 (Hgm j)).
    + transitivity (v_gmin v j); [done|]. apply Hg. intros t k' He' Hin'. eapply Hj; [done|]. apply elem_of_app. by left.
    + intros t Ht%edge_outs <-. eapply Hj; [done|]. apply elem_of_app. right. by apply list_elem_of_singleton.
Qed.

(** ** The first pass *)

Lemma settled_ext v0 v w p : v_next w = v_next v -> v_gmin w = v_gmin v -> v_gfreq w = v_gfreq v -> settled v0 v p -> settled v0 w p.
Proof.
  intros En Eg Ef [Hn He Hg]. split; rewrite ?En, ?Eg, ?Ef; auto.
  intros k Hk. rewrite Hn by done. apply target_gmin. by rewrite Eg.
Qed.

(** A scaler changes the current frequency only. *)
Lemma scale_frame relation s k : let w := r_plan (scale_step scaler relation s k) in
  v_next w = v_next (r_plan s) /\ v_gmin w = v_gmin (r_plan s) /\ v_gfreq w = v_gfreq (r_plan s).
Proof. unfold scale_step. simpl. by destruct (_ =? 0). Qed.

Lemma up_frame relation s k : let w := r_plan (up_step scaler x relation s k) in
  v_next w = v_next (r_plan s) /\ v_gmin w = v_gmin (r_plan s) /\ v_gfreq w = v_gfreq (r_plan s).
Proof. unfold up_step. destruct (_ && _); [apply scale_frame|done]. Qed.

Lemma ups_frame relation ks : forall s, let w := r_plan (foldl (up_step scaler x relation) s ks) in
  v_next w = v_next (r_plan s) /\ v_gmin w = v_gmin (r_plan s) /\ v_gfreq w = v_gfreq (r_plan s).
Proof.
  induction ks as [|k ks IH]; intros s; [done|]. simpl. destruct (IH (up_step scaler x relation s k)) as (-> & -> & ->).
  apply up_frame.
Qed.

Lemma down_step_settled v0 relation s k p : settled v0 (retarget x (r_plan s) k) p -> settled v0 (r_plan (down_step scaler x relation s k)) p.
Proof.
  intros H. unfold down_step. destruct (_ && _); [|done].
  edestruct scale_frame as (En & Eg & Ef). eapply settled_ext; [exact En|exact Eg|exact Ef|done].
Qed.

Section Order.
Context (q : list Z) (Q : ordering q).

Lemma order_split p k rest : q = p ++ (k :: rest) ->
  k ∉ p /\ (forall t k', edge x t k' k -> k' ∈ p) /\ (forall t j, edge x t k j -> j ∈ rest).
Proof.
  intros E. assert (Hin : forall t k', edge x t k' k -> k' ∈ p).
  { intros t k' He. pose proof (or_first _ Q (length p) k) as Hf. rewrite E in Hf.
    rewrite take_app_length in Hf. eapply Hf; [|done]. by rewrite lookup_app_r, Nat.sub_diag by lia. }
  pose proof (or_nodup _ Q) as Hnd. rewrite E in Hnd. apply NoDup_app in Hnd as (_ & Hdis & Hnd).
  assert (Hk : k ∉ p) by (intros Hk; apply (Hdis k Hk); left). split_and!; [done|done|].
  intros t j He. assert (Hj : j ∈ q).
  { apply (or_complete _ Q). apply (edge_in x _ _ _ (rd_wf _ R)) in He as (e & c & Ee & Hi & _). eapply connected_in; eauto. apply R. }
  rewrite E in Hj. apply elem_of_app in Hj as [Hj|Hj].
  - exfalso. apply Hk. apply list_elem_of_lookup in Hj as [i Ei]. pose proof (or_first _ Q i j) as Hf.
    rewrite E in Hf. rewrite lookup_app_l in Hf by (by eapply lookup_lt_Some). specialize (Hf Ei t k He).
    rewrite take_app_le in Hf by (apply lookup_lt_Some in Ei; lia). apply elem_of_take in Hf as (n & En & _). by eapply list_elem_of_lookup_2.
  - apply elem_of_cons in Hj as [->|Hj]; [|done]. exfalso. eauto.
Qed.

Lemma order_closed p rest : q = p ++ rest -> closed p.
Proof.
  intros E t k j He Hj. apply list_elem_of_lookup in Hj as [i Ei].
  assert (Eq : q = take i p ++ j :: (drop (S i) p ++ rest)).
  { rewrite E. rewrite <- (take_drop_middle p i j) at 1 by done. by rewrite <- app_assoc. }
  destruct (order_split _ _ _ Eq) as (_ & Hin & _). specialize (Hin t k He). apply elem_of_take in Hin as (n & En & _).
  by eapply list_elem_of_lookup_2.
Qed.

Lemma downs_settled relation s p rest : q = p ++ rest ->
  settled (r_plan s) (r_plan (foldl (down_step scaler x relation) s p)) p.
Proof.
  revert rest. induction p as [|k p IH] using rev_ind; intros rest E.
  - split; [by intros ? ?%not_elem_of_nil|by intros ? ? ? _ ?%not_elem_of_nil|done].
  - rewrite <- app_assoc in E. destruct (order_split p k rest E) as (Hk & Hin & _). rewrite foldl_snoc.
    apply down_step_settled, retarget_settled; auto; [by eapply IH|by eapply order_closed].
Qed.

(** Both passes leave targets that satisfy every constraint, whatever the scalers do. *)
Lemma passes_settled relation s :
  settled (r_plan s) (r_plan (foldl (up_step scaler x relation) (foldl (down_step scaler x relation) s q) (reverse q))) q.
Proof.
  edestruct ups_frame as (En & Eg & Ef). eapply settled_ext; [exact En|exact Eg|exact Ef|].
  apply (downs_settled relation s q []). by rewrite app_nil_r.
Qed.

(** ** Scaling *)

(** The frequencies after the calls of a log. *)
Definition replay (cur : Z -> Z) (cs : list scale_call) : Z -> Z :=
  foldl (fun cur c => if s_ret c =? 0 then upd cur (s_type c) (s_freq c) else cur) cur cs.

(** Every constrained domain runs at what its drivers demand, or at its ceiling. *)
Definition safe_at (cur : Z -> Z) : Prop := forall t k j, edge x t k j -> Z.min (need x t (cur k)) (cap x j) <= cur j.

Context (Hok : forall n k f r, scaler n k f r = 0) (Hscales : forall k, k ∈ q -> scales x k = true).
Context (Hmono : forall t k j, edge x t k j -> forall f g, f <= g -> need x t f <= need x t g).
Context (s0 : run).
Abbreviation cur0 := (v_cur (r_plan s0)).

(** The log so far: what it replays to, and that it was safe throughout. *)
Record tracked (s : run) (log : list scale_call) : Prop := MkTracked {
  tr_calls : r_calls s = r_calls s0 ++ log;
  tr_cur : forall k, replay cur0 log k = v_cur (r_plan s) k;
  tr_safe : forall n, safe_at (replay cur0 (take n log));
  tr_ok : Forall (fun c => s_ret c = 0) log;
  tr_ret : r_ret s = 0
}.

Lemma safe_ext f g : (forall k, f k = g k) -> safe_at f -> safe_at g.
Proof. intros E H t k j He. rewrite <- !E. by apply H. Qed.

Lemma tracked_safe s log : tracked s log -> safe_at (v_cur (r_plan s)).
Proof. intros H. eapply safe_ext; [apply (tr_cur _ _ H)|]. rewrite <- (firstn_all log). apply H. Qed.

(** One more call. *)
Lemma tracked_scale relation s log k : tracked s log -> safe_at (upd (v_cur (r_plan s)) k (v_next (r_plan s) k)) ->
  exists log', tracked (scale_step scaler relation s k) log' /\
    v_cur (r_plan (scale_step scaler relation s k)) = upd (v_cur (r_plan s)) k (v_next (r_plan s) k).
Proof.
  intros [Hc Hcur Hs Hf Hr] Hsafe. unfold scale_step. rewrite Hok. simpl. set (c := MkCall k _ relation 0).
  exists (log ++ [c]). assert (Hrep : forall i, replay cur0 (log ++ [c]) i = upd (v_cur (r_plan s)) k (v_next (r_plan s) k) i).
  { intros i. unfold replay. rewrite foldl_snoc. simpl. unfold upd. case_decide; [done|]. apply Hcur. }
  split; [|done]. split; simpl; auto.
  - by rewrite Hc, app_assoc.
  - intros n. destruct (decide (n <= length log)%nat).
    + rewrite take_app_le by done. apply Hs.
    + rewrite take_ge by (rewrite length_app; simpl; lia). eapply safe_ext; [|exact Hsafe]. intros i. by rewrite Hrep.
  - apply Forall_app. by repeat constructor.
Qed.

(** Changes of the valuation that leave the current frequencies alone. *)
Lemma tracked_ext s w log : v_cur w = v_cur (r_plan s) -> tracked s log -> tracked (MkRun w (r_calls s) (r_ret s)) log.
Proof. intros E [Hc Hcur Hs Hf Hr]. split; simpl; auto. intros k. by rewrite E. Qed.

Lemma retarget_cur v k : v_cur (retarget x v k) = v_cur v.
Proof. unfold retarget. by rewrite (proj2 (relaxes_frame _ _ _)). Qed.

(** Targets cover the demand of the drivers' targets. *)
Lemma target_ge v k : Z.min (v_gmin v k) (cap x k) <= target x v k \/ dat x k = None.
Proof.
  unfold cap, target, from_dom. destruct (dat x k) as [d|]; [left|by right]. unfold new_target, put. simpl. lia.
Qed.

Lemma settled_demand v0 v p t k j : settled v0 v p -> edge x t k j -> k ∈ p -> j ∈ p ->
  need x t (v_next v k) <= v_gmin v j /\ Z.min (need x t (v_next v k)) (cap x j) <= v_next v j.
Proof.
  intros H He Hk Hj. destruct (se_edge _ _ _ H t k j He Hk) as [Hg Hm].
  assert (Hin : t ∈ ins x j) by (apply edge_ins; eauto). pose proof (max_over_in (v_gfreq v) t _ Hin) as Hle.
  split; [lia|]. rewrite (se_next _ _ _ H j Hj). destruct (target_ge v j) as [|Hn]; [lia|].
  apply (edge_in x _ _ _ (rd_wf _ R)) in He as (e & c & Ee & _). congruence.
Qed.

Lemma retarget_next v k i : i <> k -> v_next (retarget x v k) i = v_next v i.
Proof. intros. unfold retarget. rewrite (proj1 (relaxes_frame _ _ _)). simpl. by apply upd_ne. Qed.

(** Lowering a domain to its target is safe once its drivers have been lowered. *)
Lemma lower_safe v0 v p k cur : settled v0 v (p ++ [k]) -> k ∉ p -> (forall t k', edge x t k' k -> k' ∈ p) ->
  (forall j, j ∈ p -> cur j <= v_next v j) -> v_next v k <= cur k -> safe_at cur -> safe_at (upd cur k (v_next v k)).
Proof.
  intros Hs Hk Hin Hp Hle H t k1 j1 He. destruct (upd_cases cur k (v_next v k) j1) as [[-> ->]|[-> Hj]].
  - pose proof (Hin t k1 He) as Hk1. rewrite upd_ne by congruence.
    destruct (settled_demand _ _ _ t k1 k Hs He) as [_ Hd]; [apply elem_of_app; by left|apply elem_of_app; right; by apply list_elem_of_singleton|].
    pose proof (Hmono t _ _ He _ _ (Hp k1 Hk1)). lia.
  - pose proof (H t k1 j1 He). destruct (upd_cases cur k (v_next v k) k1) as [[-> ->]|[-> _]]; [|done].
    pose proof (Hmono t _ _ He _ _ Hle). lia.
Qed.

Lemma downs_tracked relation p rest : q = p ++ rest -> safe_at cur0 -> r_ret s0 = 0 ->
  let s := foldl (down_step scaler x relation) s0 p in
  exists log, tracked s log /\
    forall k, v_cur (r_plan s) k = if decide (k ∈ p) then Z.min (cur0 k) (v_next (r_plan s) k) else cur0 k.
Proof.
  intros E Hs Hr. revert rest E. induction p as [|k p IH] using rev_ind; intros rest E.
  - exists []. simpl. split; [|done]. split; rewrite ?app_nil_r; try done. intros n. by rewrite take_nil.
  - rewrite <- app_assoc in E. destruct (IH _ E) as (log & Ht & Hcur). rewrite foldl_snoc.
    set (s := foldl _ s0 p) in *. destruct (order_split p k rest E) as (Hk & Hin & _).
    assert (Hset : settled (r_plan s0) (retarget x (r_plan s) k) (p ++ [k])).
    { apply retarget_settled; auto; [by eapply downs_settled|by eapply order_closed]. }
    assert (Hkq : k ∈ q) by (rewrite E; set_solver).
    unfold down_step. set (v := retarget x (r_plan s) k) in *. cbn zeta. rewrite (Hscales k Hkq), andb_true_r.
    assert (Hvc : v_cur v = v_cur (r_plan s)) by apply retarget_cur.
    pose proof (tracked_ext s v log Hvc Ht) as Ht'. set (s' := MkRun v (r_calls s) (r_ret s)) in *.
    assert (Hold : forall j, j ∈ p -> v_cur v j = Z.min (cur0 j) (v_next v j)).
    { intros j Hj. unfold v. rewrite retarget_next by congruence. rewrite retarget_cur, Hcur. by rewrite decide_True. }
    assert (Hk0 : v_cur v k = cur0 k) by (rewrite Hvc, Hcur; by rewrite decide_False).
    destruct (Z.gtb_spec (v_cur v k) (v_next v k)) as [Hgt|Hle].
    + destruct (tracked_scale relation s' log k Ht') as (log' & Ht'' & Hc'').
      { apply (lower_safe (r_plan s0) v p k (v_cur v)); auto; [|lia|exact (tracked_safe _ _ Ht')].
        intros j Hj. rewrite (Hold j Hj). lia. }
      exists log'. split; [done|]. intros j. rewrite Hc''. destruct (scale_frame relation s' k) as (-> & _). simpl.
      destruct (upd_cases (v_cur v) k (v_next v k) j) as [[-> ->]|[-> Hj]].
      * rewrite decide_True by set_solver. lia.
      * destruct (decide (j ∈ p)); [rewrite decide_True by set_solver; by apply Hold|].
        rewrite decide_False by set_solver. rewrite Hvc, Hcur. by rewrite decide_False.
    + exists log. split; [done|]. intros j. simpl. destruct (decide (j = k)) as [->|Hj].
      * rewrite decide_True by set_solver. lia.
      * destruct (decide (j ∈ p)); [rewrite decide_True by set_solver; by apply Hold|].
        rewrite decide_False by set_solver. rewrite Hvc, Hcur. by rewrite decide_False.
Qed.

(** Raising a domain to its target is safe once the domains it constrains have been raised. *)
Lemma raise_safe v0 v k cur : settled v0 v q -> k ∈ q -> (forall t j, edge x t k j -> j <> k /\ v_next v j <= cur j /\ j ∈ q) ->
  cur k <= v_next v k -> safe_at cur -> safe_at (upd cur k (v_next v k)).
Proof.
  intros Hs Hk Hout Hle H t k1 j1 He. pose proof (H t k1 j1 He) as Hold.
  destruct (upd_cases cur k (v_next v k) k1) as [[-> ->]|[-> Hk1]].
  - destruct (Hout t j1 He) as (Hne & Hj & Hjq). rewrite upd_ne by done.
    destruct (settled_demand _ _ _ t k j1 Hs He Hk Hjq) as [_ Hd]. lia.
  - destruct (upd_cases cur k (v_next v k) j1) as [[-> ->]|[-> _]]; lia.
Qed.

Lemma ups_tracked relation v0 s1 log1 r : tracked s1 log1 -> settled v0 (r_plan s1) q ->
  (forall k, k ∈ q -> v_cur (r_plan s1) k <= v_next (r_plan s1) k) -> forall rest, q = rest ++ r ->
  let s := foldl (up_step scaler x relation) s1 (reverse r) in
  exists log, tracked s log /\
    forall k, v_cur (r_plan s) k = if decide (k ∈ r) then v_next (r_plan s1) k else v_cur (r_plan s1) k.
Proof.
  intros Ht1 Hset Hle. induction r as [|k r IH]; intros rest E.
  - exists log1. split; [done|]. intros k. by rewrite decide_False by apply not_elem_of_nil.
  - destruct (IH (rest ++ [k])) as (log & Ht & Hcur); [by rewrite <- app_assoc|].
    cbn zeta. rewrite reverse_cons, foldl_snoc. destruct (ups_frame relation (reverse r) s1) as (En & Eg & Ef).
    set (s := foldl _ s1 (reverse r)) in *. destruct (order_split rest k r E) as (Hk & _ & Hout).
    assert (Hkq : k ∈ q) by (rewrite E; set_solver).
    assert (Hkr : k ∉ r). { pose proof (or_nodup _ Q) as Hnd. rewrite E in Hnd. apply NoDup_app in Hnd as (_ & _ & Hnd%NoDup_cons). tauto. }
    assert (Hck : v_cur (r_plan s) k = v_cur (r_plan s1) k) by (rewrite Hcur; by rewrite decide_False).
    unfold up_step. rewrite (Hscales k Hkq), andb_true_r, En, Hck.
    destruct (Z.ltb_spec (v_cur (r_plan s1) k) (v_next (r_plan s1) k)) as [Hlt|Hge].
    + destruct (tracked_scale relation s log k Ht) as (log' & Ht' & Hc').
      { apply (raise_safe v0 (r_plan s) k); [by eapply settled_ext| |intros t j He|rewrite En; lia|by eapply tracked_safe].
        - done.
        - pose proof (Hout t j He) as Hj. split_and!; [congruence| |rewrite E; set_solver].
          rewrite En, Hcur, decide_True by done. done. }
      exists log'. split; [done|]. intros j. rewrite Hc', En. destruct (upd_cases (v_cur (r_plan s)) k (v_next (r_plan s1) k) j) as [[-> ->]|[-> Hj]].
      * by rewrite decide_True by left.
      * rewrite Hcur. destruct (decide (j ∈ r)); [by rewrite decide_True by by right|]. by rewrite decide_False by set_solver.
    + exists log. split; [done|]. intros j. rewrite Hcur. destruct (decide (j = k)) as [->|Hj].
      * rewrite (decide_False (P := k ∈ r)), decide_True by set_solver. pose proof (Hle k Hkq). lia.
      * destruct (decide (j ∈ r)); [by rewrite decide_True by by right|]. by rewrite decide_False by set_solver.
Qed.

(** Both passes: safe throughout, and every domain ends at its target. *)
Lemma passes_tracked relation : safe_at cur0 -> r_ret s0 = 0 ->
  let s := foldl (up_step scaler x relation) (foldl (down_step scaler x relation) s0 q) (reverse q) in
  exists log, tracked s log /\ (forall k, k ∈ q -> v_cur (r_plan s) k = v_next (r_plan s) k) /\
    (forall k, k ∉ q -> v_cur (r_plan s) k = cur0 k).
Proof.
  intros Hs Hr. destruct (downs_tracked relation q [] ltac:(by rewrite app_nil_r) Hs Hr) as (log1 & Ht1 & Hc1).
  set (s1 := foldl _ s0 q) in *. cbn zeta. destruct (ups_frame relation (reverse q) s1) as (En & _ & _).
  destruct (ups_tracked relation (r_plan s0) s1 log1 q Ht1) with (rest := @nil Z) as (log & Ht & Hc); [| |done|].
  - apply (downs_settled relation s0 q []). by rewrite app_nil_r.
  - intros k Hk. rewrite Hc1, decide_True by done. lia.
  - exists log. split_and!; [done| |].
    + intros k Hk. rewrite Hc, En, decide_True by done. done.
    + intros k Hk. rewrite Hc, decide_False, Hc1, decide_False by done. done.
Qed.
End Order.
End Call.
