(* ===== verification/DmSpec.v ===== *)
(** * The dependency manager: theorems

    The topological sort, the targets [DM_CALL] computes, and the safety of the
    frequency changes it makes. *)

From S2P Require Import Prelude Dm DmGraph DmPlan DmCall.

(** ** Devices ready for calls *)

Record dm_ready (x : exynos_dm_device) : Prop := MkDmReady {
  dr_ready : ready x;
  dr_order : ordering x (ordered_domains x);
  dr_count : x_constraint_domain_count x = Z.of_nat (length (ordered_domains x));
  dr_sorted : forall t k j c tab, edge x t k j -> x_cons x !! t = Some c -> c_freq_table c = Some tab -> demand_sorted tab;
  dr_scales : forall k, k ∈ ordered_domains x -> scales x k = true
}.

Abbreviation cur_of x := (from_dom x d_cur_freq).

(** Each constrained domain runs at what its drivers demand or at its ceiling,
    and its governor minimum accounts for the demand. *)
Definition within (x : exynos_dm_device) : Prop :=
  safe_at x (cur_of x) /\ forall t k j, edge x t k j -> need x t (cur_of x k) <= from_dom x d_gov_min j.

Lemma need_mono x : dm_ready x -> forall t k j, edge x t k j -> forall f g, f <= g -> need x t f <= need x t g.
Proof.
  intros D t k j He f g Hfg. pose proof He as [_ (c & Ec & _)]. destruct (rd_tables _ (dr_ready _ D) t k j c He Ec) as (tab & Et & _).
  unfold need. rewrite Ec; simpl. rewrite Et; simpl. apply row_freq_mono; [|done]. by eapply (dr_sorted _ D).
Qed.

Lemma need_same x y t f : same_graph x y -> need y t f = need x t f.
Proof.
  intros Hs. unfold need. pose proof (sg_con _ _ Hs t) as Ht.
  destruct (x_cons x !! t) as [c|], (x_cons y !! t) as [b|]; try done. simpl.
  apply (inj Some), con_shape_eq in Ht as (_ & _ & -> & _). done.
Qed.

(** Frequencies and logs do not matter to readiness. *)
Lemma dm_ready_same x y : same_graph x y -> x_domain_order y = x_domain_order x ->
  x_constraint_domain_count y = x_constraint_domain_count x -> (forall k, scales y k = scales x k) -> dm_ready x -> dm_ready y.
Proof.
  intros Hs Ho Hn Hsc D. assert (Hq : ordered_domains y = ordered_domains x) by (unfold ordered_domains; by rewrite Ho, Hn).
  assert (He : forall t k' j, edge y t k' j -> edge x t k' j) by (intros t k' j He; by rewrite <- Hs in He).
  assert (Hc : forall t c, x_cons y !! t = Some c -> exists b, x_cons x !! t = Some b /\ con_shape b = con_shape c).
  { intros t c Ec. eapply same_con; [by symmetry|done]. }
  split; rewrite ?Hq, ?Hn; [| |apply D| |].
  - split; [rewrite <- Hs; apply D|]. intros t k' j c Hed Ec. destruct (Hc t c Ec) as (b & Eb & (_ & _ & Ht & Hl)%con_shape_eq).
    destruct (rd_tables _ (dr_ready _ D) t k' j b (He _ _ _ Hed) Eb) as (tab & ? & ? & ?). exists tab. split_and!; congruence.
  - destruct (dr_order _ D) as [H1 H2 H3 H4]. split; [done| | |].
    + intros i j Ej t k' Hed. by eapply H2; [|apply He].
    + intros j Hj. rewrite <- Hs. auto.
    + intros j Hj. rewrite <- Hs in Hj. by apply H4.
  - intros t k' j c tab Hed Ec Ht. destruct (Hc t c Ec) as (b & Eb & (_ & _ & Ht' & _)%con_shape_eq).
    apply (dr_sorted _ D t k' j b tab); auto. congruence.
  - intros j Hj. rewrite Hsc. by apply D.
Qed.

(** ** Both passes *)

Definition full_run (scaler : nat -> Z -> Z -> Z -> Z) (relation : Z) (x : exynos_dm_device) : run :=
  let s := MkRun (plan_of x) (x_calls x) 0 in
  foldl (up_step scaler x relation) (foldl (down_step scaler x relation) s (ordered_domains x)) (reverse (ordered_domains x)).

Lemma positions (x : exynos_dm_device) : dm_ready x ->
  Forall2 (fun i k => x_domain_order x !! Z.to_nat i = Some k /\ connected x k) (seqZ 0 (x_constraint_domain_count x)) (ordered_domains x).
Proof.
  intros D. apply Forall2_same_length_lookup. split; [rewrite length_seqZ, (dr_count _ D); lia|].
  intros n i k Ei Ek. apply lookup_seqZ in Ei as [-> Hn]. split.
  - replace (Z.to_nat (0 + Z.of_nat n)) with n by lia. unfold ordered_domains in Ek. by apply lookup_take_Some in Ek as [? _].
  - apply (or_sound _ _ (dr_order _ D)). by eapply list_elem_of_lookup_2.
Qed.

Lemma Forall2_rev_reverse {A B} (P : A -> B -> Prop) l k : Forall2 P l k -> Forall2 P (rev l) (reverse k).
Proof. rewrite rev_alt. intros. by apply Forall2_reverse. Qed.

Lemma full_run_run scaler relation x : dm_ready x ->
  call_passes scaler relation x =
  Done (r_ret (full_run scaler relation x)) (run_state x (full_run scaler relation x)).
Proof.
  intros D. pose proof (positions x D) as Hp. set (s := MkRun (plan_of x) (x_calls x) 0).
  assert (Hx : x = run_state x s) by (symmetry; apply inst_plan_of). unfold call_passes, kbind, kget. rewrite Hx at 2.
  change 0 with (r_ret s) at 2. rewrite (pass_run x _ (down_step scaler x relation) _ (ordered_domains x)); [|intros; by apply call_down_run; [apply D|..]|done].
  rewrite (pass_run x _ (up_step scaler x relation) _ (reverse (ordered_domains x))); [done|intros; by apply call_up_run; [apply D|..]|].
  by apply Forall2_rev_reverse.
Qed.

(** ** One call *)

(** The device with the governor's request stored. *)
Definition asked (x : exynos_dm_device) (k f : Z) (d : exynos_dm_data) : exynos_dm_device :=
  set_dat x k (d <| d_governor_freq := u32 f |>).

Definition direct_run (scaler : nat -> Z -> Z -> Z -> Z) (relation : Z) (x : exynos_dm_device) (k : Z) : run :=
  let v := plan_of x in
  scale_step scaler relation (MkRun (v <| v_next := upd (v_next v) k (target x v k) |>) (x_calls x) 0) k.

Section Ask.
Context (x : exynos_dm_device) (k f : Z) (d : exynos_dm_data) (E : dat x k = Some d).

Lemma dat_asked j : dat (asked x k f d) j = if decide (j = k) then Some (d <| d_governor_freq := u32 f |>) else dat x j.
Proof. by apply dat_set with d. Qed.

Lemma asked_same : same_graph x (asked x k f d).
Proof.
  split; [simpl; by rewrite length_insert|done| |done].
  intros j. rewrite dat_asked. case_decide as Hj; [|done]. subst. by rewrite E.
Qed.

(** Everything but the governor's request is read as before. *)
Lemma from_asked (g : exynos_dm_data -> Z) j : g (d <| d_governor_freq := u32 f |>) = g d -> from_dom (asked x k f d) g j = from_dom x g j.
Proof. intros Hg. unfold from_dom. rewrite dat_asked. case_decide as Hj; [|done]. subst. rewrite E. exact Hg. Qed.

Lemma asked_ready : dm_ready x -> dm_ready (asked x k f d).
Proof.
  apply dm_ready_same; [apply asked_same|done|done|]. intros j. unfold scales. rewrite dat_asked. case_decide as Hj; [|done].
  subst. by rewrite E.
Qed.
End Ask.

Section Run.
Context (scaler : nat -> Z -> Z -> Z -> Z) (x : exynos_dm_device) (k f : Z) (d : exynos_dm_data).
Context (D : dm_ready x) (E : dat x k = Some d) (Ha : d_available d = true).
Abbreviation x1 := (asked x k f d).
Abbreviation d1 := (d <| d_governor_freq := u32 f |>).

Lemma dat_x1 : dat x1 k = Some d1.
Proof. rewrite (dat_asked x k f d E). by rewrite decide_True. Qed.

Lemma type_x1 : d_type d1 = k.
Proof.
  pose proof (asked_ready x k f d E D) as D1. destruct (rd_wf _ (dr_ready _ D1)) as [_ W]. by destruct (dw_listed _ _ _ (W _ _ dat_x1) Ha).
Qed.

Lemma direct_run_run relation : let s := direct_run scaler relation x1 k in
  call_direct scaler k d1 relation x1 = Done (r_ret s) (run_state x1 s).
Proof.
  pose proof dat_x1 as E1. unfold call_direct. rewrite type_x1.
  unfold direct_run. set (v := plan_of x1). set (v' := v <| v_next := _ |>). unfold kbind at 1.
  pose proof (target_run x1 v (x_calls x1) k d1 E1) as Hrun. replace (inst x1 v (x_calls x1)) with x1 in Hrun by (symmetry; apply inst_plan_of).
  rewrite Hrun. unfold kbind. rewrite (dom_run _ k (put v' k d1)) by by rewrite dat_inst, E1.
  change (d_type (put v' k d1)) with (d_type d1). rewrite type_x1. change (d_next_target_freq (put v' k d1)) with (v_next v' k).
  apply (scale_run scaler x1 relation v' (x_calls x1) 0 k d1 E1).
Qed.

Lemma run_dom s : dom k (run_state x1 s) = Done (put (r_plan s) k d1) (run_state x1 s).
Proof. apply dom_run. unfold run_state. by rewrite dat_inst, dat_x1. Qed.

(** What a call does, in the three cases. *)
Definition call_run : run :=
  if d_cur_freq d =? fst (call_bounds d f) then MkRun (plan_of x1) (x_calls x1) 0
  else if direct d then direct_run scaler (snd (call_bounds d f)) x1 k
  else full_run scaler (snd (call_bounds d f)) x1.

Lemma dm_call_run : DM_CALL scaler k f x = Done (r_ret call_run, v_cur (r_plan call_run) k) (run_state x1 call_run).
Proof.
  unfold DM_CALL, kbind at 1. rewrite (mod_dom_run _ _ _ _ E). change (set_dat x k d1) with x1.
  unfold kbind at 1. rewrite (dom_run _ _ _ dat_x1). change (call_bounds d1 f) with (call_bounds d f). change (direct d1) with (direct d).
  change (d_cur_freq d1) with (d_cur_freq d). unfold call_run. destruct (call_bounds d f) as [tgt relation]. cbn [fst snd].
  destruct (d_cur_freq d =? tgt).
  - set (s := MkRun _ _ _). assert (Hx : x1 = run_state x1 s) by (symmetry; apply inst_plan_of).
    unfold kbind, kret. rewrite Hx at 1. rewrite run_dom. done.
  - destruct (direct d).
    + unfold kbind at 1. rewrite direct_run_run. unfold kbind. by rewrite run_dom.
    + unfold kbind at 1. rewrite full_run_run by by apply asked_ready. unfold kbind. by rewrite run_dom.
Qed.
End Run.

(** ** What a call keeps *)

Lemma safe_at_same x y cur : same_graph x y -> (forall k, cap y k = cap x k) -> safe_at x cur <-> safe_at y cur.
Proof.
  intros Hs Hc. split; intros H t k j He; [rewrite <- Hs in He|rewrite Hs in He]; specialize (H t k j He).
  - by rewrite Hc, (need_same x y).
  - by rewrite <- Hc, <- (need_same x y).
Qed.

Lemma inst_ready x v cs : dm_ready x -> dm_ready (inst x v cs).
Proof. apply dm_ready_same; [apply inst_same|done|done|]. intros k. unfold scales. rewrite dat_inst. by destruct (dat x k). Qed.

Lemma cur_inst x v cs k : is_Some (dat x k) -> cur_of (inst x v cs) k = v_cur v k.
Proof. intros [d E]. unfold from_dom. by rewrite dat_inst, E. Qed.

Lemma gmin_inst x v cs k : is_Some (dat x k) -> from_dom (inst x v cs) d_gov_min k = v_gmin v k.
Proof. intros [d E]. unfold from_dom. by rewrite dat_inst, E. Qed.

Lemma edge_dats x t k j : ready x -> edge x t k j -> is_Some (dat x k) /\ is_Some (dat x j).
Proof.
  intros R He. pose proof He as [(d & E & _) _]. apply (edge_in x _ _ _ (rd_wf _ R)) in He as (e & _ & Ee & _). eauto.
Qed.

(** The valuation of a run accounts for its frequencies. *)
Lemma within_run x v cs : dm_ready x -> safe_at x (v_cur v) -> (forall t k j, edge x t k j -> need x t (v_cur v k) <= v_gmin v j) ->
  within (inst x v cs).
Proof.
  intros D Hsafe Hg. pose proof (inst_same x v cs) as Hs. split.
  - intros t k j He. pose proof He as He'. rewrite <- Hs in He'. destruct (edge_dats x t k j (dr_ready _ D) He') as [Hk Hj].
    rewrite (need_same x) by done. rewrite !cur_inst by auto. assert (Hc : cap (inst x v cs) j = cap x j).
    { unfold cap, from_dom. rewrite dat_inst. by destruct (dat x j). }
    rewrite Hc. by apply Hsafe.
  - intros t k j He. pose proof He as He'. rewrite <- Hs in He'. destruct (edge_dats x t k j (dr_ready _ D) He') as [Hk Hj].
    rewrite (need_same x), cur_inst, gmin_inst by auto. by apply Hg.
Qed.

(** ** Safety of a call *)

Section Safe.
Context (scaler : nat -> Z -> Z -> Z -> Z) (Hok : forall n k f r, scaler n k f r = 0).
Context (x : exynos_dm_device) (D : dm_ready x) (Hw : within x).

Abbreviation start := (MkRun (plan_of x) (x_calls x) 0).
(** What a run on [x] must keep. *)
Definition keeps (s : run) : Prop :=
  exists log, tracked x start s log /\ forall t k j, edge x t k j -> need x t (v_cur (r_plan s) k) <= v_gmin (r_plan s) j.

Lemma tracked_start w : v_cur w = v_cur (plan_of x) -> tracked x start (MkRun w (x_calls x) 0) [].
Proof. intros E. split; simpl; rewrite ?app_nil_r, ?E; try done. intros n. rewrite take_nil. apply Hw. Qed.

Lemma keeps_start : keeps start.
Proof. exists []. split; [by apply tracked_start|apply Hw]. Qed.

Lemma keeps_direct relation k d : dat x k = Some d -> d_listed d = true -> direct d = true -> keeps (direct_run scaler relation x k).
Proof.
  intros E Hl Hd. unfold direct, list_empty in Hd. rewrite Hl in Hd. apply andb_prop in Hd as [[_ Hd%bool_decide_eq_true]%andb_prop _].
  assert (Hno : forall t j, ~ edge x t k j).
  { intros t j [(d' & E' & Hin) _]. simplify_eq. rewrite Hd in Hin. by apply not_elem_of_nil in Hin. }
  unfold direct_run. set (w := (plan_of x) <| v_next := _ |>).
  assert (Hx : v_next w k = target x (plan_of x) k) by apply upd_eq.
  destruct (tracked_scale scaler x Hok start relation (MkRun w (x_calls x) 0) [] k) as (log & Ht & Hc).
  - by apply tracked_start.
  - cbn [r_plan]. change (v_cur w) with (cur_of x). intros t k1 j1 He.
    assert (k1 <> k) by (intros ->; by eapply Hno). rewrite (upd_ne _ _ _ k1) by done.
    destruct Hw as [Hs Hg]. destruct (upd_cases (cur_of x) k (v_next w k) j1) as [[-> ->]|[-> _]]; [|by apply Hs].
    rewrite Hx. destruct (target_ge x (plan_of x) k) as [Hle|]; [|congruence]. pose proof (Hg t k1 k He).
    change (v_gmin (plan_of x) k) with (from_dom x d_gov_min k) in Hle. lia.
  - exists log. split; [done|]. intros t k1 j1 He. assert (k1 <> k) by (intros ->; by eapply Hno).
    rewrite Hc. destruct (scale_frame scaler relation (MkRun w (x_calls x) 0) k) as (_ & -> & _). cbn [r_plan].
    rewrite upd_ne by done. by apply Hw.
Qed.

Lemma keeps_full relation : keeps (full_run scaler relation x).
Proof.
  pose proof (passes_settled scaler x (dr_ready _ D) _ (dr_order _ D) relation start) as Hset.
  destruct (passes_tracked scaler x (dr_ready _ D) _ (dr_order _ D) Hok (dr_scales _ D) (need_mono _ D) start relation)
    as (log & Ht & Hcur & _); [apply Hw|done|]. fold (full_run scaler relation x) in *.
  exists log. split; [done|]. intros t k j He. pose proof He as [(d & E & Hin) _].
  assert (Hk : k ∈ ordered_domains x) by (apply (or_complete _ _ (dr_order _ D)); eapply connected_out; eauto; apply D).
  assert (Hj : j ∈ ordered_domains x).
  { apply (or_complete _ _ (dr_order _ D)). apply (edge_in x _ _ _ (rd_wf _ (dr_ready _ D))) in He as (e & c & Ee & Hi & _). eapply connected_in; eauto. apply D. }
  rewrite (Hcur k Hk). by apply (settled_demand x (dr_ready _ D) _ _ _ t k j Hset).
Qed.
End Safe.

(** ** The log of a run *)

Definition logged (s0 s : run) : Prop :=
  exists log, r_calls s = r_calls s0 ++ log /\ r_ret s = from_option s_ret (r_ret s0) (last log).

Lemma logged_scale scaler relation s0 s k : logged s0 s -> logged s0 (scale_step scaler relation s k).
Proof.
  intros (log & Hc & Hr). unfold scale_step. simpl. eexists (log ++ [_]). rewrite Hc, <- app_assoc. split; [done|]. by rewrite last_snoc.
Qed.

Lemma logged_full scaler relation x : logged (MkRun (plan_of x) (x_calls x) 0) (full_run scaler relation x).
Proof.
  set (s0 := MkRun (plan_of x) (x_calls x) 0). unfold full_run.
  assert (Hu : forall ks s, logged s0 s -> logged s0 (foldl (up_step scaler x relation) s ks)).
  { induction ks as [|k ks IH]; intros s H; [done|]. apply IH. unfold up_step. destruct (_ && _); [by apply logged_scale|done]. }
  assert (Hd : forall ks s, logged s0 s -> logged s0 (foldl (down_step scaler x relation) s ks)).
  { induction ks as [|k ks IH]; intros s H; [done|]. apply IH. unfold down_step. destruct (_ && _); [by apply logged_scale|done]. }
  apply Hu, Hd. exists []. by rewrite app_nil_r.
Qed.

(** ** Theorems *)

Abbreviation next_of x := (from_dom x d_next_target_freq).
Abbreviation gmin_of x := (from_dom x d_gov_min).
Definition gov_of (x : exynos_dm_device) (t : Z) : Z := from_option c_gov_freq 0 (x_cons x !! t).

Lemma gov_inst x v cs t : is_Some (x_cons x !! t) -> gov_of (inst x v cs) t = v_gfreq v t.
Proof. intros [c Ec]. unfold gov_of. by rewrite con_inst, Ec. Qed.

Lemma ins_same x y j : same_graph x y -> ins x j = ins y j.
Proof.
  intros Hs. unfold ins. pose proof (sg_dat _ _ Hs j) as Hd. destruct (dat x j) as [d|], (dat y j) as [e|]; try done.
  apply (inj Some), shape_eq in Hd. simpl. naive_solver.
Qed.

(** C31. A call of [DM_CALL] that has to change something, on a domain that
    constrains others: whatever the scalers return it completes, and in its
    result every ordered domain's target is computed from its final bounds and
    governor minimum, the governor frequency of every constraint is what its
    table demands at the driver's target, the governor minimum of every
    constrained domain is the largest of these, and the result is that of the
    last scaler called. *)
Theorem targets_settle scaler x k f d : dm_ready x -> dat x k = Some d -> d_available d = true ->
  d_cur_freq d <> fst (call_bounds d f) -> direct d = false ->
  exists ret x' log, DM_CALL scaler k f x = Done (ret, cur_of x' k) x' /\
    x_calls x' = x_calls x ++ log /\ ret = from_option s_ret 0 (last log) /\
    from_dom x' d_governor_freq k = u32 f /\
    (forall j e, j ∈ ordered_domains x -> dat x' j = Some e -> d_next_target_freq e = new_target e) /\
    (forall t i j, edge x t i j -> gov_of x' t = need x t (next_of x' i) /\ gmin_of x' j = max_over (gov_of x') (ins x j)) /\
    (forall j, is_Some (dat x j) -> (forall t i, ~ edge x t i j) -> gmin_of x' j = gmin_of x j).
Proof.
  intros D E Ha Hc Hd. set (x1 := asked x k f d). pose proof (asked_ready x k f d E D) as D1. fold x1 in D1.
  pose proof (asked_same x k f d E) as Hs. fold x1 in Hs. set (s := full_run scaler (snd (call_bounds d f)) x1).
  assert (Hrun : call_run scaler x k f d = s).
  { unfold call_run. apply Z.eqb_neq in Hc. by rewrite Hc, Hd. }
  pose proof (dm_call_run scaler x k f d D E Ha) as Hcall. rewrite Hrun in Hcall. fold x1 in Hcall.
  destruct (logged_full scaler (snd (call_bounds d f)) x1) as (log & Hlog & Hret). fold s in Hlog, Hret.
  pose proof (passes_settled scaler x1 (dr_ready _ D1) _ (dr_order _ D1) (snd (call_bounds d f)) (MkRun (plan_of x1) (x_calls x1) 0)) as Hset.
  change (foldl _ _ _) with s in Hset.
  assert (E1 : dat x1 k = Some (d <| d_governor_freq := u32 f |>)) by (unfold x1; rewrite (dat_asked x k f d E), decide_True; done).
  exists (r_ret s), (run_state x1 s), log. unfold run_state. rewrite cur_inst by eauto. split_and!; auto.
  - unfold from_dom. rewrite dat_inst, E1. done.
  - intros j e Hj Ee. rewrite dat_inst in Ee. destruct (dat x1 j) as [e'|] eqn:Ee'; [|done]. injection Ee as <-.
    pose proof (se_next _ _ _ _ Hset j Hj) as Hn. unfold target in Hn. rewrite Ee' in Hn. exact Hn.
  - intros t i j He. pose proof He as He1. rewrite Hs in He1. destruct (edge_dats _ _ _ _ (dr_ready _ D1) He1) as [[di Ei] [ej Ej]].
    assert (Hi : i ∈ ordered_domains x1).
    { apply (or_complete _ _ (dr_order _ D1)). pose proof He1 as [(d' & E' & Hin) _]. eapply connected_out; eauto. apply D1. }
    destruct (se_edge _ _ _ _ Hset t i j He1 Hi) as [Hg Hm].
    rewrite gmin_inst by eauto. split.
    + pose proof He1 as [_ (c & Ec & _)]. rewrite gov_inst, Hg by eauto. rewrite (need_same x x1) by done.
      f_equal. unfold from_dom. by rewrite dat_inst, Ei.
    + rewrite Hm, (ins_same x x1 j Hs). apply max_over_ext. intros t' Ht'. rewrite gov_inst; [done|].
      apply (edge_ins x1 (dr_ready _ D1)) in Ht' as (i' & _ & c & Ec & _). eauto.
  - intros j [e Ee] Hno. rewrite gmin_inst.
    + rewrite (se_gmin _ _ _ _ Hset) by (intros t i He; rewrite <- Hs in He; by apply Hno in He). cbn [r_plan plan_of v_gmin].
      unfold x1. by apply from_asked.
    + destruct (same_dat _ _ _ _ Hs Ee) as (e' & -> & _). eauto.
Qed.

(** ** Sequences of calls *)

Fixpoint dm_calls (scaler : nat -> Z -> Z -> Z -> Z) (reqs : list (Z * Z)) : DM (list (Z * Z)) :=
  match reqs with
  | [] => kret []
  | (k, f) :: rest => let! r := DM_CALL scaler k f in let! rs := dm_calls scaler rest in kret (r :: rs)
  end.

Lemma replay_agree (P : Z -> Prop) cs : forall f g, (forall k, P k -> f k = g k) -> forall k, P k -> replay f cs k = replay g cs k.
Proof.
  induction cs as [|c cs IH]; intros f g H k Hk; [by apply H|]. unfold replay; simpl. apply IH; [|done].
  intros i Hi. destruct (s_ret c =? 0); [|by apply H]. unfold upd. case_decide; [done|by apply H].
Qed.

Lemma safe_agree x f g : ready x -> (forall k, is_Some (dat x k) -> f k = g k) -> safe_at x f -> safe_at x g.
Proof. intros R H Hs t k j He. destruct (edge_dats x t k j R He) as [Hk Hj]. rewrite <- (H k Hk), <- (H j Hj). by apply Hs. Qed.

(** What one call, or several, of a ready device do. *)
Record call_effect (x x' : exynos_dm_device) (log : list scale_call) : Prop := MkEffect {
  ce_ready : dm_ready x';
  ce_within : within x';
  ce_same : same_graph x x';
  ce_cap : forall k, cap x' k = cap x k;
  ce_calls : x_calls x' = x_calls x ++ log;
  ce_cur : forall k, is_Some (dat x k) -> cur_of x' k = replay (cur_of x) log k;
  ce_safe : forall n, safe_at x (replay (cur_of x) (take n log))
}.

Lemma run_effect x k f d s : dm_ready x -> dat x k = Some d ->
  keeps (asked x k f d) s -> exists log, call_effect x (run_state (asked x k f d) s) log /\ r_ret s = 0.
Proof.
  intros D E (log & [Hc Hcur Hsafe Hf Hr] & Hg). pose proof (asked_same x k f d E) as Hs.
  pose proof (asked_ready x k f d E D) as D1. set (x1 := asked x k f d) in *. exists log. split; [|done].
  assert (Hcap : forall j, cap x1 j = cap x j) by (intros j; by apply from_asked).
  assert (Hcur1 : forall j, cur_of x1 j = cur_of x j) by (intros j; by apply from_asked).
  assert (Hrep : forall l j, replay (cur_of x1) l j = replay (cur_of x) l j) by (intros l j; by apply (replay_agree (fun _ => True))).
  split; [by apply inst_ready| | | |done| |].
  - apply within_run; [done| |done]. eapply safe_ext; [exact Hcur|]. rewrite <- (firstn_all log). apply Hsafe.
  - etransitivity; [exact Hs|apply inst_same].
  - intros j. rewrite <- Hcap. unfold cap, from_dom, run_state. rewrite dat_inst. by destruct (dat x1 j).
  - intros j Hj. unfold run_state. rewrite cur_inst; [by rewrite <- Hcur, <- Hrep|].
    destruct Hj as [e Ee]. destruct (same_dat _ _ _ _ Hs Ee) as (e' & -> & _). eauto.
  - intros n. apply (safe_at_same x x1); [done|done|]. eapply safe_ext; [apply Hrep|]. apply Hsafe.
Qed.

Lemma call_effect_one (scaler : nat -> Z -> Z -> Z -> Z) x k f d : (forall n k f r, scaler n k f r = 0) -> dm_ready x -> within x -> dat x k = Some d ->
  d_available d = true -> exists fr x' log, DM_CALL scaler k f x = Done (0, fr) x' /\ call_effect x x' log.
Proof.
  intros Hok D Hw E Ha. rewrite (dm_call_run scaler x k f d D E Ha). pose proof (asked_ready x k f d E D) as D1.
  pose proof (dat_asked x k f d E k) as E1. rewrite decide_True in E1 by done.
  assert (Hw1 : within (asked x k f d)).
  { destruct Hw as [Hs Hg]. pose proof (asked_same x k f d E) as Hsg. split.
    - apply (safe_at_same x); [done|intros j; by apply from_asked|]. eapply safe_ext; [|exact Hs]. intros j. symmetry. by apply from_asked.
    - intros t i j He. rewrite <- Hsg in He. rewrite (need_same x), !from_asked by done. by apply Hg. }
  assert (Hk : keeps (asked x k f d) (call_run scaler x k f d)).
  { unfold call_run. destruct (_ =? _); [by apply keeps_start|]. destruct (direct d) eqn:Ed.
    - eapply keeps_direct; eauto. destruct (rd_wf _ (dr_ready _ D1)) as [_ W]. by destruct (dw_listed _ _ _ (W _ _ E1) Ha).
    - by apply keeps_full. }
  destruct (run_effect x k f d _ D E Hk) as (log & He & ->). eauto.
Qed.

Lemma call_effect_app x y z l m : call_effect x y l -> call_effect y z m -> ready x -> call_effect x z (l ++ m).
Proof.
  intros H G R. assert (Hrep : forall m i, is_Some (dat x i) -> replay (cur_of y) m i = replay (cur_of x) (l ++ m) i).
  { intros m' i Hi. unfold replay at 2. rewrite foldl_app. apply (replay_agree (fun i => is_Some (dat x i))); [|done].
    intros j Hj. by apply (ce_cur _ _ _ H). }
  split; [apply G|apply G|etransitivity; [apply H|apply G]| |rewrite (ce_calls _ _ _ G), (ce_calls _ _ _ H); by rewrite app_assoc| |].
  - intros k. by rewrite (ce_cap _ _ _ G), (ce_cap _ _ _ H).
  - intros k Hk. rewrite (ce_cur _ _ _ G); [by apply Hrep|]. destruct Hk as [d E]. destruct (same_dat _ _ _ _ (ce_same _ _ _ H) E) as (e & -> & _). eauto.
  - intros n. destruct (decide (n <= length l)%nat); [rewrite take_app_le by done; apply H|].
    rewrite take_app_ge by lia. eapply safe_agree; [done|intros k Hk; by apply Hrep|].
    apply (safe_at_same x y); [apply H|apply H|apply G].
Qed.

(** C4. Constraints hold at every moment: over any sequence of calls of
    [DM_CALL] on available domains, with scalers that succeed, every call
    completes with result 0, and after every single frequency change each
    constrained domain runs at least at what the table of each of its drivers
    demands at the driver's frequency at that moment, or at its own ceiling. The
    condition holds in the final state again, so it is an invariant. *)
Theorem calls_respect_constraints scaler x reqs : (forall n k f r, scaler n k f r = 0) -> dm_ready x -> within x ->
  Forall (fun r => exists d, dat x (fst r) = Some d /\ d_available d = true) reqs ->
  exists rs x' log, dm_calls scaler reqs x = Done rs x' /\ Forall (fun r => fst r = 0) rs /\ call_effect x x' log.
Proof.
  intros Hok D Hw Hreq. revert x D Hw Hreq. induction reqs as [|[k f] reqs IH]; intros x D Hw Hreq.
  - exists [], x, []. split; [done|]. split; [constructor|]. split; try done; [by rewrite app_nil_r|]. intros n. rewrite take_nil. apply Hw.
  - apply Forall_cons in Hreq as [(d & E & Ha) Hrest].
    destruct (call_effect_one scaler x k f d Hok D Hw E Ha) as (fr & y & log & Hrun & Hce).
    destruct (IH y (ce_ready _ _ _ Hce) (ce_within _ _ _ Hce)) as (rs & z & log' & Hrun' & Hrs & Hce').
    { eapply Forall_impl; [exact Hrest|]. intros r (e & Ee & Hae).
      destruct (same_dat _ _ _ _ (ce_same _ _ _ Hce) Ee) as (e' & Ee' & (Hav & _)%shape_eq). exists e'. split; congruence. }
    exists ((0, fr) :: rs), z, (log ++ log'). split; [|split; [by constructor|by eapply call_effect_app; [..|apply D]]].
    cbn [dm_calls]. unfold kbind. by rewrite Hrun, Hrun'.
Qed.
