(* ===== verification/DmReg.v ===== *)
(** * Registering constraints

    A successful [register_exynos_dm_constraint_table] keeps the graph of the
    dependency manager well formed, adds exactly the registered minimum
    constraint to it, and leaves the domains in an order that accounts for it. *)

From S2P Require Import Prelude Dm DmGraph DmPlan DmCall DmSpec.

(** ** What the minimum constraints are made of *)

Definition min_shape (d : exynos_dm_data) :=
  (d_available d, d_type d, d_listed d, d_indegree d, d_min_constraints d, d_min_drivers d).

Lemma min_shape_eq d e : min_shape e = min_shape d -> d_available e = d_available d /\ d_type e = d_type d /\
  d_listed e = d_listed d /\ d_indegree e = d_indegree d /\ d_min_constraints e = d_min_constraints d /\ d_min_drivers e = d_min_drivers d.
Proof. unfold min_shape. intros [= ]. done. Qed.

(** Constraints on a minimum list. *)
Definition in_use (x : exynos_dm_device) (t : Z) : Prop :=
  exists k d, dat x k = Some d /\ (t ∈ d_min_constraints d \/ t ∈ d_min_drivers d).

(** The constraints in use keep their ends. *)
Definition keeps_ends (x y : exynos_dm_device) : Prop := forall t c, in_use x t -> x_cons x !! t = Some c ->
  exists b, x_cons y !! t = Some b /\ c_driver b = c_driver c /\ c_constraint b = c_constraint c.

(** Domain [j] with constraint [p] added, from [k] to [cst]. *)
Definition linked (p k cst j : Z) (d : exynos_dm_data) : exynos_dm_data :=
  d <| d_min_constraints := if decide (j = k) then p :: d_min_constraints d else d_min_constraints d |>
    <| d_min_drivers := if decide (j = cst) then p :: d_min_drivers d else d_min_drivers d |>
    <| d_indegree := if decide (j = cst) then d_indegree d + 1 else d_indegree d |>.

Section Link.
Context (x y : exynos_dm_device) (p k cst : Z) (b : exynos_dm_constraint) (W : graph_wf x).
Context (Hlen : length (x_dm_data y) = length (x_dm_data x)) (Holen : length (x_domain_order y) = length (x_domain_order x)).
Context (Hends : keeps_ends x y).

Lemma edge_keep : (forall j, min_shape <$> dat y j = min_shape <$> dat x j) -> forall t a c, edge y t a c <-> edge x t a c.
Proof.
  intros Hd t a c. pose proof (Hd a) as Ha. assert (Hboth : forall d e, min_shape e = min_shape d -> d_min_constraints e = d_min_constraints d).
  { intros d e (_ & _ & _ & _ & H & _)%min_shape_eq. done. }
  split.
  - intros [(e & Ee & Hin) (b' & Eb & <-)]. rewrite Ee in Ha. destruct (dat x a) as [d|] eqn:Ed; [|done]. apply (inj Some) in Ha.
    rewrite (Hboth _ _ Ha) in Hin. destruct W as [_ Wd]. destruct (dw_out _ _ _ (Wd a d Ed) t Hin) as (c' & f & Ec & _).
    destruct (Hends t c') as (b'' & Eb'' & _ & Hb2); [by exists a, d; auto|done|]. split; [eauto|]. exists c'. split; [done|]. congruence.
  - intros [(d & Ed & Hin) (c' & Ec & <-)]. rewrite Ed in Ha. destruct (dat y a) as [e|] eqn:Ee; [|done]. apply (inj Some) in Ha.
    destruct (Hends t c') as (b'' & Eb'' & _ & Hb2); [by exists a, d; auto|done|].
    split; [exists e; split; [done|]; by rewrite (Hboth _ _ Ha)|]. exists b''. split; congruence.
Qed.

(** Changes of other fields. *)
Lemma graph_wf_keep : (forall j, min_shape <$> dat y j = min_shape <$> dat x j) -> graph_wf y.
Proof.
  intros Hd. destruct W as [Wl Wd]. split; [congruence|]. intros j e Ee. pose proof (Hd j) as Hj. rewrite Ee in Hj.
  destruct (dat x j) as [d|] eqn:Ed; [|done]. apply (inj Some), min_shape_eq in Hj as (Ha & Ht & Hl & Hi & Hc & Hdr).
  assert (Hget : forall i f, dat x i = Some f -> exists g, dat y i = Some g /\ min_shape g = min_shape f).
  { intros i f Ef. pose proof (Hd i) as Hdi. rewrite Ef in Hdi. destruct (dat y i) as [g|]; [|done]. exists g. split; [done|]. by apply (inj Some). }
  destruct (Wd j d Ed) as [H1 H2 H3 Ho Hin H4]. split; rewrite ?Ha, ?Ht, ?Hl, ?Hi, ?Hc, ?Hdr; try done.
  - intros t Ht'. destruct (Ho t Ht') as (c & f & Ec & Hk & Ef & Hm).
    destruct (Hends t c) as (b' & Eb & Hb1 & Hb2); [by exists j, d; auto|done|].
    destruct (Hget _ _ Ef) as (g & Eg & (_ & _ & _ & _ & _ & Hg)%min_shape_eq). exists b', g. split_and!; congruence.
  - intros t Ht'. destruct (Hin t Ht') as (c & f & Ec & Hk & Ef & Hm).
    destruct (Hends t c) as (b' & Eb & Hb1 & Hb2); [by exists j, d; auto|done|].
    destruct (Hget _ _ Ef) as (g & Eg & (_ & _ & _ & _ & Hg & _)%min_shape_eq). exists b', g. split_and!; congruence.
Qed.

(** The constraint added. *)
Context (Hfresh : ~ in_use x p) (Eb : x_cons y !! p = Some b) (Hb : c_driver b = k /\ c_constraint b = cst).
Context (Hk : exists d, dat x k = Some d /\ d_available d = true).
Context (Hc : exists d, dat x cst = Some d /\ d_available d = true /\ d_indegree d + 1 < 2 ^ 31).
Context (Hd : forall j, min_shape <$> dat y j = (fun d => min_shape (linked p k cst j d)) <$> dat x j).

Lemma linked_get j d : dat x j = Some d -> exists e, dat y j = Some e /\ min_shape e = min_shape (linked p k cst j d).
Proof.
  intros E. pose proof (Hd j) as Hj. rewrite E in Hj. destruct (dat y j) as [e|]; [|done]. exists e. split; [done|]. by apply (inj Some).
Qed.

Lemma linked_from j e : dat y j = Some e -> exists d, dat x j = Some d /\ min_shape e = min_shape (linked p k cst j d).
Proof.
  intros E. pose proof (Hd j) as Hj. rewrite E in Hj. destruct (dat x j) as [d|]; [|done]. exists d. split; [done|]. by apply (inj Some).
Qed.

Lemma not_in_use j d : dat x j = Some d -> p ∉ d_min_constraints d /\ p ∉ d_min_drivers d.
Proof. intros E. split; intros H; apply Hfresh; exists j, d; auto. Qed.

Lemma linked_out j d t : dat x j = Some d -> t ∈ d_min_constraints (linked p k cst j d) <-> t ∈ d_min_constraints d \/ t = p /\ j = k.
Proof. intros _. simpl. case_decide; set_solver. Qed.
Lemma linked_in j d t : dat x j = Some d -> t ∈ d_min_drivers (linked p k cst j d) <-> t ∈ d_min_drivers d \/ t = p /\ j = cst.
Proof. intros _. simpl. case_decide; set_solver. Qed.

(** The ends of every constraint of the new graph. *)
Lemma linked_dom j d e : dat x j = Some d -> dat y j = Some e -> dom_wf y j e.
Proof.
  intros Ed Ee. destruct (linked_from j e Ee) as (d' & Ed' & (Ha & Ht & Hl & Hi & Hcs & Hdr)%min_shape_eq). simplify_eq.
  destruct W as [_ Wd]. destruct (Wd j d Ed) as [H1 H2 [H3 H3'] Ho Hin H4]. destruct (not_in_use j d Ed) as [Hp1 Hp2].
  destruct Hk as (dk & Edk & Hak), Hc as (dc & Edc & Hac & Hdeg).
  split; rewrite ?Ha, ?Ht, ?Hl, ?Hi, ?Hcs, ?Hdr; simpl; try done.
  - intros Hu. destruct (H2 Hu). rewrite !decide_False by (intros ->; congruence). done.
  - split; case_decide; auto; by constructor.
  - intros t [Hin'|[-> ->]]%(linked_out j d t Ed).
    + destruct (Ho t Hin') as (c & f & Ec & Hcd & Ef & Hm).
      destruct (Hends t c) as (b' & Eb' & Hb1 & Hb2); [by exists j, d; auto|done|].
      destruct (linked_get _ _ Ef) as (g & Eg & (_ & _ & _ & _ & _ & Hg)%min_shape_eq). exists b', g.
      split_and!; [done|congruence|congruence|]. rewrite Hg. apply (linked_in _ _ _ Ef). by left.
    + destruct Hb as [Hb1 Hb2]. destruct (linked_get _ _ Edc) as (g & Eg & (_ & _ & _ & _ & _ & Hg)%min_shape_eq). exists b, g.
      split_and!; [done|done|congruence|]. rewrite Hg. apply (linked_in _ _ _ Edc). by right.
  - intros t [Hin'|[-> ->]]%(linked_in j d t Ed).
    + destruct (Hin t Hin') as (c & f & Ec & Hcd & Ef & Hm).
      destruct (Hends t c) as (b' & Eb' & Hb1 & Hb2); [by exists j, d; auto|done|].
      destruct (linked_get _ _ Ef) as (g & Eg & (_ & _ & _ & _ & Hg & _)%min_shape_eq). exists b', g.
      split_and!; [done|congruence|congruence|]. rewrite Hg. apply (linked_out _ _ _ Ef). by left.
    + destruct Hb as [Hb1 Hb2]. destruct (linked_get _ _ Edk) as (g & Eg & (_ & _ & _ & _ & Hg & _)%min_shape_eq). exists b, g.
      split_and!; [done|done|congruence|]. rewrite Hg. apply (linked_out _ _ _ Edk). by right.
  - destruct H4 as [H4 H4']. case_decide as Hj; [|done]. simplify_eq. simpl. lia.
Qed.

Lemma graph_wf_link : graph_wf y.
Proof.
  split; [rewrite Hlen, Holen; apply W|]. intros j e Ee. destruct (linked_from j e Ee) as (d & Ed & _). by eapply linked_dom.
Qed.

(** The edges of the new graph. *)
Lemma edge_link t a c : edge y t a c <-> edge x t a c \/ t = p /\ a = k /\ c = cst.
Proof.
  split.
  - intros [(e & Ee & Hin) (b' & Eb' & <-)]. destruct (linked_from a e Ee) as (d & Ed & (_ & _ & _ & _ & Hcs & _)%min_shape_eq).
    rewrite Hcs in Hin. apply (linked_out a d t Ed) in Hin as [Hin|[-> ->]]; [left|right; split_and!; [done|done|]].
    + destruct W as [_ Wd]. destruct (dw_out _ _ _ (Wd a d Ed) t Hin) as (c' & f & Ec & _).
      destruct (Hends t c') as (b'' & Eb'' & Hb1 & Hb2); [by exists a, d; auto|done|]. split; [eauto|]. exists c'. split; [done|]. congruence.
    + destruct Hb. congruence.
  - intros [[(d & Ed & Hin) (c' & Ec & <-)]|(-> & -> & ->)].
    + destruct (linked_get a d Ed) as (e & Ee & (_ & _ & _ & _ & Hcs & _)%min_shape_eq).
      destruct (Hends t c') as (b'' & Eb'' & Hb1 & Hb2); [by exists a, d; auto|done|]. split; [|exists b''; split; congruence].
      exists e. split; [done|]. rewrite Hcs. apply (linked_out a d t Ed). by left.
    + destruct Hk as (dk & Edk & _). destruct (linked_get k dk Edk) as (e & Ee & (_ & _ & _ & _ & Hcs & _)%min_shape_eq).
      split; [|exists b; split; [done|apply Hb]]. exists e. split; [done|]. rewrite Hcs. apply (linked_out k dk p Edk). by right.
Qed.
End Link.

(** ** The steps of a registration *)

(** [y] is [x] with domain [j] changed by [g j] and the constraints by [h]. *)
Record stepped (x y : exynos_dm_device) (g : Z -> exynos_dm_data -> exynos_dm_data)
    (h : gmap Z exynos_dm_constraint -> gmap Z exynos_dm_constraint) : Prop := MkStepped {
  st_len : length (x_dm_data y) = length (x_dm_data x);
  st_order : x_domain_order y = x_domain_order x;
  st_dat : forall j, dat y j = g j <$> dat x j;
  st_cons : x_cons y = h (x_cons x)
}.

Lemma stepped_trans x y z g h g' h' : stepped x y g h -> stepped y z g' h' -> stepped x z (fun j d => g' j (g j d)) (fun m => h' (h m)).
Proof.
  intros H G. split; [rewrite (st_len _ _ _ _ G); apply H|rewrite (st_order _ _ _ _ G); apply H| |].
  - intros j. rewrite (st_dat _ _ _ _ G), (st_dat _ _ _ _ H). by destruct (dat x j).
  - by rewrite (st_cons _ _ _ _ G), (st_cons _ _ _ _ H).
Qed.

Definition at_dom (k : Z) (f : exynos_dm_data -> exynos_dm_data) (j : Z) (d : exynos_dm_data) : exynos_dm_data :=
  if decide (j = k) then f d else d.

Lemma mod_dom_stepped x k d f : dat x k = Some d -> exists y, mod_dom k f x = Done tt y /\ stepped x y (at_dom k f) id.
Proof.
  intros E. rewrite (mod_dom_run _ _ _ _ E). eexists. split; [done|]. split; [simpl; apply length_insert|done| |done].
  intros j. rewrite (dat_set _ _ _ _ _ E). unfold at_dom. case_decide as Hj; [subst; by rewrite E|]. by destruct (dat x j).
Qed.

Lemma kmod_cons_stepped (x : exynos_dm_device) h : stepped x (x <| x_cons := h (x_cons x) |>) (fun _ d => d) h.
Proof. split; try done. intros j. change (dat _ j) with (dat x j). by destruct (dat x j). Qed.

(** Adding [p] to a list of a domain. *)
Lemma add_stepped x k d p (get : exynos_dm_data -> list Z) (put : list Z -> exynos_dm_data -> exynos_dm_data) :
  dat x k = Some d -> d_listed d = true ->
  exists y, (let! d := dom k in let! l := walk d (get d) in mod_dom k (fun d => put (p :: l) d)) x = Done tt y /\
    stepped x y (at_dom k (fun d => put (p :: get d) d)) id.
Proof.
  intros E Hl. unfold kbind. rewrite (dom_run _ _ _ E), walk_run by done.
  destruct (mod_dom_stepped x k d (fun d' => put (p :: get d) d') E) as (y & -> & [H1 H2 H3 H4]). exists y. split; [done|]. split; auto.
  intros j. rewrite H3. unfold at_dom. case_decide; [|done]. subst. by rewrite E.
Qed.

Definition add_min_constraint (p : Z) (d : exynos_dm_data) := d <| d_min_constraints := p :: d_min_constraints d |>.
Definition add_min_driver (p : Z) (d : exynos_dm_data) := d <| d_min_drivers := p :: d_min_drivers d |>.
Definition add_max_constraint (p : Z) (d : exynos_dm_data) := d <| d_max_constraints := p :: d_max_constraints d |>.
Definition add_max_driver (p : Z) (d : exynos_dm_data) := d <| d_max_drivers := p :: d_max_drivers d |>.

Definition listed_at (x : exynos_dm_device) (k : Z) : Prop := exists d, dat x k = Some d /\ d_listed d = true.

Lemma listed_stepped x y g h k : stepped x y g h -> (forall j d, d_listed (g j d) = d_listed d) -> listed_at x k -> listed_at y k.
Proof. intros H Hg (d & E & Hl). exists (g k d). rewrite (st_dat _ _ _ _ H), E, Hg. done. Qed.

Lemma link_min_run x p drv cst : listed_at x drv -> listed_at x cst -> exists y, link_con p CONSTRAINT_MIN drv cst x = Done tt y /\
  stepped x y (fun j d => at_dom cst (add_min_driver p) j (at_dom drv (add_min_constraint p) j d)) id.
Proof.
  intros (d & E & Hl) Hc. unfold link_con. cbn [CONSTRAINT_MIN Z.eqb].
  destruct (add_stepped x drv d p d_min_constraints (fun l d => d <| d_min_constraints := l |>) E Hl) as (y & Hy & Sy).
  destruct (listed_stepped _ _ _ _ cst Sy) as (e & Ee & Hle); [intros; unfold at_dom; by case_decide|done|].
  destruct (add_stepped y cst e p d_min_drivers (fun l d => d <| d_min_drivers := l |>) Ee Hle) as (z & Hz & Sz).
  exists z. split; [unfold kbind at 1; by rewrite Hy|]. exact (stepped_trans _ _ _ _ _ _ _ Sy Sz).
Qed.

Lemma link_max_run x p drv cst : listed_at x drv -> listed_at x cst -> exists y, link_con p CONSTRAINT_MAX drv cst x = Done tt y /\
  stepped x y (fun j d => at_dom cst (add_max_driver p) j (at_dom drv (add_max_constraint p) j d)) id.
Proof.
  intros (d & E & Hl) Hc. unfold link_con. cbn [CONSTRAINT_MAX CONSTRAINT_MIN Z.eqb].
  destruct (add_stepped x drv d p d_max_constraints (fun l d => d <| d_max_constraints := l |>) E Hl) as (y & Hy & Sy).
  destruct (listed_stepped _ _ _ _ cst Sy) as (e & Ee & Hle); [intros; unfold at_dom; by case_decide|done|].
  destruct (add_stepped y cst e p d_max_drivers (fun l d => d <| d_max_drivers := l |>) Ee Hle) as (z & Hz & Sz).
  exists z. split; [unfold kbind at 1; by rewrite Hy|]. exact (stepped_trans _ _ _ _ _ _ _ Sy Sz).
Qed.

(** The sub-constraint touches maximum lists only. *)
Lemma link_sub_run x p sp k cl st c : listed_at x k -> listed_at x (c_constraint cl) -> x_cons x !! p = Some c -> sp <> p ->
  exists y g h, link_sub p sp k cl st x = Done tt y /\ stepped x y g h /\ (forall j d, min_shape (g j d) = min_shape d) /\
    (exists b, x_cons y !! p = Some b /\ c_driver b = c_driver c /\ c_constraint b = c_constraint c) /\
    (forall t, t <> p -> t <> sp -> x_cons y !! t = x_cons x !! t).
Proof.
  intros Hk Hc Ec Hne. pose proof Hk as (d & E & Hl). unfold link_sub, kbind at 1. rewrite (dom_run _ _ _ E).
  unfold kbind at 1, kmod at 1. set (sc := MkCon _ _ _ _ _ _ _ _ _ _).
  pose proof (kmod_cons_stepped x (insert sp sc)) as S1. set (x1 := x <| x_cons := _ |>) in *.
  destruct (link_max_run x1 sp (c_constraint cl) k) as (y & Hy & S2); [by eapply (listed_stepped _ _ _ _ _ S1)..|].
  unfold kbind at 1. rewrite Hy. assert (Ey : x_cons y !! p = Some c).
  { rewrite (st_cons _ _ _ _ S2). unfold id. simpl. by rewrite lookup_insert_ne. }
  rewrite (mod_con_run _ _ _ _ Ey). eexists _, _, _. split; [done|].
  split; [exact (stepped_trans _ _ _ _ _ _ _ (stepped_trans _ _ _ _ _ _ _ S1 S2) (kmod_cons_stepped y (insert p (c <| c_sub := Some sp |>))))|].
  split; [|split].
  - intros j e. unfold at_dom. repeat case_decide; done.
  - exists (c <| c_sub := Some sp |>). simpl. by rewrite lookup_insert_eq.
  - intros t Hp Hsp. simpl. rewrite lookup_insert_ne by done. rewrite (st_cons _ _ _ _ S2). unfold id. simpl. by rewrite lookup_insert_ne.
Qed.

(** ** The order after a sort *)

Lemma sort_ordering x junk : graph_wf x -> length junk = length (x_dm_data x) ->
  exists x', exynos_dm_topological_sort (length (x_dm_data x)) junk x = Done tt x' /\ same_graph x x' /\
    x_constraint_domain_count x' = Z.of_nat (length (ordered_domains x')) /\
    NoDup (ordered_domains x') /\ drivers_first x' (ordered_domains x') /\
    (forall i k, ordered_domains x' !! i = Some k -> connected x' k /\ exists d, dat x' k = Some d /\ d_my_order d = Z.of_nat i) /\
    (acyclic x -> ordering x' (ordered_domains x')).
Proof.
  intros W Hj. destruct (sort_spec x junk W Hj) as (x' & Hrun & Ho & q & Hq & Hnd & Hf & Hn & Hp & Hsound & Hcomp).
  assert (Hs : same_graph x x').
  { apply order_only_same in Ho as [H1 H2 H3 H4]. by split. }
  assert (Hf' : drivers_first x' q) by (intros i j Ej t k He; rewrite <- Hs in He; by eapply Hf).
  exists x'. rewrite Hq. split_and!; auto.
  - intros i k Ek. split; [rewrite <- Hs; by eapply Hsound, list_elem_of_lookup_2|]. by apply (Hp i k (lookup_lt_Some _ _ _ Ek)).
  - intros Ha. split; [done|done| |]; intros k; rewrite <- Hs; auto.
Qed.

(** ** A successful registration *)

(** A request that can be served: the constraint is not registered yet, both
    domains are available, and the memory can be allocated. *)
Record servable (x : exynos_dm_device) (mem : reg_mem) (k p : Z) (c : exynos_dm_constraint) : Prop := MkServable {
  sv_con : x_cons x !! p = Some c;
  sv_type : c_type c = CONSTRAINT_MIN \/ c_type c = CONSTRAINT_MAX;
  sv_driver : exists d, dat x k = Some d /\ d_available d = true;
  sv_constraint : exists d, dat x (c_constraint c) = Some d /\ d_available d = true /\ d_indegree d + 1 < 2 ^ 31;
  sv_table : exists t, c_freq_table c = Some t /\ c_table_length c <= Z.of_nat (length t);
  sv_fresh : ~ in_use x p;
  sv_sort : m_cap mem = length (x_dm_data x) /\ length (m_junk mem) = length (x_dm_data x);
  sv_sub : exists sp, m_sub mem = Some sp /\ x_cons x !! sp = None /\ m_table mem = true
}.

Section Register.
Context (x : exynos_dm_device) (mem : reg_mem) (k p : Z) (c : exynos_dm_constraint) (W : graph_wf x) (V : servable x mem k p c).

Lemma available_listed j d : dat x j = Some d -> d_available d = true -> listed_at x j.
Proof. intros E Ha. exists d. split; [done|]. destruct W as [_ Wd]. by destruct (dw_listed _ _ _ (Wd j d E) Ha). Qed.

Lemma keeps_ends_register y b : x_cons y !! p = Some b -> (forall t, t <> p -> is_Some (x_cons x !! t) -> x_cons y !! t = x_cons x !! t) ->
  keeps_ends x y.
Proof.
  intros Eb Ho t c' Hu Ec. assert (t <> p) by (intros ->; by apply (sv_fresh _ _ _ _ _ V)).
  exists c'. rewrite Ho by eauto. done.
Qed.

(** The state before the sort: linked, with the sub-constraint if there is one. *)
Record relinked (y : exynos_dm_device) : Prop := MkRelinked {
  rl_len : length (x_dm_data y) = length (x_dm_data x);
  rl_order : x_domain_order y = x_domain_order x;
  rl_dat : forall j, min_shape <$> dat y j =
    (fun d => min_shape (if c_type c =? CONSTRAINT_MIN then linked p k (c_constraint c) j d else d)) <$> dat x j;
  rl_con : exists b, x_cons y !! p = Some b /\ c_driver b = k /\ c_constraint b = c_constraint c;
  rl_others : forall t, t <> p -> is_Some (x_cons x !! t) -> x_cons y !! t = x_cons x !! t
}.

Lemma relinked_wf y : relinked y -> graph_wf y /\
  forall t a b, edge y t a b <-> edge x t a b \/ c_type c = CONSTRAINT_MIN /\ t = p /\ a = k /\ b = c_constraint c.
Proof.
  intros [Hl Ho Hd (b & Eb & Hb) Hot]. pose proof (keeps_ends_register y b Eb Hot) as He.
  assert (Hol : length (x_domain_order y) = length (x_domain_order x)) by by rewrite Ho.
  destruct (Z.eqb_spec (c_type c) CONSTRAINT_MIN) as [Et|Et].
  - split; [eapply (graph_wf_link x y p k (c_constraint c) b); try done; apply V|].
    intros t a e. rewrite (edge_link x y p k (c_constraint c) b W Hl Hol He (sv_fresh _ _ _ _ _ V) Eb Hb (sv_driver _ _ _ _ _ V) (sv_constraint _ _ _ _ _ V) Hd). tauto.
  - split; [by eapply (graph_wf_keep x y)|]. intros t a e. rewrite (edge_keep x y W He Hd). tauto.
Qed.

Lemma add_con_run name : exists y, add_con p k (c_type c) (c_constraint c) name x = Done tt y /\ relinked y /\
  listed_at y k /\ listed_at y (c_constraint c) /\ (forall t, t <> p -> x_cons y !! t = x_cons x !! t).
Proof.
  destruct (sv_driver _ _ _ _ _ V) as (dk & Ek & Hak). destruct (sv_constraint _ _ _ _ _ V) as (dc & Ecst & Hac & Hdeg).
  unfold add_con, kbind at 1. rewrite (mod_con_run _ _ _ _ (sv_con _ _ _ _ _ V)).
  set (b := c <| c_type_name := name |> <| c_const_freq := 0 |> <| c_gov_freq := 0 |> <| c_driver := k |>).
  pose proof (kmod_cons_stepped x (insert p b)) as S1. set (x1 := x <| x_cons := _ |>) in *.
  assert (L1 : listed_at x1 k) by exact (available_listed k dk Ek Hak).
  assert (L2 : listed_at x1 (c_constraint c)) by exact (available_listed _ dc Ecst Hac).
  assert (Hcons : forall y g, stepped x y g (insert p b) -> (exists b, x_cons y !! p = Some b /\ c_driver b = k /\ c_constraint b = c_constraint c) /\
    forall t, t <> p -> x_cons y !! t = x_cons x !! t).
  { intros y g Hy. rewrite (st_cons _ _ _ _ Hy). split; [exists b; by rewrite lookup_insert_eq|]. intros t Ht. by rewrite lookup_insert_ne. }
  destruct (sv_type _ _ _ _ _ V) as [Et|Et]; rewrite Et.
  - destruct (link_min_run x1 p k (c_constraint c) L1 L2) as (y & Hy & S2). unfold kbind at 1. rewrite Hy. cbn [CONSTRAINT_MIN Z.eqb].
    pose proof (stepped_trans _ _ _ _ _ _ _ S1 S2) as S3. set (g := fun j d => _) in S3.
    assert (Ey : dat y (c_constraint c) = Some (g (c_constraint c) dc)) by by rewrite (st_dat _ _ _ _ S3), Ecst.
    destruct (mod_dom_stepped y (c_constraint c) _ (fun d => d <| d_indegree := s32 (d_indegree d + 1) |>) Ey) as (z & Hz & S4).
    pose proof (stepped_trans _ _ _ _ _ _ _ S3 S4) as S. destruct (Hcons z _ S) as [Hp Ho]. exists z.
    assert (Hg : forall j d, d_listed (at_dom (c_constraint c) (fun d => d <| d_indegree := s32 (d_indegree d + 1) |>) j (g j d)) = d_listed d).
    { intros j d. unfold g, at_dom. repeat case_decide; done. }
    split; [done|]. split; [|split_and!; [by eapply (listed_stepped _ _ _ _ _ S)|by eapply (listed_stepped _ _ _ _ _ S)|done]].
    split; [apply S|apply S| |done|intros; by apply Ho].
    intros j. rewrite Et, (st_dat _ _ _ _ S). destruct (dat x j) as [d|] eqn:Ej; [|done]. simpl. f_equal.
    unfold g, at_dom, linked, min_shape. destruct (decide (j = c_constraint c)) as [->|Hj]; simplify_eq.
    + assert (Hs : s32 (d_indegree dc + 1) = d_indegree dc + 1).
      { apply s32_small. destruct W as [_ Wd]. destruct (dw_indegree _ _ _ (Wd _ _ Ecst)). lia. }
      case_decide; simpl; by rewrite ?Hs.
    + by case_decide.
  - destruct (link_max_run x1 p k (c_constraint c) L1 L2) as (y & Hy & S2). unfold kbind at 1. rewrite Hy. cbn [CONSTRAINT_MIN CONSTRAINT_MAX Z.eqb].
    pose proof (stepped_trans _ _ _ _ _ _ _ S1 S2) as S. destruct (Hcons y _ S) as [Hp Ho]. exists y.
    split; [done|]. split; [|split_and!; [eapply (listed_stepped _ _ _ _ _ S)|eapply (listed_stepped _ _ _ _ _ S)|done];
      try done; intros; unfold at_dom; repeat case_decide; done].
    split; [apply S|apply S| |done|intros; by apply Ho].
    intros j. rewrite Et, (st_dat _ _ _ _ S). destruct (dat x j) as [d|]; [|done]. simpl. f_equal. unfold at_dom. repeat case_decide; done.
Qed.

Lemma relinked_sub y z g h sp : relinked y -> stepped y z g h -> (forall j d, min_shape (g j d) = min_shape d) ->
  (exists b, x_cons z !! p = Some b /\ c_driver b = k /\ c_constraint b = c_constraint c) ->
  (forall t, t <> p -> t <> sp -> x_cons z !! t = x_cons y !! t) -> x_cons x !! sp = None -> relinked z.
Proof.
  intros Hy S Hg Hp Ho Hsp. split; [rewrite (st_len _ _ _ _ S); apply Hy|rewrite (st_order _ _ _ _ S); apply Hy| |done|].
  - intros j. rewrite <- (rl_dat _ Hy j), (st_dat _ _ _ _ S). destruct (dat y j) as [d|]; [|done]. simpl. f_equal. apply Hg.
  - intros t Ht Hs. assert (t <> sp) by (intros ->; rewrite Hsp in Hs; by destruct Hs). rewrite Ho by done. by apply (rl_others _ Hy).
Qed.

(** The whole registration, up to the sort. *)
Lemma register_run : exists y, relinked y /\
  register_exynos_dm_constraint_table mem k (Some p) x =
  (do! exynos_dm_topological_sort (m_cap mem) (m_junk mem) in kret 0) y.
Proof.
  destruct (sv_driver _ _ _ _ _ V) as (dk & Ek & Hak). destruct (sv_constraint _ _ _ _ _ V) as (dc & Ecst & Hac & _).
  destruct (sv_table _ _ _ _ _ V) as (tab & Et & Htl). destruct (sv_sub _ _ _ _ _ V) as (sp & Esp & Hsp & Hm).
  unfold register_exynos_dm_constraint_table, kbind at 1. rewrite (con_run _ _ _ (sv_con _ _ _ _ _ V)).
  unfold exynos_dm_index_validate. destruct (Z.ltb_spec k 0); [apply dat_range in Ek; lia|]. cbn [negb Z.eqb].
  assert (((c_type c <? CONSTRAINT_MIN) || (c_type c >? CONSTRAINT_MAX)) = false) as ->.
  { by destruct (sv_type _ _ _ _ _ V) as [-> | ->]. }
  destruct (Z.ltb_spec (c_constraint c) 0); [apply dat_range in Ecst; lia|]. cbn [negb Z.eqb]. rewrite Et.
  unfold kbind at 1. rewrite (dom_run _ _ _ Ecst).
  destruct (add_con_run (copy_name (d_type_name dc))) as (y & Hy & Hr & L1 & L2 & Ho). unfold kbind at 1. rewrite Hy.
  destruct (c_guidance c && (c_type c =? CONSTRAINT_MIN)); [|by exists y].
  rewrite Esp, Hm. cbn [negb]. unfold swap_table. destruct (Z.leb_spec (c_table_length c) (Z.of_nat (length tab))); [|lia].
  destruct (rl_con _ Hr) as (b & Eb & Hb).
  destruct (link_sub_run y p sp k c (map (fun f => MkFreq (constraint_freq f) (driver_freq f)) (take (Z.to_nat (c_table_length c)) tab)) b L1 L2 Eb)
    as (z & g & h & Hz & S & Hg & (b' & Eb' & Hb1 & Hb2) & Ho').
  { intros ->. rewrite (sv_con _ _ _ _ _ V) in Hsp. done. }
  exists z. split; [|unfold kbind at 1; by rewrite Hz].
  eapply relinked_sub; eauto. exists b'. destruct Hb. split_and!; congruence.
Qed.

Lemma register_ordering : exists x', register_exynos_dm_constraint_table mem k (Some p) x = Done 0 x' /\ graph_wf x' /\
  (forall t a b, edge x' t a b <-> edge x t a b \/ c_type c = CONSTRAINT_MIN /\ t = p /\ a = k /\ b = c_constraint c) /\
  NoDup (ordered_domains x') /\ drivers_first x' (ordered_domains x') /\ (acyclic x' -> ordering x' (ordered_domains x')).
Proof.
  destruct register_run as (y & Hy & ->). destruct (relinked_wf y Hy) as [Wy Hed]. destruct (sv_sort _ _ _ _ _ V) as [Hcap Hj].
  rewrite <- (rl_len _ Hy) in Hcap, Hj. destruct (sort_ordering y (m_junk mem) Wy Hj) as (x' & Hrun & Hs & _ & Hnd & Hf & _ & Ha).
  exists x'. unfold kbind. rewrite Hcap, Hrun. split; [done|]. split; [by rewrite <- Hs|]. split; [intros t a b; rewrite <- Hs; apply Hed|].
  split; [done|]. split; [done|]. intros [rank Hr]. apply Ha. exists rank. intros t a b He. apply (Hr t). by rewrite <- Hs.
Qed.
End Register.
