(* ===== verification/DmDevice.v ===== *)
(** * A device with three domains

    A CPU domain drives a memory domain, which drives an interconnect domain:
    set up by the code itself, from the device tree to the registration of
    constraints and scalers. The device is ready for calls; it shows that the
    hypotheses of the theorems can hold, and what happens when a constraint is
    withdrawn. *)

From S2P Require Import Prelude Dm DmGraph DmPlan DmCall DmSpec DmReg.

Definition dt_of (i : Z) (n : string) : dt_domain :=
  MkDt (Some i) (Some "true"%string) (Some n) (Some "false"%string) (Some i).
Definition fresh_con (cst : Z) (g : bool) (t : list exynos_dm_freq) : exynos_dm_constraint :=
  MkCon 0 cst g (Z.of_nat (length t)) CONSTRAINT_MIN "" (Some t) 0 0 None.
Definition cpu_mif : list exynos_dm_freq := [MkFreq 2000 800; MkFreq 1000 400].
Definition mif_int : list exynos_dm_freq := [MkFreq 800 500; MkFreq 400 100].

Definition blank : exynos_dm_device :=
  MkDm 0 [] [] (<[100 := fresh_con 1 true cpu_mif]> {[200 := fresh_con 2 false mif_int]}) [] [].
Definition mem3 (sp : Z) : reg_mem := MkMem 3 [7; 7; 7] (Some sp) true.

Definition domains_up : DM unit :=
  do! exynos_dm_parse_dt (Some [dt_of 0 "cpu"; dt_of 1 "mif"; dt_of 2 "int"]) (true, true) in
  do! exynos_dm_data_init 0 300 2000 1000 in
  do! exynos_dm_data_init 1 200 1000 400 in
  do! exynos_dm_data_init 2 100 600 100 in
  do! register_exynos_dm_constraint_table (mem3 300) 1 (Some 200) in
  kret tt.
Definition setup : DM unit :=
  do! domains_up in
  do! register_exynos_dm_constraint_table (mem3 300) 0 (Some 100) in
  do! register_exynos_dm_freq_scaler 0 true in
  do! register_exynos_dm_freq_scaler 1 true in
  do! register_exynos_dm_freq_scaler 2 true in
  kret tt.

Definition state_of (m : DM unit) : exynos_dm_device := match m blank with Done _ x => x | _ => blank end.
(** One constraint registered; and the whole device after a first call. *)
Definition duo : exynos_dm_device := Eval vm_compute in state_of domains_up.
Definition trio : exynos_dm_device := Eval vm_compute in
  state_of (do! setup in do! DM_CALL (fun _ _ _ _ => 0) 0 1000 in do! DM_CALL (fun _ _ _ _ => 0) 0 1200 in kret tt).

(** ** Its graph *)

Ltac dat_cases E :=
  match type of E with
  | dat ?x ?k = Some _ =>
      let H := fresh in
      assert (H : k = 0 \/ k = 1 \/ k = 2) by (apply dat_range in E; simpl in E; lia);
      destruct H as [-> | [-> | ->]]; vm_compute in E; injection E as <-
  end.

Ltac wf_ends Ht :=
  (by apply not_elem_of_nil in Ht) ||
  (apply list_elem_of_singleton in Ht as ->;
   eexists _, _; split; [vm_compute; reflexivity|]; split; [done|]; split; [vm_compute; reflexivity|]; by apply list_elem_of_singleton).

Ltac wf_domain :=
  split; simpl; try done;
  [ split; first [apply NoDup_nil_2 | apply NoDup_singleton] | intros t Ht; wf_ends Ht | intros t Ht; wf_ends Ht ].

Lemma duo_wf : graph_wf duo.
Proof. split; [done|]. intros k d E. dat_cases E; wf_domain. Qed.

Lemma trio_wf : graph_wf trio.
Proof. split; [done|]. intros k d E. dat_cases E; wf_domain. Qed.

Lemma trio_edge t k j : edge trio t k j -> t = 100 /\ k = 0 /\ j = 1 \/ t = 200 /\ k = 1 /\ j = 2.
Proof.
  intros [(d & E & Hin) (c & Ec & <-)].
  dat_cases E; simpl in Hin; [..|by apply not_elem_of_nil in Hin]; apply list_elem_of_singleton in Hin as ->; vm_compute in Ec; injection Ec as <-; auto.
Qed.

Lemma trio_ready : dm_ready trio.
Proof.
  split; [split; [exact trio_wf|]| |done| |].
  - intros t k j c [(-> & -> & ->)|(-> & -> & ->)]%trio_edge Ec; vm_compute in Ec; injection Ec as <-; by eexists.
  - split; [apply NoDup_seqZ with (m := 0) (n := 3)| | |].
    + intros i j Ei t k [(-> & -> & ->)|(-> & -> & ->)]%trio_edge; destruct i as [|[|[|i]]]; try done; simpl; set_solver.
    + intros k Hk. apply (elem_of_seqZ 0 3 k) in Hk. assert (k = 0 \/ k = 1 \/ k = 2) as [-> | [-> | ->]] by lia; by eexists.
    + intros k Hk%connected_range. apply (elem_of_seqZ 0 3 k). simpl in Hk. lia.
  - intros t k j c tab [(-> & -> & ->)|(-> & -> & ->)]%trio_edge Ec Et; vm_compute in Ec; injection Ec as <-; injection Et as <-;
      intros i i' r s Hi Hr Hs; destruct i as [|[|i]], i' as [|[|i']]; try done; try lia; simpl in *; simplify_eq; simpl; lia.
  - intros k Hk. apply (elem_of_seqZ 0 3 k) in Hk. assert (k = 0 \/ k = 1 \/ k = 2) as [-> | [-> | ->]] by lia; done.
Qed.

Lemma trio_within : within trio.
Proof. split; intros t k j [(-> & -> & ->)|(-> & -> & ->)]%trio_edge; by vm_compute. Qed.

(** ** The theorems on it *)

(** The call that lets the CPU run at full speed again. *)
Lemma targets_settle_witness : exists ret x' log,
  DM_CALL (fun _ _ _ _ => 0) 0 2000 trio = Done (ret, cur_of x' 0) x' /\ x_calls x' = x_calls trio ++ log /\ ret = from_option s_ret 0 (last log).
Proof.
  destruct (targets_settle (fun _ _ _ _ => 0) trio 0 2000 (from_option id zero_dom (dat trio 0))) as (ret & x' & log & H1 & H2 & H3 & _);
    [exact trio_ready|reflexivity|reflexivity|vm_compute; discriminate|reflexivity|].
  exists ret, x', log. auto.
Defined.

(** Raised, lowered, and a request of a driven domain on its own. *)
Lemma calls_respect_constraints_witness : exists rs x' log,
  dm_calls (fun _ _ _ _ => 0) [(0, 2000); (0, 500); (2, 50)] trio = Done rs x' /\ Forall (fun r => fst r = 0) rs /\ call_effect trio x' log.
Proof.
  apply (calls_respect_constraints (fun _ _ _ _ => 0) trio); [done|exact trio_ready|exact trio_within|].
  repeat constructor; by eexists.
Defined.

(** C22. On a graph whose lists and in-degrees are consistent the topological sort
    completes, with queue and counters large enough, changes the order and the
    positions only, lists no domain twice, puts every listed domain after all the
    domains that drive it, and gives it its position; if the minimum constraints
    have no cycle, the listed domains are exactly those under some constraint. *)
Theorem sort_gives_order x junk : graph_wf x -> length junk = length (x_dm_data x) ->
  exists x', exynos_dm_topological_sort (length (x_dm_data x)) junk x = Done tt x' /\ same_graph x x' /\
    x_constraint_domain_count x' = Z.of_nat (length (ordered_domains x')) /\
    NoDup (ordered_domains x') /\ drivers_first x' (ordered_domains x') /\
    (forall i k, ordered_domains x' !! i = Some k -> connected x' k /\ exists d, dat x' k = Some d /\ d_my_order d = Z.of_nat i) /\
    (acyclic x -> ordering x' (ordered_domains x')).
Proof. apply sort_ordering. Qed.

Lemma sort_gives_order_witness : exists x', exynos_dm_topological_sort 3 [7; 7; 7] trio = Done tt x' /\ drivers_first x' (ordered_domains x').
Proof. destruct (sort_gives_order trio [7; 7; 7] trio_wf eq_refl) as (x' & H & _ & _ & _ & Hf & _). exists x'. auto. Defined.

(** Registering a constraint between available domains, with memory at hand:
    the registration succeeds, the graph stays consistent, it gains exactly the
    new minimum constraint (none for a maximum constraint), and the order
    respects it; if there is still no cycle, no domain is left out. *)
Theorem register_keeps_order x mem k p c : graph_wf x -> servable x mem k p c ->
  exists x', register_exynos_dm_constraint_table mem k (Some p) x = Done 0 x' /\ graph_wf x' /\
    (forall t a b, edge x' t a b <-> edge x t a b \/ c_type c = CONSTRAINT_MIN /\ t = p /\ a = k /\ b = c_constraint c) /\
    NoDup (ordered_domains x') /\ drivers_first x' (ordered_domains x') /\ (acyclic x' -> ordering x' (ordered_domains x')).
Proof. apply register_ordering. Qed.

Lemma register_keeps_order_witness : exists x', register_exynos_dm_constraint_table (mem3 300) 0 (Some 100) duo = Done 0 x' /\ graph_wf x'.
Proof.
  destruct (register_keeps_order duo (mem3 300) 0 100 (fresh_con 1 true cpu_mif)) as (x' & H & Hw & _); [exact duo_wf| |exists x'; auto].
  split; [reflexivity|by left|by eexists|eexists; split; [reflexivity|done]|by eexists| |done|by eexists].
  intros (k & d & E & [Hin|Hin]); dat_cases E; simpl in Hin; set_solver.
Defined.

(** ** Withdrawing a constraint *)

(** A constraint withdrawn and registered again: the registration returns 0, but
    the in-degree of the driven domain now counts it twice, and the sort leaves
    out both it and what it drives. A call that follows lets the CPU run at full
    speed while the memory stays at half of what the constraint demands. *)
Theorem reregistered_domain_starves :
  match (do! setup in
         do! unregister_exynos_dm_constraint_table 0 (Some 100) in
         let! r := register_exynos_dm_constraint_table (mem3 301) 0 (Some 100) in
         let! c := DM_CALL (fun _ _ _ _ => 0) 0 2000 in kret (r, c)) blank with
  | Done (r, c) x' => r = 0 /\ ordered_domains x' = [0] /\ d_indegree <$> dat x' 1 = Some 2 /\ d_min_drivers <$> dat x' 1 = Some [100] /\
      c = (0, 2000) /\ cur_of x' 1 = 400 /\ need x' 100 (cur_of x' 0) = 800
  | _ => False
  end.
Proof. by vm_compute. Qed.

(** A scaler that fails for the driver while the driven domain is slowed down:
    the call reports success, that of the last scaler called. *)
Theorem failed_driver_overwritten :
  match DM_CALL (fun n k _ _ => if k =? 0 then - EINVAL else 0) 0 500 trio with
  | Done r x' => r = (0, 1200) /\ need x' 100 (cur_of x' 0) = 800 /\ cur_of x' 1 = 400
  | _ => False
  end.
Proof. by vm_compute. Qed.

(** ** Policies *)

(** The CPU's minimum demands 800 of the memory; a lower ceiling takes the demand
    back to 400; when the ceiling is lifted the minimum is in force again, but it
    is compared with the old minimum before the ceiling was applied, found
    unchanged and not propagated. *)
Theorem lifted_ceiling_not_propagated :
  match (do! policy_update_call_to_DM (fun _ => 0) 0 1200 2000 in
         let! before := kget in
         do! policy_update_call_to_DM (fun _ => 0) 0 1200 900 in
         do! policy_update_call_to_DM (fun _ => 0) 0 1200 2000 in
         kret (from_dom before d_const_min 1, from_dom before driver_min 0)) trio with
  | Done (m, f) x' => m = 800 /\ f = 1200 /\ from_dom x' driver_min 0 = 1200 /\ from_dom x' d_const_min 1 = 400
  | _ => False
  end.
Proof. by vm_compute. Qed.
