(* ===== verification/Pt.v ===== *)
(** * The cache partition driver

    [drivers/soc/google/pt/pt.c]. Clients register the partitions named by their
    device node; each partition belongs to a driver, which allocates a partition
    identifier (ptid) of the system cache, enables, disables and frees it. The
    driver reports changes of a partition's size through a callback; they are
    queued and a thread of this module calls the client.

    The state is [pt_internal]: the handles and drivers by address, the two
    registries, and the queue of resize callbacks. A driver's operations are the
    record [pt_ops]: computations on the driver's own data that also return the
    calls they made of the resize callback. *)

From S2P Require Import Prelude.

(** ** Data *)

Definition PT_PTID_INVALID : Z := -1.
Definition PT_PBHA_INVALID : Z := -1.
Definition PT_PBHA_ENABLE : Z := 0x8000.
Definition PT_PBHA_MASK : Z := 0x0fff.

(** [&handle->pts[id]]: the handle and the index. *)
Definition pts_ptr : Type := Z * Z.

(** What a driver asks for: the owner of the partition ([None] for a global one,
    whose callback does nothing) and the size. *)
Definition resizes : Type := list (option pts_ptr * Z).

Record pt_ops (D : Type) := MkOps {
  op_alloc : Z -> option pts_ptr -> M D (Z * resizes);
  op_free : Z -> M D resizes;
  op_enable : Z -> M D resizes;
  op_disable : Z -> M D resizes;
  op_mutate : Z -> pts_ptr -> Z -> M D (Z * resizes);
  op_pbha : Z -> M D Z;
  op_ioctl : option (list Z -> M D (Z * list Z))
}.
Arguments MkOps {D} _ _ _ _ _ _ _.
Arguments op_alloc {D} _. Arguments op_free {D} _. Arguments op_enable {D} _. Arguments op_disable {D} _.
Arguments op_mutate {D} _. Arguments op_pbha {D} _. Arguments op_ioctl {D} _.

(** [p_queued] tells whether [resize_list.next] is set. *)
Record pt_pts := MkPts {
  p_enabled : bool;
  p_size : Z;
  p_ptid : Z;
  p_property_index : Z;
  p_driver : Z;
  p_queued : bool
}.
#[export] Instance eta_pts : Eta pt_pts := mk_eta (fun p =>
  MkPts (p_enabled p) (p_size p) (p_ptid p) (p_property_index p) (p_driver p) (p_queued p)).

Record pt_handle := MkHandle { h_callback : bool; h_pts : list pt_pts; h_node : Z }.
#[export] Instance eta_handle : Eta pt_handle := mk_eta (fun h => MkHandle (h_callback h) (h_pts h) (h_node h)).

(** [dr_props] is the names of the property nodes, [dr_name] that of the driver's node. *)
Record pt_driver (D : Type) := MkDriver {
  dr_props : list string;
  dr_ops : pt_ops D;
  dr_ref : Z;
  dr_ioctl_ret : Z;
  dr_name : string;
  dr_data : D
}.
Arguments MkDriver {D} _ _ _ _ _ _.
Arguments dr_props {D} _. Arguments dr_ops {D} _. Arguments dr_ref {D} _. Arguments dr_ioctl_ret {D} _.
Arguments dr_name {D} _. Arguments dr_data {D} _.
#[export] Instance eta_driver {D} : Eta (pt_driver D) := mk_eta (fun d =>
  MkDriver (dr_props d) (dr_ops d) (dr_ref d) (dr_ioctl_ret d) (dr_name d) (dr_data d)).

Record pt_global := MkGlobal { g_pbha : Z; g_ptid : Z; g_property_index : Z; g_driver : option Z }.
#[export] Instance eta_global : Eta pt_global := mk_eta (fun g => MkGlobal (g_pbha g) (g_ptid g) (g_property_index g) (g_driver g)).

Inductive pt_global_t := PT_GLOBAL_BYPASS | PT_GLOBAL_LEFTOVER.

Record pt_internal (D : Type) := MkPt {
  i_handles : gmap Z pt_handle;
  i_drivers : gmap Z (pt_driver D);
  i_handle_list : list Z;
  i_driver_list : list Z;
  i_timestamp : Z;
  i_leftover : pt_global;
  i_bypass : pt_global;
  i_resize_list : list pts_ptr;
  i_in_progress : option pts_ptr
}.
Arguments MkPt {D} _ _ _ _ _ _ _ _ _.
Arguments i_handles {D} _. Arguments i_drivers {D} _. Arguments i_handle_list {D} _. Arguments i_driver_list {D} _.
Arguments i_timestamp {D} _. Arguments i_leftover {D} _. Arguments i_bypass {D} _. Arguments i_resize_list {D} _.
Arguments i_in_progress {D} _.
#[export] Instance eta_pt {D} : Eta (pt_internal D) := mk_eta (fun s =>
  MkPt (i_handles s) (i_drivers s) (i_handle_list s) (i_driver_list s) (i_timestamp s) (i_leftover s) (i_bypass s)
    (i_resize_list s) (i_in_progress s)).

Abbreviation PT D A := (M (pt_internal D) A).

Section Pt.
Context {D : Type}.

(** ** Access *)

Definition pts_at (s : pt_internal D) (p : pts_ptr) : option pt_pts :=
  if snd p <? 0 then None else h ← i_handles s !! fst p; h_pts h !! Z.to_nat (snd p).

Definition get_handle (a : Z) : PT D pt_handle := fun s =>
  match i_handles s !! a with Some h => Done h s | None => Fault end.
Definition get_pts (p : pts_ptr) : PT D pt_pts := fun s =>
  match pts_at s p with Some x => Done x s | None => Fault end.
Definition set_pts (s : pt_internal D) (p : pts_ptr) (x : pt_pts) : pt_internal D :=
  s <| i_handles := alter (fun h => h <| h_pts := <[Z.to_nat (snd p) := x]> (h_pts h) |>) (fst p) (i_handles s) |>.
Definition mod_pts (p : pts_ptr) (f : pt_pts -> pt_pts) : PT D unit := fun s =>
  match pts_at s p with Some x => Done tt (set_pts s p (f x)) | None => Fault end.

Definition get_driver (a : Z) : PT D (pt_driver D) := fun s =>
  match i_drivers s !! a with Some d => Done d s | None => Fault end.
Definition mod_driver (a : Z) (f : pt_driver D -> pt_driver D) : PT D unit := fun s =>
  match i_drivers s !! a with Some d => Done tt (s <| i_drivers := <[a := f d]> (i_drivers s) |>) | None => Fault end.

(** A call of one of the driver's operations. *)
Definition drv_op {R} (a : Z) (f : pt_ops D -> M D R) : PT D R := fun s =>
  match i_drivers s !! a with
  | Some d =>
      match f (dr_ops d) (dr_data d) with
      | Done r data => Done r (s <| i_drivers := <[a := d <| dr_data := data |>]> (i_drivers s) |>)
      | Blocked => Blocked
      | Fault => Fault
      end
  | None => Fault
  end.

(** ** Resize callbacks *)

(** The pointer of the next callback and the size it is told; [None] when the
    list is empty, where the thread sleeps. *)
Definition pt_resize_list_next : PT D (option (pts_ptr * Z)) :=
  let! s := kget in
  match i_resize_list s with
  | p :: rest =>
      let! x := get_pts p in
      do! kmod (fun s => s <| i_resize_list := rest |>) in
      do! mod_pts p (fun x => x <| p_queued := false |>) in
      do! kmod (fun s => s <| i_in_progress := Some p |>) in
      kret (Some (p, p_size x))
  | [] => do! kmod (fun s => s <| i_in_progress := None |>) in kret None
  end.

Definition pt_resize_list_add (p : pts_ptr) (size : Z) : PT D unit :=
  let! x := get_pts p in
  do! (if negb (p_queued x) && p_enabled x && negb (p_size x =? size) then
         do! kmod (fun s => s <| i_resize_list := p :: i_resize_list s |>) in
         mod_pts p (fun x => x <| p_queued := true |>)
       else kret tt) in
  mod_pts p (fun x => x <| p_size := size |>).

(** The part under the spin lock, and then the wait for the callback of [p] to
    return. *)
Definition resize_list_flush (p : pts_ptr) : PT D bool :=
  let! x := get_pts p in
  do! mod_pts p (fun x => x <| p_enabled := false |>) in
  do! (if p_queued x then
         do! kmod (fun s => s <| i_resize_list := filter (fun q => q <> p) (i_resize_list s) |>) in
         mod_pts p (fun x => x <| p_queued := false |> <| p_size := 0 |>)
       else kret tt) in
  kret (p_enabled x).

Definition pt_resize_list_disable (p : pts_ptr) : PT D bool :=
  let! enabled := resize_list_flush p in
  let! s := kget in
  if bool_decide (i_in_progress s = Some p) then kblock else kret enabled.

Definition pt_resize_list_enable (p : pts_ptr) : PT D unit := mod_pts p (fun x => x <| p_enabled := true |>).

Definition pt_resize_internal (p : pts_ptr) (size : Z) : PT D unit :=
  let! h := get_handle (fst p) in
  if h_callback h then pt_resize_list_add p (u32 size)
  else mod_pts p (fun x => x <| p_size := u32 size |>).

(** The callbacks an operation made, in order. *)
Fixpoint do_resizes (rs : resizes) : PT D unit :=
  match rs with
  | [] => kret tt
  | (Some p, size) :: rest => do! pt_resize_internal p size in do_resizes rest
  | (None, _) :: rest => do_resizes rest
  end.

(** ** Calls of the driver *)

Definition pt_driver_alloc (h id : Z) : PT D bool :=
  let! x := get_pts (h, id) in
  let! r := drv_op (p_driver x) (fun ops => op_alloc ops (p_property_index x) (Some (h, id))) in
  do! do_resizes (snd r) in
  do! (if fst r =? PT_PTID_INVALID then kret tt else mod_pts (h, id) (fun x => x <| p_ptid := fst r |>)) in
  kret (negb (fst r =? PT_PTID_INVALID)).

Definition pt_driver_enable (h id : Z) : PT D unit :=
  let! x := get_pts (h, id) in
  let! rs := drv_op (p_driver x) (fun ops => op_enable ops (p_ptid x)) in
  do_resizes rs.

Definition pt_driver_disable (h id : Z) : PT D unit :=
  let! x := get_pts (h, id) in
  let! rs := drv_op (p_driver x) (fun ops => op_disable ops (p_ptid x)) in
  do_resizes rs.

Definition pt_driver_free (h id : Z) : PT D unit :=
  let! x := get_pts (h, id) in
  let! rs := drv_op (p_driver x) (fun ops => op_free ops (p_ptid x)) in
  do! do_resizes rs in
  mod_pts (h, id) (fun x => x <| p_ptid := PT_PTID_INVALID |>).

Definition pt_driver_mutate (h old_id new_id : Z) : PT D Z :=
  let! old := get_pts (h, old_id) in
  let! new := get_pts (h, new_id) in
  let! r := drv_op (p_driver old) (fun ops => op_mutate ops (p_ptid old) (h, new_id) (p_property_index new)) in
  do! do_resizes (snd r) in
  do! (if fst r =? PT_PTID_INVALID then kret tt
       else
         do! mod_pts (h, old_id) (fun x => x <| p_ptid := PT_PTID_INVALID |>) in
         do! mod_pts (h, new_id) (fun x => x <| p_ptid := fst r |>) in
         do! mod_pts (h, old_id) (fun x => x <| p_enabled := false |>) in
         mod_pts (h, new_id) (fun x => x <| p_enabled := true |>)) in
  kret (fst r).

(** ** References *)

(** A reference count below 1 is a panic. *)
Definition pt_driver_put (a : Z) : PT D unit :=
  let! d := get_driver a in
  if dr_ref d <? 1 then kfault else mod_driver a (fun d => d <| dr_ref := s32 (dr_ref d - 1) |>).

(** The index of a property of that name. *)
Fixpoint find_prop (name : string) (props : list string) (i : Z) : option Z :=
  match props with
  | [] => None
  | n :: rest => if bool_decide (n = name) then Some i else find_prop name rest (i + 1)
  end.

(** The first driver with such a property, and the index. *)
Fixpoint find_driver (name : string) (ds : list Z) : PT D (option (Z * Z)) :=
  match ds with
  | [] => kret None
  | a :: rest =>
      let! d := get_driver a in
      match find_prop name (dr_props d) 0 with
      | Some i => kret (Some (a, i))
      | None => find_driver name rest
      end
  end.

Definition pt_driver_get (name : string) : PT D (option (Z * Z)) :=
  let! s := kget in
  let! r := find_driver name (i_driver_list s) in
  match r with
  | Some (a, i) => do! mod_driver a (fun d => d <| dr_ref := s32 (dr_ref d + 1) |>) in kret (Some (a, i))
  | None => kret None
  end.

Fixpoint find_driver_name (name : string) (ds : list Z) : PT D (option Z) :=
  match ds with
  | [] => kret None
  | a :: rest => let! d := get_driver a in if bool_decide (dr_name d = name) then kret (Some a) else find_driver_name name rest
  end.

Definition pt_driver_get_by_name (name : string) : PT D (option Z) :=
  let! s := kget in
  let! r := find_driver_name name (i_driver_list s) in
  match r with
  | Some a => do! mod_driver a (fun d => d <| dr_ref := s32 (dr_ref d + 1) |>) in kret (Some a)
  | None => kret None
  end.

Definition pt_driver_ioctl3 (a arg0 arg1 arg2 : Z) : PT D Z :=
  let! d := get_driver a in
  match op_ioctl (dr_ops d) with
  | None => kret (- EINVAL)
  | Some ioctl =>
      let! r := drv_op a (fun _ => ioctl [arg0; arg1; arg2]) in
      do! (if fst r >=? 0
           then match snd r with v :: _ => mod_driver a (fun d => d <| dr_ioctl_ret := v |>) | [] => kfault end
           else kret tt) in
      kret (fst r)
  end.

Fixpoint search_handles (node : Z) (hs : list Z) : PT D (option Z) :=
  match hs with
  | [] => kret None
  | a :: rest => let! h := get_handle a in if h_node h =? node then kret (Some a) else search_handles node rest
  end.
Definition pt_handle_search (node : Z) : PT D (option Z) := let! s := kget in search_handles node (i_handle_list s).

(** An unknown index is a panic. *)
Definition pt_handle_check (h id : Z) : PT D unit :=
  let! x := get_handle h in
  if (id >=? Z.of_nat (length (h_pts x))) || (id <? 0) then kfault else kret tt.

(** ** Global partitions *)

Definition get_global (t : pt_global_t) (s : pt_internal D) : pt_global :=
  match t with PT_GLOBAL_LEFTOVER => i_leftover s | PT_GLOBAL_BYPASS => i_bypass s end.
Definition mod_global (t : pt_global_t) (f : pt_global -> pt_global) : PT D unit :=
  kmod (fun s => match t with
                 | PT_GLOBAL_LEFTOVER => s <| i_leftover := f (i_leftover s) |>
                 | PT_GLOBAL_BYPASS => s <| i_bypass := f (i_bypass s) |>
                 end).

Definition pt_global_disable (t : pt_global_t) : PT D unit :=
  let! s := kget in
  let g := get_global t s in
  match g_driver g with
  | None => kret tt
  | Some a =>
      if g_ptid g =? PT_PTID_INVALID then kret tt
      else
        let! r := drv_op a (fun ops => op_alloc ops (g_property_index g) None) in
        do! do_resizes (snd r) in
        do! mod_global t (fun g => g <| g_ptid := fst r |>) in
        if fst r =? PT_PTID_INVALID then kret tt
        else
          let! rs := drv_op a (fun ops => op_disable ops (fst r)) in
          do! do_resizes rs in
          let! rs := drv_op a (fun ops => op_free ops (fst r)) in
          do! do_resizes rs in
          mod_global t (fun g => g <| g_ptid := PT_PTID_INVALID |> <| g_pbha := PT_PTID_INVALID |>)
  end.

Definition pt_global_enable (t : pt_global_t) : PT D unit :=
  let! s := kget in
  let g := get_global t s in
  match g_driver g with
  | None => kret tt
  | Some a =>
      if negb (g_ptid g =? PT_PTID_INVALID) then kret tt
      else
        let! r := drv_op a (fun ops => op_alloc ops (g_property_index g) None) in
        do! do_resizes (snd r) in
        do! mod_global t (fun g => g <| g_ptid := fst r |>) in
        if fst r =? PT_PTID_INVALID then kret tt
        else
          let! rs := drv_op a (fun ops => op_enable ops (fst r)) in
          do! do_resizes rs in
          let! pbha := drv_op a (fun ops => op_pbha ops (fst r)) in
          mod_global t (fun g => g <| g_pbha := pbha |>)
  end.

Definition pt_pbha (node id : Z) : PT D Z :=
  let! r := pt_handle_search node in
  match r with
  | None => kret PT_PBHA_INVALID
  | Some h =>
      let! x := get_handle h in
      if id >=? Z.of_nat (length (h_pts x)) then kret PT_PBHA_INVALID
      else
        let! p := get_pts (h, id) in
        if p_ptid p =? PT_PTID_INVALID then kret PT_PBHA_INVALID
        else drv_op (p_driver p) (fun ops => op_pbha ops (p_ptid p))
  end.

(** [None] is a type that is neither. *)
Definition pt_pbha_global (type : option pt_global_t) : PT D Z :=
  match type with
  | None => kret PT_PBHA_INVALID
  | Some t => do! pt_global_enable t in let! s := kget in kret (g_pbha (get_global t s))
  end.
Definition pt_pid_global (type : option pt_global_t) : PT D Z :=
  match type with
  | None => kret PT_PTID_INVALID
  | Some t => do! pt_global_enable t in let! s := kget in kret (g_ptid (get_global t s))
  end.

(** ** Clients *)

(** The drivers of both partitions are read before the indices are checked. *)
Definition pt_client_mutate (h old_id new_id : Z) : PT D Z :=
  let! old := get_pts (h, old_id) in
  let! new := get_pts (h, new_id) in
  if negb (p_driver old =? p_driver new) then kret PT_PTID_INVALID
  else
    do! pt_handle_check h old_id in
    do! pt_handle_check h new_id in
    if negb (p_enabled old) || p_enabled new then kret PT_PTID_INVALID
    else pt_driver_mutate h old_id new_id.

Definition pt_client_disable_no_free (h id : Z) : PT D unit :=
  do! pt_handle_check h id in
  let! enabled := pt_resize_list_disable (h, id) in
  if negb enabled then kret tt else pt_driver_disable h id.

Definition pt_client_free (h id : Z) : PT D unit :=
  do! pt_handle_check h id in
  let! x := get_pts (h, id) in
  if p_enabled x then kret tt
  else if p_ptid x =? PT_PTID_INVALID then kret tt
  else pt_driver_free h id.

Definition pt_client_disable (h id : Z) : PT D unit :=
  do! pt_client_disable_no_free h id in pt_client_free h id.

(** With the handle locked: the ptid and, where it is written, the size. *)
Definition enable_size_locked (h id : Z) : PT D (Z * option Z) :=
  do! pt_handle_check h id in
  let! x := get_pts (h, id) in
  if p_enabled x then kret (- EINVAL, None)
  else
    do! (if p_ptid x =? PT_PTID_INVALID then let! _ := pt_driver_alloc h id in kret tt else kret tt) in
    let! x := get_pts (h, id) in
    let ptid := p_ptid x in
    do! (if ptid =? PT_PTID_INVALID then kret tt else pt_driver_enable h id) in
    let! x := get_pts (h, id) in
    kret (ptid, Some (p_size x)).

(** The handle is unlocked before the callbacks are allowed. *)
Definition pt_client_enable_size (h id : Z) : PT D (Z * option Z) :=
  let! r := enable_size_locked h id in
  match snd r with
  | None => kret r
  | Some _ =>
      do! (if fst r =? PT_PTID_INVALID then kret tt else pt_resize_list_enable (h, id)) in
      kret r
  end.

Definition pt_client_enable (h id : Z) : PT D Z := let! r := pt_client_enable_size h id in kret (fst r).

(** A partition that is still allocated is a panic, so the loop that would free
    them later never finds one. *)
Fixpoint put_all (ps : list pt_pts) : PT D unit :=
  match ps with
  | [] => kret tt
  | x :: rest =>
      if negb (p_ptid x =? PT_PTID_INVALID) then kfault
      else do! pt_driver_put (p_driver x) in put_all rest
  end.

Definition pt_client_unregister (h : Z) : PT D unit :=
  let! x := get_handle h in
  do! put_all (h_pts x) in
  kmod (fun s => s <| i_timestamp := u32 (i_timestamp s + 1) |>
                   <| i_handle_list := filter (fun a => a <> h) (i_handle_list s) |>
                   <| i_handles := delete h (i_handles s) |>).

(** The partitions of the names of a node, or an error. *)
Fixpoint read_pts (names : list (option string)) : PT D (Z + list pt_pts) :=
  match names with
  | [] => kret (inr [])
  | None :: _ => kret (inl (- ENOENT))
  | Some name :: rest =>
      let! r := pt_driver_get name in
      match r with
      | None => kret (inl (- ENOENT))
      | Some (a, i) =>
          let! ps := read_pts rest in
          match ps with
          | inl e => kret (inl e)
          | inr l => kret (inr (MkPts false 0 PT_PTID_INVALID i a false :: l))
          end
      end
  end.

(** [names] is the strings of the property, [mem] the memory for the handle; the
    result is an error or the handle. A node registered before is a panic. *)
Definition pt_client_register (node : Z) (names : list (option string)) (callback : bool) (mem : option Z) : PT D (Z + Z) :=
  if bool_decide (names = []) then kret (inl (- EEXIST))
  else match mem with
  | None => kret (inl (- ENOMEM))
  | Some h =>
      let! ps := read_pts names in
      match ps with
      | inl e => kret (inl e)
      | inr l =>
          let! r := pt_handle_search node in
          match r with
          | Some _ => kfault
          | None =>
              do! kmod (fun s => s <| i_handles := <[h := MkHandle callback l node]> (i_handles s) |>
                                   <| i_handle_list := h :: i_handle_list s |>
                                   <| i_timestamp := u32 (i_timestamp s + 1) |>) in
              kret (inr h)
          end
      end
  end.

(** ** Drivers *)

(** The first nodes of the names LEFTOVER and BYPASS become the global ones. *)
Fixpoint claim_globals (a : Z) (names : list string) (cnt : Z) : PT D unit :=
  match names with
  | [] => kret tt
  | n :: rest =>
      let! s := kget in
      do! (if bool_decide (g_driver (i_leftover s) = None) && bool_decide (n = "LEFTOVER"%string)
           then mod_global PT_GLOBAL_LEFTOVER (fun g => g <| g_driver := Some a |> <| g_property_index := cnt |>)
           else if bool_decide (g_driver (i_bypass s) = None) && bool_decide (n = "BYPASS"%string)
           then mod_global PT_GLOBAL_BYPASS (fun g => g <| g_driver := Some a |> <| g_property_index := cnt |>)
           else kret tt) in
      claim_globals a rest (cnt + 1)
  end.

(** [children] is the child nodes with whether they have the property. *)
Definition pt_driver_register (name : string) (children : list (string * bool)) (ops : pt_ops D) (data : D) (mem : option Z) :
    PT D (option Z) :=
  match mem with
  | None => kret None
  | Some a =>
      let names := map fst (filter (fun c => snd c = true) children) in
      do! claim_globals a names 0 in
      do! kmod (fun s => s <| i_drivers := <[a := MkDriver names ops 0 0 name data]> (i_drivers s) |>
                           <| i_driver_list := a :: i_driver_list s |>) in
      kret (Some a)
  end.

Definition pt_driver_unregister (a : Z) : PT D Z :=
  let! d := get_driver a in
  if negb (dr_ref d =? 0) then kret (- EBUSY)
  else
    do! kmod (fun s => s <| i_driver_list := filter (fun b => b <> a) (i_driver_list s) |>
                         <| i_drivers := delete a (i_drivers s) |>) in
    kret 0.

(** ** The control file *)

Inductive pt_fn :=
| PT_FN_REGISTER | PT_FN_ENABLE | PT_FN_DISABLE | PT_FN_UNREGISTER | PT_FN_RESIZE | PT_FN_MUTATE
| PT_FN_DISABLE_NO_FREE | PT_FN_FREE | PT_FN_TEST | PT_FN_GLOBAL_PID | PT_FN_GLOBAL_PBHA | PT_FN_IOCTL.

Definition pt_fn_of (fn : Z) : option pt_fn :=
  nth_error [PT_FN_REGISTER; PT_FN_ENABLE; PT_FN_DISABLE; PT_FN_UNREGISTER; PT_FN_RESIZE; PT_FN_MUTATE;
             PT_FN_DISABLE_NO_FREE; PT_FN_FREE; PT_FN_TEST; PT_FN_GLOBAL_PID; PT_FN_GLOBAL_PBHA; PT_FN_IOCTL] (Z.to_nat fn).
Definition global_of (id : Z) : option pt_global_t :=
  if id =? 0 then Some PT_GLOBAL_BYPASS else if id =? 1 then Some PT_GLOBAL_LEFTOVER else None.

(** A command as scanned: how many items were read, the node it names (with the
    strings of its property) and the numbers. The test of memory speed changes
    nothing here. *)
Record pt_command := MkCommand {
  cm_cnt : Z; cm_name : string; cm_node : Z; cm_strings : list (option string); cm_mem : option Z;
  cm_fn : Z; cm_id : Z; cm_size_newid : Z; cm_arg3 : Z
}.

Definition pt_sysctl_command (c : pt_command) : PT D Z :=
  let! found := pt_handle_search (cm_node c) in
  let needs (n : Z) (body : PT D Z) : PT D Z := if cm_cnt c <? n then kret (- EINVAL) else body in
  let indexed (body : Z -> PT D unit) : PT D Z :=
    needs 3 (match found with
             | None => kret (- ENOENT)
             | Some h =>
                 let! x := get_handle h in
                 if cm_id c >=? Z.of_nat (length (h_pts x)) then kret (- ENOENT) else do! body h in kret 0
             end) in
  if cm_fn c <? 0 then kret (- EINVAL)
  else match pt_fn_of (cm_fn c) with
  | None => kret (- EINVAL)
  | Some PT_FN_REGISTER =>
      needs 2 (match found with
               | Some _ => kret (- EEXIST)
               | None =>
                   let! r := pt_client_register (cm_node c) (cm_strings c) true (cm_mem c) in
                   kret (match r with inl e => e | inr _ => 0 end)
               end)
  | Some PT_FN_ENABLE => indexed (fun h => let! _ := pt_client_enable h (cm_id c) in kret tt)
  | Some PT_FN_DISABLE => indexed (fun h => pt_client_disable h (cm_id c))
  | Some PT_FN_UNREGISTER =>
      needs 2 (match found with None => kret (- ENOENT) | Some h => do! pt_client_unregister h in kret 0 end)
  | Some PT_FN_RESIZE => indexed (fun h => pt_resize_internal (h, cm_id c) (cm_size_newid c))
  | Some PT_FN_MUTATE =>
      needs 4 (match found with
               | None => kret (- ENOENT)
               | Some h =>
                   let! x := get_handle h in
                   if (cm_id c >=? Z.of_nat (length (h_pts x))) || (cm_size_newid c >=? Z.of_nat (length (h_pts x)))
                   then kret (- ENOENT)
                   else let! _ := pt_client_mutate h (cm_id c) (cm_size_newid c) in kret 0
               end)
  | Some PT_FN_DISABLE_NO_FREE => indexed (fun h => pt_client_disable_no_free h (cm_id c))
  | Some PT_FN_FREE => indexed (fun h => pt_client_free h (cm_id c))
  | Some PT_FN_TEST => kret 0
  | Some PT_FN_GLOBAL_PID => let! _ := pt_pid_global (global_of (cm_id c)) in kret 0
  | Some PT_FN_GLOBAL_PBHA => let! _ := pt_pbha_global (global_of (cm_id c)) in kret 0
  | Some PT_FN_IOCTL =>
      needs 5 (let! r := pt_driver_get_by_name (cm_name c) in
               match r with
               | None => kret (- ENOENT)
               | Some a => pt_driver_ioctl3 a (cm_id c) (cm_size_newid c) (cm_arg3 c)
               end)
  end.

End Pt.

Definition pt_init {D} : pt_internal D :=
  let g := MkGlobal PT_PBHA_INVALID PT_PTID_INVALID 0 None in MkPt ∅ ∅ [] [] 0 g g [] None.
