(* ===== verification/PtOwner.v ===== *)
(** * Who owns a partition

    [PtDriverSpec] is what [pt.h] documents of a driver's operations: a driver keeps
    a set of allocated ptids, each with an owner and a flag whether it is
    enabled; [enable] may only be called for an allocated ptid that is not
    enabled, [disable] and [mutate] only for an enabled one, [free] only for one
    that is not enabled. Outside these conditions nothing is promised.

    A state is seen as three functions ([sees]): the allocated ptids of each
    driver, the partitions of the clients, and the global partitions. [own] says
    that they agree. *)

From S2P Require Import Prelude Pt.

(** ** The interface of a driver *)

(** Resize callbacks go to owners. *)
Definition to_owners (view : gmap Z (option pts_ptr * bool)) (o : option pts_ptr) (rs : resizes) : Prop :=
  forall p size, (Some p, size) ∈ rs -> (exists t b, view !! t = Some (Some p, b)) \/ o = Some p.

Class PtDriverSpec {D} (ops : pt_ops D) := {
  pv_wf : D -> Prop;
  pv_view : D -> gmap Z (option pts_ptr * bool);
  pv_valid : forall d t e, pv_wf d -> pv_view d !! t = Some e -> t <> PT_PTID_INVALID;
  pv_alloc : forall d i o, pv_wf d -> exists t rs d', op_alloc ops i o d = Done (t, rs) d' /\ pv_wf d' /\
    to_owners (pv_view d) o rs /\
    (t = PT_PTID_INVALID /\ pv_view d' = pv_view d \/
     t <> PT_PTID_INVALID /\ pv_view d !! t = None /\ pv_view d' = <[t := (o, false)]> (pv_view d));
  pv_enable : forall d t o, pv_wf d -> pv_view d !! t = Some (o, false) ->
    exists rs d', op_enable ops t d = Done rs d' /\ pv_wf d' /\ to_owners (pv_view d) None rs /\
      pv_view d' = <[t := (o, true)]> (pv_view d);
  pv_disable : forall d t o, pv_wf d -> pv_view d !! t = Some (o, true) ->
    exists rs d', op_disable ops t d = Done rs d' /\ pv_wf d' /\ to_owners (pv_view d) None rs /\
      pv_view d' = <[t := (o, false)]> (pv_view d);
  pv_free : forall d t o, pv_wf d -> pv_view d !! t = Some (o, false) ->
    exists rs d', op_free ops t d = Done rs d' /\ pv_wf d' /\ to_owners (pv_view d) None rs /\
      pv_view d' = delete t (pv_view d);
  pv_mutate : forall d t o p i, pv_wf d -> pv_view d !! t = Some (Some o, true) ->
    exists r rs d', op_mutate ops t p i d = Done (r, rs) d' /\ pv_wf d' /\ to_owners (pv_view d) (Some p) rs /\
      (r = PT_PTID_INVALID /\ pv_view d' = pv_view d \/ r = t /\ pv_view d' = <[t := (Some p, true)]> (pv_view d));
  pv_pbha : forall d t e, pv_wf d -> pv_view d !! t = Some e -> exists v, op_pbha ops t d = Done v d
}.

(** ** Views of a state *)

Record core := MkCore { k_enabled : bool; k_ptid : Z; k_driver : Z }.
#[export] Instance eta_core : Eta core := mk_eta (fun c => MkCore (k_enabled c) (k_ptid c) (k_driver c)).
Definition core_of (x : pt_pts) : core := MkCore (p_enabled x) (p_ptid x) (p_driver x).

Abbreviation views := (Z -> Z -> option (option pts_ptr * bool)).
Abbreviation cores := (pts_ptr -> option core).
Abbreviation globals := (pt_global_t -> option (Z * Z)).

Definition vset (V : views) (a t : Z) (e : option (option pts_ptr * bool)) : views :=
  fun b u => if decide (b = a /\ u = t) then e else V b u.
Definition cset (C : cores) (p : pts_ptr) (c : core) : cores := fun q => if decide (q = p) then Some c else C q.

Lemma vset_eq V a t e : vset V a t e a t = e.
Proof. unfold vset. by rewrite decide_True. Qed.
Lemma vset_ne V a t e b u : ~ (b = a /\ u = t) -> vset V a t e b u = V b u.
Proof. intros. unfold vset. by rewrite decide_False. Qed.
Lemma cset_eq C p c : cset C p c p = Some c.
Proof. unfold cset. by rewrite decide_True. Qed.
Lemma cset_ne C p c q : q <> p -> cset C p c q = C q.
Proof. intros. unfold cset. by rewrite decide_False. Qed.

#[export] Instance pt_global_t_eq_dec : EqDecision pt_global_t.
Proof. solve_decision. Defined.
Definition gset_at (G : globals) (g : pt_global_t) (e : option (Z * Z)) : globals := fun h => if decide (h = g) then e else G h.

(** The queue of callbacks: each pointer once, and the flag tells who is on it. *)
Record queue_ok {D} (s : pt_internal D) : Prop := MkQueue {
  qk_nodup : NoDup (i_resize_list s);
  qk_flag : forall p, p ∈ i_resize_list s <-> exists x, pts_at s p = Some x /\ p_queued x = true
}.

Section Owner.
Context {D : Type} (ops : pt_ops D) `{Spec : !PtDriverSpec ops}.
Implicit Types s : pt_internal D.

Definition view_at s : views := fun a t => d ← i_drivers s !! a; pv_view (dr_data d) !! t.
Definition core_at s : cores := fun p => core_of <$> pts_at s p.
Definition glob_at s : globals := fun g =>
  a ← g_driver (get_global g s); if g_ptid (get_global g s) =? PT_PTID_INVALID then None else Some (a, g_ptid (get_global g s)).

Definition drivers_ok s : Prop := forall a d, i_drivers s !! a = Some d -> dr_ops d = ops /\ pv_wf (dr_data d).

Record sees (V : views) (C : cores) (G : globals) (s : pt_internal D) : Prop := MkSees {
  ss_view : forall a t, view_at s a t = V a t;
  ss_core : forall p, core_at s p = C p;
  ss_glob : forall g, glob_at s g = G g;
  ss_drivers : drivers_ok s;
  ss_live : forall p c, C p = Some c -> is_Some (i_drivers s !! k_driver c);
  ss_queue : queue_ok s
}.

(** Clients and drivers agree. *)
Record own (V : views) (C : cores) (G : globals) : Prop := MkOwn {
  ow_down : forall p c, C p = Some c -> k_ptid c <> PT_PTID_INVALID -> V (k_driver c) (k_ptid c) = Some (Some p, k_enabled c);
  ow_free : forall p c, C p = Some c -> k_ptid c = PT_PTID_INVALID -> k_enabled c = false;
  ow_up : forall a t p b, V a t = Some (Some p, b) -> exists c, C p = Some c /\ k_driver c = a /\ k_ptid c = t;
  ow_global : forall a t b, V a t = Some (None, b) -> b = true /\ exists g, G g = Some (a, t);
  ow_globals : forall g a t, G g = Some (a, t) -> V a t = Some (None, true);
  ow_valid : forall a t e, V a t = Some e -> t <> PT_PTID_INVALID
}.

(** ** Runs *)

Lemma pts_at_set s p q x y : pts_at s p = Some x -> pts_at (set_pts s p y) q = if decide (q = p) then Some y else pts_at s q.
Proof.
  destruct p as [h i], q as [h' j]. unfold pts_at, set_pts; simpl. destruct (Z.ltb_spec i 0); [done|].
  destruct (i_handles s !! h) as [hd|] eqn:Eh; [|done]. simpl. intros Ex. destruct (Z.ltb_spec j 0).
  - rewrite decide_False; [done|]. intros [= -> ->]. lia.
  - destruct (decide (h' = h)) as [->|Hne].
    + rewrite lookup_alter_eq, Eh. simpl. case_decide as Hj.
      * injection Hj as ->. apply list_lookup_insert_eq. by eapply lookup_lt_Some.
      * rewrite list_lookup_insert_ne; [done|]. intros Hij. apply Hj. f_equal. lia.
    + rewrite lookup_alter_ne by done. rewrite decide_False by congruence. done.
Qed.

Lemma wp_get_pts s p x Q : pts_at s p = Some x -> Q x s -> wp (get_pts p) Q s.
Proof. intros E HQ. eapply wp_eq; [|exact HQ]. unfold get_pts. by rewrite E. Qed.

Lemma sees_pts V C G s p c : sees V C G s -> C p = Some c -> exists x, pts_at s p = Some x /\ core_of x = c.
Proof. intros H E. rewrite <- (ss_core _ _ _ _ H) in E. unfold core_at in E. destruct (pts_at s p) as [x|]; [|done]. simplify_eq/=. eauto. Qed.

(** Changing a partition, its place in the queue apart. *)
Lemma wp_mod_pts V C G s p c f c' Q : sees V C G s -> C p = Some c ->
  (forall x, core_of x = c -> core_of (f x) = c' /\ p_queued (f x) = p_queued x) -> k_driver c' = k_driver c ->
  (forall s', sees V (cset C p c') G s' -> i_in_progress s' = i_in_progress s -> Q tt s') -> wp (mod_pts p f) Q s.
Proof.
  intros H E Hf Hd HQ. destruct (sees_pts _ _ _ _ _ _ H E) as (x & Ex & Hx). destruct (Hf x Hx) as [Hc Hq].
  eapply wp_eq; [unfold mod_pts; by rewrite Ex|]. apply HQ; [|done]. destruct H as [H1 H2 H3 H4 H7 [H5 H6]].
  pose proof (fun q => pts_at_set s p q x (f x) Ex) as Hat. split; auto.
  - intros q. unfold core_at. rewrite Hat. unfold cset. case_decide; [simpl; by rewrite Hc|]. apply H2.
  - intros q cq. unfold cset. case_decide; [|apply H7]. intros [= <-]. rewrite Hd. by apply (H7 p).
  - split; [done|]. intros q. rewrite Hat. simpl. rewrite H6. case_decide; [|done]. subst q.
    split; intros (y & Ey & Hy).
    + exists (f x). split; [done|]. rewrite Hq. congruence.
    + exists x. split; [done|]. injection Ey as <-. congruence.
Qed.

Lemma sees_ext V C G V' C' G' s : (forall a t, V a t = V' a t) -> (forall p, C p = C' p) -> (forall g, G g = G' g) -> sees V C G s -> sees V' C' G' s.
Proof. intros HV HC HG [H1 H2 H3 H4 H5 H6]. split; auto; try congruence. intros p c. rewrite <- HC. apply H5. Qed.

Lemma cset_same C p c : C p = Some c -> forall q, cset C p c q = C q.
Proof. intros E q. unfold cset. case_decide; congruence. Qed.

(** Changing a partition and the queue together. *)
Lemma sees_requeue V C G s p x y l : sees V C G s -> pts_at s p = Some x -> p_driver y = p_driver x -> NoDup l ->
  (forall q, q ∈ l <-> if decide (q = p) then p_queued y = true else q ∈ i_resize_list s) ->
  sees V (cset C p (core_of y)) G (set_pts (s <| i_resize_list := l |>) p y).
Proof.
  intros [H1 H2 H3 H4 H7 [H5 H6]] Ex Hd Hl Hq. set (s1 := s <| i_resize_list := l |>).
  assert (Hat : forall q, pts_at (set_pts s1 p y) q = if decide (q = p) then Some y else pts_at s q) by (intros q; exact (pts_at_set s1 p q x y Ex)).
  split; auto.
  - intros q. unfold core_at. rewrite Hat. unfold cset. case_decide; [done|]. apply H2.
  - intros q cq. unfold cset. case_decide; [|apply H7]. intros [= <-]. simpl. rewrite Hd.
    apply (H7 p (core_of x)). rewrite <- H2. unfold core_at. by rewrite Ex.
  - split; [done|]. intros q. rewrite Hat. simpl. rewrite Hq. case_decide; [|apply H6]. naive_solver.
Qed.

Lemma mod_pts_run s p x f : pts_at s p = Some x -> mod_pts p f s = Done tt (set_pts s p (f x)).
Proof. intros E. unfold mod_pts. by rewrite E. Qed.

Lemma wp_resize_list_add V C G s p c size Q : sees V C G s -> C p = Some c ->
  (forall s', sees V C G s' -> i_in_progress s' = i_in_progress s -> Q tt s') -> wp (pt_resize_list_add p size) Q s.
Proof.
  intros H E HQ. destruct (sees_pts _ _ _ _ _ _ H E) as (x & Ex & Hx). unfold pt_resize_list_add.
  apply wp_bind. eapply wp_get_pts; [done|]. destruct (negb (p_queued x) && p_enabled x && negb (p_size x =? size)) eqn:Eadd.
  - apply andb_prop in Eadd as [[Hnq%negb_true_iff _]%andb_prop _]. apply wp_bind. apply wp_bind. apply wp_mod.
    set (s1 := s <| i_resize_list := p :: i_resize_list s |>). assert (Ex1 : pts_at s1 p = Some x) by exact Ex.
    eapply wp_eq; [apply (mod_pts_run _ _ _ _ Ex1)|]. set (x1 := x <| p_queued := true |>).
    assert (Hnew : p ∉ i_resize_list s). { rewrite (qk_flag _ (ss_queue _ _ _ _ H)). intros (x' & Ex' & Hq). congruence. }
    assert (Hs : sees V (cset C p c) G (set_pts s1 p x1)).
    { rewrite <- Hx. change (core_of x) with (core_of x1). eapply sees_requeue; [done|done|done| |].
      - apply NoDup_cons. split; [done|apply H].
      - intros q. case_decide; subst; set_solver. }
    eapply wp_mod_pts with (c := c) (c' := c); [exact Hs|apply cset_eq|by intros y|done|]. intros s' Hs' Hip. apply HQ; [|done].
    eapply sees_ext; [done| |done|exact Hs']. intros q. rewrite !cset_same; [done|done|apply cset_eq].
  - apply wp_bind, wp_ret. eapply wp_mod_pts with (c := c) (c' := c); [done|done|by intros y|done|]. intros s' Hs' Hip. apply HQ; [|done].
    eapply sees_ext; [done| |done|exact Hs']. by apply cset_same.
Qed.

Lemma wp_resize_internal V C G s p c size Q : sees V C G s -> C p = Some c ->
  (forall s', sees V C G s' -> i_in_progress s' = i_in_progress s -> Q tt s') -> wp (pt_resize_internal p size) Q s.
Proof.
  intros H E HQ. unfold pt_resize_internal. destruct (sees_pts _ _ _ _ _ _ H E) as (x & Ex & Hx).
  assert (exists h, i_handles s !! fst p = Some h) as [h Eh].
  { unfold pts_at in Ex. destruct (snd p <? 0); [done|]. destruct (i_handles s !! fst p); [eauto|done]. }
  apply wp_bind. eapply wp_eq; [unfold get_handle; by rewrite Eh|]. destruct (h_callback h).
  - eapply wp_resize_list_add; eauto.
  - eapply wp_mod_pts with (c := c) (c' := c); [done|done|by intros y|done|]. intros s' Hs' Hip. apply HQ; [|done].
    eapply sees_ext; [done| |done|exact Hs']. by apply cset_same.
Qed.

Lemma wp_do_resizes V C G rs : (forall p size, (Some p, size) ∈ rs -> is_Some (C p)) -> forall s Q, sees V C G s ->
  (forall s', sees V C G s' -> i_in_progress s' = i_in_progress s -> Q tt s') -> wp (do_resizes rs) Q s.
Proof.
  induction rs as [|[[p|] size] rs IH]; intros Hrs s Q H HQ; [by apply HQ| |].
  - cbn [do_resizes]. destruct (Hrs p size) as [c E]; [left|]. apply wp_bind. eapply wp_resize_internal; [done|done|].
    intros s' Hs' Hip. apply IH; [intros; eapply Hrs; by right|done|]. intros s'' Hs'' Hip'. apply HQ; congruence.
  - cbn [do_resizes]. apply IH; [intros; eapply Hrs; by right|done|done].
Qed.

Lemma wp_flush V C G s p c Q : sees V C G s -> C p = Some c ->
  (forall s', sees V (cset C p (c <| k_enabled := false |>)) G s' -> i_in_progress s' = i_in_progress s -> Q (k_enabled c) s') ->
  wp (resize_list_flush p) Q s.
Proof.
  intros H E HQ. destruct (sees_pts _ _ _ _ _ _ H E) as (x & Ex & Hx). unfold resize_list_flush.
  apply wp_bind. eapply wp_get_pts; [done|]. apply wp_bind. set (c' := c <| k_enabled := false |>).
  eapply wp_mod_pts with (c := c) (c' := c'); [done|done|intros y <-; done|done|]. intros s1 H1 Hip.
  assert (He : p_enabled x = k_enabled c) by by rewrite <- Hx. rewrite He.
  destruct (p_queued x) eqn:Eq; [|apply wp_bind, wp_ret, wp_ret; by apply HQ].
  apply wp_bind, wp_bind, wp_mod. destruct (sees_pts _ _ _ _ p c' H1) as (y & Ey & Hy); [apply cset_eq|].
  set (l := filter _ _). set (s2 := s1 <| i_resize_list := l |>). assert (Ey2 : pts_at s2 p = Some y) by exact Ey.
  eapply wp_eq; [apply (mod_pts_run _ _ _ _ Ey2)|]. apply wp_ret, HQ; [|done].
  set (z := y <| p_queued := false |> <| p_size := 0 |>).
  eapply sees_ext with (C := cset (cset C p c') p (core_of z)); [done| |done|].
  - intros q. change (core_of z) with (core_of y). rewrite Hy. apply cset_same, cset_eq.
  - eapply sees_requeue; [done|exact Ey|done|apply NoDup_filter, H1|]. intros q. unfold l. rewrite list_elem_of_filter.
    case_decide; [|tauto]. subst. split; [tauto|done].
Qed.

(** Disabling waits only for a callback of the same partition. *)
Lemma wp_list_disable V C G s p c Q : sees V C G s -> C p = Some c -> i_in_progress s <> Some p ->
  (forall s', sees V (cset C p (c <| k_enabled := false |>)) G s' -> i_in_progress s' = i_in_progress s -> Q (k_enabled c) s') ->
  wp (pt_resize_list_disable p) Q s.
Proof.
  intros H E Hip HQ. unfold pt_resize_list_disable. apply wp_bind. eapply wp_flush; [done|done|]. intros s' Hs' Hip'.
  apply wp_bind, wp_get. rewrite bool_decide_eq_false_2 by congruence. apply wp_ret. by apply HQ.
Qed.

(** ** Operations of a driver *)

Definition rview (V : views) (a : Z) (m : gmap Z (option pts_ptr * bool)) : views := fun b u => if decide (b = a) then m !! u else V b u.

Lemma wp_drv_op {R} V C G s a d (f : pt_ops D -> M D R) r d' (Q : R -> pt_internal D -> Prop) : sees V C G s -> i_drivers s !! a = Some d ->
  f ops (dr_data d) = Done r d' -> pv_wf d' ->
  (forall s', sees (rview V a (pv_view d')) C G s' -> i_in_progress s' = i_in_progress s -> Q r s') -> wp (drv_op a f) Q s.
Proof.
  intros [H1 H2 H3 H4 H5 H6] Ed Hf Hw HQ. destruct (H4 a d Ed) as [Ho _]. eapply wp_eq.
  - unfold drv_op. rewrite Ed, Ho, Hf. done.
  - apply HQ; [|done]. split; auto.
    + intros b u. unfold view_at, rview. simpl. case_decide as Hb; [subst; by rewrite lookup_insert_eq|].
      rewrite lookup_insert_ne by done. apply H1.
    + intros b e. simpl. destruct (decide (b = a)) as [->|Hb]; [rewrite lookup_insert_eq; intros [= <-]; done|].
      rewrite lookup_insert_ne by done. apply H4.
    + intros p c Ec. simpl. destruct (decide (k_driver c = a)) as [->|Hb]; [rewrite lookup_insert_eq; eauto|].
      rewrite lookup_insert_ne by done. by apply (H5 p).
    + destruct H6 as [H6 H7]. by split.
Qed.

Lemma sees_driver V C G s a t e : sees V C G s -> V a t = Some e -> exists d, i_drivers s !! a = Some d /\ pv_wf (dr_data d) /\ pv_view (dr_data d) !! t = Some e.
Proof.
  intros H E. rewrite <- (ss_view _ _ _ _ H) in E. unfold view_at in E. destruct (i_drivers s !! a) as [d|] eqn:Ed; [|done].
  exists d. split; [done|]. split; [by apply (ss_drivers _ _ _ _ H a)|done].
Qed.

(** The view of a driver as its data has it. *)
Lemma rview_same V C G s a d : sees V C G s -> i_drivers s !! a = Some d -> forall b u, rview V a (pv_view (dr_data d)) b u = V b u.
Proof.
  intros H E b u. unfold rview. case_decide; [|done]. subst. rewrite <- (ss_view _ _ _ _ H). unfold view_at. by rewrite E.
Qed.

Lemma rview_insert V C G s a d t e : sees V C G s -> i_drivers s !! a = Some d ->
  forall b u, rview V a (<[t := e]> (pv_view (dr_data d))) b u = vset V a t (Some e) b u.
Proof.
  intros H E b u. unfold rview, vset. destruct (decide (b = a)) as [->|Hb]; [|rewrite decide_False by tauto; done].
  destruct (decide (u = t)) as [->|Hu]; [rewrite lookup_insert_eq, decide_True; done|].
  rewrite lookup_insert_ne, decide_False by naive_solver. rewrite <- (ss_view _ _ _ _ H). unfold view_at. by rewrite E.
Qed.

Lemma rview_delete V C G s a d t : sees V C G s -> i_drivers s !! a = Some d ->
  forall b u, rview V a (delete t (pv_view (dr_data d))) b u = vset V a t None b u.
Proof.
  intros H E b u. unfold rview, vset. destruct (decide (b = a)) as [->|Hb]; [|rewrite decide_False by tauto; done].
  destruct (decide (u = t)) as [->|Hu]; [rewrite lookup_delete_eq, decide_True; done|].
  rewrite lookup_delete_ne, decide_False by naive_solver. rewrite <- (ss_view _ _ _ _ H). unfold view_at. by rewrite E.
Qed.

(** Callbacks of a driver reach partitions that exist. *)
Definition owned (V : views) (C : cores) : Prop := forall a t p b, V a t = Some (Some p, b) -> is_Some (C p).

Lemma own_owned V C G : own V C G -> owned V C.
Proof. intros O a t p b E. destruct (ow_up _ _ _ O a t p b E) as (c & -> & _). eauto. Qed.

Lemma owned_cset V C p c : owned V C -> owned V (cset C p c).
Proof. intros H a t q b E. unfold cset. case_decide; [eauto|]. by eapply H. Qed.

Lemma owners_exist V C G s a d o rs : sees V C G s -> owned V C -> i_drivers s !! a = Some d -> to_owners (pv_view (dr_data d)) o rs ->
  (forall p, o = Some p -> is_Some (C p)) -> forall p size, (Some p, size) ∈ rs -> is_Some (C p).
Proof.
  intros H O E Ht Ho p size Hin. destruct (Ht p size Hin) as [(t & b & Ev)|Hp]; [|by apply Ho].
  apply (O a t p b). rewrite <- (ss_view _ _ _ _ H). unfold view_at. by rewrite E.
Qed.

(** ** Changes of owner *)

Lemma own_ext V C G V' C' : (forall a t, V a t = V' a t) -> (forall p, C p = C' p) -> own V C G -> own V' C' G.
Proof.
  intros HV HC [H1 H2 H3 H4 H5 H6]. split.
  - intros p c. rewrite <- HC, <- HV. apply H1.
  - intros p c. rewrite <- HC. apply H2.
  - intros a t p b. rewrite <- HV. intros (c & Hc & ?)%H3. exists c. by rewrite <- HC.
  - intros a t b. rewrite <- HV. apply H4.
  - intros g a t. rewrite <- HV. apply H5.
  - intros a t e. rewrite <- HV. apply H6.
Qed.

Lemma own_release V C G p c : own V C G -> C p = Some c -> k_ptid c <> PT_PTID_INVALID ->
  own (vset V (k_driver c) (k_ptid c) None) (cset C p (c <| k_ptid := PT_PTID_INVALID |> <| k_enabled := false |>)) G.
Proof.
  intros O E Hp. pose proof (ow_down _ _ _ O p c E Hp) as Hv. split.
  - intros q e. unfold cset. case_decide as Hq; [intros [= <-]; done|]. intros Eq Hn. pose proof (ow_down _ _ _ O q e Eq Hn) as He.
    rewrite vset_ne; [done|]. intros [Ha Ht]. rewrite Ha, Ht in He. congruence.
  - intros q e. unfold cset. case_decide as Hq; [intros [= <-]; done|]. apply O.
  - intros a t q b. unfold vset. case_decide as Hd; [done|]. intros Hb. destruct (ow_up _ _ _ O a t q b Hb) as (e & Ee & Ha & Ht).
    exists e. rewrite cset_ne; [done|]. intros ->. apply Hd. split; congruence.
  - intros a t b. unfold vset. case_decide; [done|]. apply O.
  - intros g a t Hg. pose proof (ow_globals _ _ _ O g a t Hg) as Hb. rewrite vset_ne; [done|]. intros [-> ->]. congruence.
  - intros a t e. unfold vset. case_decide; [done|]. apply O.
Qed.

Lemma own_claim V C G p c t b : own V C G -> C p = Some c -> k_ptid c = PT_PTID_INVALID -> t <> PT_PTID_INVALID ->
  V (k_driver c) t = None ->
  own (vset V (k_driver c) t (Some (Some p, b))) (cset C p (c <| k_ptid := t |> <| k_enabled := b |>)) G.
Proof.
  intros O E Hp Ht Hv. split.
  - intros q e. unfold cset. case_decide as Hq; [intros [= <-] _; subst; simpl; apply vset_eq|]. intros Eq Hn.
    pose proof (ow_down _ _ _ O q e Eq Hn) as He. rewrite vset_ne; [done|]. intros [Ha Hu]. rewrite Ha, Hu in He. congruence.
  - intros q e. unfold cset. case_decide as Hq; [intros [= <-]; simpl; done|]. apply O.
  - intros a u q e. unfold vset. case_decide as Hd; [destruct Hd as [-> ->]; intros [= <- <-]; eexists; by rewrite cset_eq|].
    intros Hb. destruct (ow_up _ _ _ O a u q e Hb) as (k & Ek & Ha & Hu). exists k. rewrite cset_ne; [done|]. intros ->.
    apply (ow_valid _ _ _ O a u _ Hb). congruence.
  - intros a u e. unfold vset. case_decide; [done|]. apply O.
  - intros g a u Hg. pose proof (ow_globals _ _ _ O g a u Hg) as Hb. rewrite vset_ne; [done|]. intros [-> ->]. congruence.
  - intros a u e. unfold vset. case_decide as Hd; [destruct Hd as [_ ->]; done|]. apply O.
Qed.

Lemma own_flip V C G p c b : own V C G -> C p = Some c -> k_ptid c <> PT_PTID_INVALID ->
  own (vset V (k_driver c) (k_ptid c) (Some (Some p, b))) (cset C p (c <| k_enabled := b |>)) G.
Proof.
  intros O E Hp. pose proof (own_release V C G p c O E Hp) as O1.
  pose proof (own_claim _ _ G p (c <| k_ptid := PT_PTID_INVALID |> <| k_enabled := false |>) (k_ptid c) b O1) as O2.
  eapply own_ext; [| |apply O2; [apply cset_eq|done|done|apply vset_eq]].
  - intros a t. unfold vset. simpl. by case_decide.
  - intros q. unfold cset. case_decide; [|done]. by destruct c.
Qed.

End Owner.
