(* ===== verification/PtClient.v ===== *)
(** * The client's operations

    With a driver that keeps the promises of [pt.h], enabling, disabling, freeing
    and mutating a partition call the driver within its conditions only, keep
    clients and drivers in agreement, and move the partition between three
    states: free, allocated, enabled. *)

From S2P Require Import Prelude Pt PtOwner.

Section Client.
Context {D : Type} (ops : pt_ops D) `{Spec : !PtDriverSpec ops}.
Implicit Types s : pt_internal D.

(** ** Calls of the driver *)

Lemma wp_check V C G s h id c Q : sees ops V C G s -> C (h, id) = Some c -> Q tt s -> wp (pt_handle_check h id) Q s.
Proof.
  intros H E HQ. destruct (sees_pts _ _ _ _ _ _ _ H E) as (x & Ex & _). unfold pts_at in Ex; simpl in Ex.
  destruct (Z.ltb_spec id 0); [done|]. destruct (i_handles s !! h) as [hd|] eqn:Eh; [|done]. simpl in Ex. apply lookup_lt_Some in Ex.
  unfold pt_handle_check. apply wp_bind. eapply wp_eq; [unfold get_handle; by rewrite Eh|].
  destruct (Z.geb_spec id (Z.of_nat (length (h_pts hd)))); [lia|]. destruct (Z.ltb_spec id 0); [lia|]. done.
Qed.

(** A call with its callbacks. *)
Lemma wp_call {R B} V C G s a d (f : pt_ops D -> M D R) (rs : R -> resizes) r d' o (k : R -> M (pt_internal D) B) (Q' : B -> pt_internal D -> Prop) :
  sees ops V C G s -> owned V C -> i_drivers s !! a = Some d -> f ops (dr_data d) = Done r d' -> pv_wf d' ->
  to_owners (pv_view (dr_data d)) o (rs r) -> (forall p, o = Some p -> is_Some (C p)) ->
  (forall s', sees ops (rview V a (pv_view d')) C G s' -> i_in_progress s' = i_in_progress s -> wp (k r) Q' s') ->
  wp (let! r := drv_op a f in do! do_resizes (rs r) in k r) Q' s.
Proof.
  intros H Ho Ed Hf Hw Ht Hp HQ. apply wp_bind. eapply wp_drv_op; [done|done|done|done|]. intros s1 H1 Hip1.
  apply wp_bind. eapply wp_do_resizes; [|exact H1|].
  - exact (owners_exist ops V C G s a d o (rs r) H Ho Ed Ht Hp).
  - intros s2 H2 Hip2. apply HQ; [done|congruence].
Qed.

Lemma wp_driver_alloc V C G s h id c Q : sees ops V C G s -> own V C G -> C (h, id) = Some c -> k_ptid c = PT_PTID_INVALID ->
  (forall s', sees ops V C G s' -> i_in_progress s' = i_in_progress s -> Q false s') ->
  (forall t s', t <> PT_PTID_INVALID -> V (k_driver c) t = None -> i_in_progress s' = i_in_progress s ->
     sees ops (vset V (k_driver c) t (Some (Some (h, id), false))) (cset C (h, id) (c <| k_ptid := t |>)) G s' -> Q true s') ->
  wp (pt_driver_alloc h id) Q s.
Proof.
  intros H O E Hp Hno Hyes. destruct (sees_pts _ _ _ _ _ _ _ H E) as (x & Ex & <-). unfold pt_driver_alloc.
  apply wp_bind. eapply wp_get_pts; [done|]. destruct (ss_live _ _ _ _ _ H _ _ E) as [d Ed]. simpl in Ed, Hyes.
  destruct (ss_drivers _ _ _ _ _ H _ _ Ed) as [_ Hw].
  destruct (pv_alloc (dr_data d) (p_property_index x) (Some (h, id)) Hw) as (t & rs & d' & Hrun & Hw' & Ht & Hcase).
  eapply (wp_call V C G s _ d _ snd); [done|by eapply own_owned|done|exact Hrun|done|exact Ht|intros p [= <-]; eauto|].
  intros s1 H1 Hip. cbn [fst snd]. destruct Hcase as [[-> Hv]|(Hne & Hfree & Hv)]; rewrite Hv in H1.
  - rewrite Z.eqb_refl. apply wp_bind, wp_ret, wp_ret, Hno; [|done]. eapply sees_ext; [|done|done|exact H1].
    by eapply rview_same.
  - apply Z.eqb_neq in Hne as Hne'. rewrite Hne'. apply wp_bind.
    eapply wp_mod_pts with (c := core_of x) (c' := (core_of x) <| k_ptid := t |>); [exact H1|done| |done|].
    + intros y Hy. rewrite <- Hy. done.
    + intros s2 H2 Hip2. apply wp_ret. apply (Hyes t); [done| |congruence|].
      * rewrite <- (ss_view _ _ _ _ _ H). unfold view_at. by rewrite Ed.
      * eapply sees_ext; [|done|done|exact H2]. by eapply rview_insert.
Qed.

(** Enabling and disabling: the ptid is the partition's, allocated and in the other state. *)
Lemma wp_driver_enable V C G s h id c Q : sees ops V C G s -> owned V C -> C (h, id) = Some c ->
  V (k_driver c) (k_ptid c) = Some (Some (h, id), false) ->
  (forall s', sees ops (vset V (k_driver c) (k_ptid c) (Some (Some (h, id), true))) C G s' -> i_in_progress s' = i_in_progress s -> Q tt s') ->
  wp (pt_driver_enable h id) Q s.
Proof.
  intros H O E Hv HQ. destruct (sees_pts _ _ _ _ _ _ _ H E) as (x & Ex & <-). simpl in *. unfold pt_driver_enable.
  apply wp_bind. eapply wp_get_pts; [done|]. destruct (sees_driver _ _ _ _ _ _ _ _ H Hv) as (d & Ed & Hw & Hd).
  destruct (pv_enable (dr_data d) _ _ Hw Hd) as (rs & d' & Hrun & Hw' & Ht & Hv').
  apply wp_bind. eapply wp_drv_op; [done|done|exact Hrun|done|]. intros s1 H1 Hip1.
  eapply wp_do_resizes; [|exact H1|].
  - apply (owners_exist ops V C G s _ d None rs H O Ed Ht). done.
  - intros s2 H2 Hip2. apply HQ; [|congruence]. eapply sees_ext; [|done|done|exact H2]. rewrite Hv'. by eapply rview_insert.
Qed.

Lemma wp_driver_disable V C G s h id c Q : sees ops V C G s -> owned V C -> C (h, id) = Some c ->
  V (k_driver c) (k_ptid c) = Some (Some (h, id), true) ->
  (forall s', sees ops (vset V (k_driver c) (k_ptid c) (Some (Some (h, id), false))) C G s' -> i_in_progress s' = i_in_progress s -> Q tt s') ->
  wp (pt_driver_disable h id) Q s.
Proof.
  intros H O E Hv HQ. destruct (sees_pts _ _ _ _ _ _ _ H E) as (x & Ex & <-). simpl in *. unfold pt_driver_disable.
  apply wp_bind. eapply wp_get_pts; [done|]. destruct (sees_driver _ _ _ _ _ _ _ _ H Hv) as (d & Ed & Hw & Hd).
  destruct (pv_disable (dr_data d) _ _ Hw Hd) as (rs & d' & Hrun & Hw' & Ht & Hv').
  apply wp_bind. eapply wp_drv_op; [done|done|exact Hrun|done|]. intros s1 H1 Hip1.
  eapply wp_do_resizes; [|exact H1|].
  - apply (owners_exist ops V C G s _ d None rs H O Ed Ht). done.
  - intros s2 H2 Hip2. apply HQ; [|congruence]. eapply sees_ext; [|done|done|exact H2]. rewrite Hv'. by eapply rview_insert.
Qed.

Lemma wp_driver_free V C G s h id c Q : sees ops V C G s -> owned V C -> C (h, id) = Some c ->
  V (k_driver c) (k_ptid c) = Some (Some (h, id), false) ->
  (forall s', sees ops (vset V (k_driver c) (k_ptid c) None) (cset C (h, id) (c <| k_ptid := PT_PTID_INVALID |>)) G s' ->
     i_in_progress s' = i_in_progress s -> Q tt s') ->
  wp (pt_driver_free h id) Q s.
Proof.
  intros H O E Hv HQ. destruct (sees_pts _ _ _ _ _ _ _ H E) as (x & Ex & <-). simpl in Hv. unfold pt_driver_free.
  apply wp_bind. eapply wp_get_pts; [done|]. destruct (sees_driver _ _ _ _ _ _ _ _ H Hv) as (d & Ed & Hw & Hd).
  destruct (pv_free (dr_data d) _ _ Hw Hd) as (rs & d' & Hrun & Hw' & Ht & Hv').
  eapply (wp_call V C G s _ d _ (fun r => r)); [done|done|done|exact Hrun|done|exact Ht|done|]. intros s1 H1 Hip1.
  eapply wp_mod_pts with (c := core_of x) (c' := (core_of x) <| k_ptid := PT_PTID_INVALID |>); [exact H1|done|by intros y <-|done|].
  intros s2 H2 Hip2. apply HQ; [|congruence]. eapply sees_ext; [|done|done|exact H2]. rewrite Hv'. by eapply rview_delete.
Qed.

Lemma wp_driver_mutate V C G s h i j c e Q : sees ops V C G s -> owned V C -> i <> j -> C (h, i) = Some c -> C (h, j) = Some e ->
  V (k_driver c) (k_ptid c) = Some (Some (h, i), true) ->
  (forall s', sees ops V C G s' -> i_in_progress s' = i_in_progress s -> Q PT_PTID_INVALID s') ->
  (forall s', k_ptid c <> PT_PTID_INVALID -> i_in_progress s' = i_in_progress s ->
     sees ops (vset V (k_driver c) (k_ptid c) (Some (Some (h, j), true)))
       (cset (cset C (h, i) (c <| k_ptid := PT_PTID_INVALID |> <| k_enabled := false |>)) (h, j) (e <| k_ptid := k_ptid c |> <| k_enabled := true |>)) G s' ->
     Q (k_ptid c) s') ->
  wp (pt_driver_mutate h i j) Q s.
Proof.
  intros H O Hij E Ee Hv Hno Hyes. destruct (sees_pts _ _ _ _ _ _ _ H E) as (x & Ex & <-).
  destruct (sees_pts _ _ _ _ _ _ _ H Ee) as (y & Ey & <-). simpl in Hv, Hyes. unfold pt_driver_mutate.
  apply wp_bind. eapply wp_get_pts; [done|]. apply wp_bind. eapply wp_get_pts; [done|].
  destruct (sees_driver _ _ _ _ _ _ _ _ H Hv) as (d & Ed & Hw & Hd).
  destruct (pv_mutate (dr_data d) _ _ (h, j) (p_property_index y) Hw Hd) as (r & rs & d' & Hrun & Hw' & Ht & Hcase).
  eapply (wp_call V C G s _ d _ snd); [done|done|done|exact Hrun|done|exact Ht|intros p [= <-]; eauto|].
  intros s1 H1 Hip. cbn [fst snd]. pose proof (pv_valid (dr_data d) _ _ Hw Hd) as Hval.
  destruct Hcase as [[-> Hv']|[-> Hv']]; rewrite Hv' in H1.
  - rewrite Z.eqb_refl. apply wp_bind, wp_ret, wp_ret, Hno; [|done]. eapply sees_ext; [|done|done|exact H1]. by eapply rview_same.
  - apply Z.eqb_neq in Hval as Hv0. rewrite Hv0. apply wp_bind.
    assert (Hne : (h, j) <> (h, i)) by congruence.
    apply wp_bind. eapply wp_mod_pts with (c := core_of x) (c' := (core_of x) <| k_ptid := PT_PTID_INVALID |>); [exact H1|done|by intros z <-|done|].
    intros s2 H2 Hip2. apply wp_bind.
    eapply wp_mod_pts with (c := core_of y) (c' := (core_of y) <| k_ptid := p_ptid x |>); [exact H2|by rewrite cset_ne|by intros z <-|done|].
    intros s3 H3 Hip3. apply wp_bind.
    eapply wp_mod_pts with (c := (core_of x) <| k_ptid := PT_PTID_INVALID |>) (c' := (core_of x) <| k_ptid := PT_PTID_INVALID |> <| k_enabled := false |>);
      [exact H3|rewrite cset_ne by congruence; apply cset_eq|intros z Hz; by rewrite <- Hz|done|].
    intros s4 H4 Hip4.
    eapply wp_mod_pts with (c := (core_of y) <| k_ptid := p_ptid x |>) (c' := (core_of y) <| k_ptid := p_ptid x |> <| k_enabled := true |>);
      [exact H4|rewrite cset_ne by congruence; apply cset_eq|intros z Hz; by rewrite <- Hz|done|].
    intros s5 H5 Hip5. apply wp_ret, Hyes; [done|congruence|]. eapply sees_ext; [by eapply rview_insert| |done|exact H5].
    intros q. unfold cset. repeat case_decide; first [reflexivity | congruence].
Qed.

(** ** What the client sees *)

Inductive part := Free | Allocated (ptid : Z) | Enabled (ptid : Z).
Definition part_of (c : core) : part :=
  if k_ptid c =? PT_PTID_INVALID then Free else if k_enabled c then Enabled (k_ptid c) else Allocated (k_ptid c).

(** After disabling, and after freeing. *)
Definition disabled_part (q : part) : part := match q with Free => Free | Allocated t => Allocated t | Enabled t => Allocated t end.
Definition freed_part (q : part) : part := match q with Free => Free | Allocated _ => Free | Enabled t => Enabled t end.

(** A state in which clients and drivers agree. *)
Definition agree s : Prop := exists V C G, sees ops V C G s /\ own V C G.

(** [s'] agrees too, and only partition [p] has changed, to [q]; its driver is the same. *)
Definition moved s p (q : part) s' : Prop := agree s' /\ i_in_progress s' = i_in_progress s /\
  (exists c', core_at s' p = Some c' /\ part_of c' = q /\ exists c, core_at s p = Some c /\ k_driver c' = k_driver c) /\
  forall r, r <> p -> core_at s' r = core_at s r.

Lemma moved_intro V C G s V' s' p c c' : sees ops V C G s -> C p = Some c -> sees ops V' (cset C p c') G s' -> own V' (cset C p c') G ->
  k_driver c' = k_driver c -> i_in_progress s' = i_in_progress s -> moved s p (part_of c') s'.
Proof.
  intros H E H' O' Hd Hip. split; [by exists V', (cset C p c'), G|]. split; [done|]. split.
  - exists c'. rewrite (ss_core _ _ _ _ _ H'), cset_eq. split; [done|]. split; [done|]. exists c. by rewrite (ss_core _ _ _ _ _ H).
  - intros r Hr. rewrite (ss_core _ _ _ _ _ H'), (ss_core _ _ _ _ _ H). by apply cset_ne.
Qed.

Lemma own_cset_same V C G p c : C p = Some c -> own V C G -> own V (cset C p c) G.
Proof. intros E. apply own_ext; [done|]. intros q. symmetry. by apply cset_same. Qed.

Lemma moved_same V C G s s' p c : sees ops V C G s -> C p = Some c -> sees ops V C G s' -> own V C G ->
  i_in_progress s' = i_in_progress s -> moved s p (part_of c) s'.
Proof.
  intros H E H' O Hip. eapply moved_intro; [done|done| |by eapply own_cset_same|done|done].
  eapply sees_ext; [done| |done|done]. intros q. symmetry. by apply cset_same.
Qed.

Lemma part_free c : part_of c = Free <-> k_ptid c = PT_PTID_INVALID.
Proof. unfold part_of. destruct (Z.eqb_spec (k_ptid c) PT_PTID_INVALID); [done|]. by destruct (k_enabled c). Qed.
Lemma part_alloc c t : part_of c = Allocated t <-> k_ptid c = t /\ t <> PT_PTID_INVALID /\ k_enabled c = false.
Proof. unfold part_of. destruct (Z.eqb_spec (k_ptid c) PT_PTID_INVALID); [naive_solver|]. destruct (k_enabled c); naive_solver. Qed.
Lemma part_enabled c t : part_of c = Enabled t <-> k_ptid c = t /\ t <> PT_PTID_INVALID /\ k_enabled c = true.
Proof. unfold part_of. destruct (Z.eqb_spec (k_ptid c) PT_PTID_INVALID); [naive_solver|]. destruct (k_enabled c); naive_solver. Qed.

(** What a partition is, in a state that agrees. *)
Definition part_at s p : option part := part_of <$> core_at s p.

(** Enabling an allocated partition that the driver has in the other state. *)
Lemma wp_enable_allocated V C G s h id c Q : sees ops V C G s -> own V C G -> C (h, id) = Some c -> k_ptid c <> PT_PTID_INVALID -> k_enabled c = false ->
  (forall size s', sees ops (vset V (k_driver c) (k_ptid c) (Some (Some (h, id), true))) C G s' -> i_in_progress s' = i_in_progress s ->
     Q (k_ptid c, Some size) s') ->
  wp (do! pt_driver_enable h id in let! x := get_pts (h, id) in kret (k_ptid c, Some (p_size x))) Q s.
Proof.
  intros H O E Hp He HQ. apply wp_bind. eapply wp_driver_enable; [done|by eapply own_owned|done| |].
  - rewrite <- He. by apply O.
  - intros s' H' Hip. destruct (sees_pts _ _ _ _ _ _ _ H' E) as (x & Ex & _). apply wp_bind. eapply wp_get_pts; [done|].
    apply wp_ret. by apply HQ.
Qed.

(** The handle locked: the driver has enabled the partition, the client not yet. *)
Lemma wp_enable_locked V C G s h id c Q : sees ops V C G s -> own V C G -> C (h, id) = Some c -> k_enabled c = false ->
  (forall size s', k_ptid c = PT_PTID_INVALID -> sees ops V C G s' -> i_in_progress s' = i_in_progress s -> Q (PT_PTID_INVALID, Some size) s') ->
  (forall t size V' s', t <> PT_PTID_INVALID -> (k_ptid c = PT_PTID_INVALID \/ k_ptid c = t) -> i_in_progress s' = i_in_progress s ->
     own V' (cset C (h, id) (c <| k_ptid := t |>)) G ->
     sees ops (vset V' (k_driver c) t (Some (Some (h, id), true))) (cset C (h, id) (c <| k_ptid := t |>)) G s' -> Q (t, Some size) s') ->
  wp (enable_size_locked h id) Q s.
Proof.
  intros H O E He Hno Hyes. destruct (sees_pts _ _ _ _ _ _ _ H E) as (x & Ex & Hx). unfold enable_size_locked.
  apply wp_bind. eapply wp_check; [done|done|]. apply wp_bind. eapply wp_get_pts; [done|].
  assert (Hex : p_enabled x = false) by (rewrite <- He, <- Hx; done). rewrite Hex.
  assert (Hpx : p_ptid x = k_ptid c) by by rewrite <- Hx. rewrite Hpx.
  assert (Hrest : forall V' c' s', sees ops V' (cset C (h, id) c') G s' -> own V' (cset C (h, id) c') G -> k_enabled c' = false ->
    k_ptid c' <> PT_PTID_INVALID -> c' = c <| k_ptid := k_ptid c' |> -> (k_ptid c = PT_PTID_INVALID \/ k_ptid c = k_ptid c') -> i_in_progress s' = i_in_progress s ->
    wp (let! x := get_pts (h, id) in let ptid := p_ptid x in
        do! (if ptid =? PT_PTID_INVALID then kret tt else pt_driver_enable h id) in
        let! x := get_pts (h, id) in kret (ptid, Some (p_size x))) Q s').
  { intros V' c' s' H' O' He' Hp' Hc' Hor Hip. destruct (sees_pts _ _ _ _ _ _ _ H' (cset_eq C (h, id) c')) as (y & Ey & Hy).
    apply wp_bind. eapply wp_get_pts; [done|]. cbv zeta. assert (Hpy : p_ptid y = k_ptid c') by by rewrite <- Hy. rewrite Hpy.
    apply Z.eqb_neq in Hp' as Hp0. rewrite Hp0. eapply (wp_enable_allocated V' (cset C (h, id) c') G s' h id c'); auto using cset_eq.
    intros size s'' H'' Hip''. assert (Hd : k_driver c' = k_driver c) by by rewrite Hc'. rewrite Hd in H''.
    apply (Hyes (k_ptid c') size V'); auto; [congruence| |]; by rewrite <- Hc'. }
  destruct (Z.eqb_spec (k_ptid c) PT_PTID_INVALID) as [Hp|Hp].
  - apply wp_bind, wp_bind. eapply wp_driver_alloc; [done|done|done|done| |].
    + intros s1 H1 Hip1. apply wp_ret. destruct (sees_pts _ _ _ _ _ _ _ H1 E) as (y & Ey & Hy). apply wp_bind. eapply wp_get_pts; [done|].
      cbv zeta. assert (Hpy : p_ptid y = PT_PTID_INVALID) by (rewrite <- Hp, <- Hy; done). rewrite Hpy, Z.eqb_refl.
      apply wp_bind, wp_ret, wp_bind. eapply wp_get_pts; [done|]. apply wp_ret. by apply Hno.
    + intros t s1 Ht Hv Hip1 H1. apply wp_ret. apply (Hrest _ _ _ H1); [|done|done|done|by left|done].
      pose proof (own_claim V C G (h, id) c t false O E Hp Ht Hv) as O'. eapply own_ext; [done| |exact O'].
      intros q. unfold cset. case_decide; [|done]. f_equal. destruct c; simpl in *. by rewrite He.
  - apply wp_bind, wp_ret. apply (Hrest V c s); auto.
    + eapply sees_ext; [done| |done|exact H]. intros q. symmetry. by apply cset_same.
    + by apply own_cset_same.
    + by destruct c.
Qed.

(** ** The operations *)

Lemma part_at_core s p q : part_at s p = Some q -> exists c, core_at s p = Some c /\ part_of c = q.
Proof. unfold part_at. destruct (core_at s p) as [c|]; [|done]. intros [= <-]. eauto. Qed.

Lemma wp_client_enable s h id q : agree s -> part_at s (h, id) = Some q ->
  wp (pt_client_enable_size h id) (fun r s' =>
    match q with
    | Enabled _ => r = (- EINVAL, None) /\ s' = s
    | Allocated t => fst r = t /\ moved s (h, id) (Enabled t) s'
    | Free => fst r = PT_PTID_INVALID /\ moved s (h, id) Free s' \/ fst r <> PT_PTID_INVALID /\ moved s (h, id) (Enabled (fst r)) s'
    end) s.
Proof.
  intros (V & C & G & H & O) (c & E & <-)%part_at_core. rewrite (ss_core _ _ _ _ _ H) in E.
  unfold pt_client_enable_size. apply wp_bind. destruct (k_enabled c) eqn:He.
  - assert (Hp : k_ptid c <> PT_PTID_INVALID) by (intros Hp; pose proof (ow_free _ _ _ O _ _ E Hp); congruence).
    assert (part_of c = Enabled (k_ptid c)) as -> by by apply part_enabled.
    destruct (sees_pts _ _ _ _ _ _ _ H E) as (x & Ex & Hx). unfold enable_size_locked.
    apply wp_bind. eapply wp_check; [done|done|]. apply wp_bind. eapply wp_get_pts; [done|].
    assert (p_enabled x = true) as -> by (rewrite <- He, <- Hx; done). apply wp_ret. done.
  - eapply wp_enable_locked; [done|done|done|done| |].
    + intros size s' Hp H' Hip. cbn [fst snd]. rewrite Z.eqb_refl. apply wp_bind, wp_ret, wp_ret.
      assert (part_of c = Free) as Hf by by apply part_free. rewrite Hf. left. split; [done|]. rewrite <- Hf. by eapply moved_same.
    + intros t size V' s1 Ht Hor Hip1 O1 H1. cbn [fst snd]. apply Z.eqb_neq in Ht as Ht0. rewrite Ht0. apply wp_bind.
      set (c1 := c <| k_ptid := t |>) in *. set (c2 := c1 <| k_enabled := true |>).
      eapply wp_mod_pts with (c := c1) (c' := c2); [exact H1|apply cset_eq|intros y Hy; unfold c2; by rewrite <- Hy|done|].
      intros s2 H2 Hip2. apply wp_ret. assert (Hm : moved s (h, id) (Enabled t) s2).
      { assert (Enabled t = part_of c2) as -> by (symmetry; by apply part_enabled).
        assert (Hcc : forall r, cset (cset C (h, id) c1) (h, id) c2 r = cset C (h, id) c2 r) by (intros r; unfold cset; by case_decide).
        eapply moved_intro with (c := c); [done|done|eapply sees_ext; [done|exact Hcc|done|exact H2]| |done|congruence].
        eapply own_ext; [done|exact Hcc|]. exact (own_flip V' _ G (h, id) c1 true O1 (cset_eq _ _ _) Ht). }
      destruct (part_of c) as [|u|u] eqn:Epart; cbn [fst].
      * by right.
      * apply part_alloc in Epart as (Hu & Hu' & _). destruct Hor as [Hi|Hi]; [congruence|]. assert (u = t) as -> by congruence. done.
      * apply part_enabled in Epart as (_ & _ & ?). congruence.
Qed.

Lemma wp_client_disable_no_free s h id q : agree s -> part_at s (h, id) = Some q -> i_in_progress s <> Some (h, id) ->
  wp (pt_client_disable_no_free h id) (fun _ s' => moved s (h, id) (disabled_part q) s') s.
Proof.
  intros (V & C & G & H & O) (c & E & <-)%part_at_core Hip. rewrite (ss_core _ _ _ _ _ H) in E.
  unfold pt_client_disable_no_free. apply wp_bind. eapply wp_check; [done|done|]. apply wp_bind.
  eapply wp_list_disable; [done|done|done|]. intros s1 H1 Hip1. set (c1 := c <| k_enabled := false |>) in *.
  destruct (k_enabled c) eqn:He; cbn [negb].
  - assert (Hp : k_ptid c <> PT_PTID_INVALID) by (intros Hp; pose proof (ow_free _ _ _ O _ _ E Hp); congruence).
    assert (part_of c = Enabled (k_ptid c)) as -> by by apply part_enabled.
    cbn [disabled_part]. assert (Allocated (k_ptid c) = part_of c1) as -> by (symmetry; by apply part_alloc).
    eapply wp_driver_disable; [exact H1|apply owned_cset; by eapply own_owned|apply cset_eq| |].
    + simpl. rewrite <- He. by apply O.
    + intros s2 H2 Hip2. eapply moved_intro with (c := c); [done|done|exact H2| |done|congruence].
      exact (own_flip V C G (h, id) c false O E Hp).
  - apply wp_ret. assert (Hc : c1 = c) by (destruct c; simpl in *; unfold c1; by rewrite He). rewrite Hc in H1.
    assert (Hq : disabled_part (part_of c) = part_of c).
    { destruct (part_of c) eqn:Ep; [done|done|]. apply part_enabled in Ep as (_ & _ & ?). congruence. }
    rewrite Hq. eapply moved_same; [done|done| |done|done]. eapply sees_ext; [done| |done|exact H1]. by apply cset_same.
Qed.

Lemma wp_client_free s h id q : agree s -> part_at s (h, id) = Some q ->
  wp (pt_client_free h id) (fun _ s' => moved s (h, id) (freed_part q) s') s.
Proof.
  intros (V & C & G & H & O) (c & E & <-)%part_at_core. rewrite (ss_core _ _ _ _ _ H) in E.
  destruct (sees_pts _ _ _ _ _ _ _ H E) as (x & Ex & Hx). unfold pt_client_free. apply wp_bind. eapply wp_check; [done|done|].
  apply wp_bind. eapply wp_get_pts; [done|]. assert (p_enabled x = k_enabled c) as -> by by rewrite <- Hx.
  assert (p_ptid x = k_ptid c) as -> by by rewrite <- Hx. destruct (k_enabled c) eqn:He.
  - assert (Hp : k_ptid c <> PT_PTID_INVALID) by (intros Hp; pose proof (ow_free _ _ _ O _ _ E Hp); congruence).
    apply wp_ret. assert (Hf : part_of c = Enabled (k_ptid c)) by by apply part_enabled. rewrite Hf. cbn [freed_part]. rewrite <- Hf. by eapply moved_same.
  - destruct (Z.eqb_spec (k_ptid c) PT_PTID_INVALID) as [Hp|Hp].
    + apply wp_ret. assert (Hf : part_of c = Free) by by apply part_free. rewrite Hf. cbn [freed_part]. rewrite <- Hf. by eapply moved_same.
    + assert (part_of c = Allocated (k_ptid c)) as -> by by apply part_alloc. cbn [freed_part].
      eapply wp_driver_free; [done|by eapply own_owned|done|rewrite <- He; by apply O|]. intros s1 H1 Hip1.
      set (c1 := c <| k_ptid := PT_PTID_INVALID |>) in *. assert (Free = part_of c1) as -> by (symmetry; by apply part_free).
      eapply moved_intro with (c := c); [done|done|exact H1| |done|done].
      eapply own_ext; [done| |exact (own_release V C G (h, id) c O E Hp)].
      intros r. unfold cset. case_decide; [|done]. f_equal. unfold c1. destruct c; simpl in *. by rewrite He.
Qed.

Lemma moved_part s p q s' : moved s p q s' -> part_at s' p = Some q.
Proof. intros (_ & _ & (c & E & <- & _) & _). unfold part_at. by rewrite E. Qed.

Lemma moved_trans s p q s1 q' s2 : moved s p q s1 -> moved s1 p q' s2 -> moved s p q' s2.
Proof.
  intros (_ & Hip & (c & E & _ & c0 & E0 & Hd) & Ho) (Ha & Hip' & (c' & E' & Hq & c1 & E1 & Hd') & Ho').
  split; [done|]. split; [congruence|]. split.
  - exists c'. split; [done|]. split; [done|]. exists c0. split; [done|]. congruence.
  - intros r Hr. by rewrite Ho', Ho.
Qed.

Lemma wp_client_disable s h id q : agree s -> part_at s (h, id) = Some q -> i_in_progress s <> Some (h, id) ->
  wp (pt_client_disable h id) (fun _ s' => moved s (h, id) Free s') s.
Proof.
  intros Ha E Hip. unfold pt_client_disable. apply wp_bind. eapply wp_mono; [by apply (wp_client_disable_no_free s h id q)|].
  intros [] s1 Hm. eapply wp_mono; [apply (wp_client_free s1 h id (disabled_part q)); [apply Hm|by eapply moved_part]|].
  intros [] s2 Hm2. assert (freed_part (disabled_part q) = Free) as Hf by by destruct q. rewrite Hf in Hm2. by eapply moved_trans.
Qed.

(** Mutating hands the ptid over; nothing may be allocated for the new partition. *)
Lemma wp_client_mutate s h i j c e : agree s -> i <> j -> core_at s (h, i) = Some c -> core_at s (h, j) = Some e ->
  (k_driver c = k_driver e -> k_enabled c = true -> k_enabled e = false -> k_ptid e = PT_PTID_INVALID) ->
  wp (pt_client_mutate h i j) (fun r s' => agree s' /\ i_in_progress s' = i_in_progress s /\
    (r = PT_PTID_INVALID /\ (forall p, core_at s' p = core_at s p) \/
     part_of c = Enabled r /\ part_of e = Free /\ part_at s' (h, i) = Some Free /\ part_at s' (h, j) = Some (Enabled r) /\
     forall p, p <> (h, i) -> p <> (h, j) -> core_at s' p = core_at s p)) s.
Proof.
  intros (V & C & G & H & O) Hij E Ee Hfree. rewrite (ss_core _ _ _ _ _ H) in E, Ee.
  destruct (sees_pts _ _ _ _ _ _ _ H E) as (x & Ex & Hx). destruct (sees_pts _ _ _ _ _ _ _ H Ee) as (y & Ey & Hy).
  unfold pt_client_mutate. apply wp_bind. eapply wp_get_pts; [done|]. apply wp_bind. eapply wp_get_pts; [done|].
  assert (p_driver x = k_driver c) as -> by by rewrite <- Hx. assert (p_driver y = k_driver e) as -> by by rewrite <- Hy.
  assert (p_enabled x = k_enabled c) as -> by by rewrite <- Hx. assert (p_enabled y = k_enabled e) as -> by by rewrite <- Hy.
  assert (Hsame : forall s', sees ops V C G s' -> forall p, core_at s' p = core_at s p).
  { intros s' H' p. by rewrite (ss_core _ _ _ _ _ H'), (ss_core _ _ _ _ _ H). }
  assert (Hstay : agree s /\ i_in_progress s = i_in_progress s /\ (PT_PTID_INVALID = PT_PTID_INVALID /\ (forall p, core_at s p = core_at s p) \/
     part_of c = Enabled PT_PTID_INVALID /\ part_of e = Free /\ part_at s (h, i) = Some Free /\ part_at s (h, j) = Some (Enabled PT_PTID_INVALID) /\
     forall p, p <> (h, i) -> p <> (h, j) -> core_at s p = core_at s p)).
  { split; [by exists V, C, G|]. split; [done|]. by left. }
  destruct (Z.eqb_spec (k_driver c) (k_driver e)) as [Hd|Hd]; cbn [negb]; [|apply wp_ret, Hstay].
  apply wp_bind. eapply wp_check; [done|done|]. apply wp_bind. eapply wp_check; [done|done|].
  destruct (k_enabled c) eqn:He; [|apply wp_ret, Hstay]. destruct (k_enabled e) eqn:Hee; [apply wp_ret, Hstay|]. cbn [negb orb].
  assert (Hp : k_ptid c <> PT_PTID_INVALID) by (intros Hp; pose proof (ow_free _ _ _ O _ _ E Hp); congruence).
  specialize (Hfree Hd eq_refl eq_refl).
  eapply wp_driver_mutate; [done|by eapply own_owned|done|done|done|rewrite <- He; by apply O| |].
  - intros s' H' Hip. split; [by exists V, C, G|]. split; [done|]. left. split; [done|]. by apply Hsame.
  - intros s' _ Hip H'. set (c1 := c <| k_ptid := PT_PTID_INVALID |> <| k_enabled := false |>) in *.
    set (e1 := e <| k_ptid := k_ptid c |> <| k_enabled := true |>) in *.
    pose proof (own_release V C G (h, i) c O E Hp) as O1. fold c1 in O1.
    assert (Ee1 : cset C (h, i) c1 (h, j) = Some e) by (rewrite cset_ne by congruence; done).
    pose proof (own_claim _ _ G (h, j) e (k_ptid c) true O1 Ee1 Hfree Hp) as O2. fold e1 in O2. rewrite <- Hd in O2.
    specialize (O2 (vset_eq _ _ _ _)). split; [eexists _, _, G; split; [exact H'|]; eapply own_ext; [|done|exact O2]; intros a t; unfold vset; by case_decide|].
    split; [done|]. right. split; [by apply part_enabled|]. split; [by apply part_free|]. unfold part_at. rewrite !(ss_core _ _ _ _ _ H').
    split; [rewrite cset_ne by congruence; rewrite cset_eq; simpl; f_equal; by apply part_free|].
    split; [rewrite cset_eq; simpl; f_equal; by apply part_enabled|].
    intros p Hpi Hpj. rewrite (ss_core _ _ _ _ _ H'), (ss_core _ _ _ _ _ H). by rewrite !cset_ne.
Qed.

(** ** The thread and the driver's own callbacks *)

Lemma wp_list_next s : agree s -> wp pt_resize_list_next (fun r s' => agree s' /\ (forall p, core_at s' p = core_at s p) /\
  i_in_progress s' = fst <$> r /\ forall p size, r = Some (p, size) -> exists x, pts_at s p = Some x /\ p_size x = size /\ p ∉ i_resize_list s') s.
Proof.
  intros (V & C & G & H & O). unfold pt_resize_list_next. apply wp_bind, wp_get.
  assert (Hcore : forall s' f, sees ops V C G s' -> i_drivers (f s') = i_drivers s' -> i_handles (f s') = i_handles s' -> i_resize_list (f s') = i_resize_list s' ->
    i_leftover (f s') = i_leftover s' -> i_bypass (f s') = i_bypass s' -> sees ops V C G (f s')).
  { intros s' f [H1 H2 H3 H4 H5 [H6 H7]] Ed Eh Er El Eb. assert (Hp : forall p, pts_at (f s') p = pts_at s' p) by (intros p; unfold pts_at; by rewrite Eh).
    split; [intros a t; unfold view_at; rewrite Ed; apply H1|intros p; unfold core_at; rewrite Hp; apply H2| | | |].
    - intros g. rewrite <- H3. unfold glob_at. destruct g; simpl; by rewrite ?El, ?Eb.
    - intros a d. rewrite Ed. apply H4.
    - intros p c. rewrite Ed. apply H5.
    - split; rewrite Er; [done|]. intros p. rewrite Hp. apply H7. }
  destruct (i_resize_list s) as [|p rest] eqn:Er.
  - apply wp_bind, wp_mod, wp_ret. split; [exists V, C, G; split; [|done]; by apply (Hcore s (fun s => s <| i_in_progress := None |>))|]. done.
  - assert (exists x, pts_at s p = Some x /\ p_queued x = true) as (x & Ex & Hq).
    { apply (qk_flag _ (ss_queue _ _ _ _ _ H)). rewrite Er. left. }
    pose proof (qk_nodup _ (ss_queue _ _ _ _ _ H)) as Hnd. rewrite Er in Hnd. apply NoDup_cons in Hnd as [Hnp Hnd].
    apply wp_bind. eapply wp_get_pts; [done|]. apply wp_bind, wp_mod, wp_bind. set (s1 := s <| i_resize_list := rest |>).
    assert (Ex1 : pts_at s1 p = Some x) by exact Ex. eapply wp_eq; [apply (mod_pts_run _ _ _ _ Ex1)|].
    set (y := x <| p_queued := false |>). assert (H2 : sees ops V (cset C p (core_of y)) G (set_pts s1 p y)).
    { eapply sees_requeue; [done|done|done|done|]. intros q. rewrite Er. case_decide; [subst; simpl; naive_solver|]. set_solver. }
    assert (Hcp : C p = Some (core_of y)) by (rewrite <- (ss_core _ _ _ _ _ H); unfold core_at; by rewrite Ex).
    apply (sees_ext ops V (cset C p (core_of y)) G V C G) in H2; [|done|by apply cset_same|done].
    apply wp_bind, wp_mod, wp_ret. pose proof (Hcore _ (fun s => s <| i_in_progress := Some p |>) H2 eq_refl eq_refl eq_refl eq_refl eq_refl) as H3.
    split; [by exists V, C, G|]. split; [intros q; rewrite (ss_core _ _ _ _ _ H3), (ss_core _ _ _ _ _ H); done|]. split; [done|].
    intros q size [= <- <-]. exists x. done.
Qed.

Lemma wp_resized s p size : agree s -> is_Some (core_at s p) ->
  wp (pt_resize_internal p size) (fun _ s' => agree s' /\ (forall q, core_at s' q = core_at s q) /\ i_in_progress s' = i_in_progress s) s.
Proof.
  intros (V & C & G & H & O) [c E]. rewrite (ss_core _ _ _ _ _ H) in E. eapply wp_resize_internal; [done|done|].
  intros s' H' Hip. split; [by exists V, C, G|]. split; [|done]. intros q. by rewrite (ss_core _ _ _ _ _ H'), (ss_core _ _ _ _ _ H).
Qed.

(** ** Requests *)

Inductive request :=
| Enable (h id : Z) | DisableNoFree (h id : Z) | Release (h id : Z) | Disable (h id : Z) | Mutate (h old_id new_id : Z)
| Resized (p : pts_ptr) (size : Z) | NextCallback.

Definition run_request (r : request) : PT D unit :=
  match r with
  | Enable h id => let! _ := pt_client_enable_size h id in kret tt
  | DisableNoFree h id => pt_client_disable_no_free h id
  | Release h id => pt_client_free h id
  | Disable h id => pt_client_disable h id
  | Mutate h i j => let! _ := pt_client_mutate h i j in kret tt
  | Resized p size => pt_resize_internal p size
  | NextCallback => let! _ := pt_resize_list_next in kret tt
  end.

(** Partitions of registered handles; disabling waits while the callback of the
    same partition runs; the target of a mutation has no ptid of its own. *)
Definition allowed s (r : request) : Prop :=
  match r with
  | Enable h id | Release h id => is_Some (part_at s (h, id))
  | DisableNoFree h id | Disable h id => is_Some (part_at s (h, id)) /\ i_in_progress s <> Some (h, id)
  | Mutate h i j => i <> j /\ is_Some (part_at s (h, i)) /\ exists q, part_at s (h, j) = Some q /\ forall t, q <> Allocated t
  | Resized p _ => is_Some (part_at s p)
  | NextCallback => True
  end.

(** The specification: what each request makes of the partitions. *)
Definition parts : Type := pts_ptr -> option part.
Definition becomes (A : parts) (p : pts_ptr) (q : part) (A' : parts) : Prop := A' p = Some q /\ forall r, r <> p -> A' r = A r.

Inductive enables : part -> part -> Prop :=
| enables_refused : enables Free Free
| enables_fresh t : t <> PT_PTID_INVALID -> enables Free (Enabled t)
| enables_again t : enables (Allocated t) (Enabled t)
| enables_already t : enables (Enabled t) (Enabled t).

Inductive spec_step (A : parts) : request -> parts -> Prop :=
| SEnable h id q q' A' : A (h, id) = Some q -> enables q q' -> becomes A (h, id) q' A' -> spec_step A (Enable h id) A'
| SDisableNoFree h id q A' : A (h, id) = Some q -> becomes A (h, id) (disabled_part q) A' -> spec_step A (DisableNoFree h id) A'
| SRelease h id q A' : A (h, id) = Some q -> becomes A (h, id) (freed_part q) A' -> spec_step A (Release h id) A'
| SDisable h id A' : becomes A (h, id) Free A' -> spec_step A (Disable h id) A'
| SMutateNo h i j A' : (forall p, A' p = A p) -> spec_step A (Mutate h i j) A'
| SMutate h i j t A' : A (h, i) = Some (Enabled t) -> A (h, j) = Some Free -> A' (h, i) = Some Free -> A' (h, j) = Some (Enabled t) ->
    (forall p, p <> (h, i) -> p <> (h, j) -> A' p = A p) -> spec_step A (Mutate h i j) A'
| SResized p size A' : (forall q, A' q = A q) -> spec_step A (Resized p size) A'
| SNext A' : (forall q, A' q = A q) -> spec_step A NextCallback A'.

Lemma moved_becomes s p q s' : moved s p q s' -> becomes (part_at s) p q (part_at s').
Proof. intros Hm. split; [by eapply moved_part|]. intros r Hr. unfold part_at. destruct Hm as (_ & _ & _ & Ho). by rewrite Ho. Qed.

Lemma same_parts s s' : (forall p, core_at s' p = core_at s p) -> forall p, part_at s' p = part_at s p.
Proof. intros H p. unfold part_at. by rewrite H. Qed.

Lemma request_step s r : agree s -> allowed s r -> wp (run_request r) (fun _ s' => agree s' /\ spec_step (part_at s) r (part_at s')) s.
Proof.
  intros Ha Hal. destruct r as [h id|h id|h id|h id|h i j|p size|]; cbn [run_request allowed] in *.
  - destruct Hal as [q Eq]. apply wp_bind. eapply wp_mono; [by apply wp_client_enable|]. intros r s' Hr. apply wp_ret. destruct q as [|t|t].
    + destruct Hr as [[_ Hm]|[Ht Hm]]; (split; [apply Hm|]); (eapply SEnable; [done| |by apply moved_becomes]); constructor. done.
    + destruct Hr as [_ Hm]. split; [apply Hm|]. eapply SEnable; [done| |by apply moved_becomes]. constructor.
    + destruct Hr as [_ ->]. split; [done|]. eapply SEnable; [done|constructor|by split].
  - destruct Hal as [[q Eq] Hip]. eapply wp_mono; [by apply wp_client_disable_no_free|]. intros [] s' Hm. split; [apply Hm|].
    eapply SDisableNoFree; [done|by apply moved_becomes].
  - destruct Hal as [q Eq]. eapply wp_mono; [by apply wp_client_free|]. intros [] s' Hm. split; [apply Hm|].
    eapply SRelease; [done|by apply moved_becomes].
  - destruct Hal as [[q Eq] Hip]. eapply wp_mono; [by eapply wp_client_disable|]. intros [] s' Hm. split; [apply Hm|].
    eapply SDisable. by apply moved_becomes.
  - destruct Hal as (Hij & [q Eq] & q' & Eq' & Hno). apply part_at_core in Eq as (c & E & Hc). apply part_at_core in Eq' as (e & Ee & He).
    apply wp_bind. eapply wp_mono; [apply (wp_client_mutate s h i j c e); auto|].
    + intros _ _ Hee. destruct (decide (k_ptid e = PT_PTID_INVALID)) as [|Hp]; [done|]. exfalso.
      apply (Hno (k_ptid e)). rewrite <- He. by apply part_alloc.
    + intros r s' (Ha' & _ & [[_ Hsame]|(Hr & Hd & Hi & Hj & Ho)]); apply wp_ret; (split; [done|]).
      * apply SMutateNo. by apply same_parts.
      * eapply (SMutate _ h i j r); auto; [unfold part_at; by rewrite E, <- Hr|unfold part_at; by rewrite Ee, <- Hd|].
        intros p Hpi Hpj. unfold part_at. by rewrite Ho.
  - eapply wp_mono; [apply wp_resized; [done|]|].
    + destruct Hal as [q (c & E & _)%part_at_core]. eauto.
    + intros [] s' (Ha' & Hsame & _). split; [done|]. apply SResized. by apply same_parts.
  - apply wp_bind. eapply wp_mono; [by apply wp_list_next|]. intros r s' (Ha' & Hsame & _). apply wp_ret. split; [done|].
    apply SNext. by apply same_parts.
Qed.

End Client.
