(* ===== verification/SlcDummy.v ===== *)
(** * The dummy cache driver

    [drivers/soc/google/pt/slc_dummy.c], a driver for the partition interface that
    keeps its 64 ptids in an array. It keeps the promises of [pt.h]
    ([slc_dummy_spec]) when the sizes the device tree allows are not zero. *)

From S2P Require Import Prelude Pt PtOwner.

(** ** The driver's properties *)

(** [pt_driver_get_property_value]: [props] is the numbers of each property node,
    [None] before the driver is registered. An error is negative. *)
Definition pt_driver_get_property_value (props : option (list (list Z))) (property_index index : Z) : Z + Z :=
  match props with
  | None => inl (- EINVAL)
  | Some nodes =>
      if Z.of_nat (length nodes) <=? property_index then inl (- ENOENT)
      else match nodes !! Z.to_nat property_index with
           | Some vs => match vs !! Z.to_nat index with Some v => inr (u32 v) | None => inl (- EOVERFLOW) end
           | None => inl (- EINVAL)
           end
  end.

(** ** Data *)

Definition PT_PTID_MAX : Z := 64.
Definition PT_HIGHEST_BIT : Z := 32.

(** [t_resize] is the callback: null, that of the clients, or the one of the global
    partitions, which does nothing. *)
Inductive resize_fn := ResizeNull | ResizeClient | ResizeNop.
Record dummy_ptid := MkDummy {
  t_size_bits : Z; t_pbha : Z; t_data : option pts_ptr; t_resize : resize_fn; t_enabled : bool; t_used : bool
}.
#[export] Instance eta_dummy : Eta dummy_ptid := mk_eta (fun t =>
  MkDummy (t_size_bits t) (t_pbha t) (t_data t) (t_resize t) (t_enabled t) (t_used t)).
Definition fn_for (resize_data : option pts_ptr) : resize_fn := match resize_data with Some _ => ResizeClient | None => ResizeNop end.

Record slc_dummy := MkSlcDummy { sd_ptids : list dummy_ptid; sd_props : option (list (list Z)) }.
#[export] Instance eta_slc_dummy : Eta slc_dummy := mk_eta (fun d => MkSlcDummy (sd_ptids d) (sd_props d)).

Abbreviation SD A := (M slc_dummy A).

(** [ptids[i]]; an index out of the array is a fault. *)
Definition tid (i : Z) : SD dummy_ptid := fun d =>
  if i <? 0 then Fault else match sd_ptids d !! Z.to_nat i with Some t => Done t d | None => Fault end.
Definition mod_tid (i : Z) (f : dummy_ptid -> dummy_ptid) : SD unit := fun d =>
  if i <? 0 then Fault
  else match sd_ptids d !! Z.to_nat i with
       | Some t => Done tt (d <| sd_ptids := <[Z.to_nat i := f t]> (sd_ptids d) |>)
       | None => Fault
       end.

Definition call_resize (t : dummy_ptid) (data : option pts_ptr) (size : Z) : SD resizes :=
  match t_resize t with
  | ResizeNull => kfault
  | ResizeClient => kret [(data, size)]
  | ResizeNop => kret [(None, size)]
  end.

(** ** Sizes *)

(** [while (previous >= 0 && (size_bits >> previous) == 0) previous--;] from
    [previous = n - 1]. *)
Fixpoint down_to_bit (size_bits : Z) (n : nat) : Z :=
  match n with
  | O => -1
  | S n' => if Z.shiftr size_bits (Z.of_nat n') =? 0 then down_to_bit size_bits n' else Z.of_nat n'
  end.

Definition slc_dummy_next_bit (size_bits previous : Z) : Z :=
  if previous <? PT_HIGHEST_BIT
  then down_to_bit (u32 (size_bits - u32 (Z.shiftl (Z.shiftr size_bits previous) previous))) (Z.to_nat (previous + 1))
  else down_to_bit size_bits (Z.to_nat PT_HIGHEST_BIT).

Definition slc_dummy_first_bit (size_bits : Z) : Z := slc_dummy_next_bit size_bits PT_HIGHEST_BIT.

(** Shifting an [int] by its width or more, or into the sign bit, is undefined. *)
Definition slc_dummy_bit_to_size (bit : Z) : option Z :=
  if bit / 2 >=? 31 then None
  else
    let result := Z.shiftl 1 (bit / 2) in
    if bit =? 0 then Some 0
    else
      let result := if Z.land bit 1 =? 1 then result + result / 2 else result in
      Some (s32 (result * 4096)).

Definition size_of_bits (size_bits : Z) : SD Z :=
  match slc_dummy_bit_to_size (u32 (slc_dummy_first_bit size_bits)) with Some v => kret v | None => kfault end.

(** ** Operations *)

Definition slc_dummy_alloc (property_index : Z) (resize_data : option pts_ptr) : SD (Z * resizes) :=
  let! d := kget in
  let value := pt_driver_get_property_value (sd_props d) property_index in
  match value 0, value 1 with
  | inr vptid, inr size_bits =>
      let pbha := match value 3 with inr v => v | inl _ => 0 end in
      if vptid >=? PT_PTID_MAX then kret (PT_PTID_INVALID, [])
      else
        let! t := tid vptid in
        if t_used t then kret (PT_PTID_INVALID, [])
        else
          do! mod_tid vptid (fun t => t <| t_used := true |> <| t_data := resize_data |> <| t_size_bits := size_bits |>
                                       <| t_pbha := s32 pbha |> <| t_resize := fn_for resize_data |>) in
          kret (s32 vptid, [])
  | _, _ => kret (PT_PTID_INVALID, [])
  end.

Definition slc_dummy_mutate (ptid : Z) (resize_data : pts_ptr) (new_property_index : Z) : SD (Z * resizes) :=
  let! d := kget in
  let value := pt_driver_get_property_value (sd_props d) new_property_index in
  match value 0, value 1 with
  | inr vptid, inr size_bits =>
      if negb (vptid =? u32 ptid) then kret (PT_PTID_INVALID, [])
      else
        let! size := size_of_bits size_bits in
        do! mod_tid vptid (fun t => t <| t_size_bits := size_bits |>) in
        do! mod_tid ptid (fun t => t <| t_data := Some resize_data |>) in
        let! t := tid ptid in
        let! rs := call_resize t (Some resize_data) size in
        kret (ptid, rs)
  | _, _ => kret (PT_PTID_INVALID, [])
  end.

Definition slc_dummy_pbha (ptid : Z) : SD Z :=
  let! t := tid ptid in
  if Z.land (t_pbha t) PT_PBHA_ENABLE =? 0 then kret PT_PBHA_INVALID else kret (Z.land (t_pbha t) PT_PBHA_MASK).

Definition slc_dummy_free (ptid : Z) : SD resizes :=
  do! mod_tid ptid (fun t => t <| t_used := false |>) in kret [].

Definition slc_dummy_enable (ptid : Z) : SD resizes :=
  let! t := tid ptid in
  do! mod_tid ptid (fun t => t <| t_enabled := true |>) in
  let! size := size_of_bits (t_size_bits t) in
  let! t := tid ptid in
  call_resize t (t_data t) size.

Definition slc_dummy_disable (ptid : Z) : SD resizes :=
  do! mod_tid ptid (fun t => t <| t_enabled := false |>) in
  let! t := tid ptid in
  call_resize t (t_data t) 0.

Definition slc_dummy_ops : pt_ops slc_dummy :=
  MkOps slc_dummy_alloc slc_dummy_free slc_dummy_enable slc_dummy_disable slc_dummy_mutate slc_dummy_pbha None.

Definition zero_ptid : dummy_ptid := MkDummy 0 0 None ResizeNull false false.
(** As the probe leaves it; the properties are known once it is registered. *)
Definition slc_dummy_new (props : option (list (list Z))) : slc_dummy := MkSlcDummy (replicate (Z.to_nat PT_PTID_MAX) zero_ptid) props.

(** ** The promises of the interface *)

Definition tget (d : slc_dummy) (i : Z) : option dummy_ptid := if i <? 0 then None else sd_ptids d !! Z.to_nat i.
Definition tset (d : slc_dummy) (i : Z) (t : dummy_ptid) : slc_dummy := d <| sd_ptids := <[Z.to_nat i := t]> (sd_ptids d) |>.
Definition entry (t : dummy_ptid) : option (option pts_ptr * bool) := if t_used t then Some (t_data t, t_enabled t) else None.

Definition dummy_view (d : slc_dummy) : gmap Z (option pts_ptr * bool) :=
  omap entry (kmap Z.of_nat (map_seq 0 (sd_ptids d)) : gmap Z dummy_ptid).

Record entry_ok (t : dummy_ptid) : Prop := MkEntry {
  en_resize : t_used t = true -> t_resize t = fn_for (t_data t);
  en_bits : t_used t = true -> 0 < t_size_bits t < 2 ^ 32;
  en_off : t_used t = false -> t_enabled t = false
}.

Record dummy_wf (d : slc_dummy) : Prop := MkDummyWf {
  dw_len : length (sd_ptids d) = 64%nat;
  dw_entry : forall i t, tget d i = Some t -> entry_ok t;
  dw_bits : forall pi b, pt_driver_get_property_value (sd_props d) pi 1 = inr b -> b <> 0
}.

Lemma tget_range d i t : tget d i = Some t -> 0 <= i < Z.of_nat (length (sd_ptids d)).
Proof. unfold tget. destruct (Z.ltb_spec i 0); [done|]. intros E%lookup_lt_Some. lia. Qed.

Lemma tget_set d i j t u : tget d i = Some u -> tget (tset d i t) j = if decide (j = i) then Some t else tget d j.
Proof.
  intros E. pose proof (tget_range _ _ _ E). unfold tget; simpl. destruct (Z.ltb_spec j 0).
  - rewrite decide_False by lia. done.
  - case_decide as Hd; [subst; apply list_lookup_insert_eq; lia|]. apply list_lookup_insert_ne. lia.
Qed.

Lemma view_lookup d i : dummy_view d !! i = tget d i ≫= entry.
Proof.
  unfold dummy_view, tget. rewrite lookup_omap. f_equal. destruct (Z.ltb_spec i 0).
  - apply lookup_kmap_None; [apply _|]. intros k ->. lia.
  - replace i with (Z.of_nat (Z.to_nat i)) at 1 by lia. rewrite lookup_kmap by apply _. rewrite lookup_map_seq_0. done.
Qed.

Lemma view_set d i t u : tget d i = Some u ->
  dummy_view (tset d i t) = match entry t with Some e => <[i := e]> (dummy_view d) | None => delete i (dummy_view d) end.
Proof.
  intros E. apply map_eq. intros j. rewrite view_lookup, (tget_set _ _ _ _ _ E). destruct (decide (j = i)) as [->|Hj].
  - simpl. destruct (entry t); [by rewrite lookup_insert_eq|by rewrite lookup_delete_eq].
  - destruct (entry t); rewrite ?lookup_insert_ne, ?lookup_delete_ne by done; by rewrite view_lookup.
Qed.

Lemma wf_set d i t u : dummy_wf d -> tget d i = Some u -> entry_ok t -> dummy_wf (tset d i t).
Proof.
  intros [H1 H2 H3] E Ht. split; [simpl; by rewrite length_insert| |done].
  intros j v. rewrite (tget_set _ _ _ _ _ E). case_decide; [by intros [= <-]|apply H2].
Qed.

Lemma tid_run d i t : tget d i = Some t -> tid i d = Done t d.
Proof. unfold tget, tid. destruct (i <? 0); [done|]. by intros ->. Qed.
Lemma mod_tid_run d i t f : tget d i = Some t -> mod_tid i f d = Done tt (tset d i (f t)).
Proof. unfold tget, mod_tid. destruct (i <? 0); [done|]. by intros ->. Qed.

Lemma view_entry d i o b : dummy_view d !! i = Some (o, b) -> exists t, tget d i = Some t /\ t_used t = true /\ t_data t = o /\ t_enabled t = b.
Proof.
  rewrite view_lookup. destruct (tget d i) as [t|]; [|done]. simpl. unfold entry. destruct (t_used t) eqn:E; [|done].
  intros [= <- <-]. eauto.
Qed.

(** The highest set bit. *)
Lemma down_to_bit_log2 b n : 0 < b < 2 ^ Z.of_nat n -> down_to_bit b n = Z.log2 b.
Proof.
  induction n as [|n IH]; intros Hb; [simpl in Hb; lia|]. cbn [down_to_bit]. rewrite Z.shiftr_div_pow2 by lia.
  destruct (Z.ltb_spec b (2 ^ Z.of_nat n)) as [Hlt|Hge].
  - rewrite Z.div_small by lia. cbn [Z.eqb]. apply IH. lia.
  - assert (b / 2 ^ Z.of_nat n <> 0) as Hd.
    { assert (1 <= b / 2 ^ Z.of_nat n); [|lia]. apply Z.div_le_lower_bound; lia. }
    apply Z.eqb_neq in Hd. rewrite Hd. symmetry. apply Z.log2_unique; [lia|]. rewrite Nat2Z.inj_succ in Hb. unfold Z.succ. split; [lia|].
    replace (Z.of_nat n + 1) with (Z.succ (Z.of_nat n)) by lia. lia.
Qed.

Lemma first_bit_log2 b : 0 < b < 2 ^ 32 -> slc_dummy_first_bit b = Z.log2 b.
Proof. intros. by apply (down_to_bit_log2 b 32). Qed.

Lemma size_of_bits_run b d : 0 < b < 2 ^ 32 -> exists v, size_of_bits b d = Done v d.
Proof.
  intros Hb. unfold size_of_bits. rewrite first_bit_log2 by done.
  assert (0 <= Z.log2 b < 32) as Hl. { split; [apply Z.log2_nonneg|]. apply Z.log2_lt_pow2; lia. }
  rewrite u32_small by lia. unfold slc_dummy_bit_to_size. destruct (Z.geb_spec (Z.log2 b / 2) 31).
  - assert (Z.log2 b / 2 < 31) by (apply Z.div_lt_upper_bound; lia). lia.
  - destruct (Z.log2 b =? 0); eauto.
Qed.

Lemma property_u32 props pi i v : pt_driver_get_property_value props pi i = inr v -> 0 <= v < 2 ^ 32.
Proof.
  unfold pt_driver_get_property_value. destruct props as [nodes|]; [|done]. destruct (_ <=? _); [done|].
  destruct (nodes !! _) as [vs|]; [|done]. destruct (vs !! _) as [w|]; [|done]. intros [= <-]. unfold u32. apply Z.mod_pos_bound. lia.
Qed.

Lemma dummy_bits d pi b : dummy_wf d -> pt_driver_get_property_value (sd_props d) pi 1 = inr b -> 0 < b < 2 ^ 32.
Proof. intros W E. pose proof (dw_bits _ W pi b E). pose proof (property_u32 _ _ _ _ E). lia. Qed.

(** Callbacks of an entry in use go to its owner. *)
Lemma call_resize_run t size d : t_used t = true -> entry_ok t -> call_resize t (t_data t) size d = Done [(t_data t, size)] d.
Proof. intros Hu He. unfold call_resize. rewrite (en_resize _ He Hu). by destruct (t_data t). Qed.

Lemma dummy_alloc_spec d i o : dummy_wf d -> exists t rs d', slc_dummy_alloc i o d = Done (t, rs) d' /\ dummy_wf d' /\
  to_owners (dummy_view d) o rs /\
  (t = PT_PTID_INVALID /\ dummy_view d' = dummy_view d \/
   t <> PT_PTID_INVALID /\ dummy_view d !! t = None /\ dummy_view d' = <[t := (o, false)]> (dummy_view d)).
Proof.
  intros W. assert (Hno : forall p size, (Some p, size) ∈ ([] : resizes) -> (exists t b, dummy_view d !! t = Some (Some p, b)) \/ o = Some p)
    by (by intros ? ? ?%not_elem_of_nil).
  assert (Hrefuse : exists t rs d', (Done (PT_PTID_INVALID, []) d : outcome slc_dummy (Z * resizes)) = Done (t, rs) d' /\ dummy_wf d' /\
    to_owners (dummy_view d) o rs /\ (t = PT_PTID_INVALID /\ dummy_view d' = dummy_view d \/
    t <> PT_PTID_INVALID /\ dummy_view d !! t = None /\ dummy_view d' = <[t := (o, false)]> (dummy_view d))).
  { exists PT_PTID_INVALID, [], d. split_and!; auto. }
  unfold slc_dummy_alloc, kbind at 1, kget. cbv zeta.
  destruct (pt_driver_get_property_value (sd_props d) i 0) as [|vptid] eqn:E0; [exact Hrefuse|].
  destruct (pt_driver_get_property_value (sd_props d) i 1) as [|bits] eqn:E1; [exact Hrefuse|].
  pose proof (property_u32 _ _ _ _ E0) as Hv. pose proof (dummy_bits d i bits W E1) as Hb.
  destruct (Z.geb_spec vptid PT_PTID_MAX) as [Hbig|Hsmall]; [exact Hrefuse|]. unfold PT_PTID_MAX in Hsmall.
  destruct (lookup_lt_is_Some_2 (sd_ptids d) (Z.to_nat vptid)) as [t Et]; [rewrite (dw_len _ W); lia|].
  assert (Eg : tget d vptid = Some t) by (unfold tget; destruct (Z.ltb_spec vptid 0); [lia|done]).
  unfold kbind at 1. rewrite (tid_run _ _ _ Eg). destruct (t_used t) eqn:Eu; [exact Hrefuse|].
  unfold kbind. rewrite (mod_tid_run _ _ _ _ Eg). unfold kret. rewrite s32_small by lia. eexists vptid, [], _. split; [done|].
  set (t' := t <| t_used := true |> <| t_data := o |> <| t_size_bits := bits |> <| t_pbha := _ |> <| t_resize := fn_for o |>).
  assert (Hoff : t_enabled t = false) by (apply (en_off t); [by apply (dw_entry _ W vptid)|done]).
  split; [eapply wf_set; [done|done|by split]|]. split; [exact Hno|]. right. unfold PT_PTID_INVALID. split; [lia|]. split.
  - rewrite view_lookup, Eg. simpl. unfold entry. by rewrite Eu.
  - rewrite (view_set _ _ t' _ Eg). unfold entry; simpl. by rewrite Hoff.
Qed.

(** A change of an entry in use that leaves it in use. *)
Lemma view_update d i t u e : tget d i = Some u -> entry t = Some e -> dummy_view (tset d i t) = <[i := e]> (dummy_view d).
Proof. intros E He. by rewrite (view_set _ _ _ _ E), He. Qed.

Lemma to_owner_one d i o b size x : dummy_view d !! i = Some (o, b) -> to_owners (dummy_view d) x [(o, size)].
Proof. intros E p sz Hin%list_elem_of_singleton. simplify_eq. left. eauto. Qed.

Lemma dummy_enable_spec d i o : dummy_wf d -> dummy_view d !! i = Some (o, false) ->
  exists rs d', slc_dummy_enable i d = Done rs d' /\ dummy_wf d' /\ to_owners (dummy_view d) None rs /\
    dummy_view d' = <[i := (o, true)]> (dummy_view d).
Proof.
  intros W Hv. destruct (view_entry _ _ _ _ Hv) as (t & E & Hu & <- & Hoff). pose proof (dw_entry _ W _ _ E) as [H1 H2 H3].
  unfold slc_dummy_enable, kbind at 1. rewrite (tid_run _ _ _ E). unfold kbind at 1. rewrite (mod_tid_run _ _ _ _ E).
  set (t' := t <| t_enabled := true |>). destruct (size_of_bits_run (t_size_bits t) (tset d i t') (H2 Hu)) as [v Hsize].
  assert (Hok : entry_ok t') by (split; simpl; auto; congruence).
  unfold kbind at 1. rewrite Hsize. unfold kbind. rewrite (tid_run _ _ t') by (rewrite (tget_set _ _ _ _ _ E); by rewrite decide_True).
  rewrite call_resize_run by done. eexists _, _. split; [done|]. split; [by eapply wf_set|].
  split; [by eapply to_owner_one|]. eapply view_update; [done|]. unfold entry; simpl. by rewrite Hu.
Qed.

Lemma dummy_disable_spec d i o : dummy_wf d -> dummy_view d !! i = Some (o, true) ->
  exists rs d', slc_dummy_disable i d = Done rs d' /\ dummy_wf d' /\ to_owners (dummy_view d) None rs /\
    dummy_view d' = <[i := (o, false)]> (dummy_view d).
Proof.
  intros W Hv. destruct (view_entry _ _ _ _ Hv) as (t & E & Hu & <- & Hon). pose proof (dw_entry _ W _ _ E) as [H1 H2 H3].
  unfold slc_dummy_disable, kbind at 1. rewrite (mod_tid_run _ _ _ _ E). set (t' := t <| t_enabled := false |>).
  assert (Hok : entry_ok t') by (split; simpl; auto).
  unfold kbind. rewrite (tid_run _ _ t') by (rewrite (tget_set _ _ _ _ _ E); by rewrite decide_True).
  rewrite call_resize_run by done. eexists _, _. split; [done|]. split; [by eapply wf_set|].
  split; [by eapply to_owner_one|]. eapply view_update; [done|]. unfold entry; simpl. by rewrite Hu.
Qed.

Lemma dummy_free_spec d i o : dummy_wf d -> dummy_view d !! i = Some (o, false) ->
  exists rs d', slc_dummy_free i d = Done rs d' /\ dummy_wf d' /\ to_owners (dummy_view d) None rs /\
    dummy_view d' = delete i (dummy_view d).
Proof.
  intros W Hv. destruct (view_entry _ _ _ _ Hv) as (t & E & Hu & <- & Hoff). pose proof (dw_entry _ W _ _ E) as [H1 H2 H3].
  unfold slc_dummy_free, kbind. rewrite (mod_tid_run _ _ _ _ E). eexists _, _. split; [done|]. set (t' := t <| t_used := false |>).
  split; [eapply wf_set; [done|done|by split]|]. split; [by intros ? ? ?%not_elem_of_nil|]. by rewrite (view_set _ _ t' _ E).
Qed.

Lemma dummy_mutate_spec d i o p pi : dummy_wf d -> dummy_view d !! i = Some (Some o, true) ->
  exists r rs d', slc_dummy_mutate i p pi d = Done (r, rs) d' /\ dummy_wf d' /\ to_owners (dummy_view d) (Some p) rs /\
    (r = PT_PTID_INVALID /\ dummy_view d' = dummy_view d \/ r = i /\ dummy_view d' = <[i := (Some p, true)]> (dummy_view d)).
Proof.
  intros W Hv. destruct (view_entry _ _ _ _ Hv) as (t & E & Hu & Hdata & Hon). pose proof (dw_entry _ W _ _ E) as [H1 H2 H3].
  assert (Hrefuse : exists r rs d', (Done (PT_PTID_INVALID, []) d : outcome slc_dummy (Z * resizes)) = Done (r, rs) d' /\ dummy_wf d' /\
    to_owners (dummy_view d) (Some p) rs /\ (r = PT_PTID_INVALID /\ dummy_view d' = dummy_view d \/ r = i /\ dummy_view d' = <[i := (Some p, true)]> (dummy_view d))).
  { exists PT_PTID_INVALID, [], d. split_and!; auto. by intros ? ? ?%not_elem_of_nil. }
  unfold slc_dummy_mutate, kbind at 1, kget. cbv zeta. pose proof (tget_range _ _ _ E) as Hi. rewrite (dw_len _ W) in Hi.
  destruct (pt_driver_get_property_value (sd_props d) pi 0) as [|vptid] eqn:E0; [exact Hrefuse|].
  destruct (pt_driver_get_property_value (sd_props d) pi 1) as [|bits] eqn:E1; [exact Hrefuse|]. rewrite u32_small by lia.
  destruct (Z.eqb_spec vptid i) as [->|Hne]; cbn [negb]; [|exact Hrefuse]. pose proof (dummy_bits d pi bits W E1) as Hb.
  destruct (size_of_bits_run bits d Hb) as [v Hsize]. unfold kbind at 1. rewrite Hsize.
  unfold kbind at 1. rewrite (mod_tid_run _ _ _ _ E). set (t1 := t <| t_size_bits := bits |>).
  assert (E2 : tget (tset d i t1) i = Some t1) by (rewrite (tget_set _ _ _ _ _ E); by rewrite decide_True).
  unfold kbind at 1. rewrite (mod_tid_run _ _ _ _ E2). set (t2 := t1 <| t_data := Some p |>).
  assert (E3 : tget (tset (tset d i t1) i t2) i = Some t2) by (rewrite (tget_set _ _ _ _ _ E2); by rewrite decide_True).
  assert (Hr : t_resize t2 = ResizeClient) by (change (t_resize t = ResizeClient); rewrite (H1 Hu), Hdata; done).
  unfold kbind at 1. rewrite (tid_run _ _ _ E3). unfold kbind at 1, call_resize at 1. rewrite Hr. unfold kret. eexists _, _, _. split; [done|].
  assert (Hok1 : entry_ok t1) by (split; simpl; auto). assert (Hok2 : entry_ok t2) by (split; simpl; auto).
  split; [eapply wf_set; [by eapply wf_set|done|done]|]. split; [intros q sz Hin%list_elem_of_singleton; simplify_eq; by right|]. right. split; [done|].
  erewrite view_update; [|exact E2|unfold entry; simpl; by rewrite Hu]. simpl. rewrite Hon.
  erewrite (view_update d); [|exact E|unfold entry; simpl; by rewrite Hu]. apply insert_insert_eq.
Qed.

Lemma dummy_valid d i e : dummy_wf d -> dummy_view d !! i = Some e -> i <> PT_PTID_INVALID.
Proof.
  intros W E. destruct e as [o b]. destruct (view_entry _ _ _ _ E) as (t & Et & _). apply tget_range in Et. unfold PT_PTID_INVALID. lia.
Qed.

Lemma dummy_pbha_spec d i e : dummy_wf d -> dummy_view d !! i = Some e -> exists v, slc_dummy_pbha i d = Done v d.
Proof.
  intros W E. destruct e as [o b]. destruct (view_entry _ _ _ _ E) as (t & Et & _). unfold slc_dummy_pbha, kbind.
  rewrite (tid_run _ _ _ Et). destruct (_ =? 0); eauto.
Qed.

#[export] Instance slc_dummy_spec : PtDriverSpec slc_dummy_ops :=
  Build_PtDriverSpec _ slc_dummy_ops dummy_wf dummy_view dummy_valid dummy_alloc_spec dummy_enable_spec dummy_disable_spec
    dummy_free_spec dummy_mutate_spec dummy_pbha_spec.
