(* ===== verification/PtResize.v ===== *)
(** * Resize callbacks, interleaved

    The driver's callbacks, the thread that calls the clients, and clients that
    enable and disable partitions, interleaved at the sections under the spin
    lock. [world] adds to the state the clients that wait in
    [pt_resize_list_disable] (with the mutex of their handle held), the callbacks
    started so far and the size each client was last told. The thread is in the
    callback of [i_in_progress] until it asks for the next one. *)

From S2P Require Import Prelude Pt PtOwner.

(** ** What the sections under the lock do *)

Section Sections.
Context {D : Type}.
Implicit Types s : pt_internal D.

Definition has_callback s (p : pts_ptr) : bool := from_option h_callback false (i_handles s !! fst p).

Lemma has_callback_set s p y q : has_callback (set_pts s p y) q = has_callback s q.
Proof.
  unfold has_callback, set_pts. simpl. destruct (decide (fst q = fst p)) as [->|Hne].
  - rewrite lookup_alter_eq. by destruct (i_handles s !! fst p).
  - by rewrite lookup_alter_ne.
Qed.

(** One partition becomes [y] and the queue [l]; the rest stays. *)
Record changed s (p : pts_ptr) (y : pt_pts) (l : list pts_ptr) s' : Prop := MkChanged {
  ch_pts : forall q, pts_at s' q = if decide (q = p) then Some y else pts_at s q;
  ch_list : i_resize_list s' = l;
  ch_callback : forall q, has_callback s' q = has_callback s q
}.

Lemma changed_set s p x y l : pts_at s p = Some x -> changed s p y l (set_pts (s <| i_resize_list := l |>) p y).
Proof.
  intros E. split; [intros q; exact (pts_at_set (s <| i_resize_list := l |>) p q x y E)|done|]. intros q. by rewrite has_callback_set.
Qed.

Lemma changed_trans s p y l s1 z m s2 : changed s p y l s1 -> changed s1 p z m s2 -> changed s p z m s2.
Proof.
  intros [H1 H2 H3] [G1 G2 G3]. split; [|done|congruence]. intros q. rewrite G1. case_decide; [done|]. rewrite H1. by rewrite decide_False.
Qed.

Lemma mod_pts_changed s p x f s' : pts_at s p = Some x -> mod_pts p f s = Done tt s' ->
  changed s p (f x) (i_resize_list s) s' /\ i_in_progress s' = i_in_progress s.
Proof. intros E. rewrite (mod_pts_run _ _ _ _ E). intros [= <-]. split; [|done]. by apply (changed_set s p x (f x) (i_resize_list s)). Qed.

Lemma pts_known {A} s p (k : pt_pts -> PT D A) r : (let! x := get_pts p in k x) s = r -> r <> Fault -> exists x, pts_at s p = Some x /\ k x s = r.
Proof. unfold kbind, get_pts. destruct (pts_at s p) as [x|]; [|congruence]. eauto. Qed.

(** When a callback is queued. *)
Definition queues s p (x : pt_pts) (size : Z) : bool := has_callback s p && negb (p_queued x) && p_enabled x && negb (p_size x =? size).

Lemma resize_changed s p size s' : pt_resize_internal p size s = Done tt s' ->
  exists x, pts_at s p = Some x /\ i_in_progress s' = i_in_progress s /\
    changed s p (x <| p_size := u32 size |> <| p_queued := p_queued x || queues s p x (u32 size) |>)
      (if queues s p x (u32 size) then p :: i_resize_list s else i_resize_list s) s'.
Proof.
  unfold pt_resize_internal, kbind at 1, get_handle, queues, has_callback. destruct (i_handles s !! fst p) as [h|] eqn:Eh; [|done]. simpl.
  destruct (h_callback h).
  - intros Hrun. destruct (pts_known _ _ _ _ Hrun) as (x & Ex & Hk); [done|]. exists x. split; [done|]. revert Hk. cbn [andb].
    destruct (negb (p_queued x) && p_enabled x && negb (p_size x =? u32 size)) eqn:Ea.
    + apply andb_prop in Ea as Ea'. destruct Ea' as [Ea1 _]. apply andb_prop in Ea1 as [Hnq%negb_true_iff _].
      unfold kbind at 1. unfold kbind at 1, kmod at 1. set (s1 := s <| i_resize_list := _ |>). assert (E1 : pts_at s1 p = Some x) by exact Ex.
      rewrite (mod_pts_run _ _ _ _ E1). intros Hk. set (x1 := x <| p_queued := true |>) in *.
      pose proof (changed_set s p x x1 (p :: i_resize_list s) Ex) as C1. fold s1 in C1.
      assert (E2 : pts_at (set_pts s1 p x1) p = Some x1) by (rewrite (ch_pts _ _ _ _ _ C1); by rewrite decide_True).
      destruct (mod_pts_changed _ _ _ _ _ E2 Hk) as [C2 Hip]. split; [done|].
      rewrite orb_true_r. rewrite (ch_list _ _ _ _ _ C1) in C2. by eapply changed_trans.
    + unfold kbind, kret. intros Hk. destruct (mod_pts_changed _ _ _ _ _ Ex Hk) as [C2 Hip]. split; [done|]. rewrite orb_false_r. by destruct x.
  - intros Hrun. assert (exists x, pts_at s p = Some x) as [x Ex]. { unfold mod_pts in Hrun. destruct (pts_at s p); [eauto|done]. }
    exists x. destruct (mod_pts_changed _ _ _ _ _ Ex Hrun) as [C Hip]. split; [done|]. split; [done|]. simpl. rewrite orb_false_r. by destruct x.
Qed.

Lemma next_changed s r s' : pt_resize_list_next s = Done r s' ->
  match r with
  | Some (p, size) => exists x rest, i_resize_list s = p :: rest /\ pts_at s p = Some x /\ size = p_size x /\
      changed s p (x <| p_queued := false |>) rest s' /\ i_in_progress s' = Some p
  | None => i_resize_list s = [] /\ s' = s <| i_in_progress := None |>
  end.
Proof.
  unfold pt_resize_list_next, kbind at 1, kget. destruct (i_resize_list s) as [|p rest] eqn:El.
  - unfold kbind, kmod, kret. intros [= <- <-]. done.
  - intros Hrun. destruct (pts_known _ _ _ _ Hrun) as (x & Ex & Hk); [done|]. revert Hk. unfold kbind at 1, kmod at 1.
    set (s1 := s <| i_resize_list := rest |>). assert (E1 : pts_at s1 p = Some x) by exact Ex. unfold kbind at 1.
    rewrite (mod_pts_run _ _ _ _ E1). unfold kbind, kmod, kret. intros [= <- <-]. exists x, rest. split_and!; try done.
    destruct (changed_set s p x (x <| p_queued := false |>) rest Ex) as [H1 H2 H3]. by split.
Qed.

Lemma flush_changed s p b s' : resize_list_flush p s = Done b s' -> exists x y, pts_at s p = Some x /\ b = p_enabled x /\
  p_enabled y = false /\ p_queued y = false /\ i_in_progress s' = i_in_progress s /\
  changed s p y (if p_queued x then filter (fun q => q <> p) (i_resize_list s) else i_resize_list s) s'.
Proof.
  intros Hrun. destruct (pts_known _ _ _ _ Hrun) as (x & Ex & Hk); [done|]. revert Hk. unfold kbind at 1.
  rewrite (mod_pts_run _ _ _ _ Ex). set (x1 := x <| p_enabled := false |>). pose proof (changed_set s p x x1 (i_resize_list s) Ex) as C1.
  assert (Hs : set_pts (s <| i_resize_list := i_resize_list s |>) p x1 = set_pts s p x1) by (by destruct s). rewrite Hs in C1.
  assert (E1 : pts_at (set_pts s p x1) p = Some x1) by (rewrite (ch_pts _ _ _ _ _ C1); by rewrite decide_True).
  destruct (p_queued x) eqn:Eq.
  - unfold kbind at 1. unfold kbind at 1, kmod at 1. set (s2 := (set_pts s p x1) <| i_resize_list := _ |>).
    assert (E2 : pts_at s2 p = Some x1) by exact E1. rewrite (mod_pts_run _ _ _ _ E2). unfold kret. intros [= <- <-].
    set (y := x1 <| p_queued := false |> <| p_size := 0 |>). exists x, y. split_and!; try done.
    rewrite Eq. eapply changed_trans; [exact C1|]. exact (changed_set (set_pts s p x1) p x1 y (filter (fun q => q <> p) (i_resize_list s)) E1).
  - unfold kbind, kret. intros [= <- <-]. exists x, x1. rewrite Eq. split_and!; try done.
Qed.

Lemma enable_changed s p s' : pt_resize_list_enable p s = Done tt s' -> exists x, pts_at s p = Some x /\
  changed s p (x <| p_enabled := true |>) (i_resize_list s) s' /\ i_in_progress s' = i_in_progress s.
Proof.
  intros Hrun. unfold pt_resize_list_enable in Hrun. assert (exists x, pts_at s p = Some x) as [x Ex].
  { unfold mod_pts in Hrun. destruct (pts_at s p); [eauto|done]. }
  exists x. split; [done|]. exact (mod_pts_changed _ _ _ _ _ Ex Hrun).
Qed.

(** The queue stays consistent. *)
Lemma changed_queue s p x y l s' : queue_ok s -> changed s p y l s' -> pts_at s p = Some x -> NoDup l ->
  (forall q, q ∈ l <-> if decide (q = p) then p_queued y = true else q ∈ i_resize_list s) -> queue_ok s'.
Proof.
  intros [H1 H2] [C1 C2 C3] Ex Hnd Hl. split; rewrite C2; [done|]. intros q. rewrite Hl, C1. case_decide; [|apply H2]. naive_solver.
Qed.
End Sections.

(** ** Interleavings *)

Section World.
Context {D : Type}.
Implicit Types s : pt_internal D.

Record world := MkWorld {
  w_s : pt_internal D;
  w_waiting : list pts_ptr;
  w_log : list (pts_ptr * Z);
  w_told : pts_ptr -> Z
}.

(** A callback that calls [pt_client_*()] on its own handle needs the mutex of the
    handle to return. *)
Context (needs_lock : pts_ptr -> bool).

Definition locked (w : world) (h : Z) : Prop := exists q, q ∈ w_waiting w /\ fst q = h.
Definition can_return (w : world) : Prop := forall p, i_in_progress (w_s w) = Some p -> needs_lock p = true -> ~ locked w (fst p).
Definition tell (told : pts_ptr -> Z) (p : pts_ptr) (size : Z) : pts_ptr -> Z := fun q => if decide (q = p) then size else told q.

Inductive event := EResize (p : pts_ptr) (size : Z) | ENext | EDisable (p : pts_ptr) | EWake (p : pts_ptr) | EEnable (p : pts_ptr) (size : Z).

(** [EEnable p size]: [size] is what the client was told when it enabled [p]. *)
Inductive step (w : world) : event -> world -> Prop :=
| StResize p size s' : pt_resize_internal p size (w_s w) = Done tt s' ->
    step w (EResize p size) (MkWorld s' (w_waiting w) (w_log w) (w_told w))
| StNext p size s' : can_return w -> pt_resize_list_next (w_s w) = Done (Some (p, size)) s' ->
    step w ENext (MkWorld s' (w_waiting w) (w_log w ++ [(p, size)]) (tell (w_told w) p size))
| StIdle s' : can_return w -> pt_resize_list_next (w_s w) = Done None s' ->
    step w ENext (MkWorld s' (w_waiting w) (w_log w) (w_told w))
| StDisable p b s' : ~ locked w (fst p) -> resize_list_flush p (w_s w) = Done b s' ->
    step w (EDisable p) (MkWorld s' (p :: w_waiting w) (w_log w) (w_told w))
| StWake p : p ∈ w_waiting w -> i_in_progress (w_s w) <> Some p ->
    step w (EWake p) (MkWorld (w_s w) (filter (fun q => q <> p) (w_waiting w)) (w_log w) (w_told w))
| StEnable p size s' : pt_resize_list_enable p (w_s w) = Done tt s' ->
    step w (EEnable p size) (MkWorld s' (w_waiting w) (w_log w) (tell (w_told w) p size)).

Inductive steps (w : world) : list event -> world -> Prop :=
| steps_nil : steps w [] w
| steps_snoc l w' e w'' : steps w l w' -> step w' e w'' -> steps w (l ++ [e]) w''.

Lemma step_queue w e w' : step w e w' -> queue_ok (w_s w) -> queue_ok (w_s w').
Proof.
  intros Hs Hq. pose proof (qk_nodup _ Hq) as Hnd. destruct Hs as [p size s' Hrun|p size s' _ Hrun|s' _ Hrun|p b s' _ Hrun|p _ _|p size s' Hrun]; cbn [w_s].
  - destruct (resize_changed _ _ _ _ Hrun) as (x & Ex & _ & Hc). set (b := queues _ _ _ _) in *.
    assert (Hb : b = true -> p ∉ i_resize_list (w_s w)).
    { intros Hb. unfold b, queues in Hb. rewrite (qk_flag _ Hq). intros (x' & Ex' & Hx'). simplify_eq. rewrite Hx', andb_false_r in Hb. done. }
    eapply changed_queue; [done|done|done| |].
    + destruct b; [|done]. apply NoDup_cons. auto.
    + intros q. simpl. destruct b eqn:Eb.
      * rewrite orb_true_r. case_decide; set_solver.
      * rewrite orb_false_r. case_decide; [subst|done]. rewrite (qk_flag _ Hq). naive_solver.
  - apply next_changed in Hrun as (x & rest & El & Ex & _ & Hc & _). rewrite El in Hnd. apply NoDup_cons in Hnd as [Hnp Hnd].
    eapply changed_queue; [done|done|done|done|]. intros q. rewrite El. case_decide; [subst; simpl; naive_solver|set_solver].
  - apply next_changed in Hrun as [El ->]. destruct Hq as [H1 H2]. split; [done|]. exact H2.
  - destruct (flush_changed _ _ _ _ Hrun) as (x & y & Ex & _ & _ & Hy & _ & Hc). eapply changed_queue; [done|done|done| |].
    + destruct (p_queued x); [by apply NoDup_filter|done].
    + intros q. destruct (p_queued x) eqn:Eq.
      * rewrite list_elem_of_filter. case_decide; [subst; rewrite Hy; naive_solver|tauto].
      * case_decide; [subst|done]. rewrite Hy, (qk_flag _ Hq). split; [intros (x' & Ex' & Hx'); congruence|done].
  - done.
  - destruct (enable_changed _ _ _ Hrun) as (x & Ex & Hc & _). eapply changed_queue; [done|done|done|done|].
    intros q. case_decide; [subst|done]. simpl. rewrite (qk_flag _ Hq). naive_solver.
Qed.

(** *** After disabling *)

(** Disabled and off the queue. *)
Definition off (w : world) (p : pts_ptr) : Prop := (exists x, pts_at (w_s w) p = Some x /\ p_enabled x = false) /\ p ∉ i_resize_list (w_s w).
Definition calls_of (w : world) (p : pts_ptr) : list (pts_ptr * Z) := filter (fun c => fst c = p) (w_log w).

Lemma changed_off s q y l s' p : changed s q y l s' -> (exists x, pts_at s p = Some x /\ p_enabled x = false) -> p ∉ l ->
  (p = q -> p_enabled y = false) -> (exists x, pts_at s' p = Some x /\ p_enabled x = false) /\ p ∉ i_resize_list s'.
Proof.
  intros [H1 H2 H3] (x & Ex & Hx) Hl Hy. rewrite H2. split; [|done]. rewrite H1. case_decide as Hd; [exists y; auto|eauto].
Qed.

Lemma off_step w e w' p : step w e w' -> queue_ok (w_s w) -> off w p -> (forall size, e <> EEnable p size) ->
  off w' p /\ calls_of w' p = calls_of w p /\ (i_in_progress (w_s w) <> Some p -> i_in_progress (w_s w') <> Some p).
Proof.
  intros Hs Hq [Hoff Hnl] He. destruct Hs as [q size s' Hrun|q size s' _ Hrun|s' _ Hrun|q b s' _ Hrun|q _ _|q size s' Hrun]; unfold off, calls_of; cbn [w_s w_log].
  - destruct (resize_changed _ _ _ _ Hrun) as (x & Ex & Hip & Hc). split; [|by rewrite Hip].
    eapply changed_off; [exact Hc|done| |intros <-; destruct Hoff as (x' & Ex' & Hx'); simpl; congruence].
    destruct (queues (w_s w) q x (u32 size)) eqn:Eq; [|done]. intros [->|Hin]%elem_of_cons; [|done].
    destruct Hoff as (x' & Ex' & Hx'). assert (x' = x) by congruence. subst x'. unfold queues in Eq. rewrite Hx', !andb_false_r in Eq. done.
  - apply next_changed in Hrun as (x & rest & El & Ex & _ & Hc & Hip). assert (p <> q) by (intros ->; apply Hnl; rewrite El; left).
    split; [eapply changed_off; [exact Hc|done|rewrite El in Hnl; set_solver|done]|]. rewrite filter_app, Hip. split; [|congruence].
    rewrite (filter_cons_False _ (q, size)) by (simpl; congruence). by rewrite app_nil_r.
  - apply next_changed in Hrun as [El ->]. done.
  - destruct (flush_changed _ _ _ _ Hrun) as (x & y & Ex & _ & Hy & _ & Hip & Hc). split; [|by rewrite Hip].
    eapply changed_off; [exact Hc|done| |done]. destruct (p_queued x); [rewrite list_elem_of_filter; tauto|done].
  - done.
  - destruct (enable_changed _ _ _ Hrun) as (x & Ex & Hc & Hip). split; [|by rewrite Hip].
    eapply changed_off; [exact Hc|done|done|]. intros <-. by destruct (He size).
Qed.

Lemma off_steps w l w' p : steps w l w' -> queue_ok (w_s w) -> off w p -> (forall size, EEnable p size ∉ l) ->
  queue_ok (w_s w') /\ off w' p /\ calls_of w' p = calls_of w p /\ (i_in_progress (w_s w) <> Some p -> i_in_progress (w_s w') <> Some p).
Proof.
  intros Hs Hq Ho. induction Hs as [|l w1 e w2 _ IH Hstep]; intros He; [done|].
  destruct IH as (Hq1 & Ho1 & Hc1 & Hi1); [set_solver|].
  destruct (off_step w1 e w2 p Hstep Hq1 Ho1) as (Ho2 & Hc2 & Hi2); [intros size ->; apply (He size); set_solver|].
  split; [by eapply step_queue|]. split; [done|]. split; [congruence|auto].
Qed.

(** Disabling takes the partition off the queue, and returns when its callback does not run. *)
Lemma disable_off w p w' : step w (EDisable p) w' -> queue_ok (w_s w) -> off w' p /\ calls_of w' p = calls_of w p.
Proof.
  intros Hs Hq. inversion Hs as [| | |q b s' _ Hrun| |]; subst. destruct (flush_changed _ _ _ _ Hrun) as (x & y & Ex & _ & Hy & _ & _ & Hc).
  split; [|done]. split; cbn [w_s]; [exists y; rewrite (ch_pts _ _ _ _ _ Hc); by rewrite decide_True|].
  rewrite (ch_list _ _ _ _ _ Hc). destruct (p_queued x) eqn:Eq; [rewrite list_elem_of_filter; tauto|].
  rewrite (qk_flag _ Hq). intros (x' & Ex' & Hx'). congruence.
Qed.

Lemma wake_idle w p w' : step w (EWake p) w' -> i_in_progress (w_s w') <> Some p /\ w_s w' = w_s w.
Proof. intros Hs. inversion Hs; subst. done. Qed.

(** *** Telling the clients *)

(** Every enabled client knows the size of its partition, or its callback is queued. *)
Definition informed (w : world) : Prop := forall p x, pts_at (w_s w) p = Some x -> p_enabled x = true -> has_callback (w_s w) p = true ->
  p_queued x = true \/ w_told w p = p_size x.

(** An enabling without a change of size since the client was told. *)
Definition prompt (w : world) (e : event) : Prop :=
  match e with EEnable p size => forall x, pts_at (w_s w) p = Some x -> p_size x = size | _ => True end.

Lemma informed_step w e w' : step w e w' -> prompt w e -> informed w -> informed w'.
Proof.
  intros Hs Hp Hi. destruct Hs as [q size s' Hrun|q size s' _ Hrun|s' _ Hrun|q b s' _ Hrun|q _ _|q size s' Hrun]; intros p x; cbn [w_s w_told].
  - destruct (resize_changed _ _ _ _ Hrun) as (y & Ey & _ & [Hc _ Hb]). rewrite Hc, Hb. case_decide as Hd; [|apply Hi]. subst q.
    intros [= <-]. simpl. intros He Hcb. destruct (Hi p y Ey He Hcb) as [->|Ht]; [by left|]. unfold queues. rewrite Hcb, He.
    destruct (p_queued y); [by left|]. cbn [andb orb negb]. destruct (Z.eqb_spec (p_size y) (u32 size)); [right; congruence|by left].
  - apply next_changed in Hrun as (y & rest & _ & Ey & -> & [Hc _ Hb] & _). rewrite Hc, Hb. unfold tell. case_decide as Hd; [|apply Hi].
    intros [= <-] _ _. by right.
  - apply next_changed in Hrun as [_ ->]. apply Hi.
  - destruct (flush_changed _ _ _ _ Hrun) as (y & z & _ & _ & Hz & _ & _ & [Hc _ Hb]). rewrite Hc, Hb. case_decide; [|apply Hi].
    intros [= <-] He. congruence.
  - apply Hi.
  - destruct (enable_changed _ _ _ Hrun) as (y & Ey & [Hc _ Hb] & _). rewrite Hc, Hb. unfold tell. case_decide as Hd; [|apply Hi].
    subst q. intros [= <-] _ _. right. simpl. symmetry. by apply Hp.
Qed.

(** Runs in which every enabling is prompt. *)
Inductive prompt_steps (w : world) : list event -> world -> Prop :=
| prompt_nil : prompt_steps w [] w
| prompt_snoc l w' e w'' : prompt_steps w l w' -> step w' e w'' -> prompt w' e -> prompt_steps w (l ++ [e]) w''.

Lemma prompt_informed w l w' : prompt_steps w l w' -> queue_ok (w_s w) -> informed w -> queue_ok (w_s w') /\ informed w'.
Proof.
  induction 1 as [|l w1 e w2 _ IH Hs Hp]; intros Hq Hi; [done|]. destruct (IH Hq Hi) as [Hq1 Hi1].
  split; [by eapply step_queue|by eapply informed_step].
Qed.

Lemma prompt_cons w e w1 l w2 : step w e w1 -> prompt w e -> prompt_steps w1 l w2 -> prompt_steps w (e :: l) w2.
Proof.
  intros Hs Hp. induction 1 as [|l w2 e' w3 _ IH Hs' Hp'].
  - exact (prompt_snoc w [] w e w1 (prompt_nil w) Hs Hp).
  - exact (prompt_snoc w (e :: l) w2 e' w3 IH Hs' Hp').
Qed.

(** The thread alone empties the queue. *)
Lemma drain_queue n : forall w, length (i_resize_list (w_s w)) = n -> queue_ok (w_s w) -> informed w -> w_waiting w = [] ->
  exists w', prompt_steps w (replicate n ENext) w' /\ i_resize_list (w_s w') = [] /\ w_waiting w' = [].
Proof.
  assert (Hret : forall w, w_waiting w = [] -> can_return w).
  { intros w Hw p _ _ (q & Hq & _). rewrite Hw in Hq. by apply not_elem_of_nil in Hq. }
  induction n as [|n IH]; intros w Hn Hq Hi Hw.
  - exists w. split; [constructor|]. split; [by apply nil_length_inv|done].
  - destruct (i_resize_list (w_s w)) as [|p rest] eqn:El; [done|].
    assert (exists x, pts_at (w_s w) p = Some x) as [x Ex]. { destruct (proj1 (qk_flag _ Hq p)) as (x & Ex & _); [rewrite El; left|eauto]. }
    assert (exists s', pt_resize_list_next (w_s w) = Done (Some (p, p_size x)) s') as [s' Hrun].
    { unfold pt_resize_list_next, kbind at 1, kget. rewrite El. unfold kbind at 1, get_pts. rewrite Ex. unfold kbind at 1, kmod at 1.
      unfold kbind at 1. rewrite (mod_pts_run _ p x) by exact Ex. eexists. reflexivity. }
    assert (Hstep : step w ENext (MkWorld s' (w_waiting w) (w_log w ++ [(p, p_size x)]) (tell (w_told w) p (p_size x)))) by (constructor; auto).
    set (w1 := MkWorld _ _ _ _) in *. pose proof (next_changed _ _ _ Hrun) as (y & rest' & El' & _ & _ & Hc & _). rewrite El in El'. injection El' as <-.
    destruct (IH w1) as (w' & Hs & He & Hw'); [cbn; rewrite (ch_list _ _ _ _ _ Hc); simpl in Hn; lia|by eapply step_queue|by eapply informed_step|done|].
    exists w'. split; [|done]. by eapply (prompt_cons w ENext w1).
Qed.

(** *** Waiting for a callback *)

(** The thread is in the callback of [p], which needs the handle's mutex, and a
    client waits for that callback with the mutex held. *)
Definition entangled (w : world) (p : pts_ptr) : Prop := i_in_progress (w_s w) = Some p /\ p ∈ w_waiting w /\ needs_lock p = true.

Lemma entangled_step w e w' p : step w e w' -> entangled w p -> entangled w' p.
Proof.
  intros Hs (Hip & Hw & Hn). assert (Hr : ~ can_return w) by (intros Hr; apply (Hr p Hip Hn); by exists p).
  destruct Hs as [q size s' Hrun|q size s' Hret Hrun|s' Hret Hrun|q b s' _ Hrun|q _ Hne|q size s' Hrun]; unfold entangled; cbn [w_s w_waiting]; try done.
  - destruct (resize_changed _ _ _ _ Hrun) as (x & _ & Hi & _). by rewrite Hi.
  - destruct (flush_changed _ _ _ _ Hrun) as (x & y & _ & _ & _ & _ & Hi & _). rewrite Hi. split; [done|]. split; [by right|done].
  - split; [done|]. split; [|done]. apply list_elem_of_filter. split; [congruence|done].
  - destruct (enable_changed _ _ _ Hrun) as (x & _ & _ & Hi). by rewrite Hi.
Qed.
End World.
