(* ===== verification/PtRegister.v ===== *)
(** * Registering drivers and clients

    From the empty module on, registering drivers and clients keeps clients and
    drivers in agreement ([agree]), the registries without dangling addresses
    ([registry]) and every reference counted ([counted]): a driver that can be
    unregistered is used by no partition. *)

From S2P Require Import Prelude Pt PtOwner PtClient.

Section Register.
Context {D : Type} (ops : pt_ops D) `{Spec : !PtDriverSpec ops}.
Implicit Types s : pt_internal D.

(** ** Invariants of the registries *)

(** How many partitions of the clients name driver [a]. *)
Definition uses (a : Z) (ps : list pt_pts) : nat := length (filter (fun d => d = a) (map p_driver ps)).
Definition users s (a : Z) : nat := map_fold (fun _ h n => (n + uses a (h_pts h))%nat) O (i_handles s).

Record registry s : Prop := MkRegistry {
  rg_drivers : forall a, a ∈ i_driver_list s -> is_Some (i_drivers s !! a);
  rg_handles : forall a, a ∈ i_handle_list s -> is_Some (i_handles s !! a);
  rg_globals : forall g, g_driver (get_global g s) = None -> g_ptid (get_global g s) = PT_PTID_INVALID;
  rg_global_driver : forall g a, g_driver (get_global g s) = Some a -> is_Some (i_drivers s !! a)
}.

(** Each driver counts at least the references [n]. *)
Definition counted (n : Z -> nat) s : Prop := forall a d, i_drivers s !! a = Some d -> Z.of_nat (n a) <= dr_ref d < 2 ^ 31.

Lemma users_insert s a h x : i_handles s !! h = None ->
  users (s <| i_handles := <[h := x]> (i_handles s) |>) a = (users s a + uses a (h_pts x))%nat.
Proof. intros E. unfold users. simpl. rewrite map_fold_insert_L; [done|intros; lia|done]. Qed.

Lemma users_delete s a h x : i_handles s !! h = Some x ->
  (users (s <| i_handles := delete h (i_handles s) |>) a + uses a (h_pts x))%nat = users s a.
Proof.
  intros E. unfold users. simpl. rewrite (map_fold_delete_L _ _ h x (i_handles s)); [lia|intros; lia|done].
Qed.

Lemma uses_none a ps : Forall (fun x => p_driver x <> a) ps -> uses a ps = O.
Proof. unfold uses. induction 1 as [|x ps Hx _ IH]; [done|]. simpl. by rewrite filter_cons_False. Qed.

Lemma users_none s a : (forall p x, pts_at s p = Some x -> p_driver x <> a) -> users s a = O.
Proof.
  intros H. assert (Hh : forall h x, i_handles s !! h = Some x -> uses a (h_pts x) = O).
  { intros h x E. apply uses_none, Forall_lookup. intros i y Ey. apply (H (h, Z.of_nat i)).
    unfold pts_at. simpl. destruct (Z.ltb_spec (Z.of_nat i) 0); [lia|]. rewrite E. simpl. by rewrite Nat2Z.id. }
  unfold users. revert Hh. generalize (i_handles s). apply (map_fold_weak_ind (fun n m => (forall h x, m !! h = Some x -> uses a (h_pts x) = O) -> n = O)); [done|].
  intros h x m r E IH Hm. rewrite (Hm h x) by apply lookup_insert_eq. rewrite IH; [done|]. intros j y Ej. apply (Hm j y).
  rewrite lookup_insert_ne by congruence. done.
Qed.

(** ** The empty module *)

Lemma agree_init : agree ops (pt_init (D := D)).
Proof.
  exists (fun _ _ => None), (fun _ => None), (fun _ => None). split; [split|by split]; try done.
  - intros p. unfold core_at, pts_at. destruct (_ <? 0); [done|]. simpl. by rewrite lookup_empty.
  - by intros [].
  - split; [constructor|]. intros p. split; [by intros ?%not_elem_of_nil|]. intros (x & Ex & _). unfold pts_at in Ex.
    destruct (_ <? 0); [done|]. simpl in Ex. by rewrite lookup_empty in Ex.
Qed.

Lemma registry_init : registry (pt_init (D := D)).
Proof. split; [by intros a ?%not_elem_of_nil|by intros a ?%not_elem_of_nil|by intros []|by intros []]. Qed.

Lemma counted_init n : counted n (pt_init (D := D)).
Proof. intros a d. simpl. by rewrite lookup_empty. Qed.

(** ** Drivers *)

(** Only the globals' drivers and properties change, and only of those without one. *)
Lemma wp_claim_globals a names : forall cnt s Q,
  (forall s' lo by_, s' = s <| i_leftover := lo |> <| i_bypass := by_ |> ->
     (forall g, get_global g s' = get_global g s \/
        g_driver (get_global g s) = None /\ g_driver (get_global g s') = Some a /\ g_ptid (get_global g s') = g_ptid (get_global g s)) -> Q tt s') ->
  wp (claim_globals a names cnt) Q s.
Proof.
  induction names as [|n names IH]; intros cnt s Q HQ; cbn [claim_globals].
  - apply wp_ret. apply (HQ s (i_leftover s) (i_bypass s)); [by destruct s|auto].
  - apply wp_bind, wp_get, wp_bind. destruct (bool_decide (g_driver (i_leftover s) = None) && _) eqn:E1.
    + apply andb_prop in E1 as [E1%bool_decide_eq_true _]. unfold mod_global. apply wp_mod, IH. intros s' lo b -> Hg. eapply HQ; [by destruct s|].
      intros g. destruct (Hg g) as [->|(H1 & H2 & H3)]; destruct g; auto.
    + destruct (bool_decide (g_driver (i_bypass s) = None) && _) eqn:E2.
      * apply andb_prop in E2 as [E2%bool_decide_eq_true _]. unfold mod_global. apply wp_mod, IH. intros s' lo b -> Hg. eapply HQ; [by destruct s|].
        intros g. destruct (Hg g) as [->|(H1 & H2 & H3)]; destruct g; auto.
      * apply wp_ret, IH. exact HQ.
Qed.

(** A state with the same handles has the same partitions. *)
Lemma pts_handles s s' : i_handles s' = i_handles s -> forall p, pts_at s' p = pts_at s p.
Proof. intros E p. unfold pts_at. by rewrite E. Qed.

Lemma wp_driver_register s name children data a n : agree ops s -> registry s -> counted n s -> n a = O ->
  i_drivers s !! a = None -> pv_wf data -> pv_view data = ∅ ->
  wp (pt_driver_register name children ops data (Some a))
    (fun r s' => r = Some a /\ agree ops s' /\ registry s' /\ counted n s' /\ i_handles s' = i_handles s /\ is_Some (i_drivers s' !! a)) s.
Proof.
  intros (V & C & G & [H1 H2 H3 H4 H5 [H6 H7]] & Ho) [R1 R2 R3 R4] Hn Hna Ea Hw Hv. unfold pt_driver_register. apply wp_bind, wp_claim_globals.
  intros s1 lo b Hs1 Hg. apply wp_bind, wp_mod, wp_ret. set (names := map fst _). set (s2 := s1 <| i_drivers := _ |> <| i_driver_list := _ |>).
  assert (Hd : i_drivers s2 = <[a := MkDriver names ops 0 0 name data]> (i_drivers s)) by by subst s1.
  assert (Hh : i_handles s2 = i_handles s) by by subst s1. assert (Hl : i_resize_list s2 = i_resize_list s) by by subst s1.
  assert (Hpt : forall p, pts_at s2 p = pts_at s p) by by apply pts_handles.
  assert (Hglob : forall g, get_global g s2 = get_global g s1) by by intros [].
  assert (Hlive : forall b, is_Some (i_drivers s !! b) -> is_Some (i_drivers s2 !! b)).
  { intros c Hc. rewrite Hd. destruct (decide (c = a)) as [->|]; [rewrite lookup_insert_eq; eauto|by rewrite lookup_insert_ne]. }
  split; [done|]. split; [|split; [|split; [|split; [done|rewrite Hd, lookup_insert_eq; eauto]]]].
  - exists V, C, G. split; [|done]. split.
    + intros c t. unfold view_at. rewrite Hd, <- H1. unfold view_at. destruct (decide (c = a)) as [->|]; [|by rewrite lookup_insert_ne].
      rewrite lookup_insert_eq, Ea. simpl. by rewrite Hv, lookup_empty.
    + intros p. unfold core_at. rewrite Hpt. apply H2.
    + intros g. rewrite <- H3. unfold glob_at. rewrite Hglob. destruct (Hg g) as [->|(E1 & E2 & E3)]; [done|].
      rewrite E1, E2, E3, (R3 g E1). done.
    + intros c d. rewrite Hd. destruct (decide (c = a)) as [->|]; [rewrite lookup_insert_eq; by intros [= <-]|].
      rewrite lookup_insert_ne by done. apply H4.
    + intros p c Ec. by apply Hlive, (H5 p).
    + split; rewrite Hl; [done|]. intros p. rewrite Hpt. apply H7.
  - split.
    + intros c Hc. assert (c ∈ a :: i_driver_list s) as [->|Hc']%elem_of_cons by (by subst s1); [rewrite Hd, lookup_insert_eq; eauto|].
      by apply Hlive, R1.
    + intros c Hc. rewrite Hh. apply R2. by subst s1.
    + intros g. rewrite Hglob. destruct (Hg g) as [->|(E1 & E2 & E3)]; [apply R3|congruence].
    + intros g c. rewrite Hglob. destruct (Hg g) as [->|(E1 & E2 & E3)]; [intros Hc; by eapply Hlive, R4|]. rewrite E2. intros [= <-].
      rewrite Hd, lookup_insert_eq. eauto.
  - intros c d. rewrite Hd.
    destruct (decide (c = a)) as [->|]; [rewrite lookup_insert_eq; intros [= <-]; simpl; lia|]. rewrite lookup_insert_ne by done. apply Hn.
Qed.

(** ** References *)

(** A driver's reference count is not seen. *)
Lemma sees_ref V C G s a d v : sees ops V C G s -> i_drivers s !! a = Some d ->
  sees ops V C G (s <| i_drivers := <[a := d <| dr_ref := v |>]> (i_drivers s) |>).
Proof.
  intros [H1 H2 H3 H4 H5 H6] Ed. split; auto.
  - intros b t. rewrite <- H1. unfold view_at. simpl. destruct (decide (b = a)) as [->|]; [by rewrite lookup_insert_eq, Ed|by rewrite lookup_insert_ne].
  - intros b e. simpl. destruct (decide (b = a)) as [->|]; [rewrite lookup_insert_eq; intros [= <-]; exact (H4 a d Ed)|].
    rewrite lookup_insert_ne by done. apply H4.
  - intros p c Ec. simpl. destruct (decide (k_driver c = a)) as [->|]; [rewrite lookup_insert_eq; eauto|].
    rewrite lookup_insert_ne by done. by apply (H5 p).
  - destruct H6 as [H6 H7]. by split.
Qed.

(** [s'] is [s] but for the reference counts. *)
Record recount s s' : Prop := MkRecount {
  rc_handles : i_handles s' = i_handles s;
  rc_handle_list : i_handle_list s' = i_handle_list s;
  rc_driver_list : i_driver_list s' = i_driver_list s;
  rc_drivers : forall a, is_Some (i_drivers s' !! a) <-> is_Some (i_drivers s !! a);
  rc_globals : forall g, get_global g s' = get_global g s;
  rc_progress : i_in_progress s' = i_in_progress s;
  rc_sees : forall V C G, sees ops V C G s -> sees ops V C G s'
}.
#[local] Instance recount_refl : Reflexive recount.
Proof. by split. Qed.
#[local] Instance recount_trans : Transitive recount.
Proof. intros s1 s2 s3 [A1 A2 A3 A4 A5 A6 A7] [B1 B2 B3 B4 B5 B6 B7]. split; try congruence; [intros a; by rewrite B4|auto]. Qed.

Lemma recount_ref s a d v : i_drivers s !! a = Some d -> recount s (s <| i_drivers := <[a := d <| dr_ref := v |>]> (i_drivers s) |>).
Proof.
  intros Ed. split; try done; [|intros; by apply sees_ref]. intros b. simpl.
  destruct (decide (b = a)) as [->|]; [rewrite lookup_insert_eq, Ed; split; eauto|by rewrite lookup_insert_ne].
Qed.

Definition one_more (a : Z) (n : Z -> nat) : Z -> nat := fun b => if decide (b = a) then S (n b) else n b.

Lemma wp_driver_put n s a Q : is_Some (i_drivers s !! a) -> counted (one_more a n) s ->
  (forall s', recount s s' -> counted n s' -> Q tt s') -> wp (pt_driver_put a) Q s.
Proof.
  intros [d Ed] Hn HQ. pose proof (Hn a d Ed) as Ha. unfold one_more in Ha. rewrite decide_True in Ha by done.
  unfold pt_driver_put. apply wp_bind. eapply wp_eq; [unfold get_driver; by rewrite Ed|]. destruct (Z.ltb_spec (dr_ref d) 1); [lia|].
  eapply wp_eq; [unfold mod_driver; by rewrite Ed|]. apply HQ; [by apply recount_ref|]. intros b e. simpl.
  destruct (decide (b = a)) as [->|Hb].
  - rewrite lookup_insert_eq. intros [= <-]. simpl. rewrite s32_small by lia. lia.
  - rewrite lookup_insert_ne by done. intros Ee. specialize (Hn b e Ee). unfold one_more in Hn. by rewrite decide_False in Hn.
Qed.

(** References that can be taken without overflow. *)
Definition room (k : nat) s : Prop := forall a d, i_drivers s !! a = Some d -> dr_ref d + Z.of_nat k < 2 ^ 31.

Lemma wp_driver_get n k s name Q : registry s -> counted n s -> room (S k) s -> Q None s ->
  (forall a i s', a ∈ i_driver_list s -> recount s s' -> counted (one_more a n) s' -> room k s' -> Q (Some (a, i)) s') -> wp (pt_driver_get name) Q s.
Proof.
  intros [R1 _ _ _] Hn Hmax Hno Hyes. unfold pt_driver_get. apply wp_bind, wp_get, wp_bind.
  assert (Hfind : forall ds, (forall a, a ∈ ds -> is_Some (i_drivers s !! a)) ->
    wp (find_driver name ds) (fun r s' => s' = s /\ forall a i, r = Some (a, i) -> a ∈ ds) s).
  { induction ds as [|b ds IH]; intros Hds; [by apply wp_ret|]. destruct (Hds b) as [d Ed]; [left|]. cbn [find_driver]. apply wp_bind.
    eapply wp_eq; [unfold get_driver; by rewrite Ed|]. destruct (find_prop _ _ _).
    - apply wp_ret. split; [done|]. intros a i [= <- <-]. left.
    - eapply wp_mono; [apply IH; intros a Ha; apply Hds; by right|]. intros r s' [-> Hr]. split; [done|]. intros a i E. right. eauto. }
  eapply wp_mono; [apply (Hfind _ R1)|]. intros [[a i]|] s' [-> Hr]; [|by apply wp_ret]. pose proof (Hr a i eq_refl) as Hin.
  destruct (R1 a Hin) as [d Ed]. apply wp_bind. eapply wp_eq; [unfold mod_driver; by rewrite Ed|]. apply wp_ret.
  pose proof (Hn a d Ed). pose proof (Hmax a d Ed).
  apply Hyes; [done|by apply recount_ref| |]; intros b e; simpl; unfold one_more; destruct (decide (b = a)) as [->|Hb].
  - rewrite lookup_insert_eq. intros [= <-]. simpl. rewrite s32_small by lia. lia.
  - rewrite lookup_insert_ne by done. apply Hn.
  - rewrite lookup_insert_eq. intros [= <-]. simpl. rewrite s32_small by lia. lia.
  - rewrite lookup_insert_ne by done. intros Ee. specialize (Hmax b e Ee). lia.
Qed.

Lemma recount_registry s s' : recount s s' -> registry s -> registry s'.
Proof.
  intros [A1 A2 A3 A4 A5 A6 A7] [R1 R2 R3 R4]. split; [intros a; rewrite A3, A4; apply R1|intros a; rewrite A2, A1; apply R2| |].
  - intros g. rewrite A5. apply R3.
  - intros g a. rewrite A5, A4. apply R4.
Qed.

Lemma counted_le m n s : (forall a, (m a <= n a)%nat) -> counted n s -> counted m s.
Proof. intros H Hn a d Ed. specialize (Hn a d Ed). specialize (H a). lia. Qed.

Lemma counted_ext m n s : (forall a, m a = n a) -> counted n s -> counted m s.
Proof. intros H. apply counted_le. intros a. by rewrite H. Qed.

(** ** Clients *)

(** A partition as registration makes it. *)
Definition fresh s (x : pt_pts) : Prop :=
  p_enabled x = false /\ p_ptid x = PT_PTID_INVALID /\ p_queued x = false /\ is_Some (i_drivers s !! p_driver x).

Lemma uses_cons a x ps : uses a (x :: ps) = ((if decide (p_driver x = a) then 1 else 0) + uses a ps)%nat.
Proof. unfold uses. simpl. rewrite filter_cons. by case_decide. Qed.

Lemma wp_read_pts names : forall n s Q, registry s -> counted n s -> room (length names) s ->
  (forall e s', recount s s' -> counted n s' -> Q (inl e) s') ->
  (forall l s', recount s s' -> counted (fun b => n b + uses b l)%nat s' -> Forall (fresh s') l -> length l = length names -> Q (inr l) s') ->
  wp (read_pts names) Q s.
Proof.
  induction names as [|[name|] names IH]; intros n s Q R Hn Hk Herr Hok; cbn [read_pts].
  - apply wp_ret, Hok; [done| |constructor|done]. eapply counted_ext; [|exact Hn]. intros b. unfold uses. simpl. lia.
  - apply wp_bind. eapply (wp_driver_get n (length names)); [done|done|done|apply wp_ret; by apply Herr|]. intros a i s1 Hin Hr1 Hn1 Hk1.
    apply wp_bind. eapply IH; [by eapply recount_registry|exact Hn1|done| |].
    + intros e s2 Hr2 Hn2. apply wp_ret, Herr; [by etrans|]. eapply counted_le; [|exact Hn2]. intros b. unfold one_more. case_decide; lia.
    + intros l s2 Hr2 Hn2 Hl Hlen. apply wp_ret, Hok; [by etrans| | |simpl; lia].
      * eapply counted_ext; [|exact Hn2]. intros b. rewrite uses_cons. unfold one_more. simpl. repeat case_decide; lia.
      * constructor; [|done]. split_and!; try done. apply (rc_drivers _ _ Hr2), (rc_drivers _ _ Hr1), (rg_drivers _ R), Hin.
  - apply wp_ret. by apply Herr.
Qed.

Lemma wp_search s node Q : registry s ->
  (forall r, (forall h, r = Some h -> exists x, i_handles s !! h = Some x /\ h_node x = node) -> Q r s) -> wp (pt_handle_search node) Q s.
Proof.
  intros [_ R2 _ _] HQ. unfold pt_handle_search. apply wp_bind, wp_get. revert R2. induction (i_handle_list s) as [|a hs IH]; intros R2; cbn [search_handles].
  - by apply wp_ret, HQ.
  - destruct (R2 a) as [x Ex]; [left|]. apply wp_bind. eapply wp_eq; [unfold get_handle; by rewrite Ex|]. destruct (Z.eqb_spec (h_node x) node).
    + apply wp_ret, HQ. intros h [= <-]. eauto.
    + apply IH. intros b Hb. apply R2. by right.
Qed.

(** The partitions with a handle added. *)
Lemma pts_at_handle s s' h x : i_handles s' = <[h := x]> (i_handles s) -> i_handles s !! h = None ->
  (forall p, pts_at s p <> None -> pts_at s' p = pts_at s p) /\
  (forall p y, pts_at s' p = Some y -> fst p = h /\ y ∈ h_pts x \/ fst p <> h /\ pts_at s p = Some y).
Proof.
  intros E Ex. split; intros [b i]; unfold pts_at; rewrite E; cbn [fst snd].
  - destruct (i <? 0); [done|]. intros Hp. destruct (decide (b = h)) as [->|]; [by rewrite Ex in Hp|]. by rewrite lookup_insert_ne.
  - intros y. destruct (i <? 0); [done|]. destruct (decide (b = h)) as [->|]; [|rewrite lookup_insert_ne by done; auto].
    rewrite lookup_insert_eq. simpl. intros Hy. left. split; [done|]. by eapply list_elem_of_lookup_2.
Qed.

Lemma agree_handle V C G s s' h x : sees ops V C G s -> own V C G -> i_handles s !! h = None ->
  i_handles s' = <[h := x]> (i_handles s) -> i_drivers s' = i_drivers s -> (forall g, get_global g s' = get_global g s) ->
  i_resize_list s' = i_resize_list s -> Forall (fresh s') (h_pts x) -> agree ops s'.
Proof.
  intros [H1 H2 H3 H4 H5 [H6 H7]] O Eh E Ed Eg El Hf. destruct (pts_at_handle s s' h x E Eh) as [Hold Hnew]. rewrite Forall_forall in Hf.
  assert (Hkeep : forall p c, C p = Some c -> core_at s' p = Some c).
  { intros p c Ec. rewrite <- H2 in Ec. unfold core_at in *. rewrite Hold; [done|]. by intros Hp; rewrite Hp in Ec. }
  assert (Hcase : forall p c, core_at s' p = Some c -> C p = Some c \/ k_enabled c = false /\ k_ptid c = PT_PTID_INVALID /\ is_Some (i_drivers s' !! k_driver c)).
  { intros p c. unfold core_at. intros (y & Ey & ->)%fmap_Some_1. destruct (Hnew p y Ey) as [[_ Hin]|[_ Ey']].
    - right. destruct (Hf y Hin) as (? & ? & _ & ?). done.
    - left. rewrite <- H2. unfold core_at. by rewrite Ey'. }
  exists V, (core_at s'), G. split; [split; try done|destruct O as [O1 O2 O3 O4 O5 O6]; split; try done].
  - intros a t. rewrite <- H1. unfold view_at. by rewrite Ed.
  - intros g. rewrite <- H3. unfold glob_at. by rewrite Eg.
  - intros a d. rewrite Ed. apply H4.
  - intros p c Ec. destruct (Hcase p c Ec) as [Ec'|(_ & _ & Hl)]; [rewrite Ed; by apply (H5 p)|done].
  - split; rewrite El; [done|]. intros p. rewrite H7. split; intros (y & Ey & Hq).
    + exists y. rewrite Hold; [done|]. by rewrite Ey.
    + destruct (Hnew p y Ey) as [[_ Hin]|[_ Ey']]; [|eauto]. destruct (Hf y Hin) as (_ & _ & Hnq & _). congruence.
  - intros p c Ec Hp. destruct (Hcase p c Ec) as [Ec'|(_ & Hi & _)]; [by apply O1|done].
  - intros p c Ec Hp. destruct (Hcase p c Ec) as [Ec'|(He & _)]; [by apply (O2 p)|done].
  - intros a t p b Hv. destruct (O3 a t p b Hv) as (c & Ec & Hc). exists c. split; [by apply Hkeep|done].
Qed.

(** What a state keeps between the calls. *)
Record sound s : Prop := MkSound { sd_agree : agree ops s; sd_registry : registry s; sd_counted : counted (users s) s }.

Lemma recount_users s s' a : recount s s' -> users s' a = users s a.
Proof. intros Hr. unfold users. by rewrite (rc_handles _ _ Hr). Qed.

Lemma recount_sound s s' : recount s s' -> counted (users s) s' -> sound s -> sound s'.
Proof.
  intros Hr Hn [(V & C & G & H & O) R _]. split; [|by eapply recount_registry|].
  - exists V, C, G. split; [by apply (rc_sees _ _ Hr)|done].
  - eapply counted_ext; [|exact Hn]. intros a. by apply recount_users.
Qed.

(** The new handle's partitions are free; nothing else has changed. *)
Definition joined s h (k : nat) s' : Prop :=
  (forall i, part_at s' (h, Z.of_nat i) = if decide (i < k)%nat then Some Free else None) /\
  (forall p, fst p <> h -> part_at s' p = part_at s p) /\ i_in_progress s' = i_in_progress s.

Lemma wp_client_register s node names callback mem : sound s -> room (length names) s ->
  (forall h, mem = Some h -> i_handles s !! h = None) -> (forall a h, i_handles s !! a = Some h -> h_node h <> node) ->
  wp (pt_client_register node names callback mem)
    (fun r s' => sound s' /\ match r with
                               | inl _ => recount s s'
                               | inr h => mem = Some h /\ joined s h (length names) s'
                               end) s.
Proof.
  intros S Hk Hmem Hnode. unfold pt_client_register. case_bool_decide; [by apply wp_ret|]. destruct mem as [h|]; [|by apply wp_ret].
  specialize (Hmem h eq_refl). apply wp_bind. eapply wp_read_pts; [apply S|apply S|done| |].
  - intros e s1 Hr Hn. apply wp_ret. split; [by eapply recount_sound|done].
  - intros l s1 Hr Hn Hl Hlen. destruct S as [(V & C & G & H0 & O1) R0 _]. pose proof (rc_sees _ _ Hr _ _ _ H0) as H1. pose proof (recount_registry _ _ Hr R0) as R1. apply wp_bind, wp_search; [done|].
    intros [a|] Ha.
    { exfalso. destruct (Ha a eq_refl) as (x & Ex & Hx). rewrite (rc_handles _ _ Hr) in Ex. by apply (Hnode a x). }
    clear Ha. apply wp_bind, wp_mod, wp_ret. set (x := MkHandle callback l node). set (s2 := s1 <| i_handles := _ |> <| i_handle_list := _ |> <| i_timestamp := _ |>).
    assert (Eh : i_handles s1 !! h = None) by by rewrite (rc_handles _ _ Hr).
    destruct (pts_at_handle s1 s2 h x eq_refl Eh) as [Hold Hnew]. split; [split|split; [done|]].
    + by apply (agree_handle V C G s1 s2 h x).
    + destruct R1 as [A1 A2 A3 A4]. split; [exact A1| |exact A3|exact A4]. intros b Hb. simpl. destruct (decide (b = h)) as [->|]; [rewrite lookup_insert_eq; eauto|].
      rewrite lookup_insert_ne by done. apply A2. set_solver.
    + eapply counted_ext; [|exact Hn]. intros b. cbn beta. change (users s2 b) with (users (s1 <| i_handles := <[h := x]> (i_handles s1) |>) b).
      rewrite users_insert by done. by rewrite (recount_users _ _ _ Hr).
    + split; [|split; [|by rewrite <- (rc_progress _ _ Hr)]].
      * intros i. unfold part_at, core_at, pts_at. cbn [fst snd]. destruct (Z.ltb_spec (Z.of_nat i) 0); [lia|]. simpl. rewrite lookup_insert_eq. simpl.
        rewrite Nat2Z.id. case_decide as Hi.
        -- destruct (lookup_lt_is_Some_2 l i) as [y Ey]; [lia|]. rewrite Ey. simpl. f_equal. apply part_free. simpl.
           apply (proj1 (Forall_lookup _ _) Hl i y Ey).
        -- rewrite lookup_ge_None_2 by lia. done.
      * intros [b i] Hb. unfold part_at, core_at, pts_at. cbn [fst snd] in *. simpl. rewrite lookup_insert_ne by done. by rewrite (rc_handles _ _ Hr).
Qed.

(** ** Unregistering *)

Lemma wp_put_all ps : forall n s Q, Forall (fun x => p_ptid x = PT_PTID_INVALID /\ is_Some (i_drivers s !! p_driver x)) ps ->
  counted (fun b => n b + uses b ps)%nat s -> (forall s', recount s s' -> counted n s' -> Q tt s') -> wp (put_all ps) Q s.
Proof.
  induction ps as [|x ps IH]; intros n s Q Hf Hn HQ; cbn [put_all].
  - apply wp_ret, HQ; [done|]. eapply counted_le; [|exact Hn]. intros b. cbn beta. lia.
  - apply Forall_cons in Hf as [[Hp Hd] Hf]. rewrite Hp. cbn [negb Z.eqb]. apply wp_bind.
    apply (wp_driver_put (fun b => n b + uses b ps)%nat); [done| |].
    + eapply counted_ext; [|exact Hn]. intros b. cbn beta. rewrite uses_cons. unfold one_more. repeat case_decide; first [lia|congruence].
    + intros s1 Hr Hn1. apply (IH n); [|done|intros s2 Hr2 Hn2; apply HQ; [by etrans|done]].
      eapply Forall_impl; [exact Hf|]. intros y [Hy Hdy]. split; [done|]. by apply (rc_drivers _ _ Hr).
Qed.

(** All partitions free and off the queue. *)
Definition idle_handle s h : Prop := forall i x, pts_at s (h, i) = Some x -> p_ptid x = PT_PTID_INVALID /\ p_queued x = false.

(** The partitions with a handle removed. *)
Lemma pts_at_delete s s' h : i_handles s' = delete h (i_handles s) -> forall p, pts_at s' p = if decide (fst p = h) then None else pts_at s p.
Proof.
  intros E [b i]. unfold pts_at. rewrite E. cbn [fst snd]. case_decide as Hb; [rewrite Hb, lookup_delete_eq; by destruct (i <? 0)|].
  by rewrite lookup_delete_ne by done.
Qed.

Lemma agree_delete V C G s s' h : sees ops V C G s -> own V C G -> idle_handle s h ->
  i_handles s' = delete h (i_handles s) -> i_drivers s' = i_drivers s -> (forall g, get_global g s' = get_global g s) ->
  i_resize_list s' = i_resize_list s -> agree ops s'.
Proof.
  intros [H1 H2 H3 H4 H5 [H6 H7]] O Hidle E Ed Eg El. pose proof (pts_at_delete s s' h E) as Hat.
  assert (Hc : forall p, core_at s' p = if decide (fst p = h) then None else C p).
  { intros p. unfold core_at. rewrite Hat. case_decide; [done|]. apply H2. }
  assert (Hno : forall p c, fst p = h -> C p = Some c -> k_ptid c = PT_PTID_INVALID).
  { intros [b i] c Hb Ec. simpl in Hb. subst b. rewrite <- H2 in Ec. unfold core_at in Ec. apply fmap_Some_1 in Ec as (x & Ex & ->). by apply (Hidle i). }
  exists V, (core_at s'), G. split; [split; try done|destruct O as [O1 O2 O3 O4 O5 O6]; split; try done].
  - intros a t. rewrite <- H1. unfold view_at. by rewrite Ed.
  - intros g. rewrite <- H3. unfold glob_at. by rewrite Eg.
  - intros a d. rewrite Ed. apply H4.
  - intros p c. rewrite Hc, Ed. case_decide; [done|]. apply H5.
  - split; rewrite El; [done|]. intros p. rewrite H7, Hat. case_decide as Hb; [|done]. split; [|by intros (? & ? & _)].
    intros (x & Ex & Hq). destruct p as [b i]. simpl in Hb. subst b. destruct (Hidle i x Ex). congruence.
  - intros p c. rewrite Hc. case_decide; [done|]. apply O1.
  - intros p c. rewrite Hc. case_decide; [done|]. apply O2.
  - intros a t p b Hv. destruct (O3 a t p b Hv) as (c & Ec & Ha & Ht). exists c. split; [|done]. rewrite Hc, decide_False; [done|].
    intros Hb. apply (O6 a t _ Hv). rewrite <- Ht. by eapply Hno.
Qed.

Lemma wp_client_unregister s h x : sound s -> i_handles s !! h = Some x -> idle_handle s h ->
  wp (pt_client_unregister h) (fun _ s' => sound s' /\ (forall p, part_at s' p = if decide (fst p = h) then None else part_at s p) /\
    i_in_progress s' = i_in_progress s) s.
Proof.
  intros [(V & C & G & H & O) R Hn] Ex Hidle. unfold pt_client_unregister. apply wp_bind. eapply wp_eq; [unfold get_handle; by rewrite Ex|]. apply wp_bind.
  set (s0 := s <| i_handles := delete h (i_handles s) |>).
  assert (Hin : forall i y, h_pts x !! i = Some y -> pts_at s (h, Z.of_nat i) = Some y).
  { intros i y Ey. unfold pts_at. cbn [fst snd]. destruct (Z.ltb_spec (Z.of_nat i) 0); [lia|]. rewrite Ex. simpl. by rewrite Nat2Z.id. }
  apply (wp_put_all _ (users s0)).
  - apply Forall_lookup. intros i y Ey%Hin. split; [by apply (Hidle (Z.of_nat i))|]. apply (ss_live _ _ _ _ _ H (h, Z.of_nat i) (core_of y)).
    rewrite <- (ss_core _ _ _ _ _ H). unfold core_at. by rewrite Ey.
  - eapply counted_ext; [|exact Hn]. intros b. exact (users_delete s b h x Ex).
  - intros s1 Hr Hn1. apply wp_mod. set (s2 := s1 <| i_timestamp := _ |> <| i_handle_list := _ |> <| i_handles := _ |>).
    assert (Eh : i_handles s2 = delete h (i_handles s)) by (simpl; by rewrite (rc_handles _ _ Hr)).
    split; [split|split].
    + eapply (agree_delete V C G s1 s2 h); [by apply (rc_sees _ _ Hr)|done| |done|done|by intros []|done].
      intros i y. rewrite (pts_handles s s1); [apply Hidle|apply Hr].
    + destruct (recount_registry _ _ Hr R) as [A1 A2 A3 A4]. split; [exact A1| |exact A3|exact A4]. intros b. simpl. rewrite list_elem_of_filter. intros [Hb Hin'].
      rewrite lookup_delete_ne by congruence. by apply A2.
    + eapply counted_ext; [|exact Hn1]. intros b. unfold users. by rewrite Eh.
    + intros p. unfold part_at, core_at. rewrite (pts_at_delete s s2 h Eh). by case_decide.
    + simpl. apply Hr.
Qed.

Lemma users_pos s p x : pts_at s p = Some x -> (0 < users s (p_driver x))%nat.
Proof.
  destruct p as [h i]. intros E. unfold pts_at in E. cbn [fst snd] in E. destruct (i <? 0); [done|]. destruct (i_handles s !! h) as [hd|] eqn:Eh; [|done].
  simpl in E. rewrite <- (users_delete s (p_driver x) h hd Eh). assert (0 < uses (p_driver x) (h_pts hd))%nat; [|lia].
  unfold uses. assert (p_driver x ∈ filter (fun d => d = p_driver x) (map p_driver (h_pts hd))) as Hin.
  { apply list_elem_of_filter. split; [done|]. apply list_elem_of_fmap_2. by eapply list_elem_of_lookup_2. }
  destruct (filter _ _); [by apply not_elem_of_nil in Hin|simpl; lia].
Qed.

Lemma sound_init : sound (pt_init (D := D)).
Proof. split; [apply agree_init|apply registry_init|apply counted_init]. Qed.

Lemma wp_driver_register_sound s name children data a : sound s -> i_drivers s !! a = None -> pv_wf data -> pv_view data = ∅ ->
  wp (pt_driver_register name children ops data (Some a)) (fun r s' => sound s' /\ forall p, part_at s' p = part_at s p) s.
Proof.
  intros [(V & C & G & H & O) R Hn] Ea Hw Hv. eapply wp_mono; [apply (wp_driver_register s name children data a (users s)); auto; [by exists V, C, G|]|].
  - apply users_none. intros p x Ex Hx. destruct (ss_live _ _ _ _ _ H p (core_of x)) as [d Ed]; [rewrite <- (ss_core _ _ _ _ _ H); unfold core_at; by rewrite Ex|].
    simpl in Ed. congruence.
  - intros r s' (_ & Ha & R' & Hn' & Hh & _). split; [split; [done|done|]|].
    + eapply counted_ext; [|exact Hn']. intros b. unfold users. by rewrite Hh.
    + intros p. unfold part_at, core_at. by rewrite (pts_handles s s').
Qed.

(** A driver that a global partition still names must stay. *)
Lemma wp_driver_unregister s a d : sound s -> i_drivers s !! a = Some d -> (forall g, g_driver (get_global g s) <> Some a) ->
  wp (pt_driver_unregister a) (fun r s' => sound s' /\ (forall p, part_at s' p = part_at s p) /\
    (r = - EBUSY /\ s' = s \/ r = 0 /\ i_drivers s' !! a = None /\ forall p x, pts_at s' p = Some x -> p_driver x <> a)) s.
Proof.
  intros S Ed Hg. unfold pt_driver_unregister. apply wp_bind. eapply wp_eq; [unfold get_driver; by rewrite Ed|].
  destruct (Z.eqb_spec (dr_ref d) 0) as [Hz|Hz]; cbn [negb]; [|apply wp_ret; auto]. apply wp_bind, wp_mod, wp_ret.
  destruct S as [(V & C & G & H & Ho) [R1 R2 R3 R4] Hn]. set (s' := s <| i_driver_list := _ |> <| i_drivers := _ |>).
  assert (Hu : users s a = O) by (specialize (Hn a d Ed); lia).
  assert (Hno : forall p x, pts_at s p = Some x -> p_driver x <> a) by (intros p x Ex Hx; pose proof (users_pos s p x Ex); rewrite Hx in *; lia).
  assert (HC : forall p c, C p = Some c -> k_driver c <> a).
  { intros p c. rewrite <- (ss_core _ _ _ _ _ H). unfold core_at. intros (x & Ex & ->)%fmap_Some_1. by apply (Hno p). }
  assert (HV : forall t, V a t = None).
  { intros t. destruct (V a t) as [[[p|] b]|] eqn:Ev; [| |done]; exfalso.
    - destruct (ow_up _ _ _ Ho a t p b Ev) as (c & Ec & Hd & _). by apply (HC p c).
    - destruct (ow_global _ _ _ Ho a t b Ev) as (_ & g & Eg). rewrite <- (ss_glob _ _ _ _ _ H) in Eg. unfold glob_at in Eg.
      destruct (g_driver (get_global g s)) as [c|] eqn:Ec; [|done]. simpl in Eg. destruct (_ =? _); [done|]. injection Eg as -> _. by apply (Hg g). }
  split; [split|split; [done|]].
  - exists V, C, G. split; [|done]. destruct H as [H1 H2 H3 H4 H5 [H6 H7]]. split; auto; [| | |by split].
    + intros b t. rewrite <- H1. unfold view_at. simpl. destruct (decide (b = a)) as [->|]; [|by rewrite lookup_delete_ne].
      rewrite lookup_delete_eq. change (None = view_at ops s a t). by rewrite H1, HV.
    + intros b e. simpl. destruct (decide (b = a)) as [->|]; [by rewrite lookup_delete_eq|]. rewrite lookup_delete_ne by done. apply H4.
    + intros p c Ec. simpl. rewrite lookup_delete_ne by (symmetry; by eapply HC). by apply (H5 p).
  - split; [|exact R2|exact R3|].
    + intros b. simpl. rewrite list_elem_of_filter. intros [Hb Hin]. rewrite lookup_delete_ne by done. by apply R1.
    + intros g b Hb. simpl. rewrite lookup_delete_ne; [by apply (R4 g)|]. intros <-. by apply (Hg g).
  - intros b e. simpl. destruct (decide (b = a)) as [->|]; [by rewrite lookup_delete_eq|]. rewrite lookup_delete_ne by done. apply Hn.
  - right. split; [done|]. split; [simpl; by rewrite lookup_delete_eq|done].
Qed.
End Register.
