(* ===== verification/PtModule.v ===== *)
(** * The module as a whole

    Clients' requests leave the registries and the references alone ([keeps]), so
    every sequence of registrations, requests, callbacks and removals within the
    conditions ([legal]), from the module's start, keeps the state [sound] and does
    to the partitions what the specification [module_step] says. *)

From S2P Require Import Prelude Pt PtOwner PtClient PtRegister.

Create HintDb keeps.

Section Module_.
Context {D : Type} (ops : pt_ops D) `{Spec : !PtDriverSpec ops}.
Implicit Types s : pt_internal D.

(** ** What requests leave alone *)

Definition shape (h : pt_handle) : Z * list Z := (h_node h, map p_driver (h_pts h)).

Record same_shape s s' : Prop := MkSame {
  sh_handles : shape <$> i_handles s' = shape <$> i_handles s;
  sh_drivers : dr_ref <$> i_drivers s' = dr_ref <$> i_drivers s;
  sh_handle_list : i_handle_list s' = i_handle_list s;
  sh_driver_list : i_driver_list s' = i_driver_list s;
  sh_globals : forall g, g_driver (get_global g s') = g_driver (get_global g s);
  sh_unclaimed : forall g, g_driver (get_global g s) = None -> get_global g s' = get_global g s
}.
#[local] Instance same_refl : Reflexive same_shape.
Proof. by split. Qed.
#[local] Instance same_trans : Transitive same_shape.
Proof.
  intros s1 s2 s3 [A1 A2 A3 A4 A5 A6] [B1 B2 B3 B4 B5 B6]. split; try congruence. intros g Hg. rewrite B6; [by apply A6|]. by rewrite A5.
Qed.

Definition keeps {A} (m : PT D A) : Prop := forall s a s', m s = Done a s' -> same_shape s s'.

Lemma keeps_ret {A} (a : A) : keeps (kret a).
Proof. by intros s b s' [= <- <-]. Qed.
Lemma keeps_block {A} : keeps (kblock (A := A)).
Proof. done. Qed.
Lemma keeps_fault {A} : keeps (kfault (A := A)).
Proof. done. Qed.
Lemma keeps_get : keeps kget.
Proof. by intros s b s' [= <- <-]. Qed.
Lemma keeps_bind {A B} (m : PT D A) (k : A -> PT D B) : keeps m -> (forall a, keeps (k a)) -> keeps (kbind m k).
Proof. intros Hm Hk s b s'. unfold kbind. destruct (m s) as [a s1| |] eqn:E; [|done|done]. intros E'. etrans; [by eapply Hm|by eapply Hk]. Qed.
Lemma keeps_get_handle h : keeps (get_handle h).
Proof. intros s a s'. unfold get_handle. destruct (_ !! _); [|done]. by intros [= <- <-]. Qed.
Lemma keeps_get_pts p : keeps (get_pts p).
Proof. intros s a s'. unfold get_pts. destruct (pts_at s p); [|done]. by intros [= <- <-]. Qed.
Lemma keeps_list f : keeps (kmod (fun s => s <| i_resize_list := f s |>)).
Proof. by intros s a s' [= <- <-]. Qed.
Lemma keeps_progress p : keeps (kmod (fun s => s <| i_in_progress := p |>)).
Proof. by intros s a s' [= <- <-]. Qed.
Lemma keeps_mod_pts p f : (forall x, p_driver (f x) = p_driver x) -> keeps (mod_pts p f).
Proof.
  intros Hf s a s'. unfold mod_pts, pts_at. destruct (snd p <? 0); [done|]. destruct (i_handles s !! fst p) as [h|] eqn:Eh; [|done]. simpl.
  destruct (h_pts h !! Z.to_nat (snd p)) as [x|] eqn:Ex; [|done]. intros [= <- <-]. split; try done. simpl. apply map_eq. intros b. rewrite !lookup_fmap.
  destruct (decide (b = fst p)) as [->|]; [|by rewrite lookup_alter_ne]. rewrite lookup_alter_eq, Eh. simpl. unfold shape. simpl. do 2 f_equal.
  rewrite list_fmap_insert, Hf. apply list_insert_id. rewrite list_lookup_fmap, Ex. done.
Qed.
Lemma keeps_drv_op {R} a (f : pt_ops D -> M D R) : keeps (drv_op a f).
Proof.
  intros s r s'. unfold drv_op. destruct (i_drivers s !! a) as [d|] eqn:Ed; [|done]. destruct (f _ _) as [r' data| |]; [|done|done].
  intros [= <- <-]. split; try done. simpl. rewrite fmap_insert. apply insert_id. rewrite lookup_fmap, Ed. done.
Qed.

#[local] Hint Resolve keeps_ret keeps_block keeps_fault keeps_get keeps_get_handle keeps_get_pts keeps_list keeps_progress keeps_drv_op : keeps.
Ltac keep := repeat first
  [ progress auto with keeps | apply keeps_bind; [|intros] | apply keeps_mod_pts; intros; reflexivity
  | match goal with |- keeps (match ?x with _ => _ end) => destruct x end
  | match goal with |- keeps (if ?x then _ else _) => destruct x end ].

Lemma keeps_resize p size : keeps (pt_resize_internal p size).
Proof. unfold pt_resize_internal, pt_resize_list_add. keep. Qed.
#[local] Hint Resolve keeps_resize : keeps.
Lemma keeps_do_resizes rs : keeps (do_resizes rs).
Proof. induction rs as [|[[p|] size] rs IH]; cbn [do_resizes]; keep. Qed.
#[local] Hint Resolve keeps_do_resizes : keeps.
Lemma keeps_check h id : keeps (pt_handle_check h id).
Proof. unfold pt_handle_check. keep. Qed.
#[local] Hint Resolve keeps_check : keeps.
Lemma keeps_disable_no_free h id : keeps (pt_client_disable_no_free h id).
Proof. unfold pt_client_disable_no_free, pt_resize_list_disable, resize_list_flush, pt_driver_disable. keep. Qed.
Lemma keeps_free h id : keeps (pt_client_free h id).
Proof. unfold pt_client_free, pt_driver_free. keep. Qed.
#[local] Hint Resolve keeps_disable_no_free keeps_free : keeps.

Lemma keeps_request r : keeps (run_request r).
Proof.
  destruct r; cbn [run_request].
  - unfold pt_client_enable_size, enable_size_locked, pt_driver_alloc, pt_driver_enable, pt_resize_list_enable. keep.
  - keep.
  - keep.
  - unfold pt_client_disable. keep.
  - unfold pt_client_mutate, pt_driver_mutate. keep.
  - keep.
  - unfold pt_resize_list_next. keep.
Qed.

Lemma same_users s s' a : same_shape s s' -> users s' a = users s a.
Proof.
  intros H. assert (Hu : forall t : pt_internal D, users t a = map_fold (fun _ l n => (n + length (filter (fun d => d = a) (snd l)))%nat) O (shape <$> i_handles t)).
  { intros t. by rewrite map_fold_fmap. }
  by rewrite !Hu, (sh_handles _ _ H).
Qed.

Lemma same_live s s' a : same_shape s s' -> is_Some (i_drivers s' !! a) <-> is_Some (i_drivers s !! a).
Proof. intros H. by rewrite <- !(fmap_is_Some dr_ref), <- !lookup_fmap, (sh_drivers _ _ H). Qed.

Lemma same_registered s s' a : same_shape s s' -> is_Some (i_handles s' !! a) <-> is_Some (i_handles s !! a).
Proof. intros H. by rewrite <- !(fmap_is_Some shape), <- !lookup_fmap, (sh_handles _ _ H). Qed.

Lemma same_sound s s' : same_shape s s' -> agree ops s' -> sound ops s -> sound ops s'.
Proof.
  intros H Ha [_ [R1 R2 R3 R4] Hn]. split; [done|split|].
  - intros a. rewrite (sh_driver_list _ _ H), (same_live s) by done. apply R1.
  - intros a. rewrite (sh_handle_list _ _ H), (same_registered s) by done. apply R2.
  - intros g. rewrite (sh_globals _ _ H). intros Hg. rewrite (sh_unclaimed _ _ H) by done. by apply R3.
  - intros g a. rewrite (sh_globals _ _ H), (same_live s) by done. apply R4.
  - intros a d Ed. rewrite (same_users s) by done. assert (dr_ref <$> i_drivers s !! a = Some (dr_ref d)) as (e & Ee & ->)%fmap_Some_1; [|by apply (Hn a)].
    rewrite <- lookup_fmap, <- (sh_drivers _ _ H), lookup_fmap, Ed. done.
Qed.

(** ** Global partitions *)

Lemma own_global V C G g a t : own V C G -> G g = None -> t <> PT_PTID_INVALID -> V a t = None ->
  own (vset V a t (Some (None, true))) C (gset_at G g (Some (a, t))).
Proof.
  intros [O1 O2 O3 O4 O5 O6] Hg Ht Hv. split.
  - intros p c Ec Hp. pose proof (O1 p c Ec Hp) as He. rewrite vset_ne; [done|]. intros [E1 E2]. rewrite E1, E2 in He. congruence.
  - exact O2.
  - intros b u p e. unfold vset. case_decide; [done|]. apply O3.
  - intros b u e. unfold vset. case_decide as Hd.
    + destruct Hd as [-> ->]. intros [= <-]. split; [done|]. exists g. unfold gset_at. by rewrite decide_True.
    + intros He. destruct (O4 b u e He) as (-> & g' & Eg). split; [done|]. exists g'. unfold gset_at. rewrite decide_False; [done|]. congruence.
  - intros g' b u. unfold gset_at. case_decide as Hd; [intros [= <- <-]; apply vset_eq|]. intros Eg. pose proof (O5 g' b u Eg) as He.
    rewrite vset_ne; [done|]. intros [-> ->]. congruence.
  - intros b u e. unfold vset. case_decide as Hd; [destruct Hd as [_ ->]; done|]. apply O6.
Qed.

(** A change of a global partition only. *)
Lemma wp_mod_global V C G s g f e Q : g_driver (get_global g s) <> None -> (forall x, g_driver (f x) = g_driver x) -> sees ops V C G s ->
  (forall s', get_global g s' = f (get_global g s) -> glob_at s' g = e) ->
  (forall s', sees ops V C (gset_at G g e) s' -> get_global g s' = f (get_global g s) -> (forall h, h <> g -> get_global h s' = get_global h s) ->
     i_drivers s' = i_drivers s -> same_shape s s' -> Q tt s') ->
  wp (mod_global g f) Q s.
Proof.
  intros Ha Hf [H1 H2 H3 H4 H5 [H6 H7]] He HQ. unfold mod_global. apply wp_mod.
  assert (Hne : forall h s', get_global h s' = get_global h s -> glob_at s' h = glob_at s h) by (intros h s' E; unfold glob_at; by rewrite E).
  destruct g; (apply HQ; try done; [|by intros []|split; try done; [intros []; first [apply Hf|done]|intros [] ?; first [by destruct Ha|done]]]); (split; auto; [|by split]);
    intros h; unfold gset_at; (case_decide as Hd; [subst h; by apply He|]); rewrite <- H3; apply Hne; by destruct h.
Qed.

Lemma wp_keeps {A} (m : PT D A) Q s : keeps m -> wp m Q s -> wp m (fun a s' => Q a s' /\ same_shape s s') s.
Proof. intros Hm Hw. destruct (wp_run _ _ _ Hw) as (a & s' & Hrun & HQ). eapply wp_eq; [exact Hrun|]. split; [done|by eapply Hm]. Qed.

(** A call of the driver with its callbacks, for a global partition. *)
Lemma wp_global_call {R B} V C G s a d (f : pt_ops D -> M D R) (rs : R -> resizes) r d' (k : R -> PT D B) (Q' : B -> pt_internal D -> Prop) :
  sees ops V C G s -> owned V C -> i_drivers s !! a = Some d -> f ops (dr_data d) = Done r d' -> pv_wf d' ->
  to_owners (pv_view (dr_data d)) None (rs r) ->
  (forall s', sees ops (rview V a (pv_view d')) C G s' -> same_shape s s' -> wp (k r) Q' s') ->
  wp (let! r := drv_op a f in do! do_resizes (rs r) in k r) Q' s.
Proof.
  intros H Ho Ed Hf Hw Ht HQ. apply wp_bind. eapply wp_mono; [apply wp_keeps; [apply keeps_drv_op|]|].
  - eapply (wp_drv_op ops V C G s a d f r d' (fun b s' => b = r /\ sees ops (rview V a (pv_view d')) C G s')); auto.
  - intros r' s1 [[-> H1] K1]. apply wp_bind. eapply wp_mono; [apply wp_keeps; [apply keeps_do_resizes|]|].
    + eapply (wp_do_resizes ops _ _ _ _) with (Q := fun _ s' => sees ops (rview V a (pv_view d')) C G s'); [|exact H1|auto].
      exact (owners_exist ops V C G s a d None (rs r) H Ho Ed Ht ltac:(done)).
    + intros [] s2 [H2 K2]. apply HQ; [done|by etrans].
Qed.

Lemma wp_global_start V C G s g a t Q : sees ops (vset V a t (Some (None, false))) C G s -> owned V C ->
  g_driver (get_global g s) = Some a -> G g = Some (a, t) ->
  (forall s', sees ops (vset V a t (Some (None, true))) C G s' -> same_shape s s' -> Q tt s') ->
  wp (let! rs := drv_op a (fun ops => op_enable ops t) in do! do_resizes rs in
      let! pbha := drv_op a (fun ops => op_pbha ops t) in mod_global g (fun x => x <| g_pbha := pbha |>)) Q s.
Proof.
  intros H Ho Ea Eg HQ. assert (owned (vset V a t (Some (None, false))) C) as Hown.
  { intros b u p e. unfold vset. case_decide; [done|]. by apply Ho. }
  destruct (sees_driver ops _ _ _ _ a t _ H (vset_eq _ _ _ _)) as (d & Ed & Hw & Hd).
  destruct (pv_enable (dr_data d) t None Hw Hd) as (rs & d1 & Hrun & Hw1 & Hto & Hv).
  eapply (wp_global_call _ C G s a d _ (fun r => r)); [done|done|done|exact Hrun|done|done|]. intros s1 H1 K1. rewrite Hv in H1.
  apply (sees_ext ops _ _ _ (vset V a t (Some (None, true))) C G) in H1; [|intros b u; erewrite rview_insert; [|exact H|exact Ed]; unfold vset; by case_decide|done|done].
  destruct (sees_driver ops _ _ _ _ a t _ H1 (vset_eq _ _ _ _)) as (d2 & Ed2 & Hw2 & Hd2).
  destruct (pv_pbha (dr_data d2) t _ Hw2 Hd2) as [v Hrun2]. apply wp_bind. eapply wp_mono; [apply wp_keeps; [apply keeps_drv_op|]|].
  { eapply (wp_drv_op ops _ _ _ s1 a d2 _ v (dr_data d2) (fun b s' => b = v /\ sees ops _ C G s')); [exact H1|done|done|done|]. intros s2 H2 _. split; [done|exact H2]. }
  intros v' s2 [[-> H2] K2]. apply (sees_ext ops _ _ _ (vset V a t (Some (None, true))) C G) in H2; [|by eapply rview_same|done|done].
  assert (Ea2 : g_driver (get_global g s2) = Some a) by (rewrite (sh_globals _ _ K2), (sh_globals _ _ K1); done).
  assert (He2 : glob_at s2 g = Some (a, t)) by (by rewrite (ss_glob _ _ _ _ _ H2)).
  eapply (wp_mod_global _ _ _ _ g _ (Some (a, t))); [congruence|done|exact H2|intros s' E; rewrite <- He2; unfold glob_at; rewrite E; done|].
  intros s3 H3 _ _ _ K3. apply HQ; [|by do 2 (etrans; [eassumption|])].
  eapply sees_ext; [done|done| |exact H3]. intros h. unfold gset_at. case_decide; [by subst|done].
Qed.

(** The global partition is allocated and enabled, or the driver has refused it. *)
Lemma wp_global_enable s g : sound ops s ->
  wp (pt_global_enable g) (fun _ s' => sound ops s' /\ (forall p, part_at s' p = part_at s p) /\
    (glob_at s g <> None -> s' = s) /\ forall a t, glob_at s' g = Some (a, t) -> view_at ops s' a t = Some (None, true)) s.
Proof.
  intros S. destruct S as [(V & C & G & H & Ho) R Hn]. assert (S : sound ops s) by (split; [by exists V, C, G|done|done]).
  assert (Hown : forall V' C' G' s', sees ops V' C' G' s' -> own V' C' G' -> forall a t, glob_at s' g = Some (a, t) -> view_at ops s' a t = Some (None, true)).
  { intros V' C' G' s' H' O' a t. rewrite (ss_glob _ _ _ _ _ H'), (ss_view _ _ _ _ _ H'). apply (ow_globals _ _ _ O'). }
  assert (Hparts : forall V' G' s', sees ops V' C G' s' -> forall p, part_at s' p = part_at s p).
  { intros V' G' s' H' p. unfold part_at. by rewrite (ss_core _ _ _ _ _ H'), (ss_core _ _ _ _ _ H). }
  assert (Hstay : sound ops s /\ (forall p, part_at s p = part_at s p) /\ (glob_at s g <> None -> s = s) /\
    forall a t, glob_at s g = Some (a, t) -> view_at ops s a t = Some (None, true)) by (split_and!; auto; by eapply Hown).
  unfold pt_global_enable. apply wp_bind, wp_get. cbv zeta. destruct (g_driver (get_global g s)) as [a|] eqn:Ea; [|by apply wp_ret].
  destruct (Z.eqb_spec (g_ptid (get_global g s)) PT_PTID_INVALID) as [Ht|Ht]; cbn [negb]; [|by apply wp_ret].
  assert (Hnone : G g = None) by (rewrite <- (ss_glob _ _ _ _ _ H); unfold glob_at; rewrite Ea, Ht; done).
  assert (Hgl : glob_at s g = None) by (by rewrite (ss_glob _ _ _ _ _ H)).
  destruct (rg_global_driver _ R g a Ea) as [d Ed]. destruct (ss_drivers _ _ _ _ _ H a d Ed) as [_ Hw].
  destruct (pv_alloc (dr_data d) (g_property_index (get_global g s)) None Hw) as (t & rs & d' & Hrun & Hw' & Hto & Hcase).
  eapply (wp_global_call V C G s a d _ snd); [done|by eapply own_owned|done|exact Hrun|done|done|].
  intros s1 H1 K1. cbn [fst snd]. assert (Ea1 : g_driver (get_global g s1) = Some a) by (by rewrite (sh_globals _ _ K1)).
  apply wp_bind. destruct Hcase as [[-> Hv]|(Hne & Hfree & Hv)]; rewrite Hv in H1.
  - eapply (wp_mod_global _ _ _ _ g _ None); [congruence|done|exact H1|intros s' E; unfold glob_at; rewrite E; simpl; by rewrite Ea1|].
    intros s2 H2 Eg2 _ _ K2. rewrite Z.eqb_refl. apply wp_ret.
    assert (H2' : sees ops V C G s2).
    { eapply sees_ext; [by eapply rview_same|done| |exact H2]. intros h. unfold gset_at. case_decide; [by subst|done]. }
    split; [apply (same_sound s); [by etrans|by exists V, C, G|done]|]. split; [by eapply Hparts|]. split; [by rewrite Hgl|by eapply Hown].
  - apply (sees_ext ops _ _ _ (vset V a t (Some (None, false))) C G) in H1; [|by eapply rview_insert|done|done].
    apply Z.eqb_neq in Hne as Hne'.
    eapply (wp_mod_global _ _ _ _ g _ (Some (a, t))); [congruence|done|exact H1|intros s' E; unfold glob_at; rewrite E; simpl; rewrite Ea1, Hne'; done|].
    intros s2 H2 Eg2 _ _ K2. rewrite Hne'. set (G' := gset_at G g (Some (a, t))) in *.
    apply (wp_global_start V C G' s2 g a t); [done|by eapply own_owned|by rewrite (sh_globals _ _ K2)|unfold G', gset_at; by rewrite decide_True|].
    intros s5 H5 K5.
    assert (O5 : own (vset V a t (Some (None, true))) C G').
    { apply own_global; [done|done|done|]. rewrite <- (ss_view _ _ _ _ _ H). unfold view_at. by rewrite Ed. }
    split; [apply (same_sound s); [by do 2 (etrans; [eassumption|])|by eexists _, C, G'|done]|]. split; [by eapply Hparts|]. split; [by rewrite Hgl|by eapply Hown].
Qed.

(** ** Calls of the module *)

Inductive call :=
| AddDriver (name : string) (children : list (string * bool)) (data : D) (a : Z) | RemoveDriver (a : Z)
| Register (node : Z) (names : list (option string)) (callback : bool) (mem : option Z) | Unregister (h : Z)
| Global (g : pt_global_t) | Request (r : request).

Definition run_call (c : call) : PT D unit :=
  match c with
  | AddDriver name children data a => let! _ := pt_driver_register name children ops data (Some a) in kret tt
  | RemoveDriver a => let! _ := pt_driver_unregister a in kret tt
  | Register node names callback mem => let! _ := pt_client_register node names callback mem in kret tt
  | Unregister h => pt_client_unregister h
  | Global g => let! _ := pt_pid_global (Some g) in kret tt
  | Request r => run_request r
  end.

(** Memory is fresh; a driver starts with no ptid allocated and goes when no
    global partition names it; a node registers once; a client that leaves has
    freed its partitions and has no callback queued. *)
Definition legal s (c : call) : Prop :=
  match c with
  | AddDriver _ _ data a => i_drivers s !! a = None /\ pv_wf data /\ pv_view data = ∅
  | RemoveDriver a => is_Some (i_drivers s !! a) /\ forall g, g_driver (get_global g s) <> Some a
  | Register node names _ mem => room (length names) s /\ (forall h, mem = Some h -> i_handles s !! h = None) /\
      forall a h, i_handles s !! a = Some h -> h_node h <> node
  | Unregister h => is_Some (i_handles s !! h) /\ idle_handle s h
  | Global _ => True
  | Request r => allowed s r
  end.

(** What each makes of the partitions. *)
Inductive module_step (A : parts) : call -> parts -> Prop :=
| MAdd name children data a A' : (forall p, A' p = A p) -> module_step A (AddDriver name children data a) A'
| MRemove a A' : (forall p, A' p = A p) -> module_step A (RemoveDriver a) A'
| MRefused node names callback mem A' : (forall p, A' p = A p) -> module_step A (Register node names callback mem) A'
| MRegister node names callback h A' : (forall i, A' (h, Z.of_nat i) = if decide (i < length names)%nat then Some Free else None) ->
    (forall p, fst p <> h -> A' p = A p) -> module_step A (Register node names callback (Some h)) A'
| MUnregister h A' : (forall p, A' p = if decide (fst p = h) then None else A p) -> module_step A (Unregister h) A'
| MGlobal g A' : (forall p, A' p = A p) -> module_step A (Global g) A'
| MRequest r A' : spec_step A r A' -> module_step A (Request r) A'.

Lemma call_step s c : sound ops s -> legal s c -> wp (run_call c) (fun _ s' => sound ops s' /\ module_step (part_at s) c (part_at s')) s.
Proof.
  intros S L. destruct c as [name children data a|a|node names callback mem|h|g|r]; cbn [run_call legal] in *.
  - destruct L as (H1 & H2 & H3). apply wp_bind. eapply wp_mono; [by apply wp_driver_register_sound|]. intros r s' [S' Hp]. apply wp_ret.
    split; [done|]. by constructor.
  - destruct L as [[d Ed] Hg]. apply wp_bind. eapply wp_mono; [by eapply wp_driver_unregister|]. intros r s' (S' & Hp & _). apply wp_ret.
    split; [done|]. by constructor.
  - destruct L as (H1 & H2 & H3). apply wp_bind. eapply wp_mono; [by apply wp_client_register|]. intros [e|h] s' [S' Hr]; apply wp_ret; (split; [done|]).
    + apply MRefused. intros p. unfold part_at, core_at. rewrite (pts_handles s s'); [done|]. by apply (rc_handles _ _ _ Hr).
    + destruct Hr as [-> (Hj & Ho & _)]. by apply MRegister.
  - destruct L as [[x Ex] Hi]. eapply wp_mono; [by eapply wp_client_unregister|]. intros [] s' (S' & Hp & _). split; [done|]. by constructor.
  - unfold pt_pid_global. apply wp_bind, wp_bind. eapply wp_mono; [by apply wp_global_enable|]. intros [] s' (S' & Hp & _).
    apply wp_bind, wp_get, wp_ret, wp_ret. split; [done|]. by constructor.
  - destruct (wp_run _ _ _ (request_step ops s r (sd_agree _ _ S) L)) as ([] & s' & Hrun & Ha & Hs). eapply wp_eq; [exact Hrun|].
    split; [|by constructor]. eapply same_sound; [by eapply keeps_request|done|done].
Qed.

(** The module's states after legal calls that returned, and what the
    specification makes of the same calls. *)
Inductive runs (s0 : pt_internal D) : list call -> pt_internal D -> Prop :=
| runs_nil : runs s0 [] s0
| runs_snoc l s c s' : runs s0 l s -> legal s c -> run_call c s = Done tt s' -> runs s0 (l ++ [c]) s'.

Inductive module_runs (A : parts) : list call -> parts -> Prop :=
| module_nil : module_runs A [] A
| module_snoc l B c B' : module_runs A l B -> module_step B c B' -> module_runs A (l ++ [c]) B'.

Lemma runs_sound s0 l s : sound ops s0 -> runs s0 l s -> sound ops s /\ module_runs (part_at s0) l (part_at s).
Proof.
  intros S. induction 1 as [|l s c s' _ [IH1 IH2] Hl Hrun]; [split; [done|constructor]|].
  pose proof (call_step s c IH1 Hl) as Hs. apply (wp_done _ _ _ _ _ Hs) in Hrun as [S' Hstep]. split; [done|]. by econstructor.
Qed.

Lemma call_returns s c : sound ops s -> legal s c -> exists s', run_call c s = Done tt s'.
Proof. intros S L. destruct (wp_run _ _ _ (call_step s c S L)) as ([] & s' & Hrun & _). eauto. Qed.
End Module_.
