(* ===== verification/SlcAcpm.v ===== *)
(** * The cache driver over the firmware mailbox

    [drivers/soc/google/pt/slc_acpm.c], the driver of the partition interface used on
    the device: every operation is a command to the firmware. The firmware behind
    [acpm_ipc_send_data] is a parameter: its state, and for a command the result
    of the transfer and the words of the answer. *)

From S2P Require Import Prelude Pt SlcDummy.

Definition PT_ENABLE : Z := 0xd001.
Definition PT_DISABLE : Z := 0xd002.
Definition PT_CHECK : Z := 0xd003.
Definition PT_MUTATE : Z := 0xd004.
Definition PT_VERSION : Z := 0xd005.
Definition PT_VERSION_KNOWN : Z := 0x1.
Definition PT_VERSION_ASYNC : Z := 0x10008.
Definition PT_VERSION_INVALID : Z := 0x0.
Definition SLC_PLDTRC : Z := 0x6a.
Definition SLC_STOP : Z := 0x6b.

Record acpm_ptid := MkAcpmPtid {
  a_size_bits : Z; a_pbha : Z; a_vptid : Z; a_data : option pts_ptr; a_resize : resize_fn
}.
#[export] Instance eta_acpm_ptid : Eta acpm_ptid := mk_eta (fun t =>
  MkAcpmPtid (a_size_bits t) (a_pbha t) (a_vptid t) (a_data t) (a_resize t)).

(** [sa_channel] is the result of requesting the command channel, [sa_async_node]
    whether the notification channel can be requested, [sa_async] whether it was. *)
Record slc_acpm_data (F : Type) := MkSlcAcpm {
  sa_ptids : list acpm_ptid;
  sa_props : option (list (list Z));
  sa_inited : bool;
  sa_version : Z;
  sa_channel : Z;
  sa_async_node : bool;
  sa_async : bool;
  sa_fw : F
}.
Arguments MkSlcAcpm {F} _ _ _ _ _ _ _ _.
Arguments sa_ptids {F} _. Arguments sa_props {F} _. Arguments sa_inited {F} _. Arguments sa_version {F} _.
Arguments sa_channel {F} _. Arguments sa_async_node {F} _. Arguments sa_async {F} _. Arguments sa_fw {F} _.
#[export] Instance eta_slc_acpm {F} : Eta (slc_acpm_data F) := mk_eta (fun d =>
  MkSlcAcpm (sa_ptids d) (sa_props d) (sa_inited d) (sa_version d) (sa_channel d) (sa_async_node d) (sa_async d) (sa_fw d)).

(** The ptid and the data of an answer. *)
Definition pt_ptid_data_decode (ptid_data : Z) : Z * Z :=
  if ptid_data <? 0 then (-1, -1) else (Z.shiftr ptid_data 22, Z.land ptid_data 0x3fffff).

Section SlcAcpm.
Context {F : Type} (acpm_ipc_send_data : F -> list Z -> Z * list Z * F) (fuel : nat).
Abbreviation SA A := (M (slc_acpm_data F) A).

Definition aget (i : Z) : SA acpm_ptid := fun d =>
  if i <? 0 then Fault else match sa_ptids d !! Z.to_nat i with Some t => Done t d | None => Fault end.
Definition amod (i : Z) (f : acpm_ptid -> acpm_ptid) : SA unit := fun d =>
  if i <? 0 then Fault
  else match sa_ptids d !! Z.to_nat i with
       | Some t => Done tt (d <| sa_ptids := <[Z.to_nat i := f t]> (sa_ptids d) |>)
       | None => Fault
       end.

(** The error of the transfer, or the second word of the answer as an [int]. *)
Definition slc_acpm (command arg arg1 : Z) : SA Z := fun d =>
  match acpm_ipc_send_data (sa_fw d) [0; u32 arg; u32 command; u32 arg1] with
  | (ret, cmd, fw) => Done (if ret =? 0 then s32 (nth 1 cmd 0) else ret) (d <| sa_fw := fw |>)
  end.

Definition slc_version_check : SA bool :=
  let! d := kget in
  if sa_inited d then kret (Z.shiftr (sa_version d) 16 =? PT_VERSION_KNOWN)
  else
    do! kmod (fun d => d <| sa_inited := true |> <| sa_version := PT_VERSION_INVALID |>) in
    if sa_channel d <? 0 then kret false
    else
      let! v := slc_acpm PT_VERSION 0 0 in
      do! kmod (fun d => d <| sa_version := v |>) in
      if negb (Z.shiftr v 16 =? PT_VERSION_KNOWN) then kret false
      else
        do! (if sa_async_node d && negb (v <? PT_VERSION_ASYNC) then kmod (fun d => d <| sa_async := true |>) else kret tt) in
        kret true.

Definition acpm_resize (t : acpm_ptid) (size : Z) : resizes :=
  match a_resize t with
  | ResizeNull => []
  | ResizeClient => [(a_data t, size)]
  | ResizeNop => [(None, size)]
  end.

(** The [while] loop: callbacks for the sizes the firmware reports, until it has
    none or reports a ptid out of range. *)
Fixpoint check_loop (fuel : nat) (acc : resizes) : SA resizes :=
  let! ret := slc_acpm PT_CHECK 0 0 in
  if ret <=? 0 then kret acc
  else
    let (ptid, size4kB) := pt_ptid_data_decode ret in
    if (ptid >=? PT_PTID_MAX) || (ptid <? 0) then kret acc
    else
      let! t := aget ptid in
      match fuel with
      | O => kblock
      | S fuel' => check_loop fuel' (acc ++ acpm_resize t (s32 (size4kB * 4096)))
      end.
Definition slc_acpm_check : SA resizes := check_loop fuel [].

Definition slc_acpm_ioctl (args : list Z) : SA (Z * list Z) :=
  match args with
  | a0 :: a1 :: a2 :: rest =>
      let! ok := slc_version_check in
      if negb ok then kret (- ENOENT, args)
      else let! v := slc_acpm a0 a1 a2 in kret (0, v :: a1 :: a2 :: rest)
  | _ => kret (- EINVAL, args)
  end.

Definition slc_acpm_apply (ptid : Z) (zero_size : bool) : SA unit :=
  let! t := aget ptid in
  let arg := Z.lor (u32 (Z.shiftl ptid 8)) (u32 (Z.shiftl (a_vptid t) 16)) in
  let arg1 := if zero_size then 1 else a_size_bits t in
  let! _ := slc_acpm PT_MUTATE arg arg1 in kret tt.

(** The answer's ptid indexes the table unchecked. *)
Definition slc_acpm_alloc (property_index : Z) (resize_data : option pts_ptr) : SA (Z * resizes) :=
  let! ok := slc_version_check in
  if negb ok then kret (PT_PTID_INVALID, [])
  else
    let! d := kget in
    let value := pt_driver_get_property_value (sa_props d) property_index in
    match value 0, value 1, value 2 with
    | inr vptid, inr size_bits, inr priority =>
        let pbha := match value 3 with inr v => Z.land v PT_PBHA_MASK | inl _ => 0 end in
        let arg := Z.lor (Z.lor priority (u32 (Z.shiftl vptid 8))) (Z.shiftl (Z.land pbha 0xff) 16) in
        let! ret := slc_acpm PT_ENABLE arg 1 in
        if ret <? 0 then kret (ret, [])
        else
          let ptid := fst (pt_ptid_data_decode ret) in
          do! amod ptid (fun t => t <| a_vptid := vptid |> <| a_size_bits := size_bits |> <| a_data := resize_data |>
                                   <| a_pbha := pbha |> <| a_resize := fn_for resize_data |>) in
          let! rs := slc_acpm_check in
          kret (ptid, rs)
    | _, _, _ => kret (PT_PTID_INVALID, [])
    end.

Definition slc_acpm_mutate (ptid : Z) (resize_data : pts_ptr) (new_property_index : Z) : SA (Z * resizes) :=
  let! ok := slc_version_check in
  if negb ok then kret (PT_PTID_INVALID, [])
  else
    let! d := kget in
    let value := pt_driver_get_property_value (sa_props d) new_property_index in
    match value 0, value 1, value 2 with
    | inr vptid, inr size_bits, inr _ =>
        let pbha := match value 3 with inr v => v | inl _ => 0 end in
        let! t := aget ptid in
        if negb (a_pbha t =? Z.land pbha PT_PBHA_MASK) then kret (PT_PTID_INVALID, [])
        else
          do! amod ptid (fun t => t <| a_data := Some resize_data |> <| a_vptid := vptid |> <| a_size_bits := size_bits |>) in
          do! slc_acpm_apply ptid false in
          let! rs := slc_acpm_check in
          kret (ptid, rs)
    | _, _, _ => kret (PT_PTID_INVALID, [])
    end.

Definition slc_acpm_pbha (ptid : Z) : SA Z := let! t := aget ptid in kret (Z.land (a_pbha t) PT_PBHA_MASK).

Definition zero_acpm_ptid : acpm_ptid := MkAcpmPtid 0 0 0 None ResizeNull.

Definition slc_acpm_free (ptid : Z) : SA resizes :=
  let! ok := slc_version_check in
  if negb ok then kret []
  else
    let! _ := slc_acpm PT_DISABLE ptid 0 in
    let! rs := slc_acpm_check in
    do! amod ptid (fun _ => zero_acpm_ptid) in
    kret rs.

Definition slc_acpm_enable (ptid : Z) : SA resizes :=
  let! ok := slc_version_check in
  if negb ok then kret [] else do! slc_acpm_apply ptid false in slc_acpm_check.

Definition slc_acpm_disable (ptid : Z) : SA resizes :=
  let! ok := slc_version_check in
  if negb ok then kret [] else do! slc_acpm_apply ptid true in slc_acpm_check.

Definition slc_pldtrc_set (val : Z) : SA Z :=
  let! ok := slc_version_check in
  if negb ok then kret (- ENOENT)
  else
    let arg1 := Z.shiftr (Z.land val 0xff00) 8 in
    let arg2 := Z.land val 0xff in
    slc_acpm (if (arg1 =? 0) || (arg2 =? 0) then SLC_STOP else SLC_PLDTRC) arg1 arg2.

Definition slc_acpm_ops : pt_ops (slc_acpm_data F) :=
  MkOps slc_acpm_alloc slc_acpm_free slc_acpm_enable slc_acpm_disable slc_acpm_mutate slc_acpm_pbha (Some slc_acpm_ioctl).

Definition slc_acpm_new (channel : Z) (async_node : bool) (props : option (list (list Z))) (fw : F) : slc_acpm_data F :=
  MkSlcAcpm (replicate (Z.to_nat PT_PTID_MAX) zero_acpm_ptid) props false 0 channel async_node false fw.

(** ** The loop over the reports *)

(** What the firmware still has to report: [PT_CHECK] returns the reports one by
    one, then zero. *)
Context (pending : F -> list Z).
Definition serves : Prop := forall fw, exists w rest fw',
  acpm_ipc_send_data fw [0; 0; PT_CHECK; 0] = (0, w :: match pending fw with [] => 0 | r :: _ => r end :: rest, fw') /\ pending fw' = tail (pending fw).

(** A report of a ptid of the table, and the callback it causes. *)
Definition report_ok (r : Z) : Prop := 0 < r /\ Z.shiftr r 22 < PT_PTID_MAX.
Definition report (ptids : list acpm_ptid) (r : Z) : resizes :=
  match ptids !! Z.to_nat (Z.shiftr r 22) with Some t => acpm_resize t (s32 (Z.land r 0x3fffff * 4096)) | None => [] end.

Lemma check_loop_reports (Hserve : serves) rs : forall n d acc, pending (sa_fw d) = rs -> length (sa_ptids d) = 64%nat -> (length rs <= n)%nat ->
  Forall report_ok rs ->
  exists fw', check_loop n acc d = Done (acc ++ concat (map (report (sa_ptids d)) rs)) (d <| sa_fw := fw' |>) /\ pending fw' = [].
Proof.
  induction rs as [|r rs IH]; intros n d acc Hp Hlen Hn Hok; destruct (Hserve (sa_fw d)) as (w & rest & fw' & Hsend & Hp'); rewrite Hp in Hsend, Hp'.
  - exists fw'. split; [|done]. rewrite app_nil_r. destruct n; cbn [check_loop]; unfold kbind at 1, slc_acpm; change (u32 0) with 0; change (u32 PT_CHECK) with PT_CHECK;
      rewrite Hsend; reflexivity.
  - destruct n as [|n]; [simpl in Hn; lia|]. apply Forall_cons in Hok as [[Hr Ht] Hok]. rewrite Z.shiftr_div_pow2 in Ht by lia. unfold PT_PTID_MAX in Ht.
    pose proof (Z.div_mod r (2 ^ 22) ltac:(lia)) as Hdm. pose proof (Z.mod_pos_bound r (2 ^ 22) ltac:(lia)) as Hm.
    assert (0 <= r / 2 ^ 22) by (apply Z.div_pos; lia). assert (r < 2 ^ 28) as Hr28 by lia. cbn [check_loop]. unfold kbind at 1, slc_acpm at 1.
    change (u32 0) with 0. change (u32 PT_CHECK) with PT_CHECK. rewrite Hsend. cbn [Z.eqb nth]. rewrite s32_small by lia.
    destruct (Z.leb_spec r 0) as [|_]; [lia|]. unfold pt_ptid_data_decode. destruct (Z.ltb_spec r 0) as [|_]; [lia|].
    set (d1 := d <| sa_fw := fw' |>). rewrite Z.shiftr_div_pow2 by lia. unfold PT_PTID_MAX.
    destruct (Z.geb_spec (r / 2 ^ 22) 64) as [|_]; [lia|]. destruct (Z.ltb_spec (r / 2 ^ 22) 0) as [|Hge]; [lia|]. cbn [orb].
    destruct (lookup_lt_is_Some_2 (sa_ptids d) (Z.to_nat (r / 2 ^ 22))) as [t Et]; [lia|].
    unfold kbind at 1, aget. destruct (Z.ltb_spec (r / 2 ^ 22) 0) as [|_]; [lia|]. change (sa_ptids d1) with (sa_ptids d). rewrite Et.
    destruct (IH n d1 (acc ++ acpm_resize t (s32 (Z.land r 0x3fffff * 4096)))) as (fw2 & Hrun & Hend); [done|done|simpl in Hn; lia|done|].
    exists fw2. split; [|done]. rewrite Hrun. cbn [map concat]. unfold report at 2. rewrite Z.shiftr_div_pow2 by lia. rewrite Et, <- app_assoc. done.
Qed.

(** [slc_acpm_check] terminates and misses nothing: when the firmware reports a
    finite number of size changes of ptids of the table, and the fuel is that
    number, the loop returns after the last one, having called the resize
    callback of each reported ptid with its size in bytes, in the order of the
    reports. *)
Theorem check_reports_all d : serves -> length (sa_ptids d) = 64%nat -> Forall report_ok (pending (sa_fw d)) ->
  fuel = length (pending (sa_fw d)) ->
  exists fw', slc_acpm_check d = Done (concat (map (report (sa_ptids d)) (pending (sa_fw d)))) (d <| sa_fw := fw' |>) /\ pending fw' = [].
Proof. intros Hs Hl Hok Hf. apply (check_loop_reports Hs _ fuel d [] eq_refl Hl); [lia|done]. Qed.
End SlcAcpm.

(** A firmware with a list of reports. *)
Definition reporting (fw : list Z) (cmd : list Z) : Z * list Z * list Z := (0, [0; match fw with [] => 0 | r :: _ => r end], tail fw).

Definition reporting_driver : slc_acpm_data (list Z) :=
  MkSlcAcpm (<[3%nat := MkAcpmPtid 0x30 0 3 (Some (100, 0)) ResizeClient]> (replicate 64 zero_acpm_ptid)) None true 0x10001 0 false false
    [3 * 2 ^ 22 + 6; 5 * 2 ^ 22 + 1].

Lemma check_reports_all_witness :
  exists fw', slc_acpm_check reporting 2 reporting_driver = Done [(Some (100, 0), 24576)] (reporting_driver <| sa_fw := fw' |>) /\ fw' = [].
Proof.
  apply (check_reports_all reporting 2 (fun fw => fw) reporting_driver).
  - intros fw. exists 0, [], (tail fw). split; reflexivity.
  - reflexivity.
  - repeat constructor.
  - reflexivity.
Defined.
