(* ===== verification/PtSpec.v ===== *)
(** * What the partition driver guarantees

    The theorems about [pt.c] with its drivers: what calls do to the partitions,
    who holds a ptid, what a client may rely on about its callbacks, and the
    executions in which the code does not do what its comments say. The concrete
    executions run on [slc_dummy]. *)

From S2P Require Import Prelude Pt PtOwner PtClient SlcDummy PtResize PtRegister PtModule SlcAcpm.

(** ** A device *)

(** A cache with two client partitions, which share a ptid, a third one and the
    partition for the rest. *)
Definition cache_props : list (list Z) := [[3; 0x30; 0; 0]; [3; 0x70; 0; 0]; [5; 0x10; 0; 0]; [9; 0x20; 0; 0]].
Definition cache_children : list (string * bool) := [("gpu"%string, true); ("cam"%string, true); ("tpu"%string, true); ("LEFTOVER"%string, true)].
Definition cache_driver : slc_dummy := slc_dummy_new (Some cache_props).

Definition add_cache : call (D := slc_dummy) := AddDriver "slc"%string cache_children cache_driver 1.
Definition register_client : call (D := slc_dummy) := Register 7 [Some "gpu"%string; Some "cam"%string; Some "tpu"%string] true (Some 100).

(** The result of a computation and the state it leaves, when it returns. *)
Definition value_of {S A} (m : M S A) (s : S) : option A := match m s with Done a _ => Some a | _ => None end.
Definition state_of {S A} (m : M S A) (s : S) : S := match m s with Done _ s' => s' | _ => s end.

Lemma run_of {S A} (m : M S A) s a : value_of m s = Some a -> m s = Done a (state_of m s).
Proof. unfold value_of, state_of. destruct (m s); [|done|done]. by intros [= ->]. Qed.

Definition after (c : call) : pt_internal slc_dummy -> pt_internal slc_dummy := state_of (run_call slc_dummy_ops c).
Lemma after_run c s : value_of (run_call slc_dummy_ops c) s = Some tt -> run_call slc_dummy_ops c s = Done tt (after c s).
Proof. apply run_of. Qed.
Ltac by_run := apply after_run; vm_compute; reflexivity.

Definition with_cache : pt_internal slc_dummy := after add_cache pt_init.
Definition device : pt_internal slc_dummy := after register_client with_cache.
Definition gpu_on : pt_internal slc_dummy := after (Request (Enable 100 0)) device.
Definition handed_over : pt_internal slc_dummy := after (Request (Mutate 100 0 1)) gpu_on.

Lemma cache_driver_wf : dummy_wf cache_driver.
Proof.
  split; [done| |].
  - intros i t. unfold tget. destruct (i <? 0); [done|]. intros E%list_elem_of_lookup_2.
    change (t ∈ replicate 64 zero_ptid) in E. apply elem_of_replicate in E as [-> _]. by split.
  - intros pi b. unfold pt_driver_get_property_value. cbn [cache_driver slc_dummy_new sd_props length]. destruct (Z.leb_spec (Z.of_nat (length cache_props)) pi) as [|H]; [done|].
    destruct (Z.to_nat pi) as [|[|[|[|n]]]] eqn:E; [by intros [= <-]..|]. simpl in H. lia.
Qed.

Lemma cache_driver_empty : dummy_view cache_driver = ∅.
Proof. vm_compute. reflexivity. Qed.

Lemma device_runs : runs slc_dummy_ops pt_init [add_cache; register_client] device.
Proof.
  apply (runs_snoc _ _ [add_cache] with_cache); [apply (runs_snoc _ _ [] pt_init); [constructor| |by_run]| |by_run].
  - split; [done|]. split; [apply cache_driver_wf|apply cache_driver_empty].
  - split_and!; [|by intros h [= <-]|].
    + intros a d Ed. assert (dr_ref <$> i_drivers with_cache = {[1 := 0]}) as E by (vm_compute; reflexivity).
      assert ((dr_ref <$> i_drivers with_cache) !! a = Some (dr_ref d)) as Er by (by rewrite lookup_fmap, Ed).
      rewrite E, lookup_singleton_Some in Er. destruct Er as [_ <-]. simpl. lia.
    + intros a h. assert (i_handles with_cache = ∅) as -> by (vm_compute; reflexivity). by rewrite lookup_empty.
Qed.

Lemma handed_over_runs : runs slc_dummy_ops pt_init [add_cache; register_client; Request (Enable 100 0); Request (Mutate 100 0 1)] handed_over.
Proof.
  apply (runs_snoc _ _ [add_cache; register_client; _] gpu_on);
    [apply (runs_snoc _ _ [add_cache; register_client] device); [apply device_runs| |by_run]| |by_run].
  - exists Free. vm_compute. reflexivity.
  - split; [done|]. split; [exists (Enabled 3); vm_compute; reflexivity|]. exists Free. split; [vm_compute; reflexivity|done].
Qed.

(** ** What calls do to the partitions *)

Section Spec.
Context {D : Type} (ops : pt_ops D) `{Spec : !PtDriverSpec ops}.

(** C5. From the module's start, with a driver that keeps the promises of [pt.h]:
    after any sequence of registrations of drivers and clients, requests of
    clients, resize callbacks, use of the global partitions and removals, within
    the conditions of [legal], drivers and clients agree about who holds which
    ptid, the registries hold no dangling address, every reference is counted,
    and the partitions are as the specification [module_step] makes them (free,
    allocated, enabled). Every further legal call returns. *)
Theorem partitions_follow_spec l s : runs ops pt_init l s ->
  sound ops s /\ module_runs (part_at (pt_init (D := D))) l (part_at s) /\ forall c, legal ops s c -> exists s', run_call ops c s = Done tt s'.
Proof.
  intros H. destruct (runs_sound ops pt_init l s (sound_init ops) H) as [S Hm]. split; [done|]. split; [done|]. intros c. by apply call_returns.
Qed.


(** A driver is only unregistered when no partition of a client belongs to it:
    while one does, [pt_driver_unregister] returns -EBUSY and changes nothing. *)
Theorem driver_removed_when_unused l s a r s' : runs ops pt_init l s -> pt_driver_unregister a s = Done r s' ->
  r = - EBUSY /\ s' = s \/ r = 0 /\ i_drivers s' !! a = None /\ forall p x, pts_at s' p = Some x -> p_driver x <> a.
Proof.
  intros H Hrun. destruct (runs_sound ops pt_init l s (sound_init ops) H) as [[_ _ Hn] _]. revert Hrun. unfold pt_driver_unregister, kbind at 1, get_driver.
  destruct (i_drivers s !! a) as [d|] eqn:Ed; [|done]. destruct (Z.eqb_spec (dr_ref d) 0) as [Hz|Hz]; cbn [negb].
  - unfold kbind, kmod, kret. intros [= <- <-]. right. split; [done|]. split; [simpl; apply lookup_delete_eq|]. intros p x Ex Hx.
    specialize (Hn a d Ed). pose proof (users_pos s p x Ex) as Hu. rewrite Hx in Hu. lia.
  - unfold kret. intros [= <- <-]. by left.
Qed.
End Spec.

Lemma partitions_follow_spec_witness : part_at handed_over (100, 0) = Some Free /\ part_at handed_over (100, 1) = Some (Enabled 3) /\ sound slc_dummy_ops handed_over.
Proof.
  split; [vm_compute; reflexivity|]. split; [vm_compute; reflexivity|]. exact (proj1 (partitions_follow_spec slc_dummy_ops _ _ handed_over_runs)).
Defined.


Lemma driver_removed_when_unused_witness : exists s', pt_driver_unregister 1 handed_over = Done (- EBUSY) s' /\ s' = handed_over.
Proof.
  exists (state_of (pt_driver_unregister 1) handed_over).
  assert (Hrun : pt_driver_unregister 1 handed_over = Done (- EBUSY) (state_of (pt_driver_unregister 1) handed_over)) by (apply run_of; vm_compute; reflexivity).
  split; [exact Hrun|]. destruct (driver_removed_when_unused slc_dummy_ops _ _ 1 _ _ handed_over_runs Hrun) as [[_ H]|[H _]]; [exact H|discriminate H].
Defined.

(** ** Resize callbacks *)

Section Callbacks.
Context {D : Type} (needs_lock : pts_ptr -> bool).

(** Once disabling a partition has returned, its resize callback is not running
    and is not called again until the partition is enabled, whatever resizes,
    callbacks and calls of other clients happen meanwhile; between the start and
    the return of the disabling it is not called either. *)
Theorem disabled_stays_quiet (w w1 w2 w3 w4 : world (D := D)) l l' p : queue_ok (w_s w) ->
  step needs_lock w (EDisable p) w1 -> steps needs_lock w1 l w2 -> step needs_lock w2 (EWake p) w3 -> steps needs_lock w3 l' w4 ->
  (forall size, EEnable p size ∉ l ++ l') -> calls_of w4 p = calls_of w p /\ i_in_progress (w_s w4) <> Some p.
Proof.
  intros Hq Hd Hl Hw Hl' He. pose proof (step_queue _ _ _ _ Hd Hq) as Hq1. destruct (disable_off _ _ _ _ Hd Hq) as [Hoff Hc1].
  destruct (off_steps _ _ _ _ p Hl Hq1 Hoff) as (Hq2 & Hoff2 & Hc2 & _); [set_solver|].
  destruct (wake_idle _ _ _ _ Hw) as [Hip Hs]. pose proof (off_step _ _ _ _ p Hw Hq2 Hoff2) as (Hoff3 & Hc3 & _); [done|].
  destruct (off_steps _ _ _ _ p Hl' (step_queue _ _ _ _ Hw Hq2) Hoff3) as (_ & _ & Hc4 & Hi4); [set_solver|].
  split; [congruence|auto].
Qed.

(** C34. No client misses the final size: after any run in which each enabling
    reports the size that holds when the callbacks are allowed again, once no
    client waits, the thread empties the queue with one round per entry, and then
    every enabled client with a callback has been told the current size. *)
Theorem sizes_reach_clients (w w' : world (D := D)) l : queue_ok (w_s w) -> informed w -> prompt_steps needs_lock w l w' -> w_waiting w' = [] ->
  exists w'', prompt_steps needs_lock w' (replicate (length (i_resize_list (w_s w'))) ENext) w'' /\ i_resize_list (w_s w'') = [] /\
    forall p x, pts_at (w_s w'') p = Some x -> p_enabled x = true -> has_callback (w_s w'') p = true -> w_told w'' p = p_size x.
Proof.
  intros Hq Hi Hs Hw. destruct (prompt_informed _ _ _ _ Hs Hq Hi) as [Hq' Hi'].
  destruct (drain_queue needs_lock _ w' eq_refl Hq' Hi' Hw) as (w'' & Hs' & He & _). exists w''. split; [done|]. split; [done|].
  destruct (prompt_informed _ _ _ _ Hs' Hq' Hi') as [Hq'' Hi'']. intros p x Ex Hen Hcb. destruct (Hi'' p x Ex Hen Hcb) as [Hqd|]; [|done].
  exfalso. assert (p ∈ i_resize_list (w_s w'')) as Hin by (apply (qk_flag _ Hq''); eauto). rewrite He in Hin. by apply not_elem_of_nil in Hin.
Qed.
End Callbacks.

(** The client of the device, its first partition enabled with 24 kB. *)
Definition client_world : world := MkWorld gpu_on [] [] (fun _ => 24576).
(** The sections under the lock, as steps. *)
Definition resized (p : pts_ptr) (size : Z) (w : world (D := slc_dummy)) : world :=
  MkWorld (state_of (pt_resize_internal p size) (w_s w)) (w_waiting w) (w_log w) (w_told w).
Definition disabling (p : pts_ptr) (w : world (D := slc_dummy)) : world :=
  MkWorld (state_of (resize_list_flush p) (w_s w)) (p :: w_waiting w) (w_log w) (w_told w).
Definition called (p : pts_ptr) (size : Z) (w : world (D := slc_dummy)) : world :=
  MkWorld (state_of pt_resize_list_next (w_s w)) (w_waiting w) (w_log w ++ [(p, size)]) (tell (w_told w) p size).
Definition slept (w : world (D := slc_dummy)) : world := MkWorld (state_of pt_resize_list_next (w_s w)) (w_waiting w) (w_log w) (w_told w).
Definition woken (p : pts_ptr) (w : world (D := slc_dummy)) : world := MkWorld (w_s w) (filter (fun q => q <> p) (w_waiting w)) (w_log w) (w_told w).
Definition enabling (p : pts_ptr) (size : Z) (w : world (D := slc_dummy)) : world :=
  MkWorld (state_of (pt_resize_list_enable p) (w_s w)) (w_waiting w) (w_log w) (tell (w_told w) p size).

Section Steps.
Context (needs_lock : pts_ptr -> bool) (w : world (D := slc_dummy)).

Lemma resized_step p size : value_of (pt_resize_internal p size) (w_s w) = Some tt -> step needs_lock w (EResize p size) (resized p size w).
Proof. intros H. constructor. by apply run_of. Qed.
Lemma disabling_step p b : ~ locked w (fst p) -> value_of (resize_list_flush p) (w_s w) = Some b -> step needs_lock w (EDisable p) (disabling p w).
Proof. intros Hl H. apply (StDisable _ _ _ b); [done|]. by apply run_of. Qed.
Lemma called_step p size : can_return needs_lock w -> value_of pt_resize_list_next (w_s w) = Some (Some (p, size)) -> step needs_lock w ENext (called p size w).
Proof. intros Hl H. constructor; [done|]. by apply run_of. Qed.
Lemma slept_step : can_return needs_lock w -> value_of pt_resize_list_next (w_s w) = Some None -> step needs_lock w ENext (slept w).
Proof. intros Hl H. constructor; [done|]. by apply run_of. Qed.
Lemma woken_step p : p ∈ w_waiting w -> i_in_progress (w_s w) <> Some p -> step needs_lock w (EWake p) (woken p w).
Proof. intros Hp Hi. by constructor. Qed.
Lemma enabling_step p size : value_of (pt_resize_list_enable p) (w_s w) = Some tt -> step needs_lock w (EEnable p size) (enabling p size w).
Proof. intros H. constructor. by apply run_of. Qed.

Lemma can_return_idle : i_in_progress (w_s w) = None -> can_return needs_lock w.
Proof. intros H p. congruence. Qed.
Lemma nobody_locks h : w_waiting w = [] -> ~ locked w h.
Proof. intros H (q & Hq & _). rewrite H in Hq. by apply not_elem_of_nil in Hq. Qed.
Lemma steps_one e w' : step needs_lock w e w' -> steps needs_lock w [e] w'.
Proof. intros H. exact (steps_snoc _ _ [] w e w' (steps_nil _ _) H). Qed.
End Steps.

Lemma gpu_on_runs : runs slc_dummy_ops pt_init [add_cache; register_client; Request (Enable 100 0)] gpu_on.
Proof. apply (runs_snoc _ _ [add_cache; register_client] device); [apply device_runs|exists Free; vm_compute; reflexivity|by_run]. Qed.

Lemma gpu_on_queue : queue_ok gpu_on.
Proof.
  destruct (runs_sound slc_dummy_ops pt_init _ _ (sound_init slc_dummy_ops) gpu_on_runs) as [[(V & C & G & H & _) _ _] _]. apply H.
Qed.

Lemma gpu_on_enabled p x : pts_at gpu_on p = Some x -> p_enabled x = true -> p_size x = 24576.
Proof.
  destruct p as [h i]. unfold pts_at. cbn [fst snd]. destruct (Z.ltb_spec i 0); [done|].
  assert (i_handles gpu_on = {[100 := MkHandle true [MkPts true 24576 3 0 1 false; MkPts false 0 (-1) 1 1 false; MkPts false 0 (-1) 2 1 false] 7]}) as -> by (vm_compute; reflexivity).
  intros (hd & [_ <-]%lookup_singleton_Some & E)%bind_Some. cbn [h_pts] in E. destruct (Z.to_nat i) as [|[|[|n]]]; simpl in E; by simplify_eq.
Qed.

Lemma client_world_informed : informed client_world.
Proof. intros p x Ex He _. right. symmetry. by apply (gpu_on_enabled p). Qed.

Lemma disabled_stays_quiet_witness : calls_of (slept (woken (100, 0) (resized (100, 0) 4096 (disabling (100, 0) client_world)))) (100, 0) = [].
Proof.
  set (w1 := disabling (100, 0) client_world). set (w2 := resized (100, 0) 4096 w1).
  assert (H1 : step (fun _ => true) client_world (EDisable (100, 0)) w1) by (apply (disabling_step _ _ _ true); [by apply nobody_locks|vm_compute; reflexivity]).
  assert (H2 : step (fun _ => true) w1 (EResize (100, 0) 4096) w2) by (apply resized_step; vm_compute; reflexivity).
  assert (H3 : step (fun _ => true) w2 (EWake (100, 0)) (woken (100, 0) w2)) by (apply woken_step; [by left|vm_compute; discriminate]).
  assert (H4 : step (fun _ => true) (woken (100, 0) w2) ENext (slept (woken (100, 0) w2))) by (apply slept_step; [apply can_return_idle|]; vm_compute; reflexivity).
  refine (eq_trans (proj1 (disabled_stays_quiet (fun _ => true) client_world w1 w2 _ _ _ _ (100, 0) gpu_on_queue H1 (steps_one _ _ _ _ H2) H3 (steps_one _ _ _ _ H4) _)) _).
  - intros size Hin. simpl in Hin. apply elem_of_cons in Hin as [|Hin]; [discriminate|]. apply elem_of_cons in Hin as [|Hin]; [discriminate|]. by apply not_elem_of_nil in Hin.
  - reflexivity.
Defined.

Lemma sizes_reach_clients_witness : exists w'', prompt_steps (fun _ => true) (resized (100, 0) 4096 client_world) [ENext] w'' /\
  forall x, pts_at (w_s w'') (100, 0) = Some x -> p_enabled x = true -> has_callback (w_s w'') (100, 0) = true -> w_told w'' (100, 0) = p_size x.
Proof.
  assert (H1 : step (fun _ => true) client_world (EResize (100, 0) 4096) (resized (100, 0) 4096 client_world)) by (apply resized_step; vm_compute; reflexivity).
  destruct (sizes_reach_clients (fun _ => true) client_world (resized (100, 0) 4096 client_world) [EResize (100, 0) 4096] gpu_on_queue client_world_informed) as (w'' & Hs & _ & Ht).
  - exact (prompt_snoc _ _ [] client_world _ _ (prompt_nil _ _) H1 I).
  - reflexivity.
  - exists w''. assert (length (i_resize_list (w_s (resized (100, 0) 4096 client_world))) = 1%nat) as E by (vm_compute; reflexivity). rewrite E in Hs.
    split; [exact Hs|]. intros x. apply Ht.
Defined.
