(* ===== verification/PtCases.v ===== *)
(** * Executions of the partition driver that go wrong

    Concrete runs, on the device of [PtSpec] and on one with the firmware driver,
    in which the code does something its comments rule out or a caller would not
    expect. *)

From S2P Require Import Prelude Pt PtOwner PtClient SlcDummy PtResize PtRegister PtModule SlcAcpm PtSpec.

(** ** Callbacks *)

(** A client's callback may call [pt_client_*()] (the comment on [pt_resize_thread]):
    it then needs the mutex of the handle. A client that disables the partition
    while the callback runs holds that mutex and waits for the callback: neither
    ever goes on, whatever else happens. *)
Theorem callback_taking_mutex_hangs : exists l w, steps (fun _ => true) client_world l w /\
  forall l' w', steps (fun _ => true) w l' w' -> i_in_progress (w_s w') = Some (100, 0) /\ (100, 0) ∈ w_waiting w'.
Proof.
  set (w1 := resized (100, 0) 4096 client_world). set (w2 := called (100, 0) 4096 w1). set (w3 := disabling (100, 0) w2).
  assert (H1 : step (fun _ => true) client_world (EResize (100, 0) 4096) w1) by (apply resized_step; vm_compute; reflexivity).
  assert (H2 : step (fun _ => true) w1 ENext w2) by (apply called_step; [apply can_return_idle|]; vm_compute; reflexivity).
  assert (H3 : step (fun _ => true) w2 (EDisable (100, 0)) w3) by (apply (disabling_step _ _ _ true); [by apply nobody_locks|vm_compute; reflexivity]).
  exists [EResize (100, 0) 4096; ENext; EDisable (100, 0)], w3. split.
  - apply (steps_snoc _ _ [EResize (100, 0) 4096; ENext] w2); [|done]. apply (steps_snoc _ _ [EResize (100, 0) 4096] w1); [by apply steps_one|done].
  - assert (He : entangled (fun _ => true) w3 (100, 0)) by (split; [vm_compute; reflexivity|]; split; [by left|done]).
    intros l' w' Hs. assert (entangled (fun _ => true) w' (100, 0)) as (Hi & Hw & _); [|done].
    induction Hs; [done|]. by eapply entangled_step.
Qed.

(** A callback that disables its own partition waits for itself. *)
Theorem callback_disabling_itself_hangs :
  pt_client_disable 100 0 (w_s (called (100, 0) 4096 (resized (100, 0) 4096 client_world))) = Blocked.
Proof. vm_compute. reflexivity. Qed.

(** A size that changes between the read of [*size] in [pt_client_enable_size] and
    the call of [pt_resize_list_enable] is never reported: the client was told
    24 kB, the partition has 4 kB, nothing is queued. *)
Theorem enable_misses_resize : exists s w, enable_size_locked 100 0 device = Done (3, Some 24576) s /\
  steps (fun _ => false) (MkWorld s [] [] (fun _ => 0)) [EResize (100, 0) 4096; EEnable (100, 0) 24576] w /\
  w_told w (100, 0) = 24576 /\ i_resize_list (w_s w) = [] /\
  exists x, pts_at (w_s w) (100, 0) = Some x /\ p_enabled x = true /\ p_size x = 4096.
Proof.
  set (s := state_of (enable_size_locked 100 0) device). set (w0 := MkWorld s [] [] (fun _ => 0)). set (w1 := resized (100, 0) 4096 w0).
  exists s, (enabling (100, 0) 24576 w1). split; [apply run_of; vm_compute; reflexivity|]. split.
  - apply (steps_snoc _ _ [EResize (100, 0) 4096] w1); [apply steps_one, resized_step|apply enabling_step]; vm_compute; reflexivity.
  - split; [vm_compute; reflexivity|]. split; [vm_compute; reflexivity|]. exists (MkPts true 4096 3 0 1 false). split; [vm_compute; reflexivity|done].
Qed.

(** [pt_client_mutate] disables the old partition without taking it off the queue:
    its callback is still called, and after the client has disabled the new
    partition and unregistered, the thread reads the freed handle. *)
Definition mutated : pt_internal slc_dummy := state_of (pt_client_mutate 100 0 1) (w_s (resized (100, 0) 4096 client_world)).
Theorem mutated_partition_still_queued :
  part_at mutated (100, 0) = Some Free /\ i_resize_list mutated = [(100, 0)] /\ value_of pt_resize_list_next mutated = Some (Some ((100, 0), 4096)) /\
  (do! pt_client_disable 100 1 in do! pt_client_unregister 100 in pt_resize_list_next) mutated = Fault.
Proof. split_and!; vm_compute; reflexivity. Qed.

(** ** References *)

(** A registration that fails at its second name keeps the reference it took for
    the first: the driver can no longer be unregistered. *)
Theorem failed_register_keeps_reference :
  value_of (let! r := pt_client_register 8 [Some "gpu"; Some "nope"]%string true (Some 200) in
            let! u := pt_driver_unregister 1 in kret (r, u)) with_cache = Some (inl (- ENOENT), - EBUSY).
Proof. vm_compute. reflexivity. Qed.

(** So does every use of the control file's ioctl command. *)
Theorem ioctl_keeps_reference :
  value_of (let! r := pt_sysctl_command (MkCommand 5 "slc" 0 [] None 11 0 0 0) in
            let! u := pt_driver_unregister 1 in kret (r, u)) with_cache = Some (- EINVAL, - EBUSY).
Proof. vm_compute. reflexivity. Qed.

(** Unregistering a driver leaves it behind in the global partitions. *)
Theorem global_driver_dangles :
  (let! u := pt_driver_unregister 1 in if u =? 0 then pt_pid_global (Some PT_GLOBAL_LEFTOVER) else kret u) with_cache = Fault.
Proof. vm_compute. reflexivity. Qed.

(** ** Global partitions *)

(** [pt_global_disable] allocates again instead of using the ptid it has: the
    driver refuses, the ptid is forgotten and stays enabled. *)
Definition global_off : pt_internal slc_dummy :=
  state_of (let! t := pt_pid_global (Some PT_GLOBAL_LEFTOVER) in pt_global_disable PT_GLOBAL_LEFTOVER) with_cache.
Theorem global_disable_forgets_ptid :
  value_of (pt_pid_global (Some PT_GLOBAL_LEFTOVER)) with_cache = Some 9 /\ g_ptid (i_leftover global_off) = PT_PTID_INVALID /\
  view_at slc_dummy_ops global_off 1 9 = Some (None, true) /\ value_of (pt_pid_global (Some PT_GLOBAL_LEFTOVER)) global_off = Some PT_PTID_INVALID.
Proof. split_and!; vm_compute; reflexivity. Qed.

(** A global partition no driver has claimed has no pbha. *)
Theorem global_pbha_can_fail : value_of (pt_pbha_global (Some PT_GLOBAL_BYPASS)) with_cache = Some PT_PBHA_INVALID.
Proof. vm_compute. reflexivity. Qed.

(** The control file checks indices from above only. *)
Theorem negative_index_accepted : pt_sysctl_command (MkCommand 4 "client" 7 [] None 4 (-1) 4096 0) device = Fault.
Proof. vm_compute. reflexivity. Qed.

(** ** Drivers *)

(** Allowed sizes of zero make the dummy driver shift by 2^31 - 1. *)
Theorem dummy_zero_sizes : slc_dummy_bit_to_size (u32 (slc_dummy_first_bit 0)) = None.
Proof. vm_compute. reflexivity. Qed.

(** A firmware that numbers the ptids, or answers an allocation with [enable]. *)
Definition firmware (enable : option (Z * Z)) (next : Z) (cmd : list Z) : Z * list Z * Z :=
  match cmd with
  | [_; arg; command; arg1] =>
      if command =? PT_VERSION then (0, [0; 0x10001; command; arg1], next)
      else if command =? PT_ENABLE
      then match enable with
           | Some (ret, v) => (ret, [0; v; command; arg1], next)
           | None => (0, [0; Z.shiftl next 22; command; arg1], next + 1)
           end
      else (0, [0; 0; command; arg1], next)
  | _ => (- EINVAL, cmd, next)
  end.
Definition acpm_device (enable : option (Z * Z)) : pt_internal (slc_acpm_data Z) :=
  state_of (let! _ := pt_driver_register "slc" cache_children (slc_acpm_ops (firmware enable) 8) (slc_acpm_new 0 false (Some cache_props) 1) (Some 1) in
            pt_client_register 7 [Some "gpu"; Some "cam"; Some "tpu"]%string true (Some 100)) pt_init.

(** With a working firmware the client gets its partition. *)
Example acpm_enables : value_of (pt_client_enable 100 0) (acpm_device None) = Some 1.
Proof. vm_compute. reflexivity. Qed.

(** [slc_acpm_alloc] returns the error of a failed transfer, which is not
    [PT_PTID_INVALID]: [pt_client_enable] goes on and indexes the table with it. *)
Theorem transfer_error_taken_for_ptid : pt_client_enable 100 0 (acpm_device (Some (- ETIMEDOUT, 0))) = Fault.
Proof. vm_compute. reflexivity. Qed.

(** A ptid beyond the table is not checked when it is allocated. *)
Theorem large_ptid_unchecked : pt_client_enable 100 0 (acpm_device (Some (0, Z.shiftl 100 22))) = Fault.
Proof. vm_compute. reflexivity. Qed.

(** Mutating to a partition that was disabled without being freed overwrites its
    ptid, which is never freed. *)
Theorem mutate_forgets_ptid :
  value_of (do! (let! _ := pt_client_enable 100 1 in kret tt) in do! pt_client_disable_no_free 100 1 in
            let! x := get_pts (100, 1) in let! _ := pt_client_enable 100 0 in
            let! t := pt_client_mutate 100 0 1 in let! y := get_pts (100, 1) in kret (p_ptid x, t, p_ptid y)) (acpm_device None) = Some (1, 2, 2).
Proof. vm_compute. reflexivity. Qed.
