(* ===== verification/Eh.v ===== *)
(** * The compression engine

    [drivers/soc/google/eh/eh_main.c]: pages to compress are put into a ring of
    descriptors that the hardware works through in order, or, when the ring is
    full, into a software queue; a thread reports the completed ones to the
    client and refills the ring. Indices into the ring count modulo twice its
    size (the extra bit is the "color"), so that a full ring differs from an
    empty one. *)

From S2P Require Import Prelude.

Definition u16 (x : Z) : Z := x mod 2 ^ 16.
Definition ETIME : Z := 62.
Definition PAGE_SIZE : Z := 4096.

(** ** Registers ([eh_regs.h]) *)

Definition EH_REG_HWFEATURES2 : Z := 0x010.
Definition EH_REG_GCTRL : Z := 0x030.
Definition EH_REG_INTRP_STS_ERROR : Z := 0x040.
Definition EH_REG_INTRP_MASK_ERROR : Z := 0x048.
Definition EH_REG_INTRP_MASK_CMP : Z := 0x058.
Definition EH_REG_INTRP_MASK_DCMP : Z := 0x068.
Definition EH_REG_ERR_COND : Z := 0x080.
Definition EH_REG_CDESC_LOC : Z := 0x400.
Definition EH_REG_CDESC_WRIDX : Z := 0x408.
Definition EH_REG_CDESC_RDIDX : Z := 0x410.
Definition EH_REG_CDESC_CTRL : Z := 0x418.
Definition EH_CDESC_CTRL_FIFO_RESET : Z := 16.
Definition EH_CDESC_CTRL_COMPRESS_ENABLE_SHIFT : Z := 18.
Definition EH_CDESC_CTRL_COMPLETE_IDX_MASK : Z := 0xFFFF.
Definition EH_NUM_OF_FREE_BLOCKS : Z := 6.
Definition EH_MAX_FIFO_SIZE : Z := 32768.

Definition SHIFT_AND_MASK (val shift mask : Z) : Z := Z.land (Z.shiftr val shift) mask.
Definition EH_FEATURES2_DECOMPR_CMDS (val : Z) : Z := SHIFT_AND_MASK val 8 0xFF.

Definition EH_DCMD_REGSET_SIZE : Z := 0x40.
Definition EH_REG_DCMD_CSIZE (n : Z) : Z := 0x800 + n * EH_DCMD_REGSET_SIZE.
Definition EH_REG_DCMD_DEST (n : Z) : Z := 0x808 + n * EH_DCMD_REGSET_SIZE.
Definition EH_REG_DCMD_BUF0 (n : Z) : Z := 0x818 + n * EH_DCMD_REGSET_SIZE.
Definition EH_REG_DCMD_BUF1 (n : Z) : Z := 0x820 + n * EH_DCMD_REGSET_SIZE.
Definition EH_REG_DCMD_BUF2 (n : Z) : Z := 0x828 + n * EH_DCMD_REGSET_SIZE.
Definition EH_REG_DCMD_BUF3 (n : Z) : Z := 0x830 + n * EH_DCMD_REGSET_SIZE.
Definition EH_DCMD_DEST_STATUS_SHIFT : Z := 1.
Definition EH_DCMD_DEST_STATUS (val : Z) : Z := SHIFT_AND_MASK val 1 0x7.
Definition EH_DCMD_CSIZE_SIZE_SHIFT : Z := 16.
Definition EH_DCMD_BUF_SIZE_SHIFT : Z := 60.
Definition EH_DCMD_DECOMPRESSED : Z := 1.
Definition EH_DCMD_PENDING : Z := 7.

(** The size of an aligned buffer is encoded in its address as the bit of half
    the size. *)
Definition EH_ENCODED_ADDR_TO_SIZE (addr : Z) : Z := u64 (Z.shiftl (Z.land addr (Z.lnot (addr - 1))) 1).
Definition EH_ENCODED_ADDR_TO_PHYS (addr : Z) : Z := Z.land addr (addr - 1).

(** The index of the lowest set bit ([__ffs]); [ffs] counts from one. *)
Fixpoint lowest_bit (fuel : nat) (x i : Z) : Z :=
  match fuel with O => 0 | S n => if Z.testbit x i then i else lowest_bit n x (i + 1) end.
Definition ffs_ (x : Z) : Z := lowest_bit 64 x 0.
Definition EH_PHYS_ADDR_TO_ENCODED (addr size : Z) : Z := Z.lor addr (Z.shiftl 1 (ffs_ size + 1 - 2)).

(** ** Descriptors *)

Definition EH_CDESC_IDLE : Z := 0.
Definition EH_CDESC_COMPRESSED : Z := 1.
Definition EH_CDESC_COPIED : Z := 2.
Definition EH_CDESC_ABORT : Z := 3.
Definition EH_CDESC_ZERO : Z := 4.
Definition EH_CDESC_ERROR_CONTINUE : Z := 5.
Definition EH_CDESC_ERROR_HALTED : Z := 6.
Definition EH_CDESC_PENDING : Z := 7.

(** [d_word1] is the union of the source address with the interrupt request
    (bit 0), the status (bits 1 to 3), the algorithm and [max_buf] (bits 8, 9). *)
Record eh_compress_desc := MkDesc { d_buf_sel : Z; d_compr_len : Z; d_word1 : Z; d_dst_addr : list Z }.
#[export] Instance eta_desc : Eta eh_compress_desc := mk_eta (fun d => MkDesc (d_buf_sel d) (d_compr_len d) (d_word1 d) (d_dst_addr d)).

(** Reading and writing [n] bits from bit [i] on. *)
Definition get_field (i n w : Z) : Z := Z.land (Z.shiftr w i) (Z.ones n).
Definition set_field (i n v w : Z) : Z := Z.lor (Z.ldiff w (Z.shiftl (Z.ones n) i)) (Z.shiftl (Z.land v (Z.ones n)) i).

Definition desc_status (d : eh_compress_desc) : Z := get_field 1 3 (d_word1 d).
Definition set_status (v : Z) (d : eh_compress_desc) : eh_compress_desc := d <| d_word1 := set_field 1 3 v (d_word1 d) |>.
Definition desc_max_buf (d : eh_compress_desc) : Z := get_field 8 2 (d_word1 d).
Definition set_max_buf (v : Z) (d : eh_compress_desc) : eh_compress_desc := d <| d_word1 := set_field 8 2 v (d_word1 d) |>.

(** ** The device *)

(** A request of the software queue, with the address of the structure. *)
Record eh_request := MkReq { r_addr : Z; r_page : Z; r_priv : Z }.

(** A call of the client's callback: result, data, size and private pointer. *)
Record report := MkReport { rp_result : Z; rp_data : option Z; rp_size : Z; rp_priv : option Z }.

(** Pages are physical addresses; [e_sw] is the software queue from its head,
    where requests are added, to its tail, where they are taken; [e_log] the
    calls of the callback. *)
Record eh_device := MkEh {
  e_fifo_size : Z;
  e_fifo_index_mask : Z;
  e_fifo_color_mask : Z;
  e_write_index : Z;
  e_complete_index : Z;
  e_regs : gmap Z Z;
  e_fifo : list eh_compress_desc;
  e_fifo_phys : Z;
  e_completions : list (option Z);
  e_compr_buffers : list Z;
  e_nr_request : Z;
  e_callback : bool;
  e_pool : list Z;
  e_pool_count : Z;
  e_sw : list eh_request;
  e_sw_count : Z;
  e_nr_stall : Z;
  e_log : list report
}.
#[export] Instance eta_eh : Eta eh_device := mk_eta (fun d =>
  MkEh (e_fifo_size d) (e_fifo_index_mask d) (e_fifo_color_mask d) (e_write_index d) (e_complete_index d) (e_regs d) (e_fifo d) (e_fifo_phys d)
    (e_completions d) (e_compr_buffers d) (e_nr_request d) (e_callback d) (e_pool d) (e_pool_count d) (e_sw d) (e_sw_count d) (e_nr_stall d) (e_log d)).

Abbreviation EH A := (M eh_device A).

(** ** Access *)

Definition eh_write_register (offset val : Z) : EH unit := kmod (fun d => d <| e_regs := <[offset := u64 val]> (e_regs d) |>).
Definition eh_read_register (offset : Z) : EH Z := fun d => Done (rd (e_regs d) offset) d.

(** An element of an array; an index out of it is a fault. *)
Definition at_index {S A} (l : S -> list A) (i : Z) : M S A := fun s =>
  if i <? 0 then Fault else match l s !! Z.to_nat i with Some x => Done x s | None => Fault end.

Definition eh_descriptor (i : Z) : EH eh_compress_desc := at_index e_fifo i.
Definition mod_descriptor (i : Z) (f : eh_compress_desc -> eh_compress_desc) : EH unit :=
  let! x := eh_descriptor i in kmod (fun d => d <| e_fifo := <[Z.to_nat i := f x]> (e_fifo d) |>).
Definition set_completion (i : Z) (priv : option Z) : EH unit :=
  let! _ := at_index e_completions i in kmod (fun d => d <| e_completions := <[Z.to_nat i := priv]> (e_completions d) |>).

(** ** The pool and the software queue *)

Definition pool_alloc : EH (option Z) :=
  let! d := kget in
  match e_pool d with
  | [] => kret None
  | a :: rest => do! kmod (fun d => d <| e_pool := rest |> <| e_pool_count := s32 (e_pool_count d - 1) |>) in kret (Some a)
  end.

Definition pool_free (a : Z) : EH unit := kmod (fun d => d <| e_pool := a :: e_pool d |> <| e_pool_count := s32 (e_pool_count d + 1) |>).

(** The count as a [bool], compared with zero. *)
Definition sw_fifo_empty (d : eh_device) : bool := e_sw_count d =? 0.

(** ** Indices *)

Definition fifo_write_index (d : eh_device) : Z := Z.land (e_write_index d) (e_fifo_index_mask d).
Definition fifo_complete_index (d : eh_device) : Z := Z.land (e_complete_index d) (e_fifo_index_mask d).

Definition update_fifo_write_index : EH unit :=
  let! d := kget in
  let next_write_idx := Z.land (u32 (e_write_index d + 1)) (e_fifo_color_mask d) in
  do! kmod (fun d => d <| e_write_index := next_write_idx |>) in
  eh_write_register EH_REG_CDESC_WRIDX next_write_idx.

Definition update_fifo_complete_index : EH unit :=
  kmod (fun d => d <| e_complete_index := Z.land (u32 (e_complete_index d + 1)) (e_fifo_color_mask d) |>).

Definition fifo_full (d : eh_device) : bool :=
  if negb (fifo_write_index d =? fifo_complete_index d) then false else negb (e_write_index d =? e_complete_index d).

Definition fifo_next_complete_index (d : eh_device) : Z := Z.land (rd (e_regs d) EH_REG_CDESC_CTRL) EH_CDESC_CTRL_COMPLETE_IDX_MASK.

(** ** Requests *)

(** The source address overwrites the whole word. *)
Definition eh_setup_descriptor (src_page index : Z) : EH unit :=
  mod_descriptor index (fun x => set_status EH_CDESC_PENDING (x <| d_word1 := src_page |>)).

(** A step of the wait when the pool is empty. *)
Definition eh_congestion_wait : EH unit := kmod (fun d => d <| e_nr_stall := s64 (e_nr_stall d + 1) |>).

(** [Blocked] while the pool is empty: the caller waits and tries again. *)
Definition request_to_sw_fifo (page priv : Z) : EH unit :=
  let! req := pool_alloc in
  match req with
  | None => kblock
  | Some a => kmod (fun d => d <| e_sw := MkReq a page priv :: e_sw d |> <| e_sw_count := s32 (e_sw_count d + 1) |>)
  end.

Definition request_to_hw_fifo (page priv : Z) : EH Z :=
  let! d := kget in
  if fifo_full d then kret (- EBUSY)
  else
    let write_idx := fifo_write_index d in
    do! eh_setup_descriptor page write_idx in
    do! set_completion write_idx (Some priv) in
    do! kmod (fun d => d <| e_nr_request := s32 (e_nr_request d + 1) |>) in
    do! update_fifo_write_index in
    kret 0.

Definition eh_compress_page (page priv : Z) : EH Z :=
  let! d := kget in
  if negb (sw_fifo_empty d) then do! request_to_sw_fifo page priv in kret 0
  else
    let! r := request_to_hw_fifo page priv in
    if r =? 0 then kret 0 else do! request_to_sw_fifo page priv in kret 0.

(** The oldest request and the others. *)
Definition take_last {A} (l : list A) : option (list A * A) :=
  match rev l with [] => None | x :: rest => Some (rev rest, x) end.

Definition refill_hw_fifo : EH unit :=
  let! d := kget in
  match take_last (e_sw d) with
  | None => kret tt
  | Some (rest, req) =>
      let! r := request_to_hw_fifo (r_page req) (r_priv req) in
      if r =? 0 then
        do! kmod (fun d => d <| e_sw := rest |> <| e_sw_count := s32 (e_sw_count d - 1) |>) in
        pool_free (r_addr req)
      else kret tt
  end.

(** [flush_sw_fifo]: the queue is moved to a local list under the lock, ... *)
Definition flush_start : EH (list eh_request) :=
  let! d := kget in do! kmod (fun d => d <| e_sw := [] |>) in kret (e_sw d).
(** ... its oldest requests are put into the ring one by one (the list and the
    number processed; the loop ends when the list is empty or the ring full), ... *)
Definition flush_next (l : list eh_request) (nr_processed : Z) : EH (option (list eh_request * Z)) :=
  match take_last l with
  | None => kret None
  | Some (rest, req) =>
      let! r := request_to_hw_fifo (r_page req) (r_priv req) in
      if r =? 0 then do! pool_free (r_addr req) in kret (Some (rest, nr_processed + 1)) else kret None
  end.
(** ... and the rest is put back at the head. *)
Definition flush_end (l : list eh_request) (nr_processed : Z) : EH unit :=
  kmod (fun d => d <| e_sw := l ++ e_sw d |> <| e_sw_count := s32 (e_sw_count d - nr_processed) |>).

(** ** Completions *)

Definition compress_result (d : eh_compress_desc) (buffer : Z) : Z * (Z * option Z * Z) :=
  let offset := if d_buf_sel d =? 2 then PAGE_SIZE / 2 else 0 in
  let status := desc_status d in
  if status =? EH_CDESC_COPIED then (0, (0, Some (buffer + offset), PAGE_SIZE))
  else if status =? EH_CDESC_COMPRESSED then (0, (0, Some (buffer + offset), d_compr_len d))
  else if status =? EH_CDESC_ZERO then (0, (0, None, d_compr_len d))
  else if status =? EH_CDESC_ABORT then (0, (0, None, PAGE_SIZE))
  else if status =? EH_CDESC_ERROR_CONTINUE then (0, (1, None, d_compr_len d))
  else if status =? EH_CDESC_ERROR_HALTED then (- EINVAL, (1, None, d_compr_len d))
  else (0, (1, None, d_compr_len d)).

Definition comp_callback (r : report) : EH unit :=
  let! d := kget in if e_callback d then kmod (fun d => d <| e_log := e_log d ++ [r] |>) else kfault.

Definition eh_process_completed_descriptor (fifo_index : Z) : EH Z :=
  let! desc := eh_descriptor fifo_index in
  let! buffer := at_index e_compr_buffers fifo_index in
  let '(ret, (compr_result, compr_data, compr_size)) := compress_result desc buffer in
  let! priv := at_index e_completions fifo_index in
  do! comp_callback (MkReport compr_result compr_data compr_size priv) in
  do! mod_descriptor fifo_index (set_status EH_CDESC_IDLE) in
  do! kmod (fun d => d <| e_nr_request := s32 (e_nr_request d - 1) |>) in
  do! update_fifo_complete_index in
  kret ret.

(** The loop; it comes to the end within a turn of the ring. *)
Fixpoint abort_loop (fuel : nat) (i masked_write_index : Z) : EH unit :=
  if i =? masked_write_index then kret tt
  else match fuel with
  | O => kblock
  | S n =>
      let! priv := at_index e_completions i in
      do! comp_callback (MkReport EH_CDESC_ERROR_HALTED None 0 priv) in
      do! set_completion i None in
      let! d := kget in
      abort_loop n (Z.land (i + 1) (e_fifo_index_mask d)) masked_write_index
  end.

Definition eh_abort_incomplete_descriptors : EH unit :=
  let! d := kget in
  let masked_write_index := u16 (fifo_write_index d) in
  let new_complete_index := u16 (Z.land (fifo_next_complete_index d) (e_fifo_index_mask d)) in
  abort_loop (Z.to_nat (e_fifo_size d)) new_complete_index masked_write_index.

(** ** The thread

    Where the thread is: at the top of its loop, in the loop of
    [eh_process_compress] before a descriptor or before the refill that follows
    it, after a failed descriptor, at the test for a flush, in the flush, or
    gone. Its counters of processed pages are not modelled. *)
Inductive thread :=
| TTop | TProcess (i end_ : Z) | TRefill (i end_ : Z) | TFailed | TFull | TFlush (l : list eh_request) (nr_processed : Z) | TGone.

(** Two steps of [eh_process_compress]: a descriptor, and the refill after it. *)
Definition process_step (i end_ : Z) : EH thread :=
  let! d := kget in
  if i =? end_ then kret TFull
  else
    let! ret := eh_process_completed_descriptor (Z.land i (e_fifo_index_mask d)) in
    kret (if ret =? 0 then TRefill i end_ else TFailed).

Definition refill_step (i end_ : Z) : EH thread :=
  let! d := kget in
  do! refill_hw_fifo in kret (TProcess (Z.land (u32 (i + 1)) (e_fifo_color_mask d)) end_).

(** A step of [eh_comp_thread]. *)
Definition thread_step (t : thread) : EH thread :=
  let! d := kget in
  match t with
  | TTop => kret (TProcess (e_complete_index d) (fifo_next_complete_index d))
  | TProcess i end_ => process_step i end_
  | TRefill i end_ => refill_step i end_
  | TFailed =>
      let! error := eh_read_register EH_REG_ERR_COND in
      if error =? 0 then kret TFull else do! eh_abort_incomplete_descriptors in kret TGone
  | TFull => if fifo_full d then kret TTop else let! l := flush_start in kret (TFlush l 0)
  | TFlush l n =>
      let! r := flush_next l n in
      match r with
      | Some (l', n') => kret (TFlush l' n')
      | None => do! flush_end l n in kret TTop
      end
  | TGone => kret TGone
  end.
