(* ===== verification/EhFifo.v ===== *)
(** * The ring of descriptors

    The requests put into the ring are numbered from zero; so are the results of
    the hardware and the reports to the client. [fifo_ok] says what the ring, its
    indices and the registers hold in terms of these numbers: request [i] sits in
    slot [i] modulo the size until it is reported, and every index register is the
    respective number modulo twice the size. *)

From S2P Require Import Prelude Eh.

(** ** The hardware *)

(** Status, length and buffer of a result. *)
Record hw_result := MkResult { hr_status : Z; hr_len : Z; hr_buf : Z }.

Definition EH_CDESC_CTRL_COMPRESS_HALTED_SHIFT : Z := 20.

Definition halted (d : eh_device) : bool := Z.testbit (rd (e_regs d) EH_REG_CDESC_CTRL) EH_CDESC_CTRL_COMPRESS_HALTED_SHIFT.

(** The page a descriptor names. *)
Definition desc_page (d : eh_compress_desc) : Z := Z.ldiff (d_word1 d) (Z.ones 12).

(** The engine takes the next pending descriptor, unless it has none or is halted,
    writes the result into it and advances its index; an error that halts it is
    also told in the error register. The result is the page it read. *)
Definition hw_complete (r : hw_result) : EH Z :=
  let! d := kget in
  let ctrl := rd (e_regs d) EH_REG_CDESC_CTRL in
  let idx := fifo_next_complete_index d in
  if (idx =? rd (e_regs d) EH_REG_CDESC_WRIDX) || halted d then kblock
  else
    let! x := eh_descriptor (Z.land idx (e_fifo_index_mask d)) in
    do! mod_descriptor (Z.land idx (e_fifo_index_mask d)) (fun x => set_status (hr_status r) (x <| d_compr_len := hr_len r |> <| d_buf_sel := hr_buf r |>)) in
    let halts := hr_status r =? EH_CDESC_ERROR_HALTED in
    do! eh_write_register EH_REG_CDESC_CTRL
          (Z.lor (set_field 0 16 (Z.land (idx + 1) (e_fifo_color_mask d)) ctrl)
             (if halts then BIT EH_CDESC_CTRL_COMPRESS_HALTED_SHIFT else 0)) in
    do! (if halts then eh_write_register EH_REG_ERR_COND 1 else kret tt) in
    kret (desc_page x).

(** ** Fields of a word *)

Lemma field_bits i n w j : 0 <= i -> 0 <= n -> 0 <= j -> Z.testbit (get_field i n w) j = (j <? n) && Z.testbit w (j + i).
Proof.
  intros Hi Hn Hj. unfold get_field. rewrite Z.land_spec, Z.shiftr_spec, Z.testbit_ones_nonneg by lia. by rewrite andb_comm.
Qed.

Lemma set_field_bits i n v w j : 0 <= i -> 0 <= n -> 0 <= j ->
  Z.testbit (set_field i n v w) j = if (i <=? j) && (j <? i + n) then Z.testbit v (j - i) else Z.testbit w j.
Proof.
  intros Hi Hn Hj. unfold set_field. rewrite Z.lor_spec, Z.ldiff_spec, !Z.shiftl_spec, Z.land_spec by lia.
  destruct (Z.leb_spec i j); cbn [andb].
  - rewrite Z.testbit_ones_nonneg by lia. destruct (Z.ltb_spec (j - i) n); destruct (Z.ltb_spec j (i + n)); try lia.
    + by rewrite andb_false_r, andb_true_r.
    + by rewrite andb_true_r, andb_false_r, orb_false_r.
  - rewrite (Z.testbit_neg_r (Z.ones n)), (Z.testbit_neg_r v) by lia. by rewrite andb_true_r, orb_false_r.
Qed.

Lemma get_set_field i n v w : 0 <= i -> 0 <= n -> 0 <= v < 2 ^ n -> get_field i n (set_field i n v w) = v.
Proof.
  intros Hi Hn Hv. apply Z.bits_inj'. intros j Hj. rewrite field_bits, set_field_bits by lia. destruct (Z.ltb_spec j n); cbn [andb].
  - destruct (Z.leb_spec i (j + i)); [|lia]. destruct (Z.ltb_spec (j + i) (i + n)); [|lia]. cbn [andb]. f_equal. lia.
  - destruct (decide (v = 0)) as [->|]; [by rewrite Z.bits_0|]. symmetry. apply Z.bits_above_log2; [lia|].
    assert (Z.log2 v < n) by (apply Z.log2_lt_pow2; lia). lia.
Qed.

Lemma get_set_other i n v w i' n' : 0 <= i -> 0 <= n -> 0 <= i' -> 0 <= n' -> i' + n' <= i \/ i + n <= i' ->
  get_field i' n' (set_field i n v w) = get_field i' n' w.
Proof.
  intros ? ? ? ? Hd. apply Z.bits_inj'. intros j Hj. rewrite !field_bits, set_field_bits by lia. destruct (Z.ltb_spec j n'); cbn [andb]; [|done].
  destruct (Z.leb_spec i (j + i')); cbn [andb]; [|done]. destruct (Z.ltb_spec (j + i') (i + n)); [lia|done].
Qed.

Lemma status_set v d : 0 <= v < 8 -> desc_status (set_status v d) = v.
Proof. intros. unfold desc_status, set_status. simpl. apply get_set_field; lia. Qed.

Lemma page_set v d : desc_page (set_status v d) = desc_page d.
Proof.
  unfold desc_page, set_status. simpl. apply Z.bits_inj'. intros j Hj. rewrite !Z.ldiff_spec, set_field_bits by lia.
  rewrite Z.testbit_ones_nonneg by lia. destruct (Z.ltb_spec j 12); [by rewrite !andb_false_r|].
  destruct (Z.leb_spec 1 j); cbn [andb]; [|done]. destruct (Z.ltb_spec j (1 + 3)); [lia|done].
Qed.

Lemma page_of_aligned p d : p mod 4096 = 0 -> desc_page (d <| d_word1 := p |>) = p.
Proof.
  intros Hp. unfold desc_page. simpl. change (Z.ones 12) with (2 ^ 12 - 1). rewrite ldiff_low by lia. change (2 ^ 12) with 4096.
  pose proof (Z.div_mod p 4096). lia.
Qed.

(** ** Slots *)

Definition slot (k : Z) (i : nat) : nat := Z.to_nat (Z.of_nat i mod 2 ^ k).
(** An index register that counts [i]. *)
Definition color (k : Z) (i : nat) : Z := Z.of_nat i mod 2 ^ (k + 1).

Section Slots.
Context (k : Z) (Hk : 0 <= k).

Lemma pow_pos : 0 < 2 ^ k.
Proof. by apply Z.pow_pos_nonneg. Qed.
Lemma pow_succ : 2 ^ (k + 1) = 2 * 2 ^ k.
Proof. rewrite Z.pow_add_r by lia. lia. Qed.

Lemma slot_range i : (slot k i < Z.to_nat (2 ^ k))%nat.
Proof. pose proof pow_pos. pose proof (Z.mod_pos_bound (Z.of_nat i) (2 ^ k) pow_pos). unfold slot. lia. Qed.

Lemma slot_Z i : Z.of_nat (slot k i) = Z.of_nat i mod 2 ^ k.
Proof. pose proof (Z.mod_pos_bound (Z.of_nat i) (2 ^ k) pow_pos). unfold slot. lia. Qed.

Lemma color_range i : 0 <= color k i < 2 ^ (k + 1).
Proof. apply Z.mod_pos_bound. rewrite pow_succ. pose proof pow_pos. lia. Qed.

(** A masked index register is the slot. *)
Lemma color_slot i : Z.land (color k i) (2 ^ k - 1) = Z.of_nat (slot k i).
Proof.
  rewrite slot_Z, land_low by lia. unfold color. rewrite pow_succ. apply Z.mod_mod_divide. by exists 2.
Qed.

Lemma color_succ i : k <= 15 -> Z.land (u32 (color k i + 1)) (2 ^ (k + 1) - 1) = color k (S i).
Proof.
  intros Hk'. pose proof (color_range i). assert (2 ^ (k + 1) <= 2 ^ 16) by (apply Z.pow_le_mono_r; lia). rewrite u32_small by lia.
  rewrite land_low by lia. unfold color. rewrite Nat2Z.inj_succ. unfold Z.succ. by rewrite Zplus_mod_idemp_l.
Qed.

Lemma mod_eq_small a b m : 0 < m -> a mod m = b mod m -> - m < a - b < m -> a = b.
Proof.
  intros Hm He Hd. assert ((a - b) mod m = 0) as H0. { rewrite Zminus_mod, He, Z.sub_diag. apply Z.mod_0_l. lia. }
  apply Z.mod_divide in H0 as [q Hq]; [|lia]. rewrite Hq in Hd. assert (-1 < q < 1) by nia. assert (q = 0) as -> by lia. lia.
Qed.

(** Numbers less than a turn apart have different slots; less than two, different colors. *)
Lemma slot_inj i j : slot k i = slot k j -> - 2 ^ k < Z.of_nat i - Z.of_nat j < 2 ^ k -> i = j.
Proof.
  intros He Hd. apply (f_equal Z.of_nat) in He. rewrite !slot_Z in He. apply Nat2Z.inj. exact (mod_eq_small _ _ _ pow_pos He Hd).
Qed.
Lemma color_inj i j : color k i = color k j -> - 2 ^ (k + 1) < Z.of_nat i - Z.of_nat j < 2 ^ (k + 1) -> i = j.
Proof. intros He Hd. apply Nat2Z.inj. eapply mod_eq_small; [|exact He|done]. rewrite pow_succ. pose proof pow_pos. lia. Qed.

(** Same slot and different colors: a whole turn apart. *)
Lemma full_turn n m : (n <= m)%nat -> Z.of_nat m <= Z.of_nat n + 2 ^ k ->
  (slot k m = slot k n /\ color k m <> color k n) <-> Z.of_nat m = Z.of_nat n + 2 ^ k.
Proof.
  intros H1 H2. pose proof pow_pos. split.
  - intros [Hs Hc]. destruct (decide (Z.of_nat m = Z.of_nat n + 2 ^ k)) as [|Hne]; [done|]. exfalso. apply Hc. f_equal. apply slot_inj; [done|lia].
  - intros E. split.
    + apply Nat2Z.inj. rewrite !slot_Z, E. rewrite <- (Z.mul_1_l (2 ^ k)) at 1. by rewrite Z_mod_plus_full.
    + intros Hc. apply color_inj in Hc; [|rewrite pow_succ; lia]. subst. lia.
Qed.
End Slots.

(** ** What the ring holds *)

Record fifo_ok (k : Z) (accepted : list (Z * Z)) (results : list hw_result) (n : nat) (d : eh_device) : Prop := MkFifo {
  fo_k : 0 <= k <= 15;
  fo_size : e_fifo_size d = 2 ^ k;
  fo_index_mask : e_fifo_index_mask d = 2 ^ k - 1;
  fo_color_mask : e_fifo_color_mask d = 2 ^ (k + 1) - 1;
  fo_fifo : length (e_fifo d) = Z.to_nat (2 ^ k);
  fo_completions : length (e_completions d) = Z.to_nat (2 ^ k);
  fo_buffers : length (e_compr_buffers d) = Z.to_nat (2 ^ k);
  fo_order : (n <= length results <= length accepted)%nat /\ Z.of_nat (length accepted) <= Z.of_nat n + 2 ^ k;
  fo_write : e_write_index d = color k (length accepted);
  fo_complete : e_complete_index d = color k n;
  fo_hw_write : rd (e_regs d) EH_REG_CDESC_WRIDX = color k (length accepted);
  fo_hw_complete : fifo_next_complete_index d = color k (length results);
  fo_slots : forall i page priv, (n <= i)%nat -> accepted !! i = Some (page, priv) ->
    e_completions d !! slot k i = Some (Some priv) /\ exists x, e_fifo d !! slot k i = Some x /\ desc_page x = page /\
      match results !! i with
      | Some r => desc_status x = hr_status r /\ d_compr_len x = hr_len r /\ d_buf_sel x = hr_buf r
      | None => desc_status x = EH_CDESC_PENDING
      end;
  fo_nr : e_nr_request d = Z.of_nat (length accepted) - Z.of_nat n
}.

(** ** The operations on the ring *)

Lemma wp_at_index {S A} (l : S -> list A) (i : nat) x (Q : A -> S -> Prop) s : l s !! i = Some x -> Q x s -> wp (at_index l (Z.of_nat i)) Q s.
Proof.
  intros E HQ. unfold wp, at_index. destruct (Z.ltb_spec (Z.of_nat i) 0); [lia|]. rewrite Nat2Z.id, E. done.
Qed.

Lemma wp_mod_descriptor (i : nat) f x (Q : unit -> eh_device -> Prop) d : e_fifo d !! i = Some x ->
  Q tt (d <| e_fifo := <[i := f x]> (e_fifo d) |>) -> wp (mod_descriptor (Z.of_nat i) f) Q d.
Proof. intros E HQ. unfold mod_descriptor, eh_descriptor. apply wp_bind. eapply wp_at_index; [done|]. apply wp_mod. by rewrite Nat2Z.id. Qed.

Lemma wp_set_completion (i : nat) p x (Q : unit -> eh_device -> Prop) d : e_completions d !! i = Some x ->
  Q tt (d <| e_completions := <[i := p]> (e_completions d) |>) -> wp (set_completion (Z.of_nat i) p) Q d.
Proof. intros E HQ. unfold set_completion. apply wp_bind. eapply wp_at_index; [done|]. apply wp_mod. by rewrite Nat2Z.id. Qed.

(** What the operations on the ring leave alone: the queues, the buffers, the
    callback and the error registers. *)
Record aside (d d' : eh_device) : Prop := MkAside {
  as_pool : e_pool d' = e_pool d;
  as_pool_count : e_pool_count d' = e_pool_count d;
  as_sw : e_sw d' = e_sw d;
  as_sw_count : e_sw_count d' = e_sw_count d;
  as_buffers : e_compr_buffers d' = e_compr_buffers d;
  as_callback : e_callback d' = e_callback d;
  as_error : rd (e_regs d') EH_REG_ERR_COND = rd (e_regs d) EH_REG_ERR_COND;
  as_halted : halted d' = halted d
}.

Section Ring.
Context {k : Z} {accepted : list (Z * Z)} {results : list hw_result} {n : nat} {d : eh_device}.
Context (F : fifo_ok k accepted results n d).

Lemma full_spec : fifo_full d = bool_decide (Z.of_nat (length accepted) = Z.of_nat n + 2 ^ k).
Proof.
  destruct F as [Hk _ Hm _ _ _ _ [Ho1 Ho2] Hw Hc _ _ _ _]. unfold fifo_full, fifo_write_index, fifo_complete_index.
  rewrite Hw, Hc, Hm, !color_slot by lia. pose proof (full_turn k ltac:(lia) n (length accepted) ltac:(lia) Ho2) as Ht.
  destruct (Z.eqb_spec (Z.of_nat (slot k (length accepted))) (Z.of_nat (slot k n))) as [He|He]; cbn [negb].
  - apply Nat2Z.inj in He. destruct (Z.eqb_spec (color k (length accepted)) (color k n)); cbn [negb]; symmetry;
      [apply bool_decide_eq_false|apply bool_decide_eq_true]; tauto.
  - symmetry. apply bool_decide_eq_false. intros E. apply Ht in E as [E _]. congruence.
Qed.

Lemma slot_lookup {A} (l : list A) i : length l = Z.to_nat (2 ^ k) -> exists x, l !! slot k i = Some x.
Proof. intros Hl. apply lookup_lt_is_Some_2. rewrite Hl. apply slot_range. apply F. Qed.

Lemma wp_request page priv : page mod 4096 = 0 ->
  wp (request_to_hw_fifo page priv) (fun r d' =>
    r = - EBUSY /\ d' = d /\ Z.of_nat (length accepted) = Z.of_nat n + 2 ^ k \/
    r = 0 /\ fifo_ok k (accepted ++ [(page, priv)]) results n d' /\ aside d d' /\ e_log d' = e_log d) d.
Proof.
  intros Hp. unfold request_to_hw_fifo. apply wp_bind, wp_get. rewrite full_spec. case_bool_decide as Hfull; [apply wp_ret; auto|].
  pose proof F as [Hk Hs Hm Hcm Hl1 Hl2 Hl3 [Ho1 Ho2] Hw Hc Hhw Hhc Hsl Hnr]. unfold fifo_write_index. rewrite Hw, Hm, color_slot by lia.
  destruct (slot_lookup (e_fifo d) (length accepted) Hl1) as [x Ex]. destruct (slot_lookup (e_completions d) (length accepted) Hl2) as [c Ec].
  apply wp_bind. unfold eh_setup_descriptor. eapply wp_mod_descriptor; [exact Ex|]. apply wp_bind. eapply wp_set_completion; [exact Ec|].
  apply wp_bind, wp_mod, wp_bind. unfold update_fifo_write_index. apply wp_bind, wp_get. cbv zeta. apply wp_bind, wp_mod. unfold eh_write_register. apply wp_mod, wp_ret.
  right. split; [done|]. simpl. rewrite Hw, Hcm, color_succ by lia. set (x' := set_status _ _).
  assert (2 ^ k <= 2 ^ 15) by (apply Z.pow_le_mono_r; lia).
  pose proof (color_range k ltac:(lia) (S (length accepted))). assert (2 ^ (k + 1) <= 2 ^ 16) by (apply Z.pow_le_mono_r; lia).
  split; [|split; [|done]].
  - split; simpl; rewrite ?length_insert; auto; rewrite ?length_app; simpl; rewrite ?Nat.add_1_r.
    + split; [lia|]. rewrite Nat2Z.inj_succ. lia.
    + done.
    + rewrite rd_insert_eq, u64_small by lia. done.
    + unfold fifo_next_complete_index. simpl. rewrite rd_insert_ne by done. exact Hhc.
    + intros i pg pr Hi. destruct (decide (i = length accepted)) as [->|Hne].
      * rewrite lookup_app_r, Nat.sub_diag by lia. intros [= <- <-]. rewrite list_lookup_insert_eq by (rewrite Hl2; apply slot_range; lia). split; [done|].
        exists x'. rewrite list_lookup_insert_eq by (rewrite Hl1; apply slot_range; lia). split; [done|]. split; [unfold x'; rewrite page_set; exact (page_of_aligned page x Hp)|].
        rewrite lookup_ge_None_2 by lia. apply status_set. unfold EH_CDESC_PENDING. lia.
      * intros Ei. assert (i < length accepted)%nat by (apply lookup_lt_Some in Ei; rewrite length_app in Ei; simpl in Ei; lia).
        rewrite lookup_app_l in Ei by lia. assert (slot k (length accepted) <> slot k i) by (intros E; apply slot_inj in E; lia).
        rewrite !list_lookup_insert_ne by done. by apply Hsl.
    + rewrite Hnr, s32_small by lia. rewrite Nat2Z.inj_succ. lia.
  - split; try done; [simpl; by rewrite rd_insert_ne|unfold halted; simpl; by rewrite rd_insert_ne].
Qed.

(** The report a result leads to, and whether the ring goes on. *)
Definition report_of (r : hw_result) (buffer : Z) (priv : option Z) : report :=
  match snd (compress_result (MkDesc (hr_buf r) (hr_len r) (Z.shiftl (hr_status r) 1) []) buffer) with
  | (result, data, size) => MkReport result data size priv
  end.

Lemma compress_result_of x r buffer priv : 0 <= hr_status r < 8 ->
  desc_status x = hr_status r -> d_compr_len x = hr_len r -> d_buf_sel x = hr_buf r ->
  compress_result x buffer =
    (if hr_status r =? EH_CDESC_ERROR_HALTED then - EINVAL else 0,
     (rp_result (report_of r buffer priv), rp_data (report_of r buffer priv), rp_size (report_of r buffer priv))).
Proof.
  intros Hs E1 E2 E3. unfold compress_result. rewrite E1, E2, E3. destruct r as [st len buf]. simpl in *.
  assert (st = 0 \/ st = 1 \/ st = 2 \/ st = 3 \/ st = 4 \/ st = 5 \/ st = 6 \/ st = 7) as Hcases by lia.
  repeat destruct Hcases as [->|Hcases]; [reflexivity..|]. rewrite Hcases. reflexivity.
Qed.

Lemma wp_process page priv r : e_callback d = true -> accepted !! n = Some (page, priv) -> results !! n = Some r -> 0 <= hr_status r < 8 ->
  wp (eh_process_completed_descriptor (Z.of_nat (slot k n))) (fun ret d' =>
    ret = (if hr_status r =? EH_CDESC_ERROR_HALTED then - EINVAL else 0) /\ fifo_ok k accepted results (S n) d' /\ aside d d' /\
    exists buffer, e_compr_buffers d !! slot k n = Some buffer /\ e_log d' = e_log d ++ [report_of r buffer (Some priv)]) d.
Proof.
  intros Hcb Ea Er Hst. pose proof F as [Hk Hs Hm Hcm Hl1 Hl2 Hl3 [Ho1 Ho2] Hw Hc Hhw Hhc Hsl Hnr].
  destruct (Hsl n page priv ltac:(lia) Ea) as (Ec & x & Ex & _ & Hx). rewrite Er in Hx. destruct Hx as (Hx1 & Hx2 & Hx3).
  destruct (slot_lookup (e_compr_buffers d) n Hl3) as [b Eb]. pose proof (lookup_lt_Some _ _ _ Er) as Hn.
  unfold eh_process_completed_descriptor. apply wp_bind. unfold eh_descriptor. eapply wp_at_index; [exact Ex|].
  apply wp_bind. eapply wp_at_index; [exact Eb|]. rewrite (compress_result_of x r b (Some priv) Hst Hx1 Hx2 Hx3).
  apply wp_bind. eapply wp_at_index; [exact Ec|]. apply wp_bind. unfold comp_callback. apply wp_bind, wp_get. rewrite Hcb. apply wp_mod.
  apply wp_bind. eapply wp_mod_descriptor; [exact Ex|]. apply wp_bind, wp_mod, wp_bind. unfold update_fifo_complete_index. apply wp_mod, wp_ret.
  split; [done|]. simpl. rewrite Hc, Hcm, color_succ by lia. assert (2 ^ k <= 2 ^ 15) by (apply Z.pow_le_mono_r; lia).
  split; [|split; [by split|]].
  - split; simpl; rewrite ?length_insert; auto.
    + split; [lia|]. rewrite Nat2Z.inj_succ. lia.
    + intros i pg pr Hi Ei. assert (slot k n <> slot k i) as Hne.
      { intros E. apply slot_inj in E; [lia|lia|]. apply lookup_lt_Some in Ei. lia. }
      rewrite list_lookup_insert_ne by done. apply Hsl; [lia|done].
    + rewrite Hnr, s32_small, Nat2Z.inj_succ by (apply lookup_lt_Some in Ea; lia). lia.
  - exists b. split; [done|]. f_equal. f_equal. unfold report_of. by destruct (snd (compress_result _ _)) as [[? ?] ?].
Qed.

End Ring.

(** The control register after a result. *)
Lemma ctrl_fields ctrl v (b : bool) : 0 <= v < 2 ^ 16 -> let c := u64 (Z.lor (set_field 0 16 v ctrl) (if b then BIT EH_CDESC_CTRL_COMPRESS_HALTED_SHIFT else 0)) in
  Z.land c EH_CDESC_CTRL_COMPLETE_IDX_MASK = v /\
  Z.testbit c EH_CDESC_CTRL_COMPRESS_HALTED_SHIFT = Z.testbit ctrl EH_CDESC_CTRL_COMPRESS_HALTED_SHIFT || b.
Proof.
  intros Hv c. assert (Hbit : forall j, 0 <= j < 64 -> Z.testbit c j = (if j <? 16 then Z.testbit v j else Z.testbit ctrl j) || (b && (j =? 20))).
  { intros j Hj. unfold c, u64. rewrite Z.mod_pow2_bits_low, Z.lor_spec, set_field_bits by lia. destruct (Z.leb_spec 0 j); [|lia]. cbn [andb]. rewrite Z.sub_0_r.
    f_equal. destruct b; cbn [andb]; [|apply Z.bits_0]. unfold BIT, EH_CDESC_CTRL_COMPRESS_HALTED_SHIFT. rewrite Z.shiftl_1_l, Z.pow2_bits_eqb by lia.
    apply Z.eqb_sym. }
  split.
  - apply Z.bits_inj'. intros j Hj. rewrite Z.land_spec. change EH_CDESC_CTRL_COMPLETE_IDX_MASK with (Z.ones 16). rewrite Z.testbit_ones_nonneg by lia.
    destruct (Z.ltb_spec j 16) as [Hlt|Hge].
    + rewrite Hbit by lia. apply Z.ltb_lt in Hlt as Hlt'. rewrite Hlt'. destruct (Z.eqb_spec j 20); [lia|]. by rewrite andb_false_r, orb_false_r, andb_true_r.
    + rewrite andb_false_r. symmetry. destruct (decide (v = 0)) as [->|]; [apply Z.bits_0|]. apply Z.bits_above_log2; [lia|].
      assert (Z.log2 v < 16) by (apply Z.log2_lt_pow2; lia). lia.
  - rewrite Hbit by (unfold EH_CDESC_CTRL_COMPRESS_HALTED_SHIFT; lia). by rewrite andb_true_r.
Qed.

Section Hardware.
Context {k : Z} {accepted : list (Z * Z)} {results : list hw_result} {n : nat} {d : eh_device}.
Context (F : fifo_ok k accepted results n d).

(** What the engine leaves alone. *)
Record unseen (r : hw_result) (d' : eh_device) : Prop := MkUnseen {
  un_log : e_log d' = e_log d;
  un_pool : e_pool d' = e_pool d;
  un_pool_count : e_pool_count d' = e_pool_count d;
  un_sw : e_sw d' = e_sw d;
  un_sw_count : e_sw_count d' = e_sw_count d;
  un_buffers : e_compr_buffers d' = e_compr_buffers d;
  un_callback : e_callback d' = e_callback d;
  un_halted : halted d' = (hr_status r =? EH_CDESC_ERROR_HALTED);
  un_error : rd (e_regs d') EH_REG_ERR_COND = if hr_status r =? EH_CDESC_ERROR_HALTED then 1 else rd (e_regs d) EH_REG_ERR_COND
}.

Lemma wp_hw page priv r : accepted !! length results = Some (page, priv) -> 0 <= hr_status r < 8 -> halted d = false ->
  wp (hw_complete r) (fun pg d' => pg = page /\ fifo_ok k accepted (results ++ [r]) n d' /\ unseen r d') d.
Proof.
  intros Ea Hst Hh. pose proof F as [Hk Hs Hm Hcm Hl1 Hl2 Hl3 [Ho1 Ho2] Hw Hc Hhw Hhc Hsl Hnr]. pose proof (lookup_lt_Some _ _ _ Ea) as Hlt.
  destruct (Hsl (length results) page priv ltac:(lia) Ea) as (Ec & x & Ex & Hpg & _). unfold hw_complete. apply wp_bind, wp_get. cbv zeta.
  rewrite Hhc, Hhw, Hh, orb_false_r.
  assert (2 ^ (k + 1) <= 2 ^ 16) by (apply Z.pow_le_mono_r; lia). pose proof (color_range k ltac:(lia) (length results)) as Hcr. pose proof (color_range k ltac:(lia) (S (length results))) as Hcr'.
  destruct (Z.eqb_spec (color k (length results)) (color k (length accepted))) as [He|_].
  { apply color_inj in He; [lia|lia|]. rewrite pow_succ by lia. pose proof (pow_pos k ltac:(lia)). lia. }
  rewrite Hm, color_slot by lia. apply wp_bind. unfold eh_descriptor. eapply wp_at_index; [exact Ex|]. apply wp_bind. eapply wp_mod_descriptor; [exact Ex|].
  set (x' := set_status _ _). apply wp_bind. unfold eh_write_register at 1. apply wp_mod.
  assert (Hnext : Z.land (color k (length results) + 1) (e_fifo_color_mask d) = color k (S (length results))).
  { rewrite Hcm, <- (color_succ k) by lia. by rewrite u32_small by lia. }
  rewrite Hnext. set (b := hr_status r =? EH_CDESC_ERROR_HALTED). destruct (ctrl_fields (rd (e_regs d) EH_REG_CDESC_CTRL) (color k (S (length results))) b ltac:(lia)) as [Hc1 Hc2].
  unfold halted in Hh. rewrite Hh in Hc2. cbn [orb] in Hc2. set (c := u64 _) in *.
  assert (Hok : forall regs, rd regs EH_REG_CDESC_CTRL = c -> rd regs EH_REG_CDESC_WRIDX = rd (e_regs d) EH_REG_CDESC_WRIDX ->
    fifo_ok k accepted (results ++ [r]) n (d <| e_fifo := <[slot k (length results) := x']> (e_fifo d) |> <| e_regs := regs |>)).
  { intros regs E1 E2. split; simpl; rewrite ?length_insert; auto; rewrite ?length_app; simpl; rewrite ?Nat.add_1_r.
    - split; [lia|done].
    - by rewrite E2.
    - unfold fifo_next_complete_index. simpl. by rewrite E1.
    - intros i pg pr Hi Ei. destruct (Hsl i pg pr Hi Ei) as (Eci & y & Ey & Hy & Hyr). split; [done|]. destruct (decide (i = length results)) as [->|Hne].
      + rewrite list_lookup_insert_eq by (rewrite Hl1; apply slot_range; lia). rewrite Ea in Ei. injection Ei as <- <-. exists x'. split; [done|].
        split; [unfold x'; rewrite page_set; exact Hpg|]. rewrite lookup_app_r, Nat.sub_diag by lia. simpl. split; [by apply status_set|done].
      + assert (slot k (length results) <> slot k i). { intros E. apply slot_inj in E; [lia|lia|]. apply lookup_lt_Some in Ei. lia. }
        exists y. rewrite list_lookup_insert_ne by done. split; [done|]. split; [done|]. destruct (decide (i < length results)%nat).
        * by rewrite lookup_app_l by lia.
        * rewrite lookup_ge_None_2 in Hyr by lia. rewrite lookup_ge_None_2 by (rewrite length_app; simpl; lia). done. }
  destruct b eqn:Eb; apply wp_bind; [apply wp_mod|apply wp_ret]; apply wp_ret; (split; [done|]).
  - split; [apply Hok; simpl; by rewrite rd_insert_ne by done; rewrite ?rd_insert_eq, ?rd_insert_ne by done|].
    split; try done; fold b; rewrite Eb; [|by simpl; rewrite rd_insert_eq].
    etrans; [|exact Hc2]. unfold halted. f_equal. simpl. by rewrite rd_insert_ne, rd_insert_eq by done.
  - split; [apply Hok; simpl; [by rewrite rd_insert_eq|by rewrite rd_insert_ne]|].
    split; try done; fold b; rewrite Eb; [|by simpl; rewrite rd_insert_ne].
    etrans; [|exact Hc2]. unfold halted. f_equal. simpl. by rewrite rd_insert_eq.
Qed.
End Hardware.
