(* ===== verification/EhRun.v ===== *)
(** * Runs of the compression engine

    The clients that submit pages, the hardware and the thread of the driver
    take turns in any order. A world is the device, the place of the thread and
    what was observed: the requests submitted, the pages the engine read and its
    results. [running] says what every reachable world satisfies as long as the
    thread is alive, [stopped] what remains of it after a fatal error. *)

From S2P Require Import Prelude Eh EhFifo.

(** ** Worlds and their steps *)

Record world := MkWorld {
  w_dev : eh_device;
  w_thread : thread;
  w_submitted : list (Z * Z);
  w_read : list Z;
  w_results : list hw_result
}.

(** The thread sleeps at the top of its loop as long as this holds. *)
Definition comp_idle (d : eh_device) : bool := (e_nr_request d =? 0) && sw_fifo_empty d.

(** [driver_step] is a step of the engine, which finds no descriptor idle or
    pending when it has completed it, or of the thread; [step] also has the two
    ways in which a page can be submitted. Which of them [eh_compress_page] takes
    depends on tests that another task can overtake, so both are always possible. *)
Inductive driver_step : world -> world -> Prop :=
| StepHw d t sub rd res r page d' : 1 <= hr_status r <= 6 -> hw_complete r d = Done page d' ->
    driver_step (MkWorld d t sub rd res) (MkWorld d' t sub (rd ++ [page]) (res ++ [r]))
| StepThread d t sub rd res t' d' : (t = TTop -> comp_idle d = false) -> thread_step t d = Done t' d' ->
    driver_step (MkWorld d t sub rd res) (MkWorld d' t' sub rd res).

Inductive step : world -> world -> Prop :=
| StepHwFifo d t sub rd res page priv d' : page mod PAGE_SIZE = 0 -> request_to_hw_fifo page priv d = Done 0 d' ->
    step (MkWorld d t sub rd res) (MkWorld d' t (sub ++ [(page, priv)]) rd res)
| StepSwFifo d t sub rd res page priv d' : page mod PAGE_SIZE = 0 -> request_to_sw_fifo page priv d = Done tt d' ->
    step (MkWorld d t sub rd res) (MkWorld d' t (sub ++ [(page, priv)]) rd res)
| StepDriver w w' : driver_step w w' -> step w w'
| StepSpurious d sub rd res t' d' : thread_step TTop d = Done t' d' ->
    step (MkWorld d TTop sub rd res) (MkWorld d' t' sub rd res).

(** ** What a run keeps *)

Definition request_of (r : eh_request) : Z * Z := (r_page r, r_priv r).

(** The requests the thread holds while it flushes the queue. *)
Definition held (t : thread) : list eh_request := match t with TFlush l _ => l | _ => [] end.
Definition flushed (t : thread) : Z := match t with TFlush _ n => n | _ => 0 end.

(** The reports for the first results: report [i] has the private pointer of
    request [i] and the data in the buffer of its slot. *)
Definition answers (k : Z) (buffers : list Z) (reqs : list (Z * Z)) (rs : list hw_result) : list report :=
  imap (fun i '(_, priv, r) => report_of r (buffers !!! slot k i) (Some priv)) (zip reqs rs).

(** The pages and pointers of the queue and of the thread's list, and where
    their structures are. *)
Record queue_ok (pool0 : list Z) (t : thread) (d : eh_device) : Prop := MkQueue {
  qo_addrs : e_pool d ++ (r_addr <$> held t) ++ (r_addr <$> e_sw d) ≡ₚ pool0;
  qo_small : Z.of_nat (length pool0) < 2 ^ 30;
  qo_pool_count : e_pool_count d = Z.of_nat (length (e_pool d));
  qo_sw_count : e_sw_count d = Z.of_nat (length (e_sw d)) + Z.of_nat (length (held t)) + flushed t;
  qo_flushed : 0 <= flushed t /\ flushed t + Z.of_nat (length (held t)) <= Z.of_nat (length pool0);
  qo_aligned : Forall (fun r => r_page r mod PAGE_SIZE = 0) (held t ++ e_sw d)
}.

Definition thread_ok (k : Z) (results : list hw_result) (n : nat) (t : thread) : Prop :=
  match t with
  | TTop | TFull | TFlush _ _ => True
  | TProcess i end_ => exists e, (n <= e <= length results)%nat /\ i = color k n /\ end_ = color k e
  | TRefill i end_ => exists e n', n = S n' /\ (n <= e <= length results)%nat /\ i = color k n' /\ end_ = color k e
  | TFailed => n = length results /\ exists r, last results = Some r /\ hr_status r = EH_CDESC_ERROR_HALTED
  | TGone => False
  end.

(** Results after which the engine goes on; the last may have halted it. *)
Definition results_ok (results : list hw_result) (d : eh_device) : Prop :=
  (forall i r, results !! i = Some r -> 1 <= hr_status r <= 6 /\ (hr_status r = EH_CDESC_ERROR_HALTED -> S i = length results /\ halted d = true)) /\
  (halted d = true -> rd (e_regs d) EH_REG_ERR_COND <> 0 /\ exists r, last results = Some r /\ hr_status r = EH_CDESC_ERROR_HALTED).

Record running (k : Z) (pool0 : list Z) (accepted : list (Z * Z)) (n : nat) (w : world) : Prop := MkRunning {
  rn_fifo : fifo_ok k accepted (w_results w) n (w_dev w);
  rn_queue : queue_ok pool0 (w_thread w) (w_dev w);
  rn_callback : e_callback (w_dev w) = true;
  rn_results : results_ok (w_results w) (w_dev w);
  rn_read : w_read w = take (length (w_results w)) (accepted.*1);
  rn_submitted : w_submitted w ≡ₚ accepted ++ (request_of <$> (held (w_thread w) ++ e_sw (w_dev w)));
  rn_log : e_log (w_dev w) = answers k (e_compr_buffers (w_dev w)) (take n accepted) (take n (w_results w));
  rn_thread : thread_ok k (w_results w) n (w_thread w)
}.

Definition aborted (accepted : list (Z * Z)) : list report := (fun x => MkReport EH_CDESC_ERROR_HALTED None 0 (Some (snd x))) <$> accepted.

(** After the fatal error: every result was reported, and the requests that
    followed, up to some point, were aborted. *)
Record stopped (k : Z) (accepted rest : list (Z * Z)) (results : list hw_result) (w : world) : Prop := MkStopped {
  st_thread : w_thread w = TGone;
  st_lengths : length accepted = length results;
  st_submitted : accepted ++ rest ⊆+ w_submitted w;
  st_log : e_log (w_dev w) = answers k (e_compr_buffers (w_dev w)) accepted results ++ aborted rest;
  st_read : take (length results) (w_read w) = accepted.*1;
  st_results : take (length results) (w_results w) = results
}.

Definition world_ok (k : Z) (pool0 : list Z) (w : world) : Prop :=
  (exists accepted n, running k pool0 accepted n w) \/ (exists accepted rest results, stopped k accepted rest results w).

(** ** Reports *)

Lemma answers_snoc k bufs reqs rs x r : length reqs = length rs ->
  answers k bufs (reqs ++ [x]) (rs ++ [r]) = answers k bufs reqs rs ++ [report_of r (bufs !!! slot k (length rs)) (Some (snd x))].
Proof.
  intros Hl. unfold answers. rewrite zip_with_app by done. rewrite imap_app. f_equal. simpl. rewrite length_zip_with, Hl, Nat.min_id, Nat.add_0_r. by destruct x.
Qed.

(** The reports of the results so far do not change when requests or results are added. *)
Lemma answers_more k bufs n reqs rs reqs' rs' : (n <= length reqs)%nat -> (n <= length rs)%nat ->
  answers k bufs (take n (reqs ++ reqs')) (take n (rs ++ rs')) = answers k bufs (take n reqs) (take n rs).
Proof. intros. by rewrite !take_app_le by lia. Qed.

(** ** Steps that leave the reports alone *)

Definition silent {A} (m : EH A) : Prop :=
  forall d a d', m d = Done a d' -> e_log d' = e_log d /\ e_compr_buffers d' = e_compr_buffers d.

Lemma silent_ret {A} (a : A) : silent (kret a).
Proof. by intros d x d' [= <- <-]. Qed.
Lemma silent_get : silent kget.
Proof. by intros d x d' [= <- <-]. Qed.
Lemma silent_bind {A B} (m : EH A) (f : A -> EH B) : silent m -> (forall a, silent (f a)) -> silent (kbind m f).
Proof.
  intros Hm Hf d b d'. unfold kbind. destruct (m d) as [a d1| |] eqn:E1; try done. intros E2. apply Hm in E1 as [H1 H2]. apply Hf in E2 as [H3 H4]. split; congruence.
Qed.
Lemma silent_mod f : (forall d, e_log (f d) = e_log d /\ e_compr_buffers (f d) = e_compr_buffers d) -> silent (kmod f).
Proof. intros H d a d' [= <- <-]. apply H. Qed.
Lemma silent_block {A} : silent (@kblock eh_device A).
Proof. done. Qed.
Lemma silent_at {A} (l : eh_device -> list A) i : silent (at_index l i).
Proof. intros d a d'. unfold at_index. destruct (i <? 0); [done|]. destruct (l d !! Z.to_nat i); [|done]. by intros [= <- <-]. Qed.
Lemma silent_if {A} (b : bool) (m m' : EH A) : silent m -> silent m' -> silent (if b then m else m').
Proof. by destruct b. Qed.

Create HintDb silent.
#[export] Hint Resolve silent_ret silent_get silent_block silent_at silent_bind silent_if : silent.
#[export] Hint Extern 1 (silent (kmod _)) => (apply silent_mod; by intros) : silent.
Ltac silent_tac := repeat (intros; apply silent_bind || apply silent_if); intros; auto with silent.

Lemma silent_request_hw page priv : silent (request_to_hw_fifo page priv).
Proof.
  unfold request_to_hw_fifo, eh_setup_descriptor, mod_descriptor, eh_descriptor, set_completion, update_fifo_write_index, eh_write_register.
  apply silent_bind; [apply silent_get|]. intros d. cbv zeta. silent_tac.
Qed.
Lemma silent_request_sw page priv : silent (request_to_sw_fifo page priv).
Proof.
  unfold request_to_sw_fifo, pool_alloc. apply silent_bind; [|intros [a|]; silent_tac]. apply silent_bind; [apply silent_get|]. intros d. destruct (e_pool d); silent_tac.
Qed.
Lemma silent_hw r : silent (hw_complete r).
Proof.
  unfold hw_complete, mod_descriptor, eh_descriptor, eh_write_register. apply silent_bind; [apply silent_get|]. intros d. cbv zeta. silent_tac.
Qed.

(** ** Frames *)

Lemma fifo_frame {k accepted results n d} sw c pool pc : fifo_ok k accepted results n d ->
  fifo_ok k accepted results n (d <| e_sw := sw |> <| e_sw_count := c |> <| e_pool := pool |> <| e_pool_count := pc |>).
Proof. intros []. by split. Qed.

Lemma results_frame {results d} d' : halted d' = halted d -> rd (e_regs d') EH_REG_ERR_COND = rd (e_regs d) EH_REG_ERR_COND ->
  results_ok results d -> results_ok results d'.
Proof. intros E1 E2. unfold results_ok. by rewrite E1, E2. Qed.

Lemma queue_aside {pool0 t d} d' : aside d d' -> queue_ok pool0 t d -> queue_ok pool0 t d'.
Proof. intros [E1 E2 E3 E4 _ _ _ _] []. by split; rewrite ?E1, ?E2, ?E3, ?E4. Qed.

Lemma take_last_spec {A} (l : list A) : match take_last l with None => l = [] | Some (rest, x) => l = rest ++ [x] end.
Proof.
  unfold take_last. destruct (rev l) as [|x r] eqn:E.
  - rewrite <- (rev_involutive l), E. done.
  - rewrite <- (rev_involutive l), E. done.
Qed.

Lemma silent_of {A} {m : EH A} {d a d'} : silent m -> m d = Done a d' -> e_log d' = e_log d /\ e_compr_buffers d' = e_compr_buffers d.
Proof. intros H. apply H. Qed.

Section Steps.
Context (k : Z) (pool0 : list Z).

(** ** Submitting *)

Lemma run_submit_hw accepted n d t sub rds res page priv d' : running k pool0 accepted n (MkWorld d t sub rds res) ->
  page mod PAGE_SIZE = 0 -> request_to_hw_fifo page priv d = Done 0 d' ->
  running k pool0 (accepted ++ [(page, priv)]) n (MkWorld d' t (sub ++ [(page, priv)]) rds res).
Proof.
  intros [F Q Hcb R Hrd Hsub Hlog T] Hp E. simpl in *. pose proof (wp_done _ _ _ _ _ (wp_request F page priv Hp) E) as [[[=] _]|(_ & F' & A & El)].
  pose proof (fo_order _ _ _ _ _ F) as [Ho _]. split; simpl; auto.
  - by apply (queue_aside _ A).
  - by rewrite (as_callback _ _ A).
  - apply (results_frame (d := d)); [apply A|apply A|done].
  - rewrite Hrd, fmap_app, take_app_le by (rewrite length_fmap; lia). done.
  - rewrite (as_sw _ _ A), Hsub. solve_Permutation.
  - rewrite El, (as_buffers _ _ A), Hlog, take_app_le by lia. done.
Qed.

Lemma run_submit_sw accepted n d t sub rds res page priv d' : running k pool0 accepted n (MkWorld d t sub rds res) ->
  page mod PAGE_SIZE = 0 -> request_to_sw_fifo page priv d = Done tt d' ->
  running k pool0 accepted n (MkWorld d' t (sub ++ [(page, priv)]) rds res).
Proof.
  intros [F [Qa Qs Qp Qc Qf Qal] Hcb R Hrd Hsub Hlog T] Hp. simpl in *. unfold request_to_sw_fifo, pool_alloc, kbind, kget. destruct (e_pool d) as [|a pool] eqn:Ep; [done|].
  unfold kmod, kret. intros [= <-]. assert (length pool + length (held t) + length (e_sw d) < length pool0)%nat.
  { rewrite <- Qa. rewrite !length_app, !length_fmap. simpl. lia. }
  split; simpl; auto.
  - exact (fifo_frame _ _ _ _ F).
  - split; simpl; auto.
    + rewrite <- Qa. solve_Permutation.
    + rewrite Qp. cbn [length]. rewrite s32_small by lia. lia.
    + rewrite Qc, s32_small by lia. cbn [length]. lia.
    + rewrite Forall_app in Qal |- *. destruct Qal. split; [done|]. by apply Forall_cons.
  - rewrite Hsub, !fmap_app. simpl. unfold request_of at 3. simpl. solve_Permutation.
Qed.
(** ** The engine *)

Lemma results_more results r d d' : results_ok results d -> halted d = false -> 1 <= hr_status r <= 6 ->
  halted d' = (hr_status r =? EH_CDESC_ERROR_HALTED) ->
  rd (e_regs d') EH_REG_ERR_COND = (if hr_status r =? EH_CDESC_ERROR_HALTED then 1 else rd (e_regs d) EH_REG_ERR_COND) ->
  results_ok (results ++ [r]) d'.
Proof.
  intros [R1 R2] Hh Hr E1 E2. split.
  - intros i x [[_ Hi]|[-> <-]]%lookup_snoc_Some.
    + destruct (R1 _ _ Hi) as [? Hx]. split; [done|]. intros E. destruct (Hx E). congruence.
    + split; [done|]. intros E. rewrite length_app, E1, E. simpl. split; [lia|done].
  - rewrite E1, E2, last_snoc. intros E%Z.eqb_eq. rewrite E. simpl. split; [lia|]. eauto.
Qed.

Lemma hw_ready r d page d' : hw_complete r d = Done page d' -> halted d = false /\ fifo_next_complete_index d <> rd (e_regs d) EH_REG_CDESC_WRIDX.
Proof.
  unfold hw_complete, kbind at 1, kget. cbv zeta. destruct (Z.eqb_spec (fifo_next_complete_index d) (rd (e_regs d) EH_REG_CDESC_WRIDX)); [done|].
  destruct (halted d); done.
Qed.

Lemma run_hw accepted n d t sub rds res r page d' : running k pool0 accepted n (MkWorld d t sub rds res) ->
  1 <= hr_status r <= 6 -> hw_complete r d = Done page d' -> running k pool0 accepted n (MkWorld d' t sub (rds ++ [page]) (res ++ [r])).
Proof.
  intros [F Q Hcb R Hrd Hsub Hlog T] Hst E. simpl in *. destruct (hw_ready _ _ _ _ E) as [Hh Hne]. pose proof (fo_order _ _ _ _ _ F) as [Ho _].
  assert (length res < length accepted)%nat as Hlt.
  { rewrite (fo_hw_complete _ _ _ _ _ F), (fo_hw_write _ _ _ _ _ F) in Hne. assert (length res <> length accepted) by congruence. lia. }
  destruct (lookup_lt_is_Some_2 _ _ Hlt) as [[pg pr] Ea]. destruct (wp_done _ _ _ _ _ (wp_hw F pg pr r Ea ltac:(lia) Hh) E) as (-> & F' & [U1 U2 U3 U4 U5 U6 U7 U8 U9]).
  split; simpl; auto.
  - destruct Q. by split; rewrite ?U2, ?U3, ?U4, ?U5.
  - by rewrite U7.
  - by apply (results_more _ _ d).
  - rewrite Hrd, length_app, Nat.add_1_r. symmetry. apply take_S_r. by rewrite list_lookup_fmap, Ea.
  - by rewrite U4.
  - rewrite U1, U6, Hlog, (take_app_le res) by lia. done.
  - destruct t as [|i e|i e| | |l c|]; simpl in *; auto.
    + destruct T as (e' & ? & ?). exists e'. rewrite length_app. split; [lia|done].
    + destruct T as (e' & n' & ? & ? & ?). exists e', n'. rewrite length_app. split; [done|]. split; [lia|done].
    + destruct T as (_ & x & Hx & Hxs). destruct R as [R _]. rewrite last_lookup in Hx. destruct (R _ _ Hx) as [_ HR]. destruct (HR Hxs). congruence.
Qed.
(** ** The thread *)

(** The thread moves on without touching the device. *)
Lemma run_move accepted n d t t' sub rds res : running k pool0 accepted n (MkWorld d t sub rds res) ->
  held t' = held t -> flushed t' = flushed t -> thread_ok k res n t' -> running k pool0 accepted n (MkWorld d t' sub rds res).
Proof.
  intros [F [] Hcb R Hrd Hsub Hlog T] E1 E2 T'. split; simpl in *; auto; [|by rewrite E1]. split; rewrite ?E1, ?E2; auto.
Qed.

Lemma run_top accepted n d sub rds res : running k pool0 accepted n (MkWorld d TTop sub rds res) ->
  thread_step TTop d = Done (TProcess (color k n) (color k (length res))) d /\
  running k pool0 accepted n (MkWorld d (TProcess (color k n) (color k (length res))) sub rds res).
Proof.
  intros W. pose proof (rn_fifo _ _ _ _ _ W) as F. simpl in F. split.
  - unfold thread_step, kbind, kget, kret. by rewrite (fo_complete _ _ _ _ _ F), (fo_hw_complete _ _ _ _ _ F).
  - eapply run_move; [exact W|done..|]. pose proof (fo_order _ _ _ _ _ F). exists (length res). split; [lia|done].
Qed.

(** What is reported next. *)
Lemma run_process accepted n d e sub rds res : running k pool0 accepted n (MkWorld d (TProcess (color k n) (color k e)) sub rds res) ->
  (n < e <= length res)%nat ->
  wp (thread_step (TProcess (color k n) (color k e))) (fun t' d' =>
    t' = (if decide (hr_status <$> res !! n = Some EH_CDESC_ERROR_HALTED) then TFailed else TRefill (color k n) (color k e)) /\
    running k pool0 accepted (S n) (MkWorld d' t' sub rds res) /\ e_sw d' = e_sw d /\ halted d' = halted d) d.
Proof.
  intros [F Q Hcb R Hrd Hsub Hlog T] He. simpl in *. pose proof (fo_order _ _ _ _ _ F) as [Ho1 Ho2]. pose proof (fo_k _ _ _ _ _ F) as Hk.
  destruct (lookup_lt_is_Some_2 accepted n ltac:(lia)) as [[pg pr] Ea]. destruct (lookup_lt_is_Some_2 res n ltac:(lia)) as [r Er].
  destruct R as [R1 R2]. destruct (R1 _ _ Er) as [Hst Hhalt]. unfold thread_step, process_step. apply wp_bind, wp_get, wp_bind, wp_get. cbv beta.
  destruct (Z.eqb_spec (color k n) (color k e)) as [E|_]. { apply color_inj in E; [lia|lia|]. rewrite pow_succ by lia. pose proof (pow_pos k ltac:(lia)). lia. }
  rewrite (fo_index_mask _ _ _ _ _ F), color_slot by lia. apply wp_bind.
  eapply wp_mono; [apply (wp_process F pg pr r Hcb Ea Er); lia|]. intros ret d' (-> & F' & A & b & Eb & El). apply wp_ret. rewrite Er. simpl.
  assert (Hlog' : e_log d' = answers k (e_compr_buffers d') (take (S n) accepted) (take (S n) res)).
  { rewrite El, (as_buffers _ _ A), (take_S_r _ _ _ Ea), (take_S_r _ _ _ Er), answers_snoc by (rewrite !length_take; lia). rewrite Hlog, length_take.
    rewrite (list_lookup_total_correct _ (slot k (n `min` length res)) b); [done|]. by rewrite Nat.min_l by lia. }
  split; [|split; [|split; apply A]].
  - destruct (Z.eqb_spec (hr_status r) EH_CDESC_ERROR_HALTED) as [->|Hne]; [by rewrite decide_True|]. rewrite decide_False by (intros [= ?]; done). done.
  - split; simpl; auto.
    + assert (queue_ok pool0 (TProcess (color k n) (color k e)) d') as [] by exact (queue_aside _ A Q). destruct (hr_status r =? _); by split.
    + by rewrite (as_callback _ _ A).
    + apply (results_frame (d := d)); [apply A|apply A|by split].
    + rewrite (as_sw _ _ A). by destruct (hr_status r =? _).
    + destruct (Z.eqb_spec (hr_status r) EH_CDESC_ERROR_HALTED) as [Ehr|Hne]; simpl.
      * destruct (Hhalt Ehr) as [Hl _]. split; [done|]. exists r. split; [|done]. rewrite last_lookup, <- Hl. done.
      * exists e, n. split; [done|]. split; [lia|done].
Qed.

(** A request moves from the queue, or the thread's list, into the ring. *)
Lemma request_moves accepted n d t sub rds res x : running k pool0 accepted n (MkWorld d t sub rds res) -> r_page x mod PAGE_SIZE = 0 ->
  wp (request_to_hw_fifo (r_page x) (r_priv x)) (fun r d' =>
    r = - EBUSY /\ d' = d /\ Z.of_nat (length accepted) = Z.of_nat n + 2 ^ k \/
    r = 0 /\ aside d d' /\ fifo_ok k (accepted ++ [request_of x]) res n d' /\
      e_log d' = answers k (e_compr_buffers d') (take n (accepted ++ [request_of x])) (take n res) /\
      rds = take (length res) ((accepted ++ [request_of x]).*1)) d.
Proof.
  intros [F Q Hcb R Hrd Hsub Hlog T] Hx. simpl in *. pose proof (fo_order _ _ _ _ _ F) as [Ho _].
  eapply wp_mono; [exact (wp_request F _ _ Hx)|]. intros r d' [?|(-> & F' & A & El)]; [by left|right].
  split; [done|]. split; [done|]. split; [done|]. split.
  - rewrite El, (as_buffers _ _ A), Hlog, take_app_le by lia. done.
  - rewrite Hrd, fmap_app, take_app_le by (rewrite length_fmap; lia). done.
Qed.
Lemma run_refill accepted n d e sub rds res : running k pool0 accepted (S n) (MkWorld d (TRefill (color k n) (color k e)) sub rds res) ->
  (S n <= e <= length res)%nat ->
  wp (thread_step (TRefill (color k n) (color k e))) (fun t' d' => t' = TProcess (color k (S n)) (color k e) /\ halted d' = halted d /\
    exists more, running k pool0 (accepted ++ more) (S n) (MkWorld d' t' sub rds res)) d.
Proof.
  intros W He. pose proof W as [F [Qa Qs Qp Qc Qf Qal] Hcb R Hrd Hsub Hlog T]. simpl in *. pose proof (fo_k _ _ _ _ _ F) as Hk.
  unfold thread_step, refill_step. apply wp_bind, wp_get, wp_bind, wp_get. cbv beta. rewrite (fo_color_mask _ _ _ _ _ F), color_succ by lia.
  assert (W' : running k pool0 accepted (S n) (MkWorld d (TProcess (color k (S n)) (color k e)) sub rds res)).
  { eapply run_move; [exact W|done..|]. exists e. split; [lia|done]. }
  assert (Hno : exists more, running k pool0 (accepted ++ more) (S n) (MkWorld d (TProcess (color k (S n)) (color k e)) sub rds res)) by (exists []; by rewrite app_nil_r).
  apply wp_bind. unfold refill_hw_fifo. apply wp_bind, wp_get. cbv beta. pose proof (take_last_spec (e_sw d)) as Htl. destruct (take_last (e_sw d)) as [[rest x]|]; [|apply wp_ret, wp_ret; eauto].
  rewrite Htl in Qal. apply Forall_app in Qal as [Qal Qx]. apply Forall_inv in Qx.
  apply wp_bind. eapply wp_mono; [exact (request_moves _ _ _ _ _ _ _ x W' Qx)|]. intros r d' [(-> & -> & _)|(-> & A & F' & El & Erd)]; cbn [Z.eqb]; [apply wp_ret, wp_ret; eauto|].
  unfold pool_free. apply wp_bind, wp_mod, wp_mod, wp_ret. split; [done|]. split; [apply A|].
  exists [request_of x]. destruct A as [A1 A2 A3 A4 A5 A6 A7 A8]. split; simpl; auto.
  - exact (fifo_frame _ _ _ _ F').
  - assert (Hlen : (length (e_pool d) + S (length rest) = length pool0)%nat). { rewrite <- Qa, Htl. rewrite !length_app, !length_fmap, length_app. simpl. lia. }
    rewrite Htl, length_app in Qc. simpl in Qc. split; simpl; auto.
    + rewrite A1, <- Qa, Htl, fmap_app. simpl. solve_Permutation.
    + rewrite A1, A2, Qp, s32_small by lia. lia.
    + rewrite A4, Qc, s32_small by lia. lia.
  - by rewrite A6.
  - by apply (results_frame (d := d)).
  - rewrite Hsub, Htl, fmap_app. simpl. solve_Permutation.
  - exists e. split; [lia|done].
Qed.

(** ** Flushing the queue *)

Lemma run_flush_start accepted n d sub rds res : running k pool0 accepted n (MkWorld d TFull sub rds res) ->
  wp (thread_step TFull) (fun t' d' => halted d' = halted d /\ running k pool0 accepted n (MkWorld d' t' sub rds res) /\
    t' = if decide (Z.of_nat (length accepted) = Z.of_nat n + 2 ^ k) then TTop else TFlush (e_sw d) 0) d.
Proof.
  intros W. pose proof W as [F [Qa Qs Qp Qc Qf Qal] Hcb R Hrd Hsub Hlog T]. simpl in *. unfold thread_step. apply wp_bind, wp_get. cbv beta.
  rewrite (full_spec F). case_bool_decide as Hf.
  - apply wp_ret. rewrite decide_True by done. split; [done|]. split; [|done]. by eapply run_move.
  - apply wp_bind. unfold flush_start. apply wp_bind, wp_get, wp_bind, wp_mod, wp_ret, wp_ret. rewrite decide_False by done. split; [done|]. split; [|done]. split; simpl; auto.
    + exact (fifo_frame _ _ _ _ F).
    + split; simpl; auto.
      * by rewrite app_nil_r.
      * rewrite Qc. lia.
      * split; [lia|]. rewrite <- Qa. rewrite length_app, length_fmap. lia.
      * by rewrite app_nil_r.
    + by rewrite app_nil_r.
Qed.

Lemma run_flush accepted n d l c sub rds res : running k pool0 accepted n (MkWorld d (TFlush l c) sub rds res) ->
  wp (thread_step (TFlush l c)) (fun t' d' => halted d' = halted d /\
    ((l = [] \/ Z.of_nat (length accepted) = Z.of_nat n + 2 ^ k) /\ t' = TTop /\ running k pool0 accepted n (MkWorld d' t' sub rds res) \/
     exists rest x, l = rest ++ [x] /\ t' = TFlush rest (c + 1) /\ running k pool0 (accepted ++ [request_of x]) n (MkWorld d' t' sub rds res))) d.
Proof.
  intros W. pose proof W as [F [Qa Qs Qp Qc Qf Qal] Hcb R Hrd Hsub Hlog T]. simpl in *.
  assert (Hlen : (length (e_pool d) + length l + length (e_sw d) = length pool0)%nat). { rewrite <- Qa. rewrite !length_app, !length_fmap. lia. }
  assert (Hend : (l = [] \/ Z.of_nat (length accepted) = Z.of_nat n + 2 ^ k) ->
    wp (do! flush_end l c in kret TTop) (fun t' d' => halted d' = halted d /\ (l = [] \/ Z.of_nat (length accepted) = Z.of_nat n + 2 ^ k) /\ t' = TTop /\ running k pool0 accepted n (MkWorld d' t' sub rds res)) d).
  { intros Hl. unfold flush_end. apply wp_bind, wp_mod, wp_ret. split; [done|]. split; [done|]. split; [done|]. split; simpl; auto.
    - exact (fifo_frame _ _ _ _ F).
    - split; simpl; auto.
      + by rewrite fmap_app.
      + rewrite Qc, s32_small, length_app by lia. lia.
      + lia. }
  unfold thread_step. apply wp_bind, wp_get. cbv beta. unfold flush_next. pose proof (take_last_spec l) as Htl. destruct (take_last l) as [[rest x]|].
  2:{ apply wp_bind, wp_ret. eapply wp_mono; [exact (Hend (or_introl Htl))|]. intros ? ? [? ?]. auto. }
  rewrite Htl in Qal. apply Forall_app in Qal as [Qal Qsw]. apply Forall_app in Qal as [Qal Qx]. apply Forall_inv in Qx.
  apply wp_bind, wp_bind. eapply wp_mono; [exact (request_moves _ _ _ _ _ _ _ x W Qx)|]. intros r d' [(-> & -> & Hf)|(-> & A & F' & El & Erd)]; cbn [Z.eqb].
  { apply wp_ret. eapply wp_mono; [exact (Hend (or_intror Hf))|]. intros ? ? [? ?]. auto. }
  unfold pool_free. apply wp_bind, wp_mod, wp_ret, wp_ret. split; [apply A|]. right. exists rest, x. split; [done|]. split; [done|].
  destruct A as [A1 A2 A3 A4 A5 A6 A7 A8]. rewrite Htl, length_app in Qc, Qf, Hlen. simpl in Qc, Qf, Hlen. split; simpl; auto.
  - exact (fifo_frame _ _ _ _ F').
  - split; simpl; auto.
    + rewrite A1, A3, <- Qa, Htl, fmap_app. simpl. solve_Permutation.
    + rewrite A1, A2, Qp, s32_small by lia. lia.
    + rewrite A3, A4, Qc. lia.
    + lia.
    + rewrite A3. by apply Forall_app.
  - by rewrite A6.
  - by apply (results_frame (d := d)).
  - rewrite Hsub, A3, Htl, !fmap_app. simpl. solve_Permutation.
Qed.
End Steps.
