(* ===== verification/EhSpec.v ===== *)
(** * What the compression engine promises its clients

    Every reachable world is one in which the reports made are the answers to the
    requests the engine took, in that order; nothing is answered twice or
    invented, no access is out of bounds, and left alone the engine and the
    thread answer everything that was submitted. *)

From S2P Require Import Prelude Eh EhFifo EhRun.

(** ** After a fatal error *)

(** The requests that are aborted: those after the last result, unless the ring
    is full of them. *)
Definition to_abort (k : Z) (accepted : list (Z * Z)) (n : nat) : list (Z * Z) :=
  if decide (Z.of_nat (length accepted) = Z.of_nat n + 2 ^ k) then [] else drop n accepted.

Section Abort.
Context (k : Z) (Hk : 0 <= k <= 15) (accepted : list (Z * Z)).

Lemma aborts fuel : forall j d, e_callback d = true -> e_fifo_index_mask d = 2 ^ k - 1 -> length (e_completions d) = Z.to_nat (2 ^ k) ->
  (j <= length accepted)%nat -> Z.of_nat (length accepted) < Z.of_nat j + 2 ^ k -> (length accepted <= j + fuel)%nat ->
  (forall i page priv, (j <= i)%nat -> accepted !! i = Some (page, priv) -> e_completions d !! slot k i = Some (Some priv)) ->
  wp (abort_loop fuel (Z.of_nat (slot k j)) (Z.of_nat (slot k (length accepted))))
    (fun _ d' => e_log d' = e_log d ++ aborted (drop j accepted) /\ e_compr_buffers d' = e_compr_buffers d) d.
Proof.
  induction fuel as [|fuel IH]; intros j d Hcb Hm Hl Hj Hd Hf Hc; simpl.
  { assert (j = length accepted) as -> by lia. rewrite Z.eqb_refl, drop_ge, app_nil_r by lia. by apply wp_ret. }
  destruct (Z.eqb_spec (Z.of_nat (slot k j)) (Z.of_nat (slot k (length accepted)))) as [E|E].
  { apply Nat2Z.inj, slot_inj in E; [|lia..]. subst. rewrite drop_ge, app_nil_r by lia. by apply wp_ret. }
  destruct (lookup_lt_is_Some_2 accepted j) as [[pg pr] Ea]; [destruct (decide (j = length accepted)); [congruence|lia]|].
  pose proof (Hc j pg pr ltac:(lia) Ea) as Ec. apply wp_bind. eapply wp_at_index; [exact Ec|]. apply wp_bind. unfold comp_callback. apply wp_bind, wp_get. rewrite Hcb. apply wp_mod.
  apply wp_bind. eapply wp_set_completion; [exact Ec|]. apply wp_bind, wp_get. simpl. rewrite Hm.
  assert (Z.land (Z.of_nat (slot k j) + 1) (2 ^ k - 1) = Z.of_nat (slot k (S j))) as ->.
  { rewrite land_low, !slot_Z by lia. rewrite Zplus_mod_idemp_l. f_equal. lia. }
  eapply wp_mono; [apply IH; simpl; rewrite ?length_insert; auto; try lia|].
  - apply lookup_lt_Some in Ea. lia.
  - intros i page priv Hi Ei. assert (slot k j <> slot k i). { intros E'. apply slot_inj in E'; [lia|lia|]. apply lookup_lt_Some in Ei. lia. }
    rewrite list_lookup_insert_ne by done. apply (Hc i page priv); [lia|done].
  - simpl. intros _ d' [-> ->]. split; [|done]. rewrite (drop_S _ _ _ Ea). unfold aborted. simpl. by rewrite <- app_assoc.
Qed.

Lemma wp_abort results n d : fifo_ok k accepted results n d -> n = length results -> e_callback d = true ->
  wp eh_abort_incomplete_descriptors (fun _ d' => e_log d' = e_log d ++ aborted (to_abort k accepted n) /\ e_compr_buffers d' = e_compr_buffers d) d.
Proof.
  intros F -> Hcb. pose proof F as [_ Hs Hm Hcm Hl1 Hl2 Hl3 [Ho1 Ho2] Hw Hc Hhw Hhc Hsl Hnr].
  unfold eh_abort_incomplete_descriptors. apply wp_bind, wp_get. unfold fifo_write_index. rewrite Hw, Hhc, Hm, !color_slot, Hs by lia. cbv zeta.
  assert (Hu : forall i, u16 (Z.of_nat (slot k i)) = Z.of_nat (slot k i)).
  { intros i. unfold u16. apply Z.mod_small. rewrite slot_Z by lia. pose proof (Z.mod_pos_bound (Z.of_nat i) (2 ^ k) (pow_pos k ltac:(lia))). assert (2 ^ k <= 2 ^ 15) by (apply Z.pow_le_mono_r; lia). lia. }
  rewrite !Hu. unfold to_abort. destruct (decide _) as [Hfull|Hfull].
  - pose proof (full_turn k ltac:(lia) (length results) (length accepted) ltac:(lia) Ho2) as [_ Ht]. destruct (Ht Hfull) as [-> _].
    destruct (Z.to_nat (2 ^ k)); simpl; rewrite Z.eqb_refl; apply wp_ret; by rewrite app_nil_r.
  - apply aborts; auto; [lia..|]. intros i page priv Hi Ei. by destruct (Hsl i page priv Hi Ei).
Qed.
End Abort.

Section Thread.
Context (k : Z) (pool0 : list Z).

Lemma run_failed accepted n d sub rds res : running k pool0 accepted n (MkWorld d TFailed sub rds res) ->
  wp (thread_step TFailed) (fun t' d' => n = length res /\ stopped k (take n accepted) (to_abort k accepted n) res (MkWorld d' t' sub rds res)) d.
Proof.
  intros [F Q Hcb R Hrd Hsub Hlog [-> (r & Hr & Hst)]]. simpl in *. pose proof (fo_order _ _ _ _ _ F) as [Ho _]. destruct R as [R1 R2].
  rewrite last_lookup in Hr. destruct (R1 _ _ Hr) as [_ [_ Hh]%(fun f => f Hst)]. destruct (R2 Hh) as [He _].
  unfold thread_step, eh_read_register. apply wp_bind, wp_get. apply wp_bind. unfold wp. destruct (Z.eqb_spec (rd (e_regs d) EH_REG_ERR_COND) 0); [done|].
  apply wp_bind. eapply wp_mono; [exact (wp_abort k (fo_k _ _ _ _ _ F) accepted res _ d F eq_refl Hcb)|]. intros _ d' [El Eb]. apply wp_ret. split; [done|]. split; simpl; auto.
  - rewrite length_take. lia.
  - rewrite Hsub. transitivity accepted; [|by apply submseteq_inserts_r]. rewrite <- (take_drop (length res) accepted) at 3. apply submseteq_skips_l.
    unfold to_abort. destruct (decide _); [apply submseteq_nil_l|done].
  - rewrite El, Eb, Hlog. by rewrite (take_ge res) by lia.
  - rewrite Hrd, take_take, Nat.min_id. by rewrite fmap_take.
  - apply take_ge. lia.
Qed.
Lemma run_thread accepted n d t sub rds res : running k pool0 accepted n (MkWorld d t sub rds res) ->
  wp (thread_step t) (fun t' d' => world_ok k pool0 (MkWorld d' t' sub rds res)) d.
Proof.
  intros W. assert (R : forall t' d' a m, running k pool0 a m (MkWorld d' t' sub rds res) -> world_ok k pool0 (MkWorld d' t' sub rds res)) by (intros; left; eauto).
  pose proof (rn_thread _ _ _ _ _ W) as T. destruct t as [|i e|i e| | |l c|]; simpl in T.
  - destruct (run_top _ _ _ _ _ _ _ _ W) as [E W']. apply (wp_eq _ _ _ _ _ E). by eapply R.
  - destruct T as (e' & He & -> & ->). destruct (decide (n = e')) as [->|].
    + unfold thread_step, process_step. apply wp_bind, wp_get, wp_bind, wp_get. rewrite Z.eqb_refl. apply wp_ret. eapply R. by eapply run_move.
    + eapply wp_mono; [apply (run_process _ _ _ _ _ _ _ _ _ W); lia|]. intros t' d' (_ & W' & _). by eapply R.
  - destruct T as (e' & n' & -> & He & -> & ->). eapply wp_mono; [exact (run_refill _ _ _ _ _ _ _ _ _ W He)|]. intros t' d' (_ & _ & a & W'). by eapply R.
  - eapply wp_mono; [exact (run_failed _ _ _ _ _ _ W)|]. intros t' d' [_ W']. right. eauto.
  - eapply wp_mono; [exact (run_flush_start _ _ _ _ _ _ _ _ W)|]. intros t' d' (_ & W' & _). by eapply R.
  - eapply wp_mono; [exact (run_flush _ _ _ _ _ _ _ _ _ _ W)|]. intros t' d' (_ & [(_ & _ & W')|(rest & x & _ & _ & W')]); by eapply R.
  - done.
Qed.

(** ** Every reachable world *)

Lemma stopped_stays w w' accepted rest results : stopped k accepted rest results w -> w_thread w' = TGone ->
  e_log (w_dev w') = e_log (w_dev w) -> e_compr_buffers (w_dev w') = e_compr_buffers (w_dev w) ->
  w_submitted w ⊆+ w_submitted w' -> w_read w `prefix_of` w_read w' -> w_results w `prefix_of` w_results w' -> stopped k accepted rest results w'.
Proof.
  intros [Ht Hl Hs Hlog Hr Hres] Et El Eb Es [m1 Er] [m2 Eres]. split; [done|done|by etrans|by rewrite El, Eb| |].
  - rewrite Er. rewrite take_app_le; [done|]. apply (f_equal length) in Hr. rewrite length_take, length_fmap in Hr. lia.
  - rewrite Eres. rewrite take_app_le; [done|]. apply (f_equal length) in Hres. rewrite length_take in Hres. lia.
Qed.

Lemma stopped_step accepted rest results w w' : stopped k accepted rest results w -> step w w' -> stopped k accepted rest results w'.
Proof.
  intros S. pose proof (st_thread _ _ _ _ _ S) as Ht. destruct 1 as [d t sub rds res page priv d' _ E|d t sub rds res page priv d' _ E|w w' D|d sub rds res t' d' E]; simpl in Ht; [| | |done].
  - destruct (silent_of (silent_request_hw _ _) E). apply (stopped_stays _ _ _ _ _ S); simpl; auto. by apply submseteq_inserts_r.
  - destruct (silent_of (silent_request_sw _ _) E). apply (stopped_stays _ _ _ _ _ S); simpl; auto. by apply submseteq_inserts_r.
  - destruct D as [d t sub rds res r page d' _ E|d t sub rds res t' d' _ E]; simpl in Ht.
    + destruct (silent_of (silent_hw _) E). apply (stopped_stays _ _ _ _ _ S); simpl; auto; by apply prefix_app_r.
    + subst t. injection E as <- <-. by apply (stopped_stays _ _ _ _ _ S).
Qed.

Lemma step_ok w w' : world_ok k pool0 w -> step w w' -> world_ok k pool0 w'.
Proof.
  intros [(accepted & n & W)|(a & r & rs & S)] St; [|right; do 3 eexists; by eapply stopped_step].
  destruct St as [d t sub rds res page priv d' Hp E|d t sub rds res page priv d' Hp E|w w' D|d sub rds res t' d' E].
  - left. do 2 eexists. by eapply run_submit_hw.
  - left. do 2 eexists. by eapply run_submit_sw.
  - destruct D as [d t sub rds res r page d' Hr E|d t sub rds res t' d' _ E].
    + left. do 2 eexists. by eapply run_hw.
    + exact (wp_done _ _ _ _ _ (run_thread _ _ _ _ _ _ _ W) E).
  - exact (wp_done _ _ _ _ _ (run_thread _ _ _ _ _ _ _ W) E).
Qed.

(** A device with its memory, registers and callback set up, and nothing in flight. *)
Record ready (d : eh_device) : Prop := MkReady {
  re_fifo : fifo_ok k [] [] 0 d;
  re_queue : queue_ok pool0 TTop d;
  re_sw : e_sw d = [];
  re_callback : e_callback d = true;
  re_halted : halted d = false;
  re_log : e_log d = []
}.

Lemma ready_ok d : ready d -> running k pool0 [] 0 (MkWorld d TTop [] [] []).
Proof. intros [F Q Hsw Hc Hh Hl]. split; simpl; auto; [|by rewrite Hsw]. split; [intros i r; by rewrite lookup_nil|congruence]. Qed.

Lemma reachable_ok d w : ready d -> rtc step (MkWorld d TTop [] [] []) w -> world_ok k pool0 w.
Proof.
  intros Hd Hr. assert (W : world_ok k pool0 (MkWorld d TTop [] [] [])) by (left; do 2 eexists; by apply ready_ok).
  revert W. induction Hr as [|w1 w2 w3 Hs _ IH]; [done|]. intros W. apply IH. by eapply step_ok.
Qed.
End Thread.

(** ** Draining *)

Section Drain.
Context (k : Z) (pool0 : list Z).

(** The engine and the thread take the world, in which nothing has halted, to one
    at the place [t'] where at least as much has been accepted and reported. *)
Definition leads (accepted : list (Z * Z)) (n : nat) (w : world) (t' : thread) : Prop :=
  exists w' accepted' n', rtc driver_step w w' /\ running k pool0 accepted' n' w' /\ halted (w_dev w') = false /\ w_thread w' = t' /\
    w_submitted w' = w_submitted w /\ (length accepted <= length accepted')%nat /\ (n <= n')%nat.

Lemma leads_now accepted n w : running k pool0 accepted n w -> halted (w_dev w) = false -> leads accepted n w (w_thread w).
Proof. intros. exists w, accepted, n. repeat (split; [done || apply rtc_refl|]). done. Qed.

Lemma leads_step accepted n w w1 t' accepted1 n1 : driver_step w w1 -> w_submitted w1 = w_submitted w ->
  (length accepted <= length accepted1)%nat -> (n <= n1)%nat -> leads accepted1 n1 w1 t' -> leads accepted n w t'.
Proof.
  intros Hs E Ha Hn (w' & a' & n' & H1 & H2 & H3 & H4 & H5 & H6 & H7). exists w', a', n'. split; [by eapply rtc_l|]. repeat (split; [done || congruence || lia|]). lia.
Qed.

Lemma leads_thread accepted n d t sub rds res t1 d1 t' accepted1 n1 : thread_step t d = Done t1 d1 -> t <> TTop ->
  (length accepted <= length accepted1)%nat -> (n <= n1)%nat -> leads accepted1 n1 (MkWorld d1 t1 sub rds res) t' -> leads accepted n (MkWorld d t sub rds res) t'.
Proof. intros E Ht Ha Hn. apply leads_step; [|done..]. by apply StepThread. Qed.

Lemma flush_leads l : forall accepted n d c sub rds res, running k pool0 accepted n (MkWorld d (TFlush l c) sub rds res) -> halted d = false ->
  leads accepted n (MkWorld d (TFlush l c) sub rds res) TTop.
Proof.
  induction l as [|y l' IH] using rev_ind; intros accepted n d c sub rds res W Hh;
    destruct (wp_run _ _ _ (run_flush _ _ _ _ _ _ _ _ _ _ W)) as (t1 & d1 & E & Hh1 & Hcase); rewrite Hh in Hh1.
  - destruct Hcase as [(_ & -> & W1)|([|] & x & E' & _)]; [|done..]. eapply leads_thread; [exact E|done|reflexivity..|]. exact (leads_now _ _ _ W1 Hh1).
  - destruct Hcase as [(_ & -> & W1)|(rest & x & E' & -> & W1)].
    + eapply leads_thread; [exact E|done|reflexivity..|]. exact (leads_now _ _ _ W1 Hh1).
    + apply app_inj_tail in E' as [-> ->]. eapply leads_thread; [exact E|done| |reflexivity|by apply IH]. rewrite length_app. lia.
Qed.

(** A ring with room takes a waiting request. *)
Lemma full_leads accepted n d sub rds res : running k pool0 accepted n (MkWorld d TFull sub rds res) -> halted d = false ->
  leads accepted n (MkWorld d TFull sub rds res) TTop /\
  (n = length accepted -> e_sw d <> [] -> exists accepted', length accepted' = S (length accepted) /\ leads accepted' n (MkWorld d TFull sub rds res) TTop).
Proof.
  intros W Hh. pose proof (rn_fifo _ _ _ _ _ W) as F. simpl in F. pose proof (pow_pos k ltac:(pose proof (fo_k _ _ _ _ _ F); lia)).
  destruct (wp_run _ _ _ (run_flush_start _ _ _ _ _ _ _ _ W)) as (t1 & d1 & E & Hh1 & W1 & ->). rewrite Hh in Hh1. split.
  - eapply leads_thread; [exact E|done|reflexivity..|]. destruct (decide _); [exact (leads_now _ _ _ W1 Hh1)|by apply flush_leads].
  - intros -> Hsw. rewrite decide_False in E, W1 by lia.
    destruct (wp_run _ _ _ (run_flush _ _ _ _ _ _ _ _ _ _ W1)) as (t2 & d2 & E2 & Hh2 & [([?|?] & _)|(rest & x & El & -> & W2)]); [done|lia|].
    exists (accepted ++ [request_of x]). split; [rewrite length_app; simpl; lia|]. rewrite Hh1 in Hh2.
    assert (L : leads (accepted ++ [request_of x]) (length accepted) (MkWorld d1 (TFlush (e_sw d) 0) sub rds res) TTop)
      by (eapply leads_thread; [exact E2|done|reflexivity..|by apply flush_leads]).
    eapply leads_thread; [exact E|done|reflexivity..|exact L].
Qed.

Lemma no_halt {accepted n w} : running k pool0 accepted n w -> halted (w_dev w) = false -> forall i, hr_status <$> w_results w !! i <> Some EH_CDESC_ERROR_HALTED.
Proof.
  intros W Hh i. destruct (rn_results _ _ _ _ _ W) as [R _]. destruct (w_results w !! i) as [r|] eqn:E; [|done]. intros [= Hr]. destruct (R _ _ E) as [_ [_ ?]%(fun f => f Hr)]. congruence.
Qed.

Lemma process_leads m : forall accepted n d e sub rds res, (e = n + m)%nat -> (e <= length res)%nat -> halted d = false ->
  running k pool0 accepted n (MkWorld d (TProcess (color k n) (color k e)) sub rds res) ->
  leads accepted e (MkWorld d (TProcess (color k n) (color k e)) sub rds res) TTop.
Proof.
  induction m as [|m IH]; intros accepted n d e sub rds res Em He Hh W.
  - assert (n = e) as -> by lia. eapply (leads_thread _ _ _ _ _ _ _ TFull d); [|done|reflexivity..|].
    + unfold thread_step, process_step, kbind, kget. by rewrite Z.eqb_refl.
    + apply full_leads; [|done]. by eapply run_move.
  - destruct (wp_run _ _ _ (run_process _ _ _ _ _ _ _ _ _ W ltac:(lia))) as (t1 & d1 & E & -> & W1 & _ & Hh1). rewrite Hh in Hh1.
    rewrite decide_False in E, W1 by exact (no_halt W Hh n).
    destruct (wp_run _ _ _ (run_refill _ _ _ _ _ _ _ _ _ W1 ltac:(lia))) as (t2 & d2 & E2 & -> & Hh2 & more & W2). rewrite Hh1 in Hh2.
    eapply leads_thread; [exact E|done|reflexivity..|]. eapply leads_thread; [exact E2|done| |reflexivity|apply IH; [lia|done..]]. rewrite length_app. lia.
Qed.

(** From anywhere to the top of the loop. *)
Lemma top_leads accepted n w : running k pool0 accepted n w -> halted (w_dev w) = false -> leads accepted n w TTop.
Proof.
  destruct w as [d t sub rds res]. intros W Hh. simpl in Hh. pose proof (rn_thread _ _ _ _ _ W) as T.
  assert (P : forall accepted n d e, running k pool0 accepted n (MkWorld d (TProcess (color k n) (color k e)) sub rds res) -> halted d = false ->
    (n <= e <= length res)%nat -> leads accepted n (MkWorld d (TProcess (color k n) (color k e)) sub rds res) TTop).
  { intros a m d0 e W0 H0 He. destruct (process_leads (e - m) a m d0 e sub rds res) as (w' & a' & n' & ? & ? & ? & ? & ? & ? & ?); [lia..|done|done|].
    exists w', a', n'. repeat (split; [done|]). lia. }
  destruct t as [|i e|i e| | |l c|]; simpl in T.
  - exact (leads_now _ _ _ W Hh).
  - destruct T as (e' & He & -> & ->). by apply P.
  - destruct T as (e' & n' & -> & He & -> & ->).
    destruct (wp_run _ _ _ (run_refill _ _ _ _ _ _ _ _ _ W He)) as (t2 & d2 & E2 & -> & Hh2 & more & W2). rewrite Hh in Hh2.
    eapply leads_thread; [exact E2|done| |reflexivity|by apply P]. rewrite length_app. lia.
  - destruct T as (_ & r & Hr & Hs). rewrite last_lookup in Hr. destruct (no_halt W Hh (pred (length res))). simpl. by rewrite Hr; simpl; rewrite Hs.
  - by apply full_leads.
  - by apply flush_leads.
  - done.
Qed.

(** The engine has completed something the thread has not seen. *)
Lemma hw_leads accepted n w : running k pool0 accepted n w -> halted (w_dev w) = false -> w_thread w = TTop -> (n < length accepted)%nat ->
  exists w', rtc driver_step w w' /\ running k pool0 accepted n w' /\ halted (w_dev w') = false /\ w_thread w' = TTop /\
    w_submitted w' = w_submitted w /\ (n < length (w_results w'))%nat.
Proof.
  destruct w as [d t sub rds res]. simpl. intros W Hh -> Hlt. pose proof (rn_fifo _ _ _ _ _ W) as F. simpl in F. pose proof (fo_order _ _ _ _ _ F) as [Ho _].
  destruct (decide (n < length res)%nat) as [|Hge].
  - exists (MkWorld d TTop sub rds res). by repeat (split; [done || apply rtc_refl|]).
  - destruct (lookup_lt_is_Some_2 accepted (length res) ltac:(lia)) as [[pg pr] Ea]. set (r := MkResult EH_CDESC_COMPRESSED 0 0).
    destruct (wp_run _ _ _ (wp_hw F pg pr r Ea ltac:(done) Hh)) as (pg' & d' & E & _ & _ & U).
    exists (MkWorld d' TTop sub (rds ++ [pg']) (res ++ [r])). split; [apply rtc_once; by apply StepHw|].
    split; [by eapply run_hw|]. split; [exact (un_halted _ _ U)|]. repeat (split; [done|]). simpl. rewrite length_app. simpl. lia.
Qed.

(** Something unanswered: a turn of the loop makes progress. *)
Lemma turn_leads accepted n w : running k pool0 accepted n w -> halted (w_dev w) = false -> w_thread w = TTop -> comp_idle (w_dev w) = false ->
  exists w' accepted' n', rtc driver_step w w' /\ running k pool0 accepted' n' w' /\ halted (w_dev w') = false /\ w_thread w' = TTop /\
    w_submitted w' = w_submitted w /\ (length accepted + n < length accepted' + n')%nat.
Proof.
  intros W Hh Ht Hidle. pose proof (rn_fifo _ _ _ _ _ W) as F. pose proof (fo_order _ _ _ _ _ F) as [Ho _].
  assert (Hgo : forall w accepted0, running k pool0 accepted n w -> halted (w_dev w) = false -> w_thread w = TTop -> comp_idle (w_dev w) = false ->
    leads accepted0 (length (w_results w)) (MkWorld (w_dev w) (TProcess (color k n) (color k (length (w_results w)))) (w_submitted w) (w_read w) (w_results w)) TTop ->
    leads accepted0 (length (w_results w)) w TTop).
  { intros [d t sub rds res] a0 W0 H0 Et Hi L. simpl in *. subst t. destruct (run_top _ _ _ _ _ _ _ _ W0) as [E _]. eapply leads_step; [apply StepThread; [by intros|exact E]|done|reflexivity..|exact L]. }
  destruct (decide (n < length accepted)%nat) as [Hlt|Hge].
  - destruct (hw_leads _ _ _ W Hh Ht Hlt) as (w1 & R1 & W1 & H1 & T1 & S1 & Hn). pose proof (fo_nr _ _ _ _ _ (rn_fifo _ _ _ _ _ W1)) as Hnr.
    assert (comp_idle (w_dev w1) = false) as I1. { unfold comp_idle. destruct (Z.eqb_spec (e_nr_request (w_dev w1)) 0); [lia|done]. }
    assert (leads accepted (length (w_results w1)) w1 TTop) as (w2 & a2 & n2 & R2 & W2 & H2 & T2 & S2 & Ha & Hn2).
    { apply Hgo; auto. destruct w1 as [d1 t1 sub1 rds1 res1]. simpl in *. subst t1. destruct (run_top _ _ _ _ _ _ _ _ W1) as [_ W1'].
      apply (process_leads (length res1 - n)); [lia..|done|done]. }
    exists w2, a2, n2. split; [by etrans|]. repeat (split; [done || congruence|]). lia.
  - assert (e_sw (w_dev w) <> []) as Hsw.
    { intros E. pose proof (fo_nr _ _ _ _ _ F). pose proof (qo_sw_count _ _ _ (rn_queue _ _ _ _ _ W)) as Hc. rewrite Ht, E in Hc. simpl in Hc. unfold comp_idle, sw_fifo_empty in Hidle. rewrite Hc in Hidle.
      destruct (Z.eqb_spec (e_nr_request (w_dev w)) 0); [done|lia]. }
    assert (length (w_results w) = n) as Hres by lia. destruct w as [d t sub rds res]. simpl in *. subst t.
    destruct (run_top _ _ _ _ _ _ _ _ W) as [_ W1]. rewrite Hres in W1.
    assert (WF : running k pool0 accepted n (MkWorld d TFull sub rds res)) by (by eapply run_move).
    destruct (full_leads _ _ _ _ _ _ WF Hh) as [_ L]. destruct (L ltac:(lia) Hsw) as (a1 & Ha1 & L1).
    assert (leads a1 (length res) (MkWorld d TTop sub rds res) TTop) as (w2 & a2 & n2 & R2 & W2 & H2 & T2 & S2 & Ha & Hn2).
    { apply (Hgo (MkWorld d TTop sub rds res)); auto. simpl. rewrite Hres. eapply (leads_thread _ _ _ _ _ _ _ TFull d); [|done|reflexivity..|exact L1]. unfold thread_step, process_step, kbind, kget. by rewrite Z.eqb_refl. }
    exists w2, a2, n2. repeat (split; [done|]). lia.
Qed.
End Drain.

(** ** The properties *)

Lemma answers_privs k bufs reqs rs : length reqs = length rs -> rp_priv <$> answers k bufs reqs rs = (fun x => Some (snd x)) <$> reqs.
Proof.
  revert rs. induction reqs as [|x reqs IH] using rev_ind; intros rs; [done|]. destruct rs as [|r rs _] using rev_ind; [rewrite length_app; simpl; lia|].
  rewrite !length_app. simpl. intros Hl. rewrite answers_snoc, !fmap_app, IH by lia. simpl. f_equal. unfold report_of.
  by destruct (snd (compress_result _ _)) as [[? ?] ?].
Qed.

(** A world at rest has answered everything. *)
Lemma rest_answered k pool0 accepted n w : running k pool0 accepted n w -> w_thread w = TTop -> comp_idle (w_dev w) = true ->
  rp_priv <$> e_log (w_dev w) ≡ₚ (fun x => Some (snd x)) <$> w_submitted w /\ e_pool (w_dev w) ≡ₚ pool0.
Proof.
  intros [F Q Hcb R Hrd Hsub Hlog T] Ht Hi. unfold comp_idle, sw_fifo_empty in Hi. apply andb_prop in Hi as [Hi1%Z.eqb_eq Hi2%Z.eqb_eq].
  pose proof (fo_nr _ _ _ _ _ F) as Hnr. pose proof (fo_order _ _ _ _ _ F) as [Ho _]. pose proof (qo_sw_count _ _ _ Q) as Hc. rewrite Ht in *. simpl in Hc.
  destruct (e_sw (w_dev w)) as [|x l] eqn:Esw; [|simpl in Hc; lia]. split.
  - rewrite Hlog, answers_privs, Hsub by (rewrite !length_take; lia). simpl. rewrite app_nil_r, take_ge by lia. done.
  - pose proof (qo_addrs _ _ _ Q) as Ha. rewrite Esw in Ha. simpl in Ha. by rewrite app_nil_r in Ha.
Qed.

Lemma drains k pool0 m : forall accepted n w, (2 * length (w_submitted w) - (length accepted + n) <= m)%nat -> running k pool0 accepted n w -> halted (w_dev w) = false -> w_thread w = TTop ->
  exists w' accepted' n', rtc driver_step w w' /\ running k pool0 accepted' n' w' /\ w_thread w' = TTop /\ comp_idle (w_dev w') = true /\ w_submitted w' = w_submitted w.
Proof.
  induction m as [|m IH]; intros accepted n w Hm W Hh Ht; (destruct (comp_idle (w_dev w)) eqn:Hi; [exists w, accepted, n; by repeat (split; [done || apply rtc_refl|])|]);
    destruct (turn_leads _ _ _ _ _ W Hh Ht Hi) as (w1 & a1 & n1 & R1 & W1 & H1 & T1 & S1 & Hlt).
  - pose proof (fo_order _ _ _ _ _ (rn_fifo _ _ _ _ _ W1)) as [Ho _]. pose proof (rn_submitted _ _ _ _ _ W1) as Hs. apply Permutation_length in Hs.
    rewrite length_app, S1 in Hs. lia.
  - destruct (IH a1 n1 w1) as (w2 & a2 & n2 & R2 & W2 & T2 & I2 & S2); [|done..|exists w2, a2, n2; split; [by etrans|]; repeat (split; [done|]); congruence].
    rewrite S1. lia.
Qed.

Lemma alive_running k pool0 d w : ready k pool0 d -> rtc step (MkWorld d TTop [] [] []) w -> w_thread w <> TGone -> exists accepted n, running k pool0 accepted n w.
Proof. intros Hd Hr Ht. destruct (reachable_ok k pool0 d w Hd Hr) as [?|(? & ? & ? & S)]; [done|]. by destruct (Ht (st_thread _ _ _ _ _ S)). Qed.

(** C8. The calls of the client's callback, in any interleaving of the clients, the
    engine and the thread, are the answers to requests that were submitted, each
    at most once: report [i] carries the private pointer of the request whose
    page the engine read [i]-th, the engine's [i]-th result, and the buffer of
    that request's slot. Only a thread that has given up after a fatal error has
    reported requests as aborted, none of which was answered before. *)
Theorem reports_match_requests k pool0 d w : ready k pool0 d -> rtc step (MkWorld d TTop [] [] []) w ->
  exists answered rest, answered ++ rest ⊆+ w_submitted w /\ (length answered <= length (w_results w))%nat /\
    take (length answered) (w_read w) = answered.*1 /\
    e_log (w_dev w) = answers k (e_compr_buffers (w_dev w)) answered (take (length answered) (w_results w)) ++ aborted rest /\
    (w_thread w <> TGone -> rest = []).
Proof.
  intros Hd Hr. destruct (reachable_ok k pool0 d w Hd Hr) as [(accepted & n & [F Q Hcb R Hrd Hsub Hlog T])|(answered & rest & results & S)].
  - pose proof (fo_order _ _ _ _ _ F) as [Ho _]. exists (take n accepted), []. assert (length (take n accepted) = n) as Hn by (rewrite length_take; lia).
    rewrite Hn, app_nil_r. split; [|split; [lia|split; [|split; [|done]]]].
    + rewrite Hsub. transitivity accepted; [apply sublist_submseteq, sublist_take|by apply submseteq_inserts_r].
    + rewrite Hrd, take_take, Nat.min_l, fmap_take by lia. done.
    + by rewrite Hlog, app_nil_r.
  - destruct S as [Ht Hl Hs Hlog Hrd Hres]. exists answered, rest. rewrite Hl, Hres. split; [done|]. split; [|split; [done|split; [done|by intros []]]].
    apply (f_equal length) in Hres. rewrite length_take in Hres. lia.
Qed.

(** C9. As long as the engine has not halted, it and the thread, which sleeps only
    when nothing is pending, can by themselves bring the device to rest from any
    reachable state; then every submitted request has been answered exactly once
    and every request structure is back in the pool. *)
Theorem everything_is_answered k pool0 d w : ready k pool0 d -> rtc step (MkWorld d TTop [] [] []) w -> w_thread w <> TGone -> halted (w_dev w) = false ->
  exists w', rtc driver_step w w' /\ w_thread w' = TTop /\ comp_idle (w_dev w') = true /\ w_submitted w' = w_submitted w /\
    rp_priv <$> e_log (w_dev w') ≡ₚ (fun x => Some (snd x)) <$> w_submitted w /\ e_pool (w_dev w') ≡ₚ pool0.
Proof.
  intros Hd Hr Ht Hh. destruct (alive_running k pool0 d w Hd Hr Ht) as (accepted & n & W).
  destruct (top_leads k pool0 _ _ _ W Hh) as (w1 & a1 & n1 & R1 & W1 & H1 & T1 & S1 & _).
  destruct (drains k pool0 _ _ _ w1 (le_n _) W1 H1 T1) as (w2 & a2 & n2 & R2 & W2 & T2 & I2 & S2).
  destruct (rest_answered _ _ _ _ _ W2 T2 I2) as [Hp Hpool]. exists w2. split; [by etrans|]. rewrite S2, S1 in *. by repeat (split; [done|]).
Qed.

(** C35. In every reachable state with the thread alive, submitting a page queues
    it, in the ring or behind it, or waits because no request structure is free;
    the thread can always take its next step; and neither they nor the engine
    ever index outside the ring, its completions or its buffers. *)
Theorem requests_are_queued k pool0 d w page priv : ready k pool0 d -> rtc step (MkWorld d TTop [] [] []) w -> w_thread w <> TGone -> page mod PAGE_SIZE = 0 ->
  match eh_compress_page page priv (w_dev w) with
  | Done r d' => r = 0 /\ step w (MkWorld d' (w_thread w) (w_submitted w ++ [(page, priv)]) (w_read w) (w_results w))
  | Blocked => e_pool (w_dev w) = []
  | Fault => False
  end /\
  (exists t' d', thread_step (w_thread w) (w_dev w) = Done t' d') /\
  (forall r, 0 <= hr_status r < 8 -> hw_complete r (w_dev w) <> Fault) /\
  0 <= e_nr_request (w_dev w) <= e_fifo_size (w_dev w).
Proof.
  intros Hd Hr Ht Hp. destruct (alive_running k pool0 d w Hd Hr Ht) as (accepted & n & W). destruct w as [d0 t sub rds res]. simpl in *.
  pose proof (rn_fifo _ _ _ _ _ W) as F. simpl in F. pose proof (fo_order _ _ _ _ _ F) as [Ho1 Ho2]. split; [|split; [|split]].
  - assert (Hsw : match (do! request_to_sw_fifo page priv in kret 0) d0 with
      | Done r d' => r = 0 /\ step (MkWorld d0 t sub rds res) (MkWorld d' t (sub ++ [(page, priv)]) rds res) | Blocked => e_pool d0 = [] | Fault => False end).
    { destruct (request_to_sw_fifo page priv d0) as [[] d'| |] eqn:E; unfold kbind; rewrite E.
      - simpl. split; [done|]. by apply StepSwFifo.
      - revert E. unfold request_to_sw_fifo, pool_alloc, kbind, kget. by destruct (e_pool d0).
      - revert E. unfold request_to_sw_fifo, pool_alloc, kbind, kget. by destruct (e_pool d0). }
    unfold eh_compress_page. unfold kbind at 1, kget. destruct (sw_fifo_empty d0); simpl; [|done].
    destruct (wp_run _ _ _ (wp_request F page priv Hp)) as (r & d' & E & [(-> & -> & _)|(-> & _)]); unfold kbind at 1; rewrite E; cbn [Z.eqb]; [done|].
    simpl. split; [done|]. by apply StepHwFifo.
  - destruct (wp_run _ _ _ (run_thread _ _ _ _ _ _ _ _ _ W)) as (t' & d' & E & _). eauto.
  - intros r Hst. destruct (decide (length res < length accepted)%nat) as [Hlt|]; [destruct (halted d0) eqn:Hh|].
    + unfold hw_complete, kbind at 1, kget. cbv zeta. by rewrite Hh, orb_true_r.
    + destruct (lookup_lt_is_Some_2 accepted (length res) Hlt) as [[pg pr] Ea]. destruct (wp_run _ _ _ (wp_hw F pg pr r Ea Hst Hh)) as (? & ? & E & _). by rewrite E.
    + unfold hw_complete, kbind at 1, kget. cbv zeta. rewrite (fo_hw_complete _ _ _ _ _ F), (fo_hw_write _ _ _ _ _ F). assert (length res = length accepted) as -> by lia. by rewrite Z.eqb_refl.
  - rewrite (fo_nr _ _ _ _ _ F), (fo_size _ _ _ _ _ F). lia.
Qed.
