(* ===== verification/EhInit.v ===== *)
(** * Setting the compression engine up and taking it down

    Memory, registers, interrupt, thread and the list of unclaimed devices. The
    allocator, the mapping from virtual to physical addresses, the number of CPUs
    and what the kernel and the engine answer are parameters. *)

From S2P Require Import Prelude Eh.

Definition EH_COMPRESS_DESC_SIZE : Z := 64.
Definition EH_RESET_MAX_TRIAL : nat := 100.
Definition EH_QUIRK_IGNORE_GCTRL_RESET : Z := 1.

(** The structure of the device with its pointers, [0] for [NULL], and what it
    holds of the kernel: the mapping of its registers, the handler of its error
    interrupt, its use of the power domain and its clock. *)
Record eh_host := MkHost {
  h_dev : eh_device;
  h_heap : heap;
  h_self : Z;
  h_completions : Z;
  h_fifo_alloc : Z;
  h_compr_buffers : Z;
  h_bounce_buffer : Z;
  h_bounce : list Z;
  h_decompr_cmd_count : Z;
  h_quirks : Z;
  h_mapped : bool;
  h_error_irq : Z;
  h_comp_thread : bool;
  h_sw_fifo_size : Z;
  h_on_list : bool;
  h_irq : bool;
  h_pm_on : bool;
  h_pm_usage : Z;
  h_clk : bool;
  h_clk_on : bool
}.
#[export] Instance eta_host : Eta eh_host := mk_eta (fun h =>
  MkHost (h_dev h) (h_heap h) (h_self h) (h_completions h) (h_fifo_alloc h) (h_compr_buffers h) (h_bounce_buffer h) (h_bounce h)
    (h_decompr_cmd_count h) (h_quirks h) (h_mapped h) (h_error_irq h) (h_comp_thread h) (h_sw_fifo_size h) (h_on_list h)
    (h_irq h) (h_pm_on h) (h_pm_usage h) (h_clk h) (h_clk_on h)).

Abbreviation HOST A := (M eh_host A).

(** An operation on the device proper. *)
Definition on_dev {A} (m : EH A) : HOST A := fun h =>
  match m (h_dev h) with Done a d => Done a (h <| h_dev := d |>) | Blocked => Blocked | Fault => Fault end.

Definition h_free (p : Z) : HOST unit := fun h =>
  if p =? 0 then Done tt h else match h_heap h !! p with Some _ => Done tt (h <| h_heap := delete p (h_heap h) |>) | None => Fault end.

(** What the kernel and the engine answer: the mapping of the registers, the
    value of the global control register and of the control register of the ring
    at each poll, the results of requesting the interrupt, of starting the thread
    and of publishing the object, and, for the probe, those of powering the device
    up, of finding its interrupt and its clock and of enabling the clock, and the
    properties of its node. *)
Record answer := MkAnswer {
  an_ioremap : bool;
  an_gctrl : nat -> Z;
  an_ctrl : nat -> Z;
  an_irq : Z;
  an_thread : Z;
  an_kobject : Z;
  an_pm_get : Z;
  an_irq_map : Z;
  an_clk : Z;
  an_clk_enable : Z;
  an_ignore_reset : bool;
  an_sw_fifo_size : option Z
}.

(** The engine's part in a reset of the ring: its index registers are zero. *)
Definition hw_fifo_reset : EH unit := kmod (fun d => d <| e_regs := <[EH_REG_CDESC_WRIDX := 0]> (<[EH_REG_CDESC_RDIDX := 0]> (e_regs d)) |>).

(** The loop polls until the reset bit is clear; [fuel] bounds the polls. *)
Fixpoint wait_fifo_reset (ctrl : nat -> Z) (fuel i : nat) : EH unit :=
  match fuel with
  | O => kblock
  | S n => if negb (Z.land (ctrl i) (BIT EH_CDESC_CTRL_FIFO_RESET) =? 0) then wait_fifo_reset ctrl n (S i) else hw_fifo_reset
  end.

Definition eh_compr_fifo_init (ctrl : nat -> Z) (fuel : nat) : EH unit :=
  do! eh_write_register EH_REG_CDESC_CTRL (BIT EH_CDESC_CTRL_FIFO_RESET) in
  do! wait_fifo_reset ctrl fuel 0 in
  do! kmod (fun d => d <| e_write_index := 0 |> <| e_complete_index := 0 |>) in
  let! d := kget in
  do! eh_write_register EH_REG_CDESC_LOC (Z.lor (e_fifo_phys d) (ffs_ (e_fifo_size d))) in
  eh_write_register EH_REG_CDESC_CTRL (BIT EH_CDESC_CTRL_COMPRESS_ENABLE_SHIFT).

(** The polls of [eh_reset], [trials] of them left. *)
Fixpoint reset_polls (gctrl : nat -> Z) (trials i : nat) : Z :=
  match trials with O => 1 | S n => if gctrl i =? 0 then 0 else reset_polls gctrl n (S i) end.

Definition eh_reset (gctrl : nat -> Z) : HOST Z :=
  let! h := kget in
  if negb (Z.land (h_quirks h) EH_QUIRK_IGNORE_GCTRL_RESET =? 0) then kret 0
  else do! on_dev (eh_write_register EH_REG_GCTRL (-1)) in kret (reset_polls gctrl EH_RESET_MAX_TRIAL 0).

(** ** The error interrupt *)

(** The error is acknowledged; the registers that are only printed are left out. *)
Definition eh_error_irq : EH unit :=
  let! error := eh_read_register EH_REG_INTRP_STS_ERROR in
  if negb (error =? 0) then eh_write_register EH_REG_INTRP_STS_ERROR error else kret tt.

(** ** Suspending

    The clock, which is disabled at the end of the one and enabled at the start of
    the other, is not modelled here. *)

Definition eh_suspend : EH Z :=
  let! d := kget in
  if e_nr_request d >? 0 then kret (- EBUSY)
  else
    do! eh_write_register EH_REG_INTRP_MASK_ERROR (2 ^ 64 - 1) in
    do! eh_write_register EH_REG_INTRP_MASK_CMP (2 ^ 64 - 1) in
    do! eh_write_register EH_REG_INTRP_MASK_DCMP (2 ^ 64 - 1) in
    let! data := eh_read_register EH_REG_CDESC_CTRL in
    do! eh_write_register EH_REG_CDESC_CTRL (Z.land data (Z.lnot (BIT EH_CDESC_CTRL_COMPRESS_ENABLE_SHIFT))) in
    kret 0.

Definition eh_resume (ctrl : nat -> Z) (fuel : nat) : EH Z :=
  do! eh_compr_fifo_init ctrl fuel in
  do! eh_write_register EH_REG_INTRP_MASK_ERROR 0 in
  do! eh_write_register EH_REG_INTRP_MASK_CMP 0 in
  do! eh_write_register EH_REG_INTRP_MASK_DCMP 0 in
  kret 0.

Section Memory.
Context (kalloc : heap -> Z -> option Z) (virt_to_phys : Z -> Z) (nr_cpus : nat) (dst_3kb : bool).

Definition h_alloc (size : Z) : HOST Z := fun h =>
  match kalloc (h_heap h) size with Some p => Done p (h <| h_heap := <[p := []]> (h_heap h) |>) | None => Done 0 h end.

(** ** The software queue *)

(** Structures are taken from the tail of the pool. *)
Fixpoint free_pool (fuel : nat) : HOST unit :=
  match fuel with
  | O => kret tt
  | S n =>
      let! h := kget in
      match take_last (e_pool (h_dev h)) with
      | None => kret tt
      | Some (rest, req) => do! on_dev (kmod (fun d => d <| e_pool := rest |>)) in do! h_free req in free_pool n
      end
  end.
Definition destroy_sw_fifo : HOST unit := let! h := kget in free_pool (length (e_pool (h_dev h))).

Fixpoint fill_pool (n : nat) : HOST bool :=
  match n with
  | O => kret true
  | S n' =>
      let! req := h_alloc 32 in
      if req =? 0 then kret false
      else do! on_dev (kmod (fun d => d <| e_pool := req :: e_pool d |>)) in fill_pool n'
  end.

Definition create_sw_fifo (fifo_size : Z) : HOST Z :=
  do! on_dev (kmod (fun d => d <| e_pool := [] |> <| e_sw := [] |>)) in
  let! ok := fill_pool (Z.to_nat fifo_size) in
  if ok then
    do! on_dev (kmod (fun d => d <| e_pool_count := Z.max 0 fifo_size |> <| e_sw_count := 0 |>)) in
    do! kmod (fun h => h <| h_sw_fifo_size := u32 fifo_size |>) in
    kret 0
  else do! destroy_sw_fifo in kret (- ENOMEM).

(** ** The ring *)

(** The constant parts of the descriptor of a buffer. *)
Definition init_descriptor (buffer : Z) (x : eh_compress_desc) : eh_compress_desc :=
  let dst_paddr := virt_to_phys buffer in
  if dst_3kb then
    (set_max_buf 2 x) <| d_dst_addr := EH_PHYS_ADDR_TO_ENCODED dst_paddr (PAGE_SIZE / 2) :: EH_PHYS_ADDR_TO_ENCODED (dst_paddr + PAGE_SIZE / 2) (PAGE_SIZE / 4) :: replicate 4 0 |>
  else (set_max_buf 1 x) <| d_dst_addr := EH_PHYS_ADDR_TO_ENCODED dst_paddr PAGE_SIZE :: 0 :: replicate 4 0 |>.

Definition init_compression_descriptor : EH unit := kmod (fun d => d <| e_fifo := zip_with init_descriptor (e_compr_buffers d) (e_fifo d) |>).

(** The buffers that are there, from the first. *)
Fixpoint free_buffers (bufs : list Z) : HOST unit :=
  match bufs with [] => kret tt | b :: bufs => do! h_free b in free_buffers bufs end.

Definition eh_deinit_compression : HOST unit :=
  let! h := kget in
  do! (if h_compr_buffers h =? 0 then kret tt
       else
         do! free_buffers (e_compr_buffers (h_dev h)) in
         do! h_free (h_compr_buffers h) in
         kmod (fun h => (h <| h_dev := (h_dev h) <| e_compr_buffers := [] |> |>) <| h_compr_buffers := 0 |>)) in
  do! h_free (h_completions h) in
  do! kmod (fun h => h <| h_completions := 0 |>) in
  do! h_free (h_fifo_alloc h) in
  kmod (fun h => h <| h_fifo_alloc := 0 |>).

(** The pages of the buffers, which are stored into the array from slot [i] on. *)
Fixpoint alloc_buffers (n i : nat) : HOST bool :=
  match n with
  | O => kret true
  | S n' =>
      let! buf := h_alloc PAGE_SIZE in
      if buf =? 0 then kret false
      else do! on_dev (kmod (fun d => d <| e_compr_buffers := <[i := buf]> (e_compr_buffers d) |>)) in alloc_buffers n' (S i)
  end.

Definition PTR_ALIGN (p a : Z) : Z := Z.land (p + (a - 1)) (Z.lnot (a - 1)).

Definition eh_init_compression (fifo_size : Z) : HOST Z :=
  let size := Z.to_nat fifo_size in
  do! on_dev (kmod (fun d => d <| e_fifo_size := fifo_size |> <| e_fifo_index_mask := u16 (fifo_size - 1) |>
                 <| e_fifo_color_mask := u16 (Z.shiftl fifo_size 1 - 1) |> <| e_write_index := 0 |> <| e_complete_index := 0 |>)) in
  let! completions := h_alloc (fifo_size * 8) in
  do! kmod (fun h => h <| h_completions := completions |>) in
  if completions =? 0 then kret (- ENOMEM)
  else
    do! on_dev (kmod (fun d => d <| e_completions := replicate size None |>)) in
    let! fifo_alloc := h_alloc (fifo_size * (EH_COMPRESS_DESC_SIZE + 1)) in
    do! kmod (fun h => h <| h_fifo_alloc := fifo_alloc |>) in
    if fifo_alloc =? 0 then do! eh_deinit_compression in kret (- ENOMEM)
    else
      do! on_dev (kmod (fun d => d <| e_fifo_phys := virt_to_phys (PTR_ALIGN fifo_alloc EH_COMPRESS_DESC_SIZE) |> <| e_fifo := replicate size (MkDesc 0 0 0 (replicate 6 0)) |>)) in
      let! compr_buffers := h_alloc (fifo_size * 8) in
      do! kmod (fun h => h <| h_compr_buffers := compr_buffers |>) in
      if compr_buffers =? 0 then do! eh_deinit_compression in kret (- ENOMEM)
      else
        do! on_dev (kmod (fun d => d <| e_compr_buffers := replicate size 0 |>)) in
        let! ok := alloc_buffers size 0 in
        if ok then do! on_dev init_compression_descriptor in kret 0
        else do! eh_deinit_compression in kret (- ENOMEM).

(** ** Decompression *)

Definition eh_deinit_decompression : HOST unit :=
  let! h := kget in
  if h_bounce_buffer h =? 0 then kfault
  else
    do! free_buffers (h_bounce h) in
    do! h_free (h_bounce_buffer h) in
    kmod (fun h => h <| h_bounce_buffer := 0 |> <| h_bounce := [] |>).

Fixpoint alloc_bounce (n cpu : nat) : HOST bool :=
  match n with
  | O => kret true
  | S n' =>
      let! buf := h_alloc PAGE_SIZE in
      if buf =? 0 then kret false
      else do! kmod (fun h => h <| h_bounce := <[cpu := buf]> (h_bounce h) |>) in alloc_bounce n' (S cpu)
  end.

Definition eh_init_decompression : HOST Z :=
  let! p := h_alloc 8 in
  do! kmod (fun h => h <| h_bounce_buffer := p |>) in
  if p =? 0 then kret (- ENOMEM)
  else
    do! kmod (fun h => h <| h_bounce := replicate nr_cpus 0 |>) in
    let! ok := alloc_bounce nr_cpus 0 in
    if ok then kret 0 else do! eh_deinit_decompression in kret (- ENOMEM).

(** ** The hardware *)

Definition iounmap : HOST unit := kmod (fun h => h <| h_mapped := false |>).

Definition eh_hw_deinit : HOST unit :=
  do! eh_deinit_decompression in
  do! eh_deinit_compression in
  iounmap.

Definition eh_hw_init (a : answer) (fuel : nat) (fifo_size quirks : Z) : HOST Z :=
  do! kmod (fun h => h <| h_quirks := quirks |> <| h_mapped := an_ioremap a |>) in
  if negb (an_ioremap a) then kret (- ENOMEM)
  else
    let! feature := on_dev (eh_read_register EH_REG_HWFEATURES2) in
    do! kmod (fun h => h <| h_decompr_cmd_count := EH_FEATURES2_DECOMPR_CMDS feature |>) in
    if EH_FEATURES2_DECOMPR_CMDS feature >? Z.of_nat nr_cpus then do! iounmap in kret (- EINVAL)
    else
      let! r1 := eh_init_compression fifo_size in
      if negb (r1 =? 0) then do! iounmap in kret (- EINVAL)
      else
        let! r2 := eh_init_decompression in
        if negb (r2 =? 0) then do! eh_deinit_compression in do! iounmap in kret (- EINVAL)
        else
          let! r3 := eh_reset (an_gctrl a) in
          if negb (r3 =? 0) then do! eh_deinit_decompression in do! eh_deinit_compression in do! iounmap in kret (- ETIMEDOUT)
          else
            do! on_dev (eh_compr_fifo_init (an_ctrl a) fuel) in
            do! on_dev (eh_write_register EH_REG_INTRP_MASK_ERROR 0) in
            kret 0.

(** ** The software *)

Definition eh_sw_init (a : answer) (error_irq fifo_size : Z) : HOST Z :=
  let! ret := create_sw_fifo (s32 fifo_size) in
  if negb (ret =? 0) then kret ret
  else if negb (an_irq a =? 0) then do! destroy_sw_fifo in kret (an_irq a)
  else
    do! kmod (fun h => h <| h_irq := true |> <| h_error_irq := error_irq |>) in
    do! on_dev (kmod (fun d => d <| e_nr_request := 0 |>)) in
    if negb (an_thread a =? 0) then do! kmod (fun h => h <| h_irq := false |>) in do! destroy_sw_fifo in kret (an_thread a)
    else do! kmod (fun h => h <| h_comp_thread := true |> <| h_on_list := true |>) in kret 0.

Definition eh_sw_deinit : HOST unit :=
  let! h := kget in
  do! (if h_error_irq h =? 0 then kret tt else kmod (fun h => h <| h_irq := false |> <| h_error_irq := 0 |>)) in
  kmod (fun h => h <| h_comp_thread := false |>).

Definition eh_kobj_release : HOST unit :=
  let! h := kget in
  do! eh_sw_deinit in
  do! eh_hw_deinit in
  h_free (h_self h).

(** The index of the highest set bit. *)
Definition __fls (x : Z) : Z := Z.log2 x.

Definition eh_init (a : answer) (fuel : nat) (fifo_size sw_fifo_size error_irq quirks : Z) : HOST Z :=
  if (fifo_size =? 0) || negb (ffs_ fifo_size =? __fls fifo_size) || (fifo_size >? EH_MAX_FIFO_SIZE) then kret (- EINVAL)
  else
    let! ret := eh_hw_init a fuel fifo_size quirks in
    if negb (ret =? 0) then kret ret
    else
      let! ret := eh_sw_init a error_irq sw_fifo_size in
      if negb (ret =? 0) then do! eh_hw_deinit in kret ret
      else
        do! (if an_kobject a =? 0 then kret tt else eh_kobj_release) in
        kret (an_kobject a).

(** ** Probing *)

Definition EH_SW_FIFO_SIZE : Z := 2 ^ 14.
Definition eh_default_fifo_size : Z := 256.

(** The structure as [kzalloc] gives it; the registers are the engine's. *)
Definition zero_device (p : Z) (h : eh_host) : eh_host :=
  MkHost (MkEh 0 0 0 0 0 (e_regs (h_dev h)) [] 0 [] [] 0 false [] 0 [] 0 0 (e_log (h_dev h))) (h_heap h) p 0 0 0 0 [] 0 0 false 0 false 0 false
    (h_irq h) (h_pm_on h) (h_pm_usage h) (h_clk h) (h_clk_on h).

Definition put_pm_runtime : HOST unit := kmod (fun h => h <| h_pm_usage := h_pm_usage h - 1 |>).
Definition disable_pm_runtime : HOST unit := kmod (fun h => h <| h_pm_on := false |>).
Definition put_clk : HOST unit := kmod (fun h => h <| h_clk := false |>).
Definition put_disable_clk : HOST unit := kmod (fun h => h <| h_clk_on := false |>).

(** [pm_runtime_get_sync] counts the use also when it fails. *)
Definition eh_of_probe (a : answer) (fuel : nat) : HOST Z :=
  do! kmod (fun h => h <| h_pm_on := true |>) in
  do! kmod (fun h => h <| h_pm_usage := h_pm_usage h + 1 |>) in
  if negb (an_pm_get a =? 0) then do! disable_pm_runtime in kret (an_pm_get a)
  else if an_irq_map a =? 0 then do! put_pm_runtime in do! disable_pm_runtime in kret (- EINVAL)
  else if negb (an_clk a =? 0) then do! put_pm_runtime in do! disable_pm_runtime in kret (an_clk a)
  else
    do! kmod (fun h => h <| h_clk := true |>) in
    if negb (an_clk_enable a =? 0) then do! put_clk in do! put_pm_runtime in do! disable_pm_runtime in kret (an_clk_enable a)
    else
      do! kmod (fun h => h <| h_clk_on := true |>) in
      let quirks := if an_ignore_reset a then EH_QUIRK_IGNORE_GCTRL_RESET else 0 in
      let! eh_dev := h_alloc 512 in
      if eh_dev =? 0 then do! put_disable_clk in do! put_clk in do! put_pm_runtime in do! disable_pm_runtime in kret (- ENOMEM)
      else
        do! kmod (zero_device eh_dev) in
        let! ret := eh_init a fuel eh_default_fifo_size (u32 (default EH_SW_FIFO_SIZE (an_sw_fifo_size a))) (an_irq_map a) quirks in
        if negb (ret =? 0) then do! h_free eh_dev in do! put_disable_clk in do! put_clk in do! put_pm_runtime in do! disable_pm_runtime in kret ret
        else kret 0.

Definition eh_of_remove : HOST Z :=
  do! put_disable_clk in
  do! put_clk in
  do! put_pm_runtime in
  do! disable_pm_runtime in
  do! eh_kobj_release in
  kret 0.
End Memory.

(** ** The list of unclaimed devices *)

Definition eh_create (callback : bool) : HOST Z :=
  let! h := kget in
  if h_on_list h then do! kmod (fun h => (h <| h_on_list := false |>) <| h_dev := (h_dev h) <| e_callback := callback |> |>) in kret 0
  else kret (- ENODEV).

Definition eh_destroy : HOST unit :=
  kmod (fun h => (h <| h_dev := (h_dev h) <| e_callback := false |> |>) <| h_on_list := true |>).
