(* ===== verification/EhMemory.v ===== *)
(** * The memory of the compression engine

    Which blocks each part holds, and that the parts that fail to initialise, and
    those that are taken down, give back exactly what they held. *)

From S2P Require Import Prelude Eh EhFifo EhRun EhInit.

(** ** Blocks held *)

(** The heap is [heap0] and, besides, the blocks [ps]. *)
Record holds (heap0 : heap) (ps : list Z) (hp : heap) : Prop := MkHolds {
  ho_nodup : NoDup ps;
  ho_blocks : forall p, p ∈ ps -> p <> 0 /\ heap0 !! p = None /\ is_Some (hp !! p);
  ho_rest : forall p, p ∉ ps -> hp !! p = heap0 !! p
}.

#[export] Instance holds_perm heap0 : Proper ((≡ₚ) ==> (=) ==> iff) (holds heap0).
Proof.
  assert (forall ps ps' hp, ps ≡ₚ ps' -> holds heap0 ps hp -> holds heap0 ps' hp) as H.
  { intros ps ps' hp E []. split; [by rewrite <- E|intros p; rewrite <- E; auto..]. }
  intros ps ps' E hp _ <-. split; apply H; [done|by symmetry].
Qed.

Lemma holds_nil heap0 hp : holds heap0 [] hp -> hp = heap0.
Proof. intros [_ _ H]. apply map_eq. intros p. apply H. set_solver. Qed.

Lemma holds_self hp : holds hp [] hp.
Proof. split; [constructor|set_solver|done]. Qed.

Lemma holds_alloc heap0 ps hp p b : holds heap0 ps hp -> p <> 0 -> hp !! p = None -> holds heap0 (p :: ps) (<[p := b]> hp).
Proof.
  intros [H1 H2 H3] Hp Hn. assert (p ∉ ps) as Hin. { intros Hin. destruct (H2 p Hin) as (_ & _ & [? ?]). congruence. }
  split.
  - by constructor.
  - intros q [->|Hq]%elem_of_cons.
    + rewrite lookup_insert_eq, <- H3 by done. eauto.
    + rewrite lookup_insert_ne by set_solver. by apply H2.
  - intros q [Hq1 Hq2]%not_elem_of_cons. rewrite lookup_insert_ne by done. by apply H3.
Qed.

Lemma holds_free heap0 ps hp p : holds heap0 (p :: ps) hp -> p <> 0 /\ is_Some (hp !! p) /\ holds heap0 ps (delete p hp).
Proof.
  intros [[H0 H1]%NoDup_cons H2 H3]. destruct (H2 p ltac:(by left)) as (Hp & Hn & Hs). split; [done|]. split; [done|]. split; [done| |].
  - intros q Hq. rewrite lookup_delete_ne by set_solver. apply H2. by right.
  - intros q Hq. destruct (decide (p = q)) as [->|Hne]; [by rewrite lookup_delete_eq|]. rewrite lookup_delete_ne by done. apply H3. set_solver.
Qed.

(** The blocks of a table of pointers. *)
Definition blocks (l : list Z) : list Z := filter (fun p => p <> 0) l.

Lemma blocks_app l l' : blocks (l ++ l') = blocks l ++ blocks l'.
Proof. apply filter_app. Qed.

Lemma blocks_cons p l : p <> 0 -> blocks (p :: l) = p :: blocks l.
Proof. intros. unfold blocks. by rewrite filter_cons_True. Qed.

Lemma blocks_zeros n : blocks (replicate n 0) = [].
Proof. induction n as [|n IH]; [done|exact IH]. Qed.

(** Filling the next slot of a table. *)
Lemma blocks_fill l n p : p <> 0 -> blocks (<[length l := p]> (l ++ replicate (S n) 0)) = blocks (l ++ [p]) /\
  <[length l := p]> (l ++ replicate (S n) 0) = (l ++ [p]) ++ replicate n 0.
Proof.
  intros Hp. assert (<[length l := p]> (l ++ replicate (S n) 0) = (l ++ [p]) ++ replicate n 0) as E.
  { rewrite insert_app_r_alt, Nat.sub_diag by lia. by rewrite <- app_assoc. }
  split; [|done]. rewrite E, (blocks_app (l ++ [p])), blocks_zeros. apply app_nil_r.
Qed.

Section Memory.
Context (kalloc : heap -> Z -> option Z) `{!Allocator kalloc} (virt_to_phys : Z -> Z) (nr_cpus : nat) (dst_3kb : bool) (heap0 : heap).
Implicit Types (ps : list Z) (h : eh_host) (hp : heap).

(** ** Allocating and freeing *)

Lemma wp_alloc size ps h (Q : Z -> eh_host -> Prop) : holds heap0 ps (h_heap h) -> Q 0 h ->
  (forall p hp, p <> 0 -> holds heap0 (p :: ps) hp -> Q p (h <| h_heap := hp |>)) -> wp (h_alloc kalloc size) Q h.
Proof.
  intros H Q0 Q1. unfold wp, h_alloc. destruct (kalloc (h_heap h) size) as [p|] eqn:E; [|done]. destruct (kzalloc_fresh _ _ _ E).
  apply Q1; [lia|]. apply holds_alloc; [done|lia|done].
Qed.

Lemma wp_free p ps h (Q : unit -> eh_host -> Prop) : holds heap0 (blocks [p] ++ ps) (h_heap h) ->
  (forall hp, holds heap0 ps hp -> Q tt (h <| h_heap := hp |>)) -> wp (h_free p) Q h.
Proof.
  intros H HQ. unfold wp, h_free. destruct (Z.eqb_spec p 0) as [->|Hp].
  - specialize (HQ _ H). by destruct h.
  - rewrite blocks_cons in H by done. destruct (holds_free _ _ _ _ H) as (_ & [b ->] & H'). by apply HQ.
Qed.

Lemma wp_free_buffers bufs : forall ps h (Q : unit -> eh_host -> Prop), holds heap0 (blocks bufs ++ ps) (h_heap h) ->
  (forall hp, holds heap0 ps hp -> Q tt (h <| h_heap := hp |>)) -> wp (free_buffers bufs) Q h.
Proof.
  induction bufs as [|b bufs IH]; intros ps h Q H HQ; simpl.
  - apply wp_ret. specialize (HQ _ H). by destruct h.
  - change (b :: bufs) with ([b] ++ bufs) in H. rewrite blocks_app, <- app_assoc in H. apply wp_bind. eapply wp_free; [exact H|]. intros hp Hp.
    eapply IH; [exact Hp|]. intros hp' Hp'. by apply HQ.
Qed.

Lemma wp_on_mod f h (Q : unit -> eh_host -> Prop) : Q tt (h <| h_dev := f (h_dev h) |>) -> wp (on_dev (kmod f)) Q h.
Proof. done. Qed.

(** ** The ring *)

(** The blocks of the ring. *)
Definition compr_blocks h : list Z :=
  (if h_compr_buffers h =? 0 then [] else blocks (e_compr_buffers (h_dev h)) ++ blocks [h_compr_buffers h]) ++ blocks [h_completions h] ++ blocks [h_fifo_alloc h].

(** What the device holds of the kernel. *)
Definition kernel h := (h_self h, h_irq h, h_pm_on h, h_pm_usage h, h_clk h, h_clk_on h, h_comp_thread h, h_on_list h, h_error_irq h).

(** What the setup of the ring leaves alone. *)
Definition beside_ring h :=
  (kernel h,
   (h_quirks h, h_mapped h, h_bounce_buffer h, h_bounce h),
   (e_regs (h_dev h), e_pool (h_dev h), e_sw (h_dev h), e_log (h_dev h))).

Lemma beside_parts h h' : beside_ring h' = beside_ring h ->
  kernel h' = kernel h /\ e_log (h_dev h') = e_log (h_dev h) /\ h_mapped h' = h_mapped h /\ h_bounce_buffer h' = h_bounce_buffer h /\ h_bounce h' = h_bounce h /\ e_pool (h_dev h') = e_pool (h_dev h).
Proof.
  intros E. split; [exact (f_equal (fun x => fst (fst x)) E)|]. by unfold beside_ring in E; injection E.
Qed.

Lemma wp_deinit_compression ps h (Q : unit -> eh_host -> Prop) : holds heap0 (compr_blocks h ++ ps) (h_heap h) ->
  (forall h', holds heap0 ps (h_heap h') -> beside_ring h' = beside_ring h -> Q tt h') -> wp eh_deinit_compression Q h.
Proof.
  intros H HQ. unfold eh_deinit_compression. apply wp_bind, wp_get. cbv beta.
  assert (Hrest : forall h1, h_completions h1 = h_completions h -> h_fifo_alloc h1 = h_fifo_alloc h -> beside_ring h1 = beside_ring h ->
    holds heap0 ((blocks [h_completions h] ++ blocks [h_fifo_alloc h]) ++ ps) (h_heap h1) ->
    wp (do! h_free (h_completions h) in do! kmod (fun h => h <| h_completions := 0 |>) in do! h_free (h_fifo_alloc h) in kmod (fun h => h <| h_fifo_alloc := 0 |>)) Q h1).
  { intros h1 E1 E2 Er H1. rewrite <- app_assoc in H1. apply wp_bind. eapply wp_free; [exact H1|]. intros hp Hp. apply wp_bind, wp_mod, wp_bind.
    eapply wp_free; [exact Hp|]. intros hp' Hp'. apply wp_mod. apply HQ; [done|exact Er]. }
  apply wp_bind. unfold compr_blocks in H. destruct (h_compr_buffers h =? 0); [by apply wp_ret, Hrest|].
  rewrite <- !app_assoc in H. apply wp_bind. eapply wp_free_buffers; [exact H|]. intros hp Hp. apply wp_bind. eapply wp_free; [exact Hp|]. intros hp' Hp'. apply wp_mod.
  apply Hrest; [done..|]. by rewrite <- app_assoc.
Qed.

(** The buffers allocated so far, and the slots left. *)
Lemma wp_alloc_buffers n : forall l ps h (Q : bool -> eh_host -> Prop), e_compr_buffers (h_dev h) = l ++ replicate n 0 ->
  holds heap0 (blocks l ++ ps) (h_heap h) -> Forall (fun p => p <> 0) l ->
  (forall hp l' bufs ok, bufs = l ++ l' ++ replicate (n - length l') 0 -> (length l' <= n)%nat -> (ok = true -> length l' = n) -> Forall (fun p => p <> 0) (l ++ l') -> holds heap0 (blocks (l ++ l') ++ ps) hp ->
    Q ok (h <| h_dev := (h_dev h) <| e_compr_buffers := bufs |> |> <| h_heap := hp |>)) ->
  wp (alloc_buffers kalloc n (length l)) Q h.
Proof.
  induction n as [|n IH]; intros l ps h Q Hb H Hf HQ; simpl.
  - apply wp_ret. simpl in Hb. rewrite app_nil_r in Hb. specialize (HQ (h_heap h) [] (e_compr_buffers (h_dev h)) true). simpl in HQ. rewrite app_nil_r in HQ. destruct h as [[] ?]. by apply HQ.
  - apply wp_bind. eapply wp_alloc; [exact H| |].
    + cbn [Z.eqb]. apply wp_ret. specialize (HQ (h_heap h) [] (e_compr_buffers (h_dev h)) false). simpl in HQ. rewrite app_nil_r in HQ. destruct h as [[] ?]. apply HQ; [done|lia|done..].
    + intros p hp Hp Hh. destruct (Z.eqb_spec p 0); [done|]. apply wp_bind, wp_on_mod.
      assert (<[length l := p]> (e_compr_buffers (h_dev h)) = (l ++ [p]) ++ replicate n 0) as E by (rewrite Hb; by apply blocks_fill). simpl. rewrite E.
      replace (S (length l)) with (length (l ++ [p])) by (rewrite length_app; simpl; lia). eapply IH; [done| | |].
      * simpl. rewrite blocks_app, blocks_cons by done. rewrite <- app_assoc. simpl. rewrite <- Permutation_middle. exact Hh.
      * apply Forall_app. split; [done|]. by apply Forall_singleton.
      * intros hp' l' bufs ok Eb Hl' Hok Hf' H'. apply (HQ hp' (p :: l') bufs ok).
        -- rewrite Eb, <- app_assoc. done.
        -- simpl. lia.
        -- intros Eok. simpl. by rewrite Hok.
        -- by rewrite <- app_assoc in Hf'.
        -- by rewrite <- app_assoc in H'.
Qed.

(** A ring that was set up: all its parts are there, and empty. *)
Record ring_built (k : Z) h : Prop := MkBuilt {
  rb_size : e_fifo_size (h_dev h) = 2 ^ k;
  rb_index_mask : e_fifo_index_mask (h_dev h) = 2 ^ k - 1;
  rb_color_mask : e_fifo_color_mask (h_dev h) = 2 ^ (k + 1) - 1;
  rb_write : e_write_index (h_dev h) = 0;
  rb_complete : e_complete_index (h_dev h) = 0;
  rb_completions : length (e_completions (h_dev h)) = Z.to_nat (2 ^ k);
  rb_buffers : length (e_compr_buffers (h_dev h)) = Z.to_nat (2 ^ k);
  rb_all : Forall (fun p => p <> 0) (e_compr_buffers (h_dev h));
  rb_fifo : e_fifo (h_dev h) = zip_with (init_descriptor virt_to_phys dst_3kb) (e_compr_buffers (h_dev h)) (replicate (Z.to_nat (2 ^ k)) (MkDesc 0 0 0 (replicate 6 0)));
  rb_phys : e_fifo_phys (h_dev h) = virt_to_phys (PTR_ALIGN (h_fifo_alloc h) EH_COMPRESS_DESC_SIZE);
  rb_pointers : h_completions h <> 0 /\ h_fifo_alloc h <> 0 /\ h_compr_buffers h <> 0
}.

Lemma masks k : 0 <= k <= 15 -> u16 (2 ^ k - 1) = 2 ^ k - 1 /\ u16 (Z.shiftl (2 ^ k) 1 - 1) = 2 ^ (k + 1) - 1.
Proof.
  intros Hk. pose proof (pow_pos k ltac:(lia)). assert (2 ^ k <= 2 ^ 15) by (apply Z.pow_le_mono_r; lia). rewrite Z.shiftl_mul_pow2, pow_succ by lia.
  unfold u16. split; rewrite Z.mod_small; lia.
Qed.

Lemma compr_blocks_built h : h_completions h <> 0 -> h_fifo_alloc h <> 0 -> h_compr_buffers h <> 0 ->
  compr_blocks h ≡ₚ h_completions h :: h_fifo_alloc h :: h_compr_buffers h :: blocks (e_compr_buffers (h_dev h)).
Proof.
  intros H1 H2 H3. unfold compr_blocks. destruct (Z.eqb_spec (h_compr_buffers h) 0); [done|]. rewrite !blocks_cons by done. solve_Permutation.
Qed.

Lemma wp_init_compression k ps h (Q : Z -> eh_host -> Prop) : 0 <= k <= 15 -> holds heap0 ps (h_heap h) ->
  h_completions h = 0 -> h_fifo_alloc h = 0 -> h_compr_buffers h = 0 ->
  (forall h', holds heap0 ps (h_heap h') -> beside_ring h' = beside_ring h -> Q (- ENOMEM) h') ->
  (forall h', holds heap0 (compr_blocks h' ++ ps) (h_heap h') -> beside_ring h' = beside_ring h -> ring_built k h' -> Q 0 h') ->
  wp (eh_init_compression kalloc virt_to_phys dst_3kb (2 ^ k)) Q h.
Proof.
  intros Hk H E1 E2 E3 Hno Hyes. destruct (masks k Hk) as [Hm1 Hm2].
  assert (Hclean : forall h1, beside_ring h1 = beside_ring h -> holds heap0 (compr_blocks h1 ++ ps) (h_heap h1) ->
    wp (do! eh_deinit_compression in kret (- ENOMEM)) Q h1).
  { intros h1 Er H1. apply wp_bind. eapply wp_deinit_compression; [exact H1|]. intros h' H' Er'. apply wp_ret, Hno; [done|congruence]. }
  unfold eh_init_compression. cbv zeta. apply wp_bind, wp_on_mod, wp_bind. eapply wp_alloc; [exact H|apply wp_bind, wp_mod; by apply wp_ret, Hno|].
  intros p1 hp1 Hp1 H1. apply wp_bind, wp_mod. destruct (Z.eqb_spec p1 0); [done|]. apply wp_bind, wp_on_mod, wp_bind.
  eapply wp_alloc; [exact H1| |].
  { apply wp_bind, wp_mod. cbn [Z.eqb]. apply Hclean; [done|]. unfold compr_blocks. simpl. rewrite E3. rewrite (blocks_cons p1) by done. exact H1. }
  intros p2 hp2 Hp2 H2. apply wp_bind, wp_mod. destruct (Z.eqb_spec p2 0); [done|]. apply wp_bind, wp_on_mod, wp_bind.
  eapply wp_alloc; [exact H2| |].
  { apply wp_bind, wp_mod. cbn [Z.eqb]. apply Hclean; [done|]. unfold compr_blocks. simpl. rewrite !blocks_cons by done. simpl. rewrite Permutation_swap. exact H2. }
  intros p3 hp3 Hp3 H3. apply wp_bind, wp_mod. destruct (Z.eqb_spec p3 0); [done|]. apply wp_bind, wp_on_mod, wp_bind.
  eapply (wp_alloc_buffers _ []); [done|exact H3|constructor|]. simpl app. intros hp4 l bufs ok -> Hl Hok Hf H4.
  assert (H5 : forall h', h_completions h' = p1 -> h_fifo_alloc h' = p2 -> h_compr_buffers h' = p3 -> e_compr_buffers (h_dev h') = l ++ replicate (Z.to_nat (2 ^ k) - length l) 0 ->
    h_heap h' = hp4 -> holds heap0 (compr_blocks h' ++ ps) (h_heap h')).
  { intros h' F1 F2 F3 F4 ->. rewrite compr_blocks_built by congruence. rewrite F1, F2, F3, F4, blocks_app, blocks_zeros, app_nil_r.
    eapply holds_perm; [|reflexivity|exact H4]. solve_Permutation. }
  destruct ok; [|apply Hclean; [done|by apply H5]]. rewrite Hok, Nat.sub_diag, app_nil_r in * by done. apply wp_bind. unfold init_compression_descriptor. apply wp_on_mod, wp_ret.
  apply Hyes; [by apply H5|done|]. split; simpl; auto. by rewrite length_replicate.
Qed.

(** ** The bounce buffers *)

Definition bounce_blocks h : list Z := blocks (h_bounce h) ++ blocks [h_bounce_buffer h].

Lemma wp_deinit_decompression ps h (Q : unit -> eh_host -> Prop) : h_bounce_buffer h <> 0 -> holds heap0 (bounce_blocks h ++ ps) (h_heap h) ->
  (forall hp, holds heap0 ps hp -> Q tt (h <| h_heap := hp |> <| h_bounce_buffer := 0 |> <| h_bounce := [] |>)) -> wp eh_deinit_decompression Q h.
Proof.
  intros Hb H HQ. unfold eh_deinit_decompression. apply wp_bind, wp_get. cbv beta. destruct (Z.eqb_spec (h_bounce_buffer h) 0); [done|].
  unfold bounce_blocks in H. rewrite <- app_assoc in H. apply wp_bind. eapply wp_free_buffers; [exact H|]. intros hp Hp. apply wp_bind. eapply wp_free; [exact Hp|].
  intros hp' Hp'. apply wp_mod. by apply HQ.
Qed.

Lemma wp_alloc_bounce n : forall l ps h (Q : bool -> eh_host -> Prop), h_bounce h = l ++ replicate n 0 ->
  holds heap0 (blocks l ++ ps) (h_heap h) -> Forall (fun p => p <> 0) l ->
  (forall hp l' bufs ok, bufs = l ++ l' ++ replicate (n - length l') 0 -> (length l' <= n)%nat -> (ok = true -> length l' = n) -> Forall (fun p => p <> 0) (l ++ l') -> holds heap0 (blocks (l ++ l') ++ ps) hp ->
    Q ok (h <| h_bounce := bufs |> <| h_heap := hp |>)) ->
  wp (alloc_bounce kalloc n (length l)) Q h.
Proof.
  induction n as [|n IH]; intros l ps h Q Hb H Hf HQ; simpl.
  - apply wp_ret. simpl in Hb. rewrite app_nil_r in Hb. specialize (HQ (h_heap h) [] (h_bounce h) true). simpl in HQ. rewrite app_nil_r in HQ. destruct h. by apply HQ.
  - apply wp_bind. eapply wp_alloc; [exact H| |].
    + cbn [Z.eqb]. apply wp_ret. specialize (HQ (h_heap h) [] (h_bounce h) false). simpl in HQ. rewrite app_nil_r in HQ. destruct h. apply HQ; [done|lia|done..].
    + intros p hp Hp Hh. destruct (Z.eqb_spec p 0); [done|]. apply wp_bind, wp_mod.
      assert (<[length l := p]> (h_bounce h) = (l ++ [p]) ++ replicate n 0) as E by (rewrite Hb; by apply blocks_fill). simpl. rewrite E.
      replace (S (length l)) with (length (l ++ [p])) by (rewrite length_app; simpl; lia). eapply IH; [done| | |].
      * simpl. rewrite blocks_app, blocks_cons by done. rewrite <- app_assoc. simpl. rewrite <- Permutation_middle. exact Hh.
      * apply Forall_app. split; [done|]. by apply Forall_singleton.
      * intros hp' l' bufs ok Eb Hl' Hok Hf' H'. rewrite <- app_assoc in Hf', H', Eb. apply (HQ hp' (p :: l') bufs ok); [done|simpl; lia|intros Eok; simpl; by rewrite Hok|done..].
Qed.

(** One page for each CPU. *)
Definition bounce_built h : Prop := h_bounce_buffer h <> 0 /\ length (h_bounce h) = nr_cpus /\ Forall (fun p => p <> 0) (h_bounce h).

Lemma wp_init_decompression ps h (Q : Z -> eh_host -> Prop) : holds heap0 ps (h_heap h) ->
  (forall hp b l, holds heap0 ps hp -> Q (- ENOMEM) (h <| h_heap := hp |> <| h_bounce_buffer := b |> <| h_bounce := l |>)) ->
  (forall hp b l, let h' := h <| h_heap := hp |> <| h_bounce_buffer := b |> <| h_bounce := l |> in holds heap0 (bounce_blocks h' ++ ps) hp -> bounce_built h' -> Q 0 h') ->
  wp (eh_init_decompression kalloc nr_cpus) Q h.
Proof.
  intros H Hno Hyes. unfold eh_init_decompression. apply wp_bind. eapply wp_alloc; [exact H|apply wp_bind, wp_mod; cbn [Z.eqb]; apply wp_ret|].
  { specialize (Hno (h_heap h) 0 (h_bounce h) H). by destruct h. }
  intros p hp Hp Hh. apply wp_bind, wp_mod. destruct (Z.eqb_spec p 0); [done|]. apply wp_bind, wp_mod, wp_bind.
  eapply (wp_alloc_bounce _ []); [done|exact Hh|constructor|]. simpl app. intros hp' l bufs ok -> Hl Hok Hf H'.
  assert (Hb : holds heap0 ((blocks (l ++ replicate (nr_cpus - length l) 0) ++ blocks [p]) ++ ps) hp').
  { rewrite blocks_app, blocks_zeros, app_nil_r, (blocks_cons p) by done. eapply holds_perm; [|reflexivity|exact H']. solve_Permutation. }
  destruct ok.
  - rewrite Hok, Nat.sub_diag, app_nil_r in * by done. apply wp_ret. apply (Hyes hp' p l); [exact Hb|]. split; [done|]. split; [by apply Hok|done].
  - apply wp_bind. eapply wp_deinit_decompression; [done|exact Hb|]. intros hp2 H2. apply wp_ret. exact (Hno hp2 0 [] H2).
Qed.

(** ** The pool *)

Lemma wp_free_pool n : forall l ps h (Q : unit -> eh_host -> Prop), e_pool (h_dev h) = l -> length l = n -> Forall (fun p => p <> 0) l -> holds heap0 (l ++ ps) (h_heap h) ->
  (forall hp, holds heap0 ps hp -> Q tt (h <| h_dev := (h_dev h) <| e_pool := [] |> |> <| h_heap := hp |>)) -> wp (free_pool n) Q h.
Proof.
  induction n as [|n IH]; intros l ps h Q El Hl Hf H HQ; simpl.
  - destruct l; [|done]. apply wp_ret. specialize (HQ _ H). rewrite <- El in HQ. by destruct h as [[] ?].
  - apply wp_bind, wp_get. rewrite El. pose proof (take_last_spec l) as Htl. destruct (take_last l) as [[rest x]|]; [|by rewrite Htl in Hl].
    rewrite Htl in Hl, Hf, H. rewrite length_app in Hl. simpl in Hl. apply Forall_app in Hf as [Hf Hx]. apply Forall_inv in Hx. apply wp_bind, wp_on_mod, wp_bind.
    eapply (wp_free x (rest ++ ps)).
    { rewrite blocks_cons by done. simpl. eapply holds_perm; [|reflexivity|exact H]. solve_Permutation. }
    intros hp Hp. eapply (IH rest); [done|lia|done|exact Hp|]. intros hp' Hp'. by apply HQ.
Qed.

Lemma wp_fill_pool n : forall ps h (Q : bool -> eh_host -> Prop), Forall (fun p => p <> 0) (e_pool (h_dev h)) -> holds heap0 (e_pool (h_dev h) ++ ps) (h_heap h) ->
  (forall hp l ok, Forall (fun p => p <> 0) l -> (ok = true -> length l = n + length (e_pool (h_dev h)))%nat -> holds heap0 (l ++ ps) hp ->
    Q ok (h <| h_dev := (h_dev h) <| e_pool := l |> |> <| h_heap := hp |>)) -> wp (fill_pool kalloc n) Q h.
Proof.
  induction n as [|n IH]; intros ps h Q Hf H HQ; simpl.
  - apply wp_ret. specialize (HQ _ _ true Hf ltac:(done) H). by destruct h as [[] ?].
  - apply wp_bind. eapply wp_alloc; [exact H| |].
    + apply wp_ret. specialize (HQ _ _ false Hf ltac:(done) H). by destruct h as [[] ?].
    + intros p hp Hp Hh. destruct (Z.eqb_spec p 0); [done|]. apply wp_bind, wp_on_mod. eapply IH; [by constructor|exact Hh|].
      simpl. intros hp' l ok Hfl Hok H'. apply (HQ hp' l ok Hfl); [|done]. intros Eok. rewrite Hok by done. lia.
Qed.

(** What the setup of the queue leaves alone. *)
Definition beside_queue h :=
  (kernel h,
   (h_quirks h, h_mapped h, h_bounce_buffer h, h_bounce h, h_completions h, h_fifo_alloc h, h_compr_buffers h),
   (h_dev h) <| e_pool := [] |> <| e_sw := [] |> <| e_pool_count := 0 |> <| e_sw_count := 0 |> <| e_nr_request := 0 |>).

Definition queue_built (size : Z) h : Prop := Forall (fun p => p <> 0) (e_pool (h_dev h)) /\ length (e_pool (h_dev h)) = Z.to_nat size /\ e_pool_count (h_dev h) = size /\
  e_sw (h_dev h) = [] /\ e_sw_count (h_dev h) = 0.

Lemma wp_create_sw_fifo size ps h (Q : Z -> eh_host -> Prop) : 0 <= size -> holds heap0 ps (h_heap h) ->
  (forall h', holds heap0 ps (h_heap h') -> beside_queue h' = beside_queue h -> Q (- ENOMEM) h') ->
  (forall h', holds heap0 (e_pool (h_dev h') ++ ps) (h_heap h') -> beside_queue h' = beside_queue h -> queue_built size h' -> Q 0 h') ->
  wp (create_sw_fifo kalloc size) Q h.
Proof.
  intros Hs H Hno Hyes. unfold create_sw_fifo. apply wp_bind, wp_on_mod, wp_bind. eapply wp_fill_pool; [by constructor|exact H|].
  simpl. intros hp l ok Hf Hok Hl. destruct ok.
  - apply wp_bind, wp_on_mod, wp_bind, wp_mod, wp_ret. apply Hyes; [done|done|]. split; [done|]. split; [simpl; rewrite Hok by done; lia|]. simpl. split; [lia|done].
  - apply wp_bind. unfold destroy_sw_fifo. apply wp_bind, wp_get. eapply (wp_free_pool _ l); [done..|exact Hl|]. intros hp' Hp'. apply wp_ret. by apply Hno.
Qed.
End Memory.
