(* ===== verification/EhProbe.v ===== *)
(** * Probing the compression engine

    A probe that is refused leaves nothing behind, one that succeeds leaves a
    device ready for the runs of [EhSpec.v], and a device that is suspended and
    resumed starts again with an empty ring and the queue it had. *)

From S2P Require Import Prelude Eh EhFifo EhRun EhSpec EhInit EhMemory.

(** ** Resetting the ring *)

(** The engine ends its reset within the polls. *)
Definition ends_reset (ctrl : nat -> Z) (fuel : nat) : Prop := exists i, (i < fuel)%nat /\ Z.land (ctrl i) (BIT EH_CDESC_CTRL_FIFO_RESET) = 0.

Lemma wp_wait_reset ctrl fuel : forall i d (Q : unit -> eh_device -> Prop), (exists j, (i <= j < i + fuel)%nat /\ Z.land (ctrl j) (BIT EH_CDESC_CTRL_FIFO_RESET) = 0) ->
  wp hw_fifo_reset Q d -> wp (wait_fifo_reset ctrl fuel i) Q d.
Proof.
  induction fuel as [|fuel IH]; intros i d Q (j & Hj & Hc) HQ; [lia|]. simpl. destruct (Z.eqb_spec (Z.land (ctrl i) (BIT EH_CDESC_CTRL_FIFO_RESET)) 0) as [|Hne]; simpl; [done|].
  apply IH; [|done]. exists j. split; [|done]. assert (j <> i) by (intros ->; done). lia.
Qed.

Lemma wp_fifo_init ctrl fuel d (Q : unit -> eh_device -> Prop) : ends_reset ctrl fuel ->
  (forall regs, rd regs EH_REG_CDESC_CTRL = BIT EH_CDESC_CTRL_COMPRESS_ENABLE_SHIFT -> rd regs EH_REG_CDESC_WRIDX = 0 -> rd regs EH_REG_ERR_COND = rd (e_regs d) EH_REG_ERR_COND ->
    rd regs EH_REG_CDESC_LOC = u64 (Z.lor (e_fifo_phys d) (ffs_ (e_fifo_size d))) -> Q tt (d <| e_regs := regs |> <| e_write_index := 0 |> <| e_complete_index := 0 |>)) ->
  wp (eh_compr_fifo_init ctrl fuel) Q d.
Proof.
  intros (i & Hi & Hc) HQ. unfold eh_compr_fifo_init, eh_write_register. apply wp_bind, wp_mod, wp_bind. apply wp_wait_reset; [exists i; split; [lia|done]|].
  unfold hw_fifo_reset. apply wp_mod, wp_bind, wp_mod, wp_bind, wp_get, wp_bind, wp_mod, wp_mod.
  simpl. match goal with |- Q _ (MkEh _ _ _ _ _ ?r _ _ _ _ _ _ _ _ _ _ _ _) => apply (HQ r) end;
    [by rewrite rd_insert_eq|by rewrite !rd_insert_ne, rd_insert_eq by done|by rewrite !rd_insert_ne by done|by rewrite rd_insert_ne, rd_insert_eq by done].
Qed.

(** The ring after a reset: new and empty. *)
Lemma empty_fifo_ok k d : 0 <= k <= 15 -> e_fifo_size d = 2 ^ k -> e_fifo_index_mask d = 2 ^ k - 1 -> e_fifo_color_mask d = 2 ^ (k + 1) - 1 ->
  length (e_fifo d) = Z.to_nat (2 ^ k) -> length (e_completions d) = Z.to_nat (2 ^ k) -> length (e_compr_buffers d) = Z.to_nat (2 ^ k) -> e_nr_request d = 0 ->
  e_write_index d = 0 -> e_complete_index d = 0 ->
  rd (e_regs d) EH_REG_CDESC_CTRL = BIT EH_CDESC_CTRL_COMPRESS_ENABLE_SHIFT -> rd (e_regs d) EH_REG_CDESC_WRIDX = 0 -> fifo_ok k [] [] 0 d /\ halted d = false.
Proof.
  intros Hk H1 H2 H3 H4 H5 H6 H7 H8 H9 Hc Hw. pose proof (pow_pos k ltac:(lia)). split; [|unfold halted; by rewrite Hc]. split; simpl; auto.
  - lia.
  - unfold fifo_next_complete_index. by rewrite Hc.
  - intros i page priv _. by rewrite lookup_nil.
Qed.

(** ** Suspending and resuming *)

(** A device with requests in the ring refuses to suspend and is unchanged;
    otherwise, after [eh_suspend] and [eh_resume] with nothing in between, the
    ring is empty again at index zero with the engine enabled, and the queue, the
    pool and the reports are as they were. *)
Theorem suspend_then_resume k pool0 accepted n w ctrl fuel : running k pool0 accepted n w -> ends_reset ctrl fuel ->
  let d := w_dev w in
  (0 < e_nr_request d -> eh_suspend d = Done (- EBUSY) d) /\
  (e_nr_request d = 0 -> wp (do! eh_suspend in eh_resume ctrl fuel) (fun r d' => r = 0 /\ fifo_ok k [] [] 0 d' /\ halted d' = false /\
     e_sw d' = e_sw d /\ e_pool d' = e_pool d /\ e_log d' = e_log d /\ e_completions d' = e_completions d /\ rd (e_regs d') EH_REG_INTRP_MASK_ERROR = 0) d).
Proof.
  intros [F _ _ _ _ _ _ _] Hr d. fold d in F. split.
  - intros Hn. unfold eh_suspend, kbind, kget. destruct (e_nr_request d >? 0) eqn:E; [done|lia].
  - intros Hn. unfold eh_suspend, eh_resume, eh_write_register, eh_read_register. apply wp_bind, wp_bind, wp_get. destruct (e_nr_request d >? 0) eqn:E; [lia|].
    do 3 (apply wp_bind, wp_mod). apply wp_bind. unfold wp at 1. apply wp_bind, wp_mod, wp_ret. apply wp_bind. apply wp_fifo_init; [done|].
    intros regs Hc Hw _ _. do 3 (apply wp_bind, wp_mod). apply wp_ret. simpl.
    set (regs' := <[EH_REG_INTRP_MASK_DCMP := _]> _). assert (rd regs' EH_REG_CDESC_CTRL = BIT EH_CDESC_CTRL_COMPRESS_ENABLE_SHIFT /\ rd regs' EH_REG_CDESC_WRIDX = 0) as [Hc' Hw'].
    { unfold regs'. by rewrite !rd_insert_ne by done. }
    destruct F as [Hk H1 H2 H3 H4 H5 H6 _ _ _ _ _ _ _]. destruct (empty_fifo_ok k (d <| e_regs := regs' |> <| e_write_index := 0 |> <| e_complete_index := 0 |>)) as [F' Hh']; [done..|].
    split; [done|]. split; [exact F'|]. split; [exact Hh'|]. repeat (split; [done|]). unfold regs'. by rewrite !rd_insert_ne, rd_insert_eq by done.
Qed.

Section Probe.
Context (kalloc : heap -> Z -> option Z) `{!Allocator kalloc} (virt_to_phys : Z -> Z) (nr_cpus : nat) (dst_3kb : bool) (heap0 : heap).
Implicit Types (ps : list Z) (h : eh_host) (hp : heap).

(** ** The hardware *)

Abbreviation ring k h := (ring_built virt_to_phys dst_3kb k h).
Abbreviation bounce h := (bounce_built nr_cpus h).

(** The engine's registers after a reset of the ring. *)
Definition regs_reset h : Prop :=
  rd (e_regs (h_dev h)) EH_REG_CDESC_CTRL = BIT EH_CDESC_CTRL_COMPRESS_ENABLE_SHIFT /\ rd (e_regs (h_dev h)) EH_REG_CDESC_WRIDX = 0.

Lemma ring_frame k h dev hp b l : ring k h -> (forall d, h_dev h = d -> e_fifo_size dev = e_fifo_size d /\ e_fifo_index_mask dev = e_fifo_index_mask d /\ e_fifo_color_mask dev = e_fifo_color_mask d /\
    e_write_index dev = 0 /\ e_complete_index dev = 0 /\ e_completions dev = e_completions d /\ e_compr_buffers dev = e_compr_buffers d /\ e_fifo dev = e_fifo d /\ e_fifo_phys dev = e_fifo_phys d) ->
  ring k (h <| h_dev := dev |> <| h_heap := hp |> <| h_bounce_buffer := b |> <| h_bounce := l |>).
Proof.
  intros [] Hd. destruct (Hd _ eq_refl) as (E1 & E2 & E3 & E4 & E5 & E6 & E7 & E8 & E9). split; simpl; rewrite ?E1, ?E2, ?E3, ?E4, ?E5, ?E6, ?E7, ?E8, ?E9; auto.
Qed.

Lemma wp_on_dev {A} (m : EH A) h (Q : A -> eh_host -> Prop) : wp m (fun a d => Q a (h <| h_dev := d |>)) (h_dev h) -> wp (on_dev m) Q h.
Proof. unfold wp, on_dev. by destruct (m (h_dev h)). Qed.

Lemma wp_reset gctrl h (Q : Z -> eh_host -> Prop) :
  (forall r regs, Q r (h <| h_dev := (h_dev h) <| e_regs := regs |> |>)) -> wp (eh_reset gctrl) Q h.
Proof.
  intros HQ. unfold eh_reset. apply wp_bind, wp_get. cbv beta. destruct (negb _).
  - apply wp_ret. specialize (HQ 0 (e_regs (h_dev h))). by destruct h as [[] ?].
  - apply wp_bind, wp_on_mod, wp_ret. apply HQ.
Qed.

Lemma wp_hw_init a fuel k quirks ps h (Q : Z -> eh_host -> Prop) : 0 <= k <= 15 -> ends_reset (an_ctrl a) fuel -> holds heap0 ps (h_heap h) ->
  h_completions h = 0 -> h_fifo_alloc h = 0 -> h_compr_buffers h = 0 ->
  (forall r h', r <> 0 -> holds heap0 ps (h_heap h') -> h_mapped h' = false -> kernel h' = kernel h -> e_log (h_dev h') = e_log (h_dev h) -> Q r h') ->
  (forall h', holds heap0 (bounce_blocks h' ++ compr_blocks h' ++ ps) (h_heap h') -> h_mapped h' = true -> kernel h' = kernel h -> e_log (h_dev h') = e_log (h_dev h) ->
    ring k h' -> bounce h' -> regs_reset h' -> Q 0 h') ->
  wp (eh_hw_init kalloc virt_to_phys nr_cpus dst_3kb a fuel (2 ^ k) quirks) Q h.
Proof.
  intros Hk Hr H E1 E2 E3 Hno Hyes. unfold eh_hw_init. apply wp_bind, wp_mod. destruct (an_ioremap a) eqn:Eio; cbn [negb]; [|apply wp_ret; by apply Hno].
  apply wp_bind, wp_on_dev. unfold wp at 1, eh_read_register. apply wp_bind, wp_mod. set (cmds := EH_FEATURES2_DECOMPR_CMDS _).
  assert (Hgone : forall r h', r <> 0 -> holds heap0 ps (h_heap h') -> kernel h' = kernel h -> e_log (h_dev h') = e_log (h_dev h) -> wp (do! iounmap in kret r) Q h').
  { intros r h' Hr' H' Ek El. unfold iounmap. apply wp_bind, wp_mod, wp_ret. by apply Hno. }
  destruct (cmds >? Z.of_nat nr_cpus); [by apply Hgone|]. apply wp_bind. eapply wp_init_compression; [done|done|exact H|done..| |].
  { intros h1 H1 Eb. cbn [Z.eqb negb]. destruct (beside_parts _ _ Eb) as (Ek & El & _). by apply Hgone. }
  intros h1 H1 Eb R1. cbn [Z.eqb negb]. destruct (beside_parts _ _ Eb) as (Ek & El & Em & _).
  assert (Hde : forall r h', r <> 0 -> holds heap0 (compr_blocks h' ++ ps) (h_heap h') -> kernel h' = kernel h -> e_log (h_dev h') = e_log (h_dev h) ->
    wp (do! eh_deinit_compression in do! iounmap in kret r) Q h').
  { intros r h' Hr' H' Ek' El'. apply wp_bind. eapply wp_deinit_compression; [exact H'|]. intros h2 H2 Eb2. destruct (beside_parts _ _ Eb2) as (Ek2 & El2 & _). apply Hgone; [done|done|congruence..]. }
  apply wp_bind. eapply wp_init_decompression; [exact _|exact H1| |].
  { intros hp b l Hp. cbn [Z.eqb negb]. by apply Hde. }
  intros hp b l h2 H2 B2. cbn [Z.eqb negb]. apply wp_bind, wp_reset. intros r3 regs. destruct (Z.eqb_spec r3 0) as [->|]; cbn [negb].
  - apply wp_bind, wp_on_dev, wp_fifo_init; [done|]. intros regs' Hc Hw _ _. apply wp_bind, wp_on_dev. unfold eh_write_register. apply wp_mod, wp_ret.
    apply Hyes; [exact H2|exact Em|exact Ek|exact El| |exact B2|].
    + refine (ring_frame k h1 _ hp b l R1 _). intros d <-. destruct R1. by repeat split.
    + split; simpl; by rewrite rd_insert_ne.
  - apply wp_bind. eapply wp_deinit_decompression; [apply B2|exact H2|]. intros hp' Hp'. by apply Hde.
Qed.

(** ** The software *)

(** The rest of the device while the queue is set up. *)
Definition beside_sw h := (h_self h, h_pm_on h, h_pm_usage h, h_clk h, h_clk_on h, (h_mapped h, h_bounce_buffer h, h_bounce h, h_completions h, h_fifo_alloc h, h_compr_buffers h),
  (h_dev h) <| e_pool := [] |> <| e_sw := [] |> <| e_pool_count := 0 |> <| e_sw_count := 0 |> <| e_nr_request := 0 |>).

Lemma beside_queue_sw h h' : beside_queue h' = beside_queue h -> beside_sw h' = beside_sw h /\ kernel h' = kernel h.
Proof.
  intros E. split; [|exact (f_equal (fun x => fst (fst x)) E)].
  exact (f_equal (fun '(s, _, pm, pu, c, co, _, _, _, (_, m, bb, b, cs, fa, cb), dev) => (s, pm, pu, c, co, (m, bb, b, cs, fa, cb), dev)) E).
Qed.

Lemma wp_sw_init a irq size ps h (Q : Z -> eh_host -> Prop) : 0 <= size < 2 ^ 31 -> holds heap0 ps (h_heap h) -> h_irq h = false -> h_comp_thread h = false -> h_on_list h = false ->
  (forall r h', r <> 0 -> holds heap0 ps (h_heap h') -> beside_sw h' = beside_sw h -> h_irq h' = false -> h_comp_thread h' = false -> h_on_list h' = false -> Q r h') ->
  (forall h', holds heap0 (e_pool (h_dev h') ++ ps) (h_heap h') -> beside_sw h' = beside_sw h -> queue_built size h' -> e_nr_request (h_dev h') = 0 -> h_on_list h' = true -> h_comp_thread h' = true -> Q 0 h') ->
  wp (eh_sw_init kalloc a irq size) Q h.
Proof.
  intros Hs H Ei Et El Hno Hyes. unfold eh_sw_init. rewrite s32_small by lia. apply wp_bind. eapply wp_create_sw_fifo; [done|lia|exact H| |].
  { intros h1 H1 Eb. cbn [Z.eqb negb]. destruct (beside_queue_sw _ _ Eb) as [Es Ek]. unfold kernel in Ek. injection Ek; intros. apply wp_ret, Hno; [done..|congruence|congruence|congruence]. }
  intros h1 H1 Eb (Hf & Hl & Hc & Hq). cbn [Z.eqb negb]. destruct (beside_queue_sw _ _ Eb) as [Es Ek]. unfold kernel in Ek. injection Ek; intros.
  assert (Hdestroy : forall r h2, r <> 0 -> e_pool (h_dev h2) = e_pool (h_dev h1) -> h_heap h2 = h_heap h1 -> beside_sw h2 = beside_sw h1 -> h_irq h2 = false -> h_comp_thread h2 = false -> h_on_list h2 = false ->
    wp (do! destroy_sw_fifo in kret r) Q h2).
  { intros r h2 Hr E1 E2 E3 F1 F2 F3. apply wp_bind. unfold destroy_sw_fifo. apply wp_bind, wp_get. eapply (wp_free_pool _ _ (e_pool (h_dev h1))); [done|by rewrite E1|done|by rewrite E2|].
    intros hp Hp. apply wp_ret. apply Hno; [done|done| |done..]. etrans; [|exact Es]. rewrite <- E3. done. }
  destruct (Z.eqb_spec (an_irq a) 0); cbn [negb]; [|apply Hdestroy; congruence]. apply wp_bind, wp_mod, wp_bind, wp_on_mod.
  destruct (Z.eqb_spec (an_thread a) 0); cbn [negb].
  - apply wp_bind, wp_mod, wp_ret. apply Hyes; [done|exact Es|by split|done..].
  - apply wp_bind, wp_mod, Hdestroy; simpl; congruence || done.
Qed.

(** The lowest bit of a word. *)
Lemma lowest_bit_spec fuel : forall x i j, i <= j < i + Z.of_nat fuel -> Z.testbit x j = true -> (forall b, i <= b < j -> Z.testbit x b = false) -> lowest_bit fuel x i = j.
Proof.
  induction fuel as [|fuel IH]; intros x i j Hj Ht Hb; [lia|]. simpl. destruct (Z.testbit x i) eqn:E.
  - destruct (decide (i = j)); [done|]. rewrite Hb in E by lia. done.
  - apply IH; [|done|intros b Hb'; apply Hb; lia]. assert (i <> j) by congruence. lia.
Qed.

Lemma ffs_pow2 k : 0 <= k < 64 -> ffs_ (2 ^ k) = k.
Proof. intros Hk. apply lowest_bit_spec; [lia|by rewrite Z.pow2_bits_true by lia|intros b Hb; apply Z.pow2_bits_false; lia]. Qed.

(** What the setup of the queue keeps of the hardware's. *)
Lemma beside_sw_parts h h' : beside_sw h' = beside_sw h ->
  (h_self h', h_pm_on h', h_pm_usage h', h_clk h', h_clk_on h') = (h_self h, h_pm_on h, h_pm_usage h, h_clk h, h_clk_on h) /\
  h_mapped h' = h_mapped h /\ h_bounce_buffer h' = h_bounce_buffer h /\ bounce_blocks h' = bounce_blocks h /\ compr_blocks h' = compr_blocks h /\
  e_log (h_dev h') = e_log (h_dev h) /\ (regs_reset h -> regs_reset h') /\ (forall k, ring k h -> ring k h').
Proof.
  intros E. pose proof (f_equal snd E) as Ed. set (strip d := d <| e_pool := [] |> <| e_sw := [] |> <| e_pool_count := 0 |> <| e_sw_count := 0 |> <| e_nr_request := 0 |>).
  assert (Hs : strip (h_dev h') = strip (h_dev h)) by exact Ed. pose proof (f_equal e_compr_buffers Hs) as E1. pose proof (f_equal e_log Hs) as E2. pose proof (f_equal e_regs Hs) as E3. simpl in E1, E2, E3.
  pose proof (f_equal (fun x => snd (fst x)) E) as Ep. simpl in Ep. injection Ep as F1 F2 F3 F4 F5 F6.
  split; [exact (f_equal (fun x => fst (fst x)) E)|]. split; [done|]. split; [done|]. split; [unfold bounce_blocks; congruence|]. split; [unfold compr_blocks; by rewrite F4, F5, F6, E1|].
  split; [done|]. split; [unfold regs_reset; by rewrite E3|]. intros k [R1 R2 R3 R4 R5 R6 R7 R8 R9 R10 R11].
  pose proof (f_equal e_fifo_size Hs) as G1. pose proof (f_equal e_fifo_index_mask Hs) as G2. pose proof (f_equal e_fifo_color_mask Hs) as G3. pose proof (f_equal e_write_index Hs) as G4.
  pose proof (f_equal e_complete_index Hs) as G5. pose proof (f_equal e_completions Hs) as G6. pose proof (f_equal e_fifo Hs) as G7. pose proof (f_equal e_fifo_phys Hs) as G8. simpl in *.
  split; rewrite ?G1, ?G2, ?G3, ?G4, ?G5, ?G6, ?G7, ?G8, ?E1, ?F4, ?F5, ?F6; done.
Qed.

(** What a device that came up is. *)
Record up (k size : Z) (h0 h : eh_host) : Prop := MkUp {
  up_ring : ring k h;
  up_bounce : h_bounce_buffer h <> 0;
  up_regs : regs_reset h;
  up_queue : queue_built size h;
  up_nr : e_nr_request (h_dev h) = 0;
  up_log : e_log (h_dev h) = e_log (h_dev h0);
  up_list : h_on_list h = true;
  up_kernel : (h_self h, h_pm_on h, h_pm_usage h, h_clk h, h_clk_on h) = (h_self h0, h_pm_on h0, h_pm_usage h0, h_clk h0, h_clk_on h0)
}.

Lemma wp_init a fuel k size irq quirks ps h (Q : Z -> eh_host -> Prop) : 0 <= k <= 15 -> 0 <= size < 2 ^ 31 -> ends_reset (an_ctrl a) fuel -> an_kobject a = 0 -> holds heap0 ps (h_heap h) ->
  h_completions h = 0 -> h_fifo_alloc h = 0 -> h_compr_buffers h = 0 -> h_irq h = false -> h_comp_thread h = false -> h_on_list h = false ->
  (forall r h', r <> 0 -> holds heap0 ps (h_heap h') -> h_mapped h' = false -> h_irq h' = false -> h_comp_thread h' = false -> h_on_list h' = false ->
    (h_self h', h_pm_on h', h_pm_usage h', h_clk h', h_clk_on h') = (h_self h, h_pm_on h, h_pm_usage h, h_clk h, h_clk_on h) -> Q r h') ->
  (forall h', holds heap0 (e_pool (h_dev h') ++ bounce_blocks h' ++ compr_blocks h' ++ ps) (h_heap h') -> up k size h h' -> Q 0 h') ->
  wp (eh_init kalloc virt_to_phys nr_cpus dst_3kb a fuel (2 ^ k) size irq quirks) Q h.
Proof.
  intros Hk Hs Hr Hko H E1 E2 E3 Ei Et El Hno Hyes. unfold eh_init, __fls. rewrite ffs_pow2, Z.log2_pow2, Z.eqb_refl by lia.
  pose proof (pow_pos k ltac:(lia)) as Hpos. assert (2 ^ k <= 2 ^ 15) as Hmax by (apply Z.pow_le_mono_r; lia). destruct (Z.eqb_spec (2 ^ k) 0); [lia|]. unfold EH_MAX_FIFO_SIZE.
  destruct (2 ^ k >? 32768) eqn:Eg; [lia|]. cbn [orb negb]. apply wp_bind. eapply wp_hw_init; [done..|exact H|done|done|done| |].
  { intros r h1 Hr1 H1 Em Ek Elog. destruct (Z.eqb_spec r 0); [done|]. cbn [negb]. unfold kernel in Ek. injection Ek; intros. apply wp_ret, Hno; congruence. }
  intros h1 H1 Em Ek Elog R1 B1 Hreg. cbn [Z.eqb negb]. unfold kernel in Ek. injection Ek as K1 K2 K3 K4 K5 K6 K7 K8 K9. apply wp_bind. eapply wp_sw_init; [done|exact H1|congruence|congruence|congruence| |].
  - intros r h2 Hr2 H2 Eb F1 F2 F3. destruct (Z.eqb_spec r 0); [done|]. cbn [negb]. destruct (beside_sw_parts _ _ Eb) as (Ek2 & _ & Ebb & Ebl & Ecl & _).
    apply wp_bind. unfold eh_hw_deinit. apply wp_bind. eapply wp_deinit_decompression; [rewrite Ebb; apply B1|by rewrite Ebl|]. intros hp Hp. apply wp_bind.
    rewrite <- Ecl in Hp. eapply wp_deinit_compression; [exact Hp|]. intros h3 H3 Eb3. destruct (beside_parts _ _ Eb3) as (Ek3 & _). unfold kernel in Ek3. injection Ek3; intros. injection Ek2; intros.
    unfold iounmap. apply wp_mod, wp_ret. apply Hno; simpl; [done|done|done|congruence..].
  - intros h2 H2 Eb Hq Hnr Hol Hth. cbn [Z.eqb negb]. rewrite Hko. cbn [Z.eqb]. apply wp_bind, wp_ret, wp_ret. destruct (beside_sw_parts _ _ Eb) as (Ek2 & _ & Ebb & Ebl & Ecl & Elog2 & Hreg2 & R2).
    injection Ek2; intros. apply Hyes; [by rewrite Ebl, Ecl|]. split; auto; [rewrite Ebb; apply B1|congruence..].
Qed.
End Probe.

(** ** Probing *)

(** Nothing of the kernel's is held. *)
Record unheld (h : eh_host) : Prop := MkUnheld {
  uh_irq : h_irq h = false;
  uh_mapped : h_mapped h = false;
  uh_thread : h_comp_thread h = false;
  uh_list : h_on_list h = false;
  uh_pm : h_pm_on h = false;
  uh_clk : h_clk h = false;
  uh_clk_on : h_clk_on h = false
}.

(** A device that came up and is claimed is ready. *)
Lemma up_ready virt_to_phys dst_3kb k size h0 h : 0 <= k <= 15 -> 0 <= size < 2 ^ 30 -> up virt_to_phys dst_3kb k size h0 h -> e_log (h_dev h0) = [] ->
  wp (eh_create true) (fun r h' => r = 0 /\ h_on_list h' = false /\ ready k (e_pool (h_dev h)) (h_dev h') /\ h_heap h' = h_heap h) h.
Proof.
  intros Hk Hs [[R1 R2 R3 R4 R5 R6 R7 R8 R9 R10 R11] Hb [Hc Hw] (Q1 & Q2 & Q3 & Q4 & Q5) Hnr Hlog Hlist _] Hl0.
  unfold eh_create. apply wp_bind, wp_get. rewrite Hlist. apply wp_bind, wp_mod, wp_ret. split; [done|]. split; [done|]. split; [|done].
  destruct (empty_fifo_ok k ((h_dev h) <| e_callback := true |>)) as [F Hh]; simpl; auto.
  { rewrite R9, length_zip_with, length_replicate. lia. }
  split; simpl; auto; [|congruence]. split; simpl; rewrite ?Q4, ?Q5; simpl; auto; [by rewrite app_nil_r|lia|lia|lia].
Qed.

(** Whatever the allocator, the interrupt, the clock and the engine answer, a
    probe completes; one that fails has given back every block it allocated and
    all it held of the kernel, and after one that succeeds the claimed device has
    an empty ring of 256 descriptors and a full pool, ready for the runs above.
    (The power domain answers zero and the object is published: see the findings
    for the other cases.) *)
Theorem probe_is_all_or_nothing kalloc virt_to_phys nr_cpus dst_3kb a fuel h : Allocator kalloc -> unheld h -> e_log (h_dev h) = [] ->
  an_pm_get a = 0 -> an_kobject a = 0 -> ends_reset (an_ctrl a) fuel -> 0 <= default EH_SW_FIFO_SIZE (an_sw_fifo_size a) < 2 ^ 30 ->
  wp (eh_of_probe kalloc virt_to_phys nr_cpus dst_3kb a fuel) (fun r h' =>
    if r =? 0 then
      h_clk_on h' = true /\ h_pm_usage h' = h_pm_usage h + 1 /\
      wp (eh_create true) (fun r h2 => r = 0 /\ h_on_list h2 = false /\ ready 8 (e_pool (h_dev h')) (h_dev h2) /\ h_heap h2 = h_heap h') h' /\
      length (e_pool (h_dev h')) = Z.to_nat (default EH_SW_FIFO_SIZE (an_sw_fifo_size a))
    else unheld h' /\ h_heap h' = h_heap h /\ h_pm_usage h' = h_pm_usage h) h.
Proof.
  intros Ha [U1 U2 U3 U4 U5 U6 U7] Hlog Hpm Hko Hr Hs. set (size := default EH_SW_FIFO_SIZE (an_sw_fifo_size a)) in *. pose proof (holds_self (h_heap h)) as H.
  unfold eh_of_probe. apply wp_bind, wp_mod, wp_bind, wp_mod. rewrite Hpm. cbn [Z.eqb negb].
  unfold put_disable_clk, put_clk, put_pm_runtime, disable_pm_runtime.
  destruct (Z.eqb_spec (an_irq_map a) 0); [do 2 apply wp_bind, wp_mod; apply wp_ret; simpl; split; [by split|split; [done|lia]]|].
  destruct (Z.eqb_spec (an_clk a) 0) as [|Hclk]; cbn [negb]; [|do 2 apply wp_bind, wp_mod; apply wp_ret; destruct (Z.eqb_spec (an_clk a) 0); [done|]; simpl; split; [by split|split; [done|lia]]].
  apply wp_bind, wp_mod. destruct (Z.eqb_spec (an_clk_enable a) 0) as [|Hen]; cbn [negb];
    [|do 3 apply wp_bind, wp_mod; apply wp_ret; destruct (Z.eqb_spec (an_clk_enable a) 0); [done|]; simpl; split; [by split|split; [done|lia]]].
  apply wp_bind, wp_mod. cbv zeta. apply wp_bind. eapply wp_alloc; [done|exact H| |].
  { cbn [Z.eqb]. do 4 apply wp_bind, wp_mod. apply wp_ret. simpl. split; [by split|split; [done|lia]]. }
  intros p hp Hp Hh. destruct (Z.eqb_spec p 0); [done|]. apply wp_bind, wp_mod, wp_bind. rewrite u32_small by lia. change eh_default_fifo_size with (2 ^ 8).
  eapply (wp_init kalloc virt_to_phys nr_cpus dst_3kb (h_heap h) _ _ 8); [lia| |done|done|exact Hh|done..| |]; [lia| |].
  - intros r h' Hr' H' Em Ei Et El Ek. destruct (Z.eqb_spec r 0); [done|]. cbn [negb]. simpl in Ek. injection Ek as K1 K2 K3 K4 K5. apply wp_bind.
    eapply wp_free; [rewrite blocks_cons by done; exact H'|]. intros hp' Hp'. do 4 apply wp_bind, wp_mod. apply wp_ret. destruct (Z.eqb_spec r 0); [done|]. simpl.
    split; [by split|]. split; [by apply holds_nil|]. rewrite K3. lia.
  - intros h' H' Hup. cbn [Z.eqb negb]. apply wp_ret. simpl. pose proof Hup as [R B G Q N L O K]. injection K as K1 K2 K3 K4 K5. simpl in *.
    split; [done|]. split; [done|]. split; [|apply Q]. eapply (up_ready _ _ _ size); [lia|lia|exact Hup|exact Hlog].
Qed.
