(* ===== verification/EhDecompress.v ===== *)
(** * Buffers of the compression engine, and decompression

    How a buffer's size is encoded in its address, what the descriptors of the
    ring say about the buffers, and the synchronous decompression of a page: the
    command it programs and the wait for its status. *)

From S2P Require Import Prelude Eh EhFifo EhInit EhMemory EhProbe.

(** ** Encoded addresses *)

Lemma aligned_bits addr s b : 0 <= s -> addr mod 2 ^ s = 0 -> b < s -> Z.testbit addr b = false.
Proof.
  intros Hs Ha Hb. destruct (decide (b < 0)); [by apply Z.testbit_neg_r|]. rewrite <- (Z.mod_pow2_bits_low addr s b) by lia. by rewrite Ha, Z.bits_0.
Qed.

Lemma encoded addr s : 1 <= s < 64 -> addr mod 2 ^ s = 0 -> EH_PHYS_ADDR_TO_ENCODED addr (2 ^ s) = addr + 2 ^ (s - 1).
Proof.
  intros Hs Ha. unfold EH_PHYS_ADDR_TO_ENCODED. rewrite ffs_pow2 by lia. replace (s + 1 - 2) with (s - 1) by lia. rewrite Z.shiftl_1_l.
  apply (lor_low _ _ s); [lia|done|]. split; [apply Z.pow_nonneg; lia|apply Z.pow_lt_mono_r; lia].
Qed.

(** The word before an encoded address. *)
Lemma encoded_pred addr s : 1 <= s < 64 -> addr mod 2 ^ s = 0 -> addr + 2 ^ (s - 1) - 1 = Z.lor addr (Z.ones (s - 1)) /\ addr + 2 ^ (s - 1) = Z.lor addr (2 ^ (s - 1)).
Proof.
  intros Hs Ha. pose proof (Z.pow_pos_nonneg 2 (s - 1) ltac:(lia) ltac:(lia)). assert (2 ^ (s - 1) < 2 ^ s) by (apply Z.pow_lt_mono_r; lia).
  rewrite Z.ones_equiv. split; symmetry; rewrite (lor_low _ _ s) by (done || lia); lia.
Qed.

(** A buffer that is aligned to its size, a power of two, is recovered from
    its encoded address, and so is its size. *)
Lemma encoded_address_roundtrip addr s : 1 <= s < 64 -> addr mod 2 ^ s = 0 ->
  EH_ENCODED_ADDR_TO_PHYS (EH_PHYS_ADDR_TO_ENCODED addr (2 ^ s)) = addr /\ EH_ENCODED_ADDR_TO_SIZE (EH_PHYS_ADDR_TO_ENCODED addr (2 ^ s)) = 2 ^ s.
Proof.
  intros Hs Ha. rewrite encoded by done. destruct (encoded_pred addr s Hs Ha) as [E1 E2]. unfold EH_ENCODED_ADDR_TO_PHYS, EH_ENCODED_ADDR_TO_SIZE. rewrite E1, E2. clear E1 E2.
  assert (Hlow : forall b, b < s -> Z.testbit addr b = false) by (intros; apply (aligned_bits addr s); [lia|done..]).
  assert (Z.land (Z.lor addr (2 ^ (s - 1))) (Z.lnot (Z.lor addr (Z.ones (s - 1)))) = 2 ^ (s - 1)) as ->.
  { apply Z.bits_inj'. intros b Hb. rewrite Z.land_spec, Z.lnot_spec, !Z.lor_spec, Z.pow2_bits_eqb, Z.testbit_ones_nonneg by lia. destruct (Z.ltb_spec b s) as [Hlt|Hge]; [rewrite Hlow by lia; simpl|].
    - destruct (Z.eqb_spec (s - 1) b); destruct (Z.ltb_spec b (s - 1)); done || lia.
    - destruct (Z.eqb_spec (s - 1) b); [lia|]. destruct (Z.testbit addr b); [|done]. by destruct (b <? s - 1). }
  split.
  - apply Z.bits_inj'. intros b Hb. rewrite Z.land_spec, !Z.lor_spec, Z.pow2_bits_eqb, Z.testbit_ones_nonneg by lia. destruct (Z.ltb_spec b s) as [Hlt|Hge]; [rewrite Hlow by lia; simpl|].
    + destruct (Z.eqb_spec (s - 1) b); destruct (Z.ltb_spec b (s - 1)); done || lia.
    + destruct (Z.eqb_spec (s - 1) b); [lia|]. destruct (Z.ltb_spec b (s - 1)); [lia|]. rewrite !orb_false_r. apply andb_diag.
  - rewrite Z.shiftl_mul_pow2 by lia. change (2 ^ 1) with 2. rewrite Z.mul_comm, <- Z.pow_succ_r by lia. replace (Z.succ (s - 1)) with s by lia. apply u64_small.
    split; [apply Z.pow_nonneg; lia|apply Z.pow_lt_mono_r; lia].
Qed.

(** ** The descriptors of the ring *)

(** The descriptors of a ring that was set up describe its buffers: decoding
    their destination addresses gives the physical address of the buffer of the
    slot and its size, one page, or, with 3 KB buffers, its first half and the
    quarter after that; the second is where the data is reported to be when the
    engine says it used buffer two. *)
Theorem descriptors_name_buffers virt_to_phys dst_3kb k h i x b : ring_built virt_to_phys dst_3kb k h ->
  e_fifo (h_dev h) !! i = Some x -> e_compr_buffers (h_dev h) !! i = Some b -> virt_to_phys b mod PAGE_SIZE = 0 ->
  if dst_3kb then
    exists a1 a2 rest, d_dst_addr x = a1 :: a2 :: rest /\ Forall (fun a => a = 0) rest /\ desc_max_buf x = 2 /\
      EH_ENCODED_ADDR_TO_PHYS a1 = virt_to_phys b /\ EH_ENCODED_ADDR_TO_SIZE a1 = PAGE_SIZE / 2 /\
      EH_ENCODED_ADDR_TO_PHYS a2 = virt_to_phys b + PAGE_SIZE / 2 /\ EH_ENCODED_ADDR_TO_SIZE a2 = PAGE_SIZE / 4 /\
      (forall y, d_buf_sel y = 2 -> desc_status y = EH_CDESC_COMPRESSED -> compress_result y b = (0, (0, Some (b + PAGE_SIZE / 2), d_compr_len y)))
  else
    exists a1 rest, d_dst_addr x = a1 :: rest /\ Forall (fun a => a = 0) rest /\ desc_max_buf x = 1 /\
      EH_ENCODED_ADDR_TO_PHYS a1 = virt_to_phys b /\ EH_ENCODED_ADDR_TO_SIZE a1 = PAGE_SIZE.
Proof.
  intros R Ex Eb Hal. rewrite (rb_fifo _ _ _ _ R), lookup_zip_with, Eb in Ex. simpl in Ex. apply bind_Some in Ex as (y & Ey & [= <-]).
  apply lookup_replicate in Ey as [-> _]. change PAGE_SIZE with (2 ^ 12) in Hal. unfold init_descriptor. destruct dst_3kb.
  - assert (H11 : virt_to_phys b mod 2 ^ 11 = 0) by (apply Z.mod_divide in Hal as [q Hq]; [|lia]; rewrite Hq; apply Z.mod_divide; [lia|]; exists (2 * q); lia).
    assert (H10 : (virt_to_phys b + 2 ^ 11) mod 2 ^ 10 = 0) by (apply Z.mod_divide in H11 as [q Hq]; [|lia]; rewrite Hq; apply Z.mod_divide; [lia|]; exists (2 * q + 2); lia).
    destruct (encoded_address_roundtrip _ 11 ltac:(lia) H11) as [D1 D2]. destruct (encoded_address_roundtrip _ 10 ltac:(lia) H10) as [D3 D4].
    eexists _, _, _. split; [reflexivity|]. split; [by repeat constructor|]. split; [done|]. split; [exact D1|]. split; [exact D2|]. split; [exact D3|]. split; [exact D4|].
    intros y Ey1 Ey2. unfold compress_result. by rewrite Ey1, Ey2.
  - destruct (encoded_address_roundtrip _ 12 ltac:(lia) Hal) as [D1 D2]. eexists _, _. split; [reflexivity|]. split; [by repeat constructor|]. split; [done|]. by split.
Qed.

(** The source address of a request overwrites the number of buffers that was set
    up with the descriptor. *)
Lemma setup_clears_max_buf x page : page mod PAGE_SIZE = 0 -> desc_max_buf (set_status EH_CDESC_PENDING (x <| d_word1 := page |>)) = 0.
Proof.
  intros Hp. unfold desc_max_buf, set_status. simpl. rewrite get_set_other by lia. apply Z.bits_inj'. intros b Hb. rewrite field_bits, Z.bits_0 by lia.
  destruct (Z.ltb_spec b 2); [|done]. apply (aligned_bits page 12); [lia|done|lia].
Qed.

(** ** Decompression *)

(** What decompression works on: registers, the status words in memory, the
    bounce buffer of each CPU and the bytes of memory. *)
Record eh_decomp := MkDecomp { dc_regs : gmap Z Z; dc_status : list Z; dc_bounce : list Z; dc_mem : gmap Z Z }.
#[export] Instance eta_decomp : Eta eh_decomp := mk_eta (fun s => MkDecomp (dc_regs s) (dc_status s) (dc_bounce s) (dc_mem s)).

Definition EH_REG_DCMD_RES (n : Z) : Z := 0x810 + n * EH_DCMD_REGSET_SIZE.

Definition dc_write (offset val : Z) : M eh_decomp unit := kmod (fun s => s <| dc_regs := <[offset := u64 val]> (dc_regs s) |>).

(** [memcpy]; overlapping areas are not allowed. *)
Definition dc_memcpy (dst src n : Z) : M eh_decomp unit := fun s =>
  if (dst <? src + n) && (src <? dst + n) then Fault
  else Done tt (s <| dc_mem := foldl (fun m i => <[dst + i := rd (dc_mem s) (src + i)]> m) (dc_mem s) (seqZ 0 n) |>).

Section Decompress.
(** [status_in_memory] is the configuration in which the engine writes its status
    to memory, at [status_addr] for the first command set. *)
Context (virt_to_phys : Z -> Z) (status_in_memory : bool) (status_addr : Z).

Definition eh_setup_dcmd (index src slen dst_page : Z) : M eh_decomp unit :=
  let alignment := Z.shiftl 1 (ffs_ src) in
  let! source := (if (alignment <? 64) || (slen >? alignment) then
                    let! src_vaddr := at_index dc_bounce index in
                    do! dc_memcpy src_vaddr src slen in
                    kret (virt_to_phys src_vaddr, PAGE_SIZE)
                  else kret (virt_to_phys src, if alignment >? PAGE_SIZE then PAGE_SIZE else alignment)) in
  let '(src_paddr, alignment) := source in
  do! dc_write (EH_REG_DCMD_CSIZE index) (u32 (Z.shiftl slen EH_DCMD_CSIZE_SIZE_SHIFT)) in
  do! (if status_in_memory then
         let! _ := at_index dc_status index in
         do! kmod (fun s => s <| dc_status := <[Z.to_nat index := Z.shiftl EH_DCMD_PENDING EH_DCMD_DEST_STATUS_SHIFT]> (dc_status s) |>) in
         dc_write (EH_REG_DCMD_RES index) (Z.lor (2 ^ 63) (virt_to_phys (status_addr + 8 * index)))
       else kret tt) in
  do! dc_write (EH_REG_DCMD_BUF0 index) (Z.lor (Z.shiftl (ffs_ alignment - 5) EH_DCMD_BUF_SIZE_SHIFT) src_paddr) in
  do! dc_write (EH_REG_DCMD_BUF1 index) 0 in
  do! dc_write (EH_REG_DCMD_BUF2 index) 0 in
  do! dc_write (EH_REG_DCMD_BUF3 index) 0 in
  dc_write (EH_REG_DCMD_DEST index) (Z.lor dst_page (Z.shiftl EH_DCMD_PENDING EH_DCMD_DEST_STATUS_SHIFT)).

(** [time_after] on counters that wrap. *)
Definition time_after (a b : Z) : bool := s64 (u64 (b - a)) <? 0.

(** The loop: at poll [i] the time is [jiffies i] and the status word, in memory
    or in the register, [word i]. *)
Fixpoint poll_status (jiffies word : nat -> Z) (timeout : Z) (fuel i : nat) : M eh_decomp Z :=
  match fuel with
  | O => kblock
  | S n =>
      if time_after (jiffies i) timeout then kret (- ETIME)
      else
        let status := EH_DCMD_DEST_STATUS (word i) in
        if status =? EH_DCMD_PENDING then poll_status jiffies word timeout n (S i)
        else if negb (status =? EH_DCMD_DECOMPRESSED) then kret (- EIO) else kret 0
  end.

(** [now] is the time when the command was programmed, [delay] the ticks of
    [EH_POLL_DELAY_MS]. *)
Definition eh_decompress_page (cpu src slen page now delay : Z) (jiffies word : nat -> Z) (fuel : nat) : M eh_decomp Z :=
  do! eh_setup_dcmd cpu src slen page in
  poll_status jiffies word (u64 (now + delay)) fuel 0.
End Decompress.

(** ** The command *)

Lemma lowest_bit_below fuel : forall x i, 0 <= i -> 0 <= lowest_bit fuel x i < Z.max 1 (i + Z.of_nat fuel) /\ (forall b, i <= b < lowest_bit fuel x i -> Z.testbit x b = false).
Proof.
  induction fuel as [|fuel IH]; intros x i Hi; cbn [lowest_bit]; [split; [lia|intros; lia]|]. destruct (Z.testbit x i) eqn:E; [split; [lia|intros; lia]|].
  destruct (IH x (i + 1)) as [H1 H2]; [lia|]. split; [lia|]. intros b Hb. destruct (decide (b = i)) as [->|]; [done|]. apply H2. lia.
Qed.

Lemma ffs_divides x : 0 <= ffs_ x < 64 /\ x mod 2 ^ ffs_ x = 0.
Proof.
  destruct (lowest_bit_below 64 x 0 ltac:(lia)) as [H1 H2]. fold (ffs_ x) in *. split; [lia|]. apply Z.bits_inj'. intros b Hb. rewrite Z.bits_0.
  destruct (Z.ltb_spec b (ffs_ x)); [rewrite Z.mod_pow2_bits_low by lia; apply H2; lia|apply Z.mod_pow2_bits_high; lia].
Qed.

Lemma mod_pow_le x a b : 0 <= a <= b -> x mod 2 ^ b = 0 -> x mod 2 ^ a = 0.
Proof.
  intros H Hx. pose proof (Z.pow_pos_nonneg 2 a ltac:(lia) ltac:(lia)). pose proof (Z.pow_pos_nonneg 2 b ltac:(lia) ltac:(lia)). apply Z.mod_divide in Hx as [q ->]; [|lia]. apply Z.mod_divide; [lia|].
  exists (q * 2 ^ (b - a)). rewrite <- Z.mul_assoc, <- Z.pow_add_r by lia. f_equal. f_equal. lia.
Qed.

Lemma memcpy_bytes (f : Z -> Z) dst src n : forall m, 0 <= n ->
  forall i, 0 <= i < n -> rd (foldl (fun m i => <[dst + i := f (src + i)]> m) m (seqZ 0 n)) (dst + i) = f (src + i).
Proof.
  intros m Hn. rewrite <- (Z2Nat.id n) by lia. generalize (Z.to_nat n). clear n Hn. intros n. induction n as [|n IH]; intros i Hi; [lia|].
  rewrite seqZ_S, foldl_app. simpl. destruct (decide (i = Z.of_nat n)) as [->|]; [by rewrite Z.add_0_l, rd_insert_eq|].
  rewrite rd_insert_ne by lia. apply IH. lia.
Qed.

Section Command.
Context (virt_to_phys : Z -> Z) (status_in_memory : bool) (status_addr : Z).
(** Pages are mapped to pages, below the size field of a command. *)
Context (virt_page : forall v, virt_to_phys v mod PAGE_SIZE = v mod PAGE_SIZE) (virt_range : forall v, 0 <= virt_to_phys v < 2 ^ 60).

(** A command whose source buffer is aligned to its size, one of 64 to 4096
    bytes, which holds all of the data: bytes [data] of length [slen]. *)
Definition dcmd_ok (index slen page : Z) (data : Z -> Z) (s : eh_decomp) : Prop :=
  exists size vaddr, 6 <= size <= 12 /\ slen <= 2 ^ size /\ virt_to_phys vaddr mod 2 ^ size = 0 /\
    (forall i, 0 <= i < slen -> rd (dc_mem s) (vaddr + i) = data i) /\
    rd (dc_regs s) (EH_REG_DCMD_BUF0 index) = (size - 5) * 2 ^ 60 + virt_to_phys vaddr /\
    rd (dc_regs s) (EH_REG_DCMD_BUF1 index) = 0 /\ rd (dc_regs s) (EH_REG_DCMD_BUF2 index) = 0 /\ rd (dc_regs s) (EH_REG_DCMD_BUF3 index) = 0 /\
    rd (dc_regs s) (EH_REG_DCMD_CSIZE index) = slen * 2 ^ 16 /\
    rd (dc_regs s) (EH_REG_DCMD_DEST index) = page + 14.

(** The engine is given the source itself if it is aligned well enough, or a copy. *)
Lemma wp_source index src slen (b : Z) s : 0 <= slen <= PAGE_SIZE -> 0 <= index -> dc_bounce s !! Z.to_nat index = Some b -> b mod PAGE_SIZE = 0 -> b + PAGE_SIZE <= src \/ src + slen <= b ->
  exists vaddr size, 6 <= size <= 12 /\ slen <= 2 ^ size /\ virt_to_phys vaddr mod 2 ^ size = 0 /\
    wp (if (2 ^ ffs_ src <? 64) || (slen >? 2 ^ ffs_ src) then let! src_vaddr := at_index dc_bounce index in do! dc_memcpy src_vaddr src slen in kret (virt_to_phys src_vaddr, PAGE_SIZE)
        else kret (virt_to_phys src, if 2 ^ ffs_ src >? PAGE_SIZE then PAGE_SIZE else 2 ^ ffs_ src))
      (fun r s1 => r = (virt_to_phys vaddr, 2 ^ size) /\ dc_status s1 = dc_status s /\ forall i, 0 <= i < slen -> rd (dc_mem s1) (vaddr + i) = rd (dc_mem s) (src + i)) s.
Proof.
  intros Hl Hi Eb Hb Hd. destruct (ffs_divides src) as [Hf Hfd]. set (f := ffs_ src) in *. unfold PAGE_SIZE in *. destruct ((2 ^ f <? 64) || (slen >? 2 ^ f)) eqn:Ea.
  - exists b, 12. split; [lia|]. split; [lia|]. split; [change (2 ^ 12) with 4096; by rewrite virt_page|]. apply wp_bind. rewrite <- (Z2Nat.id index) by lia. eapply wp_at_index; [exact Eb|].
    apply wp_bind. unfold wp at 1, dc_memcpy. destruct ((b <? src + slen) && (src <? b + slen)) eqn:Eo; [lia|]. apply wp_ret. split; [done|]. split; [done|]. intros i Hi'. simpl.
    apply (memcpy_bytes (rd (dc_mem s))); lia.
  - apply orb_false_iff in Ea as [Ea1 Ea2]. assert (6 <= f) by (destruct (decide (6 <= f)); [done|]; assert (2 ^ f < 2 ^ 6) by (apply Z.pow_lt_mono_r; lia); lia).
    exists src, (Z.min f 12). assert (virt_to_phys src mod 2 ^ Z.min f 12 = 0) as Hv.
    { assert (Hdiv : (2 ^ Z.min f 12 | 4096)) by (exists (2 ^ (12 - Z.min f 12)); rewrite <- Z.pow_add_r by lia; by replace (12 - Z.min f 12 + Z.min f 12) with 12 by lia).
      rewrite <- (Z.mod_mod_divide _ _ _ Hdiv), virt_page, (Z.mod_mod_divide _ _ _ Hdiv). apply (mod_pow_le _ _ f); [lia|done]. }
    split; [lia|]. destruct (2 ^ f >? 4096) eqn:Eg.
    + assert (12 < f) by (destruct (decide (12 < f)); [done|]; assert (2 ^ f <= 2 ^ 12) by (apply Z.pow_le_mono_r; lia); lia). replace (Z.min f 12) with 12 in * by lia. split; [lia|]. split; [done|]. apply wp_ret. by split.
    + assert (f <= 12) by (destruct (decide (f <= 12)); [done|]; assert (2 ^ 12 < 2 ^ f) by (apply Z.pow_lt_mono_r; lia); lia). replace (Z.min f 12) with f in * by lia. split; [lia|]. split; [done|]. apply wp_ret. by split.
Qed.

(** The registers of a command set are different. *)
Ltac dcmd_regs := unfold EH_REG_DCMD_CSIZE, EH_REG_DCMD_DEST, EH_REG_DCMD_RES, EH_REG_DCMD_BUF0, EH_REG_DCMD_BUF1, EH_REG_DCMD_BUF2, EH_REG_DCMD_BUF3; lia.

Lemma wp_setup index src slen page (b : Z) s : 0 <= slen <= PAGE_SIZE -> 0 <= index -> dc_bounce s !! Z.to_nat index = Some b -> b mod PAGE_SIZE = 0 -> b + PAGE_SIZE <= src \/ src + slen <= b ->
  (status_in_memory = true -> index < Z.of_nat (length (dc_status s))) -> 0 <= page < 2 ^ 63 -> page mod PAGE_SIZE = 0 ->
  wp (eh_setup_dcmd virt_to_phys status_in_memory status_addr index src slen page) (fun _ s' => dcmd_ok index slen page (fun i => rd (dc_mem s) (src + i)) s') s.
Proof.
  intros Hl Hi Eb Hb Hd Hst Hp Hpa. unfold eh_setup_dcmd. cbv zeta. rewrite Z.shiftl_1_l.
  destruct (wp_source index src slen b s Hl Hi Eb Hb Hd) as (vaddr & size & Hsize & Hfit & Hal & Hwp). apply wp_bind. eapply wp_mono; [exact Hwp|]. intros r s1 (-> & Est & Hmem). clear Hwp.
  rewrite ffs_pow2 by lia. unfold dc_write. apply wp_bind, wp_mod, wp_bind. unfold PAGE_SIZE in *.
  set (c := u64 (u32 (Z.shiftl slen EH_DCMD_CSIZE_SIZE_SHIFT))). assert (c = slen * 2 ^ 16) as Ec.
  { unfold c, EH_DCMD_CSIZE_SIZE_SHIFT. rewrite Z.shiftl_mul_pow2, u32_small, u64_small by lia. done. }
  assert (Hrest : forall s2, dc_mem s2 = dc_mem s1 -> rd (dc_regs s2) (EH_REG_DCMD_CSIZE index) = c ->
    wp (do! kmod (fun s => s <| dc_regs := <[EH_REG_DCMD_BUF0 index := u64 (Z.lor (Z.shiftl (size - 5) EH_DCMD_BUF_SIZE_SHIFT) (virt_to_phys vaddr))]> (dc_regs s) |>) in
        do! kmod (fun s => s <| dc_regs := <[EH_REG_DCMD_BUF1 index := u64 0]> (dc_regs s) |>) in
        do! kmod (fun s => s <| dc_regs := <[EH_REG_DCMD_BUF2 index := u64 0]> (dc_regs s) |>) in
        do! kmod (fun s => s <| dc_regs := <[EH_REG_DCMD_BUF3 index := u64 0]> (dc_regs s) |>) in
        kmod (fun s => s <| dc_regs := <[EH_REG_DCMD_DEST index := u64 (Z.lor page (Z.shiftl EH_DCMD_PENDING EH_DCMD_DEST_STATUS_SHIFT))]> (dc_regs s) |>))
      (fun _ s' => dcmd_ok index slen page (fun i => rd (dc_mem s) (src + i)) s') s2).
  { intros s2 Em Ecs. do 4 apply wp_bind, wp_mod. apply wp_mod. exists size, vaddr. split; [done|]. split; [done|]. split; [done|]. simpl. split; [by rewrite Em|].
    pose proof (virt_range vaddr) as Hr. split.
    { do 4 rewrite rd_insert_ne by dcmd_regs. rewrite rd_insert_eq. unfold EH_DCMD_BUF_SIZE_SHIFT. rewrite Z.shiftl_mul_pow2 by lia. rewrite (lor_low _ _ 60); [|lia|by rewrite Z.mod_mul|lia]. rewrite u64_small by lia. done. }
    split; [do 3 rewrite rd_insert_ne by dcmd_regs; by rewrite rd_insert_eq|]. split; [do 2 rewrite rd_insert_ne by dcmd_regs; by rewrite rd_insert_eq|].
    split; [rewrite rd_insert_ne by dcmd_regs; by rewrite rd_insert_eq|]. split; [do 5 rewrite rd_insert_ne by dcmd_regs; congruence|].
    rewrite rd_insert_eq. change (Z.shiftl EH_DCMD_PENDING EH_DCMD_DEST_STATUS_SHIFT) with 14. rewrite (lor_low _ _ 12) by (done || lia). apply u64_small. lia. }
  destruct status_in_memory.
  - apply wp_bind. rewrite <- (Z2Nat.id index) at 1 by lia. destruct (lookup_lt_is_Some_2 (dc_status s1) (Z.to_nat index)) as [v Ev]; [rewrite Est; specialize (Hst eq_refl); lia|].
    eapply wp_at_index; [exact Ev|]. apply wp_bind, wp_mod, wp_mod, Hrest; [done|]. simpl. rewrite rd_insert_ne by dcmd_regs. by rewrite rd_insert_eq.
  - apply wp_ret, Hrest; [done|]. simpl. by rewrite rd_insert_eq.
Qed.
End Command.

(** ** The wait *)

(** [ticks] after the start, on a counter that may wrap meanwhile. *)
Lemma time_after_elapsed now delay ticks : 0 <= delay < 2 ^ 62 -> 0 <= ticks < 2 ^ 62 -> time_after (u64 (now + ticks)) (u64 (now + delay)) = (delay <? ticks).
Proof.
  intros Hd Ht. unfold time_after, u64, s64. rewrite <- Zminus_mod. replace (now + delay - (now + ticks)) with (delay - ticks) by lia.
  rewrite Zplus_mod_idemp_l. rewrite (Z.mod_small (delay - ticks + 2 ^ 63)) by lia. destruct (Z.ltb_spec delay ticks); destruct (Z.ltb_spec (delay - ticks + 2 ^ 63 - 2 ^ 63) 0); done || lia.
Qed.

Lemma wp_poll now delay (ticks : nat -> Z) word fuel : 0 <= delay < 2 ^ 62 -> (forall i, 0 <= ticks i < 2 ^ 62) ->
  forall i s, (exists m, (i <= m < i + fuel)%nat /\ delay < ticks m) ->
  wp (poll_status (fun i => u64 (now + ticks i)) word (u64 (now + delay)) fuel i) (fun r s' => s' = s /\
    exists n, (i <= n)%nat /\ (forall j, (i <= j < n)%nat -> ticks j <= delay /\ EH_DCMD_DEST_STATUS (word j) = EH_DCMD_PENDING) /\
      if delay <? ticks n then r = - ETIME
      else EH_DCMD_DEST_STATUS (word n) <> EH_DCMD_PENDING /\ r = if EH_DCMD_DEST_STATUS (word n) =? EH_DCMD_DECOMPRESSED then 0 else - EIO) s.
Proof.
  intros Hd Ht. induction fuel as [|fuel IH]; intros i s (m & Hm & Hlt); [lia|]. cbn [poll_status]. cbv zeta. rewrite time_after_elapsed by auto.
  destruct (delay <? ticks i) eqn:E1; [apply wp_ret; split; [done|]; exists i; split; [lia|]; split; [lia|]; by rewrite E1|].
  destruct (Z.eqb_spec (EH_DCMD_DEST_STATUS (word i)) EH_DCMD_PENDING) as [Ep|Hne].
  - eapply wp_mono; [apply IH; exists m; split; [assert (m <> i) by (intros ->; lia); lia|done]|]. intros r s' (-> & n & Hn & Hj & Hr). split; [done|]. exists n. split; [lia|]. split; [|done].
    intros j Hj'. destruct (decide (j = i)) as [->|]; [split; [lia|done]|apply Hj; lia].
  - destruct (EH_DCMD_DEST_STATUS (word i) =? EH_DCMD_DECOMPRESSED) eqn:Ed; cbn [negb]; apply wp_ret; (split; [done|]); exists i; (split; [lia|]); (split; [lia|]); rewrite E1, Ed; done.
Qed.

(** C36. Decompressing programs a command that obeys the engine's rule on source
    buffers (a power of two from 64 to 4096 bytes, aligned to its size, with all
    of the compressed data in it, copied to the CPU's bounce page when the source
    itself does not qualify), and then returns: zero or [-EIO] by the first status
    that is not pending, or [-ETIME] when the delay has passed and every status
    before was pending, also when the tick counter wraps meanwhile. *)
Theorem decompress_page_outcome virt_to_phys status_in_memory status_addr cpu src slen page now delay ticks word fuel b s :
  (forall v, virt_to_phys v mod PAGE_SIZE = v mod PAGE_SIZE) -> (forall v, 0 <= virt_to_phys v < 2 ^ 60) ->
  0 <= slen <= PAGE_SIZE -> 0 <= cpu -> dc_bounce s !! Z.to_nat cpu = Some b -> b mod PAGE_SIZE = 0 -> b + PAGE_SIZE <= src \/ src + slen <= b ->
  (status_in_memory = true -> cpu < Z.of_nat (length (dc_status s))) -> 0 <= page < 2 ^ 63 -> page mod PAGE_SIZE = 0 ->
  0 <= delay < 2 ^ 62 -> (forall i, 0 <= ticks i < 2 ^ 62) -> (exists m, (m < fuel)%nat /\ delay < ticks m) ->
  wp (eh_decompress_page virt_to_phys status_in_memory status_addr cpu src slen page now delay (fun i => u64 (now + ticks i)) word fuel) (fun r s' =>
    dcmd_ok virt_to_phys cpu slen page (fun i => rd (dc_mem s) (src + i)) s' /\
    exists n, (forall j, (j < n)%nat -> ticks j <= delay /\ EH_DCMD_DEST_STATUS (word j) = EH_DCMD_PENDING) /\
      if delay <? ticks n then r = - ETIME
      else EH_DCMD_DEST_STATUS (word n) <> EH_DCMD_PENDING /\ r = if EH_DCMD_DEST_STATUS (word n) =? EH_DCMD_DECOMPRESSED then 0 else - EIO) s.
Proof.
  intros Hv1 Hv2 Hl Hc Eb Hb Hd Hst Hp Hpa Hdel Ht (m & Hm & Hlt). unfold eh_decompress_page. apply wp_bind.
  eapply wp_mono; [by apply (wp_setup virt_to_phys status_in_memory status_addr Hv1 Hv2 cpu src slen page b)|]. intros ? s' Hok. cbv beta in Hok.
  eapply wp_mono; [apply wp_poll; [done|done|exists m; split; [lia|done]]|]. intros r s2 (Es & n & _ & Hj & Hr). rewrite Es. split; [done|]. exists n. split; [|done]. intros j Hjn. apply Hj. lia.
Qed.
