(* ===== verification/EhCases.v ===== *)
(** * Runs and cases of the compression engine

    Concrete devices and runs: they satisfy the hypotheses of the theorems, and
    they show where the driver departs from its comments. *)

From S2P Require Import Prelude Eh EhFifo EhRun EhSpec EhInit EhMemory EhProbe EhDecompress.

(** ** Running a list of events *)

Inductive event := EvHw (page priv : Z) | EvSw (page priv : Z) | EvDone (r : hw_result) | EvThread.

Definition next (e : event) (w : world) : option world :=
  let '(MkWorld d t sub rds res) := w in
  match e with
  | EvHw page priv =>
      if page mod PAGE_SIZE =? 0 then
        match request_to_hw_fifo page priv d with Done 0 d' => Some (MkWorld d' t (sub ++ [(page, priv)]) rds res) | _ => None end
      else None
  | EvSw page priv =>
      if page mod PAGE_SIZE =? 0 then
        match request_to_sw_fifo page priv d with Done tt d' => Some (MkWorld d' t (sub ++ [(page, priv)]) rds res) | _ => None end
      else None
  | EvDone r =>
      if (1 <=? hr_status r) && (hr_status r <=? 6) then
        match hw_complete r d with Done page d' => Some (MkWorld d' t sub (rds ++ [page]) (res ++ [r])) | _ => None end
      else None
  | EvThread => match thread_step t d with Done t' d' => Some (MkWorld d' t' sub rds res) | _ => None end
  end.

(** The world after the events, up to the first that is not possible. *)
Fixpoint after (es : list event) (w : world) : world :=
  match es with [] => w | e :: es => match next e w with Some w' => after es w' | None => w end end.

Lemma next_sound e w w' : next e w = Some w' -> step w w'.
Proof.
  destruct w as [d t sub rds res]. destruct e as [page priv|page priv|r|]; simpl.
  - destruct (Z.eqb_spec (page mod PAGE_SIZE) 0); [|done]. destruct (request_to_hw_fifo page priv d) as [[| |] d'| |] eqn:E; try done. intros [= <-]. by apply StepHwFifo.
  - destruct (Z.eqb_spec (page mod PAGE_SIZE) 0); [|done]. destruct (request_to_sw_fifo page priv d) as [[] d'| |] eqn:E; try done. intros [= <-]. by apply StepSwFifo.
  - destruct ((1 <=? hr_status r) && (hr_status r <=? 6)) eqn:Hr; [|done]. destruct (hw_complete r d) as [page d'| |] eqn:E; try done. intros [= <-]. apply StepDriver, StepHw; [lia|done].
  - destruct (thread_step t d) as [t' d'| |] eqn:E; try done. intros [= <-]. destruct t; try (apply StepDriver, StepThread; done). by apply StepSpurious.
Qed.

Lemma after_sound es : forall w, rtc step w (after es w).
Proof.
  induction es as [|e es IH]; intros w; simpl; [apply rtc_refl|]. destruct (next e w) as [w'|] eqn:E; [|apply rtc_refl]. eapply rtc_l; [by eapply next_sound|apply IH].
Qed.

(** A ring of two descriptors and a pool of three structures. *)
Definition small_device : eh_device :=
  MkEh 2 1 3 0 0 {[ EH_REG_CDESC_CTRL := BIT EH_CDESC_CTRL_COMPRESS_ENABLE_SHIFT ]} (replicate 2 (MkDesc 0 0 0 (replicate 6 0))) 0x1000 [None; None]
    [0x10000; 0x20000] 0 true [100; 200; 300] 3 [] 0 0 [].

Lemma small_ready : ready 1 [100; 200; 300] small_device.
Proof.
  destruct (empty_fifo_ok 1 small_device) as [F Hh]; [lia|done..|]. split; [exact F| |done..|exact Hh|done]. split; simpl; auto; lia.
Qed.

Definition start : world := MkWorld small_device TTop [] [] [].
Definition good : hw_result := MkResult EH_CDESC_COMPRESSED 100 1.
Definition fatal : hw_result := MkResult EH_CDESC_ERROR_HALTED 0 0.
Definition threads (n : nat) : list event := replicate n EvThread.

(** Two pages in the ring, one behind it, one done and reported. *)
Definition busy_run : world := after ([EvHw 0x1000 1; EvHw 0x2000 2; EvSw 0x3000 3; EvDone good] ++ threads 2) start.

Lemma busy_witness : exists answered rest, answered ++ rest ⊆+ w_submitted busy_run /\ (length answered <= length (w_results busy_run))%nat /\
    take (length answered) (w_read busy_run) = answered.*1 /\
    e_log (w_dev busy_run) = answers 1 (e_compr_buffers (w_dev busy_run)) answered (take (length answered) (w_results busy_run)) ++ aborted rest /\
    (w_thread busy_run <> TGone -> rest = []).
Proof. apply (reports_match_requests 1 [100; 200; 300] small_device); [apply small_ready|apply after_sound]. Defined.

Lemma busy_alive : w_thread busy_run <> TGone.
Proof. intros E. vm_compute in E. discriminate. Qed.

Lemma drain_witness : exists w', rtc driver_step busy_run w' /\ w_thread w' = TTop /\ comp_idle (w_dev w') = true /\ w_submitted w' = w_submitted busy_run /\
    rp_priv <$> e_log (w_dev w') ≡ₚ (fun x => Some (snd x)) <$> w_submitted busy_run /\ e_pool (w_dev w') ≡ₚ [100; 200; 300].
Proof. apply (everything_is_answered 1 [100; 200; 300] small_device); [apply small_ready|apply after_sound|apply busy_alive|reflexivity]. Defined.

Lemma queued_witness : match eh_compress_page 0x4000 4 (w_dev busy_run) with
  | Done r d' => r = 0 /\ step busy_run (MkWorld d' (w_thread busy_run) (w_submitted busy_run ++ [(0x4000, 4)]) (w_read busy_run) (w_results busy_run))
  | Blocked => e_pool (w_dev busy_run) = []
  | Fault => False
  end.
Proof. apply (requests_are_queued 1 [100; 200; 300] small_device busy_run 0x4000 4); [apply small_ready|apply after_sound|apply busy_alive|reflexivity]. Defined.

(** Three requests were read, answered and the log carries their pointers. *)
Example busy_log : rp_priv <$> e_log (w_dev (after (threads 2 ++ [EvDone good; EvDone good] ++ threads 9) busy_run)) = [Some 1; Some 2; Some 3].
Proof. vm_compute. reflexivity. Qed.

(** ** Order *)

(** Clients that found the ring full add their requests (5 and 6) to the queue
    after the thread has made room; while the thread flushes, request 7 joins.
    The leftover 6 is put back before 7, on the side where requests are added. *)
Definition reorder_run : world :=
  after ([EvHw 0x1000 1; EvHw 0x2000 2; EvDone good] ++ threads 3 ++ [EvSw 0x5000 5; EvSw 0x6000 6] ++ threads 3 ++ [EvSw 0x7000 7] ++ threads 1 ++
         [EvDone good; EvDone good] ++ threads 6 ++ [EvDone good; EvDone good] ++ threads 10) start.

Lemma flush_reorders : snd <$> w_submitted reorder_run = [1; 2; 5; 6; 7] /\ rp_priv <$> e_log (w_dev reorder_run) = [Some 1; Some 2; Some 5; Some 7; Some 6].
Proof. split; vm_compute; reflexivity. Qed.

(** ** A fatal error *)

(** Request 1 halts the engine; request 3 takes its slot before the thread aborts
    the others, and the ring is full: none is aborted. *)
Definition halted_run : world := after ([EvHw 0x1000 1; EvHw 0x2000 2; EvDone fatal] ++ threads 2 ++ [EvHw 0x3000 3] ++ threads 1) start.

Lemma full_ring_is_not_aborted : w_thread halted_run = TGone /\ rp_priv <$> e_log (w_dev halted_run) = [Some 1] /\ snd <$> w_submitted halted_run = [1; 2; 3] /\ e_nr_request (w_dev halted_run) = 2.
Proof. repeat split; vm_compute; reflexivity. Qed.

(** Without it, request 2 is aborted, and the one in the queue is not. *)
Definition queued_halted_run : world := after ([EvHw 0x1000 1; EvHw 0x2000 2; EvSw 0x3000 3; EvDone fatal] ++ threads 3) start.

Lemma queue_is_not_aborted : w_thread queued_halted_run = TGone /\ rp_priv <$> e_log (w_dev queued_halted_run) = [Some 1; Some 2] /\ length (e_sw (w_dev queued_halted_run)) = 1%nat.
Proof. repeat split; vm_compute; reflexivity. Qed.

(** ** Suspending *)

(** A control register whose reset bit clears at the second poll. *)
Definition clears (i : nat) : Z := match i with O => BIT EH_CDESC_CTRL_FIFO_RESET | _ => 0 end.

Lemma clears_ends : ends_reset clears 3.
Proof. exists 1%nat. split; [lia|reflexivity]. Qed.

Lemma suspend_witness : wp (do! eh_suspend in eh_resume clears 3) (fun r d' => r = 0 /\ fifo_ok 1 [] [] 0 d' /\ halted d' = false /\
     e_sw d' = e_sw small_device /\ e_pool d' = e_pool small_device /\ e_log d' = e_log small_device /\ e_completions d' = e_completions small_device /\ rd (e_regs d') EH_REG_INTRP_MASK_ERROR = 0) small_device.
Proof. apply (suspend_then_resume 1 [100; 200; 300] [] 0 start clears 3 (ready_ok _ _ _ small_ready) clears_ends). reflexivity. Defined.

(** Only the ring is checked: with a request in the queue and none in the ring the
    device suspends; the thread, which is not frozen, moves the request into the
    ring, and the resume resets the indices. The request is counted as pending and
    the engine has nothing to do. *)
Definition before_suspend : world := after ([EvHw 0x1000 1; EvDone good] ++ threads 3 ++ [EvSw 0x2000 2] ++ threads 1) start.

Definition lost_in_suspend : outcome eh_device (Z * Z) :=
  (let! r1 := eh_suspend in
   let! t1 := thread_step (w_thread before_suspend) in
   let! t2 := thread_step t1 in
   let! t3 := thread_step t2 in
   let! r2 := eh_resume clears 3 in
   kret (r1, r2)) (w_dev before_suspend).

Lemma suspend_loses_request : match lost_in_suspend with
  | Done (r1, r2) d => r1 = 0 /\ r2 = 0 /\ e_nr_request d = 1 /\ e_sw d = [] /\ rp_priv <$> e_log d = [Some 1] /\ hw_complete good d = Blocked
  | _ => False
  end.
Proof. vm_compute. repeat split. Qed.

(** ** Probing *)

Definition fresh_host (feature : Z) : eh_host :=
  MkHost (MkEh 0 0 0 0 0 {[ EH_REG_HWFEATURES2 := feature ]} [] 0 [] [] 0 false [] 0 [] 0 0 []) ∅ 0 0 0 0 0 [] 0 0 false 0 false 0 false false false 0 false false.

(** Everything succeeds; the rest is given. *)
Definition answers_with (pm_get kobject : Z) : answer := MkAnswer true (fun _ => 0) clears 0 0 kobject pm_get 7 0 0 false (Some 3).

(** A machine of eight CPUs and as many command sets. *)
Definition try_probe (kalloc : heap -> Z -> option Z) (cmds pm_get kobject : Z) : outcome eh_host Z :=
  eh_of_probe kalloc (fun v => v) 8 true (answers_with pm_get kobject) 3 (fresh_host (Z.shiftl cmds 8)).

(** No memory. *)
Definition no_alloc (h : heap) (n : Z) : option Z := None.
#[export] Instance no_alloc_allocator : Allocator no_alloc.
Proof. done. Qed.

Lemma fresh_unheld f : unheld (fresh_host f).
Proof. by split. Qed.

Lemma probe_witness : let a := answers_with 0 0 in let h := fresh_host (Z.shiftl 8 8) in
  wp (eh_of_probe bump_alloc (fun v => v) 8 true a 3) (fun r h' =>
    if r =? 0 then
      h_clk_on h' = true /\ h_pm_usage h' = h_pm_usage h + 1 /\
      wp (eh_create true) (fun r h2 => r = 0 /\ h_on_list h2 = false /\ ready 8 (e_pool (h_dev h')) (h_dev h2) /\ h_heap h2 = h_heap h') h' /\
      length (e_pool (h_dev h')) = Z.to_nat (default EH_SW_FIFO_SIZE (an_sw_fifo_size a))
    else unheld h' /\ h_heap h' = h_heap h /\ h_pm_usage h' = h_pm_usage h) h.
Proof.
  intros a h. refine (probe_is_all_or_nothing bump_alloc (fun v => v) 8 true a 3 h _ (fresh_unheld _) _ _ _ clears_ends _); [reflexivity..|]. unfold a, answers_with. simpl. lia.
Defined.

(** The result of a probe, and what the host holds. *)
Definition result_of {A} (o : outcome eh_host A) : option A := match o with Done r _ => Some r | _ => None end.
Definition faults {A} (o : outcome eh_host A) : bool := match o with Fault => true | _ => false end.
Definition summary (o : outcome eh_host Z) : option (Z * nat * bool * Z) :=
  match o with Done r h => Some (r, size (h_heap h), h_on_list h, h_pm_usage h) | _ => None end.

Example probe_succeeds : result_of (try_probe bump_alloc 8 0 0) = Some 0.
Proof. vm_compute. reflexivity. Qed.

Example probe_without_memory : summary (try_probe no_alloc 8 0 0) = Some (- ENOMEM, 0%nat, false, 0).
Proof. vm_compute. reflexivity. Qed.

(** When the object cannot be published its release frees the device, and so does
    the probe. *)
Lemma kobject_failure_frees_twice : faults (try_probe bump_alloc 8 0 (- ENOMEM)) = true.
Proof. vm_compute. reflexivity. Qed.

(** A failed [pm_runtime_get_sync] keeps its count. *)
Lemma pm_failure_keeps_usage : summary (try_probe bump_alloc 8 (- EIO) 0) = Some (- EIO, 0%nat, false, 1).
Proof. vm_compute. reflexivity. Qed.

(** Fewer command sets than CPUs are accepted, more are refused. *)
Lemma cpu_check_is_reversed : result_of (try_probe bump_alloc 4 0 0) = Some 0 /\ result_of (try_probe bump_alloc 16 0 0) = Some (- EINVAL).
Proof. split; vm_compute; reflexivity. Qed.

(** After the removal the three structures of the pool are still allocated, and
    the freed device is on the list of unclaimed ones. *)
Definition removed : outcome eh_host Z := match try_probe bump_alloc 8 0 0 with Done _ h => eh_of_remove h | _ => Blocked end.

Lemma remove_leaks_pool : summary removed = Some (0, 3%nat, true, 0).
Proof. vm_compute. reflexivity. Qed.

(** ** Buffers and decompression *)

Definition built_host : eh_host := match eh_init_compression bump_alloc (fun v => v * 4096) true 2 (fresh_host 0) with Done _ h => h | _ => fresh_host 0 end.

Lemma built_ring : ring_built (fun v => v * 4096) true 1 built_host.
Proof. split; try (vm_compute; reflexivity); vm_compute; [repeat constructor; discriminate|split; [discriminate|split; discriminate]]. Qed.

Definition built_desc : eh_compress_desc := default (MkDesc 0 0 0 []) (e_fifo (h_dev built_host) !! 1%nat).
Definition built_buffer : Z := default 0 (e_compr_buffers (h_dev built_host) !! 1%nat).

Lemma built_lookups : e_fifo (h_dev built_host) !! 1%nat = Some built_desc /\ e_compr_buffers (h_dev built_host) !! 1%nat = Some built_buffer.
Proof. split; vm_compute; reflexivity. Qed.

Lemma descriptor_witness : exists a1 a2 rest, d_dst_addr built_desc = a1 :: a2 :: rest /\ EH_ENCODED_ADDR_TO_PHYS a1 = built_buffer * 4096 /\ EH_ENCODED_ADDR_TO_SIZE a1 = PAGE_SIZE / 2.
Proof.
  destruct built_lookups as [E1 E2].
  destruct (descriptors_name_buffers (fun v => v * 4096) true 1 built_host 1 built_desc built_buffer built_ring E1 E2 (Z.mod_mul built_buffer 4096 ltac:(lia))) as (a1 & a2 & rest & E3 & _ & _ & E4 & E5 & _).
  exists a1, a2, rest. split; [exact E3|]. split; [exact E4|exact E5].
Defined.

(** A compressed page of 100 bytes at an address that is only 16-byte aligned. *)
Definition decomp_state : eh_decomp := MkDecomp ∅ [] [0x8000] {[ 0x100010 := 7 ]}.

Lemma decompress_witness :
  wp (eh_decompress_page (fun v => v mod 2 ^ 60) false 0 0 0x100010 100 0x40000 (2 ^ 64 - 3) 5 (fun i => u64 (2 ^ 64 - 3 + Z.of_nat i mod 8)) (fun i => if (i <? 2)%nat then 14 else 2) 7) (fun r s' =>
    dcmd_ok (fun v => v mod 2 ^ 60) 0 100 0x40000 (fun i => rd {[ 0x100010 := 7 ]} (0x100010 + i)) s' /\
    exists n, (forall j, (j < n)%nat -> Z.of_nat j mod 8 <= 5 /\ EH_DCMD_DEST_STATUS (if (j <? 2)%nat then 14 else 2) = EH_DCMD_PENDING) /\
      if 5 <? Z.of_nat n mod 8 then r = - ETIME
      else EH_DCMD_DEST_STATUS (if (n <? 2)%nat then 14 else 2) <> EH_DCMD_PENDING /\ r = if EH_DCMD_DEST_STATUS (if (n <? 2)%nat then 14 else 2) =? EH_DCMD_DECOMPRESSED then 0 else - EIO) decomp_state.
Proof.
  apply (decompress_page_outcome (fun v => v mod 2 ^ 60) false 0 0 0x100010 100 0x40000 (2 ^ 64 - 3) 5 (fun i => Z.of_nat i mod 8) (fun i => if (i <? 2)%nat then 14 else 2) 7 0x8000 decomp_state);
    try done; unfold PAGE_SIZE; try lia.
  - intros v. apply Z.mod_mod_divide. by exists (2 ^ 48).
  - intros v. apply Z.mod_pos_bound. lia.
  - intros i. pose proof (Z.mod_pos_bound (Z.of_nat i) 8). lia.
  - exists 6%nat. split; [lia|reflexivity].
Defined.
