(* ===== verification/Ect.v ===== *)
(** * The characteristics table

    [drivers/soc/google/ect_parser.c]: the boot loader leaves a table of chip
    characteristics in memory (frequencies, voltages, thermal and memory timing
    data), as a file of named blocks; each block is a header, a directory of
    entries with offsets, and a body per entry. Parsing keeps pointers into the
    file wherever it can, and the rest of the kernel looks entries up by name. *)

From S2P Require Import Prelude.

Definition ALIGNMENT_SIZE : Z := 4.
Definition PMIC_VOLTAGE_STEP : Z := 6250.

(** ** Data

    [char *] and the pointers to arrays of the file are addresses, [0] for
    [NULL]; an array the parser allocates is its address and its elements. *)

Definition e_dvfs_mode_clock_name : Z := 1.
Definition e_dvfs_mode_sfr_address : Z := 2.

Record ect_dvfs_domain := MkDvfs {
  dv_domain_name : Z; dv_domain_offset : Z; dv_max_frequency : Z; dv_min_frequency : Z; dv_boot_level_idx : Z; dv_resume_level_idx : Z;
  dv_num_of_clock : Z; dv_num_of_level : Z; dv_mode : Z; dv_list_clock : Z * list Z; dv_list_sfr : Z; dv_list_level : Z; dv_list_dvfs_value : Z }.
Record ect_pll := MkPll { pl_pll_name : Z; pl_pll_offset : Z; pl_type_pll : Z; pl_num_of_frequency : Z; pl_frequency_list : Z }.
Record ect_voltage_table := MkVoltage {
  vt_table_version : Z; vt_boot_level_idx : Z; vt_resume_level_idx : Z; vt_level_en : Z; vt_voltages : Z; vt_voltages_step : Z; vt_volt_step : Z }.
Record ect_voltage_domain := MkVoltageDomain {
  vd_domain_name : Z; vd_domain_offset : Z; vd_num_of_group : Z; vd_num_of_level : Z; vd_num_of_table : Z; vd_level_list : Z; vd_table_list : Z * list ect_voltage_table }.
Record ect_rcc_table := MkRcc { rt_table_version : Z; rt_rcc : Z; rt_rcc_compact : Z }.
Record ect_rcc_domain := MkRccDomain {
  rd_domain_name : Z; rd_domain_offset : Z; rd_num_of_group : Z; rd_num_of_level : Z; rd_num_of_table : Z; rd_level_list : Z; rd_table_list : Z * list ect_rcc_table }.
Record ect_ap_thermal_range := MkRange { ra_lower : Z; ra_upper : Z; ra_max_frequency : Z; ra_sw_trip : Z; ra_flag : Z }.
Record ect_ap_thermal_function := MkFunction { fu_function_name : Z; fu_function_offset : Z; fu_num_of_range : Z; fu_range_list : Z * list ect_ap_thermal_range }.
Record ect_margin_domain := MkMargin {
  mg_domain_name : Z; mg_domain_offset : Z; mg_num_of_group : Z; mg_num_of_level : Z; mg_offset : Z; mg_offset_compact : Z; mg_volt_step : Z }.
Record ect_timing_param_size := MkTiming { ti_memory_size : Z; ti_parameter_key : Z; ti_offset : Z; ti_num_of_timing_param : Z; ti_num_of_level : Z; ti_timing_parameter : Z }.
Record ect_minlock_domain := MkMinlock { ml_domain_name : Z; ml_domain_offset : Z; ml_num_of_level : Z; ml_level : Z }.
Record ect_gen_param_table := MkGen { ge_table_name : Z; ge_offset : Z; ge_num_of_col : Z; ge_num_of_row : Z; ge_parameter : Z }.
Record ect_bin := MkBin { bi_binary_name : Z; bi_offset : Z; bi_binary_size : Z; bi_ptr : Z }.
Record ect_new_timing_param_size := MkNewTiming { nt_parameter_key : Z; nt_offset : Z; nt_mode : Z; nt_num_of_timing_param : Z; nt_num_of_level : Z; nt_timing_parameter : Z }.
Record ect_pidtm_block := MkPidtm {
  pi_block_name : Z; pi_offset : Z; pi_num_of_temperature : Z; pi_temperature_list : Z; pi_num_of_parameter : Z; pi_param_name_list : Z * list Z; pi_param_value_list : Z }.

(** The headers of the blocks have the same shape: versions, a number and a list. *)
Record block (E : Type) := MkBlock { bl_self : Z; bl_parser_version : Z; bl_version : Z; bl_num : Z; bl_list : Z * list E }.
Arguments MkBlock {E}.
Arguments bl_self {E}.
Arguments bl_parser_version {E}.
Arguments bl_version {E}.
Arguments bl_num {E}.
Arguments bl_list {E}.
Record ect_mif_thermal_header := MkMif { mi_self : Z; mi_parser_version : Z; mi_version : Z; mi_num_of_level : Z; mi_level : Z }.

(** What [block_handle] points to. *)
Inductive handle :=
| HApThermal (b : block ect_ap_thermal_function) | HAsv (b : block ect_voltage_domain) | HDvfs (b : block ect_dvfs_domain) | HMargin (b : block ect_margin_domain)
| HMifThermal (b : ect_mif_thermal_header) | HPll (b : block ect_pll) | HRcc (b : block ect_rcc_domain) | HTiming (b : block ect_timing_param_size)
| HMinlock (b : block ect_minlock_domain) | HGen (b : block ect_gen_param_table) | HBin (b : block ect_bin) | HNewTiming (b : block ect_new_timing_param_size)
| HPidtm (b : block ect_pidtm_block).

(** The parser of a kind of block. *)
Inductive kind := KApThermal | KAsv | KDvfs | KMargin | KMifThermal | KPll | KRcc | KTiming | KMinlock | KGen | KBin | KNewTiming | KPidtm.

Record ect_info := MkInfo { in_block_name : string; in_parser : kind; in_block_handle : option handle; in_block_precedence : Z }.
#[export] Instance eta_info : Eta ect_info := mk_eta (fun i => MkInfo (in_block_name i) (in_parser i) (in_block_handle i) (in_block_precedence i)).

Record ect_header := MkHeader { hd_self : Z; hd_sign : Z; hd_version : Z; hd_total_size : Z; hd_num_of_header : Z }.

(** The file is mapped at [t_base]; nothing behind its end can be read. *)
Record ect_state := MkEct { t_base : Z; t_img : list Z; t_heap : heap; t_list : list ect_info; t_header : option ect_header }.
#[export] Instance eta_ect : Eta ect_state := mk_eta (fun s => MkEct (t_base s) (t_img s) (t_heap s) (t_list s) (t_header s)).

Abbreviation ECT A := (M ect_state A).

(** ** Reading *)

Definition read8 (a : Z) : ECT Z := fun s =>
  if a <? t_base s then Fault else match t_img s !! Z.to_nat (a - t_base s) with Some b => Done b s | None => Fault end.

Definition __raw_readl (a : Z) : ECT Z :=
  let! b0 := read8 a in let! b1 := read8 (a + 1) in let! b2 := read8 (a + 2) in let! b3 := read8 (a + 3) in
  kret (b0 + 2 ^ 8 * b1 + 2 ^ 16 * b2 + 2 ^ 24 * b3).

(** A parser is given the address of its cursor: it moves it. *)
Definition P (A : Type) : Type := Z -> ECT (A * Z).
Definition pret {A} (x : A) : P A := fun a => kret (x, a).
Definition pbind {A B} (p : P A) (k : A -> P B) : P B := fun a => let! r := p a in k (fst r) (snd r).
Notation "'rd!' x ':=' c 'in' k" := (pbind c (fun x => k)) (at level 10, x name, c at level 100, k at level 200) : km_scope.

(** The cursor itself, and moving it over an array of the file. *)
Definition here : P Z := fun a => kret (a, a).
Definition skip (n : Z) : P unit := fun a => kret (tt, a + n).
Definition effect {A} (m : ECT A) : P A := fun a => let! x := m in kret (x, a).

Definition ect_parse_integer : P Z := fun a => let! v := __raw_readl a in kret (v, a + 4).
(** Into an [int]. *)
Definition parse_int : P Z := rd! v := ect_parse_integer in pret (s32 v).

Definition ect_parse_integer64 : P Z :=
  rd! half := ect_parse_integer in
  rd! top := ect_parse_integer in
  pret (Z.lor (Z.shiftl top 32) half).

(** The string, and its length with the terminator. *)
Definition ect_parse_string : P (Z * Z) :=
  rd! length := ect_parse_integer in
  let length := u32 (length + 1) in
  rd! value := here in
  rd! _ := (if negb (length mod ALIGNMENT_SIZE =? 0) then skip (u32 (length + ALIGNMENT_SIZE - length mod ALIGNMENT_SIZE)) else skip length) in
  pret (value, length).

(** A loop over [i < n]. *)
Fixpoint repeat_parse {A} (n : nat) (p : P A) : P (list A) :=
  match n with O => pret [] | S n' => rd! x := p in rd! l := repeat_parse n' p in pret (x :: l) end.
Definition for_each {A} (n : Z) (p : P A) : P (list A) := repeat_parse (Z.to_nat n) p.

(** The bytes of a string, without its terminator. *)
Definition bytes_of (t : string) : list Z := (fun c => Z.of_nat (Ascii.nat_of_ascii c)) <$> String.list_ascii_of_string t.

(** [strncmp(a, t, strlen(t)) == 0]. *)
Fixpoint strncmp0_at (t : list Z) (a : Z) : ECT bool :=
  match t with
  | [] => kret true
  | x :: t' => let! c := read8 a in if c =? x then strncmp0_at t' (a + 1) else kret false
  end.

(** ** Memory *)

Definition ZERO_SIZE_PTR : Z := 16.

Section Parse.
Context (kalloc : heap -> Z -> option Z).

Definition kzalloc_ (size : Z) : ECT Z := fun s =>
  match kalloc (t_heap s) size with Some p => Done p (s <| t_heap := <[p := []]> (t_heap s) |>) | None => Done 0 s end.
(** The number is an [int], converted to [size_t]: a negative one is too large. *)
Definition kcalloc_ (n size : Z) : ECT Z := if n <? 0 then kret 0 else if n =? 0 then kret ZERO_SIZE_PTR else kzalloc_ (n * size).
Definition kfree_ (p : Z) : ECT unit := fun s =>
  if (p =? 0) || (p =? ZERO_SIZE_PTR) then Done tt s else match t_heap s !! p with Some _ => Done tt (s <| t_heap := delete p (t_heap s) |>) | None => Fault end.

(** ** The bodies

    The result is the error or the entry. *)

Definition ect_parse_dvfs_domain (parser_version address : Z) (d : ect_dvfs_domain) : ECT (Z + ect_dvfs_domain) :=
  let! r := (rd! max := ect_parse_integer in
    rd! min := ect_parse_integer in
    rd! idx := (if parser_version >=? 2 then rd! boot := parse_int in rd! resume := parse_int in pret (boot, resume) else pret (-1, -1)) in
    rd! mode := (if parser_version >=? 3 then ect_parse_integer else pret e_dvfs_mode_clock_name) in
    rd! num_of_clock := parse_int in
    rd! num_of_level := parse_int in
    rd! lists := (if mode =? e_dvfs_mode_sfr_address then
                    rd! list_sfr := here in rd! _ := skip (4 * num_of_clock) in pret (inr ((0, []), list_sfr))
                  else if mode =? e_dvfs_mode_clock_name then
                    rd! list_clock := effect (kcalloc_ num_of_clock 8) in
                    if list_clock =? 0 then pret (inl (- ENOMEM))
                    else rd! names := for_each num_of_clock ect_parse_string in pret (inr ((list_clock, fst <$> names), 0))
                  else pret (inr (dv_list_clock d, dv_list_sfr d))) in
    match lists with
    | inl ret => pret (inl ret)
    | inr (list_clock, list_sfr) =>
        rd! list_level := here in
        rd! _ := skip (8 * num_of_level) in
        rd! list_dvfs_value := here in
        pret (inr (MkDvfs (dv_domain_name d) (dv_domain_offset d) max min (fst idx) (snd idx) num_of_clock num_of_level mode list_clock list_sfr list_level list_dvfs_value))
    end) address in
  kret (fst r).

Definition ect_parse_pll (parser_version address : Z) (e : ect_pll) : ECT (Z + ect_pll) :=
  let! r := (rd! type_pll := ect_parse_integer in
    rd! num_of_frequency := parse_int in
    rd! frequency_list := here in
    pret (inr (MkPll (pl_pll_name e) (pl_pll_offset e) type_pll num_of_frequency frequency_list))) address in
  kret (fst r).

Definition ect_parse_voltage_table (parser_version num_of_group num_of_level : Z) : P ect_voltage_table :=
  let num_of_data := s32 (num_of_group * num_of_level) in
  rd! table_version := parse_int in
  rd! levels := (if parser_version >=? 2 then
                   rd! boot := parse_int in rd! resume := parse_int in
                   rd! level_en := here in rd! _ := skip (4 * num_of_level) in
                   pret (boot, resume, level_en)
                 else pret (-1, -1, 0)) in
  rd! a := here in
  if parser_version >=? 3 then
    rd! _ := skip num_of_data in pret (MkVoltage table_version levels.1.1 levels.1.2 levels.2 0 a PMIC_VOLTAGE_STEP)
  else rd! _ := skip (4 * num_of_data) in pret (MkVoltage table_version levels.1.1 levels.1.2 levels.2 a 0 0).

Definition ect_parse_voltage_domain (parser_version address : Z) (e : ect_voltage_domain) : ECT (Z + ect_voltage_domain) :=
  let! r := (rd! num_of_group := parse_int in
    rd! num_of_level := parse_int in
    rd! num_of_table := parse_int in
    rd! level_list := here in
    rd! _ := skip (4 * num_of_level) in
    rd! table_list := effect (kcalloc_ num_of_table 48) in
    if table_list =? 0 then pret (inl (- ENOMEM))
    else
      rd! tables := for_each num_of_table (ect_parse_voltage_table parser_version num_of_group num_of_level) in
      pret (inr (MkVoltageDomain (vd_domain_name e) (vd_domain_offset e) num_of_group num_of_level num_of_table level_list (table_list, tables)))) address in
  kret (fst r).

Definition ect_parse_rcc_table (parser_version num_of_group num_of_level : Z) : P ect_rcc_table :=
  let num_of_data := s32 (num_of_group * num_of_level) in
  rd! table_version := parse_int in
  rd! a := here in
  if parser_version >=? 2 then rd! _ := skip num_of_data in pret (MkRcc table_version 0 a)
  else rd! _ := skip (4 * num_of_data) in pret (MkRcc table_version a 0).

Definition ect_parse_rcc_domain (parser_version address : Z) (e : ect_rcc_domain) : ECT (Z + ect_rcc_domain) :=
  let! r := (rd! num_of_group := parse_int in
    rd! num_of_level := parse_int in
    rd! num_of_table := parse_int in
    rd! level_list := here in
    rd! _ := skip (4 * num_of_level) in
    rd! table_list := effect (kcalloc_ num_of_table 24) in
    if table_list =? 0 then pret (inl (- ENOMEM))
    else
      rd! tables := for_each num_of_table (ect_parse_rcc_table parser_version num_of_group num_of_level) in
      pret (inr (MkRccDomain (rd_domain_name e) (rd_domain_offset e) num_of_group num_of_level num_of_table level_list (table_list, tables)))) address in
  kret (fst r).

(** The list is not checked: writing the first range to [NULL] is a fault. *)
Definition ect_parse_ap_thermal_function (parser_version address : Z) (e : ect_ap_thermal_function) : ECT (Z + ect_ap_thermal_function) :=
  let! r := (rd! num_of_range := parse_int in
    rd! range_list := effect (kcalloc_ num_of_range 20) in
    rd! ranges := for_each num_of_range (
      rd! lower := ect_parse_integer in
      rd! upper := ect_parse_integer in
      rd! max_frequency := ect_parse_integer in
      rd! sw_trip := ect_parse_integer in
      rd! flag := ect_parse_integer in
      if range_list =? 0 then effect kfault else pret (MkRange lower upper max_frequency sw_trip flag)) in
    pret (inr (MkFunction (fu_function_name e) (fu_function_offset e) num_of_range (range_list, ranges)))) address in
  kret (fst r).

Definition ect_parse_margin_domain (parser_version address : Z) (e : ect_margin_domain) : ECT (Z + ect_margin_domain) :=
  let! r := (rd! num_of_group := parse_int in
    rd! num_of_level := parse_int in
    rd! a := here in
    if parser_version >=? 2 then pret (inr (MkMargin (mg_domain_name e) (mg_domain_offset e) num_of_group num_of_level 0 a PMIC_VOLTAGE_STEP))
    else pret (inr (MkMargin (mg_domain_name e) (mg_domain_offset e) num_of_group num_of_level a 0 (mg_volt_step e)))) address in
  kret (fst r).

Definition ect_parse_timing_param_size (parser_version address : Z) (e : ect_timing_param_size) : ECT (Z + ect_timing_param_size) :=
  let! r := (rd! num_of_timing_param := parse_int in
    rd! num_of_level := parse_int in
    rd! a := here in
    pret (inr (MkTiming (ti_memory_size e) (ti_parameter_key e) (ti_offset e) num_of_timing_param num_of_level a))) address in
  kret (fst r).

Definition ect_parse_minlock_domain (parser_version address : Z) (e : ect_minlock_domain) : ECT (Z + ect_minlock_domain) :=
  let! r := (rd! num_of_level := parse_int in rd! a := here in pret (inr (MkMinlock (ml_domain_name e) (ml_domain_offset e) num_of_level a))) address in
  kret (fst r).

Definition ect_parse_gen_param_table (parser_version address : Z) (e : ect_gen_param_table) : ECT (Z + ect_gen_param_table) :=
  let! r := (rd! num_of_col := parse_int in
    rd! num_of_row := parse_int in
    rd! a := here in
    pret (inr (MkGen (ge_table_name e) (ge_offset e) num_of_col num_of_row a))) address in
  kret (fst r).

Definition ect_parse_bin (parser_version address : Z) (e : ect_bin) : ECT (Z + ect_bin) :=
  let! r := (rd! binary_size := parse_int in rd! a := here in pret (inr (MkBin (bi_binary_name e) (bi_offset e) binary_size a))) address in
  kret (fst r).

Definition ect_parse_new_timing_param_size (parser_version address : Z) (e : ect_new_timing_param_size) : ECT (Z + ect_new_timing_param_size) :=
  let! r := (rd! mode := ect_parse_integer in
    rd! num_of_timing_param := parse_int in
    rd! num_of_level := parse_int in
    rd! a := here in
    pret (inr (MkNewTiming (nt_parameter_key e) (nt_offset e) mode num_of_timing_param num_of_level a))) address in
  kret (fst r).

Definition ect_parse_pidtm_block (parser_version address : Z) (e : ect_pidtm_block) : ECT (Z + ect_pidtm_block) :=
  let! r := (rd! num_of_temperature := parse_int in
    rd! temperature_list := here in
    rd! _ := skip (4 * num_of_temperature) in
    rd! num_of_parameter := parse_int in
    rd! param_name_list := effect (kcalloc_ num_of_parameter 8) in
    if param_name_list =? 0 then pret (inl (- ENOMEM))
    else
      rd! names := for_each num_of_parameter ect_parse_string in
      rd! param_value_list := here in
      pret (inr (MkPidtm (pi_block_name e) (pi_offset e) num_of_temperature temperature_list num_of_parameter (param_name_list, fst <$> names) param_value_list))) address in
  kret (fst r).

(** ** The headers

    All of them allocate a header, read it, allocate the list, read the directory
    and then the body of each entry; the first that fails frees the list and the
    header. They differ in the entries and in the errors they return. *)

Fixpoint parse_bodies {E} (body : E -> ECT (Z + E)) (l : list E) : ECT (option (list E)) :=
  match l with
  | [] => kret (Some [])
  | e :: l' =>
      let! r := body e in
      match r with
      | inl _ => kret None
      | inr e' => let! rest := parse_bodies body l' in kret (match rest with Some l'' => Some (e' :: l'') | None => None end)
      end
  end.

Definition parse_block {E} (null no_header no_list header_size entry_size : Z) (directory : Z -> P E) (body : Z -> Z -> E -> ECT (Z + E)) (address : Z) : ECT (Z + block E) :=
  if address =? 0 then kret (inl null)
  else
    let! header := kzalloc_ header_size in
    if header =? 0 then kret (inl no_header)
    else
      let! r := (rd! parser_version := parse_int in rd! version := ect_parse_integer in rd! num := parse_int in pret (parser_version, version, num)) address in
      let '(parser_version, version, num, cursor) := r in
      let! entries := kcalloc_ num entry_size in
      if entries =? 0 then do! kfree_ header in kret (inl no_list)
      else
        let! d := for_each num (directory parser_version) cursor in
        let! l := parse_bodies (body parser_version address) (fst d) in
        match l with
        | None => do! kfree_ entries in do! kfree_ header in kret (inl (- EINVAL))
        | Some l => kret (inr (MkBlock header parser_version version num (entries, l)))
        end.

(** A directory entry with a name. *)
Definition named {E} (mk : Z -> Z -> E) (parser_version : Z) : P E :=
  rd! name := ect_parse_string in rd! offset := ect_parse_integer in pret (mk (fst name) offset).

Definition ect_parse_dvfs_header : Z -> ECT (Z + block ect_dvfs_domain) :=
  parse_block (- EINVAL) (- ENOMEM) (- EINVAL) 24 72 (named (fun n o => MkDvfs n o 0 0 0 0 0 0 0 (0, []) 0 0 0))
    (fun v base d => ect_parse_dvfs_domain v (base + dv_domain_offset d) d).

Definition ect_parse_pll_header : Z -> ECT (Z + block ect_pll) :=
  parse_block (- EINVAL) (- ENOMEM) (- ENOMEM) 24 32 (named (fun n o => MkPll n o 0 0 0)) (fun v base e => ect_parse_pll v (base + pl_pll_offset e) e).

Definition ect_parse_voltage_header : Z -> ECT (Z + block ect_voltage_domain) :=
  parse_block (- EINVAL) (- EINVAL) (- ENOMEM) 24 40 (named (fun n o => MkVoltageDomain n o 0 0 0 0 (0, [])))
    (fun v base e => ect_parse_voltage_domain v (base + vd_domain_offset e) e).

Definition ect_parse_rcc_header : Z -> ECT (Z + block ect_rcc_domain) :=
  parse_block (- EINVAL) (- EINVAL) (- ENOMEM) 24 40 (named (fun n o => MkRccDomain n o 0 0 0 0 (0, [])))
    (fun v base e => ect_parse_rcc_domain v (base + rd_domain_offset e) e).

Definition ect_parse_mif_thermal_header (address : Z) : ECT (Z + ect_mif_thermal_header) :=
  if address =? 0 then kret (inl (- EINVAL))
  else
    let! header := kzalloc_ 24 in
    if header =? 0 then kret (inl (- EINVAL))
    else
      let! r := (rd! parser_version := parse_int in rd! version := ect_parse_integer in rd! num_of_level := parse_int in rd! level := here in
                 pret (inr (MkMif header parser_version version num_of_level level))) address in
      kret (fst r).

Definition ect_parse_ap_thermal_header : Z -> ECT (Z + block ect_ap_thermal_function) :=
  parse_block (- EINVAL) (- EINVAL) (- ENOMEM) 24 24 (named (fun n o => MkFunction n o 0 (0, [])))
    (fun v base e => ect_parse_ap_thermal_function v (base + fu_function_offset e) e).

Definition ect_parse_margin_header : Z -> ECT (Z + block ect_margin_domain) :=
  parse_block (- EINVAL) (- EINVAL) (- ENOMEM) 24 48 (named (fun n o => MkMargin n o 0 0 0 0 0)) (fun v base e => ect_parse_margin_domain v (base + mg_domain_offset e) e).

(** The key of the entries is a memory size, or from version 3 on a 64-bit key. *)
Definition timing_entry (parser_version : Z) : P ect_timing_param_size :=
  rd! key := (if parser_version >=? 3 then rd! k := ect_parse_integer64 in pret (u32 k, k) else rd! m := ect_parse_integer in pret (m, m)) in
  rd! offset := ect_parse_integer in
  pret (MkTiming (fst key) (snd key) offset 0 0 0).

Definition ect_parse_timing_param_header : Z -> ECT (Z + block ect_timing_param_size) :=
  parse_block (- EINVAL) (- ENOMEM) (- ENOMEM) 24 40 timing_entry (fun v base e => ect_parse_timing_param_size v (base + ti_offset e) e).

Definition ect_parse_minlock_header : Z -> ECT (Z + block ect_minlock_domain) :=
  parse_block (- EINVAL) (- ENOMEM) (- ENOMEM) 24 24 (named (fun n o => MkMinlock n o 0 0)) (fun v base e => ect_parse_minlock_domain v (base + ml_domain_offset e) e).

Definition ect_parse_gen_param_header : Z -> ECT (Z + block ect_gen_param_table) :=
  parse_block (- EINVAL) (- ENOMEM) (- ENOMEM) 24 32 (named (fun n o => MkGen n o 0 0 0)) (fun v base e => ect_parse_gen_param_table v (base + ge_offset e) e).

Definition ect_parse_bin_header : Z -> ECT (Z + block ect_bin) :=
  parse_block (-1) (-2) (- ENOMEM) 24 24 (named (fun n o => MkBin n o 0 0)) (fun v base e => ect_parse_bin v (base + bi_offset e) e).

Definition new_timing_entry (parser_version : Z) : P ect_new_timing_param_size :=
  rd! key := ect_parse_integer64 in rd! offset := ect_parse_integer in pret (MkNewTiming key offset 0 0 0 0).

Definition ect_parse_new_timing_param_header : Z -> ECT (Z + block ect_new_timing_param_size) :=
  parse_block (- EINVAL) (- ENOMEM) (- ENOMEM) 24 32 new_timing_entry (fun v base e => ect_parse_new_timing_param_size v (base + nt_offset e) e).

Definition ect_parse_pidtm_header : Z -> ECT (Z + block ect_pidtm_block) :=
  parse_block (- EINVAL) (- ENOMEM) (- ENOMEM) 24 48 (named (fun n o => MkPidtm n o 0 0 0 (0, []) 0)) (fun v base e => ect_parse_pidtm_block v (base + pi_offset e) e).

(** ** The file *)

Definition parser_of (k : kind) (address : Z) : ECT (Z + handle) :=
  let wrap {B} (mk : B -> handle) (m : ECT (Z + B)) : ECT (Z + handle) := let! r := m in kret (match r with inl e => inl e | inr b => inr (mk b) end) in
  match k with
  | KApThermal => wrap HApThermal (ect_parse_ap_thermal_header address)
  | KAsv => wrap HAsv (ect_parse_voltage_header address)
  | KDvfs => wrap HDvfs (ect_parse_dvfs_header address)
  | KMargin => wrap HMargin (ect_parse_margin_header address)
  | KMifThermal => wrap HMifThermal (ect_parse_mif_thermal_header address)
  | KPll => wrap HPll (ect_parse_pll_header address)
  | KRcc => wrap HRcc (ect_parse_rcc_header address)
  | KTiming => wrap HTiming (ect_parse_timing_param_header address)
  | KMinlock => wrap HMinlock (ect_parse_minlock_header address)
  | KGen => wrap HGen (ect_parse_gen_param_header address)
  | KBin => wrap HBin (ect_parse_bin_header address)
  | KNewTiming => wrap HNewTiming (ect_parse_new_timing_param_header address)
  | KPidtm => wrap HPidtm (ect_parse_pidtm_header address)
  end.

(** The inner loop, over the elements of [ect_list] from [j] on; an error ends it. *)
Fixpoint match_blocks (js : list nat) (block_name offset i : Z) : ECT bool :=
  match js with
  | [] => kret true
  | j :: js' =>
      let! s := kget in
      match t_list s !! j with
      | None => kfault
      | Some info =>
          let! same := strncmp0_at (bytes_of (in_block_name info)) block_name in
          if negb same then match_blocks js' block_name offset i
          else
            let! r := parser_of (in_parser info) (t_base s + offset) in
            match r with
            | inl _ => kret false
            | inr h =>
                do! kmod (fun s => s <| t_list := <[j := info <| in_block_handle := Some h |> <| in_block_precedence := i |>]> (t_list s) |>) in
                match_blocks js' block_name offset i
            end
      end
  end.

(** The outer loop, over the blocks of the file. *)
Fixpoint parse_blocks (n : nat) (i cursor : Z) : ECT bool :=
  match n with
  | O => kret true
  | S n' =>
      let! r := (rd! name := ect_parse_string in rd! offset := ect_parse_integer in pret (fst name, offset)) cursor in
      let '(name, offset, cursor) := r in
      let! s := kget in
      let! ok := match_blocks (seq 0 (length (t_list s))) name offset i in
      if ok then parse_blocks n' (i + 1) cursor else kret false
  end.

Definition ect_signature : Z := 0x41524150.

(** The header is not checked: writing to [NULL] is a fault. *)
Definition ect_parse_binary_header : ECT Z :=
  let! s := kget in
  if t_base s =? 0 then kret (- EINVAL)
  else
    let! ect_header := kzalloc_ 16 in
    if ect_header =? 0 then kfault
    else
      let! r := (rd! sign := ect_parse_integer in rd! version := ect_parse_integer in rd! total_size := ect_parse_integer in rd! num_of_header := parse_int in
                 pret (MkHeader ect_header sign version total_size num_of_header)) (t_base s) in
      let '(header, cursor) := r in
      if negb (hd_sign header =? ect_signature) then do! kfree_ ect_header in kret (- EINVAL)
      else
        let! ok := parse_blocks (Z.to_nat (hd_num_of_header header)) 0 cursor in
        if ok then do! kmod (fun s => s <| t_header := Some header |>) in kret 0
        else do! kfree_ ect_header in kret (- EINVAL).
End Parse.

(** [ect_list] before the file is parsed. *)
Definition ect_list : list ect_info :=
  (fun '(n, k) => MkInfo n k None (-1)) <$>
  [("THERMAL", KApThermal); ("ASV", KAsv); ("DVFS", KDvfs); ("MARGIN", KMargin); ("MR4", KMifThermal); ("PLL", KPll); ("RCC", KRcc); ("TIMING", KTiming);
   ("MINLOCK", KMinlock); ("GEN", KGen); ("BIN", KBin); ("NEWTIME", KNewTiming); ("PIDTM", KPidtm)]%string.

(** ** Lookup *)

(** [t] up to its terminator against the bytes at [a]: zero when they are equal. *)
Fixpoint strcmp_at (t : list Z) (a : Z) : ECT Z :=
  let! c := read8 a in
  match t with
  | [] => kret (if c =? 0 then 0 else -1)
  | x :: t' => if x =? c then strcmp_at t' (a + 1) else kret (if x <? c then -1 else 1)
  end.
Definition ect_strcmp (src1 : string) (src2 : Z) : ECT Z := strcmp_at (bytes_of src1) src2.

Definition ect_get_block (block_name : string) : ECT (option handle) :=
  let! s := kget in
  kret (match list_find (fun i => in_block_name i = block_name) (t_list s) with Some (_, i) => in_block_handle i | None => None end).

(** The loops of the lookups: the first entry whose name matches. *)
Fixpoint first_named {E} (name_of : E -> Z) (name : string) (l : list E) : ECT (option E) :=
  match l with
  | [] => kret None
  | e :: l' => let! r := ect_strcmp name (name_of e) in if r =? 0 then kret (Some e) else first_named name_of name l'
  end.

(** A block or a name that is [NULL] has no entries; a block of another kind is
    read as what it is not. *)
Definition get_named {E} (name_of : E -> Z) (of_handle : handle -> option (block E)) (h : option handle) (name : option string) : ECT (option E) :=
  match h, name with
  | Some h, Some name => match of_handle h with Some b => first_named name_of name (snd (bl_list b)) | None => kfault end
  | _, _ => kret None
  end.

Definition ect_dvfs_get_domain := get_named dv_domain_name (fun h => match h with HDvfs b => Some b | _ => None end).
Definition ect_pll_get_pll := get_named pl_pll_name (fun h => match h with HPll b => Some b | _ => None end).
Definition ect_asv_get_domain := get_named vd_domain_name (fun h => match h with HAsv b => Some b | _ => None end).
Definition ect_rcc_get_domain := get_named rd_domain_name (fun h => match h with HRcc b => Some b | _ => None end).
Definition ect_ap_thermal_get_function := get_named fu_function_name (fun h => match h with HApThermal b => Some b | _ => None end).
Definition ect_pidtm_get_block := get_named pi_block_name (fun h => match h with HPidtm b => Some b | _ => None end).
Definition ect_margin_get_domain := get_named mg_domain_name (fun h => match h with HMargin b => Some b | _ => None end).
Definition ect_minlock_get_domain := get_named ml_domain_name (fun h => match h with HMinlock b => Some b | _ => None end).

(** These two do not check the name. *)
Definition get_unchecked {E} (name_of : E -> Z) (of_handle : handle -> option (block E)) (h : option handle) (name : option string) : ECT (option E) :=
  match h with
  | None => kret None
  | Some h => match of_handle h with
      | Some b => match name with
          | Some name => first_named name_of name (snd (bl_list b))
          | None => match snd (bl_list b) with [] => kret None | _ => kfault end
          end
      | None => kfault
      end
  end.
Definition ect_gen_param_get_table := get_unchecked ge_table_name (fun h => match h with HGen b => Some b | _ => None end).
Definition ect_binary_get_bin := get_unchecked bi_binary_name (fun h => match h with HBin b => Some b | _ => None end).

(** Lookups by a number. *)
Definition get_by {E} (of_handle : handle -> option (block E)) (same : E -> bool) (h : option handle) : ECT (option E) :=
  match h with
  | None => kret None
  | Some h => match of_handle h with Some b => kret (snd <$> list_find (fun e => same e = true) (snd (bl_list b))) | None => kfault end
  end.
Definition ect_timing_param_get_size (h : option handle) (dram_size : Z) : ECT (option ect_timing_param_size) :=
  get_by (fun h => match h with HTiming b => Some b | _ => None end) (fun e => ti_memory_size e =? u32 dram_size) h.
Definition ect_timing_param_get_key (h : option handle) (key : Z) : ECT (option ect_timing_param_size) :=
  get_by (fun h => match h with HTiming b => Some b | _ => None end) (fun e => key =? ti_parameter_key e) h.
Definition ect_new_timing_param_get_key (h : option handle) (key : Z) : ECT (option ect_new_timing_param_size) :=
  get_by (fun h => match h with HNewTiming b => Some b | _ => None end) (fun e => key =? nt_parameter_key e) h.

(** The levels are in the file, 24 bytes each; the result is the address of one. *)
Fixpoint first_level (n : nat) (a mr4_level : Z) : ECT (option Z) :=
  match n with
  | O => kret None
  | S n' => let! v := __raw_readl a in if s32 v =? mr4_level then kret (Some a) else first_level n' (a + 24) mr4_level
  end.
Definition ect_mif_thermal_get_level (h : option handle) (mr4_level : Z) : ECT (option Z) :=
  match h with
  | None => kret None
  | Some (HMifThermal b) => first_level (Z.to_nat (mi_num_of_level b)) (mi_level b) mr4_level
  | Some _ => kfault
  end.

Definition ect_read_value64 (address index : Z) : ECT Z :=
  let index := s32 (index * 2) in
  let! half := __raw_readl (address + 4 * index) in
  let! top := __raw_readl (address + 4 * (index + 1)) in
  kret (Z.lor (Z.shiftl top 32) half).
