(* ===== verification/EctFormat.v ===== *)
(** * The format of the characteristics table

    Encoders of integers, strings and blocks, what the parsing functions do on the
    bytes they produce, and the interface ([Format]) between the parser of a block
    and the parser of its entries: given that the key and the body of an entry are
    parsed into what represents them, so are a block of such entries. *)

From S2P Require Import Prelude Ect.

(** ** Bytes of the file *)

Definition file (s : ect_state) : Z * list Z := (t_base s, t_img s).

(** The bytes [l] are at the address [a]. *)
Definition bytes_at (f : Z * list Z) (a : Z) (l : list Z) : Prop :=
  fst f <= a /\ forall i b, l !! i = Some b -> snd f !! (Z.to_nat (a - fst f) + i)%nat = Some b.

Definition len {A} (l : list A) : Z := Z.of_nat (length l).

Lemma len_app {A} (l l' : list A) : len (l ++ l') = len l + len l'.
Proof. unfold len. rewrite length_app. lia. Qed.

Lemma bytes_app f a l l' : bytes_at f a (l ++ l') <-> bytes_at f a l /\ bytes_at f (a + len l) l'.
Proof.
  unfold bytes_at, len. split.
  - intros [H1 H2]. split; [split; [done|]|split; [lia|]].
    + intros i b Hi. apply H2. by apply lookup_app_l_Some.
    + intros i b Hi. replace (Z.to_nat (a + Z.of_nat (length l) - fst f) + i)%nat with (Z.to_nat (a - fst f) + (length l + i))%nat by lia. apply H2. by rewrite lookup_app_r, Nat.add_comm, Nat.add_sub by lia.
  - intros [[H1 H2] [H3 H4]]. split; [done|]. intros i b [Hi|[Hl Hi]]%lookup_app_Some; [by apply H2|].
    apply H4 in Hi. rewrite <- Hi. f_equal. lia.
Qed.

Lemma bytes_app_l f a l l' : bytes_at f a (l ++ l') -> bytes_at f a l.
Proof. rewrite bytes_app. tauto. Qed.
Lemma bytes_app_r f a l l' : bytes_at f a (l ++ l') -> bytes_at f (a + len l) l'.
Proof. rewrite bytes_app. tauto. Qed.

Lemma read8_at s a b l : bytes_at (file s) a (b :: l) -> read8 a s = Done b s /\ bytes_at (file s) (a + 1) l.
Proof.
  intros H. change (b :: l) with ([b] ++ l) in H. apply bytes_app in H as [[H1 H2] H3]. split; [|done]. unfold read8. simpl in *.
  destruct (Z.ltb_spec a (t_base s)); [lia|]. specialize (H2 O b eq_refl). rewrite Nat.add_0_r in H2. by rewrite H2.
Qed.

(** ** Integers *)

Definition enc32 (v : Z) : list Z := [v mod 2 ^ 8; (v / 2 ^ 8) mod 2 ^ 8; (v / 2 ^ 16) mod 2 ^ 8; (v / 2 ^ 24) mod 2 ^ 8].
Definition enc64 (v : Z) : list Z := enc32 v ++ enc32 (v / 2 ^ 32).

Lemma dec32 v : v mod 2 ^ 8 + 2 ^ 8 * ((v / 2 ^ 8) mod 2 ^ 8) + 2 ^ 16 * ((v / 2 ^ 16) mod 2 ^ 8) + 2 ^ 24 * ((v / 2 ^ 24) mod 2 ^ 8) = u32 v.
Proof. unfold u32. Z.to_euclidean_division_equations. lia. Qed.

Lemma readl_at s a v l : bytes_at (file s) a (enc32 v ++ l) -> __raw_readl a s = Done (u32 v) s.
Proof.
  intros H. unfold enc32 in H. simpl app in H. unfold __raw_readl, kbind. destruct (read8_at _ _ _ _ H) as [-> H1].
  destruct (read8_at _ _ _ _ H1) as [-> H2]. destruct (read8_at _ _ _ _ H2) as [E3 H3]. destruct (read8_at _ _ _ _ H3) as [E4 H4].
  replace (a + 1 + 1) with (a + 2) in * by lia. rewrite E3. replace (a + 2 + 1) with (a + 3) in * by lia. rewrite E4. unfold kret. by rewrite dec32.
Qed.

(** ** Parsers *)

Definition pwp {A} (p : P A) (a : Z) (Q : A -> Z -> ect_state -> Prop) (s : ect_state) : Prop := wp (p a) (fun r s' => Q (fst r) (snd r) s') s.

Section Parsers.
Context {A B : Type}.

Lemma wp_parser (p : P A) a (Q : A * Z -> ect_state -> Prop) s : pwp p a (fun x a' s' => Q (x, a') s') s -> wp (p a) Q s.
Proof. intros H. eapply wp_mono; [exact H|]. by intros [x a'] s'. Qed.

Lemma pwp_ret (x : A) a Q s : Q x a s -> pwp (pret x) a Q s.
Proof. done. Qed.
Lemma pwp_bind (p : P A) (k : A -> P B) a Q s : pwp p a (fun x a' s' => pwp (k x) a' Q s') s -> pwp (pbind p k) a Q s.
Proof. unfold pwp, pbind. intros H. by apply wp_bind. Qed.
Lemma pwp_mono (p : P A) a (Q Q' : A -> Z -> ect_state -> Prop) s : pwp p a Q s -> (forall x a' s', Q x a' s' -> Q' x a' s') -> pwp p a Q' s.
Proof. intros H HQ. eapply wp_mono; [exact H|]. intros [x a'] s'. apply HQ. Qed.
End Parsers.

Lemma pwp_here a (Q : Z -> Z -> ect_state -> Prop) s : Q a a s -> pwp here a Q s.
Proof. done. Qed.
Lemma pwp_skip n a (Q : unit -> Z -> ect_state -> Prop) s : Q tt (a + n) s -> pwp (skip n) a Q s.
Proof. done. Qed.
Lemma pwp_effect {A} (m : ECT A) a (Q : A -> Z -> ect_state -> Prop) s : wp m (fun x s' => Q x a s') s -> pwp (effect m) a Q s.
Proof. unfold pwp, effect. intros H. apply wp_bind. eapply wp_mono; [exact H|]. intros x s' HQ. by apply wp_ret. Qed.

(** The bytes before the cursor's are read, and the rest is at the cursor. *)
Lemma pwp_integer v l a (Q : Z -> Z -> ect_state -> Prop) s : bytes_at (file s) a (enc32 v ++ l) ->
  (bytes_at (file s) (a + 4) l -> Q (u32 v) (a + 4) s) -> pwp ect_parse_integer a Q s.
Proof.
  intros H HQ. unfold pwp, ect_parse_integer. apply wp_bind. eapply wp_eq; [exact (readl_at _ _ _ _ H)|]. apply wp_ret, HQ. exact (bytes_app_r _ _ _ _ H).
Qed.

(** Values of 32-bit integers. *)
Definition fits (v : Z) : Prop := - 2 ^ 31 <= v < 2 ^ 31.
Definition word (v : Z) : Prop := 0 <= v < 2 ^ 32.

Lemma pwp_int v l a (Q : Z -> Z -> ect_state -> Prop) s : bytes_at (file s) a (enc32 v ++ l) -> fits v ->
  (bytes_at (file s) (a + 4) l -> Q v (a + 4) s) -> pwp parse_int a Q s.
Proof.
  intros H Hv HQ. unfold parse_int. apply pwp_bind. eapply pwp_integer; [exact H|]. intros H'. apply pwp_ret.
  replace (s32 (u32 v)) with v; [by apply HQ|]. unfold s32, u32, fits in *. Z.to_euclidean_division_equations. lia.
Qed.

Lemma pwp_word v l a (Q : Z -> Z -> ect_state -> Prop) s : bytes_at (file s) a (enc32 v ++ l) -> word v ->
  (bytes_at (file s) (a + 4) l -> Q v (a + 4) s) -> pwp ect_parse_integer a Q s.
Proof. intros H Hv HQ. eapply pwp_integer; [exact H|]. by rewrite u32_small. Qed.

Lemma pwp_integer64 v l a (Q : Z -> Z -> ect_state -> Prop) s : bytes_at (file s) a (enc64 v ++ l) -> 0 <= v < 2 ^ 64 ->
  (bytes_at (file s) (a + 8) l -> Q v (a + 8) s) -> pwp ect_parse_integer64 a Q s.
Proof.
  intros H Hv HQ. unfold enc64 in H. rewrite <- app_assoc in H. unfold ect_parse_integer64. apply pwp_bind. eapply pwp_integer; [exact H|]. intros H1. apply pwp_bind. eapply pwp_integer; [exact H1|].
  intros H2. apply pwp_ret. replace (a + 4 + 4) with (a + 8) in * by lia. rewrite (u32_small (v / 2 ^ 32)) by dlia. rewrite Z.shiftl_mul_pow2, (lor_low _ _ 32); [|lia|by rewrite Z.mod_mul|apply Z.mod_pos_bound; lia|lia].
  unfold u32. replace (v / 2 ^ 32 * 2 ^ 32 + v mod 2 ^ 32) with v by dlia. auto.
Qed.

(** ** Strings *)

Definition pad (n : Z) : list Z := zeros ((4 - n mod 4) mod 4).
Definition enc_str (t : list Z) : list Z := enc32 (len t) ++ t ++ [0] ++ pad (len t + 1).

(** A string with its terminator. *)
Definition str_at (f : Z * list Z) (a : Z) (t : list Z) : Prop := bytes_at f a (t ++ [0]).

Lemma len_zeros n : 0 <= n -> len (zeros n) = n.
Proof. intros. unfold len, zeros. rewrite length_replicate. lia. Qed.

Lemma len_enc_str t : len (enc_str t) = 4 + (len t + 1 + (4 - (len t + 1) mod 4) mod 4).
Proof. unfold enc_str. rewrite !len_app. unfold pad. rewrite len_zeros by dlia. change (len (enc32 (len t))) with 4. change (len [0]) with 1. lia. Qed.

Lemma pwp_string t l a (Q : Z * Z -> Z -> ect_state -> Prop) s : bytes_at (file s) a (enc_str t ++ l) -> len t < 2 ^ 31 ->
  (bytes_at (file s) (a + len (enc_str t)) l -> str_at (file s) (a + 4) t -> Q (a + 4, len t + 1) (a + len (enc_str t)) s) -> pwp ect_parse_string a Q s.
Proof.
  intros H Ht HQ. assert (0 <= len t) by (unfold len; lia). pose proof (bytes_app_r _ _ _ _ H) as Hr. unfold enc_str in H. rewrite <- !app_assoc in H. unfold ect_parse_string. apply pwp_bind.
  eapply pwp_word; [exact H|unfold word; lia|]. intros H1. rewrite u32_small by lia. cbv zeta. apply pwp_bind, pwp_here, pwp_bind.
  assert (Hs : str_at (file s) (a + 4) t). { rewrite app_assoc in H1. by apply bytes_app_l in H1. }
  pose proof (len_enc_str t) as El. unfold ALIGNMENT_SIZE. destruct (Z.eqb_spec ((len t + 1) mod 4) 0) as [E|E]; cbn [negb].
  - apply pwp_skip, pwp_ret. rewrite E in El. change ((4 - 0) mod 4) with 0 in El. replace (a + 4 + (len t + 1)) with (a + len (enc_str t)) by lia. by apply HQ.
  - apply pwp_skip, pwp_ret. rewrite u32_small by dlia. replace (a + 4 + (len t + 1 + 4 - (len t + 1) mod 4)) with (a + len (enc_str t)); [by apply HQ|]. rewrite El. dlia.
Qed.

(** ** Directories

    Keys with offsets, and the bodies they lead to. *)

Fixpoint directory (off : Z) (l : list (list Z * list Z)) : list Z :=
  match l with [] => [] | (key, body) :: l' => key ++ enc32 off ++ directory (off + len body) l' end.
Definition bodies (l : list (list Z * list Z)) : list Z := concat (snd <$> l).

(** A header, its directory and the bodies; offsets count from the header. *)
Definition layout (hdr : list Z) (l : list (list Z * list Z)) : list Z :=
  hdr ++ directory (len hdr + len (directory 0 l)) l ++ bodies l.

Lemma len_enc32 v : len (enc32 v) = 4.
Proof. done. Qed.

Lemma len_directory off l : len (directory off l) = len (directory 0 l).
Proof.
  assert (H : forall off' off, len (directory off l) = len (directory off' l)); [|apply H]. induction l as [|[key body] l IH]; intros off1 off2; [done|]. cbn [directory].
  rewrite !len_app, !len_enc32, (IH (off1 + len body) (off2 + len body)). done.
Qed.

Lemma len_layout hdr l : len (layout hdr l) = len hdr + len (directory 0 l) + len (bodies l).
Proof. unfold layout. rewrite !len_app, len_directory. lia. Qed.

(** Where the bodies are. *)
Fixpoint bodies_at (f : Z * list Z) (base off : Z) (l : list (list Z * list Z)) : Prop :=
  match l with [] => True | (_, body) :: l' => bytes_at f (base + off) body /\ bodies_at f base (off + len body) l' end.

Lemma bodies_at_spec f base l : forall off, bytes_at f (base + off) (bodies l) -> bodies_at f base off l.
Proof.
  induction l as [|[key body] l IH]; intros off H; [done|]. simpl. unfold bodies in H. simpl in H. apply bytes_app in H as [H1 H2]. split; [done|]. apply IH. by rewrite <- Z.add_assoc in H2.
Qed.

Lemma layout_at f a hdr l : bytes_at f a (layout hdr l) ->
  let off := len hdr + len (directory 0 l) in bytes_at f a (hdr ++ directory off l ++ bodies l) /\ bodies_at f a off l.
Proof.
  intros H off. split; [exact H|]. apply bodies_at_spec. unfold layout in H. apply bytes_app_r, bytes_app_r in H. rewrite len_directory in H. unfold off. by rewrite Z.add_assoc.
Qed.

(** ** Entries *)

(** What the parser of a block relies on: entries of type [E] for data of type [T]
    in a file of a given version. After the directory an entry represents the key
    and has the offset; parsing the body makes it represent the data. *)
Class Format (T E : Type) := {
  fm_key : Z -> T -> list Z;
  fm_body : Z -> T -> list Z;
  fm_entry : Z -> P E;
  fm_parse : Z -> Z -> E -> ECT (Z + E);
  fm_ok : Z -> T -> Prop;
  fm_key_rep : Z * list Z -> Z -> Z -> T -> E -> Prop;
  fm_rep : Z * list Z -> Z -> T -> E -> Prop;
  fm_entry_spec : forall v t off l a s, fm_ok v t -> word off -> bytes_at (file s) a (fm_key v t ++ enc32 off ++ l) ->
    pwp (fm_entry v) a (fun e a' s' => s' = s /\ a' = a + len (fm_key v t) + 4 /\ fm_key_rep (file s) v off t e) s;
  fm_parse_spec : forall v t off base e s, fm_ok v t -> fm_key_rep (file s) v off t e -> bytes_at (file s) (base + off) (fm_body v t) ->
    wp (fm_parse v base e) (fun r s' => exists e' hp, r = inr e' /\ s' = s <| t_heap := hp |> /\ fm_rep (file s) v t e') s
}.

(** ** Blocks *)

Section Encoding.
Context {T E : Type} (key body : Z -> T -> list Z) (ok : Z -> T -> Prop) (rep : Z * list Z -> Z -> T -> E -> Prop).

Definition parts (v : Z) (ts : list T) : list (list Z * list Z) := (fun t => (key v t, body v t)) <$> ts.
Definition block_header (v version n : Z) : list Z := enc32 v ++ enc32 version ++ enc32 n.
Definition enc_block (v version : Z) (ts : list T) : list Z := layout (block_header v version (len ts)) (parts v ts).

(** What a block says: the versions and the entries. *)
Definition block_rep (f : Z * list Z) (v version : Z) (ts : list T) (b : block E) : Prop :=
  bl_parser_version b = v /\ bl_version b = version /\ bl_num b = len ts /\ Forall2 (rep f v) ts (snd (bl_list b)).

Definition block_ok (v version : Z) (ts : list T) : Prop := fits v /\ word version /\ Forall (ok v) ts /\ len ts < 2 ^ 31 /\ len (enc_block v version ts) < 2 ^ 32.
End Encoding.

Section Block.
Context `{Format T E} (kalloc : heap -> Z -> option Z) `{!Allocator kalloc} (plenty : forall h n, is_Some (kalloc h n)).

Lemma wp_kzalloc size (Q : Z -> ect_state -> Prop) s : (forall p hp, p <> 0 -> Q p (s <| t_heap := hp |>)) -> wp (kzalloc_ kalloc size) Q s.
Proof. intros HQ. unfold wp, kzalloc_. destruct (plenty (t_heap s) size) as [p Ep]. rewrite Ep. apply HQ. destruct (kzalloc_fresh _ _ _ Ep). lia. Qed.

Lemma wp_kcalloc n size (Q : Z -> ect_state -> Prop) s : 0 <= n -> (forall p hp, p <> 0 -> Q p (s <| t_heap := hp |>)) -> wp (kcalloc_ kalloc n size) Q s.
Proof.
  intros Hn HQ. unfold kcalloc_. destruct (Z.ltb_spec n 0); [lia|]. destruct (Z.eqb_spec n 0); [|by apply wp_kzalloc]. apply wp_ret. specialize (HQ ZERO_SIZE_PTR (t_heap s) ltac:(done)). by destruct s.
Qed.

(** The entries after the directory has been read. *)
Fixpoint keys_rep (f : Z * list Z) (v off : Z) (ts : list T) (es : list E) : Prop :=
  match ts, es with
  | [], [] => True
  | t :: ts', e :: es' => fm_key_rep f v off t e /\ keys_rep f v (off + len (fm_body v t)) ts' es'
  | _, _ => False
  end.

Lemma pwp_directory v ts : forall off l a s, Forall (fm_ok v) ts -> 0 <= off -> off + len (bodies (parts fm_key fm_body v ts)) < 2 ^ 32 -> bytes_at (file s) a (directory off (parts fm_key fm_body v ts) ++ l) ->
  pwp (repeat_parse (length ts) (fm_entry v)) a (fun es a' s' => s' = s /\ keys_rep (file s) v off ts es) s.
Proof.
  induction ts as [|t ts IH]; intros off l a s Hok Hoff Hlen Hb; cbn [length repeat_parse]; [by apply pwp_ret|]. apply Forall_cons in Hok as [Ht Hts].
  change (parts fm_key fm_body v (t :: ts)) with ((fm_key v t, fm_body v t) :: parts fm_key fm_body v ts) in Hb, Hlen. cbn [directory] in Hb. rewrite <- !app_assoc in Hb.
  change (bodies ((fm_key v t, fm_body v t) :: parts fm_key fm_body v ts)) with (fm_body v t ++ bodies (parts fm_key fm_body v ts)) in Hlen. rewrite len_app in Hlen.
  assert (0 <= len (fm_body v t) /\ 0 <= len (bodies (parts fm_key fm_body v ts))) as [? ?] by (unfold len; lia).
  apply pwp_bind. eapply pwp_mono; [eapply fm_entry_spec; [exact Ht| |exact Hb]; unfold word; lia|]. intros e a' s' (-> & -> & Hk). apply pwp_bind.
  eapply pwp_mono; [apply (IH (off + len (fm_body v t)) l); [done|lia|lia|]|].
  - apply bytes_app_r, bytes_app_r in Hb. by rewrite len_enc32 in Hb.
  - intros es a2 s2 [-> Hes]. by apply pwp_ret.
Qed.

Lemma wp_bodies v base ts : forall es off s, Forall (fm_ok v) ts -> keys_rep (file s) v off ts es -> bodies_at (file s) base off (parts fm_key fm_body v ts) ->
  wp (parse_bodies (fm_parse v base) es) (fun r s' => exists es' hp, r = Some es' /\ s' = s <| t_heap := hp |> /\ Forall2 (fm_rep (file s) v) ts es') s.
Proof.
  induction ts as [|t ts IH]; intros [|e es] off s Hok Hk Hb; simpl in Hk; try done.
  - apply wp_ret. exists [], (t_heap s). split; [done|]. split; [by destruct s|]. constructor.
  - apply Forall_cons in Hok as [Ht Hts]. destruct Hk as [Hk Hks]. destruct Hb as [Hb Hbs]. simpl. apply wp_bind. eapply wp_mono; [apply (fm_parse_spec v t off base e s Ht Hk Hb)|].
    intros r s' (e' & hp & -> & -> & Hr). apply wp_bind. change (file s) with (file (s <| t_heap := hp |>)) in Hks, Hbs. eapply wp_mono; [apply (IH es (off + len (fm_body v t)) (s <| t_heap := hp |>) Hts Hks Hbs)|].
    intros r s' (es' & hp' & -> & -> & Hrs). apply wp_ret. exists (e' :: es'), hp'. split; [done|]. split; [done|]. by constructor.
Qed.

Lemma wp_block n1 n2 n3 sz1 sz2 v version ts a s : block_ok fm_key fm_body fm_ok v version ts -> a <> 0 -> bytes_at (file s) a (enc_block fm_key fm_body v version ts) ->
  wp (parse_block kalloc n1 n2 n3 sz1 sz2 fm_entry fm_parse a) (fun r s' => exists b hp, r = inr b /\ s' = s <| t_heap := hp |> /\ block_rep fm_rep (file s) v version ts b) s.
Proof.
  intros (Hv & Hver & Hok & Hn & Hlen) Ha Hb. assert (0 <= len ts) by (unfold len; lia). unfold enc_block in *. rewrite len_layout in Hlen. destruct (layout_at _ _ _ _ Hb) as [H1 H2].
  set (off := len (block_header v version (len ts)) + len (directory 0 (parts fm_key fm_body v ts))) in *. unfold block_header in H1. rewrite <- !app_assoc in H1.
  unfold parse_block. destruct (Z.eqb_spec a 0); [done|]. apply wp_bind, wp_kzalloc. intros hd hp1 Hhd. destruct (Z.eqb_spec hd 0); [done|]. set (s1 := s <| t_heap := hp1 |>). change (file s) with (file s1) in *.
  apply wp_bind, wp_parser, pwp_bind. eapply pwp_int; [exact H1|done|]. clear H1. intros H1.
  apply pwp_bind. eapply pwp_word; [exact H1|done|]. clear H1. intros H1. apply pwp_bind. eapply pwp_int; [exact H1|unfold fits; lia|]. clear H1. intros H1. apply pwp_ret.
  apply wp_bind, wp_kcalloc; [lia|]. intros el hp2 Hel. destruct (Z.eqb_spec el 0); [done|]. set (s2 := s1 <| t_heap := hp2 |>). change (file s1) with (file s2) in *.
  apply wp_bind. unfold for_each. replace (Z.to_nat (len ts)) with (length ts) by (unfold len; lia).
  assert (12 <= off) by (unfold off; change (len (block_header v version (len ts))) with 12; unfold len; lia).
  eapply wp_mono; [apply (pwp_directory v ts off _ _ s2 Hok ltac:(lia) ltac:(lia) H1)|]. intros [es a'] s3 [Es3 Hk]. cbn [fst snd] in *. subst s3.
  apply wp_bind. eapply wp_mono; [exact (wp_bodies v a ts es off s2 Hok Hk H2)|]. intros r s4 (es' & hp3 & -> & -> & Hr). apply wp_ret.
  eexists _, hp3. split; [reflexivity|]. split; [done|]. by repeat (split; [done|]).
Qed.
End Block.
