(* ===== verification/EctBlocks.v ===== *)
(** * The blocks of the characteristics table

    For each kind of block the data of an entry, its encoding, what the parsed
    structure has to say about it, and the instance of [Format] that says the
    parser achieves that: integers are read, arrays and strings are pointed to
    where they lie in the file. *)

From S2P Require Import Prelude Ect EctFormat.

(** ** Arrays *)

Definition enc_words (l : list Z) : list Z := concat (enc32 <$> l).
Definition enc_strs (l : list (list Z)) : list Z := concat (enc_str <$> l).
Definition strs_ok (l : list (list Z)) : Prop := Forall (fun t => len t < 2 ^ 31) l /\ len l < 2 ^ 31.

Lemma len_enc_words l : len (enc_words l) = 4 * len l.
Proof.
  unfold enc_words. induction l as [|x l IH]; [done|]. change (concat (enc32 <$> x :: l)) with (enc32 x ++ concat (enc32 <$> l)). rewrite len_app, len_enc32, IH. unfold len. simpl length. lia.
Qed.

Lemma len_nonneg {A} (l : list A) : 0 <= len l.
Proof. unfold len. lia. Qed.

(** A loop over items that are encoded one after the other. *)
Lemma pwp_items {T A} (enc : T -> list Z) (ok : T -> Prop) (p : P A) (rep : Z * list Z -> T -> A -> Prop) ts :
  (forall t l a s, ok t -> bytes_at (file s) a (enc t ++ l) -> pwp p a (fun x a' s' => s' = s /\ a' = a + len (enc t) /\ rep (file s) t x) s) ->
  forall l a s, Forall ok ts -> bytes_at (file s) a (concat (enc <$> ts) ++ l) ->
  pwp (for_each (len ts) p) a (fun r a' s' => s' = s /\ a' = a + len (concat (enc <$> ts)) /\ Forall2 (rep (file s)) ts r) s.
Proof.
  intros Hp. unfold for_each. rewrite (Nat2Z.id (length ts) : Z.to_nat (len ts) = length ts). induction ts as [|t ts IH]; intros l a s Hok Hb; cbn [length repeat_parse].
  - apply pwp_ret. split; [done|]. split; [by rewrite Z.add_0_r|constructor].
  - apply Forall_cons in Hok as [Ht Hts]. change (concat (enc <$> t :: ts)) with (enc t ++ concat (enc <$> ts)) in *. rewrite <- app_assoc in Hb. apply pwp_bind. eapply pwp_mono; [exact (Hp _ _ _ _ Ht Hb)|].
    intros x a' s' (-> & -> & Hx). apply bytes_app_r in Hb. apply pwp_bind. eapply pwp_mono; [exact (IH l _ s Hts Hb)|]. intros r a' s' (-> & -> & Hr). apply pwp_ret. split; [done|]. split; [rewrite len_app; lia|]. by constructor.
Qed.

Lemma pwp_strings ts l a s : Forall (fun t => len t < 2 ^ 31) ts -> bytes_at (file s) a (enc_strs ts ++ l) ->
  pwp (for_each (len ts) ect_parse_string) a (fun r a' s' => s' = s /\ a' = a + len (enc_strs ts) /\ Forall2 (str_at (file s)) (fst <$> r) ts) s.
Proof.
  intros Hok Hb. eapply pwp_mono; [apply (pwp_items enc_str (fun t => len t < 2 ^ 31) ect_parse_string (fun f t r => str_at f (fst r) t) ts) with (l := l); [|done|done]|].
  - intros t l' a' s' Ht Hb'. eapply pwp_string; [exact Hb'|done|]. done.
  - intros r a' s' (-> & -> & Hr). split_and?; try done. apply Forall2_fmap_l, Forall2_flip. exact Hr.
Qed.

Lemma bytes_nil f a l : bytes_at f a l -> bytes_at f a (l ++ []).
Proof. by rewrite app_nil_r. Qed.

Lemma Forall2_same {A} (l l' : list A) : Forall2 (fun x y => y = x) l l' -> l' = l.
Proof. induction 1 as [|x y l l' -> _ IH]; [done|]. by rewrite IH. Qed.

(** Reading the next integer: the bytes that are left are in the same hypothesis. *)
Ltac rd_int H := apply pwp_bind; eapply pwp_int; [exact H|try done; try (unfold fits; lia)|clear H; intros H].
Ltac rd_word H := apply pwp_bind; eapply pwp_word; [exact H|try done; try (unfold word; lia)|clear H; intros H].
(** An array of words at the cursor is passed over. *)
Ltac rd_words H :=
  let H' := fresh in
  pose proof (bytes_app_l _ _ _ _ H) as H'; apply bytes_app_r in H; rewrite len_enc_words in H; apply pwp_bind, pwp_skip; revert H'; intros ?.

(** ** Named entries *)

Definition named_rep {T E} (mk : Z -> Z -> E) (name : T -> list Z) (f : Z * list Z) (v off : Z) (t : T) (e : E) : Prop :=
  exists p, e = mk p off /\ str_at f p (name t).

Lemma pwp_named {T E} (mk : Z -> Z -> E) (name : T -> list Z) v t off l a s : len (name t) < 2 ^ 31 -> word off -> bytes_at (file s) a (enc_str (name t) ++ enc32 off ++ l) ->
  pwp (named mk v) a (fun e a' s' => s' = s /\ a' = a + len (enc_str (name t)) + 4 /\ named_rep mk name (file s) v off t e) s.
Proof.
  intros Ht Ho Hb. unfold named. apply pwp_bind. eapply pwp_string; [exact Hb|done|]. clear Hb. intros Hb Hs. rd_word Hb. apply pwp_ret. split; [done|]. split; [done|]. by eexists.
Qed.

(** ** The data *)

Record dvfs_data := MkDvfsData { dd_name : list Z; dd_max : Z; dd_min : Z; dd_boot : Z; dd_resume : Z; dd_clocks : list (list Z) + list Z; dd_levels : list (Z * Z); dd_values : list Z }.
Record pll_data := MkPllData { pd_name : list Z; pd_type : Z; pd_frequencies : list Z; pd_count : Z }.
Record table_data := MkTableData { td_version : Z; td_boot : Z; td_resume : Z; td_level_en : list Z; td_data : list Z }.
Record grid_data := MkGridData { gd_name : list Z; gd_groups : Z; gd_levels : list Z; gd_tables : list table_data }.
Record thermal_data := MkThermalData { th_name : list Z; th_ranges : list ect_ap_thermal_range }.
Record margin_data := MkMarginData { md_name : list Z; md_groups : Z; md_levels : Z; md_data : list Z }.
Record timing_data := MkTimingData { tm_key : Z; tm_params : Z; tm_levels : Z; tm_data : list Z }.
Record newtiming_data := MkNewTimingData { nm_key : Z; nm_mode : Z; nm_params : Z; nm_levels : Z; nm_data : list Z }.
Record minlock_data := MkMinlockData { mk_name : list Z; mk_levels : list (Z * Z) }.
Record gen_data := MkGenData { gn_name : list Z; gn_col : Z; gn_row : Z; gn_data : list Z }.
Record bin_data := MkBinData { bn_name : list Z; bn_bytes : list Z }.
Record pidtm_data := MkPidtmData { pt_name : list Z; pt_temperatures : list Z; pt_names : list (list Z); pt_values : list Z }.

(** Pairs of words. *)
Definition enc_pairs (l : list (Z * Z)) : list Z := enc_words (concat ((fun x => [fst x; snd x]) <$> l)).

Lemma len_enc_pairs l : len (enc_pairs l) = 8 * len l.
Proof.
  unfold enc_pairs. rewrite len_enc_words. assert (len (concat ((fun x => [fst x; snd x]) <$> l)) = 2 * len l) as ->; [|lia].
  induction l as [|x l IH]; [done|]. change (concat ((fun x => [fst x; snd x]) <$> x :: l)) with ([fst x; snd x] ++ concat ((fun x => [fst x; snd x]) <$> l)). rewrite len_app, IH. unfold len. simpl length. lia.
Qed.

Section Formats.
Context (kalloc : heap -> Z -> option Z) `{!Allocator kalloc} (plenty : forall h n, is_Some (kalloc h n)).

(** The entry is read from its body and nothing else changes but the heap. *)
Lemma wp_body {E} (p : P (Z + E)) (Q : Z + E -> ect_state -> Prop) a s : pwp p a (fun r _ s' => Q r s') s -> wp (let! r := p a in kret (fst r)) Q s.
Proof. intros H. apply wp_bind, wp_parser. eapply pwp_mono; [exact H|]. intros x a' s' HQ. by apply wp_ret. Qed.

Lemma same_heap s : s = s <| t_heap := t_heap s |>.
Proof. by destruct s. Qed.

(** The last structure is built: what is left is what it represents. *)
Ltac built := apply pwp_ret; eexists _, _; split; [reflexivity|]; split; [first [apply same_heap|reflexivity]|]; split_and!; try done.
Ltac at_cursor := apply pwp_bind, pwp_here.
Ltac named_entry := intros v t off l a s (Ht & _) Ho Hb; by eapply pwp_named.

(** ** PLL *)

Definition pll_body (v : Z) (t : pll_data) : list Z := enc32 (pd_type t) ++ enc32 (pd_count t) ++ enc_words (pd_frequencies t).
Definition pll_ok (v : Z) (t : pll_data) : Prop := len (pd_name t) < 2 ^ 31 /\ word (pd_type t) /\ fits (pd_count t).
Definition pll_rep (f : Z * list Z) (v : Z) (t : pll_data) (e : ect_pll) : Prop :=
  str_at f (pl_pll_name e) (pd_name t) /\ pl_type_pll e = pd_type t /\ pl_num_of_frequency e = pd_count t /\ bytes_at f (pl_frequency_list e) (enc_words (pd_frequencies t)).

#[export] Instance pll_format : Format pll_data ect_pll.
Proof using.
  refine {| fm_key _ t := enc_str (pd_name t); fm_body := pll_body; fm_entry := named (fun n o => MkPll n o 0 0 0);
    fm_parse v base e := ect_parse_pll v (base + pl_pll_offset e) e; fm_ok := pll_ok; fm_key_rep := named_rep (fun n o => MkPll n o 0 0 0) pd_name; fm_rep := pll_rep |}.
  - named_entry.
  - intros v t off base e s (_ & H1 & H2) (p & -> & Hp) Hb. unfold pll_body in Hb. apply wp_body. rd_word Hb. rd_int Hb. at_cursor. built.
Defined.

(** ** Margin *)

(** Values as bytes or as words. *)
Definition enc_values (compact : bool) (l : list Z) : list Z := if compact then l else enc_words l.

Definition margin_body (v : Z) (t : margin_data) : list Z := enc32 (md_groups t) ++ enc32 (md_levels t) ++ enc_values (v >=? 2) (md_data t).
Definition margin_ok (v : Z) (t : margin_data) : Prop := len (md_name t) < 2 ^ 31 /\ fits (md_groups t) /\ fits (md_levels t).
Definition margin_rep (f : Z * list Z) (v : Z) (t : margin_data) (e : ect_margin_domain) : Prop :=
  str_at f (mg_domain_name e) (md_name t) /\ mg_num_of_group e = md_groups t /\ mg_num_of_level e = md_levels t /\
  bytes_at f (if v >=? 2 then mg_offset_compact e else mg_offset e) (enc_values (v >=? 2) (md_data t)) /\ mg_volt_step e = (if v >=? 2 then PMIC_VOLTAGE_STEP else 0).

#[export] Instance margin_format : Format margin_data ect_margin_domain.
Proof using.
  refine {| fm_key _ t := enc_str (md_name t); fm_body := margin_body; fm_entry := named (fun n o => MkMargin n o 0 0 0 0 0);
    fm_parse v base e := ect_parse_margin_domain v (base + mg_domain_offset e) e; fm_ok := margin_ok; fm_key_rep := named_rep (fun n o => MkMargin n o 0 0 0 0 0) md_name; fm_rep := margin_rep |}.
  - named_entry.
  - intros v t off base e s (_ & H1 & H2) (p & -> & Hp) Hb. unfold margin_body in Hb. apply wp_body. rd_int Hb. rd_int Hb. at_cursor. unfold margin_rep. destruct (v >=? 2); built.
Defined.

(** ** Minimum locks, general parameters and binaries *)

Definition minlock_body (v : Z) (t : minlock_data) : list Z := enc32 (len (mk_levels t)) ++ enc_pairs (mk_levels t).
Definition minlock_ok (v : Z) (t : minlock_data) : Prop := len (mk_name t) < 2 ^ 31 /\ len (mk_levels t) < 2 ^ 31.
Definition minlock_rep (f : Z * list Z) (v : Z) (t : minlock_data) (e : ect_minlock_domain) : Prop :=
  str_at f (ml_domain_name e) (mk_name t) /\ ml_num_of_level e = len (mk_levels t) /\ bytes_at f (ml_level e) (enc_pairs (mk_levels t)).

#[export] Instance minlock_format : Format minlock_data ect_minlock_domain.
Proof using.
  refine {| fm_key _ t := enc_str (mk_name t); fm_body := minlock_body; fm_entry := named (fun n o => MkMinlock n o 0 0);
    fm_parse v base e := ect_parse_minlock_domain v (base + ml_domain_offset e) e; fm_ok := minlock_ok; fm_key_rep := named_rep (fun n o => MkMinlock n o 0 0) mk_name; fm_rep := minlock_rep |}.
  - named_entry.
  - intros v t off base e s (_ & H1) (p & -> & Hp) Hb. pose proof (len_nonneg (mk_levels t)). unfold minlock_body in Hb. apply wp_body. rd_int Hb. at_cursor. built.
Defined.

Definition gen_body (v : Z) (t : gen_data) : list Z := enc32 (gn_col t) ++ enc32 (gn_row t) ++ enc_words (gn_data t).
Definition gen_ok (v : Z) (t : gen_data) : Prop := len (gn_name t) < 2 ^ 31 /\ fits (gn_col t) /\ fits (gn_row t).
Definition gen_rep (f : Z * list Z) (v : Z) (t : gen_data) (e : ect_gen_param_table) : Prop :=
  str_at f (ge_table_name e) (gn_name t) /\ ge_num_of_col e = gn_col t /\ ge_num_of_row e = gn_row t /\ bytes_at f (ge_parameter e) (enc_words (gn_data t)).

#[export] Instance gen_format : Format gen_data ect_gen_param_table.
Proof using.
  refine {| fm_key _ t := enc_str (gn_name t); fm_body := gen_body; fm_entry := named (fun n o => MkGen n o 0 0 0);
    fm_parse v base e := ect_parse_gen_param_table v (base + ge_offset e) e; fm_ok := gen_ok; fm_key_rep := named_rep (fun n o => MkGen n o 0 0 0) gn_name; fm_rep := gen_rep |}.
  - named_entry.
  - intros v t off base e s (_ & H1 & H2) (p & -> & Hp) Hb. unfold gen_body in Hb. apply wp_body. rd_int Hb. rd_int Hb. at_cursor. built.
Defined.

Definition bin_body (v : Z) (t : bin_data) : list Z := enc32 (len (bn_bytes t)) ++ bn_bytes t.
Definition bin_ok (v : Z) (t : bin_data) : Prop := len (bn_name t) < 2 ^ 31 /\ len (bn_bytes t) < 2 ^ 31.
Definition bin_rep (f : Z * list Z) (v : Z) (t : bin_data) (e : ect_bin) : Prop :=
  str_at f (bi_binary_name e) (bn_name t) /\ bi_binary_size e = len (bn_bytes t) /\ bytes_at f (bi_ptr e) (bn_bytes t).

#[export] Instance bin_format : Format bin_data ect_bin.
Proof using.
  refine {| fm_key _ t := enc_str (bn_name t); fm_body := bin_body; fm_entry := named (fun n o => MkBin n o 0 0);
    fm_parse v base e := ect_parse_bin v (base + bi_offset e) e; fm_ok := bin_ok; fm_key_rep := named_rep (fun n o => MkBin n o 0 0) bn_name; fm_rep := bin_rep |}.
  - named_entry.
  - intros v t off base e s (_ & H1) (p & -> & Hp) Hb. pose proof (len_nonneg (bn_bytes t)). unfold bin_body in Hb. apply wp_body. rd_int Hb. at_cursor. built.
Defined.

(** ** Memory timing *)

(** The key is a memory size, or 64 bits wide in the later versions. *)
Definition timing_key (v : Z) (t : timing_data) : list Z := if v >=? 3 then enc64 (tm_key t) else enc32 (tm_key t).
Definition timing_body (v : Z) (t : timing_data) : list Z := enc32 (tm_params t) ++ enc32 (tm_levels t) ++ enc_words (tm_data t).
Definition timing_ok (v : Z) (t : timing_data) : Prop := 0 <= tm_key t < (if v >=? 3 then 2 ^ 64 else 2 ^ 32) /\ fits (tm_params t) /\ fits (tm_levels t).
Definition timing_rep (f : Z * list Z) (v : Z) (t : timing_data) (e : ect_timing_param_size) : Prop :=
  ti_parameter_key e = tm_key t /\ ti_memory_size e = u32 (tm_key t) /\ ti_num_of_timing_param e = tm_params t /\ ti_num_of_level e = tm_levels t /\ bytes_at f (ti_timing_parameter e) (enc_words (tm_data t)).

#[export] Instance timing_format : Format timing_data ect_timing_param_size.
Proof using.
  refine {| fm_key := timing_key; fm_body := timing_body; fm_entry := timing_entry; fm_parse v base e := ect_parse_timing_param_size v (base + ti_offset e) e;
    fm_ok := timing_ok; fm_key_rep _ _ off t e := e = MkTiming (u32 (tm_key t)) (tm_key t) off 0 0 0; fm_rep := timing_rep |}.
  - intros v t off l a s (Hk & _) Ho Hb. unfold timing_key, timing_entry in *. apply pwp_bind. destruct (v >=? 3); apply pwp_bind.
    + eapply pwp_integer64; [exact Hb|done|]. clear Hb. intros Hb. apply pwp_ret. rd_word Hb. by apply pwp_ret.
    + eapply pwp_word; [exact Hb|done|]. clear Hb. intros Hb. apply pwp_ret. rd_word Hb. apply pwp_ret. split_and?; try done. by rewrite (u32_small (tm_key t)).
  - intros v t off base e s (_ & H1 & H2) -> Hb. unfold timing_body in Hb. apply wp_body. rd_int Hb. rd_int Hb. at_cursor. built.
Defined.

Definition newtiming_body (v : Z) (t : newtiming_data) : list Z := enc32 (nm_mode t) ++ enc32 (nm_params t) ++ enc32 (nm_levels t) ++ enc_words (nm_data t).
Definition newtiming_ok (v : Z) (t : newtiming_data) : Prop := 0 <= nm_key t < 2 ^ 64 /\ word (nm_mode t) /\ fits (nm_params t) /\ fits (nm_levels t).
Definition newtiming_rep (f : Z * list Z) (v : Z) (t : newtiming_data) (e : ect_new_timing_param_size) : Prop :=
  nt_parameter_key e = nm_key t /\ nt_mode e = nm_mode t /\ nt_num_of_timing_param e = nm_params t /\ nt_num_of_level e = nm_levels t /\ bytes_at f (nt_timing_parameter e) (enc_words (nm_data t)).

#[export] Instance newtiming_format : Format newtiming_data ect_new_timing_param_size.
Proof using.
  refine {| fm_key _ t := enc64 (nm_key t); fm_body := newtiming_body; fm_entry := new_timing_entry; fm_parse v base e := ect_parse_new_timing_param_size v (base + nt_offset e) e;
    fm_ok := newtiming_ok; fm_key_rep _ _ off t e := e = MkNewTiming (nm_key t) off 0 0 0 0; fm_rep := newtiming_rep |}.
  - intros v t off l a s (Hk & _) Ho Hb. unfold new_timing_entry. apply pwp_bind. eapply pwp_integer64; [exact Hb|done|]. clear Hb. intros Hb. rd_word Hb. by apply pwp_ret.
  - intros v t off base e s (_ & H0 & H1 & H2) -> Hb. unfold newtiming_body in Hb. apply wp_body. rd_word Hb. rd_int Hb. rd_int Hb. at_cursor. built.
Defined.

(** ** Thermal functions *)

Definition enc_range (r : ect_ap_thermal_range) : list Z := enc32 (ra_lower r) ++ enc32 (ra_upper r) ++ enc32 (ra_max_frequency r) ++ enc32 (ra_sw_trip r) ++ enc32 (ra_flag r).
Definition range_ok (r : ect_ap_thermal_range) : Prop := word (ra_lower r) /\ word (ra_upper r) /\ word (ra_max_frequency r) /\ word (ra_sw_trip r) /\ word (ra_flag r).
Definition thermal_body (v : Z) (t : thermal_data) : list Z := enc32 (len (th_ranges t)) ++ concat (enc_range <$> th_ranges t).
Definition thermal_ok (v : Z) (t : thermal_data) : Prop := len (th_name t) < 2 ^ 31 /\ len (th_ranges t) < 2 ^ 31 /\ Forall range_ok (th_ranges t).
Definition thermal_rep (f : Z * list Z) (v : Z) (t : thermal_data) (e : ect_ap_thermal_function) : Prop :=
  str_at f (fu_function_name e) (th_name t) /\ fu_num_of_range e = len (th_ranges t) /\ snd (fu_range_list e) = th_ranges t.

#[export] Instance thermal_format : Format thermal_data ect_ap_thermal_function.
Proof.
  refine {| fm_key _ t := enc_str (th_name t); fm_body := thermal_body; fm_entry := named (fun n o => MkFunction n o 0 (0, []));
    fm_parse v base e := ect_parse_ap_thermal_function kalloc v (base + fu_function_offset e) e; fm_ok := thermal_ok; fm_key_rep := named_rep (fun n o => MkFunction n o 0 (0, [])) th_name; fm_rep := thermal_rep |}.
  - named_entry.
  - intros v t off base e s (_ & H1 & H2) (p & -> & Hp) Hb. pose proof (len_nonneg (th_ranges t)). unfold thermal_body in Hb. apply wp_body. rd_int Hb. apply pwp_bind, pwp_effect, wp_kcalloc; [done|done|lia|].
    intros rl hp Hrl. set (s1 := s <| t_heap := hp |>). change (file s) with (file s1) in *. rewrite <- (app_nil_r (concat _)) in Hb.
    apply pwp_bind. eapply pwp_mono; [apply (pwp_items enc_range range_ok) with (rep := fun _ r x => x = r) (l := []); [|done|exact Hb]|].
    + intros r l a s' (E1 & E2 & E3 & E4 & E5) Hr. unfold enc_range in Hr. rewrite <- !app_assoc in Hr. rd_word Hr. rd_word Hr. rd_word Hr. rd_word Hr. rd_word Hr.
      destruct (Z.eqb_spec rl 0); [done|]. apply pwp_ret. split_and?; [done| |by destruct r]. change (len (enc_range r)) with 20. lia.
    + intros r a' s' (-> & -> & Hr). built. by apply Forall2_same.
Defined.

(** ** PID control *)

Definition pidtm_body (v : Z) (t : pidtm_data) : list Z :=
  enc32 (len (pt_temperatures t)) ++ enc_words (pt_temperatures t) ++ enc32 (len (pt_names t)) ++ enc_strs (pt_names t) ++ enc_words (pt_values t).
Definition pidtm_ok (v : Z) (t : pidtm_data) : Prop := len (pt_name t) < 2 ^ 31 /\ len (pt_temperatures t) < 2 ^ 31 /\ strs_ok (pt_names t).
Definition pidtm_rep (f : Z * list Z) (v : Z) (t : pidtm_data) (e : ect_pidtm_block) : Prop :=
  str_at f (pi_block_name e) (pt_name t) /\ pi_num_of_temperature e = len (pt_temperatures t) /\ bytes_at f (pi_temperature_list e) (enc_words (pt_temperatures t)) /\
  pi_num_of_parameter e = len (pt_names t) /\ Forall2 (str_at f) (snd (pi_param_name_list e)) (pt_names t) /\ bytes_at f (pi_param_value_list e) (enc_words (pt_values t)).

#[export] Instance pidtm_format : Format pidtm_data ect_pidtm_block.
Proof.
  refine {| fm_key _ t := enc_str (pt_name t); fm_body := pidtm_body; fm_entry := named (fun n o => MkPidtm n o 0 0 0 (0, []) 0);
    fm_parse v base e := ect_parse_pidtm_block kalloc v (base + pi_offset e) e; fm_ok := pidtm_ok; fm_key_rep := named_rep (fun n o => MkPidtm n o 0 0 0 (0, []) 0) pt_name; fm_rep := pidtm_rep |}.
  - named_entry.
  - intros v t off base e s (_ & H1 & H2 & H3) (p & -> & Hp) Hb. pose proof (len_nonneg (pt_temperatures t)). pose proof (len_nonneg (pt_names t)). unfold pidtm_body in Hb. apply wp_body. rd_int Hb.
    at_cursor. rd_words Hb. rd_int Hb. apply pwp_bind, pwp_effect, wp_kcalloc; [done|done|lia|]. intros nl hp Hnl. change (file s) with (file (s <| t_heap := hp |>)) in *. destruct (Z.eqb_spec nl 0); [done|].
    apply pwp_bind. eapply pwp_mono; [exact (pwp_strings _ _ _ _ H2 Hb)|]. intros r a' s' (-> & -> & Hr). apply bytes_app_r in Hb. at_cursor. built.
Defined.

(** ** Frequency domains *)

(** Clocks are names, or addresses from version 3 on. *)
Definition dvfs_mode (t : dvfs_data) : Z := match dd_clocks t with inl _ => e_dvfs_mode_clock_name | inr _ => e_dvfs_mode_sfr_address end.
Definition clocks (t : dvfs_data) : Z := match dd_clocks t with inl l => len l | inr l => len l end.
Definition enc_clocks (t : dvfs_data) : list Z := match dd_clocks t with inl l => enc_strs l | inr l => enc_words l end.
Definition dvfs_body (v : Z) (t : dvfs_data) : list Z :=
  enc32 (dd_max t) ++ enc32 (dd_min t) ++ (if v >=? 2 then enc32 (dd_boot t) ++ enc32 (dd_resume t) else []) ++ (if v >=? 3 then enc32 (dvfs_mode t) else []) ++
  enc32 (clocks t) ++ enc32 (len (dd_levels t)) ++ enc_clocks t ++ enc_pairs (dd_levels t) ++ enc_words (dd_values t).
Definition dvfs_ok (v : Z) (t : dvfs_data) : Prop :=
  len (dd_name t) < 2 ^ 31 /\ word (dd_max t) /\ word (dd_min t) /\ (if v >=? 2 then fits (dd_boot t) /\ fits (dd_resume t) else dd_boot t = -1 /\ dd_resume t = -1) /\
  len (dd_levels t) < 2 ^ 31 /\ clocks t < 2 ^ 31 /\ match dd_clocks t with inl l => Forall (fun t => len t < 2 ^ 31) l | inr _ => (v >=? 3) = true end.
Definition dvfs_rep (f : Z * list Z) (v : Z) (t : dvfs_data) (e : ect_dvfs_domain) : Prop :=
  str_at f (dv_domain_name e) (dd_name t) /\ dv_max_frequency e = dd_max t /\ dv_min_frequency e = dd_min t /\ dv_boot_level_idx e = dd_boot t /\ dv_resume_level_idx e = dd_resume t /\
  dv_num_of_clock e = clocks t /\ dv_num_of_level e = len (dd_levels t) /\ dv_mode e = dvfs_mode t /\
  match dd_clocks t with inl l => Forall2 (str_at f) (snd (dv_list_clock e)) l | inr l => bytes_at f (dv_list_sfr e) (enc_words l) end /\
  bytes_at f (dv_list_level e) (enc_pairs (dd_levels t)) /\ bytes_at f (dv_list_dvfs_value e) (enc_words (dd_values t)).

(** The level indices and the mode are there from their versions on. *)
Lemma pwp_levels v boot resume l a s : (if v >=? 2 then fits boot /\ fits resume else boot = -1 /\ resume = -1) -> bytes_at (file s) a ((if v >=? 2 then enc32 boot ++ enc32 resume else []) ++ l) ->
  pwp (if v >=? 2 then rd! boot := parse_int in rd! resume := parse_int in pret (boot, resume) else pret (-1, -1)) a (fun x a' s' => s' = s /\ x = (boot, resume) /\ bytes_at (file s) a' l) s.
Proof.
  intros Hf Hb. destruct (v >=? 2); destruct Hf as [Hf1 Hf2]; [|subst; by apply pwp_ret]. rewrite <- app_assoc in Hb. rd_int Hb. rd_int Hb. by apply pwp_ret.
Qed.

Lemma pwp_mode v t l a s : dvfs_ok v t -> bytes_at (file s) a ((if v >=? 3 then enc32 (dvfs_mode t) else []) ++ l) ->
  pwp (if v >=? 3 then ect_parse_integer else pret e_dvfs_mode_clock_name) a (fun x a' s' => s' = s /\ x = dvfs_mode t /\ bytes_at (file s) a' l) s.
Proof.
  intros (_ & _ & _ & _ & _ & _ & Hc) Hb. unfold dvfs_mode in *. destruct (v >=? 3) eqn:Ev.
  - eapply pwp_word; [exact Hb|by destruct (dd_clocks t)|]. done.
  - destruct (dd_clocks t); [by apply pwp_ret|done].
Qed.

Lemma pwp_clocks v t l a s d : dvfs_ok v t -> bytes_at (file s) a (enc_clocks t ++ l) ->
  pwp (if dvfs_mode t =? e_dvfs_mode_sfr_address then rd! list_sfr := here in rd! _ := skip (4 * clocks t) in pret (inr ((0, []), list_sfr))
       else if dvfs_mode t =? e_dvfs_mode_clock_name then
         rd! list_clock := effect (kcalloc_ kalloc (clocks t) 8) in
         if list_clock =? 0 then pret (inl (- ENOMEM)) else rd! names := for_each (clocks t) ect_parse_string in pret (inr ((list_clock, fst <$> names), 0))
       else pret (inr d)) a
    (fun x a' s' => exists lc ls hp, x = inr (lc, ls) /\ s' = s <| t_heap := hp |> /\ bytes_at (file s) a' l /\
      match dd_clocks t with inl l => Forall2 (str_at (file s)) (snd lc) l | inr l => bytes_at (file s) ls (enc_words l) end) s.
Proof.
  intros (_ & _ & _ & _ & _ & _ & Hc) Hb. unfold dvfs_mode, enc_clocks, clocks in *. destruct (dd_clocks t) as [ns|ws]; cbn [Z.eqb Pos.eqb e_dvfs_mode_sfr_address e_dvfs_mode_clock_name].
  - apply pwp_bind, pwp_effect, wp_kcalloc; [done|done|apply len_nonneg|]. intros lc hp Hlc. destruct (Z.eqb_spec lc 0); [done|]. change (file s) with (file (s <| t_heap := hp |>)) in *.
    apply pwp_bind. eapply pwp_mono; [exact (pwp_strings _ _ _ _ Hc Hb)|]. intros r a' s' (-> & -> & Hr). apply bytes_app_r in Hb. apply pwp_ret. by eexists _, _, hp.
  - at_cursor. rd_words Hb. apply pwp_ret. eexists _, _, (t_heap s). split; [done|]. split; [apply same_heap|]. done.
Qed.

#[export] Instance dvfs_format : Format dvfs_data ect_dvfs_domain.
Proof.
  refine {| fm_key _ t := enc_str (dd_name t); fm_body := dvfs_body; fm_entry := named (fun n o => MkDvfs n o 0 0 0 0 0 0 0 (0, []) 0 0 0);
    fm_parse v base e := ect_parse_dvfs_domain kalloc v (base + dv_domain_offset e) e; fm_ok := dvfs_ok; fm_key_rep := named_rep (fun n o => MkDvfs n o 0 0 0 0 0 0 0 (0, []) 0 0 0) dd_name; fm_rep := dvfs_rep |}.
  - named_entry.
  - intros v t off base e s Hok (p & -> & Hp) Hb. pose proof Hok as (_ & H1 & H2 & H3 & H4 & H5 & _). pose proof (len_nonneg (dd_levels t)).
    assert (0 <= clocks t) by (unfold clocks; destruct (dd_clocks t); apply len_nonneg). unfold dvfs_body in Hb. apply wp_body. rd_word Hb. rd_word Hb.
    apply pwp_bind. eapply pwp_mono; [exact (pwp_levels _ _ _ _ _ _ H3 Hb)|]. clear Hb. intros x a s' (-> & -> & Hb). apply pwp_bind. eapply pwp_mono; [exact (pwp_mode _ _ _ _ _ Hok Hb)|]. clear Hb. intros x a2 s' (-> & -> & Hb).
    rd_int Hb. rd_int Hb. apply pwp_bind. eapply pwp_mono; [exact (pwp_clocks _ _ _ _ _ _ Hok Hb)|]. clear Hb. intros x a3 s' (lc & ls & hp & -> & -> & Hb & Hc).
    apply pwp_bind, pwp_here. pose proof (bytes_app_l _ _ _ _ Hb). apply bytes_app_r in Hb. rewrite len_enc_pairs in Hb. apply pwp_bind, pwp_skip. at_cursor. built.
Defined.

(** ** Voltages and RCC values

    Tables of a value per group and level. *)

Definition table_ok (v groups levels : Z) (t : table_data) : Prop := fits (td_version t) /\ len (td_data t) = groups * levels /\ fits (groups * levels).

Lemma pwp_values (c : bool) {A} groups levels (t : table_data) (k : unit -> P A) l a Q s : len (td_data t) = groups * levels -> fits (groups * levels) -> bytes_at (file s) a (enc_values c (td_data t) ++ l) ->
  (bytes_at (file s) a (enc_values c (td_data t)) -> pwp (k tt) (a + len (enc_values c (td_data t))) Q s) ->
  pwp (pbind (skip (if c then s32 (groups * levels) else 4 * s32 (groups * levels))) k) a Q s.
Proof.
  intros Hl Hf Hb Hk. pose proof (bytes_app_l _ _ _ _ Hb) as H1. apply pwp_bind, pwp_skip. replace (s32 (groups * levels)) with (len (td_data t)).
  - specialize (Hk H1). destruct c; [exact Hk|]. unfold enc_values in Hk. by rewrite len_enc_words in Hk.
  - rewrite Hl. unfold s32, fits in *. Z.to_euclidean_division_equations. lia.
Qed.

Definition voltage_ok (v groups levels : Z) (t : table_data) : Prop :=
  table_ok v groups levels t /\ (if v >=? 2 then fits (td_boot t) /\ fits (td_resume t) /\ len (td_level_en t) = levels else td_boot t = -1 /\ td_resume t = -1 /\ td_level_en t = []).
Definition enc_voltage (v : Z) (t : table_data) : list Z :=
  enc32 (td_version t) ++ (if v >=? 2 then enc32 (td_boot t) ++ enc32 (td_resume t) ++ enc_words (td_level_en t) else []) ++ enc_values (v >=? 3) (td_data t).
Definition voltage_rep (v : Z) (f : Z * list Z) (t : table_data) (e : ect_voltage_table) : Prop :=
  vt_table_version e = td_version t /\ vt_boot_level_idx e = td_boot t /\ vt_resume_level_idx e = td_resume t /\ ((v >=? 2) = true -> bytes_at f (vt_level_en e) (enc_words (td_level_en t))) /\
  bytes_at f (if v >=? 3 then vt_voltages_step e else vt_voltages e) (enc_values (v >=? 3) (td_data t)) /\ vt_volt_step e = (if v >=? 3 then PMIC_VOLTAGE_STEP else 0).

Lemma pwp_voltage v groups levels t l a s : voltage_ok v groups levels t -> bytes_at (file s) a (enc_voltage v t ++ l) ->
  pwp (ect_parse_voltage_table v groups levels) a (fun x a' s' => s' = s /\ a' = a + len (enc_voltage v t) /\ voltage_rep v (file s) t x) s.
Proof.
  intros ((H1 & H2 & H3) & H4) Hb. unfold enc_voltage, ect_parse_voltage_table in *. rewrite !len_app, len_enc32. rewrite <- !app_assoc in Hb. rd_int Hb. apply pwp_bind.
  eapply (pwp_mono _ _ (fun x a' s' => s' = s /\ x.1.1 = td_boot t /\ x.1.2 = td_resume t /\ ((v >=? 2) = true -> bytes_at (file s) x.2 (enc_words (td_level_en t))) /\
    a' = a + 4 + len (if v >=? 2 then enc32 (td_boot t) ++ enc32 (td_resume t) ++ enc_words (td_level_en t) else []) /\ bytes_at (file s) a' (enc_values (v >=? 3) (td_data t) ++ l))).
  - destruct (v >=? 2); destruct H4 as (H4 & H5 & H6); [|rewrite H4, H5; apply pwp_ret; split_and?; try done; by rewrite Z.add_0_r].
    rewrite <- !app_assoc in Hb. rd_int Hb. rd_int Hb. at_cursor. rewrite <- H6. rd_words Hb. apply pwp_ret. rewrite !len_app, !len_enc32, len_enc_words. split_and?; try done. cbn [snd]. lia.
  - intros [[bo re] le] a' s' (-> & E1 & E2 & E3 & -> & Hb'). cbn [fst snd] in *. subst. at_cursor. destruct (v >=? 3) eqn:Ev.
    + apply (pwp_values true groups levels t _ l); [done..|]. intros Hd. apply pwp_ret. split_and?; [done|lia|]. split_and!; try done; by rewrite Ev.
    + apply (pwp_values false groups levels t _ l); [done..|]. intros Hd. apply pwp_ret. split_and?; [done|lia|]. split_and!; try done; by rewrite Ev.
Qed.

Definition enc_rcc (v : Z) (t : table_data) : list Z := enc32 (td_version t) ++ enc_values (v >=? 2) (td_data t).
Definition rcc_rep (v : Z) (f : Z * list Z) (t : table_data) (e : ect_rcc_table) : Prop :=
  rt_table_version e = td_version t /\ bytes_at f (if v >=? 2 then rt_rcc_compact e else rt_rcc e) (enc_values (v >=? 2) (td_data t)).

Lemma pwp_rcc v groups levels t l a s : table_ok v groups levels t -> bytes_at (file s) a (enc_rcc v t ++ l) ->
  pwp (ect_parse_rcc_table v groups levels) a (fun x a' s' => s' = s /\ a' = a + len (enc_rcc v t) /\ rcc_rep v (file s) t x) s.
Proof.
  intros (H1 & H2 & H3) Hb. unfold enc_rcc, ect_parse_rcc_table in *. rewrite len_app, len_enc32. rewrite <- !app_assoc in Hb. rd_int Hb. at_cursor. destruct (v >=? 2) eqn:Ev.
  - apply (pwp_values true groups levels t _ l); [done..|]. intros Hd. apply pwp_ret. split_and?; [done|lia|]. split_and!; try done; by rewrite Ev.
  - apply (pwp_values false groups levels t _ l); [done..|]. intros Hd. apply pwp_ret. split_and?; [done|lia|]. split_and!; try done; by rewrite Ev.
Qed.

(** The domains: the levels, and the tables one after the other. *)
Definition grid_body (enc : Z -> table_data -> list Z) (v : Z) (t : grid_data) : list Z :=
  enc32 (gd_groups t) ++ enc32 (len (gd_levels t)) ++ enc32 (len (gd_tables t)) ++ enc_words (gd_levels t) ++ concat (enc v <$> gd_tables t).
Definition grid_ok (ok : Z -> Z -> Z -> table_data -> Prop) (v : Z) (t : grid_data) : Prop :=
  len (gd_name t) < 2 ^ 31 /\ fits (gd_groups t) /\ len (gd_levels t) < 2 ^ 31 /\ len (gd_tables t) < 2 ^ 31 /\ Forall (ok v (gd_groups t) (len (gd_levels t))) (gd_tables t).
Definition asv_rep (f : Z * list Z) (v : Z) (t : grid_data) (e : ect_voltage_domain) : Prop :=
  str_at f (vd_domain_name e) (gd_name t) /\ vd_num_of_group e = gd_groups t /\ vd_num_of_level e = len (gd_levels t) /\ vd_num_of_table e = len (gd_tables t) /\
  bytes_at f (vd_level_list e) (enc_words (gd_levels t)) /\ Forall2 (voltage_rep v f) (gd_tables t) (snd (vd_table_list e)).
Definition rccs_rep (f : Z * list Z) (v : Z) (t : grid_data) (e : ect_rcc_domain) : Prop :=
  str_at f (rd_domain_name e) (gd_name t) /\ rd_num_of_group e = gd_groups t /\ rd_num_of_level e = len (gd_levels t) /\ rd_num_of_table e = len (gd_tables t) /\
  bytes_at f (rd_level_list e) (enc_words (gd_levels t)) /\ Forall2 (rcc_rep v f) (gd_tables t) (snd (rd_table_list e)).

(** The table parser given, both domains are parsed alike. *)
Ltac grid_entry enc ok rep item :=
  intros v t off base e s (_ & H1 & H2 & H3 & H4) (p & -> & Hp) Hb; pose proof (len_nonneg (gd_levels t)); pose proof (len_nonneg (gd_tables t)); unfold grid_body in Hb; apply wp_body;
  rd_int Hb; rd_int Hb; rd_int Hb; at_cursor; rd_words Hb; apply pwp_bind, pwp_effect, wp_kcalloc; [done|done|lia|]; intros tl hp Htl; destruct (Z.eqb_spec tl 0); [done|];
  change (file s) with (file (s <| t_heap := hp |>)) in *; apply bytes_nil in Hb;
  apply pwp_bind; eapply pwp_mono; [apply (pwp_items (enc v) (ok v (gd_groups t) (len (gd_levels t))) _ (rep v)) with (l := []); [intros; by eapply item|done|exact Hb]|];
  intros r a' s' (-> & -> & Hr); built.

#[export] Instance asv_format : Format grid_data ect_voltage_domain.
Proof.
  refine {| fm_key _ t := enc_str (gd_name t); fm_body := grid_body enc_voltage; fm_entry := named (fun n o => MkVoltageDomain n o 0 0 0 0 (0, []));
    fm_parse v base e := ect_parse_voltage_domain kalloc v (base + vd_domain_offset e) e; fm_ok := grid_ok voltage_ok; fm_key_rep := named_rep (fun n o => MkVoltageDomain n o 0 0 0 0 (0, [])) gd_name; fm_rep := asv_rep |}.
  - named_entry.
  - grid_entry enc_voltage voltage_ok voltage_rep pwp_voltage.
Defined.

#[export] Instance rcc_format : Format grid_data ect_rcc_domain.
Proof.
  refine {| fm_key _ t := enc_str (gd_name t); fm_body := grid_body enc_rcc; fm_entry := named (fun n o => MkRccDomain n o 0 0 0 0 (0, []));
    fm_parse v base e := ect_parse_rcc_domain kalloc v (base + rd_domain_offset e) e; fm_ok := grid_ok table_ok; fm_key_rep := named_rep (fun n o => MkRccDomain n o 0 0 0 0 (0, [])) gd_name; fm_rep := rccs_rep |}.
  - named_entry.
  - grid_entry enc_rcc table_ok rcc_rep pwp_rcc.
Defined.
End Formats.
