(* ===== verification/EctSpec.v ===== *)
(** * The characteristics table as a whole

    A file of blocks is parsed into a table in which every kind of block is
    represented by the last block of that kind, and the lookups find the first
    entry with the name they are given. *)

From S2P Require Import Prelude Ect EctFormat EctBlocks.

(** ** The contents of a file *)

Inductive data :=
| DApThermal (v version : Z) (ts : list thermal_data) | DAsv (v version : Z) (ts : list grid_data) | DDvfs (v version : Z) (ts : list dvfs_data) | DMargin (v version : Z) (ts : list margin_data)
| DMifThermal (v version n : Z) (levels : list Z) | DPll (v version : Z) (ts : list pll_data) | DRcc (v version : Z) (ts : list grid_data) | DTiming (v version : Z) (ts : list timing_data)
| DMinlock (v version : Z) (ts : list minlock_data) | DGen (v version : Z) (ts : list gen_data) | DBin (v version : Z) (ts : list bin_data) | DNewTiming (v version : Z) (ts : list newtiming_data)
| DPidtm (v version : Z) (ts : list pidtm_data).

#[export] Instance kind_eq : EqDecision kind.
Proof. solve_decision. Defined.

Definition kind_of (d : data) : kind :=
  match d with
  | DApThermal _ _ _ => KApThermal | DAsv _ _ _ => KAsv | DDvfs _ _ _ => KDvfs | DMargin _ _ _ => KMargin | DMifThermal _ _ _ _ => KMifThermal | DPll _ _ _ => KPll | DRcc _ _ _ => KRcc
  | DTiming _ _ _ => KTiming | DMinlock _ _ _ => KMinlock | DGen _ _ _ => KGen | DBin _ _ _ => KBin | DNewTiming _ _ _ => KNewTiming | DPidtm _ _ _ => KPidtm
  end.

(** Entries with a name have it as their key. *)
Definition by_name {T} (name : T -> list Z) (v : Z) (t : T) : list Z := enc_str (name t).

Definition enc_data (d : data) : list Z :=
  match d with
  | DApThermal v w ts => enc_block (by_name th_name) thermal_body v w ts
  | DAsv v w ts => enc_block (by_name gd_name) (grid_body enc_voltage) v w ts
  | DDvfs v w ts => enc_block (by_name dd_name) dvfs_body v w ts
  | DMargin v w ts => enc_block (by_name md_name) margin_body v w ts
  | DMifThermal v w n levels => block_header v w n ++ enc_words levels
  | DPll v w ts => enc_block (by_name pd_name) pll_body v w ts
  | DRcc v w ts => enc_block (by_name gd_name) (grid_body enc_rcc) v w ts
  | DTiming v w ts => enc_block timing_key timing_body v w ts
  | DMinlock v w ts => enc_block (by_name mk_name) minlock_body v w ts
  | DGen v w ts => enc_block (by_name gn_name) gen_body v w ts
  | DBin v w ts => enc_block (by_name bn_name) bin_body v w ts
  | DNewTiming v w ts => enc_block (fun _ t => enc64 (nm_key t)) newtiming_body v w ts
  | DPidtm v w ts => enc_block (by_name pt_name) pidtm_body v w ts
  end.

Definition data_ok (d : data) : Prop :=
  match d with
  | DApThermal v w ts => block_ok (by_name th_name) thermal_body thermal_ok v w ts
  | DAsv v w ts => block_ok (by_name gd_name) (grid_body enc_voltage) (grid_ok voltage_ok) v w ts
  | DDvfs v w ts => block_ok (by_name dd_name) dvfs_body dvfs_ok v w ts
  | DMargin v w ts => block_ok (by_name md_name) margin_body margin_ok v w ts
  | DMifThermal v w n levels => fits v /\ word w /\ fits n
  | DPll v w ts => block_ok (by_name pd_name) pll_body pll_ok v w ts
  | DRcc v w ts => block_ok (by_name gd_name) (grid_body enc_rcc) (grid_ok table_ok) v w ts
  | DTiming v w ts => block_ok timing_key timing_body timing_ok v w ts
  | DMinlock v w ts => block_ok (by_name mk_name) minlock_body minlock_ok v w ts
  | DGen v w ts => block_ok (by_name gn_name) gen_body gen_ok v w ts
  | DBin v w ts => block_ok (by_name bn_name) bin_body bin_ok v w ts
  | DNewTiming v w ts => block_ok (fun _ t => enc64 (nm_key t)) newtiming_body newtiming_ok v w ts
  | DPidtm v w ts => block_ok (by_name pt_name) pidtm_body pidtm_ok v w ts
  end.

Definition mif_rep (f : Z * list Z) (v version n : Z) (levels : list Z) (b : ect_mif_thermal_header) : Prop :=
  mi_parser_version b = v /\ mi_version b = version /\ mi_num_of_level b = n /\ bytes_at f (mi_level b) (enc_words levels).

Definition data_rep (f : Z * list Z) (d : data) (h : handle) : Prop :=
  match d, h with
  | DApThermal v w ts, HApThermal b => block_rep thermal_rep f v w ts b
  | DAsv v w ts, HAsv b => block_rep asv_rep f v w ts b
  | DDvfs v w ts, HDvfs b => block_rep dvfs_rep f v w ts b
  | DMargin v w ts, HMargin b => block_rep margin_rep f v w ts b
  | DMifThermal v w n levels, HMifThermal b => mif_rep f v w n levels b
  | DPll v w ts, HPll b => block_rep pll_rep f v w ts b
  | DRcc v w ts, HRcc b => block_rep rccs_rep f v w ts b
  | DTiming v w ts, HTiming b => block_rep timing_rep f v w ts b
  | DMinlock v w ts, HMinlock b => block_rep minlock_rep f v w ts b
  | DGen v w ts, HGen b => block_rep gen_rep f v w ts b
  | DBin v w ts, HBin b => block_rep bin_rep f v w ts b
  | DNewTiming v w ts, HNewTiming b => block_rep newtiming_rep f v w ts b
  | DPidtm v w ts, HPidtm b => block_rep pidtm_rep f v w ts b
  | _, _ => False
  end.

(** ** Blocks *)

Section Parsing.
Context (kalloc : heap -> Z -> option Z) `{!Allocator kalloc} (plenty : forall h n, is_Some (kalloc h n)).

Lemma wp_mif v w n levels a s : data_ok (DMifThermal v w n levels) -> a <> 0 -> bytes_at (file s) a (enc_data (DMifThermal v w n levels)) ->
  wp (ect_parse_mif_thermal_header kalloc a) (fun r s' => exists b hp, r = inr b /\ s' = s <| t_heap := hp |> /\ mif_rep (file s) v w n levels b) s.
Proof.
  intros (H1 & H2 & H3) Ha Hb. cbn [enc_data] in Hb. unfold block_header in Hb. rewrite <- !app_assoc in Hb. unfold ect_parse_mif_thermal_header. destruct (Z.eqb_spec a 0); [done|].
  apply wp_bind, wp_kzalloc; [done..|]. intros hd hp Hhd. destruct (Z.eqb_spec hd 0); [done|]. change (file s) with (file (s <| t_heap := hp |>)) in *. apply wp_body.
  apply pwp_bind. eapply pwp_int; [exact Hb|done|]. clear Hb. intros Hb. apply pwp_bind. eapply pwp_word; [exact Hb|done|]. clear Hb. intros Hb. apply pwp_bind. eapply pwp_int; [exact Hb|done|]. clear Hb. intros Hb.
  apply pwp_bind, pwp_here, pwp_ret. by eexists _, hp.
Qed.

Ltac by_parser H := eapply wp_mono; [exact H|intros r s' (b & hp & -> & -> & Hr); apply wp_ret; by eexists _, hp].
Ltac by_format F Hok Ha Hb := by_parser uconstr:(wp_block (H := F) kalloc plenty _ _ _ _ _ _ _ _ _ _ Hok Ha Hb).

(** Each parser makes a handle that represents the block it is given. *)
Lemma wp_parser_of d a s : data_ok d -> a <> 0 -> bytes_at (file s) a (enc_data d) ->
  wp (parser_of kalloc (kind_of d) a) (fun r s' => exists h hp, r = inr h /\ s' = s <| t_heap := hp |> /\ data_rep (file s) d h) s.
Proof.
  intros Hok Ha Hb. destruct d; cbn [kind_of parser_of]; apply wp_bind.
  - by_format (thermal_format kalloc plenty) Hok Ha Hb.
  - by_format (asv_format kalloc plenty) Hok Ha Hb.
  - by_format (dvfs_format kalloc plenty) Hok Ha Hb.
  - by_format margin_format Hok Ha Hb.
  - by_parser uconstr:(wp_mif _ _ _ _ _ _ Hok Ha Hb).
  - by_format pll_format Hok Ha Hb.
  - by_format (rcc_format kalloc plenty) Hok Ha Hb.
  - by_format timing_format Hok Ha Hb.
  - by_format minlock_format Hok Ha Hb.
  - by_format gen_format Hok Ha Hb.
  - by_format bin_format Hok Ha Hb.
  - by_format newtiming_format Hok Ha Hb.
  - by_format (pidtm_format kalloc plenty) Hok Ha Hb.
Qed.
End Parsing.

(** ** Names *)

Definition kind_name (k : kind) : string :=
  match k with
  | KApThermal => "THERMAL" | KAsv => "ASV" | KDvfs => "DVFS" | KMargin => "MARGIN" | KMifThermal => "MR4" | KPll => "PLL" | KRcc => "RCC" | KTiming => "TIMING"
  | KMinlock => "MINLOCK" | KGen => "GEN" | KBin => "BIN" | KNewTiming => "NEWTIME" | KPidtm => "PIDTM"
  end.
Definition kind_idx (k : kind) : nat :=
  match k with
  | KApThermal => 0 | KAsv => 1 | KDvfs => 2 | KMargin => 3 | KMifThermal => 4 | KPll => 5 | KRcc => 6 | KTiming => 7
  | KMinlock => 8 | KGen => 9 | KBin => 10 | KNewTiming => 11 | KPidtm => 12
  end.
Definition kinds : list kind := in_parser <$> ect_list.

Lemma kinds_at k : kinds !! kind_idx k = Some k.
Proof. by destruct k. Qed.
Lemma kinds_inv j k : kinds !! j = Some k -> j = kind_idx k.
Proof. intros H. do 13 (destruct j as [|j]; [by simplify_eq/=|]). done. Qed.

(** No name is a prefix of another, and none has a zero. *)
Lemma kind_names_apart k k' : k <> k' -> ~ bytes_of (kind_name k) `prefix_of` bytes_of (kind_name k').
Proof. intros Hk. destruct k, k'; try done; intros H; apply (bool_decide_pack _) in H; vm_compute in H; done. Qed.
Lemma kind_name_nonzero k : Forall (fun c => c <> 0) (bytes_of (kind_name k)).
Proof. destruct k; by apply (bool_decide_unpack _). Qed.
Lemma kind_name_short k : len (bytes_of (kind_name k)) < 2 ^ 31.
Proof. by destruct k. Qed.

Lemma wp_strncmp0 t : forall u a (Q : bool -> ect_state -> Prop) s, Forall (fun c => c <> 0) t -> str_at (file s) a u -> Q (bool_decide (t `prefix_of` u)) s -> wp (strncmp0_at t a) Q s.
Proof.
  induction t as [|x t IH]; intros u a Q s Ht Hu HQ; cbn [strncmp0_at]; [apply wp_ret; by rewrite bool_decide_eq_true_2 in HQ by apply prefix_nil|]. apply Forall_cons in Ht as [Hx Ht].
  destruct u as [|y u]; unfold str_at in Hu; cbn [app] in Hu; apply read8_at in Hu as [Er Hu]; apply wp_bind; (eapply wp_eq; [exact Er|]).
  - destruct (Z.eqb_spec 0 x); [done|]. apply wp_ret. rewrite bool_decide_eq_false_2 in HQ; [done|]. intros [k Hk]. done.
  - destruct (Z.eqb_spec y x) as [->|Hn].
    + apply (IH u _ Q s Ht Hu). erewrite bool_decide_ext; [exact HQ|]. split; [apply prefix_cons|apply prefix_cons_inv_2].
    + apply wp_ret. rewrite bool_decide_eq_false_2 in HQ; [done|]. intros H%prefix_cons_inv_1. done.
Qed.

(** ** The file *)

(** The blocks of a file; those with another name are passed over. *)
Inductive file_block := Known (d : data) | Unknown (name content : list Z).

Definition block_name (b : file_block) : list Z := match b with Known d => bytes_of (kind_name (kind_of d)) | Unknown n _ => n end.
Definition block_bytes (b : file_block) : list Z := match b with Known d => enc_data d | Unknown _ c => c end.
Definition file_block_ok (b : file_block) : Prop :=
  match b with Known d => data_ok d | Unknown n _ => len n < 2 ^ 31 /\ forall k, ~ bytes_of (kind_name k) `prefix_of` n end.

Definition file_header (version total n : Z) : list Z := enc32 ect_signature ++ enc32 version ++ enc32 total ++ enc32 n.
Definition file_parts (bs : list file_block) : list (list Z * list Z) := (fun b => (enc_str (block_name b), block_bytes b)) <$> bs.
Definition enc_file (version total : Z) (bs : list file_block) : list Z := layout (file_header version total (len bs)) (file_parts bs).
Definition file_ok (version total : Z) (bs : list file_block) : Prop :=
  word version /\ word total /\ Forall file_block_ok bs /\ len bs < 2 ^ 31 /\ len (enc_file version total bs) < 2 ^ 32.

(** Of the blocks of a kind the last counts. *)
Definition of_kind (k : kind) (b : file_block) : option data := match b with Known d => if decide (kind_of d = k) then Some d else None | Unknown _ _ => None end.
Definition last_block (k : kind) (bs : list file_block) : option data := last (omap (of_kind k) bs).

Definition info_rep (f : Z * list Z) (bs : list file_block) (k : kind) (i : ect_info) : Prop :=
  in_block_name i = kind_name k /\ in_parser i = k /\
  match last_block k bs with Some d => exists h, in_block_handle i = Some h /\ data_rep f d h | None => in_block_handle i = None end.
Definition table_rep (f : Z * list Z) (bs : list file_block) (l : list ect_info) : Prop := Forall2 (info_rep f bs) kinds l.

Lemma last_block_snoc k bs b : last_block k (bs ++ [b]) = match of_kind k b with Some d => Some d | None => last_block k bs end.
Proof. unfold last_block. rewrite omap_app. simpl. destruct (of_kind k b); [by rewrite last_snoc|by rewrite app_nil_r]. Qed.

Lemma table_rep_at f bs l k : table_rep f bs l -> exists i, l !! kind_idx k = Some i /\ info_rep f bs k i.
Proof. intros H. destruct (Forall2_lookup_l _ _ _ _ _ H (kinds_at k)) as (i & Hi & Hr). by exists i. Qed.

Lemma table_rep_length f bs l : table_rep f bs l -> length l = 13%nat.
Proof. intros H%Forall2_length. done. Qed.

(** A block that is not known changes nothing. *)
Lemma table_rep_unknown f bs b l : (forall k, of_kind k b = None) -> table_rep f bs l -> table_rep f (bs ++ [b]) l.
Proof. intros Hb Hl. eapply Forall2_impl; [exact Hl|]. intros k i (H1 & H2 & H3). split_and!; [done..|]. by rewrite last_block_snoc, Hb. Qed.

(** One that is known replaces the handle of its kind. *)
Lemma table_rep_known f bs d l i h n : l !! kind_idx (kind_of d) = Some i -> data_rep f d h -> table_rep f bs l ->
  table_rep f (bs ++ [Known d]) (<[kind_idx (kind_of d) := i <| in_block_handle := Some h |> <| in_block_precedence := n |>]> l).
Proof.
  intros Hi Hd Hl. apply Forall2_same_length_lookup. split; [rewrite length_insert; by apply Forall2_length in Hl|]. intros j k x Hk Hx.
  destruct (Forall2_lookup_l _ _ _ _ _ Hl Hk) as (y & Hy & H1 & H2 & H3). apply kinds_inv in Hk. subst j. rewrite list_lookup_insert_Some in Hx. unfold info_rep. rewrite last_block_snoc. cbn [of_kind].
  destruct Hx as [(E & <- & _)|(E & Hx)].
  - assert (k = kind_of d) as -> by (pose proof (kinds_at k); pose proof (kinds_at (kind_of d)); congruence). rewrite decide_True by done. rewrite Hi in Hy. injection Hy as ->. split_and!; try done. by exists h.
  - rewrite decide_False by congruence. rewrite Hx in Hy. injection Hy as ->. done.
Qed.

Section Whole.
Context (kalloc : heap -> Z -> option Z) `{!Allocator kalloc} (plenty : forall h n, is_Some (kalloc h n)).

Lemma match_none f bs js js' name n off i Q s : table_rep f bs (t_list s) -> str_at (file s) name n ->
  Forall (fun j => exists k, kinds !! j = Some k /\ ~ bytes_of (kind_name k) `prefix_of` n) js ->
  wp (match_blocks kalloc js' name off i) Q s -> wp (match_blocks kalloc (js ++ js') name off i) Q s.
Proof.
  intros Hl Hn Hjs HQ. induction Hjs as [|j js (k & Hk & Hp) _ IH]; [done|]. cbn [app match_blocks]. apply wp_bind, wp_get. destruct (Forall2_lookup_l _ _ _ _ _ Hl Hk) as (x & -> & H1 & _).
  apply wp_bind. rewrite H1. apply (wp_strncmp0 _ n); [apply kind_name_nonzero|done|]. by rewrite bool_decide_eq_false_2.
Qed.

(** The inner loop installs the block under its own name and under no other. *)
Lemma wp_match bs b name off i s : file_block_ok b -> table_rep (file s) bs (t_list s) -> str_at (file s) name (block_name b) -> 0 < t_base s -> 0 <= off -> bytes_at (file s) (t_base s + off) (block_bytes b) ->
  wp (match_blocks kalloc (seq 0 (length (t_list s))) name off i)
    (fun r s' => exists hp l, r = true /\ s' = s <| t_heap := hp |> <| t_list := l |> /\ table_rep (file s) (bs ++ [b]) l) s.
Proof.
  intros Hok Hl Hn Hbase Hoff Hb. rewrite (table_rep_length _ _ _ Hl). destruct b as [d|n c]; cbn [block_name block_bytes file_block_ok] in *.
  - assert (Hseq : seq 0 13 = seq 0 (kind_idx (kind_of d)) ++ kind_idx (kind_of d) :: (seq (S (kind_idx (kind_of d))) (12 - kind_idx (kind_of d)) ++ [])) by (rewrite app_nil_r; by destruct d).
    assert (Hother : forall j, j <> kind_idx (kind_of d) -> (j < 13)%nat -> exists k, kinds !! j = Some k /\ ~ bytes_of (kind_name k) `prefix_of` bytes_of (kind_name (kind_of d))).
    { intros j Hj Hlt. destruct (lookup_lt_is_Some_2 kinds j Hlt) as [k Hk]. exists k. split; [done|]. apply kind_names_apart. intros ->. by apply kinds_inv in Hk. }
    assert (kind_idx (kind_of d) < 13)%nat as Hlt by (destruct d; cbn; lia). rewrite Hseq. clear Hseq.
    eapply match_none; [exact Hl|exact Hn|apply Forall_seq; intros j Hj; apply Hother; lia|]. cbn [match_blocks]. destruct (table_rep_at _ _ _ (kind_of d) Hl) as (x & Hx & H1 & H2 & H3). apply wp_bind, wp_get. rewrite Hx. apply wp_bind. rewrite H1.
    apply (wp_strncmp0 _ (bytes_of (kind_name (kind_of d)))); [apply kind_name_nonzero|done|]. rewrite bool_decide_eq_true_2 by done. cbn [negb]. rewrite H2. apply wp_bind.
    eapply wp_mono; [apply (wp_parser_of kalloc plenty d (t_base s + off) s Hok); [lia|done]|]. intros r s' (h & hp & -> & -> & Hr). apply wp_bind, wp_mod.
    pose proof (table_rep_known _ _ _ _ _ h i Hx Hr Hl) as Hl'. eapply match_none; [exact Hl'|exact Hn|apply Forall_seq; intros j Hj; apply Hother; lia|]. apply wp_ret. by eexists hp, _.
  - destruct Hok as [_ Hok]. rewrite <- (app_nil_r (seq 0 13)). eapply match_none; [exact Hl|exact Hn|apply Forall_seq; intros j Hj|].
    + destruct (lookup_lt_is_Some_2 kinds j ltac:(simpl; lia)) as [k Hk]. by exists k.
    + apply wp_ret. exists (t_heap s), (t_list s). split; [done|]. split; [by destruct s|]. by apply table_rep_unknown.
Qed.

Lemma block_name_short b : file_block_ok b -> len (block_name b) < 2 ^ 31.
Proof. destruct b as [d|n c]; [intros _; apply kind_name_short|by intros [? _]]. Qed.

Lemma wp_blocks bs : forall bs0 off i l a s, Forall file_block_ok bs -> table_rep (file s) bs0 (t_list s) -> 0 < t_base s -> 0 <= off -> off + len (bodies (file_parts bs)) < 2 ^ 32 ->
  bytes_at (file s) a (directory off (file_parts bs) ++ l) -> bodies_at (file s) (t_base s) off (file_parts bs) ->
  wp (parse_blocks kalloc (length bs) i a) (fun r s' => exists hp l, r = true /\ s' = s <| t_heap := hp |> <| t_list := l |> /\ table_rep (file s) (bs0 ++ bs) l) s.
Proof.
  induction bs as [|b bs IH]; intros bs0 off i l a s Hok Hl Hbase Hoff Hlen Hd Hb; cbn [length parse_blocks].
  { apply wp_ret. exists (t_heap s), (t_list s). split; [done|]. split; [by destruct s|]. by rewrite app_nil_r. }
  apply Forall_cons in Hok as [Hok Hoks]. change (file_parts (b :: bs)) with ((enc_str (block_name b), block_bytes b) :: file_parts bs) in *. cbn [directory bodies_at] in *. destruct Hb as [Hb Hbs].
  change (bodies ((enc_str (block_name b), block_bytes b) :: file_parts bs)) with (block_bytes b ++ bodies (file_parts bs)) in Hlen. rewrite len_app in Hlen.
  pose proof (len_nonneg (block_bytes b)). pose proof (len_nonneg (bodies (file_parts bs))). rewrite <- !app_assoc in Hd. apply wp_bind, wp_parser. apply pwp_bind.
  eapply pwp_string; [exact Hd|by apply block_name_short|]. clear Hd. intros Hd Hn. rd_word Hd. apply pwp_ret. cbn [fst]. apply wp_bind, wp_get, wp_bind.
  eapply wp_mono; [exact (wp_match bs0 b _ off i s Hok Hl Hn Hbase Hoff Hb)|]. intros r s' (hp & tl & -> & -> & Hl').
  change (file s) with (file (s <| t_heap := hp |> <| t_list := tl |>)) in *. eapply wp_mono; [apply (IH (bs0 ++ [b]) (off + len (block_bytes b)) _ l); try done; lia|].
  intros r s' (hp' & tl' & -> & -> & Hl2). exists hp', tl'. split; [done|]. split; [done|]. by rewrite <- app_assoc in Hl2.
Qed.

(** Before parsing the table represents a file without blocks. *)
Lemma table_rep_nil f : table_rep f [] ect_list.
Proof. unfold table_rep, ect_list, kinds. simpl. repeat constructor. Qed.

Lemma wp_file version total bs s : file_ok version total bs -> 0 < t_base s -> t_list s = ect_list -> bytes_at (file s) (t_base s) (enc_file version total bs) ->
  wp (ect_parse_binary_header kalloc) (fun r s' => r = 0 /\ file s' = file s /\ table_rep (file s) bs (t_list s') /\
    exists h, t_header s' = Some h /\ hd_version h = version /\ hd_num_of_header h = len bs) s.
Proof.
  intros (Hv & Ht & Hok & Hn & Hlen) Hbase Hl Hb. pose proof (len_nonneg bs). unfold enc_file in *. rewrite len_layout in Hlen. destruct (layout_at _ _ _ _ Hb) as [H1 H2]. clear Hb.
  set (off := len (file_header version total (len bs)) + len (directory 0 (file_parts bs))) in *. assert (0 <= off) by (unfold off; change (len (file_header version total (len bs))) with 16; unfold len; lia).
  unfold file_header in H1. rewrite <- !app_assoc in H1. unfold ect_parse_binary_header. apply wp_bind, wp_get. destruct (Z.eqb_spec (t_base s) 0); [lia|].
  apply wp_bind, wp_kzalloc; [done..|]. intros hd hp Hhd. destruct (Z.eqb_spec hd 0); [done|]. set (s1 := s <| t_heap := hp |>). change (file s) with (file s1) in *. change (t_base s) with (t_base s1) in *.
  apply wp_bind, wp_parser. rd_word H1. rd_word H1. rd_word H1. rd_int H1. apply pwp_ret. cbn [hd_sign]. rewrite Z.eqb_refl. cbn [negb hd_num_of_header].
  apply wp_bind. replace (Z.to_nat (len bs)) with (length bs) by (unfold len; lia). assert (Hl0 : table_rep (file s1) [] (t_list s1)) by (change (t_list s1) with (t_list s); rewrite Hl; apply table_rep_nil).
  eapply wp_mono; [apply (wp_blocks bs [] off 0 (bodies (file_parts bs)) _ s1); try done; lia|].
  intros r s' (hp' & l & -> & -> & Hr). apply wp_bind, wp_mod, wp_ret. split_and!; try done. by eexists.
Qed.
End Whole.
