(* ===== verification/EctLookup.v ===== *)
(** * Lookups in the characteristics table

    What the rest of the kernel sees after the table has been parsed: the block of
    a kind, and in it the first entry with a name. *)

From S2P Require Import Prelude Ect EctFormat EctBlocks EctSpec.

(** ** Comparing names *)

Definition nonzero (t : list Z) : Prop := Forall (fun c => c <> 0) t.

Lemma wp_strcmp t : forall u a s, nonzero t -> nonzero u -> str_at (file s) a u -> wp (strcmp_at t a) (fun r s' => s' = s /\ (r = 0 <-> t = u)) s.
Proof.
  induction t as [|x t IH]; intros [|y u] a s Ht Hu Hs; unfold str_at in Hs; cbn [app] in Hs; apply read8_at in Hs as [Er Hs]; cbn [strcmp_at]; apply wp_bind; (eapply wp_eq; [exact Er|]).
  - by apply wp_ret.
  - apply Forall_cons in Hu as [Hy _]. apply wp_ret. split; [done|]. by destruct (Z.eqb_spec y 0).
  - apply Forall_cons in Ht as [Hx _]. destruct (Z.eqb_spec x 0); [done|]. apply wp_ret. split; [done|]. by destruct (x <? 0).
  - apply Forall_cons in Ht as [Hx Ht]. apply Forall_cons in Hu as [Hy Hu]. destruct (Z.eqb_spec x y) as [->|Hn].
    + eapply wp_mono; [exact (IH u _ s Ht Hu Hs)|]. intros r s' [-> Hr]. split; [done|]. rewrite Hr. split; congruence.
    + apply wp_ret. split; [done|]. destruct (x <? y); split; congruence.
Qed.

Section Lookup.
Context {T E : Type} (name_of : E -> Z) (nm : T -> list Z).

(** The first entry with the name, in terms of the data and of the entries. *)
Definition first_of (name : string) (ts : list T) (es : list E) : option E :=
  match list_find (fun t => nm t = bytes_of name) ts with Some (i, _) => es !! i | None => None end.

Lemma wp_first_named name ts : forall es s, nonzero (bytes_of name) -> Forall (fun t => nonzero (nm t)) ts -> Forall2 (fun t e => str_at (file s) (name_of e) (nm t)) ts es ->
  wp (first_named name_of name es) (fun r s' => s' = s /\ r = first_of name ts es) s.
Proof.
  induction ts as [|t ts IH]; intros es s Hn Hts Hes; inversion Hes as [|? e ? es' He Hes']; subst; cbn [first_named]; [by apply wp_ret|]. apply Forall_cons in Hts as [Ht Hts].
  apply wp_bind. eapply wp_mono; [exact (wp_strcmp _ _ _ s Hn Ht He)|]. intros r s' [-> Hr]. unfold first_of. cbn [list_find]. destruct (Z.eqb_spec r 0) as [E0|E0].
  - apply wp_ret. rewrite decide_True by (symmetry; by apply Hr). done.
  - rewrite decide_False by (intros E1; by apply E0, Hr). eapply wp_mono; [exact (IH es' s Hn Hts Hes')|]. intros r' s' [-> ->]. split; [done|]. unfold first_of. destruct (list_find _ ts) as [[i x]|]; done.
Qed.

(** An entry that is found represents the first data with the name. *)
Lemma first_of_rep (rep : T -> E -> Prop) name ts es : Forall2 rep ts es ->
  match list_find (fun t => nm t = bytes_of name) ts with Some (_, t) => exists e, first_of name ts es = Some e /\ rep t e | None => first_of name ts es = None end.
Proof.
  intros H. unfold first_of. destruct (list_find _ ts) as [[i t]|] eqn:Ef; [|done]. apply list_find_Some in Ef as (Hi & _). destruct (Forall2_lookup_l _ _ _ _ _ H Hi) as (e & He & Hr). by exists e.
Qed.

(** What a lookup says of the data: [NULL] exactly when no entry has the name. *)
Definition found (rep : T -> E -> Prop) (name : string) (ts : list T) (r : option E) : Prop :=
  match list_find (fun t => nm t = bytes_of name) ts with Some (_, t) => exists e, r = Some e /\ rep t e | None => r = None end.

Lemma wp_get_named (of_handle : handle -> option (block E)) (rep : Z * list Z -> Z -> T -> E -> Prop) name v version ts h b s :
  (forall f t e, rep f v t e -> str_at f (name_of e) (nm t)) -> of_handle h = Some b -> nonzero (bytes_of name) -> Forall (fun t => nonzero (nm t)) ts -> block_rep rep (file s) v version ts b ->
  wp (get_named name_of of_handle (Some h) (Some name)) (fun r s' => s' = s /\ found (rep (file s) v) name ts r) s.
Proof.
  intros Hrep Hh Hn Hts (_ & _ & _ & Hb). unfold get_named. rewrite Hh. eapply wp_mono; [apply (wp_first_named name ts); [done..|]|].
  - eapply Forall2_impl; [exact Hb|]. intros t e He. by eapply Hrep.
  - intros r s' [-> ->]. split; [done|]. by apply first_of_rep.
Qed.
End Lookup.

(** ** Blocks *)

Lemma wp_get_block f bs k s : table_rep f bs (t_list s) ->
  wp (ect_get_block (kind_name k)) (fun r s' => s' = s /\ match last_block k bs with Some d => exists h, r = Some h /\ data_rep f d h | None => r = None end) s.
Proof.
  intros Hl. destruct (table_rep_at _ _ _ k Hl) as (x & Hx & H1 & H2 & H3). unfold ect_get_block. apply wp_bind, wp_get, wp_ret. split; [done|].
  assert (list_find (fun i => in_block_name i = kind_name k) (t_list s) = Some (kind_idx k, x)) as ->; [|done]. apply list_find_Some. split_and!; [done|done|].
  intros j y Hy Hj Hyn. destruct (lookup_lt_is_Some_2 kinds j) as [k' Hk']; [apply lookup_lt_Some in Hy; by rewrite (table_rep_length _ _ _ Hl) in Hy|].
  destruct (Forall2_lookup_l _ _ _ _ _ Hl Hk') as (y' & Hy' & Hn & _). rewrite Hy in Hy'. injection Hy' as <-. apply kinds_inv in Hk'. subst j. assert (k' = k); [|subst; lia].
  destruct (decide (k' = k)); [done|]. exfalso. apply (kind_names_apart k' k); [done|]. by rewrite <- Hn, Hyn.
Qed.

Section Properties.
Context (kalloc : heap -> Z -> option Z) `{!Allocator kalloc} (plenty : forall h n, is_Some (kalloc h n)).

(** The table is parsed and then a block is asked for. *)
Definition parse_and_get (name : string) : ECT (Z * option handle) :=
  let! ret := ect_parse_binary_header kalloc in let! h := ect_get_block name in kret (ret, h).

(** C19. Parsing inverts the encoding of the table: when a well-formed file of blocks
    in any order and number, of known names and of unknown ones that do not begin
    with a known one, is in memory and memory can be allocated, parsing it succeeds and changes nothing of the file, and the
    block of each of the thirteen kinds is then [NULL] when the file has none, and
    otherwise a structure that represents the last block of that kind: versions,
    numbers, names, arrays and tables of every entry as they were encoded. *)
Theorem parse_represents_file version total bs k s : file_ok version total bs -> 0 < t_base s -> t_list s = ect_list -> bytes_at (file s) (t_base s) (enc_file version total bs) ->
  wp (parse_and_get (kind_name k)) (fun r s' => fst r = 0 /\ file s' = file s /\
    match last_block k bs with Some d => exists h, snd r = Some h /\ data_rep (file s) d h | None => snd r = None end) s.
Proof.
  intros Hok Hbase Hl Hb. apply wp_bind. eapply wp_mono; [by eapply (wp_file kalloc plenty)|]. intros r s' (-> & Hf & Hr & _). apply wp_bind. eapply wp_mono; [exact (wp_get_block _ _ k _ Hr)|].
  intros h s'' [-> Hh]. by apply wp_ret.
Qed.

(** The driver of the clocks asks for a domain. *)
Definition get_dvfs_domain (name : string) : ECT (option ect_dvfs_domain) :=
  let! r := parse_and_get "DVFS" in ect_dvfs_get_domain (snd r) (Some name).

(** C20. The lookup of a frequency domain after the table of a well-formed file has been parsed returns
    the first entry of the last [DVFS] block that has the name, with the clocks,
    levels and values of the file, and [NULL] exactly when there is none. *)
Theorem dvfs_domain_found version total bs v w ts name s : file_ok version total bs -> 0 < t_base s -> t_list s = ect_list -> bytes_at (file s) (t_base s) (enc_file version total bs) ->
  last_block KDvfs bs = Some (DDvfs v w ts) -> nonzero (bytes_of name) -> Forall (fun t => nonzero (dd_name t)) ts ->
  wp (get_dvfs_domain name) (fun r s' => file s' = file s /\ found dd_name (dvfs_rep (file s) v) name ts r) s.
Proof.
  intros Hok Hbase Hl Hb Hlast Hn Hts. apply wp_bind, wp_bind. eapply wp_mono; [by eapply (wp_file kalloc plenty)|]. intros r s' (-> & Hf & Hr & _). apply wp_bind.
  eapply wp_mono; [exact (wp_get_block _ _ KDvfs _ Hr)|]. intros h s'' [-> Hh]. apply wp_ret. cbn [snd]. rewrite Hlast in Hh. destruct Hh as (x & -> & Hx). destruct x; try done. rewrite <- Hf in Hx |- *.
  eapply wp_mono; [apply (wp_get_named dv_domain_name dd_name _ dvfs_rep name v w ts _ b); [by intros f t e []|done..]|]. by intros e s'' [-> He].
Qed.

End Properties.

(** A file with another signature is refused: the result is [-EINVAL], the
    header that was allocated is freed, and neither the table nor anything else
    has changed. *)
Theorem bad_signature_refused kalloc `{!Allocator kalloc} sign version total n l p s :
  word sign -> word version -> word total -> fits n -> sign <> ect_signature -> 0 < t_base s -> kalloc (t_heap s) 16 = Some p -> p <> ZERO_SIZE_PTR ->
  bytes_at (file s) (t_base s) (enc32 sign ++ enc32 version ++ enc32 total ++ enc32 n ++ l) ->
  wp (ect_parse_binary_header kalloc) (fun r s' => r = - EINVAL /\ s' = s) s.
Proof.
  intros H1 H2 H3 H4 Hn Hbase Hp Hz Hb. unfold ect_parse_binary_header. apply wp_bind, wp_get. destruct (Z.eqb_spec (t_base s) 0); [lia|].
  destruct (kzalloc_fresh _ _ _ Hp) as [Hp0 Hfresh]. apply wp_bind. eapply wp_eq; [unfold kzalloc_; rewrite Hp; reflexivity|]. destruct (Z.eqb_spec p 0); [lia|].
  set (s1 := s <| t_heap := <[p := []]> (t_heap s) |>). change (file s) with (file s1) in Hb. apply wp_bind, wp_parser. rd_word Hb. rd_word Hb. rd_word Hb. rd_int Hb. apply pwp_ret. cbn [hd_sign].
  destruct (Z.eqb_spec sign ect_signature); [done|]. cbn [negb]. apply wp_bind. eapply wp_eq; [unfold kfree_; rewrite (proj2 (Z.eqb_neq p 0)), (proj2 (Z.eqb_neq p ZERO_SIZE_PTR)) by done;
    cbn [orb]; change (t_heap s1) with (<[p := ([] : list Z)]> (t_heap s)); rewrite lookup_insert_eq; reflexivity|].
  apply wp_ret. split; [done|]. unfold s1. rewrite delete_insert_id by done. by destruct s.
Qed.
