(* ===== verification/EctCases.v ===== *)
(** * The characteristics table on concrete files

    A file with frequency domains, clock generators and a block the parser does not
    know; what the lookups return on it; and what the code does when memory runs
    out, when the file ends early, and when a name only begins like that of a
    block. *)

From S2P Require Import Prelude Ect EctFormat EctBlocks EctSpec EctLookup.

(** ** A file *)

Definition mif : dvfs_data := MkDvfsData (bytes_of "dvfs_mif") 3172000 421000 0 2 (inl [bytes_of "MIF"; bytes_of "DDRPHY"]) [(3172000, 1); (421000, 1)] [3172; 1; 421; 2].
Definition cpu : dvfs_data := MkDvfsData (bytes_of "dvfs_cpucl0") 1803000 300000 1 1 (inr [0x1000; 0x2000; 0x3000]) [(1803000, 1)] [7; 8; 9].
Definition example_blocks : list file_block :=
  [Unknown (bytes_of "FUTURE") [1; 2; 3]; Known (DPll 1 0 [MkPllData (bytes_of "PLL_MIF") 1417 [26000; 1; 2; 3; 4] 1]); Known (DDvfs 3 0 []); Known (DDvfs 3 0x31303030 [mif; cpu])].

Definition in_memory (img : list Z) : ect_state := MkEct 0x10000 img ∅ ect_list None.
Definition example_state : ect_state := in_memory (enc_file 7 0 example_blocks).

Lemma in_memory_at img : bytes_at (file (in_memory img)) (t_base (in_memory img)) img.
Proof. split; [done|]. intros i b Hi. cbn [file in_memory fst snd t_base t_img]. by rewrite Z.sub_diag. Qed.

Lemma bump_plenty h n : is_Some (bump_alloc h n).
Proof. by eexists. Qed.

(** Comparisons of closed numbers. *)
Ltac closed := vm_compute; repeat split; discriminate.

Lemma not_future k : ~ bytes_of (kind_name k) `prefix_of` bytes_of "FUTURE".
Proof. destruct k; intros H; apply (bool_decide_pack _) in H; vm_compute in H; done. Qed.

Lemma example_ok : file_ok 7 0 example_blocks.
Proof.
  split; [closed|]. split; [closed|]. split; [|split; closed]. repeat (apply Forall_cons; split); [| | | |constructor].
  - split; [closed|]. exact not_future.
  - split; [closed|]. split; [closed|]. split; [|split; closed]. apply Forall_singleton. split; [closed|]. split; closed.
  - split; [closed|]. split; [closed|]. split; [constructor|split; closed].
  - split; [closed|]. split; [closed|]. split; [|split; closed]. repeat (apply Forall_cons; split); [| |constructor].
    + do 6 (split; [closed|]). repeat (apply Forall_cons; split); [closed..|constructor].
    + do 6 (split; [closed|]). done.
Qed.

Lemma parse_represents_file_witness :
  wp (parse_and_get bump_alloc (kind_name KDvfs)) (fun r s' => fst r = 0 /\ file s' = file example_state /\
    match last_block KDvfs example_blocks with Some d => exists h, snd r = Some h /\ data_rep (file example_state) d h | None => snd r = None end) example_state.
Proof. exact (parse_represents_file bump_alloc bump_plenty 7 0 example_blocks KDvfs example_state example_ok eq_refl eq_refl (in_memory_at _)). Defined.

Lemma dvfs_domain_found_witness :
  wp (get_dvfs_domain bump_alloc "dvfs_cpucl0") (fun r s' => file s' = file example_state /\ found dd_name (dvfs_rep (file example_state) 3) "dvfs_cpucl0" [mif; cpu] r) example_state.
Proof.
  refine (dvfs_domain_found bump_alloc bump_plenty 7 0 example_blocks 3 0x31303030 [mif; cpu] "dvfs_cpucl0" example_state example_ok eq_refl eq_refl (in_memory_at _) eq_refl _ _).
  - by apply (bool_decide_unpack _).
  - by apply (bool_decide_unpack _).
Defined.

(** What is found, and the value read behind one of its pointers. *)
Definition seen {A B} (m : ECT (option A)) (see : A -> ECT B) (s : ect_state) : option (option B) :=
  match m s with Done (Some x) s' => match see x s' with Done y _ => Some (Some y) | _ => None end | Done None _ => Some None | _ => None end.

Example cpu_found : seen (get_dvfs_domain bump_alloc "dvfs_cpucl0") (fun e => let! v := __raw_readl (dv_list_dvfs_value e + 8) in let! c := __raw_readl (dv_list_sfr e + 4) in kret (dv_max_frequency e, dv_resume_level_idx e, v, c)) example_state = Some (Some (1803000, 1, 9, 0x2000)).
Proof. reflexivity. Qed.
Example gpu_not_found : seen (get_dvfs_domain bump_alloc "dvfs_g3d") kret example_state = Some None.
Proof. reflexivity. Qed.
Example no_asv_block : seen (let! r := parse_and_get bump_alloc "ASV" in kret (snd r)) kret example_state = Some None.
Proof. reflexivity. Qed.

(** Read back as one value, the way 64-bit parameters are. *)
Example values_of_64_bits : (let s := in_memory (enc64 0x123456789abcdef0 ++ enc64 7) in ect_read_value64 (t_base s) 1 s) = Done 7 (in_memory (enc64 0x123456789abcdef0 ++ enc64 7)).
Proof. reflexivity. Qed.

(** ** Errors *)

Definition foreign : ect_state := in_memory (enc32 0x464c457f ++ enc32 7 ++ enc32 0 ++ enc32 0 ++ []).

Lemma bad_signature_refused_witness : wp (ect_parse_binary_header bump_alloc) (fun r s' => r = - EINVAL /\ s' = foreign) foreign.
Proof. refine (bad_signature_refused bump_alloc 0x464c457f 7 0 0 [] 1 foreign _ _ _ _ _ eq_refl eq_refl _ (in_memory_at _)); closed. Defined.

Definition faults {A} (m : ECT A) (s : ect_state) : bool := match m s with Fault => true | _ => false end.

(** Nothing is compared with the size of the memory the table is in: a file that
    is shorter than its header says, or than its offsets, is read past its end. *)
Lemma truncated_file_faults : faults (ect_parse_binary_header bump_alloc) (in_memory (take 100 (enc_file 7 0 example_blocks))) = true.
Proof. by vm_compute. Qed.

(** The memory for the header is used without a check. *)
Lemma header_allocation_unchecked kalloc s : t_base s <> 0 -> kalloc (t_heap s) 16 = None -> ect_parse_binary_header kalloc s = Fault.
Proof. intros Hb Hk. unfold ect_parse_binary_header, kbind, kget. rewrite (proj2 (Z.eqb_neq _ _) Hb). unfold kzalloc_. by rewrite Hk. Qed.

(** As is that for the ranges of a thermal function. *)
Definition no_ranges (h : heap) (n : Z) : option Z := if n =? 60 then None else bump_alloc h n.
Definition big : thermal_data := MkThermalData (bytes_of "BIG") [MkRange 0 85 2802000 95 1; MkRange 85 95 1803000 95 1; MkRange 95 115 700000 95 1].
Definition thermal_state : ect_state := in_memory (enc_file 7 0 [Known (DApThermal 1 0 [big])]).
Lemma ranges_unchecked : faults (ect_parse_binary_header no_ranges) thermal_state = true /\ faults (ect_parse_binary_header bump_alloc) thermal_state = false.
Proof. by vm_compute. Qed.

(** When the second domain cannot be parsed the list of clocks of the first stays
    allocated, with nothing left that points to it; the block before it stays
    installed although the whole file is reported as bad. *)
(** No memory for the list of a single clock. *)
Definition one_clock (h : heap) (n : Z) : option Z := if n =? 8 then None else bump_alloc h n.
Definition clocky (name : string) (clocks : list (list Z)) : dvfs_data := MkDvfsData (bytes_of name) 2 1 0 0 (inl clocks) [] [].
Definition leaky_state : ect_state := in_memory (enc_file 7 0 [Known (DPll 1 0 []); Known (DDvfs 3 0 [clocky "a" [bytes_of "x"; bytes_of "y"]; clocky "b" [bytes_of "z"]])]).
Definition after_failure : option (Z * nat * bool * bool) :=
  match ect_parse_binary_header one_clock leaky_state with
  | Done r s => Some (r, size (t_heap s), bool_decide (is_Some (t_list s !! kind_idx KPll ≫= in_block_handle)), bool_decide (is_Some (t_list s !! kind_idx KDvfs ≫= in_block_handle)))
  | _ => None
  end.
(** Of the two objects left the other is the header of the first block. *)
Lemma failure_leaks : after_failure = Some (- EINVAL, 2%nat, true, false).
Proof. vm_compute. reflexivity. Qed.

(** A name that only begins like that of a block is taken for it. *)
Definition prefixed : list Z :=
  layout (file_header 7 0 1) [(enc_str (bytes_of "GENERIC"), enc_data (DGen 1 0 []))].
Lemma prefix_is_enough : seen (let! r := parse_and_get bump_alloc "GEN" in kret (snd r)) (fun h => kret (match h with HGen _ => true | _ => false end)) (in_memory prefixed) = Some (Some true).
Proof. by vm_compute. Qed.

(** The lookups of general parameters and binaries use a name that is [NULL]. *)
Lemma null_name_faults : faults (let! r := parse_and_get bump_alloc "GEN" in ect_gen_param_get_table (snd r) None) (in_memory (enc_file 7 0 [Known (DGen 1 0 [MkGenData (bytes_of "t") 1 1 [5]])])) = true.
Proof. by vm_compute. Qed.
