(* ===== verification/Cpupm.v ===== *)
(** * CPU power management

    [drivers/soc/google/exynos-cpupm.c]: every cpu is busy or idle, and so is every
    power mode, a power domain of several cpus (a cluster, or the whole system).
    The last cpu of a domain that goes idle puts the domain in its power mode when
    nothing forbids it, the first that wakes takes it out. Drivers veto the system
    mode by idle-IPs, and any mode by a disable count. *)

From S2P Require Import Prelude.

(** ** Data *)

Definition CPUPM_STATE_BUSY : Z := 0.
Definition CPUPM_STATE_IDLE : Z := 1.
Definition NAME_LEN : nat := 32.
Definition POWERMODE_TYPE_CLUSTER : Z := 0.
Definition POWERMODE_TYPE_SYSTEM : Z := 1.
Definition POWERMODE_TYPE_END : Z := 2.
Definition CPUIDLE_STATE_MAX : nat := 10.

(** Events of the notifier chain. *)
Definition C2_ENTER : Z := 0.
Definition SICD_ENTER : Z := 2.
Definition SICD_EXIT : Z := 3.

Record cpupm_stats := MkStats { st_entry_count : Z; st_cancel_count : Z; st_residency_time : Z; st_entry_time : Z }.
#[export] Instance eta_stats : Eta cpupm_stats := mk_eta (fun s => MkStats (st_entry_count s) (st_cancel_count s) (st_residency_time s) (st_entry_time s)).
Definition no_stats : cpupm_stats := MkStats 0 0 0 0.

Record wakeup_mask := MkWm { wm_mask_reg_offset : Z; wm_stat_reg_offset : Z; wm_mask : Z }.
Record wakeup_mask_config := MkWmc { wc_wakeup_masks : list wakeup_mask; wc_eint_offsets : list Z }.
(** The pointer [wm_config]. *)
Inductive wm_pointer := WmNull | WmAt (c : wakeup_mask_config) | WmFreed.

(** A set of cpus. *)
Abbreviation cpumask := (list nat).
Definition cpumask_test_cpu (cpu : nat) (mask : cpumask) : bool := bool_decide (cpu ∈ mask).

Record power_mode := MkMode {
  pw_name : string; pw_state : Z; pw_target_residency : Z; pw_type : Z; pw_cal_id : Z; pw_siblings : cpumask; pw_entry_allowed : cpumask; pw_disable : Z;
  pw_user_request : bool; pw_stat : cpupm_stats; pw_stat_snapshot : cpupm_stats }.
#[export] Instance eta_mode : Eta power_mode := mk_eta (fun m => MkMode (pw_name m) (pw_state m) (pw_target_residency m) (pw_type m) (pw_cal_id m) (pw_siblings m)
  (pw_entry_allowed m) (pw_disable m) (pw_user_request m) (pw_stat m) (pw_stat_snapshot m)).

(** One per cpu; [hotplug_ing] is a variable of its own in the code. Modes are named
    by their place in [mode_list]. *)
Record exynos_cpupm := MkPm {
  pm_state : Z; pm_next_hrtimer : Z; pm_stat : list cpupm_stats; pm_stat_snapshot : list cpupm_stats; pm_entered_state : Z; pm_modes : list (option nat);
  pm_hotplug_ing : bool }.
#[export] Instance eta_pm : Eta exynos_cpupm := mk_eta (fun p => MkPm (pm_state p) (pm_next_hrtimer p) (pm_stat p) (pm_stat_snapshot p) (pm_entered_state p) (pm_modes p) (pm_hotplug_ing p)).
Definition zero_pm : exynos_cpupm := MkPm 0 0 (replicate CPUIDLE_STATE_MAX no_stats) (replicate CPUIDLE_STATE_MAX no_stats) 0 [None; None] false.

Definition NORMAL_IP : Z := 0.
Definition EXTERN_IP : Z := 1.
Record idle_ip := MkIp { ip_name : string; ip_index : Z; ip_type : Z; ip_idle : Z; ip_busy_count : Z; ip_busy_count_profile : Z; ip_pmu_offset : Z }.
#[export] Instance eta_ip : Eta idle_ip := mk_eta (fun i => MkIp (ip_name i) (ip_index i) (ip_type i) (ip_idle i) (ip_busy_count i) (ip_busy_count_profile i) (ip_pmu_offset i)).

(** What the driver asks of others: the power controller ([cal_*], the writes to
    the PMU), and the notifier chain. *)
Inductive call :=
| CpuEnable (cpu : nat) | CpuDisable (cpu : nat) | ClusterEnable (id : Z) | ClusterDisable (id : Z)
| PmEnter | PmExit | PmEarlyWakeup | PmuWrite (offset v : Z) | Notify (event v : Z).

(** What others answer: the time, whether the controller is looking for the last
    core, whether the mailbox is empty, the result of the notifier chain, a PMU
    register, the state of a core, and whether memory can be allocated. *)
Record answer := MkAnswer { x_time : Z; x_lastcore : bool; x_flushed : bool; x_notify : Z; x_pmu : Z; x_core : Z; x_alloc : bool }.

(** The idle-IPs are linked by their addresses; [0] is the head of [ip_list]. *)
Record cpupm_state := MkCpupm {
  s_cpus : list exynos_cpupm; s_online : cpumask; s_mode_list : list power_mode; s_suspended : bool; s_rebooting : bool; s_itmon : bool; s_system_disabled : bool;
  s_wm_config : wm_pointer; s_eint_masks : list Z; s_ips : gmap Z idle_ip; s_next : gmap Z Z; s_prev : gmap Z Z; s_check_count : Z; s_check_profile : Z;
  s_profiling : bool; s_profile_time : Z; s_init_time : Z; s_state_max : Z; s_answers : nat -> answer; s_asked : nat; s_log : list call }.
#[export] Instance eta_cpupm : Eta cpupm_state := mk_eta (fun s => MkCpupm (s_cpus s) (s_online s) (s_mode_list s) (s_suspended s) (s_rebooting s) (s_itmon s) (s_system_disabled s)
  (s_wm_config s) (s_eint_masks s) (s_ips s) (s_next s) (s_prev s) (s_check_count s) (s_check_profile s) (s_profiling s) (s_profile_time s) (s_init_time s) (s_state_max s)
  (s_answers s) (s_asked s) (s_log s)).

Abbreviation CM A := (M cpupm_state A).

(** ** Access *)

Definition ask {A} (f : answer -> A) : CM A := fun s => Done (f (s_answers s (s_asked s))) (s <| s_asked := S (s_asked s) |>).
Definition tell (c : call) : CM unit := kmod (fun s => s <| s_log := s_log s ++ [c] |>).
Definition ktime_get : CM Z := ask x_time.
Definition ktime_to_us (t : Z) : Z := Z.quot t 1000.

(** Per-cpu memory is zero at first. *)
Definition pm_of (s : cpupm_state) (cpu : nat) : exynos_cpupm := default zero_pm (s_cpus s !! cpu).
Definition mod_pm (cpu : nat) (f : exynos_cpupm -> exynos_cpupm) : CM unit := kmod (fun s => s <| s_cpus := alter f cpu (s_cpus s) |>).
Definition get_mode (j : nat) : CM power_mode := fun s => match s_mode_list s !! j with Some m => Done m s | None => Fault end.
Definition mod_mode (j : nat) (f : power_mode -> power_mode) : CM unit := kmod (fun s => s <| s_mode_list := alter f j (s_mode_list s) |>).
Definition mode_of (s : cpupm_state) (cpu : nat) (type : Z) : option nat := default None (pm_modes (pm_of s cpu) !! Z.to_nat type).

(** [for_each_cpu_and(cpu, a, b)]: in the order of the numbers. *)
Definition cpus_and (s : cpupm_state) (a b : cpumask) : list nat := filter (fun c => c ∈ a /\ c ∈ b) (seq 0 (length (s_cpus s))).

Fixpoint kiter {A} (f : A -> CM unit) (l : list A) : CM unit := match l with [] => kret tt | x :: l' => do! f x in kiter f l' end.

(** ** Idle IPs *)

Definition next_node (p : Z) : CM Z := fun s => match s_next s !! p with Some q => Done q s | None => Fault end.
Definition get_ip (p : Z) : CM idle_ip := fun s => match s_ips s !! p with Some i => Done i s | None => Fault end.
Definition mod_ip (p : Z) (f : idle_ip -> idle_ip) : CM unit := kmod (fun s => s <| s_ips := alter f p (s_ips s) |>).

(** [list_add_tail(&ip->list, &ip_list)]. *)
Definition list_add_tail (p : Z) : CM unit := fun s =>
  match s_prev s !! 0 with
  | Some prev => Done tt (s <| s_prev := <[p := prev]> (<[0 := p]> (s_prev s)) |> <| s_next := <[prev := p]> (<[p := 0]> (s_next s)) |>)
  | None => Fault
  end.

(** [list_for_each_entry]: the body can end the loop. A walk that has not met the
    head after as many steps as there are nodes never does. *)
Fixpoint walk_nodes {A} (fuel : nat) (p : Z) (body : Z -> CM (option A)) : CM (option A) :=
  if p =? 0 then kret None
  else match fuel with
       | O => kblock
       | S fuel' => let! r := body p in match r with Some x => kret (Some x) | None => let! q := next_node p in walk_nodes fuel' q body end
       end.
Definition list_for_each_entry {A} (body : Z -> CM (option A)) : CM (option A) :=
  let! s := kget in let! p := next_node 0 in walk_nodes (size (s_ips s)) p body.

Definition __ip_busy (p : Z) : CM bool :=
  let! ip := get_ip p in
  if ip_type ip =? NORMAL_IP then kret (ip_idle ip =? CPUPM_STATE_BUSY)
  else if ip_type ip =? EXTERN_IP then let! val := ask x_pmu in kret (val =? 0)
  else kret false.

Definition cpupm_profile_idle_ip : CM unit :=
  do! kmod (fun s => s <| s_check_count := u32 (s_check_count s + 1) |>) in
  do! list_for_each_entry (A := unit) (fun p =>
    let! b := __ip_busy p in
    do! (if b then mod_ip p (fun i => i <| ip_busy_count := u32 (ip_busy_count i + 1) |>) else kret tt) in kret None) in
  kret tt.

Definition ip_busy : CM bool :=
  do! cpupm_profile_idle_ip in
  let! r := list_for_each_entry (fun p => let! b := __ip_busy p in kret (if b then Some tt else None)) in
  kret (match r with Some _ => true | None => false end).

(** At the end of the loop [ip] is no node: the address of the head, taken for
    one, and never [NULL]. *)
Definition find_ip (index : Z) : CM Z :=
  let! r := list_for_each_entry (fun p => let! ip := get_ip p in kret (if ip_index ip =? u32 index then Some p else None)) in
  kret (match r with Some p => p | None => 0 end).

(** Writing to the head as if it were a node is outside [ip_list]. *)
Definition exynos_update_ip_idle_status (index idle : Z) : CM unit :=
  let! ip := find_ip index in
  let! _ := get_ip ip in
  mod_ip ip (fun i => i <| ip_idle := u32 idle |>).

Definition fresh_ip (s : cpupm_state) : Z := 1 + foldr Z.max 0 (elements (dom (s_ips s))).

(** The index after that of the last of the list. *)
Definition new_ip_index : CM Z := fun s =>
  match s_next s !! 0, s_prev s !! 0 with
  | Some first, Some last => if first =? 0 then Done 0 s else match s_ips s !! last with Some i => Done (s32 (ip_index i + 1)) s | None => Fault end
  | _, _ => Fault
  end.

Definition exynos_get_idle_ip_index (name : string) : CM Z :=
  let! ok := ask x_alloc in
  if negb ok then kret (- ENOMEM)
  else
    let! s := kget in
    let ip := fresh_ip s in
    do! kmod (fun s => s <| s_ips := <[ip := MkIp "" 0 0 0 0 0 0]> (s_ips s) |>) in
    let! new_index := new_ip_index in
    do! mod_ip ip (fun i => i <| ip_name := name |> <| ip_index := u32 new_index |> <| ip_type := NORMAL_IP |>) in
    do! list_add_tail ip in
    let! i := get_ip ip in
    do! exynos_update_ip_idle_status (s32 (ip_index i)) CPUPM_STATE_BUSY in
    let! i := get_ip ip in
    kret (s32 (ip_index i)).

(** One structure is allocated, outside the loop. *)
Definition PMU_IDLE_IP (x : Z) : Z := 0x3E0 + 0x4 * x.
Definition EXTERN_IDLE_IP_MAX : Z := 4.
Fixpoint extern_loop (ip i : Z) (names : list string) : CM unit :=
  match names with
  | [] => kret tt
  | name :: names' =>
      let! new_index := new_ip_index in
      do! mod_ip ip (fun x => x <| ip_name := name |> <| ip_index := u32 new_index |> <| ip_type := EXTERN_IP |> <| ip_pmu_offset := PMU_IDLE_IP i |>) in
      do! list_add_tail ip in
      extern_loop ip (i + 1) names'
  end.
Definition extern_idle_ip_init (child : option (list string)) : CM Z :=
  match child with
  | None => kret 0
  | Some names =>
      let count := Z.of_nat (length names) in
      if (count <=? 0) || (EXTERN_IDLE_IP_MAX <? count) then kret 0
      else
        let! ok := ask x_alloc in
        if negb ok then kret (- ENOMEM)
        else
          let! s := kget in
          let ip := fresh_ip s in
          do! kmod (fun s => s <| s_ips := <[ip := MkIp "" 0 0 0 0 0 0]> (s_ips s) |>) in
          do! extern_loop ip 0 names in
          kret 0
  end.

(** ** Statistics *)

Definition cpuidle_profile_begin (st : cpupm_stats) : CM cpupm_stats :=
  let! t := ktime_get in kret (st <| st_entry_time := t |> <| st_entry_count := u32 (st_entry_count st + 1) |>).
Definition profile_end (cancelled : bool) (st : cpupm_stats) : CM cpupm_stats :=
  if st_entry_time st =? 0 then kret st
  else if cancelled then kret (st <| st_cancel_count := u32 (st_cancel_count st + 1) |>)
  else let! t := ktime_get in kret (st <| st_residency_time := st_residency_time st + ktime_to_us (t - st_entry_time st) |> <| st_entry_time := 0 |>).
Definition cpuidle_profile_end (st : cpupm_stats) (cancel : Z) : CM cpupm_stats := profile_end (cancel <? 0) st.
Definition cpupm_profile_begin : cpupm_stats -> CM cpupm_stats := cpuidle_profile_begin.
Definition cpupm_profile_end (st : cpupm_stats) (cancel : Z) : CM cpupm_stats := profile_end (negb (cancel =? 0)) st.

(** The statistics of the state that is entered; an index past the array is a fault. *)
Definition mod_stat (cpu : nat) (f : cpupm_stats -> CM cpupm_stats) : CM unit :=
  let! s := kget in
  let i := Z.to_nat (pm_entered_state (pm_of s cpu)) in
  if pm_entered_state (pm_of s cpu) <? 0 then kfault
  else match pm_stat (pm_of s cpu) !! i with
       | None => kfault
       | Some st => let! st' := f st in mod_pm cpu (fun p => p <| pm_stat := <[i := st']> (pm_stat p) |>)
       end.
Definition vendor_hook_cpu_idle_enter (cpu : nat) (state next_hrtimer : Z) : CM unit :=
  do! mod_pm cpu (fun p => p <| pm_next_hrtimer := next_hrtimer |>) in
  do! mod_pm cpu (fun p => p <| pm_entered_state := state |>) in
  mod_stat cpu cpuidle_profile_begin.
Definition vendor_hook_cpu_idle_exit (cpu : nat) (state : Z) : CM unit := mod_stat cpu (fun st => cpuidle_profile_end st state).

(** ** Power modes *)

Definition valid_powermode (type : Z) : bool := (0 <=? type) && (type <? POWERMODE_TYPE_END).

Definition exynos_cpupm_notify (event v : Z) : CM Z := do! tell (Notify event v) in ask x_notify.

Definition get_sleep_length (s : cpupm_state) (cpu : nat) (now : Z) : Z := ktime_to_us (pm_next_hrtimer (pm_of s cpu) - now).

Definition cpus_busy (target_residency : Z) (cpus : cpumask) : CM Z :=
  let! now := ktime_get in
  let! s := kget in
  kret (if existsb (fun cpu => (pm_state (pm_of s cpu) =? CPUPM_STATE_BUSY) || (get_sleep_length s cpu now <? target_residency)) (cpus_and s (s_online s) cpus) then - EBUSY else 0).

Fixpoint detecting (request_cpu : nat) (cpus : list nat) : CM Z :=
  match cpus with
  | [] => kret 0
  | cpu :: cpus' => if (cpu =? request_cpu)%nat then detecting request_cpu cpus' else let! d := ask x_lastcore in if d : bool then kret (- EBUSY) else detecting request_cpu cpus'
  end.
Definition cpus_last_core_detecting (request_cpu : nat) (cpus : cpumask) : CM Z := let! s := kget in detecting request_cpu (cpus_and s (s_online s) cpus).

Definition BOOT_CPU : nat := 0.
Fixpoint clusters_busy (s : cpupm_state) (mode : option power_mode) (cpus : list nat) : bool :=
  match cpus with
  | [] => false
  | cpu :: cpus' =>
      if match mode with Some m => cpumask_test_cpu cpu (pw_siblings m) | None => false end then clusters_busy s mode cpus'
      else match mode_of s cpu POWERMODE_TYPE_CLUSTER ≫= (fun j => s_mode_list s !! j) with
           | None => clusters_busy s None cpus'
           | Some m =>
               if cpumask_test_cpu BOOT_CPU (pw_siblings m) then clusters_busy s (Some m) cpus'
               else if pw_state m =? CPUPM_STATE_BUSY then true else clusters_busy s (Some m) cpus'
           end
  end.
Definition cluster_busy : CM bool := let! s := kget in kret (clusters_busy s None (cpus_and s (s_online s) (s_online s))).

Definition system_busy (mode : power_mode) : CM bool :=
  if negb (pw_type mode =? POWERMODE_TYPE_SYSTEM) then kret false
  else
    let! b := cluster_busy in
    if b : bool then kret true else ip_busy.

Definition entry_allow (cpu j : nat) : CM bool :=
  let! mode := get_mode j in
  if negb (pw_disable mode =? 0) then kret false
  else if negb (cpumask_test_cpu cpu (pw_entry_allowed mode)) then kret false
  else
    let! r := cpus_busy (pw_target_residency mode) (pw_siblings mode) in
    if negb (r =? 0) then kret false
    else
      let! r := cpus_last_core_detecting cpu (pw_siblings mode) in
      if negb (r =? 0) then kret false
      else
        let! b := system_busy mode in
        kret (negb b).

(** The masks of the external interrupts are an array of another driver. *)
Fixpoint write_eint (offsets masks : list Z) : CM unit :=
  match offsets, masks with
  | [], _ => kret tt
  | o :: offsets', v :: masks' => do! tell (PmuWrite o v) in write_eint offsets' masks'
  | _ :: _, [] => kfault
  end.
Definition set_wakeup_mask : CM unit :=
  let! s := kget in
  match s_wm_config s with
  | WmNull => kret tt
  | WmFreed => kfault
  | WmAt c =>
      do! kiter (fun w => do! tell (PmuWrite (wm_stat_reg_offset w) 0) in tell (PmuWrite (wm_mask_reg_offset w) (wm_mask w))) (wc_wakeup_masks c) in
      write_eint (wc_eint_offsets c) (s_eint_masks s)
  end.

(** The settings for a type of mode; [false] when it is not entered after all. *)
Definition enter_settings (mode : power_mode) : CM bool :=
  if pw_type mode =? POWERMODE_TYPE_CLUSTER then do! tell (ClusterDisable (pw_cal_id mode)) in kret true
  else if pw_type mode =? POWERMODE_TYPE_SYSTEM then
    let! s := kget in
    if s_system_disabled s then kret false
    else
      let! flushed := ask x_flushed in
      if negb flushed then kret false
      else
        let! r := exynos_cpupm_notify SICD_ENTER 0 in
        if negb (r =? 0) then kret false
        else
          do! tell PmEnter in
          do! set_wakeup_mask in
          do! kmod (fun s => s <| s_system_disabled := true |>) in
          kret true
  else kret true.
Definition enter_power_mode (cpu j : nat) : CM unit :=
  let! mode := get_mode j in
  let! entered := enter_settings mode in
  if entered : bool then
    do! mod_mode j (fun m => m <| pw_state := CPUPM_STATE_IDLE |>) in
    let! st := cpupm_profile_begin (pw_stat mode) in
    mod_mode j (fun m => m <| pw_stat := st |>)
  else kret tt.

Definition exit_power_mode (cpu j : nat) (cancel : Z) : CM unit :=
  let! mode := get_mode j in
  let! st := cpupm_profile_end (pw_stat mode) cancel in
  do! mod_mode j (fun m => m <| pw_stat := st |> <| pw_state := CPUPM_STATE_BUSY |>) in
  if pw_type mode =? POWERMODE_TYPE_CLUSTER then tell (ClusterEnable (pw_cal_id mode))
  else if pw_type mode =? POWERMODE_TYPE_SYSTEM then
    let! s := kget in
    if negb (s_system_disabled s) then kret tt
    else
      do! tell (if negb (cancel =? 0) then PmEarlyWakeup else PmExit) in
      do! exynos_cpupm_notify SICD_EXIT cancel in
      kmod (fun s => s <| s_system_disabled := false |>)
  else kret tt.

(** Both under [cpupm_lock]. *)
Definition try_enter (cpu : nat) (type : Z) : CM unit :=
  let! s := kget in
  match mode_of s cpu type with None => kret tt | Some j => let! ok := entry_allow cpu j in if ok : bool then enter_power_mode cpu j else kret tt end.
Definition exynos_cpupm_enter (cpu : nat) : CM unit :=
  do! tell (CpuDisable cpu) in
  do! mod_pm cpu (fun p => p <| pm_state := CPUPM_STATE_IDLE |>) in
  kiter (try_enter cpu) [POWERMODE_TYPE_CLUSTER; POWERMODE_TYPE_SYSTEM].

Definition try_exit (cpu : nat) (cancel type : Z) : CM unit :=
  let! s := kget in
  match mode_of s cpu type with
  | None => kret tt
  | Some j => let! mode := get_mode j in if pw_state mode =? CPUPM_STATE_IDLE then exit_power_mode cpu j cancel else kret tt
  end.
Definition exynos_cpupm_exit (cpu : nat) (cancel : Z) : CM unit :=
  do! kiter (try_exit cpu cancel) [POWERMODE_TYPE_CLUSTER; POWERMODE_TYPE_SYSTEM] in
  do! mod_pm cpu (fun p => p <| pm_state := CPUPM_STATE_BUSY |>) in
  tell (CpuEnable cpu).

(** ** The notifiers *)

Inductive cpu_pm_event := CPU_PM_ENTER | CPU_PM_ENTER_FAILED | CPU_PM_EXIT.
Definition NOTIFY_OK : Z := 1.
Definition NOTIFY_BAD : Z := 0x8002.
Definition CANCEL_FLAG : Z := BIT 5.

Definition exynos_cpu_pm_notify_callback (cpu : nat) (action : cpu_pm_event) : CM Z :=
  match action with
  | CPU_PM_ENTER =>
      let! s := kget in
      if s_rebooting s then kret NOTIFY_BAD
      else if s_suspended s then kret NOTIFY_OK
      else if s_itmon s then kret NOTIFY_BAD
      else
        let! r := exynos_cpupm_notify C2_ENTER 0 in
        let! s := kget in
        if negb (r =? 0) || pm_hotplug_ing (pm_of s cpu) then kret NOTIFY_BAD
        else do! exynos_cpupm_enter cpu in kret NOTIFY_OK
  | CPU_PM_EXIT => let! cpu_state := ask x_core in do! exynos_cpupm_exit cpu (Z.land cpu_state CANCEL_FLAG) in kret NOTIFY_OK
  | CPU_PM_ENTER_FAILED => kret NOTIFY_OK
  end.

Definition exynos_cpupm_reboot_notifier (off_or_restart : bool) : CM Z :=
  do! (if off_or_restart then kmod (fun s => s <| s_rebooting := true |>) else kret tt) in kret NOTIFY_OK.
Definition exynos_cpupm_suspend_noirq : CM Z := do! kmod (fun s => s <| s_suspended := true |>) in kret 0.
Definition exynos_cpupm_resume_noirq : CM Z := do! kmod (fun s => s <| s_suspended := false |>) in kret 0.

(** ** Disabling *)

(** An interrupt wakes a cpu: one that is idle leaves through [CPU_PM_EXIT]. *)
Definition wake (cpu : nat) : CM unit :=
  let! s := kget in
  if pm_state (pm_of s cpu) =? CPUPM_STATE_IDLE then do! exynos_cpu_pm_notify_callback cpu CPU_PM_EXIT in kret tt else kret tt.
Definition awake_cpus (cpus : cpumask) : CM unit := let! s := kget in kiter wake (cpus_and s cpus (s_online s)).

Definition __disable_power_mode (j : nat) : CM unit :=
  let! mode := get_mode j in
  if bool_decide (pw_entry_allowed mode = []) then kret tt
  else
    do! mod_mode j (fun m => m <| pw_disable := s32 (pw_disable m + 1) |>) in
    if s32 (pw_disable mode + 1) =? 1 then awake_cpus (pw_siblings mode) else kret tt.
Definition __enable_power_mode (j : nat) : CM unit :=
  let! mode := get_mode j in
  do! mod_mode j (fun m => m <| pw_disable := s32 (pw_disable m - 1) |>) in
  awake_cpus (pw_siblings mode).
Definition with_mode (cpu : nat) (type : Z) (f : nat -> CM unit) : CM unit :=
  if negb (valid_powermode type) then kret tt
  else let! s := kget in match mode_of s cpu type with None => kret tt | Some j => f j end.
Definition disable_power_mode (cpu : nat) (type : Z) : CM unit := with_mode cpu type __disable_power_mode.
Definition enable_power_mode (cpu : nat) (type : Z) : CM unit := with_mode cpu type __enable_power_mode.

(** The files of a mode; the input as [kstrtouint] has read it. *)
Definition power_mode_show (j : nat) : CM string := let! mode := get_mode j in kret (if (0 <? pw_disable mode)%Z then "disabled" else "enabled")%string.
Definition power_mode_store (j : nat) (val : option Z) (count : Z) : CM Z :=
  match val with
  | None => kret (- EINVAL)
  | Some val =>
      let val := negb (val =? 0) in
      let! mode := get_mode j in
      if bool_decide (pw_user_request mode = val) then kret count
      else
        do! mod_mode j (fun m => m <| pw_user_request := val |>) in
        do! (if val : bool then __enable_power_mode j else __disable_power_mode j) in
        kret count
  end.

(** ** Profiling

    A snapshot is taken when profiling starts, and becomes the difference when it
    stops. The times of entry are copied and left as they are. *)

(** [smp_call_function]: every other cpu is interrupted. *)
Definition smp_call_function (self : nat) : CM unit := let! s := kget in kiter wake (filter (fun c => c <> self) (cpus_and s (s_online s) (s_online s))).

Definition stat_delta (snapshot st : cpupm_stats) : cpupm_stats :=
  MkStats (u32 (st_entry_count st - st_entry_count snapshot)) (u32 (st_cancel_count st - st_cancel_count snapshot)) (st_residency_time st - st_residency_time snapshot) (st_entry_time snapshot).
(** The states [0..cpuidle_state_max] of a cpu. *)
Definition snapshot_states (f : cpupm_stats -> cpupm_stats -> cpupm_stats) (max : Z) (p : exynos_cpupm) : exynos_cpupm :=
  p <| pm_stat_snapshot := imap (fun i snap => if Z.of_nat i <=? max then f snap (default no_stats (pm_stat p !! i)) else snap) (pm_stat_snapshot p) |>.
Definition map_ips (f : idle_ip -> idle_ip) : CM unit := do! list_for_each_entry (A := unit) (fun p => do! mod_ip p f in kret None) in kret tt.

Definition profile_start (self : nat) : CM unit :=
  do! smp_call_function self in
  do! kmod (fun s => s <| s_cpus := snapshot_states (fun _ st => st) (s_state_max s) <$> s_cpus s |>) in
  do! kmod (fun s => s <| s_mode_list := (fun m => m <| pw_stat_snapshot := pw_stat m |>) <$> s_mode_list s |>) in
  do! map_ips (fun i => i <| ip_busy_count_profile := ip_busy_count i |>) in
  let! t := ktime_get in
  kmod (fun s => s <| s_profile_time := t |> <| s_check_profile := s_check_count s |>).
Definition profile_stop (self : nat) : CM unit :=
  do! smp_call_function self in
  do! kmod (fun s => s <| s_cpus := snapshot_states stat_delta (s_state_max s) <$> s_cpus s |>) in
  do! kmod (fun s => s <| s_mode_list := (fun m => m <| pw_stat_snapshot := stat_delta (pw_stat_snapshot m) (pw_stat m) |>) <$> s_mode_list s |>) in
  do! map_ips (fun i => i <| ip_busy_count_profile := u32 (ip_busy_count i - ip_busy_count_profile i) |>) in
  let! t := ktime_get in
  kmod (fun s => s <| s_profile_time := t - s_profile_time s |> <| s_check_profile := u32 (s_check_count s - s_check_profile s) |>).

(** The input as [kstrtoint] has read it. *)
Definition profile_store (self : nat) (input : option Z) (count : Z) : CM Z :=
  match input with
  | None => kret (- EINVAL)
  | Some input =>
      let input := negb (input =? 0) in
      let! s := kget in
      if bool_decide (s_profiling s = input) then kret count
      else
        do! kmod (fun s => s <| s_profiling := input |>) in
        do! (if input : bool then profile_start self else profile_stop self) in
        kret count
  end.

(** ** Hotplug *)

Definition online_siblings (s : cpupm_state) (m : power_mode) : nat := length (cpus_and s (pw_siblings m) (s_online s)).
Definition cluster_settings (cpu : nat) (weight : nat) (c : Z -> call) : CM unit :=
  let! s := kget in
  match mode_of s cpu POWERMODE_TYPE_CLUSTER with
  | None => kret tt
  | Some j => let! mode := get_mode j in if (online_siblings s mode =? weight)%nat then tell (c (pw_cal_id mode)) else kret tt
  end.
Definition cpuhp_cpupm_online (cpu : nat) : CM Z :=
  do! cluster_settings cpu 0 ClusterEnable in
  do! tell (CpuEnable cpu) in
  do! mod_pm cpu (fun p => p <| pm_hotplug_ing := false |>) in
  kret 0.
Definition cpuhp_cpupm_offline (cpu : nat) : CM Z :=
  do! mod_pm cpu (fun p => p <| pm_hotplug_ing := true |>) in
  do! tell (CpuDisable cpu) in
  do! cluster_settings cpu 1 ClusterDisable in
  kret 0.

(** ** Set-up *)

(** A mode's node of the device tree; a missing number is the error of reading it. *)
Record mode_node := MkNode { n_name : string; n_target_residency : Z + Z; n_type : Z + Z; n_siblings : option cpumask; n_entry_allowed : option cpumask; n_cal_id : option Z }.
Definition possible (n : nat) (mask : option cpumask) : cpumask := filter (fun c => (c < n)%nat) (default [] mask).

Fixpoint mode_init (nodes : list mode_node) : CM Z :=
  match nodes with
  | [] => kret 0
  | dn :: nodes' =>
      let! ok := ask x_alloc in
      if negb ok then kret (- ENOMEM)
      else match n_target_residency dn, n_type dn with
           | inl ret, _ => kret ret
           | inr _, inl ret => kret ret
           | inr residency, inr type =>
               if negb (valid_powermode (s32 type)) then kret (- EINVAL)
               else
                 let! s := kget in
                 let n := length (s_cpus s) in
                 let j := length (s_mode_list s) in
                 let siblings := possible n (n_siblings dn) in
                 let mode := MkMode (str_take (NAME_LEN - 1) (n_name dn)) CPUPM_STATE_BUSY (s32 residency) (s32 type) (s32 (default 0 (n_cal_id dn))) siblings (possible n (n_entry_allowed dn)) 0 true no_stats no_stats in
                 do! kiter (fun cpu => mod_pm cpu (fun p => p <| pm_modes := <[Z.to_nat (s32 type) := Some j]> (pm_modes p) |>)) siblings in
                 do! kmod (fun s => s <| s_mode_list := s_mode_list s ++ [mode] |>) in
                 do! (if s32 type =? POWERMODE_TYPE_CLUSTER then tell (ClusterEnable (pw_cal_id mode)) else kret tt) in
                 mode_init nodes'
           end
  end.

(** The nodes [wakeup-masks] and [eint-wakeup-masks] of [wakeup-mask]. *)
Definition wakeup_mask_init (root : option (option (list wakeup_mask) * option (list Z))) : CM unit :=
  let fail := kmod (fun s => s <| s_wm_config := WmFreed |>) in
  match root with
  | None => kret tt
  | Some (masks, eints) =>
      let! ok := ask x_alloc in
      if negb ok then kmod (fun s => s <| s_wm_config := WmNull |>)
      else match masks with
           | None => fail
           | Some masks =>
               let! ok := ask x_alloc in
               if negb ok then fail
               else match eints with
                    | None => fail
                    | Some eints => let! ok := ask x_alloc in if negb ok then fail else kmod (fun s => s <| s_wm_config := WmAt (MkWmc masks eints) |>)
                    end
           end
  end.
Definition exynos_cpupm_mode_init (nodes : list mode_node) (root : option (option (list wakeup_mask) * option (list Z))) : CM Z :=
  let! ret := mode_init nodes in
  if negb (ret =? 0) then kret ret else do! wakeup_mask_init root in kret 0.

(** The numbers of idle states, [None] for a cpu without a node. *)
Fixpoint exynos_cpuidle_state_init (cpus : list (option Z)) : CM Z :=
  match cpus with
  | [] => kret 0
  | None :: _ => kret (- ENODEV)
  | Some max :: cpus' => do! kmod (fun s => if s_state_max s <? max then s <| s_state_max := max |> else s) in exynos_cpuidle_state_init cpus'
  end.

Record cpupm_tree := MkTree { t_extern : option (list string); t_states : list (option Z); t_modes : list mode_node; t_wakeup : option (option (list wakeup_mask) * option (list Z)) }.

(** Setting the hotplug callback up runs it on every cpu that is online. *)
Definition exynos_cpupm_probe (dt : cpupm_tree) : CM Z :=
  let! ret := extern_idle_ip_init (t_extern dt) in
  if negb (ret =? 0) then kret ret
  else
    let! ret := exynos_cpuidle_state_init (t_states dt) in
    if negb (ret =? 0) then kret ret
    else
      let! ret := exynos_cpupm_mode_init (t_modes dt) (t_wakeup dt) in
      if negb (ret =? 0) then kret ret
      else
        let! s := kget in
        let online := cpus_and s (s_online s) (s_online s) in
        do! kiter (fun cpu => tell (CpuEnable cpu)) online in
        do! kiter (fun cpu => do! cpuhp_cpupm_online cpu in kret tt) online in
        do! kmod (fun s => s <| s_rebooting := false |> <| s_itmon := false |>) in
        let! t := ktime_get in
        do! kmod (fun s => s <| s_init_time := t |>) in
        kret 0.
