(* ===== verification/CpupmIp.v ===== *)
(** * The registry of idle-IPs

    [ip_list] is a circular list of nodes linked by their addresses; what it stands
    for is the list of the idle-IPs in it, numbered from zero. Walks over it end,
    registration appends to it, an update changes one element, and the veto of the
    system power mode is that some element is busy. *)

From S2P Require Import Prelude Cpupm.

(** ** Links *)

Fixpoint seg (nx : gmap Z Z) (p : Z) (l : list Z) : Prop :=
  match l with [] => p = 0 | q :: l' => p = q /\ exists n, nx !! q = Some n /\ seg nx n l' end.

Record linked (s : cpupm_state) (l : list Z) : Prop := {
  lk_first : exists first, s_next s !! 0 = Some first /\ seg (s_next s) first l;
  lk_last : s_prev s !! 0 = Some (default 0 (last l));
  lk_nodup : NoDup l;
  lk_pos : Forall (fun p => 0 < p) l;
  lk_nodes : Forall (fun p => is_Some (s_ips s !! p)) l }.

(** What no operation on the idle-IPs touches. *)
Definition core (s : cpupm_state) :=
  (s_cpus s, s_online s, s_mode_list s, (s_suspended s, s_rebooting s, s_itmon s, s_system_disabled s), s_wm_config s, s_eint_masks s, s_log s, s_answers s).

Lemma seg_next nx nx' p l : seg nx p l -> (forall q, q ∈ l -> nx' !! q = nx !! q) -> seg nx' p l.
Proof.
  revert p. induction l as [|q l IH]; intros p H Hq; [done|]. destruct H as (-> & n & Hn & Hl). split; [done|]. exists n. split; [rewrite Hq by (by left); done|]. apply IH; [done|].
  intros. apply Hq. by right.
Qed.

(** A new last element. *)
Lemma seg_snoc nx p l q : q <> 0 -> q ∉ l -> NoDup l -> seg nx p l -> seg (<[default 0 (last l) := q]> (<[q := 0]> nx)) (match l with [] => q | _ => p end) (l ++ [q]).
Proof.
  intros Hq0 Hq Hnd. revert p. induction l as [|x l IH]; intros p H.
  - simpl. split; [done|]. exists 0. split; [|done]. rewrite lookup_insert_ne by (simpl; lia). by rewrite lookup_insert_eq.
  - destruct H as (-> & n & Hn & Hl). apply not_elem_of_cons in Hq as [Hqx Hql]. apply NoDup_cons in Hnd as [Hx Hnd]. cbn [app]. split; [done|]. specialize (IH Hql Hnd n Hl).
    destruct l as [|y l]; [exists q; split; [by simpl; rewrite lookup_insert_eq|]|].
    + cbn [seg app]. split; [done|]. exists 0. split; [|done]. simpl. rewrite lookup_insert_ne by done. by rewrite lookup_insert_eq.
    + exists n. rewrite last_cons_cons. split; [|exact IH]. rewrite lookup_insert_ne. { rewrite lookup_insert_ne by done. done. }
      intros E. apply Hx. rewrite <- E. destruct (last (y :: l)) as [z|] eqn:El; [|by apply last_None in El]. rewrite last_lookup in El. by eapply list_elem_of_lookup_2.
Qed.

(** ** Walks *)

Section Walk.
Context {A : Type} (body : Z -> CM (option A)) (R : list Z -> cpupm_state -> Prop) (Q : option A -> cpupm_state -> Prop).
Hypothesis Hbody : forall q l s, R (q :: l) s -> wp (body q) (fun r s' => match r with Some x => Q (Some x) s' | None => s_next s' = s_next s /\ R l s' end) s.
Hypothesis Hend : forall s, R [] s -> Q None s.

Lemma wp_walk l : forall fuel p s, (length l <= fuel)%nat -> Forall (fun p => 0 < p) l -> seg (s_next s) p l -> R l s -> wp (walk_nodes fuel p body) Q s.
Proof.
  induction l as [|q l IH]; intros fuel p s Hf Hpos Hl HR; cbn [seg] in Hl.
  - subst. destruct fuel; by apply Hend.
  - destruct Hl as (-> & n & Hn & Hl). apply Forall_cons in Hpos as [Hq Hpos]. destruct fuel as [|fuel]; [simpl in Hf; lia|]. cbn [walk_nodes]. destruct (Z.eqb_spec q 0); [lia|].
    apply wp_bind. eapply wp_mono; [by apply Hbody|]. intros [x|] s' Hs'; [by apply wp_ret|]. destruct Hs' as [E HR']. apply wp_bind. eapply wp_eq; [unfold next_node; by rewrite E, Hn|].
    apply IH; [simpl in Hf; lia|done|by rewrite E|done].
Qed.

Lemma linked_size s l : linked s l -> (length l <= size (s_ips s))%nat.
Proof.
  intros [_ _ Hnd _ Hn]. rewrite <- size_dom. change (size (dom (s_ips s))) with (length (elements (dom (s_ips s)))). apply submseteq_length, NoDup_submseteq; [done|]. intros p Hp. rewrite elem_of_elements, elem_of_dom.
  by apply (proj1 (Forall_forall _ _) Hn).
Qed.

Lemma wp_for_each s l : linked s l -> R l s -> wp (list_for_each_entry body) Q s.
Proof.
  intros Hl HR. unfold list_for_each_entry. apply wp_bind, wp_get, wp_bind. pose proof (linked_size _ _ Hl). destruct Hl as [(first & Hf & Hs) _ _ Hpos _].
  eapply wp_eq; [unfold next_node; by rewrite Hf|]. by apply (wp_walk l).
Qed.
End Walk.

(** ** The registry *)

(** The idle-IPs in the order of the list, numbered from zero. *)
Definition registry (s : cpupm_state) (xs : list idle_ip) : Prop :=
  exists l, linked s l /\ Forall2 (fun p x => s_ips s !! p = Some x) l xs /\ (forall i x, xs !! i = Some x -> ip_index x = Z.of_nat i) /\ Z.of_nat (length xs) < 2 ^ 31.

Lemma linked_frame s s' l : linked s l -> s_ips s' = s_ips s -> s_next s' = s_next s -> s_prev s' = s_prev s -> linked s' l.
Proof. intros [H1 H2 H3 H4 H5] E1 E2 E3. split; by rewrite ?E1, ?E2, ?E3. Qed.

(** Changes outside the idle-IPs keep the registry. *)
Lemma registry_frame s s' xs : s_ips s' = s_ips s -> s_next s' = s_next s -> s_prev s' = s_prev s -> registry s xs -> registry s' xs.
Proof. intros E1 E2 E3 (l & [H1 H2 H3 H4 H5] & H). exists l. split; [split; by rewrite ?E1, ?E2, ?E3|]. by rewrite E1. Qed.


Lemma alter_nodes {A} (f : A -> A) (ips : gmap Z A) l xs i p : NoDup l -> Forall2 (fun p x => ips !! p = Some x) l xs -> l !! i = Some p ->
  Forall2 (fun q x => alter f p ips !! q = Some x) l (alter f i xs).
Proof.
  intros Hnd H Hi. apply Forall2_same_length_lookup. split; [rewrite length_alter; by apply Forall2_length in H|]. intros j q x Hq Hx. destruct (decide (j = i)) as [->|Hn].
  - rewrite Hi in Hq. injection Hq as <-. rewrite list_lookup_alter, decide_True in Hx by done. rewrite lookup_alter_eq. destruct (Forall2_lookup_l _ _ _ _ _ H Hi) as (y & Hy & Ey). rewrite Hy in Hx. by rewrite Ey.
  - rewrite list_lookup_alter_ne in Hx by done. rewrite lookup_alter_ne; [by eapply (Forall2_lookup_lr _ _ _ _ _ _ H)|]. intros ->. apply Hn. by eapply NoDup_lookup.
Qed.

Lemma linked_alter s l f p : linked s l -> linked (s <| s_ips := alter f p (s_ips s) |>) l.
Proof. intros [H1 H2 H3 H4 H5]. split; try done. eapply Forall_impl; [exact H5|]. intros q [x Hx]. cbn. destruct (decide (p = q)) as [->|]; [rewrite lookup_alter_eq, Hx|rewrite lookup_alter_ne by done]; eauto. Qed.

(** ** Registering *)

Lemma wp_new_index s l xs : linked s l -> Forall2 (fun p x => s_ips s !! p = Some x) l xs -> (forall i x, xs !! i = Some x -> ip_index x = Z.of_nat i) -> Z.of_nat (length xs) < 2 ^ 31 ->
  new_ip_index s = Done (Z.of_nat (length xs)) s.
Proof.
  intros [(first & Hf & Hs) Hl Hnd Hpos _] H Hi Hlen. unfold new_ip_index. rewrite Hf, Hl. destruct l as [|q l].
  - apply Forall2_nil_inv_l in H as ->. simpl in Hs. by rewrite Hs.
  - destruct Hs as [-> _]. apply Forall_cons in Hpos as [Hq _]. destruct (Z.eqb_spec q 0); [lia|]. rewrite last_lookup. cbn [length pred].
    destruct (lookup_lt_is_Some_2 (q :: l) (length l) ltac:(simpl; lia)) as [z Hz]. rewrite Hz. change (default 0 (Some z)) with z. destruct (Forall2_lookup_l _ _ _ _ _ H Hz) as (x & Hx & Ex). rewrite Ex, (Hi _ _ Hx).
    apply Forall2_length in H. cbn [length] in H. rewrite <- H. rewrite <- H in Hlen. do 2 f_equal. rewrite s32_small by lia. lia.
Qed.

Lemma fresh_ip_new s l : linked s l -> 0 < fresh_ip s /\ s_ips s !! fresh_ip s = None /\ fresh_ip s ∉ l.
Proof.
  intros [_ _ _ _ Hn]. assert (s_ips s !! fresh_ip s = None) as E.
  { apply not_elem_of_dom. intros Hin. apply elem_of_elements, foldr_max_ge in Hin. unfold fresh_ip in Hin. lia. }
  split; [unfold fresh_ip; pose proof (foldr_max_nonneg (elements (dom (s_ips s)))); lia|]. split; [done|]. intros Hin. pose proof (proj1 (Forall_forall _ _) Hn _ Hin) as [x Hx]. congruence.
Qed.

(** A node that is not in the list becomes its last. *)
Lemma linked_add s l p x : linked s l -> 0 < p -> p ∉ l -> s_ips s !! p = Some x -> exists s', list_add_tail p s = Done tt s' /\ linked s' (l ++ [p]) /\ s_ips s' = s_ips s /\ core s' = core s /\
  s_asked s' = s_asked s /\ s_check_count s' = s_check_count s.
Proof.
  intros [(first & Hf & Hs) Hl Hnd Hpos Hn] Hp Hpl Hx. unfold list_add_tail. rewrite Hl. eexists. split; [reflexivity|]. split; [|done]. split; cbn.
  - exists (match l with [] => p | _ => first end). split; [|by apply seg_snoc; [lia|..]]. destruct l as [|q l]; [by rewrite lookup_insert_eq|].
    rewrite lookup_insert_ne; [by rewrite lookup_insert_ne by lia|]. destruct (last (q :: l)) as [z|] eqn:E; [|by apply last_None in E]. rewrite last_lookup in E. apply list_elem_of_lookup_2 in E.
    assert (0 < z) by exact (proj1 (Forall_forall _ _) Hpos _ E). simpl. lia.
  - rewrite last_snoc. rewrite lookup_insert_ne by lia. by rewrite lookup_insert_eq.
  - apply NoDup_app. split; [done|]. split; [|apply NoDup_singleton]. intros y Hy ->%list_elem_of_singleton. done.
  - apply Forall_app. split; [done|]. by apply Forall_singleton.
  - apply Forall_app. split; [done|]. apply Forall_singleton. by rewrite Hx.
Qed.

(** ** The operations *)

Definition nodes (s : cpupm_state) (l : list Z) (xs : list idle_ip) : Prop := linked s l /\ Forall2 (fun p x => s_ips s !! p = Some x) l xs.
Definition numbered (xs : list idle_ip) : Prop := (forall i x, xs !! i = Some x -> ip_index x = Z.of_nat i) /\ Z.of_nat (length xs) < 2 ^ 31.

Lemma registry_nodes s xs : registry s xs <-> exists l, nodes s l xs /\ numbered xs.
Proof. unfold registry, nodes, numbered. naive_solver. Qed.

Lemma wp_get_ip p x (Q : idle_ip -> cpupm_state -> Prop) s : s_ips s !! p = Some x -> Q x s -> wp (get_ip p) Q s.
Proof. intros E HQ. unfold wp, get_ip. by rewrite E. Qed.

Lemma wp_find_ip s l xs index i p : nodes s l xs -> numbered xs -> u32 index = Z.of_nat i -> l !! i = Some p -> wp (find_ip index) (fun r s' => r = p /\ s' = s) s.
Proof.
  intros [Hl Hx] [Hn Hlen] Hi Hp. unfold find_ip. apply wp_bind.
  eapply wp_mono; [eapply (wp_for_each _ (fun l' s' => s' = s /\ exists k, l' = drop k l /\ (k <= i)%nat) (fun r s' => r = Some p /\ s' = s)) with (l := l)|].
  - intros q l' s' [-> (k & Hk & Hle)]. destruct (lookup_lt_is_Some_2 l k ltac:(apply lookup_lt_Some in Hp; lia)) as [q' Hq']. rewrite (drop_S _ _ _ Hq') in Hk. injection Hk as -> ->.
    destruct (Forall2_lookup_l _ _ _ _ _ Hx Hq') as (x & Hxk & Ex). apply wp_bind. eapply wp_get_ip; [exact Ex|]. rewrite (Hn _ _ Hxk), Hi. destruct (Z.eqb_spec (Z.of_nat k) (Z.of_nat i)) as [E|E].
    + apply Nat2Z.inj in E as ->. apply wp_ret. split; [congruence|done].
    + apply wp_ret. split; [done|]. split; [done|]. exists (S k). split; [done|lia].
  - intros s' [-> (k & Hk & Hle)]. apply lookup_lt_Some in Hp. apply (f_equal length) in Hk. rewrite length_drop in Hk. simpl in Hk. lia.
  - done.
  - split; [done|]. exists 0%nat. split; [done|lia].
  - intros r s' [-> ->]. by apply wp_ret.
Qed.

Lemma numbered_alter xs i f : (forall x, ip_index (f x) = ip_index x) -> numbered xs -> numbered (alter f i xs).
Proof.
  intros Hf [Hn Hlen]. split; [|by rewrite length_alter]. intros j x Hx. destruct (decide (j = i)) as [->|Hd].
  - rewrite list_lookup_alter, decide_True in Hx by done. destruct (xs !! i) as [y|] eqn:E; [|done]. injection Hx as <-. rewrite Hf. by apply Hn.
  - rewrite list_lookup_alter_ne in Hx by done. by apply Hn.
Qed.

Lemma wp_update s l xs index idle i p : nodes s l xs -> numbered xs -> u32 index = Z.of_nat i -> l !! i = Some p ->
  wp (exynos_update_ip_idle_status index idle) (fun _ s' => s' = s <| s_ips := alter (fun x => x <| ip_idle := u32 idle |>) p (s_ips s) |> /\
    nodes s' l (alter (fun x => x <| ip_idle := u32 idle |>) i xs) /\ numbered (alter (fun x => x <| ip_idle := u32 idle |>) i xs)) s.
Proof.
  intros Hl Hn Hi Hp. unfold exynos_update_ip_idle_status. apply wp_bind. eapply wp_mono; [by eapply wp_find_ip|]. intros r s' [-> ->]. destruct Hl as [Hl Hx].
  destruct (Forall2_lookup_l _ _ _ _ _ Hx Hp) as (x & _ & Ex). apply wp_bind. eapply wp_get_ip; [exact Ex|]. apply wp_mod. split; [done|]. split.
  - split; [by apply linked_alter|]. apply alter_nodes; [by destruct Hl|done|done].
  - by apply numbered_alter.
Qed.

Lemma alter_last {A} (f : A -> A) xs x : alter f (length xs) (xs ++ [x]) = xs ++ [f x].
Proof. induction xs as [|y xs IH]; [done|]. cbn. by f_equal. Qed.

(** Registering appends a busy idle-IP; its number is its place. *)
Lemma wp_register s xs name : registry s xs -> Z.of_nat (length xs) + 1 < 2 ^ 31 -> x_alloc (s_answers s (s_asked s)) = true ->
  wp (exynos_get_idle_ip_index name) (fun r s' => r = Z.of_nat (length xs) /\ registry s' (xs ++ [MkIp name r NORMAL_IP CPUPM_STATE_BUSY 0 0 0]) /\ core s' = core s) s.
Proof.
  intros (l & [Hl Hx] & Hn)%registry_nodes Hlen Ha. unfold exynos_get_idle_ip_index. apply wp_bind. eapply wp_eq; [reflexivity|]. rewrite Ha. cbn [negb]. apply wp_bind, wp_get. cbv zeta.
  set (s1 := s <| s_asked := S (s_asked s) |>). destruct (fresh_ip_new s1 l ltac:(by destruct Hl)) as (Hp0 & Hpn & Hpl). change (s_ips s1) with (s_ips s) in Hpn. remember (fresh_ip s1) as p eqn:Ep. clear Ep. apply wp_bind, wp_mod.
  set (s2 := s1 <| s_ips := <[p := MkIp "" 0 0 0 0 0 0]> (s_ips s1) |>).
  assert (Hl2 : nodes s2 l xs). { split; [destruct Hl as [L1 L2 L3 L4 L5]; split; try done; eapply Forall_impl; [exact L5|]; intros q [y Hy]; cbn|eapply Forall2_impl; [exact Hx|]; intros q y Hy; cbn].
    - destruct (decide (p = q)) as [->|]; [congruence|]. rewrite lookup_insert_ne by done. by exists y.
    - destruct (decide (p = q)) as [->|]; [congruence|]. by rewrite lookup_insert_ne. }
  destruct Hl2 as [Hl2 Hx2]. apply wp_bind. eapply wp_eq; [apply (wp_new_index s2 l xs Hl2 Hx2); [apply Hn|apply Hn]|]. apply wp_bind, wp_mod.
  match goal with |- wp _ _ ?x => set (s3 := x) end. assert (Hnode : s_ips s3 !! p = Some (MkIp name (u32 (Z.of_nat (length xs))) NORMAL_IP 0 0 0 0)) by (cbn; by rewrite lookup_alter_eq, lookup_insert_eq).
  assert (Hl3 : linked s3 l) by (by apply linked_alter). destruct (linked_add s3 l p _ Hl3 Hp0 Hpl Hnode) as (s4 & E4 & Hl4 & Ei & Ec & _). apply wp_bind. eapply wp_eq; [exact E4|]. rewrite <- Ei in Hnode.
  apply wp_bind. eapply wp_get_ip; [exact Hnode|]. cbn [ip_index]. rewrite (u32_small (Z.of_nat _)), (s32_small (Z.of_nat _)) by lia.
  assert (Hx4 : nodes s4 (l ++ [p]) (xs ++ [MkIp name (Z.of_nat (length xs)) NORMAL_IP 0 0 0 0])).
  { split; [done|]. apply Forall2_app; [|constructor; [|constructor]; rewrite Hnode, u32_small by lia; done]. rewrite Ei. apply Forall2_same_length_lookup. split; [by apply Forall2_length in Hx2|].
    intros i q y Hq Hy. cbn. rewrite lookup_alter_ne; [by eapply (Forall2_lookup_lr _ _ _ _ _ _ Hx2)|]. intros ->. by apply Hpl, (list_elem_of_lookup_2 _ i). }
  assert (Hlx : length l = length xs) by (by apply Forall2_length in Hx). destruct Hn as [Hn Hn']. assert (Hnum : numbered (xs ++ [MkIp name (Z.of_nat (length xs)) NORMAL_IP 0 0 0 0])).
  { split; [|rewrite length_app; simpl; lia]. intros i y [Hy|[Hle Hy]]%lookup_app_Some; [by apply Hn|]. apply list_lookup_singleton_Some in Hy as [Hi <-]. simpl. lia. }
  apply wp_bind. eapply wp_mono; [apply (wp_update s4 (l ++ [p]) _ _ _ (length xs) p Hx4 Hnum); [rewrite u32_small by lia; done|by apply list_lookup_middle]|].
  intros _ s5 (E5 & Hl5 & Hn5). assert (Hsame : alter (fun x => x <| ip_idle := u32 CPUPM_STATE_BUSY |>) (length xs) (xs ++ [MkIp name (Z.of_nat (length xs)) NORMAL_IP 0 0 0 0]) = xs ++ [MkIp name (Z.of_nat (length xs)) NORMAL_IP 0 0 0 0]).
  { by rewrite alter_last. }
  rewrite Hsame in Hl5, Hn5. destruct (Forall2_lookup_l _ _ _ _ _ (proj2 Hl5) (list_lookup_middle l [] p _ eq_refl)) as (y & Hy & Ey). rewrite Hlx in Hy. rewrite list_lookup_middle in Hy by done. injection Hy as <-.
  apply wp_bind. eapply wp_get_ip; [exact Ey|]. apply wp_ret. cbn [ip_index]. rewrite s32_small by lia. split; [done|]. split; [by apply registry_nodes; eexists|]. by rewrite E5.
Qed.

Lemma wp_update_registry s xs index idle : registry s xs -> 0 <= index < Z.of_nat (length xs) ->
  wp (exynos_update_ip_idle_status index idle) (fun _ s' => registry s' (alter (fun x => x <| ip_idle := u32 idle |>) (Z.to_nat index) xs) /\ core s' = core s) s.
Proof.
  intros (l & Hl & Hn)%registry_nodes Hi. pose proof (Forall2_length _ _ _ (proj2 Hl)) as Hlen. pose proof (proj2 Hn). destruct (lookup_lt_is_Some_2 l (Z.to_nat index) ltac:(lia)) as [p Hp].
  eapply wp_mono; [apply (wp_update s l xs index idle (Z.to_nat index) p Hl Hn); [rewrite u32_small by lia; lia|done]|]. intros _ s' (-> & Hl' & Hn'). split; [|done]. apply registry_nodes. by eexists.
Qed.

(** A state has one registry. *)
Lemma seg_unique nx l : forall p l', Forall (fun p => 0 < p) l -> Forall (fun p => 0 < p) l' -> seg nx p l -> seg nx p l' -> l = l'.
Proof.
  induction l as [|q l IH]; intros p [|q' l'] H H'; cbn [seg]; [done|..].
  - intros -> [<- _]. apply Forall_cons in H' as [? _]. lia.
  - intros [-> _] ->. apply Forall_cons in H as [? _]. lia.
  - intros (-> & n & Hn & Hl) (<- & n' & Hn' & Hl'). f_equal. apply Forall_cons in H as [_ H], H' as [_ H']. rewrite Hn in Hn'. injection Hn' as <-. by apply (IH n).
Qed.

Lemma registry_unique s xs ys : registry s xs -> registry s ys -> xs = ys.
Proof.
  intros (l & [(p & Hp & Hl) _ _ Hpos _] & Hx & _) (l' & [(p' & Hp' & Hl') _ _ Hpos' _] & Hy & _). rewrite Hp in Hp'. injection Hp' as <-. pose proof (seg_unique _ _ _ _ Hpos Hpos' Hl Hl') as <-. clear - Hx Hy. revert ys Hy.
  induction Hx as [|q x l xs Hq _ IH]; intros ys Hy; inversion Hy as [|? ? ? ? Hq' ?]; subst; [done|]. rewrite Hq in Hq'. injection Hq' as <-. f_equal. by apply IH.
Qed.

(** ** The veto *)

Definition busy_normal (x : idle_ip) : Prop := ip_type x = NORMAL_IP /\ ip_idle x = CPUPM_STATE_BUSY.

(** Elements that differ in their counts only. *)
Definition recounted (x y : idle_ip) : Prop := y = x <| ip_busy_count := ip_busy_count y |>.

Lemma recounted_same x y : recounted x y -> ip_index y = ip_index x /\ ip_type y = ip_type x /\ ip_idle y = ip_idle x.
Proof. by intros ->. Qed.

Lemma recounted_refl x : recounted x x.
Proof. by destruct x. Qed.

Lemma wp_is_busy p x (Q : bool -> cpupm_state -> Prop) s : s_ips s !! p = Some x -> (forall b n, (busy_normal x -> b = true) -> (ip_type x = NORMAL_IP -> b = true -> busy_normal x) -> Q b (s <| s_asked := n |>)) -> wp (__ip_busy p) Q s.
Proof.
  intros E HQ. unfold __ip_busy. apply wp_bind. eapply wp_get_ip; [exact E|]. unfold busy_normal in HQ. destruct (Z.eqb_spec (ip_type x) NORMAL_IP) as [Et|Et].
  - apply wp_ret. specialize (HQ (ip_idle x =? CPUPM_STATE_BUSY) (s_asked s)). replace (s <| s_asked := s_asked s |>) with s in HQ by (by destruct s). apply HQ; [by intros [_ ->]|]. by intros _ ?%Z.eqb_eq.
  - destruct (Z.eqb_spec (ip_type x) EXTERN_IP).
    + apply wp_bind. eapply wp_eq; [reflexivity|]. apply wp_ret. apply HQ; [by intros [? _]|done].
    + apply wp_ret. specialize (HQ false (s_asked s)). replace (s <| s_asked := s_asked s |>) with s in HQ by (by destruct s). apply HQ; [by intros [? _]|done].
Qed.

Lemma wp_profile_idle_ip s xs : registry s xs -> wp cpupm_profile_idle_ip (fun _ s' => exists ys, registry s' ys /\ Forall2 recounted xs ys /\ core s' = core s) s.
Proof.
  intros (l & Hl & Hn)%registry_nodes. unfold cpupm_profile_idle_ip. apply wp_bind, wp_mod. set (s1 := s <| s_check_count := _ |>).
  apply wp_bind. eapply wp_mono; [eapply (wp_for_each _ (fun l' s' => (exists pre, l = pre ++ l') /\ core s' = core s /\ exists ys, nodes s' l ys /\ Forall2 recounted xs ys) (fun _ s' => core s' = core s /\ exists ys, nodes s' l ys /\ Forall2 recounted xs ys)) with (l := l)|].
  - intros q l' s' ((pre & Hpre) & Hc & ys & [Hl' Hx'] & Hr). assert (Hq : l !! length pre = Some q) by (rewrite Hpre; by apply list_lookup_middle).
    destruct (Forall2_lookup_l _ _ _ _ _ Hx' Hq) as (y & Hy & Ey). apply wp_bind. eapply wp_is_busy; [exact Ey|]. intros b n _ _. destruct b; apply wp_bind; [apply wp_mod|]; apply wp_ret; (split; [done|split; [exists (pre ++ [q]); by rewrite <- app_assoc|split; [done|]]]).
    + eexists. split; [split; [apply linked_alter; (eapply linked_frame; [exact Hl'|done..])|apply alter_nodes; [by destruct Hl'|done|done]]|]. apply Forall2_same_length_lookup. split; [rewrite length_alter; by apply Forall2_length in Hr|]. intros i x z Hx Hz.
      destruct (decide (i = length pre)) as [->|Hd]; [|rewrite list_lookup_alter_ne in Hz by done; by eapply (Forall2_lookup_lr _ _ _ _ _ _ Hr)].
      rewrite list_lookup_alter, decide_True, Hy in Hz by done. injection Hz as <-. pose proof (Forall2_lookup_lr _ _ _ _ _ _ Hr Hx Hy) as Hxy. unfold recounted in *. rewrite Hxy. by destruct x.
    + exists ys. split; [|done]. split; [(eapply linked_frame; [exact Hl'|done..])|done].
  - intros s' (_ & Hs'). done.
  - (eapply linked_frame; [exact (proj1 Hl)|done..]).
  - split; [by exists []|]. split; [done|]. exists xs. split; [split; [(eapply linked_frame; [exact (proj1 Hl)|done..])|by destruct Hl]|]. apply Forall2_same_length_lookup. split; [done|]. intros i x y Hx Hy. rewrite Hx in Hy. injection Hy as <-. apply recounted_refl.
  - intros r s' (Hc & ys & Hl' & Hr). apply wp_ret. exists ys. split; [|done]. apply registry_nodes. exists l. split; [done|]. destruct Hn as [Hn Hlen]. pose proof (Forall2_length _ _ _ Hr) as Hlen'. split; [|lia].
    intros i y Hy. destruct (Forall2_lookup_r _ _ _ _ _ Hr Hy) as (x & Hx & Exy). rewrite (proj1 (recounted_same _ _ Exy)). by apply Hn.
Qed.

(** The walk ends, and finds out whether an idle-IP is busy. *)
Lemma wp_ip_busy s xs : registry s xs ->
  wp ip_busy (fun r s' => (exists ys, registry s' ys /\ Forall2 recounted xs ys) /\ core s' = core s /\ (r = false -> Forall (fun x => ~ busy_normal x) xs) /\
    (Forall (fun x => ip_type x = NORMAL_IP) xs -> r = true -> Exists busy_normal xs)) s.
Proof.
  intros Hx. unfold ip_busy. apply wp_bind. eapply wp_mono; [by apply wp_profile_idle_ip|]. intros _ s1 (ys & (l & Hl & Hn)%registry_nodes & Hr & Hc).
  assert (Hb : forall x y, recounted x y -> busy_normal y <-> busy_normal x) by (intros x y (_ & E1 & E2)%recounted_same; unfold busy_normal; by rewrite E1, E2).
  apply wp_bind. eapply wp_mono; [eapply (wp_for_each _ (fun l' s' => (exists n, s' = s1 <| s_asked := n |>) /\ exists pre, l = pre ++ l' /\ Forall (fun x => ~ busy_normal x) (take (length pre) ys))
    (fun r s' => (exists n, s' = s1 <| s_asked := n |>) /\ match r with None => Forall (fun x => ~ busy_normal x) ys | Some _ => Forall (fun x => ip_type x = NORMAL_IP) ys -> Exists busy_normal ys end)) with (l := l)|].
  - intros q l' s' ((n & ->) & pre & Hpre & Hno). assert (Hq : l !! length pre = Some q) by (rewrite Hpre; by apply list_lookup_middle).
    destruct (Forall2_lookup_l _ _ _ _ _ (proj2 Hl) Hq) as (y & Hy & Ey). apply wp_bind. eapply wp_is_busy; [exact Ey|]. intros b m Hb1 Hb2. apply wp_ret. destruct b.
    + split; [by exists m|]. intros Hall. apply Exists_exists. exists y. split; [by eapply list_elem_of_lookup_2|]. apply Hb2; [|done]. eapply (proj1 (Forall_forall _ _) Hall). by eapply list_elem_of_lookup_2.
    + split; [done|]. split; [by exists m|]. exists (pre ++ [q]). split; [by rewrite <- app_assoc|]. rewrite length_app, Nat.add_comm. cbn [length Nat.add]. rewrite (take_S_r _ _ _ Hy). apply Forall_app. split; [done|].
      apply Forall_singleton. intros Hy'. by specialize (Hb1 Hy').
  - intros s' ((n & ->) & pre & Hpre & Hno). rewrite app_nil_r in Hpre. subst pre. rewrite take_ge in Hno by (pose proof (Forall2_length _ _ _ (proj2 Hl)); lia). split; [by exists n|done].
  - by destruct Hl.
  - split; [exists (s_asked s1); by destruct s1|]. exists []. split; [done|constructor].
  - intros r s' ((n & ->) & Hcase). apply wp_ret. split; [exists ys; split; [apply registry_nodes; exists l; split; [split; [(eapply linked_frame; [exact (proj1 Hl)|done..])|by destruct Hl]|done]|done]|]. split; [done|].
    destruct r as [u|]; (split; [|]); try done.
    + intros Hall _. assert (Hy : Forall (fun x => ip_type x = NORMAL_IP) ys). { apply Forall_lookup. intros i y Hy. destruct (Forall2_lookup_r _ _ _ _ _ Hr Hy) as (x & Hxi & Exy). destruct (recounted_same _ _ Exy) as (_ & -> & _). by apply (proj1 (Forall_lookup _ _) Hall i). }
      apply Exists_exists in Hcase as (y & [i Hy2]%list_elem_of_lookup & Hby); [|done]. destruct (Forall2_lookup_r _ _ _ _ _ Hr Hy2) as (x & Hxi & Exy). apply Exists_exists. exists x. split; [by eapply list_elem_of_lookup_2|]. by apply (Hb _ _ Exy).
    + intros _. apply Forall_lookup. intros i x Hxi Hbx. destruct (Forall2_lookup_l _ _ _ _ _ Hr Hxi) as (y & Hy & Exy). apply (proj1 (Forall_lookup _ _) Hcase i y Hy). by apply (Hb _ _ Exy).
Qed.
