(* ===== verification/CpupmView.v ===== *)
(** * Power modes and the power controller

    What the state of the cpus, of the power modes and the calls made to the power
    controller have to do with one another, stated on a view of the state without
    statistics and timers, and the changes of that view that keep it so. *)

From S2P Require Import Prelude Cpupm.

(** ** The view *)

Record cpu_view := MkCv { cv_state : Z; cv_modes : list (option nat); cv_hot : bool }.
#[export] Instance eta_cv : Eta cpu_view := mk_eta (fun c => MkCv (cv_state c) (cv_modes c) (cv_hot c)).
Record mode_view := MkMv { mv_state : Z; mv_type : Z; mv_cal : Z; mv_siblings : cpumask; mv_allowed : cpumask; mv_disable : Z }.
#[export] Instance eta_mv : Eta mode_view := mk_eta (fun m => MkMv (mv_state m) (mv_type m) (mv_cal m) (mv_siblings m) (mv_allowed m) (mv_disable m)).
Record view := MkView { v_cpus : list cpu_view; v_online : cpumask; v_modes : list mode_view; v_system : bool; v_log : list call }.
#[export] Instance eta_view : Eta view := mk_eta (fun v => MkView (v_cpus v) (v_online v) (v_modes v) (v_system v) (v_log v)).

Definition view_cpu (p : exynos_cpupm) : cpu_view := MkCv (pm_state p) (pm_modes p) (pm_hotplug_ing p).
Definition view_mode (m : power_mode) : mode_view := MkMv (pw_state m) (pw_type m) (pw_cal_id m) (pw_siblings m) (pw_entry_allowed m) (pw_disable m).
(** The calls that switch power; both ways out of the system mode. *)
Definition power_call (c : call) : option call := match c with PmuWrite _ _ | Notify _ _ => None | PmEarlyWakeup => Some PmExit | _ => Some c end.
Definition view_of (s : cpupm_state) : view :=
  MkView (view_cpu <$> s_cpus s) (s_online s) (view_mode <$> s_mode_list s) (s_system_disabled s) (omap power_call (s_log s)).

Definition cpu_of (v : view) (c : nat) : cpu_view := default (view_cpu zero_pm) (v_cpus v !! c).
Definition cstate (v : view) (c : nat) : Z := cv_state (cpu_of v c).
Definition vmode (v : view) (c : nat) (type : Z) : option nat := default None (cv_modes (cpu_of v c) !! Z.to_nat type).

Definition set_cpu (c : nat) (st : Z) (v : view) : view := v <| v_cpus := alter (fun x => x <| cv_state := st |>) c (v_cpus v) |>.
Definition set_mode (j : nat) (st : Z) (v : view) : view := v <| v_modes := alter (fun m => m <| mv_state := st |>) j (v_modes v) |>.
Definition call_made (c : call) (v : view) : view := v <| v_log := v_log v ++ [c] |>.

(** ** What the calls amount to *)

Definition last_switch (on off : call -> bool) (log : list call) : bool := foldl (fun b c => if off c then true else if on c then false else b) false log.
Definition cluster_off (id : Z) : list call -> bool := last_switch (fun c => match c with ClusterEnable i => i =? id | _ => false end) (fun c => match c with ClusterDisable i => i =? id | _ => false end).
Definition cpu_off (cpu : nat) : list call -> bool := last_switch (fun c => match c with CpuEnable i => (i =? cpu)%nat | _ => false end) (fun c => match c with CpuDisable i => (i =? cpu)%nat | _ => false end).
Definition sleeping : list call -> bool := last_switch (fun c => match c with PmExit => true | _ => false end) (fun c => match c with PmEnter => true | _ => false end).

Lemma last_switch_snoc on off log c : last_switch on off (log ++ [c]) = if off c then true else if on c then false else last_switch on off log.
Proof. unfold last_switch. by rewrite foldl_app. Qed.

(** ** Hotplug

    One cpu at a time goes down or comes up; it is alive except from the callback
    that takes it down to the one that brings it up. *)

Inductive phase := Stable | Down (c : nat) | Up (c : nat).
#[export] Instance phase_eq : EqDecision phase.
Proof. solve_decision. Defined.

Definition alive (h : phase) (v : view) (c : nat) : Prop := (c ∈ v_online v /\ h <> Down c) \/ h = Up c.

(** ** The tree of cpus and modes *)

Record tree_ok (v : view) : Prop := {
  tk_mode : forall c ty j, ty = POWERMODE_TYPE_CLUSTER \/ ty = POWERMODE_TYPE_SYSTEM -> vmode v c ty = Some j -> exists m, v_modes v !! j = Some m /\ mv_type m = ty /\ c ∈ mv_siblings m;
  tk_sibling : forall j m c, v_modes v !! j = Some m -> c ∈ mv_siblings m -> (c < length (v_cpus v))%nat /\ vmode v c (mv_type m) = Some j;
  tk_type : forall j m, v_modes v !! j = Some m -> mv_type m = POWERMODE_TYPE_CLUSTER \/ mv_type m = POWERMODE_TYPE_SYSTEM;
  tk_system : forall j m c, v_modes v !! j = Some m -> mv_type m = POWERMODE_TYPE_SYSTEM -> (c < length (v_cpus v))%nat -> c ∈ mv_siblings m;
  tk_cal : forall i j m n, v_modes v !! i = Some m -> v_modes v !! j = Some n -> mv_type m = POWERMODE_TYPE_CLUSTER -> mv_type n = POWERMODE_TYPE_CLUSTER -> mv_cal m = mv_cal n -> i = j;
  tk_online : forall c, c ∈ v_online v -> (c < length (v_cpus v))%nat }.

(** ** The invariant *)

Definition busy_or_idle (x : Z) : Prop := x = CPUPM_STATE_BUSY \/ x = CPUPM_STATE_IDLE.

Record states_ok (h : phase) (v : view) : Prop := {
  sk_cpu : forall c, busy_or_idle (cstate v c);
  sk_mode : forall j m, v_modes v !! j = Some m -> busy_or_idle (mv_state m);
  (** A mode that is entered has all its online cpus idle, and has some. *)
  sk_siblings : forall j m c, v_modes v !! j = Some m -> mv_state m = CPUPM_STATE_IDLE -> c ∈ mv_siblings m -> c ∈ v_online v -> cstate v c = CPUPM_STATE_IDLE;
  sk_some : forall j m, v_modes v !! j = Some m -> mv_state m = CPUPM_STATE_IDLE -> exists c, c ∈ mv_siblings m /\ c ∈ v_online v;
  sk_offline : forall c, c ∉ v_online v -> cstate v c = CPUPM_STATE_BUSY;
  (** The flag of the system mode. *)
  sk_system : forall j m, v_modes v !! j = Some m -> mv_type m = POWERMODE_TYPE_SYSTEM -> (mv_state m = CPUPM_STATE_IDLE <-> v_system v = true);
  sk_system_some : v_system v = true -> exists j m, v_modes v !! j = Some m /\ mv_type m = POWERMODE_TYPE_SYSTEM;
  (** The cpu that goes down is still running; the one that comes up is not. *)
  sk_down : forall c, h = Down c -> (c ∈ v_online v) /\ cstate v c = CPUPM_STATE_BUSY /\ cv_hot (cpu_of v c) = true;
  sk_up : forall c, h = Up c -> (c ∉ v_online v) /\ (c < length (v_cpus v))%nat }.

(** What the power controller has been told. *)
Record calls_ok (h : phase) (v : view) : Prop := {
  ck_cluster : forall j m, v_modes v !! j = Some m -> mv_type m = POWERMODE_TYPE_CLUSTER ->
    (cluster_off (mv_cal m) (v_log v) = true <-> mv_state m = CPUPM_STATE_IDLE \/ forall c, c ∈ mv_siblings m -> ~ alive h v c);
  ck_cpu : forall c, (c < length (v_cpus v))%nat -> (cpu_off c (v_log v) = true <-> cstate v c = CPUPM_STATE_IDLE \/ ~ alive h v c);
  ck_system : sleeping (v_log v) = v_system v }.

(** The system sleeps only while the clusters that do not boot it do. *)
Definition clusters_ok (v : view) : Prop :=
  v_system v = true -> forall c j m, c ∈ v_online v -> vmode v c POWERMODE_TYPE_CLUSTER = Some j -> v_modes v !! j = Some m -> BOOT_CPU ∉ mv_siblings m -> mv_state m = CPUPM_STATE_IDLE.

(** Modes that are disabled are not entered; this is broken while one is being disabled. *)
Definition disabled_ok (v : view) : Prop := forall j m, v_modes v !! j = Some m -> mv_disable m <> 0 -> mv_state m = CPUPM_STATE_BUSY.

Record base (h : phase) (v : view) : Prop := { b_tree : tree_ok v; b_states : states_ok h v; b_calls : calls_ok h v }.
Record ok (h : phase) (v : view) : Prop := { ok_base : base h v; ok_clusters : clusters_ok v; ok_disabled : disabled_ok v }.

(** ** Updates of the view *)

Section Updates.
Implicit Types v : view.

Lemma cpu_of_alter f c c' v : (c < length (v_cpus v))%nat -> cpu_of (v <| v_cpus := alter f c (v_cpus v) |>) c' = if decide (c' = c) then f (cpu_of v c) else cpu_of v c'.
Proof.
  intros Hc. unfold cpu_of. cbn. rewrite list_lookup_alter. destruct (lookup_lt_is_Some_2 _ _ Hc) as [x Hx]. repeat case_decide; subst; try done. by rewrite Hx.
Qed.

Lemma cstate_set_cpu c st v c' : (c < length (v_cpus v))%nat -> cstate (set_cpu c st v) c' = if decide (c' = c) then st else cstate v c'.
Proof. intros Hc. unfold cstate, set_cpu. rewrite cpu_of_alter by done. by case_decide. Qed.

Lemma vmode_alter f c v c' ty : (forall x, cv_modes (f x) = cv_modes x) -> vmode (v <| v_cpus := alter f c (v_cpus v) |>) c' ty = vmode v c' ty.
Proof.
  intros Hf. unfold vmode, cpu_of. cbn. rewrite list_lookup_alter. case_decide; [subst|done]. match goal with |- context [_ <$> ?x] => destruct x end; simpl; [by rewrite Hf|done].
Qed.

Lemma hot_set_cpu c st v c' : cv_hot (cpu_of (set_cpu c st v) c') = cv_hot (cpu_of v c').
Proof. unfold cpu_of, set_cpu. cbn. rewrite list_lookup_alter. case_decide; [subst|done]. by match goal with |- context [_ <$> ?x] => destruct x end. Qed.

(** A mode after the state of one has changed. *)
Lemma modes_set_mode j st v i m : v_modes (set_mode j st v) !! i = Some m -> exists m0, v_modes v !! i = Some m0 /\ m = (if decide (i = j) then m0 <| mv_state := st |> else m0).
Proof.
  unfold set_mode. cbn. rewrite list_lookup_alter. case_decide; [subst|exists m; by rewrite decide_False]. match goal with |- context [_ <$> ?x] => destruct x as [m0|] end; [|done]. intros [= <-]. exists m0. by rewrite decide_True.
Qed.
Lemma modes_set_mode_eq j st v m : v_modes v !! j = Some m -> v_modes (set_mode j st v) !! j = Some (m <| mv_state := st |>).
Proof. intros H. unfold set_mode. cbn. by rewrite list_lookup_alter, decide_True, H. Qed.
Lemma modes_set_mode_ne j st v i : i <> j -> v_modes (set_mode j st v) !! i = v_modes v !! i.
Proof. intros H. unfold set_mode. cbn. rewrite list_lookup_alter. by rewrite decide_False. Qed.
Lemma length_set_cpu c st v : length (v_cpus (set_cpu c st v)) = length (v_cpus v).
Proof. unfold set_cpu. cbn. apply length_alter. Qed.
End Updates.

(** The tree does not change with the states. *)
Lemma tree_frame v v' : length (v_cpus v') = length (v_cpus v) -> (forall c ty, vmode v' c ty = vmode v c ty) -> v_online v' = v_online v ->
  (forall i m, v_modes v' !! i = Some m -> exists m0, v_modes v !! i = Some m0 /\ (mv_type m, mv_cal m, mv_siblings m) = (mv_type m0, mv_cal m0, mv_siblings m0)) ->
  (forall i m, v_modes v !! i = Some m -> is_Some (v_modes v' !! i)) -> tree_ok v -> tree_ok v'.
Proof.
  intros El Ev Eo Em Es [T1 T2 T3 T4 T5 T6]. split.
  - intros c ty j Hty Hc. rewrite Ev in Hc. destruct (T1 _ _ _ Hty Hc) as (m & Hm & Ht & Hs). destruct (Es _ _ Hm) as [m' Hm']. exists m'. destruct (Em _ _ Hm') as (m0 & Hm0 & [= -> _ ->]). rewrite Hm in Hm0. by injection Hm0 as <-.
  - intros j m c Hm Hc. destruct (Em _ _ Hm) as (m0 & Hm0 & [= Et _ Es']). rewrite El, Ev, Et. apply (T2 j m0 c Hm0). by rewrite <- Es'.
  - intros j m Hm. destruct (Em _ _ Hm) as (m0 & Hm0 & [= -> _ _]). by eapply T3.
  - intros j m c Hm Ht Hc. destruct (Em _ _ Hm) as (m0 & Hm0 & [= Et _ Es']). rewrite Es'. apply (T4 j m0); [done|congruence|by rewrite <- El].
  - intros i j m n Hm Hn Ht1 Ht2 Hcal. destruct (Em _ _ Hm) as (m0 & Hm0 & [= E1 E2 _]). destruct (Em _ _ Hn) as (n0 & Hn0 & [= E3 E4 _]). apply (T5 i j m0 n0); congruence.
  - intros c Hc. rewrite El. apply T6. by rewrite <- Eo.
Qed.

Lemma tree_set_mode j st v : tree_ok v -> tree_ok (set_mode j st v).
Proof.
  apply tree_frame; try done.
  - intros i m (m0 & Hm0 & ->)%modes_set_mode. exists m0. split; [done|]. by case_decide.
  - intros i m Hm. destruct (decide (i = j)) as [->|]; [by rewrite (modes_set_mode_eq _ _ _ _ Hm)|by rewrite modes_set_mode_ne, Hm].
Qed.
Lemma tree_set_cpu c st v : tree_ok v -> tree_ok (set_cpu c st v).
Proof. apply tree_frame; try done; first [apply length_set_cpu|intros; by apply vmode_alter|naive_solver]. Qed.
Lemma tree_push c v : tree_ok v -> tree_ok (call_made c v).
Proof. apply tree_frame; naive_solver. Qed.
Lemma tree_system b v : tree_ok v -> tree_ok (v <| v_system := b |>).
Proof. apply tree_frame; naive_solver. Qed.

(** What the calls amount to after one more. *)
Lemma cluster_off_push c v id : cluster_off id (v_log (call_made c v)) = match c with ClusterDisable i => if i =? id then true else cluster_off id (v_log v) | ClusterEnable i => if i =? id then false else cluster_off id (v_log v) | _ => cluster_off id (v_log v) end.
Proof. change (v_log (call_made c v)) with (v_log v ++ [c]). unfold cluster_off. rewrite last_switch_snoc. by destruct c. Qed.
Lemma cpu_off_push c v n : cpu_off n (v_log (call_made c v)) = match c with CpuDisable i => if (i =? n)%nat then true else cpu_off n (v_log v) | CpuEnable i => if (i =? n)%nat then false else cpu_off n (v_log v) | _ => cpu_off n (v_log v) end.
Proof. change (v_log (call_made c v)) with (v_log v ++ [c]). unfold cpu_off. rewrite last_switch_snoc. by destruct c. Qed.
Lemma sleeping_push c v : sleeping (v_log (call_made c v)) = match c with PmEnter => true | PmExit => false | _ => sleeping (v_log v) end.
Proof. change (v_log (call_made c v)) with (v_log v ++ [c]). unfold sleeping. rewrite last_switch_snoc. by destruct c. Qed.

Lemma clusters_set_cpu c st v : clusters_ok v -> clusters_ok (set_cpu c st v).
Proof. intros K Hv c' j m Ho Hvm. unfold set_cpu in Hvm. rewrite vmode_alter in Hvm by done. by eapply K. Qed.

(** ** A cpu goes idle *)

Lemma alive_online h v c : states_ok h v -> c ∈ v_online v -> alive h v c -> h <> Down c /\ h <> Up c.
Proof. intros S Hc Ha. split; [destruct Ha as [[]|]; congruence|]. intros ->. by destruct (sk_up _ _ S c eq_refl). Qed.

Definition cpu_idles (c : nat) (v : view) : view := set_cpu c CPUPM_STATE_IDLE (call_made (CpuDisable c) v).

Lemma cpu_idles_ok h v c : ok h v -> c ∈ v_online v -> alive h v c -> ok h (cpu_idles c v).
Proof.
  intros [[T S C] K D] Hc Ha. pose proof (tk_online _ T _ Hc) as Hlt. destruct (alive_online _ _ _ S Hc Ha) as [Hd Hu].
  assert (Hst : forall c', cstate (cpu_idles c v) c' = if decide (c' = c) then CPUPM_STATE_IDLE else cstate v c') by (intros; by apply (cstate_set_cpu c CPUPM_STATE_IDLE (call_made (CpuDisable c) v))).
  split; [split|by apply clusters_set_cpu|exact D].
  - by apply tree_set_cpu, tree_push.
  - destruct S as [S1 S2 S3 S4 S5 S6 S7 S8 S9]. split; try done.
    + intros c'. rewrite Hst. case_decide; [by right|apply S1].
    + intros j m c' Hm Hi Hs Ho. rewrite Hst. case_decide; [done|]. by eapply S3.
    + intros c' Ho. rewrite Hst. case_decide; [by subst|by apply S5].
    + intros c' ->. destruct (S8 c' eq_refl) as (H1 & H2 & H3). split; [done|]. rewrite Hst, decide_False by congruence. split; [done|]. unfold cpu_idles. by rewrite hot_set_cpu.
    + intros c' ->. unfold cpu_idles. rewrite length_set_cpu. by apply S9.
  - destruct C as [C1 C2 C3]. split.
    + intros j m Hm Ht. change (v_log (cpu_idles c v)) with (v_log (call_made (CpuDisable c) v)). rewrite cluster_off_push. by eapply C1.
    + intros c' Hc'. unfold cpu_idles in Hc'. rewrite length_set_cpu in Hc'. change (v_log (cpu_idles c v)) with (v_log (call_made (CpuDisable c) v)). rewrite cpu_off_push, Hst. destruct (Nat.eqb_spec c c') as [->|Hn].
      * rewrite decide_True by done. naive_solver.
      * rewrite decide_False by congruence. by apply C2.
    + change (v_log (cpu_idles c v)) with (v_log (call_made (CpuDisable c) v)). rewrite sleeping_push. exact C3.
Qed.

(** ** A mode is entered *)

(** What entering a mode takes. *)
Record can_enter (v : view) (j : nat) (m : mode_view) : Prop := {
  ce_mode : v_modes v !! j = Some m;
  ce_enabled : mv_disable m = 0;
  ce_siblings : forall c, c ∈ mv_siblings m -> c ∈ v_online v -> cstate v c = CPUPM_STATE_IDLE;
  ce_some : exists c, c ∈ mv_siblings m /\ c ∈ v_online v }.

Lemma enter_states h v j m : states_ok h v -> can_enter v j m -> mv_type m = POWERMODE_TYPE_CLUSTER -> states_ok h (set_mode j CPUPM_STATE_IDLE v).
Proof.
  intros [S1 S2 S3 S4 S5 S6 S7 S8 S9] [Hm He Hs Ho] Ht. split; try done.
  - intros i n (n0 & Hn & ->)%modes_set_mode. case_decide; [by right|by eapply S2].
  - intros i n c (n0 & Hn & ->)%modes_set_mode Hi Hc Hon. case_decide; [subst|by eapply S3]. apply Hs; [|done]. rewrite Hm in Hn. by injection Hn as <-.
  - intros i n (n0 & Hn & ->)%modes_set_mode Hi. case_decide; [subst|by eapply S4]. rewrite Hm in Hn. by injection Hn as <-.
  - intros i n (n0 & Hn & ->)%modes_set_mode Hty. case_decide; [subst|by eapply S6]. rewrite Hm in Hn. injection Hn as <-. cbn in Hty. by rewrite Ht in Hty.
  - intros Hv. destruct (S7 Hv) as (i & n & Hn & Hty). destruct (decide (i = j)) as [->|Hd]; [|exists i, n; by rewrite modes_set_mode_ne]. rewrite Hm in Hn. injection Hn as <-. by rewrite Ht in Hty.
Qed.

Definition cluster_sleeps (j : nat) (cal : Z) (v : view) : view := set_mode j CPUPM_STATE_IDLE (call_made (ClusterDisable cal) v).

Lemma cluster_sleeps_ok h v j m : ok h v -> can_enter v j m -> mv_type m = POWERMODE_TYPE_CLUSTER -> ok h (cluster_sleeps j (mv_cal m) v).
Proof.
  intros [[T S C] K D] Hce Ht. pose proof (ce_mode _ _ _ Hce) as Hm. split; [split|..].
  - by apply tree_set_mode, tree_push.
  - eapply (enter_states h (call_made _ v) j m); [by destruct S|by destruct Hce|done].
  - destruct C as [C1 C2 C3]. split; try done; (change (v_log (cluster_sleeps j (mv_cal m) v)) with (v_log (call_made (ClusterDisable (mv_cal m)) v))).
    + intros i n (n0 & Hn & ->)%modes_set_mode Hty. rewrite cluster_off_push. cbn [v_modes call_made] in Hn. change (v_modes (call_made (ClusterDisable (mv_cal m)) v)) with (v_modes v) in Hn. case_decide as E.
      * subst i. rewrite Hm in Hn. injection Hn as <-. cbn. rewrite Z.eqb_refl. naive_solver.
      * destruct (Z.eqb_spec (mv_cal m) (mv_cal n0)) as [Ec|_]; [|by eapply C1]. exfalso. apply E. symmetry. by eapply (tk_cal _ T).
    + intros c Hc. rewrite cpu_off_push. by apply C2.
    + rewrite sleeping_push. exact C3.
  - intros Hv c i n Hc Hvm Hn Hb. apply modes_set_mode in Hn as (n0 & Hn & ->). case_decide; [done|]. by eapply (K Hv c i n0).
  - intros i n (n0 & Hn & ->)%modes_set_mode Hd. case_decide; [subst|by eapply D]. exfalso. apply Hd. cbn in *. change (v_modes (call_made (ClusterDisable (mv_cal m)) v)) with (v_modes v) in Hn. rewrite Hm in Hn. injection Hn as <-. by destruct Hce.
Qed.

Definition system_sleeps (j : nat) (v : view) : view := set_mode j CPUPM_STATE_IDLE (call_made PmEnter v <| v_system := true |>).

Lemma system_sleeps_ok h v j m : ok h v -> can_enter v j m -> mv_type m = POWERMODE_TYPE_SYSTEM -> clusters_ok (v <| v_system := true |>) -> ok h (system_sleeps j v).
Proof.
  intros [[T S C] K D] Hce Ht Hk. pose proof (ce_mode _ _ _ Hce) as Hm. assert (Huniq : forall i n, v_modes v !! i = Some n -> mv_type n = POWERMODE_TYPE_SYSTEM -> i = j).
  { intros i n Hn Hty. destruct (ce_some _ _ _ Hce) as (c & _ & Ho). pose proof (tk_online _ T _ Ho) as Hlt.
    destruct (tk_sibling _ T i n c Hn (tk_system _ T _ _ _ Hn Hty Hlt)) as [_ E1]. destruct (tk_sibling _ T j m c Hm (tk_system _ T _ _ _ Hm Ht Hlt)) as [_ E2]. congruence. }
  destruct Hce as [_ He Hs Ho]. split; [split|..].
  - by apply tree_set_mode, tree_push, tree_system.
  - destruct S as [S1 S2 S3 S4 S5 S6 S7 S8 S9]. split; try done.
    + intros i n (n0 & Hn & ->)%modes_set_mode. case_decide; [by right|by eapply S2].
    + intros i n c (n0 & Hn & ->)%modes_set_mode Hi Hc Hon. case_decide; [subst|by eapply S3]. apply Hs; [|done]. cbn in Hn. rewrite Hm in Hn. by injection Hn as <-.
    + intros i n (n0 & Hn & ->)%modes_set_mode Hi. case_decide; [subst|by eapply S4]. cbn in Hn. rewrite Hm in Hn. by injection Hn as <-.
    + intros i n (n0 & Hn & ->)%modes_set_mode Hty. case_decide as E; [done|]. exfalso. apply E. by eapply Huniq.
    + intros _. exists j, (m <| mv_state := CPUPM_STATE_IDLE |>). split; [|done]. by apply modes_set_mode_eq.
  - destruct C as [C1 C2 C3]. split; (change (v_log (system_sleeps j v)) with (v_log (call_made PmEnter v))).
    + intros i n (n0 & Hn & ->)%modes_set_mode Hty. rewrite cluster_off_push. cbn in Hn. case_decide; [subst|by eapply C1]. rewrite Hm in Hn. injection Hn as <-. cbn in Hty. by rewrite Ht in Hty.
    + intros c Hc. rewrite cpu_off_push. by apply C2.
    + by rewrite sleeping_push.
  - intros _ c i n Hc Hvm Hn Hb. apply modes_set_mode in Hn as (n0 & Hn & ->). case_decide; [done|]. by eapply (Hk eq_refl c i n0).
  - intros i n (n0 & Hn & ->)%modes_set_mode Hd. case_decide; [subst|by eapply D]. exfalso. apply Hd. cbn in Hn. rewrite Hm in Hn. by injection Hn as <-.
Qed.

(** ** A cpu wakes *)

(** A mode is left by the first cpu that wakes. *)
Definition exit_mode (c : nat) (ty : Z) (v : view) : view :=
  match vmode v c ty with
  | None => v
  | Some j =>
      match v_modes v !! j with
      | None => v
      | Some m =>
          if mv_state m =? CPUPM_STATE_IDLE then
            if mv_type m =? POWERMODE_TYPE_CLUSTER then call_made (ClusterEnable (mv_cal m)) (set_mode j CPUPM_STATE_BUSY v)
            else if v_system v then (call_made PmExit (set_mode j CPUPM_STATE_BUSY v)) <| v_system := false |>
            else set_mode j CPUPM_STATE_BUSY v
          else v
      end
  end.
Definition cpu_wakes (c : nat) (v : view) : view := call_made (CpuEnable c) (set_cpu c CPUPM_STATE_BUSY (exit_mode c POWERMODE_TYPE_SYSTEM (exit_mode c POWERMODE_TYPE_CLUSTER v))).

(** Modes only become busy, and nothing else of them changes. *)
Definition woken (v v' : view) : Prop :=
  v_online v' = v_online v /\ length (v_modes v') = length (v_modes v) /\ (v_system v' = true -> v_system v = true) /\
  forall i m', v_modes v' !! i = Some m' -> exists m, v_modes v !! i = Some m /\ m' = m <| mv_state := mv_state m' |> /\ (mv_state m' = mv_state m \/ mv_state m' = CPUPM_STATE_BUSY).

Lemma woken_refl v : woken v v.
Proof. split_and!; try done. intros i m Hm. exists m. split; [done|]. split; [by destruct m|by left]. Qed.

Lemma woken_frame v v' : v_online v' = v_online v -> v_modes v' = v_modes v -> v_system v' = v_system v -> woken v v'.
Proof. intros E1 E2 E3. pose proof (woken_refl v) as H. unfold woken. by rewrite E1, E2, E3. Qed.

Lemma woken_trans v1 v2 v3 : woken v1 v2 -> woken v2 v3 -> woken v1 v3.
Proof.
  intros (E1 & E2 & E3 & E4) (F1 & F2 & F3 & F4). split_and!; [congruence|congruence|auto|]. intros i m3 H3. destruct (F4 _ _ H3) as (m2 & H2 & Em2 & Hs2). destruct (E4 _ _ H2) as (m1 & H1 & Em1 & Hs1).
  exists m1. split; [done|]. clear - Em1 Em2 Hs1 Hs2. destruct m1, m2, m3. cbn in *. injection Em1. injection Em2. intros. subst. split; [done|]. destruct Hs2 as [->|]; [done|by right].
Qed.

Lemma woken_set_mode j v v' : v_online v' = v_online v -> v_modes v' = v_modes (set_mode j CPUPM_STATE_BUSY v) -> (v_system v' = true -> v_system v = true) -> woken v v'.
Proof.
  intros E1 E2 E3. split; [done|]. rewrite E2. split; [apply length_alter|]. split; [done|]. intros i m (m0 & Hm & ->)%modes_set_mode. exists m0. split; [done|]. case_decide; [by split; [|right]|]. split; [by destruct m0|by left].
Qed.

Lemma exit_mode_woken c ty v : woken v (exit_mode c ty v) /\ v_cpus (exit_mode c ty v) = v_cpus v.
Proof.
  unfold exit_mode. destruct (vmode v c ty) as [j|]; [|split; [apply woken_refl|done]]. destruct (v_modes v !! j) as [m|]; [|split; [apply woken_refl|done]].
  destruct (mv_state m =? CPUPM_STATE_IDLE); [|split; [apply woken_refl|done]]. repeat case_match; (split; [by apply (woken_set_mode j)|done]).
Qed.

Lemma woken_disabled v v' : woken v v' -> disabled_ok v -> disabled_ok v'.
Proof. intros (_ & _ & _ & H) D i m' Hm Hd. destruct (H _ _ Hm) as (m & Hm0 & Em & Hs). destruct Hs as [->|]; [|done]. apply (D i m Hm0). rewrite Em in Hd. exact Hd. Qed.

(** The mode of a type that a cpu has is busy after it has left it. *)
Definition mode_busy (v : view) (c : nat) (ty : Z) : Prop := forall j m, vmode v c ty = Some j -> v_modes v !! j = Some m -> mv_state m = CPUPM_STATE_BUSY.

Lemma mode_busy_woken v v' c ty : woken v v' -> v_cpus v' = v_cpus v -> mode_busy v c ty -> mode_busy v' c ty.
Proof.
  intros (_ & _ & _ & H) E Hb j m' Hv Hm. destruct (H _ _ Hm) as (m & Hm0 & _ & Hs). destruct Hs as [->|]; [|done]. eapply Hb; [|done]. unfold vmode, cpu_of in *. by rewrite E in Hv.
Qed.

Lemma set_busy_states h v j : states_ok h v -> (forall m, v_modes v !! j = Some m -> mv_type m = POWERMODE_TYPE_CLUSTER) -> states_ok h (set_mode j CPUPM_STATE_BUSY v).
Proof.
  intros [S1 S2 S3 S4 S5 S6 S7 S8 S9] Ht. split; try done.
  - intros i n (n0 & Hn & ->)%modes_set_mode. case_decide; [by left|by eapply S2].
  - intros i n c (n0 & Hn & ->)%modes_set_mode Hi. case_decide; [done|by eapply S3].
  - intros i n (n0 & Hn & ->)%modes_set_mode Hi. case_decide; [done|by eapply S4].
  - intros i n (n0 & Hn & ->)%modes_set_mode Hty. case_decide; [subst|by eapply S6]. cbn in Hty. rewrite (Ht _ Hn) in Hty. done.
  - intros Hv. destruct (S7 Hv) as (i & n & Hn & Hty). destruct (decide (i = j)) as [->|Hd]; [|exists i, n; by rewrite modes_set_mode_ne]. rewrite (Ht _ Hn) in Hty. done.
Qed.

Lemma exit_mode_busy c ty v : (forall j m, vmode v c ty = Some j -> v_modes v !! j = Some m -> busy_or_idle (mv_state m)) -> mode_busy (exit_mode c ty v) c ty.
Proof.
  intros Hs j m Hv Hm. pose proof (proj2 (exit_mode_woken c ty v)) as Ec. unfold vmode, cpu_of in Hv. rewrite Ec in Hv. fold (cpu_of v c) in Hv. fold (vmode v c ty) in Hv. unfold exit_mode in Hm. rewrite Hv in Hm.
  destruct (v_modes v !! j) as [m0|] eqn:Em; [|congruence]. destruct (Z.eqb_spec (mv_state m0) CPUPM_STATE_IDLE) as [E|E].
  - assert (Hb : v_modes (set_mode j CPUPM_STATE_BUSY v) !! j = Some m) by (by repeat case_match). rewrite (modes_set_mode_eq _ _ _ _ Em) in Hb. by injection Hb as <-.
  - rewrite Em in Hm. injection Hm as <-. destruct (Hs _ _ Hv Em); done.
Qed.

Lemma exit_cluster_base h c v : base h v -> c ∈ v_online v -> alive h v c -> base h (exit_mode c POWERMODE_TYPE_CLUSTER v).
Proof.
  intros [T S C] Hc Ha. unfold exit_mode. destruct (vmode v c POWERMODE_TYPE_CLUSTER) as [j|] eqn:Ev; [|done]. destruct (tk_mode _ T _ _ _ (or_introl eq_refl) Ev) as (m & Hm & Ht & Hcs). rewrite Hm, Ht.
  destruct (Z.eqb_spec (mv_state m) CPUPM_STATE_IDLE) as [Hi|]; [|done]. cbn [Z.eqb POWERMODE_TYPE_CLUSTER]. split.
  - by apply tree_push, tree_set_mode.
  - destruct (set_busy_states h v j S) as [? ? ? ? ? ? ? ? ?]; [|by split]. intros n Hn. congruence.
  - destruct C as [C1 C2 C3]. split.
    + intros i n (n0 & Hn & ->)%(modes_set_mode j CPUPM_STATE_BUSY v) Hty. rewrite cluster_off_push. cbn [v_log set_mode]. case_decide as E.
      * subst i. rewrite Hm in Hn. injection Hn as <-. cbn. rewrite Z.eqb_refl. split; [done|]. intros [H|H]; [done|]. by destruct (H c Hcs Ha).
      * destruct (Z.eqb_spec (mv_cal m) (mv_cal n0)) as [Ec|_]; [|by eapply C1]. exfalso. apply E. symmetry. by eapply (tk_cal _ T).
    + intros c' Hc'. rewrite cpu_off_push. by apply C2.
    + rewrite sleeping_push. exact C3.
Qed.

Lemma exit_system_base h c v : base h v -> c ∈ v_online v -> base h (exit_mode c POWERMODE_TYPE_SYSTEM v) /\ v_system (exit_mode c POWERMODE_TYPE_SYSTEM v) = false.
Proof.
  intros [T S C] Hc. pose proof (tk_online _ T _ Hc) as Hlt. assert (Hnone : (forall j m, v_modes v !! j = Some m -> mv_type m = POWERMODE_TYPE_SYSTEM -> vmode v c POWERMODE_TYPE_SYSTEM = Some j)).
  { intros j m Hm Ht. destruct (tk_sibling _ T j m c Hm (tk_system _ T _ _ _ Hm Ht Hlt)) as [_ E]. by rewrite Ht in E. }
  unfold exit_mode. destruct (vmode v c POWERMODE_TYPE_SYSTEM) as [j|] eqn:Ev.
  2: { split; [done|]. destruct (v_system v) eqn:E; [|done]. destruct (sk_system_some _ _ S E) as (j & m & Hm & Ht). by specialize (Hnone j m Hm Ht). }
  destruct (tk_mode _ T _ _ _ (or_intror eq_refl) Ev) as (m & Hm & Ht & Hcs). rewrite Hm, Ht. cbn [Z.eqb POWERMODE_TYPE_CLUSTER POWERMODE_TYPE_SYSTEM]. pose proof (sk_system _ _ S j m Hm Ht) as Hsys.
  destruct (Z.eqb_spec (mv_state m) CPUPM_STATE_IDLE) as [Hi|Hi]; [|split; [done|]; destruct (v_system v) eqn:E; [exfalso; by apply Hi, Hsys|done]].
  rewrite (proj1 Hsys Hi). split; [|done]. assert (Huniq : forall i n, v_modes v !! i = Some n -> mv_type n = POWERMODE_TYPE_SYSTEM -> i = j) by (intros i n Hn Hty; specialize (Hnone i n Hn Hty); congruence). split.
  - by apply tree_system, tree_push, tree_set_mode.
  - destruct S as [S1 S2 S3 S4 S5 S6 S7 S8 S9]. split; try done.
    + intros i n (n0 & Hn & ->)%(modes_set_mode j CPUPM_STATE_BUSY v). case_decide; [by left|by eapply S2].
    + intros i n c' (n0 & Hn & ->)%(modes_set_mode j CPUPM_STATE_BUSY v) Hid. case_decide; [done|by eapply S3].
    + intros i n (n0 & Hn & ->)%(modes_set_mode j CPUPM_STATE_BUSY v) Hid. case_decide; [done|by eapply S4].
    + intros i n (n0 & Hn & ->)%(modes_set_mode j CPUPM_STATE_BUSY v) Hty. case_decide as E; [done|]. exfalso. apply E. by eapply Huniq.
  - destruct C as [C1 C2 C3]. split; cbn [v_log]; (change (v_log ((call_made PmExit (set_mode j CPUPM_STATE_BUSY v)) <| v_system := false |>)) with (v_log (call_made PmExit v))).
    + intros i n (n0 & Hn & ->)%(modes_set_mode j CPUPM_STATE_BUSY v) Hty. rewrite cluster_off_push. case_decide; [subst|by eapply C1]. rewrite Hm in Hn. injection Hn as <-. cbn in Hty. by rewrite Ht in Hty.
    + intros c' Hc'. rewrite cpu_off_push. by apply C2.
    + by rewrite sleeping_push.
Qed.

Lemma idle_alive h v c : states_ok h v -> c ∈ v_online v -> cstate v c = CPUPM_STATE_IDLE -> alive h v c.
Proof. intros S Hc Hi. left. split; [done|]. intros ->. destruct (sk_down _ _ S c eq_refl) as (_ & Hb & _). by rewrite Hi in Hb. Qed.

Lemma cpu_wakes_woken c v : woken v (cpu_wakes c v).
Proof.
  unfold cpu_wakes. eapply woken_trans; [apply (exit_mode_woken c POWERMODE_TYPE_CLUSTER)|]. eapply woken_trans; [apply (exit_mode_woken c POWERMODE_TYPE_SYSTEM)|]. by apply woken_frame.
Qed.

Lemma mode_states h v c ty : base h v -> forall j m, vmode v c ty = Some j -> v_modes v !! j = Some m -> busy_or_idle (mv_state m).
Proof. intros B j m _ Hm. by eapply (sk_mode _ _ (b_states _ _ B)). Qed.

Lemma cpu_wakes_base h v c : base h v -> c ∈ v_online v -> alive h v c -> base h (cpu_wakes c v) /\ v_system (cpu_wakes c v) = false.
Proof.
  intros B Hc Ha. pose proof (exit_cluster_base _ _ _ B Hc Ha) as B1. destruct (exit_mode_woken c POWERMODE_TYPE_CLUSTER v) as [W1 E1]. set (v1 := exit_mode c POWERMODE_TYPE_CLUSTER v) in *.
  assert (Hc1 : c ∈ v_online v1) by (by rewrite (proj1 W1)). assert (Ha1 : alive h v1 c) by (unfold alive; by rewrite (proj1 W1)). destruct (exit_system_base _ _ _ B1 Hc1) as [B2 Hs].
  destruct (exit_mode_woken c POWERMODE_TYPE_SYSTEM v1) as [W2 E2]. assert (Hb1 : mode_busy (exit_mode c POWERMODE_TYPE_SYSTEM v1) c POWERMODE_TYPE_CLUSTER).
  { eapply mode_busy_woken; [exact W2|done|]. apply exit_mode_busy. by apply (mode_states h). }
  assert (Hb2 : mode_busy (exit_mode c POWERMODE_TYPE_SYSTEM v1) c POWERMODE_TYPE_SYSTEM) by (apply exit_mode_busy; by apply (mode_states h)).
  unfold cpu_wakes. fold v1. set (v2 := exit_mode c POWERMODE_TYPE_SYSTEM v1) in *. assert (Hc2 : c ∈ v_online v2) by (by rewrite (proj1 W2)). assert (Ha2 : alive h v2 c) by (unfold alive; by rewrite (proj1 W2)).
  clearbody v2. clear dependent v1. destruct B2 as [T S C]. pose proof (tk_online _ T _ Hc2) as Hlt. destruct (alive_online _ _ _ S Hc2 Ha2) as [Hd Hu].
  assert (Hst : forall c', cstate (call_made (CpuEnable c) (set_cpu c CPUPM_STATE_BUSY v2)) c' = if decide (c' = c) then CPUPM_STATE_BUSY else cstate v2 c') by (intros; by apply (cstate_set_cpu c CPUPM_STATE_BUSY v2)).
  split; [split|exact Hs].
  - by apply tree_push, tree_set_cpu.
  - destruct S as [S1 S2 S3 S4 S5 S6 S7 S8 S9]. split; try done.
    + intros c'. rewrite Hst. case_decide; [by left|apply S1].
    + intros j m c' Hm Hi Hsb Ho. rewrite Hst. case_decide; [|by eapply S3]. subst c'. exfalso. destruct (tk_sibling _ T _ _ _ Hm Hsb) as [_ Hv].
      destruct (tk_type _ T _ _ Hm) as [Ht|Ht]; rewrite Ht in Hv; [pose proof (Hb1 j m Hv Hm) as Eb|pose proof (Hb2 j m Hv Hm) as Eb]; by rewrite Eb in Hi.
    + intros c' Ho. rewrite Hst. case_decide; [done|by apply S5].
    + intros c' ->. destruct (S8 c' eq_refl) as (H1 & H2 & H3). split; [done|]. rewrite Hst, decide_False by congruence. split; [done|]. change (cv_hot (cpu_of (set_cpu c CPUPM_STATE_BUSY v2) c') = true). by rewrite hot_set_cpu.
    + intros c' ->. destruct (S9 c' eq_refl). split; [done|]. change (c' < length (v_cpus (set_cpu c CPUPM_STATE_BUSY v2)))%nat. by rewrite length_set_cpu.
  - destruct C as [C1 C2 C3]. split.
    + intros j m Hm Ht. rewrite cluster_off_push. by eapply C1.
    + intros c' Hc'. change (c' < length (v_cpus (set_cpu c CPUPM_STATE_BUSY v2)))%nat in Hc'. rewrite length_set_cpu in Hc'. rewrite cpu_off_push, Hst. destruct (Nat.eqb_spec c c') as [->|Hn].
      * rewrite decide_True by done. split; [done|]. intros [|H]; [done|]. by destruct H.
      * rewrite decide_False by congruence. by apply C2.
    + rewrite sleeping_push. exact C3.
Qed.

(** Cpus that are interrupted wake, one after the other. *)
Definition wakes (cs : list nat) (v : view) : view := foldl (fun v c => if cstate v c =? CPUPM_STATE_IDLE then cpu_wakes c v else v) v cs.

Lemma wakes_cons c cs v : wakes (c :: cs) v = wakes cs (if cstate v c =? CPUPM_STATE_IDLE then cpu_wakes c v else v).
Proof. done. Qed.

Lemma wakes_base h cs : forall v, base h v -> clusters_ok v -> (forall c, c ∈ cs -> c ∈ v_online v) -> base h (wakes cs v) /\ clusters_ok (wakes cs v) /\ woken v (wakes cs v).
Proof.
  induction cs as [|c cs IH]; intros v B K Hcs; [split_and!; [done|done|apply woken_refl]|]. rewrite wakes_cons. destruct (Z.eqb_spec (cstate v c) CPUPM_STATE_IDLE) as [Ei|Ei].
  - assert (Hc : c ∈ v_online v) by (apply Hcs; by left). destruct (cpu_wakes_base h v c B Hc) as [B' Es]; [by apply idle_alive; [apply b_states|..]|]. pose proof (cpu_wakes_woken c v) as W.
    destruct (IH (cpu_wakes c v) B') as (B2 & K2 & W2); [intros Hv; by rewrite Es in Hv| |split_and!; [done|done|by eapply woken_trans]]. intros c' Hc'. rewrite (proj1 W). apply Hcs. by right.
  - apply IH; [done|done|]. intros c' Hc'. apply Hcs. by right.
Qed.

Lemma wakes_woken cs : forall v, woken v (wakes cs v).
Proof.
  induction cs as [|c cs IH]; intros v; [apply woken_refl|]. rewrite wakes_cons. destruct (_ =? _); [|apply IH]. eapply woken_trans; [apply cpu_wakes_woken|apply IH].
Qed.

(** Interrupting all its online cpus makes a mode busy. *)
Lemma wakes_leave h j m v cs : base h v -> v_modes v !! j = Some m -> (forall c, c ∈ cs <-> c ∈ mv_siblings m /\ c ∈ v_online v) -> forall m', v_modes (wakes cs v) !! j = Some m' -> mv_state m' = CPUPM_STATE_BUSY.
Proof.
  intros B Hm Hcs m' Hm'. destruct (wakes_woken cs v) as (_ & _ & _ & W). destruct (W _ _ Hm') as (m0 & Hm0 & _ & [Es | ]); [|done]. rewrite Hm in Hm0. injection Hm0 as <-. rewrite Es.
  destruct (sk_mode _ _ (b_states _ _ B) _ _ Hm) as [|Hi]; [done|]. exfalso. destruct cs as [|c cs].
  { destruct (sk_some _ _ (b_states _ _ B) _ _ Hm Hi) as (c & H1 & H2). assert (c ∈ []) as H by (by apply Hcs). by apply not_elem_of_nil in H. }
  destruct (proj1 (Hcs c) ltac:(by left)) as [Hs Ho]. rewrite wakes_cons, (sk_siblings _ _ (b_states _ _ B) _ _ _ Hm Hi Hs Ho) in Hm'. cbn [Z.eqb CPUPM_STATE_IDLE Pos.eqb] in Hm'.
  destruct (wakes_woken cs (cpu_wakes c v)) as (_ & _ & _ & W2). destruct (W2 _ _ Hm') as (m1 & Hm1 & _ & Hs1). assert (mv_state m1 = CPUPM_STATE_BUSY) as Hb; [|rewrite Hb in Hs1; rewrite Es, Hi in Hs1; by destruct Hs1].
  destruct (tk_sibling _ (b_tree _ _ B) _ _ _ Hm Hs) as [_ Hv]. change (v_modes (exit_mode c POWERMODE_TYPE_SYSTEM (exit_mode c POWERMODE_TYPE_CLUSTER v)) !! j = Some m1) in Hm1.
  destruct (exit_mode_woken c POWERMODE_TYPE_CLUSTER v) as [Wc Ec]. destruct (exit_mode_woken c POWERMODE_TYPE_SYSTEM (exit_mode c POWERMODE_TYPE_CLUSTER v)) as [Ws Ess].
  assert (Hvm : forall v' ty, v_cpus v' = v_cpus v -> vmode v' c ty = vmode v c ty) by (intros v' ty E; unfold vmode, cpu_of; by rewrite E).
  destruct (tk_type _ (b_tree _ _ B) _ _ Hm) as [Ht|Ht]; rewrite Ht in Hv.
  - eapply (mode_busy_woken _ _ c POWERMODE_TYPE_CLUSTER Ws Ess); [apply exit_mode_busy; by apply (mode_states h)|rewrite Hvm; [exact Hv|by rewrite Ess]|exact Hm1].
  - eapply exit_mode_busy; [|rewrite Hvm; [exact Hv|by rewrite Ess]|exact Hm1]. intros i n _ Hn. destruct Wc as (_ & _ & _ & Wc). destruct (Wc _ _ Hn) as (n0 & Hn0 & _ & [-> | ->]); [by eapply (sk_mode _ _ (b_states _ _ B))|by left].
Qed.

(** ** Hotplug *)

Definition set_hot (c : nat) (b : bool) (v : view) : view := v <| v_cpus := alter (fun x => x <| cv_hot := b |>) c (v_cpus v) |>.
(** The online cpus of the cluster of a cpu. *)
Definition weight (v : view) (m : mode_view) : nat := length (filter (fun c => c ∈ mv_siblings m /\ c ∈ v_online v) (seq 0 (length (v_cpus v)))).
Definition cluster_call (c : nat) (n : nat) (k : Z -> call) (v : view) : view :=
  match vmode v c POWERMODE_TYPE_CLUSTER with
  | None => v
  | Some j => match v_modes v !! j with Some m => if (weight v m =? n)%nat then call_made (k (mv_cal m)) v else v | None => v end
  end.
Definition goes_down (c : nat) (v : view) : view := cluster_call c 1 ClusterDisable (call_made (CpuDisable c) (set_hot c true v)).
Definition comes_up (c : nat) (v : view) : view := set_hot c false (call_made (CpuEnable c) (cluster_call c 0 ClusterEnable v)).
Definition is_gone (c : nat) (v : view) : view := v <| v_online := filter (fun c' => c' <> c) (v_online v) |>.
Definition has_come (c : nat) (v : view) : view := v <| v_online := c :: v_online v |>.

Lemma weight_0 v m : tree_ok v -> weight v m = 0%nat <-> forall c, c ∈ mv_siblings m -> c ∈ v_online v -> False.
Proof.
  intros T. unfold weight. rewrite length_zero_iff_nil. split.
  - intros E c Hs Ho. assert (c ∈ filter (fun c => c ∈ mv_siblings m /\ c ∈ v_online v) (seq 0 (length (v_cpus v)))) as H; [|rewrite E in H; by apply not_elem_of_nil in H].
    apply list_elem_of_filter. split; [done|]. apply elem_of_seq. pose proof (tk_online _ T _ Ho). lia.
  - intros H. destruct (filter _ _) as [|c l] eqn:E; [done|]. assert (c ∈ c :: l) as Hc by (by left). rewrite <- E in Hc. apply list_elem_of_filter in Hc as [[Hs Ho] _]. by destruct (H c Hs Ho).
Qed.

(** An online sibling that is the only one. *)
Lemma weight_1 v m c : tree_ok v -> c ∈ mv_siblings m -> c ∈ v_online v -> weight v m = 1%nat <-> forall c', c' ∈ mv_siblings m -> c' ∈ v_online v -> c' = c.
Proof.
  intros T Hs Ho. unfold weight. set (l := filter _ _). assert (Hl : forall c', c' ∈ l <-> c' ∈ mv_siblings m /\ c' ∈ v_online v).
  { intros c'. unfold l. rewrite list_elem_of_filter, elem_of_seq. split; [tauto|]. intros H. split; [done|]. pose proof (tk_online _ T _ (proj2 H)). lia. }
  assert (Hnd : NoDup l) by (apply NoDup_filter, NoDup_seq). split.
  - intros E c' Hs' Ho'. destruct l as [|x [|y l]]; try done. assert (H1 : c ∈ [x]) by (by apply Hl). assert (H2 : c' ∈ [x]) by (by apply Hl). apply list_elem_of_singleton in H1, H2. congruence.
  - intros H. assert (Hx : forall x, x ∈ l -> x = c) by (intros x Hx; apply Hl in Hx as [? ?]; by apply H). destruct l as [|x [|y l]]; [|done|].
    + assert (c ∈ []) as Hc by (by apply Hl). by apply not_elem_of_nil in Hc.
    + exfalso. pose proof (Hx x ltac:(by left)). pose proof (Hx y ltac:(right; by left)). subst. apply NoDup_cons in Hnd as [Hnd _]. apply Hnd. by left.
Qed.

Lemma tree_set_hot c b v : tree_ok v -> tree_ok (set_hot c b v).
Proof. apply tree_frame; try done; first [apply length_alter|intros; by apply vmode_alter|naive_solver]. Qed.

Lemma cstate_set_hot c b v c' : cstate (set_hot c b v) c' = cstate v c'.
Proof. unfold cstate, cpu_of, set_hot. cbn. rewrite list_lookup_alter. case_decide; [subst|done]. by match goal with |- context [_ <$> ?x] => destruct x end. Qed.

(** The cluster of a cpu that goes down or comes up, if it has one. *)
Lemma cluster_call_cases c n k v : tree_ok v -> (exists m j, v_modes v !! j = Some m /\ mv_type m = POWERMODE_TYPE_CLUSTER /\ c ∈ mv_siblings m /\ weight v m = n /\ cluster_call c n k v = call_made (k (mv_cal m)) v) \/
  (cluster_call c n k v = v /\ forall m j, v_modes v !! j = Some m -> mv_type m = POWERMODE_TYPE_CLUSTER -> c ∈ mv_siblings m -> weight v m <> n).
Proof.
  intros T. unfold cluster_call. destruct (vmode v c POWERMODE_TYPE_CLUSTER) as [j|] eqn:Ev.
  - destruct (tk_mode _ T _ _ _ (or_introl eq_refl) Ev) as (m & Hm & Ht & Hs). rewrite Hm. destruct (Nat.eqb_spec (weight v m) n) as [E|E]; [left; by exists m, j|]. right. split; [done|].
    intros m' j' Hm' Ht' Hs'. destruct (tk_sibling _ T _ _ _ Hm' Hs') as [_ E']. rewrite Ht', Ev in E'. injection E' as <-. rewrite Hm in Hm'. by injection Hm' as <-.
  - right. split; [done|]. intros m' j' Hm' Ht' Hs'. destruct (tk_sibling _ T _ _ _ Hm' Hs') as [_ E']. by rewrite Ht', Ev in E'.
Qed.

(** Frames for changes that leave cpus' and modes' states alone. *)
Lemma states_frame h h' v v' : (forall c, cstate v' c = cstate v c) -> v_modes v' = v_modes v -> v_online v' = v_online v -> v_system v' = v_system v ->
  (forall c, h' = Down c -> (c ∈ v_online v) /\ cstate v c = CPUPM_STATE_BUSY /\ cv_hot (cpu_of v' c) = true) -> (forall c, h' = Up c -> (c ∉ v_online v) /\ (c < length (v_cpus v'))%nat) ->
  states_ok h v -> states_ok h' v'.
Proof.
  intros Ec Em Eo Es Hd Hu [S1 S2 S3 S4 S5 S6 S7 S8 S9]. split; rewrite ?Em, ?Eo, ?Es; try done.
  - intros c. by rewrite Ec.
  - intros j m c. rewrite Ec. apply S3.
  - intros c. rewrite Ec. apply S5.
  - intros c Hc. rewrite Ec. by apply Hd.
Qed.

Lemma clusters_frame v v' : v_system v' = v_system v -> (forall c, vmode v' c POWERMODE_TYPE_CLUSTER = vmode v c POWERMODE_TYPE_CLUSTER) -> v_modes v' = v_modes v -> (forall c, c ∈ v_online v' -> c ∈ v_online v) -> clusters_ok v -> clusters_ok v'.
Proof. intros E1 E2 E3 E4 K. unfold clusters_ok. rewrite E1, E3. intros Hv c j m Hc. rewrite E2. apply (K Hv). by apply E4. Qed.

Lemma cluster_call_frame c n k v : let v' := cluster_call c n k v in v_cpus v' = v_cpus v /\ v_modes v' = v_modes v /\ v_online v' = v_online v /\ v_system v' = v_system v /\
  ((forall id, match k id with CpuEnable _ | CpuDisable _ | PmEnter | PmExit => False | _ => True end) -> (forall i, cpu_off i (v_log v') = cpu_off i (v_log v)) /\ sleeping (v_log v') = sleeping (v_log v)).
Proof.
  unfold cluster_call. destruct (vmode v c _); [|done]. destruct (v_modes v !! _) as [m|]; [|done]. destruct (_ =? _)%nat; [|done]. split_and!; try done. intros Hk. specialize (Hk (mv_cal m)). split; [intros i; rewrite cpu_off_push|rewrite sleeping_push]; by destruct (k _).
Qed.

(** The cluster of the cpu is switched, and no other. *)
Definition switch (b : bool) (id : Z) : call := if b then ClusterDisable id else ClusterEnable id.

Lemma cluster_call_log c w b v i n : tree_ok v -> v_modes v !! i = Some n -> mv_type n = POWERMODE_TYPE_CLUSTER ->
  cluster_off (mv_cal n) (v_log (cluster_call c w (switch b) v)) = if decide (c ∈ mv_siblings n /\ weight v n = w) then b else cluster_off (mv_cal n) (v_log v).
Proof.
  intros T Hn Hty. destruct (cluster_call_cases c w (switch b) v T) as [(m & j & Hm & Hmt & Hms & Hmw & Ev)|[Ev Hno]]; rewrite Ev.
  - rewrite cluster_off_push. assert (Hid : (mv_cal m =? mv_cal n) = bool_decide (c ∈ mv_siblings n /\ weight v n = w)).
    { destruct (Z.eqb_spec (mv_cal m) (mv_cal n)) as [E|E]; symmetry; [apply bool_decide_eq_true|apply bool_decide_eq_false].
      - pose proof (tk_cal _ T _ _ _ _ Hm Hn Hmt Hty E). subst j. rewrite Hm in Hn. by injection Hn as <-.
      - intros [Hs _]. destruct (tk_sibling _ T _ _ _ Hn Hs) as [_ E1]. destruct (tk_sibling _ T _ _ _ Hm Hms) as [_ E2]. rewrite Hmt in E2. rewrite Hty, E2 in E1. injection E1 as <-. rewrite Hm in Hn. injection Hn as <-. done. }
    unfold switch. destruct b; rewrite Hid; by case_bool_decide; case_decide.
  - rewrite decide_False; [done|]. intros [Hs Hw]. by eapply Hno.
Qed.

(** The cluster whose only online cpu goes down is switched off. *)
Lemma goes_down_ok v c : ok Stable v -> c ∈ v_online v -> cstate v c = CPUPM_STATE_BUSY -> ok (Down c) (goes_down c v).
Proof.
  intros [[T S C] K D] Hc Hb. pose proof (tk_online _ T _ Hc) as Hlt. unfold goes_down. set (v1 := call_made (CpuDisable c) (set_hot c true v)). assert (T1 : tree_ok v1) by (by apply tree_push, tree_set_hot).
  assert (Hlen : length (v_cpus v1) = length (v_cpus v)) by apply length_alter. assert (Hw : forall m, weight v1 m = weight v m) by (intros m; unfold weight; by rewrite Hlen).
  change (cluster_call c 1 ClusterDisable v1) with (cluster_call c 1 (switch true) v1). destruct (cluster_call_frame c 1 (switch true) v1) as (E1 & E2 & E3 & E4 & E5). specialize (E5 ltac:(done)) as [E5 E6].
  pose proof (cluster_call_log c 1 true v1) as E7. set (v2 := cluster_call c 1 (switch true) v1) in *. assert (Hst : forall c', cstate v2 c' = cstate v c') by (intros c'; unfold cstate, cpu_of; rewrite E1; apply cstate_set_hot).
  assert (Ha : forall c', alive (Down c) v2 c' <-> c' ∈ v_online v /\ c' <> c) by (intros c'; unfold alive; rewrite E3; naive_solver congruence). split; [split|..].
  - eapply (tree_frame v1); try done; [by rewrite E1|intros; unfold vmode, cpu_of; by rewrite E1|rewrite E2; naive_solver|by rewrite E2].
  - eapply (states_frame Stable); [exact Hst|exact E2|exact E3|exact E4| |done|exact S]. intros c' [= <-]. split_and!; [done..|]. unfold cpu_of. rewrite E1. unfold v1, set_hot. cbn. rewrite list_lookup_alter, decide_True by done. destruct (lookup_lt_is_Some_2 _ _ Hlt) as [x ->]. done.
  - destruct C as [C1 C2 C3]. split.
    + intros i n Hn Hty. rewrite E2 in Hn. change (v_modes v1) with (v_modes v) in Hn. specialize (C1 i n Hn Hty). rewrite (E7 i n T1 Hn Hty), Hw. change (cluster_off (mv_cal n) (v_log v1)) with (cluster_off (mv_cal n) (v_log (call_made (CpuDisable c) v))). rewrite cluster_off_push.
      assert (Hidle : c ∈ mv_siblings n -> mv_state n <> CPUPM_STATE_IDLE) by (intros Hs Hi; rewrite (sk_siblings _ _ S _ _ _ Hn Hi Hs Hc) in Hb; done).
      destruct (decide (c ∈ mv_siblings n)) as [Hs|Hs].
      * pose proof (weight_1 v n c T Hs Hc) as W1. case_decide as E.
        -- split; [intros _; right|done]. intros c' Hs' [Ho' Hn']%Ha. by apply Hn', W1; [apply E|..].
        -- rewrite C1. split; [intros [Hi|Hno]; [by destruct (Hidle Hs)|]; exfalso; apply (Hno c Hs); by left|]. intros [Hi|Hno]; [by left|]. exfalso. apply E. split; [done|]. apply W1. intros c' Hs' Ho'. destruct (decide (c' = c)); [done|]. by destruct (Hno c' Hs' (proj2 (Ha c') (conj Ho' n0))).
      * rewrite decide_False by tauto. rewrite C1. split; (intros [Hi|Hno]; [by left|right]); intros c' Hs' Hal; apply (Hno c' Hs').
        -- left. split; [by apply Ha|done].
        -- apply Ha. split; [by destruct Hal as [[]|]|]. by intros ->.
    + intros c' Hc'. rewrite E1, Hlen in Hc'. rewrite E5, Hst. change (v_log v1) with (v_log (call_made (CpuDisable c) v)). rewrite cpu_off_push. specialize (C2 c' Hc'). destruct (Nat.eqb_spec c c') as [->|Hn].
      * split; [intros _; right; rewrite Ha; tauto|done].
      * rewrite C2, Ha. unfold alive. naive_solver.
    + rewrite E6. change (v_log v1) with (v_log (call_made (CpuDisable c) v)). rewrite sleeping_push, E4. exact C3.
  - eapply (clusters_frame v); [exact E4| |exact E2|by rewrite E3|done]. intros c'. unfold vmode, cpu_of. rewrite E1. by apply (vmode_alter (fun x => x <| cv_hot := true |>) c v c' POWERMODE_TYPE_CLUSTER).
  - intros j m. rewrite E2. apply D.
Qed.

Lemma gone_ok v c : ok (Down c) v -> ok Stable (is_gone c v).
Proof.
  intros [[T S C] K D]. destruct (sk_down _ _ S c eq_refl) as (Hc & Hb & _). assert (Ho : forall c', c' ∈ v_online (is_gone c v) <-> c' ∈ v_online v /\ c' <> c) by (intros c'; cbn; rewrite list_elem_of_filter; tauto).
  assert (Ha : forall c', alive Stable (is_gone c v) c' <-> alive (Down c) v c') by (intros c'; unfold alive; rewrite Ho; naive_solver congruence). split; [split|..].
  - destruct T as [T1 T2 T3 T4 T5 T6]. split; try done. intros c' Hc'. by apply T6, Ho.
  - destruct S as [S1 S2 S3 S4 S5 S6 S7 S8 S9]. split; try done.
    + intros j m c' Hm Hi Hs Hon. eapply S3; [done..|]. by apply Ho.
    + intros j m Hm Hi. destruct (S4 j m Hm Hi) as (c' & Hs & Hon). exists c'. split; [done|]. apply Ho. split; [done|]. intros ->. pose proof (S3 j m c Hm Hi Hs Hc) as E. unfold cstate in *. by rewrite E in Hb.
    + intros c' Hon. change (cstate v c' = CPUPM_STATE_BUSY). destruct (decide (c' = c)) as [->|Hn]; [done|]. apply S5. intros H. by apply Hon, Ho.
  - destruct C as [C1 C2 C3]. split; try done.
    + intros j m Hm Ht. rewrite (C1 j m Hm Ht). split; (intros [H|H]; [by left|right]); intros c' Hs Hal; apply (H c' Hs); by apply Ha.
    + intros c' Hlt. rewrite (C2 c' Hlt). change (cstate (is_gone c v) c') with (cstate v c'). by rewrite Ha.
  - eapply (clusters_frame v); try done. intros c' Hc'. by apply Ho.
  - exact D.
Qed.

(** A cluster without online cpus is switched on for the one that comes up. *)
Lemma comes_up_ok v c : ok Stable v -> c ∉ v_online v -> (c < length (v_cpus v))%nat -> ok (Up c) (comes_up c v).
Proof.
  intros [[T S C] K D] Hc Hlt. unfold comes_up. change (cluster_call c 0 ClusterEnable v) with (cluster_call c 0 (switch false) v). destruct (cluster_call_frame c 0 (switch false) v) as (E1 & E2 & E3 & E4 & E5). specialize (E5 ltac:(done)) as [E5 E6].
  pose proof (cluster_call_log c 0 false v) as E7. set (v2 := cluster_call c 0 (switch false) v) in *. assert (Hst : forall c', cstate (set_hot c false (call_made (CpuEnable c) v2)) c' = cstate v c') by (intros c'; rewrite cstate_set_hot; unfold cstate, cpu_of; cbn; by rewrite E1).
  assert (T2 : tree_ok v2) by (eapply (tree_frame v); try done; [by rewrite E1|intros; unfold vmode, cpu_of; by rewrite E1|rewrite E2; naive_solver|by rewrite E2]).
  assert (Ha : forall c', alive (Up c) (set_hot c false (call_made (CpuEnable c) v2)) c' <-> c' ∈ v_online v \/ c' = c) by (intros c'; unfold alive; cbn; rewrite E3; naive_solver congruence).
  assert (Hlen : length (v_cpus (set_hot c false (call_made (CpuEnable c) v2))) = length (v_cpus v)) by (unfold set_hot; cbn; by rewrite length_alter, E1). split; [split|..].
  - by apply tree_set_hot, tree_push.
  - eapply (states_frame Stable); [exact Hst|exact E2|exact E3|exact E4|done| |exact S]. intros c' [= <-]. split; [done|by rewrite Hlen].
  - destruct C as [C1 C2 C3]. split.
    + intros i n Hn Hty. change (v_modes v2 !! i = Some n) in Hn. rewrite E2 in Hn. specialize (C1 i n Hn Hty). change (v_log (set_hot c false (call_made (CpuEnable c) v2))) with (v_log (call_made (CpuEnable c) v2)). rewrite cluster_off_push, (E7 i n T Hn Hty).
      pose proof (weight_0 v n T) as W0. case_decide as E.
      * destruct E as [Hs Hw0]. split; [done|]. intros [Hi|Hno]; [|exfalso; apply (Hno c Hs), Ha; by right]. exfalso. destruct (sk_some _ _ S _ _ Hn Hi) as (c' & Hs' & Ho'). by eapply W0.
      * rewrite C1. split; (intros [Hi|Hno]; [by left|]).
        -- destruct (decide (c ∈ mv_siblings n)) as [Hs|Hs]; [exfalso; apply E; split; [done|]; apply W0; intros c' Hs' Ho'; apply (Hno c' Hs'); by left|]. right. intros c' Hs' [Ho'| ->]%Ha; [apply (Hno c' Hs'); by left|done].
        -- right. intros c' Hs' [[Ho' _]|]; [|done]. apply (Hno c' Hs'), Ha. by left.
    + intros c' Hc'. rewrite Hlen in Hc'. specialize (C2 c' Hc'). change (v_log (set_hot c false (call_made (CpuEnable c) v2))) with (v_log (call_made (CpuEnable c) v2)). rewrite cpu_off_push, E5, Hst, Ha. destruct (Nat.eqb_spec c c') as [->|Hn].
      * split; [done|]. rewrite (sk_offline _ _ S c' Hc). naive_solver.
      * rewrite C2. unfold alive. naive_solver.
    + change (v_log (set_hot c false (call_made (CpuEnable c) v2))) with (v_log (call_made (CpuEnable c) v2)). rewrite sleeping_push, E6. change (sleeping (v_log v) = v_system v2). by rewrite E4.
  - eapply (clusters_frame v); [exact E4| |exact E2|cbn; by rewrite E3|done]. intros c'. unfold set_hot. rewrite vmode_alter by done. unfold vmode, cpu_of. cbn. by rewrite E1.
  - intros j m. change (v_modes v2 !! j = Some m -> mv_disable m <> 0 -> mv_state m = CPUPM_STATE_BUSY). rewrite E2. apply D.
Qed.

(** The cpu that comes up is busy: the modes it belongs to must be. *)
Lemma has_come_ok v c : ok (Up c) v -> mode_busy v c POWERMODE_TYPE_CLUSTER -> mode_busy v c POWERMODE_TYPE_SYSTEM -> ok Stable (has_come c v).
Proof.
  intros [[T S C] K D] Hb1 Hb2. destruct (sk_up _ _ S c eq_refl) as [Hc Hlt]. assert (Ho : forall c', c' ∈ v_online (has_come c v) <-> c' = c \/ c' ∈ v_online v) by (intros c'; apply elem_of_cons).
  assert (Ha : forall c', alive Stable (has_come c v) c' <-> alive (Up c) v c') by (intros c'; unfold alive; rewrite Ho; naive_solver congruence).
  assert (Hbusy : forall j m, v_modes v !! j = Some m -> c ∈ mv_siblings m -> mv_state m = CPUPM_STATE_BUSY).
  { intros j m Hm Hs. destruct (tk_sibling _ T _ _ _ Hm Hs) as [_ Hv]. destruct (tk_type _ T _ _ Hm) as [Ht|Ht]; rewrite Ht in Hv; [by eapply Hb1|by eapply Hb2]. }
  assert (Hsys : v_system v = false).
  { destruct (v_system v) eqn:E; [|done]. destruct (sk_system_some _ _ S E) as (j & m & Hm & Ht). pose proof (Hbusy j m Hm (tk_system _ T _ _ _ Hm Ht Hlt)) as Hb. pose proof (proj2 (sk_system _ _ S j m Hm Ht) E) as Hi. by rewrite Hi in Hb. }
  split; [split|..].
  - destruct T as [T1 T2 T3 T4 T5 T6]. split; try done. intros c' [->|Hc']%Ho; [done|by apply T6].
  - destruct S as [S1 S2 S3 S4 S5 S6 S7 S8 S9]. split; try done.
    + intros j m c' Hm Hi Hs [->|Hon]%Ho; [|by eapply S3]. change (v_modes v !! j = Some m) in Hm. rewrite (Hbusy j m Hm Hs) in Hi. done.
    + intros j m Hm Hi. destruct (S4 j m Hm Hi) as (c' & Hs & Hon). exists c'. split; [done|]. apply Ho. by right.
    + intros c' Hon. apply S5. intros H. apply Hon, Ho. by right.
  - destruct C as [C1 C2 C3]. split; try done.
    + intros j m Hm Ht. rewrite (C1 j m Hm Ht). split; (intros [H|H]; [by left|right]); intros c' Hs Hal; apply (H c' Hs); by apply Ha.
    + intros c' Hc'. rewrite (C2 c' Hc'). change (cstate (has_come c v) c') with (cstate v c'). by rewrite Ha.
  - intros Hv. change (v_system v = true) in Hv. by rewrite Hsys in Hv.
  - exact D.
Qed.
