(* ===== verification/CpupmRun.v ===== *)
(** * The operations on the view

    What each operation of the driver does to the view, and that it keeps what the
    operations rely on besides: the registry of idle-IPs, the wake-up masks and the
    arrays of statistics. *)

From S2P Require Import Prelude Cpupm CpupmIp CpupmView.

Record env_ok (s : cpupm_state) : Prop := {
  ev_ips : exists xs, registry s xs;
  ev_wm : match s_wm_config s with WmNull => True | WmAt c => (length (wc_eint_offsets c) <= length (s_eint_masks s))%nat | WmFreed => False end;
  ev_stat : Forall (fun p => length (pm_stat p) = CPUIDLE_STATE_MAX /\ 0 <= pm_entered_state p < Z.of_nat CPUIDLE_STATE_MAX) (s_cpus s) }.

(** ** Reading the view *)

Lemma view_mode_at s j : v_modes (view_of s) !! j = view_mode <$> s_mode_list s !! j.
Proof. apply list_lookup_fmap. Qed.

Lemma view_cpu_of s c : cpu_of (view_of s) c = view_cpu (pm_of s c).
Proof. unfold cpu_of, pm_of. cbn. rewrite list_lookup_fmap. by destruct (s_cpus s !! c). Qed.

Lemma view_state s c : pm_state (pm_of s c) = cstate (view_of s) c.
Proof. unfold cstate. by rewrite view_cpu_of. Qed.

Lemma view_mode_of s c ty : mode_of s c ty = vmode (view_of s) c ty.
Proof. unfold vmode. by rewrite view_cpu_of. Qed.

Lemma view_len s : length (v_cpus (view_of s)) = length (s_cpus s).
Proof. apply length_fmap. Qed.

Lemma elem_cpus_and s a b c : c ∈ cpus_and s a b <-> (c ∈ a /\ c ∈ b) /\ (c < length (s_cpus s))%nat.
Proof. unfold cpus_and. rewrite list_elem_of_filter, elem_of_seq. naive_solver lia. Qed.

Lemma alter_fmap {A B} (g : A -> B) (f : A -> A) (f' : B -> B) (i : nat) (l : list A) : (forall x, g (f x) = f' (g x)) -> g <$> alter f i l = alter f' i (g <$> l).
Proof. intros H. revert i. induction l as [|x l IH]; intros [|i]; cbn; [done..|by rewrite H|]. f_equal. apply IH. Qed.

Lemma alter_same {A} (f : A -> A) (i : nat) (l : list A) : (forall x, f x = x) -> alter f i l = l.
Proof. intros H. revert i. induction l as [|x l IH]; intros [|i]; cbn; [done..|by rewrite H|]. f_equal. apply IH. Qed.

(** ** Silent changes *)

Lemma core_view s s' : core s' = core s -> view_of s' = view_of s.
Proof. unfold core, view_of. intros [= -> -> -> _ _ _ -> _ _ -> _]. done. Qed.

Lemma core_env s s' xs : core s' = core s -> registry s' xs -> env_ok s -> env_ok s'.
Proof. unfold core. intros [= E1 _ _ _ _ _ _ E2 E3 _ _] Hr [_ H2 H3]. split; [by exists xs|by rewrite E2, E3|by rewrite E1]. Qed.

(** The state may have moved on where neither the view nor the rest is concerned. *)
Definition moved (s s' : cpupm_state) : Prop := view_of s' = view_of s /\ env_ok s' /\ s_answers s' = s_answers s /\ (forall c, pm_next_hrtimer (pm_of s' c) = pm_next_hrtimer (pm_of s c)) /\ length (s_cpus s') = length (s_cpus s).

Lemma moved_env s s' : moved s s' -> env_ok s'.
Proof. by intros (_ & ? & _). Qed.
Lemma moved_refl s : env_ok s -> moved s s.
Proof. done. Qed.
Lemma moved_then s1 s2 s3 : moved s1 s2 -> moved s2 s3 -> moved s1 s3.
Proof. intros (E1 & E2 & E3 & E4 & E5) (F1 & F2 & F3 & F4 & F5). split_and!; first [congruence|done|intros c; by rewrite F4]. Qed.

Lemma moved_core s s' xs : core s' = core s -> registry s' xs -> env_ok s -> moved s s'.
Proof.
  intros Hc Hr He. split; [by apply core_view|]. split; [by eapply core_env|]. unfold core in Hc. injection Hc as E1 E2 E3 E4 E5 E6 E7 E8 E9 E10 E11. split; [done|]. unfold pm_of. by rewrite E1.
Qed.

Lemma moved_asked s n : env_ok s -> moved s (s <| s_asked := n |>).
Proof. intros [[xs H1] H2 H3]. split_and!; try done. split; [|done..]. exists xs. by apply (registry_frame s). Qed.

Lemma wp_ask {A} (f : answer -> A) (Q : A -> cpupm_state -> Prop) s : Q (f (s_answers s (s_asked s))) (s <| s_asked := S (s_asked s) |>) -> wp (ask f) Q s.
Proof. done. Qed.

Lemma env_log s l : env_ok s -> env_ok (s <| s_log := l |>).
Proof. intros [[xs H1] H2 H3]. split; [|done..]. exists xs. by apply (registry_frame s). Qed.

Lemma moved_tell s c : power_call c = None -> env_ok s -> moved s (s <| s_log := s_log s ++ [c] |>).
Proof.
  intros Hc He. split; [|split; [by apply env_log|done]]. unfold view_of. cbn. by rewrite omap_app; cbn; rewrite Hc, app_nil_r.
Qed.

Lemma view_tell s c c' : power_call c = Some c' -> view_of (s <| s_log := s_log s ++ [c] |>) = call_made c' (view_of s).
Proof. intros Hc. unfold view_of, call_made. cbn. rewrite omap_app. cbn. by rewrite Hc. Qed.

(** ** Changes of one cpu or one mode *)

Lemma env_cpus s f c : (forall p, length (pm_stat (f p)) = length (pm_stat p) /\ pm_entered_state (f p) = pm_entered_state p) -> env_ok s -> env_ok (s <| s_cpus := alter f c (s_cpus s) |>).
Proof.
  intros Hf [[xs H1] H2 H3]. split; [exists xs; by apply (registry_frame s)|done|]. cbn. apply Forall_alter; [done|]. intros p _ [Hl He]. destruct (Hf p) as [-> ->]. done.
Qed.

Lemma env_modes s l : env_ok s -> env_ok (s <| s_mode_list := l |>).
Proof. intros [[xs H1] H2 H3]. split; [|done..]. exists xs. by apply (registry_frame s). Qed.

Lemma view_set_state s c st : view_of (s <| s_cpus := alter (fun p => p <| pm_state := st |>) c (s_cpus s) |>) = set_cpu c st (view_of s).
Proof. unfold view_of, set_cpu. cbn. f_equal. by apply alter_fmap. Qed.

Lemma view_set_hot s c b : view_of (s <| s_cpus := alter (fun p => p <| pm_hotplug_ing := b |>) c (s_cpus s) |>) = set_hot c b (view_of s).
Proof. unfold view_of, set_hot. cbn. f_equal. by apply alter_fmap. Qed.

Lemma view_alter_mode s j f g : (forall m, view_mode (f m) = g (view_mode m)) -> view_of (s <| s_mode_list := alter f j (s_mode_list s) |>) = (view_of s) <| v_modes := alter g j (v_modes (view_of s)) |>.
Proof. intros H. unfold view_of. cbn. f_equal. by apply alter_fmap. Qed.

Lemma wp_get_mode s j mv (Q : power_mode -> cpupm_state -> Prop) : v_modes (view_of s) !! j = Some mv -> (forall m, s_mode_list s !! j = Some m -> view_mode m = mv -> Q m s) -> wp (get_mode j) Q s.
Proof. rewrite view_mode_at. intros H HQ. unfold wp, get_mode. destruct (s_mode_list s !! j) as [m|]; [|done]. injection H as H. by apply HQ. Qed.

(** ** Leaving modes *)

Lemma wp_profile_end b st s (Q : cpupm_stats -> cpupm_state -> Prop) : (forall st' n, Q st' (s <| s_asked := n |>)) -> wp (profile_end b st) Q s.
Proof.
  intros HQ. assert (HQ0 : forall st', Q st' s) by (intros st'; specialize (HQ st' (s_asked s)); by destruct s). unfold profile_end. destruct (_ =? 0); [by apply wp_ret|]. destruct b; [by apply wp_ret|]. apply wp_bind, wp_ask, wp_ret, HQ.
Qed.

Lemma wp_try_exit c cancel ty s : ty = POWERMODE_TYPE_CLUSTER \/ ty = POWERMODE_TYPE_SYSTEM -> tree_ok (view_of s) -> env_ok s ->
  wp (try_exit c cancel ty) (fun _ s' => view_of s' = exit_mode c ty (view_of s) /\ env_ok s') s.
Proof.
  intros Hty T He. unfold try_exit, exit_mode. apply wp_bind, wp_get. rewrite view_mode_of. destruct (vmode (view_of s) c ty) as [j|] eqn:Ev; [|by apply wp_ret].
  destruct (tk_mode _ T _ _ _ Hty Ev) as (mv & Hm & Ht & Hs). rewrite Hm. apply wp_bind. eapply wp_get_mode; [exact Hm|]. intros m Em Emv. rewrite <- Emv. cbn [mv_state mv_type mv_cal view_mode]. rewrite <- Emv in Ht. cbn in Ht.
  destruct (pw_state m =? CPUPM_STATE_IDLE); [|by apply wp_ret]. unfold exit_power_mode. apply wp_bind. eapply wp_eq; [unfold get_mode; by rewrite Em|]. apply wp_bind. unfold cpupm_profile_end. apply wp_profile_end. intros st n.
  apply wp_bind, wp_mod. set (s1 := s <| s_asked := n |> <| s_mode_list := _ |>). assert (Hv1 : view_of s1 = set_mode j CPUPM_STATE_BUSY (view_of s)) by (exact (view_alter_mode (s <| s_asked := n |>) j (fun m => m <| pw_stat := st |> <| pw_state := CPUPM_STATE_BUSY |>) (fun m => m <| mv_state := CPUPM_STATE_BUSY |>) (fun _ => eq_refl))).
  assert (He1 : env_ok s1) by (apply (env_modes (s <| s_asked := n |>)); by apply moved_asked). clearbody s1. rewrite Ht. destruct Hty as [->| ->]; cbn [Z.eqb POWERMODE_TYPE_CLUSTER POWERMODE_TYPE_SYSTEM Pos.eqb].
  - apply wp_mod. split; [|by apply env_log]. by rewrite (view_tell _ _ (ClusterEnable (pw_cal_id m))), Hv1.
  - apply wp_bind, wp_get. change (s_system_disabled s1) with (v_system (view_of s1)). rewrite Hv1. change (v_system (set_mode j CPUPM_STATE_BUSY (view_of s))) with (v_system (view_of s)).
    destruct (v_system (view_of s)); cbn [negb]; [|by apply wp_ret]. apply wp_bind, wp_mod. set (s2 := s1 <| s_log := _ |>). assert (Hv2 : view_of s2 = call_made PmExit (set_mode j CPUPM_STATE_BUSY (view_of s))).
    { unfold s2. rewrite (view_tell _ _ PmExit), Hv1; [done|]. by destruct (cancel =? 0). }
    assert (He2 : env_ok s2) by (by apply env_log). clearbody s2. apply wp_bind. unfold exynos_cpupm_notify. apply wp_bind, wp_mod, wp_ask. destruct (moved_tell s2 (Notify SICD_EXIT cancel) eq_refl He2) as (Hv3 & He3 & _). apply wp_mod. split.
    + rewrite Hv2 in Hv3. unfold view_of in *. cbn in *. injection Hv3 as E1 E2 E3 E4 E5. unfold call_made, set_mode. cbn. congruence.
    + destruct He3 as [[xs X] X2 X3]. split; [exists xs; by eapply (registry_frame (s2 <| s_log := _ |>)); [..|exact X]|done..].
Qed.

(** A cpu that leaves idle takes its modes with it. *)
Lemma wp_exit c cancel s : tree_ok (view_of s) -> env_ok s -> wp (exynos_cpupm_exit c cancel) (fun _ s' => view_of s' = cpu_wakes c (view_of s) /\ env_ok s') s.
Proof.
  intros T He. unfold exynos_cpupm_exit. apply wp_bind. cbn [kiter]. apply wp_bind. eapply wp_mono; [apply wp_try_exit; [by left|done|done]|]. intros _ s1 [E1 He1].
  assert (T1 : tree_ok (view_of s1)). { rewrite E1. destruct (exit_mode_woken c POWERMODE_TYPE_CLUSTER (view_of s)) as [(W1 & W2 & _ & W3) W4]. eapply (tree_frame (view_of s)); [by rewrite W4|intros; unfold vmode, cpu_of; by rewrite W4|done| | |done].
    - intros i m Hm. destruct (W3 _ _ Hm) as (m0 & Hm0 & -> & _). by exists m0.
    - intros i m Hm. apply lookup_lt_is_Some_2. rewrite W2. by apply lookup_lt_is_Some_1. }
  apply wp_bind. eapply wp_mono; [apply wp_try_exit; [by right|done|done]|]. intros _ s2 [E2 He2]. apply wp_ret. apply wp_bind, wp_mod, wp_mod. split.
  - rewrite (view_tell _ _ (CpuEnable c)) by done. rewrite view_set_state, E2, E1. done.
  - apply env_log, env_cpus; [done|done].
Qed.

Lemma wp_wake c s : tree_ok (view_of s) -> env_ok s -> wp (wake c) (fun _ s' => view_of s' = wakes [c] (view_of s) /\ env_ok s') s.
Proof.
  intros T He. unfold wake, wakes. apply wp_bind, wp_get. rewrite view_state. cbn [foldl]. destruct (_ =? _); [|by apply wp_ret]. apply wp_bind. cbn [exynos_cpu_pm_notify_callback]. apply wp_bind, wp_ask. apply wp_bind.
  destruct (moved_asked s (S (s_asked s)) He) as (Ev & He' & _). eapply wp_mono; [apply wp_exit; [by rewrite Ev|done]|]. intros _ s' [E1 He1]. rewrite Ev in E1. apply wp_ret, wp_ret. done.
Qed.

Lemma wp_awake cs h : forall s, base h (view_of s) -> clusters_ok (view_of s) -> env_ok s -> (forall c, c ∈ cs -> c ∈ s_online s) ->
  wp (kiter wake cs) (fun _ s' => view_of s' = wakes cs (view_of s) /\ env_ok s') s.
Proof.
  induction cs as [|c cs IH]; intros s B K He Hcs; cbn [kiter]; [by apply wp_ret|]. apply wp_bind. eapply wp_mono; [apply wp_wake; [by destruct B|done]|]. intros _ s1 [E1 He1].
  assert (Hc : forall c', c' ∈ [c] -> c' ∈ v_online (view_of s)) by (intros c' ->%list_elem_of_singleton; apply Hcs; by left). destruct (wakes_base h [c] (view_of s) B K Hc) as (B1 & K1 & W1). rewrite <- E1 in B1, K1, W1.
  eapply wp_mono; [apply IH; [done|done|done|]|].
  - intros c' Hc'. change (c' ∈ v_online (view_of s1)). rewrite (proj1 W1). apply Hcs. by right.
  - intros _ s' [E2 He2]. split; [|done]. rewrite E2, E1. done.
Qed.

(** ** Entering modes *)

Lemma wp_cpus_busy t cpus s : wp (cpus_busy t cpus) (fun r s' => s' = s <| s_asked := S (s_asked s) |> /\
  (r = 0 <-> forall c, c ∈ cpus -> c ∈ s_online s -> (c < length (s_cpus s))%nat -> cstate (view_of s) c <> CPUPM_STATE_BUSY /\ t <= get_sleep_length s c (x_time (s_answers s (s_asked s))))) s.
Proof.
  unfold cpus_busy, ktime_get. apply wp_bind, wp_ask, wp_bind, wp_get, wp_ret. split; [done|]. cbn [s_online]. set (now := x_time _). set (l := cpus_and _ _ _).
  assert (Hl : forall c, c ∈ l <-> (c ∈ s_online s /\ c ∈ cpus) /\ (c < length (s_cpus s))%nat) by (intros c; exact (elem_cpus_and (s <| s_asked := S (s_asked s) |>) _ _ c)).
  destruct (existsb _ l) eqn:Ex.
  - split; [done|]. intros H. exfalso. apply existsb_exists in Ex as (c & Hc & Hb). apply list_elem_of_In, Hl in Hc as [[Ho Hs] Hlt]. destruct (H c Hs Ho Hlt) as [H1 H2]. apply orb_prop in Hb as [Hb|Hb].
    + apply Z.eqb_eq in Hb. apply H1. rewrite <- view_state. exact Hb.
    + apply Z.ltb_lt in Hb. change (get_sleep_length s c now < t) in Hb. lia.
  - split; [intros _|done]. intros c Hs Ho Hlt. assert (Hc : In c l) by (apply list_elem_of_In; by apply Hl). pose proof (proj2 (not_true_iff_false _) Ex) as Hn. split.
    + intros Hb. apply Hn, existsb_exists. exists c. split; [done|]. apply orb_true_intro. left. apply Z.eqb_eq. rewrite <- view_state in Hb. exact Hb.
    + apply Z.nlt_ge. intros Hb. apply Hn, existsb_exists. exists c. split; [done|]. apply orb_true_intro. right. by apply Z.ltb_lt.
Qed.

(** The controller is asked about each cpu but the one that enters, until it is
    looking for the last core of one. *)
Lemma wp_detecting c l : forall s, wp (detecting c l) (fun r s' => (exists n, s' = s <| s_asked := n |>) /\
  (r = 0 <-> forall i, (i < length (filter (fun x => x <> c) l))%nat -> x_lastcore (s_answers s (s_asked s + i)) = false)) s.
Proof.
  induction l as [|x l IH]; intros s; cbn [detecting].
  { apply wp_ret. split; [exists (s_asked s); by destruct s|]. split; [intros _ i Hi; rewrite filter_nil in Hi; simpl in Hi; lia|done]. }
  destruct (Nat.eqb_spec x c) as [->|Hne]; [rewrite filter_cons_False by (by intros []); apply IH|]. rewrite filter_cons_True by done. apply wp_bind, wp_ask. destruct (x_lastcore _) eqn:E.
  - apply wp_ret. split; [by eexists|]. split; [done|]. intros H. specialize (H 0%nat ltac:(simpl; lia)). rewrite Nat.add_0_r in H. by rewrite H in E.
  - eapply wp_mono; [apply IH|]. intros r s' [[n ->] Hr]. split; [by exists n|]. rewrite Hr. cbn [s_answers s_asked]. split.
    + intros H [|i] Hi; [by rewrite Nat.add_0_r|]. rewrite Nat.add_succ_r. apply (H i). simpl in Hi. lia.
    + intros H i Hi. specialize (H (S i) ltac:(simpl; lia)). by rewrite Nat.add_succ_r in H.
Qed.

(** No cluster that does not boot the system is busy. *)
Definition clusters_asleep (v : view) : Prop := clusters_ok (v <| v_system := true |>).

Lemma clusters_busy_false s l : tree_ok (view_of s) -> (forall j m, v_modes (view_of s) !! j = Some m -> busy_or_idle (mv_state m)) -> forall mode,
  (forall m, mode = Some m -> exists j, s_mode_list s !! j = Some m /\ pw_type m = POWERMODE_TYPE_CLUSTER /\ (BOOT_CPU ∉ pw_siblings m -> pw_state m = CPUPM_STATE_IDLE)) ->
  clusters_busy s mode l = false -> forall c j m, c ∈ l -> vmode (view_of s) c POWERMODE_TYPE_CLUSTER = Some j -> v_modes (view_of s) !! j = Some m -> BOOT_CPU ∉ mv_siblings m -> mv_state m = CPUPM_STATE_IDLE.
Proof.
  intros T Hst. induction l as [|x l IH]; intros mode Hmode Hb c j m Hc Hv Hm Hboot; [by apply not_elem_of_nil in Hc|]. cbn [clusters_busy] in Hb.
  destruct (match mode with Some m => cpumask_test_cpu x (pw_siblings m) | None => false end) eqn:Eskip.
  - destruct mode as [m0|]; [|done]. apply bool_decide_eq_true in Eskip. apply elem_of_cons in Hc as [->|Hc]; [|by eapply (IH _ Hmode Hb)]. destruct (Hmode m0 eq_refl) as (j0 & Hj0 & Ht0 & Hi0).
    assert (Hm0 : v_modes (view_of s) !! j0 = Some (view_mode m0)) by (by rewrite view_mode_at, Hj0). destruct (tk_sibling _ T _ _ x Hm0 Eskip) as [_ Hv0]. cbn [mv_type view_mode] in Hv0. rewrite Ht0, Hv in Hv0. injection Hv0 as ->.
    rewrite Hm in Hm0. injection Hm0 as ->. by apply Hi0.
  - rewrite view_mode_of in Hb. destruct (vmode (view_of s) x POWERMODE_TYPE_CLUSTER) as [jx|] eqn:Ex.
    2: { cbn in Hb. apply elem_of_cons in Hc as [->|Hc]; [congruence|]. by eapply (IH None). }
    cbn in Hb. destruct (tk_mode _ T _ _ _ (or_introl eq_refl) Ex) as (mv & Hmv & Htv & Hsv). pose proof Hmv as Hmv'. rewrite view_mode_at in Hmv. destruct (s_mode_list s !! jx) as [mx|] eqn:Emx; [|done]. injection Hmv as <-.
    assert (Hnext : forall b, (BOOT_CPU ∉ pw_siblings mx -> pw_state mx = CPUPM_STATE_IDLE) -> clusters_busy s (Some mx) l = false -> b = true -> mv_state m = CPUPM_STATE_IDLE).
    { intros b Hi Hb' _. apply elem_of_cons in Hc as [->|Hc]; [|eapply (IH (Some mx)); [|done..]; intros m1 [= <-]; by exists jx]. rewrite Hv in Ex. injection Ex as ->. rewrite Hm in Hmv'. injection Hmv' as ->. by apply Hi. }
    destruct (cpumask_test_cpu BOOT_CPU (pw_siblings mx)) eqn:Eb.
    + apply bool_decide_eq_true in Eb. by apply (Hnext true).
    + destruct (Z.eqb_spec (pw_state mx) CPUPM_STATE_BUSY) as [|Hnb]; [done|]. apply (Hnext true); [|done..]. intros _. by destruct (Hst _ _ Hmv').
Qed.

Lemma wp_system_busy m s : tree_ok (view_of s) -> (forall j m, v_modes (view_of s) !! j = Some m -> busy_or_idle (mv_state m)) -> env_ok s ->
  wp (system_busy m) (fun r s' => moved s s' /\ s_log s' = s_log s /\ (pw_type m <> POWERMODE_TYPE_SYSTEM -> r = false) /\ (pw_type m = POWERMODE_TYPE_SYSTEM -> r = false -> clusters_asleep (view_of s) /\ forall xs, registry s xs -> Forall (fun x => ~ busy_normal x) xs)) s.
Proof.
  intros T Hst He. unfold system_busy. destruct (Z.eqb_spec (pw_type m) POWERMODE_TYPE_SYSTEM) as [Et|Et]; cbn [negb]; [|by apply wp_ret].
  unfold cluster_busy. apply wp_bind, wp_bind, wp_get, wp_ret. destruct (clusters_busy s None _) eqn:Eb; [by apply wp_ret|]. pose proof He as [(xs & Hx) _ _].
  eapply wp_mono; [by apply (wp_ip_busy s xs)|]. intros r s' ((ys & Hy & _) & Hc & Hno & _). split; [by eapply moved_core|]. split; [by injection Hc|]. split; [done|]. intros _ Hr. split; [|intros zs Hz; rewrite (registry_unique _ _ _ Hz Hx); by apply Hno]. intros _ c j mv Ho Hv Hm Hboot.
  eapply (clusters_busy_false s _ T Hst None); [done|exact Eb| |exact Hv|exact Hm|exact Hboot]. apply elem_cpus_and. split; [done|]. pose proof (tk_online _ T c Ho) as Hlt. by rewrite view_len in Hlt.
Qed.

(** After the time, the controller is asked whether it is looking for the last core,
    once for each other cpu of the domain that is online; it never is. *)
Definition quiet (s : cpupm_state) (c : nat) (m : power_mode) : Prop :=
  forall i, (i < length (filter (fun c' => c' <> c) (cpus_and s (s_online s) (pw_siblings m))))%nat -> x_lastcore (s_answers s (S (s_asked s) + i)) = false.

(** What lets a cpu enter a mode. *)
Record may_enter (s : cpupm_state) (c : nat) (m : power_mode) : Prop := {
  me_disable : pw_disable m = 0;
  me_allowed : c ∈ pw_entry_allowed m;
  me_idle : forall c', c' ∈ pw_siblings m -> c' ∈ s_online s -> pm_state (pm_of s c') <> CPUPM_STATE_BUSY /\ pw_target_residency m <= get_sleep_length s c' (x_time (s_answers s (s_asked s)));
  me_quiet : quiet s c m;
  me_clusters : pw_type m = POWERMODE_TYPE_SYSTEM -> clusters_asleep (view_of s);
  me_ips : pw_type m = POWERMODE_TYPE_SYSTEM -> forall xs, registry s xs -> Forall (fun x => ~ busy_normal x) xs }.

Lemma wp_entry_allow c j m s : tree_ok (view_of s) -> (forall j m, v_modes (view_of s) !! j = Some m -> busy_or_idle (mv_state m)) -> env_ok s -> s_mode_list s !! j = Some m ->
  wp (entry_allow c j) (fun r s' => moved s s' /\ s_log s' = s_log s /\ (r = true -> may_enter s c m) /\
    (pw_type m <> POWERMODE_TYPE_SYSTEM -> may_enter s c m -> r = true)) s.
Proof.
  intros T Hst He Hm. unfold entry_allow. apply wp_bind. eapply wp_eq; [unfold get_mode; by rewrite Hm|].
  destruct (Z.eqb_spec (pw_disable m) 0) as [Ed|Ed]; cbn [negb]; [|by apply wp_ret; split_and!; [apply moved_refl|..|intros _ []]]. destruct (cpumask_test_cpu c (pw_entry_allowed m)) eqn:Ea; cbn [negb].
  2: { apply wp_ret. split_and!; [by apply moved_refl|done|done|]. intros _ [_ Ha _ _ _ _]. by apply bool_decide_eq_false in Ea. }
  apply bool_decide_eq_true in Ea. apply wp_bind. eapply wp_mono; [apply wp_cpus_busy|]. intros r s1 [-> Hr]. pose proof (moved_asked s (S (s_asked s)) He) as M1.
  assert (Hr' : r = 0 <-> forall c', c' ∈ pw_siblings m -> c' ∈ s_online s -> pm_state (pm_of s c') <> CPUPM_STATE_BUSY /\ pw_target_residency m <= get_sleep_length s c' (x_time (s_answers s (s_asked s)))).
  { rewrite Hr. split; intros H c' Hs Ho; [|intros _; rewrite <- view_state; by apply H]. pose proof (tk_online _ T c' Ho) as Hlt. rewrite view_len in Hlt. rewrite view_state. by apply H. }
  clear Hr. destruct (Z.eqb_spec r 0) as [E0|E0]; cbn [negb]; [|by apply wp_ret; split_and!; [..|intros _ [_ _ Hi _ _ _]; destruct E0; apply Hr']].
  apply wp_bind. unfold cpus_last_core_detecting. apply wp_bind, wp_get. eapply wp_mono; [apply wp_detecting|]. intros r2 s2 [[n ->] Hr2].
  pose proof (moved_asked s n He) as M2. destruct (Z.eqb_spec r2 0) as [E2|E2]; cbn [negb]; [|by apply wp_ret; split_and!; [..|intros _ [_ _ _ Hq _ _]; destruct E2; by apply Hr2]]. change (s <| s_asked := S (s_asked s) |> <| s_asked := n |>) with (s <| s_asked := n |>).
  apply wp_bind. destruct M2 as (Ev & He2 & M2). eapply wp_mono; [apply (wp_system_busy m (s <| s_asked := n |>)); [by rewrite Ev|by rewrite Ev|done]|].
  intros b s3 (M3 & L3 & Hno & Hb). apply wp_ret. split; [by eapply moved_then; [|exact M3]|]. split; [done|]. split; [|intros Ht _; by rewrite (Hno Ht)]. intros Hneg. destruct b; [done|]. split; try done; [by apply Hr'|exact (proj1 Hr2 E2)|..]; intros Ht; destruct (Hb Ht eq_refl) as [Hb1 Hb2].
  - rewrite <- Ev. exact Hb1.
  - intros xs Hx. apply Hb2. by apply (registry_frame s).
Qed.

Lemma wp_tells (f : wakeup_mask -> CM unit) l s : env_ok s -> (forall w s, env_ok s -> wp (f w) (fun _ s' => moved s s') s) -> wp (kiter f l) (fun _ s' => moved s s') s.
Proof.
  intros He Hf. revert s He. induction l as [|w l IH]; intros s He; cbn [kiter]; [apply wp_ret, moved_refl; done|]. apply wp_bind. eapply wp_mono; [by apply Hf|]. intros ? s1 M1. cbv beta in M1. eapply wp_mono; [apply IH; exact (moved_env _ _ M1)|].
  intros ? s2 M2. cbv beta in M2. by eapply moved_then.
Qed.

Lemma wp_write_eint offsets : forall masks s, (length offsets <= length masks)%nat -> env_ok s -> wp (write_eint offsets masks) (fun _ s' => moved s s') s.
Proof.
  induction offsets as [|o offsets IH]; intros [|x masks] s Hl He; cbn [write_eint]; simpl in Hl; try lia; [by apply wp_ret..|]. pose proof (moved_tell s (PmuWrite o x) eq_refl He) as M. apply wp_bind, wp_mod. eapply wp_mono; [apply IH; [lia|exact (moved_env _ _ M)]|].
  intros ? s' M'. cbv beta in M'. by eapply moved_then.
Qed.

Lemma wp_set_wakeup_mask s : env_ok s -> wp set_wakeup_mask (fun _ s' => moved s s') s.
Proof.
  intros He. unfold set_wakeup_mask. apply wp_bind, wp_get. pose proof (ev_wm _ He) as Hw. destruct (s_wm_config s) as [|cfg|] eqn:Ew; [apply wp_ret, moved_refl; done| |done]. apply wp_bind. eapply wp_mono.
  - apply (wp_conj _ (fun _ s' => moved s s') (fun _ s' => s_eint_masks s' = s_eint_masks s)).
    + apply wp_tells; [done|]. intros w s' He'. apply wp_bind, wp_mod, wp_mod. eapply moved_then; [by apply (moved_tell s' (PmuWrite (wm_stat_reg_offset w) 0))|]. apply (moved_tell (s' <| s_log := _ |>) (PmuWrite (wm_mask_reg_offset w) (wm_mask w))); [done|]. by apply env_log.
    + generalize (wc_wakeup_masks cfg) as l. intros l. clear. revert s. induction l as [|w l IH]; intros s; cbn [kiter]; [by apply wp_ret|]. apply wp_bind, wp_bind, wp_mod, wp_mod. eapply wp_mono; [apply IH|]. by intros _ s' ->.
  - intros ? s' [M Em]. cbv beta in M. eapply wp_mono; [apply wp_write_eint; [exact Hw|exact (moved_env _ _ M)]|]. intros ? s2 M2. cbv beta in M2. by eapply moved_then.
Qed.

(** ** A cpu enters *)

(** Changes that keep which cpus are online and idle, and the tree. *)
Definition kept (v v' : view) : Prop := v_online v' = v_online v /\ v_cpus v' = v_cpus v.

(** A mode that is entered, unless the system mode is refused. *)
Definition slept (j : nat) (mv : mode_view) (v v' : view) : Prop :=
  (mv_type mv = POWERMODE_TYPE_CLUSTER -> v' = cluster_sleeps j (mv_cal mv) v) /\ (mv_type mv = POWERMODE_TYPE_SYSTEM -> v' = v \/ v' = system_sleeps j v).

Lemma wp_enter_mode h c j mv s : ok h (view_of s) -> env_ok s -> v_modes (view_of s) !! j = Some mv -> can_enter (view_of s) j mv -> (mv_type mv = POWERMODE_TYPE_SYSTEM -> clusters_asleep (view_of s)) ->
  wp (enter_power_mode c j) (fun _ s' => ok h (view_of s') /\ env_ok s' /\ kept (view_of s) (view_of s') /\ slept j mv (view_of s) (view_of s')) s.
Proof.
  intros Hok He Hm Hce Hk. unfold enter_power_mode. apply wp_bind. eapply wp_get_mode; [exact Hm|]. intros m Em Emv.
  assert (Hend : forall s1 v', view_of s1 = v' -> env_ok s1 -> ok h (set_mode j CPUPM_STATE_IDLE v') -> kept (view_of s) v' -> slept j mv (view_of s) (set_mode j CPUPM_STATE_IDLE v') ->
    wp (do! mod_mode j (fun m => m <| pw_state := CPUPM_STATE_IDLE |>) in let! st := cpupm_profile_begin (pw_stat m) in mod_mode j (fun m => m <| pw_stat := st |>))
      (fun _ s' => ok h (view_of s') /\ env_ok s' /\ kept (view_of s) (view_of s') /\ slept j mv (view_of s) (view_of s')) s1).
  { intros s1 v' Ev He1 Hok' Hkept Hcl. apply wp_bind, wp_mod. set (s2 := s1 <| s_mode_list := _ |>). assert (E2 : view_of s2 = set_mode j CPUPM_STATE_IDLE v') by (rewrite <- Ev; exact (view_alter_mode s1 j (fun m => m <| pw_state := CPUPM_STATE_IDLE |>) (fun m => m <| mv_state := CPUPM_STATE_IDLE |>) (fun _ => eq_refl))).
    assert (He2 : env_ok s2) by (by apply env_modes). clearbody s2. unfold cpupm_profile_begin, cpuidle_profile_begin. apply wp_bind, wp_bind, wp_ask, wp_ret, wp_mod. match goal with |- ok h (view_of ?x) /\ _ => set (s3 := x) end.
    assert (E3 : view_of s3 = view_of s2). { match goal with s3 := _ <| s_mode_list := alter ?f _ _ |> |- _ => pose proof (view_alter_mode (s2 <| s_asked := S (s_asked s2) |>) j f (fun m => m) (fun _ => eq_refl)) as E end.
      etransitivity; [exact E|]. rewrite (alter_same (fun m => m)) by done. reflexivity. }
    rewrite E3, E2. split; [done|]. split; [apply (env_modes (s2 <| s_asked := S (s_asked s2) |>)); by apply moved_asked|]. split; [|done]. exact Hkept. }
  apply wp_bind. unfold enter_settings. destruct (tk_type _ (b_tree _ _ (ok_base _ _ Hok)) _ _ Hm) as [Ht|Ht]; pose proof Ht as Ht'; rewrite <- Emv in Ht'; cbn [mv_type view_mode] in Ht'; rewrite Ht'; cbn [Z.eqb POWERMODE_TYPE_CLUSTER POWERMODE_TYPE_SYSTEM Pos.eqb].
  - apply wp_bind, wp_mod, wp_ret. assert (Ecal : pw_cal_id m = mv_cal mv) by (by rewrite <- Emv). apply (Hend _ (call_made (ClusterDisable (mv_cal mv)) (view_of s))); [rewrite Ecal; by apply view_tell|by apply env_log|by apply cluster_sleeps_ok|done|split; [done|by rewrite Ht]].
  - specialize (Hk Ht). assert (Hskip : forall s1, moved s s1 -> wp (kret tt) (fun _ s' => ok h (view_of s') /\ env_ok s' /\ kept (view_of s) (view_of s') /\ slept j mv (view_of s) (view_of s')) s1).
    { intros s1 (E1 & He1 & _). apply wp_ret. rewrite E1. split; [done|]. split; [done|]. split; [done|]. split; [by rewrite Ht|by left]. }
    apply wp_bind, wp_get. destruct (s_system_disabled s); [by apply wp_ret, Hskip, moved_refl|]. apply wp_bind, wp_ask. pose proof (moved_asked s (S (s_asked s)) He) as M1. set (s1 := s <| s_asked := _ |>) in *.
    destruct (negb _); [by apply wp_ret, Hskip|]. unfold exynos_cpupm_notify. apply wp_bind, wp_bind, wp_mod, wp_ask. assert (M2 : moved s (s1 <| s_log := s_log s1 ++ [Notify SICD_ENTER 0] |> <| s_asked := S (s_asked s1) |>)).
    { eapply moved_then; [exact M1|]. eapply moved_then; [apply (moved_tell s1 (Notify SICD_ENTER 0)); [done|exact (moved_env _ _ M1)]|]. apply moved_asked, env_log. exact (moved_env _ _ M1). }
    set (s2 := s1 <| s_log := _ |> <| s_asked := _ |>) in *. clearbody s2. destruct (negb _); [by apply wp_ret, Hskip|]. destruct M2 as (E2 & He2 & _). apply wp_bind, wp_mod. set (s3 := s2 <| s_log := _ |>).
    assert (E3 : view_of s3 = call_made PmEnter (view_of s)) by (rewrite <- E2; by apply view_tell). assert (He3 : env_ok s3) by (by apply env_log). clearbody s3. apply wp_bind. eapply wp_mono; [by apply wp_set_wakeup_mask|]. intros _ s4 (E4 & He4 & _). rewrite E3 in E4.
    apply wp_bind, wp_mod, wp_ret. apply (Hend _ (call_made PmEnter (view_of s) <| v_system := true |>)); [|destruct He4 as [[xs X] X2 X3]; split; [exists xs; by apply (registry_frame s4)|done..]|by apply (system_sleeps_ok h (view_of s) j mv)|done|split; [by rewrite Ht|by right]].
    unfold view_of in *. cbn in *. injection E4 as F1 F2 F3 F4 F5. unfold call_made. cbn. congruence.
Qed.

Lemma wp_try_enter h c ty s : ty = POWERMODE_TYPE_CLUSTER \/ ty = POWERMODE_TYPE_SYSTEM -> ok h (view_of s) -> env_ok s -> c ∈ s_online s ->
  wp (try_enter c ty) (fun _ s' => ok h (view_of s') /\ env_ok s' /\ kept (view_of s) (view_of s') /\
    (view_of s' = view_of s \/ exists j m, mode_of s c ty = Some j /\ s_mode_list s !! j = Some m /\ pw_type m = ty /\ may_enter s c m /\ slept j (view_mode m) (view_of s) (view_of s')) /\
    (ty = POWERMODE_TYPE_CLUSTER -> forall j m, mode_of s c ty = Some j -> s_mode_list s !! j = Some m -> may_enter s c m -> view_of s' = cluster_sleeps j (pw_cal_id m) (view_of s))) s.
Proof.
  intros Hty Hok He Hc. pose proof Hok as [[T S C] K D]. unfold try_enter. apply wp_bind, wp_get. rewrite !view_mode_of. destruct (vmode (view_of s) c ty) as [j|] eqn:Ev; [|by apply wp_ret; split_and!; try done; left].
  destruct (tk_mode _ T _ _ _ Hty Ev) as (mv & Hm & Ht & Hs). pose proof Hm as Hm'. rewrite view_mode_at in Hm'. destruct (s_mode_list s !! j) as [m|] eqn:Em; [|done]. injection Hm' as <-. cbn [view_mode mv_type mv_siblings] in Ht, Hs.
  apply wp_bind. eapply wp_mono; [apply (wp_entry_allow c j m s T (sk_mode _ _ S) He Em)|]. intros r s1 ((E1 & He1 & _) & _ & Hr & Hr'). destruct r.
  - pose proof (Hr eq_refl) as Hme. eapply wp_mono; [apply (wp_enter_mode h c j (view_mode m) s1); rewrite ?E1; [done|done|done| |]|].
    + split; [done|apply Hme| |by exists c]. intros c' Hs' Ho'. destruct (sk_cpu _ _ S c') as [E|E]; [|done]. destruct (me_idle _ _ _ Hme c' Hs' Ho') as [Hn _]. by rewrite view_state in Hn.
    + apply Hme.
    + rewrite E1. intros _ s2 (H1 & H2 & H3 & H4). split_and!; try done; [right; by exists j, m|]. intros -> j' m' [= <-] Em' _. rewrite Em in Em'. injection Em' as <-. by apply H4.
  - apply wp_ret. rewrite E1. split_and!; try done; [by left|]. intros -> j' m' [= <-] Em' Hme. rewrite Em in Em'. injection Em' as <-. by specialize (Hr' ltac:(by rewrite Ht) Hme).
Qed.

(** A running cpu goes idle; it takes down what it may. *)
Lemma wp_enter h c s : ok h (view_of s) -> env_ok s -> c ∈ s_online s -> alive h (view_of s) c ->
  wp (exynos_cpupm_enter c) (fun _ s' => ok h (view_of s') /\ env_ok s' /\ kept (cpu_idles c (view_of s)) (view_of s')) s.
Proof.
  intros Hok He Hc Ha. unfold exynos_cpupm_enter. apply wp_bind, wp_mod, wp_bind, wp_mod. set (s1 := s <| s_log := _ |> <| s_cpus := _ |>).
  assert (E1 : view_of s1 = cpu_idles c (view_of s)). { unfold s1. pose proof (view_set_state (s <| s_log := s_log s ++ [CpuDisable c] |>) c CPUPM_STATE_IDLE) as E. etransitivity; [exact E|]. by rewrite (view_tell s _ (CpuDisable c)). }
  assert (He1 : env_ok s1) by (apply (env_cpus (s <| s_log := _ |>)); [done|by apply env_log]). assert (Hok1 : ok h (view_of s1)) by (rewrite E1; by apply cpu_idles_ok). assert (Hc1 : c ∈ s_online s1) by done. rewrite <- E1. clearbody s1.
  cbn [kiter]. apply wp_bind. eapply wp_mono; [apply (wp_try_enter h); [by left|done..]|]. intros _ s2 (Hok2 & He2 & (Ho2 & Ec2) & _). apply wp_bind. eapply wp_mono; [apply (wp_try_enter h); [by right|done|done|]|].
  - change (c ∈ v_online (view_of s2)). by rewrite Ho2.
  - intros _ s3 (Hok3 & He3 & (Ho3 & Ec3) & _). apply wp_ret. split; [done|]. split; [done|]. split; congruence.
Qed.

(** ** Disabling *)

Lemma wp_awake_mode h j mv s : base h (view_of s) -> clusters_ok (view_of s) -> env_ok s -> v_modes (view_of s) !! j = Some mv ->
  wp (awake_cpus (mv_siblings mv)) (fun _ s' => base h (view_of s') /\ clusters_ok (view_of s') /\ env_ok s' /\ woken (view_of s) (view_of s') /\
    forall m', v_modes (view_of s') !! j = Some m' -> mv_state m' = CPUPM_STATE_BUSY) s.
Proof.
  intros B K He Hm. unfold awake_cpus. apply wp_bind, wp_get. set (l := cpus_and s _ _). assert (Hl : forall c, c ∈ l <-> c ∈ mv_siblings mv /\ c ∈ v_online (view_of s)).
  { intros c. unfold l. rewrite elem_cpus_and. split; [tauto|]. intros H. split; [done|]. rewrite <- view_len. apply (tk_online _ (b_tree _ _ B)). tauto. }
  eapply wp_mono; [apply (wp_awake l h s B K He); intros c Hc; by apply Hl|]. intros _ s' [E He']. rewrite E. destruct (wakes_base h l (view_of s) B K) as (B' & K' & W); [intros c Hc; by apply Hl|]. split_and!; [done|done|done|done|]. by eapply wakes_leave.
Qed.

Lemma modes_alter (v : view) (g : mode_view -> mode_view) j i : v_modes (v <| v_modes := alter g j (v_modes v) |>) !! i = if decide (i = j) then g <$> v_modes v !! i else v_modes v !! i.
Proof. destruct v. cbn. rewrite list_lookup_alter. repeat case_decide; subst; done. Qed.

(** A change of the count of one mode; the others keep their promise. *)
Lemma set_disable h s j n s1 : s1 = s <| s_mode_list := alter (fun m => m <| pw_disable := n |>) j (s_mode_list s) |> -> base h (view_of s) -> clusters_ok (view_of s) -> env_ok s ->
  base h (view_of s1) /\ clusters_ok (view_of s1) /\ env_ok s1 /\ view_of s1 = (view_of s) <| v_modes := alter (fun m => m <| mv_disable := n |>) j (v_modes (view_of s)) |>.
Proof.
  intros -> [T S C] K He. pose proof (view_alter_mode s j (fun m => m <| pw_disable := n |>) (fun m => m <| mv_disable := n |>) (fun _ => eq_refl)) as E. set (s1 := s <| s_mode_list := _ |>) in *.
  assert (Hm : forall i m', v_modes (view_of s1) !! i = Some m' -> exists m, v_modes (view_of s) !! i = Some m /\ m' = m <| mv_disable := mv_disable m' |>).
  { rewrite E. intros i m'. rewrite modes_alter. case_decide as Ed; [subst|intros H; exists m'; split; [done|by destruct m']]. intros H. match type of H with _ <$> ?x = _ => destruct x as [m|] end; [|done]. injection H as <-. by exists m. }
  assert (Hm' : forall i m, v_modes (view_of s) !! i = Some m -> is_Some (v_modes (view_of s1) !! i)) by (intros i m H; rewrite E, modes_alter, H; case_decide; by eexists).
  assert (Hs : forall i m', v_modes (view_of s1) !! i = Some m' -> exists m, v_modes (view_of s) !! i = Some m /\ mv_state m' = mv_state m /\ mv_type m' = mv_type m /\ mv_cal m' = mv_cal m /\ mv_siblings m' = mv_siblings m).
  { intros i m' H. destruct (Hm _ _ H) as (m & H1 & H2). exists m. split; [done|]. rewrite H2. done. }
  split_and!; [split|..|by apply env_modes|exact E].
  - eapply (tree_frame (view_of s)); try done. intros i m' H. destruct (Hs _ _ H) as (m & H1 & _ & -> & -> & ->). by exists m.
  - destruct S as [S1 S2 S3 S4 S5 S6 S7 S8 S9]. split; try done.
    + intros i m' H. destruct (Hs _ _ H) as (m & H1 & -> & _). by eapply S2.
    + intros i m' c H. destruct (Hs _ _ H) as (m & H1 & -> & _ & _ & ->). by eapply S3.
    + intros i m' H. destruct (Hs _ _ H) as (m & H1 & -> & _ & _ & ->). by eapply S4.
    + intros i m' H. destruct (Hs _ _ H) as (m & H1 & -> & -> & _). by eapply S6.
    + intros Hv. destruct (S7 Hv) as (i & m & H1 & H2). destruct (Hm' _ _ H1) as [m' H3]. exists i, m'. split; [done|]. destruct (Hs _ _ H3) as (m0 & H4 & _ & -> & _). congruence.
  - destruct C as [C1 C2 C3]. split; try done. intros i m' H. destruct (Hs _ _ H) as (m & H1 & -> & -> & -> & ->). by eapply C1.
  - intros Hv c i m' Ho Hvm H. destruct (Hs _ _ H) as (m & H1 & -> & _ & _ & ->). by eapply (K Hv).
Qed.

(** The count of a mode is changed and its cpus are interrupted, unless it is busy already. *)
Lemma wp_count h j n wake_them s mv : ok h (view_of s) -> env_ok s -> v_modes (view_of s) !! j = Some mv -> (wake_them = false -> mv_disable mv <> 0) ->
  wp (do! mod_mode j (fun m => m <| pw_disable := n |>) in if wake_them : bool then awake_cpus (mv_siblings mv) else kret tt)
    (fun _ s' => ok h (view_of s') /\ env_ok s' /\ v_online (view_of s') = v_online (view_of s) /\ exists m', v_modes (view_of s') !! j = Some m' /\ mv_disable m' = n /\ mv_state m' = CPUPM_STATE_BUSY) s.
Proof.
  intros [B K D] He Hm Hw. apply wp_bind, wp_mod. destruct (set_disable h s j n _ eq_refl B K He) as (B1 & K1 & He1 & E1). set (s1 := s <| s_mode_list := _ |>) in *.
  assert (Hm1 : v_modes (view_of s1) !! j = Some (mv <| mv_disable := n |>)) by (by rewrite E1, modes_alter, decide_True, Hm).
  assert (Hne : forall i m, i <> j -> v_modes (view_of s1) !! i = Some m -> v_modes (view_of s) !! i = Some m) by (intros i m Hi; by rewrite E1, modes_alter, decide_False). assert (Ho1 : v_online (view_of s1) = v_online (view_of s)) by (by rewrite E1). clearbody s1. destruct wake_them.
  - change (mv_siblings mv) with (mv_siblings (mv <| mv_disable := n |>)). eapply wp_mono; [by apply (wp_awake_mode h j (mv <| mv_disable := n |>) s1)|]. intros _ s2 (B2 & K2 & He2 & W & Hb). destruct W as (Wo & Wl & Ws & W). split_and!; [|done|congruence|].
    + split; [done|done|]. intros i m' Hi Hd. destruct (decide (i = j)) as [->|Hd']; [by apply Hb|]. destruct (W _ _ Hi) as (m0 & Hm0 & Em & [->|]); [|done]. apply (D i m0); [by apply Hne|]. rewrite Em in Hd. exact Hd.
    + destruct (lookup_lt_is_Some_2 (v_modes (view_of s2)) j) as [m' Hm']; [rewrite Wl; by eapply lookup_lt_Some|]. exists m'. split; [done|]. split; [|by apply Hb]. destruct (W _ _ Hm') as (m0 & Hm0 & -> & _). rewrite Hm1 in Hm0. by injection Hm0 as <-.
  - apply wp_ret. assert (Hbusy : mv_state mv = CPUPM_STATE_BUSY) by (eapply D; [done|by apply Hw]). split_and!; [|done|done|by eexists]. split; [done|done|]. intros i m' Hi Hd. destruct (decide (i = j)) as [->|Hd']; [|by apply (D i m' (Hne _ _ Hd' Hi))]. rewrite Hm1 in Hi. by injection Hi as <-.
Qed.
