(* ===== verification/CpupmSpec.v ===== *)
(** * What the power management promises

    Histories of cpus that go idle and wake, of hotplug, of drivers that disable
    modes or report idle-IPs and of the system's own states: in every state they
    reach the invariant holds. *)

From S2P Require Import Prelude Cpupm CpupmIp CpupmView CpupmRun.

(** ** Histories *)

Inductive event :=
| EvEnter (c : nat) | EvExit (c : nat) | EvIdleEnter (c : nat) (state next_hrtimer : Z) | EvIdleExit (c : nat) (state : Z)
| EvDisable (c : nat) (type : Z) | EvEnable (c : nat) (type : Z) | EvStore (j : nat) (val : option Z)
| EvRegister (name : string) | EvUpdate (index idle : Z)
| EvSuspend | EvResume | EvReboot (off : bool) | EvItmon (b : bool)
| EvDown (c : nat) | EvGone (c : nat) | EvUp (c : nat) | EvCome (c : nat).

(** What the kernel runs; it takes a cpu out of [cpu_online_mask] and puts it in
    after the callbacks. *)
Definition ignore {A} (m : CM A) : CM unit := do! m in kret tt.
Definition run_event (e : event) : CM unit :=
  match e with
  | EvEnter c => ignore (exynos_cpu_pm_notify_callback c CPU_PM_ENTER)
  | EvExit c => ignore (exynos_cpu_pm_notify_callback c CPU_PM_EXIT)
  | EvIdleEnter c st t => vendor_hook_cpu_idle_enter c st t
  | EvIdleExit c st => vendor_hook_cpu_idle_exit c st
  | EvDisable c ty => disable_power_mode c ty
  | EvEnable c ty => enable_power_mode c ty
  | EvStore j val => ignore (power_mode_store j val 0)
  | EvRegister name => ignore (exynos_get_idle_ip_index name)
  | EvUpdate index idle => exynos_update_ip_idle_status index idle
  | EvSuspend => ignore exynos_cpupm_suspend_noirq
  | EvResume => ignore exynos_cpupm_resume_noirq
  | EvReboot off => ignore (exynos_cpupm_reboot_notifier off)
  | EvItmon b => kmod (fun s => s <| s_itmon := b |>)
  | EvDown c => ignore (cpuhp_cpupm_offline c)
  | EvGone c => kmod (fun s => s <| s_online := filter (fun c' => c' <> c) (s_online s) |>)
  | EvUp c => ignore (cpuhp_cpupm_online c)
  | EvCome c => kmod (fun s => s <| s_online := c :: s_online s |>)
  end.

Definition next_phase (h : phase) (e : event) : phase := match e with EvDown c => Down c | EvUp c => Up c | EvGone _ | EvCome _ => Stable | _ => h end.

(** Only a running cpu goes idle, and only an idle one wakes, unless it has slept
    without the driver noticing; hotplug takes its turns, and the modes a cpu
    belongs to are busy when it comes up; indices are those that were given out. *)
Definition small (n : Z) : Prop := - 2 ^ 31 < n < 2 ^ 31 - 1.
Definition legal (h : phase) (s : cpupm_state) (e : event) : Prop :=
  match e with
  | EvEnter c => (c ∈ s_online s) /\ pm_state (pm_of s c) = CPUPM_STATE_BUSY
  | EvExit c => (c ∈ s_online s) /\ (pm_state (pm_of s c) = CPUPM_STATE_IDLE \/ h <> Down c)
  | EvIdleEnter c st _ => (c < length (s_cpus s))%nat /\ 0 <= st < Z.of_nat CPUIDLE_STATE_MAX
  | EvIdleExit c _ => (c < length (s_cpus s))%nat
  | EvDisable c ty | EvEnable c ty => forall j m, mode_of s c ty = Some j -> s_mode_list s !! j = Some m -> small (pw_disable m)
  | EvStore j _ => exists m, s_mode_list s !! j = Some m /\ small (pw_disable m)
  | EvRegister _ => forall xs, registry s xs -> Z.of_nat (length xs) + 1 < 2 ^ 31
  | EvUpdate index _ => forall xs, registry s xs -> 0 <= index < Z.of_nat (length xs)
  | EvDown c => h = Stable /\ (c ∈ s_online s) /\ pm_state (pm_of s c) = CPUPM_STATE_BUSY
  | EvGone c => h = Down c
  | EvUp c => h = Stable /\ (c ∉ s_online s) /\ (c < length (s_cpus s))%nat
  | EvCome c => h = Up c /\ mode_busy (view_of s) c POWERMODE_TYPE_CLUSTER /\ mode_busy (view_of s) c POWERMODE_TYPE_SYSTEM
  | _ => True
  end.

Definition sound (h : phase) (s : cpupm_state) : Prop := ok h (view_of s) /\ env_ok s.

(** ** The events one by one *)

Lemma alter_ext_at {A} (f g : A -> A) (j : nat) (l : list A) x : l !! j = Some x -> f x = g x -> alter f j l = alter g j l.
Proof.
  revert j. induction l as [|y l IH]; intros [|j] H E; try done; cbn in *.
  - injection H as ->. by rewrite E.
  - f_equal. by apply IH.
Qed.

Lemma wp_mod_mode_ext j f g m (k : CM unit) Q s : s_mode_list s !! j = Some m -> f m = g m -> wp (do! mod_mode j g in k) Q s -> wp (do! mod_mode j f in k) Q s.
Proof. intros Hm E H. unfold mod_mode, kmod, kbind in *. unfold wp in *. by rewrite (alter_ext_at f g j _ m Hm E). Qed.

(** Disabling: a mode whose count is not zero is busy. *)
Definition counted (j : nat) (n : Z) (s : cpupm_state) : Prop := exists m, v_modes (view_of s) !! j = Some m /\ mv_disable m = n /\ (n <> 0 -> mv_state m = CPUPM_STATE_BUSY).

Lemma wp_disable_mode h j s mv : sound h s -> v_modes (view_of s) !! j = Some mv -> small (mv_disable mv) ->
  wp (__disable_power_mode j) (fun _ s' => sound h s' /\ s_online s' = s_online s /\ (mv_allowed mv <> [] -> counted j (mv_disable mv + 1) s')) s.
Proof.
  intros [Hok He] Hm Hs. unfold __disable_power_mode. apply wp_bind. eapply wp_get_mode; [exact Hm|]. intros m Em Emv. pose proof Emv as Emv'. rewrite <- Emv. cbn [mv_allowed mv_disable view_mode]. rewrite <- Emv in Hs. cbn in Hs.
  case_bool_decide as Ea; [by apply wp_ret|]. unfold small in Hs. rewrite s32_small by lia. apply (wp_mod_mode_ext j _ (fun m0 => m0 <| pw_disable := pw_disable m + 1 |>) m); [done|by rewrite s32_small by lia|]. destruct (Z.eqb_spec (pw_disable m + 1) 0) as [Ez|Ez].
  - rewrite (proj2 (Z.eqb_neq (pw_disable m + 1) 1)) by lia. apply wp_bind, wp_mod, wp_ret. destruct Hok as [B K D]. destruct (set_disable h s j (pw_disable m + 1) _ eq_refl B K He) as (B1 & K1 & He1 & E1). set (s1 := s <| s_mode_list := _ |>) in *. split; [|split; [done|]].
    + split; [|done]. split; [done|done|]. intros i m'. rewrite E1, modes_alter. case_decide; [|apply D]. destruct (v_modes (view_of s) !! i); [|done]. intros [= <-]. done.
    + intros _. unfold counted. rewrite E1. eexists. rewrite modes_alter, decide_True, Hm by done. split; [reflexivity|]. split; [done|]. by rewrite Ez.
  - change (pw_siblings m) with (mv_siblings (view_mode m)). rewrite Emv. eapply wp_mono; [apply (wp_count h j (pw_disable m + 1) (pw_disable m + 1 =? 1) s mv Hok He Hm)|].
    + intros Ew%Z.eqb_neq. rewrite <- Emv. cbn. lia.
    + intros _ s' (Hok' & He' & Ho & m' & Hm' & Hd' & Hb'). split; [done|]. split; [done|]. intros _. by exists m'.
Qed.

Lemma wp_enable_mode h j s mv : sound h s -> v_modes (view_of s) !! j = Some mv -> small (mv_disable mv) ->
  wp (__enable_power_mode j) (fun _ s' => sound h s' /\ s_online s' = s_online s /\ counted j (mv_disable mv - 1) s') s.
Proof.
  intros [Hok He] Hm Hs. unfold __enable_power_mode. apply wp_bind. eapply wp_get_mode; [exact Hm|]. intros m Em Emv. unfold small in Hs. assert (Ed : pw_disable m = mv_disable mv) by (by rewrite <- Emv).
  apply (wp_mod_mode_ext j _ (fun m0 => m0 <| pw_disable := mv_disable mv - 1 |>) m); [done|by rewrite s32_small, Ed by lia|]. change (pw_siblings m) with (mv_siblings (view_mode m)). rewrite Emv.
  eapply wp_mono; [apply (wp_count h j (mv_disable mv - 1) true s mv Hok He Hm); done|]. intros _ s' (Hok' & He' & Ho & m' & Hm' & Hd' & Hb'). split; [done|]. split; [done|]. by exists m'.
Qed.

Lemma wp_with_mode h c ty s (f : nat -> CM unit) : sound h s -> (forall j m, mode_of s c ty = Some j -> s_mode_list s !! j = Some m -> small (pw_disable m)) ->
  (forall j mv, v_modes (view_of s) !! j = Some mv -> small (mv_disable mv) -> wp (f j) (fun _ s' => sound h s') s) -> wp (with_mode c ty f) (fun _ s' => sound h s') s.
Proof.
  intros Hs Hsm Hf. unfold with_mode. destruct (valid_powermode ty) eqn:Ev; cbn [negb]; [|by apply wp_ret]. apply wp_bind, wp_get. destruct (mode_of s c ty) as [j|] eqn:Ej; [|by apply wp_ret].
  assert (Hty : ty = POWERMODE_TYPE_CLUSTER \/ ty = POWERMODE_TYPE_SYSTEM) by (unfold valid_powermode, POWERMODE_TYPE_END, POWERMODE_TYPE_CLUSTER, POWERMODE_TYPE_SYSTEM in *; lia). rewrite view_mode_of in Ej.
  destruct (tk_mode _ (b_tree _ _ (ok_base _ _ (proj1 Hs))) _ _ _ Hty Ej) as (mv & Hm & _ & _). apply (Hf j mv Hm). rewrite view_mode_at in Hm. destruct (s_mode_list s !! j) as [m|] eqn:Em; [|done]. injection Hm as <-. by eapply Hsm.
Qed.

(** Statistics and timers are not in the view. *)
Lemma sound_moved h s s' : moved s s' -> sound h s -> sound h s'.
Proof. intros (E & He & _) [Hok _]. split; [by rewrite E|done]. Qed.

Lemma sound_frame h s s' : s_cpus s' = s_cpus s -> s_online s' = s_online s -> s_mode_list s' = s_mode_list s -> s_system_disabled s' = s_system_disabled s -> s_log s' = s_log s -> s_wm_config s' = s_wm_config s ->
  s_eint_masks s' = s_eint_masks s -> s_ips s' = s_ips s -> s_next s' = s_next s -> s_prev s' = s_prev s -> sound h s -> sound h s'.
Proof.
  intros E1 E2 E3 E4 E5 E6 E7 E8 E9 E10 [Hok [[xs H1] H2 H3]]. split; [|split; [exists xs; by apply (registry_frame s)|by rewrite E6, E7|by rewrite E1]]. unfold view_of in *. by rewrite E1, E2, E3, E4, E5.
Qed.

Lemma view_alter_cpu s f c : (forall p, view_cpu (f p) = view_cpu p) -> view_of (s <| s_cpus := alter f c (s_cpus s) |>) = view_of s.
Proof. intros H. unfold view_of. cbn. f_equal. rewrite (alter_fmap view_cpu f (fun x => x)) by done. by apply alter_same. Qed.

Lemma sound_cpu h s f c : (forall p, view_cpu (f p) = view_cpu p) -> (forall p, length (pm_stat p) = CPUIDLE_STATE_MAX /\ 0 <= pm_entered_state p < Z.of_nat CPUIDLE_STATE_MAX -> length (pm_stat (f p)) = CPUIDLE_STATE_MAX /\ 0 <= pm_entered_state (f p) < Z.of_nat CPUIDLE_STATE_MAX) ->
  sound h s -> sound h (s <| s_cpus := alter f c (s_cpus s) |>).
Proof.
  intros Hv Hf [Hok [[xs H1] H2 H3]]. split; [by rewrite view_alter_cpu|]. split; [exists xs; by apply (registry_frame s)|done|]. cbn. apply Forall_alter; [done|]. intros p _ Hp. by apply Hf.
Qed.

Lemma wp_mod_stat h c (f : cpupm_stats -> CM cpupm_stats) s : sound h s -> (c < length (s_cpus s))%nat -> (forall st s, wp (f st) (fun _ s' => exists n, s' = s <| s_asked := n |>) s) -> wp (mod_stat c f) (fun _ s' => sound h s') s.
Proof.
  intros Hs Hc Hf. unfold mod_stat. apply wp_bind, wp_get. destruct (lookup_lt_is_Some_2 _ _ Hc) as [p Hp]. assert (Epm : pm_of s c = p) by (unfold pm_of; by rewrite Hp). rewrite Epm. cbv zeta.
  destruct (proj1 (Forall_lookup _ _) (ev_stat _ (proj2 Hs)) _ _ Hp) as [Hl Hent]. destruct (Z.ltb_spec (pm_entered_state p) 0); [lia|]. destruct (lookup_lt_is_Some_2 (pm_stat p) (Z.to_nat (pm_entered_state p)) ltac:(lia)) as [st Hst]. rewrite Hst.
  apply wp_bind. eapply wp_mono; [apply Hf|]. intros st' s' [n ->]. apply wp_mod. apply (sound_cpu h (s <| s_asked := n |>)); [done| |by apply (sound_frame h s)]. intros q [Hq1 Hq2]. cbn. by rewrite length_insert.
Qed.

Lemma wp_cluster_settings c w k s : (forall id, power_call (k id) = Some (k id)) -> tree_ok (view_of s) -> env_ok s -> wp (cluster_settings c w k) (fun _ s' => view_of s' = cluster_call c w k (view_of s) /\ env_ok s' /\ s_cpus s' = s_cpus s) s.
Proof.
  intros Hk T He. unfold cluster_settings, cluster_call. apply wp_bind, wp_get. rewrite view_mode_of. destruct (vmode _ _ _) as [j|] eqn:Ev; [|by apply wp_ret]. destruct (tk_mode _ T _ _ _ (or_introl eq_refl) Ev) as (mv & Hm & _ & _). rewrite Hm.
  apply wp_bind. eapply wp_get_mode; [exact Hm|]. intros m Em Emv. assert (Hw : online_siblings s m = weight (view_of s) mv) by (unfold online_siblings, weight, cpus_and; rewrite view_len, <- Emv; done). rewrite Hw.
  destruct (_ =? w)%nat; [|by apply wp_ret]. apply wp_mod. split; [|split; [by apply env_log|done]]. rewrite (view_tell _ _ _ (Hk _)). by rewrite <- Emv.
Qed.

Lemma wp_offline c s : sound Stable s -> c ∈ s_online s -> pm_state (pm_of s c) = CPUPM_STATE_BUSY -> wp (cpuhp_cpupm_offline c) (fun _ s' => sound (Down c) s' /\ view_of s' = goes_down c (view_of s)) s.
Proof.
  intros [Hok He] Hc Hb. rewrite view_state in Hb. pose proof (goes_down_ok _ _ Hok Hc Hb) as Hok'. unfold cpuhp_cpupm_offline. apply wp_bind, wp_mod. set (s1 := s <| s_cpus := _ |>). assert (E1 : view_of s1 = set_hot c true (view_of s)) by apply view_set_hot.
  assert (He1 : env_ok s1) by (by apply env_cpus). clearbody s1. apply wp_bind, wp_mod. set (s2 := s1 <| s_log := _ |>). assert (E2 : view_of s2 = call_made (CpuDisable c) (set_hot c true (view_of s))) by (rewrite <- E1; by apply view_tell). assert (He2 : env_ok s2) by (by apply env_log). clearbody s2.
  apply wp_bind. eapply wp_mono; [apply wp_cluster_settings; [done|rewrite E2; apply tree_push, tree_set_hot; by destruct Hok as [[]]|done]|]. intros _ s3 (E3 & He3 & _). apply wp_ret. assert (E : view_of s3 = goes_down c (view_of s)) by (by rewrite E3, E2). split; [split; [by rewrite E|done]|done].
Qed.

Lemma wp_online c s : sound Stable s -> c ∉ s_online s -> (c < length (s_cpus s))%nat -> wp (cpuhp_cpupm_online c) (fun _ s' => sound (Up c) s' /\ view_of s' = comes_up c (view_of s)) s.
Proof.
  intros [Hok He] Hc Hlt. rewrite <- view_len in Hlt. pose proof (comes_up_ok _ _ Hok Hc Hlt) as Hok'. unfold cpuhp_cpupm_online. apply wp_bind. eapply wp_mono; [apply wp_cluster_settings; [done|by destruct Hok as [[]]|done]|]. intros _ s1 (E1 & He1 & _).
  apply wp_bind, wp_mod. set (s2 := s1 <| s_log := _ |>). assert (E2 : view_of s2 = call_made (CpuEnable c) (cluster_call c 0 ClusterEnable (view_of s))) by (rewrite <- E1; by apply view_tell). assert (He2 : env_ok s2) by (by apply env_log). clearbody s2.
  apply wp_bind, wp_mod, wp_ret. match goal with |- sound _ ?x /\ _ => assert (E : view_of x = comes_up c (view_of s)) by (by rewrite view_set_hot, E2) end. split; [split; [by rewrite E|by apply env_cpus]|done].
Qed.

Lemma wp_callback_enter h c s : sound h s -> c ∈ s_online s -> wp (exynos_cpu_pm_notify_callback c CPU_PM_ENTER) (fun _ s' => sound h s') s.
Proof.
  intros Hs Hc. cbn [exynos_cpu_pm_notify_callback]. apply wp_bind, wp_get. destruct (s_rebooting s); [by apply wp_ret|]. destruct (s_suspended s); [by apply wp_ret|]. destruct (s_itmon s); [by apply wp_ret|].
  unfold exynos_cpupm_notify. apply wp_bind, wp_bind, wp_mod, wp_ask. set (s1 := s <| s_log := _ |> <| s_asked := _ |>). assert (M : moved s s1). { eapply moved_then; [apply (moved_tell s (Notify C2_ENTER 0)); [done|apply Hs]|]. apply moved_asked, env_log, Hs. }
  pose proof (sound_moved _ _ _ M Hs) as Hs1. assert (Hc1 : c ∈ s_online s1) by done. clearbody s1. apply wp_bind, wp_get. destruct (_ || _) eqn:Eb; [by apply wp_ret|]. apply orb_false_elim in Eb as [_ Eh].
  assert (Ha : alive h (view_of s1) c). { left. split; [done|]. intros ->. destruct (sk_down _ _ (b_states _ _ (ok_base _ _ (proj1 Hs1))) c eq_refl) as (_ & _ & Hh). rewrite view_cpu_of in Hh. cbn in Hh. congruence. }
  apply wp_bind. eapply wp_mono; [apply (wp_enter h c s1); [apply Hs1|apply Hs1|done|done]|]. intros _ s2 (H1 & H2 & _). by apply wp_ret.
Qed.

Lemma wp_callback_exit h c s : sound h s -> c ∈ s_online s -> alive h (view_of s) c -> wp (exynos_cpu_pm_notify_callback c CPU_PM_EXIT) (fun _ s' => sound h s') s.
Proof.
  intros [Hok He] Hc Ha. cbn [exynos_cpu_pm_notify_callback]. apply wp_bind, wp_ask. destruct (moved_asked s (S (s_asked s)) He) as (E & He1 & _). apply wp_bind. eapply wp_mono; [apply wp_exit; [rewrite E; by destruct Hok as [[]]|done]|].
  intros _ s' [E' He']. apply wp_ret. rewrite E in E'. destruct Hok as [B K D]. destruct (cpu_wakes_base _ _ _ B Hc Ha) as [B' Hs']. split; [|done]. rewrite E'. split; [done| |eapply woken_disabled; [apply cpu_wakes_woken|done]]. intros Hv. by rewrite Hs' in Hv.
Qed.

(** Every event keeps the invariant, and completes. *)
Lemma wp_event h e s : sound h s -> legal h s e -> wp (run_event e) (fun _ s' => sound (next_phase h e) s') s.
Proof.
  intros Hs Hl. assert (Hig : forall A (m : CM A) Q, wp m (fun _ s' => Q s') s -> wp (ignore m) (fun _ s' => Q s') s) by (intros A m Q H; apply wp_bind; eapply wp_mono; [exact H|]; intros; by apply wp_ret).
  destruct e as [c|c|c st t|c st|c ty|c ty|j val|name|index idle| | |off|b|c|c|c|c]; cbn [run_event next_phase legal] in *.
  - apply Hig. apply wp_callback_enter; tauto.
  - apply Hig. destruct Hl as [Hc Hi]. apply wp_callback_exit; [done|done|]. destruct Hi as [Hi|Hi]; [rewrite view_state in Hi; apply idle_alive; [by destruct Hs as [[[]] _]|done|done]|]. by left.
  - destruct Hl as [Hc Hst]. unfold vendor_hook_cpu_idle_enter. apply wp_bind, wp_mod, wp_bind, wp_mod. set (s1 := s <| s_cpus := _ |>). assert (Hs1 : sound h s1) by (apply (sound_cpu h s (fun p => p <| pm_next_hrtimer := t |>)); done). assert (Hc1 : (c < length (s_cpus s1))%nat) by (cbn; by rewrite length_alter). clearbody s1.
    set (s2 := s1 <| s_cpus := _ |>). assert (Hs2 : sound h s2) by (apply (sound_cpu h s1 (fun p => p <| pm_entered_state := st |>)); [done| |done]; intros p [Hp _]; done). assert (Hc2 : (c < length (s_cpus s2))%nat) by (cbn; by rewrite length_alter). apply wp_mod_stat; [done|done|].
    intros x s'. unfold cpuidle_profile_begin. apply wp_bind, wp_ask, wp_ret. by eexists.
  - apply wp_mod_stat; [done|done|]. intros x s'. unfold cpuidle_profile_end. apply wp_profile_end. intros _ n. by exists n.
  - apply (wp_with_mode h); [done|done|]. intros j mv Hm Hsm. eapply wp_mono; [by apply wp_disable_mode|]. by intros _ s' [? _].
  - apply (wp_with_mode h); [done|done|]. intros j mv Hm Hsm. eapply wp_mono; [by apply wp_enable_mode|]. by intros _ s' [? _].
  - apply Hig. destruct val as [v|]; [|by apply wp_ret]. destruct Hl as (m & Hm & Hsm). unfold power_mode_store. cbv zeta. apply wp_bind. eapply wp_eq; [unfold get_mode; by rewrite Hm|]. case_bool_decide; [by apply wp_ret|]. apply wp_bind, wp_mod.
    set (s1 := s <| s_mode_list := _ |>). assert (Hs1 : sound h s1 /\ v_modes (view_of s1) !! j = Some (view_mode m)).
    { destruct Hs as [Hok He]. assert (E1 : view_of s1 = view_of s). { unfold s1. rewrite (view_alter_mode s j (fun m => m <| pw_user_request := negb (v =? 0) |>) (fun m => m)) by done. rewrite (alter_same (fun m => m)) by done. by destruct (view_of s). }
      split; [split; [by rewrite E1|by apply env_modes]|]. by rewrite E1, view_mode_at, Hm. }
    destruct Hs1 as [Hs1 Hm1]. clearbody s1. apply wp_bind. destruct (negb (v =? 0)).
    + eapply wp_mono; [by apply (wp_enable_mode h j s1 _ Hs1 Hm1)|]. intros _ s2 [? _]. by apply wp_ret.
    + eapply wp_mono; [by apply (wp_disable_mode h j s1 _ Hs1 Hm1)|]. intros _ s2 [? _]. by apply wp_ret.
  - apply Hig. destruct Hs as [Hok He]. pose proof (ev_ips _ He) as [xs Hx]. destruct (x_alloc (s_answers s (s_asked s))) eqn:Ea.
    + eapply wp_mono; [apply (wp_register s xs name Hx (Hl xs Hx) Ea)|]. intros r s' (_ & Hr & Hc). split; [by rewrite (core_view _ _ Hc)|by eapply core_env].
    + unfold exynos_get_idle_ip_index. apply wp_bind, wp_ask. rewrite Ea. cbn [negb]. apply wp_ret. split; [exact Hok|]. by apply moved_asked.
  - destruct Hs as [Hok He]. pose proof (ev_ips _ He) as [xs Hx]. eapply wp_mono; [by apply (wp_update_registry s xs); [|apply Hl]|]. intros _ s' (Hr & Hc). split; [by rewrite (core_view _ _ Hc)|by eapply core_env].
  - apply Hig, wp_bind, wp_mod, wp_ret. by apply (sound_frame h s).
  - apply Hig, wp_bind, wp_mod, wp_ret. by apply (sound_frame h s).
  - apply Hig, wp_bind. destruct off; [apply wp_mod, wp_ret; by apply (sound_frame h s)|by apply wp_ret, wp_ret].
  - apply wp_mod. by apply (sound_frame h s).
  - destruct Hl as (-> & Hc & Hb). apply Hig. eapply wp_mono; [by apply wp_offline|]. by intros ? s' [? _].
  - subst h. apply wp_mod. destruct Hs as [Hok [[xs H1] H2 H3]]. split; [exact (gone_ok _ _ Hok)|]. split; [exists xs; by apply (registry_frame s)|done|done].
  - destruct Hl as (-> & Hc & Hlt). apply Hig. eapply wp_mono; [by apply wp_online|]. by intros ? s' [? _].
  - destruct Hl as (-> & Hb1 & Hb2). apply wp_mod. destruct Hs as [Hok [[xs H1] H2 H3]]. split; [exact (has_come_ok _ _ Hok Hb1 Hb2)|]. split; [exists xs; by apply (registry_frame s)|done|done].
Qed.
