(* ===== verification/CpupmBoot.v ===== *)
(** * The probe

    From a device tree that describes every cpu once for each type of mode, the
    probe builds the modes, connects them to their cpus and turns everything on:
    the invariant holds, with all cpus online and running. *)

From S2P Require Import Prelude Cpupm CpupmIp CpupmView CpupmRun CpupmSpec.

(** ** Device trees *)

Definition node_type (dn : mode_node) : Z := match n_type dn with inr ty => ty | inl _ => POWERMODE_TYPE_END end.
Definition node_cal (dn : mode_node) : Z := s32 (default 0 (n_cal_id dn)).
Definition node_siblings (n : nat) (dn : mode_node) : cpumask := possible n (n_siblings dn).

Record node_ok (n : nat) (dn : mode_node) : Prop := {
  no_residency : exists r, n_target_residency dn = inr r;
  no_type : n_type dn = inr POWERMODE_TYPE_CLUSTER \/ n_type dn = inr POWERMODE_TYPE_SYSTEM;
  no_some : exists c, c ∈ node_siblings n dn;
  no_system : n_type dn = inr POWERMODE_TYPE_SYSTEM -> forall c, (c < n)%nat -> c ∈ node_siblings n dn }.

(** No cpu has two modes of a type, and no two clusters one number. *)
Definition nodes_ok (n : nat) (nodes : list mode_node) : Prop :=
  Forall (node_ok n) nodes /\
  forall i j d e, nodes !! i = Some d -> nodes !! j = Some e -> i <> j -> node_type d = node_type e ->
    (forall c, c ∈ node_siblings n d -> c ∉ node_siblings n e) /\ (node_type d = POWERMODE_TYPE_CLUSTER -> node_cal d <> node_cal e).

(** The external idle-IPs, and the wake-up masks: all there, or nothing. *)
Definition extern_ok (child : option (list string)) : Prop := match child with Some (_ :: _ :: _) => False | _ => True end.
Definition wakeup_ok (eints : nat) (root : option (option (list wakeup_mask) * option (list Z))) : Prop :=
  match root with None => True | Some (Some _, Some offsets) => (length offsets <= eints)%nat | Some _ => False end.

Record tree_fits (n eints : nat) (dt : cpupm_tree) : Prop := {
  tf_extern : extern_ok (t_extern dt);
  tf_states : Forall (fun st => is_Some st) (t_states dt);
  tf_modes : nodes_ok n (t_modes dt);
  tf_wakeup : wakeup_ok eints (t_wakeup dt) }.

(** Before the probe: per-cpu memory is zero, all cpus are online. *)
Definition fresh (n : nat) (eints : list Z) (answers : nat -> answer) : cpupm_state :=
  MkCpupm (replicate n zero_pm) (seq 0 n) [] false false false false WmNull eints ∅ {[0 := 0]} {[0 := 0]} 0 0 false 0 0 0 answers 0 [].

Definition always_allocates (answers : nat -> answer) : Prop := forall n, x_alloc (answers n) = true.

(** ** The idle-IPs *)

Lemma fresh_sound n eints answers : sound Stable (fresh n eints answers).
Proof.
  assert (Hc : forall c, cpu_of (view_of (fresh n eints answers)) c = view_cpu zero_pm).
  { intros c. rewrite view_cpu_of. unfold pm_of. cbn. destruct (replicate n zero_pm !! c) as [p|] eqn:E; [|done]. by apply lookup_replicate in E as [-> _]. }
  assert (Hv : forall c ty, vmode (view_of (fresh n eints answers)) c ty = None) by (intros c ty; unfold vmode; rewrite Hc; cbn; by destruct (Z.to_nat ty) as [|[|?]]).
  assert (Hl : length (v_cpus (view_of (fresh n eints answers))) = n) by (rewrite view_len; apply length_replicate). assert (Ho : forall c, c ∈ seq 0 n <-> (c < n)%nat) by (intros c; rewrite elem_of_seq; lia).
  split; [split; [split; [split|split|split]|..]|split]; try done.
  - intros c ty j _ H. by rewrite Hv in H.
  - intros c H. rewrite Hl. by apply Ho.
  - intros c. unfold cstate. rewrite Hc. by left.
  - intros c _. unfold cstate. by rewrite Hc.
  - intros c H. rewrite Hl in H. split; [done|]. unfold cstate. rewrite Hc. intros [H'|H']; [done|]. exfalso. apply H'. left. split; [by apply Ho|done].
  - exists []. exists []. split; [split|]; first [done|by exists 0|by apply NoDup_nil|by split; [constructor|]].
  - cbn. apply Forall_replicate. split; [done|]. cbn. unfold CPUIDLE_STATE_MAX. lia.
Qed.

(** One external idle-IP at most: a second would link the first again. *)
Lemma wp_extern s child : sound Stable s -> extern_ok child -> always_allocates (s_answers s) -> s_ips s = ∅ -> s_next s = {[0 := 0]} -> s_prev s = {[0 := 0]} ->
  wp (extern_idle_ip_init child) (fun r s' => r = 0 /\ core s' = core s /\ sound Stable s') s.
Proof.
  intros Hs Hext Hal Ei En Ep. unfold extern_idle_ip_init. destruct child as [[|name [|? ?]]|]; [by apply wp_ret| |done|by apply wp_ret]. cbn [length Z.of_nat]. cbv zeta. cbn [Z.leb Z.ltb orb]. change ((Z.of_nat 1 <=? 0) || (EXTERN_IDLE_IP_MAX <? Z.of_nat 1)) with false. cbn match.
  apply wp_bind. eapply wp_eq; [reflexivity|]. rewrite Hal. cbn [negb]. apply wp_bind, wp_get. cbv zeta. set (s1 := s <| s_asked := _ |>). assert (Ef : fresh_ip s1 = 1) by (unfold fresh_ip; cbn; by rewrite Ei). rewrite Ef. apply wp_bind, wp_mod.
  apply wp_bind. cbn [extern_loop]. apply wp_bind. eapply wp_eq; [unfold new_ip_index; cbn; rewrite En, Ep; reflexivity|]. apply wp_bind, wp_mod. apply wp_bind. eapply wp_eq; [unfold list_add_tail; cbn; rewrite Ep; reflexivity|]. apply wp_ret, wp_ret. split; [done|]. split; [done|].
  destruct Hs as [Hok He]. split; [exact Hok|]. destruct He as [_ H2 H3]. split; [|done|done]. exists [MkIp name 0 EXTERN_IP 0 0 0 (PMU_IDLE_IP 0)]. exists [1]. split; [split|split; [|split]]; cbn.
  - exists 1. split; [done|]. split; [done|]. by exists 0.
  - done.
  - repeat constructor. by apply not_elem_of_nil.
  - repeat constructor.
  - repeat constructor. rewrite lookup_alter_eq, lookup_insert_eq. by eexists.
  - repeat constructor. by rewrite lookup_alter_eq, lookup_insert_eq.
  - intros [|i] x; [|done]. by intros [= <-].
  - lia.
Qed.

(** ** Modes *)

Definition has_slots (v : view) : Prop := Forall (fun x => length (cv_modes x) = 2%nat) (v_cpus v).
Definition connect1 (ty : Z) (j : nat) (x : cpu_view) : cpu_view := x <| cv_modes := <[Z.to_nat ty := Some j]> (cv_modes x) |>.
Definition connect (ty : Z) (j : nat) (cs : list nat) (v : view) : view := foldl (fun v c => v <| v_cpus := alter (connect1 ty j) c (v_cpus v) |>) v cs.
Definition add_mode (m : mode_view) (v : view) : view :=
  let v' := connect (mv_type m) (length (v_modes v)) (mv_siblings m) v in
  let v'' := v' <| v_modes := v_modes v' ++ [m] |> in
  if mv_type m =? POWERMODE_TYPE_CLUSTER then call_made (ClusterEnable (mv_cal m)) v'' else v''.

(** Connecting changes the modes of the cpus, and nothing else. *)
Lemma connect_frame ty j cs : forall v, v_online (connect ty j cs v) = v_online v /\ v_modes (connect ty j cs v) = v_modes v /\ v_system (connect ty j cs v) = v_system v /\ v_log (connect ty j cs v) = v_log v /\
  length (v_cpus (connect ty j cs v)) = length (v_cpus v) /\ (forall c, cstate (connect ty j cs v) c = cstate v c) /\ (has_slots v -> has_slots (connect ty j cs v)).
Proof.
  induction cs as [|c cs IH]; intros v; [done|]. cbn [connect foldl]. destruct (IH (v <| v_cpus := alter (connect1 ty j) c (v_cpus v) |>)) as (E1 & E2 & E3 & E4 & E5 & E6 & E7). unfold connect in *. split_and!; try done.
  - rewrite E5. apply length_alter.
  - intros c'. rewrite E6. unfold cstate, cpu_of. cbn. rewrite list_lookup_alter. case_decide; [subst|done]. by match goal with |- context [_ <$> ?x] => destruct x end.
  - intros H. apply E7. apply Forall_alter; [done|]. intros x _ Hx. unfold connect1. cbn. by rewrite length_insert.
Qed.

Lemma connect_mode ty j cs : ty = POWERMODE_TYPE_CLUSTER \/ ty = POWERMODE_TYPE_SYSTEM -> forall v c ty', has_slots v -> (forall c, c ∈ cs -> (c < length (v_cpus v))%nat) -> ty' = POWERMODE_TYPE_CLUSTER \/ ty' = POWERMODE_TYPE_SYSTEM ->
  vmode (connect ty j cs v) c ty' = if decide (c ∈ cs /\ ty' = ty) then Some j else vmode v c ty'.
Proof.
  intros Hty. induction cs as [|x cs IH]; intros v c ty' Hv Hcs Hty'; [rewrite decide_False; [done|]; by intros [?%not_elem_of_nil _]|]. cbn [connect foldl]. change (foldl _ ?a cs) with (connect ty j cs a). set (v1 := v <| v_cpus := _ |>).
  assert (Hx : (x < length (v_cpus v))%nat) by (apply Hcs; by left). rewrite (IH v1 c ty'); [|..|done].
  - assert (E : vmode v1 c ty' = if decide (c = x /\ ty' = ty) then Some j else vmode v c ty').
    { unfold vmode, v1. rewrite cpu_of_alter by done. destruct (decide (c = x)) as [->|Hn]; [|by rewrite decide_False by tauto]. unfold connect1. cbn [cv_modes]. destruct (lookup_lt_is_Some_2 _ _ Hx) as [p Hp].
      pose proof (proj1 (Forall_lookup _ _) Hv _ _ Hp) as Hl. unfold cpu_of. rewrite Hp. cbn [default]. change (default None ((<[Z.to_nat ty := Some j]> (cv_modes p)) !! Z.to_nat ty') = if decide (x = x /\ ty' = ty) then Some j else default None (cv_modes p !! Z.to_nat ty')).
      unfold POWERMODE_TYPE_CLUSTER, POWERMODE_TYPE_SYSTEM in *. destruct (decide (ty' = ty)) as [->|Ht].
      - rewrite decide_True by done. rewrite list_lookup_insert_eq; [done|]. destruct Hty as [-> | ->]; simpl; lia.
      - rewrite decide_False by tauto. rewrite list_lookup_insert_ne; [done|]. destruct Hty as [-> | ->], Hty' as [-> | ->]; lia. }
    rewrite E. repeat case_decide; try done; exfalso; rewrite ?elem_of_cons in *; naive_solver.
  - apply Forall_alter; [done|]. intros p _ Hp. unfold connect1. cbn. by rewrite length_insert.
  - intros c' Hc'. unfold v1. cbn. rewrite length_alter. apply Hcs. by right.
Qed.

(** What a new mode must be. *)
Record addable (v : view) (m : mode_view) : Prop := {
  ad_state : mv_state m = CPUPM_STATE_BUSY /\ mv_disable m = 0;
  ad_type : mv_type m = POWERMODE_TYPE_CLUSTER \/ mv_type m = POWERMODE_TYPE_SYSTEM;
  ad_cpus : forall c, c ∈ mv_siblings m -> (c < length (v_cpus v))%nat /\ vmode v c (mv_type m) = None;
  ad_some : exists c, c ∈ mv_siblings m /\ c ∈ v_online v;
  ad_system : mv_type m = POWERMODE_TYPE_SYSTEM -> forall c, (c < length (v_cpus v))%nat -> c ∈ mv_siblings m;
  ad_cal : mv_type m = POWERMODE_TYPE_CLUSTER -> forall j m', v_modes v !! j = Some m' -> mv_type m' = POWERMODE_TYPE_CLUSTER -> mv_cal m' <> mv_cal m }.

Lemma add_mode_frame m v : v_online (add_mode m v) = v_online v /\ v_modes (add_mode m v) = v_modes v ++ [m] /\ v_system (add_mode m v) = v_system v /\ length (v_cpus (add_mode m v)) = length (v_cpus v) /\ (forall c, cstate (add_mode m v) c = cstate v c) /\ (has_slots v -> has_slots (add_mode m v)).
Proof.
  unfold add_mode. destruct (connect_frame (mv_type m) (length (v_modes v)) (mv_siblings m) v) as (E1 & E2 & E3 & E4 & E5 & E6 & E7). set (v' := connect _ _ _ v) in *. case_match; cbn; rewrite E1, E2, E3, E5; split_and!; try done.
Qed.

Lemma add_mode_tree m v : tree_ok v -> has_slots v -> addable v m -> tree_ok (add_mode m v).
Proof.
  intros T Hsl [[A1 A1'] A2 A3 A4 A5 A6]. destruct (add_mode_frame m v) as (E1 & E2 & E3 & E4 & E5 & E6). set (v' := add_mode m v) in *. destruct T as [T1 T2 T3 T4 T5 T6].
  assert (Hvm : forall c ty, ty = POWERMODE_TYPE_CLUSTER \/ ty = POWERMODE_TYPE_SYSTEM -> vmode v' c ty = if decide (c ∈ mv_siblings m /\ ty = mv_type m) then Some (length (v_modes v)) else vmode v c ty).
  { intros c ty Hty. rewrite <- (connect_mode (mv_type m) (length (v_modes v)) (mv_siblings m) A2 v c ty Hsl); [|intros c' Hc'; by apply A3|done]. unfold v', add_mode. case_match; done. }
  assert (Hm : forall j n, v_modes v' !! j = Some n -> v_modes v !! j = Some n \/ (j = length (v_modes v) /\ n = m)).
  { intros j n. rewrite E2. intros [H|[Hle H]]%lookup_app_Some; [by left|right]. apply list_lookup_singleton_Some in H as [H <-]. split; [lia|done]. }
  assert (Hold : forall j n, v_modes v !! j = Some n -> v_modes v' !! j = Some n) by (intros j n H; rewrite E2; by apply lookup_app_l_Some).
  assert (Hnew : v_modes v' !! length (v_modes v) = Some m) by (rewrite E2; by apply list_lookup_middle). split.
  - intros c ty j Hty. rewrite Hvm by done. case_decide as Ed; [|intros H; destruct (T1 _ _ _ Hty H) as (n & Hn & ?); exists n; split; [by apply Hold|done]]. intros [= <-]. exists m. destruct Ed as [? ->]. done.
  - intros j n c [Hn|[-> ->]]%Hm Hs; rewrite E4.
    + destruct (T2 _ _ _ Hn Hs) as [Hlt Hv]. split; [done|]. rewrite Hvm by (by eapply T3). rewrite decide_False; [done|]. intros [Hc Et]. destruct (A3 c Hc) as [_ E]. congruence.
    + split; [by apply A3|]. rewrite Hvm by done. by rewrite decide_True.
  - intros j n [Hn|[-> ->]]%Hm; [by eapply T3|done].
  - intros j n c [Hn|[-> ->]]%Hm Ht; rewrite E4; [by eapply T4|by apply A5].
  - intros i j a b [Ha|[-> ->]]%Hm [Hb|[-> ->]]%Hm H1 H2 Hc; [by eapply T5|by destruct (A6 H2 _ _ Ha H1)|by destruct (A6 H1 _ _ Hb H2)|done].
  - intros c. rewrite E1, E4. apply T6.
Qed.

Lemma add_mode_ok m v : ok Stable v -> has_slots v -> v_system v = false -> addable v m -> ok Stable (add_mode m v).
Proof.
  intros [[T S C] K D] Hsl Hsys Had. pose proof (add_mode_tree m v T Hsl Had) as T'. destruct Had as [[A1 A1'] A2 A3 (c0 & Hc0 & Ho0) A5 A6]. destruct (add_mode_frame m v) as (E1 & E2 & E3 & E4 & E5 & E6).
  pose proof (proj1 (proj2 (proj2 (proj2 (connect_frame (mv_type m) (length (v_modes v)) (mv_siblings m) v))))) as El.
  assert (Hlog : v_log (add_mode m v) = v_log v ++ if mv_type m =? POWERMODE_TYPE_CLUSTER then [ClusterEnable (mv_cal m)] else []) by (unfold add_mode; case_match; cbn; fold (connect (mv_type m) (length (v_modes v)) (mv_siblings m) v); rewrite El; by rewrite ?app_nil_r).
  set (v' := add_mode m v) in *. assert (Hm : forall j n, v_modes v' !! j = Some n -> v_modes v !! j = Some n \/ n = m).
  { intros j n. rewrite E2. intros [H|[Hle H]]%lookup_app_Some; [by left|right]. by apply list_lookup_singleton_Some in H as [H <-]. }
  assert (Ha : forall c, alive Stable v' c <-> alive Stable v c) by (intros c; unfold alive; by rewrite E1).
  split; [split; [done|split|split]|..]; try done.
  - intros c. rewrite E5. apply (sk_cpu _ _ S).
  - intros j n [Hn| ->]%Hm; [by eapply (sk_mode _ _ S)|by left].
  - intros j n c [Hn| ->]%Hm Hi; rewrite E1, E5; [by eapply (sk_siblings _ _ S)|by rewrite A1 in Hi].
  - intros j n [Hn| ->]%Hm Hi; rewrite E1; [by eapply (sk_some _ _ S)|by rewrite A1 in Hi].
  - intros c. rewrite E1, E5. apply (sk_offline _ _ S).
  - intros j n [Hn| ->]%Hm Ht; rewrite E3; [by eapply (sk_system _ _ S)|]. by rewrite A1, Hsys.
  - by rewrite E3, Hsys.
  - intros j n [Hn| ->]%Hm Ht; rewrite Hlog.
    + assert (Eoff : cluster_off (mv_cal n) (v_log v ++ (if mv_type m =? POWERMODE_TYPE_CLUSTER then [ClusterEnable (mv_cal m)] else [])) = cluster_off (mv_cal n) (v_log v)).
      { destruct (Z.eqb_spec (mv_type m) POWERMODE_TYPE_CLUSTER) as [Em|]; [|by rewrite app_nil_r]. change (v_log v ++ [ClusterEnable (mv_cal m)]) with (v_log (call_made (ClusterEnable (mv_cal m)) v)). rewrite cluster_off_push. destruct (Z.eqb_spec (mv_cal m) (mv_cal n)) as [Ec|]; [|done]. by destruct (A6 Em _ _ Hn Ht). }
      rewrite Eoff, (ck_cluster _ _ C j n Hn Ht). split; (intros [H|H]; [by left|right]); intros c Hs; [rewrite Ha|rewrite <- Ha]; by apply H.
    + rewrite Ht. change (v_log v ++ _) with (v_log (call_made (ClusterEnable (mv_cal m)) v)). rewrite cluster_off_push, Z.eqb_refl, A1. split; [done|]. intros [|H]; [done|]. exfalso. apply (H c0 Hc0), Ha. left. done.
  - intros c. rewrite E4, E5, Hlog, Ha. intros Hc. rewrite <- (ck_cpu _ _ C c Hc). case_match; [|by rewrite app_nil_r]. change (v_log v ++ [?x]) with (v_log (call_made x v)). by rewrite cpu_off_push.
  - rewrite E3, Hlog, <- (ck_system _ _ C). case_match; [|by rewrite app_nil_r]. change (v_log v ++ [?x]) with (v_log (call_made x v)). by rewrite sleeping_push.
  - intros Hv. by rewrite E3, Hsys in Hv.
  - intros j n [Hn| ->]%Hm Hd; [by eapply D|done].
Qed.

(** ** The program *)

(** The mode that a node of the tree stands for. *)
Definition node_view (n : nat) (dn : mode_node) : mode_view := MkMv CPUPM_STATE_BUSY (node_type dn) (node_cal dn) (node_siblings n dn) (possible n (n_entry_allowed dn)) 0.

Record booting (n eints : nat) (nodes : list mode_node) (s : cpupm_state) : Prop := {
  bt_sound : sound Stable s;
  bt_modes : view_mode <$> s_mode_list s = node_view n <$> nodes;
  bt_online : s_online s = seq 0 n;
  bt_len : length (s_cpus s) = n;
  bt_slots : has_slots (view_of s);
  bt_run : forall c, cstate (view_of s) c = CPUPM_STATE_BUSY;
  bt_alloc : always_allocates (s_answers s);
  bt_eints : length (s_eint_masks s) = eints;
  bt_system : s_system_disabled s = false }.

(** What of the state matters for [booting] besides [sound]. *)
Lemma booting_frame n eints nodes s s' : sound Stable s' -> view_mode <$> s_mode_list s' = view_mode <$> s_mode_list s -> s_online s' = s_online s -> length (s_cpus s') = length (s_cpus s) -> (has_slots (view_of s) -> has_slots (view_of s')) -> (forall c, cstate (view_of s') c = cstate (view_of s) c) -> s_answers s' = s_answers s ->
  s_eint_masks s' = s_eint_masks s -> s_system_disabled s' = s_system_disabled s -> booting n eints nodes s -> booting n eints nodes s'.
Proof. intros Hs E1 E2 E3 E4 Er E5 E6 E7 [B1 B2 B3 B4 B5 Br B6 B7 B8]. split; rewrite ?E1, ?E2, ?E3, ?E5, ?E6, ?E7; auto. intros c. by rewrite Er. Qed.

Lemma booting_asked n eints nodes s k : booting n eints nodes s -> booting n eints nodes (s <| s_asked := k |>).
Proof. intros B. apply (booting_frame _ _ _ s); try done. apply (sound_frame _ s); try done. apply B. Qed.

Lemma wp_connect ty j cs s : wp (kiter (fun cpu => mod_pm cpu (fun p => p <| pm_modes := <[Z.to_nat ty := Some j]> (pm_modes p) |>)) cs)
  (fun _ s' => view_of s' = connect ty j cs (view_of s) /\ (env_ok s -> env_ok s') /\ s_mode_list s' = s_mode_list s /\ s_answers s' = s_answers s /\ s_eint_masks s' = s_eint_masks s) s.
Proof.
  revert s. induction cs as [|c cs IH]; intros s; cbn [kiter]; [by apply wp_ret|]. apply wp_bind, wp_mod. set (s1 := s <| s_cpus := _ |>). assert (E : view_of s1 = (view_of s) <| v_cpus := alter (connect1 ty j) c (v_cpus (view_of s)) |>).
  { unfold s1, view_of. cbn. f_equal. by rewrite (alter_fmap view_cpu _ (connect1 ty j)). }
  eapply wp_mono; [apply IH|]. intros _ s' (E' & He & Em & Ea & Ee). split; [by rewrite E', E|]. split; [|done]. intros H. by apply He, env_cpus.
Qed.

Lemma nodes_addable n nodes i dn v : nodes_ok n nodes -> nodes !! i = Some dn -> tree_ok v -> v_modes v = node_view n <$> take i nodes -> length (v_cpus v) = n -> v_online v = seq 0 n -> addable v (node_view n dn).
Proof.
  intros [Hf Hp] Hi T Ev Hl Ho. destruct (proj1 (Forall_lookup _ _) Hf i dn Hi) as [_ Hty (c & Hc) Hsys]. assert (Hty' : node_type dn = POWERMODE_TYPE_CLUSTER \/ node_type dn = POWERMODE_TYPE_SYSTEM) by (unfold node_type; destruct Hty as [-> | ->]; tauto).
  assert (Hlt : forall c', c' ∈ node_siblings n dn -> (c' < n)%nat) by (intros c' Hc'; by apply list_elem_of_filter in Hc' as [? _]).
  assert (Hat : forall j m, v_modes v !! j = Some m -> exists e, nodes !! j = Some e /\ m = node_view n e /\ j <> i).
  { intros j m. rewrite Ev, list_lookup_fmap, lookup_take. case_decide; [|done]. destruct (nodes !! j) as [e|]; [|done]. intros [= <-]. exists e. split; [done|]. split; [done|lia]. }
  split; cbn [node_view mv_state mv_disable mv_type mv_siblings mv_cal]; try done.
  - intros c' Hc'. rewrite Hl. split; [by apply Hlt|]. destruct (vmode v c' (node_type dn)) as [j|] eqn:E; [|done]. exfalso. destruct (tk_mode _ T _ _ _ Hty' E) as (m & Hm & Ht & Hs). destruct (Hat j m Hm) as (e & He & -> & Hne).
    destruct (Hp i j dn e Hi He (not_eq_sym Hne) (eq_sym Ht)) as [Hd _]. by apply (Hd c').
  - exists c. split; [done|]. rewrite Ho. apply elem_of_seq. specialize (Hlt c Hc). lia.
  - intros Ht c'. rewrite Hl. apply Hsys. destruct Hty as [E|E]; [|done]. unfold node_type in Ht. by rewrite E in Ht.
  - intros Ht j m Hm Hmt. destruct (Hat j m Hm) as (e & He & -> & Hne). apply not_eq_sym. apply (Hp i j dn e Hi He (not_eq_sym Hne)); [|done]. by rewrite Ht, <- Hmt.
Qed.

Lemma wp_mode_init n eints nodes : nodes_ok n nodes -> forall rest i s, drop i nodes = rest -> booting n eints (take i nodes) s -> wp (mode_init rest) (fun r s' => r = 0 /\ booting n eints nodes s') s.
Proof.
  intros Hn rest. induction rest as [|dn rest IH]; intros i s Hd B; cbn [mode_init].
  { apply wp_ret. split; [done|]. rewrite take_ge in B; [done|]. pose proof (length_drop nodes i) as E. rewrite Hd in E. simpl in E. lia. }
  assert (Hi : nodes !! i = Some dn) by (rewrite <- (Nat.add_0_r i), <- lookup_drop, Hd; done). apply wp_bind, wp_ask. rewrite (bt_alloc _ _ _ _ B). cbn [negb].
  pose proof (proj1 (Forall_lookup _ _) (proj1 Hn) i dn Hi) as [(r & Er) Hty Hsome Hsys]. rewrite Er. assert (Ety : exists ty, n_type dn = inr ty /\ node_type dn = ty /\ s32 ty = ty /\ valid_powermode ty = true) by (unfold node_type; destruct Hty as [-> | ->]; by eexists).
  destruct Ety as (ty & -> & Hnt & -> & ->). cbn [negb]. apply (booting_asked _ _ _ _ (S (s_asked s))) in B. set (s1 := s <| s_asked := _ |>) in *. clearbody s1. clear s. apply wp_bind, wp_get. cbv zeta. rewrite (bt_len _ _ _ _ B).
  destruct B as [[Hok He] B2 B3 B4 B5 Br B6 B7 B8]. assert (Had : addable (view_of s1) (node_view n dn)) by (apply (nodes_addable n nodes i); [done|done|apply Hok|exact B2|by rewrite view_len|exact B3]).
  pose proof (add_mode_ok _ _ Hok B5 B8 Had) as Hok'. destruct (add_mode_frame (node_view n dn) (view_of s1)) as (E1 & E2 & E3 & E4 & E5 & E6).
  apply wp_bind. eapply wp_mono; [apply wp_connect|]. intros _ s2 (V2 & He2 & M2 & A2 & I2). apply wp_bind, wp_mod. match goal with |- context [s_mode_list s2 ++ [?m]] => set (mode := m) end. assert (Emode : view_mode mode = node_view n dn) by (unfold view_mode, node_view, mode; cbn; by rewrite Hnt).
  set (s3 := s2 <| s_mode_list := _ |>).
  assert (V3 : (if ty =? POWERMODE_TYPE_CLUSTER then call_made (ClusterEnable (pw_cal_id mode)) (view_of s3) else view_of s3) = add_mode (node_view n dn) (view_of s1)).
  { unfold add_mode. cbn [node_view mv_type mv_cal mv_siblings]. rewrite Hnt. assert (E : view_of s3 = (connect ty (length (v_modes (view_of s1))) (node_siblings n dn) (view_of s1)) <| v_modes := v_modes (connect ty (length (v_modes (view_of s1))) (node_siblings n dn) (view_of s1)) ++ [node_view n dn] |>).
    { change (length (v_modes (view_of s1))) with (length (view_mode <$> s_mode_list s1)). rewrite length_fmap. change (node_siblings n dn) with (possible n (n_siblings dn)). rewrite <- V2. unfold view_of, s3. cbn. by rewrite fmap_app, <- Emode. }
    rewrite E. cbv zeta. by case_match. }
  apply wp_bind. assert (Hend : forall s4, view_of s4 = add_mode (node_view n dn) (view_of s1) -> env_ok s4 -> s_answers s4 = s_answers s1 -> s_eint_masks s4 = s_eint_masks s1 -> wp (mode_init rest) (fun r s' => r = 0 /\ booting n eints nodes s') s4).
  { intros s4 V4 He4 A4 I4. apply (IH (S i)); [by rewrite <- (Nat.add_1_r i), <- drop_drop, Hd|]. split.
    - split; [by rewrite V4|done].
    - change (view_mode <$> s_mode_list s4) with (v_modes (view_of s4)). rewrite V4, E2. change (v_modes (view_of s1)) with (view_mode <$> s_mode_list s1). by rewrite B2, (take_S_r _ _ _ Hi), fmap_app.
    - change (v_online (view_of s4) = seq 0 n). by rewrite V4, E1.
    - rewrite <- view_len, V4, E4, view_len. done.
    - rewrite V4. by apply E6.
    - intros c. by rewrite V4, E5.
    - by rewrite A4.
    - by rewrite I4.
    - change (v_system (view_of s4) = false). by rewrite V4, E3. }
  destruct (ty =? POWERMODE_TYPE_CLUSTER).
  - apply wp_mod. apply Hend; [rewrite <- V3; by apply view_tell|apply env_log, env_modes; by apply He2|done..].
  - apply wp_ret. apply Hend; [done|apply env_modes; by apply He2|done..].
Qed.

Lemma wp_wakeup n eints nodes root s : wakeup_ok eints root -> booting n eints nodes s -> wp (wakeup_mask_init root) (fun _ s' => booting n eints nodes s') s.
Proof.
  intros Hw B. unfold wakeup_mask_init. destruct root as [[[masks|] [offsets|]]|]; try done. pose proof (bt_alloc _ _ _ _ B) as Hal. do 3 (apply wp_bind, wp_ask; match goal with |- context [x_alloc ?x] => replace (x_alloc x) with true by (symmetry; apply Hal) end; cbn [negb]). apply wp_mod.
  apply (booting_frame _ _ _ s); try done. pose proof (bt_sound _ _ _ _ B) as [Hok [[xs X1] X2 X3]]. split; [exact Hok|]. split; [exists xs; by apply (registry_frame s)| |done]. cbn. by rewrite (bt_eints _ _ _ _ B).
Qed.

Lemma wp_states states : Forall (fun st => is_Some st) states -> forall s, wp (exynos_cpuidle_state_init states) (fun r s' => r = 0 /\ exists k, s' = s <| s_state_max := k |>) s.
Proof.
  induction 1 as [|x l [m ->] _ IH]; intros s; cbn [exynos_cpuidle_state_init]; [apply wp_ret; split; [done|]; exists (s_state_max s); by destruct s|]. apply wp_bind, wp_mod. eapply wp_mono; [apply IH|]. intros r s' (-> & k & ->). split; [done|]. exists k. by case_match.
Qed.

(** A call that turns a running cpu on changes nothing. *)
Lemma enable_ok v c : ok Stable v -> c ∈ v_online v -> cstate v c = CPUPM_STATE_BUSY -> ok Stable (call_made (CpuEnable c) v).
Proof.
  intros [[T S [C1 C2 C3]] K D] Hc Hb. split; [split; [by apply tree_push|by destruct S|split]|done|done].
  - intros j m Hm Ht. rewrite cluster_off_push. exact (C1 j m Hm Ht).
  - intros c' Hlt. rewrite cpu_off_push. destruct (Nat.eqb_spec c c') as [<-|]; [|by apply C2]. change (cstate (call_made (CpuEnable c) v) c) with (cstate v c). rewrite Hb. split; [done|]. intros [|H]; [done|]. exfalso. apply H. by left.
  - rewrite sleeping_push. exact C3.
Qed.

Lemma hot_ok b v c : ok Stable v -> ok Stable (set_hot c b v).
Proof.
  intros [[T S [C1 C2 C3]] K D]. assert (Hst : forall c', cstate (set_hot c b v) c' = cstate v c') by (intros c'; apply cstate_set_hot). split; [split; [by apply tree_set_hot| |split]|..]; try done.
  - by apply (states_frame Stable Stable v).
  - intros c'. rewrite Hst. unfold set_hot at 1. cbn. rewrite length_alter. apply C2.
  - apply (clusters_frame v); try done. intros c'. by apply vmode_alter.
Qed.

(** ** The probe *)

Lemma booting_online n eints nodes s c : booting n eints nodes s -> c ∈ s_online s <-> (c < n)%nat.
Proof. intros B. rewrite (bt_online _ _ _ _ B), elem_of_seq. lia. Qed.

Lemma wp_enables n eints nodes cs : forall s, booting n eints nodes s -> (forall c, c ∈ cs -> (c < n)%nat) ->
  wp (kiter (fun cpu => tell (CpuEnable cpu)) cs) (fun _ s' => booting n eints nodes s') s.
Proof.
  induction cs as [|c cs IH]; intros s B Hcs; cbn [kiter]; [by apply wp_ret|]. assert (Hc : c ∈ s_online s) by (apply (booting_online n eints nodes); [done|apply Hcs; by left]). apply wp_bind, wp_mod. apply IH; [|intros c' Hc'; apply Hcs; by right].
  apply (booting_frame _ _ _ s); try done. destruct (bt_sound _ _ _ _ B) as [Hok He]. split; [|by apply env_log]. rewrite (view_tell s _ (CpuEnable c)) by done. apply enable_ok; [done|done|]. exact (bt_run _ _ _ _ B c).
Qed.

Lemma wp_online_again n eints nodes c s : booting n eints nodes s -> (c < n)%nat -> wp (cpuhp_cpupm_online c) (fun _ s' => booting n eints nodes s') s.
Proof.
  intros B Hlt. assert (Hc : c ∈ s_online s) by (by apply (booting_online n eints nodes)). destruct (bt_sound _ _ _ _ B) as [Hok He]. unfold cpuhp_cpupm_online. apply wp_bind. eapply wp_mono.
  - instantiate (1 := fun _ s' => s' = s). unfold cluster_settings. apply wp_bind, wp_get. rewrite view_mode_of. destruct (vmode _ _ _) as [j|] eqn:Ev; [|by apply wp_ret]. destruct (tk_mode _ (b_tree _ _ (ok_base _ _ Hok)) _ _ _ (or_introl eq_refl) Ev) as (mv & Hm & _ & Hs).
    apply wp_bind. eapply wp_get_mode; [exact Hm|]. intros m Em Emv. destruct (Nat.eqb_spec (online_siblings s m) 0) as [E|]; [|by apply wp_ret]. exfalso. unfold online_siblings in E. apply length_zero_iff_nil in E.
    assert (Hin : c ∈ cpus_and s (pw_siblings m) (s_online s)); [|rewrite E in Hin; by apply not_elem_of_nil in Hin]. apply elem_cpus_and. split; [split; [|done]|by rewrite (bt_len _ _ _ _ B)]. by rewrite <- Emv in Hs.
  - intros _ s' ->. apply wp_bind, wp_mod. set (s1 := s <| s_log := _ |>). assert (Hs1 : sound Stable s1). { split; [|by apply env_log]. unfold s1. rewrite (view_tell s _ (CpuEnable c)) by done. apply enable_ok; [done|done|]. exact (bt_run _ _ _ _ B c). }
    apply wp_bind, wp_mod, wp_ret. assert (B1 : booting n eints nodes s1) by (by apply (booting_frame _ _ _ s)). clearbody s1. apply (booting_frame _ _ _ s1); try done; [|by cbn; rewrite length_alter|..].
    + destruct Hs1 as [Hok1 He1]. split; [|by apply env_cpus]. rewrite view_set_hot. by apply hot_ok.
    + rewrite view_set_hot. intros Hsl. by apply Forall_alter.
    + intros c'. by rewrite view_set_hot, cstate_set_hot.
Qed.

Lemma wp_onlines n eints nodes cs : forall s, booting n eints nodes s -> (forall c, c ∈ cs -> (c < n)%nat) ->
  wp (kiter (fun cpu => do! cpuhp_cpupm_online cpu in kret tt) cs) (fun _ s' => booting n eints nodes s') s.
Proof.
  induction cs as [|c cs IH]; intros s B Hcs; cbn [kiter]; [by apply wp_ret|]. apply wp_bind, wp_bind. eapply wp_mono; [apply (wp_online_again n eints nodes); [done|apply Hcs; by left]|]. intros ? s' B'. cbv beta in B'. apply wp_ret. apply IH; [done|]. intros c' Hc'. apply Hcs. by right.
Qed.

Lemma fresh_booting n eints answers : always_allocates answers -> booting n (length eints) [] (fresh n eints answers).
Proof.
  intros Ha. assert (Hc : forall c, cstate (view_of (fresh n eints answers)) c = CPUPM_STATE_BUSY).
  { intros c. rewrite <- view_state. unfold pm_of. cbn. destruct (replicate n zero_pm !! c) as [p|] eqn:E; [|done]. by apply lookup_replicate in E as [-> _]. }
  split; try done; [apply fresh_sound|apply length_replicate|]. unfold has_slots. cbn. rewrite fmap_replicate. by apply Forall_replicate.
Qed.

(** The probe succeeds; every mode of the tree is there, with the invariant. *)
Lemma wp_probe n eints answers dt : always_allocates answers -> tree_fits n (length eints) dt ->
  wp (exynos_cpupm_probe dt) (fun r s => r = 0 /\ booting n (length eints) (t_modes dt) s /\ s_rebooting s = false /\ s_itmon s = false) (fresh n eints answers).
Proof.
  intros Ha [T1 T2 T3 T4]. pose proof (fresh_booting n eints answers Ha) as B. unfold exynos_cpupm_probe. apply wp_bind. eapply wp_mono; [by apply wp_extern; [apply fresh_sound|..]|]. intros r s1 (-> & Hcore & Hs1). cbn [Z.eqb negb].
  assert (B1 : booting n (length eints) [] s1). { pose proof (core_view _ _ Hcore) as Ev. unfold core in Hcore. injection Hcore as E1 E2 E3 E4 E5 E6 E7 E8 E9 E10 E11. apply (booting_frame _ _ _ (fresh n eints answers)); rewrite ?Ev; try done; first [by rewrite E3|by rewrite E1]. }
  clear Hcore Hs1 B. apply wp_bind. eapply wp_mono; [by apply wp_states|]. intros r s2 (-> & k & ->). cbn [Z.eqb negb]. assert (B2 : booting n (length eints) [] (s1 <| s_state_max := k |>)) by (apply (booting_frame _ _ _ s1); try done; apply (sound_frame _ s1); try done; apply B1).
  set (s2 := s1 <| s_state_max := k |>) in *. clearbody s2. apply wp_bind. unfold exynos_cpupm_mode_init. apply wp_bind. eapply wp_mono; [by apply (wp_mode_init n (length eints) (t_modes dt) T3 _ 0)|]. intros r s3 [-> B3]. cbn [Z.eqb negb].
  apply wp_bind. eapply wp_mono; [by apply (wp_wakeup n (length eints))|]. intros ? s4 B4. cbv beta in B4. apply wp_ret. cbn [Z.eqb negb]. apply wp_bind, wp_get. cbv zeta.
  assert (Hin : forall c, c ∈ cpus_and s4 (s_online s4) (s_online s4) -> (c < n)%nat) by (intros c [_ Hc]%elem_cpus_and; by rewrite (bt_len _ _ _ _ B4) in Hc).
  apply wp_bind. eapply wp_mono; [by apply (wp_enables n (length eints))|]. intros ? s5 B5. cbv beta in B5. apply wp_bind. eapply wp_mono; [by apply (wp_onlines n (length eints))|]. intros ? s6 B6. cbv beta in B6.
  apply wp_bind, wp_mod, wp_bind, wp_ask, wp_bind, wp_mod, wp_ret. split; [done|]. split; [|done]. apply (booting_frame _ _ _ s6); try done. apply (sound_frame _ s6); try done. apply B6.
Qed.
