(* ===== verification/CpupmPower.v ===== *)
(** * Theorems of the power management

    What the driver keeps in every history after its probe, and when a cpu that
    goes idle takes its cluster and the system with it. *)

From S2P Require Import Prelude Cpupm CpupmIp CpupmView CpupmRun CpupmSpec CpupmBoot.

(** ** Histories after the probe *)

Inductive runs : phase -> cpupm_state -> list event -> phase -> cpupm_state -> Prop :=
| runs_nil h s : runs h s [] h s
| runs_cons h s e s1 evs h' s' : legal h s e -> run_event e s = Done tt s1 -> runs (next_phase h e) s1 evs h' s' -> runs h s (e :: evs) h' s'.

(** Reached by a history that is legal, on a machine of [n] cpus. *)
Definition reached (n : nat) (eints : list Z) (answers : nat -> answer) (dt : cpupm_tree) (evs : list event) (h : phase) (s : cpupm_state) : Prop :=
  always_allocates answers /\ tree_fits n (length eints) dt /\ exists s0, exynos_cpupm_probe dt (fresh n eints answers) = Done 0 s0 /\ runs Stable s0 evs h s.

Lemma histories_sound h s evs h' s' : runs h s evs h' s' -> sound h s -> sound h' s'.
Proof.
  induction 1 as [|h s e s1 evs h' s' Hl Hr _ IH]; [done|]. intros Hs. apply IH. exact (wp_done _ _ _ tt s1 (wp_event h e s Hs Hl) Hr).
Qed.

Lemma reached_sound n eints answers dt evs h s : reached n eints answers dt evs h s -> sound h s.
Proof.
  intros (Ha & Ht & s0 & Hp & Hr). eapply histories_sound; [exact Hr|]. destruct (wp_done _ _ _ 0 s0 (wp_probe n eints answers dt Ha Ht) Hp) as (_ & B & _). apply B.
Qed.

Lemma sound_mode h s j m : sound h s -> s_mode_list s !! j = Some m -> v_modes (view_of s) !! j = Some (view_mode m).
Proof. intros _ E. by rewrite view_mode_at, E. Qed.

(** ** Entering *)

Section Enter.
Context (h : phase) (c : nat) (s : cpupm_state) (Hs : sound h s) (Hc : c ∈ s_online s) (Ha : alive h (view_of s) c).

(** The state in which the modes are tried. *)
Definition going_idle : cpupm_state := s <| s_log := s_log s ++ [CpuDisable c] |> <| s_cpus := alter (fun p => p <| pm_state := CPUPM_STATE_IDLE |>) c (s_cpus s) |>.

Lemma going_idle_view : view_of going_idle = cpu_idles c (view_of s).
Proof. etransitivity; [exact (view_set_state (s <| s_log := s_log s ++ [CpuDisable c] |>) c CPUPM_STATE_IDLE)|]. by rewrite (view_tell s _ (CpuDisable c)). Qed.

Lemma going_idle_sound : ok h (view_of going_idle) /\ env_ok going_idle.
Proof. destruct Hs as [Hok He]. split; [rewrite going_idle_view; by apply cpu_idles_ok|]. exact (env_cpus (s <| s_log := s_log s ++ [CpuDisable c] |>) (fun p => p <| pm_state := CPUPM_STATE_IDLE |>) c (fun _ => conj eq_refl eq_refl) (env_log s _ He)). Qed.

Lemma going_idle_state c' : pm_state (pm_of going_idle c') = if decide (c' = c) then CPUPM_STATE_IDLE else pm_state (pm_of s c').
Proof.
  rewrite view_state, going_idle_view, view_state. destruct Hs as [Hok _]. pose proof (tk_online _ (b_tree _ _ (ok_base _ _ Hok)) c Hc) as Hlt. by apply (cstate_set_cpu c CPUPM_STATE_IDLE (call_made (CpuDisable c) (view_of s))).
Qed.

Lemma going_idle_pm c' : pm_of going_idle c' = pm_of s c' \/ pm_of going_idle c' = (pm_of s c') <| pm_state := CPUPM_STATE_IDLE |>.
Proof. unfold pm_of, going_idle. cbn. rewrite list_lookup_alter. case_decide as E; [rewrite E|by left]. destruct (s_cpus s !! c') as [p|]; [by right|by left]. Qed.

Lemma going_idle_sleep c' t : get_sleep_length going_idle c' t = get_sleep_length s c' t.
Proof. unfold get_sleep_length. by destruct (going_idle_pm c') as [-> | ->]. Qed.

Lemma going_idle_modes c' ty : mode_of going_idle c' ty = mode_of s c' ty.
Proof. unfold mode_of. by destruct (going_idle_pm c') as [-> | ->]. Qed.

(** The modes of clusters are not touched by trying the system mode. *)
Lemma cluster_kept j m s1 s2 : ok h (view_of s1) -> v_modes (view_of s1) !! j = Some m -> mv_type m = POWERMODE_TYPE_CLUSTER ->
  (view_of s2 = view_of s1 \/ exists i n, mode_of s1 c POWERMODE_TYPE_SYSTEM = Some i /\ s_mode_list s1 !! i = Some n /\ pw_type n = POWERMODE_TYPE_SYSTEM /\ may_enter s1 c n /\ slept i (view_mode n) (view_of s1) (view_of s2)) -> v_modes (view_of s2) !! j = Some m.
Proof.
  intros Hok Hm Ht [->|(i & n & _ & Hn & Hty & _ & _ & Hsl)]; [done|]. destruct (Hsl Hty) as [-> | ->]; [done|]. unfold system_sleeps. rewrite modes_set_mode_ne; [done|]. intros ->. rewrite view_mode_at, Hn in Hm. injection Hm as <-. cbn in Ht. by rewrite Hty in Ht.
Qed.
End Enter.

(** Trying a cluster does not look at the idle-IPs. *)
Definition same_ips (s s' : cpupm_state) : Prop := s_ips s' = s_ips s /\ s_next s' = s_next s /\ s_prev s' = s_prev s.

Lemma wp_allow_ips c j s : (forall m, s_mode_list s !! j = Some m -> pw_type m = POWERMODE_TYPE_CLUSTER) -> is_Some (s_mode_list s !! j) -> wp (entry_allow c j) (fun _ s' => same_ips s s' /\ s_mode_list s' = s_mode_list s) s.
Proof.
  intros Ht [m Hm]. specialize (Ht m Hm). unfold entry_allow. apply wp_bind. eapply wp_eq; [unfold get_mode; by rewrite Hm|]. destruct (negb _); [by apply wp_ret|]. destruct (negb _); [by apply wp_ret|].
  apply wp_bind. eapply wp_mono; [apply wp_cpus_busy|]. intros r s1 [-> _]. destruct (negb _); [by apply wp_ret|]. apply wp_bind. unfold cpus_last_core_detecting. apply wp_bind, wp_get. eapply wp_mono; [apply wp_detecting|]. intros r2 s2 [[n ->] _].
  destruct (negb _); [by apply wp_ret|]. apply wp_bind. unfold system_busy. rewrite Ht. by apply wp_ret, wp_ret.
Qed.

Lemma wp_try_cluster_ips c s : tree_ok (view_of s) -> wp (try_enter c POWERMODE_TYPE_CLUSTER) (fun _ s' => same_ips s s') s.
Proof.
  intros T. unfold try_enter. apply wp_bind, wp_get. rewrite view_mode_of. destruct (vmode _ _ _) as [j|] eqn:Ev; [|by apply wp_ret]. destruct (tk_mode _ T _ _ _ (or_introl eq_refl) Ev) as (mv & Hm & Ht & _). rewrite view_mode_at in Hm.
  destruct (s_mode_list s !! j) as [m|] eqn:Em; [|done]. injection Hm as <-. apply wp_bind. eapply wp_mono; [apply wp_allow_ips; [|by rewrite Em]|]. { intros m' E. rewrite Em in E. by injection E as <-. }
  intros [|] s1 [E1 E2]; [|by apply wp_ret]. unfold enter_power_mode. apply wp_bind. eapply wp_eq; [unfold get_mode; by rewrite E2, Em|]. apply wp_bind. unfold enter_settings. cbn in Ht. rewrite Ht. apply wp_bind, wp_mod, wp_ret, wp_bind, wp_mod.
  unfold cpupm_profile_begin, cpuidle_profile_begin. apply wp_bind, wp_bind, wp_ask, wp_ret, wp_mod. done.
Qed.

(** ** The theorems *)

(** A cpu comes up beside one that runs, or as the only one online, in its cluster and
    in the system: what its modes are is not asked. *)
Definition comes_in_company (s : cpupm_state) (c : nat) : Prop := forall ty j m, ty = POWERMODE_TYPE_CLUSTER \/ ty = POWERMODE_TYPE_SYSTEM -> mode_of s c ty = Some j -> s_mode_list s !! j = Some m ->
  (forall c', c' ∈ pw_siblings m -> c' ∉ s_online s) \/ exists c', c' ∈ pw_siblings m /\ c' ∈ s_online s /\ pm_state (pm_of s c') = CPUPM_STATE_BUSY.
Definition allowed (h : phase) (s : cpupm_state) (e : event) : Prop := match e with EvCome c => h = Up c /\ comes_in_company s c | _ => legal h s e end.

Inductive passes : phase -> cpupm_state -> list event -> phase -> cpupm_state -> Prop :=
| passes_nil h s : passes h s [] h s
| passes_cons h s e s1 evs h' s' : allowed h s e -> run_event e s = Done tt s1 -> passes (next_phase h e) s1 evs h' s' -> passes h s (e :: evs) h' s'.

Lemma company_busy h s c ty : sound h s -> comes_in_company s c -> ty = POWERMODE_TYPE_CLUSTER \/ ty = POWERMODE_TYPE_SYSTEM -> mode_busy (view_of s) c ty.
Proof.
  intros [[[T S C] K D] _] Hco Hty j mv Hj Hmv. pose proof Hmv as Hm. rewrite view_mode_at in Hm. destruct (s_mode_list s !! j) as [m|] eqn:Em; [|done]. injection Hm as <-.
  rewrite <- view_mode_of in Hj. destruct (sk_mode _ _ S _ _ Hmv) as [|Hi]; [done|]. exfalso. destruct (Hco ty j m Hty Hj Em) as [Hno|(c' & Hs' & Ho' & Hb)].
  - destruct (sk_some _ _ S _ _ Hmv Hi) as (c' & Hs' & Ho'). exact (Hno c' Hs' Ho').
  - pose proof (sk_siblings _ _ S _ _ c' Hmv Hi Hs' Ho') as E. rewrite <- view_state, Hb in E. done.
Qed.

Lemma passes_run h s evs h' s' : passes h s evs h' s' -> sound h s -> runs h s evs h' s'.
Proof.
  induction 1 as [|h s e s1 evs h' s' Hl Hr _ IH]; [constructor|]. intros Hs.
  assert (legal h s e) as Hlegal by (destruct e; try exact Hl; destruct Hl as [-> Hco]; split; [done|]; split; eapply company_busy; [exact Hs|done|by left|exact Hs|done|by right]).
  eapply runs_cons; [exact Hlegal|exact Hr|]. apply IH. exact (wp_done _ _ _ tt s1 (wp_event h e s Hs Hlegal) Hr).
Qed.

(** Reached by such a history. *)
Definition passed (n : nat) (eints : list Z) (answers : nat -> answer) (dt : cpupm_tree) (evs : list event) (h : phase) (s : cpupm_state) : Prop :=
  always_allocates answers /\ tree_fits n (length eints) dt /\ exists s0, exynos_cpupm_probe dt (fresh n eints answers) = Done 0 s0 /\ passes Stable s0 evs h s.

Lemma passed_reached n eints answers dt evs h s : passed n eints answers dt evs h s -> reached n eints answers dt evs h s.
Proof.
  intros (Ha & Ht & s0 & Hp & Hr). split; [done|]. split; [done|]. exists s0. split; [done|]. apply passes_run; [done|]. apply (reached_sound n eints answers dt []). split; [done|]. split; [done|]. exists s0. split; [done|constructor].
Qed.

(** C11. In every state that a history reaches after the probe in which cpus come up beside a running cpu of their cluster and of
    the system (or as the only ones online; the driver breaks this otherwise), a power mode that is entered is not disabled, has a cpu
    online, and all the cpus of its domain that are online are idle; and while the system sleeps, so does every cluster with
    a cpu online that does not boot the system. *)
Theorem modes_follow_cpus n eints answers dt evs h s (R : passed n eints answers dt evs h s) :
  (forall j m, s_mode_list s !! j = Some m -> pw_state m = CPUPM_STATE_IDLE ->
    pw_disable m = 0 /\ (exists c, c ∈ pw_siblings m /\ c ∈ s_online s) /\ forall c, c ∈ pw_siblings m -> c ∈ s_online s -> pm_state (pm_of s c) = CPUPM_STATE_IDLE) /\
  (s_system_disabled s = true -> forall c j m, c ∈ s_online s -> mode_of s c POWERMODE_TYPE_CLUSTER = Some j -> s_mode_list s !! j = Some m -> BOOT_CPU ∉ pw_siblings m -> pw_state m = CPUPM_STATE_IDLE).
Proof.
  apply passed_reached, reached_sound in R. pose proof R as [[[T S C] K D] _]. split.
  - intros j m Hm Hi. pose proof (sound_mode _ _ _ _ R Hm) as Hv. split; [|split].
    + destruct (decide (pw_disable m = 0)) as [|Hd]; [done|]. pose proof (D _ _ Hv Hd) as Hb. cbn in Hb. by rewrite Hi in Hb.
    + exact (sk_some _ _ S _ _ Hv Hi).
    + intros c Hs Ho. rewrite view_state. by apply (sk_siblings _ _ S _ _ _ Hv).
  - intros Hsys c j m Hc Hj Hm Hb. rewrite view_mode_of in Hj. exact (K Hsys c j (view_mode m) Hc Hj (sound_mode _ _ _ _ R Hm) Hb).
Qed.

(** C12. In every such state the calls made so far have told the power controller exactly what the driver's own state says: the
    last call for a cluster switched it off just when its mode is entered or none of its cpus is alive, the last call for a
    cpu just when it is idle or not alive, and the last call for the system was to sleep just when the system's flag is set. *)
Theorem pmu_follows_modes n eints answers dt evs h s (R : reached n eints answers dt evs h s) :
  let told := omap power_call (s_log s) in
  let live c := (c ∈ s_online s /\ h <> Down c) \/ h = Up c in
  (forall j m, s_mode_list s !! j = Some m -> pw_type m = POWERMODE_TYPE_CLUSTER -> cluster_off (pw_cal_id m) told = true <-> pw_state m = CPUPM_STATE_IDLE \/ forall c, c ∈ pw_siblings m -> ~ live c) /\
  (forall c, (c < length (s_cpus s))%nat -> cpu_off c told = true <-> pm_state (pm_of s c) = CPUPM_STATE_IDLE \/ ~ live c) /\
  sleeping told = s_system_disabled s.
Proof.
  apply reached_sound in R. pose proof R as [[[T S [C1 C2 C3]] K D] _]. intros told live. split; [|split; [|exact C3]].
  - intros j m Hm Ht. exact (C1 j (view_mode m) (sound_mode _ _ _ _ R Hm) Ht).
  - intros c Hc. rewrite view_state. apply C2. by rewrite view_len.
Qed.

Lemma runs_snoc h s evs h1 s1 e s2 : runs h s evs h1 s1 -> legal h1 s1 e -> run_event e s1 = Done tt s2 -> runs h s (evs ++ [e]) (next_phase h1 e) s2.
Proof.
  induction 1 as [h s|h s e0 s0 evs h1 s1 Hl Hr _ IH]; intros Hl2 Hr2; cbn [app]; [eapply runs_cons; [done..|constructor]|]. eapply runs_cons; [done..|]. by apply IH.
Qed.

(** C23. The probe of a machine whose device tree describes each cpu's modes once succeeds, and from there every legal event
    completes, without a fault and without waiting for ever, in a state that the longer history reaches. *)
Theorem histories_complete n eints answers dt (Ha : always_allocates answers) (Ht : tree_fits n (length eints) dt) :
  (exists s0, reached n eints answers dt [] Stable s0) /\
  forall evs h s e, reached n eints answers dt evs h s -> legal h s e -> exists s', run_event e s = Done tt s' /\ reached n eints answers dt (evs ++ [e]) (next_phase h e) s'.
Proof.
  split.
  - destruct (wp_run _ _ _ (wp_probe n eints answers dt Ha Ht)) as (r & s0 & Hp & -> & _). exists s0. split; [done|]. split; [done|]. exists s0. split; [done|constructor].
  - intros evs h s e R Hl. destruct (wp_run _ _ _ (wp_event h e s (reached_sound _ _ _ _ _ _ _ R) Hl)) as ([] & s' & Hr & _). exists s'. split; [done|]. destruct R as (_ & _ & s0 & Hp & Hruns).
    split; [done|]. split; [done|]. exists s0. split; [done|]. by eapply runs_snoc.
Qed.

(** C13. A running cpu that goes idle takes its cluster down exactly when the cluster's mode is not disabled, the cpu may
    enter it, every other cpu of the cluster that is online is idle, with no timer of any of them, its own included, nearer
    than the target residency, and the controller, asked about each other cpu of the cluster that is online, is not looking
    for its last core. *)
Theorem cluster_entered_iff h s c j m (Hs : sound h s) (Hc : c ∈ s_online s) (Ha : alive h (view_of s) c) (Hb : pm_state (pm_of s c) = CPUPM_STATE_BUSY)
    (Hj : mode_of s c POWERMODE_TYPE_CLUSTER = Some j) (Hm : s_mode_list s !! j = Some m) :
  wp (exynos_cpupm_enter c) (fun _ s' => exists m', s_mode_list s' !! j = Some m' /\
    (pw_state m' = CPUPM_STATE_IDLE <-> pw_disable m = 0 /\ c ∈ pw_entry_allowed m /\ quiet s c m /\
      forall c', c' ∈ pw_siblings m -> c' ∈ s_online s -> (c' = c \/ pm_state (pm_of s c') = CPUPM_STATE_IDLE) /\ pw_target_residency m <= get_sleep_length s c' (x_time (s_answers s (s_asked s))))) s.
Proof.
  destruct (going_idle_sound h c s Hs Hc Ha) as [Hok1 He1]. pose proof (going_idle_view c s) as Ev. pose proof (going_idle_state h c s Hs Hc) as Hst. pose proof (going_idle_sleep c s) as Hsl. pose proof (going_idle_modes c s) as Hmo.
  destruct Hs as [[[T S C] K D] He]. pose proof Hj as Hj'. rewrite view_mode_of in Hj'. destruct (tk_mode _ T _ _ _ (or_introl eq_refl) Hj') as (mv & Hmv & Hty & Hsib). pose proof (sound_mode h s j m (conj (Build_ok _ _ (Build_base _ _ T S C) K D) He) Hm) as Hvm. rewrite Hmv in Hvm. injection Hvm as ->. cbn in Hty.
  assert (Hbusy : pw_state m = CPUPM_STATE_BUSY). { destruct (sk_mode _ _ S _ _ Hmv) as [|Hi]; [done|]. pose proof (sk_siblings _ _ S _ _ _ Hmv Hi Hsib Hc) as E. rewrite <- view_state, Hb in E. done. }
  assert (Hq : quiet (going_idle c s) c m <-> quiet s c m). { unfold quiet, cpus_and. replace (length (s_cpus (going_idle c s))) with (length (s_cpus s)) by (symmetry; apply length_alter). done. }
  set (P := pw_disable m = 0 /\ _). assert (HP : may_enter (going_idle c s) c m <-> P).
  { unfold P. split.
    - intros [M1 M2 M3 M4' _ _]. split; [done|]. split; [done|]. split; [by apply Hq|]. intros c' Hs' Ho'. destruct (M3 c' Hs' Ho') as [M4 M5]. rewrite Hsl in M5. split; [|done]. rewrite Hst in M4. case_decide; [by left|right]. destruct (sk_cpu _ _ S c') as [E|E]; rewrite <- view_state in E; [done|exact E].
    - intros (P1 & P2 & P4' & P3). split; try done; [|by apply Hq|by rewrite Hty..]. intros c' Hs' Ho'. destruct (P3 c' Hs' Ho') as [P4 P5]. rewrite Hsl, Hst. split; [|done]. case_decide; [done|]. destruct P4 as [|P4]; [done|by rewrite P4]. }
  unfold exynos_cpupm_enter. apply wp_bind, wp_mod, wp_bind, wp_mod. change (s <| s_log := s_log s ++ [CpuDisable c] |> <| s_cpus := alter (fun p => p <| pm_state := CPUPM_STATE_IDLE |>) c (s_cpus (s <| s_log := s_log s ++ [CpuDisable c] |>)) |>) with (going_idle c s).
  assert (Hc1 : c ∈ s_online (going_idle c s)) by done. assert (Hm1 : s_mode_list (going_idle c s) !! j = Some m) by done. assert (Hj1 : mode_of (going_idle c s) c POWERMODE_TYPE_CLUSTER = Some j) by (by rewrite Hmo).
  clearbody P. clear Hst Hsl Hmo Hq. set (s1 := going_idle c s) in *. clearbody s1.
  cbn [kiter]. apply wp_bind. eapply wp_mono; [apply (wp_try_enter h); [by left|done..]|]. intros _ s2 (Hok2 & He2 & (Ho2 & _) & Hcase & Hex).
  assert (Hm2 : exists mv2, v_modes (view_of s2) !! j = Some mv2 /\ mv_type mv2 = POWERMODE_TYPE_CLUSTER /\ (mv_state mv2 = CPUPM_STATE_IDLE <-> P)).
  { pose proof (sound_mode h s1 j m (conj Hok1 He1) Hm1) as Hv1. destruct Hcase as [E|(j' & m' & Hj2 & Hm' & _ & Hme & Hslept)].
    - exists (view_mode m). rewrite E. split; [done|]. split; [done|]. cbn. rewrite Hbusy. split; [done|]. intros HP1%HP. specialize (Hex eq_refl j m Hj1 Hm1 HP1). rewrite Hex in E. assert (E' : v_modes (cluster_sleeps j (pw_cal_id m) (view_of s1)) !! j = Some (view_mode m)) by (by rewrite E).
      unfold cluster_sleeps in E'. rewrite (modes_set_mode_eq j CPUPM_STATE_IDLE (call_made _ (view_of s1)) (view_mode m)) in E' by done. injection E' as E'. exfalso. rewrite Hbusy in E'. done.
    - rewrite Hj1 in Hj2. injection Hj2 as <-. rewrite Hm1 in Hm'. injection Hm' as <-. destruct Hslept as [Hcl _]. rewrite (Hcl Hty). exists ((view_mode m) <| mv_state := CPUPM_STATE_IDLE |>). split; [by apply (modes_set_mode_eq j CPUPM_STATE_IDLE (call_made _ (view_of s1)))|]. split; [done|]. cbn. split; [intros _; by apply HP|done]. }
  destruct Hm2 as (mv2 & Hm2 & Ht2 & HP2). apply wp_bind. eapply wp_mono; [apply (wp_try_enter h); [by right|done|done|]|]. { change (c ∈ v_online (view_of s2)). by rewrite Ho2. }
  intros _ s3 (_ & _ & _ & Hcase3 & _). apply wp_ret. pose proof (cluster_kept h c j mv2 s2 s3 Hok2 Hm2 Ht2 Hcase3) as Hm3. rewrite view_mode_at in Hm3. destruct (s_mode_list s3 !! j) as [m3|]; [|done]. injection Hm3 as <-. exists m3. split; [done|]. exact HP2.
Qed.

(** C24. While some idle-IP that a driver registered is busy, no cpu that goes idle puts the system to sleep. *)
Theorem idle_ip_vetoes h s c xs x (Hs : sound h s) (Hc : c ∈ s_online s) (Ha : alive h (view_of s) c) (Hx : registry s xs) (Hin : x ∈ xs) (Hn : ip_type x = NORMAL_IP) (Hb : ip_idle x = CPUPM_STATE_BUSY) :
  wp (exynos_cpupm_enter c) (fun _ s' => s_system_disabled s' = s_system_disabled s) s.
Proof.
  destruct (going_idle_sound h c s Hs Hc Ha) as [Hok1 He1]. pose proof (going_idle_view c s) as Ev. unfold exynos_cpupm_enter. apply wp_bind, wp_mod, wp_bind, wp_mod.
  change (s <| s_log := s_log s ++ [CpuDisable c] |> <| s_cpus := alter (fun p => p <| pm_state := CPUPM_STATE_IDLE |>) c (s_cpus (s <| s_log := s_log s ++ [CpuDisable c] |>)) |>) with (going_idle c s). assert (Hx1 : registry (going_idle c s) xs) by (by apply (registry_frame s)).
  change (s_system_disabled s) with (s_system_disabled (going_idle c s)). assert (Hc1 : c ∈ s_online (going_idle c s)) by done. set (s1 := going_idle c s) in *. clearbody s1. clear Hs Ha Hc Hx Ev.
  cbn [kiter]. apply wp_bind. eapply wp_mono; [eapply wp_conj; [by apply (wp_try_enter h c POWERMODE_TYPE_CLUSTER s1); [left|..]|apply (wp_try_cluster_ips c s1); by destruct Hok1 as [[]]]|]. intros _ s2 [(Hok2 & He2 & (Ho2 & _) & Hcase & _) (I1 & I2 & I3)].
  assert (Hx2 : registry s2 xs) by (by apply (registry_frame s1)). assert (Hsys2 : v_system (view_of s2) = v_system (view_of s1)). { destruct Hcase as [->|(j & m & _ & _ & Ht & _ & Hsl)]; [done|]. by rewrite (proj1 Hsl Ht). }
  apply wp_bind. eapply wp_mono; [apply (wp_try_enter h); [by right|done|done|]|]. { change (c ∈ v_online (view_of s2)). by rewrite Ho2. }
  intros _ s3 (_ & _ & _ & Hcase3 & _). apply wp_ret. change (v_system (view_of s3) = v_system (view_of s1)). rewrite <- Hsys2. destruct Hcase3 as [->|(j & m & _ & _ & Ht & Hme & _)]; [done|].
  exfalso. exact (proj1 (Forall_forall _ _) (me_ips _ _ _ Hme Ht xs Hx2) x Hin (conj Hn Hb)).
Qed.

(** C27. A driver that disables a mode that some cpu may enter, with a count that is not negative and can be raised, raises
    its count by one, and the mode is left at once: the cpus in it are woken, whatever else is disabled. *)
Theorem disable_leaves_mode h s c ty j m (Hs : sound h s) (Hty : ty = POWERMODE_TYPE_CLUSTER \/ ty = POWERMODE_TYPE_SYSTEM) (Hj : mode_of s c ty = Some j) (Hm : s_mode_list s !! j = Some m) (Hal : pw_entry_allowed m <> []) (Hd : 0 <= pw_disable m < 2 ^ 31 - 1) :
  wp (disable_power_mode c ty) (fun _ s' => sound h s' /\ exists m', s_mode_list s' !! j = Some m' /\ pw_disable m' = pw_disable m + 1 /\ pw_state m' = CPUPM_STATE_BUSY) s.
Proof.
  unfold disable_power_mode, with_mode. assert (Ev : valid_powermode ty = true) by (by destruct Hty as [-> | ->]). rewrite Ev. cbn [negb]. apply wp_bind, wp_get. rewrite Hj. pose proof (sound_mode _ _ _ _ Hs Hm) as Hv. eapply wp_mono; [apply (wp_disable_mode h j s _ Hs Hv); unfold small; cbn; lia|].
  intros _ s' (Hs' & _ & Hcnt). split; [done|]. destruct (Hcnt Hal) as (mv & Hmv & Hd' & Hb'). rewrite view_mode_at in Hmv. destruct (s_mode_list s' !! j) as [m'|]; [|done]. injection Hmv as <-. exists m'. cbn in *. split; [done|]. split; [done|]. apply Hb'. lia.
Qed.
