(* ===== verification/CpupmCases.v ===== *)
(** * The power management on a small machine

    A history that puts a machine of three cpus to sleep, which the theorems are
    applied to, and the cases in which the driver does not do what it means to. *)

From S2P Require Import Prelude Cpupm CpupmIp CpupmView CpupmRun CpupmSpec CpupmBoot CpupmPower.

(** ** The machine *)

Definition calm : answer := MkAnswer 1000 false true 0 1 0 true.
Definition calm_answers (_ : nat) : answer := calm.
Definition little : mode_node := MkNode "little" (inr 500) (inr 0) (Some [0; 1]%nat) (Some [0; 1]%nat) (Some 7).
Definition big : mode_node := MkNode "big" (inr 500) (inr 0) (Some [2]%nat) (Some [2]%nat) (Some 8).
Definition sicd : mode_node := MkNode "sicd" (inr 500) (inr 1) (Some [0; 1; 2]%nat) (Some [0; 1; 2]%nat) None.
Definition machine : cpupm_tree := MkTree None [Some 1; Some 1; Some 1] [little; big; sicd] (Some (Some [MkWm 0x10 0x14 0xff], Some [0x20])).

Definition ends_in {A} (m : CM A) (s : cpupm_state) : cpupm_state := match m s with Done _ s' => s' | _ => s end.
Definition finishes {A} (m : CM A) (s : cpupm_state) : bool := match m s with Done _ _ => true | _ => false end.
Definition stops {A} (m : CM A) (s : cpupm_state) : bool := match m s with Fault => true | _ => false end.
Definition hangs {A} (m : CM A) (s : cpupm_state) : bool := match m s with Blocked => true | _ => false end.

Definition booted : cpupm_state := ends_in (exynos_cpupm_probe machine) (fresh 3 [1] calm_answers).
Definition history (evs : list event) : cpupm_state := ends_in (kiter run_event evs) booted.

Lemma machine_fits : tree_fits 3 1 machine.
Proof.
  assert (Hall : forall c, (c < 3)%nat -> c ∈ [0; 1; 2]%nat) by (intros [|[|[|c]]] Hc; rewrite !elem_of_cons; [tauto|tauto|tauto|lia]).
  assert (Hnode : forall dn ty l, (ty = POWERMODE_TYPE_CLUSTER \/ (ty = POWERMODE_TYPE_SYSTEM /\ l = [0; 1; 2]%nat)) -> dn = MkNode (n_name dn) (inr 500) (inr ty) (Some l) (Some l) (n_cal_id dn) -> (exists c, c ∈ l /\ (c < 3)%nat) -> node_ok 3 dn).
  { intros dn ty l Ht -> (c & Hc & Hlt). split; cbn; [by eexists| | |].
    - destruct Ht as [-> | [-> _]]; [by left|by right].
    - exists c. by apply list_elem_of_filter.
    - intros [= ->] c' Hc'. destruct Ht as [|[_ ->]]; [done|]. apply list_elem_of_filter. split; [done|by apply Hall]. }
  split; [done|by repeat constructor; eexists| |cbn; lia]. split.
  - cbn [t_modes machine]. rewrite !Forall_cons, Forall_nil. split_and!; [..|done].
    + apply (Hnode _ 0 [0; 1]%nat); [by left|done|]. exists 0%nat. split; [by left|lia].
    + apply (Hnode _ 0 [2]%nat); [by left|done|]. exists 2%nat. split; [by left|lia].
    + apply (Hnode _ 1 [0; 1; 2]%nat); [by right|done|]. exists 0%nat. split; [by left|lia].
  - intros [|[|[|i]]] [|[|[|j]]] d e; cbn; try done; intros [= <-] [= <-] Hn Ht; try done; (split; [|done]); intros c [_ Hc]%list_elem_of_filter [_ Hc']%list_elem_of_filter; cbn in Hc, Hc';
    repeat match goal with H : _ ∈ _ |- _ => inversion H; clear H; subst end.
Qed.

Lemma step_runs h s e evs h' s' : legal h s e -> finishes (run_event e) s = true -> runs (next_phase h e) (ends_in (run_event e) s) evs h' s' -> runs h s (e :: evs) h' s'.
Proof. intros Hl Hf Hr. eapply runs_cons; [exact Hl| |exact Hr]. unfold finishes, ends_in in *. by destruct (run_event e s) as [[] s1| |]. Qed.

(** Timers far away, and the cpus go idle one after the other. *)
Definition falling_asleep : list event := [EvIdleEnter 0 1 9000000; EvIdleEnter 1 1 9000000; EvIdleEnter 2 1 9000000; EvEnter 1; EvEnter 0; EvEnter 2].
Definition asleep : cpupm_state := history falling_asleep.
Definition almost : cpupm_state := history (take 4 falling_asleep).

Lemma always_calm : always_allocates calm_answers.
Proof. done. Qed.

Lemma booted_by_probe : exynos_cpupm_probe machine (fresh 3 [1] calm_answers) = Done 0 booted.
Proof. by vm_compute. Qed.

Lemma enter_legal (h : phase) (s : cpupm_state) (c : nat) : bool_decide (c ∈ s_online s) = true -> bool_decide (pm_state (pm_of s c) = CPUPM_STATE_BUSY) = true -> legal h s (EvEnter c).
Proof. intros H1%bool_decide_eq_true H2%bool_decide_eq_true. done. Qed.
Lemma idle_legal (h : phase) (s : cpupm_state) (c : nat) st t : (c <? length (s_cpus s))%nat = true -> (0 <=? st) && (st <? Z.of_nat CPUIDLE_STATE_MAX) = true -> legal h s (EvIdleEnter c st t).
Proof. cbn [legal]. rewrite Nat.ltb_lt. lia. Qed.
Ltac history_step := eapply step_runs; [first [apply enter_legal; by vm_compute | apply idle_legal; by vm_compute] | by vm_compute |].

Lemma almost_runs : exists s, runs Stable booted (take 4 falling_asleep) Stable s /\ s = almost.
Proof. eexists. split; [cbn [take falling_asleep]; do 4 history_step; constructor|by vm_compute]. Qed.
Lemma asleep_runs : exists s, runs Stable booted falling_asleep Stable s /\ s = asleep.
Proof. eexists. split; [unfold falling_asleep; do 6 history_step; constructor|by vm_compute]. Qed.

Lemma asleep_reached : reached 3 [1] calm_answers machine falling_asleep Stable asleep.
Proof. split; [done|]. split; [apply machine_fits|]. exists booted. split; [apply booted_by_probe|]. destruct asleep_runs as (s & H & <-). exact H. Qed.
Lemma almost_reached : reached 3 [1] calm_answers machine (take 4 falling_asleep) Stable almost.
Proof. split; [done|]. split; [apply machine_fits|]. exists booted. split; [apply booted_by_probe|]. destruct almost_runs as (s & H & <-). exact H. Qed.
Lemma almost_sound : sound Stable almost.
Proof. eapply reached_sound, almost_reached. Qed.

(** The modes of the machine asleep. *)
Lemma asleep_modes : exists little big sicd, s_mode_list asleep = [little; big; sicd] /\ pw_state little = CPUPM_STATE_IDLE /\ pw_state big = CPUPM_STATE_IDLE /\ pw_state sicd = CPUPM_STATE_IDLE /\ pw_siblings sicd = [0; 1; 2]%nat /\
  pw_type big = POWERMODE_TYPE_CLUSTER /\ pw_cal_id big = 8 /\ s_system_disabled asleep = true /\ s_online asleep = [0; 1; 2]%nat.
Proof. vm_compute. do 3 eexists. by split_and!. Qed.

(** The little cluster, its second cpu idle and its first about to be. *)
Lemma almost_modes : exists little, s_mode_list almost !! 0%nat = Some little /\ mode_of almost 0 POWERMODE_TYPE_CLUSTER = Some 0%nat /\ pm_state (pm_of almost 0) = CPUPM_STATE_BUSY /\ s_online almost = [0; 1; 2]%nat /\
  pw_disable little = 0 /\ pw_entry_allowed little = [0; 1]%nat /\ pw_siblings little = [0; 1]%nat /\ pw_target_residency little = 500 /\ pw_state little = CPUPM_STATE_BUSY /\
  pm_state (pm_of almost 1) = CPUPM_STATE_IDLE /\ get_sleep_length almost 0 1000 = 8999 /\ get_sleep_length almost 1 1000 = 8999 /\ s_answers almost = calm_answers.
Proof. vm_compute. eexists. by split_and!. Qed.

(** ** The theorems on it *)

(** A cpu goes and comes back beside a running one; then all fall asleep. *)
Definition back_and_asleep : list event := [EvDown 1; EvGone 1; EvUp 1; EvCome 1] ++ falling_asleep.
Definition asleep_again : cpupm_state := history back_and_asleep.

Lemma step_passes h s e evs h' s' : allowed h s e -> finishes (run_event e) s = true -> passes (next_phase h e) (ends_in (run_event e) s) evs h' s' -> passes h s (e :: evs) h' s'.
Proof. intros Hl Hf Hr. eapply passes_cons; [exact Hl| |exact Hr]. unfold finishes, ends_in in *. by destruct (run_event e s) as [[] s1| |]. Qed.
Lemma enter_allowed (h : phase) (s : cpupm_state) (c : nat) : bool_decide (c ∈ s_online s) = true -> bool_decide (pm_state (pm_of s c) = CPUPM_STATE_BUSY) = true -> allowed h s (EvEnter c).
Proof. apply enter_legal. Qed.
Lemma down_allowed (s : cpupm_state) (c : nat) : bool_decide (c ∈ s_online s) = true -> bool_decide (pm_state (pm_of s c) = CPUPM_STATE_BUSY) = true -> allowed Stable s (EvDown c).
Proof. intros H1%bool_decide_eq_true H2%bool_decide_eq_true. done. Qed.
Lemma up_allowed (s : cpupm_state) (c : nat) : bool_decide (c ∉ s_online s) = true -> (c <? length (s_cpus s))%nat = true -> allowed Stable s (EvUp c).
Proof. intros H1%bool_decide_eq_true H2%Nat.ltb_lt. done. Qed.
(** The boot cpu runs, and it is in every mode of the cpu. *)
Lemma come_allowed (s : cpupm_state) (c x : nat) : bool_decide (x ∈ s_online s) = true -> bool_decide (pm_state (pm_of s x) = CPUPM_STATE_BUSY) = true ->
  forallb (fun ty => match mode_of s c ty ≫= (fun j => s_mode_list s !! j) with Some m => bool_decide (x ∈ pw_siblings m) | None => true end) [POWERMODE_TYPE_CLUSTER; POWERMODE_TYPE_SYSTEM] = true -> allowed (Up c) s (EvCome c).
Proof.
  intros H1%bool_decide_eq_true H2%bool_decide_eq_true H3. split; [done|]. intros ty j m Hty Hj Hm. right. exists x. split; [|done]. assert (E : mode_of s c ty ≫= (fun j => s_mode_list s !! j) = Some m) by (rewrite Hj; exact Hm).
  rewrite forallb_forall in H3. specialize (H3 ty ltac:(destruct Hty as [-> | ->]; cbn; auto)). rewrite E in H3. by eapply bool_decide_eq_true_1.
Qed.
Lemma idle_allowed (h : phase) (s : cpupm_state) (c : nat) st t : (c <? length (s_cpus s))%nat = true -> (0 <=? st) && (st <? Z.of_nat CPUIDLE_STATE_MAX) = true -> allowed h s (EvIdleEnter c st t).
Proof. apply idle_legal. Qed.

Ltac passing_step := eapply step_passes; [first [apply enter_allowed; by vm_compute|apply idle_allowed; by vm_compute|apply down_allowed; by vm_compute|apply up_allowed; by vm_compute|apply (come_allowed _ _ 0); by vm_compute|done] | by vm_compute |].
Lemma asleep_again_passes : exists s, passes Stable booted back_and_asleep Stable s /\ s = asleep_again.
Proof. eexists. split; [unfold back_and_asleep, falling_asleep; cbn [app]; do 10 passing_step; constructor|by vm_compute]. Qed.
Lemma asleep_again_passed : passed 3 [1] calm_answers machine back_and_asleep Stable asleep_again.
Proof. split; [done|]. split; [apply machine_fits|]. exists booted. split; [apply booted_by_probe|]. destruct asleep_again_passes as (s & H & <-). exact H. Qed.
Lemma asleep_again_modes : exists little big sicd, s_mode_list asleep_again = [little; big; sicd] /\ pw_state sicd = CPUPM_STATE_IDLE /\ pw_siblings sicd = [0; 1; 2]%nat /\ s_online asleep_again = [1; 0; 2]%nat.
Proof. vm_compute. do 3 eexists. by split_and!. Qed.

Lemma modes_follow_cpus_witness : Forall (fun c => pm_state (pm_of asleep_again c) = CPUPM_STATE_IDLE) [0; 1; 2]%nat.
Proof.
  destruct asleep_again_modes as (l & b & m & Em & Hi & Hs & Ho). apply Forall_forall. intros c Hc. destruct (modes_follow_cpus 3 [1] calm_answers machine back_and_asleep Stable asleep_again asleep_again_passed) as [H _].
  apply (H 2%nat m); [by rewrite Em|done|by rewrite Hs|rewrite Ho; rewrite !elem_of_cons in *; tauto].
Defined.

Lemma pmu_follows_modes_witness : cluster_off 8 (omap power_call (s_log asleep)) = true /\ sleeping (omap power_call (s_log asleep)) = true.
Proof.
  destruct asleep_modes as (l & b & m & Em & _ & Hi & _ & _ & Ht & Hid & Hsys & _). destruct (pmu_follows_modes 3 [1] calm_answers machine falling_asleep Stable asleep asleep_reached) as (H1 & _ & H3).
  split; [|by rewrite H3]. rewrite <- Hid. apply (H1 1%nat b); [by rewrite Em|done|by left].
Defined.

Lemma histories_complete_witness : exists s, reached 3 [1] calm_answers machine (falling_asleep ++ [EvExit 0]) Stable s.
Proof.
  destruct (histories_complete 3 [1] calm_answers machine always_calm machine_fits) as [_ H]. destruct (H falling_asleep Stable asleep (EvExit 0) asleep_reached) as (s & _ & Hs); [|by exists s].
  destruct asleep_modes as (l & b & m & _ & _ & _ & _ & _ & _ & _ & _ & Ho). split; [rewrite Ho; by left|by right].
Defined.

Lemma almost_alive : alive Stable (view_of almost) 0.
Proof. destruct almost_modes as (l & _ & _ & _ & Ho & _). left. split; [|done]. change (0%nat ∈ s_online almost). rewrite Ho. by left. Qed.

Lemma cluster_entered_iff_witness : wp (exynos_cpupm_enter 0) (fun _ s' => exists m', s_mode_list s' !! 0%nat = Some m' /\ pw_state m' = CPUPM_STATE_IDLE) almost.
Proof.
  destruct almost_modes as (l & Hm & Hj & Hb & Ho & Hd & Hal & Hsib & Hres & _ & H1 & Hs0 & Hs1 & Hans). assert (Hc : 0%nat ∈ s_online almost) by (rewrite Ho; by left).
  eapply wp_mono; [apply (cluster_entered_iff Stable almost 0 0 l almost_sound Hc almost_alive Hb Hj Hm)|]. intros _ s' (m' & Hm' & Hiff). exists m'. split; [done|]. apply Hiff. split; [done|]. split; [rewrite Hal; by left|]. split; [intros i _; by rewrite Hans|].
  intros c Hc' _. rewrite Hans, Hres. rewrite Hsib in Hc'. apply elem_of_cons in Hc' as [->|Hc']; [split; [by left|]|apply list_elem_of_singleton in Hc' as ->; split; [by right|]]; change (x_time (calm_answers _)) with 1000; [rewrite Hs0|rewrite Hs1]; lia.
Defined.

Lemma ignore_done {A} (m : CM A) s r s1 s2 : m s = Done r s1 -> ignore m s = Done tt s2 -> s1 = s2.
Proof. unfold ignore, kbind. intros ->. by intros [= <-]. Qed.

(** A driver registers an idle-IP, which is busy until it says otherwise. *)
Definition watched : cpupm_state := history [EvRegister "camera"].

Lemma watched_registry : exists s x, s = watched /\ sound Stable s /\ registry s [x] /\ ip_type x = NORMAL_IP /\ ip_idle x = CPUPM_STATE_BUSY /\ s_online s = [0; 1; 2]%nat /\ s_system_disabled s = false.
Proof.
  assert (Hb : sound Stable booted). { destruct (histories_complete 3 [1] calm_answers machine always_calm machine_fits) as [_ _]. apply (reached_sound 3 [1] calm_answers machine [] Stable booted). split; [done|]. split; [apply machine_fits|]. exists booted. split; [apply booted_by_probe|constructor]. }
  assert (Hr : registry booted []) by (exists []; split; [split; [exists 0; split; [by vm_compute|reflexivity]|by vm_compute|by apply NoDup_nil|constructor..]|split; [constructor|]; split; [intros ? ?; by rewrite lookup_nil|reflexivity]]). assert (Hl : legal Stable booted (EvRegister "camera")). { intros xs Hx. rewrite (registry_unique _ _ _ Hx Hr). cbn. lia. }
  assert (E : run_event (EvRegister "camera") booted = Done tt watched) by (by vm_compute). pose proof (wp_done _ _ _ tt watched (wp_event Stable _ booted Hb Hl) E) as Hs.
  assert (Hal : x_alloc (s_answers booted (s_asked booted)) = true) by (by vm_compute). destruct (wp_run _ _ _ (wp_register booted [] "camera" Hr eq_refl Hal)) as (r & s & E' & -> & Hreg & _). change (ignore (exynos_get_idle_ip_index "camera") booted = Done tt watched) in E. pose proof (ignore_done _ _ _ _ _ E' E) as Es.
  clear E E'. subst s. cbn [app] in Hreg. eexists watched, _. split; [reflexivity|]. split; [exact Hs|]. split; [exact Hreg|]. split; [reflexivity|]. split; [reflexivity|]. split; by vm_compute.
Qed.

Lemma idle_ip_vetoes_witness : exists s, s = watched /\ wp (exynos_cpupm_enter 2) (fun _ s' => s_system_disabled s' = false) s.
Proof.
  destruct watched_registry as (s & x & E & Hs & Hreg & Ht & Hi & Ho & Hsys). exists s. split; [exact E|]. clear E. assert (Hc : 2%nat ∈ s_online s) by (rewrite Ho; by right; right; left). rewrite <- Hsys.
  apply (idle_ip_vetoes Stable s 2 [x] x Hs Hc); [left; by split|exact Hreg|by left|exact Ht|exact Hi].
Defined.

Lemma disable_leaves_mode_witness : wp (disable_power_mode 0 POWERMODE_TYPE_CLUSTER) (fun _ s' => exists m', s_mode_list s' !! 0%nat = Some m' /\ pw_disable m' = 1) almost.
Proof.
  destruct almost_modes as (l & Hm & Hj & _ & _ & Hd & Hal & _). eapply wp_mono; [apply (disable_leaves_mode Stable almost 0 POWERMODE_TYPE_CLUSTER 0 l almost_sound); [by left|done|done|by rewrite Hal|rewrite Hd; lia]|].
  intros _ s' (_ & m' & Hm' & Hd' & _). exists m'. split; [done|]. by rewrite Hd', Hd.
Defined.

(** ** Cases the driver does not handle *)

(** One structure is linked once per name: a second external idle-IP makes the list a loop that no walk leaves. *)
Lemma second_extern_loops : finishes (extern_idle_ip_init (Some ["a"; "b"]%string)) (fresh 3 [1] calm_answers) = true /\
  hangs ip_busy (ends_in (extern_idle_ip_init (Some ["a"; "b"]%string)) (fresh 3 [1] calm_answers)) = true.
Proof. by vm_compute. Qed.

(** [find_ip] gives the head for an index that nobody has, not [NULL]: the update is written outside the list. *)
Lemma unknown_index_written : stops (exynos_update_ip_idle_status 5 1) asleep = true.
Proof. by vm_compute. Qed.

(** After [CPU_PM_ENTER_FAILED] the cpu runs on, but it is idle for the driver, and its cluster stays down. *)
Lemma enter_failed_forgotten : let s := ends_in (exynos_cpu_pm_notify_callback 0 CPU_PM_ENTER_FAILED) (history (take 5 falling_asleep)) in
  pm_state (pm_of s 0) = CPUPM_STATE_IDLE /\ (pw_state <$> s_mode_list s !! 0%nat) = Some CPUPM_STATE_IDLE /\ cpu_off 0 (omap power_call (s_log s)) = true.
Proof. by vm_compute. Qed.

(** A cpu that comes up in a cluster which is down, all its other cpus idle: it runs in an entered mode, and the cluster stays switched off. *)
Lemma comes_up_in_entered_mode : let s := history (take 3 falling_asleep ++ [EvDown 1; EvGone 1; EvEnter 0; EvUp 1; EvCome 1]) in
  pm_state (pm_of s 1) = CPUPM_STATE_BUSY /\ (pw_state <$> s_mode_list s !! 0%nat) = Some CPUPM_STATE_IDLE /\ cluster_off 7 (omap power_call (s_log s)) = true.
Proof. by vm_compute. Qed.

(** While the system suspends, a cpu that goes down may still pass through idle: [CPU_PM_EXIT] switches it on again. *)
Lemma suspend_switches_on : let down := history [EvSuspend; EvDown 2] in let s := ends_in (kiter run_event [EvEnter 2; EvExit 2]) down in
  cpu_off 2 (omap power_call (s_log down)) = true /\ cpu_off 2 (omap power_call (s_log s)) = false /\ pm_hotplug_ing (pm_of s 2) = true.
Proof. by vm_compute. Qed.

(** A mode that is enabled more often than disabled is never entered, and its file says it is enabled. *)
Lemma enabled_once_too_often : let s := ends_in (kiter run_event (EvEnable 0 0 :: take 5 falling_asleep)) booted in
  (pw_disable <$> s_mode_list s !! 0%nat) = Some (-1) /\ (pw_state <$> s_mode_list s !! 0%nat) = Some CPUPM_STATE_BUSY /\ power_mode_show 0 s = Done "enabled"%string s.
Proof. split; [by vm_compute|]. split; [by vm_compute|]. by vm_compute. Qed.

(** The wake-up masks are freed when a part of them is missing, and used all the same. *)
Definition masks_missing : cpupm_tree := MkTree None [Some 1; Some 1; Some 1] [little; big; sicd] (Some (Some [MkWm 0x10 0x14 0xff], None)).
Lemma freed_masks_used : let s := ends_in (exynos_cpupm_probe masks_missing) (fresh 3 [1] calm_answers) in
  finishes (exynos_cpupm_probe masks_missing) (fresh 3 [1] calm_answers) = true /\ stops (kiter run_event falling_asleep) s = true.
Proof. by vm_compute. Qed.

(** The offsets of the external interrupts are as many as the tree has, the masks written to them an array of another driver. *)
Definition offsets_many : cpupm_tree := MkTree None [Some 1; Some 1; Some 1] [little; big; sicd] (Some (Some [], Some [0x20; 0x24])).
Lemma eint_masks_overrun : let s := ends_in (exynos_cpupm_probe offsets_many) (fresh 3 [1] calm_answers) in stops (kiter run_event falling_asleep) s = true.
Proof. by vm_compute. Qed.

(** The target residency bounds the sleep from below: with a timer nearer than it, the cluster stays up. *)
Lemma near_timer_refused : let s := history [EvIdleEnter 0 1 1000; EvIdleEnter 1 1 1000; EvEnter 1; EvEnter 0] in (pw_state <$> s_mode_list s !! 0%nat) = Some CPUPM_STATE_BUSY.
Proof. by vm_compute. Qed.
