(* ===== verification/Cpuhp.v ===== *)
(** * CPU hotplug on request

    [drivers/soc/google/exynos-cpuhp.c]: users ask for the cpus they allow online,
    and the driver takes the other cpus down and brings the cpus that all users
    allow up, the first one always among them. Bringing cpus up and down is the
    kernel's. *)

From Stdlib Require Import Ascii.
From S2P Require Import Prelude.

(** ** Data *)

Abbreviation cpuset := (gset nat).
Definition CPUHP_USER_NAME_LEN : nat := 16.
Record cpuhp_user := MkUser { u_name : string; u_online_cpus : cpuset }.
#[export] Instance eta_user : Eta cpuhp_user := mk_eta (fun u => MkUser (u_name u) (u_online_cpus u)).

(** ** The kernel

    [cpu_online_mask], [add_cpu] and [remove_cpu], on a state of the kernel; a cpu
    that is there already, or gone, gives 1, and other numbers are errors. *)
Class Hotplug (K : Type) := { online : K -> cpuset; add_cpu : nat -> K -> Z * K; remove_cpu : nat -> K -> Z * K }.
Class HotplugLaws (K : Type) (H : Hotplug K) : Prop := {
  add_cpu_law c k r k' : add_cpu c k = (r, k') -> (r = 0 /\ (c ∉ online k) /\ online k' = {[c]} ∪ online k) \/ (r = 1 /\ c ∈ online k /\ k' = k) \/ (r < 0 /\ online k' = online k);
  remove_cpu_law c k r k' : remove_cpu c k = (r, k') -> (r = 0 /\ c ∈ online k /\ online k' = online k ∖ {[c]}) \/ (r = 1 /\ (c ∉ online k) /\ k' = k) \/ (r < 0 /\ online k' = online k) }.

(** The list of users is no list before [INIT_LIST_HEAD]. *)
Record cpuhp (K : Type) := MkCpuhp {
  cp_enabled : bool; cp_suspended : bool; cp_users : option (list cpuhp_user); cp_sysfs_user_mask : cpuset; cp_lock : bool; cp_online_cpus : cpuset; cp_kernel : K }.
Arguments MkCpuhp {K}.
Arguments cp_enabled {K} _.
Arguments cp_suspended {K} _.
Arguments cp_users {K} _.
Arguments cp_sysfs_user_mask {K} _.
Arguments cp_lock {K} _.
Arguments cp_online_cpus {K} _.
Arguments cp_kernel {K} _.
#[export] Instance eta_cpuhp {K} : Eta (cpuhp K) := mk_eta (fun s => MkCpuhp (cp_enabled s) (cp_suspended s) (cp_users s) (cp_sysfs_user_mask s) (cp_lock s) (cp_online_cpus s) (cp_kernel s)).
Definition cp_cpus {K} {H : Hotplug K} (s : cpuhp K) : cpuset := online (cp_kernel s).

Section Driver.
Context {K : Type} {H : Hotplug K} (nr_cpu_ids : nat).
#[local] Abbreviation HM A := (M (cpuhp K) A).
(** [cpumask_parse], which leaves the mask unset when it fails. *)
Context (cpumask_parse : string -> option cpuset).

Definition cpu_possible_mask : cpuset := list_to_set (seq 0 nr_cpu_ids).
(** [for_each_cpu]. *)
Definition cpus_of (mask : cpuset) : list nat := filter (fun c => c ∈ mask) (seq 0 nr_cpu_ids).

(** ** The lock *)

Definition mutex_lock : HM unit := fun s => if cp_lock s then Blocked else Done tt (s <| cp_lock := true |>).
Definition mutex_unlock : HM unit := kmod (fun s => s <| cp_lock := false |>).
Definition hotplug_call (f : K -> Z * K) : HM Z := fun s => let '(r, k) := f (cp_kernel s) in Done r (s <| cp_kernel := k |>).

(** ** Users *)

Definition cpuhp_suspend (enable : bool) : HM unit := do! mutex_lock in do! kmod (fun s => s <| cp_suspended := enable |>) in mutex_unlock.
Definition cpuhp_enable (enable : bool) : HM unit := do! mutex_lock in do! kmod (fun s => s <| cp_enabled := enable |>) in mutex_unlock.

(** The place of the user with a name. *)
Fixpoint find_user (name : string) (users : list cpuhp_user) : option nat :=
  match users with
  | [] => None
  | u :: users' => if bool_decide (u_name u = name) then Some 0%nat else S <$> find_user name users'
  end.
Definition get_users : HM (list cpuhp_user) := fun s => match cp_users s with Some l => Done l s | None => Fault end.
Definition cpuhp_find_user (name : string) : HM (option nat) := let! users := get_users in kret (find_user name users).

Definition mod_user (i : nat) (f : cpuhp_user -> cpuhp_user) : HM unit := kmod (fun s => s <| cp_users := alter f i <$> cp_users s |>).
Definition cpuhp_update_user (name : string) (mask : cpuset) : HM Z :=
  let! user := cpuhp_find_user name in
  match user with
  | None => kret (- EINVAL)
  | Some i => do! mod_user i (fun u => u <| u_online_cpus := mask |>) in kret 0
  end.

(** ** Cpus up and down *)

Fixpoint hotplug_loop (f : nat -> K -> Z * K) (cpus : list nat) (ret : Z) : HM Z :=
  match cpus with
  | [] => kret ret
  | cpu :: cpus' =>
      let! ret := hotplug_call (f cpu) in
      if negb (ret =? 0) && negb (ret =? 1) then kret ret else hotplug_loop f cpus' ret
  end.
Definition cpuhp_in (mask : cpuset) : HM Z := hotplug_loop add_cpu (cpus_of mask) 0.
(** From the last cpu to the second. *)
Definition cpuhp_out (mask : cpuset) : HM Z := hotplug_loop remove_cpu (filter (fun c => c ∈ mask) (reverse (seq 1 (nr_cpu_ids - 1)))) 0.

(** A mask without the first cpu is a panic. *)
Definition wanted (users : list cpuhp_user) : cpuset := foldl (fun mask u => mask ∩ u_online_cpus u) cpu_possible_mask users.
Definition cpuhp_get_req_online_cpus : HM cpuset :=
  let! users := get_users in
  let mask := wanted users in
  if bool_decide (mask = ∅) || negb (bool_decide (0%nat ∈ mask)) then kfault else kret mask.

Definition cpuhp_cpu_up (enable_cpus : cpuset) : HM Z := if bool_decide (enable_cpus = ∅) then kret 0 else cpuhp_in enable_cpus.
Definition cpuhp_cpu_down (disable_cpus : cpuset) : HM Z := if bool_decide (disable_cpus = ∅) then kret 0 else cpuhp_out disable_cpus.

Definition resync : HM unit := kmod (fun s => s <| cp_online_cpus := cp_cpus s |>).
Definition change_cpus (req_online_cpus : cpuset) : HM Z :=
  let! s := kget in
  if bool_decide (cp_online_cpus s = req_online_cpus) then kret 0
  else
    let enable_cpus := req_online_cpus ∖ cp_online_cpus s in
    let disable_cpus := cp_online_cpus s ∖ req_online_cpus in
    let! ret := (if bool_decide (enable_cpus = ∅) then kret 0 else cpuhp_cpu_up enable_cpus) in
    if negb (ret =? 0) then do! resync in kret ret
    else
      let! ret := (if bool_decide (disable_cpus = ∅) then kret 0 else cpuhp_cpu_down disable_cpus) in
      if negb (ret =? 0) then do! resync in kret ret
      else do! kmod (fun s => s <| cp_online_cpus := req_online_cpus |>) in kret 0.
Definition cpuhp_do : HM Z :=
  do! mutex_lock in
  let! s := kget in
  if negb (cp_enabled s) || cp_suspended s then do! mutex_unlock in kret 0
  else
    let! req_online_cpus := cpuhp_get_req_online_cpus in
    let! ret := change_cpus req_online_cpus in
    do! mutex_unlock in kret ret.

(** Masks are sets of the [nr_cpumask_bits] bits; those past [nr_cpu_ids] are not walked. *)
Definition cpuhp_control (enable : bool) : HM Z :=
  if enable then do! cpuhp_enable true in do! cpuhp_do in kret 0
  else
    do! mutex_lock in
    let! s := kget in
    let! ret := cpuhp_in (cpu_possible_mask ∖ cp_cpus s) in
    do! (if ret =? 0 then kmod (fun s => s <| cp_enabled := false |>) else kret tt) in
    do! mutex_unlock in kret ret.

(** ** What others call *)

Definition exynos_cpuhp_unregister (name : string) (mask : cpuset) : HM Z := kret 0.

(** A name that is taken is a panic, a longer one is written past its array. *)
Definition exynos_cpuhp_register (alloc : bool) (name : string) (mask : cpuset) : HM Z :=
  do! mutex_lock in
  let! user := cpuhp_find_user name in
  match user with
  | Some _ => kfault
  | None =>
      if negb alloc then do! mutex_unlock in kret (- ENOMEM)
      else if (CPUHP_USER_NAME_LEN <=? String.length name)%nat then kfault
      else
        do! kmod (fun s => s <| cp_users := cons (MkUser name mask) <$> cp_users s |>) in
        do! mutex_unlock in
        cpuhp_do
  end.

Definition exynos_cpuhp_request (name : string) (mask : cpuset) : HM Z :=
  let! r := cpuhp_update_user name mask in
  if negb (r =? 0) then kret 0 else cpuhp_do.

(** ** The files *)

Fixpoint word (s : string) : string := match s with String c s' => if is_space c then EmptyString else String c (word s') | EmptyString => EmptyString end.
(** [sscanf(buf, "%s", str)]: nothing is read from an empty buffer only. *)
Definition sscanf_s (buf : string) : option string := match buf with EmptyString => None | _ => Some (word (skip_spaces buf)) end.

(** A mask in hexadecimal, with or without its [0x]. *)
Definition digits_of (str : string) : string := match str with String "0"%char (String "x"%char rest) => rest | _ => str end.

Definition STR_LEN : nat := 6.
Definition set_online_cpu_store (buf : string) (count : Z) : HM Z :=
  if (STR_LEN <=? String.length buf)%nat then kret (- EINVAL)
  else match sscanf_s buf with
       | None => kret (- EINVAL)
       | Some str =>
           match cpumask_parse (digits_of str) with
           | None => kfault
           | Some online_cpus =>
               if negb (bool_decide (0%nat ∈ online_cpus)) then kret (- EINVAL)
               else
                 do! kmod (fun s => s <| cp_sysfs_user_mask := online_cpus |>) in
                 do! exynos_cpuhp_request "SYSFS" online_cpus in
                 kret count
           end
       end.

(** The input as [kstrtoint] has read it. *)
Definition enabled_store (input : option Z) (count : Z) : HM Z :=
  match input with None => kret (- EINVAL) | Some input => do! cpuhp_control (negb (input =? 0)) in kret count end.

(** ** Suspend and set-up *)

Inductive pm_event := PM_SUSPEND_PREPARE | PM_POST_SUSPEND | PM_OTHER.
Definition exynos_cpuhp_pm_notifier (e : pm_event) : HM Z :=
  match e with
  | PM_SUSPEND_PREPARE => do! cpuhp_suspend true in kret 1
  | PM_POST_SUSPEND => do! cpuhp_suspend false in do! cpuhp_do in kret 1
  | PM_OTHER => kret 1
  end.

Definition exynos_cpuhp_probe (alloc : bool) : HM Z :=
  do! kmod (fun s => s <| cp_online_cpus := cp_cpus s |> <| cp_users := Some [] |> <| cp_sysfs_user_mask := cpu_possible_mask |>) in
  do! exynos_cpuhp_register alloc "SYSFS" cpu_possible_mask in
  do! cpuhp_enable true in
  kret 0.
End Driver.

(** Before the probe the memory is zero. *)
Definition cpuhp_zero {K} (k : K) : cpuhp K := MkCpuhp false false None ∅ false ∅ k.
