(* ===== verification/CpuhpSpec.v ===== *)
(** * Requests for hotplug are served

    The driver's own mask holds only cpus that are online; as long as it has not
    been switched off the mask is the cpus online, whatever fails, and when nothing
    fails the cpus online are those that every user allows. *)

From S2P Require Import Prelude Cpuhp.

Section Spec.
Context {K : Type} {H : Hotplug K} {HL : HotplugLaws K H} (n : nat) (parse : string -> option cpuset).
Implicit Types (s : cpuhp K) (us : list cpuhp_user).

(** ** Masks *)

Lemma elem_possible c : c ∈ cpu_possible_mask n <-> (c < n)%nat.
Proof. unfold cpu_possible_mask. rewrite elem_of_list_to_set, elem_of_seq. lia. Qed.

Lemma elem_wanted us c : c ∈ wanted n us <-> (c < n)%nat /\ forall u, u ∈ us -> c ∈ u_online_cpus u.
Proof.
  unfold wanted. rewrite <- elem_possible. generalize (cpu_possible_mask n) as m. induction us as [|u us IH]; intros m; cbn [foldl].
  - split; [intros Hc; split; [done|]; by intros u ?%not_elem_of_nil|tauto].
  - rewrite IH, elem_of_intersection. split.
    + intros [[Hm Hu] Hus]. split; [done|]. intros v [->|Hv]%elem_of_cons; [done|by apply Hus].
    + intros [Hm Hus]. split; [split; [done|apply Hus; by left]|]. intros v Hv. apply Hus. by right.
Qed.

Lemma elem_cpus_of mask c : c ∈ cpus_of n mask <-> c ∈ mask /\ (c < n)%nat.
Proof. unfold cpus_of. rewrite list_elem_of_filter, elem_of_seq. naive_solver lia. Qed.

(** ** Cpus up and down *)

(** No call fails in a kernel state with [P], which lasts. *)
Record reliable (P : K -> Prop) : Prop := {
  rl_add : forall c k r k', P k -> (c < n)%nat -> add_cpu c k = (r, k') -> 0 <= r /\ P k';
  rl_remove : forall c k r k', P k -> (0 < c < n)%nat -> remove_cpu c k = (r, k') -> 0 <= r /\ P k' }.

(** Only what the kernel owns changes. *)
Definition hotplugged s s' : Prop := exists k, s' = s <| cp_kernel := k |>.

(** Where no call fails, this one has not, and none will. *)
Definition dependable s (r : Z) s' : Prop := forall P, reliable P -> P (cp_kernel s) -> r = 0 /\ P (cp_kernel s').
Definition lasting s s' : Prop := forall P, reliable P -> P (cp_kernel s) -> P (cp_kernel s').

Lemma hotplugged_refl s : hotplugged s s.
Proof. exists (cp_kernel s). by destruct s. Qed.
Lemma hotplugged_then s1 s2 s3 : hotplugged s1 s2 -> hotplugged s2 s3 -> hotplugged s1 s3.
Proof. intros (k & ->) (k' & ->). by exists k'. Qed.

Lemma wp_hotplug_call f (Q : Z -> cpuhp K -> Prop) s : (forall r k, f (cp_kernel s) = (r, k) -> Q r (s <| cp_kernel := k |>)) -> wp (hotplug_call f) Q s.
Proof. intros HQ. unfold wp, hotplug_call. destruct (f _) as [r k] eqn:E. by apply HQ. Qed.

Lemma wp_up cs : forall s, NoDup cs -> (forall c, c ∈ cs -> (c ∉ cp_cpus s) /\ (c < n)%nat) -> wp (hotplug_loop add_cpu cs 0) (fun r s' => hotplugged s s' /\ cp_cpus s ⊆ cp_cpus s' /\ cp_cpus s' ⊆ list_to_set cs ∪ cp_cpus s /\
  r <= 0 /\ (r = 0 -> cp_cpus s' = list_to_set cs ∪ cp_cpus s) /\ dependable s r s') s.
Proof.
  induction cs as [|c cs IH]; intros s Hnd Hoff; cbn [hotplug_loop].
  { apply wp_ret. split; [apply hotplugged_refl|]. split_and!; [done|set_solver|lia|set_solver|done]. }
  apply NoDup_cons in Hnd as [Hc Hnd]. apply wp_bind, wp_hotplug_call. intros r k E. set (s1 := s <| cp_kernel := k |>). assert (M : hotplugged s s1) by (by exists k).
  destruct (Hoff c ltac:(by left)) as [Hcoff Hcn]. assert (Hr : forall P, reliable P -> P (cp_kernel s) -> 0 <= r /\ P k) by (intros P [R _] HP; by eapply R).
  destruct (add_cpu_law _ _ _ _ E) as [(-> & _ & Eon)|[(_ & Hin & _)|[Hneg Eon]]]; [|done|].
  - cbn [Z.eqb negb andb]. eapply wp_mono; [apply IH; [done|]|].
    + intros c' Hc'. unfold cp_cpus in *. cbn. rewrite Eon. destruct (Hoff c' ltac:(by right)) as [? ?]. split; [|done]. assert (c' <> c) by (by intros ->). set_solver.
    + intros r s' (M' & Hsub & Hsup & Hle & Heq & Hrel). unfold cp_cpus in *. cbn in Hsub, Hsup, Heq. rewrite Eon in Hsub, Hsup, Heq. split; [exact (hotplugged_then _ _ _ M M')|]. cbn [list_to_set foldr]. split_and!; [set_solver|set_solver|done|intros E0; rewrite (Heq E0); set_solver|].
      intros P R HP. apply (Hrel P R). exact (proj2 (Hr P R HP)).
  - rewrite (proj2 (Z.eqb_neq r 0)), (proj2 (Z.eqb_neq r 1)) by lia. cbn [negb andb]. apply wp_ret. split; [done|]. unfold cp_cpus. cbn. rewrite Eon. split_and!; [done|set_solver|lia|lia|]. intros P R HP. destruct (Hr P R HP). lia.
Qed.

(** Cpus that are up already are no obstacle to the loop. *)
Lemma wp_up_any cs : forall s r0, (forall c, c ∈ cs -> (c < n)%nat) -> r0 = 0 \/ r0 = 1 -> wp (hotplug_loop add_cpu cs r0) (fun r s' => hotplugged s s' /\ cp_cpus s ⊆ cp_cpus s' /\ cp_cpus s' ⊆ list_to_set cs ∪ cp_cpus s /\
  (r = 0 -> cp_cpus s' = list_to_set cs ∪ cp_cpus s) /\ lasting s s') s.
Proof.
  induction cs as [|c cs IH]; intros s r0 Hn Hr0; cbn [hotplug_loop].
  { apply wp_ret. split; [apply hotplugged_refl|]. split_and!; [done|set_solver|set_solver|by intros P ? ?]. }
  apply wp_bind, wp_hotplug_call. intros r k E. set (s1 := s <| cp_kernel := k |>). assert (M : hotplugged s s1) by (by exists k). pose proof (Hn c ltac:(by left)) as Hcn.
  assert (Hla : lasting s s1) by (intros P [R _] HP; exact (proj2 (R _ _ _ _ HP Hcn E))).
  assert (Hcpus : cp_cpus s ⊆ cp_cpus s1 /\ cp_cpus s1 ⊆ {[c]} ∪ cp_cpus s /\ (r = 0 \/ r = 1 -> c ∈ cp_cpus s1)).
  { unfold cp_cpus. cbn. destruct (add_cpu_law _ _ _ _ E) as [(-> & _ & ->)|[(-> & Hin & ->)|[Hneg ->]]]; split_and!; try set_solver. lia. }
  destruct Hcpus as (H1 & H2 & H3). destruct (negb (r =? 0) && negb (r =? 1)) eqn:Er.
  - apply wp_ret. split; [done|]. split_and!; [done|set_solver|intros ->; done|done].
  - eapply wp_mono; [apply (IH s1 r); [intros c' Hc'; apply Hn; by right|lia]|]. intros r' s' (M' & S1 & S2 & S3 & L). specialize (H3 ltac:(lia)). split; [exact (hotplugged_then _ _ _ M M')|]. cbn [list_to_set foldr].
    split_and!; [set_solver|set_solver|intros E0; rewrite (S3 E0); set_solver|]. intros P R HP. exact (L P R (Hla P R HP)).
Qed.

Lemma wp_down cs : forall s, NoDup cs -> (forall c, c ∈ cs -> c ∈ cp_cpus s /\ (0 < c < n)%nat) -> wp (hotplug_loop remove_cpu cs 0) (fun r s' => hotplugged s s' /\ cp_cpus s' ⊆ cp_cpus s /\ cp_cpus s ∖ list_to_set cs ⊆ cp_cpus s' /\
  r <= 0 /\ (r = 0 -> cp_cpus s' = cp_cpus s ∖ list_to_set cs) /\ dependable s r s') s.
Proof.
  induction cs as [|c cs IH]; intros s Hnd Hon; cbn [hotplug_loop].
  { apply wp_ret. split; [apply hotplugged_refl|]. split_and!; [done|set_solver|lia|set_solver|done]. }
  apply NoDup_cons in Hnd as [Hc Hnd]. apply wp_bind, wp_hotplug_call. intros r k E. set (s1 := s <| cp_kernel := k |>). assert (M : hotplugged s s1) by (by exists k).
  destruct (Hon c ltac:(by left)) as [Hcon Hcn]. assert (Hr : forall P, reliable P -> P (cp_kernel s) -> 0 <= r /\ P k) by (intros P [_ R] HP; by eapply R).
  destruct (remove_cpu_law _ _ _ _ E) as [(-> & _ & Eon)|[(_ & Hin & _)|[Hneg Eon]]]; [|done|].
  - cbn [Z.eqb negb andb]. eapply wp_mono; [apply IH; [done|]|].
    + intros c' Hc'. unfold cp_cpus in *. cbn. rewrite Eon. destruct (Hon c' ltac:(by right)) as [? ?]. split; [|done]. assert (c' <> c) by (by intros ->). set_solver.
    + intros r s' (M' & Hsub & Hsup & Hle & Heq & Hrel). unfold cp_cpus in *. cbn in Hsub, Hsup, Heq. rewrite Eon in Hsub, Hsup, Heq. split; [exact (hotplugged_then _ _ _ M M')|]. cbn [list_to_set foldr]. split_and!; [set_solver|set_solver|done|intros E0; rewrite (Heq E0); set_solver|].
      intros P R HP. apply (Hrel P R). exact (proj2 (Hr P R HP)).
  - rewrite (proj2 (Z.eqb_neq r 0)), (proj2 (Z.eqb_neq r 1)) by lia. cbn [negb andb]. apply wp_ret. split; [done|]. unfold cp_cpus. cbn. rewrite Eon. split_and!; [done|set_solver|lia|lia|]. intros P R HP. destruct (Hr P R HP). lia.
Qed.

Lemma cpus_of_nodup mask : NoDup (cpus_of n mask).
Proof. apply NoDup_filter, NoDup_seq. Qed.
Lemma cpus_of_set mask : mask ⊆ cpu_possible_mask n -> list_to_set (cpus_of n mask) = mask.
Proof. intros Hm. apply set_eq. intros c. rewrite elem_of_list_to_set, elem_cpus_of. split; [tauto|]. intros Hc. split; [done|]. by apply elem_possible, Hm. Qed.

(** The walk down covers a mask without the first cpu. *)
Definition down_list (mask : cpuset) : list nat := filter (fun c => c ∈ mask) (reverse (seq 1 (n - 1))).
Lemma down_nodup mask : NoDup (down_list mask).
Proof. apply NoDup_filter. rewrite reverse_Permutation. apply NoDup_seq. Qed.
Lemma down_set mask : mask ⊆ cpu_possible_mask n -> 0%nat ∉ mask -> list_to_set (down_list mask) = mask.
Proof.
  intros Hm H0. apply set_eq. intros c. rewrite elem_of_list_to_set. unfold down_list. rewrite list_elem_of_filter, elem_of_reverse, elem_of_seq. split; [tauto|]. intros Hc. split; [done|]. pose proof (proj1 (elem_possible c) (Hm c Hc)). destruct c; [done|lia].
Qed.

(** ** One change *)

(** The driver's mask holds only cpus online; the first cpu is one of them. *)
Record in_step us s : Prop := {
  is_users : cp_users s = Some us;
  is_names : NoDup (u_name <$> us);
  is_lock : cp_lock s = false;
  is_cached : cp_online_cpus s ⊆ cp_cpus s;
  is_cpus : cp_cpus s ⊆ cpu_possible_mask n;
  is_boot : 0%nat ∈ cp_cpus s;
  is_wanted : 0%nat ∈ wanted n us }.

(** The mask is exactly the cpus online. *)
Definition mask_exact s : Prop := cp_online_cpus s = cp_cpus s.

Definition same_users s s' : Prop := cp_users s' = cp_users s /\ cp_enabled s' = cp_enabled s /\ cp_suspended s' = cp_suspended s /\ cp_sysfs_user_mask s' = cp_sysfs_user_mask s /\ cp_lock s' = cp_lock s.

(** What a change of the cpus online to the ones required does. *)
Definition changed (req : cpuset) s (r : Z) s' : Prop :=
  same_users s s' /\ cp_online_cpus s' = cp_cpus s' /\ cp_cpus s ∩ req ⊆ cp_cpus s' /\ cp_cpus s' ⊆ cp_cpus s ∪ req /\ r <= 0 /\ (r = 0 -> cp_cpus s' = req) /\ dependable s r s'.

(** What it does whatever the mask. *)
Definition kept (req : cpuset) s (r : Z) s' : Prop :=
  same_users s s' /\ cp_online_cpus s' ⊆ cp_cpus s' /\ cp_cpus s ∩ req ⊆ cp_cpus s' /\ cp_cpus s' ⊆ cp_cpus s ∪ req /\ (r <> 0 -> mask_exact s') /\ lasting s s'.

Lemma hotplugged_same s s' : hotplugged s s' -> same_users s s' /\ cp_online_cpus s' = cp_online_cpus s.
Proof. by intros (k & ->). Qed.

Lemma wp_change req s : cp_online_cpus s = cp_cpus s -> cp_cpus s ⊆ cpu_possible_mask n -> req ⊆ cpu_possible_mask n -> 0%nat ∈ req -> wp (change_cpus n req) (changed req s) s.
Proof.
  intros Hc Hp Hreq H0. unfold change_cpus. apply wp_bind, wp_get. rewrite Hc. case_bool_decide as Eq.
  { apply wp_ret. unfold changed. rewrite Hc, <- Eq. split; [done|]. split; [done|]. split_and!; [set_solver|set_solver|lia|done|done]. }
  cbv zeta. apply wp_bind. apply wp_mono with (P := fun r s1 => hotplugged s s1 /\ cp_cpus s ⊆ cp_cpus s1 /\ cp_cpus s1 ⊆ (req ∖ cp_cpus s) ∪ cp_cpus s /\ r <= 0 /\ (r = 0 -> cp_cpus s1 = (req ∖ cp_cpus s) ∪ cp_cpus s) /\ dependable s r s1).
  { case_bool_decide as Ee; [apply wp_ret; rewrite Ee; split; [apply hotplugged_refl|]; split_and!; [done|set_solver|lia|set_solver|done]|]. unfold cpuhp_cpu_up. rewrite bool_decide_eq_false_2 by done. unfold cpuhp_in.
    eapply wp_mono; [apply wp_up; [apply cpus_of_nodup|]|]; [intros c [Hin Hlt]%elem_cpus_of; split; [set_solver|done]|]. intros r s1. rewrite cpus_of_set by set_solver. tauto. }
  intros r s1 (M & S1 & S2 & Hle & Hz & Hrel). destruct (hotplugged_same _ _ M) as (Hsame & Ec). destruct (Z.eqb_spec r 0) as [->|Hr]; cbn [negb].
  - specialize (Hz eq_refl). apply wp_bind. apply wp_mono with (P := fun r s2 => hotplugged s1 s2 /\ cp_cpus s2 ⊆ cp_cpus s1 /\ cp_cpus s1 ∖ (cp_cpus s ∖ req) ⊆ cp_cpus s2 /\ r <= 0 /\ (r = 0 -> cp_cpus s2 = cp_cpus s1 ∖ (cp_cpus s ∖ req)) /\ dependable s1 r s2).
    { case_bool_decide as Ed; [apply wp_ret; rewrite Ed; split; [apply hotplugged_refl|]; split_and!; [done|set_solver|lia|set_solver|done]|]. unfold cpuhp_cpu_down. rewrite bool_decide_eq_false_2 by done. unfold cpuhp_out. fold (down_list (cp_cpus s ∖ req)).
      eapply wp_mono; [apply wp_down; [apply down_nodup|]|]. { intros c Hin. unfold down_list in Hin. rewrite list_elem_of_filter, elem_of_reverse, elem_of_seq in Hin. destruct Hin as [Hin Hlt]. split; [set_solver|lia]. } intros r s2. rewrite down_set by set_solver. tauto. }
    intros r s2 (M2 & T1 & T2 & Hle2 & Hz2 & Hrel2). destruct (hotplugged_same _ _ M2) as (Hsame2 & Ec2). assert (Hs : same_users s s2) by (unfold same_users in *; intuition congruence).
    assert (Hb : cp_cpus s ∩ req ⊆ cp_cpus s2 /\ cp_cpus s2 ⊆ cp_cpus s ∪ req) by set_solver. destruct (Z.eqb_spec r 0) as [->|Hr]; cbn [negb].
    + specialize (Hz2 eq_refl). assert (Ereq : cp_cpus s2 = req). { rewrite Hz2, Hz. apply set_eq. intros c. destruct (decide (c ∈ cp_cpus s)), (decide (c ∈ req)); set_solver. } apply wp_bind, wp_mod, wp_ret. unfold changed. cbn. split; [done|]. split; [done|]. destruct Hb. split_and!; [done|done|done|done|]. intros P R HP. split; [done|]. exact (proj2 (Hrel2 P R (proj2 (Hrel P R HP)))).
    + apply wp_bind, wp_mod, wp_ret. unfold changed. cbn. split; [done|]. split; [done|]. destruct Hb. split_and!; [done|done|done|done|]. intros P R HP. exact (Hrel2 P R (proj2 (Hrel P R HP))).
  - apply wp_bind, wp_mod, wp_ret. unfold changed. cbn. split; [done|]. split; [done|]. split_and!; [set_solver|set_solver|done|done|exact Hrel].
Qed.

Lemma dependable_lasting s r s' : dependable s r s' -> lasting s s'.
Proof. intros Hd P R HP. exact (proj2 (Hd P R HP)). Qed.
Lemma lasting_then s1 s2 s3 : lasting s1 s2 -> lasting s2 s3 -> lasting s1 s3.
Proof. intros H1 H2 P R HP. exact (H2 P R (H1 P R HP)). Qed.

Lemma wp_change_any req s : cp_online_cpus s ⊆ cp_cpus s -> cp_cpus s ⊆ cpu_possible_mask n -> req ⊆ cpu_possible_mask n -> 0%nat ∈ req -> wp (change_cpus n req) (kept req s) s.
Proof.
  intros Hc Hp Hreq H0. unfold change_cpus. apply wp_bind, wp_get. case_bool_decide as Eq.
  { apply wp_ret. unfold kept. split; [done|]. split_and!; [done|set_solver|set_solver|done|by intros P ? ?]. }
  cbv zeta. apply wp_bind. set (m := cp_online_cpus s) in *.
  apply wp_mono with (P := fun r s1 => hotplugged s s1 /\ cp_cpus s ⊆ cp_cpus s1 /\ cp_cpus s1 ⊆ (req ∖ m) ∪ cp_cpus s /\ (r = 0 -> cp_cpus s1 = (req ∖ m) ∪ cp_cpus s) /\ lasting s s1).
  { case_bool_decide as Ee; [apply wp_ret; rewrite Ee; split; [apply hotplugged_refl|]; split_and!; [done|set_solver|set_solver|by intros P ? ?]|]. unfold cpuhp_cpu_up. rewrite bool_decide_eq_false_2 by done. unfold cpuhp_in.
    eapply wp_mono; [apply wp_up_any; [|by left]|]; [by intros c [_ Hlt]%elem_cpus_of|]. intros r s1. rewrite cpus_of_set by set_solver. tauto. }
  intros r s1 (M & S1 & S2 & Hz & L1). destruct (hotplugged_same _ _ M) as (Hsame & Ec). destruct (Z.eqb_spec r 0) as [->|Hr]; cbn [negb].
  2: { apply wp_bind, wp_mod, wp_ret. unfold kept, mask_exact. cbn. split; [done|]. split_and!; [done|set_solver|set_solver|done|exact L1]. }
  specialize (Hz eq_refl). apply wp_bind. apply wp_mono with (P := fun r s2 => hotplugged s1 s2 /\ cp_cpus s2 ⊆ cp_cpus s1 /\ cp_cpus s1 ∖ (m ∖ req) ⊆ cp_cpus s2 /\ lasting s1 s2).
  { case_bool_decide as Ed; [apply wp_ret; rewrite Ed; split; [apply hotplugged_refl|]; split_and!; [done|set_solver|by intros P ? ?]|]. unfold cpuhp_cpu_down. rewrite bool_decide_eq_false_2 by done. unfold cpuhp_out. fold (down_list (m ∖ req)).
    eapply wp_mono; [apply wp_down; [apply down_nodup|]|]. { intros c Hin. unfold down_list in Hin. rewrite list_elem_of_filter, elem_of_reverse, elem_of_seq in Hin. destruct Hin as [Hin Hlt]. split; [set_solver|lia]. }
    intros r s2 (M2 & T1 & T2 & _ & _ & D). rewrite down_set in T2 by set_solver. split_and!; [done..|by eapply dependable_lasting]. }
  intros r s2 (M2 & T1 & T2 & L2). destruct (hotplugged_same _ _ M2) as (Hsame2 & Ec2). assert (Hs : same_users s s2) by (unfold same_users in *; intuition congruence). pose proof (lasting_then _ _ _ L1 L2) as L.
  assert (Hin : req ⊆ cp_cpus s2). { intros c Hcr. apply T2. rewrite Hz. destruct (decide (c ∈ m)); set_solver. }
  destruct (Z.eqb_spec r 0) as [->|Hr]; cbn [negb]; apply wp_bind, wp_mod, wp_ret; unfold kept, mask_exact; cbn; (split; [done|]).
  - split_and!; [done|set_solver|set_solver|done|exact L].
  - split_and!; [done|set_solver|set_solver|done|exact L].
Qed.

Lemma wp_change_both req s : cp_online_cpus s ⊆ cp_cpus s -> cp_cpus s ⊆ cpu_possible_mask n -> req ⊆ cpu_possible_mask n -> 0%nat ∈ req -> wp (change_cpus n req) (fun r s' => kept req s r s' /\ (mask_exact s -> changed req s r s')) s.
Proof.
  intros Hc Hp Hreq H0. apply wp_conj; [by apply wp_change_any|]. destruct (decide (cp_online_cpus s = cp_cpus s)) as [E|E].
  - eapply wp_mono; [by apply wp_change|]. done.
  - eapply wp_mono; [by apply wp_change_any|]. by intros r s' _ E'.
Qed.

Definition active s : bool := cp_enabled s && negb (cp_suspended s).

(** [cpuhp_do]: nothing while it is off, otherwise a change to what is wanted. *)
Lemma wp_do us s : in_step us s -> wp (cpuhp_do n) (fun r s' => in_step us s' /\ same_users s s' /\ if active s then kept (wanted n us) s r s' /\ (mask_exact s -> changed (wanted n us) s r s') else r = 0 /\ s' = s) s.
Proof.
  intros Hin. pose proof Hin as [I1 I2 I3 I4 I5 I6 I7]. unfold cpuhp_do. apply wp_bind. eapply wp_eq; [unfold mutex_lock; by rewrite I3|]. apply wp_bind, wp_get. unfold active.
  change (negb (cp_enabled (s <| cp_lock := true |>)) || cp_suspended (s <| cp_lock := true |>)) with (negb (cp_enabled s) || cp_suspended s). assert (E : s <| cp_lock := true |> <| cp_lock := false |> = s) by (clear - I3; destruct s; cbn in *; by subst).
  destruct (negb (cp_enabled s) || cp_suspended s) eqn:Ea.
  { apply wp_bind, wp_mod, wp_ret. rewrite E. replace (cp_enabled s && negb (cp_suspended s)) with false by (by destruct (cp_enabled s), (cp_suspended s)). done. }
  replace (cp_enabled s && negb (cp_suspended s)) with true by (by destruct (cp_enabled s), (cp_suspended s)).
  apply wp_bind. unfold cpuhp_get_req_online_cpus. apply wp_bind. apply (wp_eq _ _ _ us (s <| cp_lock := true |>)); [unfold get_users; cbn; by rewrite I1|]. cbv zeta. rewrite (bool_decide_eq_true_2 (0%nat ∈ _)) by done. rewrite bool_decide_eq_false_2 by set_solver. apply wp_ret.
  apply wp_bind. eapply wp_mono; [apply (wp_change_both (wanted n us) (s <| cp_lock := true |>)); [done|done| |done]|]. { intros c [Hc _]%elem_wanted. by apply elem_possible. }
  intros r s' (((U1 & U2 & U3 & U4 & U5) & C1 & C2 & C3 & C4 & C5) & Hch). apply wp_bind, wp_mod, wp_ret. cbn in *. assert (Hsame : same_users s (s' <| cp_lock := false |>)) by (unfold same_users; cbn; by rewrite U1, U2, U3, U4, I3). split; [|split; [done|]].
  - split; cbn; [congruence|done|done|done| |set_solver|done]. intros c Hc. apply C3 in Hc as [Hc|Hc]%elem_of_union; [by apply I5|]. apply elem_wanted in Hc as [Hc _]. by apply elem_possible.
  - split; [by split|]. intros Hx. destruct (Hch Hx) as (_ & D1 & D2 & D3 & D4 & D5 & D6). split; [done|]. cbn. done.
Qed.

(** ** Requests as a map *)

Definition requests us : gmap string cpuset := list_to_map ((fun u => (u_name u, u_online_cpus u)) <$> us).

Arguments requests us : simpl never.

Lemma requests_cons u us : requests (u :: us) = <[u_name u := u_online_cpus u]> (requests us).
Proof. done. Qed.

Lemma find_user_requests name us : match find_user name us with
  | Some i => exists u, us !! i = Some u /\ u_name u = name
  | None => requests us !! name = None end.
Proof.
  induction us as [|u us IH]; [done|]. cbn [find_user]. case_bool_decide as E; [by exists u|]. destruct (find_user name us) as [i|]; [exact IH|]. cbn. rewrite requests_cons. by rewrite lookup_insert_ne.
Qed.

Lemma requests_update name i mask us : NoDup (u_name <$> us) -> find_user name us = Some i -> requests (alter (fun u => u <| u_online_cpus := mask |>) i us) = alter (fun _ => mask) name (requests us) /\ u_name <$> alter (fun u => u <| u_online_cpus := mask |>) i us = u_name <$> us.
Proof.
  revert i. induction us as [|u us IH]; intros i; cbn [find_user]; [done|]. rewrite fmap_cons, NoDup_cons. intros [Hu Hnd]. case_bool_decide as E.
  - intros [= <-]. cbn. subst name. rewrite !requests_cons. cbn. split; [|done]. by rewrite alter_insert_eq.
  - destruct (find_user name us) as [j|] eqn:Ej; [|done]. intros [= <-]. destruct (IH j Hnd eq_refl) as [IH1 IH2]. change (alter ?f (S j) (u :: us)) with (u :: alter f j us). rewrite !requests_cons, IH1, alter_insert_ne by congruence. split; [done|]. by rewrite !fmap_cons, IH2.
Qed.

(** What all users allow. *)
Definition allowed (m : gmap string cpuset) (c : nat) : Prop := (c < n)%nat /\ forall name mask, m !! name = Some mask -> c ∈ mask.

Lemma wanted_allowed us c : NoDup (u_name <$> us) -> c ∈ wanted n us <-> allowed (requests us) c.
Proof.
  intros Hnd. rewrite elem_wanted. unfold allowed. assert (Hr : (forall u, u ∈ us -> c ∈ u_online_cpus u) <-> forall name mask, requests us !! name = Some mask -> c ∈ mask); [|tauto]. induction us as [|u us IH]; [split; [by intros _ ? ?|by intros _ ? ?%not_elem_of_nil]|].
  rewrite fmap_cons, NoDup_cons in Hnd. destruct Hnd as [Hu Hnd]. specialize (IH Hnd). rewrite requests_cons. split.
  - intros Hall name mask. destruct (decide (name = u_name u)) as [->|Hn]; [rewrite lookup_insert_eq; intros [= <-]; apply Hall; by left|]. rewrite lookup_insert_ne by congruence. apply IH. intros v Hv. apply Hall. by right.
  - intros Hall v [->|Hv]%elem_of_cons; [apply (Hall (u_name u)); by rewrite lookup_insert_eq|]. revert v Hv. apply IH. intros name mask Hm. apply (Hall name). rewrite lookup_insert_ne; [done|]. intros <-. apply Hu.
    assert (Hin : is_Some (requests us !! u_name u)) by (by eexists). unfold requests in Hin. apply elem_of_dom in Hin. rewrite dom_list_to_map_L, elem_of_list_to_set in Hin. by rewrite <- list_fmap_compose in Hin.
Qed.

(** ** Histories *)

Inductive hp_event := HpRegister (alloc : bool) (name : string) (mask : cpuset) | HpRequest (name : string) (mask : cpuset) | HpPm (e : pm_event) | HpEnable | HpDisable | HpStore (buf : string) (count : Z).
Definition run_hp (e : hp_event) : M (cpuhp K) Z :=
  match e with
  | HpRegister alloc name mask => exynos_cpuhp_register n alloc name mask
  | HpRequest name mask => exynos_cpuhp_request n name mask
  | HpPm e => exynos_cpuhp_pm_notifier n e
  | HpEnable => enabled_store n (Some 1) 0
  | HpDisable => enabled_store n (Some 0) 0
  | HpStore buf count => set_online_cpu_store n parse buf count
  end.

(** The mask that is written to the file, when it is one. *)
Definition stored (buf : string) : option cpuset :=
  if (STR_LEN <=? String.length buf)%nat then None
  else match sscanf_s buf with None => None | Some str => match parse (digits_of str) with Some m => if bool_decide (0%nat ∈ m) then Some m else None | None => None end end.

Definition spec_step (e : hp_event) (m : gmap string cpuset) : gmap string cpuset :=
  match e with
  | HpRegister true name mask => <[name := mask]> m
  | HpRequest name mask => alter (fun _ => mask) name m
  | HpStore buf _ => match stored buf with Some mask => alter (fun _ => mask) "SYSFS" m | None => m end
  | _ => m
  end.

(** Names are new and short, masks hold the first cpu, and what is written to the file can be read. *)
Definition hp_legal (e : hp_event) (m : gmap string cpuset) : Prop :=
  match e with
  | HpRegister _ name mask => m !! name = None /\ (String.length name < CPUHP_USER_NAME_LEN)%nat /\ 0%nat ∈ mask
  | HpRequest name mask => is_Some (m !! name) -> 0%nat ∈ mask
  | HpStore buf _ => (String.length buf < STR_LEN)%nat -> forall str, sscanf_s buf = Some str -> is_Some (parse (digits_of str))
  | _ => True
  end.

(** The events after which the driver looks at the requests. *)
Definition applies (e : hp_event) (m : gmap string cpuset) : Prop :=
  match e with
  | HpRegister alloc _ _ => alloc = true
  | HpRequest name _ => is_Some (m !! name)
  | HpStore buf _ => is_Some (stored buf) /\ is_Some (m !! "SYSFS"%string)
  | HpPm PM_POST_SUSPEND | HpEnable => True
  | HpPm _ | HpDisable => False
  end.

Definition served us s s' : Prop := mask_exact s -> active s' = true -> forall P, reliable P -> P (cp_kernel s) -> cp_cpus s' = wanted n us.

Lemma wp_do_served us s : in_step us s -> wp (cpuhp_do n) (fun _ s' => in_step us s' /\ cp_enabled s' = cp_enabled s /\ (mask_exact s -> mask_exact s') /\ lasting s s' /\ served us s s') s.
Proof.
  intros Hs. eapply wp_mono; [by apply wp_do|]. intros r s' (Hs' & (U1 & U2 & U3 & U4 & U5) & Hc). split; [done|]. split; [done|]. unfold lasting, served. destruct (active s) eqn:Ea.
  - destruct Hc as [(_ & _ & _ & _ & _ & L) Hc]. split; [by intros Hx; apply Hc|]. split; [exact L|]. intros Hx _ P R HP. destruct (Hc Hx) as (_ & _ & _ & _ & _ & Hz & Hr). apply Hz, (Hr P R HP).
  - destruct Hc as [_ ->]. split; [done|]. split; [done|]. by rewrite Ea.
Qed.

Lemma in_step_alter us us' s : in_step us s -> NoDup (u_name <$> us') -> 0%nat ∈ wanted n us' -> in_step us' (s <| cp_users := Some us' |>).
Proof. intros [I1 I2 I3 I4 I5 I6 I7] Hn Hw. by split. Qed.

Lemma wp_request_cpus us s name mask : in_step us s -> (is_Some (requests us !! name) -> 0%nat ∈ mask) ->
  wp (exynos_cpuhp_request n name mask) (fun _ s' => exists us', in_step us' s' /\ requests us' = alter (fun _ => mask) name (requests us) /\ (cp_enabled s' = cp_enabled s /\ (mask_exact s -> mask_exact s')) /\ lasting s s' /\ (is_Some (requests us !! name) -> served us' s s')) s.
Proof.
  intros Hs H0. unfold exynos_cpuhp_request, cpuhp_update_user, cpuhp_find_user. apply wp_bind, wp_bind, wp_bind. apply (wp_eq _ _ _ us s); [unfold get_users; by rewrite (is_users _ _ Hs)|]. apply wp_ret. pose proof (find_user_requests name us) as Hf. destruct (find_user name us) as [i|] eqn:Ei.
  - destruct Hf as (u & Hu & Hname). destruct (requests_update name i mask us (is_names _ _ Hs) Ei) as [Hreq Hnames]. assert (Hin : is_Some (requests us !! name)).
    { unfold requests. apply elem_of_dom. rewrite dom_list_to_map_L, elem_of_list_to_set, <- list_fmap_compose. apply list_elem_of_fmap. exists u. split; [done|]. by eapply list_elem_of_lookup_2. }
    apply wp_bind, wp_mod, wp_ret. cbn [Z.eqb negb]. set (us' := alter _ i us) in *. assert (E : s <| cp_users := alter (fun u => u <| u_online_cpus := mask |>) i <$> cp_users s |> = s <| cp_users := Some us' |>) by (by rewrite (is_users _ _ Hs)). rewrite E.
    assert (Hs' : in_step us' (s <| cp_users := Some us' |>)). { apply (in_step_alter us); [done|rewrite Hnames; apply Hs|]. pose proof (is_wanted _ _ Hs) as Hw. rewrite wanted_allowed in Hw by apply Hs. rewrite wanted_allowed by (rewrite Hnames; apply Hs). destruct Hw as [Hn Hw]. split; [done|].
      intros name' mask'. rewrite Hreq. destruct (decide (name' = name)) as [->|Hne]; [|rewrite lookup_alter_ne by congruence; apply Hw]. rewrite lookup_alter_eq. destruct (requests us !! name); [|done]. intros [= <-]. by apply H0. }
    eapply wp_mono; [by apply (wp_do_served us')|]. intros r s' (H1 & H2 & Hx & Hla & H3). exists us'. split; [done|]. split; [done|]. split; [done|]. split; [exact Hla|]. intros _. exact H3.
  - apply wp_ret. unfold EINVAL. cbn [Z.eqb Z.opp negb]. apply wp_ret. exists us. split; [done|]. split; [|split; [done|split; [by intros P ? ?|]]].
    + apply map_eq. intros name'. destruct (decide (name' = name)) as [->|]; [by rewrite lookup_alter_eq, Hf|by rewrite lookup_alter_ne].
    + rewrite Hf. by intros [? ?].
Qed.

Lemma wp_register_user us s alloc name mask : in_step us s -> requests us !! name = None -> (String.length name < CPUHP_USER_NAME_LEN)%nat -> 0%nat ∈ mask ->
  wp (exynos_cpuhp_register n alloc name mask) (fun r s' => exists us', in_step us' s' /\ us' = (if alloc then MkUser name mask :: us else us) /\ (cp_enabled s' = cp_enabled s /\ (mask_exact s -> mask_exact s')) /\ lasting s s' /\ (alloc = true -> served us' s s')) s.
Proof.
  intros Hs Hnew Hlen H0. unfold exynos_cpuhp_register, cpuhp_find_user. apply wp_bind. apply (wp_eq _ _ _ tt (s <| cp_lock := true |>)); [unfold mutex_lock; by rewrite (is_lock _ _ Hs)|]. apply wp_bind, wp_bind.
  apply (wp_eq _ _ _ us (s <| cp_lock := true |>)); [unfold get_users; cbn; by rewrite (is_users _ _ Hs)|]. apply wp_ret. pose proof (find_user_requests name us) as Hf. destruct (find_user name us) as [i|].
  { exfalso. destruct Hf as (u & Hu & Hname). assert (Hin : is_Some (requests us !! name)); [|rewrite Hnew in Hin; by destruct Hin]. unfold requests. apply elem_of_dom. rewrite dom_list_to_map_L, elem_of_list_to_set, <- list_fmap_compose. apply list_elem_of_fmap. exists u. split; [done|]. by eapply list_elem_of_lookup_2. }
  destruct alloc; cbn [negb].
  - rewrite (proj2 (Nat.leb_gt _ _) Hlen). apply wp_bind, wp_mod, wp_bind, wp_mod. set (us' := MkUser name mask :: us). match goal with |- wp _ _ ?x => assert (E : x = s <| cp_users := Some us' |>) by (pose proof (is_users _ _ Hs); pose proof (is_lock _ _ Hs); destruct s; cbn in *; by subst) end. rewrite E.
    assert (Hs' : in_step us' (s <| cp_users := Some us' |>)). { apply (in_step_alter us); [done| |].
      - cbn. apply NoDup_cons. split; [|apply Hs]. intros Hin. assert (Hin' : is_Some (requests us !! name)); [|rewrite Hnew in Hin'; by destruct Hin']. unfold requests. apply elem_of_dom. by rewrite dom_list_to_map_L, elem_of_list_to_set, <- list_fmap_compose.
      - pose proof (is_wanted _ _ Hs) as Hw. rewrite elem_wanted in Hw |- *. destruct Hw as [Hn Hw]. split; [done|]. intros u [->|Hu]%elem_of_cons; [done|by apply Hw]. }
    eapply wp_mono; [by apply (wp_do_served us')|]. intros r s' (H1 & H2 & Hx & Hla & H3). exists us'. split; [done|]. split; [done|]. split; [done|]. split; [exact Hla|]. intros _. exact H3.
  - apply wp_bind, wp_mod, wp_ret. exists us. match goal with |- in_step _ ?x /\ _ => assert (E : x = s) by (pose proof (is_lock _ _ Hs); destruct s; cbn in *; by subst) end. rewrite E. split_and!; try done. by intros P ? ?.
Qed.

Lemma wp_locked us s f : in_step us s -> (forall s, cp_lock (f s) = cp_lock s) -> wp (do! mutex_lock in do! kmod f in mutex_unlock) (fun _ s' => s' = (f (s <| cp_lock := true |>)) <| cp_lock := false |>) s.
Proof. intros Hs Hf. apply wp_bind. apply (wp_eq _ _ _ tt (s <| cp_lock := true |>)); [unfold mutex_lock; by rewrite (is_lock _ _ Hs)|]. by apply wp_bind, wp_mod, wp_mod. Qed.

(** Switching the driver off: all cpus come up, or it fails and stays on. *)
Lemma wp_disable us s : in_step us s -> wp (cpuhp_control n false) (fun r s' => in_step us s' /\ lasting s s' /\ cp_cpus s ⊆ cp_cpus s' /\ cp_suspended s' = cp_suspended s /\ cp_online_cpus s' = cp_online_cpus s /\
  ((r = 0 /\ cp_enabled s' = false /\ cp_cpus s' = cpu_possible_mask n) \/ (r < 0 /\ cp_enabled s' = cp_enabled s))) s.
Proof.
  intros [I1 I2 I3 I4 I5 I6 I7]. unfold cpuhp_control. apply wp_bind. apply (wp_eq _ _ _ tt (s <| cp_lock := true |>)); [unfold mutex_lock; by rewrite I3|]. apply wp_bind, wp_get. apply wp_bind. unfold cpuhp_in.
  assert (Hoff : forall c, c ∈ cpus_of n (cpu_possible_mask n ∖ cp_cpus s) -> (c ∉ cp_cpus s) /\ (c < n)%nat) by (intros c [Hc Hlt]%elem_cpus_of; split; [set_solver|done]).
  eapply wp_mono; [apply wp_up; [apply cpus_of_nodup|exact Hoff]|]. intros r s1 ((k & ->) & H1 & Hsup & Hle & Hz & Hd). apply dependable_lasting in Hd. rewrite cpus_of_set in Hsup, Hz by set_solver. unfold cp_cpus in *. cbn in H1, Hz, Hsup, I4. apply wp_bind.
  assert (Hsub : online k ⊆ cpu_possible_mask n) by set_solver.
  destruct (Z.eqb_spec r 0) as [->|Hn]; [apply wp_mod|apply wp_ret]; apply wp_bind, wp_mod, wp_ret; (split; [split; cbn; try done; set_solver|]); (split; [exact Hd|]); cbn; (split; [done|]); (split; [done|]); (split; [done|]); [left|right; by split; [lia|]].
  split; [done|]. split; [done|]. rewrite (Hz eq_refl). apply set_eq. intros c. destruct (decide (c ∈ online (cp_kernel s))); set_solver.
Qed.

(** Every event keeps the driver in step, and does to the requests what the map says. *)
Lemma wp_hp_event us s e : in_step us s -> hp_legal e (requests us) ->
  wp (run_hp e) (fun _ s' => exists us', in_step us' s' /\ requests us' = spec_step e (requests us) /\ (e <> HpDisable -> (cp_enabled s = true -> cp_enabled s' = true) /\ (mask_exact s -> mask_exact s')) /\ lasting s s' /\ (applies e (requests us) -> served us' s s')) s.
Proof.
  intros Hs Hl. assert (Hnone : exists us', in_step us' s /\ requests us' = requests us /\ (e <> HpDisable -> (cp_enabled s = true -> cp_enabled s = true) /\ (mask_exact s -> mask_exact s)) /\ lasting s s) by (exists us; split_and!; try done; by intros P ? ?).
  destruct Hnone as (us0 & N1 & N2 & N3 & N4). destruct e as [alloc name mask|name mask|e| | |buf count]; cbn [run_hp spec_step hp_legal applies] in *.
  - destruct Hl as (H1 & H2 & H3). eapply wp_mono; [by apply (wp_register_user us)|]. intros r s' (us' & Hs' & -> & [He Hx] & Hla & Hsv). eexists. split; [done|]. split; [by destruct alloc|]. split; [by rewrite He|done].
  - eapply wp_mono; [by apply (wp_request_cpus us)|]. intros r s' (us' & Hs' & Hr & [He Hx] & Hla & Hsv). exists us'. split; [done|]. split; [done|]. split; [by rewrite He|done].
  - assert (Hsusp : forall b, wp (cpuhp_suspend b) (fun _ s' => in_step us s' /\ cp_enabled s' = cp_enabled s /\ cp_kernel s' = cp_kernel s /\ cp_online_cpus s' = cp_online_cpus s) s).
    { intros b. eapply wp_mono; [by apply (wp_locked us)|]. intros _ s' ->. split; [|done]. destruct Hs as [I1 I2 I3 I4 I5 I6 I7]. by split. }
    destruct e; cbn [exynos_cpuhp_pm_notifier].
    + apply wp_bind. eapply wp_mono; [apply Hsusp|]. intros _ s1 (H1 & H2 & H3 & H4). apply wp_ret. exists us. split; [done|]. split; [done|]. unfold mask_exact, cp_cpus. split; [by rewrite H2, H3, H4|]. split; [|done]. unfold lasting. by rewrite H3.
    + apply wp_bind. eapply wp_mono; [apply Hsusp|]. intros _ s1 (H1 & H2 & H3 & H4). apply wp_bind. eapply wp_mono; [by apply (wp_do_served us)|]. intros r s2 (H5 & H6 & Hx & Hla & H7). apply wp_ret. exists us. split; [done|]. split; [done|].
      unfold lasting, served, mask_exact, cp_cpus in *. rewrite H3 in Hx, Hla, H7. rewrite H4 in Hx, H7. by rewrite H6, H2.
    + by apply wp_ret; exists us0.
  - unfold enabled_store, cpuhp_control. cbn [Z.eqb negb]. apply wp_bind, wp_bind. eapply wp_mono; [by apply (wp_locked us s (fun s => s <| cp_enabled := true |>))|]. intros _ s1 ->. set (s1 := _ <| cp_lock := false |>). assert (Hs1 : in_step us s1) by (destruct Hs as [I1 I2 I3 I4 I5 I6 I7]; by split).
    apply wp_bind. eapply wp_mono; [by apply (wp_do_served us)|]. intros r s2 (H4 & H5 & Hx & Hla & H6). apply wp_ret, wp_ret. exists us. split; [done|]. split; [done|]. split; [by rewrite H5|]. split; [exact Hla|]. intros _. exact H6.
  - unfold enabled_store. cbn [Z.eqb negb]. apply wp_bind. eapply wp_mono; [by apply (wp_disable us)|]. intros r s' (H1 & H2 & _). apply wp_ret. exists us. by split_and!.
  - assert (Hskip : wp (kret (- EINVAL)) (fun _ s' => exists us', in_step us' s' /\ requests us' = requests us /\ (HpStore buf count <> HpDisable -> (cp_enabled s = true -> cp_enabled s' = true) /\ (mask_exact s -> mask_exact s')) /\ lasting s s' /\ (is_Some (@None cpuset) /\ is_Some (requests us !! "SYSFS"%string) -> served us' s s')) s).
    { apply wp_ret. exists us. split_and!; try done; by first [intros [[? ?] _] | intros P ? ?]. }
    unfold set_online_cpu_store, stored. destruct (STR_LEN <=? String.length buf)%nat eqn:El; [exact Hskip|]. apply Nat.leb_gt in El. specialize (Hl El). destruct (sscanf_s buf) as [str|]; [|exact Hskip].
    destruct (Hl str eq_refl) as [m ->]. case_bool_decide as E0; cbn [negb]; [|exact Hskip]. clear Hskip. apply wp_bind, wp_mod. assert (Hs1 : in_step us (s <| cp_sysfs_user_mask := m |>)) by (destruct Hs as [I1 I2 I3 I4 I5 I6 I7]; by split).
    apply wp_bind. eapply wp_mono; [by apply (wp_request_cpus us _ "SYSFS" m Hs1)|]. intros r s' (us' & Hs' & Hr & [He Hx] & Hla & Hsv). apply wp_ret. exists us'. split; [done|]. split; [done|]. split; [by rewrite He|]. split; [exact Hla|]. intros [_ Hin]. exact (Hsv Hin).
Qed.

End Spec.
