(* ===== verification/CpuhpCases.v ===== *)
(** * Histories of hotplug requests

    What holds after every history of the hotplug driver, on a machine where cpus
    can always be brought up and down, and what the driver does not handle. *)

From S2P Require Import Prelude Cpuhp CpuhpSpec.

(** ** Reachable states *)

Section Histories.
Context {K : Type} {H : Hotplug K} (n : nat) (parse : string -> option cpuset) (k0 : K) (alloc : bool).

(** The requests after a history; the driver's own file is the first user. *)
Definition hp_spec (evs : list hp_event) : gmap string cpuset := foldl (fun m e => spec_step parse e m) (if alloc then {["SYSFS"%string := cpu_possible_mask n]} else ∅) evs.

Inductive hp_reached : list hp_event -> cpuhp K -> Prop :=
| hp_start s : online k0 ⊆ cpu_possible_mask n -> 0%nat ∈ online k0 -> exynos_cpuhp_probe n alloc (cpuhp_zero k0) = Done 0 s -> hp_reached [] s
| hp_next evs s e r s' : hp_reached evs s -> hp_legal parse e (hp_spec evs) -> run_hp n parse e s = Done r s' -> hp_reached (evs ++ [e]) s'.

Context {HL : HotplugLaws K H}.

Lemma wp_hp_probe : online k0 ⊆ cpu_possible_mask n -> 0%nat ∈ online k0 -> wp (exynos_cpuhp_probe n alloc) (fun r s => r = 0 /\ exists us, in_step n us s /\ requests us = hp_spec [] /\ cp_enabled s = true /\ mask_exact s /\ lasting n (cpuhp_zero k0) s) (cpuhp_zero k0).
Proof.
  intros Hc H0. unfold exynos_cpuhp_probe. apply wp_bind, wp_mod. set (s1 := _ <| cp_sysfs_user_mask := _ |>). assert (Hs1 : in_step n [] s1) by (split; try done; [by constructor|apply elem_wanted; split; [by apply elem_possible, Hc|by intros u ?%not_elem_of_nil]]).
  apply wp_bind. eapply wp_mono; [apply (wp_register_user n [] s1 alloc "SYSFS" (cpu_possible_mask n) Hs1); [done|cbn; unfold CPUHP_USER_NAME_LEN; lia|by apply Hc]|]. intros r s2 (us & Hs2 & Eus & [_ Hx] & Hla & _). apply wp_bind.
  eapply wp_mono; [by apply (wp_locked n us s2 (fun s => s <| cp_enabled := true |>))|]. intros _ s3 ->. apply wp_ret. split; [done|]. exists us. split; [|split; [|split; [done|split; [by apply Hx|exact Hla]]]]; [destruct Hs2 as [I1 I2 I3 I4 I5 I6 I7]; by split|]. rewrite Eus. unfold hp_spec. cbn [foldl]. clear. destruct alloc; [rewrite requests_cons; cbn; by rewrite insert_empty|done].
Qed.

Lemma hp_reached_in_step evs s : hp_reached evs s -> exists us, in_step n us s /\ requests us = hp_spec evs /\ (HpDisable ∉ evs -> cp_enabled s = true /\ mask_exact s).
Proof.
  induction 1 as [s Hc H0 Hp|evs s e r s' _ (us & Hs & Hr & He) Hl Hrun].
  - destruct (wp_done _ _ _ 0 s (wp_hp_probe Hc H0) Hp) as (_ & us & H1 & H2 & H3 & H4 & _). by exists us.
  - rewrite <- Hr in Hl. destruct (wp_done _ _ _ r s' (wp_hp_event n parse us s e Hs Hl) Hrun) as (us' & Hs' & Hr' & He' & _). exists us'. split; [done|]. split; [unfold hp_spec; rewrite foldl_app; cbn; by rewrite Hr', Hr|].
    rewrite elem_of_app, list_elem_of_singleton. intros Hno. destruct He' as [He1 He2]; [naive_solver|]. destruct He as [He3 He4]; [naive_solver|]. split; [by apply He1|by apply He2].
Qed.
Lemma event_serves evs s e : hp_reached evs s -> hp_legal parse e (hp_spec evs) -> exists r s', run_hp n parse e s = Done r s' /\ hp_reached (evs ++ [e]) s' /\
  (applies parse e (hp_spec evs) -> mask_exact s -> cp_enabled s' = true -> cp_suspended s' = false -> forall P, reliable n P -> P (cp_kernel s) -> forall c, c ∈ cp_cpus s' <-> allowed n (hp_spec (evs ++ [e])) c).
Proof.
  intros R Hl. destruct (hp_reached_in_step evs s R) as (us & Hs & Hr & _). pose proof Hl as Hl'. rewrite <- Hr in Hl'. destruct (wp_run _ _ _ (wp_hp_event n parse us s e Hs Hl')) as (r & s' & Hrun & us' & Hs' & Hr' & He' & _ & Hsv). exists r, s'.
  split; [done|]. split; [by eapply hp_next|]. intros Ha Hx Hen Hsus P Hrel HP c. rewrite <- Hr in Ha. rewrite (Hsv Ha Hx) with (P := P); [|unfold active; by rewrite Hen, Hsus|done|done]. rewrite wanted_allowed by apply Hs'. rewrite Hr'. unfold hp_spec. rewrite foldl_app. cbn. fold (hp_spec evs). by rewrite Hr.
Qed.

(** What hotplug never breaks holds throughout. *)
Lemma hp_reached_kernel P evs s : reliable n P -> P k0 -> hp_reached evs s -> P (cp_kernel s).
Proof.
  intros HP H0. induction 1 as [s Hc Hb Hp|evs s e r s' R IH Hl Hrun].
  - destruct (wp_done _ _ _ 0 s (wp_hp_probe Hc Hb) Hp) as (_ & us & _ & _ & _ & _ & Hla). by apply (Hla P HP).
  - destruct (hp_reached_in_step evs s R) as (us & Hs & Hr & He). rewrite <- Hr in Hl. destruct (wp_done _ _ _ r s' (wp_hp_event n parse us s e Hs Hl) Hrun) as (us' & _ & _ & _ & Hla & _). by apply (Hla P HP).
Qed.
End Histories.

(** ** The theorems *)

(** C14. After any history of registrations, requests, writes to its file, suspends, and switching off and on, every legal
    event completes. As long as the driver has not been switched off it stays on and its mask is the cpus online. Whenever
    its mask is the cpus online and bringing cpus up and down does not fail, the cpus online after any event that makes the
    driver look at the requests, which leaves it on and not suspended, are exactly those that all users' latest requests
    allow. *)
Theorem requests_served {K} {H : Hotplug K} {HL : HotplugLaws K H} n parse k0 alloc evs s e (R : hp_reached n parse k0 alloc evs s) (Hl : hp_legal parse e (hp_spec n parse alloc evs)) :
  (HpDisable ∉ evs -> cp_enabled s = true /\ cp_online_cpus s = cp_cpus s) /\
  exists r s', run_hp n parse e s = Done r s' /\ hp_reached n parse k0 alloc (evs ++ [e]) s' /\
    (applies parse e (hp_spec n parse alloc evs) -> cp_online_cpus s = cp_cpus s -> cp_enabled s' = true -> cp_suspended s' = false ->
     forall P, reliable n P -> P (cp_kernel s) -> forall c, c ∈ cp_cpus s' <-> allowed n (hp_spec n parse alloc (evs ++ [e])) c).
Proof.
  destruct (hp_reached_in_step n parse k0 alloc evs s R) as (us & _ & _ & He). split; [exact He|]. exact (event_serves n parse k0 alloc evs s e R Hl).
Qed.

(** C28. Whatever fails on the way, after every history, the driver switched off and on included, its lock is free, its mask
    holds only cpus online and the first cpu is online; the mask is exactly the cpus online as long as the driver has not
    been switched off. A run of the driver takes no cpu down that all users allow and brings none up that some user
    forbids; when it returns anything but 0 the mask is the cpus online. Where the mask was the cpus online it still is,
    what is returned is 0 or negative, and after 0 of a driver that is on and not suspended the cpus online are those that
    all users allow. *)
Theorem failed_hotplug_resyncs {K} {H : Hotplug K} {HL : HotplugLaws K H} n parse k0 alloc evs s (R : hp_reached n parse k0 alloc evs s) :
  (cp_lock s = false /\ cp_online_cpus s ⊆ cp_cpus s /\ 0%nat ∈ cp_cpus s /\ (HpDisable ∉ evs -> cp_online_cpus s = cp_cpus s)) /\
  wp (cpuhp_do n) (fun r s' => cp_lock s' = false /\ cp_online_cpus s' ⊆ cp_cpus s' /\ 0%nat ∈ cp_cpus s' /\ (r <> 0 -> cp_online_cpus s' = cp_cpus s') /\
    (forall c, c ∈ cp_cpus s -> allowed n (hp_spec n parse alloc evs) c -> c ∈ cp_cpus s') /\ (forall c, c ∈ cp_cpus s' -> c ∈ cp_cpus s \/ allowed n (hp_spec n parse alloc evs) c) /\
    (cp_online_cpus s = cp_cpus s -> cp_online_cpus s' = cp_cpus s' /\ r <= 0 /\
      (r = 0 -> cp_enabled s = true -> cp_suspended s = false -> forall c, c ∈ cp_cpus s' <-> allowed n (hp_spec n parse alloc evs) c))) s.
Proof.
  destruct (hp_reached_in_step n parse k0 alloc evs s R) as (us & Hs & Hr & He). split; [destruct Hs; split_and!; [done..|intros Hno; exact (proj2 (He Hno))]|]. rewrite <- Hr. eapply wp_mono; [by apply (wp_do n us)|]. intros r s' (Hs' & _ & Hc). assert (Hw : forall c, c ∈ wanted n us <-> allowed n (requests us) c) by (intros c; apply wanted_allowed, Hs).
  split; [by destruct Hs'|]. split; [by destruct Hs'|]. split; [by destruct Hs'|]. destruct (active s) eqn:Ea.
  - destruct Hc as [(_ & _ & C1 & C2 & C3 & _) Hx]. split_and!; [done|intros c Hc Ha%Hw; apply C1; set_solver|intros c Hc%C2; rewrite <- Hw; set_solver|]. intros E. destruct (Hx E) as (_ & D1 & _ & _ & D4 & D5 & _). split; [done|]. split; [done|]. intros E0 _ _ c. rewrite (D5 E0). apply Hw.
  - destruct Hc as [-> ->]. split_and!; [done|done|intros c Hc; by left|]. intros E. split; [done|]. split; [lia|]. intros _ E1 E2. unfold active in Ea. by rewrite E1, E2 in Ea.
Qed.

(** Switching the driver off brings all cpus up, or says that it failed and leaves it as it was. *)
Theorem disable_brings_all_up {K} {H : Hotplug K} {HL : HotplugLaws K H} n parse k0 alloc evs s (R : hp_reached n parse k0 alloc evs s) :
  wp (cpuhp_control n false) (fun r s' => cp_lock s' = false /\ cp_cpus s ⊆ cp_cpus s' /\
    ((r = 0 /\ cp_enabled s' = false /\ forall c, c ∈ cp_cpus s' <-> (c < n)%nat) \/ (r < 0 /\ cp_enabled s' = cp_enabled s))) s.
Proof.
  destruct (hp_reached_in_step n parse k0 alloc evs s R) as (us & Hs & _ & _). eapply wp_mono; [by apply (wp_disable n us)|]. intros r s' (H1 & _ & H3 & _ & _ & H4). split; [apply H1|]. split; [done|].
  destruct H4 as [(-> & He & Hc)|[Hr He]]; [left|by right]. split; [done|]. split; [done|]. intros c. rewrite Hc. apply elem_possible.
Qed.

(** ** A machine of four cpus *)

#[export] Instance steady : Hotplug cpuset := {|
  online k := k;
  add_cpu c k := if decide (c ∈ k) then (1, k) else (0, {[c]} ∪ k);
  remove_cpu c k := if decide (c ∈ k) then (0, k ∖ {[c]}) else (1, k) |}.
#[export] Instance steady_laws : HotplugLaws cpuset steady.
Proof. split; intros c k r k'; cbn; case_decide; intros [= <- <-]; tauto. Qed.
Lemma steady_reliable : reliable 4 (fun _ : cpuset => True).
Proof. split; intros c k r k' _ _; cbn; case_decide; intros [= <- <-]; by split. Qed.

(** One digit of a mask. *)
Definition one_digit (s : string) : option cpuset := match s with "1" => Some {[0]} | "3" => Some {[0; 1]} | "7" => Some {[0; 1; 2]} | "f" => Some {[0; 1; 2; 3]} | "e" => Some {[1; 2; 3]} | _ => None end%string%nat.
Definition all4 : cpuset := {[0; 1; 2; 3]}%nat.
Definition cpuhp_after (evs : list hp_event) (s : cpuhp cpuset) : cpuhp cpuset := foldl (fun s e => match run_hp 4 one_digit e s with Done _ s' => s' | _ => s end) s evs.
Definition probed : cpuhp cpuset := match exynos_cpuhp_probe 4 true (cpuhp_zero all4) with Done _ s => s | _ => cpuhp_zero ∅ end.
Definition cooler : list hp_event := [HpRegister true "tmu" all4].
Definition cooled : cpuhp cpuset := cpuhp_after cooler probed.

Lemma cooled_reached : hp_reached 4 one_digit all4 true cooler cooled.
Proof.
  apply (hp_next 4 one_digit all4 true [] probed (HpRegister true "tmu" all4) 0).
  - apply hp_start; [|by apply (bool_decide_unpack _); vm_compute|by vm_compute]. apply (bool_decide_unpack _). by vm_compute.
  - split; [by vm_compute|]. split; [cbn; unfold CPUHP_USER_NAME_LEN; lia|]. apply (bool_decide_unpack _). by vm_compute.
  - by vm_compute.
Qed.

Lemma requests_served_witness : exists r s', run_hp 4 one_digit (HpRequest "tmu" {[0; 1]}%nat) cooled = Done r s' /\ (2%nat ∉ cp_cpus s').
Proof.
  destruct (requests_served 4 one_digit all4 true cooler cooled (HpRequest "tmu" {[0; 1]}%nat) cooled_reached) as (Hon & r & s' & Hrun & Hre & Hsv); [intros _; set_solver|]. exists r, s'. split; [exact Hrun|].
  assert (Hsus : cp_suspended s' = false). { assert (E : (match run_hp 4 one_digit (HpRequest "tmu" {[0; 1]}%nat) cooled with Done _ s => cp_suspended s | _ => true end) = false) by (by vm_compute). by rewrite Hrun in E. }
  assert (Happ : applies one_digit (HpRequest "tmu" {[0; 1]}%nat) (hp_spec 4 one_digit true cooler)) by (vm_compute; by eexists).
  assert (Hen : cp_enabled s' = true). { assert (E : (match run_hp 4 one_digit (HpRequest "tmu" {[0; 1]}%nat) cooled with Done _ s => cp_enabled s | _ => false end) = true) by (by vm_compute). by rewrite Hrun in E. }
  destruct Hon as [_ Hx]; [apply not_elem_of_cons; split; [done|by apply not_elem_of_nil]|].
  intros Hin. destruct (proj1 (Hsv Happ Hx Hen Hsus (fun _ => True) steady_reliable I 2%nat) Hin) as [_ Hall].
  assert (Hl : hp_spec 4 one_digit true (cooler ++ [HpRequest "tmu" {[0; 1]}%nat]) !! "tmu"%string = Some {[0; 1]}%nat) by (by vm_compute). specialize (Hall _ _ Hl). set_solver.
Defined.

Lemma failed_hotplug_resyncs_witness : cp_online_cpus cooled = cp_cpus cooled /\ (0%nat ∈ cp_cpus cooled).
Proof. destruct (failed_hotplug_resyncs 4 one_digit all4 true cooler cooled cooled_reached) as [(_ & _ & H2 & H1) _]. split; [|done]. apply H1. apply not_elem_of_cons. split; [done|by apply not_elem_of_nil]. Defined.

Lemma disable_brings_all_up_witness : wp (cpuhp_control 4 false) (fun r s' => cp_cpus cooled ⊆ cp_cpus s') cooled.
Proof. eapply wp_mono; [apply (disable_brings_all_up 4 one_digit all4 true cooler cooled cooled_reached)|]. by intros r s' (_ & H & _). Defined.

(** ** What the driver does not handle *)

(** A cpu that is up already gives 1, which is no failure to the loop and one to its caller. *)
Lemma already_up_fails : let s := cpuhp_after [HpRequest "tmu" {[0; 1; 2]}%nat] cooled in let s' := s <| cp_kernel := all4 |> in
  cp_cpus s = {[0; 1; 2]}%nat /\ (match exynos_cpuhp_request 4 "tmu" all4 s' with Done r _ => Some r | _ => None end) = Some 1.
Proof. by vm_compute. Qed.

(** Off and on again: all cpus are brought up, and the requests that are still there are not looked at. *)
Lemma reenable_ignores_requests : let s := cpuhp_after [HpRequest "tmu" {[0; 1]}%nat] cooled in
  let s' := match enabled_store 4 (Some 0) 2 s with Done _ s1 => match enabled_store 4 (Some 1) 2 s1 with Done _ s2 => s2 | _ => s end | _ => s end in
  cp_cpus s = {[0; 1]}%nat /\ cp_enabled s' = true /\ cp_cpus s' = all4 /\ cp_online_cpus s' = {[0; 1]}%nat.
Proof. by vm_compute. Qed.

(** A request of a user that was never registered succeeds and does nothing. *)
Lemma unknown_user_succeeds : match exynos_cpuhp_request 4 "nobody" {[0]}%nat cooled with Done r s => r = 0 /\ s = cooled | _ => False end.
Proof. by vm_compute. Qed.

(** A user that unregisters keeps its say. *)
Lemma unregister_keeps_request : forall name mask (s : cpuhp cpuset), exynos_cpuhp_unregister name mask s = Done 0 s.
Proof. done. Qed.

(** A name of 16 characters does not fit, and a mask without the first cpu stops the machine. *)
Lemma long_name_overruns : exynos_cpuhp_register 4 true "thermal-throttle" all4 probed = Fault.
Proof. by vm_compute. Qed.
Lemma boot_cpu_missing_panics : exynos_cpuhp_register 4 true "tmu" {[1; 2]}%nat probed = Fault.
Proof. by vm_compute. Qed.

(** What cannot be read as a mask leaves the mask unset, and it is used. *)
Lemma bad_mask_used : set_online_cpu_store 4 one_digit "zz" 2 cooled = Fault.
Proof. by vm_compute. Qed.

(** A failing cpu stops the walk; the mask is the cpus online, and a later run serves the request. *)
Definition stubborn : Hotplug (nat * cpuset) := {|
  online k := k.2;
  add_cpu c k := if decide (c ∈ k.2) then (1, k) else if decide (k.1 = 0%nat) then (- 16, (1%nat, k.2)) else (0, (k.1, {[c]} ∪ k.2));
  remove_cpu c k := if decide (c ∈ k.2) then (0, (k.1, k.2 ∖ {[c]})) else (1, k) |}.
Lemma failure_is_retried : let s := MkCpuhp true false (Some [MkUser "tmu" all4]) all4 false {[0; 1]}%nat (0%nat, {[0; 1]}%nat) in
  match cpuhp_do (H := stubborn) 4 s with
  | Done r s1 => r = - 16 /\ cp_online_cpus s1 = {[0; 1]}%nat /\ match cpuhp_do (H := stubborn) 4 s1 with Done r s2 => r = 0 /\ cp_cpus (H := stubborn) s2 = all4 | _ => False end
  | _ => False
  end.
Proof. by vm_compute. Qed.
