(* ===== verification/CpuhpPower.v ===== *)
(** * Hotplug over the power modes

    The kernel under the hotplug driver takes a cpu down by the callback of the
    power management, and brings one up by the other. Composed, what the users of
    the hotplug driver ask for is what the power controller is told. *)

From S2P Require Import Prelude Cpupm CpupmIp CpupmView CpupmRun CpupmSpec CpupmBoot CpupmPower CpupmCases Cpuhp CpuhpSpec CpuhpCases.

(** ** The kernel between the two drivers *)

(** What [add_cpu] and [remove_cpu] run of the power management; a cpu leaves
    [cpu_online_mask] after the one callback, and joins it after the other. *)
Definition bring_up (c : nat) (k : cpupm_state) : Z * cpupm_state :=
  if bool_decide (c ∈ s_online k) then (1, k)
  else if negb (c <? length (s_cpus k))%nat then (- EINVAL, k)
  else match run_event (EvUp c) k with Done _ k1 => (0, k1 <| s_online := c :: s_online k1 |>) | _ => (- EIO, k) end.
Definition take_down (c : nat) (k : cpupm_state) : Z * cpupm_state :=
  if bool_decide (c ∈ s_online k) then match run_event (EvDown c) k with Done _ k1 => (0, k1 <| s_online := filter (fun c' => c' <> c) (s_online k1) |>) | _ => (- EIO, k) end
  else (1, k).

#[export] Instance powered : Hotplug cpupm_state := {| online k := list_to_set (s_online k); add_cpu := bring_up; remove_cpu := take_down |}.

(** The callbacks leave [cpu_online_mask] alone. *)
Lemma settings_online c w f s s' : cluster_settings c w f s = Done tt s' -> s_online s' = s_online s.
Proof.
  unfold cluster_settings, kbind, kget, kret, get_mode, tell, kmod. destruct (mode_of s c POWERMODE_TYPE_CLUSTER) as [j|]; [|by intros [= <-]]. destruct (s_mode_list s !! j) as [m|]; [|done]. destruct (_ =? w)%nat; by intros [= <-].
Qed.

Lemma up_online c s s' : run_event (EvUp c) s = Done tt s' -> s_online s' = s_online s.
Proof.
  cbn [run_event]. unfold ignore, cpuhp_cpupm_online, kbind, tell, mod_pm, kmod, kret. destruct (cluster_settings _ _ _ s) as [[] s1| |] eqn:E; [|done..]. intros [= <-]. exact (settings_online _ _ _ _ _ E).
Qed.

Lemma down_online c s s' : run_event (EvDown c) s = Done tt s' -> s_online s' = s_online s.
Proof.
  cbn [run_event]. unfold ignore, cpuhp_cpupm_offline, kbind, tell, mod_pm, kmod, kret. destruct (cluster_settings _ _ _ _) as [[] s1| |] eqn:E; [|done..]. intros [= <-]. exact (settings_online _ _ _ _ _ E).
Qed.

#[export] Instance powered_laws : HotplugLaws cpupm_state powered.
Proof.
  split; intros c k r k'; cbn [add_cpu remove_cpu powered online].
  - unfold bring_up. case_bool_decide as Hc; [intros [= <- <-]; right; left; split; [done|]; split; [by apply elem_of_list_to_set|done]|]. destruct (negb _); [intros [= <- <-]; right; right; by split|].
    destruct (run_event (EvUp c) k) as [[] k1| |] eqn:E; intros [= <- <-]; [|right; right; by split..]. left. split; [done|]. split; [by rewrite elem_of_list_to_set|]. cbn. by rewrite (up_online _ _ _ E).
  - unfold take_down. case_bool_decide as Hc; [|intros [= <- <-]; right; left; split; [done|]; split; [by rewrite elem_of_list_to_set|done]].
    destruct (run_event (EvDown c) k) as [[] k1| |] eqn:E; intros [= <- <-]; [|right; right; by split..]. left. split; [done|]. split; [by apply elem_of_list_to_set|]. cbn. rewrite (down_online _ _ _ E). apply set_eq. intros x. rewrite elem_of_list_to_set, list_elem_of_filter, elem_of_difference, elem_of_list_to_set, elem_of_singleton. tauto.
Qed.

(** ** Hotplug does not fail while the cpus run *)

Record awake (n : nat) (k : cpupm_state) : Prop := {
  aw_sound : sound Stable k;
  aw_len : length (s_cpus k) = n;
  aw_run : forall c, cstate (view_of k) c = CPUPM_STATE_BUSY }.

(** An entered mode has an idle cpu. *)
Lemma awake_modes n k j m : awake n k -> v_modes (view_of k) !! j = Some m -> mv_state m = CPUPM_STATE_BUSY.
Proof.
  intros [[Hok _] _ Hrun] Hm. pose proof (b_states _ _ (ok_base _ _ Hok)) as S. destruct (sk_mode _ _ S _ _ Hm) as [|Hi]; [done|]. exfalso. destruct (sk_some _ _ S _ _ Hm Hi) as (c & Hs & Ho). pose proof (sk_siblings _ _ S _ _ _ Hm Hi Hs Ho) as E. by rewrite Hrun in E.
Qed.

Lemma goes_down_states c v : (forall c', cstate (goes_down c v) c' = cstate v c') /\ length (v_cpus (goes_down c v)) = length (v_cpus v) /\ v_modes (goes_down c v) = v_modes v.
Proof.
  unfold goes_down. destruct (cluster_call_frame c 1 ClusterDisable (call_made (CpuDisable c) (set_hot c true v))) as (E1 & E2 & _). split; [|split; [by rewrite E1; apply length_alter|exact E2]].
  intros c'. unfold cstate, cpu_of. rewrite E1. apply cstate_set_hot.
Qed.

Lemma comes_up_states c v : (forall c', cstate (comes_up c v) c' = cstate v c') /\ length (v_cpus (comes_up c v)) = length (v_cpus v) /\ v_modes (comes_up c v) = v_modes v.
Proof.
  unfold comes_up. destruct (cluster_call_frame c 0 ClusterEnable v) as (E1 & E2 & _). split; [|split; [|exact E2]].
  - intros c'. rewrite cstate_set_hot. unfold cstate, cpu_of. cbn. by rewrite E1.
  - unfold set_hot. cbn. by rewrite length_alter, E1.
Qed.

Lemma awake_reliable n : reliable n (awake n).
Proof.
  split; intros c k r k' Haw Hc; cbn [add_cpu remove_cpu powered]; pose proof Haw as [Hs Hl Hr].
  - unfold bring_up. case_bool_decide as Ho; [by intros [= <- <-]|]. rewrite (proj2 (Nat.ltb_lt _ _)) by lia. cbn [negb]. assert (Hlt : (c < length (s_cpus k))%nat) by lia. destruct (wp_run _ _ _ (wp_online c k Hs Ho Hlt)) as (x & k1 & Erun & Hs1 & Ev). cbn [run_event]. unfold ignore, kbind. rewrite Erun.
    cbn. intros [= <- <-]. split; [lia|]. destruct (comes_up_states c (view_of k)) as (E1 & E2 & E3). assert (Hm : forall ty, mode_busy (view_of k1) c ty). { intros ty j m _ Hm. rewrite Ev, E3 in Hm. by eapply awake_modes. }
    assert (Hlen : length (s_cpus k1) = n) by (rewrite <- view_len, Ev, E2, view_len; done). assert (Hcome : sound Stable (k1 <| s_online := c :: s_online k1 |>)). { apply (wp_done _ _ k1 tt _ (wp_event (Up c) (EvCome c) k1 Hs1 (conj eq_refl (conj (Hm _) (Hm _)))) eq_refl). }
    split; [exact Hcome|exact Hlen|]. intros c'. change (cstate (view_of k1) c' = CPUPM_STATE_BUSY). by rewrite Ev, E1.
  - unfold take_down. case_bool_decide as Ho; [|by intros [= <- <-]]. assert (Hb : pm_state (pm_of k c) = CPUPM_STATE_BUSY) by (by rewrite view_state). destruct (wp_run _ _ _ (wp_offline c k Hs Ho Hb)) as (x & k1 & Erun & Hs1 & Ev). cbn [run_event]. unfold ignore, kbind. rewrite Erun.
    cbn. intros [= <- <-]. split; [lia|]. destruct (goes_down_states c (view_of k)) as (E1 & E2 & E3). assert (Hlen : length (s_cpus k1) = n) by (rewrite <- view_len, Ev, E2, view_len; done).
    assert (Hgone : sound Stable (k1 <| s_online := filter (fun c' => c' <> c) (s_online k1) |>)) by (apply (wp_done _ _ k1 tt _ (wp_event (Down c) (EvGone c) k1 Hs1 eq_refl) eq_refl)).
    split; [exact Hgone|exact Hlen|]. intros c'. change (cstate (view_of k1) c' = CPUPM_STATE_BUSY). by rewrite Ev, E1.
Qed.

Lemma probe_awake n eints answers dt k0 : always_allocates answers -> tree_fits n (length eints) dt -> exynos_cpupm_probe dt (fresh n eints answers) = Done 0 k0 -> awake n k0.
Proof. intros Ha Ht Hp. destruct (wp_done _ _ _ 0 k0 (wp_probe n eints answers dt Ha Ht) Hp) as (_ & B & _). split; apply B. Qed.

Lemma awake_online n k c : awake n k -> c ∈ online k -> (c < n)%nat.
Proof. intros [[Hok _] Hl _] Hc. cbn in Hc. apply elem_of_list_to_set in Hc. pose proof (tk_online _ (b_tree _ _ (ok_base _ _ Hok)) c Hc) as Hlt. by rewrite view_len, Hl in Hlt. Qed.

(** ** The two drivers together *)

(** C15. Both drivers probed and no cpu idle, after any history of the hotplug driver, switching off and on included, every
    legal event completes, and the power controller has then been told to switch off exactly the cpus that are not online,
    and exactly the clusters of which no cpu is online. When the event makes the driver look at its users' requests and
    leaves it not suspended, and the driver has never been switched off, or is on and its mask was the cpus online, these
    are exactly the cpus that some user forbids. *)
Theorem requests_switch_power n eints answers dt k0 parse alloc evs s e (Ha : always_allocates answers) (Ht : tree_fits n (length eints) dt)
    (Hp : exynos_cpupm_probe dt (fresh n eints answers) = Done 0 k0) (R : hp_reached n parse k0 alloc evs s) (Hl : hp_legal parse e (hp_spec n parse alloc evs)) :
  exists r s', run_hp n parse e s = Done r s' /\
    let k := cp_kernel s' in let told := omap power_call (s_log k) in let may c := allowed n (hp_spec n parse alloc (evs ++ [e])) c in
    (forall c, (c < n)%nat -> cpu_off c told = true <-> c ∉ cp_cpus s') /\
    (forall j m, s_mode_list k !! j = Some m -> pw_type m = POWERMODE_TYPE_CLUSTER -> cluster_off (pw_cal_id m) told = true <-> forall c, c ∈ pw_siblings m -> c ∉ cp_cpus s') /\
    (applies parse e (hp_spec n parse alloc evs) -> cp_suspended s' = false -> HpDisable ∉ evs \/ (cp_online_cpus s = cp_cpus s /\ cp_enabled s' = true) -> forall c, c ∈ cp_cpus s' <-> may c).
Proof.
  pose proof (probe_awake _ _ _ _ _ Ha Ht Hp) as Haw0. destruct (event_serves n parse k0 alloc evs s e R Hl) as (r & s' & Hrun & R' & Hsv). exists r, s'. split; [done|]. intros k told may.
  pose proof (hp_reached_kernel n parse k0 alloc (awake n) evs s (awake_reliable n) Haw0 R) as Haw. pose proof (hp_reached_kernel n parse k0 alloc (awake n) _ s' (awake_reliable n) Haw0 R') as Haw'. change (cp_kernel s') with k in Haw'. pose proof Haw' as [Hsd Hlen Hrun']. pose proof Hsd as [Hok _].
  assert (Hon : forall c, alive Stable (view_of k) c <-> c ∈ cp_cpus s') by (intros c; unfold alive, cp_cpus; cbn; rewrite elem_of_list_to_set; naive_solver).
  pose proof (b_calls _ _ (ok_base _ _ Hok)) as [C1 C2 _]. split; [|split].
  - intros c Hc. pose proof (C2 c) as E. rewrite view_len, Hlen, Hrun' in E. specialize (E Hc). rewrite Hon in E. split; [intros [Hi|Hi]%E; done|]. intros Hn. apply E. by right.
  - intros j m Hm Hty. pose proof (sound_mode Stable k j m Hsd Hm) as Hv. pose proof (C1 j (view_mode m) Hv Hty) as E. cbn in E. change (cluster_off (pw_cal_id m) told = true <-> pw_state m = CPUPM_STATE_IDLE \/ forall c, c ∈ pw_siblings m -> ~ alive Stable (view_of k) c) in E. rewrite E. split.
    + intros [Hi|Hi] c Hc; [|rewrite <- Hon; by apply Hi]. exfalso. pose proof (awake_modes n k j _ Haw' Hv) as Eb. cbn in Eb. by rewrite Hi in Eb.
    + intros Hall. right. intros c Hc. rewrite Hon. by apply Hall.
  - intros Happ Hsus Hx. assert (Hne : e <> HpDisable) by (by intros ->). destruct (hp_reached_in_step n parse k0 alloc evs s R) as (_ & _ & _ & Hs0). destruct (hp_reached_in_step n parse k0 alloc _ s' R') as (_ & _ & _ & Hs1).
    assert (Hx' : mask_exact s /\ cp_enabled s' = true). { destruct Hx as [Hno|Hx]; [|done]. split; [by apply Hs0|]. apply Hs1. rewrite elem_of_app, list_elem_of_singleton. naive_solver. }
    destruct Hx' as [Hx1 Hx2]. exact (Hsv Happ Hx1 Hx2 Hsus (awake n) (awake_reliable n) Haw).
Qed.

(** ** Three cpus *)

Definition all3 : cpuset := {[0; 1; 2]}%nat.
Definition joined : cpuhp cpupm_state := match exynos_cpuhp_probe 3 true (cpuhp_zero booted) with Done _ s => s | _ => cpuhp_zero booted end.
Definition throttling : hp_event := HpRegister true "tmu" all3.
Definition throttled : cpuhp cpupm_state := match run_hp 3 one_digit throttling joined with Done _ s => s | _ => joined end.

Lemma throttled_reached : hp_reached 3 one_digit booted true [throttling] throttled.
Proof.
  apply (hp_next 3 one_digit booted true [] joined throttling 0).
  - apply hp_start; [apply (bool_decide_unpack _); by vm_compute..|by vm_compute].
  - split; [by vm_compute|]. split; [cbn; unfold CPUHP_USER_NAME_LEN; lia|]. apply (bool_decide_unpack _). by vm_compute.
  - by vm_compute.
Qed.

Lemma suspended_after {K A} (m : M (cpuhp K) A) s r s' : m s = Done r s' -> (match m s with Done _ x => cp_suspended x | _ => true end) = false -> cp_suspended s' = false.
Proof. by intros ->. Qed.

Lemma requests_switch_power_witness : exists r s', run_hp 3 one_digit (HpRequest "tmu" {[0; 1]}%nat) throttled = Done r s' /\ cpu_off 2 (omap power_call (s_log (cp_kernel s'))) = true.
Proof.
  assert (Happ : applies one_digit (HpRequest "tmu" {[0; 1]}%nat) (hp_spec 3 one_digit true [throttling])) by (vm_compute; by eexists). assert (Hl : hp_legal one_digit (HpRequest "tmu" {[0; 1]}%nat) (hp_spec 3 one_digit true [throttling])) by (intros _; set_solver).
  destruct (requests_switch_power 3 [1] calm_answers machine booted one_digit true [throttling] throttled (HpRequest "tmu" {[0; 1]}%nat) always_calm machine_fits booted_by_probe throttled_reached Hl) as (r & s' & Hrun & Hcpu & _ & Hreq). exists r, s'. split; [exact Hrun|].
  assert (Hsus : cp_suspended s' = false). { assert (E : (match run_hp 3 one_digit (HpRequest "tmu" {[0; 1]}%nat) throttled with Done _ s => cp_suspended s | _ => true end) = false) by (by vm_compute). exact (suspended_after _ _ _ _ Hrun E). }
  assert (Hno : HpDisable ∉ [throttling]) by (apply not_elem_of_cons; split; [done|by apply not_elem_of_nil]).
  apply Hcpu; [lia|]. rewrite (Hreq Happ Hsus (or_introl Hno)). intros [_ Hall]. assert (Hm : hp_spec 3 one_digit true ([throttling] ++ [HpRequest "tmu" {[0; 1]}%nat]) !! "tmu"%string = Some {[0; 1]}%nat) by (by vm_compute). specialize (Hall _ _ Hm). clear - Hall. set_solver.
Defined.
