(* ===== verification/PixelEm.v ===== *)
(** * The energy model that can be changed at run time

    [drivers/soc/google/pixel_em/pixel_em.c]: the kernel's performance domains are
    cloned, with a second clone as the default; a profile, text from the device
    tree or from a file, sets the power of the clones' entries. The blocks of
    memory are a heap, the kernel's own domains among them. *)

From Stdlib Require Import Ascii.
From S2P Require Import Prelude.

(** ** Data *)

Definition EPROBE_DEFER : Z := 517.

Abbreviation cpumask_t := (gset nat).
Record em_perf_state := MkPs { frequency : Z; power : Z; cost : Z }.
Record em_perf_domain := MkPd { table : Z; nr_perf_states : Z; pd_flags : Z; pd_cpus : cpumask_t }.
#[export] Instance eta_ps : Eta em_perf_state := mk_eta (fun p => MkPs (frequency p) (power p) (cost p)).
#[export] Instance eta_pd : Eta em_perf_domain := mk_eta (fun d => MkPd (table d) (nr_perf_states d) (pd_flags d) (pd_cpus d)).

Inductive em_block := BDomain (d : em_perf_domain) | BTable (l : list em_perf_state) | BPtrs (l : list Z) | BInts (l : list Z) | BText (s : string).

(** The variables of the file, the heap, and what the next allocations answer
    (they succeed when the list has ended). *)
Record em := MkEm {
  m_heap : gmap Z em_block; m_next : Z; m_mem : list bool;
  pixel_em_max_cpu : Z; pixel_em_num_cpu_pds : Z; em_pds : Z; em_pds_backup : Z; cpu_to_em_pd : Z; em_pd_to_cpu : Z;
  sysfs_em_pd_lock : bool; primary_sysfs_folder : bool; platform_dev : bool; vendor_sched_cpu_to_em_pd : Z; exynos_cpu_cooling_cpu_to_em_pd : Z }.
#[export] Instance eta_em : Eta em := mk_eta (fun s => MkEm (m_heap s) (m_next s) (m_mem s) (pixel_em_max_cpu s) (pixel_em_num_cpu_pds s) (em_pds s) (em_pds_backup s) (cpu_to_em_pd s)
  (em_pd_to_cpu s) (sysfs_em_pd_lock s) (primary_sysfs_folder s) (platform_dev s) (vendor_sched_cpu_to_em_pd s) (exynos_cpu_cooling_cpu_to_em_pd s)).
Abbreviation PM A := (M em A).

(** ** Memory *)

Definition m_alloc (b : em_block) : PM Z := fun s =>
  match m_mem s with
  | false :: l => Done 0 (s <| m_mem := l |>)
  | _ => Done (m_next s) (s <| m_mem := tail (m_mem s) |> <| m_heap := <[m_next s := b]> (m_heap s) |> <| m_next := m_next s + 1 |>)
  end.
Definition kfree (p : Z) : PM unit := fun s =>
  if p =? 0 then Done tt s else match m_heap s !! p with Some _ => Done tt (s <| m_heap := delete p (m_heap s) |>) | None => Fault end.
Definition m_load (p : Z) : PM em_block := fun s => match m_heap s !! p with Some b => Done b s | None => Fault end.
Definition m_store (p : Z) (b : em_block) : PM unit := fun s => match m_heap s !! p with Some _ => Done tt (s <| m_heap := <[p := b]> (m_heap s) |>) | None => Fault end.

Definition get_domain (p : Z) : PM em_perf_domain := let! b := m_load p in match b with BDomain d => kret d | _ => kfault end.
Definition get_table (p : Z) : PM (list em_perf_state) := let! b := m_load p in match b with BTable l => kret l | _ => kfault end.
Definition get_ptrs (p : Z) : PM (list Z) := let! b := m_load p in match b with BPtrs l => kret l | _ => kfault end.
Definition get_ints (p : Z) : PM (list Z) := let! b := m_load p in match b with BInts l => kret l | _ => kfault end.
(** An index outside its array is a fault. *)
Definition idx {A} (l : list A) (i : Z) : PM A := if i <? 0 then kfault else match l !! Z.to_nat i with Some x => kret x | None => kfault end.
Definition set_idx {A} (l : list A) (i : Z) (x : A) : PM (list A) := if (i <? 0) || (Z.of_nat (length l) <=? i) then kfault else kret (<[Z.to_nat i := x]> l).

Definition get_ptr (a i : Z) : PM Z := let! l := get_ptrs a in idx l i.
Definition set_ptr (a i p : Z) : PM unit := let! l := get_ptrs a in let! l := set_idx l i p in m_store a (BPtrs l).
Definition set_int (a i v : Z) : PM unit := let! l := get_ints a in let! l := set_idx l i v in m_store a (BInts l).
Definition set_state (a i : Z) (f : em_perf_state -> em_perf_state) : PM unit :=
  let! l := get_table a in let! p := idx l i in let! l := set_idx l i (f p) in m_store a (BTable l).

Fixpoint m_iter {A} (f : A -> PM unit) (l : list A) : PM unit := match l with [] => kret tt | x :: l' => do! f x in m_iter f l' end.

(** ** Cloning domains *)

(** A block of the domain, then one of its table, filled by [memcpy]. *)
Definition clone_pd (original_pd : Z) : PM Z :=
  let! o := get_domain original_pd in
  let! pd := m_alloc (BDomain (MkPd 0 (nr_perf_states o) (pd_flags o) (pd_cpus o))) in
  if pd =? 0 then kret 0
  else
    let! t := m_alloc (BTable (replicate (Z.to_nat (nr_perf_states o)) (MkPs 0 0 0))) in
    if t =? 0 then do! kfree pd in kret 0
    else
      do! m_store pd (BDomain (MkPd t (nr_perf_states o) (pd_flags o) (pd_cpus o))) in
      let! src := get_table (table o) in
      if Z.of_nat (length src) <? nr_perf_states o then kfault
      else do! m_store t (BTable (take (Z.to_nat (nr_perf_states o)) src)) in kret pd.

Definition copy_state (dest orig : Z) (i : Z) : PM unit :=
  let! l := get_table orig in
  let! p := idx l i in
  set_state dest i (fun d => d <| power := power p |> <| cost := cost p |>).
Definition copy_pd_table (dest_pd orig_pd : Z) : PM unit :=
  let! d := get_domain dest_pd in
  let! o := get_domain orig_pd in
  if negb (nr_perf_states d =? nr_perf_states o) then kret tt
  else m_iter (copy_state (table d) (table o)) (seqZ 0 (nr_perf_states o)).

Definition free_pd (pd : Z) : PM unit := if pd =? 0 then kret tt else let! d := get_domain pd in do! kfree (table d) in kfree pd.

(** ** Text *)

Definition digit_val (c : ascii) : option Z :=
  let n := Z.of_nat (nat_of_ascii c) in if (48 <=? n) && (n <=? 57) then Some (n - 48) else None.

(** [simple_strtoull] in base ten, which wraps. *)
Fixpoint simple_strtoull (s : string) (acc : Z) : Z * string :=
  match s with
  | String c s' => match digit_val c with Some d => simple_strtoull s' (u64 (acc * 10 + d)) | None => (acc, s) end
  | EmptyString => (acc, s)
  end.
Definition starts_digit (s : string) : bool := match s with String c _ => bool_decide (is_Some (digit_val c)) | EmptyString => false end.
(** [sscanf] with [%lu], with [%d], and with ["%lu %lu"]. *)
Definition scan_lu (s : string) : option (Z * string) := let s := skip_spaces s in if starts_digit s then Some (simple_strtoull s 0) else None.
Definition scan_d (s : string) : option Z :=
  match skip_spaces s with
  | String "-" s' => if starts_digit s' then Some (s32 (- fst (simple_strtoull s' 0))) else None
  | s => if starts_digit s then Some (s32 (fst (simple_strtoull s 0))) else None
  end.
Definition scan_lu_lu (s : string) : option (Z * Z) := '(a, s) ← scan_lu s; '(b, _) ← scan_lu s; Some (a, b).

Definition tolower (c : ascii) : ascii := let n := nat_of_ascii c in if ((65 <=? n) && (n <=? 90))%nat then ascii_of_nat (n + 32) else c.
Fixpoint lower (s : string) : string := match s with String c s' => String (tolower c) (lower s') | EmptyString => EmptyString end.
(** [strncasecmp(s, t, n) == 0]. *)
Definition strncasecmp0 (s t : string) (n : nat) : bool := bool_decide (str_take n (lower s) = str_take n (lower t)).
Fixpoint str_drop (n : nat) (s : string) : string := match n, s with S n', String _ s' => str_drop n' s' | _, _ => s end.

(** [strsep(&s, "\n")]: the first line, and what is after it. *)
Fixpoint strsep (s : string) : string * option string :=
  match s with
  | EmptyString => (EmptyString, None)
  | String c s' => if bool_decide (c = newline) then (EmptyString, Some s') else let '(line, rest) := strsep s' in (String c line, rest)
  end.
(** ** Profiles *)

(** The first entry that is as fast, from [i] on. *)
Fixpoint find_opp (fuel : nat) (l : list em_perf_state) (nr freq i : Z) : PM Z :=
  match fuel with
  | O => kblock
  | S fuel => if i <? nr then let! p := idx l i in if freq <=? frequency p then kret i else find_opp fuel l nr freq (i + 1) else kret i
  end.

(** [unsigned long] arithmetic; a division by zero is a fault. *)
Definition update_em_entry (cpu_id freq pow : Z) : PM unit :=
  let! s := kget in
  let! pd := get_ptr (cpu_to_em_pd s) cpu_id in
  let! d := get_domain pd in
  let! l := get_table (table d) in
  let! target_opp_index := find_opp (S (Z.to_nat (nr_perf_states d))) l (nr_perf_states d) freq 0 in
  let! m := idx l (nr_perf_states d - 1) in
  do! (if freq =? 0 then kfault else kret tt) in
  set_state (table d) target_opp_index (fun p => p <| power := pow |> <| cost := u64 (frequency m * pow) / freq |>).

(** The loop over the lines, from the string that is left and the active cpu. *)
Fixpoint parse_lines (fuel : nat) (sep_iterator : option string) (current_cpu_id : Z) : PM Z :=
  match fuel with
  | O => kblock
  | S fuel =>
      match sep_iterator with
      | None => kret 0
      | Some str =>
          let '(cur_line, rest) := strsep str in
          let skipped_blanks := skip_spaces cur_line in
          if match skipped_blanks with EmptyString => true | String c _ => bool_decide (c = "}"%char) end then parse_lines fuel rest current_cpu_id
          else if strncasecmp0 skipped_blanks "cpu" 3 then
            match scan_d (str_drop 3 skipped_blanks) with
            | None => kret (- EINVAL)
            | Some id =>
                let! s := kget in
                if (id <? 0) || (pixel_em_max_cpu s <? id) then kret (- EINVAL) else parse_lines fuel rest id
            end
          else if current_cpu_id =? -1 then kret (- EINVAL)
          else
            match scan_lu_lu skipped_blanks with
            | None => kret (- EINVAL)
            | Some (freq, pow) =>
                if (freq =? 0) || (pow =? 0) then kret (- EINVAL)
                else do! update_em_entry current_cpu_id freq pow in parse_lines fuel rest current_cpu_id
            end
      end
  end.

Definition parse_profile (profile : string) (profile_length : nat) : PM Z :=
  let text := str_take profile_length (c_string profile) in
  let! profile_dup := m_alloc (BText text) in
  if profile_dup =? 0 then kret (- ENOMEM)
  else
    let! res := parse_lines (S (S (String.length text))) (Some text) (-1) in
    do! kfree profile_dup in
    kret res.

(** ** The file *)

Definition PAGE_SIZE : nat := 4096.
Definition sysfs_lock : PM unit := fun s => if sysfs_em_pd_lock s then Blocked else Done tt (s <| sysfs_em_pd_lock := true |>).
Definition sysfs_unlock : PM unit := kmod (fun s => s <| sysfs_em_pd_lock := false |>).

(** [sysfs_emit_at] at the end of what the page holds. *)
Definition sysfs_emit_at (buf out : string) : string :=
  if (PAGE_SIZE <=? String.length buf)%nat then buf else (buf ++ str_take (PAGE_SIZE - String.length buf - 1) out)%string.

Definition show_state (l : list em_perf_state) (buf : string) (i : Z) : PM string :=
  let! p := idx l i in
  kret (sysfs_emit_at buf (print_lu (frequency p) ++ " " ++ print_lu (power p) ++ String newline "")).
Fixpoint m_fold {A B} (f : B -> A -> PM B) (b : B) (l : list A) : PM B := match l with [] => kret b | x :: l' => let! b := f b x in m_fold f b l' end.
Definition show_domain (buf : string) (pd_id : Z) : PM string :=
  let! s := kget in
  let! firsts := get_ints (em_pd_to_cpu s) in
  let! cpu := idx firsts pd_id in
  let buf := sysfs_emit_at buf ("cpu" ++ print_d cpu ++ " {" ++ String newline "") in
  let! pd := get_ptr (em_pds s) pd_id in
  let! d := get_domain pd in
  let! l := get_table (table d) in
  let! buf := m_fold (show_state l) buf (seqZ 0 (nr_perf_states d)) in
  kret (sysfs_emit_at buf ("}" ++ String newline "")).
Definition sysfs_profile_show : PM string :=
  do! sysfs_lock in
  let! s := kget in
  let! buf := m_fold show_domain "" (seqZ 0 (pixel_em_num_cpu_pds s)) in
  do! sysfs_unlock in
  kret buf.

(** [copy_pd_table] from the backups to the domains, or back. *)
Definition restore (dest orig : em -> Z) : PM unit :=
  let! s := kget in
  m_iter (fun i => let! d := get_ptr (dest s) i in let! o := get_ptr (orig s) i in copy_pd_table d o) (seqZ 0 (pixel_em_num_cpu_pds s)).
Definition sysfs_profile_store (buf : string) (count : nat) : PM Z :=
  if strncasecmp0 buf "default" 7 then
    do! sysfs_lock in do! restore em_pds em_pds_backup in do! sysfs_unlock in kret (Z.of_nat count)
  else
    do! sysfs_lock in
    let! res := parse_profile buf count in
    let parse_successful := negb (res =? 0) in
    do! sysfs_unlock in
    kret (if parse_successful then Z.of_nat count else - EINVAL).

(** ** Set-up and release *)

Definition pixel_em_clean_up_sysfs_nodes : PM unit := kmod (fun s => s <| primary_sysfs_folder := false |>).
Definition pixel_em_initialize_sysfs_nodes (folder_ok file_ok : bool) : PM Z :=
  let! s := kget in
  if primary_sysfs_folder s then kret (- EINVAL)
  else if negb folder_ok then kret (- EINVAL)
  else
    do! kmod (fun s => s <| primary_sysfs_folder := true |>) in
    kret (if negb file_ok then - EINVAL else 0).

Section Cpus.
Context (nr_cpu_ids : nat) (cpu_possible_mask : cpumask_t).
(** The kernel's domain of a cpu. *)
Context (em_cpu_get : nat -> Z).

Definition cpus (m : cpumask_t) : list nat := filter (fun c => c ∈ m) (seq 0 nr_cpu_ids).
Definition cpumask_first (m : cpumask_t) : nat := default nr_cpu_ids (head (cpus m)).
Definition cpumask_last (m : cpumask_t) : nat := default nr_cpu_ids (last (cpus m)).
Definition cpumask_xor (a b : cpumask_t) : cpumask_t := (a ∖ b) ∪ (b ∖ a).

(** Each turn of the loops takes a domain's cpus away; one turn per cpu and one
    more are enough. *)
Fixpoint count_pds (fuel : nat) (unmatched_cpus : cpumask_t) (res : Z) : PM Z :=
  match fuel with
  | O => kblock
  | S fuel =>
      if bool_decide (unmatched_cpus = ∅) then kret res
      else
        let pd := em_cpu_get (cpumask_first unmatched_cpus) in
        if pd =? 0 then kret (- EPROBE_DEFER)
        else let! d := get_domain pd in count_pds fuel (cpumask_xor unmatched_cpus (pd_cpus d)) (res + 1)
  end.
Definition pixel_em_count_cpu_pds : PM Z := count_pds (S nr_cpu_ids) cpu_possible_mask 0.

Fixpoint init_pds (fuel : nat) (unmatched_cpus : cpumask_t) (current_pd_id : Z) : PM Z :=
  match fuel with
  | O => kblock
  | S fuel =>
      if bool_decide (unmatched_cpus = ∅) then kret 0
      else
        let first_cpu := cpumask_first unmatched_cpus in
        let pd := em_cpu_get first_cpu in
        let! s := kget in
        do! set_int (em_pd_to_cpu s) current_pd_id (Z.of_nat first_cpu) in
        let! p := clone_pd pd in
        do! set_ptr (em_pds s) current_pd_id p in
        if p =? 0 then kret (- ENOMEM)
        else
          let! b := clone_pd p in
          do! set_ptr (em_pds_backup s) current_pd_id b in
          if b =? 0 then kret (- ENOMEM)
          else
            let! d := get_domain pd in
            do! m_iter (fun pd_cpu => set_ptr (cpu_to_em_pd s) (Z.of_nat pd_cpu) p) (cpus (pd_cpus d)) in
            init_pds fuel (cpumask_xor unmatched_cpus (pd_cpus d)) (current_pd_id + 1)
  end.

Definition pixel_em_init_cpu_layout : PM Z :=
  let! num_cpu_pds := pixel_em_count_cpu_pds in
  if num_cpu_pds <=? 0 then kret num_cpu_pds
  else
    do! kmod (fun s => s <| pixel_em_num_cpu_pds := num_cpu_pds |> <| pixel_em_max_cpu := Z.of_nat (cpumask_last cpu_possible_mask) |>) in
    let! s := kget in
    let! p := m_alloc (BPtrs (replicate (Z.to_nat (pixel_em_max_cpu s + 1)) 0)) in
    do! kmod (fun s => s <| cpu_to_em_pd := p |>) in
    if p =? 0 then kret (- ENOMEM)
    else
      let! p := m_alloc (BInts (replicate (Z.to_nat num_cpu_pds) 0)) in
      do! kmod (fun s => s <| em_pd_to_cpu := p |>) in
      if p =? 0 then kret (- ENOMEM)
      else
        let! p := m_alloc (BPtrs (replicate (Z.to_nat num_cpu_pds) 0)) in
        do! kmod (fun s => s <| em_pds := p |>) in
        if p =? 0 then kret (- ENOMEM)
        else
          let! p := m_alloc (BPtrs (replicate (Z.to_nat num_cpu_pds) 0)) in
          do! kmod (fun s => s <| em_pds_backup := p |>) in
          if p =? 0 then kret (- ENOMEM) else init_pds (S nr_cpu_ids) cpu_possible_mask 0.

(** The domains of an array, then the array. *)
Definition free_pds (a : Z) : PM unit :=
  if a =? 0 then kret tt
  else
    let! s := kget in
    do! m_iter (fun i => let! p := get_ptr a i in if p =? 0 then kret tt else free_pd p) (seqZ 0 (pixel_em_num_cpu_pds s)) in
    kfree a.
Definition pixel_em_drv_undo_probe : PM unit :=
  do! pixel_em_clean_up_sysfs_nodes in
  let! s := kget in
  do! (if platform_dev s then kret tt else do! kfree (cpu_to_em_pd s) in free_pds (em_pds s)) in
  do! kfree (em_pd_to_cpu s) in
  do! kmod (fun s => s <| em_pd_to_cpu := 0 |>) in
  do! free_pds (em_pds_backup s) in
  kmod (fun s => s <| em_pds_backup := 0 |> <| cpu_to_em_pd := 0 |> <| em_pds := 0 |> <| platform_dev := false |>).

(** The profile of the device tree is there or not. *)
Definition pixel_em_drv_probe (dt_profile : option string) (folder_ok file_ok : bool) : PM Z :=
  let! res := pixel_em_init_cpu_layout in
  if res <? 0 then do! pixel_em_drv_undo_probe in kret res
  else
    do! (match dt_profile with
         | None => kret tt
         | Some p => do! parse_profile p (String.length p) in restore em_pds_backup em_pds
         end) in
    let! res := pixel_em_initialize_sysfs_nodes folder_ok file_ok in
    if res <? 0 then do! pixel_em_drv_undo_probe in kret res
    else
      do! kmod (fun s => s <| platform_dev := true |>) in
      do! kmod (fun s => s <| vendor_sched_cpu_to_em_pd := cpu_to_em_pd s |>) in
      do! kmod (fun s => s <| exynos_cpu_cooling_cpu_to_em_pd := cpu_to_em_pd s |>) in
      kret res.
Definition pixel_em_drv_remove : PM Z := do! pixel_em_drv_undo_probe in kret 0.
End Cpus.
