(* ===== verification/PixelEmText.v ===== *)
(** * The text of a profile

    Printing and scanning of numbers, lines, and what a line of a profile says;
    the loop of [parse_profile] as a loop over what the lines say. *)

From Stdlib Require Import Ascii.
From S2P Require Import Prelude PixelEm.

#[local] Open Scope string_scope.
#[local] Open Scope Z_scope.

(** ** Numbers *)

Lemma append_cons c r s : String c r ++ s = String c (r ++ s).
Proof. done. Qed.
Lemma append_nil s : s ++ "" = s.
Proof. induction s as [|c s IH]; [done|]. by rewrite append_cons, IH. Qed.
Lemma append_assoc a b c : (a ++ b) ++ c = a ++ b ++ c.
Proof. induction a as [|x a IH]; [done|]. by rewrite !append_cons, IH. Qed.

(** The ten digits, one by one. *)
Ltac by_digit H :=
  match type of H with
  | 0 <= ?d < 10 =>
      let E := fresh "E" in
      assert (d = 0 \/ d = 1 \/ d = 2 \/ d = 3 \/ d = 4 \/ d = 5 \/ d = 6 \/ d = 7 \/ d = 8 \/ d = 9) as E by lia;
      by repeat (destruct E as [->|E]; [done|]); subst
  end.

Lemma digit_of_val d : 0 <= d < 10 -> digit_val (digit_of d) = Some d.
Proof. intros H. by_digit H. Qed.

Lemma put_dec_scan fuel : forall n acc, 0 <= n < 10 ^ Z.of_nat fuel -> (0 < fuel)%nat -> n < 2 ^ 64 -> simple_strtoull (put_dec fuel n acc) 0 = simple_strtoull acc n.
Proof.
  induction fuel as [|fuel IH]; intros n acc H Hf Hn; [lia|]. cbn [put_dec]. destruct (Z.ltb_spec n 10).
  - cbn [simple_strtoull]. by rewrite digit_of_val, u64_small by lia.
  - destruct fuel as [|fuel]; [change (10 ^ Z.of_nat 1) with 10 in H; lia|]. rewrite IH; [|split; [dlia|]|lia|dlia].
    + cbn [simple_strtoull]. rewrite digit_of_val by dlia. f_equal. rewrite u64_small; [dlia|]. split; dlia.
    + apply Z.div_lt_upper_bound; [lia|]. rewrite <- Z.pow_succ_r, <- Nat2Z.inj_succ by lia. lia.
Qed.

Lemma put_dec_head fuel : forall n acc, 0 <= n -> (0 < fuel)%nat -> exists d s, 0 <= d < 10 /\ put_dec fuel n acc = String (digit_of d) s.
Proof.
  induction fuel as [|fuel IH]; intros n acc Hn Hf; [lia|]. cbn [put_dec]. destruct (Z.ltb_spec n 10); [by exists n, acc|].
  destruct fuel as [|fuel]; [exists (n mod 10), acc; split; [dlia|done]|]. apply IH; [dlia|lia].
Qed.

Lemma put_dec_app fuel : forall n a b, put_dec fuel n (a ++ b) = put_dec fuel n a ++ b.
Proof. induction fuel as [|fuel IH]; intros n a b; [done|]. cbn [put_dec]. destruct (n <? 10); [done|]. by rewrite <- IH. Qed.

Lemma print_lu_head n : 0 <= n -> exists d s, 0 <= d < 10 /\ print_lu n = String (digit_of d) s.
Proof. intros. apply put_dec_head; [done|lia]. Qed.

(** What follows a number that has been read. *)
Definition no_digit (s : string) : Prop := starts_digit s = false.

Lemma strtoull_stops s n : no_digit s -> simple_strtoull s n = (n, s).
Proof. destruct s as [|c s]; [done|]. unfold no_digit. cbn [starts_digit simple_strtoull]. by destruct (digit_val c). Qed.

Lemma strtoull_print n s : 0 <= n < 2 ^ 64 -> no_digit s -> simple_strtoull (print_lu n ++ s) 0 = (n, s).
Proof. intros H Hs. unfold print_lu. rewrite <- put_dec_app. rewrite put_dec_scan by lia. by apply strtoull_stops. Qed.

(** A digit is no blank. *)
Lemma digit_no_space d s : 0 <= d < 10 -> skip_spaces (String (digit_of d) s) = String (digit_of d) s /\ starts_digit (String (digit_of d) s) = true.
Proof. intros H. by_digit H. Qed.

Lemma scan_print n s : 0 <= n < 2 ^ 64 -> no_digit s -> scan_lu (print_lu n ++ s) = Some (n, s).
Proof.
  intros H Hs. unfold scan_lu. destruct (print_lu_head n) as (d & r & Hd & E); [lia|]. pose proof (strtoull_print n s H Hs) as Es. rewrite E in *. rewrite !append_cons in *.
  destruct (digit_no_space d (r ++ s) Hd) as [-> ->]. by rewrite Es.
Qed.

Lemma scan_d_digit d s : 0 <= d < 10 -> scan_d (String (digit_of d) s) = Some (s32 (fst (simple_strtoull (String (digit_of d) s) 0))).
Proof. intros H. by_digit H. Qed.

Lemma scan_d_print n s : 0 <= n < 2 ^ 31 -> no_digit s -> scan_d (print_d n ++ s) = Some n.
Proof.
  intros H Hs. unfold print_d. destruct (Z.ltb_spec n 0); [lia|]. destruct (print_lu_head n) as (d & r & Hd & E); [lia|].
  pose proof (strtoull_print n s ltac:(lia) Hs) as Es. rewrite E in *. rewrite !append_cons in *. rewrite scan_d_digit, Es by done. f_equal. apply s32_small. simpl. lia.
Qed.

Lemma no_digit_space s : no_digit (" " ++ s).
Proof. done. Qed.

(** A space of the format skips the blanks before the second number. *)
Lemma scan_two f p s : 0 <= f < 2 ^ 64 -> 0 <= p < 2 ^ 64 -> no_digit s -> scan_lu_lu (print_lu f ++ " " ++ print_lu p ++ s) = Some (f, p).
Proof.
  intros Hf Hp Hs. unfold scan_lu_lu. rewrite scan_print by done. simpl mbind.
  change (scan_lu (" " ++ print_lu p ++ s)) with (scan_lu (print_lu p ++ s)). by rewrite scan_print.
Qed.

(** ** Lines *)

Fixpoint split_lines (s : string) : list string :=
  match s with
  | EmptyString => [EmptyString]
  | String c s' =>
      if bool_decide (c = newline) then EmptyString :: split_lines s'
      else match split_lines s' with l :: ls => String c l :: ls | [] => [] end
  end.

Lemma split_strsep s : split_lines s = fst (strsep s) :: match snd (strsep s) with Some r => split_lines r | None => [] end.
Proof. induction s as [|c s IH]; [done|]. cbn [split_lines strsep]. case_bool_decide; [done|]. rewrite IH. by destruct (strsep s). Qed.

Lemma strsep_shorter s r : snd (strsep s) = Some r -> (String.length r < String.length s)%nat.
Proof.
  revert r. induction s as [|c s IH]; intros r; [done|]. cbn [strsep]. case_bool_decide; [intros [= ->]; simpl; lia|].
  destruct (strsep s) as [l r']. simpl in *. intros ->. specialize (IH r eq_refl). lia.
Qed.

Fixpoint no_newline (s : string) : bool := match s with String c s' => negb (bool_decide (c = newline)) && no_newline s' | EmptyString => true end.

Lemma split_line l s : no_newline l = true -> split_lines (l ++ String newline s) = l :: split_lines s.
Proof.
  induction l as [|c l IH]; intros H; rewrite ?append_cons.
  - change ("" ++ String newline s) with (String newline s). cbn [split_lines]. by rewrite bool_decide_true.
  - cbn [split_lines]. cbn [no_newline] in H. apply andb_true_iff in H as [H1 H2]. apply negb_true_iff in H1. rewrite H1, IH by done. done.
Qed.

Lemma no_newline_app a b : no_newline (a ++ b) = no_newline a && no_newline b.
Proof. induction a as [|c a IH]; [done|]. simpl. by rewrite IH, andb_assoc. Qed.

Lemma digit_no_newline d : 0 <= d < 10 -> bool_decide (digit_of d = newline) = false.
Proof. intros H. apply bool_decide_eq_false. intros E. apply (f_equal digit_val) in E. by rewrite digit_of_val in E. Qed.

Lemma put_dec_no_newline fuel : forall n acc, 0 <= n -> no_newline (put_dec fuel n acc) = no_newline acc.
Proof.
  induction fuel as [|fuel IH]; intros n acc H; [done|]. cbn [put_dec]. destruct (Z.ltb_spec n 10).
  - cbn [no_newline]. by rewrite digit_no_newline by lia.
  - rewrite IH by dlia. cbn [no_newline]. by rewrite digit_no_newline by dlia.
Qed.

(** ** What a line says *)

Inductive line := LBlank | LCpu (id : option Z) | LState (fp : option (Z * Z)).

Definition read_line (s : string) : line :=
  let s := skip_spaces s in
  if match s with EmptyString => true | String c _ => bool_decide (c = "}"%char) end then LBlank
  else if strncasecmp0 s "cpu" 3 then LCpu (scan_d (str_drop 3 s))
  else LState (scan_lu_lu s).
Definition read_text (s : string) : list line := read_line <$> split_lines s.

Fixpoint run_lines (ls : list line) (current_cpu_id : Z) : PM Z :=
  match ls with
  | [] => kret 0
  | LBlank :: ls' => run_lines ls' current_cpu_id
  | LCpu None :: _ => kret (- EINVAL)
  | LCpu (Some id) :: ls' => let! s := kget in if (id <? 0) || (pixel_em_max_cpu s <? id) then kret (- EINVAL) else run_lines ls' id
  | LState fp :: ls' =>
      if current_cpu_id =? -1 then kret (- EINVAL)
      else match fp with
           | None => kret (- EINVAL)
           | Some (freq, pow) =>
               if (freq =? 0) || (pow =? 0) then kret (- EINVAL) else do! update_em_entry current_cpu_id freq pow in run_lines ls' current_cpu_id
           end
  end.

(** The loop of the code reaches the end of its string, and does what the lines say. *)
Lemma parse_lines_run fuel : forall text cur s, (String.length text + 1 < fuel)%nat -> parse_lines fuel (Some text) cur s = run_lines (read_text text) cur s.
Proof.
  induction fuel as [|fuel IH]; intros text cur s Hf; [lia|]. cbn [parse_lines]. unfold read_text. rewrite split_strsep, fmap_cons.
  destruct (strsep text) as [l rest] eqn:E. simpl fst; simpl snd.
  assert (Hrest : forall c s', parse_lines fuel rest c s' = run_lines (read_line <$> match rest with Some r => split_lines r | None => [] end) c s').
  { intros c s'. destruct rest as [r|]; [|destruct fuel; [lia|done]]. apply IH. pose proof (strsep_shorter text r). rewrite E in H. specialize (H eq_refl). lia. }
  unfold read_line at 1. set (sk := skip_spaces l). destruct (match sk with EmptyString => true | String c _ => bool_decide (c = "}"%char) end); [apply Hrest|].
  destruct (strncasecmp0 sk "cpu" 3).
  - destruct (scan_d (str_drop 3 sk)) as [id|]; [|done]. cbn [run_lines]. unfold kbind, kget. destruct ((id <? 0) || _); [done|apply Hrest].
  - cbn [run_lines]. destruct (cur =? -1); [done|]. destruct (scan_lu_lu sk) as [[freq pow]|]; [|done]. destruct ((freq =? 0) || (pow =? 0)); [done|].
    unfold kbind. destruct (update_em_entry cur freq pow s) as [[] s'| |]; [apply Hrest|done|done].
Qed.

(** ** What is printed *)

Definition cpu_line (cpu : Z) : string := "cpu" ++ print_d cpu ++ " {".
Definition state_line (p : em_perf_state) : string := print_lu (frequency p) ++ " " ++ print_lu (power p).

Lemma read_cpu_line n : 0 <= n < 2 ^ 31 -> read_line (cpu_line n) = LCpu (Some n).
Proof.
  intros H. unfold cpu_line. pose proof (scan_d_print n " {" H eq_refl) as E. set (rest := print_d n ++ " {") in *.
  change (read_line ("cpu" ++ rest)) with (LCpu (scan_d rest)). by rewrite E.
Qed.

Lemma digit_other d : 0 <= d < 10 -> tolower (digit_of d) <> "c"%char /\ digit_of d <> "}"%char.
Proof. intros H. by_digit H. Qed.

Lemma read_state_line p : 0 <= frequency p < 2 ^ 64 -> 0 <= power p < 2 ^ 64 -> read_line (state_line p) = LState (Some (frequency p, power p)).
Proof.
  intros Hf Hp. unfold read_line, state_line. pose proof (scan_two (frequency p) (power p) "" Hf Hp eq_refl) as E. rewrite append_nil in E.
  destruct (print_lu_head (frequency p)) as (d & r & Hd & Eh); [lia|]. rewrite Eh in *. rewrite !append_cons in *. set (rest := r ++ _) in *. destruct (digit_no_space d rest Hd) as [-> _].
  destruct (digit_other d Hd) as [H1 H2]. rewrite bool_decide_false by done. replace (strncasecmp0 _ _ _) with false; [by rewrite E|].
  symmetry. apply bool_decide_eq_false. cbn [lower str_take]. intros Heq. injection Heq. done.
Qed.

Lemma cpu_line_one n : 0 <= n -> no_newline (cpu_line n) = true.
Proof. intros H. unfold cpu_line, print_d. destruct (Z.ltb_spec n 0); [lia|]. rewrite !no_newline_app. unfold print_lu. by rewrite put_dec_no_newline. Qed.
Lemma state_line_one p : 0 <= frequency p -> 0 <= power p -> no_newline (state_line p) = true.
Proof. intros. unfold state_line, print_lu. rewrite !no_newline_app. by rewrite !put_dec_no_newline. Qed.

(** A text from its lines. *)
Fixpoint unlines (l : list string) : string := match l with [] => "" | x :: l' => x ++ String newline (unlines l') end.

Lemma split_unlines l : Forall (fun x => no_newline x = true) l -> split_lines (unlines l) = app l [EmptyString].
Proof. induction 1 as [|x l Hx _ IH]; [done|]. cbn [unlines app]. rewrite split_line by done. by rewrite IH. Qed.

Lemma unlines_app l l' : unlines (app l l') = unlines l ++ unlines l'.
Proof. induction l as [|x l IH]; [done|]. cbn [app unlines]. by rewrite IH, append_assoc, append_cons. Qed.
