(* ===== verification/PixelEmSpec.v ===== *)
(** * The energy model's memory and its profiles

    The heap as a list of blocks and what the memory operations do to it; the
    tables of the domains as lists, what a text does to them, and the state of a
    driver that has been set up. *)

From Stdlib Require Import Sorted.
From S2P Require Import Prelude PixelEm PixelEmText.

(** ** Blocks *)

Abbreviation blocks := (list (Z * em_block)).

(** The heap is made of these blocks. *)
Record owns (s : em) (bl : blocks) : Prop := MkOwns {
  ow_heap : m_heap s = list_to_map bl;
  ow_nodup : NoDup (fst <$> bl);
  ow_range : Forall (fun x => 0 < fst x < m_next s) bl;
  ow_next : 0 < m_next s
}.

#[export] Instance owns_perm s : Proper ((≡ₚ) ==> iff) (owns s).
Proof.
  assert (forall bl bl', bl ≡ₚ bl' -> owns s bl -> owns s bl') as H.
  { intros bl bl' E []. split; [|by rewrite <- E|by rewrite <- E|done]. rewrite ow_heap0. by apply list_to_map_proper. }
  intros bl bl' E. split; apply H; [done|by symmetry].
Qed.

Lemma owns_load s bl p b : owns s bl -> (p, b) ∈ bl -> m_heap s !! p = Some b /\ p <> 0.
Proof.
  intros [E H1 H2 _] Hin. split; [rewrite E; by apply elem_of_list_to_map_1|]. rewrite Forall_forall in H2. specialize (H2 _ Hin). simpl in H2. lia.
Qed.

Lemma owns_store s bl p b b' : owns s ((p, b) :: bl) -> owns (s <| m_heap := <[p := b']> (m_heap s) |>) ((p, b') :: bl).
Proof.
  intros [E H1 H2 H3]. split; simpl in *; [|done| |done].
  - rewrite E. simpl. by rewrite insert_insert_eq.
  - inversion H2; subst. by constructor.
Qed.

Lemma owns_free s bl p b : owns s ((p, b) :: bl) -> p <> 0 /\ m_heap s !! p = Some b /\ owns (s <| m_heap := delete p (m_heap s) |>) bl.
Proof.
  intros H. destruct (owns_load s _ p b H ltac:(by left)) as [H1 H2]. destruct H as [E H3 H4 H5]. simpl in H3. apply NoDup_cons in H3 as [H3 H6]. inversion H4; subst.
  split; [done|]. split; [done|]. split; simpl; [|done|done|done]. rewrite E. simpl. rewrite delete_insert_eq, delete_id; [done|]. by apply not_elem_of_list_to_map_1.
Qed.

Lemma owns_alloc s bl b l : owns s bl -> owns (s <| m_mem := l |> <| m_heap := <[m_next s := b]> (m_heap s) |> <| m_next := m_next s + 1 |>) ((m_next s, b) :: bl).
Proof.
  intros [E H1 H2 H3]. split; simpl; [by rewrite E| | |lia].
  - constructor; [|done]. intros ([p b1] & Heq & Hin)%list_elem_of_fmap. rewrite Forall_forall in H2. specialize (H2 _ Hin). simpl in H2, Heq. lia.
  - constructor; simpl; [lia|]. eapply Forall_impl; [exact H2|]. simpl. lia.
Qed.

(** Only the heap and what the allocator answers differ. *)
Definition same_vars (s s' : em) : Prop := s' = s <| m_heap := m_heap s' |> <| m_next := m_next s' |> <| m_mem := m_mem s' |>.
#[export] Instance same_vars_pre : PreOrder same_vars.
Proof. split; [by intros []|]. unfold same_vars. intros [] [] []. simpl. congruence. Qed.

Lemma vars_eq s s' : same_vars s s' -> cpu_to_em_pd s' = cpu_to_em_pd s /\ em_pd_to_cpu s' = em_pd_to_cpu s /\ em_pds s' = em_pds s /\ em_pds_backup s' = em_pds_backup s /\
  pixel_em_num_cpu_pds s' = pixel_em_num_cpu_pds s /\ pixel_em_max_cpu s' = pixel_em_max_cpu s.
Proof. by intros ->. Qed.
(** The variables of [s'] are those of [s]. *)
Ltac same_variables V :=
  let E1 := fresh in let E2 := fresh in let E3 := fresh in let E4 := fresh in let E5 := fresh in let E6 := fresh in
  destruct (vars_eq _ _ V) as (E1 & E2 & E3 & E4 & E5 & E6); rewrite ?E1, ?E2, ?E3, ?E4, ?E5, ?E6; clear E1 E2 E3 E4 E5 E6.

(** ** The memory operations *)

Section Ops.
Implicit Types (s : em) (bl : blocks).

(** Whether the next allocation succeeds. *)
Definition granted s : bool := match m_mem s with false :: _ => false | _ => true end.

Lemma wp_m_alloc_when b bl s (Q : Z -> em -> Prop) : owns s bl ->
  (forall s', granted s = false -> owns s' bl -> same_vars s s' -> Q 0 s') ->
  (forall p s', granted s = true -> p <> 0 -> owns s' ((p, b) :: bl) -> same_vars s s' -> Q p s') -> wp (m_alloc b) Q s.
Proof.
  intros H Q0 Q1. unfold wp, m_alloc, granted in *.
  assert (forall l, granted s = true -> Q (m_next s) (s <| m_mem := l |> <| m_heap := <[m_next s := b]> (m_heap s) |> <| m_next := m_next s + 1 |>)) as Hyes.
  { intros l Hg. apply Q1; [done|destruct H; lia|by apply owns_alloc|done]. }
  unfold granted in Hyes. destruct (m_mem s) as [|[] l]; [by apply Hyes|by apply Hyes|]. apply Q0; [done|by destruct H|done].
Qed.
Lemma wp_m_alloc b bl s (Q : Z -> em -> Prop) : owns s bl ->
  (forall s', owns s' bl -> same_vars s s' -> Q 0 s') ->
  (forall p s', p <> 0 -> owns s' ((p, b) :: bl) -> same_vars s s' -> Q p s') -> wp (m_alloc b) Q s.
Proof. intros H Q0 Q1. eapply wp_m_alloc_when; [exact H|auto..]. Qed.

Lemma wp_kfree p b bl s (Q : unit -> em -> Prop) : owns s ((p, b) :: bl) -> (forall s', owns s' bl -> same_vars s s' -> Q tt s') -> wp (kfree p) Q s.
Proof. intros H HQ. destruct (owns_free _ _ _ _ H) as (Hp & Hl & H'). unfold wp, kfree. destruct (Z.eqb_spec p 0); [done|]. rewrite Hl. by apply HQ. Qed.
Lemma wp_kfree_null s (Q : unit -> em -> Prop) : Q tt s -> wp (kfree 0) Q s.
Proof. done. Qed.

Lemma wp_load p b bl s (Q : em_block -> em -> Prop) : owns s bl -> (p, b) ∈ bl -> Q b s -> wp (m_load p) Q s.
Proof. intros H Hin HQ. unfold wp, m_load. by destruct (owns_load _ _ _ _ H Hin) as [-> _]. Qed.
Lemma wp_store p b b' bl s (Q : unit -> em -> Prop) : owns s ((p, b) :: bl) -> (forall s', owns s' ((p, b') :: bl) -> same_vars s s' -> Q tt s') -> wp (m_store p b') Q s.
Proof. intros H HQ. destruct (owns_free _ _ _ _ H) as (_ & Hl & _). unfold wp, m_store. rewrite Hl. apply HQ; [by eapply owns_store|done]. Qed.

Lemma wp_get_domain p d bl s (Q : em_perf_domain -> em -> Prop) : owns s bl -> (p, BDomain d) ∈ bl -> Q d s -> wp (get_domain p) Q s.
Proof. intros H Hin HQ. apply wp_bind. by eapply wp_load. Qed.
Lemma wp_get_table p l bl s (Q : list em_perf_state -> em -> Prop) : owns s bl -> (p, BTable l) ∈ bl -> Q l s -> wp (get_table p) Q s.
Proof. intros H Hin HQ. apply wp_bind. by eapply wp_load. Qed.
Lemma wp_get_ptrs p l bl s (Q : list Z -> em -> Prop) : owns s bl -> (p, BPtrs l) ∈ bl -> Q l s -> wp (get_ptrs p) Q s.
Proof. intros H Hin HQ. apply wp_bind. by eapply wp_load. Qed.
Lemma wp_get_ints p l bl s (Q : list Z -> em -> Prop) : owns s bl -> (p, BInts l) ∈ bl -> Q l s -> wp (get_ints p) Q s.
Proof. intros H Hin HQ. apply wp_bind. by eapply wp_load. Qed.

Lemma wp_idx {A} (l : list A) i x s (Q : A -> em -> Prop) : 0 <= i -> l !! Z.to_nat i = Some x -> Q x s -> wp (idx l i) Q s.
Proof. intros Hi Hl HQ. unfold idx. destruct (Z.ltb_spec i 0); [lia|]. by rewrite Hl. Qed.
Lemma wp_set_idx {A} (l : list A) i x s (Q : list A -> em -> Prop) : 0 <= i < Z.of_nat (length l) -> Q (<[Z.to_nat i := x]> l) s -> wp (set_idx l i x) Q s.
Proof. intros Hi HQ. unfold set_idx. destruct (Z.ltb_spec i 0), (Z.leb_spec (Z.of_nat (length l)) i); [lia..|done]. Qed.

Lemma wp_get_ptr a l i p bl s (Q : Z -> em -> Prop) : owns s bl -> (a, BPtrs l) ∈ bl -> 0 <= i -> l !! Z.to_nat i = Some p -> Q p s -> wp (get_ptr a i) Q s.
Proof. intros H Hin Hi Hl HQ. apply wp_bind. eapply wp_get_ptrs; [done..|]. by eapply wp_idx. Qed.
Lemma wp_set_ptr a l i p bl s (Q : unit -> em -> Prop) : owns s ((a, BPtrs l) :: bl) -> 0 <= i < Z.of_nat (length l) ->
  (forall s', owns s' ((a, BPtrs (<[Z.to_nat i := p]> l)) :: bl) -> same_vars s s' -> Q tt s') -> wp (set_ptr a i p) Q s.
Proof. intros H Hi HQ. apply wp_bind. eapply wp_get_ptrs; [done|by left|]. apply wp_bind, wp_set_idx; [done|]. by eapply wp_store. Qed.
Lemma wp_set_int a l i v bl s (Q : unit -> em -> Prop) : owns s ((a, BInts l) :: bl) -> 0 <= i < Z.of_nat (length l) ->
  (forall s', owns s' ((a, BInts (<[Z.to_nat i := v]> l)) :: bl) -> same_vars s s' -> Q tt s') -> wp (set_int a i v) Q s.
Proof. intros H Hi HQ. apply wp_bind. eapply wp_get_ints; [done|by left|]. apply wp_bind, wp_set_idx; [done|]. by eapply wp_store. Qed.
Lemma wp_set_state a l i p f bl s (Q : unit -> em -> Prop) : owns s ((a, BTable l) :: bl) -> 0 <= i -> l !! Z.to_nat i = Some p ->
  (forall s', owns s' ((a, BTable (<[Z.to_nat i := f p]> l)) :: bl) -> same_vars s s' -> Q tt s') -> wp (set_state a i f) Q s.
Proof.
  intros H Hi Hl HQ. apply wp_bind. eapply wp_get_table; [done|by left|]. apply wp_bind. eapply wp_idx; [done..|]. pose proof (lookup_lt_Some _ _ _ Hl).
  apply wp_bind, wp_set_idx; [lia|]. by eapply wp_store.
Qed.

Lemma wp_iter_cons {A} (f : A -> PM unit) x l (Q : unit -> em -> Prop) s : wp (f x) (fun _ s' => wp (m_iter f l) Q s') s -> wp (m_iter f (x :: l)) Q s.
Proof. intros H. simpl. apply wp_bind. eapply wp_mono; [exact H|]. done. Qed.

(** ** Clones *)

Record clone := MkClone { c_ptr : Z; c_tab : Z; c_flags : Z; c_span : cpumask_t; c_table : list em_perf_state }.
#[export] Instance eta_clone : Eta clone := mk_eta (fun c => MkClone (c_ptr c) (c_tab c) (c_flags c) (c_span c) (c_table c)).
Definition c_domain (c : clone) : em_perf_domain := MkPd (c_tab c) (Z.of_nat (length (c_table c))) (c_flags c) (c_span c).
Definition clone_blocks (c : clone) : blocks := [(c_ptr c, BDomain (c_domain c)); (c_tab c, BTable (c_table c))].
Lemma clone_blocks_table c t : length t = length (c_table c) -> clone_blocks (c <| c_table := t |>) = [(c_ptr c, BDomain (c_domain c)); (c_tab c, BTable t)].
Proof. intros E. unfold clone_blocks, c_domain. simpl. by rewrite E. Qed.
(** What is copied. *)
Definition same_domain (c o : clone) : Prop := c_flags c = c_flags o /\ c_span c = c_span o /\ c_table c = c_table o.

Lemma wp_clone o bl s (Q : Z -> em -> Prop) : owns s bl -> clone_blocks o ⊆ bl ->
  (forall s', owns s' bl -> same_vars s s' -> Q 0 s') ->
  (forall c s', c_ptr c <> 0 -> same_domain c o -> owns s' (clone_blocks c ++ bl) -> same_vars s s' -> Q (c_ptr c) s') -> wp (clone_pd (c_ptr o)) Q s.
Proof.
  intros H Ho Q0 Q1. assert (Hd : (c_ptr o, BDomain (c_domain o)) ∈ bl) by (apply Ho; by left). assert (Ht : (c_tab o, BTable (c_table o)) ∈ bl) by (apply Ho; right; by left). clear Ho.
  unfold clone_pd. apply wp_bind. eapply wp_get_domain; [exact H|exact Hd|]. apply wp_bind. eapply wp_m_alloc; [exact H|by intros; apply wp_ret, Q0|].
  intros pd s1 Hpd H1 V1. destruct (Z.eqb_spec pd 0); [done|]. apply wp_bind. eapply wp_m_alloc; [exact H1| |].
  - intros s2 H2 V2. apply wp_bind. eapply wp_kfree; [exact H2|]. intros s3 H3 V3. apply wp_ret, Q0; [done|]. by rewrite V1, V2.
  - intros t s2 Hpt H2 V2. destruct (Z.eqb_spec t 0); [done|]. apply wp_bind. rewrite (Permutation_swap (pd, _)) in H2. eapply wp_store; [exact H2|]. intros s3 H3 V3.
    apply wp_bind. eapply wp_get_table; [exact H3|by do 2 right|]. simpl. rewrite Z.ltb_irrefl. rewrite Nat2Z.id, firstn_all. apply wp_bind.
    rewrite (Permutation_swap (t, _)) in H3. eapply wp_store; [exact H3|]. intros s4 H4 V4. apply wp_ret.
    apply (Q1 (MkClone pd t (c_flags o) (c_span o) (c_table o)) s4); [done|done| |by rewrite V1, V2, V3].
    rewrite (Permutation_swap (pd, _)) in H4. exact H4.
Qed.

Lemma wp_free_pd c bl s (Q : unit -> em -> Prop) : owns s (clone_blocks c ++ bl) -> (forall s', owns s' bl -> same_vars s s' -> Q tt s') -> wp (free_pd (c_ptr c)) Q s.
Proof.
  intros H HQ. unfold free_pd. destruct (Z.eqb_spec (c_ptr c) 0); [destruct (owns_load _ _ _ _ H ltac:(by left)); done|]. apply wp_bind. eapply wp_get_domain; [exact H|by left|].
  simpl in H. rewrite (Permutation_swap (c_tab c, _)) in H. apply wp_bind. eapply wp_kfree; [exact H|]. intros s1 H1 V1. eapply wp_kfree; [exact H1|]. intros s2 H2 V2. apply HQ; [done|by rewrite V1].
Qed.
End Ops.

(** ** Rearranging *)

Lemma owns_eq s bl bl' : owns s bl -> bl ≡ₚ bl' -> owns s bl'.
Proof. intros H E. by rewrite <- E. Qed.

(** The same blocks in another order. *)
Ltac same_blocks H := refine (owns_eq _ _ _ H _); rewrite ?flat_map_app; cbn [flat_map clone_blocks app]; rewrite ?app_nil_r; solve_Permutation.

(** ** Tables *)

Definition state_ok (p : em_perf_state) : Prop := 0 < frequency p < 2 ^ 64 /\ 0 < power p < 2 ^ 64.
(** Not empty, in ascending order of frequency, and nothing is zero. *)
Record table_ok (t : list em_perf_state) : Prop := MkTableOk {
  to_nonempty : t <> []; to_sorted : StronglySorted Z.lt (frequency <$> t); to_states : Forall state_ok t }.

(** The first entry at least as fast. *)
Fixpoint opp_index (freq : Z) (t : list em_perf_state) : nat :=
  match t with [] => O | p :: t' => if freq <=? frequency p then O else S (opp_index freq t') end.
Definition set_power (max freq pow : Z) (p : em_perf_state) : em_perf_state := p <| power := pow |> <| cost := u64 (max * pow) / freq |>.
(** An entry's power and cost; none when all entries are slower. *)
Definition update_table (freq pow : Z) (t : list em_perf_state) : option (list em_perf_state) :=
  m ← last t; p ← t !! opp_index freq t; Some (<[opp_index freq t := set_power (frequency m) freq pow p]> t).
(** In the domain of a cpu. *)
Definition update_clones (cpu : nat) (freq pow : Z) (l : list clone) : option (list clone) :=
  '(i, c) ← list_find (fun c => cpu ∈ c_span c) l; t ← update_table freq pow (c_table c); Some (<[i := c <| c_table := t |>]> l).

(** A text's lines: the result and the domains, or none when an entry outside its
    table is written. *)
Fixpoint apply_lines (max : Z) (ls : list line) (cur : Z) (l : list clone) : option (Z * list clone) :=
  match ls with
  | [] => Some (0, l)
  | LBlank :: ls' => apply_lines max ls' cur l
  | LCpu None :: _ => Some (- EINVAL, l)
  | LCpu (Some id) :: ls' => if (id <? 0) || (max <? id) then Some (- EINVAL, l) else apply_lines max ls' id l
  | LState fp :: ls' =>
      if cur =? -1 then Some (- EINVAL, l)
      else match fp with
           | None => Some (- EINVAL, l)
           | Some (freq, pow) => if (freq =? 0) || (pow =? 0) then Some (- EINVAL, l) else l' ← update_clones (Z.to_nat cur) freq pow l; apply_lines max ls' cur l'
           end
  end.

(** What never changes of a domain. *)
Definition shape (c : clone) : Z * Z * Z * cpumask_t * list Z := (c_ptr c, c_tab c, c_flags c, c_span c, frequency <$> c_table c).
Definition shapes (l : list clone) := shape <$> l.

Lemma opp_index_frequencies freq t : opp_index freq t = fst (default (length t, 0) (list_find (fun f => freq <= f) (frequency <$> t))).
Proof.
  induction t as [|p t IH]; [done|]. simpl. destruct (Z.leb_spec freq (frequency p)); case_decide; [done|lia|lia|]. rewrite IH.
  by destruct (list_find _ _) as [[]|].
Qed.

Lemma update_table_frequencies freq pow t t' : update_table freq pow t = Some t' -> frequency <$> t' = frequency <$> t.
Proof.
  unfold update_table. destruct (last t) as [m|]; [|done]. simpl. destruct (t !! opp_index freq t) as [p|] eqn:E; [|done]. intros [= <-].
  apply list_eq. intros i. rewrite list_lookup_fmap, list_lookup_fmap. destruct (decide (i = opp_index freq t)) as [->|Hne].
  - rewrite list_lookup_insert_eq by (by eapply lookup_lt_Some). by rewrite E.
  - by rewrite list_lookup_insert_ne.
Qed.

Lemma update_table_ok freq pow t t' : update_table freq pow t = Some t' -> 0 < pow < 2 ^ 64 -> table_ok t -> table_ok t'.
Proof.
  intros E Hp []. pose proof (update_table_frequencies _ _ _ _ E) as Ef. split.
  - intros ->. by destruct t.
  - by rewrite Ef.
  - unfold update_table in E. destruct (last t) as [m|]; [|done]. simpl in E. destruct (t !! opp_index freq t) as [p|] eqn:El; [|done]. injection E as <-.
    apply Forall_insert; [done|]. rewrite Forall_forall in to_states0. destruct (to_states0 p) as [H1 H2]; [by eapply list_elem_of_lookup_2|]. by split.
Qed.

(** Whether an entry is there depends on the frequencies only. *)
Lemma update_table_some freq pow pow' t t' : frequency <$> t = frequency <$> t' -> is_Some (update_table freq pow t) -> is_Some (update_table freq pow' t').
Proof.
  intros E. pose proof (f_equal length E) as El. rewrite !length_fmap in El. assert (opp_index freq t' = opp_index freq t) as Ei by (by rewrite !opp_index_frequencies, E, El).
  unfold update_table. rewrite Ei. destruct (last t) as [m|] eqn:Em; [|by intros []]. simpl. destruct (t !! opp_index freq t) as [p|] eqn:Ep; [|by intros []]. intros _.
  apply lookup_lt_Some in Ep. rewrite El in Ep. destruct (last t') as [m'|] eqn:Em'; [|apply last_None in Em'; subst; simpl in Ep; lia].
  destruct (lookup_lt_is_Some_2 _ _ Ep) as [p' ->]. by eexists.
Qed.

Lemma update_clones_shape cpu freq pow l l' : update_clones cpu freq pow l = Some l' -> shapes l' = shapes l.
Proof.
  unfold update_clones. destruct (list_find _ l) as [[i c]|] eqn:E; [|done]. simpl. apply list_find_Some in E as (Ei & _ & _).
  destruct (update_table freq pow (c_table c)) as [t|] eqn:Et; [|done]. intros [= <-]. apply update_table_frequencies in Et. unfold shapes.
  apply list_eq. intros j. rewrite !list_lookup_fmap. destruct (decide (i = j)) as [->|Hne]; [|by rewrite list_lookup_insert_ne].
  rewrite list_lookup_insert_eq, Ei by (by eapply lookup_lt_Some). simpl. unfold shape. simpl. by rewrite Et.
Qed.

Lemma find_shape cpu l l' i c : shapes l = shapes l' -> list_find (fun c => cpu ∈ c_span c) l = Some (i, c) -> exists c', list_find (fun c => cpu ∈ c_span c) l' = Some (i, c') /\ shape c' = shape c.
Proof.
  revert l' i. induction l as [|x l IH]; intros [|x' l'] i E H; [done..|]. unfold shapes in E. rewrite !fmap_cons in E. injection E as E1 E2 E3 E4 E5 E6. cbn [list_find] in *. rewrite <- E4.
  case_decide.
  - injection H as <- <-. exists x'. split; [done|]. unfold shape. congruence.
  - destruct (list_find _ l) as [[j d]|] eqn:F; [|done]. injection H as <- <-. destruct (IH l' j E6 eq_refl) as (c' & -> & Hc). by exists c'.
Qed.

Lemma update_clones_some cpu freq pow pow' l l' : shapes l = shapes l' -> is_Some (update_clones cpu freq pow l) -> is_Some (update_clones cpu freq pow' l').
Proof.
  intros E. unfold update_clones. destruct (list_find _ l) as [[i c]|] eqn:F; [|by intros []]. destruct (find_shape _ _ _ _ _ E F) as (c' & F' & Hc). rewrite F'. simpl.
  destruct (update_table freq pow (c_table c)) as [t|] eqn:T; [|by intros []]. intros _. unfold shape in Hc. injection Hc as _ _ _ _ Hc.
  destruct (update_table_some freq pow pow' (c_table c) (c_table c')) as [t' ->]; [done|by eexists|]. by eexists.
Qed.

Lemma apply_lines_shape max ls : forall cur l r l', apply_lines max ls cur l = Some (r, l') -> shapes l' = shapes l.
Proof.
  induction ls as [|x ls IH]; intros cur l r l' H; simpl in H; [by injection H as <- <-|]. destruct x as [|[id|]|fp]; [by eapply IH| |by injection H as <- <-|].
  - destruct ((id <? 0) || (max <? id)); [by injection H as <- <-|by eapply IH].
  - destruct (cur =? -1); [by injection H as <- <-|]. destruct fp as [[freq pow]|]; [|by injection H as <- <-]. destruct ((freq =? 0) || (pow =? 0)); [by injection H as <- <-|].
    destruct (update_clones (Z.to_nat cur) freq pow l) as [l1|] eqn:E; [|done]. apply IH in H. rewrite H. by eapply update_clones_shape.
Qed.

(** So a text that is safe once is safe whatever the powers are. *)
Lemma apply_lines_safe max ls : forall cur l l', shapes l = shapes l' -> is_Some (apply_lines max ls cur l) -> is_Some (apply_lines max ls cur l').
Proof.
  induction ls as [|x ls IH]; intros cur l l' E H; simpl in *; [by eexists|]. destruct x as [|[id|]|fp]; [by eapply IH| |by eexists|].
  - destruct ((id <? 0) || (max <? id)); [by eexists|by eapply IH].
  - destruct (cur =? -1); [by eexists|]. destruct fp as [[freq pow]|]; [|by eexists]. destruct ((freq =? 0) || (pow =? 0)); [by eexists|].
    destruct (update_clones (Z.to_nat cur) freq pow l) as [l1|] eqn:F; [|by destruct H].
    destruct (update_clones_some (Z.to_nat cur) freq pow pow l l' E) as [l2 F']; [by eexists|]. rewrite F'. simpl.
    eapply IH; [|exact H]. rewrite (update_clones_shape _ _ _ _ _ F), (update_clones_shape _ _ _ _ _ F'). done.
Qed.

(** Numbers that are read fit. *)
Definition line_ok (x : line) : Prop := match x with LState (Some (f, p)) => 0 <= f < 2 ^ 64 /\ 0 <= p < 2 ^ 64 | _ => True end.
Lemma strtoull_range s : forall acc, 0 <= acc < 2 ^ 64 -> 0 <= fst (simple_strtoull s acc) < 2 ^ 64.
Proof. induction s as [|c s IH]; intros acc H; [done|]. simpl. destruct (digit_val c); [|done]. apply IH. apply Z.mod_pos_bound. lia. Qed.
Lemma read_text_ok s : Forall line_ok (read_text s).
Proof.
  apply Forall_fmap, Forall_true. intros x. simpl. unfold read_line. destruct (match skip_spaces x with EmptyString => true | String _ _ => _ end); [done|]. destruct (strncasecmp0 _ _ _); [done|].
  simpl. unfold scan_lu_lu, scan_lu. destruct (starts_digit _); [|done]. simpl. destruct (simple_strtoull (skip_spaces _) 0) as [a r] eqn:E. destruct (starts_digit _); [|done]. simpl.
  destruct (simple_strtoull (skip_spaces r) 0) as [b r'] eqn:E'. split; [change a with (fst (a, r)); rewrite <- E|change b with (fst (b, r')); rewrite <- E']; by apply strtoull_range.
Qed.

(** ** The state *)

(** The domain's pointer of each cpu. *)
Definition cpu_ptr (l : list clone) (cpu : nat) : Z := from_option (fun x => c_ptr (snd x)) 0 (list_find (fun c => cpu ∈ c_span c) l).
Definition cpu_ptrs (max : Z) (l : list clone) : list Z := cpu_ptr l <$> seq 0 (Z.to_nat (max + 1)).

(** The arrays of the driver. *)
Definition arrays (firsts : list nat) (pcs bcs : list clone) (s : em) : blocks :=
  [(cpu_to_em_pd s, BPtrs (cpu_ptrs (pixel_em_max_cpu s) pcs)); (em_pd_to_cpu s, BInts (Z.of_nat <$> firsts)); (em_pds s, BPtrs (c_ptr <$> pcs)); (em_pds_backup s, BPtrs (c_ptr <$> bcs))].

(** The driver with its domains, first cpus and defaults, beside the blocks [fr]. *)
Record holds (firsts : list nat) (pcs bcs : list clone) (fr : blocks) (s : em) : Prop := MkHolds {
  hl_owns : owns s (arrays firsts pcs bcs s ++ flat_map clone_blocks pcs ++ flat_map clone_blocks bcs ++ fr);
  hl_num : pixel_em_num_cpu_pds s = Z.of_nat (length pcs);
  hl_first : Forall2 (fun f c => f ∈ c_span c /\ Z.of_nat f <= pixel_em_max_cpu s) firsts pcs;
  hl_backup : Forall2 (fun b c => frequency <$> c_table b = frequency <$> c_table c) bcs pcs;
  hl_tables : Forall (fun c => table_ok (c_table c)) pcs;
  hl_backups : Forall (fun c => table_ok (c_table c)) bcs;
  hl_disjoint : forall i j c d, pcs !! i = Some c -> pcs !! j = Some d -> i <> j -> c_span c ## c_span d;
  hl_max : 0 <= pixel_em_max_cpu s < 2 ^ 31
}.

(** One domain apart from the others. *)
Lemma clones_split l i c c' : l !! i = Some c -> exists r, flat_map clone_blocks l ≡ₚ clone_blocks c ++ r /\ flat_map clone_blocks (<[i := c']> l) ≡ₚ clone_blocks c' ++ r.
Proof.
  intros H. exists (flat_map clone_blocks (take i l ++ drop (S i) l)). rewrite insert_take_drop by (by eapply lookup_lt_Some). rewrite <- (take_drop_middle l i c H) at 1.
  rewrite !flat_map_app. cbn [flat_map]. split; apply Permutation_app_swap_app.
Qed.

(** ** Shapes *)

Lemma shapes_parts l l' : shapes l = shapes l' -> length l = length l' /\ (c_ptr <$> l) = (c_ptr <$> l') /\ forall i c, l !! i = Some c -> exists c', l' !! i = Some c' /\ shape c' = shape c.
Proof.
  intros E. split; [by rewrite <- (length_fmap shape l), <- (length_fmap shape l'); f_equal|]. split.
  - assert (forall l, c_ptr <$> l = (fun x => x.1.1.1.1) <$> shapes l) as H by (intros k; unfold shapes; by rewrite <- list_fmap_compose). by rewrite !H, E.
  - intros i c Hc. assert (shapes l !! i = Some (shape c)) as Hs by (unfold shapes; by rewrite list_lookup_fmap, Hc). rewrite E in Hs. unfold shapes in Hs.
    rewrite list_lookup_fmap in Hs. destruct (l' !! i) as [c'|]; [|done]. injection Hs as Hs. exists c'. split; [done|]. unfold shape. simpl. congruence.
Qed.

Lemma cpu_ptrs_shape max l l' : shapes l = shapes l' -> cpu_ptrs max l = cpu_ptrs max l'.
Proof.
  intros E. apply list_fmap_ext. intros _ cpu _. unfold cpu_ptr. destruct (list_find _ l) as [[i c]|] eqn:F.
  - destruct (find_shape _ _ _ _ _ E F) as (c' & -> & Hc). simpl. unfold shape in Hc. by injection Hc as -> _ _ _ _.
  - destruct (list_find _ l') as [[i c]|] eqn:F'; [|done]. symmetry in E. destruct (find_shape _ _ _ _ _ E F') as (c' & F2 & _). congruence.
Qed.

Lemma shapes_insert l i c c' : l !! i = Some c -> shape c' = shape c -> shapes (<[i := c']> l) = shapes l.
Proof. intros H E. unfold shapes. rewrite list_fmap_insert, E. apply list_insert_id. by rewrite list_lookup_fmap, H. Qed.

Lemma arrays_shape firsts pcs pcs' bcs bcs' s s' : shapes pcs' = shapes pcs -> shapes bcs' = shapes bcs -> same_vars s s' -> arrays firsts pcs' bcs' s' = arrays firsts pcs bcs s.
Proof.
  intros Ep Eb ->. unfold arrays. simpl. rewrite (cpu_ptrs_shape _ _ _ Ep). destruct (shapes_parts _ _ Ep) as (_ & -> & _). by destruct (shapes_parts _ _ Eb) as (_ & -> & _).
Qed.

Lemma Forall2_shapes {A} (R R' : A -> clone -> Prop) l k k' : shapes k = shapes k' -> (forall x c c', shape c = shape c' -> R x c -> R' x c') -> Forall2 R l k -> Forall2 R' l k'.
Proof.
  intros E HR H. apply Forall2_same_length_lookup_2; [destruct (shapes_parts _ _ E) as (<- & _); by eapply Forall2_length|].
  intros i x c' Hx Hc'. symmetry in E. destruct (shapes_parts _ _ E) as (_ & _ & Hs). destruct (Hs i c' Hc') as (c & Hc & Es). eapply HR; [exact Es|]. by eapply Forall2_lookup_lr.
Qed.

(** Tables change, and nothing else. *)
Lemma holds_change firsts pcs pcs' bcs bcs' fr fr' s s' : holds firsts pcs bcs fr s -> same_vars s s' -> shapes pcs' = shapes pcs -> shapes bcs' = shapes bcs ->
  Forall (fun c => table_ok (c_table c)) pcs' -> Forall (fun c => table_ok (c_table c)) bcs' ->
  owns s' (arrays firsts pcs bcs s ++ flat_map clone_blocks pcs' ++ flat_map clone_blocks bcs' ++ fr') -> holds firsts pcs' bcs' fr' s'.
Proof.
  intros [] V Ep Eb Hp Hb H. split.
  - by rewrite (arrays_shape _ _ _ _ _ _ _ Ep Eb V).
  - rewrite V. simpl. destruct (shapes_parts _ _ Ep) as (-> & _). done.
  - rewrite V. simpl. eapply Forall2_shapes; [symmetry; exact Ep| |exact hl_first0]. intros f c c' E [H1 H2]. unfold shape in E. injection E as _ _ _ Es _. by rewrite <- Es.
  - assert (forall c c', shape c = shape c' -> frequency <$> c_table c = frequency <$> c_table c') as Hf by (intros c c' E; unfold shape in E; by injection E).
    apply (Forall2_shapes (fun b c => frequency <$> c_table b = frequency <$> c_table c) _ _ pcs); [done|intros b c c' E1 E2; by rewrite <- (Hf _ _ E1)|]. apply Forall2_flip.
    apply (Forall2_shapes (fun c b => frequency <$> c_table b = frequency <$> c_table c) _ _ bcs); [done|intros c b b' E1 E2; by rewrite <- (Hf _ _ E1)|]. by apply Forall2_flip.
  - done.
  - done.
  - intros i j c d Hi Hj. destruct (shapes_parts _ _ Ep) as (_ & _ & Hs). destruct (Hs _ _ Hi) as (c' & Hc & E1). destruct (Hs _ _ Hj) as (d' & Hd & E2).
    unfold shape in E1, E2. injection E1 as _ _ _ <- _. injection E2 as _ _ _ <- _. by eapply hl_disjoint0.
  - by rewrite V.
Qed.
