(* ===== verification/PixelEmFile.v ===== *)
(** * Running the energy model

    Each operation on the state of [PixelEmSpec]: an entry is updated, a text is
    applied, tables are copied. What reading the file shows, what writing to it
    does, and that a profile that was read once restores the powers when it is
    written, whatever was written in between. *)

From Stdlib Require Import Sorted Ascii.
From S2P Require Import Prelude PixelEm PixelEmText PixelEmSpec.

Section Run.
Context (firsts : list nat).
Implicit Types (pcs bcs : list clone) (fr : blocks) (s : em).

Lemma clone_in l i c bl : l !! i = Some c -> flat_map clone_blocks l ⊆ bl -> (c_ptr c, BDomain (c_domain c)) ∈ bl /\ (c_tab c, BTable (c_table c)) ∈ bl.
Proof.
  intros H Hs. destruct (clones_split l i c c H) as (r & E & _). assert (forall x, x ∈ clone_blocks c -> x ∈ bl) as Hin by (intros x Hx; apply Hs; rewrite E; apply elem_of_app; by left).
  split; apply Hin; [by left|right; by left].
Qed.

Lemma holds_pcs pcs bcs fr s : holds firsts pcs bcs fr s -> flat_map clone_blocks pcs ⊆ arrays firsts pcs bcs s ++ flat_map clone_blocks pcs ++ flat_map clone_blocks bcs ++ fr.
Proof. intros _ x Hx. rewrite !elem_of_app. auto. Qed.

(** ** An entry *)

Lemma wp_find_opp t freq : forall l2 l1 fuel s (Q : Z -> em -> Prop), t = l1 ++ l2 -> (length l2 < fuel)%nat -> Q (Z.of_nat (length l1 + opp_index freq l2)) s ->
  wp (find_opp fuel t (Z.of_nat (length t)) freq (Z.of_nat (length l1))) Q s.
Proof.
  induction l2 as [|p l2 IH]; intros l1 fuel s Q E Hf HQ; (destruct fuel as [|fuel]; [simpl in Hf; lia|]); cbn [find_opp].
  - rewrite E, app_nil_r, Z.ltb_irrefl. simpl in HQ. rewrite Nat.add_0_r in HQ. by apply wp_ret.
  - destruct (Z.ltb_spec (Z.of_nat (length l1)) (Z.of_nat (length t))) as [_|Hl]; [|rewrite E, length_app in Hl; simpl in Hl; lia]. apply wp_bind.
    eapply wp_idx; [lia|rewrite Nat2Z.id, E; by apply list_lookup_middle|]. cbn [opp_index] in HQ. destruct (freq <=? frequency p).
    + rewrite Nat.add_0_r in HQ. by apply wp_ret.
    + replace (Z.of_nat (length l1) + 1) with (Z.of_nat (length (l1 ++ [p]))) by (rewrite length_app; simpl; lia). apply IH; [by rewrite <- app_assoc|simpl in Hf; lia|].
      rewrite length_app. simpl. by replace (length l1 + 1 + opp_index freq l2)%nat with (length l1 + S (opp_index freq l2))%nat by lia.
Qed.

(** The pointer of a cpu leads to its domain. *)
Lemma cpu_ptrs_lookup max l cpu i c : list_find (fun c => Z.to_nat cpu ∈ c_span c) l = Some (i, c) -> 0 <= cpu <= max -> cpu_ptrs max l !! Z.to_nat cpu = Some (c_ptr c).
Proof. intros H Hc. unfold cpu_ptrs. rewrite list_lookup_fmap, lookup_seq_lt by lia. simpl. unfold cpu_ptr. by rewrite H. Qed.

Lemma wp_update_entry pcs bcs fr cpu freq pow pcs' s (Q : unit -> em -> Prop) : holds firsts pcs bcs fr s -> update_clones (Z.to_nat cpu) freq pow pcs = Some pcs' ->
  0 <= cpu <= pixel_em_max_cpu s -> freq <> 0 -> 0 < pow < 2 ^ 64 ->
  (forall s', holds firsts pcs' bcs fr s' -> same_vars s s' -> Q tt s') -> wp (update_em_entry cpu freq pow) Q s.
Proof.
  intros H E Hc Hf Hp HQ. pose proof (update_clones_shape _ _ _ _ _ E) as Es. unfold update_clones in E. destruct (list_find _ pcs) as [[i c]|] eqn:F; [|done]. simpl in E.
  pose proof F as Hi. apply list_find_Some in Hi as (Hi & _ & _). destruct (update_table freq pow (c_table c)) as [t|] eqn:T; [|done]. injection E as <-.
  pose proof (hl_tables _ _ _ _ _ H) as Ht. rewrite Forall_lookup in Ht. pose proof (Ht _ _ Hi) as Hok. destruct (clone_in pcs i c _ Hi (holds_pcs _ _ _ _ H)) as [Hd Htab].
  pose proof (hl_owns _ _ _ _ _ H) as Ho. unfold update_em_entry. apply wp_bind, wp_get. apply wp_bind. eapply wp_get_ptr; [exact Ho|by left|lia|by eapply cpu_ptrs_lookup|].
  apply wp_bind. eapply wp_get_domain; [exact Ho|exact Hd|]. apply wp_bind. eapply wp_get_table; [exact Ho|exact Htab|]. simpl nr_perf_states. apply wp_bind.
  apply (wp_find_opp (c_table c) freq (c_table c) []); [done|lia|]. simpl length. rewrite Nat.add_0_l. unfold update_table in T. destruct (last (c_table c)) as [m|] eqn:El; [|done]. simpl in T.
  destruct (c_table c !! opp_index freq (c_table c)) as [p|] eqn:Ep; [|done]. injection T as <-. rewrite last_lookup in El. apply wp_bind. pose proof (lookup_lt_Some _ _ _ El).
  eapply wp_idx; [lia|replace (Z.to_nat _) with (pred (length (c_table c))) by lia; exact El|]. destruct (Z.eqb_spec freq 0); [done|]. apply wp_bind, wp_ret.
  destruct (clones_split pcs i c (c <| c_table := <[opp_index freq (c_table c) := set_power (frequency m) freq pow p]> (c_table c) |>) Hi) as (r & E1 & E2).
  eapply (wp_set_state (c_tab c) _ _ _ _ ((c_ptr c, BDomain (c_domain c)) :: arrays firsts pcs bcs s ++ r ++ flat_map clone_blocks bcs ++ fr)); [|lia|rewrite Nat2Z.id; exact Ep|].
  - rewrite E1 in Ho. same_blocks Ho.
  - intros s' H' V. apply HQ; [|done]. rewrite Nat2Z.id in H'. eapply holds_change; [exact H|exact V|exact Es|done| |by eapply hl_backups|].
    + apply Forall_insert; [by eapply hl_tables|]. simpl. eapply update_table_ok; [|exact Hp|exact Hok]. unfold update_table. rewrite last_lookup, El. simpl. by rewrite Ep.
    + rewrite E2, clone_blocks_table by apply length_insert. same_blocks H'.
Qed.

(** ** A text *)

Lemma wp_run_lines ls : forall cur pcs bcs fr s r pcs' (Q : Z -> em -> Prop), Forall line_ok ls -> holds firsts pcs bcs fr s -> (cur = -1 \/ 0 <= cur <= pixel_em_max_cpu s) ->
  apply_lines (pixel_em_max_cpu s) ls cur pcs = Some (r, pcs') -> (forall s', holds firsts pcs' bcs fr s' -> same_vars s s' -> Q r s') -> wp (run_lines ls cur) Q s.
Proof.
  induction ls as [|x ls IH]; intros cur pcs bcs fr s r pcs' Q Hls H Hcur E HQ; simpl in E.
  { injection E as <- <-. by apply wp_ret, HQ. }
  apply Forall_cons in Hls as [Hx Hls]. destruct x as [|[id|]|fp]; cbn [run_lines].
  - by eapply IH.
  - apply wp_bind, wp_get. destruct ((id <? 0) || (pixel_em_max_cpu s <? id)) eqn:Eid; [injection E as <- <-; by apply wp_ret, HQ|].
    apply orb_false_iff in Eid as [?%Z.ltb_ge ?%Z.ltb_ge]. eapply IH; [done|exact H| |exact E|done]. right. lia.
  - injection E as <- <-. by apply wp_ret, HQ.
  - destruct (Z.eqb_spec cur (-1)); [injection E as <- <-; by apply wp_ret, HQ|]. destruct fp as [[freq pow]|]; [|injection E as <- <-; by apply wp_ret, HQ].
    destruct ((freq =? 0) || (pow =? 0)) eqn:Ez; [injection E as <- <-; by apply wp_ret, HQ|]. apply orb_false_iff in Ez as [?%Z.eqb_neq ?%Z.eqb_neq].
    destruct (update_clones (Z.to_nat cur) freq pow pcs) as [l'|] eqn:Eu; [|done]. simpl in E, Hx. apply wp_bind. eapply wp_update_entry; [exact H|exact Eu|lia|done|lia|].
    intros s1 Hs1 V1. assert (pixel_em_max_cpu s1 = pixel_em_max_cpu s) as Em by (by rewrite V1). eapply IH; [done|exact Hs1|rewrite Em; lia|rewrite Em; exact E|].
    intros s2 Hs2 V2. apply HQ; [done|by rewrite V1].
Qed.

Lemma holds_frame pcs bcs fr fr' s s' : holds firsts pcs bcs fr s -> same_vars s s' -> owns s' (arrays firsts pcs bcs s ++ flat_map clone_blocks pcs ++ flat_map clone_blocks bcs ++ fr') -> holds firsts pcs bcs fr' s'.
Proof. intros H V Ho. eapply holds_change; [exact H|exact V|done..|by eapply hl_tables|by eapply hl_backups|exact Ho]. Qed.

(** What a text does: the result of the parser and the domains, or none when an
    entry outside its table is written. Without memory for its copy nothing changes. *)
Definition text_outcome (buf : string) (n : nat) pcs s : option (Z * list clone) :=
  if granted s then apply_lines (pixel_em_max_cpu s) (read_text (str_take n (c_string buf))) (-1) pcs else Some (- ENOMEM, pcs).

(** The text is applied, unless there is no memory for its copy. *)
Lemma wp_parse text n pcs bcs fr s r pcs' (Q : Z -> em -> Prop) : holds firsts pcs bcs fr s -> text_outcome text n pcs s = Some (r, pcs') ->
  (forall s', holds firsts pcs' bcs fr s' -> same_vars s s' -> Q r s') -> wp (parse_profile text n) Q s.
Proof.
  intros H E HQ. unfold text_outcome in E. unfold parse_profile. apply wp_bind. eapply wp_m_alloc_when; [exact (hl_owns _ _ _ _ _ H)| |].
  - intros s1 Hg H1 V1. rewrite Hg in E. injection E as <- <-. apply wp_ret, HQ; [|done]. by eapply holds_frame.
  - intros p s1 Hg Hp H1 V1. rewrite Hg in E. destruct (Z.eqb_spec p 0); [done|]. set (t := str_take n (c_string text)) in *. apply wp_bind.
    assert (holds firsts pcs bcs ((p, BText t) :: fr) s1) as H1' by (eapply holds_frame; [exact H|done|]; same_blocks H1).
    assert (pixel_em_max_cpu s1 = pixel_em_max_cpu s) as Em by (by rewrite V1).
    eapply wp_mono with (P := fun r' s' => r' = r /\ holds firsts pcs' bcs ((p, BText t) :: fr) s' /\ same_vars s s').
    + unfold wp. rewrite parse_lines_run by lia. change (wp (run_lines (read_text t) (-1)) (fun r' s' => r' = r /\ holds firsts pcs' bcs ((p, BText t) :: fr) s' /\ same_vars s s') s1).
      eapply wp_run_lines; [apply read_text_ok|exact H1'|by left|rewrite Em; exact E|]. intros s2 H2 V2. split; [done|]. split; [done|]. by rewrite V1.
    + intros r' s2 (-> & H2 & V2). apply wp_bind. pose proof (hl_owns _ _ _ _ _ H2) as Ho. eapply (wp_kfree p (BText t) (arrays firsts pcs' bcs s2 ++ flat_map clone_blocks pcs' ++ flat_map clone_blocks bcs ++ fr)); [same_blocks Ho|].
      intros s3 H3 V3. apply wp_ret, HQ; [|by rewrite V2]. by eapply holds_frame.
Qed.

(** *** Outside the tables *)

Lemma faults_bind {A B} (m : PM A) (k : A -> PM B) s : wp m (fun a s' => k a s' = Fault) s -> kbind m k s = Fault.
Proof. unfold wp, kbind. by destruct (m s). Qed.
Lemma faults_first {A B} (m : PM A) (k : A -> PM B) s : m s = Fault -> kbind m k s = Fault.
Proof. unfold kbind. by intros ->. Qed.

Lemma opp_index_end freq t : t !! opp_index freq t = None -> opp_index freq t = length t.
Proof. induction t as [|p t IH]; [done|]. simpl. destruct (freq <=? frequency p); [done|]. intros H. by rewrite IH. Qed.

(** A cpu without domain, or a frequency above those of its domain. *)
Lemma update_outside pcs bcs fr cpu freq pow s : holds firsts pcs bcs fr s -> update_clones (Z.to_nat cpu) freq pow pcs = None -> 0 <= cpu <= pixel_em_max_cpu s -> update_em_entry cpu freq pow s = Fault.
Proof.
  intros H E Hc. pose proof (hl_owns _ _ _ _ _ H) as Ho. unfold update_clones in E. unfold update_em_entry. apply faults_bind, wp_get. apply faults_bind.
  destruct (list_find _ pcs) as [[i c]|] eqn:F.
  - simpl in E. pose proof F as Hi. apply list_find_Some in Hi as (Hi & _ & _). destruct (clone_in pcs i c _ Hi (holds_pcs _ _ _ _ H)) as [Hd Ht].
    eapply wp_get_ptr; [exact Ho|by left|lia|by eapply cpu_ptrs_lookup|]. apply faults_bind. eapply wp_get_domain; [exact Ho|exact Hd|]. apply faults_bind. eapply wp_get_table; [exact Ho|exact Ht|].
    simpl nr_perf_states. apply faults_bind. apply (wp_find_opp (c_table c) freq (c_table c) []); [done|lia|]. simpl length. rewrite Nat.add_0_l.
    pose proof (hl_tables _ _ _ _ _ H) as Hok. rewrite Forall_lookup in Hok. destruct (Hok _ _ Hi) as [Hne _ _]. unfold update_table in E. destruct (last (c_table c)) as [m|] eqn:El; [|by apply last_None in El].
    simpl in E. destruct (c_table c !! opp_index freq (c_table c)) eqn:Ep; [done|]. rewrite last_lookup in El. pose proof (lookup_lt_Some _ _ _ El).
    apply faults_bind. eapply wp_idx; [lia|replace (Z.to_nat _) with (pred (length (c_table c))) by lia; exact El|]. destruct (Z.eqb_spec freq 0); [done|]. apply faults_bind, wp_ret. unfold set_state. apply faults_bind.
    eapply wp_get_table; [exact Ho|exact Ht|]. apply faults_first. unfold idx. destruct (Z.ltb_spec (Z.of_nat (opp_index freq (c_table c))) 0); [done|]. rewrite Nat2Z.id. by rewrite Ep.
  - eapply wp_get_ptr; [exact Ho|by left|lia| |].
    + unfold cpu_ptrs. rewrite list_lookup_fmap, lookup_seq_lt by lia. simpl. unfold cpu_ptr. by rewrite F.
    + simpl. apply faults_first. unfold get_domain. apply faults_first. unfold m_load. assert (m_heap s !! 0 = None) as ->; [|done]. rewrite (ow_heap _ _ Ho). apply not_elem_of_list_to_map_1.
      intros ([p b] & E0 & Hin)%list_elem_of_fmap. simpl in E0. subst p. by destruct (owns_load _ _ _ _ Ho Hin).
Qed.

Lemma lines_outside ls : forall cur pcs bcs fr s, Forall line_ok ls -> holds firsts pcs bcs fr s -> (cur = -1 \/ 0 <= cur <= pixel_em_max_cpu s) ->
  apply_lines (pixel_em_max_cpu s) ls cur pcs = None -> run_lines ls cur s = Fault.
Proof.
  induction ls as [|x ls IH]; intros cur pcs bcs fr s Hls H Hcur E; simpl in E; [done|].
  apply Forall_cons in Hls as [Hx Hls]. destruct x as [|[id|]|fp]; cbn [run_lines]; [by eapply IH| |done|].
  - apply faults_bind, wp_get. destruct ((id <? 0) || (pixel_em_max_cpu s <? id)) eqn:Eid; [done|].
    apply orb_false_iff in Eid as [?%Z.ltb_ge ?%Z.ltb_ge]. eapply IH; [done|exact H| |exact E]. right. lia.
  - destruct (Z.eqb_spec cur (-1)); [done|]. destruct fp as [[freq pow]|]; [|done].
    destruct ((freq =? 0) || (pow =? 0)) eqn:Ez; [done|]. apply orb_false_iff in Ez as [?%Z.eqb_neq ?%Z.eqb_neq].
    destruct (update_clones (Z.to_nat cur) freq pow pcs) as [l'|] eqn:Eu; [|apply faults_first; eapply update_outside; [exact H|exact Eu|lia]].
    simpl in E, Hx. apply faults_bind. eapply wp_update_entry; [exact H|exact Eu|lia|done|lia|].
    intros s1 Hs1 V1. assert (pixel_em_max_cpu s1 = pixel_em_max_cpu s) as Em by (by rewrite V1). eapply IH; [done|exact Hs1|rewrite Em; lia|rewrite Em; exact E].
Qed.

Lemma parse_outside text n pcs bcs fr s : holds firsts pcs bcs fr s -> text_outcome text n pcs s = None -> parse_profile text n s = Fault.
Proof.
  intros H E. unfold text_outcome in E. unfold parse_profile. apply faults_bind. eapply wp_m_alloc_when; [exact (hl_owns _ _ _ _ _ H)| |].
  - intros s1 Hg. by rewrite Hg in E.
  - intros p s1 Hg Hp H1 V1. rewrite Hg in E. destruct (Z.eqb_spec p 0); [done|]. set (t := str_take n (c_string text)) in *. apply faults_first. rewrite parse_lines_run by lia.
    assert (holds firsts pcs bcs ((p, BText t) :: fr) s1) as H1' by (eapply holds_frame; [exact H|done|]; same_blocks H1).
    eapply lines_outside; [apply read_text_ok|exact H1'|by left|]. by assert (pixel_em_max_cpu s1 = pixel_em_max_cpu s) as -> by (by rewrite V1).
Qed.

(** ** Copying tables *)

(** The table of another domain. *)
Definition copied (d o : clone) : clone := d <| c_table := c_table o |>.
Definition like (d o : clone) : Prop := frequency <$> c_table d = frequency <$> c_table o.

Lemma wp_copy_states td to bl : forall o2 d2 o1 s (Q : unit -> em -> Prop), frequency <$> d2 = frequency <$> o2 ->
  owns s ((td, BTable (o1 ++ d2)) :: (to, BTable (o1 ++ o2)) :: bl) ->
  (forall s', owns s' ((td, BTable (o1 ++ o2)) :: (to, BTable (o1 ++ o2)) :: bl) -> same_vars s s' -> Q tt s') ->
  wp (m_iter (copy_state td to) (seqZ (Z.of_nat (length o1)) (Z.of_nat (length o2)))) Q s.
Proof.
  induction o2 as [|p o2 IH]; intros [|q d2] o1 s Q E H HQ; [|done|done|].
  - apply wp_ret, HQ; [done|reflexivity].
  - rewrite !fmap_cons in E. injection E as Eq E. simpl length. rewrite seqZ_cons by lia. apply wp_iter_cons. unfold copy_state. apply wp_bind.
    eapply wp_get_table; [exact H|right; by left|]. apply wp_bind. eapply wp_idx; [lia|rewrite Nat2Z.id; by apply list_lookup_middle|].
    eapply wp_set_state; [exact H|lia|rewrite Nat2Z.id; by apply list_lookup_middle|]. intros s1 H1 V1. rewrite Nat2Z.id in H1.
    replace (Z.succ (Z.of_nat (length o1))) with (Z.of_nat (length (o1 ++ [p]))) by (rewrite length_app; simpl; lia).
    replace (Z.pred (Z.of_nat (S (length o2)))) with (Z.of_nat (length o2)) by lia. eapply IH with (d2 := d2); [done| |].
    + assert (q <| power := power p |> <| cost := cost p |> = p) as Ep by (destruct p, q; simpl in *; congruence). cbv beta in H1. rewrite Ep in H1. rewrite <- !app_assoc.
      rewrite insert_app_r_alt, Nat.sub_diag in H1 by lia. exact H1.
    + intros s2 H2 V2. rewrite <- !app_assoc in H2. apply HQ; [exact H2|by rewrite V1].
Qed.

Lemma wp_copy_pd d o bl s (Q : unit -> em -> Prop) : owns s (clone_blocks d ++ clone_blocks o ++ bl) -> like d o ->
  (forall s', owns s' (clone_blocks (copied d o) ++ clone_blocks o ++ bl) -> same_vars s s' -> Q tt s') -> wp (copy_pd_table (c_ptr d) (c_ptr o)) Q s.
Proof.
  intros H E HQ. assert (length (c_table o) = length (c_table d)) as El by (by rewrite <- !(length_fmap frequency), E).
  unfold copy_pd_table. apply wp_bind. eapply wp_get_domain; [exact H|by left|]. apply wp_bind. eapply wp_get_domain; [exact H|do 2 right; by left|]. simpl. rewrite El, Z.eqb_refl. cbn [negb].
  rewrite <- El. apply (wp_copy_states _ _ ((c_ptr d, BDomain (c_domain d)) :: (c_ptr o, BDomain (c_domain o)) :: bl) (c_table o) (c_table d) []); [exact E|same_blocks H|].
  intros s' H' V. apply HQ; [|done]. unfold copied. rewrite clone_blocks_table by done. same_blocks H'.
Qed.

Lemma ptrs_copied ds os : c_ptr <$> zip_with copied ds os = c_ptr <$> take (length os) ds.
Proof. revert os. induction ds as [|d ds IH]; intros [|o os]; [done..|]. simpl. by rewrite IH. Qed.

Lemma wp_copy_tables a b bl : forall ds2 os2 ds1 os1 s (Q : unit -> em -> Prop), length ds1 = length os1 -> Forall2 like ds2 os2 ->
  owns s ((a, BPtrs (c_ptr <$> ds1 ++ ds2)) :: (b, BPtrs (c_ptr <$> os1 ++ os2)) :: flat_map clone_blocks ds1 ++ flat_map clone_blocks ds2 ++ flat_map clone_blocks os1 ++ flat_map clone_blocks os2 ++ bl) ->
  (forall s', owns s' ((a, BPtrs (c_ptr <$> ds1 ++ ds2)) :: (b, BPtrs (c_ptr <$> os1 ++ os2)) :: flat_map clone_blocks ds1 ++ flat_map clone_blocks (zip_with copied ds2 os2) ++
    flat_map clone_blocks os1 ++ flat_map clone_blocks os2 ++ bl) -> same_vars s s' -> Q tt s') ->
  wp (m_iter (fun i => let! d := get_ptr a i in let! o := get_ptr b i in copy_pd_table d o) (seqZ (Z.of_nat (length ds1)) (Z.of_nat (length ds2)))) Q s.
Proof.
  induction ds2 as [|d ds2 IH]; intros [|o os2] ds1 os1 s Q El E H HQ; [|by inversion E|by inversion E|].
  { apply wp_ret, HQ; [done|reflexivity]. }
  apply Forall2_cons in E as [Edo E]. simpl length. rewrite seqZ_cons by lia. apply wp_iter_cons, wp_bind.
  eapply wp_get_ptr; [exact H|by left|lia|rewrite Nat2Z.id, fmap_app; apply list_lookup_middle; by rewrite length_fmap|]. apply wp_bind.
  eapply wp_get_ptr; [exact H|right; by left|lia|rewrite Nat2Z.id, fmap_app; apply list_lookup_middle; by rewrite length_fmap|].
  eapply (wp_copy_pd d o ((a, BPtrs (c_ptr <$> ds1 ++ d :: ds2)) :: (b, BPtrs (c_ptr <$> os1 ++ o :: os2)) :: flat_map clone_blocks ds1 ++ flat_map clone_blocks ds2 ++
    flat_map clone_blocks os1 ++ flat_map clone_blocks os2 ++ bl)); [same_blocks H|exact Edo|]. intros s1 H1 V1.
  replace (Z.succ (Z.of_nat (length ds1))) with (Z.of_nat (length (ds1 ++ [copied d o]))) by (rewrite length_app; simpl; lia).
  replace (Z.pred (Z.of_nat (S (length ds2)))) with (Z.of_nat (length ds2)) by lia.
  assert (c_ptr <$> (ds1 ++ [copied d o]) ++ ds2 = c_ptr <$> ds1 ++ d :: ds2) as Ed by (rewrite <- app_assoc, !fmap_app; done).
  assert (c_ptr <$> (os1 ++ [o]) ++ os2 = c_ptr <$> os1 ++ o :: os2) as Eo by (by rewrite <- app_assoc).
  apply (IH os2 (ds1 ++ [copied d o]) (os1 ++ [o])); [by rewrite !length_app, El|done| |].
  - rewrite Ed, Eo. same_blocks H1.
  - intros s2 H2 V2. rewrite Ed, Eo in H2. apply HQ; [|by rewrite V1]. cbn [zip_with]. same_blocks H2.
Qed.

Lemma copied_shape d o : like d o -> shape (copied d o) = shape d.
Proof. unfold like, shape, copied. simpl. by intros ->. Qed.
Lemma copied_shapes ds os : Forall2 like ds os -> shapes (zip_with copied ds os) = shapes ds.
Proof. unfold shapes. induction 1 as [|d o ds os H _ IH]; [done|]. cbn [zip_with]. rewrite !fmap_cons, IH. by rewrite copied_shape. Qed.
Lemma copied_tables ds os : Forall2 like ds os -> c_table <$> zip_with copied ds os = c_table <$> os.
Proof. induction 1 as [|d o ds os H _ IH]; [done|]. cbn [zip_with]. by rewrite !fmap_cons, IH. Qed.
Lemma copied_ok ds os : Forall2 like ds os -> Forall (fun c => table_ok (c_table c)) os -> Forall (fun c => table_ok (c_table c)) (zip_with copied ds os).
Proof. intros H Ho. assert (Forall table_ok (c_table <$> zip_with copied ds os)) as Hz by (rewrite copied_tables by done; by rewrite Forall_fmap). by rewrite Forall_fmap in Hz. Qed.
End Run.

(** ** What is shown *)

Definition domain_lines (f : nat) (t : list em_perf_state) : list string := cpu_line (Z.of_nat f) :: (state_line <$> t) ++ ["}"%string].
Definition profile_lines (firsts : list nat) (tabs : list (list em_perf_state)) : list string := concat (zip_with domain_lines firsts tabs).
(** The text, which a page holds. *)
Definition profile_text (firsts : list nat) (l : list clone) : string := unlines (profile_lines firsts (c_table <$> l)).
Definition fits (l : list string) : Prop := (String.length (unlines l) < PAGE_SIZE)%nat.

Lemma str_length_app a b : String.length (a ++ b)%string = (String.length a + String.length b)%nat.
Proof. induction a as [|c a IH]; [done|]. rewrite append_cons. simpl. by rewrite IH. Qed.

Lemma fits_prefix l l' : fits (l ++ l') -> fits l.
Proof. unfold fits. rewrite unlines_app, str_length_app. lia. Qed.

Lemma emit_fits l x : fits (l ++ [x]) -> sysfs_emit_at (unlines l) (x ++ String newline "")%string = unlines (l ++ [x]).
Proof.
  unfold fits, sysfs_emit_at. rewrite unlines_app, str_length_app. cbn [unlines]. intros H. destruct (Nat.leb_spec PAGE_SIZE (String.length (unlines l))); [lia|].
  rewrite str_take_ge by lia. done.
Qed.

(** Line after line, cut where the page ends. *)
Definition emit_lines (buf : string) (l : list string) : string := foldl (fun b x => sysfs_emit_at b (x ++ String newline "")%string) buf l.

Lemma emit_lines_app buf l l' : emit_lines buf (l ++ l') = emit_lines (emit_lines buf l) l'.
Proof. apply foldl_app. Qed.

Lemma emit_lines_cons buf x l : emit_lines buf (x :: l) = emit_lines (sysfs_emit_at buf (x ++ String newline "")%string) l.
Proof. done. Qed.

Lemma emit_lines_fit l' : forall l, fits (l ++ l') -> emit_lines (unlines l) l' = unlines (l ++ l').
Proof.
  induction l' as [|x l' IH]; intros l H; [by rewrite app_nil_r|]. rewrite cons_middle, app_assoc in H |- *. cbn [emit_lines foldl].
  rewrite emit_fits by (by eapply fits_prefix). by apply IH.
Qed.

Section Show.
Context (firsts : list nat).
Implicit Types (pcs bcs : list clone) (fr : blocks) (s : em).

Lemma wp_show_states t : forall t2 t1 buf s (Q : string -> em -> Prop), t = t1 ++ t2 -> Q (emit_lines buf (state_line <$> t2)) s ->
  wp (m_fold (show_state t) buf (seqZ (Z.of_nat (length t1)) (Z.of_nat (length t2)))) Q s.
Proof.
  induction t2 as [|p t2 IH]; intros t1 buf s Q E HQ; [by apply wp_ret|].
  simpl length. rewrite seqZ_cons by lia. cbn [m_fold]. apply wp_bind. unfold show_state. apply wp_bind. eapply wp_idx; [lia|rewrite Nat2Z.id, E; by apply list_lookup_middle|]. apply wp_ret.
  replace (print_lu (frequency p) ++ " " ++ print_lu (power p) ++ String newline "")%string with (state_line p ++ String newline "")%string by (unfold state_line; by rewrite !append_assoc).
  replace (Z.succ (Z.of_nat (length t1))) with (Z.of_nat (length (t1 ++ [p]))) by (rewrite length_app; simpl; lia).
  replace (Z.pred (Z.of_nat (S (length t2)))) with (Z.of_nat (length t2)) by lia. apply IH; [by rewrite <- app_assoc|done].
Qed.

Lemma profile_lines_cons f fs t ts : profile_lines (f :: fs) (t :: ts) = domain_lines f t ++ profile_lines fs ts.
Proof. done. Qed.

Lemma wp_show_domains pcs bcs fr s : holds firsts pcs bcs fr s -> forall p2 p1 f2 f1 buf (Q : string -> em -> Prop), pcs = p1 ++ p2 -> firsts = f1 ++ f2 -> length f1 = length p1 ->
  Q (emit_lines buf (profile_lines f2 (c_table <$> p2))) s -> wp (m_fold show_domain buf (seqZ (Z.of_nat (length p1)) (Z.of_nat (length p2)))) Q s.
Proof.
  intros H. pose proof (hl_owns _ _ _ _ _ H) as Ho. induction p2 as [|c p2 IH]; intros p1 f2 f1 buf Q Ep Ef El HQ.
  - unfold profile_lines in HQ. simpl in HQ. rewrite zip_with_nil_r in HQ. by apply wp_ret.
  - pose proof (Forall2_length _ _ _ (hl_first _ _ _ _ _ H)) as El2. rewrite Ep, Ef, !length_app in El2. destruct f2 as [|f f2]; [simpl in El2; lia|].
    assert (Hi : pcs !! length p1 = Some c) by (rewrite Ep; by apply list_lookup_middle). destruct (clone_in pcs _ c _ Hi (holds_pcs _ _ _ _ _ H)) as [Hd Ht].
    rewrite fmap_cons, profile_lines_cons, emit_lines_app in HQ. unfold domain_lines in HQ. rewrite emit_lines_cons, emit_lines_app in HQ. set (rest := profile_lines f2 (c_table <$> p2)) in *.
    simpl length. rewrite seqZ_cons by lia. cbn [m_fold]. apply wp_bind. unfold show_domain. apply wp_bind, wp_get. apply wp_bind. eapply wp_get_ints; [exact Ho|right; by left|].
    apply wp_bind. eapply wp_idx; [lia|rewrite Nat2Z.id, Ef, fmap_app; apply list_lookup_middle; by rewrite length_fmap|].
    replace ("cpu" ++ print_d (Z.of_nat f) ++ " {" ++ String newline "")%string with (cpu_line (Z.of_nat f) ++ String newline "")%string by (unfold cpu_line; by rewrite !append_assoc).
    apply wp_bind. eapply wp_get_ptr; [exact Ho|do 2 right; by left|lia|rewrite Nat2Z.id, Ep, fmap_app; apply list_lookup_middle; by rewrite length_fmap|]. apply wp_bind. eapply wp_get_domain; [exact Ho|exact Hd|].
    apply wp_bind. eapply wp_get_table; [exact Ho|exact Ht|]. apply wp_bind. apply (wp_show_states (c_table c) (c_table c) []); [done|]. apply wp_ret.
    replace (Z.succ (Z.of_nat (length p1))) with (Z.of_nat (length (p1 ++ [c]))) by (rewrite length_app; simpl; lia).
    replace (Z.pred (Z.of_nat (S (length p2)))) with (Z.of_nat (length p2)) by lia. apply (IH _ f2 (f1 ++ [f])); [by rewrite <- app_assoc|by rewrite <- app_assoc|by rewrite !length_app, El|done].
Qed.

Lemma holds_lock pcs bcs fr s b : holds firsts pcs bcs fr s -> holds firsts pcs bcs fr (s <| sysfs_em_pd_lock := b |>).
Proof. intros [[] ]. by split. Qed.

Lemma wp_show pcs bcs fr s : holds firsts pcs bcs fr s -> sysfs_em_pd_lock s = false -> wp sysfs_profile_show (fun buf s' => buf = emit_lines "" (profile_lines firsts (c_table <$> pcs)) /\ s' = s) s.
Proof.
  intros H Hl. unfold sysfs_profile_show. apply wp_bind. unfold wp at 1, sysfs_lock. rewrite Hl. apply (holds_lock _ _ _ _ true) in H. apply wp_bind, wp_get, wp_bind.
  pose proof (hl_num _ _ _ _ _ H) as ->. apply (wp_show_domains _ _ _ _ H pcs [] firsts []); [done..|]. apply wp_bind, wp_mod, wp_ret. split; [done|]. destruct s. simpl in *. by subst.
Qed.
End Show.

(** ** What is read back *)

(** A table with the powers of another one, and the costs that belong to them. *)
Definition repriced (max : Z) (t saved : list em_perf_state) : list em_perf_state := zip_with (fun p q => set_power max (frequency p) (power q) p) t saved.
Definition top (t : list em_perf_state) : Z := from_option frequency 0 (last t).
Definition restored (c saved : clone) : clone := c <| c_table := repriced (top (c_table c)) (c_table c) (c_table saved) |>.

Lemma sorted_before t1 p t2 : StronglySorted Z.lt (frequency <$> t1 ++ p :: t2) -> Forall (fun q => frequency q < frequency p) t1.
Proof.
  induction t1 as [|q t1 IH]; [done|]. simpl. intros [H1 H2]%StronglySorted_inv. constructor; [|by apply IH]. rewrite Forall_forall in H2. apply H2.
  apply list_elem_of_fmap. exists p. split; [done|]. apply elem_of_app. right. by left.
Qed.

Lemma opp_index_here t1 p t2 : Forall (fun q => frequency q < frequency p) t1 -> opp_index (frequency p) (t1 ++ p :: t2) = length t1.
Proof. induction 1 as [|q t1 H _ IH]; simpl; [by rewrite Z.leb_refl|]. destruct (Z.leb_spec (frequency p) (frequency q)); [lia|]. by rewrite IH. Qed.

Lemma find_here l1 c l2 cpu : Forall (fun d => cpu ∉ c_span d) l1 -> cpu ∈ c_span c -> list_find (fun c => cpu ∈ c_span c) (l1 ++ c :: l2) = Some (length l1, c).
Proof. induction 1 as [|d l1 Hd _ IH]; intros Hc; simpl; [by rewrite decide_True|]. rewrite decide_False by done. by rewrite IH. Qed.

Lemma top_frequencies t t' : frequency <$> t = frequency <$> t' -> top t = top t'.
Proof.
  intros E. assert (forall l, top l = default 0 (last (frequency <$> l))) as H by (intros l; unfold top; rewrite fmap_last; by destruct (last l)). by rewrite !H, E.
Qed.

Lemma repriced_frequencies max t q : length t = length q -> frequency <$> repriced max t q = frequency <$> t.
Proof. revert q. induction t as [|p t IH]; intros [|x q] E; [done..|]. injection E as E. unfold repriced. cbn [zip_with]. rewrite !fmap_cons. f_equal. by apply IH. Qed.
Lemma repriced_powers max t q : length t = length q -> power <$> repriced max t q = power <$> q.
Proof. revert q. induction t as [|p t IH]; intros [|x q] E; [done..|]. injection E as E. unfold repriced. cbn [zip_with]. rewrite !fmap_cons. f_equal. by apply IH. Qed.

(** The lines of one table, from the entry after [t1] on. *)
Lemma apply_states max cpu c m rest l1 l2 : Forall (fun d => cpu ∉ c_span d) l1 -> cpu ∈ c_span c -> forall q t t1, Forall state_ok q -> frequency <$> t = frequency <$> q ->
  StronglySorted Z.lt (frequency <$> t1 ++ t) -> top (t1 ++ t) = m ->
  apply_lines max (((fun p => LState (Some (frequency p, power p))) <$> q) ++ rest) (Z.of_nat cpu) (l1 ++ c <| c_table := t1 ++ t |> :: l2) =
  apply_lines max rest (Z.of_nat cpu) (l1 ++ c <| c_table := t1 ++ repriced m t q |> :: l2).
Proof.
  intros H1 Hc. induction q as [|x q IH]; intros [|p t] t1 Hq E Hs Hm; [done|done|done|]. rewrite !fmap_cons in E. injection E as Ex E. apply Forall_cons in Hq as [[Hf Hp] Hq].
  rewrite fmap_cons. cbn [app apply_lines]. destruct (Z.eqb_spec (Z.of_nat cpu) (-1)); [lia|]. destruct (Z.eqb_spec (frequency x) 0); [lia|]. destruct (Z.eqb_spec (power x) 0); [lia|]. cbn [orb].
  unfold update_clones. rewrite Nat2Z.id, find_here by done. cbn [mbind option_bind c_table setter]. unfold update_table. rewrite <- Ex, opp_index_here by (by eapply sorted_before).
  rewrite list_lookup_middle by done. destruct (last (t1 ++ p :: t)) as [y|] eqn:El; [|apply last_None in El; by destruct t1]. cbn [mbind option_bind].
  assert (frequency y = m) as -> by (rewrite <- Hm; unfold top; by rewrite El). rewrite !insert_app_r_alt, !Nat.sub_diag by lia.
  set (p' := set_power m (frequency p) (power x) p). change (<[0%nat := p']> (p :: t)) with (p' :: t).
  set (c' := c <| c_table := t1 ++ p' :: t |>). change (<[0%nat := _]> (_ :: l2)) with (c' :: l2). specialize (IH t (t1 ++ [p'])). rewrite <- !app_assoc in IH. cbn [app] in IH. unfold c'. rewrite IH; [done|done|done| |].
  - rewrite fmap_app, fmap_cons in Hs |- *. exact Hs.
  - rewrite <- Hm. apply top_frequencies. by rewrite !fmap_app, !fmap_cons.
Qed.

(** The lines of the domains after [l1]. *)
Lemma apply_profile max : max < 2 ^ 31 -> forall fs l saved l1, Forall2 (fun f c => f ∈ c_span c /\ Z.of_nat f <= max) fs l -> Forall2 like l saved ->
  Forall (fun c => table_ok (c_table c)) l -> Forall (fun c => table_ok (c_table c)) saved -> Forall (fun f => Forall (fun d => f ∉ c_span d) l1) fs ->
  (forall i j c d, l !! i = Some c -> l !! j = Some d -> i <> j -> c_span c ## c_span d) ->
  forall cur, apply_lines max ((read_line <$> profile_lines fs (c_table <$> saved)) ++ [LBlank]) cur (l1 ++ l) = Some (0, l1 ++ zip_with restored l saved).
Proof.
  intros Hmax. induction fs as [|f fs IH]; intros l saved l1 Hf Hl Ht Hts Hn Hd cur.
  { apply Forall2_nil_inv_l in Hf as ->. by apply Forall2_nil_inv_l in Hl as ->. }
  apply Forall2_cons_inv_l in Hf as (c & l' & (Hfc & Hfm) & Hf & ->). apply Forall2_cons_inv_l in Hl as (sc & saved' & Hc & Hl & ->). apply Forall_cons in Ht as [Htc Ht]. apply Forall_cons in Hts as [Htsc Hts].
  apply Forall_cons in Hn as [Hnf Hn]. rewrite fmap_cons, profile_lines_cons. unfold domain_lines. rewrite !fmap_app, !fmap_cons, fmap_app. cbn [app].
  destruct Htsc as [_ _ Hstates]. assert (read_line <$> (state_line <$> c_table sc) = (fun p => LState (Some (frequency p, power p))) <$> c_table sc) as Er.
  { rewrite <- list_fmap_compose. apply list_fmap_ext. intros i p Hi. rewrite Forall_lookup in Hstates. destruct (Hstates _ _ Hi). simpl. apply read_state_line; lia. }
  rewrite read_cpu_line by lia. cbn [apply_lines]. destruct (Z.ltb_spec (Z.of_nat f) 0); [lia|]. destruct (Z.ltb_spec max (Z.of_nat f)); [lia|]. cbn [orb]. rewrite Er, <- !app_assoc. cbn [app].
  replace c with (c <| c_table := [] ++ c_table c |>) at 1 by (by destruct c).
  erewrite apply_states; [|done|done|done|exact Hc|apply Htc|done]. cbn [fmap list_fmap app].
  change (read_line "}") with LBlank. cbn [apply_lines]. change (c <| c_table := _ |>) with (restored c sc).
  rewrite (cons_middle (restored c sc)), app_assoc. rewrite IH; [cbn [zip_with]; by rewrite <- app_assoc|done|done|done|done| |].
  - rewrite Forall_lookup in Hn |- *. intros i f' Hi. apply Forall_app. split; [by eapply Hn|]. apply Forall_singleton. destruct (Forall2_lookup_l _ _ _ _ _ Hf Hi) as (d & Hdi & Hfd & _).
    pose proof (Hd 0%nat (S i) c d eq_refl Hdi ltac:(done)) as Hdis. simpl. set_solver.
  - intros i j c1 c2 Hi Hj Hij. apply (Hd (S i) (S j) c1 c2); [done|done|lia].
Qed.

(** The text holds no zero. *)
Definition clean (s : string) : Prop := c_string s = s.

Lemma clean_app a b : clean a -> clean b -> clean (a ++ b)%string.
Proof.
  unfold clean. induction a as [|c a IH]; intros Ha Hb; [done|]. rewrite append_cons. cbn [c_string] in *. destruct (nat_of_ascii c =? 0)%nat; [done|]. injection Ha as Ha. by rewrite IH.
Qed.

Lemma clean_digit d s : 0 <= d < 10 -> clean s -> clean (String (digit_of d) s).
Proof. intros H Hs. assert (c_string (String (digit_of d) s) = String (digit_of d) (c_string s)) as E by (by_digit H). unfold clean. by rewrite E, Hs. Qed.

Lemma clean_put_dec fuel : forall n acc, 0 <= n -> clean acc -> clean (put_dec fuel n acc).
Proof.
  induction fuel as [|fuel IH]; intros n acc Hn Ha; [done|]. cbn [put_dec]. destruct (Z.ltb_spec n 10); [by apply clean_digit|].
  apply IH; [dlia|]. apply clean_digit; [dlia|done].
Qed.

Lemma clean_unlines l : Forall clean l -> clean (unlines l).
Proof. induction 1 as [|x l Hx _ IH]; [done|]. cbn [unlines]. apply clean_app; [done|]. by apply (clean_app (String newline "")). Qed.

Lemma profile_lines_ok fs tabs : Forall (Forall state_ok) tabs -> Forall (fun x => no_newline x = true /\ clean x) (profile_lines fs tabs).
Proof.
  intros H. unfold profile_lines. revert tabs H. induction fs as [|f fs IH]; intros [|t ts] H; [constructor..|]. apply Forall_cons in H as [Ht H]. cbn [zip_with concat]. apply Forall_app. split; [|by apply IH].
  constructor; [|apply Forall_app; split; [|by repeat constructor]].
  - split; [apply cpu_line_one; lia|]. unfold cpu_line, print_d. destruct (Z.ltb_spec (Z.of_nat f) 0); [lia|]. apply (clean_app "cpu"); [done|]. apply clean_app; [|done]. apply clean_put_dec; [lia|done].
  - apply Forall_fmap. eapply Forall_impl; [exact Ht|]. intros p [Hf Hp]. split; [apply state_line_one; lia|]. unfold state_line. apply clean_app; [apply clean_put_dec; [lia|done]|].
    apply (clean_app " "); [done|]. apply clean_put_dec; [lia|done].
Qed.

Lemma saved_states saved : Forall (fun c => table_ok (c_table c)) saved -> Forall (Forall state_ok) (c_table <$> saved).
Proof. intros H. apply Forall_fmap. eapply Forall_impl; [exact H|]. by intros c []. Qed.

Lemma saved_lines fs saved n : Forall (fun c => table_ok (c_table c)) saved -> (String.length (profile_text fs saved) <= n)%nat ->
  read_text (str_take n (c_string (profile_text fs saved))) = (read_line <$> profile_lines fs (c_table <$> saved)) ++ [LBlank].
Proof.
  intros H Hn. pose proof (profile_lines_ok fs _ (saved_states _ H)) as Hl. unfold profile_text in *. rewrite clean_unlines, str_take_ge; [|done|by eapply Forall_impl; [exact Hl|]; intros x []].
  unfold read_text. rewrite split_unlines by (by eapply Forall_impl; [exact Hl|]; intros x []). by rewrite fmap_app.
Qed.

Section File.
Context (firsts : list nat).
Implicit Types (pcs bcs : list clone) (fr : blocks) (s : em).

Lemma apply_saved pcs bcs fr s saved n cur : holds firsts pcs bcs fr s -> Forall2 like pcs saved -> Forall (fun c => table_ok (c_table c)) saved -> (String.length (profile_text firsts saved) <= n)%nat ->
  apply_lines (pixel_em_max_cpu s) (read_text (str_take n (c_string (profile_text firsts saved)))) cur pcs = Some (0, zip_with restored pcs saved).
Proof.
  intros [] Hl Hs Hn. rewrite saved_lines by done. apply (apply_profile (pixel_em_max_cpu s) ltac:(lia) firsts pcs saved []); [done..| |done]. apply Forall_true. by constructor.
Qed.

(** ** Writing *)

Definition is_default (buf : string) : bool := strncasecmp0 buf "default" 7.

Lemma lock_vars s s1 : sysfs_em_pd_lock s = false -> same_vars (s <| sysfs_em_pd_lock := true |>) s1 -> same_vars s (s1 <| sysfs_em_pd_lock := false |>).
Proof. intros H ->. unfold same_vars. destruct s. simpl in *. by subst. Qed.

(** The answer is the count when the text was refused or there was no memory. *)
Lemma wp_write buf n pcs bcs fr s r pcs' : holds firsts pcs bcs fr s -> sysfs_em_pd_lock s = false -> is_default buf = false -> text_outcome buf n pcs s = Some (r, pcs') ->
  wp (sysfs_profile_store buf n) (fun a s' => same_vars s s' /\ a = (if r =? 0 then - EINVAL else Z.of_nat n) /\ holds firsts pcs' bcs fr s') s.
Proof.
  intros H Hl Hd E. unfold sysfs_profile_store. unfold is_default in Hd. rewrite Hd. apply wp_bind. unfold wp at 1, sysfs_lock. rewrite Hl. apply (holds_lock _ _ _ _ _ true) in H. apply wp_bind.
  eapply wp_parse; [exact H|exact E|]. intros s1 H1 V1. apply wp_bind, wp_mod, wp_ret. split; [by apply lock_vars|]. split; [|by apply (holds_lock _ _ _ _ _ false)]. by destruct (r =? 0).
Qed.

Lemma write_outside buf n pcs bcs fr s : holds firsts pcs bcs fr s -> sysfs_em_pd_lock s = false -> is_default buf = false -> text_outcome buf n pcs s = None -> sysfs_profile_store buf n s = Fault.
Proof.
  intros H Hl Hd E. unfold sysfs_profile_store. unfold is_default in Hd. rewrite Hd. apply faults_bind. unfold wp, sysfs_lock. rewrite Hl. apply faults_first.
  apply (holds_lock _ _ _ _ _ true) in H. by eapply parse_outside.
Qed.

Lemma outcome_safe buf n pcs s : is_Some (apply_lines (pixel_em_max_cpu s) (read_text (str_take n (c_string buf))) (-1) pcs) -> is_Some (text_outcome buf n pcs s).
Proof. intros H. unfold text_outcome. destruct (granted s); [done|by eexists]. Qed.
Lemma outcome_shape buf n pcs s r pcs' : text_outcome buf n pcs s = Some (r, pcs') -> shapes pcs' = shapes pcs.
Proof. unfold text_outcome. destruct (granted s); [apply apply_lines_shape|by intros [= <- <-]]. Qed.

Lemma like_sym l l' : Forall2 like l l' -> Forall2 like l' l.
Proof. intros H. apply Forall2_flip. eapply Forall2_impl; [exact H|]. intros c d Hcd. unfold like in *. congruence. Qed.
Lemma holds_like pcs bcs fr s : holds firsts pcs bcs fr s -> Forall2 like pcs bcs.
Proof. intros []. apply like_sym. exact hl_backup. Qed.

Lemma wp_restore pcs bcs fr s (Q : unit -> em -> Prop) : holds firsts pcs bcs fr s -> (forall s', holds firsts (zip_with copied pcs bcs) bcs fr s' -> same_vars s s' -> Q tt s') ->
  wp (restore em_pds em_pds_backup) Q s.
Proof.
  intros H HQ. pose proof (holds_like _ _ _ _ H) as Hl. unfold restore. apply wp_bind, wp_get. rewrite (hl_num _ _ _ _ _ H). pose proof (hl_owns _ _ _ _ _ H) as Ho.
  apply (wp_copy_tables (em_pds s) (em_pds_backup s) ((cpu_to_em_pd s, BPtrs (cpu_ptrs (pixel_em_max_cpu s) pcs)) :: (em_pd_to_cpu s, BInts (Z.of_nat <$> firsts)) :: fr) pcs bcs [] []); [done|done|same_blocks Ho|].
  intros s' H' V. apply HQ; [|done]. eapply holds_change; [exact H|exact V|by apply copied_shapes|done|by apply copied_ok; [|by eapply hl_backups]|by eapply hl_backups|]. same_blocks H'.
Qed.

Lemma wp_write_default buf n pcs bcs fr s : holds firsts pcs bcs fr s -> sysfs_em_pd_lock s = false -> is_default buf = true ->
  wp (sysfs_profile_store buf n) (fun a s' => a = Z.of_nat n /\ same_vars s s' /\ holds firsts (zip_with copied pcs bcs) bcs fr s') s.
Proof.
  intros H Hl Hd. unfold sysfs_profile_store. unfold is_default in Hd. rewrite Hd. apply wp_bind. unfold wp at 1, sysfs_lock. rewrite Hl. apply (holds_lock _ _ _ _ _ true) in H. apply wp_bind.
  eapply wp_restore; [exact H|]. intros s1 H1 V1. apply wp_bind, wp_mod, wp_ret. split; [done|]. split; [by apply lock_vars|]. by apply (holds_lock _ _ _ _ _ false).
Qed.

(** ** Histories *)

(** Writes and reads, and what the allocator will answer. *)
Inductive em_event := EvWrite (buf : string) (n : nat) | EvRead | EvMemory (l : list bool).
Definition em_step (e : em_event) : PM unit :=
  match e with
  | EvWrite buf n => do! sysfs_profile_store buf n in kret tt
  | EvRead => do! sysfs_profile_show in kret tt
  | EvMemory l => kmod (fun s => s <| m_mem := l |>)
  end.
(** No line of the text asks for more than the top frequency of a domain, or for
    a cpu without domain. *)
Definition safe_text (max : Z) (l : list clone) (buf : string) (n : nat) : Prop := is_Some (apply_lines max (read_text (str_take n (c_string buf))) (-1) l).
Definition safe_event (max : Z) (l : list clone) (e : em_event) : Prop :=
  match e with EvWrite buf n => is_default buf = true \/ safe_text max l buf n | _ => True end.

Lemma wp_history evs : forall pcs bcs fr s, holds firsts pcs bcs fr s -> sysfs_em_pd_lock s = false -> Forall (safe_event (pixel_em_max_cpu s) pcs) evs ->
  wp (m_iter em_step evs) (fun _ s' => same_vars s s' /\ exists pcs', holds firsts pcs' bcs fr s' /\ shapes pcs' = shapes pcs) s.
Proof.
  induction evs as [|e evs IH]; intros pcs bcs fr s H Hl He; [by apply wp_ret; split; [|exists pcs]|]. apply Forall_cons in He as [He Hes]. apply wp_iter_cons.
  assert (Hgo : forall pcs1 s1, holds firsts pcs1 bcs fr s1 -> same_vars s s1 -> shapes pcs1 = shapes pcs -> wp (m_iter em_step evs) (fun _ s' => same_vars s s' /\ exists pcs', holds firsts pcs' bcs fr s' /\ shapes pcs' = shapes pcs) s1).
  { intros pcs1 s1 H1 V1 E1. assert (pixel_em_max_cpu s1 = pixel_em_max_cpu s /\ sysfs_em_pd_lock s1 = sysfs_em_pd_lock s) as [Em El] by (by rewrite V1). eapply wp_mono; [eapply IH; [exact H1|congruence|]|].
    - rewrite Em. eapply Forall_impl; [exact Hes|]. intros [buf n| |] He'; [|done..]. destruct He' as [|Hs]; [by left|right]. eapply apply_lines_safe; [|exact Hs]. by symmetry.
    - intros _ s2 (V2 & pcs2 & H2 & E2). split; [by rewrite V1|]. exists pcs2. split; [done|congruence]. }
  destruct e as [buf n| |l]; cbn [em_step].
  - apply wp_bind. destruct (is_default buf) eqn:Ed.
    + eapply wp_mono; [by eapply wp_write_default|]. intros a s1 (_ & V1 & H1). apply wp_ret. eapply Hgo; [exact H1|done|]. apply copied_shapes. by eapply holds_like.
    + destruct He as [|He]; [congruence|]. destruct (outcome_safe _ _ _ _ He) as [[r pcs1] E]. eapply wp_mono; [by eapply wp_write|]. intros a s1 (V1 & _ & H1). apply wp_ret.
      eapply Hgo; [exact H1|done|]. by eapply outcome_shape.
  - apply wp_bind. eapply wp_mono; [by eapply wp_show|]. intros buf s1 (_ & ->). apply wp_ret. by eapply Hgo.
  - apply wp_mod. apply (Hgo pcs); [|by destruct s|done]. eapply holds_frame; [exact H|by destruct s|]. destruct (hl_owns _ _ _ _ _ H). by split.
Qed.

Lemma like_shapes pcs pcs' : shapes pcs' = shapes pcs -> Forall2 like pcs' pcs.
Proof.
  intros E. apply Forall2_same_length_lookup_2; [by destruct (shapes_parts _ _ E)|]. intros i c d Hc Hd. destruct (shapes_parts _ _ E) as (_ & _ & H). destruct (H _ _ Hc) as (d' & Hd' & Es).
  assert (d' = d) as -> by congruence. unfold shape in Es. by injection Es.
Qed.
Lemma restored_powers l saved : Forall2 like l saved -> (fun c => power <$> c_table c) <$> zip_with restored l saved = (fun c => power <$> c_table c) <$> saved.
Proof.
  induction 1 as [|c d l saved H _ IH]; [done|]. cbn [zip_with]. rewrite !fmap_cons, IH. f_equal. simpl. apply repriced_powers. by rewrite <- !(length_fmap frequency), H.
Qed.

Lemma text_not_default l : is_default (unlines (profile_lines firsts l)) = false.
Proof.
  unfold profile_lines. destruct firsts as [|f fs]; [done|]. destruct l as [|t l]; [done|]. apply bool_decide_eq_false. cbn [zip_with concat domain_lines app unlines]. unfold cpu_line.
  change ("cpu" ++ print_d (Z.of_nat f) ++ " {")%string with (String "c" (String "p" (String "u" (print_d (Z.of_nat f) ++ " {")))). rewrite append_cons. cbn [lower str_take]. intros E. injection E. done.
Qed.

(** ** What users rely on *)

(** C26. A text other than [default] changes the domains as its lines say, up to the
    first line that is refused, when there is memory for its copy, and nothing
    otherwise; the answer is an error when the whole text was applied, and the count
    when it was refused or could not be copied. A text that asks for more than the
    top frequency of a domain, or for a cpu without domain, makes the driver write
    outside its memory. *)
Theorem store_applies_text buf n pcs bcs fr s : holds firsts pcs bcs fr s -> sysfs_em_pd_lock s = false -> is_default buf = false ->
  match text_outcome buf n pcs s with
  | Some (r, pcs') => wp (sysfs_profile_store buf n) (fun a s' => sysfs_em_pd_lock s' = false /\ a = (if r =? 0 then - EINVAL else Z.of_nat n) /\ holds firsts pcs' bcs fr s') s
  | None => sysfs_profile_store buf n s = Fault
  end.
Proof.
  intros H Hl Hd. destruct (text_outcome buf n pcs s) as [[r pcs']|] eqn:E; [|by eapply write_outside]. eapply wp_mono; [by eapply wp_write|]. intros a s' [V Ha]. split; [by rewrite V|done].
Qed.

(** C16. A profile that was read from the file, whole within a page, restores every
    power when it is written back, after any reads and writes of texts inside the
    tables in between; the driver answers that write with an error. When there is no
    memory for the copy of the text, nothing changes and the answer is the count. *)
Theorem saved_profile_restores pcs bcs fr s evs : holds firsts pcs bcs fr s -> sysfs_em_pd_lock s = false -> fits (profile_lines firsts (c_table <$> pcs)) ->
  Forall (safe_event (pixel_em_max_cpu s) pcs) evs ->
  wp (let! text := sysfs_profile_show in do! m_iter em_step evs in kret text) (fun text s1 => exists pcs1, holds firsts pcs1 bcs fr s1 /\
    wp (sysfs_profile_store text (String.length text)) (fun a s' => exists pcs', holds firsts pcs' bcs fr s' /\ shapes pcs' = shapes pcs /\
      if granted s1 then a = - EINVAL /\ ((fun c => power <$> c_table c) <$> pcs') = ((fun c => power <$> c_table c) <$> pcs)
      else a = Z.of_nat (String.length text) /\ pcs' = pcs1) s1) s.
Proof.
  intros H Hl Hf He. apply wp_bind. eapply wp_mono; [by eapply wp_show|]. intros text s0 [-> ->]. pose proof (emit_lines_fit _ [] Hf) as Et. cbn [unlines app] in Et. rewrite Et.
  change (unlines (profile_lines firsts (c_table <$> pcs))) with (profile_text firsts pcs). apply wp_bind. eapply wp_mono; [by eapply wp_history|]. intros _ s1 (V & pcs1 & H1 & E1). apply wp_ret.
  exists pcs1. split; [done|]. assert (sysfs_em_pd_lock s1 = false) as Hl1 by (by rewrite V). pose proof (like_shapes _ _ E1) as Hlike.
  pose proof (apply_saved pcs1 bcs fr s1 pcs (String.length (profile_text firsts pcs)) (-1) H1 Hlike (hl_tables _ _ _ _ _ H) ltac:(done)) as Ea.
  destruct (outcome_safe (profile_text firsts pcs) (String.length (profile_text firsts pcs)) pcs1 s1 ltac:(by eexists)) as [[r pcs'] Eo].
  eapply wp_mono; [eapply wp_write; [exact H1|exact Hl1|apply text_not_default|exact Eo]|]. intros a s2 (_ & -> & H2). exists pcs'. split; [done|].
  split; [rewrite <- E1; by eapply outcome_shape|]. unfold text_outcome in Eo. rewrite Ea in Eo. destruct (granted s1); injection Eo as <- <-; [|done]. split; [done|by apply restored_powers].
Qed.

(** C17. Writing [default] after any writes and reads makes every table what it was
    after the set-up, powers and costs; the defaults, the frequencies and the
    kernel's own domains are as they were at every point. *)
Theorem default_restores pcs bcs fr s evs buf n : holds firsts pcs bcs fr s -> sysfs_em_pd_lock s = false -> Forall (safe_event (pixel_em_max_cpu s) pcs) evs -> is_default buf = true ->
  wp (do! m_iter em_step evs in sysfs_profile_store buf n) (fun a s' => a = Z.of_nat n /\ sysfs_em_pd_lock s' = false /\
    exists pcs', holds firsts pcs' bcs fr s' /\ shapes pcs' = shapes pcs /\ (c_table <$> pcs') = (c_table <$> bcs)) s.
Proof.
  intros H Hl He Hd. apply wp_bind. eapply wp_mono; [by eapply wp_history|]. intros _ s1 (V & pcs1 & H1 & E1). assert (sysfs_em_pd_lock s1 = false) as Hl1 by (by rewrite V).
  eapply wp_mono; [by eapply wp_write_default|]. intros a s2 (-> & V2 & H2). split; [done|]. split; [by rewrite V2|]. exists (zip_with copied pcs1 bcs). pose proof (holds_like _ _ _ _ H1) as Hlike. split; [done|].
  split; [rewrite <- E1; by apply copied_shapes|by apply copied_tables].
Qed.
End File.
