(* ===== verification/PixelEmProbe.v ===== *)
(** * Setting the energy model up

    The probe either leaves the driver with clones of every domain of the kernel,
    or leaves no block behind; removing the driver gives back what is not shared. *)

From Stdlib Require Import Sorted.
From S2P Require Import Prelude PixelEm PixelEmText PixelEmSpec PixelEmFile.

(** ** Arrays that are being filled *)

Definition slot_ptr (o : option clone) : Z := from_option c_ptr 0 o.
Definition slot_blocks (o : option clone) : blocks := from_option clone_blocks [] o.
(** The block of a pointer that may be null. *)
Definition arr (p : Z) (b : em_block) : blocks := if p =? 0 then [] else [(p, b)].

Ltac same_slots H := refine (owns_eq _ _ _ H _); rewrite ?flat_map_app; cbn [flat_map slot_blocks from_option clone_blocks app]; rewrite ?app_nil_r; solve_Permutation.

Lemma arr_null b : arr 0 b = [].
Proof. done. Qed.
Lemma arr_some p b : p <> 0 -> arr p b = [(p, b)].
Proof. intros. unfold arr. by destruct (Z.eqb_spec p 0). Qed.

Section Free.
Implicit Types (s : em) (fr : blocks).

Lemma wp_kfree_arr p b fr s (Q : unit -> em -> Prop) : owns s (arr p b ++ fr) -> (forall s', owns s' fr -> same_vars s s' -> Q tt s') -> wp (kfree p) Q s.
Proof.
  intros H HQ. destruct (decide (p = 0)) as [->|Hp]; [apply wp_kfree_null, HQ; [exact H|reflexivity]|]. rewrite arr_some in H by done. by eapply wp_kfree.
Qed.

Lemma wp_free_slots a fr : forall l2 l1 s (Q : unit -> em -> Prop), owns s ((a, BPtrs (slot_ptr <$> l1 ++ l2)) :: flat_map slot_blocks l2 ++ fr) ->
  (forall s', owns s' ((a, BPtrs (slot_ptr <$> l1 ++ l2)) :: fr) -> same_vars s s' -> Q tt s') ->
  wp (m_iter (fun i => let! p := get_ptr a i in if p =? 0 then kret tt else free_pd p) (seqZ (Z.of_nat (length l1)) (Z.of_nat (length l2)))) Q s.
Proof.
  induction l2 as [|o l2 IH]; intros l1 s Q H HQ; [apply wp_ret, HQ; [exact H|reflexivity]|].
  assert (Hnext : forall s', owns s' ((a, BPtrs (slot_ptr <$> l1 ++ o :: l2)) :: flat_map slot_blocks l2 ++ fr) -> same_vars s s' ->
    wp (m_iter (fun i => let! p := get_ptr a i in if p =? 0 then kret tt else free_pd p) (seqZ (Z.succ (Z.of_nat (length l1))) (Z.pred (Z.of_nat (length (o :: l2)))))) Q s').
  { intros s' H' V. replace (Z.succ (Z.of_nat (length l1))) with (Z.of_nat (length (l1 ++ [o]))) by (rewrite length_app; simpl; lia).
    replace (Z.pred (Z.of_nat (length (o :: l2)))) with (Z.of_nat (length l2)) by (simpl; lia). rewrite (cons_middle o), app_assoc in H'. eapply IH; [exact H'|].
    intros s2 H2 V2. apply HQ; [by rewrite <- app_assoc in H2|by rewrite V]. }
  rewrite seqZ_cons by (simpl; lia). apply wp_iter_cons, wp_bind. eapply wp_get_ptr; [exact H|by left|lia|rewrite Nat2Z.id, fmap_app; apply list_lookup_middle; by rewrite length_fmap|].
  destruct o as [c|]; cbn [slot_ptr from_option].
  - destruct (Z.eqb_spec (c_ptr c) 0) as [E|_].
    + destruct (owns_load _ _ (c_ptr c) (BDomain (c_domain c)) H) as [_ Hne]; [right; simpl; by left|done].
    + eapply (wp_free_pd c ((a, BPtrs (slot_ptr <$> l1 ++ Some c :: l2)) :: flat_map slot_blocks l2 ++ fr)); [same_slots H|exact Hnext].
  - apply wp_ret, Hnext; [exact H|reflexivity].
Qed.

Lemma wp_free_pds a l fr s (Q : unit -> em -> Prop) : owns s (arr a (BPtrs (slot_ptr <$> l)) ++ flat_map slot_blocks l ++ fr) -> (a = 0 -> l = []) -> (a <> 0 -> pixel_em_num_cpu_pds s = Z.of_nat (length l)) ->
  (forall s', owns s' fr -> same_vars s s' -> Q tt s') -> wp (free_pds a) Q s.
Proof.
  intros H H0 H1 HQ. unfold free_pds. destruct (Z.eqb_spec a 0) as [->|Hne]; [rewrite H0 in H by done; apply wp_ret, HQ; [exact H|reflexivity]|].
  apply wp_bind, wp_get, wp_bind. rewrite H1 by done. rewrite arr_some in H by done. apply (wp_free_slots a fr l []); [exact H|]. intros s1 Hs1 V1. eapply wp_kfree; [exact Hs1|].
  intros s2 H2 V2. apply HQ; [done|by rewrite V1].
Qed.

(** What the driver holds before its set-up is complete. *)
Record partial (cs firsts : list Z) (pds bks : list (option clone)) fr s : Prop := MkPartial {
  pt_owns : owns s (arr (cpu_to_em_pd s) (BPtrs cs) ++ arr (em_pd_to_cpu s) (BInts firsts) ++ arr (em_pds s) (BPtrs (slot_ptr <$> pds)) ++ arr (em_pds_backup s) (BPtrs (slot_ptr <$> bks)) ++
    flat_map slot_blocks pds ++ flat_map slot_blocks bks ++ fr);
  pt_pds : em_pds s = 0 -> pds = [];
  pt_bks : em_pds_backup s = 0 -> bks = [];
  pt_npds : em_pds s <> 0 -> pixel_em_num_cpu_pds s = Z.of_nat (length pds);
  pt_nbks : em_pds_backup s <> 0 -> pixel_em_num_cpu_pds s = Z.of_nat (length bks)
}.

(** Everything is given back and forgotten. *)
Definition released (s s' : em) : Prop := s' = s <| m_heap := m_heap s' |> <| m_next := m_next s' |> <| m_mem := m_mem s' |> <| primary_sysfs_folder := false |> <| platform_dev := false |>
  <| em_pds := 0 |> <| em_pds_backup := 0 |> <| cpu_to_em_pd := 0 |> <| em_pd_to_cpu := 0 |>.

Lemma owns_vars s s' bl : owns s bl -> m_heap s' = m_heap s -> m_next s' = m_next s -> owns s' bl.
Proof. intros [] E1 E2. by split; rewrite ?E1, ?E2. Qed.

Lemma wp_undo cs firsts pds bks fr s (Q : unit -> em -> Prop) : partial cs firsts pds bks fr s -> platform_dev s = false -> (forall s', owns s' fr -> released s s' -> Q tt s') -> wp pixel_em_drv_undo_probe Q s.
Proof.
  intros [Ho Hp Hb Hnp Hnb] Hd HQ. unfold pixel_em_drv_undo_probe, pixel_em_clean_up_sysfs_nodes. apply wp_bind, wp_mod, wp_bind, wp_get, wp_bind. cbn [platform_dev setter]. simpl. rewrite Hd.
  apply wp_bind. eapply wp_kfree_arr; [eapply owns_vars; [exact Ho|done|done]|]. intros s1 H1 V1. cbn [m_heap m_next m_mem] in *.
  eapply (wp_free_pds _ pds (arr (em_pd_to_cpu s) (BInts firsts) ++ arr (em_pds_backup s) (BPtrs (slot_ptr <$> bks)) ++ flat_map slot_blocks bks ++ fr)); [same_slots H1|exact Hp|by rewrite V1|].
  intros s2 H2 V2. apply wp_bind. eapply wp_kfree_arr; [exact H2|]. intros s3 H3 V3. apply wp_bind, wp_mod, wp_bind. rewrite V1 in V2. rewrite V2 in V3.
  eapply (wp_free_pds _ bks fr); [eapply owns_vars; [exact H3|done|done]|exact Hb|simpl; by rewrite V3|]. intros s4 H4 V4. apply wp_mod, HQ; [by eapply owns_vars|].
  unfold released. rewrite V4, V3. done.
Qed.
End Free.

(** ** Cpus and their domains *)

(** ** Profiles of other clones *)

(** What a text looks at. *)
Definition strip (c : clone) : cpumask_t * list em_perf_state := (c_span c, c_table c).

Definition strips (l : list clone) := strip <$> l.
Definition result_strips (x : Z * list clone) := (fst x, strips (snd x)).

Lemma strips_cons c l c' l' : strips (c :: l) = strips (c' :: l') -> c_span c = c_span c' /\ c_table c = c_table c' /\ strips l = strips l'.
Proof. unfold strips. rewrite !fmap_cons. intros E. by injection E. Qed.

Lemma find_strip cpu l : forall l', strips l = strips l' ->
  match list_find (fun c => cpu ∈ c_span c) l, list_find (fun c => cpu ∈ c_span c) l' with Some (i, c), Some (j, d) => i = j /\ strip c = strip d | None, None => True | _, _ => False end.
Proof.
  induction l as [|c l IH]; intros [|c' l'] E; [done..|]. apply strips_cons in E as (E1 & E2 & E3). simpl. rewrite <- E1. case_decide; [unfold strip; by rewrite E1, E2|].
  specialize (IH l' E3). destruct (list_find _ l) as [[]|], (list_find _ l') as [[]|]; simpl; try done. by destruct IH as [-> ?].
Qed.

Lemma update_clones_strip cpu freq pow l l' : strips l = strips l' -> option_map strips (update_clones cpu freq pow l) = option_map strips (update_clones cpu freq pow l').
Proof.
  intros E. pose proof (find_strip cpu _ _ E) as F. unfold update_clones. destruct (list_find _ l) as [[i c]|], (list_find _ l') as [[j d]|]; [|done..]. destruct F as [-> F]. unfold strip in F. injection F as E1 E2.
  simpl. rewrite E2. destruct (update_table freq pow (c_table d)) as [t|]; [|done]. simpl. f_equal. unfold strips in *. rewrite !list_fmap_insert, E. unfold strip. simpl. by rewrite E1.
Qed.

Lemma apply_lines_strip max ls : forall cur l l', strips l = strips l' -> option_map result_strips (apply_lines max ls cur l) = option_map result_strips (apply_lines max ls cur l').
Proof.
  induction ls as [|x ls IH]; intros cur l l' E; simpl; [unfold result_strips; simpl; by rewrite E|].
  assert (Hend : Some (result_strips (- EINVAL, l)) = Some (result_strips (- EINVAL, l'))) by (unfold result_strips; simpl; by rewrite E).
  destruct x as [|[id|]|fp]; [by apply IH| |done|].
  - destruct ((id <? 0) || (max <? id)); [done|by apply IH].
  - destruct (cur =? -1); [done|]. destruct fp as [[freq pow]|]; [|done]. destruct ((freq =? 0) || (pow =? 0)); [done|]. pose proof (update_clones_strip (Z.to_nat cur) freq pow l l' E) as Eu.
    destruct (update_clones _ freq pow l) as [l1|], (update_clones _ freq pow l') as [l2|]; [|done..]. simpl in *. apply IH. congruence.
Qed.

Lemma strips_tables l l' : strips l = strips l' -> c_table <$> l = c_table <$> l'.
Proof. intros E. assert (forall k, c_table <$> k = snd <$> strips k) as H by (intros k; unfold strips; by rewrite <- list_fmap_compose). by rewrite !H, E. Qed.

Section Init.
Context (nr_cpu_ids : nat) (cpu_possible_mask : cpumask_t) (em_cpu_get : nat -> Z) (kd : nat -> clone).
Implicit Types (s : em) (m : cpumask_t).

(** The kernel's domains [kd]: the domain of each possible cpu, if it has been
    registered, holds the cpu and other possible cpus with the same domain. *)
Record kernel_ok (fr : blocks) : Prop := MkKernelOk {
  ke_small : Z.of_nat nr_cpu_ids <= 2 ^ 31;
  ke_some : cpu_possible_mask <> ∅;
  ke_mask : forall c, c ∈ cpu_possible_mask -> (c < nr_cpu_ids)%nat;
  ke_domain : forall c, c ∈ cpu_possible_mask -> em_cpu_get c <> 0 -> em_cpu_get c = c_ptr (kd c) /\ clone_blocks (kd c) ⊆ fr /\ table_ok (c_table (kd c)) /\
    c ∈ c_span (kd c) /\ forall c', c' ∈ c_span (kd c) -> c' ∈ cpu_possible_mask /\ em_cpu_get c' <> 0 /\ kd c' = kd c
}.

Abbreviation first := (cpumask_first nr_cpu_ids).
(** The first cpu of each domain, in the order of the loops. *)
Fixpoint layout (fuel : nat) (m : cpumask_t) : option (list nat) :=
  match fuel with
  | O => None
  | S fuel => if bool_decide (m = ∅) then Some [] else let c := first m in if em_cpu_get c =? 0 then None else cons c <$> layout fuel (m ∖ c_span (kd c))
  end.

Context (fr : blocks) (Hk : kernel_ok fr).

(** Masks that hold the other cpus of a domain with each cpu. *)
Definition closed m : Prop := m ⊆ cpu_possible_mask /\ forall c, c ∈ m -> em_cpu_get c <> 0 -> c_span (kd c) ⊆ m.

Lemma closed_all : closed cpu_possible_mask.
Proof. split; [done|]. intros c Hc Hd c' Hc'. destruct (ke_domain _ Hk c Hc Hd) as (_ & _ & _ & _ & H). by apply H. Qed.

Lemma cpus_in m c : m ⊆ cpu_possible_mask -> c ∈ cpus nr_cpu_ids m <-> c ∈ m.
Proof.
  intros H. unfold cpus. rewrite list_elem_of_filter. split; [by intros []|]. intros Hc. split; [done|]. apply elem_of_seq. pose proof (ke_mask _ Hk c (H c Hc)). lia.
Qed.

Lemma first_in m : m ⊆ cpu_possible_mask -> m <> ∅ -> first m ∈ m.
Proof.
  intros H Hne. unfold cpumask_first. destruct (cpus nr_cpu_ids m) as [|c l] eqn:E.
  - apply set_choose_L in Hne as [c Hc]. apply (cpus_in m c H) in Hc. rewrite E in Hc. by apply elem_of_nil in Hc.
  - simpl. apply (cpus_in m c H). rewrite E. by left.
Qed.

Lemma closed_step m c : closed m -> c ∈ m -> em_cpu_get c <> 0 -> closed (m ∖ c_span (kd c)) /\ cpumask_xor m (c_span (kd c)) = m ∖ c_span (kd c) /\ (size (m ∖ c_span (kd c)) < size m)%nat.
Proof.
  intros [H1 H2] Hc Hd. pose proof (H2 c Hc Hd) as Hs. destruct (ke_domain _ Hk c (H1 _ Hc) Hd) as (_ & _ & _ & Hself & Hsame). split; [|split].
  - split; [set_solver|]. intros d [Hdm Hds]%elem_of_difference Hdd x Hx. apply elem_of_difference. split; [by apply (H2 d)|]. intros Hxc. apply Hds.
    destruct (ke_domain _ Hk d (H1 _ Hdm) Hdd) as (_ & _ & _ & Hdself & Hdsame). destruct (Hdsame x Hx) as (_ & _ & E1). destruct (Hsame x Hxc) as (_ & _ & E2). by rewrite <- E2, E1.
  - unfold cpumask_xor. apply set_eq. set_solver.
  - apply subset_size. split; [set_solver|]. intros Hsub. specialize (Hsub c Hc). set_solver.
Qed.

Lemma kernel_domain c bl : clone_blocks (kd c) ⊆ bl -> (c_ptr (kd c), BDomain (c_domain (kd c))) ∈ bl.
Proof. intros H. apply H. by left. Qed.

(** Counting ends, and counts the domains unless one is not there yet. *)
Lemma wp_count_pds fuel : forall m res s bl (Q : Z -> em -> Prop), owns s bl -> fr ⊆ bl -> closed m -> (size m < fuel)%nat ->
  match layout fuel m with Some l => Q (res + Z.of_nat (length l)) s | None => Q (- EPROBE_DEFER) s end -> wp (count_pds nr_cpu_ids em_cpu_get fuel m res) Q s.
Proof.
  induction fuel as [|fuel IH]; intros m res s bl Q H Hfr Hm Hf HQ; [lia|]. cbn [count_pds layout] in *. case_bool_decide as Hne.
  { simpl in HQ. rewrite Z.add_0_r in HQ. by apply wp_ret. }
  pose proof (first_in m (proj1 Hm) Hne) as Hin. destruct (Z.eqb_spec (em_cpu_get (first m)) 0) as [|Hd]; [by apply wp_ret|].
  destruct (closed_step m _ Hm Hin Hd) as (Hm' & Ex & Hlt). destruct (ke_domain _ Hk _ (proj1 Hm _ Hin) Hd) as (Ep & Hb & _). rewrite Ep. apply wp_bind.
  eapply wp_get_domain; [exact H|apply Hfr; by apply kernel_domain|]. cbn [c_domain pd_cpus]. rewrite Ex. eapply IH; [exact H|exact Hfr|exact Hm'|lia|].
  destruct (layout fuel _) as [l|]; [|exact HQ]. cbn [fmap option_fmap option_map] in HQ. simpl length in HQ. by replace (res + 1 + Z.of_nat (length l)) with (res + Z.of_nat (S (length l))) by lia.
Qed.

(** Filling the array of the cpus. *)
Lemma wp_set_ptrs a p : forall l cs bl s (Q : unit -> em -> Prop), owns s ((a, BPtrs cs) :: bl) -> Forall (fun c => (c < length cs)%nat) l ->
  (forall cs' s', length cs' = length cs -> (forall i, (i < length cs)%nat -> cs' !! i = if decide (i ∈ l) then Some p else cs !! i) -> owns s' ((a, BPtrs cs') :: bl) -> same_vars s s' -> Q tt s') ->
  wp (m_iter (fun pd_cpu => set_ptr a (Z.of_nat pd_cpu) p) l) Q s.
Proof.
  induction l as [|c l IH]; intros cs bl s Q H Hl HQ.
  { apply wp_ret, (HQ cs); [done|by intros|done|reflexivity]. }
  apply Forall_cons in Hl as [Hc Hl]. apply wp_iter_cons. eapply wp_set_ptr; [exact H|lia|]. intros s1 H1 V1. rewrite Nat2Z.id in H1.
  eapply IH; [exact H1|by rewrite length_insert|]. intros cs' s2 E2 Hi H2 V2. rewrite length_insert in *. apply (HQ cs'); [done| |done|by rewrite V1].
  intros i Hlt. rewrite Hi by done. destruct (decide (i ∈ l)) as [|Hn]; [by rewrite decide_True by set_solver|]. destruct (decide (i = c)) as [->|Hne].
  - rewrite decide_True by set_solver. by rewrite list_lookup_insert_eq.
  - rewrite list_lookup_insert_ne by done. by rewrite decide_False by set_solver.
Qed.

Lemma cpu_ptr_snoc l c cpu : (forall d, d ∈ l -> c_span d ## c_span c) -> cpu_ptr (l ++ [c]) cpu = if decide (cpu ∈ c_span c) then c_ptr c else cpu_ptr l cpu.
Proof.
  intros Hd. unfold cpu_ptr. destruct (list_find (fun c => cpu ∈ c_span c) l) as [[i d]|] eqn:F.
  - rewrite (list_find_app_l _ _ _ _ _ F). apply list_find_Some in F as (Hi & Hs & _). rewrite decide_False; [done|]. intros Hc. apply list_elem_of_lookup_2 in Hi. specialize (Hd d Hi). set_solver.
  - rewrite list_find_app_r by done. simpl. by case_decide.
Qed.

(** ** The loop *)

(** The domains cloned so far, and the cpus [m] that are left. *)
Record cloned (f1 : list nat) (p1 b1 : list clone) m : Prop := MkCloned {
  cl_pds : Forall2 (fun f c => same_domain c (kd f) /\ f ∈ cpu_possible_mask /\ em_cpu_get f <> 0) f1 p1;
  cl_bks : Forall2 (fun f c => same_domain c (kd f)) f1 b1;
  cl_apart : forall d, d ∈ p1 -> c_span d ## m;
  cl_disjoint : forall i j c d, p1 !! i = Some c -> p1 !! j = Some d -> i <> j -> c_span c ## c_span d
}.

(** The arrays with [n] entries to come, and the clones. *)
Definition filling (f1 : list nat) (p1 b1 : list clone) (n : nat) s : Prop :=
  owns s ((cpu_to_em_pd s, BPtrs (cpu_ptrs (pixel_em_max_cpu s) p1)) :: (em_pd_to_cpu s, BInts ((Z.of_nat <$> f1) ++ replicate n 0)) :: (em_pds s, BPtrs ((c_ptr <$> p1) ++ replicate n 0)) ::
    (em_pds_backup s, BPtrs ((c_ptr <$> b1) ++ replicate n 0)) :: flat_map clone_blocks p1 ++ flat_map clone_blocks b1 ++ fr).

Definition slots (l : list clone) (n : nat) : list (option clone) := (Some <$> l) ++ replicate n None.
Lemma slots_ptrs l n : slot_ptr <$> slots l n = (c_ptr <$> l) ++ replicate n 0.
Proof. unfold slots. rewrite fmap_app, <- list_fmap_compose, fmap_replicate. done. Qed.
Lemma slots_blocks l n : flat_map slot_blocks (slots l n) = flat_map clone_blocks l.
Proof.
  unfold slots. rewrite flat_map_app. assert (flat_map slot_blocks (replicate n None) = []) as -> by (induction n; done). rewrite app_nil_r.
  induction l as [|c l IH]; [done|]. rewrite fmap_cons. cbn [flat_map]. by rewrite IH.
Qed.
Lemma slots_length l n : length (slots l n) = (length l + n)%nat.
Proof. unfold slots. by rewrite length_app, length_fmap, length_replicate. Qed.

Lemma owns_nonzero s p b bl : owns s bl -> (p, b) ∈ bl -> p <> 0.
Proof. intros H Hin. by destruct (owns_load _ _ _ _ H Hin). Qed.

(** The loop is left with some slots filled. *)
Lemma filling_partial s f1 fs p1 b1 n n' : owns s ((cpu_to_em_pd s, BPtrs (cpu_ptrs (pixel_em_max_cpu s) f1)) :: (em_pd_to_cpu s, BInts fs) :: (em_pds s, BPtrs ((c_ptr <$> p1) ++ replicate n 0)) ::
    (em_pds_backup s, BPtrs ((c_ptr <$> b1) ++ replicate n' 0)) :: flat_map clone_blocks p1 ++ flat_map clone_blocks b1 ++ fr) ->
  pixel_em_num_cpu_pds s = Z.of_nat (length p1 + n) -> pixel_em_num_cpu_pds s = Z.of_nat (length b1 + n') ->
  partial (cpu_ptrs (pixel_em_max_cpu s) f1) fs (slots p1 n) (slots b1 n') fr s.
Proof.
  intros H Hn Hn'. pose proof (owns_nonzero _ _ _ _ H ltac:(by left)) as E1. pose proof (owns_nonzero s (em_pd_to_cpu s) _ _ H ltac:(right; by left)) as E2.
  pose proof (owns_nonzero s (em_pds s) _ _ H ltac:(do 2 right; by left)) as E3. pose proof (owns_nonzero s (em_pds_backup s) _ _ H ltac:(do 3 right; by left)) as E4.
  split; [|done|done|by rewrite slots_length|by rewrite slots_length]. rewrite !arr_some, !slots_ptrs, !slots_blocks by done. same_blocks H.
Qed.

Lemma fill_slot {A} (l : list A) (x y : A) n : <[length l := x]> (l ++ replicate (S n) y) = (l ++ [x]) ++ replicate n y.
Proof. rewrite insert_app_r_alt, Nat.sub_diag by lia. by rewrite <- app_assoc. Qed.

Lemma cloned_step f1 p1 b1 m p b : closed m -> first m ∈ m -> em_cpu_get (first m) <> 0 -> cloned f1 p1 b1 m -> same_domain p (kd (first m)) -> same_domain b (kd (first m)) ->
  cloned (f1 ++ [first m]) (p1 ++ [p]) (b1 ++ [b]) (m ∖ c_span (kd (first m))).
Proof.
  intros [Hm1 Hm2] Hin Hd [H1 H2 H3 H4] Hp Hb. assert (c_span p = c_span (kd (first m))) as Es by apply Hp. pose proof (Hm2 _ Hin Hd) as Hs. split.
  - apply Forall2_app; [done|]. repeat constructor; auto; apply Hp.
  - apply Forall2_app; [done|]. by repeat constructor; apply Hb.
  - intros d [Hd1|Hd1%list_elem_of_singleton]%elem_of_app; [specialize (H3 d Hd1); set_solver|]. rewrite Hd1, Es. set_solver.
  - assert (Hnew : forall i d, p1 !! i = Some d -> c_span d ## c_span p) by (intros i d Hi%list_elem_of_lookup_2; specialize (H3 d Hi); set_solver).
    intros i j c d [Hi|[Hli Hi]]%lookup_app_Some [Hj|[Hlj Hj]]%lookup_app_Some Hij; [by eapply H4| | |].
    + apply list_lookup_singleton_Some in Hj as [_ <-]. by eapply Hnew.
    + apply list_lookup_singleton_Some in Hi as [_ <-]. symmetry. by eapply Hnew.
    + apply list_lookup_singleton_Some in Hi as [Hi _]. apply list_lookup_singleton_Some in Hj as [Hj _]. lia.
Qed.

(** A clone, kept in the next slot. *)
Lemma wp_clone_slot {A} o arr (xs : list clone) n i bl (k : Z -> PM A) (Q : A -> em -> Prop) s :
  owns s ((arr, BPtrs ((c_ptr <$> xs) ++ replicate (S n) 0)) :: bl) -> i = Z.of_nat (length xs) -> clone_blocks o ⊆ bl ->
  (forall s', owns s' ((arr, BPtrs ((c_ptr <$> xs) ++ replicate (S n) 0)) :: bl) -> same_vars s s' -> wp (k 0) Q s') ->
  (forall c s', c_ptr c <> 0 -> same_domain c o -> owns s' ((arr, BPtrs ((c_ptr <$> xs ++ [c]) ++ replicate n 0)) :: clone_blocks c ++ bl) -> same_vars s s' -> wp (k (c_ptr c)) Q s') ->
  wp (kbind (clone_pd (c_ptr o)) (fun p => kbind (set_ptr arr i p) (fun _ => k p))) Q s.
Proof.
  intros H -> Ho K0 K1. apply wp_bind. eapply wp_clone; [exact H|set_solver| |].
  - intros s1 H1 V1. apply wp_bind. eapply wp_set_ptr; [exact H1|rewrite length_app, length_fmap, length_replicate; lia|]. intros s2 H2 V2.
    rewrite Nat2Z.id in H2. rewrite <- (length_fmap c_ptr xs) in H2 at 1. rewrite fill_slot, <- app_assoc in H2. apply K0; [exact H2|by rewrite V1].
  - intros c s1 Hc Hsame H1 V1. apply wp_bind. eapply (wp_set_ptr _ ((c_ptr <$> xs) ++ replicate (S n) 0) _ _ (clone_blocks c ++ bl)); [same_blocks H1|rewrite length_app, length_fmap, length_replicate; lia|]. intros s2 H2 V2.
    rewrite Nat2Z.id in H2. rewrite <- (length_fmap c_ptr xs) in H2 at 1. rewrite fill_slot in H2. apply K1; [done|done|rewrite fmap_app; exact H2|by rewrite V1].
Qed.

Lemma cpu_ptrs_length max l : length (cpu_ptrs max l) = Z.to_nat (max + 1).
Proof. unfold cpu_ptrs. by rewrite length_fmap, length_seq. Qed.

(** The cpus of one more domain. *)
Lemma cpu_ptrs_snoc max l c (cs : list nat) (cs' : list Z) : (forall d, d ∈ l -> c_span d ## c_span c) -> (forall x, x ∈ cs <-> x ∈ c_span c) -> length cs' = Z.to_nat (max + 1) ->
  (forall i, (i < Z.to_nat (max + 1))%nat -> cs' !! i = if decide (i ∈ cs) then Some (c_ptr c) else cpu_ptrs max l !! i) -> cs' = cpu_ptrs max (l ++ [c]).
Proof.
  intros Hd Hcs El H. apply list_eq_same_length with (n := Z.to_nat (max + 1)); [apply cpu_ptrs_length|done|]. intros i x y Hi Hx Hy.
  rewrite H in Hx by done. unfold cpu_ptrs in *. rewrite list_lookup_fmap, lookup_seq_lt in Hx, Hy by done. simpl in Hx, Hy. injection Hy as <-. rewrite cpu_ptr_snoc by done.
  destruct (decide (i ∈ cs)) as [Hin|Hin]; rewrite Hcs in Hin; [rewrite decide_True by done|rewrite decide_False by done]; by injection Hx.
Qed.

Lemma wp_init_pds fuel : forall m l f1 p1 b1 s (Q : Z -> em -> Prop), layout fuel m = Some l -> closed m -> cloned f1 p1 b1 m -> filling f1 p1 b1 (length l) s ->
  pixel_em_num_cpu_pds s = Z.of_nat (length p1 + length l) -> (forall c, c ∈ cpu_possible_mask -> Z.of_nat c <= pixel_em_max_cpu s) ->
  (forall cs fs pds bks s', partial cs fs pds bks fr s' -> same_vars s s' -> Q (- ENOMEM) s') ->
  (forall p2 b2 s', cloned (f1 ++ l) p2 b2 ∅ -> filling (f1 ++ l) p2 b2 0 s' -> same_vars s s' -> Q 0 s') ->
  wp (init_pds nr_cpu_ids em_cpu_get fuel m (Z.of_nat (length p1))) Q s.
Proof.
  induction fuel as [|fuel IH]; intros m l f1 p1 b1 s Q El Hm Hc Hs Hn Hmax Qno Qyes; [done|]. cbn [init_pds layout] in *. case_bool_decide as Hne.
  { injection El as <-. apply wp_ret. rewrite app_nil_r in Qyes. subst m. apply (Qyes p1 b1); [done|done|reflexivity]. }
  pose proof (first_in m (proj1 Hm) Hne) as Hin. destruct (Z.eqb_spec (em_cpu_get (first m)) 0) as [|Hd]; [done|]. set (f := first m) in *.
  destruct (layout fuel (m ∖ c_span (kd f))) as [l'|] eqn:El'; [|done]. injection El as <-.
  destruct (closed_step m f Hm Hin Hd) as (Hm' & Ex & _). destruct (ke_domain _ Hk _ (proj1 Hm _ Hin) Hd) as (Ep & Hb & _ & _ & Hspan).
  pose proof (Forall2_length _ _ _ (cl_pds _ _ _ _ Hc)) as L1. pose proof (Forall2_length _ _ _ (cl_bks _ _ _ _ Hc)) as L2.
  rewrite Ep. unfold filling in Hs. apply wp_bind, wp_get, wp_bind. set (n := length l') in *. simpl length in *.
  (* the first cpu *)
  eapply (wp_set_int _ ((Z.of_nat <$> f1) ++ replicate (S n) 0) _ _ ((cpu_to_em_pd s, BPtrs (cpu_ptrs (pixel_em_max_cpu s) p1)) :: (em_pds s, BPtrs ((c_ptr <$> p1) ++ replicate (S n) 0)) ::
    (em_pds_backup s, BPtrs ((c_ptr <$> b1) ++ replicate (S n) 0)) :: flat_map clone_blocks p1 ++ flat_map clone_blocks b1 ++ fr)); [same_blocks Hs|rewrite length_app, length_fmap, length_replicate; lia|].
  intros s1 H1 V1. rewrite Nat2Z.id, <- L1 in H1. rewrite <- (length_fmap Z.of_nat f1) in H1 at 1. rewrite fill_slot in H1. set (fs := ((Z.of_nat <$> f1) ++ [Z.of_nat f]) ++ replicate n 0) in *.
  (* the clone *)
  eapply (wp_clone_slot _ _ p1 n _ ((cpu_to_em_pd s, BPtrs (cpu_ptrs (pixel_em_max_cpu s) p1)) :: (em_pd_to_cpu s, BInts fs) ::
      (em_pds_backup s, BPtrs ((c_ptr <$> b1) ++ replicate (S n) 0)) :: flat_map clone_blocks p1 ++ flat_map clone_blocks b1 ++ fr)); [same_blocks H1|done|intros x Hx; apply Hb in Hx; set_solver| |].
  { intros s3 H3 V3. apply wp_ret. assert (same_vars s s3) as V by (by rewrite V1). eapply Qno; [|exact V]. apply (filling_partial _ p1 fs p1 b1 (S n) (S n)); same_variables V; [same_blocks H3|lia|lia]. }
  intros c s3 Hcp Hsame H3 V3. destruct (Z.eqb_spec (c_ptr c) 0) as [|_]; [done|]. assert (same_vars s s3) as W3 by (by rewrite V1). clear V1 V3 H1 Hs.
  (* the backup *)
  eapply (wp_clone_slot c _ b1 n _ ((cpu_to_em_pd s, BPtrs (cpu_ptrs (pixel_em_max_cpu s) p1)) :: (em_pd_to_cpu s, BInts fs) ::
      (em_pds s, BPtrs ((c_ptr <$> p1 ++ [c]) ++ replicate n 0)) :: flat_map clone_blocks p1 ++ clone_blocks c ++ flat_map clone_blocks b1 ++ fr)); [same_blocks H3|lia|intros x Hx; set_solver| |].
  { intros s5 H5 V5. apply wp_ret. assert (same_vars s s5) as W by (by rewrite W3). eapply Qno; [|exact W]. apply (filling_partial _ p1 fs (p1 ++ [c]) b1 n (S n)); same_variables W; [same_blocks H5|rewrite length_app; simpl; lia|lia]. }
  intros b s5 Hbp Hsameb H5 V5. destruct (Z.eqb_spec (c_ptr b) 0) as [|_]; [done|]. assert (same_vars s s5) as W5 by (by rewrite W3). clear V5 H3 W3.
  (* the cpus *)
  pose proof (kernel_domain _ _ Hb) as Hdom. apply wp_bind. eapply (wp_get_domain _ (c_domain (kd f))); [exact H5|cbn [clone_blocks app]; rewrite ?elem_of_cons, ?elem_of_app, ?elem_of_cons, ?elem_of_app; auto 20|]. cbn [c_domain pd_cpus]. apply wp_bind.
  assert (same_domain b (kd f)) as Hsameb' by (destruct Hsame as (? & ? & ?), Hsameb as (? & ? & ?); repeat split; congruence).
  pose proof (cloned_step _ _ _ _ _ _ Hm Hin Hd Hc Hsame Hsameb') as Hc'. assert (Hlt : forall x, x ∈ c_span (kd f) -> (x < Z.to_nat (pixel_em_max_cpu s + 1))%nat) by (intros x Hx; destruct (Hspan x Hx) as [Hp _]; specialize (Hmax x Hp); lia).
  assert (Hcp' : forall x, x ∈ cpus nr_cpu_ids (c_span (kd f)) <-> x ∈ c_span (kd f)) by (intros x; apply cpus_in; intros y Hy; by apply Hspan).
  eapply (wp_set_ptrs _ _ _ (cpu_ptrs (pixel_em_max_cpu s) p1) ((em_pd_to_cpu s, BInts fs) :: (em_pds s, BPtrs ((c_ptr <$> p1 ++ [c]) ++ replicate n 0)) ::
    (em_pds_backup s, BPtrs ((c_ptr <$> b1 ++ [b]) ++ replicate n 0)) :: flat_map clone_blocks p1 ++ clone_blocks c ++ flat_map clone_blocks b1 ++ clone_blocks b ++ fr)); [same_blocks H5|apply Forall_forall; intros x Hx; rewrite cpu_ptrs_length; by apply Hlt, Hcp'|]. intros cs' s6 El6 Hcs H6 V6. rewrite cpu_ptrs_length in Hcs, El6.
  assert (c_span c = c_span (kd f)) as Esp by apply Hsame. assert (cs' = cpu_ptrs (pixel_em_max_cpu s) (p1 ++ [c])) as ->.
  { apply (cpu_ptrs_snoc _ _ _ (cpus nr_cpu_ids (c_span (kd f)))); [|by rewrite Esp|done|done]. intros d Hd1. rewrite Esp. pose proof (cl_apart _ _ _ _ Hc d Hd1). pose proof (proj2 Hm f Hin Hd). set_solver. }
  assert (same_vars s s6) as W6 by (by rewrite W5). rewrite Ex. replace (Z.of_nat (length p1) + 1) with (Z.of_nat (length (p1 ++ [c]))) by (rewrite length_app; simpl; lia).
  apply (IH _ l' (f1 ++ [f]) (p1 ++ [c]) (b1 ++ [b])); [done|done|exact Hc'| | | | |].
  - unfold filling. same_variables W6. rewrite fmap_app. cbn [fmap list_fmap]. fold fs. same_blocks H6.
  - same_variables W6. rewrite length_app. simpl. lia.
  - intros x Hx. same_variables W6. by apply Hmax.
  - intros cs0 fs0 pds0 bks0 s7 H7 V7. apply (Qno cs0 fs0 pds0 bks0); [done|by rewrite W6].
  - intros p2 b2 s7 H7 H7' V7. rewrite <- app_assoc in H7, H7'. apply (Qyes p2 b2); [done|done|by rewrite W6].
Qed.

(** ** The layout of the cpus *)

Lemma last_filter (P : nat -> Prop) `{!forall c, Decision (P c)} n c d : c ∈ filter P (seq 0 n) -> (c <= default d (last (filter P (seq 0 n))))%nat.
Proof.
  induction n as [|n IH]; [intros Hc; by apply elem_of_nil in Hc|]. rewrite seq_S, filter_app, Nat.add_0_l. intros Hc. destruct (decide (P n)) as [HP|HP].
  - rewrite filter_cons_True, filter_nil in Hc |- * by done. rewrite last_snoc. simpl. apply elem_of_app in Hc as [Hc|Hc%list_elem_of_singleton]; [|lia].
    apply list_elem_of_filter in Hc as [_ Hc]. apply elem_of_seq in Hc. lia.
  - rewrite filter_cons_False, filter_nil, app_nil_r in Hc |- * by done. by apply IH.
Qed.

Lemma last_possible : (forall c, c ∈ cpu_possible_mask -> (c <= cpumask_last nr_cpu_ids cpu_possible_mask)%nat) /\ Z.of_nat (cpumask_last nr_cpu_ids cpu_possible_mask) < 2 ^ 31.
Proof.
  split.
  - intros c Hc. apply (cpus_in cpu_possible_mask c ltac:(done)) in Hc. by apply last_filter.
  - unfold cpumask_last. destruct (last (cpus nr_cpu_ids cpu_possible_mask)) as [x|] eqn:E.
    + apply last_Some_elem_of in E. apply (cpus_in cpu_possible_mask x ltac:(done)) in E. apply (ke_mask _ Hk) in E. pose proof (ke_small _ Hk). simpl. lia.
    + apply last_None in E. pose proof (first_in _ ltac:(done) (ke_some _ Hk)) as H. apply (cpus_in cpu_possible_mask _ ltac:(done)) in H. rewrite E in H. by apply elem_of_nil in H.
Qed.

(** What the set-up of the layout leaves alone. *)
Definition outside (s : em) := (sysfs_em_pd_lock s, primary_sysfs_folder s, platform_dev s, vendor_sched_cpu_to_em_pd s, exynos_cpu_cooling_cpu_to_em_pd s).
Lemma outside_vars s s' : same_vars s s' -> outside s' = outside s.
Proof. by intros ->. Qed.

Lemma cloned_same l p b m : cloned l p b m -> Forall2 (fun c d => c_table c = c_table d) b p.
Proof.
  intros [H1 H2 _ _]. revert b H2. induction H1 as [|f c l p (Hs & _) _ IH]; intros b H2; [by apply Forall2_nil_inv_l in H2 as ->|]. apply Forall2_cons_inv_l in H2 as (d & b' & Hd & H2 & ->).
  constructor; [|by apply IH]. destruct Hs as (_ & _ & ->). by destruct Hd as (_ & _ & ->).
Qed.

Lemma filling_holds l p b s : cloned l p b ∅ -> filling l p b 0 s -> pixel_em_num_cpu_pds s = Z.of_nat (length p) -> 0 <= pixel_em_max_cpu s < 2 ^ 31 ->
  (forall c, c ∈ cpu_possible_mask -> Z.of_nat c <= pixel_em_max_cpu s) -> holds l p b fr s.
Proof.
  intros Hcl Ho Hn Hm Hmax. pose proof Hcl as [H1 _ _ H4].
  assert (Hp : Forall2 (fun f c => f ∈ c_span c /\ Z.of_nat f <= pixel_em_max_cpu s /\ table_ok (c_table c) /\ same_domain c (kd f)) l p).
  { eapply Forall2_impl; [exact H1|]. intros f c (Hs & Hf & Hd). destruct (ke_domain _ Hk f Hf Hd) as (_ & _ & Ht & Hin & _). pose proof Hs as (_ & E2 & E3). rewrite E2, E3. auto. }
  pose proof (cloned_same _ _ _ _ Hcl) as Hb.
  split; [|done| | | | |exact H4|done].
  - unfold filling in Ho. cbn [replicate] in Ho. rewrite !app_nil_r in Ho. exact Ho.
  - eapply Forall2_impl; [exact Hp|]. by intros f c (? & ? & _).
  - eapply Forall2_impl; [exact Hb|]. by intros c d ->.
  - eapply Forall2_Forall_r; [exact Hp|]. apply Forall_true. by intros f c (_ & _ & ? & _).
  - apply Forall_lookup. intros i c Hi. destruct (Forall2_lookup_l _ _ _ _ _ Hb Hi) as (d & Hd & ->). destruct (Forall2_lookup_r _ _ _ _ _ Hp Hd) as (f & _ & _ & _ & ? & _). done.
Qed.

(** No pointer is left. *)
Definition idle_pointers (s : em) : Prop := cpu_to_em_pd s = 0 /\ em_pd_to_cpu s = 0 /\ em_pds s = 0 /\ em_pds_backup s = 0.
(** A driver without memory of its own. *)
Record idle (s : em) : Prop := MkIdle { id_owns : owns s fr; id_cpu : cpu_to_em_pd s = 0; id_first : em_pd_to_cpu s = 0; id_pds : em_pds s = 0; id_backup : em_pds_backup s = 0 }.

Abbreviation last_cpu := (Z.of_nat (cpumask_last nr_cpu_ids cpu_possible_mask)).
Lemma layout_nonempty l : layout (S nr_cpu_ids) cpu_possible_mask = Some l -> l <> [].
Proof.
  cbn [layout]. rewrite bool_decide_false by apply (ke_some _ Hk). destruct (_ =? 0); [done|]. destruct (layout _ _); [|done]. by intros [= <-].
Qed.

Lemma mask_small : (size cpu_possible_mask < S nr_cpu_ids)%nat.
Proof.
  assert (cpu_possible_mask ⊆ list_to_set (seq 0 nr_cpu_ids)) as H%subseteq_size by (intros c Hc; apply elem_of_list_to_set, elem_of_seq; pose proof (ke_mask _ Hk c Hc); lia).
  rewrite size_list_to_set, length_seq in H by apply NoDup_seq. lia.
Qed.

(** The variables of the set-up. *)
Record vars_are (s : em) (c f p b num max : Z) out : Prop := MkVars { va_cpu : cpu_to_em_pd s = c; va_first : em_pd_to_cpu s = f; va_pds : em_pds s = p; va_backup : em_pds_backup s = b;
  va_num : pixel_em_num_cpu_pds s = num; va_max : pixel_em_max_cpu s = max; va_out : outside s = out }.
Lemma vars_are_same s s' c f p b num max out : vars_are s c f p b num max out -> same_vars s s' -> vars_are s' c f p b num max out.
Proof. intros [] ->. by split. Qed.

(** An array is allocated and assigned to its variable. *)
Lemma wp_alloc_into (set : Z -> em -> em) b0 bl (k : Z -> PM Z) s (Q : Z -> em -> Prop) : owns s bl -> (forall p s', m_heap (set p s') = m_heap s' /\ m_next (set p s') = m_next s') ->
  (forall s', same_vars s s' -> owns (set 0 s') bl -> Q (- ENOMEM) (set 0 s')) ->
  (forall p s', p <> 0 -> same_vars s s' -> owns (set p s') ((p, b0) :: bl) -> wp (k p) Q (set p s')) ->
  wp (let! p := m_alloc b0 in do! kmod (set p) in if p =? 0 then kret (- ENOMEM) else k p) Q s.
Proof.
  intros H Hset Q0 Q1. apply wp_bind. eapply wp_m_alloc; [exact H| |].
  - intros s' H' V. apply wp_bind, wp_mod, wp_ret, Q0; [done|]. destruct (Hset 0 s'). by eapply owns_vars.
  - intros p s' Hp H' V. apply wp_bind, wp_mod. destruct (Z.eqb_spec p 0); [done|]. apply Q1; [done|done|]. destruct (Hset p s'). by eapply owns_vars.
Qed.

Lemma partial_arrays s cs fs pds c f p num max out : vars_are s c f p 0 num max out -> owns s (arr c (BPtrs cs) ++ arr f (BInts fs) ++ arr p (BPtrs (slot_ptr <$> pds)) ++ flat_map slot_blocks pds ++ fr) ->
  (p = 0 -> pds = []) -> (p <> 0 -> num = Z.of_nat (length pds)) -> partial cs fs pds [] fr s /\ outside s = out.
Proof. intros [] H H1 H2. split; [|done]. split; rewrite ?va_cpu0, ?va_first0, ?va_pds0, ?va_backup0, ?va_num0; done. Qed.

(** The variables after an assignment to a state with the same ones. *)
Ltac new_vars A V := let B := fresh in pose proof (vars_are_same _ _ _ _ _ _ _ _ _ A V) as B; destruct B; split; assumption || reflexivity.

Lemma cpu_ptrs_nil max : cpu_ptrs max [] = replicate (Z.to_nat (max + 1)) 0.
Proof. unfold cpu_ptrs, cpu_ptr. simpl. generalize 0%nat. induction (Z.to_nat (max + 1)) as [|k IH]; intros i; [done|]. simpl. by rewrite IH. Qed.

Lemma wp_init_layout s (Q : Z -> em -> Prop) : idle s ->
  (layout (S nr_cpu_ids) cpu_possible_mask = None -> Q (- EPROBE_DEFER) s) ->
  (forall cs fs pds bks s', partial cs fs pds bks fr s' -> outside s' = outside s -> Q (- ENOMEM) s') ->
  (forall l p b s', layout (S nr_cpu_ids) cpu_possible_mask = Some l -> cloned l p b ∅ -> holds l p b fr s' -> pixel_em_max_cpu s' = last_cpu -> outside s' = outside s -> Q 0 s') ->
  wp (pixel_em_init_cpu_layout nr_cpu_ids cpu_possible_mask em_cpu_get) Q s.
Proof.
  intros [Ho E1 E2 E3 E4] Qd Qno Qyes. unfold pixel_em_init_cpu_layout, pixel_em_count_cpu_pds. apply wp_bind. eapply wp_count_pds; [exact Ho|done|exact closed_all|exact mask_small|].
  destruct (layout (S nr_cpu_ids) cpu_possible_mask) as [l|] eqn:El; [|by apply wp_ret, Qd]. pose proof (layout_nonempty l El) as Hl. rewrite Z.add_0_l.
  destruct (Z.leb_spec (Z.of_nat (length l)) 0) as [Hle|_]; [destruct l; [done|simpl in Hle; lia]|]. destruct last_possible as [Hmax Hlast]. set (n := length l).
  apply wp_bind, wp_mod, wp_bind, wp_get. match goal with |- wp _ _ ?x => set (s0 := x) end.
  assert (A0 : vars_are s0 0 0 0 0 (Z.of_nat n) last_cpu (outside s)) by (by split). assert (H0 : owns s0 fr) by (by eapply owns_vars). rewrite (va_max _ _ _ _ _ _ _ _ A0), Nat2Z.id. clearbody s0. clear Ho E1 E2 E3 E4.
  (* the four arrays *)
  eapply (wp_alloc_into (fun p s => s <| cpu_to_em_pd := p |>)); [exact H0|done| |].
  { intros s1 V1 H1. destruct (partial_arrays (s1 <| cpu_to_em_pd := 0 |>) [] [] [] 0 0 0 (Z.of_nat n) last_cpu (outside s)); [new_vars A0 V1|exact H1|done|done|]. by eapply Qno. }
  intros p1 s1' Hp1 V1 H1. cbv beta in *. set (s1 := s1' <| cpu_to_em_pd := p1 |>) in *. assert (A1 : vars_are s1 p1 0 0 0 (Z.of_nat n) last_cpu (outside s)) by (new_vars A0 V1).
  clearbody s1. clear A0 H0 V1 s1'. eapply (wp_alloc_into (fun p s => s <| em_pd_to_cpu := p |>)); [exact H1|done| |].
  { intros s2 V2 H2. destruct (partial_arrays (s2 <| em_pd_to_cpu := 0 |>) (replicate (Z.to_nat (last_cpu + 1)) 0) [] [] p1 0 0 (Z.of_nat n) last_cpu (outside s)); [new_vars A1 V2| |done|done|by eapply Qno].
    rewrite (arr_some p1) by done. exact H2. }
  intros p2 s2' Hp2 V2 H2. cbv beta in *. set (s2 := s2' <| em_pd_to_cpu := p2 |>) in *. assert (A2 : vars_are s2 p1 p2 0 0 (Z.of_nat n) last_cpu (outside s)) by (new_vars A1 V2).
  clearbody s2. clear A1 H1 V2 s2'. eapply (wp_alloc_into (fun p s => s <| em_pds := p |>)); [exact H2|done| |].
  { intros s3 V3 H3. destruct (partial_arrays (s3 <| em_pds := 0 |>) (replicate (Z.to_nat (last_cpu + 1)) 0) (replicate n 0) [] p1 p2 0 (Z.of_nat n) last_cpu (outside s)); [new_vars A2 V3| |done|done|by eapply Qno].
    rewrite (arr_some p1), (arr_some p2) by done. cbn [flat_map fmap list_fmap app]. rewrite arr_null. cbv beta in H3. same_blocks H3. }
  intros p3 s3' Hp3 V3 H3. cbv beta in *. set (s3 := s3' <| em_pds := p3 |>) in *. assert (A3 : vars_are s3 p1 p2 p3 0 (Z.of_nat n) last_cpu (outside s)) by (new_vars A2 V3).
  clearbody s3. clear A2 H2 V3 s3'. eapply (wp_alloc_into (fun p s => s <| em_pds_backup := p |>)); [exact H3|done| |].
  { intros s4 V4 H4. destruct (partial_arrays (s4 <| em_pds_backup := 0 |>) (replicate (Z.to_nat (last_cpu + 1)) 0) (replicate n 0) (slots [] n) p1 p2 p3 (Z.of_nat n) last_cpu (outside s));
      [new_vars A3 V4| |done|by rewrite slots_length|by eapply Qno].
    rewrite slots_ptrs, slots_blocks, (arr_some p1), (arr_some p2), (arr_some p3) by done. cbn [flat_map fmap list_fmap app]. cbv beta in H4. same_blocks H4. }
  intros p4 s4' Hp4 V4 H4. cbv beta in *. set (s4 := s4' <| em_pds_backup := p4 |>) in *. assert (A4 : vars_are s4 p1 p2 p3 p4 (Z.of_nat n) last_cpu (outside s)) by (new_vars A3 V4).
  clearbody s4. clear A3 H3 V4 s4'. destruct A4.
  apply (wp_init_pds (S nr_cpu_ids) cpu_possible_mask l [] [] []); [exact El|exact closed_all|split; [constructor..|intros d Hd; by apply elem_of_nil in Hd|done]| |done| | |].
  - unfold filling. rewrite va_cpu0, va_first0, va_pds0, va_backup0, va_max0, cpu_ptrs_nil. fold n. cbn [flat_map fmap list_fmap app]. same_blocks H4.
  - intros c Hc. rewrite va_max0. specialize (Hmax c Hc). lia.
  - intros cs fs pds bks s5 H5 V5. apply (Qno cs fs pds bks); [done|]. by rewrite (outside_vars _ _ V5).
  - intros p b s5 H5 H5' V5. assert (pixel_em_max_cpu s5 = last_cpu /\ pixel_em_num_cpu_pds s5 = Z.of_nat n) as [Em5 En5] by (same_variables V5; done).
    apply (Qyes l p b); [done|exact H5| |done|by rewrite (outside_vars _ _ V5)].
    apply (filling_holds l p b); [exact H5|exact H5'|rewrite En5; f_equal; by apply (Forall2_length _ _ _ (cl_pds _ _ _ _ H5))|rewrite Em5; lia|].
    intros c Hc. rewrite Em5. specialize (Hmax c Hc). lia.
Qed.

(** *** What the allocator will answer *)

(** Answers are used up in their order. *)
Definition shrinks {A} (m : PM A) : Prop := forall s, match m s with Done _ s' => m_mem s' `suffix_of` m_mem s | _ => True end.
Lemma shrinks_ret {A} (a : A) : shrinks (kret a).
Proof. intros s. simpl. reflexivity. Qed.
Lemma shrinks_fault {A} : shrinks (kfault (A := A)).
Proof. by intros s. Qed.
Lemma shrinks_block {A} : shrinks (kblock (A := A)).
Proof. by intros s. Qed.
Lemma shrinks_get : shrinks kget.
Proof. intros s. simpl. reflexivity. Qed.
Lemma shrinks_mod f : (forall s, m_mem (f s) = m_mem s) -> shrinks (kmod f).
Proof. intros H s. simpl. rewrite H. reflexivity. Qed.
Lemma shrinks_bind {A B} (m : PM A) (k : A -> PM B) : shrinks m -> (forall a, shrinks (k a)) -> shrinks (kbind m k).
Proof. intros Hm Hk' s. unfold kbind. specialize (Hm s). destruct (m s) as [a s1| |]; [|done..]. specialize (Hk' a s1). destruct (k a s1); [|done..]. by etrans. Qed.
Lemma shrinks_load p : shrinks (m_load p).
Proof. intros s. unfold m_load. destruct (_ !! _); [reflexivity|done]. Qed.
Lemma shrinks_store p b : shrinks (m_store p b).
Proof. intros s. unfold m_store. destruct (_ !! _); [simpl; reflexivity|done]. Qed.
Lemma shrinks_free p : shrinks (kfree p).
Proof. intros s. unfold kfree. destruct (p =? 0); [reflexivity|]. destruct (_ !! _); [simpl; reflexivity|done]. Qed.
Lemma shrinks_alloc b : shrinks (m_alloc b).
Proof. intros s. unfold m_alloc. destruct (m_mem s) as [|[] l] eqn:E; simpl; rewrite ?E; simpl; [reflexivity|by exists [true]|by exists [false]]. Qed.
Lemma shrinks_iter {A} (f : A -> PM unit) l : (forall x, shrinks (f x)) -> shrinks (m_iter f l).
Proof. intros Hf. induction l as [|x l IH]; [apply shrinks_ret|]. by apply shrinks_bind. Qed.

(** Step by step. *)
Ltac shrink := repeat (intros; first [apply shrinks_ret|apply shrinks_fault|apply shrinks_block|apply shrinks_get|apply shrinks_load|apply shrinks_store|apply shrinks_free|apply shrinks_alloc
  |by apply shrinks_mod|apply shrinks_iter|apply shrinks_bind|match goal with |- shrinks (if ?b then _ else _) => destruct b | |- shrinks (match ?x with _ => _ end) => destruct x end]); intros.

Lemma shrinks_clone p : shrinks (clone_pd p).
Proof. unfold clone_pd, get_domain, get_table. shrink. Qed.
Lemma shrinks_count fuel : forall m res, shrinks (count_pds nr_cpu_ids em_cpu_get fuel m res).
Proof. induction fuel as [|fuel IH]; intros m res; cbn [count_pds]; unfold get_domain; shrink; apply IH. Qed.
Lemma shrinks_init fuel : forall m i, shrinks (init_pds nr_cpu_ids em_cpu_get fuel m i).
Proof.
  induction fuel as [|fuel IH]; intros m i; cbn [init_pds]; unfold get_domain, set_ptr, set_int, get_ptrs, get_ints, set_idx; shrink; first [apply shrinks_clone|apply IH].
Qed.
Lemma shrinks_layout : shrinks (pixel_em_init_cpu_layout nr_cpu_ids cpu_possible_mask em_cpu_get).
Proof. unfold pixel_em_init_cpu_layout, pixel_em_count_cpu_pds. shrink; [apply shrinks_count|apply shrinks_init]. Qed.

Lemma wp_shrinks {A} (m : PM A) (Q : A -> em -> Prop) s : shrinks m -> wp m (fun a s' => m_mem s' `suffix_of` m_mem s -> Q a s') s -> wp m Q s.
Proof. intros Hm. unfold wp. specialize (Hm s). destruct (m s); auto. Qed.
Lemma refused_in s s' : granted s' = false -> m_mem s' `suffix_of` m_mem s -> false ∈ m_mem s.
Proof. unfold granted. intros Hg [k ->]. destruct (m_mem s') as [|[] l]; [done..|]. apply elem_of_app. right. by left. Qed.

(** ** The probe *)

(** What the text of the device tree says. *)
Definition dt_lines (p : string) : list line := read_text (str_take (String.length p) (c_string p)).
Definition dt_safe (dt : option string) : Prop :=
  forall p l, dt = Some p -> layout (S nr_cpu_ids) cpu_possible_mask = Some l -> is_Some (apply_lines last_cpu (dt_lines p) (-1) (kd <$> l)).
(** The tables after the set-up: what the text of the device tree makes of the
    kernel's, or the kernel's when there is no such text or an allocation is refused. *)
Definition set_up (dt : option string) (refused : Prop) (l : list nat) (tabs : list (list em_perf_state)) : Prop :=
  match dt with
  | None => tabs = c_table ∘ kd <$> l
  | Some p => (exists r l', apply_lines last_cpu (dt_lines p) (-1) (kd <$> l) = Some (r, l') /\ tabs = c_table <$> l') \/ refused /\ tabs = c_table ∘ kd <$> l
  end.

Lemma cloned_strip l p b m : cloned l p b m -> strips p = strips (kd <$> l).
Proof. intros [H _ _ _]. unfold strips. induction H as [|f c l p ((_ & E1 & E2) & _) _ IH]; [done|]. rewrite !fmap_cons, IH. unfold strip. by rewrite E1, E2. Qed.

Lemma wp_backup_tables l p b s (Q : unit -> em -> Prop) : holds l p b fr s -> (forall s', holds l p (zip_with copied b p) fr s' -> same_vars s s' -> Q tt s') -> wp (restore em_pds_backup em_pds) Q s.
Proof.
  intros H HQ. pose proof (holds_like _ _ _ _ _ H) as Hl%like_sym. unfold restore. apply wp_bind, wp_get. rewrite (hl_num _ _ _ _ _ H). pose proof (hl_owns _ _ _ _ _ H) as Ho.
  rewrite <- (Forall2_length _ _ _ Hl).
  apply (wp_copy_tables (em_pds_backup s) (em_pds s) ((cpu_to_em_pd s, BPtrs (cpu_ptrs (pixel_em_max_cpu s) p)) :: (em_pd_to_cpu s, BInts (Z.of_nat <$> l)) :: fr) b p [] []); [done|done|same_blocks Ho|].
  intros s' H' V. apply HQ; [|done]. eapply holds_change; [exact H|exact V|done|by apply copied_shapes|by eapply hl_tables|by apply copied_ok; [|by eapply hl_tables]|]. same_blocks H'.
Qed.

(** With the domains cloned, the device tree's profile is applied and becomes the default. *)
Lemma wp_profile dt l p b s (Q : unit -> em -> Prop) : dt_safe dt -> layout (S nr_cpu_ids) cpu_possible_mask = Some l -> cloned l p b ∅ -> holds l p b fr s -> pixel_em_max_cpu s = last_cpu ->
  (forall p' b' s', holds l p' b' fr s' -> same_vars s s' -> shapes p' = shapes p -> set_up dt (granted s = false) l (c_table <$> p') -> c_table <$> b' = c_table <$> p' -> Q tt s') ->
  wp (match dt with None => kret tt | Some t => do! parse_profile t (String.length t) in restore em_pds_backup em_pds end) Q s.
Proof.
  intros Hdt El Hc H Hm HQ. pose proof (cloned_strip _ _ _ _ Hc) as Es. assert (Hp : c_table <$> p = c_table ∘ kd <$> l) by (rewrite (strips_tables _ _ Es); by rewrite <- list_fmap_compose).
  assert (Hgo : forall p1 s1, holds l p1 b fr s1 -> same_vars s s1 -> shapes p1 = shapes p -> set_up dt (granted s = false) l (c_table <$> p1) -> wp (restore em_pds_backup em_pds) Q s1).
  { intros p1 s1 H1 V1 Esh Hs. eapply wp_backup_tables; [exact H1|]. intros s2 H2 V2. eapply HQ; [exact H2|by rewrite V1|exact Esh|exact Hs|]. apply copied_tables, like_sym. by eapply holds_like. }
  destruct dt as [t|].
  - destruct (Hdt t l eq_refl El) as [[r l'] Ea]. pose proof (apply_lines_strip last_cpu (dt_lines t) (-1) _ _ Es) as E. rewrite Ea in E.
    destruct (apply_lines last_cpu (dt_lines t) (-1) p) as [[r1 p1]|] eqn:Ep; [|done]. unfold result_strips in E. simpl in E. injection E as -> E.
    assert (Eo : text_outcome t (String.length t) p s = if granted s then Some (r, p1) else Some (- ENOMEM, p)) by (unfold text_outcome; rewrite Hm; unfold dt_lines in Ep; by rewrite Ep).
    apply wp_bind. destruct (granted s); (eapply wp_parse; [exact H|exact Eo|]); intros s1 H1 V1.
    + eapply Hgo; [exact H1|done|by eapply apply_lines_shape|]. left. exists r, l'. split; [done|]. by apply strips_tables.
    + eapply Hgo; [exact H1|done|done|by right].
  - apply wp_ret, (HQ p b); [done|reflexivity|done|done|].
    pose proof (cloned_same _ _ _ _ Hc) as Hbp. clear -Hbp.
    induction Hbp as [|c d b' p' Ecd _ IH]; [done|]. by rewrite !fmap_cons, Ecd, IH.
Qed.

Lemma shapes_spans l l' : shapes l = shapes l' -> c_span <$> l = c_span <$> l'.
Proof. intros E. assert (forall k, c_span <$> k = (fun x => x.1.2) <$> shapes k) as H by (intros k; unfold shapes; by rewrite <- list_fmap_compose). by rewrite !H, E. Qed.
Lemma strips_spans l l' : strips l = strips l' -> c_span <$> l = c_span <$> l'.
Proof. intros E. assert (forall k, c_span <$> k = fst <$> strips k) as H by (intros k; unfold strips; by rewrite <- list_fmap_compose). by rewrite !H, E. Qed.

Lemma idle_heap s s' : idle s -> idle s' -> m_heap s' = m_heap s.
Proof. intros [[E _ _ _] _ _ _ _] [[E' _ _ _] _ _ _ _]. by rewrite E, E'. Qed.

Lemma outside_parts s s' : outside s' = outside s -> sysfs_em_pd_lock s' = sysfs_em_pd_lock s /\ platform_dev s' = platform_dev s /\ vendor_sched_cpu_to_em_pd s' = vendor_sched_cpu_to_em_pd s /\
  exynos_cpu_cooling_cpu_to_em_pd s' = exynos_cpu_cooling_cpu_to_em_pd s.
Proof. unfold outside. intros E. by injection E. Qed.

(** Whatever a failed set-up holds is given back. *)
Lemma wp_give_up cs fs pds bks s s0 r (Q : Z -> em -> Prop) : partial cs fs pds bks fr s -> idle s0 -> platform_dev s = false -> r < 0 ->
  (forall s', idle s' -> m_heap s' = m_heap s0 -> vendor_sched_cpu_to_em_pd s' = vendor_sched_cpu_to_em_pd s -> exynos_cpu_cooling_cpu_to_em_pd s' = exynos_cpu_cooling_cpu_to_em_pd s -> Q r s') ->
  wp (do! pixel_em_drv_undo_probe in kret r) Q s.
Proof.
  intros H H0 Hd Hr HQ. apply wp_bind. eapply wp_undo; [exact H|exact Hd|]. intros s' Ho Hrel. apply wp_ret. unfold released in Hrel.
  assert (idle s') as Hi by (split; [done|by rewrite Hrel..]). apply HQ; [done|by apply idle_heap|by rewrite Hrel..].
Qed.

Lemma holds_partial l p b s : holds l p b fr s -> exists cs fs, partial cs fs (Some <$> p) (Some <$> b) fr s.
Proof.
  intros H. pose proof (hl_owns _ _ _ _ _ H) as Ho. pose proof (Forall2_length _ _ _ (hl_backup _ _ _ _ _ H)) as El. pose proof (hl_num _ _ _ _ _ H) as En.
  eexists _, (Z.of_nat <$> l). pose proof (filling_partial s p (Z.of_nat <$> l) p b 0 0) as Hp. unfold slots in Hp. cbn [replicate] in Hp. rewrite !app_nil_r, !Nat.add_0_r in Hp.
  apply Hp; [exact Ho|done|by rewrite El].
Qed.

(** The other variables do not matter. *)
Lemma holds_vars l p b s s' : holds l p b fr s -> m_heap s' = m_heap s -> m_next s' = m_next s -> cpu_to_em_pd s' = cpu_to_em_pd s -> em_pd_to_cpu s' = em_pd_to_cpu s -> em_pds s' = em_pds s ->
  em_pds_backup s' = em_pds_backup s -> pixel_em_num_cpu_pds s' = pixel_em_num_cpu_pds s -> pixel_em_max_cpu s' = pixel_em_max_cpu s -> holds l p b fr s'.
Proof.
  intros [] E1 E2 E3 E4 E5 E6 E7 E8. split; [|by rewrite E7|by rewrite E8|done|done|done|done|by rewrite E8]. unfold arrays. rewrite E3, E4, E5, E6, E8. by eapply owns_vars.
Qed.

(** C25. With a device-tree profile that stays inside the tables, or none: a probe that
    fails, wherever memory ends or the framework refuses, has freed every block and
    forgotten every pointer, and publishes nothing; a probe that succeeds holds a clone
    and a default of each domain of the kernel, both with the powers of the
    device-tree profile, if there is one and no allocation was refused, and has
    published the array. The kernel's own domains are untouched either way. *)
Theorem probe_clones_or_nothing dt folder_ok file_ok s : idle s -> platform_dev s = false -> sysfs_em_pd_lock s = false -> dt_safe dt ->
  wp (pixel_em_drv_probe nr_cpu_ids cpu_possible_mask em_cpu_get dt folder_ok file_ok) (fun r s' =>
    (r < 0 /\ idle s' /\ m_heap s' = m_heap s /\ vendor_sched_cpu_to_em_pd s' = vendor_sched_cpu_to_em_pd s /\ exynos_cpu_cooling_cpu_to_em_pd s' = exynos_cpu_cooling_cpu_to_em_pd s) \/
    (r = 0 /\ vendor_sched_cpu_to_em_pd s' = cpu_to_em_pd s' /\ exynos_cpu_cooling_cpu_to_em_pd s' = cpu_to_em_pd s' /\ sysfs_em_pd_lock s' = false /\ platform_dev s' = true /\
     exists l pcs bcs, layout (S nr_cpu_ids) cpu_possible_mask = Some l /\ holds l pcs bcs fr s' /\ (c_span <$> pcs) = (c_span ∘ kd <$> l) /\ set_up dt (false ∈ m_mem s) l (c_table <$> pcs) /\ (c_table <$> bcs) = (c_table <$> pcs))) s.
Proof.
  intros Hi Hd Hlk Hdt. unfold pixel_em_drv_probe. apply wp_bind. apply wp_shrinks; [exact shrinks_layout|]. eapply wp_init_layout; [exact Hi| | |].
  - intros _ _. destruct (Z.ltb_spec (- EPROBE_DEFER) 0) as [Hr|]; [|done]. eapply (wp_give_up [] [] [] []); [|exact Hi|done|done|intros; by left].
    destruct Hi. split; rewrite ?id_cpu0, ?id_first0, ?id_pds0, ?id_backup0; done.
  - intros cs fs pds bks s1 H1 Eo _. destruct (outside_parts _ _ Eo) as (_ & Ed & Ev & Ee). destruct (Z.ltb_spec (- ENOMEM) 0) as [Hr|]; [|done].
    eapply wp_give_up; [exact H1|exact Hi|congruence|done|]. intros s2 ? ? ? ?. left. repeat (split; [done|]). split; congruence.
  - intros l p b s1 El Hc H1 Em Eo Hmem. destruct (outside_parts _ _ Eo) as (Elk & Ed & Ev & Ee). cbn [Z.ltb Z.compare]. apply wp_bind. eapply wp_profile; [exact Hdt|exact El|exact Hc|exact H1|exact Em|].
    intros p' b' s2 H2 V2 Esh Hset Etab. destruct (outside_parts _ _ (outside_vars _ _ V2)) as (Elk2 & Ed2 & Ev2 & Ee2).
    assert (Hbad : forall s3, holds l p' b' fr s3 -> platform_dev s3 = false -> vendor_sched_cpu_to_em_pd s3 = vendor_sched_cpu_to_em_pd s -> exynos_cpu_cooling_cpu_to_em_pd s3 = exynos_cpu_cooling_cpu_to_em_pd s ->
      forall Q : Z -> em -> Prop, (forall r s', r < 0 /\ idle s' /\ m_heap s' = m_heap s /\ vendor_sched_cpu_to_em_pd s' = vendor_sched_cpu_to_em_pd s /\ exynos_cpu_cooling_cpu_to_em_pd s' = exynos_cpu_cooling_cpu_to_em_pd s -> Q r s') ->
      wp (do! pixel_em_drv_undo_probe in kret (- EINVAL)) Q s3).
    { intros s3 H3 Ed3 Ev3 Ee3 Q HQ. destruct (holds_partial _ _ _ _ H3) as (cs & fs & Hp). eapply wp_give_up; [exact Hp|exact Hi|done|done|]. intros s4 ? ? ? ?. apply HQ. repeat (split; [done|]). split; congruence. }
    assert (Hfold : holds l p' b' fr (s2 <| primary_sysfs_folder := true |>)) by (by eapply holds_vars).
    apply wp_bind. unfold pixel_em_initialize_sysfs_nodes. apply wp_bind, wp_get. destruct (primary_sysfs_folder s2).
    { apply wp_ret. apply Hbad; [done|congruence..|]. intros. by left. }
    destruct folder_ok; cbn [negb]; [|apply wp_ret, Hbad; [done|congruence..|intros; by left]]. apply wp_bind, wp_mod.
    destruct file_ok; cbn [negb]; apply wp_ret; [|apply Hbad; [done|simpl; congruence..|intros; by left]].
    apply wp_bind, wp_mod, wp_bind, wp_mod, wp_bind, wp_mod, wp_ret. right. simpl. repeat (split; [done|]). split; [congruence|]. split; [done|].
    exists l, p', b'. split; [done|]. split; [|split; [|split; [|done]]].
    + by eapply holds_vars.
    + rewrite (shapes_spans _ _ Esh), (strips_spans _ _ (cloned_strip _ _ _ _ Hc)). by rewrite <- list_fmap_compose.
    + destruct dt as [t|]; [|done]. destruct Hset as [|[Hg ?]]; [by left|]. right. split; [|done]. by eapply refused_in.
Qed.

(** Removing the driver frees its defaults and the list of first cpus, and
    nothing that it has published: the array of the cpus and every clone that it
    leads to are as they were, and so are the kernel's domains. *)
Theorem remove_keeps_shared l pcs bcs s : holds l pcs bcs fr s -> platform_dev s = true ->
  wp pixel_em_drv_remove (fun r s' => r = 0 /\ platform_dev s' = false /\ idle_pointers s' /\ vendor_sched_cpu_to_em_pd s' = vendor_sched_cpu_to_em_pd s /\
    exynos_cpu_cooling_cpu_to_em_pd s' = exynos_cpu_cooling_cpu_to_em_pd s /\
    owns s' ((cpu_to_em_pd s, BPtrs (cpu_ptrs (pixel_em_max_cpu s) pcs)) :: (em_pds s, BPtrs (c_ptr <$> pcs)) :: flat_map clone_blocks pcs ++ fr)) s.
Proof.
  intros H Hd. pose proof (hl_owns _ _ _ _ _ H) as Ho. unfold arrays in Ho. unfold pixel_em_drv_remove, pixel_em_drv_undo_probe, pixel_em_clean_up_sysfs_nodes.
  apply wp_bind, wp_bind, wp_mod, wp_bind, wp_get, wp_bind. simpl. rewrite Hd. apply wp_ret, wp_bind.
  set (shared := (cpu_to_em_pd s, BPtrs (cpu_ptrs (pixel_em_max_cpu s) pcs)) :: (em_pds s, BPtrs (c_ptr <$> pcs)) :: flat_map clone_blocks pcs ++ fr) in *.
  eapply (wp_kfree _ (BInts (Z.of_nat <$> l)) ((em_pds_backup s, BPtrs (c_ptr <$> bcs)) :: flat_map clone_blocks bcs ++ shared)).
  { assert (owns s ((em_pd_to_cpu s, BInts (Z.of_nat <$> l)) :: (em_pds_backup s, BPtrs (c_ptr <$> bcs)) :: flat_map clone_blocks bcs ++ shared)) as H' by (unfold shared; same_blocks Ho). by eapply (owns_vars s). }
  intros s1 H1 V1. apply wp_bind, wp_mod, wp_bind. assert (Hb : em_pds_backup s <> 0) by (eapply owns_nonzero; [exact H1|by left]). simpl in V1.
  eapply (wp_free_pds _ (slots bcs 0) shared).
  - rewrite slots_ptrs, slots_blocks, arr_some by done. cbn [replicate]. rewrite app_nil_r. eapply owns_vars; [exact H1|done|done].
  - done.
  - intros _. rewrite slots_length, Nat.add_0_r, (Forall2_length _ _ _ (hl_backup _ _ _ _ _ H)), <- (hl_num _ _ _ _ _ H). simpl. by rewrite V1.
  - intros s2 H2 V2. apply wp_mod, wp_ret. split; [done|]. split; [done|]. split; [split; [done|split; [simpl; by rewrite V2|done]]|]. split; [rewrite V2; simpl; by rewrite V1|]. split; [rewrite V2; simpl; by rewrite V1|].
    eapply owns_vars; [exact H2|done|done].
Qed.
End Init.
