(* ===== verification/PixelEmCases.v ===== *)
(** * The energy model: a machine, and what the driver does not handle

    Four cpus in two domains, on which every theorem is applied, and the texts
    that go wrong. *)

From Stdlib Require Import Sorted Ascii.
From S2P Require Import Prelude PixelEm PixelEmText PixelEmSpec PixelEmFile PixelEmProbe.

(** ** The machine *)

Definition little : clone := MkClone 1 2 0 {[0%nat; 1%nat]} [MkPs 300 10 35; MkPs 600 40 70; MkPs 1000 100 100].
Definition big : clone := MkClone 3 4 0 {[2%nat; 3%nat]} [MkPs 500 90 540; MkPs 3000 900 900].
Definition kernel : blocks := clone_blocks little ++ clone_blocks big.
Definition kernel_of (cpu : nat) : clone := if (cpu <? 2)%nat then little else big.
Definition em_of (cpu : nat) : Z := if (cpu <? 4)%nat then c_ptr (kernel_of cpu) else 0.
Definition all_cpus : cpumask_t := {[0%nat; 1%nat; 2%nat; 3%nat]}.
Definition boot : em := MkEm (list_to_map kernel) 5 [] 0 0 0 0 0 0 false false false 0 0.
Definition probe (dt : option string) : PM Z := pixel_em_drv_probe 4 all_cpus em_of dt true true.

Lemma little_ok : table_ok (c_table little).
Proof. split; [done|repeat constructor|repeat constructor]. Qed.
Lemma big_ok : table_ok (c_table big).
Proof. split; [done|repeat constructor|repeat constructor]. Qed.

Lemma machine_ok : kernel_ok 4 all_cpus em_of kernel_of kernel.
Proof.
  split; [lia|set_solver| |].
  - intros c Hc. unfold all_cpus in Hc. set_solver by lia.
  - intros c Hc _. assert (c = 0%nat \/ c = 1%nat \/ c = 2%nat \/ c = 3%nat) as Hcases by (unfold all_cpus in Hc; set_solver).
    assert (forall c', c' ∈ c_span (kernel_of c) -> (c < 2)%nat /\ (c' = 0 \/ c' = 1)%nat \/ (2 <= c)%nat /\ (c' = 2 \/ c' = 3)%nat) as Hs.
    { intros c'. destruct Hcases as [-> | [-> | [-> | ->] ] ]; simpl; set_solver by lia. }
    split; [destruct Hcases as [-> | [-> | [-> | ->] ] ]; done|]. split; [destruct Hcases as [-> | [-> | [-> | ->] ] ]; intros x Hx; apply elem_of_app; auto|].
    split; [destruct Hcases as [-> | [-> | [-> | ->] ] ]; apply little_ok || apply big_ok|]. split; [destruct Hcases as [-> | [-> | [-> | ->] ] ]; simpl; set_solver|].
    intros c' Hc'. apply Hs in Hc'. split; [unfold all_cpus; set_solver|]. destruct Hcases as [-> | [-> | [-> | ->] ] ], Hc' as [ [? [-> | ->] ] | [? [-> | ->] ] ]; done || lia.
Qed.

Lemma boot_owns : owns boot kernel.
Proof. split; [done|by apply (bool_decide_unpack _)|repeat constructor|done]. Qed.
Lemma boot_idle : idle kernel boot.
Proof. split; [exact boot_owns|done..]. Qed.

(** After the probe. *)
Definition litt' : clone := MkClone 9 10 0 {[0%nat; 1%nat]} (c_table little).
Definition big' : clone := MkClone 13 14 0 {[2%nat; 3%nat]} (c_table big).
Definition litt0 : clone := MkClone 11 12 0 {[0%nat; 1%nat]} (c_table little).
Definition big0 : clone := MkClone 15 16 0 {[2%nat; 3%nat]} (c_table big).
Definition ready_blocks : blocks := [(5, BPtrs [9; 9; 13; 13]); (6, BInts [0; 2]); (7, BPtrs [9; 13]); (8, BPtrs [11; 15])] ++ flat_map clone_blocks [litt'; big'] ++ flat_map clone_blocks [litt0; big0] ++ kernel.
Definition ready : em := MkEm (list_to_map ready_blocks) 17 [] 3 2 7 8 5 6 false true true 5 5.

Example probe_ready : probe None boot = Done 0 ready.
Proof. vm_compute. reflexivity. Qed.

Lemma ready_holds : holds [0%nat; 2%nat] [litt'; big'] [litt0; big0] kernel ready.
Proof.
  split; [|done| | | | | |done].
  - split; [vm_compute; reflexivity|by apply (bool_decide_unpack _)|by apply (bool_decide_unpack _)|done].
  - apply Forall2_cons; split; [split; [simpl; set_solver|done]|]. apply Forall2_cons; split; [split; [simpl; set_solver|done]|done].
  - repeat constructor.
  - repeat constructor; apply little_ok || apply big_ok.
  - repeat constructor; apply little_ok || apply big_ok.
  - intros [|[|i]] [|[|j]] c d Hi Hj Hij; simpl in *; try done; injection Hi as <-; injection Hj as <-; simpl; set_solver.
Qed.

(** ** The theorems on the machine *)

(** Lines of a text. *)
#[local] Open Scope string_scope.
#[local] Open Scope Z_scope.
Definition nl : string := String newline EmptyString.
Definition new_powers : string := "cpu0 {" ++ nl ++ "  300 20" ++ nl ++ "600 80" ++ nl ++ "}" ++ nl ++ "cpu3 {" ++ nl ++ "3000 1000" ++ nl ++ "}" ++ nl.
Definition new_little : clone := litt' <| c_table := [MkPs 300 20 66; MkPs 600 80 133; MkPs 1000 100 100] |>.
Definition new_big : clone := big' <| c_table := [MkPs 500 90 540; MkPs 3000 1000 1000] |>.

Example new_powers_apply : apply_lines 3 (read_text (str_take (String.length new_powers) (c_string new_powers))) (-1) [litt'; big'] = Some (0, [new_little; new_big]).
Proof. vm_compute. reflexivity. Qed.

Definition too_fast : string := "cpu0" ++ nl ++ "1001 5".
Example too_fast_outside : apply_lines 3 (read_text (str_take (String.length too_fast) (c_string too_fast))) (-1) [litt'; big'] = None.
Proof. vm_compute. reflexivity. Qed.

(** A history: the powers change, one text is refused, the profile is read. *)
Definition history : list em_event := [EvWrite new_powers (String.length new_powers); EvMemory [false]; EvWrite "cpu0" 4; EvRead; EvWrite "nonsense" 8].
Lemma history_safe : Forall (safe_event (pixel_em_max_cpu ready) [litt'; big']) history.
Proof. repeat (apply Forall_cons; split; [first [exact I|right; eexists; vm_compute; reflexivity]|]). by apply Forall_nil. Qed.

Lemma store_applies_text_witness : holds [0%nat; 2%nat] [litt'; big'] [litt0; big0] kernel ready /\
  wp (sysfs_profile_store new_powers (String.length new_powers)) (fun a s' => sysfs_em_pd_lock s' = false /\ a = - EINVAL /\ holds [0%nat; 2%nat] [new_little; new_big] [litt0; big0] kernel s') ready /\
  sysfs_profile_store too_fast (String.length too_fast) ready = Fault.
Proof.
  split; [exact ready_holds|]. pose proof (store_applies_text [0%nat; 2%nat] new_powers (String.length new_powers) _ _ _ _ ready_holds eq_refl eq_refl) as H1.
  pose proof (store_applies_text [0%nat; 2%nat] too_fast (String.length too_fast) _ _ _ _ ready_holds eq_refl eq_refl) as H2.
  unfold text_outcome in H1, H2. change (granted ready) with true in H1, H2. cbv iota in H1, H2. change (pixel_em_max_cpu ready) with 3 in H1, H2. rewrite new_powers_apply in H1. rewrite too_fast_outside in H2. by split.
Defined.

Lemma saved_profile_restores_witness : fits (profile_lines [0%nat; 2%nat] (c_table <$> [litt'; big'])) /\
  wp (let! text := sysfs_profile_show in do! m_iter em_step history in kret text) (fun text s1 => exists pcs1, holds [0%nat; 2%nat] pcs1 [litt0; big0] kernel s1 /\
    wp (sysfs_profile_store text (String.length text)) (fun a s' => exists pcs', holds [0%nat; 2%nat] pcs' [litt0; big0] kernel s' /\ shapes pcs' = shapes [litt'; big'] /\
      if granted s1 then a = - EINVAL /\ ((fun c => power <$> c_table c) <$> pcs') = [[10; 40; 100]; [90; 900]] else a = Z.of_nat (String.length text) /\ pcs' = pcs1) s1) ready.
Proof.
  assert (fits (profile_lines [0%nat; 2%nat] (c_table <$> [litt'; big']))) as Hf by (apply Nat.ltb_lt; vm_compute; reflexivity). split; [exact Hf|].
  apply (saved_profile_restores _ _ _ _ _ history ready_holds); [reflexivity|exact Hf|exact history_safe].
Defined.
(** The write back finds memory. *)
Example history_granted : wp (let! text := sysfs_profile_show in do! m_iter em_step history in kret text) (fun text s1 => granted s1 = true) ready.
Proof. vm_compute. reflexivity. Qed.

Lemma default_restores_witness : Forall (safe_event (pixel_em_max_cpu ready) [litt'; big']) history /\
  wp (do! m_iter em_step history in sysfs_profile_store "default" 7) (fun a s' => a = 7 /\ sysfs_em_pd_lock s' = false /\
    exists pcs', holds [0%nat; 2%nat] pcs' [litt0; big0] kernel s' /\ shapes pcs' = shapes [litt'; big'] /\ (c_table <$> pcs') = (c_table <$> [litt0; big0])) ready.
Proof. split; [exact history_safe|]. apply (default_restores _ _ _ _ _ history "default" 7 ready_holds); [reflexivity|exact history_safe|reflexivity]. Defined.

Definition dt_text : string := "cpu0 {" ++ nl ++ "600 44" ++ nl ++ "}" ++ nl.
Lemma dt_text_safe : dt_safe 4 all_cpus em_of kernel_of (Some dt_text).
Proof. intros p l [= <-] El. vm_compute in El. injection El as <-. eexists. vm_compute. reflexivity. Qed.

Lemma probe_clones_or_nothing_witness : idle kernel boot /\
  wp (pixel_em_drv_probe 4 all_cpus em_of (Some dt_text) true true) (fun r s' =>
    (r < 0 /\ idle kernel s' /\ m_heap s' = m_heap boot /\ vendor_sched_cpu_to_em_pd s' = 0 /\ exynos_cpu_cooling_cpu_to_em_pd s' = 0) \/
    (r = 0 /\ vendor_sched_cpu_to_em_pd s' = cpu_to_em_pd s' /\ exynos_cpu_cooling_cpu_to_em_pd s' = cpu_to_em_pd s' /\ sysfs_em_pd_lock s' = false /\ platform_dev s' = true /\
     exists l pcs bcs, layout 4 em_of kernel_of 5 all_cpus = Some l /\ holds l pcs bcs kernel s' /\ (c_span <$> pcs) = (c_span ∘ kernel_of <$> l) /\
       set_up 4 all_cpus kernel_of (Some dt_text) (false ∈ m_mem boot) l (c_table <$> pcs) /\ (c_table <$> bcs) = (c_table <$> pcs))) boot.
Proof. split; [exact boot_idle|]. apply (probe_clones_or_nothing 4 all_cpus em_of kernel_of kernel machine_ok (Some dt_text) true true boot boot_idle); [reflexivity|reflexivity|exact dt_text_safe]. Defined.

Lemma remove_keeps_shared_witness : platform_dev ready = true /\
  wp pixel_em_drv_remove (fun r s' => r = 0 /\ platform_dev s' = false /\ idle_pointers s' /\ vendor_sched_cpu_to_em_pd s' = 5 /\ exynos_cpu_cooling_cpu_to_em_pd s' = 5 /\
    owns s' ((5, BPtrs (cpu_ptrs 3 [litt'; big'])) :: (7, BPtrs [9; 13]) :: flat_map clone_blocks [litt'; big'] ++ kernel)) ready.
Proof. split; [reflexivity|]. apply (remove_keeps_shared kernel [0%nat; 2%nat] _ _ _ ready_holds). reflexivity. Defined.

(** ** What goes wrong *)

(** The result of the parser is taken for its opposite: a good profile is answered
    with an error, a bad one with success. *)
Lemma answer_inverted : (exists s, sysfs_profile_store new_powers (String.length new_powers) ready = Done (- EINVAL) s) /\ (exists s, sysfs_profile_store "nonsense" 8 ready = Done 8 s).
Proof. split; eexists; vm_compute; reflexivity. Qed.

(** A frequency above the last of its domain is written behind the table. *)
Lemma too_fast_overruns : sysfs_profile_store too_fast (String.length too_fast) ready = Fault.
Proof. vm_compute. reflexivity. Qed.

(** A frequency between two entries sets the faster entry's cost as if the entry
    had the frequency of the text. *)
Lemma cost_of_other_frequency : exists s, sysfs_profile_store ("cpu0" ++ nl ++ "500 50") 11 ready = Done (- EINVAL) s /\ m_heap s !! 10 = Some (BTable [MkPs 300 10 35; MkPs 600 50 100; MkPs 1000 100 100]).
Proof. eexists. split; vm_compute; reflexivity. Qed.

(** A profile that is refused has been applied up to the line in question; in the
    device tree it becomes the default. *)
Lemma refused_half_applied : exists s, probe (Some ("cpu0" ++ nl ++ "300 12" ++ nl ++ "x")%string) boot = Done 0 s /\ m_heap s !! 12 = Some (BTable [MkPs 300 12 40; MkPs 600 40 70; MkPs 1000 100 100]).
Proof. eexists. split; vm_compute; reflexivity. Qed.

(** Two possible cpus with a gap between them: a profile of the cpu in the gap
    follows a null pointer. *)
Definition gap_of (cpu : nat) : Z := if (cpu =? 0)%nat then 1 else if (cpu =? 2)%nat then 3 else 0.
Definition gap_boot : em := MkEm (list_to_map (clone_blocks (little <| c_span := {[0%nat]} |>) ++ clone_blocks (big <| c_span := {[2%nat]} |>))) 5 [] 0 0 0 0 0 0 false false false 0 0.
Lemma cpu_in_gap_faults : (do! pixel_em_drv_probe 3 {[0%nat; 2%nat]} gap_of None true true in sysfs_profile_store ("cpu1" ++ nl ++ "500 50") 11) gap_boot = Fault.
Proof. vm_compute. reflexivity. Qed.
