(* ===== verification/Logbuf.v ===== *)
(** * Log buffers

    [drivers/misc/logbuffer.c]: drivers write lines of text with a time stamp into
    rings of 1024 slots, which a device file shows. The memory of the instances is
    a heap of blocks; clocks are read by the caller of an operation. *)

From S2P Require Import Prelude.

(** ** Data *)

Definition LOG_BUFFER_ENTRIES : Z := 1024.
Definition LOG_BUFFER_ENTRY_SIZE : nat := 256.
Definition ID_LENGTH : nat := 50.
Record logbuffer := MkLog { logbuffer_head : Z; logbuffer_tail : Z; logbuffer_lock : bool; buffer : Z; id : string; name : string }.
#[export] Instance eta_log : Eta logbuffer := mk_eta (fun i => MkLog (logbuffer_head i) (logbuffer_tail i) (logbuffer_lock i) (buffer i) (id i) (name i)).

(** An instance, or the text in the slots of its buffer. *)
Inductive lb_block := BInstance (i : logbuffer) | BLines (l : list string).
Record lb_world := MkWorld { w_heap : gmap Z lb_block; w_next : Z; w_misc : list Z; suspend_since_last_logged : bool }.
#[export] Instance eta_lb_world : Eta lb_world := mk_eta (fun w => MkWorld (w_heap w) (w_next w) (w_misc w) (suspend_since_last_logged w)).
Abbreviation LM A := (M lb_world A).

(** What the clocks say: [local_clock], and the time of day. *)
Record rtc_time := MkRtc { tm_year : Z; tm_mon : Z; tm_mday : Z; tm_hour : Z; tm_min : Z; tm_sec : Z }.
Record lb_clocks := MkClocks { local_clock : Z; tm : rtc_time; tv_nsec : Z }.

(** ** Memory *)

Definition lb_alloc (ok : bool) (b : lb_block) : LM Z := fun w =>
  if ok then Done (w_next w) (w <| w_heap := <[w_next w := b]> (w_heap w) |> <| w_next := w_next w + 1 |>) else Done 0 w.
(** An error pointer is no block. *)
Definition lb_free (p : Z) : LM unit := fun w => if p =? 0 then Done tt w else match w_heap w !! p with Some _ => Done tt (w <| w_heap := delete p (w_heap w) |>) | None => Fault end.
Definition get_instance (p : Z) : LM logbuffer := fun w => match w_heap w !! p with Some (BInstance i) => Done i w | _ => Fault end.
Definition mod_instance (p : Z) (f : logbuffer -> logbuffer) : LM unit :=
  let! i := get_instance p in kmod (fun w => w <| w_heap := <[p := BInstance (f i)]> (w_heap w) |>).
Definition get_lines (p : Z) : LM (list string) := fun w => match w_heap w !! p with Some (BLines l) => Done l w | _ => Fault end.
Definition set_line (p i : Z) (s : string) : LM unit :=
  let! l := get_lines p in
  if (i <? 0) || (Z.of_nat (length l) <=? i) then kfault else kmod (fun w => w <| w_heap := <[p := BLines (<[Z.to_nat i := s]> l)]> (w_heap w) |>).

(** The kernel's error pointers. *)
Definition ERR_PTR (e : Z) : Z := u64 e.

(** ** Text *)

Fixpoint fill_left (n : nat) (c : Ascii.ascii) (s : string) : string := match n with O => s | S n => String c (fill_left n c s) end.
Definition pad_left (width : nat) (c : Ascii.ascii) (s : string) : string := fill_left (width - String.length s) c s.
Definition c_blank : Ascii.ascii := Ascii.ascii_of_nat 32.
Definition c_zero : Ascii.ascii := Ascii.ascii_of_nat 48.

(** ["[%5lu.%06lu] "], of nanoseconds. *)
Definition stamp (ts_nsec : Z) : string :=
  ("[" ++ pad_left 5 c_blank (print_lu (ts_nsec / 1000000000)) ++ "." ++ pad_left 6 c_zero (print_lu (ts_nsec mod 1000000000 / 1000)) ++ "] ")%string.
Definition two (n : Z) : string := pad_left 2 c_zero (print_d n).
Definition utc_line (t : lb_clocks) : string :=
  (stamp (local_clock t) ++ print_d (tm_year (tm t) + 1900) ++ "-" ++ two (tm_mon (tm t) + 1) ++ "-" ++ two (tm_mday (tm t)) ++ " " ++
   two (tm_hour (tm t)) ++ ":" ++ two (tm_min (tm t)) ++ ":" ++ two (tm_sec (tm t)) ++ "." ++ pad_left 9 c_zero (print_lu (tv_nsec t)) ++ " UTC")%string.
Definition message_line (t : lb_clocks) (tmpbuffer : string) : string := (stamp (local_clock t) ++ tmpbuffer)%string.
(** What [scnprintf] leaves in a slot. *)
Definition in_slot (s : string) : string := str_take (LOG_BUFFER_ENTRY_SIZE - 1) (c_string s).

(** What [vsnprintf] leaves in [tmpbuffer]. *)
Definition in_tmp (s : string) : string := str_take (LOG_BUFFER_ENTRY_SIZE - 1) s.

(** ** Logging *)

(** Without a format nothing was written to [tmpbuffer]. *)
Definition __logbuffer_log (instance : Z) (t : lb_clocks) (tmpbuffer : option string) (record_utc : bool) : LM unit :=
  let! i := get_instance instance in
  do! (if record_utc then set_line (buffer i) (logbuffer_head i) (in_slot (utc_line t))
       else match tmpbuffer with
            | None => kfault
            | Some tmp => set_line (buffer i) (logbuffer_head i) (in_slot (message_line t tmp))
            end) in
  do! mod_instance instance (fun i => i <| logbuffer_head := (logbuffer_head i + 1) mod LOG_BUFFER_ENTRIES |>) in
  let! i := get_instance instance in
  if logbuffer_head i =? logbuffer_tail i then mod_instance instance (fun i => i <| logbuffer_tail := (logbuffer_tail i + 1) mod LOG_BUFFER_ENTRIES |>) else kret tt.

Definition spin_lock (instance : Z) : LM unit := let! i := get_instance instance in if logbuffer_lock i then kblock else mod_instance instance (fun i => i <| logbuffer_lock := true |>).
Definition spin_unlock (instance : Z) : LM unit := mod_instance instance (fun i => i <| logbuffer_lock := false |>).

(** The text is the format with its arguments; [t1] and [t2] are the clocks at the
    first and the last line. *)
Definition logbuffer_vlog (instance : Z) (fmt : option string) (t1 t2 : lb_clocks) : LM unit :=
  if instance =? 0 then kret tt
  else
    let tmpbuffer := in_tmp <$> fmt in
    do! spin_lock instance in
    let! i := get_instance instance in
    if (logbuffer_head i <? 0) || (LOG_BUFFER_ENTRIES <=? logbuffer_head i) then spin_unlock instance
    else
      let! w := kget in
      if (logbuffer_head i =? logbuffer_tail i) || (logbuffer_head i =? LOG_BUFFER_ENTRIES - 1) then
        do! __logbuffer_log instance t1 tmpbuffer true in
        do! __logbuffer_log instance t2 tmpbuffer false in
        spin_unlock instance
      else if suspend_since_last_logged w then
        do! __logbuffer_log instance t1 tmpbuffer true in
        do! kmod (fun w => w <| suspend_since_last_logged := false |>) in
        do! __logbuffer_log instance t2 tmpbuffer false in
        spin_unlock instance
      else match fmt with
           | None => spin_unlock instance
           | Some _ => do! __logbuffer_log instance t2 tmpbuffer false in spin_unlock instance
           end.

Definition logbuffer_log : Z -> option string -> lb_clocks -> lb_clocks -> LM unit := logbuffer_vlog.

(** ** Showing *)

(** From slot [tail] to the head. *)
Fixpoint show_slots (fuel : nat) (l : list string) (tail head : Z) : LM (list string) :=
  match fuel with
  | O => kblock
  | S fuel =>
      if tail =? head then kret []
      else match l !! Z.to_nat tail with
           | None => kfault
           | Some s => let! rest := show_slots fuel l ((tail + 1) mod LOG_BUFFER_ENTRIES) head in kret (s :: rest)
           end
  end.
(** The lines, each of which is printed with a newline. *)
Definition logbuffer_seq_show (instance : Z) : LM (list string) :=
  do! spin_lock instance in
  let! i := get_instance instance in
  let! l := get_lines (buffer i) in
  let! out := show_slots (Z.to_nat LOG_BUFFER_ENTRIES) l (logbuffer_tail i) (logbuffer_head i) in
  do! spin_unlock instance in
  kret out.

(** ** Registering *)

(** What memory and the framework answer. *)
Definition logbuffer_register (instance_ok buffer_ok misc_ok : bool) (nm : string) : LM Z :=
  let! instance := lb_alloc instance_ok (BInstance (MkLog 0 0 false 0 "" "")) in
  if instance =? 0 then kret (ERR_PTR (- ENOMEM))
  else
    let! buf := lb_alloc buffer_ok (BLines (replicate (Z.to_nat LOG_BUFFER_ENTRIES) ""%string)) in
    do! mod_instance instance (fun i => i <| buffer := buf |>) in
    if buf =? 0 then
      let instance := ERR_PTR (- ENOMEM) in
      do! lb_free instance in kret (ERR_PTR (- ENOMEM))
    else
      do! mod_instance instance (fun i => i <| name := str_take (ID_LENGTH - 1) ("logbuffer_" ++ c_string nm)%string |>) in
      if negb misc_ok then
        do! lb_free buf in
        do! lb_free instance in
        kret (ERR_PTR (- ENOMEM))
      else
        do! kmod (fun w => w <| w_misc := instance :: w_misc w |>) in
        do! mod_instance instance (fun i => i <| id := strlcpy (c_string nm) ID_LENGTH |> <| logbuffer_lock := false |>) in
        kret instance.

Definition logbuffer_unregister (instance : Z) : LM unit :=
  if instance =? 0 then kret tt
  else
    do! kmod (fun w => w <| w_misc := filter (fun p => p <> instance) (w_misc w) |>) in
    let! i := get_instance instance in
    do! lb_free (buffer i) in
    lb_free instance.

Definition logbuffer_suspend : LM Z := do! kmod (fun w => w <| suspend_since_last_logged := true |>) in kret 0.
