(* ===== verification/LogbufSpec.v ===== *)
(** * What a log buffer shows

    Each instance as the list of all lines ever written to it: it shows the last
    1023 of them, in order, whatever other instances do. *)

From S2P Require Import Prelude Logbuf.

#[local] Arguments in_tmp : simpl never.
#[local] Arguments in_slot : simpl never.

(** ** The ring *)

Abbreviation SIZE := 1024%nat.
(** The number of lines a ring holds. *)
Definition shown (lines : list string) : list string := drop (length lines - 1023) lines.

(** The slots [l] and the indices hold the last of [lines]. *)
Record shows (lines : list string) (i : logbuffer) (l : list string) : Prop := MkShows {
  sh_length : length l = SIZE;
  sh_head : logbuffer_head i = Z.of_nat (length lines) mod 1024;
  sh_tail : logbuffer_tail i = Z.of_nat (length lines - 1023) mod 1024;
  sh_slots : forall k, (k < length lines)%nat -> (length lines <= k + 1023)%nat -> l !! Z.to_nat (Z.of_nat k mod 1024) = lines !! k
}.

Lemma shows_empty i : logbuffer_head i = 0 -> logbuffer_tail i = 0 -> shows [] i (replicate SIZE "").
Proof. intros H1 H2. split; [apply length_replicate|done|done|intros k Hk; simpl in Hk; lia]. Qed.

(** The indices meet only when nothing was written. *)
Lemma shows_meet lines i l : shows lines i l -> (logbuffer_head i =? logbuffer_tail i) = bool_decide (lines = []).
Proof.
  intros [_ Hh Ht _]. rewrite Hh, Ht. destruct lines as [|x lines]; [done|]. rewrite (bool_decide_false (x :: lines = [])) by done. apply Z.eqb_neq. simpl length. intros E.
  Z.to_euclidean_division_equations. lia.
Qed.

Lemma shows_indices lines i l : shows lines i l -> 0 <= logbuffer_head i < 1024 /\ 0 <= logbuffer_tail i < 1024.
Proof. intros [_ -> -> _]. split; apply Z.mod_pos_bound; lia. Qed.

(** Writing a line. *)
Lemma shows_write lines i l s : shows lines i l -> let h := (logbuffer_head i + 1) mod 1024 in
  shows (lines ++ [s]) (i <| logbuffer_head := h |> <| logbuffer_tail := if h =? logbuffer_tail i then (logbuffer_tail i + 1) mod 1024 else logbuffer_tail i |>) (<[Z.to_nat (logbuffer_head i) := s]> l).
Proof.
  intros H h. pose proof (shows_indices _ _ _ H) as [Bh Bt]. destruct H as [Hl Hh Ht Hs]. set (n := length lines) in *. assert (length (lines ++ [s]) = S n) as En by (rewrite length_app; simpl; lia).
  split; simpl; rewrite ?En.
  - by rewrite length_insert.
  - unfold h. rewrite Hh. Z.to_euclidean_division_equations. lia.
  - unfold h. rewrite Hh, Ht. destruct (Z.eqb_spec ((Z.of_nat n mod 1024 + 1) mod 1024) (Z.of_nat (n - 1023) mod 1024)) as [E|E]; Z.to_euclidean_division_equations; lia.
  - intros k Hk Hk'. destruct (decide (k = n)) as [->|Hne].
    + rewrite <- Hh, list_lookup_insert_eq by lia. symmetry. by apply list_lookup_middle.
    + rewrite list_lookup_insert_ne by (rewrite Hh; Z.to_euclidean_division_equations; lia). rewrite Hs by lia. rewrite lookup_app_l by (fold n; lia). done.
Qed.

(** Reading from the tail to the head. *)
Lemma wp_show_slots lines i l w : shows lines i l -> forall fuel k (Q : list string -> lb_world -> Prop), (k <= length lines)%nat -> (length lines <= k + 1023)%nat -> (length lines - k < fuel)%nat ->
  Q (drop k lines) w -> wp (show_slots fuel l (Z.of_nat k mod 1024) (logbuffer_head i)) Q w.
Proof.
  intros H. destruct H as [Hl Hh Ht Hs]. induction fuel as [|fuel IH]; intros k Q H1 H2 Hf HQ; [lia|]. cbn [show_slots]. rewrite Hh. destruct (decide (k = length lines)) as [->|Hne].
  - rewrite Z.eqb_refl, drop_all in *. by apply wp_ret.
  - destruct (Z.eqb_spec (Z.of_nat k mod 1024) (Z.of_nat (length lines) mod 1024)) as [E|_]; [exfalso; Z.to_euclidean_division_equations; lia|]. rewrite Hs by lia.
    destruct (lines !! k) as [s|] eqn:El; [|apply lookup_ge_None in El; lia]. rewrite (drop_S _ _ _ El) in HQ. apply wp_bind. unfold LOG_BUFFER_ENTRIES.
    replace ((Z.of_nat k mod 1024 + 1) mod 1024) with (Z.of_nat (S k) mod 1024) by (Z.to_euclidean_division_equations; lia). rewrite <- Hh. apply IH; [lia|lia|lia|]. by apply wp_ret.
Qed.

(** ** One instance *)

(** The world with an instance and its slots. *)
Definition put (p : Z) (i : logbuffer) (l : list string) (w : lb_world) : lb_world := w <| w_heap := <[p := BInstance i]> (<[buffer i := BLines l]> (w_heap w)) |>.

Lemma put_self p i l w : w_heap w !! p = Some (BInstance i) -> w_heap w !! buffer i = Some (BLines l) -> put p i l w = w.
Proof. intros H1 H2. unfold put. rewrite (insert_id _ (buffer i)), insert_id by done. by destruct w. Qed.

Section Instance.
Context (p : Z).
Implicit Types (i : logbuffer) (l : list string) (w : lb_world).

Lemma wp_get_instance i l w (Q : logbuffer -> lb_world -> Prop) : Q i (put p i l w) -> wp (get_instance p) Q (put p i l w).
Proof. intros H. unfold wp, get_instance, put. simpl. by rewrite lookup_insert_eq. Qed.

Lemma wp_mod_instance f i l w (Q : unit -> lb_world -> Prop) : buffer (f i) = buffer i -> Q tt (put p (f i) l w) -> wp (mod_instance p f) Q (put p i l w).
Proof. intros E H. apply wp_bind, wp_get_instance, wp_mod. unfold put in *. simpl. rewrite E in H. by rewrite insert_insert_eq. Qed.

Lemma wp_get_lines i l w (Q : list string -> lb_world -> Prop) : p <> buffer i -> Q l (put p i l w) -> wp (get_lines (buffer i)) Q (put p i l w).
Proof. intros Hp H. unfold wp, get_lines, put. simpl. by rewrite lookup_insert_ne, lookup_insert_eq by done. Qed.

Lemma wp_set_line i l w k s (Q : unit -> lb_world -> Prop) : p <> buffer i -> 0 <= k < Z.of_nat (length l) -> Q tt (put p i (<[Z.to_nat k := s]> l) w) -> wp (set_line (buffer i) k s) Q (put p i l w).
Proof.
  intros Hp Hk H. apply wp_bind, wp_get_lines; [done|]. destruct (Z.ltb_spec k 0), (Z.leb_spec (Z.of_nat (length l)) k); [lia..|].
  apply wp_mod. unfold put in *. simpl in *. by rewrite insert_insert_ne, insert_insert_eq by done.
Qed.

(** One line is written and the indices follow. *)
Lemma wp_log lines i l w t tmp utc s (Q : unit -> lb_world -> Prop) : p <> buffer i -> shows lines i l ->
  (if utc : bool then Some (in_slot (utc_line t)) else (fun m => in_slot (message_line t m)) <$> tmp) = Some s ->
  (forall i' l', buffer i' = buffer i -> logbuffer_lock i' = logbuffer_lock i -> shows (lines ++ [s]) i' l' -> Q tt (put p i' l' w)) -> wp (__logbuffer_log p t tmp utc) Q (put p i l w).
Proof.
  intros Hp Hs Es HQ. pose proof (shows_indices _ _ _ Hs) as [Bh Bt]. pose proof (shows_write lines i l s Hs) as Hw. cbv zeta in Hw. pose proof (sh_length _ _ _ Hs) as El.
  unfold __logbuffer_log. apply wp_bind, wp_get_instance, wp_bind.
  assert (Hset : wp (if utc then set_line (buffer i) (logbuffer_head i) (in_slot (utc_line t)) else match tmp with None => kfault | Some tmp => set_line (buffer i) (logbuffer_head i) (in_slot (message_line t tmp)) end)
    (fun _ w' => w' = put p i (<[Z.to_nat (logbuffer_head i) := s]> l) w) (put p i l w)).
  { destruct utc; [injection Es as <-; apply wp_set_line; [done|lia|done]|]. destruct tmp as [m|]; [|done]. injection Es as <-. apply wp_set_line; [done|lia|done]. }
  eapply wp_mono; [exact Hset|]. intros _ w' ->. apply wp_bind, wp_mod_instance; [done|]. apply wp_bind, wp_get_instance. simpl. unfold LOG_BUFFER_ENTRIES in *.
  destruct ((logbuffer_head i + 1) mod 1024 =? logbuffer_tail i) eqn:E; [apply wp_mod_instance; [done|]; simpl|apply wp_ret]; (apply HQ; [done|done|exact Hw]).
Qed.

(** The lines of a call: the time of day before the first line, where the ring
    ends, and after a suspend. *)
Definition next_lines (n : nat) (susp : bool) (fmt : option string) (t1 t2 : lb_clocks) : option (list string * bool) :=
  let message := (fun m => in_slot (message_line t2 (in_tmp m))) <$> fmt in
  if (n =? 0)%nat || (n mod 1024 =? 1023)%nat then m ← message; Some ([in_slot (utc_line t1); m], susp)
  else if susp then m ← message; Some ([in_slot (utc_line t1); m], false)
  else Some (option_list message, susp).

(** The message, and the end of the section under the lock. *)
Lemma wp_last lines i l w t m (Q : unit -> lb_world -> Prop) : p <> buffer i -> shows lines i l ->
  (forall i' l', buffer i' = buffer i -> logbuffer_lock i' = false -> shows (lines ++ [in_slot (message_line t m)]) i' l' -> Q tt (put p i' l' w)) ->
  wp (do! __logbuffer_log p t (Some m) false in spin_unlock p) Q (put p i l w).
Proof.
  intros Hp Hs HQ. apply wp_bind. eapply wp_log; [done|exact Hs|done|]. intros i' l' Eb _ Hs'. apply wp_mod_instance; [done|]. apply HQ; [done|done|by destruct Hs'].
Qed.

Lemma wp_vlog lines i l w fmt t1 t2 new susp (Q : unit -> lb_world -> Prop) : p <> 0 -> p <> buffer i -> shows lines i l -> logbuffer_lock i = false ->
  next_lines (length lines) (suspend_since_last_logged w) fmt t1 t2 = Some (new, susp) ->
  (forall i' l', buffer i' = buffer i -> logbuffer_lock i' = false -> shows (lines ++ new) i' l' -> Q tt (put p i' l' (w <| suspend_since_last_logged := susp |>))) ->
  wp (logbuffer_vlog p fmt t1 t2) Q (put p i l w).
Proof.
  intros H0 Hp Hs Hl En HQ. pose proof (shows_indices _ _ _ Hs) as [Bh _]. pose proof (shows_meet _ _ _ Hs) as Hm. pose proof (sh_head _ _ _ Hs) as Hh. unfold logbuffer_vlog. destruct (Z.eqb_spec p 0); [done|].
  apply wp_bind, wp_bind, wp_get_instance. rewrite Hl. apply wp_mod_instance; [done|]. set (i1 := i <| logbuffer_lock := true |>). assert (shows lines i1 l) as Hs1 by (by destruct Hs). assert (p <> buffer i1) as Hp1 by done.
  apply wp_bind, wp_get_instance. change (logbuffer_head i1) with (logbuffer_head i). change (logbuffer_tail i1) with (logbuffer_tail i). unfold LOG_BUFFER_ENTRIES in *.
  destruct (Z.ltb_spec (logbuffer_head i) 0), (Z.leb_spec 1024 (logbuffer_head i)); [lia..|]. cbn [orb]. apply wp_bind, wp_get. rewrite Hm. change (suspend_since_last_logged (put p i1 l w)) with (suspend_since_last_logged w).
  assert (Ec : bool_decide (lines = []) || (logbuffer_head i =? 1024 - 1) = (length lines =? 0)%nat || (length lines mod 1024 =? 1023)%nat).
  { f_equal; [by destruct lines|]. rewrite Hh. apply eq_true_iff_eq. rewrite Z.eqb_eq, Nat.eqb_eq, <- (Nat2Z.inj_iff _ 1023), Nat2Z.inj_mod. simpl. lia. }
  unfold next_lines in En. rewrite Ec. destruct ((length lines =? 0)%nat || (length lines mod 1024 =? 1023)%nat).
  - destruct fmt as [m|]; [|done]. injection En as <- <-. apply wp_bind. eapply wp_log; [exact Hp1|exact Hs1|done|]. intros i2 l2 E2 _ Hs2. apply wp_last with (lines := lines ++ [in_slot (utc_line t1)]); [by rewrite E2|exact Hs2|].
    intros i3 l3 E3 Hl3 Hs3. rewrite <- app_assoc in Hs3. specialize (HQ i3 l3). rewrite E3, E2 in HQ. destruct w. by apply HQ.
  - destruct (suspend_since_last_logged w) eqn:Esusp.
    + destruct fmt as [m|]; [|done]. injection En as <- <-. apply wp_bind. eapply wp_log; [exact Hp1|exact Hs1|done|]. intros i2 l2 E2 _ Hs2. apply wp_bind, wp_mod.
      change (wp (do! __logbuffer_log p t2 (Some (in_tmp m)) false in spin_unlock p) Q (put p i2 l2 (w <| suspend_since_last_logged := false |>))).
      apply wp_last with (lines := lines ++ [in_slot (utc_line t1)]); [by rewrite E2|exact Hs2|]. intros i3 l3 E3 Hl3 Hs3. rewrite <- app_assoc in Hs3. apply HQ; [by rewrite E3, E2|done|done].
    + injection En as <- <-. assert (w = w <| suspend_since_last_logged := false |>) as Ew by (destruct w; simpl in *; by subst). destruct fmt as [m|].
      * apply wp_last with (lines := lines); [done|exact Hs1|]. intros i3 l3 E3 Hl3 Hs3. rewrite Ew. by apply HQ.
      * apply wp_mod_instance; [done|]. rewrite Ew. apply HQ; [done|done|]. rewrite app_nil_r. by destruct Hs.
Qed.

#[local] Opaque show_slots.
Lemma wp_seq_show lines i l w (Q : list string -> lb_world -> Prop) : shows lines i l -> logbuffer_lock i = false -> p <> buffer i -> Q (shown lines) (put p i l w) -> wp (logbuffer_seq_show p) Q (put p i l w).
Proof.
  intros Hs Hl Hp HQ. unfold logbuffer_seq_show. apply wp_bind, wp_bind, wp_get_instance. rewrite Hl. apply wp_mod_instance; [done|]. apply wp_bind, wp_get_instance.
  apply wp_bind, wp_get_lines; [done|]. apply wp_bind. set (i1 := i <| logbuffer_lock := true |>). change (logbuffer_tail i1) with (logbuffer_tail i). change (logbuffer_head i1) with (logbuffer_head i).
  rewrite (sh_tail _ _ _ Hs). eapply (wp_show_slots lines i l _ Hs); [lia|lia|unfold LOG_BUFFER_ENTRIES; lia|]. apply wp_bind, wp_mod_instance; [done|]. apply wp_ret. fold (shown lines). unfold i1.
  replace (i <| logbuffer_lock := true |> <| logbuffer_lock := false |>) with i; [exact HQ|]. destruct i; simpl in *; by subst.
Qed.
End Instance.
#[local] Transparent show_slots.

(** ** All instances *)

(** The registered instances with everything written to them. Every block belongs
    to one of them, and no two share a buffer. *)
Record world_ok (logs : gmap Z (list string)) (w : lb_world) : Prop := MkWorldOk {
  wo_inst : forall p lines, logs !! p = Some lines -> exists i l, w_heap w !! p = Some (BInstance i) /\ w_heap w !! buffer i = Some (BLines l) /\ shows lines i l /\ logbuffer_lock i = false;
  wo_own : forall q b, w_heap w !! q = Some b -> match b with BInstance _ => is_Some (logs !! q) | BLines _ => exists p i, w_heap w !! p = Some (BInstance i) /\ buffer i = q end;
  wo_alone : forall p p' i i', w_heap w !! p = Some (BInstance i) -> w_heap w !! p' = Some (BInstance i') -> buffer i = buffer i' -> p = p';
  wo_next : 0 < w_next w /\ forall q b, w_heap w !! q = Some b -> 0 < q < w_next w;
  wo_misc : NoDup (w_misc w) /\ forall p, p ∈ w_misc w <-> is_Some (logs !! p)
}.

Lemma world_ok_susp logs w b : world_ok logs w -> world_ok logs (w <| suspend_since_last_logged := b |>).
Proof. intros []. by split. Qed.

(** An instance, and that its two blocks are not the same. *)
Lemma world_instance logs w p lines : world_ok logs w -> logs !! p = Some lines -> exists i l, put p i l w = w /\ p <> buffer i /\ p <> 0 /\ shows lines i l /\ logbuffer_lock i = false /\
  w_heap w !! p = Some (BInstance i) /\ w_heap w !! buffer i = Some (BLines l).
Proof.
  intros H Hp. destruct (wo_inst _ _ H p lines Hp) as (i & l & H1 & H2 & H3 & H4). exists i, l. split; [by apply put_self|]. split; [intros E; congruence|]. split; [|done].
  pose proof (proj2 (wo_next _ _ H) p _ H1). lia.
Qed.

(** Only its lines change. *)
Lemma world_put logs w p i0 l0 i l lines lines0 : world_ok logs w -> logs !! p = Some lines0 -> w_heap w !! p = Some (BInstance i0) -> w_heap w !! buffer i0 = Some (BLines l0) -> buffer i = buffer i0 ->
  shows lines i l -> logbuffer_lock i = false -> world_ok (<[p := lines]> logs) (put p i l w).
Proof.
  intros [H1 H2 H3 H4 H5] Hp Hi Hl Eb Hs Hk. assert (p <> buffer i) as Hne by congruence.
  assert (Hinst : forall q j, w_heap (put p i l w) !! q = Some (BInstance j) -> (q = p /\ j = i) \/ (q <> p /\ w_heap w !! q = Some (BInstance j))).
  { intros q j. unfold put. simpl. destruct (decide (q = p)) as [->|Hq]; [rewrite lookup_insert_eq; intros [= <-]; by left|]. rewrite lookup_insert_ne by done.
    destruct (decide (q = buffer i)) as [->|Hq']; [by rewrite lookup_insert_eq|]. rewrite lookup_insert_ne by done. by right. }
  assert (Hkeep : forall q b, w_heap w !! q = Some b -> q <> p -> q <> buffer i -> w_heap (put p i l w) !! q = Some b) by (intros q b Hq Hqp Hqb; unfold put; simpl; by rewrite !lookup_insert_ne).
  split.
  - intros q lq Hq. destruct (decide (q = p)) as [->|Hqp].
    + rewrite lookup_insert_eq in Hq. injection Hq as <-. exists i, l. unfold put. simpl. rewrite lookup_insert_eq, lookup_insert_ne, lookup_insert_eq by done. done.
    + rewrite lookup_insert_ne in Hq by done. destruct (H1 q lq Hq) as (j & m & Hj & Hm & Hsj & Hkj). exists j, m.
      assert (buffer j <> buffer i) by (intros E; apply Hqp; eapply H3; [exact Hj|exact Hi|congruence]). split; [apply Hkeep; [done|done|congruence]|]. split; [apply Hkeep; [done|congruence|done]|]. done.
  - intros q b Hq. destruct b as [j|m].
    + destruct (Hinst q j Hq) as [[-> ->]|[Hqp Hq']]; [by rewrite lookup_insert_eq|]. rewrite lookup_insert_ne by done. exact (H2 q _ Hq').
    + destruct (decide (q = buffer i)) as [->|Hqb].
      * exists p, i. unfold put. simpl. by rewrite lookup_insert_eq.
      * unfold put in Hq. simpl in Hq. destruct (decide (q = p)) as [->|Hqp]; [by rewrite lookup_insert_eq in Hq|]. rewrite !lookup_insert_ne in Hq by done. destruct (H2 q _ Hq) as (p' & j & Hj & <-).
        exists p', j. split; [|done]. apply Hkeep; [done|intros ->; congruence|intros ->; congruence].
  - intros q q' j j' Hq Hq' E. destruct (Hinst q j Hq) as [[-> ->]|[Hqp Hj]], (Hinst q' j' Hq') as [[-> ->]|[Hqp' Hj']]; [done| | |by eapply H3].
    + eapply H3; [exact Hi|exact Hj'|congruence].
    + eapply H3; [exact Hj|exact Hi|congruence].
  - split; [apply H4|]. intros q b Hq. unfold put in Hq. simpl in Hq. destruct (decide (q = p)) as [->|Hqp]; [by eapply H4|]. rewrite lookup_insert_ne in Hq by done.
    destruct (decide (q = buffer i)) as [->|Hqb]; [rewrite Eb; by eapply H4|]. rewrite lookup_insert_ne in Hq by done. by eapply H4.
  - split; [apply H5|]. intros q. change (w_misc (put p i l w)) with (w_misc w). rewrite (proj2 H5). destruct (decide (q = p)) as [->|Hqp]; [rewrite lookup_insert_eq, Hp; split; by eexists|by rewrite lookup_insert_ne].
Qed.

Lemma wp_world_vlog logs w p lines fmt t1 t2 new susp : world_ok logs w -> logs !! p = Some lines -> next_lines (length lines) (suspend_since_last_logged w) fmt t1 t2 = Some (new, susp) ->
  wp (logbuffer_vlog p fmt t1 t2) (fun _ w' => world_ok (<[p := lines ++ new]> logs) w' /\ suspend_since_last_logged w' = susp) w.
Proof.
  intros H Hp En. destruct (world_instance _ _ _ _ H Hp) as (i & l & Ew & Hne & H0 & Hs & Hk & Hi & Hl). rewrite <- Ew at 1.
  eapply wp_vlog; [done|done|exact Hs|exact Hk|exact En|]. intros i' l' Eb Hk' Hs'. split; [|done]. eapply world_put; [by apply world_ok_susp|exact Hp|exact Hi|exact Hl|exact Eb|exact Hs'|exact Hk'].
Qed.

Lemma wp_world_show logs w p lines : world_ok logs w -> logs !! p = Some lines -> wp (logbuffer_seq_show p) (fun out w' => out = shown lines /\ w' = w) w.
Proof. intros H Hp. destruct (world_instance _ _ _ _ H Hp) as (i & l & Ew & Hne & _ & Hs & Hk & _). rewrite <- Ew at 1. by apply (wp_seq_show p lines). Qed.

(** ** Registering *)

Lemma world_fresh logs w q : world_ok logs w -> w_next w <= q -> w_heap w !! q = None.
Proof. intros H Hq. destruct (w_heap w !! q) as [b|] eqn:E; [|done]. pose proof (proj2 (wo_next _ _ H) q b E). lia. Qed.

Lemma world_unknown logs w p : world_ok logs w -> w_heap w !! p = None -> logs !! p = None.
Proof. intros H Hp. destruct (logs !! p) as [lines|] eqn:E; [|done]. destruct (wo_inst _ _ H p lines E) as (i & l & Hi & _). congruence. Qed.

(** A new instance, in the two blocks after all others. *)
Lemma world_add logs w i : world_ok logs w -> buffer i = w_next w + 1 -> logbuffer_head i = 0 -> logbuffer_tail i = 0 -> logbuffer_lock i = false ->
  world_ok (<[w_next w := []]> logs) (put (w_next w) i (replicate SIZE "") (w <| w_next := w_next w + 1 + 1 |> <| w_misc := w_next w :: w_misc w |>)).
Proof.
  intros H Eb Eh Et Ek. set (p := w_next w) in *. set (w' := put p i (replicate SIZE "") (w <| w_next := p + 1 + 1 |> <| w_misc := p :: w_misc w |>)). assert (Eh' : w_heap w' = <[p := BInstance i]> (<[buffer i := BLines (replicate SIZE "")]> (w_heap w))) by done.
  assert (Hp : w_heap w !! p = None) by (eapply world_fresh; [done|unfold p; lia]). assert (Hb : w_heap w !! buffer i = None) by (rewrite Eb; eapply world_fresh; [done|unfold p; lia]).
  pose proof (world_unknown _ _ _ H Hp) as Hlp. destruct H as [H1 H2 H3 H4 H5]. assert (p <> buffer i) as Hne by lia.
  assert (Hold : forall q b, w_heap w !! q = Some b -> q <> p /\ q <> buffer i) by (intros q b Hq; split; intros ->; congruence).
  assert (Hinv : forall q b, w_heap w' !! q = Some b ->
    (q = p /\ b = BInstance i) \/ (q = buffer i /\ b = BLines (replicate SIZE "")) \/ w_heap w !! q = Some b).
  { intros q b Hq. rewrite Eh' in Hq. destruct (decide (q = p)) as [->|Hqp]; [rewrite lookup_insert_eq in Hq; injection Hq as <-; by left|]. rewrite lookup_insert_ne in Hq by done.
    destruct (decide (q = buffer i)) as [->|Hqb]; [rewrite lookup_insert_eq in Hq; injection Hq as <-; right; by left|]. rewrite lookup_insert_ne in Hq by done. by do 2 right. }
  assert (Hkeep : forall q b, w_heap w !! q = Some b -> w_heap w' !! q = Some b).
  { intros q b Hq. destruct (Hold q b Hq). by rewrite Eh', !lookup_insert_ne. }
  assert (Hself : w_heap w' !! p = Some (BInstance i)) by (rewrite Eh'; apply lookup_insert_eq).
  assert (Hbuf : w_heap w' !! buffer i = Some (BLines (replicate SIZE ""))) by (by rewrite Eh', lookup_insert_ne, lookup_insert_eq).
  split.
  - intros q lq Hq. destruct (decide (q = p)) as [->|Hqp].
    + rewrite lookup_insert_eq in Hq. injection Hq as <-. exists i, (replicate SIZE ""). split; [exact Hself|]. split; [exact Hbuf|]. split; [by apply shows_empty|done].
    + rewrite lookup_insert_ne in Hq by done. destruct (H1 q lq Hq) as (j & m & Hj & Hm & Hr). exists j, m. split; [by apply Hkeep|]. split; [by apply Hkeep|done].
  - intros q b Hq. destruct (Hinv q b Hq) as [[-> ->]|[[-> ->]|Hq']].
    + by rewrite lookup_insert_eq.
    + by exists p, i.
    + specialize (H2 q b Hq'). destruct b as [j|m].
      * destruct (Hold _ _ Hq'). by rewrite lookup_insert_ne.
      * destruct H2 as (p' & j & Hj & E). exists p', j. split; [by apply Hkeep|done].
  - intros q q' j j' Hq Hq' E. destruct (Hinv q _ Hq) as [[-> [= ->]]|[[_ ?]|Hj]], (Hinv q' _ Hq') as [[-> [= ->]]|[[_ ?]|Hj']]; try done; [| |by eapply H3].
    + specialize (H2 q' _ Hj'). destruct H2 as [lq Hlq]. destruct (H1 _ _ Hlq) as (j2 & m & Hj2 & Hm & _). assert (j2 = j') as -> by congruence. destruct (Hold _ _ Hm). congruence.
    + specialize (H2 q _ Hj). destruct H2 as [lq Hlq]. destruct (H1 _ _ Hlq) as (j2 & m & Hj2 & Hm & _). assert (j2 = j) as -> by congruence. destruct (Hold _ _ Hm). congruence.
  - change (w_next w') with (p + 1 + 1). destruct H4 as [H4 H4']. split; [unfold p; lia|].
    intros q b Hq. destruct (Hinv q b Hq) as [[-> _]|[[-> _]|Hq']]; [unfold p; lia|unfold p in *; lia|]. specialize (H4' q b Hq'). unfold p. lia.
  - change (w_misc w') with (p :: w_misc w). destruct H5 as [H5 H5']. split.
    + constructor; [|done]. rewrite H5', Hlp. by intros [].
    + intros q. rewrite elem_of_cons, H5'. destruct (decide (q = p)) as [->|Hqp]; [rewrite lookup_insert_eq; split; [by eexists|by left]|]. rewrite lookup_insert_ne by done. set_solver.
Qed.

(** Memory that was allocated and freed again. *)
Lemma world_next logs w n : world_ok logs w -> 0 <= n -> world_ok logs (w <| w_next := w_next w + n |>).
Proof. intros [H1 H2 H3 [H4 H4'] H5] Hn. split; [done|done|done| |done]. split; [simpl; lia|]. intros q b Hq. specialize (H4' q b Hq). simpl. lia. Qed.

Lemma wp_lb_alloc b w (Q : Z -> lb_world -> Prop) : Q (w_next w) (w <| w_heap := <[w_next w := b]> (w_heap w) |> <| w_next := w_next w + 1 |>) -> wp (lb_alloc true b) Q w.
Proof. done. Qed.

Lemma wp_lb_free p b w (Q : unit -> lb_world -> Prop) : p <> 0 -> w_heap w !! p = Some b -> Q tt (w <| w_heap := delete p (w_heap w) |>) -> wp (lb_free p) Q w.
Proof. intros H0 Hp H. unfold wp, lb_free. destruct (Z.eqb_spec p 0); [done|]. by rewrite Hp. Qed.

Lemma wp_mod_at p f i w (Q : unit -> lb_world -> Prop) : w_heap w !! p = Some (BInstance i) -> Q tt (w <| w_heap := <[p := BInstance (f i)]> (w_heap w) |>) -> wp (mod_instance p f) Q w.
Proof. intros Hp H. unfold wp, mod_instance, get_instance, kbind. rewrite Hp. exact H. Qed.

(** A failure of the framework: both blocks are freed. *)
Lemma wp_free_both p i l w (Q : unit -> lb_world -> Prop) : p <> 0 -> buffer i <> 0 -> p <> buffer i -> w_heap w !! p = None -> w_heap w !! buffer i = None -> Q tt w ->
  wp (do! lb_free (buffer i) in lb_free p) Q (put p i l w).
Proof.
  intros H0 H1 Hne Hp Hb HQ. apply wp_bind. eapply wp_lb_free; [done|unfold put; simpl; by rewrite lookup_insert_ne, lookup_insert_eq|]. eapply wp_lb_free; [done|unfold put; simpl; by rewrite lookup_delete_ne, lookup_insert_eq|].
  unfold put. simpl. rewrite delete_insert_ne, !delete_insert_eq, !delete_id by (rewrite ?delete_id; done). by destruct w.
Qed.

Lemma wp_logbuffer_register logs w inst_ok buf_ok misc_ok nm : world_ok logs w -> (inst_ok = true -> buf_ok = true) ->
  wp (logbuffer_register inst_ok buf_ok misc_ok nm) (fun r w' => suspend_since_last_logged w' = suspend_since_last_logged w /\
    if inst_ok && misc_ok then logs !! r = None /\ r <> 0 /\ world_ok (<[r := []]> logs) w' else r = ERR_PTR (- ENOMEM) /\ world_ok logs w') w.
Proof.
  intros H Hok. unfold logbuffer_register. destruct inst_ok; [|by apply wp_bind, (wp_eq _ _ _ 0 w)]. rewrite (Hok eq_refl). pose proof (proj1 (wo_next _ _ H)) as Hn.
  pose proof (world_fresh _ _ _ H (Z.le_refl _)) as Hp. set (p := w_next w) in *. assert (Hb : w_heap w !! (p + 1) = None) by (eapply world_fresh; [done|unfold p; lia]).
  set (ls := replicate SIZE ""%string). set (w2 := w <| w_next := p + 1 + 1 |>). apply wp_bind, wp_lb_alloc. fold p. destruct (Z.eqb_spec p 0); [lia|].
  apply wp_bind, wp_lb_alloc. simpl. apply wp_bind. eapply wp_mod_at; [simpl; rewrite lookup_insert_ne by lia; apply lookup_insert_eq|].
  set (i1 := MkLog 0 0 false (p + 1) "" ""). match goal with |- wp _ _ ?u => replace u with (put p i1 ls w2) end.
  2: { unfold put. simpl. f_equal. rewrite (insert_insert_ne (<[p := _]> (w_heap w)) p (p + 1)), insert_insert_eq by lia. apply insert_insert_ne. lia. }
  destruct (Z.eqb_spec (p + 1) 0); [lia|]. apply wp_bind, wp_mod_instance; [done|]. set (i2 := i1 <| name := str_take (ID_LENGTH - 1) ("logbuffer_" ++ c_string nm)%string |>). destruct misc_ok; simpl.
  - apply wp_bind, wp_mod. apply wp_bind. change (wp (mod_instance p (fun i => i <| id := strlcpy (c_string nm) ID_LENGTH |> <| logbuffer_lock := false |>))
      (fun _ => wp (kret p) (fun r w' => suspend_since_last_logged w' = suspend_since_last_logged w /\ logs !! r = None /\ r <> 0 /\ world_ok (<[r := []]> logs) w')) (put p i2 ls (w2 <| w_misc := p :: w_misc w |>))).
    apply wp_mod_instance; [done|]. apply wp_ret. split; [done|]. split; [by eapply world_unknown|]. split; [done|]. by apply world_add.
  - apply (wp_assoc (lb_free (p + 1)) (fun _ => lb_free p)). apply wp_bind, (wp_free_both p i2); [done|done|simpl; lia|done|done|]. apply wp_ret. split; [done|]. split; [done|].
    unfold w2. replace (p + 1 + 1) with (p + 2) by lia. apply world_next; [done|lia].
Qed.

(** ** Unregistering *)

Lemma world_remove logs w p i l lines : world_ok logs w -> logs !! p = Some lines -> w_heap w !! p = Some (BInstance i) -> w_heap w !! buffer i = Some (BLines l) ->
  world_ok (delete p logs) (w <| w_misc := filter (fun q => q <> p) (w_misc w) |> <| w_heap := delete p (delete (buffer i) (w_heap w)) |>).
Proof.
  intros [H1 H2 H3 H4 H5] Hp Hi Hl. assert (p <> buffer i) as Hne by congruence.
  assert (Hinv : forall q b, delete p (delete (buffer i) (w_heap w)) !! q = Some b -> q <> p /\ q <> buffer i /\ w_heap w !! q = Some b) by (intros q b; rewrite !lookup_delete_Some; naive_solver).
  assert (Hkeep : forall q b, q <> p -> q <> buffer i -> w_heap w !! q = Some b -> delete p (delete (buffer i) (w_heap w)) !! q = Some b) by (intros; by rewrite !lookup_delete_ne).
  split; simpl.
  - intros q lq [Hqp Hq]%lookup_delete_Some. destruct (H1 q lq Hq) as (j & m & Hj & Hm & Hr). exists j, m.
    assert (buffer j <> buffer i) by (intros E; apply Hqp; symmetry; by eapply (H3 q p j i)). split; [apply Hkeep; [done|congruence|done]|]. split; [apply Hkeep; [congruence|done|done]|done].
  - intros q b (Hqp & Hqb & Hq)%Hinv. specialize (H2 q b Hq). destruct b as [j|m]; [by rewrite lookup_delete_ne|]. destruct H2 as (p' & j & Hj & E). exists p', j. split; [|done].
    apply Hkeep; [intros ->|intros ->|done]; congruence.
  - intros q q' j j' (_ & _ & Hq)%Hinv (_ & _ & Hq')%Hinv. by eapply H3.
  - split; [apply H4|]. intros q b (_ & _ & Hq)%Hinv. by eapply H4.
  - destruct H5 as [H5 H5']. split; [by apply NoDup_filter|]. intros q. rewrite list_elem_of_filter, H5'. destruct (decide (q = p)) as [->|Hqp]; [rewrite lookup_delete_eq; split; [intros [Hx _]; by destruct Hx|by intros [? ?]]|rewrite lookup_delete_ne by done; tauto].
Qed.

Lemma wp_unregister logs w p lines : world_ok logs w -> logs !! p = Some lines ->
  wp (logbuffer_unregister p) (fun _ w' => world_ok (delete p logs) w' /\ w_heap w' !! p = None) w.
Proof.
  intros H Hp. destruct (world_instance _ _ _ _ H Hp) as (i & l & Ew & Hne & H0 & _ & _ & Hi & Hl). pose proof (proj2 (wo_next _ _ H) _ _ Hl) as Hb. unfold logbuffer_unregister. destruct (Z.eqb_spec p 0); [done|].
  apply wp_bind, wp_mod, wp_bind. apply (wp_eq _ _ _ i (w <| w_misc := filter (fun q => q <> p) (w_misc w) |>)); [unfold get_instance; simpl; by rewrite Hi|].
  apply wp_bind. eapply wp_lb_free; [lia|exact Hl|]. eapply wp_lb_free; [done|simpl; by rewrite lookup_delete_ne by congruence|]. split; [by apply (world_remove logs w p i l lines)|apply lookup_delete_eq].
Qed.

(** ** Histories *)

(** What has been written to the registered instances, by any sequence of calls. A
    call without a format is legal where no time of day is due. *)
Inductive reaches : gmap Z (list string) -> lb_world -> Prop :=
| reach_start : reaches ∅ (MkWorld ∅ 1 [] false)
| reach_register logs w inst_ok buf_ok misc_ok nm r w' : reaches logs w -> (inst_ok = true -> buf_ok = true) -> logbuffer_register inst_ok buf_ok misc_ok nm w = Done r w' ->
    reaches (if inst_ok && misc_ok then <[r := []]> logs else logs) w'
| reach_log logs w p lines fmt t1 t2 new susp w' : reaches logs w -> logs !! p = Some lines -> next_lines (length lines) (suspend_since_last_logged w) fmt t1 t2 = Some (new, susp) ->
    logbuffer_vlog p fmt t1 t2 w = Done tt w' -> reaches (<[p := lines ++ new]> logs) w'
| reach_show logs w p out w' : reaches logs w -> is_Some (logs !! p) -> logbuffer_seq_show p w = Done out w' -> reaches logs w'
| reach_unregister logs w p w' : reaches logs w -> is_Some (logs !! p) -> logbuffer_unregister p w = Done tt w' -> reaches (delete p logs) w'
| reach_suspend logs w r w' : reaches logs w -> logbuffer_suspend w = Done r w' -> reaches logs w'.

Lemma reaches_ok logs w : reaches logs w -> world_ok logs w.
Proof.
  induction 1 as [|logs w a b c nm r w' _ IH Hb E|logs w p lines fmt t1 t2 new susp w' _ IH Hp En E|logs w p out w' _ IH [lines Hp] E|logs w p w' _ IH [lines Hp] E|logs w r w' _ IH E].
  - split; [done|done|done|by split|]. split; [constructor|]. intros p. split; [by intros ?%elem_of_nil|by intros []].
  - pose proof (wp_logbuffer_register _ _ a b c nm IH Hb) as W. unfold wp in W. rewrite E in W. destruct W as [_ W]. destruct (a && c); tauto.
  - pose proof (wp_world_vlog _ _ _ _ _ _ _ _ _ IH Hp En) as W. unfold wp in W. rewrite E in W. tauto.
  - pose proof (wp_world_show _ _ _ _ IH Hp) as W. unfold wp in W. rewrite E in W. destruct W as [_ ->]. done.
  - pose proof (wp_unregister _ _ _ _ IH Hp) as W. unfold wp in W. rewrite E in W. tauto.
  - injection E as <- <-. by apply world_ok_susp.
Qed.

Lemma reaches_show logs w p lines : world_ok logs w -> logs !! p = Some lines -> logbuffer_seq_show p w = Done (shown lines) w.
Proof. intros H Hp. destruct (wp_run _ _ _ (wp_world_show _ _ _ _ H Hp)) as (out & w' & E & -> & ->). exact E. Qed.

(** C29. After any history every registered instance shows exactly the last 1023 of
    the lines written to it, in order, and showing them changes nothing. *)
Theorem shows_last_lines logs w p lines : reaches logs w -> logs !! p = Some lines -> logbuffer_seq_show p w = Done (drop (length lines - 1023) lines) w.
Proof. intros H%reaches_ok. by apply reaches_show. Qed.

Lemma next_lines_message n susp m t1 t2 : exists new susp', next_lines n susp (Some m) t1 t2 = Some (new ++ [in_slot (message_line t2 (in_tmp m))], susp').
Proof. unfold next_lines. simpl. destruct (_ || _); [by exists [in_slot (utc_line t1)], susp|]. destruct susp; [by exists [in_slot (utc_line t1)], false|by exists [], false]. Qed.

Lemma last_drop {A} n (l : list A) : (n < length l)%nat -> last (drop n l) = last l.
Proof. intros H. rewrite <- (take_drop n l) at 2. rewrite last_app. destruct (last (drop n l)) eqn:E; [done|]. apply last_None in E. apply (f_equal length) in E. rewrite length_drop in E. simpl in E. lia. Qed.

(** C30. Logging a message to a registered instance always completes; the message is
    then the last line it shows, and what every other instance shows is unchanged. *)
Theorem message_is_last_line logs w p m t1 t2 : reaches logs w -> is_Some (logs !! p) ->
  exists w' out, logbuffer_vlog p (Some m) t1 t2 w = Done tt w' /\ logbuffer_seq_show p w' = Done out w' /\ last out = Some (in_slot (message_line t2 (in_tmp m))) /\
    forall q, q <> p -> is_Some (logs !! q) -> exists out', logbuffer_seq_show q w = Done out' w /\ logbuffer_seq_show q w' = Done out' w'.
Proof.
  intros H [lines Hp]. destruct (next_lines_message (length lines) (suspend_since_last_logged w) m t1 t2) as (pre & susp & En).
  destruct (wp_run _ _ _ (wp_world_vlog _ _ _ _ _ _ _ _ _ (reaches_ok _ _ H) Hp En)) as ([] & w' & E & H' & _). exists w'.
  set (msg := in_slot (message_line t2 (in_tmp m))) in *. pose proof (reaches_show _ _ p (lines ++ pre ++ [msg]) H' ltac:(apply lookup_insert_eq)) as E'. eexists. split; [done|]. split; [exact E'|]. split.
  - unfold shown. rewrite last_drop by (rewrite !length_app; simpl; lia). by rewrite app_assoc, last_snoc.
  - intros q Hq [lq Hlq]. exists (shown lq). split; [by apply (reaches_show _ _ q lq (reaches_ok _ _ H))|]. apply (reaches_show _ _ q lq H'). by rewrite lookup_insert_ne.
Qed.

(** C37. Memory: in every history each block is an instance that is registered or its
    buffer, so when the last instance is unregistered nothing is left; and
    unregistering an instance always completes. *)
Theorem registered_own_memory logs w : reaches logs w ->
  (logs = ∅ -> w_heap w = ∅ /\ w_misc w = []) /\ (forall p, is_Some (logs !! p) -> exists w', logbuffer_unregister p w = Done tt w' /\ w_heap w' !! p = None /\ reaches (delete p logs) w').
Proof.
  intros H. pose proof (reaches_ok _ _ H) as [_ H2 _ _ [_ H5]]. split.
  - intros ->. assert (Hno : forall q i, w_heap w !! q <> Some (BInstance i)) by (intros q i Hq; by destruct (H2 q _ Hq)). split.
    + apply map_eq. intros q. rewrite lookup_empty. destruct (w_heap w !! q) as [[i|l]|] eqn:Hq; [by destruct (Hno q i)| |done]. destruct (H2 q _ Hq) as (p & i & Hp & _). by destruct (Hno p i).
    + apply elem_of_nil_inv. intros q [x Hx]%H5. done.
  - intros p [lines Hp]. destruct (wp_run _ _ _ (wp_unregister _ _ _ _ (reaches_ok _ _ H) Hp)) as ([] & w' & E & _ & Hw). exists w'. split; [done|]. split; [done|]. by eapply reach_unregister.
Qed.

(** ** Concrete runs *)

Definition start : lb_world := MkWorld ∅ 1 [] false.
Definition a_time : lb_clocks := MkClocks 1500000000 (MkRtc 121 9 28 17 0 5) 42.
(** After [m]. *)
Definition after {A} (m : LM A) (w : lb_world) : lb_world := match m w with Done _ w => w | _ => start end.
(** A registered instance with one message. *)
Definition w1 : lb_world := after (logbuffer_register true true true "tcpm") start.
Definition w2 : lb_world := after (logbuffer_vlog 1 (Some "attached"%string) a_time a_time) w1.
Definition two_lines : list string := ["[    1.500000] 2021-10-28 17:00:05.000000042 UTC"; "[    1.500000] attached"]%string.

Lemma reaches_w1 : reaches {[1 := []]} w1.
Proof. exact (reach_register _ _ true true true "tcpm" 1 w1 reach_start (fun e => e) eq_refl). Qed.

Lemma reaches_w2 : reaches {[1 := two_lines]} w2.
Proof. refine (reach_log _ _ 1 [] (Some "attached"%string) a_time a_time two_lines false w2 reaches_w1 _ _ _); vm_compute; reflexivity. Qed.

Lemma shows_last_lines_witness : logbuffer_seq_show 1 w2 = Done two_lines w2.
Proof. exact (shows_last_lines _ _ 1 two_lines reaches_w2 eq_refl). Defined.

Lemma message_is_last_line_witness : exists w' out, logbuffer_vlog 1 (Some "detached"%string) a_time a_time w2 = Done tt w' /\ logbuffer_seq_show 1 w' = Done out w' /\ last out = Some "[    1.500000] detached"%string.
Proof.
  destruct (message_is_last_line {[1 := two_lines]} w2 1 "detached" a_time a_time reaches_w2) as (w' & out & H1 & H2 & H3 & _); [by eexists|]. by exists w', out.
Defined.

Lemma registered_own_memory_witness : exists w', logbuffer_unregister 1 w2 = Done tt w' /\ w_heap w' !! 1 = None.
Proof. destruct (registered_own_memory _ _ reaches_w2) as [_ H]. destruct (H 1) as (w' & E & Hw & _); [by eexists|]. by exists w'. Defined.

(** When the buffer cannot be allocated [instance] is replaced by an error pointer,
    which is then freed; the instance itself leaks. *)
Lemma no_buffer_faults misc_ok nm : logbuffer_register true false misc_ok nm start = Fault.
Proof. reflexivity. Qed.

(** A call without a format where the time of day is due logs a text that was never
    set: with an empty ring, and after a suspend. *)
Lemma empty_message_unset : logbuffer_vlog 1 None a_time a_time w1 = Fault /\ logbuffer_vlog 1 None a_time a_time (after logbuffer_suspend w2) = Fault.
Proof. split; vm_compute; reflexivity. Qed.

(** The first message to an empty ring prints the time but leaves the mark of the
    suspend: the second message prints the time again. *)
Lemma time_printed_twice :
  (let w := after (logbuffer_vlog 1 (Some "a"%string) a_time a_time) (after logbuffer_suspend w1) in logbuffer_seq_show 1 (after (logbuffer_vlog 1 (Some "b"%string) a_time a_time) w)) =
  let w := after (logbuffer_vlog 1 (Some "a"%string) a_time a_time) (after logbuffer_suspend w1) in
  Done [in_slot (utc_line a_time); "[    1.500000] a"; in_slot (utc_line a_time); "[    1.500000] b"]%string (after (logbuffer_vlog 1 (Some "b"%string) a_time a_time) w).
Proof. vm_compute. reflexivity. Qed.
